(* ===== verification/_CoqProject ===== *)
-Q . S2P
Prelude.v
Strings.v
Url.v
UrlPath.v
UrlParse.v
Tokens.v
QpackStatic.v
HpackInt.v
HuffTable.v
Huffman.v
HuffmanEnc.v
HeaderTable.v
Headers.v
Hpack.v
HpackString.v
HpackSafe.v
HpackSync.v
Http2Frame.v
Http3Frame.v
HpackFlatten.v
HpackParse.v
MessageFields.v
HpackMessage.v
Qpack.v
QpackTable.v
QpackStream.v
QpackBlock.v
QpackEncode.v
QpackAcks.v
QpackMessage.v
Linklist.v
SchedQueue.v
Scheduler.v
SchedulerInv.v
SchedulerMove.v
SchedulerOpen.v
SchedulerRelocate.v
SchedulerRun.v
Timerwheel.v
TimerwheelOk.v
TimerwheelRun.v
TimerwheelWake.v
Timestr.v
Filecache.v
FilecacheOk.v
FileRange.v
FileRangeOk.v
Cache.v
CacheOk.v
CacheRun.v
Absprio.v
Http2Priority.v
Http2PriorityOk.v
Http2PriorityRun.v
Http2Send.v
Http2SendOk.v
Http2SendRun.v
Mimemap.v
FileServe.v
FileServeOk.v
FileServeRun.v
Balancer.v
Socketpool.v
SocketpoolOk.v
SocketpoolRun.v
SocketpoolSafe.v
Dispatch.v
DispatchOk.v
FileReq.v
FileReqOk.v
Http2Streams.v
Http2StreamsOk.v
Http2StreamsRun.v
Http2StreamsEnd.v
Http2Conn.v
Http2ConnOk.v
Http2ConnRun.v
Http2ConnInput.v
Http2ConnBody.v
Http2ConnSafe.v
