(* ===== verification/Prelude.v ===== *)
(** * Verification of the protocol core of h2o (the server of quic-multitest-server)

    The repository packages the HTTP server h2o with Docker images for several congestion
    controllers.  This library models the parts of h2o, under [src/h2o/], that turn octets of
    the network into requests and responses and back, that find the handler of a request, that
    serve files and that keep connections to other servers, and proves what makes them correct.

    ** The program's parts and their models

    An HTTP/2 connection receives frames ([lib/http2/frame.c]), whose header blocks are decoded
    by the HPACK decoder ([lib/http2/hpack.c]) with a dynamic table per direction; the decoder's
    callers [h2o_hpack_parse_request] and [h2o_hpack_parse_response] build header lists
    ([lib/core/headers.c]) whose names are interned tokens ([lib/common/token_table.h]).
    Responses go the other way through [h2o_hpack_flatten_response] and its siblings; their
    bodies wait in the streams ([lib/http2/stream.c]) until the scheduler
    ([lib/http2/scheduler.c]) calls the stream.  HTTP/3 has frames and a header compression of
    its own ([lib/http3/frame.c], [lib/http3/qpack.c]).  A request is bound to a host and a path
    of the configuration and given to their handlers ([lib/core/request.c], [lib/core/config.c]);
    the file handler ([lib/handler/file.c]) answers it from the cache of open files
    ([lib/common/filecache.c]), with dates ([lib/common/time.c]) and media types
    ([lib/handler/mimemap.c]), and its body is a send vector of the stream.  Connections to other
    servers come from pools ([lib/common/socketpool.c]) with load balancers.  URLs ([lib/common/url.c]), linked lists,
    timers ([lib/common/timerwheel.c]), the cache ([lib/common/cache.c]) and the functions on
    strings ([lib/common/string.c]) serve all of them.

    - [Prelude]: machine integers, octet strings, the result type of fallible code, shared
      lemmas, the hint databases and tactics.
    - [Strings]: [lib/common/string.c] and [include/h2o/string_.h].
    - [Url], [UrlPath], [UrlParse]: [lib/common/url.c] and [include/h2o/url.h]: data and
      operations, the normalization of paths, parsing and resolution.
    - [Tokens], [QpackStatic]: [lib/common/token_table.h] (token table, the generated
      [h2o_lookup_token], the HPACK and QPACK static tables and the generated QPACK lookups).
    - [HpackInt], [HuffTable], [Huffman], [HuffmanEnc]: the integer and Huffman codes of
      [hpack.c] and the tables of [hpack_huffman_table.h].
    - [HeaderTable]: the dynamic table ([header_table_add], [header_table_evict_one], ...).
    - [Headers]: [lib/core/headers.c].
    - [Hpack]: the decoder [h2o_hpack_decode_header] and the encoder [do_encode_header], with
      theorems in [HpackString] (string literals), [HpackSafe] (totality of the decoder) and
      [HpackSync] (the two tables stay in step).
    - [Http2Frame]: [lib/http2/frame.c] and the arithmetic of [include/h2o/http2_common.h].
    - [HpackFlatten], [HpackParse], [HpackMessage], [MessageFields]: messages to frames and
      frames to messages; the fields of a message, which HTTP/2 and HTTP/3 share.
    - [Http3Frame]: [lib/http3/frame.c], [h2o_http3_read_frame] and the integers of QUIC.
    - [Qpack], [QpackTable], [QpackStream], [QpackBlock]: the decoder of [qpack.c], its table,
      the encoder stream that it reads and the header blocks.
    - [QpackEncode], [QpackAcks], [QpackMessage]: the encoder of [qpack.c], the decoder stream
      that it reads, and whole messages.
    - [Linklist]: [include/h2o/linklist.h] on a heap of links.
    - [SchedQueue]: the weighted queue of [scheduler.c]; [Scheduler]: the dependency tree, with
      [SchedulerInv], [SchedulerMove], [SchedulerOpen], [SchedulerRelocate] and [SchedulerRun]
      for the invariant and its preservation by each operation.
    - [Absprio]: [lib/common/absprio.c]; [Http2Priority], with [Http2PriorityOk] and
      [Http2PriorityRun]: the use that [connection.c] and [stream.c] make of the tree.
    - [Timerwheel], with [TimerwheelOk], [TimerwheelRun] and [TimerwheelWake]: [timerwheel.c].
    - [Cache], with [CacheOk] and [CacheRun]: [cache.c], and [update_push_memo] as its client.
    - [Http2Send], with [Http2SendOk] and [Http2SendRun]: the sending side of [stream.c], from
      the queue of send vectors to the DATA frames in the write buffer.
    - [Timestr]: [lib/common/time.c].
    - [Filecache], with [FilecacheOk]: [lib/common/filecache.c].
    - [Mimemap]: [lib/handler/mimemap.c].
    - [FileRange] with [FileRangeOk]: [process_range] of [lib/handler/file.c]; [FileServe] with
      [FileServeOk] and [FileServeRun]: from the open file to the response and its body;
      [FileReq] with [FileReqOk]: from the request to the open file.
    - [Dispatch] with [DispatchOk]: the hosts and paths of [lib/core/config.c] and the way of a
      request to its handlers in [lib/core/request.c].
    - [Balancer]: [lib/common/balancer/]; [Socketpool] with [SocketpoolOk], [SocketpoolRun] and
      [SocketpoolSafe]: [lib/common/socketpool.c].
    - [Http2Streams]: the states and counters of the streams of a connection, the queue of
      requests and the ends of streams and connections ([http2_internal.h], [stream.c],
      [connection.c]); [Http2StreamsOk] has the invariant, [Http2StreamsRun] and
      [Http2StreamsEnd] that the operations keep it.
    - [Http2Conn]: the receiving side of [connection.c], from the octets through the handlers of
      the frames to the requests and their bodies; [Http2ConnOk], [Http2ConnRun] and
      [Http2ConnInput] follow it, [Http2ConnBody] is about the bodies of requests,
      [Http2ConnSafe] has the properties, and inputs that are taken badly.

    ** Correspondence

    A pointer into a buffer with its end ([src], [src_end]) is the list of octets that are
    left, a buffer that is written is the list of octets written; an octet is a [Z] that
    [is_byte] bounds; [uint64_t], [size_t] and [uint8_t] arithmetic is on [Z] with the wrap
    written out where it can wrap.  A function that fails returns [option], a sum or [res];
    [None] stands for a failed assertion or a read outside of an object where the comment of
    the definition says so.  An [h2o_iovec_t *] that may point to a token is [name_ref], so
    the code's comparison of pointers is equality.  The dynamic table is the record of its C
    struct, a ring of slots with start index, count and capacity; [Rep] relates it to a list.
    Objects that others point to (links, nodes of the scheduler, timers, cache entries) live in
    finite maps from addresses, so that aliasing is the code's; their lists are the links of
    [Linklist] or, where a component only uses the list operations, the sequence of the members.
    A table of khash is a finite map.  Callbacks (of timers, of the scheduler, of send vectors,
    of the header decoders, of balancers) and code outside of [src/h2o/lib] are parameters, or classes that
    state what is promised of them, with instances.

    Loops are structural on the octets left, or carry fuel: a unit per octet or per entry, the
    number of objects for walks up or down the tree, the length of the list for lists, 64 rounds
    for a pop of the queue of 64 slots, twice the ticks between two runs for the timer wheel, the
    octets of the input for the frames in it, the length of the queue of requests for a pass
    over it, and the number of targets for the tries of a connection.  What the system answers
    (open, stat, pread, connect, getaddrinfo) is an argument.  Each round consumes one unit, so this is enough; the theorems state results, not
    only what holds if there is one.

    Bounds that are assumed where they matter: two to seven timer wheels (one wheel behaves
    differently, see [Timerwheel.one_wheel_early]), times below [2 ^ 64], reference counts below
    [2 ^ 63], and windows and lengths within the width of their type.

    ** What the theorems show

    - Messages ([HpackMessage], [QpackMessage]): a response or a request that is flattened, cut
      into frames, read back and parsed gives the same message, and leaves the tables in step.
    - Header compression: the decoder is total and keeps its table well formed on any octets
      ([HpackSafe]); encoder and decoder tables stay in step ([HpackSync]); the ring buffer
      implements the eviction rules of RFC 7541 ([HeaderTable]); integers, Huffman strings
      and string literals round-trip, and the 256-state decoding table is the code of the
      symbol table ([HpackInt], [Huffman], [HuffmanEnc], [HpackString]).  The streams of QPACK
      are handled alike however they are cut, and keep their states well formed ([QpackStream],
      [QpackAcks]).
    - Parsing ([HpackParse], [QpackBlock]): with any decoder that keeps the promise of the class
      [HeaderDecoder], of which both decoders are instances, a parsed message holds no
      pseudo header in its list and no connection-specific header.
    - Writing ([HpackFlatten]): reserved capacities are enough, and frames carry the block.
    - Frames ([Http2Frame], [Http3Frame]): decoding stays within the input, control frames
      round-trip, padding is removed, settings stay in their ranges.
    - Bodies ([Http2SendRun]): DATA frames respect both windows, carry the contents in order
      however sending is interrupted, and end the stream with the last octet.
    - Connections ([Http2ConnSafe]): no input of the peer makes an assertion fail while the
      connection is open; the counters count the streams and the lists link them; the queue of
      requests runs as far as the limits allow; an error is told in a GOAWAY frame; closing ends
      every stream; the body of a request arrives whole.  The application is the class [App]; what
      is assumed of it ([AppOk]) is that its calls return and keep the books that the invariant
      states, and of the configuration ([config_ok]) that the window of a stream is not below the
      default.
    - Scheduling ([SchedQueue], [SchedulerRun]): the queue is a priority queue that serves in
      proportion to weights; every operation keeps the tree consistent; a run serves all active
      streams.  A connection may use the tree as the client asks ([Http2PriorityRun]): streams go
      where the client wants them, and the last ten closed ones are remembered.
    - Timers ([TimerwheelRun], [TimerwheelWake]): a run calls the timers that expired, each on
      time, and the wheel asks to be woken early enough.
    - The cache ([CacheRun]) stays consistent and is a bounded table that forgets the least
      recently used entry.
    - Files: a request that is bound to the path of a file handler never makes it ask for a path
      outside of its directory ([FileReqOk]); the ranges of a request are those of RFC 7233 and lie
      in the file ([FileRangeOk]); the body is the octets of the file that the header fields
      announce, whole, one range or a multipart body ([FileServeRun]); the cache of open files
      neither leaks nor uses again what is released ([FilecacheOk]); dates round-trip ([Timestr]).
    - Dispatch ([DispatchOk]): the longest path wins in whatever order paths are registered, no
      assertion on handlers fails, and a request is processed again only so many times.
    - Connections to other servers: each balancer chooses as it should ([Balancer]); with any
      balancer that keeps the promise of the class [BalancerOk], a request tries every target, none
      twice, and the counters of a pool are exact but for errors that are written down
      ([SocketpoolSafe]).
    - Linked lists refine sequences ([Linklist]).
    - Strings, URLs and tokens: exactness of numeric parsing, of path normalization, of relative
      resolution and of token lookups, round trips of the encodings and of whole URLs.

    ** Not modelled

    Memory management (pools, buffers, [h2o_hpack_dispose_header_table]), sockets, the event
    loop, TLS and QUIC (vendored), HTTP/1, the clients, the reverse proxy, the handlers other than
    that of files, configuration files, and [h2o_cache_digests_load_header], which is a parameter of
    the request parser.  Of the file handler, directory listings, io_uring and the decompression of
    files are not modelled; of [request.c], filters and errors.  Of the HTTP/2
    connection, [send_headers], the loop of writes, the upgrade from HTTP/1 and
    server push are not modelled; the theorems on input are about a connection that is open, since
    one that shuts down takes trailers badly ([Http2ConnSafe.trailers_after_goaway]). *)
From Stdlib Require Import ZArith Lia Ascii.
From stdpp Require Import base list numbers strings.
Open Scope Z_scope.

(** ** Machine integers and bytes *)

Abbreviation bytes := (list Z).

Definition wrap8 (x : Z) : Z := x mod 2 ^ 8.
Definition wrap16 (x : Z) : Z := x mod 2 ^ 16.
Definition wrap32 (x : Z) : Z := x mod 2 ^ 32.
Definition wrap64 (x : Z) : Z := x mod 2 ^ 64.

(** A cast of a 64-bit pattern to [int64_t]. *)
Definition to_int64 (x : Z) : Z := (x + 2 ^ 63) mod 2 ^ 64 - 2 ^ 63.

Definition INT64_MAX : Z := 2 ^ 63 - 1.
Definition INT32_MAX : Z := 2 ^ 31 - 1.
Definition UINT32_MAX : Z := 2 ^ 32 - 1.
Definition SIZE_MAX : Z := 2 ^ 64 - 1.

Definition is_byte (b : Z) : Prop := 0 <= b < 256.
Abbreviation bytes_ok := (Forall is_byte).

(** The length of a buffer as a [size_t]. *)
Definition len {A} (s : list A) : Z := Z.of_nat (length s).

Definition is_nil {A} (l : list A) : bool := match l with [] => true | _ => false end.

(** [__builtin_clzll], of a number that is not zero. *)
Definition clzll (x : Z) : Z := 63 - Z.log2 x.

(** String literals of the source as byte strings. *)
Definition chr (a : ascii) : Z := Z.of_N (N_of_ascii a).

Fixpoint lit (s : string) : bytes :=
  match s with
  | EmptyString => []
  | String a s' => chr a :: lit s'
  end.

(** The outcome of a fallible function: its result, or the (negative) error code it
    returns with the description it stores in [*err_desc], if any. *)
Inductive res (A : Type) : Type :=
| Ok (a : A)
| Err (code : Z) (desc : option string).
Arguments Ok {A} a.
Arguments Err {A} code desc.

(** ** Proof automation *)

Create HintDb h2o discriminated.
Create Rewrite HintDb h2o.

(** Split on every [if] and [match] on a boolean comparison in sight and close
    what arithmetic closes. *)
Ltac bcase :=
  repeat match goal with
         | |- context [if ?b then _ else _] =>
             lazymatch b with
             | context [if _ then _ else _] => fail
             | _ => destruct b eqn:?
             end
         end.

Ltac bcase_in H :=
  repeat match type of H with
         | context [if ?b then _ else _] =>
             lazymatch b with
             | context [if _ then _ else _] => fail
             | _ => destruct b eqn:?
             end
         end.

(** ** Success of fallible code

    [m] does not stop at an assertion, and its result satisfies [P]. *)

Definition succeeds {A} (m : option A) (P : A -> Prop) : Prop := exists a, m = Some a /\ P a.

Lemma succeeds_some {A} (a : A) (P : A -> Prop) : P a -> succeeds (Some a) P.
Proof. intros. by exists a. Qed.

Lemma succeeds_bind {A B} (m : option A) (f : A -> option B) (P : A -> Prop) (Q : B -> Prop) :
  succeeds m P -> (forall a, P a -> succeeds (f a) Q) -> succeeds (m ≫= f) Q.
Proof. intros (a & -> & Ha) Hf. exact (Hf a Ha). Qed.

Lemma succeeds_weaken {A} (m : option A) (P Q : A -> Prop) : succeeds m P -> (forall a, P a -> Q a) -> succeeds m Q.
Proof. intros (a & -> & Ha) HPQ. exists a. auto. Qed.

(** ** Counting *)

Definition how_many {A} (f : A -> bool) (l : list A) : Z := len (List.filter f l).

Lemma how_many_cons {A} (f : A -> bool) x l : how_many f (x :: l) = (if f x then 1 else 0) + how_many f l.
Proof. unfold how_many, len. simpl. destruct (f x); simpl; lia. Qed.

Lemma how_many_app {A} (f : A -> bool) l1 l2 : how_many f (l1 ++ l2) = how_many f l1 + how_many f l2.
Proof. unfold how_many, len. rewrite List.filter_app, length_app. lia. Qed.

Lemma how_many_bounds {A} (f : A -> bool) l : 0 <= how_many f l <= len l.
Proof. unfold how_many, len. pose proof (List.filter_length_le f l). lia. Qed.

Lemma how_many_split {A} (f : A -> bool) l i x : l !! i = Some x -> how_many f l = (if f x then 1 else 0) + how_many f (delete i l).
Proof.
  intros H. rewrite delete_take_drop, how_many_app. rewrite <- (take_drop_middle l i x H) at 1.
  rewrite how_many_app, how_many_cons. lia.
Qed.

Lemma how_many_insert {A} (f : A -> bool) l i x y : l !! i = Some x ->
  how_many f (<[i:=y]> l) = (if f y then 1 else 0) + how_many f (delete i l).
Proof.
  intros H. pose proof (lookup_lt_Some _ _ _ H) as Hl. rewrite (how_many_split f (<[i:=y]> l) i y) by (by apply list_lookup_insert_eq).
  f_equal. rewrite !delete_take_drop, take_insert_ge, drop_insert_lt by lia. done.
Qed.

(** ** Equality modulo 2^64 *)

Definition congr (x y : Z) : Prop := exists k, x = y + k * 2 ^ 64.

#[export] Instance congr_equiv : Equivalence congr.
Proof.
  split.
  - intros x. exists 0. lia.
  - intros x y [k ->]. exists (- k). lia.
  - intros x y z [k ->] [k' ->]. exists (k + k'). lia.
Qed.

#[export] Instance congr_add : Proper (congr ==> congr ==> congr) Z.add.
Proof. intros x x' [k ->] y y' [k' ->]. exists (k + k'). lia. Qed.

#[export] Instance congr_sub : Proper (congr ==> congr ==> congr) Z.sub.
Proof. intros x x' [k ->] y y' [k' ->]. exists (k - k'). lia. Qed.

Lemma wrap64_congr x : congr (wrap64 x) x.
Proof. exists (- (x / 2 ^ 64)). unfold wrap64. pose proof (Z.div_mod x (2 ^ 64)). lia. Qed.

Lemma congr_small x y : congr x y -> 0 <= x < 2 ^ 64 -> 0 <= y < 2 ^ 64 -> x = y.
Proof. intros [k ->] H1 H2. assert (k = 0) by nia. lia. Qed.

(** ** Bytes: exhaustive reasoning

    A boolean predicate that holds of the 256 byte values, by evaluation, holds of
    every byte. *)

Definition all_bytes : list Z := seqZ 0 256.

Lemma elem_all_bytes b : is_byte b -> b ∈ all_bytes.
Proof. unfold is_byte, all_bytes. intros. apply elem_of_seqZ. lia. Qed.

Lemma byte_forall (P : Z -> bool) :
  forallb P all_bytes = true -> forall b, is_byte b -> P b = true.
Proof.
  intros HP b Hb. rewrite forallb_forall in HP. apply HP.
  apply list_elem_of_In, elem_all_bytes, Hb.
Qed.

Definition byteb (b : Z) : bool := (0 <=? b) && (b <? 256).

Lemma byteb_spec b : byteb b = true <-> is_byte b.
Proof. unfold byteb, is_byte. lia. Qed.

Lemma bytes_okb s : forallb byteb s = true -> bytes_ok s.
Proof.
  rewrite forallb_forall, Forall_forall. intros H x Hx.
  apply byteb_spec, H, list_elem_of_In, Hx.
Qed.

Lemma is_byte_wrap8 x : is_byte (wrap8 x).
Proof. unfold is_byte, wrap8. pose proof (Z.mod_pos_bound x (2 ^ 8)). lia. Qed.

Lemma wrap8_small x : is_byte x -> wrap8 x = x.
Proof. intros. apply Z.mod_small. unfold is_byte in *. lia. Qed.

Lemma wrap64_small x : 0 <= x < 2 ^ 64 -> wrap64 x = x.
Proof. apply Z.mod_small. Qed.

Lemma to_int64_small x : 0 <= x <= INT64_MAX -> to_int64 x = x.
Proof.
  unfold to_int64, INT64_MAX. intros.
  rewrite Z.mod_small; lia.
Qed.

Lemma is_byte_ascii a : is_byte (chr a).
Proof.
  unfold is_byte, chr. pose proof (N_ascii_bounded a). lia.
Qed.

Lemma lit_ok s : bytes_ok (lit s).
Proof. induction s; simpl; constructor; auto using is_byte_ascii. Qed.

#[export] Hint Resolve is_byte_wrap8 is_byte_ascii lit_ok : h2o.

(** ** Bit operations as arithmetic *)

Lemma land_127 b : Z.land b 127 = b mod 128.
Proof. apply (Z.land_ones b 7). lia. Qed.

Lemma land_mask b n : 0 <= n -> Z.land b (Z.shiftl 1 n - 1) = b mod 2 ^ n.
Proof.
  intros. rewrite Z.shiftl_1_l.
  replace (2 ^ n - 1) with (Z.ones n) by (rewrite Z.ones_equiv; lia).
  now apply Z.land_ones.
Qed.

Lemma land_128_byte b : is_byte b -> (Z.land b 128 =? 0) = (b <? 128).
Proof.
  intros Hb.
  apply (byte_forall (fun b => Bool.eqb (Z.land b 128 =? 0) (b <? 128))) in Hb; [|reflexivity].
  now apply Bool.eqb_prop.
Qed.

(** Disjoint bits add up. *)
Lemma lor_shiftl_add a b n :
  0 <= n -> 0 <= a < 2 ^ n -> Z.lor a (Z.shiftl b n) = a + Z.shiftl b n.
Proof.
  intros Hn Ha. symmetry. rewrite Z.add_nocarry_lxor, Z.lxor_lor; auto.
  all: apply Z.bits_inj'; intros i Hi; rewrite Z.land_spec, Z.bits_0.
  all: destruct (Z.lt_ge_cases i n).
  1,3: rewrite Z.shiftl_spec_low by lia; apply andb_false_r.
  all: replace a with (a mod 2 ^ n) by (apply Z.mod_small; lia).
  all: rewrite Z.mod_pow2_bits_high by lia; reflexivity.
Qed.

Lemma lor_add_byte a b : is_byte b -> Z.lor (Z.shiftl a 8) b = Z.shiftl a 8 + b.
Proof.
  intros Hb. rewrite Z.lor_comm, lor_shiftl_add by (unfold is_byte in *; lia). lia.
Qed.

Lemma wrap8_lor_128 v : wrap8 (Z.lor 128 v) = 128 + v mod 128.
Proof.
  unfold wrap8. rewrite <- Z.land_ones, Z.land_lor_distr_l by lia.
  change (Z.land 128 (Z.ones 8)) with 128. rewrite Z.land_ones by lia.
  assert (Hb : is_byte (v mod 2 ^ 8)) by apply is_byte_wrap8.
  apply (byte_forall (fun b => Z.lor 128 b =? 128 + b mod 128)) in Hb; [|reflexivity].
  apply Z.eqb_eq in Hb. rewrite Hb. f_equal.
  change (2 ^ 8) with (128 * 2). rewrite Z.rem_mul_r by lia.
  rewrite (Z.mul_comm 128), Z.mod_add by lia. now rewrite Z.mod_mod by lia.
Qed.

(** ** Lists *)

Lemma filter_all {A} (P : A -> Prop) `{forall x, Decision (P x)} (l : list A) : (forall x, x ∈ l -> P x) -> filter P l = l.
Proof.
  induction l as [|x l IH]; intros Hl; [reflexivity|].
  rewrite filter_cons_True by (apply Hl; left). f_equal. apply IH. intros y Hy. apply Hl. now right.
Qed.

(** A member of a list without duplicates taken out. *)
Lemma filter_ne_middle {A} `{EqDecision A} (a : A) l1 l2 : NoDup (l1 ++ a :: l2) -> filter (.≠ a) (l1 ++ a :: l2) = l1 ++ l2.
Proof.
  intros H. apply NoDup_app in H as (_ & H2 & H3). apply NoDup_cons in H3 as [H3 _].
  rewrite filter_app, filter_cons_False by tauto. f_equal; apply filter_all; intros b Hb ->; [|contradiction].
  apply (H2 a Hb). left.
Qed.

Lemma is_nil_true {A} (l : list A) : is_nil l = true -> l = [].
Proof. now destruct l. Qed.

Lemma not_nil_elem {A} (l : list A) : is_nil l = false -> exists x, x ∈ l.
Proof. destruct l as [|x l]; [discriminate|]. intros _. exists x. left. Qed.

Lemma len_nil {A} : len (@nil A) = 0.
Proof. reflexivity. Qed.
Lemma len_zero {A} (s : list A) : len s = 0 -> s = [].
Proof. unfold len. destruct s; simpl; [done|lia]. Qed.
Lemma len_cons {A} (x : A) s : len (x :: s) = len s + 1.
Proof. unfold len. simpl. lia. Qed.
Lemma len_app {A} (s t : list A) : len (s ++ t) = len s + len t.
Proof. unfold len. rewrite length_app. lia. Qed.
Lemma len_nonneg {A} (s : list A) : 0 <= len s.
Proof. unfold len. lia. Qed.

#[export] Hint Rewrite @len_nil @len_cons @len_app : h2o.
#[export] Hint Resolve len_nonneg : h2o.
