(* ===== verification/Strings.v ===== *)
(** * Strings (lib/common/string.c, include/h2o/string_.h)

    Numbers, base64url, hexadecimal, percent-encoding, tokens of header values, escaping,
    splitting and joining.  A buffer is the list of its octets; a pointer into a buffer
    that a function returns or moves is an offset ([h2o_next_token]) or the octets from it
    on.  A failed allocation is fatal in the program and does not appear. *)
From S2P Require Import Prelude.
From Stdlib Require Import ZArith Lia.
From stdpp Require Import base list numbers option strings.
Open Scope Z_scope.

(** ** Letter case *)

Definition h2o_tolower (ch : Z) : Z := if (65 <=? ch) && (ch <=? 90) then ch + 0x20 else ch.
Definition h2o_toupper (ch : Z) : Z := if (97 <=? ch) && (ch <=? 122) then ch - 0x20 else ch.

Definition h2o_strcopytolower (s : bytes) : bytes := map h2o_tolower s.
Definition h2o_strtolower (s : bytes) : bytes := h2o_strcopytolower s.
Definition h2o_strtoupper (s : bytes) : bytes := map h2o_toupper s.

(** [target] has at least as many octets as [test] where it is called. *)
Fixpoint h2o__lcstris_core (target test : bytes) : bool :=
  match test, target with
  | [], _ => true
  | c :: test, t :: target => (h2o_tolower t =? c) && h2o__lcstris_core target test
  | _ :: _, [] => false
  end.

Definition h2o_lcstris (target test : bytes) : bool :=
  (len target =? len test) && h2o__lcstris_core target test.

(** ** Numbers *)

Definition is_digit (ch : Z) : bool := (48 <=? ch) && (ch <=? 57).

(** The decimal digits of a number below [10 ^ fuel] ([sprintf "%d"] and the loop of
    [encode_content_length]). *)
Fixpoint decimal (fuel : nat) (value : Z) : bytes :=
  match fuel with
  | O => []
  | S fuel => if value / 10 =? 0 then [48 + value mod 10]
              else decimal fuel (value / 10) ++ [48 + value mod 10]
  end.

(** The loop runs backwards over the string; [rs] are the octets left, last one first. *)
Fixpoint strtosize_loop (rs : bytes) (v m : Z) : option Z :=
  match rs with
  | [] => None
  | ch :: rs =>
      if negb (is_digit ch) then None
      else
        let v := wrap64 (v + wrap64 ((ch - 48) * m)) in
        match rs with
        | [] => Some v
        | _ =>
            let m := wrap64 (m * 10) in
            if m =? 10000000000000000000 then None else strtosize_loop rs v m
        end
  end.

Definition h2o_strtosize (s : bytes) : Z :=
  match s with
  | [] => SIZE_MAX
  | _ =>
      match strtosize_loop (rev s) 0 1 with
      | None => SIZE_MAX
      | Some v => if SIZE_MAX <=? v then SIZE_MAX else v
      end
  end.

(** [mem] are the octets in memory from [*s] on, of which [len] are the string's.  [None] is a
    read past [mem].  The value with the number of octets [*s] is moved by. *)
Fixpoint strtosizefwd_loop (mem : bytes) (n len v c : Z) : option (Z * Z) :=
  match mem with
  | [] => None
  | ch :: mem =>
      if negb (is_digit ch) then Some (if SIZE_MAX <=? v then (SIZE_MAX, 0) else (v, n))
      else
        let v := wrap64 (wrap64 (v * 10) + (ch - 48)) in
        let n := n + 1 in
        let c := c + 1 in
        if n =? len then Some (if SIZE_MAX <=? v then (SIZE_MAX, 0) else (v, n))
        else if c =? 20 then Some (SIZE_MAX, 0)
        else strtosizefwd_loop mem n len v c
  end.

Definition h2o_strtosizefwd (mem : bytes) (len : Z) : option (Z * Z) :=
  if len =? 0 then Some (SIZE_MAX, 0)
  else
    match mem with
    | [] => None
    | ch :: mem =>
        if negb (is_digit ch) then Some (SIZE_MAX, 0)
        else strtosizefwd_loop mem 1 len (ch - 48) 1
    end.

(** ** Base64 *)

Definition base64url_digit (c : Z) : option Z :=
  if (65 <=? c) && (c <=? 90) then Some (c - 65)
  else if (97 <=? c) && (c <=? 122) then Some (c - 97 + 26)
  else if is_digit c then Some (c - 48 + 52)
  else if c =? 45 then Some 62
  else if c =? 95 then Some 63
  else if c =? 43 then Some 62
  else if c =? 47 then Some 63
  else None.

(** [UINT32_MAX], the failure, is [None]. *)
Fixpoint base64url_quad_loop (src : bytes) (decoded : Z) : option Z :=
  match src with
  | [] => Some decoded
  | c :: src =>
      match base64url_digit c with
      | None => None
      | Some d =>
          let decoded := Z.lor decoded d in
          match src with
          | [] => Some decoded
          | _ => base64url_quad_loop src (wrap32 (Z.shiftl decoded 6))
          end
      end
  end.

Definition decode_base64url_quad (src : bytes) : option Z := base64url_quad_loop (take 4 src) 0.

(** The octets written, [None] for the error return. *)
Fixpoint decode_base64url_loop (src : bytes) : option bytes :=
  match src with
  | c0 :: c1 :: c2 :: c3 :: src =>
      t ← decode_base64url_quad [c0; c1; c2; c3];
      rest ← decode_base64url_loop src;
      Some (wrap8 (Z.shiftr t 16) :: wrap8 (Z.shiftr t 8) :: wrap8 t :: rest)
  | [] => Some []
  | [_] => None
  | [c0; c1] =>
      t ← decode_base64url_quad [c0; c1; 65; 65];
      Some [wrap8 (Z.shiftr t 16)]
  | [c0; c1; c2] =>
      t ← decode_base64url_quad [c0; c1; c2; 65];
      Some [wrap8 (Z.shiftr t 16); wrap8 (Z.shiftr t 8)]
  end.

(** Outer [None]: the assertion on the length fails; inner [None]: a NULL result. *)
Definition h2o_decode_base64url (src : bytes) : option (option bytes) :=
  match decode_base64url_loop src with
  | None => Some None
  | Some dst => if len dst =? len src * 3 / 4 then Some (Some dst) else None
  end.

Definition MAP : bytes := lit "ABCDEFGHIJKLMNOPQRSTUVWXYZabcdefghijklmnopqrstuvwxyz0123456789+/".
Definition MAP_URL_ENCODED : bytes :=
  lit "ABCDEFGHIJKLMNOPQRSTUVWXYZabcdefghijklmnopqrstuvwxyz0123456789-_".

Definition map_at (map : bytes) (i : Z) : Z := nth (Z.to_nat i) map 0.

Fixpoint base64_encode_loop (map : bytes) (url_encoded : bool) (src : bytes) : bytes :=
  match src with
  | s0 :: s1 :: s2 :: src =>
      let quad := Z.lor (Z.lor (Z.shiftl s0 16) (Z.shiftl s1 8)) s2 in
      map_at map (Z.shiftr quad 18) :: map_at map (Z.land (Z.shiftr quad 12) 63)
      :: map_at map (Z.land (Z.shiftr quad 6) 63) :: map_at map (Z.land quad 63)
      :: base64_encode_loop map url_encoded src
  | [] => []
  | [s0] =>
      let quad := Z.shiftl s0 16 in
      [map_at map (Z.shiftr quad 18); map_at map (Z.land (Z.shiftr quad 12) 63)]
      ++ (if url_encoded then [] else [61; 61])
  | [s0; s1] =>
      let quad0 := Z.shiftl s0 16 in
      let quad := Z.lor quad0 (Z.shiftl s1 8) in
      [map_at map (Z.shiftr quad0 18); map_at map (Z.land (Z.shiftr quad 12) 63);
       map_at map (Z.land (Z.shiftr quad 6) 63)]
      ++ (if url_encoded then [] else [61])
  end.

(** The characters written before the final NUL; their number is the return value. *)
Definition h2o_base64_encode (src : bytes) (url_encoded : bool) : bytes :=
  base64_encode_loop (if url_encoded then MAP_URL_ENCODED else MAP) url_encoded src.

Definition h2o_base64_encode_capacity (len : Z) : Z := (len + 2) / 3 * 4 + 1.

(** ** Hexadecimal *)

Definition decode_hex (ch : Z) : Z :=
  if is_digit ch then ch - 48
  else if (65 <=? ch) && (ch <=? 70) then ch - 65 + 0xa
  else if (97 <=? ch) && (ch <=? 102) then ch - 97 + 0xa
  else -1.

Fixpoint hex_decode_loop (src : bytes) : option bytes :=
  match src with
  | c0 :: c1 :: src =>
      let hi := decode_hex c0 in
      let lo := decode_hex c1 in
      if (hi =? -1) || (lo =? -1) then None
      else rest ← hex_decode_loop src; Some (wrap8 (Z.lor (Z.shiftl hi 4) lo) :: rest)
  | _ => Some []
  end.

(** [None]: -1. *)
Definition h2o_hex_decode (src : bytes) : option bytes :=
  if negb (len src mod 2 =? 0) then None else hex_decode_loop src.

Definition hex_lower : bytes := lit "0123456789abcdef".
Definition hex_upper : bytes := lit "0123456789ABCDEF".

Definition h2o_hex_encode (src : bytes) : bytes :=
  flat_map (fun c => [map_at hex_lower (Z.shiftr c 4); map_at hex_lower (Z.land c 0xf)]) src.

(** ** Percent-encoding *)

Definition uri_preserved (preserve_chars : bytes) (ch : Z) : bool :=
  ((65 <=? ch) && (ch <=? 90)) || ((97 <=? ch) && (ch <=? 122)) || is_digit ch
  || (ch =? 45) || (ch =? 46) || (ch =? 95) || (ch =? 126) || (ch =? 33) || (ch =? 36)
  || (ch =? 38) || (ch =? 39) || (ch =? 40) || (ch =? 41) || (ch =? 42) || (ch =? 43)
  || (ch =? 44) || (ch =? 59) || (ch =? 61)
  || (negb (ch =? 0) && existsb (Z.eqb ch) preserve_chars).

(** [preserve_chars]: the characters of the C string, none for NULL. *)
Definition h2o_uri_escape (s preserve_chars : bytes) : bytes :=
  flat_map (fun ch =>
    if uri_preserved preserve_chars ch then [ch]
    else [37; map_at hex_upper (Z.land (Z.shiftr ch 4) 0xf); map_at hex_upper (Z.land ch 0xf)]) s.

(** [None]: the NULL result. *)
Fixpoint h2o_uri_unescape (s : bytes) : option bytes :=
  match s with
  | [] => Some []
  | c :: s =>
      if c =? 37 then
        match s with
        | c1 :: c2 :: s =>
            let hi := decode_hex c1 in
            let lo := decode_hex c2 in
            if (hi <? 0) || (lo <? 0) || ((hi =? 0) && (lo =? 0)) then None
            else rest ← h2o_uri_unescape s; Some (wrap8 (Z.lor (Z.shiftl hi 4) lo) :: rest)
        | _ => None
        end
      else rest ← h2o_uri_unescape s; Some (c :: rest)
  end.

(** ** Parts of strings *)

(** [before] are the octets below [p], last one first; [ext] those from [p] on.  Inner
    [None]: the NULL result; outer [None]: [p] leaves the buffer. *)
Fixpoint filext_loop (before ext : bytes) : option (option bytes) :=
  match before with
  | [] => None
  | [_] => Some None
  | c :: before =>
      if c =? 46 then Some (Some ext)
      else if c =? 47 then Some None
      else filext_loop before (c :: ext)
  end.

Definition h2o_get_filext (path : bytes) : option (option bytes) := filext_loop (rev path) [].

Definition is_ws (ch : Z) : bool := (ch =? 32) || (ch =? 9) || (ch =? 13) || (ch =? 10).

Fixpoint skip_ws (s : bytes) : bytes :=
  match s with
  | [] => []
  | c :: s' => if negb (is_ws c) then s else skip_ws s'
  end.

Definition h2o_str_stripws (s : bytes) : bytes := rev (skip_ws (rev (skip_ws s))).

Fixpoint strstr_loop (n : nat) (off : Z) (haysack needle : bytes) : Z :=
  match n with
  | O => SIZE_MAX
  | S n =>
      if (hd 0 haysack =? hd 0 needle)
         && bool_decide (take (length needle - 1) (drop 1 haysack) = drop 1 needle)
      then off
      else strstr_loop n (off + 1) (tail haysack) needle
  end.

Definition h2o_strstr (haysack needle : bytes) : Z :=
  if len needle <=? len haysack then
    if len needle =? 0 then 0
    else strstr_loop (length haysack - length needle + 1) 0 haysack needle
  else SIZE_MAX.

(** ** Tokens of a header value *)

Definition is_sp_tab (ch : Z) : bool := (ch =? 32) || (ch =? 9).

(** "find start": the offset of the first octet that is not blank, with the octets from it. *)
Fixpoint token_find_start (rest : bytes) (cur : nat) : option (nat * bytes) :=
  match rest with
  | [] => None
  | c :: rest' => if negb (is_sp_tab c) then Some (cur, rest) else token_find_start rest' (S cur)
  end.

(** "find last": [cur], [token_end] and whether the loop jumps to [FindValue]. *)
Fixpoint token_find_last (rest : bytes) (inner outer : Z) (with_value : bool)
    (token_start cur token_end : nat) : nat * nat * bool :=
  match rest with
  | [] => (cur, token_end, false)
  | c :: rest =>
      if c =? inner then (S cur, token_end, false)
      else if c =? outer then
        if (token_start =? cur)%nat then (S cur, S cur, false) else (cur, token_end, false)
      else if with_value && (c =? 61) then (S cur, token_end, true)
      else
        token_find_last rest inner outer with_value token_start (S cur)
          (if negb (is_sp_tab c) then S cur else token_end)
  end.

(** The value of a name-value pair: NULL, the literal empty string, or a range. *)
Inductive token_value := NoValue | EmptyValue | ValueAt (start len : nat).

Record token_result := TokenResult {
  tk_start : nat;        (* the returned pointer *)
  tk_len : nat;          (* [*element_len] *)
  tk_iter : nat;         (* [iter->base]; [iter] always ends where the string does *)
  tk_value : token_value (* [*value], when it is not NULL *) }.

(** Offsets are into [s]; [iter] is the offset of [iter->base]. *)
Definition next_token_flat (s : bytes) (iter : nat) (inner outer : Z) (with_value : bool)
    : option (token_result * bool) :=
  match token_find_start (drop iter s) iter with
  | None => None
  | Some (token_start, rest) =>
      let '(cur, token_end, find_value) :=
        token_find_last rest inner outer with_value token_start token_start token_start in
      Some (TokenResult token_start (token_end - token_start) cur NoValue, find_value)
  end.

Definition sub (s : bytes) (start n : nat) : bytes := take n (drop start s).

Definition h2o_next_token (s : bytes) (iter : nat) (inner outer : Z) (with_value : bool)
    : option token_result :=
  match next_token_flat s iter inner outer with_value with
  | None => None
  | Some (r, false) => Some r
  | Some (r, true) =>
      match next_token_flat s (tk_iter r) inner outer false with
      | None => Some (TokenResult (tk_start r) (tk_len r) (tk_iter r) EmptyValue)
      | Some (v, _) =>
          if bool_decide (sub s (tk_start v) (tk_len v) = lit ",")
          then Some (TokenResult (tk_start r) (tk_len r) (tk_iter v - 1) EmptyValue)
          else Some (TokenResult (tk_start r) (tk_len r) (tk_iter v) (ValueAt (tk_start v) (tk_len v)))
      end
  end.

(** Every call moves [iter] forward, so [S (length haysack)] rounds are enough; [None] is
    running out of them. *)
Fixpoint contains_token_loop (fuel : nat) (haysack : bytes) (iter : nat) (needle : bytes)
    (separator : Z) : option bool :=
  match fuel with
  | O => None
  | S fuel =>
      match h2o_next_token haysack iter separator 44 false with
      | None => Some false
      | Some r =>
          if h2o_lcstris (sub haysack (tk_start r) (tk_len r)) needle then Some true
          else contains_token_loop fuel haysack (tk_iter r) needle separator
      end
  end.

Definition h2o_contains_token (haysack needle : bytes) (separator : Z) : option bool :=
  contains_token_loop (S (length haysack)) haysack 0 needle separator.

(** ** Escaping *)

Definition entity (c : Z) : option bytes :=
  if c =? 34 then Some (lit "&quot;")
  else if c =? 38 then Some (lit "&amp;")
  else if c =? 39 then Some (lit "&#39;")
  else if c =? 60 then Some (lit "&lt;")
  else if c =? 62 then Some (lit "&gt;")
  else None.

Definition htmlescape_add_size (src : bytes) : Z :=
  foldr (fun c add_size =>
    if wrap32 (c - 34) <=? 62 - 34 then
      match entity c with Some quoted => len quoted - 1 + add_size | None => add_size end
    else add_size) 0 src.

(** [None]: the assertion on the length fails. *)
Definition h2o_htmlescape (src : bytes) : option bytes :=
  let add_size := htmlescape_add_size src in
  if negb (add_size =? 0) then
    let escaped := flat_map (fun c => match entity c with Some quoted => quoted | None => [c] end) src in
    if len escaped =? len src + add_size then Some escaped else None
  else Some src.

(** The length computed and the octets written before the final NUL. *)
Definition h2o_encode_sf_string (s : bytes) : Z * bytes :=
  let escaped c := (c =? 92) || (c =? 34) in
  let to_escape := foldr (fun c n => if escaped c then n + 1 else n) 0 s in
  (len s + to_escape + 2,
   34 :: flat_map (fun c => if escaped c then [92; c] else [c]) s ++ [34]).

(** ** Lists of strings *)

Definition h2o_concat_list (l : list bytes) : bytes := concat l.

Fixpoint join_rest (l : list bytes) (delimiter : bytes) : list bytes :=
  match l with
  | [] => []
  | s :: l => delimiter :: s :: join_rest l delimiter
  end.

Definition h2o_join_list (l : list bytes) (delimiter : bytes) : bytes :=
  match l with
  | [] => []
  | s :: l => h2o_concat_list (s :: join_rest l delimiter)
  end.

(** [cur]: the octets between [p] and the octet looked at, last one first. *)
Fixpoint split_loop (str : bytes) (needle : Z) (cur : bytes) : list bytes :=
  match str with
  | [] => [rev cur]
  | c :: str => if c =? needle then rev cur :: split_loop str needle [] else split_loop str needle (c :: cur)
  end.

(** The entries appended to [list]. *)
Definition h2o_split (list : list bytes) (str : bytes) (needle : Z) : Datatypes.list bytes :=
  list ++ split_loop str needle [].

Definition h2o_strdup_slashed (src : bytes) : bytes :=
  match last src with
  | Some c => if negb (c =? 47) then src ++ [47] else src
  | None => src
  end.

(** ** A position within a text *)

(** The octets after the next newline; [None]: there is none. *)
Fixpoint skip_line (src : bytes) : option bytes :=
  match src with
  | [] => None
  | c :: src => if c =? 10 then Some src else skip_line src
  end.

Fixpoint skip_lines (n : nat) (src : bytes) : option bytes :=
  match n with
  | O => Some src
  | S n => skip_line src ≫= skip_lines n
  end.

Fixpoint emit_line (n : nat) (src : bytes) : bytes :=
  match n, src with
  | S n, c :: src => if c =? 10 then [] else c :: emit_line n src
  | _, _ => []
  end.

(** The octets written before the final NUL, [None] for -1. *)
Definition h2o_str_at_position (src : bytes) (lineno column : Z) : option bytes :=
  if (lineno <=? 0) || (column <=? 0) then None
  else
    src ← skip_lines (Z.to_nat (lineno - 1)) src;
    let src := drop (Z.to_nat (column - 40)) src in
    let column := Z.min column 40 in
    let line := emit_line 76 src in
    let i := len line + 1 in
    let column := if i <? column then i else column in
    Some (line ++ [10] ++ replicate (Z.to_nat (column - 1)) 32 ++ [94; 10]).

(** ** Case folding *)

Lemma tolower_byte c : is_byte c -> is_byte (h2o_tolower c).
Proof. unfold is_byte, h2o_tolower. bcase; lia. Qed.

Lemma lcstris_core_eq target : forall test,
  length target = length test ->
  h2o__lcstris_core target test = true <-> h2o_strtolower target = test.
Proof.
  unfold h2o_strtolower, h2o_strcopytolower.
  induction target as [|t target IH]; intros [|c test] Hl; simpl in *; try lia; [done|].
  rewrite andb_true_iff, Z.eqb_eq, IH by lia. split; [intros [-> ->]|intros [= -> ->]]; done.
Qed.

Lemma lcstris_eq target test : h2o_lcstris target test = true <-> h2o_strtolower target = test.
Proof.
  unfold h2o_lcstris. rewrite andb_true_iff, Z.eqb_eq. split.
  - intros [Hl Hc]. apply lcstris_core_eq; [|done]. unfold len in Hl. lia.
  - intros <-. assert (length target = length (h2o_strtolower target)) as Hl
      by (unfold h2o_strtolower, h2o_strcopytolower; by rewrite length_map).
    split; [unfold len; lia|]. by apply lcstris_core_eq.
Qed.

(** ** Decimal numbers *)

(** The number a string of digits denotes. *)
Definition dec_val (s : bytes) : Z := fold_left (fun v c => 10 * v + (c - 48)) s 0.

Lemma dec_val_snoc s c : dec_val (s ++ [c]) = 10 * dec_val s + (c - 48).
Proof. unfold dec_val. by rewrite fold_left_app. Qed.

Lemma is_digit_spec c : is_digit c = true <-> 48 <= c <= 57.
Proof. unfold is_digit. rewrite andb_true_iff. lia. Qed.

Lemma dec_val_bound s : forallb is_digit s = true -> 0 <= dec_val s < 10 ^ len s.
Proof.
  induction s as [|c s IH] using rev_ind; [done|].
  rewrite forallb_app, andb_true_iff, dec_val_snoc, len_app. simpl. rewrite andb_true_r, is_digit_spec.
  intros [Hs Hc]. apply IH in Hs. change (len [c]) with 1. pose proof (len_nonneg s).
  rewrite Z.pow_add_r by lia. lia.
Qed.

Lemma decimal_length fuel : forall v, (length (decimal fuel v) <= fuel)%nat.
Proof.
  induction fuel as [|fuel IH]; intros v; simpl; [lia|]. bcase; simpl; [lia|].
  rewrite length_app. specialize (IH (v / 10)). simpl. lia.
Qed.

Lemma decimal_digits fuel : forall v, forallb is_digit (decimal fuel v) = true.
Proof.
  induction fuel as [|fuel IH]; intros v; simpl; [done|].
  assert (is_digit (48 + v mod 10) = true)
    by (apply is_digit_spec; pose proof (Z.mod_pos_bound v 10 ltac:(lia)); lia).
  bcase; simpl; [by rewrite andb_true_r|]. rewrite forallb_app, IH. simpl. by rewrite andb_true_r.
Qed.

Lemma decimal_fuel n : forall m v,
  0 <= v < 10 ^ Z.of_nat n -> (0 < n <= m)%nat -> decimal m v = decimal n v.
Proof.
  induction n as [|n IH]; intros m v Hv Hm; [lia|]. destruct m as [|m]; [lia|]. cbn [decimal].
  destruct (Z.eqb_spec (v / 10) 0); [done|]. f_equal.
  assert (Hd : 0 <= v / 10 < 10 ^ Z.of_nat n).
  { rewrite Nat2Z.inj_succ, Z.pow_succ_r in Hv by lia. Z.div_mod_to_equations. lia. }
  destruct n as [|n]; [simpl in Hd; lia|]. apply IH; lia.
Qed.

Lemma decimal_value fuel : forall v, 0 <= v < 10 ^ Z.of_nat fuel -> (0 < fuel)%nat -> dec_val (decimal fuel v) = v.
Proof.
  induction fuel as [|fuel IH]; intros v Hv Hf; [lia|]. cbn [decimal].
  destruct (Z.eqb_spec (v / 10) 0).
  - unfold dec_val. simpl. Z.div_mod_to_equations; lia.
  - assert (0 < v / 10) by (pose proof (Z.div_pos v 10); lia). destruct fuel as [|fuel].
    { simpl in Hv. Z.div_mod_to_equations. lia. }
    rewrite dec_val_snoc, IH; [Z.div_mod_to_equations; lia| |lia]. split; [lia|].
    apply Z.div_lt_upper_bound; [lia|].
    replace (10 * 10 ^ Z.of_nat (S fuel)) with (10 ^ Z.of_nat (S (S fuel))); [lia|].
    rewrite (Nat2Z.inj_succ (S fuel)), Z.pow_succ_r by lia. lia.
Qed.

Lemma digits_bytes s : forallb is_digit s = true -> bytes_ok s.
Proof.
  intros H. rewrite forallb_forall in H. apply Forall_forall. intros c Hc.
  apply list_elem_of_In, H, is_digit_spec in Hc. unfold is_byte. lia.
Qed.

(** [rs] is left to be read, [k] digits of value [v] have been. *)
Lemma strtosize_loop_spec rs : forall v k,
  rs <> [] -> 0 <= k <= 18 -> 0 <= v < 10 ^ k ->
  strtosize_loop rs v (10 ^ k) =
  if forallb is_digit rs && (k + len rs <=? 19) then Some (dec_val (rev rs) * 10 ^ k + v) else None.
Proof.
  induction rs as [|ch rs IH]; intros v k Hne Hk Hv; [done|]. cbn [strtosize_loop forallb rev].
  rewrite len_cons. destruct (is_digit ch) eqn:Hd; [|done]. cbn [negb andb].
  apply is_digit_spec in Hd.
  assert (Hm : 0 < 10 ^ k <= 10 ^ 18) by (split; [lia|apply Z.pow_le_mono_r; lia]).
  assert (Hsum : wrap64 (v + wrap64 ((ch - 48) * 10 ^ k)) = v + (ch - 48) * 10 ^ k).
  { rewrite !wrap64_small; [done|nia|]. rewrite wrap64_small; nia. }
  rewrite Hsum. destruct rs as [|c rs].
  - cbn [forallb]. change (len []) with 0. destruct (Z.leb_spec (k + (0 + 1)) 19); [|lia].
    cbn [andb]. f_equal. rewrite dec_val_snoc. change (dec_val (rev [])) with 0. lia.
  - set (rs' := c :: rs) in *. rewrite wrap64_small by lia.
    replace (10 ^ k * 10) with (10 ^ (k + 1)) by (rewrite Z.pow_add_r by lia; done).
    destruct (Z.eq_dec k 18) as [->|Hk18].
    { change (10 ^ (18 + 1) =? 10000000000000000000) with true. cbv iota.
      destruct (Z.leb_spec (18 + (len rs' + 1)) 19) as [Hle|]; [|by rewrite andb_false_r].
      unfold rs' in Hle. rewrite len_cons in Hle. pose proof (len_nonneg rs). lia. }
    destruct (Z.eqb_spec (10 ^ (k + 1)) 10000000000000000000) as [He|_].
    { assert (10 ^ (k + 1) <= 10 ^ 18) by (apply Z.pow_le_mono_r; lia). lia. }
    assert (0 <= v + (ch - 48) * 10 ^ k < 10 ^ (k + 1)) by (rewrite Z.pow_add_r by lia; nia).
    rewrite IH by (done || lia). replace (k + 1 + len rs') with (k + (len rs' + 1)) by lia.
    destruct (forallb is_digit rs' && (k + (len rs' + 1) <=? 19)); [|done]. f_equal.
    rewrite dec_val_snoc, Z.pow_add_r by lia. lia.
Qed.

(** Exactly the strings of one to nineteen digits are accepted, with their value. *)
Lemma strtosize_spec s :
  h2o_strtosize s = if forallb is_digit s && (1 <=? len s) && (len s <=? 19) then dec_val s else SIZE_MAX.
Proof.
  unfold h2o_strtosize. destruct s as [|c s']; [done|]. set (s := c :: s') in *.
  change 1 with (10 ^ 0) at 1. rewrite strtosize_loop_spec; [| |lia|lia].
  2:{ intros H. apply (f_equal (@length Z)) in H. rewrite length_rev in H. simpl in H. lia. }
  rewrite rev_involutive. replace (len (rev s)) with (len s) by (unfold len; by rewrite length_rev).
  replace (forallb is_digit (rev s)) with (forallb is_digit s).
  2:{ apply eq_iff_eq_true. rewrite !forallb_forall. setoid_rewrite <- in_rev. done. }
  assert (H1 : 1 <= len s) by (unfold s; rewrite len_cons; pose proof (len_nonneg s'); lia).
  destruct (Z.leb_spec 1 (len s)); [|lia]. rewrite andb_true_r, Z.add_0_l.
  destruct (forallb is_digit s) eqn:Hd; [|done]. cbn [andb].
  destruct (Z.leb_spec (len s) 19); [|done].
  apply dec_val_bound in Hd. assert (10 ^ len s <= 10 ^ 19) by (apply Z.pow_le_mono_r; lia).
  rewrite Z.pow_0_r. unfold SIZE_MAX. destruct (Z.leb_spec (2 ^ 64 - 1) (dec_val s * 1 + 0)); lia.
Qed.

(** ** Base64 *)

Lemma base64_digits :
  forallb (fun i => bool_decide (base64url_digit (map_at MAP_URL_ENCODED i) = Some i)
                    && bool_decide (base64url_digit (map_at MAP i) = Some i)) (seqZ 0 64) = true.
Proof. vm_compute. reflexivity. Qed.

Lemma base64_digit i :
  0 <= i < 64 -> base64url_digit (map_at MAP_URL_ENCODED i) = Some i.
Proof.
  intros Hi. pose proof base64_digits as H. rewrite forallb_forall in H.
  specialize (H i). rewrite <- list_elem_of_In, elem_of_seqZ in H. specialize (H ltac:(lia)).
  apply andb_true_iff in H as [H _]. by apply bool_decide_eq_true in H.
Qed.

Lemma quad_step x d : 0 <= x < 2 ^ 18 -> 0 <= d < 64 -> Z.lor (wrap32 (Z.shiftl x 6)) d = x * 64 + d.
Proof.
  intros Hx Hd. rewrite Z.shiftl_mul_pow2 by lia. unfold wrap32. rewrite Z.mod_small by lia.
  rewrite <- Z.shiftl_mul_pow2, Z.lor_comm, lor_shiftl_add by lia. rewrite Z.shiftl_mul_pow2; lia.
Qed.

Lemma decode_quad a b c d ca cb cc cd :
  base64url_digit ca = Some a -> base64url_digit cb = Some b ->
  base64url_digit cc = Some c -> base64url_digit cd = Some d ->
  0 <= a < 64 -> 0 <= b < 64 -> 0 <= c < 64 -> 0 <= d < 64 ->
  decode_base64url_quad [ca; cb; cc; cd] = Some (a * 2 ^ 18 + b * 2 ^ 12 + c * 2 ^ 6 + d).
Proof.
  intros Ha Hb Hc Hd ????. unfold decode_base64url_quad. cbn [take base64url_quad_loop].
  rewrite Ha, Hb, Hc, Hd, Z.lor_0_l.
  rewrite (quad_step a b), (quad_step (a * 64 + b) c), (quad_step ((a * 64 + b) * 64 + c) d) by lia.
  f_equal. lia.
Qed.

Lemma land_63 x : Z.land x 63 = x mod 64.
Proof. apply (Z.land_ones x 6). lia. Qed.

Lemma quad_value s0 s1 s2 :
  is_byte s0 -> is_byte s1 -> is_byte s2 ->
  Z.lor (Z.lor (Z.shiftl s0 16) (Z.shiftl s1 8)) s2 = s0 * 65536 + s1 * 256 + s2.
Proof.
  unfold is_byte. intros H0 H1 H2.
  assert (Hs : Z.lor (Z.shiftl s0 16) (Z.shiftl s1 8) = Z.shiftl (s0 * 256 + s1) 8).
  { rewrite Z.lor_comm, lor_shiftl_add; rewrite ?Z.shiftl_mul_pow2 by lia; lia. }
  rewrite Hs, Z.lor_comm, lor_shiftl_add by lia. rewrite Z.shiftl_mul_pow2 by lia. lia.
Qed.

(** Four characters hold three octets. *)
Lemma base64_quad s0 s1 s2 :
  is_byte s0 -> is_byte s1 -> is_byte s2 ->
  let q := s0 * 65536 + s1 * 256 + s2 in
  decode_base64url_quad
    [map_at MAP_URL_ENCODED (Z.shiftr q 18); map_at MAP_URL_ENCODED (Z.land (Z.shiftr q 12) 63);
     map_at MAP_URL_ENCODED (Z.land (Z.shiftr q 6) 63); map_at MAP_URL_ENCODED (Z.land q 63)] = Some q.
Proof.
  unfold is_byte. intros H0 H1 H2. cbn zeta. set (q := _ + s2). rewrite !land_63, !Z.shiftr_div_pow2 by lia.
  assert (0 <= q < 16777216) by (unfold q; lia).
  change (2 ^ 18) with 262144. change (2 ^ 12) with 4096. change (2 ^ 6) with 64.
  assert (0 <= q / 262144 < 64) by (Z.div_mod_to_equations; lia).
  pose proof (fun x => Z.mod_pos_bound x 64 ltac:(lia)) as Hm.
  rewrite (decode_quad (q / 262144) ((q / 4096) mod 64) ((q / 64) mod 64) (q mod 64))
    by auto using base64_digit.
  f_equal. change (2 ^ 18) with 262144. change (2 ^ 12) with 4096. change (2 ^ 6) with 64.
  Z.div_mod_to_equations. lia.
Qed.

Lemma base64_octets s0 s1 s2 :
  is_byte s0 -> is_byte s1 -> is_byte s2 ->
  let q := s0 * 65536 + s1 * 256 + s2 in
  wrap8 (Z.shiftr q 16) = s0 /\ wrap8 (Z.shiftr q 8) = s1 /\ wrap8 q = s2.
Proof.
  unfold is_byte, wrap8. intros H0 H1 H2. cbn zeta. set (q := _ + s2). rewrite !Z.shiftr_div_pow2 by lia.
  change (2 ^ 16) with 65536. change (2 ^ 8) with 256. unfold q.
  split_and!; Z.div_mod_to_equations; lia.
Qed.

Lemma decode_base64url_encode_loop n : forall s,
  (length s < n)%nat -> bytes_ok s ->
  decode_base64url_loop (base64_encode_loop MAP_URL_ENCODED true s) = Some s.
Proof.
  induction n as [|n IH]; intros s Hn Hs; [lia|].
  destruct s as [|s0 [|s1 [|s2 s]]]; [done| | |]; cbn [base64_encode_loop app decode_base64url_loop].
  - inv Hs. pose proof (base64_quad s0 0 0 ltac:(done) ltac:(done) ltac:(done)) as Hq.
    pose proof (base64_octets s0 0 0 ltac:(done) ltac:(done) ltac:(done)) as (Ho & _).
    cbn zeta in *. rewrite Z.shiftl_mul_pow2 by lia. change (2 ^ 16) with 65536.
    rewrite Z.mul_0_l, !Z.add_0_r in *.
    assert (Hz : Z.land (Z.shiftr (s0 * 65536) 6) 63 = 0 /\ Z.land (s0 * 65536) 63 = 0).
    { rewrite !land_63, Z.shiftr_div_pow2 by lia. change (2 ^ 6) with 64. Z.div_mod_to_equations. lia. }
    destruct Hz as [Hz1 Hz2]. rewrite Hz1, Hz2 in Hq. change (map_at MAP_URL_ENCODED 0) with 65 in Hq.
    rewrite Hq. simpl. by rewrite Ho.
  - inv Hs. inv H2. pose proof (base64_quad s0 s1 0 ltac:(done) ltac:(done) ltac:(done)) as Hq.
    pose proof (base64_octets s0 s1 0 ltac:(done) ltac:(done) ltac:(done)) as (Ho & Ho1 & _).
    pose proof (quad_value s0 s1 0 ltac:(done) ltac:(done) ltac:(done)) as Hv.
    cbn zeta in *. rewrite Z.lor_0_r in Hv. rewrite Hv.
    assert (Hz : Z.land (s0 * 65536 + s1 * 256 + 0) 63 = 0 /\
                 Z.shiftr (Z.shiftl s0 16) 18 = Z.shiftr (s0 * 65536 + s1 * 256 + 0) 18).
    { rewrite land_63, !Z.shiftr_div_pow2, Z.shiftl_mul_pow2 by lia. unfold is_byte in *.
      change (2 ^ 16) with 65536. change (2 ^ 18) with 262144. Z.div_mod_to_equations. lia. }
    destruct Hz as [Hz1 Hz2]. rewrite Hz1 in Hq. rewrite Hz2.
    change (map_at MAP_URL_ENCODED 0) with 65 in Hq. rewrite Hq. simpl. by rewrite Ho, Ho1.
  - apply Forall_cons in Hs as [H0 Hs]. apply Forall_cons in Hs as [H1 Hs].
    apply Forall_cons in Hs as [H2 Hs]. rewrite (quad_value s0 s1 s2) by done.
    rewrite (base64_quad s0 s1 s2 H0 H1 H2). cbn [mbind option_bind].
    rewrite IH by (done || (simpl in Hn; lia)). cbn [mbind option_bind].
    destruct (base64_octets s0 s1 s2 H0 H1 H2) as (-> & -> & ->). done.
Qed.

Lemma base64_encode_loop_length n : forall map url_encoded s,
  (length s < n)%nat ->
  len (base64_encode_loop map url_encoded s) =
  if url_encoded then (4 * len s + 2) / 3 else (len s + 2) / 3 * 4.
Proof.
  induction n as [|n IH]; intros map url s Hn; [lia|].
  destruct s as [|s0 [|s1 [|s2 s]]]; [by destruct url..|].
  cbn [base64_encode_loop]. rewrite !len_cons, IH by (simpl in Hn; lia).
  pose proof (len_nonneg s). destruct url; Z.div_mod_to_equations; lia.
Qed.

Lemma decode_base64url_loop_length n : forall src dst,
  (length src < n)%nat -> decode_base64url_loop src = Some dst ->
  len dst = len src * 3 / 4 /\ bytes_ok dst.
Proof.
  induction n as [|n IH]; intros src dst Hn H; [lia|].
  destruct src as [|c0 [|c1 [|c2 [|c3 src]]]]; cbn [decode_base64url_loop] in H.
  - by injection H as <-.
  - done.
  - destruct (decode_base64url_quad _); [|done]. injection H as <-.
    split; [done|]. repeat constructor; apply is_byte_wrap8.
  - destruct (decode_base64url_quad _); [|done]. injection H as <-.
    split; [done|]. repeat constructor; apply is_byte_wrap8.
  - destruct (decode_base64url_quad _); [|done]. cbn [mbind option_bind] in H.
    destruct (decode_base64url_loop src) as [d|] eqn:E; [|done]. injection H as <-.
    apply IH in E as [El Eb]; [|simpl in Hn; lia]. rewrite !len_cons, El. split.
    + pose proof (len_nonneg src). Z.div_mod_to_equations; lia.
    + repeat (constructor; [apply is_byte_wrap8|]). done.
Qed.

(** The assertion of [h2o_decode_base64url] holds. *)
Lemma decode_base64url_defined src : h2o_decode_base64url src = Some (decode_base64url_loop src).
Proof.
  unfold h2o_decode_base64url. destruct (decode_base64url_loop src) as [dst|] eqn:E; [|done].
  apply (decode_base64url_loop_length (S (length src))) in E as [-> _]; [|lia]. by rewrite Z.eqb_refl.
Qed.

(** ** Hexadecimal and percent-encoding *)

Definition hex_byte_ok (c : Z) : bool :=
  (decode_hex (map_at hex_lower (Z.shiftr c 4)) =? Z.shiftr c 4)
  && (decode_hex (map_at hex_lower (Z.land c 0xf)) =? Z.land c 0xf)
  && (decode_hex (map_at hex_upper (Z.land (Z.shiftr c 4) 0xf)) =? Z.shiftr c 4)
  && (decode_hex (map_at hex_upper (Z.land c 0xf)) =? Z.land c 0xf)
  && (0 <=? Z.shiftr c 4) && (0 <=? Z.land c 0xf)
  && (wrap8 (Z.lor (Z.shiftl (Z.shiftr c 4) 4) (Z.land c 0xf)) =? c)
  && Bool.eqb ((Z.shiftr c 4 =? 0) && (Z.land c 0xf =? 0)) (c =? 0).

Lemma hex_bytes_ok c : is_byte c -> hex_byte_ok c = true.
Proof. apply byte_forall. vm_compute. reflexivity. Qed.

(** The two hexadecimal digits of an octet denote it, in either case. *)
Lemma hex_digits c :
  is_byte c ->
  decode_hex (map_at hex_lower (Z.shiftr c 4)) = Z.shiftr c 4 /\
  decode_hex (map_at hex_lower (Z.land c 0xf)) = Z.land c 0xf /\
  decode_hex (map_at hex_upper (Z.land (Z.shiftr c 4) 0xf)) = Z.shiftr c 4 /\
  decode_hex (map_at hex_upper (Z.land c 0xf)) = Z.land c 0xf /\
  0 <= Z.shiftr c 4 /\ 0 <= Z.land c 0xf /\
  wrap8 (Z.lor (Z.shiftl (Z.shiftr c 4) 4) (Z.land c 0xf)) = c /\
  (Z.shiftr c 4 =? 0) && (Z.land c 0xf =? 0) = (c =? 0).
Proof.
  intros Hc. apply hex_bytes_ok in Hc. unfold hex_byte_ok in Hc.
  rewrite !andb_true_iff, !Z.eqb_eq, !Z.leb_le, eqb_true_iff in Hc. tauto.
Qed.

Lemma hex_decode_encode_loop s : bytes_ok s -> hex_decode_loop (h2o_hex_encode s) = Some s.
Proof.
  unfold h2o_hex_encode. induction 1 as [|c s Hc Hs IH]; [done|]. cbn [flat_map app hex_decode_loop].
  destruct (hex_digits c Hc) as (-> & -> & _ & _ & H1 & H2 & Hw & _).
  destruct (Z.eqb_spec (Z.shiftr c 4) (-1)), (Z.eqb_spec (Z.land c 0xf) (-1)); try lia.
  cbn [orb]. rewrite IH. cbn [mbind option_bind]. by rewrite Hw.
Qed.

Lemma len_hex_encode s : len (h2o_hex_encode s) = 2 * len s.
Proof.
  unfold h2o_hex_encode. induction s as [|c s IH]; [done|]. cbn [flat_map app].
  rewrite !len_cons, IH. lia.
Qed.

Lemma uri_unescape_escape s preserve :
  bytes_ok s -> Forall (fun c => c <> 0) s -> 37 ∉ preserve ->
  h2o_uri_unescape (h2o_uri_escape s preserve) = Some s.
Proof.
  intros Hs Hz Hp. unfold h2o_uri_escape. induction s as [|c s IH]; [done|].
  apply Forall_cons in Hs as [Hc Hs]. apply Forall_cons in Hz as [Hc0 Hz]. specialize (IH Hs Hz).
  cbn [flat_map]. destruct (uri_preserved preserve c) eqn:Hpc.
  - cbn [app h2o_uri_unescape]. destruct (Z.eqb_spec c 37) as [->|_].
    + unfold uri_preserved in Hpc. cbn in Hpc. apply existsb_exists in Hpc as (x & Hx & Hx37).
      apply Z.eqb_eq in Hx37 as <-. by apply list_elem_of_In in Hx.
    + by rewrite IH.
  - cbn [app h2o_uri_unescape]. change (37 =? 37) with true. cbv iota.
    destruct (hex_digits c Hc) as (_ & _ & -> & -> & H1 & H2 & Hw & H0).
    destruct (Z.ltb_spec (Z.shiftr c 4) 0), (Z.ltb_spec (Z.land c 0xf) 0); try lia.
    rewrite H0. destruct (Z.eqb_spec c 0); [done|]. cbn [orb]. rewrite IH. cbn [mbind option_bind].
    by rewrite Hw.
Qed.

(** Of the octets outside RFC 3986's unreserved and sub-delims, an escaped string has only
    the percent sign and the ones asked for. *)
Lemma uri_escape_safe s preserve c :
  bytes_ok s -> c ∈ h2o_uri_escape s preserve -> c = 37 \/ uri_preserved preserve c = true.
Proof.
  intros Hs Hc. unfold h2o_uri_escape in Hc. apply list_elem_of_In, in_flat_map in Hc as (x & Hx & Hc).
  destruct (uri_preserved preserve x) eqn:Hp.
  - destruct Hc as [<-|[]]. by right.
  - assert (Hup : forall i, 0 <= i < 16 -> uri_preserved preserve (map_at hex_upper i) = true).
    { intros i Hi. unfold uri_preserved.
      assert (forallb (fun i => is_digit (map_at hex_upper i) ||
                 ((65 <=? map_at hex_upper i) && (map_at hex_upper i <=? 90))) (seqZ 0 16) = true) as Hall
        by (vm_compute; reflexivity).
      rewrite forallb_forall in Hall. specialize (Hall i).
      rewrite <- list_elem_of_In, elem_of_seqZ in Hall. specialize (Hall ltac:(lia)).
      apply orb_true_iff in Hall as [-> | ->]; by rewrite ?orb_true_r. }
    change 0xf with (Z.ones 4) in Hc. rewrite !Z.land_ones in Hc by lia.
    destruct Hc as [<-|[<-|[<-|[]]]]; [by left|right; apply Hup, Z.mod_pos_bound; lia..].
Qed.

(** ** Substrings *)

Lemma strstr_loop_spec n : forall off haysack needle,
  needle <> [] -> (n + length needle = S (length haysack))%nat ->
  (exists k, (k < n)%nat /\ strstr_loop n off haysack needle = off + Z.of_nat k /\
     needle `prefix_of` drop k haysack /\
     forall j, (j < k)%nat -> ~ needle `prefix_of` drop j haysack) \/
  strstr_loop n off haysack needle = SIZE_MAX /\
  forall j, (j < n)%nat -> ~ needle `prefix_of` drop j haysack.
Proof.
  induction n as [|n IH]; intros off haysack needle Hne Hl; [by right; split; [|lia]|].
  destruct needle as [|c needle]; [done|]. destruct haysack as [|h haysack]; [simpl in Hl; lia|].
  cbn [strstr_loop hd drop tail].
  replace (length (c :: needle) - 1)%nat with (length needle) by (simpl; lia).
  destruct (Z.eqb_spec h c) as [->|Hc]; [destruct (bool_decide_reflect (take (length needle) (drop 0 haysack) = drop 0 needle)) as [Hb|Hb]|];
    cbn [andb].
  - left. exists O. split_and!; [lia|lia| |lia]. rewrite !drop_0 in *.
    exists (drop (length needle) haysack). cbn [app]. f_equal.
    rewrite <- Hb at 1. by rewrite take_drop.
  - assert (Hno : ~ c :: needle `prefix_of` c :: haysack).
    { intros [k [= ->]]. rewrite !drop_0, take_app_length in Hb. done. }
    destruct (IH (off + 1) haysack (c :: needle) Hne ltac:(simpl in *; lia))
      as [(k & Hk & -> & Hp & Hj)|[-> Hj]].
    + left. exists (S k). split_and!; [lia|lia|done|]. intros [|j] Hjk; [done|apply Hj; lia].
    + right. split; [done|]. intros [|j] Hjk; [done|apply Hj; lia].
  - assert (Hno : ~ c :: needle `prefix_of` h :: haysack) by (intros [k [= -> ->]]; done).
    destruct (IH (off + 1) haysack (c :: needle) Hne ltac:(simpl in *; lia))
      as [(k & Hk & -> & Hp & Hj)|[-> Hj]].
    + left. exists (S k). split_and!; [lia|lia|done|]. intros [|j] Hjk; [done|apply Hj; lia].
    + right. split; [done|]. intros [|j] Hjk; [done|apply Hj; lia].
Qed.

(** ** Splitting and joining *)

Lemma split_loop_join str needle : forall cur,
  h2o_join_list (split_loop str needle cur) [needle] = rev cur ++ str.
Proof.
  induction str as [|c str IH]; intros cur; simpl.
  - unfold h2o_concat_list. simpl. done.
  - destruct (Z.eqb_spec c needle) as [->|_].
    + specialize (IH []). destruct (split_loop str needle []) as [|s l] eqn:E.
      { exfalso. clear -E. revert E. generalize (@nil Z). induction str as [|d str IHs]; intros cur; simpl; [done|].
        destruct (d =? needle); [done|apply IHs]. }
      simpl in *. unfold h2o_concat_list in *. simpl in *. by rewrite IH.
    + rewrite IH. simpl. by rewrite <- app_assoc.
Qed.

Lemma elem_rev {A} (x : A) l : x ∈ rev l <-> x ∈ l.
Proof. by rewrite !list_elem_of_In, <- in_rev. Qed.

Lemma split_loop_free str needle : forall cur,
  needle ∉ cur -> Forall (fun p => needle ∉ p) (split_loop str needle cur).
Proof.
  induction str as [|c str IH]; intros cur Hcur; simpl.
  - repeat constructor. by rewrite elem_rev.
  - destruct (Z.eqb_spec c needle) as [->|Hc].
    + constructor; [by rewrite elem_rev|]. apply IH, not_elem_of_nil.
    + apply IH. by apply not_elem_of_cons.
Qed.

Lemma split_join_list l needle :
  l <> [] -> Forall (fun p => needle ∉ p) l -> split_loop (h2o_join_list l [needle]) needle [] = l.
Proof.
  assert (Hp : forall p rest cur, needle ∉ p ->
    split_loop (p ++ rest) needle cur = split_loop rest needle (rev p ++ cur)).
  { induction p as [|c p IH]; intros rest cur Hp; [done|]. cbn [app split_loop].
    destruct (Z.eqb_spec c needle) as [->|_]; [by apply not_elem_of_cons in Hp as [? _]|].
    apply not_elem_of_cons in Hp as [_ Hp]. rewrite IH by done.
    cbn [rev]. by rewrite <- app_assoc. }
  intros Hne Hl. destruct l as [|p l]; [done|]. clear Hne. revert p Hl.
  induction l as [|q l IH]; intros p Hl; inv Hl; unfold h2o_join_list, h2o_concat_list in *;
    cbn [join_rest concat].
  - rewrite Hp by done. simpl. by rewrite app_nil_r, rev_involutive.
  - rewrite Hp by done. cbn [app split_loop]. rewrite Z.eqb_refl, app_nil_r, rev_involutive.
    f_equal. apply (IH q). done.
Qed.

(** ** HTML escaping *)

Definition html_quote (c : Z) : bytes := match entity c with Some quoted => quoted | None => [c] end.

(** Case analysis on the entity of [c], each closed by [tac]. *)
Ltac entity_cases c tac :=
  unfold html_quote, entity;
  repeat match goal with
         | |- context [c =? ?k] => destruct (Z.eqb_spec c k) as [->|]; [solve [tac]|]
         end.

Lemma entity_range c : is_byte c -> is_Some (entity c) -> (wrap32 (c - 34) <=? 62 - 34) = true.
Proof.
  intros Hb [q Hq]. revert Hq. entity_cases c ltac:(by intros). done.
Qed.

Lemma htmlescape_size s :
  bytes_ok s -> len (flat_map html_quote s) = len s + htmlescape_add_size s.
Proof.
  induction 1 as [|c s Hc Hs IH]; [done|].
  change (flat_map html_quote (c :: s)) with (html_quote c ++ flat_map html_quote s).
  rewrite len_app, len_cons, IH. cbn [htmlescape_add_size foldr].
  fold (htmlescape_add_size s). unfold html_quote.
  destruct (entity c) as [q|] eqn:E.
  - rewrite entity_range by eauto. lia.
  - replace (if _ <=? _ then _ else _) with (htmlescape_add_size s) by (by destruct (_ <=? _)).
    change (len [c]) with 1. lia.
Qed.

Lemma entity_len c q : entity c = Some q -> 1 < len q.
Proof.
  entity_cases c ltac:(by intros [= <-]). done.
Qed.

Lemma htmlescape_add_size_nonneg s : 0 <= htmlescape_add_size s.
Proof.
  induction s as [|c s IH]; [done|]. cbn [htmlescape_add_size foldr]. fold (htmlescape_add_size s).
  destruct (_ <=? _); [|done]. destruct (entity c) eqn:E; [|done]. apply entity_len in E. lia.
Qed.

Lemma htmlescape_zero s :
  bytes_ok s -> htmlescape_add_size s = 0 -> flat_map html_quote s = s.
Proof.
  induction 1 as [|c s Hc Hs IH]; [done|]. cbn [htmlescape_add_size foldr]. fold (htmlescape_add_size s).
  change (flat_map html_quote (c :: s)) with (html_quote c ++ flat_map html_quote s). unfold html_quote.
  pose proof (htmlescape_add_size_nonneg s). destruct (entity c) eqn:E.
  - rewrite entity_range by eauto. apply entity_len in E. lia.
  - intros H0. change ([c] ++ flat_map html_quote s = c :: s). simpl. f_equal. apply IH.
    by destruct (_ <=? _) in H0.
Qed.

(** The result is the character-wise quotation; the assertion on its length holds. *)
Lemma htmlescape_spec s : bytes_ok s -> h2o_htmlescape s = Some (flat_map html_quote s).
Proof.
  intros Hs. unfold h2o_htmlescape. fold html_quote. destruct (Z.eqb_spec (htmlescape_add_size s) 0).
  - simpl. by rewrite htmlescape_zero.
  - cbn [negb]. fold html_quote.
    assert ((len (flat_map html_quote s) =? len s + htmlescape_add_size s) = true) as Hl
      by (rewrite htmlescape_size by done; apply Z.eqb_refl).
    unfold html_quote in *. by rewrite Hl.
Qed.

(** No markup character is left: the only ones in a quotation are [&]. *)
Lemma html_quote_safe c d : d ∈ html_quote c -> d <> 34 /\ d <> 39 /\ d <> 60 /\ d <> 62.
Proof.
  assert (Hq : forall q, forallb (fun d => negb (d =? 34) && negb (d =? 39) && negb (d =? 60) && negb (d =? 62)) q
               = true -> d ∈ q -> d <> 34 /\ d <> 39 /\ d <> 60 /\ d <> 62).
  { intros q Hall Hd. rewrite forallb_forall in Hall. apply list_elem_of_In in Hd. apply Hall in Hd. lia. }
  entity_cases c ltac:(by apply Hq).
  intros Hd. apply list_elem_of_singleton in Hd as ->. done.
Qed.

(** ** Structured field strings *)

(** The parser of RFC 8941, 4.2.5, after the opening quote: the string and what follows. *)
Fixpoint sf_parse (s : bytes) : option (bytes * bytes) :=
  match s with
  | [] => None
  | c :: s =>
      if c =? 92 then
        match s with
        | d :: s =>
            if (d =? 34) || (d =? 92)
            then '(v, rest) ← sf_parse s; Some (d :: v, rest)
            else None
        | [] => None
        end
      else if c =? 34 then Some ([], s)
      else '(v, rest) ← sf_parse s; Some (c :: v, rest)
  end.

Lemma sf_parse_escaped s rest :
  sf_parse (flat_map (fun c => if (c =? 92) || (c =? 34) then [92; c] else [c]) s ++ 34 :: rest)
  = Some (s, rest).
Proof.
  induction s as [|c s IH]; [done|]. cbn [flat_map]. destruct (Z.eqb_spec c 92) as [->|].
  - cbn. by rewrite IH.
  - destruct (Z.eqb_spec c 34) as [->|]; [cbn; by rewrite IH|]. cbn [orb app sf_parse].
    destruct (Z.eqb_spec c 92), (Z.eqb_spec c 34); try done. by rewrite IH.
Qed.

Lemma sf_string_length s :
  len (flat_map (fun c => if (c =? 92) || (c =? 34) then [92; c] else [c]) s)
  = len s + foldr (fun c n => if (c =? 92) || (c =? 34) then n + 1 else n) 0 s.
Proof.
  induction s as [|c s IH]; [done|]. cbn [flat_map foldr]. rewrite len_app, len_cons, IH.
  destruct ((c =? 92) || (c =? 34)); [change (len [92; c]) with 2|change (len [c]) with 1]; lia.
Qed.

(** ** Positions *)

Lemma emit_line_length n : forall s, (length (emit_line n s) <= n)%nat.
Proof. induction n as [|n IH]; intros [|c s]; simpl; try lia. destruct (_ =? _); simpl; [lia|]. specialize (IH s). lia. Qed.

Lemma str_at_position_length src lineno column out :
  h2o_str_at_position src lineno column = Some out -> len out <= 118.
Proof.
  unfold h2o_str_at_position. remember 76%nat as n eqn:Hn. destruct ((lineno <=? 0) || (column <=? 0)); [done|].
  destruct (skip_lines _ src) as [s|]; [|done]. cbn [mbind option_bind]. intros [= <-].
  pose proof (emit_line_length n (drop (Z.to_nat (column - 40)) s)) as He.
  set (line := emit_line _ _) in *. unfold len in *. rewrite length_app. cbn [length].
  rewrite length_app, length_replicate. cbn [length]. bcase; lia.
Qed.

(** ** The tokens of a list *)

(** The reference: the pieces between separators, stripped of blanks. *)
Fixpoint pieces (is_sep : Z -> bool) (s : bytes) : list bytes :=
  match s with
  | [] => [[]]
  | c :: s =>
      if is_sep c then [] :: pieces is_sep s
      else match pieces is_sep s with
           | p :: ps => (c :: p) :: ps
           | [] => [[c]]
           end
  end.

Fixpoint ltrim (s : bytes) : bytes :=
  match s with
  | [] => []
  | c :: s' => if is_sp_tab c then ltrim s' else s
  end.

Fixpoint rtrim (s : bytes) : bytes :=
  match s with
  | [] => []
  | c :: s => match rtrim s with
              | [] => if is_sp_tab c then [] else [c]
              | r => c :: r
              end
  end.

Lemma pieces_app is_sep p rest :
  Forall (fun c => is_sep c = false) p ->
  exists q ps, pieces is_sep rest = q :: ps /\ pieces is_sep (p ++ rest) = (p ++ q) :: ps.
Proof.
  intros Hp. assert (exists q ps, pieces is_sep rest = q :: ps) as (q & ps & Hr).
  { destruct rest as [|c rest]; [by eexists _, _|]. simpl. destruct (is_sep c); [by eexists _, _|].
    destruct (pieces is_sep rest); by eexists _, _. }
  exists q, ps. split; [done|]. induction Hp as [|c p Hc Hp IH]; [done|]. simpl. by rewrite Hc, IH.
Qed.

Lemma ltrim_blank ws s : Forall (fun c => is_sp_tab c = true) ws -> ltrim (ws ++ s) = ltrim s.
Proof. induction 1 as [|c ws Hc Hws IH]; [done|]. simpl. by rewrite Hc. Qed.

Lemma rtrim_prefix s : rtrim s `prefix_of` s.
Proof.
  induction s as [|c s [k Hk]]; [done|]. simpl. destruct (rtrim s) as [|d r].
  - destruct (is_sp_tab c); [apply prefix_nil|]. by exists s.
  - exists k. cbn [app]. f_equal. done.
Qed.

(** [find start] skips blanks. *)
Lemma token_find_start_spec rest : forall cur,
  match token_find_start rest cur with
  | None => Forall (fun c => is_sp_tab c = true) rest
  | Some (start, rest') =>
      exists ws c tl, rest = ws ++ rest' /\ Forall (fun c => is_sp_tab c = true) ws /\
        start = (cur + length ws)%nat /\ rest' = c :: tl /\ is_sp_tab c = false
  end.
Proof.
  induction rest as [|c rest IH]; intros cur; simpl; [done|].
  destruct (is_sp_tab c) eqn:Hc; simpl.
  - specialize (IH (S cur)). destruct (token_find_start rest (S cur)) as [[start rest']|].
    + destruct IH as (ws & d & tl & -> & Hws & -> & -> & Hd). exists (c :: ws), d, tl.
      split_and!; [done|by constructor|simpl; lia|done|done].
    + by constructor.
  - exists [], c, rest. split_and!; [done|done|simpl; lia|done|done].
Qed.

(** [find last], past the first octet of the token, stops at the first separator. *)
Lemma token_find_last_spec inner outer rest : forall start cur token_end,
  (start < cur)%nat ->
  exists body tl,
    rest = body ++ tl /\ Forall (fun c => (c =? inner) || (c =? outer) = false) body /\
    token_find_last rest inner outer false start cur token_end =
      (match tl with
       | c :: _ => if c =? inner then S (cur + length body) else (cur + length body)%nat
       | [] => (cur + length body)%nat
       end,
       match rtrim body with [] => token_end | r => (cur + length r)%nat end, false) /\
    match tl with [] => True | c :: _ => (c =? inner) || (c =? outer) = true end.
Proof.
  induction rest as [|c rest IH]; intros start cur te Hlt; cbn [token_find_last].
  { exists [], []. simpl. rewrite Nat.add_0_r. done. }
  destruct (c =? inner) eqn:Hi.
  { exists [], (c :: rest). simpl. rewrite Hi, Nat.add_0_r. done. }
  destruct (c =? outer) eqn:Ho.
  { exists [], (c :: rest). simpl. rewrite Hi, Ho, Nat.add_0_r.
    destruct (Nat.eqb_spec start cur); [lia|done]. }
  cbn [andb].
  destruct (IH start (S cur) (if negb (is_sp_tab c) then S cur else te) ltac:(lia))
    as (body & tl & -> & Hb & -> & Htl).
  exists (c :: body), tl. split_and!; [done|constructor; [by rewrite Hi, Ho|done]| |done].
  cbn [length rtrim]. repeat f_equal.
  - destruct tl as [|d tl]; [|destruct (d =? inner)]; lia.
  - destruct (rtrim body); [destruct (is_sp_tab c)|]; simpl; lia.
Qed.

(** [find last] stays within the string and consumes an octet of a non-empty token. *)
Lemma token_find_last_cur inner outer wv rest : forall start cur te cur' te' fv,
  token_find_last rest inner outer wv start cur te = (cur', te', fv) ->
  (start <= te <= cur)%nat ->
  (cur <= cur' <= cur + length rest)%nat /\ (start <= te' <= cur')%nat /\
  (start = cur \/ fv = true -> rest <> [] -> (cur < cur')%nat).
Proof.
  induction rest as [|c rest IH]; intros start cur te cur' te' fv H Hte; cbn [token_find_last length] in *.
  { injection H as <- <- <-. split_and!; [lia..|done]. }
  destruct (c =? inner); [injection H as <- <- <-; lia|].
  destruct (c =? outer).
  { destruct (Nat.eqb_spec start cur); injection H as <- <- <-; [lia|].
    split_and!; [lia..|]. intros [?|?]; [lia|done]. }
  destruct (wv && (c =? 61)); [injection H as <- <- <-; lia|].
  destruct (IH start (S cur) _ cur' te' fv H) as (H1 & H2 & _); [destruct (negb _); lia|].
  split_and!; lia.
Qed.

Lemma next_token_flat_progress s iter inner outer wv r fv :
  (iter <= length s)%nat -> next_token_flat s iter inner outer wv = Some (r, fv) ->
  (iter < tk_iter r <= length s)%nat /\ (iter <= tk_start r)%nat /\
  (tk_start r + tk_len r <= tk_iter r)%nat.
Proof.
  intros Hi. unfold next_token_flat. pose proof (token_find_start_spec (drop iter s) iter) as Hs.
  destruct (token_find_start _ _) as [[start rest]|]; [|done].
  destruct Hs as (ws & c & tl & Hd & _ & -> & -> & _).
  destruct (token_find_last _ _ _ _ _ _ _) as [[cur te] fv'] eqn:El. intros [= <- <-]. simpl.
  apply token_find_last_cur in El as (H1 & H2 & H3); [|lia]. specialize (H3 ltac:(by left) ltac:(done)).
  apply (f_equal length) in Hd. rewrite length_drop, length_app in Hd. cbn [length] in *. lia.
Qed.

(** A token lies within what was left of the string, and the iterator moves past it. *)
Lemma next_token_progress s iter inner outer wv r :
  (iter <= length s)%nat -> h2o_next_token s iter inner outer wv = Some r ->
  (iter < tk_iter r <= length s)%nat /\ (iter <= tk_start r)%nat /\
  (tk_start r + tk_len r <= tk_iter r)%nat.
Proof.
  intros Hi. unfold h2o_next_token. destruct (next_token_flat _ _ _ _ _) as [[r0 fv]|] eqn:E; [|done].
  apply next_token_flat_progress in E as (H1 & H2 & H3); [|done].
  destruct fv; [|by intros [= <-]].
  destruct (next_token_flat s (tk_iter r0) _ _ false) as [[v fv]|] eqn:Ev; [|intros [= <-]; simpl; lia].
  apply next_token_flat_progress in Ev as (? & ? & ?); [|lia].
  destruct (bool_decide _); intros [= <-]; simpl; lia.
Qed.

Lemma contains_token_loop_total fuel : forall s iter needle separator,
  (iter <= length s)%nat -> (length s - iter < fuel)%nat ->
  is_Some (contains_token_loop fuel s iter needle separator).
Proof.
  induction fuel as [|fuel IH]; intros s iter needle separator Hi Hf; [lia|]. cbn [contains_token_loop].
  destruct (h2o_next_token _ _ _ _ _) as [r|] eqn:E; [|by eexists].
  apply next_token_progress in E as (H & _); [|done].
  destruct (h2o_lcstris _ _); [by eexists|]. apply IH; lia.
Qed.

Section ContainsToken.
Context (haysack needle : bytes) (separator : Z).
Hypothesis needle_nonempty : needle <> [].
Hypothesis needle_comma : needle <> [44].
Hypothesis separator_blank : is_sp_tab separator = false.

(** The separators, and whether a piece is the token looked for. *)
Definition sep (c : Z) : bool := (c =? separator) || (c =? 44).
Definition hit (p : bytes) : bool := bool_decide (h2o_strtolower (rtrim (ltrim p)) = needle).

Lemma hit_nil : hit [] = false.
Proof. unfold hit. by apply bool_decide_eq_false. Qed.

Lemma hit_blank ws : Forall (fun c => is_sp_tab c = true) ws -> hit ws = false.
Proof. intros Hws. unfold hit. rewrite <- (app_nil_r ws), ltrim_blank by done. apply hit_nil. Qed.

Lemma blank_not_sep ws : Forall (fun c => is_sp_tab c = true) ws -> Forall (fun c => sep c = false) ws.
Proof.
  intros Hws. eapply Forall_impl; [exact Hws|]. intros c Hc. unfold sep. destruct (Z.eqb_spec c separator) as [->|]; [congruence|].
  destruct (Z.eqb_spec c 44) as [->|]; done.
Qed.

Lemma lcstris_hit_comma : h2o_lcstris [44] needle = false.
Proof. apply not_true_iff_false. rewrite lcstris_eq. intros H. by apply needle_comma. Qed.

(** What one call of [h2o_next_token] does to the pieces left. *)
Lemma next_token_pieces iter :
  (iter <= length haysack)%nat ->
  match h2o_next_token haysack iter separator 44 false with
  | None => existsb hit (pieces sep (drop iter haysack)) = false
  | Some r =>
      (iter < tk_iter r <= length haysack)%nat /\
      existsb hit (pieces sep (drop iter haysack)) =
      h2o_lcstris (sub haysack (tk_start r) (tk_len r)) needle
      || existsb hit (pieces sep (drop (tk_iter r) haysack))
  end.
Proof.
  intros Hit. unfold h2o_next_token, next_token_flat.
  pose proof (token_find_start_spec (drop iter haysack) iter) as Hs.
  destruct (token_find_start _ _) as [[start rest]|].
  2:{ destruct (pieces_app sep (drop iter haysack) [] (blank_not_sep _ Hs)) as (q & ps & Hq & Hp).
      injection Hq as <- <-. rewrite app_nil_r in Hp. rewrite Hp. simpl.
      by rewrite hit_blank. }
  destruct Hs as (ws & c & tl & Hd & Hws & -> & -> & Hc).
  assert (Hdrop : drop (iter + length ws) haysack = c :: tl).
  { by rewrite <- drop_drop, Hd, drop_app_length. }
  assert (Hlen : (iter + length ws + S (length tl) = length haysack)%nat).
  { apply (f_equal length) in Hd. rewrite length_drop, length_app in Hd. simpl in Hd. lia. }
  destruct (pieces_app sep ws (c :: tl) (blank_not_sep _ Hws)) as (q & ps & Hq & Hp).
  rewrite <- Hd in Hp. rewrite Hp. cbn [token_find_last].
  assert (Hsep : forall c', c' = c -> sep c' = true ->
            (q = [] /\ ps = pieces sep tl)).
  { intros ? -> Hsc. simpl in Hq. rewrite Hsc in Hq. by injection Hq as <- <-. }
  destruct (c =? separator) eqn:Hi; [|destruct (c =? 44) eqn:Ho].
  - destruct (Hsep c eq_refl ltac:(unfold sep; by rewrite Hi)) as [-> ->]. simpl. split; [lia|].
    rewrite app_nil_r, hit_blank, Nat.sub_diag by done.
    replace (S (iter + length ws)) with (iter + length ws + 1)%nat by lia.
    rewrite <- (drop_drop haysack 1 (iter + length ws)), Hdrop. unfold sub. simpl.
    rewrite drop_0. destruct needle; [done|]. done.
  - destruct (Hsep c eq_refl ltac:(unfold sep; by rewrite Hi, Ho)) as [-> ->].
    rewrite Nat.eqb_refl. cbn [tk_start tk_len tk_iter].
    replace (S (iter + length ws) - (iter + length ws))%nat with 1%nat by lia. split; [lia|].
    unfold sub. rewrite Hdrop. replace (S (iter + length ws)) with (iter + length ws + 1)%nat by lia.
    rewrite <- (drop_drop haysack 1 (iter + length ws)), Hdrop. simpl. rewrite drop_0.
    apply Z.eqb_eq in Ho as ->. by rewrite take_0, lcstris_hit_comma, app_nil_r, hit_blank by done.
  - cbn [andb]. rewrite Hc. cbn [negb].
    destruct (token_find_last_spec separator 44 tl (iter + length ws) (S (iter + length ws))
                (S (iter + length ws)) ltac:(lia)) as (body & tl' & -> & Hb & -> & Htl).
    cbn [tk_start tk_len tk_iter].
    set (word := c :: body) in *.
    assert (Hword : Forall (fun d => sep d = false) word).
    { constructor; [unfold sep; by rewrite Hi, Ho|]. exact Hb. }
    destruct (pieces_app sep word tl' Hword) as (q' & ps' & Hq' & Hp').
    change (c :: body ++ tl') with (word ++ tl') in Hq, Hdrop. rewrite Hp' in Hq. injection Hq as <- <-.
    assert (Htoken : sub haysack (iter + length ws)
              (match rtrim body with [] => S (iter + length ws)
               | z :: l => S (iter + length ws) + length (z :: l) end - (iter + length ws))
            = rtrim word).
    { unfold sub. rewrite Hdrop.
      replace (_ - (iter + length ws))%nat with (length (rtrim word)).
      2:{ unfold word. cbn [rtrim]. destruct (rtrim body); [rewrite Hc|]; simpl; lia. }
      destruct (rtrim_prefix word) as [k Hk]. rewrite Hk at 2. by rewrite <- app_assoc, take_app_length. }
    rewrite Htoken.
    assert (Hq'nil : q' = []).
    { destruct tl' as [|d tl']; [by injection Hq' as <- _|]. simpl in Hq'.
      unfold sep in Hq'. rewrite Htl in Hq'. by injection Hq' as <- _. }
    subst q'. rewrite app_nil_r. cbn [existsb].
    assert (Hhit : hit (ws ++ word) = h2o_lcstris (rtrim word) needle).
    { assert (Hlt : ltrim word = word) by (unfold word; simpl; by rewrite Hc).
      unfold hit. rewrite ltrim_blank, Hlt by done.
      apply eq_iff_eq_true. by rewrite bool_decide_eq_true, lcstris_eq. }
    change (ws ++ c :: body) with (ws ++ word). rewrite Hhit.
    assert (Htail : drop (S (iter + length ws) + length body) haysack = tl').
    { replace (S (iter + length ws) + length body)%nat with ((iter + length ws) + length word)%nat
        by (simpl; lia). by rewrite <- drop_drop, Hdrop, drop_app_length. }
    assert (Hl : (iter + length ws + length word + length tl' = length haysack)%nat).
    { rewrite length_app in Hlen. simpl. lia. }
    simpl in Hl.
    destruct tl' as [|d tl'].
    { simpl in *. split; [lia|]. rewrite Htail. injection Hq' as <-. simpl. by rewrite hit_nil. }
    cbn [length] in Hl. simpl in Hq'. unfold sep in Hq'. rewrite Htl in Hq'. injection Hq' as <-.
    destruct (d =? separator) eqn:Hds.
    + split; [lia|]. replace (S (S (iter + length ws) + length body))
        with ((S (iter + length ws) + length body) + 1)%nat by lia.
      by rewrite <- (drop_drop haysack 1), Htail.
    + split; [lia|]. rewrite Htail. cbn [pieces].
      assert (sep d = true) as -> by (unfold sep; by rewrite Hds). cbn [existsb]. by rewrite hit_nil.
Qed.

Lemma contains_token_loop_spec fuel : forall iter,
  (iter <= length haysack)%nat -> (length haysack - iter < fuel)%nat ->
  contains_token_loop fuel haysack iter needle separator =
  Some (existsb hit (pieces sep (drop iter haysack))).
Proof.
  induction fuel as [|fuel IH]; intros iter Hi Hf; [lia|]. cbn [contains_token_loop].
  pose proof (next_token_pieces iter Hi) as H.
  destruct (h2o_next_token _ _ _ _ _) as [r|]; [|by rewrite H].
  destruct H as [Hr ->]. destruct (h2o_lcstris _ _); [done|]. rewrite IH by lia. done.
Qed.
End ContainsToken.

(** A list contains the token that is looked for exactly when one of its pieces, stripped of
    blanks and in lower case, is it. *)
Lemma contains_token_spec haysack needle separator :
  needle <> [] -> needle <> [44] -> is_sp_tab separator = false ->
  h2o_contains_token haysack needle separator =
  Some (existsb (hit needle) (pieces (sep separator) haysack)).
Proof.
  intros. unfold h2o_contains_token. rewrite contains_token_loop_spec by (done || lia).
  by rewrite drop_0.
Qed.

(** ** Properties *)

(** [h2o_strtosize] accepts exactly the strings of one to nineteen digits and returns the number
    they denote, without overflow; everything else is [SIZE_MAX]. *)
Theorem strtosize_exact s :
  h2o_strtosize s =
    (if forallb is_digit s && (1 <=? len s) && (len s <=? 19) then dec_val s else SIZE_MAX) /\
  (h2o_strtosize s <> SIZE_MAX -> 0 <= h2o_strtosize s < 10 ^ 19).
Proof.
  rewrite strtosize_spec. split; [done|].
  destruct (forallb is_digit s) eqn:Hd; [|done]. cbn [andb].
  destruct (Z.leb_spec 1 (len s)), (Z.leb_spec (len s) 19); cbn [andb]; try done. intros _.
  apply dec_val_bound in Hd. assert (10 ^ len s <= 10 ^ 19) by (apply Z.pow_le_mono_r; lia). lia.
Qed.

(** Decoding what the base64url encoder wrote gives the octets back; the assertion on the decoded
    length never fails; and the encoding, with its final NUL, fits the capacity computed for it. *)
Theorem base64url_roundtrip s url_encoded :
  bytes_ok s ->
  h2o_decode_base64url (h2o_base64_encode s true) = Some (Some s) /\
  len (h2o_base64_encode s url_encoded) + 1 <= h2o_base64_encode_capacity (len s).
Proof.
  intros Hs. split.
  - rewrite decode_base64url_defined. unfold h2o_base64_encode.
    by rewrite (decode_base64url_encode_loop (S (length s))) by (done || lia).
  - unfold h2o_base64_encode, h2o_base64_encode_capacity.
    rewrite (base64_encode_loop_length (S (length s))) by lia. pose proof (len_nonneg s).
    destruct url_encoded; [|lia]. Z.div_mod_to_equations. lia.
Qed.

Lemma base64url_roundtrip_witness :
  h2o_decode_base64url (h2o_base64_encode [0; 255; 62; 63] true) = Some (Some [0; 255; 62; 63]) /\
  len (h2o_base64_encode [0; 255; 62; 63] false) + 1 <= h2o_base64_encode_capacity (len [0; 255; 62; 63]).
Proof. apply base64url_roundtrip. repeat constructor; unfold is_byte; lia. Defined.

(** A string without NUL that was escaped with [h2o_uri_escape] is unescaped to itself, as long as
    the percent sign is not among the characters to preserve; and the escaped form holds only
    percent signs, RFC 3986's unreserved and sub-delims, and the preserved characters. *)
Theorem uri_escape_roundtrip s preserve :
  bytes_ok s -> Forall (fun c => c <> 0) s -> 37 ∉ preserve ->
  h2o_uri_unescape (h2o_uri_escape s preserve) = Some s /\
  (forall c, c ∈ h2o_uri_escape s preserve -> c = 37 \/ uri_preserved preserve c = true).
Proof. intros Hs Hz Hp. split; [by apply uri_unescape_escape|]. intros c. by apply uri_escape_safe. Qed.

Lemma uri_escape_roundtrip_witness :
  h2o_uri_unescape (h2o_uri_escape (lit "a b/%c") (lit "/")) = Some (lit "a b/%c") /\
  (forall c, c ∈ h2o_uri_escape (lit "a b/%c") (lit "/") -> c = 37 \/ uri_preserved (lit "/") c = true).
Proof.
  apply uri_escape_roundtrip; [apply lit_ok|repeat constructor; discriminate|].
  intros H. apply list_elem_of_singleton in H. discriminate H.
Defined.

(** Hexadecimal encoding and decoding are inverse. *)
Theorem hex_roundtrip s : bytes_ok s -> h2o_hex_decode (h2o_hex_encode s) = Some s.
Proof.
  intros Hs. unfold h2o_hex_decode. rewrite len_hex_encode, Z.mul_comm, Z.mod_mul by lia.
  by apply hex_decode_encode_loop.
Qed.

Lemma hex_roundtrip_witness : h2o_hex_decode (h2o_hex_encode [0; 171; 255]) = Some [0; 171; 255].
Proof. apply hex_roundtrip. repeat constructor; unfold is_byte; lia. Defined.

(** [h2o_contains_token] (which always returns) tells whether one of the pieces between
    separators (the given one or a comma), stripped of blanks and in lower case, is the needle. *)
Theorem contains_token_exact haysack needle separator :
  needle <> [] -> needle <> [44] -> is_sp_tab separator = false ->
  exists b, h2o_contains_token haysack needle separator = Some b /\
    (b = true <-> exists p, p ∈ pieces (sep separator) haysack /\ h2o_strtolower (rtrim (ltrim p)) = needle).
Proof.
  intros Hn Hc Hs. rewrite contains_token_spec by done. eexists. split; [done|].
  rewrite existsb_exists. setoid_rewrite <- list_elem_of_In. unfold hit. setoid_rewrite bool_decide_eq_true. done.
Qed.

Lemma contains_token_exact_witness :
  exists b, h2o_contains_token (lit "gzip , Chunked") (lit "chunked") 44 = Some b /\
    (b = true <-> exists p, p ∈ pieces (sep 44) (lit "gzip , Chunked") /\
                    h2o_strtolower (rtrim (ltrim p)) = lit "chunked").
Proof. apply contains_token_exact; [discriminate|discriminate|reflexivity]. Defined.

(** Every token [h2o_next_token] returns lies in what was left of the string, and the iterator
    moves strictly forward and stays within it, so that iterating terminates; this holds for
    any separators and with name-value pairs. *)
Theorem next_token_advances s iter inner outer with_value r :
  (iter <= length s)%nat -> h2o_next_token s iter inner outer with_value = Some r ->
  (iter < tk_iter r <= length s)%nat /\ (iter <= tk_start r)%nat /\
  (tk_start r + tk_len r <= tk_iter r)%nat.
Proof. apply next_token_progress. Qed.

Lemma next_token_advances_witness :
  let r := TokenResult 0 1 4 (ValueAt 2 1) in
  (0 < tk_iter r <= length (lit "a=1;b"))%nat /\ (0 <= tk_start r)%nat /\
  (tk_start r + tk_len r <= tk_iter r)%nat.
Proof.
  cbv zeta. apply (next_token_advances (lit "a=1;b") 0 59 44 true (TokenResult 0 1 4 (ValueAt 2 1)));
    [simpl; lia|reflexivity].
Defined.

(** [h2o_htmlescape] replaces each of the five markup characters by its entity and nothing else
    (the precomputed length is right, so its assertion holds), and leaves no quote, apostrophe
    or angle bracket. *)
Theorem htmlescape_safe s :
  bytes_ok s ->
  h2o_htmlescape s = Some (flat_map html_quote s) /\
  (forall d, d ∈ flat_map html_quote s -> d <> 34 /\ d <> 39 /\ d <> 60 /\ d <> 62).
Proof.
  intros Hs. split; [by apply htmlescape_spec|]. intros d Hd.
  apply list_elem_of_In, in_flat_map in Hd as (c & _ & Hd). by eapply html_quote_safe, list_elem_of_In.
Qed.

Lemma htmlescape_safe_witness :
  h2o_htmlescape (lit "<a&b>") = Some (flat_map html_quote (lit "<a&b>")) /\
  (forall d, d ∈ flat_map html_quote (lit "<a&b>") -> d <> 34 /\ d <> 39 /\ d <> 60 /\ d <> 62).
Proof. apply htmlescape_safe, lit_ok. Defined.

(** Splitting a string at a character gives pieces without it whose join is the string, and
    splitting a join of such pieces gives them back. *)
Theorem split_join_inverse str needle l :
  h2o_join_list (h2o_split [] str needle) [needle] = str /\
  Forall (fun p => needle ∉ p) (h2o_split [] str needle) /\
  (l <> [] -> Forall (fun p => needle ∉ p) l -> h2o_split [] (h2o_join_list l [needle]) needle = l).
Proof.
  unfold h2o_split. cbn [app]. split_and!.
  - by rewrite split_loop_join.
  - apply split_loop_free, not_elem_of_nil.
  - apply split_join_list.
Qed.

Lemma split_join_inverse_witness :
  h2o_join_list (h2o_split [] (lit "a,,b") 44) [44] = lit "a,,b" /\
  Forall (fun p => 44 ∉ p) (h2o_split [] (lit "a,,b") 44) /\
  ([lit "x"; lit "y"] <> [] -> Forall (fun p => 44 ∉ p) [lit "x"; lit "y"] ->
   h2o_split [] (h2o_join_list [lit "x"; lit "y"] [44]) 44 = [lit "x"; lit "y"]).
Proof. apply split_join_inverse. Defined.

(** [h2o_strstr] returns the least offset at which the needle occurs, and [SIZE_MAX] when it does
    not occur. *)
Lemma strstr_spec haysack needle :
  (exists k, h2o_strstr haysack needle = Z.of_nat k /\ needle `prefix_of` drop k haysack /\
     forall j, (j < k)%nat -> ~ needle `prefix_of` drop j haysack) \/
  h2o_strstr haysack needle = SIZE_MAX /\ forall j, ~ needle `prefix_of` drop j haysack.
Proof.
  unfold h2o_strstr. destruct (Z.leb_spec (len needle) (len haysack)) as [Hle|Hgt].
  - destruct (Z.eqb_spec (len needle) 0) as [H0|Hne].
    { left. exists O. destruct needle as [|c n]; [|rewrite len_cons in H0; pose proof (len_nonneg n); lia].
      split_and!; [done|apply prefix_nil|lia]. }
    assert (Hnn : needle <> []) by (intros ->; done). unfold len in Hle.
    destruct (strstr_loop_spec (length haysack - length needle + 1) 0 haysack needle Hnn ltac:(lia))
      as [(k & Hk & -> & Hp & Hmin)|[-> Hno]].
    + left. exists k. by split_and!.
    + right. split; [done|]. intros j Hp. destruct (decide (j < length haysack - length needle + 1)%nat) as [Hj|Hj].
      { by apply (Hno j). }
      apply prefix_length in Hp. rewrite length_drop in Hp.
      assert (length needle <> 0)%nat by (by destruct needle). lia.
  - right. split; [done|]. intros j Hp. apply prefix_length in Hp. rewrite length_drop in Hp.
    unfold len in Hgt. lia.
Qed.

(** [h2o_strtosizefwd] reads past a string of one digit, and a number of exactly twenty digits
    at the end of the string overflows. *)
Theorem strtosizefwd_overflow :
  h2o_strtosizefwd (lit "7") 1 = None /\
  h2o_strtosizefwd (lit "18446744073709551617") 20 = Some (1, 20).
Proof. split; vm_compute; reflexivity. Qed.

(** [h2o_get_filext] of the empty path leaves the buffer. *)
Theorem get_filext_empty : h2o_get_filext [] = None.
Proof. reflexivity. Qed.
