(* ===== verification/Url.v ===== *)
(** * URLs (lib/common/url.c, include/h2o/url.h)

    Parsing, resolution and the normalization of request paths.  Strings that the C code
    shares by pointer are the octets they point to. *)
From S2P Require Import Prelude Strings.
From Stdlib Require Import ZArith Lia.
From stdpp Require Import base list numbers option strings.
Open Scope Z_scope.

(** ** Schemes *)

(** The constants of type [h2o_url_scheme_t]; they are compared by address. *)
Inductive h2o_url_scheme_t :=
| H2O_URL_SCHEME_HTTP | H2O_URL_SCHEME_HTTPS | H2O_URL_SCHEME_MASQUE | H2O_URL_SCHEME_FASTCGI.

#[export] Instance url_scheme_eq_dec : EqDecision h2o_url_scheme_t.
Proof. solve_decision. Defined.

Definition scheme_name (s : h2o_url_scheme_t) : bytes :=
  match s with
  | H2O_URL_SCHEME_HTTP => lit "http"
  | H2O_URL_SCHEME_HTTPS => lit "https"
  | H2O_URL_SCHEME_MASQUE => lit "masque"
  | H2O_URL_SCHEME_FASTCGI => lit "fastcgi"
  end.

Definition default_port (s : h2o_url_scheme_t) : Z :=
  match s with
  | H2O_URL_SCHEME_HTTP => 80
  | H2O_URL_SCHEME_HTTPS => 443
  | H2O_URL_SCHEME_MASQUE => 65535
  | H2O_URL_SCHEME_FASTCGI => 65535
  end.

Definition is_ssl (s : h2o_url_scheme_t) : bool :=
  match s with H2O_URL_SCHEME_HTTPS => true | _ => false end.
