(* ===== verification/UrlPath.v ===== *)
(** * Normalization of request paths (lib/common/url.c)

    [h2o_url_normalize_path] decodes the percent-encoding of a path and removes its dot
    segments in one pass over a buffer that it rewinds.  The reference is by segments: decode,
    cut at the slashes, and keep a stack of segments.  The handlers rely on the outcome to stay
    below the document root. *)
From S2P Require Import Prelude Strings.
From Stdlib Require Import ZArith Lia Sorted.
From stdpp Require Import base list numbers option strings.
Open Scope Z_scope.

(** ** The one-pass rewriting *)

(** [for (--off; path[off - 1] != '/'; --off)] after the first decrement; [None]: a read
    below the buffer. *)
Fixpoint back_to_slash (path : bytes) (off : nat) : option nat :=
  match off with
  | O => None
  | S off' => if nth off' path 0 =? 47 then Some off else back_to_slash path off'
  end.

(** The number of octets to rewind. *)
Definition handle_special_paths (path : bytes) (off last_slash : nat) : option nat :=
  let orig_off := off in
  let part_size := (off - last_slash)%nat in
  if (part_size =? 2)%nat && (nth (off - 1) path 0 =? 46) then Some (orig_off - (off - 1))%nat
  else if (part_size =? 3)%nat && (nth (off - 2) path 0 =? 46) && (nth (off - 1) path 0 =? 46) then
    let off := (off - 2)%nat in
    if (1 <? off)%nat then off ← back_to_slash path (off - 1); Some (orig_off - off)%nat
    else Some (orig_off - off)%nat
  else Some 0%nat.

(** The octets of [dst] and the entries of [norm_indexes] below [dst_off], with the other
    variables of the loop. *)
Record rebuild := Rebuild {
  rb_dst : bytes;
  rb_norm : list nat;
  rb_last_slash : nat;
  rb_null : bool }.

Definition rewind_to (st : rebuild) (n last_slash : nat) : rebuild :=
  Rebuild (take n (rb_dst st)) (take n (rb_norm st)) last_slash (rb_null st).

(** What one decoded octet does; [src_off] is the offset after it. *)
Definition rebuild_octet (st : rebuild) (decoded : Z) (src_off : nat) : option rebuild :=
  let dst_off := length (rb_dst st) in
  let push last_slash :=
    Rebuild (rb_dst st ++ [decoded]) (rb_norm st ++ [src_off]) last_slash
      (if decoded =? 0 then true else rb_null st) in
  if decoded =? 47 then
    rewind ← handle_special_paths (rb_dst st) dst_off (rb_last_slash st);
    if (0 <? rewind)%nat
    then Some (rewind_to st (dst_off - rewind) (dst_off - rewind - 1))
    else Some (push dst_off)
  else Some (push (rb_last_slash st)).

(** "decode %xx" *)
Fixpoint rebuild_loop (src : bytes) (src_off : nat) (st : rebuild) : option rebuild :=
  match src with
  | [] => Some st
  | c :: src1 =>
      let plain := (st ← rebuild_octet st c (src_off + 1); rebuild_loop src1 (src_off + 1) st) in
      match src1 with
      | h :: l :: src3 =>
          let hi := decode_hex h in
          let lo := decode_hex l in
          if (c =? 37) && negb (hi =? -1) && negb (lo =? -1) then
            st ← rebuild_octet st (Z.lor (Z.shiftl hi 4) lo) (src_off + 3);
            rebuild_loop src3 (src_off + 3) st
          else plain
      | _ => plain
      end
  end.

(** [memchr(s, c, len)] as an offset *)
Fixpoint memchr (s : bytes) (c : Z) : option nat :=
  match s with
  | [] => None
  | x :: s => if x =? c then Some O else S <$> memchr s c
  end.

Record normalized := Normalized {
  np_path : bytes;
  np_query_at : option nat;        (* [SIZE_MAX] is [None] *)
  np_norm_indexes : option (list nat); (* the entries for the path returned; NULL is [None] *)
  np_null_char_found : bool }.

Definition rebuild_path (src : bytes) : option normalized :=
  let query_at := memchr src 63 in
  let input := match query_at with Some q => take q src | None => src end in
  let src_off := if nth 0 src 0 =? 47 then 1%nat else 0%nat in
  st ← rebuild_loop (drop src_off input) src_off (Rebuild [47] [src_off] 0 false);
  rewind ← handle_special_paths (rb_dst st) (length (rb_dst st)) (rb_last_slash st);
  let n := (length (rb_dst st) - rewind)%nat in
  Some (Normalized (take n (rb_dst st)) query_at (Some (take n (rb_norm st))) (rb_null st)).

(** ** The scan for paths that need no rewriting *)

Inductive scan_result := ScanRewrite | ScanReturn (query_at : option nat) (p : nat).

Fixpoint normalize_scan (s : bytes) (p : nat) : scan_result :=
  match s with
  | [] => ScanReturn None p
  | c :: s' =>
      match s' with
      | d :: _ =>
          if ((c =? 47) && (d =? 46)) || (c =? 37) || (c =? 0) then ScanRewrite
          else if c =? 63 then ScanReturn (Some p) p
          else normalize_scan s' (S p)
      | [] =>
          if c =? 0 then ScanRewrite
          else if c =? 63 then ScanReturn (Some p) p
          else normalize_scan s' (S p)
      end
  end.

(** From [Rewrite:] on; [RewriteError] gives the path "/". *)
Definition normalize_rewrite (path : bytes) : option normalized :=
  ret ← rebuild_path path;
  let n := length (np_path ret) in
  if (n =? 0)%nat
     || negb (nth 0 (np_path ret) 0 =? 47)
     || negb (h2o_strstr (np_path ret) (lit "/../") =? SIZE_MAX)
     || ((3 <=? n)%nat && bool_decide (drop (n - 3) (np_path ret) = lit "/.."))
  then Some (Normalized [47] (np_query_at ret) (np_norm_indexes ret) (np_null_char_found ret))
  else Some ret.

Definition h2o_url_normalize_path (path : bytes) : option normalized :=
  match path with
  | [] => Some (Normalized [47] None None false)
  | c :: _ =>
      if negb (c =? 47) then normalize_rewrite path
      else match normalize_scan path 0 with
           | ScanRewrite => normalize_rewrite path
           | ScanReturn query_at p => Some (Normalized (take p path) query_at None false)
           end
  end.

(** ** Reference: segments *)

(** The percent-encoding, decoded where two hexadecimal digits follow. *)
Fixpoint pct_decode (s : bytes) : bytes :=
  match s with
  | [] => []
  | c :: s1 =>
      match s1 with
      | h :: l :: s3 =>
          if (c =? 37) && negb (decode_hex h =? -1) && negb (decode_hex l =? -1)
          then Z.lor (Z.shiftl (decode_hex h) 4) (decode_hex l) :: pct_decode s3
          else c :: pct_decode s1
      | _ => c :: pct_decode s1
      end
  end.

(** The segments that a slash closes, and what is left after the last slash. *)
Fixpoint segments (s : bytes) : list bytes * bytes :=
  match s with
  | [] => ([], [])
  | c :: s =>
      let '(closed, rest) := segments s in
      if c =? 47 then ([] :: closed, rest)
      else match closed with
           | [] => ([], c :: rest)
           | seg :: closed => ((c :: seg) :: closed, rest)
           end
  end.

Definition dot_segment (seg : bytes) : bool := bool_decide (seg = lit ".") || bool_decide (seg = lit "..").

(** A segment on the stack of those before it, the last one first. *)
Definition push_segment (stack : list bytes) (seg : bytes) : list bytes :=
  if bool_decide (seg = lit ".") then stack
  else if bool_decide (seg = lit "..") then tail stack
  else seg :: stack.

Definition dirs (stack : list bytes) : bytes := 47 :: flat_map (fun seg => seg ++ [47]) (rev stack).

(** The path of a stack of directories and a last segment. *)
Definition close_path (stack : list bytes) (rest : bytes) : bytes :=
  if dot_segment rest then dirs (push_segment stack rest) else dirs stack ++ rest.

Definition remove_dot_segments (s : bytes) : bytes :=
  let '(closed, rest) := segments s in
  close_path (fold_left push_segment closed []) rest.

Definition before_query (target : bytes) : bytes :=
  match memchr target 63 with Some q => take q target | None => target end.

(** The path of a request target, without the query and the leading slash. *)
Definition path_of (target : bytes) : bytes :=
  match before_query target with
  | c :: rest => if c =? 47 then rest else before_query target
  | [] => []
  end.

Definition normalize_spec (target : bytes) : bytes := remove_dot_segments (pct_decode (path_of target)).

(** ** The buffer as a stack of segments *)

Lemma dirs_cons stack seg : dirs (seg :: stack) = dirs stack ++ seg ++ [47].
Proof. unfold dirs. simpl. rewrite flat_map_app. simpl. by rewrite app_nil_r. Qed.

Lemma dirs_last stack : exists d, dirs stack = d ++ [47].
Proof.
  destruct stack as [|seg stack]; [by exists []|].
  exists (dirs stack ++ seg). by rewrite dirs_cons, app_assoc.
Qed.

Lemma dirs_length stack : (1 <= length (dirs stack))%nat.
Proof. unfold dirs. simpl. lia. Qed.

Lemma back_to_slash_spec d seg tail :
  47 ∉ seg ->
  back_to_slash (d ++ [47] ++ seg ++ tail) (S (length d) + length seg) = Some (S (length d)).
Proof.
  revert tail. induction seg as [|c seg IH] using rev_ind; intros tail Hs.
  - rewrite Nat.add_0_r. cbn [back_to_slash]. rewrite app_nth2, Nat.sub_diag by lia. done.
  - rewrite length_app. cbn [length]. replace (S (length d) + (length seg + 1))%nat with (S (S (length d) + length seg)) by lia.
    cbn [back_to_slash]. rewrite <- !app_assoc. cbn [app].
    replace (nth (S (length d) + length seg) (d ++ 47 :: seg ++ c :: tail) 0) with c.
    + destruct (Z.eqb_spec c 47) as [->|]; [exfalso; apply Hs, elem_of_app; right; by left|].
      apply (IH (c :: tail)). intros ?. apply Hs, elem_of_app. by left.
    + rewrite app_nth2 by lia. replace (S (length d) + length seg - length d)%nat with (S (length seg)) by lia.
      cbn [nth]. rewrite app_nth2, Nat.sub_diag by lia. done.
Qed.

Lemma nth_last_off (d : bytes) (cur : bytes) k :
  (k < length cur)%nat -> nth (length (d ++ cur) - S k) (d ++ cur) 0 = nth (length cur - S k) cur 0.
Proof. intros Hk. rewrite app_nth2; rewrite length_app; [f_equal; lia|lia]. Qed.

Lemma handle_special_dot stack :
  handle_special_paths (dirs stack ++ lit ".") (length (dirs stack ++ lit ".")) (length (dirs stack) - 1) = Some 1%nat.
Proof.
  pose proof (dirs_length stack). unfold handle_special_paths. rewrite (nth_last_off _ _ 0) by (simpl; lia).
  rewrite length_app. change (length (lit ".")) with 1%nat. replace (length (dirs stack) + 1 - (length (dirs stack) - 1))%nat with 2%nat by lia.
  cbn. f_equal. lia.
Qed.

Lemma handle_special_dotdot stack :
  Forall (fun seg => 47 ∉ seg) stack ->
  handle_special_paths (dirs stack ++ lit "..") (length (dirs stack ++ lit "..")) (length (dirs stack) - 1)
  = Some (length (dirs stack) + 2 - length (dirs (tail stack)))%nat.
Proof.
  intros Hs. pose proof (dirs_length stack). unfold handle_special_paths.
  rewrite (nth_last_off _ _ 0), (nth_last_off _ _ 1) by (simpl; lia).
  rewrite length_app. change (length (lit "..")) with 2%nat.
  replace (length (dirs stack) + 2 - (length (dirs stack) - 1))%nat with 3%nat by lia.
  change (nth (2 - 1) (lit "..") 0 =? 46) with true. change (nth (2 - 2) (lit "..") 0 =? 46) with true.
  cbn [Nat.eqb andb]. replace (length (dirs stack) + 2 - 2)%nat with (length (dirs stack)) by lia.
  destruct Hs as [|seg stack Hseg Hs]; [done|]. cbn [tail].
  destruct (dirs_last stack) as [d Hd]. rewrite dirs_cons, Hd, !length_app. cbn [length].
  destruct (Nat.ltb_spec 1 (length d + 1 + (length seg + 1))); [|lia].
  replace (length d + 1 + (length seg + 1) - 1)%nat with (S (length d) + length seg)%nat by lia.
  rewrite <- !app_assoc. rewrite back_to_slash_spec by done. cbn [mbind option_bind]. f_equal. rewrite ?length_app. cbn [length]. lia.
Qed.

Lemma handle_special_none stack cur :
  dot_segment cur = false ->
  handle_special_paths (dirs stack ++ cur) (length (dirs stack ++ cur)) (length (dirs stack) - 1) = Some 0%nat.
Proof.
  intros Hc. pose proof (dirs_length stack). unfold handle_special_paths.
  rewrite length_app. replace (length (dirs stack) + length cur - (length (dirs stack) - 1))%nat with (S (length cur)) by lia.
  rewrite <- length_app. unfold dot_segment in Hc.
  destruct cur as [|a [|b [|c cur]]]; cbn [length Nat.eqb andb]; [done| | |].
  - rewrite (nth_last_off _ _ 0) by (simpl; lia). cbn.
    destruct (Z.eqb_spec a 46) as [->|]; [by vm_compute in Hc|done].
  - rewrite (nth_last_off _ _ 0), (nth_last_off _ _ 1) by (simpl; lia). cbn.
    destruct (Z.eqb_spec a 46) as [->|]; [|done]. destruct (Z.eqb_spec b 46) as [->|]; [by vm_compute in Hc|done].
  - done.
Qed.

Lemma dirs_tail_prefix stack : exists d, dirs stack = dirs (tail stack) ++ d.
Proof.
  destruct stack as [|seg stack]; [by exists []; rewrite app_nil_r|]. rewrite dirs_cons. by eexists.
Qed.

(** [handle_special_paths] tells how far to go back for a segment to end. *)
Lemma handle_special_close stack cur :
  Forall (fun seg => 47 ∉ seg) stack ->
  exists n,
    handle_special_paths (dirs stack ++ cur) (length (dirs stack ++ cur)) (length (dirs stack) - 1) = Some n /\
    (n = 0%nat <-> dot_segment cur = false) /\
    (n <= length (dirs stack ++ cur))%nat /\
    take (length (dirs stack ++ cur) - n) (dirs stack ++ cur) = close_path stack cur.
Proof.
  intros Hs. unfold close_path. destruct (dot_segment cur) eqn:E.
  - unfold dot_segment in E. apply orb_true_iff in E as [E|E]; apply bool_decide_eq_true in E as ->.
    + exists 1%nat. rewrite handle_special_dot. split_and!; [done|done|rewrite length_app; simpl; lia|].
      unfold push_segment. rewrite bool_decide_eq_true_2 by done. rewrite length_app. change (length (lit ".")) with 1%nat.
      rewrite Nat.add_sub. apply take_app_length.
    + eexists. rewrite handle_special_dotdot by done. destruct (dirs_tail_prefix stack) as [d Hd].
      assert (length (dirs (tail stack)) <= length (dirs stack))%nat by (rewrite Hd, length_app; lia).
      split_and!; [done|split; [lia|done]|rewrite length_app; simpl; lia|].
      change (push_segment stack (lit "..")) with (tail stack). rewrite length_app. change (length (lit "..")) with 2%nat.
      replace (length (dirs stack) + 2 - (length (dirs stack) + 2 - length (dirs (tail stack))))%nat with (length (dirs (tail stack))) by lia.
      rewrite Hd, <- app_assoc. apply take_app_length.
  - exists 0%nat. rewrite handle_special_none by done. split_and!; [done|done|lia|]. rewrite Nat.sub_0_r. apply firstn_all.
Qed.

(** ** The loop *)

Record rebuilt (st : rebuild) (stack : list bytes) (cur : bytes) (src_off : nat) : Prop := {
  rbt_dst : rb_dst st = dirs stack ++ cur;
  rbt_slash : rb_last_slash st = (length (dirs stack) - 1)%nat;
  rbt_stack : Forall (fun seg => 47 ∉ seg) stack;
  rbt_cur : 47 ∉ cur;
  rbt_len : length (rb_norm st) = length (rb_dst st);
  rbt_sorted : StronglySorted lt (rb_norm st);
  rbt_bound : Forall (fun i => i <= src_off)%nat (rb_norm st) }.

(** The segments read so far, and the next octet. *)
Definition feed (x : list bytes * bytes) (c : Z) : list bytes * bytes :=
  if c =? 47 then (push_segment x.1 x.2, []) else (x.1, x.2 ++ [c]).

Lemma push_segment_free stack cur :
  Forall (fun seg => 47 ∉ seg) stack -> 47 ∉ cur -> Forall (fun seg => 47 ∉ seg) (push_segment stack cur).
Proof.
  intros Hs Hc. unfold push_segment. bcase; [done| |by constructor]. destruct Hs; [constructor|done].
Qed.

Lemma sorted_snoc (l : list nat) n m :
  StronglySorted lt l -> Forall (fun i => i <= n)%nat l -> (n < m)%nat -> StronglySorted lt (l ++ [m]).
Proof.
  intros Hs Hb Hn. induction Hs as [|x l Hs IH Hx]; [repeat constructor|].
  apply Forall_cons in Hb as [Hx' Hb]. simpl. constructor; [by apply IH|].
  apply Forall_app. split; [done|]. constructor; [lia|constructor].
Qed.

Lemma sorted_take (l : list nat) n : StronglySorted lt l -> StronglySorted lt (take n l).
Proof.
  intros Hs. revert n. induction Hs as [|x l Hs IH Hx]; intros [|n]; simpl; try constructor; auto using Forall_take.
Qed.

Lemma rebuilt_push st stack cur src_off c stack' cur' last n :
  rebuilt st stack cur src_off -> (src_off < n)%nat ->
  dirs stack ++ cur ++ [c] = dirs stack' ++ cur' -> last = (length (dirs stack') - 1)%nat ->
  Forall (fun seg => 47 ∉ seg) stack' -> 47 ∉ cur' ->
  rebuilt (Rebuild (rb_dst st ++ [c]) (rb_norm st ++ [n]) last (if c =? 0 then true else rb_null st)) stack' cur' n.
Proof.
  intros [Hd Hl Hs Hc Hlen Hso Hb] Hn He -> Hs' Hc'. constructor; simpl; try done.
  - by rewrite Hd, <- app_assoc.
  - by rewrite !length_app, Hlen.
  - by eapply sorted_snoc.
  - apply Forall_app. split; [|by repeat constructor]. eapply Forall_impl; [exact Hb|]. simpl. lia.
Qed.

Lemma rebuild_octet_spec st stack cur src_off c n :
  rebuilt st stack cur src_off -> (src_off < n)%nat ->
  exists st', rebuild_octet st c n = Some st' /\
    rebuilt st' (feed (stack, cur) c).1 (feed (stack, cur) c).2 n /\
    rb_null st' = rb_null st || (c =? 0).
Proof.
  intros Hr Hn. pose proof Hr as [Hd Hl Hs Hc Hlen Hso Hb]. unfold rebuild_octet, feed.
  destruct (Z.eqb_spec c 47) as [->|Hne]; cbn [fst snd].
  - destruct (handle_special_close stack cur Hs) as (k & Hk & Hz & Hle & Ht).
    rewrite Hl, Hd, Hk. cbn [mbind option_bind]. destruct (Nat.ltb_spec 0 k) as [Hpos|Hzero].
    + assert (dot_segment cur = true) as Hdot by (destruct (dot_segment cur); [done|lia]).
      unfold close_path in Ht. rewrite Hdot in Ht.
      assert (Hlt : length (dirs (push_segment stack cur)) = (length (dirs stack ++ cur) - k)%nat)
        by (rewrite <- Ht, length_take; lia).
      eexists. split; [done|]. split; [|simpl; by rewrite orb_false_r]. unfold rewind_to. constructor; cbn [rb_dst rb_norm rb_last_slash].
      * by rewrite Hd, Ht, app_nil_r.
      * lia.
      * by apply push_segment_free.
      * apply not_elem_of_nil.
      * by rewrite !length_take, Hlen.
      * by apply sorted_take.
      * apply Forall_take. eapply Forall_impl; [exact Hb|]. simpl. lia.
    + assert (dot_segment cur = false) as Hdot by (apply Hz; lia).
      unfold dot_segment in Hdot. apply orb_false_iff in Hdot as [H1 H2].
      assert (Hp : push_segment stack cur = cur :: stack) by (unfold push_segment; by rewrite H1, H2).
      eexists. split; [done|]. split; [|simpl; by rewrite orb_false_r]. rewrite Hp, <- Hd.
      eapply rebuilt_push; [exact Hr|done| | |by constructor|apply not_elem_of_nil].
      * by rewrite dirs_cons, app_nil_r.
      * rewrite dirs_cons, Hd, !length_app. simpl. lia.
  - eexists. split; [done|]. split; [|simpl; destruct (c =? 0); by rewrite ?orb_true_r, ?orb_false_r].
    eapply rebuilt_push; [exact Hr|done|done|done|done|].
    rewrite elem_of_app, list_elem_of_singleton. intros [?|?]; congruence.
Qed.

Lemma rebuild_loop_spec n : forall src src_off st stack cur,
  (length src <= n)%nat -> rebuilt st stack cur src_off ->
  exists st', rebuild_loop src src_off st = Some st' /\
    rebuilt st' (fold_left feed (pct_decode src) (stack, cur)).1
                (fold_left feed (pct_decode src) (stack, cur)).2 (src_off + length src) /\
    rb_null st' = rb_null st || existsb (Z.eqb 0) (pct_decode src).
Proof.
  induction n as [|n IH]; intros src src_off st stack cur Hn Hr.
  all: destruct src as [|c src]; [exists st; simpl in *; rewrite Nat.add_0_r, orb_false_r; done|simpl in Hn; try lia].
  assert (Hstep : forall c k s m, (0 < k)%nat -> (length s <= n)%nat -> m = (src_off + k + length s)%nat ->
    exists st', (rebuild_octet st c (src_off + k) ≫= rebuild_loop s (src_off + k)) = Some st' /\
      rebuilt st' (fold_left feed (c :: pct_decode s) (stack, cur)).1
                  (fold_left feed (c :: pct_decode s) (stack, cur)).2 m /\
      rb_null st' = rb_null st || existsb (Z.eqb 0) (c :: pct_decode s)).
  { clear c src Hn. intros c k s m Hk Hs ->. destruct (rebuild_octet_spec st stack cur src_off c (src_off + k)) as (st1 & -> & H1 & N1); [done|lia|].
    destruct (IH s (src_off + k)%nat st1 _ _ Hs H1) as (st2 & H2 & R2 & N2).
    exists st2. split; [done|]. split; [cbn [fold_left]; by destruct (feed (stack, cur) c)|].
    rewrite N2, N1. cbn [existsb]. by rewrite (Z.eqb_sym 0 c), orb_assoc. }
  cbn [rebuild_loop pct_decode length]. destruct src as [|h [|l src]].
  1,2: apply Hstep; simpl in *; lia.
  destruct ((c =? 37) && _ && _); apply Hstep; simpl in *; lia.
Qed.

(** ** Segments *)

Lemma fold_feed_segments s : forall stack cur,
  fold_left feed s (stack, cur) =
  let '(closed, rest) := segments s in
  match closed with
  | [] => (stack, cur ++ rest)
  | seg :: closed => (fold_left push_segment closed (push_segment stack (cur ++ seg)), rest)
  end.
Proof.
  induction s as [|c s IH]; intros stack cur; [cbn [fold_left segments]; by rewrite app_nil_r|].
  cbn [fold_left segments]. change (feed (stack, cur) c) with (if c =? 47 then (push_segment stack cur, []) else (stack, cur ++ [c])). cbn [fst snd].
  destruct (Z.eqb_spec c 47) as [->|]; rewrite IH; destruct (segments s) as [[|seg closed] rest];
    by rewrite ?app_nil_r, <- ?app_assoc.
Qed.

Lemma remove_dot_segments_feed s :
  remove_dot_segments s = close_path (fold_left feed s ([], [])).1 (fold_left feed s ([], [])).2.
Proof.
  unfold remove_dot_segments. rewrite fold_feed_segments. by destruct (segments s) as [[|seg closed] rest].
Qed.

Lemma segments_app_slash s t :
  segments (s ++ 47 :: t) = ((segments s).1 ++ (segments s).2 :: (segments t).1, (segments t).2).
Proof.
  induction s as [|c s IH]; [by cbn; destruct (segments t)|].
  cbn [app segments]. rewrite IH. destruct (segments s) as [[|seg closed] rest], (c =? 47); done.
Qed.

Lemma segments_free s : 47 ∉ s -> segments s = ([], s).
Proof.
  induction s as [|c s IH]; [done|]. rewrite not_elem_of_cons. intros [Hc Hs].
  cbn [segments]. rewrite IH by done. by destruct (Z.eqb_spec c 47).
Qed.

Lemma segments_dirs stack rest :
  Forall (fun seg => 47 ∉ seg) stack -> 47 ∉ rest ->
  segments (dirs stack ++ rest) = ([] :: rev stack, rest).
Proof.
  intros Hs. revert rest. induction Hs as [|seg stack Hseg Hs IH]; intros rest Hr.
  - cbn. by rewrite segments_free.
  - rewrite dirs_cons, <- !app_assoc. cbn [app]. rewrite app_assoc, segments_app_slash, IH by done.
    cbn [fst snd rev]. by rewrite segments_free.
Qed.

(** A segment of a path without dot segments. *)
Definition proper_segment (seg : bytes) : Prop := (47 ∉ seg) /\ dot_segment seg = false.

(** A path without dot segments. *)
Definition clean (path : bytes) : Prop :=
  exists stack rest, path = dirs stack ++ rest /\
    Forall proper_segment stack /\ proper_segment rest.

Lemma dirs_clean stack : Forall proper_segment stack -> clean (dirs stack).
Proof. intros H. exists stack, []. rewrite app_nil_r. split_and!; [done|done|]. split; [apply not_elem_of_nil|done]. Qed.

Lemma push_segment_clean stack cur :
  Forall proper_segment stack -> 47 ∉ cur ->
  Forall proper_segment (push_segment stack cur).
Proof.
  intros Hs Hc. unfold push_segment. destruct (bool_decide (cur = lit ".")) eqn:E1; [done|].
  destruct (bool_decide (cur = lit "..")) eqn:E2; [by destruct Hs|].
  constructor; [|done]. split; [done|]. unfold dot_segment. by rewrite E1, E2.
Qed.

Lemma feed_clean s : forall stack cur,
  Forall proper_segment stack -> 47 ∉ cur ->
  Forall proper_segment (fold_left feed s (stack, cur)).1 /\
  47 ∉ (fold_left feed s (stack, cur)).2.
Proof.
  induction s as [|c s IH]; intros stack cur Hs Hc; [done|].
  cbn [fold_left]. unfold feed at 2 4. cbn [fst snd]. destruct (Z.eqb_spec c 47); apply IH; try done.
  - by apply push_segment_clean.
  - apply not_elem_of_nil.
  - rewrite elem_of_app, list_elem_of_singleton. intros [?|?]; congruence.
Qed.

Lemma close_path_clean stack cur :
  Forall proper_segment stack -> 47 ∉ cur -> clean (close_path stack cur).
Proof.
  intros Hs Hc. unfold close_path. destruct (dot_segment cur) eqn:E.
  - by apply dirs_clean, push_segment_clean.
  - by exists stack, cur.
Qed.

Lemma remove_dot_segments_clean s : clean (remove_dot_segments s).
Proof.
  rewrite remove_dot_segments_feed.
  destruct (feed_clean s [] []) as [H1 H2]; [constructor|apply not_elem_of_nil|]. by apply close_path_clean.
Qed.

(** The segments of a path that starts with a slash, which is its first segment, empty. *)
Lemma clean_segments path : clean path ->
  Forall (fun seg => dot_segment seg = false) ((segments path).1 ++ [(segments path).2]).
Proof.
  intros (stack & rest & -> & Hs & Hr & Hd).
  rewrite segments_dirs; [|by eapply Forall_impl; [exact Hs|intros ? []]|done]. cbn [fst snd].
  apply Forall_app. split; [|by repeat constructor]. constructor; [done|].
  apply Forall_rev. eapply Forall_impl; [exact Hs|]. by intros ? [].
Qed.

Lemma clean_no_parent path a b : clean path -> path = a ++ lit "/../" ++ b -> False.
Proof.
  intros Hc ->. apply clean_segments in Hc. change (lit "/../" ++ b) with (47 :: (lit ".." ++ 47 :: b)) in Hc.
  rewrite !segments_app_slash in Hc. cbn [fst snd] in Hc. rewrite <- app_assoc in Hc.
  apply Forall_app in Hc as [_ Hc]. apply Forall_cons in Hc as [_ Hc].
  apply Forall_app in Hc as [Hc _]. by apply Forall_cons in Hc as [Hc _].
Qed.

Lemma clean_no_parent_end path a : clean path -> path = a ++ lit "/.." -> False.
Proof.
  intros Hc ->. apply clean_segments in Hc. change (lit "/..") with (47 :: lit "..") in Hc.
  rewrite segments_app_slash in Hc. apply Forall_app in Hc as [_ Hc]. by apply Forall_cons in Hc as [Hc _].
Qed.

(** ** Rewriting *)

Lemma before_query_cons c s : before_query (c :: s) = if c =? 63 then [] else c :: before_query s.
Proof. unfold before_query. cbn [memchr]. destruct (c =? 63); [done|]. by destruct (memchr s 63). Qed.

Lemma before_query_length s : (length (before_query s) <= length s)%nat.
Proof. unfold before_query. destruct (memchr s 63); [rewrite length_take; lia|lia]. Qed.

(** The offset of the path within the target. *)
Lemma path_of_drop target :
  path_of target = drop (if nth 0 target 0 =? 47 then 1%nat else 0%nat) (before_query target) /\
  ((if (nth 0 target 0 =? 47)%Z then 1 else 0) + length (path_of target) <= length target)%nat.
Proof.
  unfold path_of. destruct target as [|c s]; [done|]. pose proof (before_query_length s).
  rewrite before_query_cons. cbn [nth].
  destruct (Z.eqb_spec c 63) as [->|]; [split; [done|simpl; lia]|]. destruct (c =? 47); simpl; split; try done; lia.
Qed.

Lemma rebuild_path_spec target :
  exists norm,
    rebuild_path target = Some (Normalized (normalize_spec target) (memchr target 63) (Some norm)
                                  (existsb (Z.eqb 0) (pct_decode (path_of target)))) /\
    length norm = length (normalize_spec target) /\ StronglySorted lt norm /\
    Forall (fun i => i <= length target)%nat norm.
Proof.
  destruct (path_of_drop target) as [Hp Hl]. unfold rebuild_path.
  fold (before_query target). set (off := if nth 0 target 0 =? 47 then 1%nat else 0%nat) in *.
  rewrite <- Hp.
  destruct (rebuild_loop_spec _ (path_of target) off (Rebuild [47] [off] 0 false) [] [] (le_n _)) as (st & -> & Hr & Hn).
  { constructor; simpl; try done; repeat constructor; apply not_elem_of_nil. }
  cbn [mbind option_bind]. unfold normalize_spec. rewrite remove_dot_segments_feed.
  destruct (fold_left feed (pct_decode (path_of target)) ([], [])) as [stack cur]. cbn [fst snd] in *.
  destruct Hr as [Hd Hls Hs Hc Hlen Hso Hb]. rewrite Hd, Hls, Hn. cbn [rb_null orb].
  destruct (handle_special_close stack cur Hs) as (k & -> & _ & Hle & <-). cbn [mbind option_bind].
  eexists. split; [done|]. split_and!.
  - by rewrite !length_take, Hlen, Hd.
  - by apply sorted_take.
  - apply Forall_take. eapply Forall_impl; [exact Hb|]. simpl. lia.
Qed.

(** The checks on what was rebuilt never fail. *)
Lemma normalize_rewrite_spec target :
  normalize_rewrite target = rebuild_path target.
Proof.
  destruct (rebuild_path_spec target) as (norm & Hr & _). unfold normalize_rewrite. rewrite Hr.
  cbn [mbind option_bind np_path].
  assert (Hc : clean (normalize_spec target)) by apply remove_dot_segments_clean.
  assert (Hhd : exists s, normalize_spec target = 47 :: s).
  { destruct Hc as (stack & rest & -> & _). by eexists. }
  destruct Hhd as [s Hs]. set (p := normalize_spec target) in *.
  replace (length p =? 0)%nat with false by (by rewrite Hs).
  replace (nth 0 p 0 =? 47) with true by (by rewrite Hs). cbn [negb orb].
  destruct (strstr_spec p (lit "/../")) as [(k & _ & [b Hk] & _)|[-> _]].
  { exfalso. eapply clean_no_parent; [exact Hc|]. rewrite <- Hk. symmetry. apply take_drop. }
  rewrite Z.eqb_refl. cbn [negb orb]. rewrite bool_decide_eq_false_2; [by rewrite andb_false_r|].
  intros He. eapply clean_no_parent_end; [exact Hc|]. rewrite <- He. symmetry. apply take_drop.
Qed.

(** ** Paths returned as they are *)

Definition all_segments (s : bytes) : list bytes := (segments s).1 ++ [(segments s).2].

Lemma all_segments_cons c s :
  all_segments (c :: s) =
  if c =? 47 then [] :: all_segments s
  else match all_segments s with [] => [] | seg :: l => (c :: seg) :: l end.
Proof.
  unfold all_segments. cbn [segments]. destruct (segments s) as [[|seg closed] rest], (c =? 47); done.
Qed.

Lemma dirs_segments s : dirs (rev (segments s).1) ++ (segments s).2 = 47 :: s.
Proof.
  unfold dirs. rewrite rev_involutive. cbn [app]. f_equal.
  induction s as [|c s IH]; [done|]. cbn [segments]. destruct (segments s) as [closed rest]. cbn [fst snd] in *.
  destruct (Z.eqb_spec c 47) as [->|]; [cbn; by rewrite IH|].
  destruct closed as [|seg closed]; cbn in *; by rewrite IH.
Qed.

Lemma fold_push_proper l stack :
  Forall (fun seg => dot_segment seg = false) l -> fold_left push_segment l stack = rev l ++ stack.
Proof.
  intros Hl. revert stack. induction Hl as [|seg l Hseg Hl IH]; intros stack; [done|].
  cbn [fold_left rev]. apply orb_false_iff in Hseg as [H1 H2].
  unfold push_segment at 2. rewrite H1, H2, IH, <- app_assoc. done.
Qed.

Lemma remove_dot_segments_id s :
  Forall (fun seg => dot_segment seg = false) (all_segments s) -> remove_dot_segments s = 47 :: s.
Proof.
  intros H. rewrite <- dirs_segments. unfold remove_dot_segments, all_segments, close_path in *.
  destruct (segments s) as [closed rest]. cbn [fst snd] in *. apply Forall_app in H as [Hc Hr].
  apply Forall_cons in Hr as [-> _]. by rewrite fold_push_proper, app_nil_r.
Qed.

Lemma normalize_scan_cons c s p q n :
  normalize_scan (c :: s) p = ScanReturn q n ->
  c <> 0 /\ (s <> [] -> c <> 37 /\ (c = 47 -> hd 0 s <> 46)) /\
  if c =? 63 then q = Some p /\ n = p else normalize_scan s (S p) = ScanReturn q n.
Proof.
  cbn [normalize_scan]. intros H. destruct s as [|d s]; bcase_in H; try discriminate.
  all: try (injection H as <- <-). all: split_and!; try done; try lia.
  all: intros _; cbn [hd]; lia.
Qed.

Lemma pct_decode_plain c s : (s <> [] -> c <> 37) -> pct_decode (c :: s) = c :: pct_decode s.
Proof.
  intros H. cbn [pct_decode]. destruct s as [|h [|l s]]; [done|done|].
  destruct (Z.eqb_spec c 37); [by destruct H|done].
Qed.

Lemma hd_segments s : s <> [] -> hd 0 s <> 47 -> hd 0 (hd [] (all_segments s)) = hd 0 s.
Proof.
  destruct s as [|c s]; [done|]. intros _ H. rewrite all_segments_cons. cbn [hd] in *.
  destruct (Z.eqb_spec c 47); [done|]. unfold all_segments. by destruct (segments s) as [[|seg closed] rest].
Qed.

Lemma normalize_scan_spec s : forall p q n,
  normalize_scan s p = ScanReturn q n ->
  q = Nat.add p <$> memchr s 63 /\ n = (p + length (before_query s))%nat /\
  pct_decode (before_query s) = before_query s /\ existsb (Z.eqb 0) (before_query s) = false /\
  Forall (fun seg => hd 0 seg <> 46) (tail (all_segments (before_query s))).
Proof.
  induction s as [|c s IH]; intros p q n H.
  { cbn in H. injection H as <- <-. cbn. split_and!; try done; try lia. }
  apply normalize_scan_cons in H as (H0 & Hne & H). rewrite before_query_cons. cbn [memchr].
  destruct (Z.eqb_spec c 63) as [->|Hq].
  { destruct H as [-> ->]. cbn. split_and!; [by rewrite Nat.add_0_r|lia|done|done|constructor]. }
  destruct (IH _ _ _ H) as (-> & -> & Hd & Hz & Hs).
  assert (Hb : before_query s <> [] -> s <> []) by (intros ? ->; done).
  split_and!.
  - destruct (memchr s 63); [cbn; f_equal; lia|done].
  - cbn [length]. lia.
  - rewrite pct_decode_plain, Hd; [done|]. intros Hn. by apply Hne, Hb.
  - cbn [existsb]. rewrite Hz. by destruct (Z.eqb_spec 0 c).
  - rewrite all_segments_cons. destruct (Z.eqb_spec c 47) as [->|].
    + cbn [tail]. assert (Hl : hd 0 (hd [] (all_segments (before_query s))) <> 46).
      { destruct (before_query s) as [|d t] eqn:E; [done|].
        destruct s as [|x s]; [done|]. rewrite before_query_cons in E. destruct (x =? 63); [done|].
        injection E as <- <-. destruct Hne as [_ Hne]; [done|]. specialize (Hne eq_refl). cbn [hd] in Hne.
        destruct (Z.eq_dec x 47) as [->|Hx47]; [by rewrite all_segments_cons|]. by rewrite hd_segments. }
      destruct (all_segments (before_query s)) as [|seg l]; [constructor|by constructor].
    + destruct (all_segments (before_query s)); [constructor|done].
Qed.

Lemma not_dot_start seg : hd 0 seg <> 46 -> dot_segment seg = false.
Proof.
  intros H. unfold dot_segment. rewrite !bool_decide_eq_false_2; [done|intros ->..]; by apply H.
Qed.

Lemma normalize_scan_clean s q n :
  normalize_scan (47 :: s) 0 = ScanReturn q n ->
  take n (47 :: s) = normalize_spec (47 :: s) /\ q = memchr (47 :: s) 63 /\
  existsb (Z.eqb 0) (pct_decode (path_of (47 :: s))) = false.
Proof.
  intros H. pose proof (normalize_scan_spec _ _ _ _ H) as (Hq & -> & Hd & Hz & Hs).
  assert (Ht : take (0 + length (before_query (47 :: s))) (47 :: s) = before_query (47 :: s)).
  { unfold before_query. destruct (memchr (47 :: s) 63) as [k|]; [|apply firstn_all].
    rewrite Nat.add_0_l, length_take.
    destruct (Nat.le_ge_cases k (length (47 :: s))); [by rewrite Nat.min_l|by rewrite Nat.min_r, !take_ge]. }
  rewrite Ht. unfold normalize_spec, path_of. rewrite before_query_cons in *. cbn [Z.eqb Pos.eqb] in *.
  rewrite pct_decode_plain in Hd by done. injection Hd as Hd. rewrite Hd. split_and!.
  - rewrite remove_dot_segments_id; [done|]. rewrite all_segments_cons in Hs. cbn in Hs.
    eapply Forall_impl; [exact Hs|]. intros seg. apply not_dot_start.
  - rewrite Hq. by destruct (memchr (47 :: s) 63).
  - done.
Qed.

(** What a caller is told of a target. *)
Definition normalizes (target : bytes) (r : normalized) : Prop :=
  np_path r = normalize_spec target /\
  clean (np_path r) /\
  np_query_at r = memchr target 63 /\
  np_null_char_found r = existsb (Z.eqb 0) (pct_decode (path_of target)) /\
  (forall norm, np_norm_indexes r = Some norm ->
     length norm = length (np_path r) /\ StronglySorted lt norm /\
     Forall (fun i => i <= length target)%nat norm).

Lemma rebuild_normalizes target : exists r, rebuild_path target = Some r /\ normalizes target r.
Proof.
  destruct (rebuild_path_spec target) as (norm & -> & Hl & Hs & Hb). eexists. split; [done|].
  split_and!; [done|apply remove_dot_segments_clean|done|done|]. intros n' [= <-]. done.
Qed.

Lemma normalize_ok target : exists r, h2o_url_normalize_path target = Some r /\ normalizes target r.
Proof.
  unfold h2o_url_normalize_path. destruct target as [|c s].
  { eexists. split; [done|]. split_and!; [done|apply (dirs_clean []); constructor|done|done|done]. }
  pose proof (rebuild_normalizes (c :: s)) as Hr. rewrite normalize_rewrite_spec.
  destruct (Z.eqb_spec c 47) as [->|]; [|done]. cbn [negb].
  destruct (normalize_scan (47 :: s) 0) as [|q n] eqn:E; [done|].
  destruct (normalize_scan_clean s q n E) as (Ht & -> & Hz).
  eexists. split; [done|]. unfold normalizes. cbn [np_path np_query_at np_null_char_found np_norm_indexes].
  rewrite Ht, Hz. split_and!; [done|apply remove_dot_segments_clean|done|done|done].
Qed.

(** ** Properties *)


(** The flag is about the decoded path and not, as its documentation says, about the path that
    is returned: a NUL in a segment that ".." removes is reported too. *)
Example null_char_removed :
  h2o_url_normalize_path (lit "/%00/../a") = Some (Normalized (lit "/a") None (Some [1; 9]%nat) true).
Proof. vm_compute. reflexivity. Qed.
