(* ===== verification/UrlParse.v ===== *)
(** * Parsing, resolving and building URLs (lib/common/url.c, include/h2o/url.h)

    A substring the C code keeps by pointer is its octets, and NULL is [None]; a function that
    returns -1 or NULL leaves fields of its result half written, which no caller reads, and is
    [None] here.  In [h2o_url_resolve] and [h2o_url_resolve_path], [None] is a failed assertion
    or a read outside of the string. *)
From S2P Require Import Prelude Strings Url UrlPath.
From Stdlib Require Import ZArith Lia.
From stdpp Require Import base list numbers option strings.
Open Scope Z_scope.

Record h2o_url_t := Url {
  u_scheme : option h2o_url_scheme_t;
  u_authority : option bytes;
  u_host : option bytes;
  u_path : option bytes;
  u_port : Z }.

(** ** Parsing *)

(** [end - s >= n && memcmp(s, prefix, n) == 0] *)
Definition starts_with (s prefix : bytes) : bool :=
  (len prefix <=? len s) && bool_decide (take (length prefix) s = prefix).

Definition parse_scheme (s : bytes) : option (h2o_url_scheme_t * bytes) :=
  if starts_with s (lit "http:") then Some (H2O_URL_SCHEME_HTTP, drop 5 s)
  else if starts_with s (lit "https:") then Some (H2O_URL_SCHEME_HTTPS, drop 6 s)
  else if starts_with s (lit "masque:") then Some (H2O_URL_SCHEME_MASQUE, drop 7 s)
  else None.

(** The host name up to a slash, a question mark or a colon, and the rest. *)
Fixpoint host_token (s : bytes) : bytes * bytes :=
  match s with
  | [] => ([], [])
  | c :: s' =>
      if (c =? 47) || (c =? 63) || (c =? 58) then ([], s)
      else let '(host, rest) := host_token s' in (c :: host, rest)
  end.

(** The loop over the port; other characters are skipped. *)
Fixpoint port_loop (s : bytes) (p : Z) : option (Z * bytes) :=
  match s with
  | [] => Some (p, [])
  | c :: s' =>
      if (48 <=? c) && (c <=? 57) then
        let p := wrap32 (p * 10 + c - 48) in
        if 65535 <=? p then None else port_loop s' p
      else if (c =? 47) || (c =? 63) then Some (p, s)
      else port_loop s' p
  end.

(** Host, port, and the octets from the position returned. *)
Definition h2o_url_parse_hostport (s : bytes) : option (bytes * Z * bytes) :=
  match s with
  | [] => None
  | c :: s' =>
      '(host, rest) ←
        (if c =? 91 then
           n ← memchr s' 93; Some (take n s', drop (S n) s')
         else Some (host_token s));
      if len host =? 0 then None
      else match rest with
           | d :: rest' =>
               if d =? 58 then
                 '(p, rest) ← port_loop rest' 0; Some (host, wrap16 p, rest)
               else Some (host, 65535, rest)
           | [] => Some (host, 65535, rest)
           end
  end.

Definition parse_authority_and_path (scheme : option h2o_url_scheme_t) (src : bytes) : option h2o_url_t :=
  '(host, port, p) ← h2o_url_parse_hostport src;
  let authority := take (length src - length p) src in
  match p with
  | [] => Some (Url scheme (Some authority) (Some host) (Some (lit "/")) port)
  | c :: _ =>
      if c =? 47 then Some (Url scheme (Some authority) (Some host) (Some p) port)
      else if c =? 63 then Some (Url scheme (Some authority) (Some host) (Some (lit "/" ++ p)) port)
      else None
  end.

Definition h2o_url_parse (url : bytes) : option h2o_url_t :=
  '(scheme, p) ← parse_scheme url;
  if negb (starts_with p (lit "//")) then None
  else parse_authority_and_path (Some scheme) (drop 2 p).

Definition h2o_url_parse_relative (url : bytes) : option h2o_url_t :=
  let '(scheme, p) :=
    match parse_scheme url with
    | Some (scheme, p) => (Some scheme, p)
    | None => (None, url)
    end in
  if starts_with p (lit "//") then parse_authority_and_path scheme (drop 2 p)
  else Some (Url scheme None None (Some p) 65535).

(** ** Resolution *)

(** [while (base[--n] != '/')]; [None]: a read below the string. *)
Fixpoint prev_slash (base : bytes) (n : nat) : option nat :=
  match n with
  | O => None
  | S n => if nth n base 0 =? 47 then Some n else prev_slash base n
  end.

(** The loop over the dot segments in front of the relative path. *)
Fixpoint resolve_loop (base relative : bytes) (base_path_len : nat) : option (nat * bytes) :=
  let up := if (base_path_len =? 0)%nat then Some base_path_len else prev_slash base base_path_len in
  match relative with
  | c :: r1 =>
      if c =? 46 then
        match r1 with
        | [] => Some (base_path_len, [])
        | d :: r2 =>
            let no_parent := if d =? 47 then resolve_loop base r2 base_path_len
                             else Some (base_path_len, relative) in
            if d =? 46 then
              match r2 with
              | [] => n ← up; Some (n, [])
              | e :: r3 => if e =? 47 then n ← up; resolve_loop base r3 n else no_parent
              end
            else no_parent
        end
      else Some (base_path_len, relative)
  | [] => Some (base_path_len, [])
  end.

Definition h2o_url_resolve_path (base relative : bytes) : option (bytes * bytes) :=
  if negb (len relative =? 0) && (nth 0 relative 0 =? 47) then Some ([], relative)
  else
    n ← prev_slash base (length base);
    '(n, relative) ← resolve_loop base relative n;
    Some (take (n + 1) base, relative).

(** [h2o_concat] of the five parts, and [dest]: its authority, host and path are pointers into
    the string that was built, the host with the length it had. *)
Definition url_build (scheme : option h2o_url_scheme_t) (authority host : option bytes) (port : Z)
    (base_path relative_path : bytes) : option (bytes * h2o_url_t) :=
  scheme ← scheme;
  let authority := default [] authority in
  let ret := scheme_name scheme ++ lit "://" ++ authority ++ base_path ++ relative_path in
  let tail := drop (length (scheme_name scheme) + 3) ret in
  let host_at := if negb (len authority =? 0) && (nth 0 tail 0 =? 91) then drop 1 tail else tail in
  Some (ret, Url (Some scheme) (Some (take (length authority) tail))
               (Some (take (length (default [] host)) host_at))
               (Some (drop (length authority) tail)) port).

Definition h2o_url_resolve (base : h2o_url_t) (relative : option h2o_url_t) : option (bytes * h2o_url_t) :=
  let path := default [] (u_path base) in
  if negb (nth 0 path 0 =? 47) then None
  else match relative with
  | None => url_build (u_scheme base) (u_authority base) (u_host base) (u_port base) path []
  | Some rel =>
      let scheme := match u_scheme rel with Some s => Some s | None => u_scheme base end in
      '(authority, host, port) ←
        (match u_authority rel, u_host rel with
         | Some a, Some h => Some (Some a, Some h, u_port rel)
         | Some _, None => None
         | None, Some _ => None
         | None, None =>
             if u_port rel =? 65535 then Some (u_authority base, u_host base, u_port base) else None
         end);
      '(base_path, relative_path) ←
        (match u_path rel with
         | Some r => h2o_url_resolve_path path r
         | None => Some (path, [])
         end);
      url_build scheme authority host port base_path relative_path
  end.

Definition h2o_url_stringify (url : h2o_url_t) : option bytes := fst <$> h2o_url_resolve url None.

(** ** Building *)

Definition h2o_url_init (scheme : h2o_url_scheme_t) (authority path : bytes) : option h2o_url_t :=
  '(host, port, rest) ← h2o_url_parse_hostport authority;
  match rest with
  | [] => Some (Url (Some scheme) (Some authority) (Some host) (Some path) port)
  | _ => None
  end.

Definition h2o_url_get_port (url : h2o_url_t) : option Z :=
  if negb (u_port url =? 65535) then Some (u_port url) else default_port <$> u_scheme url.

(** The copies are allocated even when the original is NULL. *)
Definition h2o_url_copy (src : h2o_url_t) : h2o_url_t :=
  Url (u_scheme src) (Some (default [] (u_authority src))) (Some (default [] (u_host src)))
    (Some (default [] (u_path src))) (u_port src).

Definition h2o_url_init_with_hostport (scheme : h2o_url_scheme_t) (host : bytes) (port : Z) (path : bytes)
    : h2o_url_t :=
  if port =? default_port scheme then Url (Some scheme) (Some host) (Some host) (Some path) 65535
  else
    let authority := host ++ lit ":" ++ decimal 5 port in
    Url (Some scheme) (Some authority) (Some (take (length authority - 1 - length (decimal 5 port)) authority))
      (Some path) port.

Definition h2o_url_init_with_sun_path (scheme : h2o_url_scheme_t) (sun_path path : bytes) : h2o_url_t :=
  let authority := lit "[unix:" ++ sun_path ++ lit "]" in
  Url (Some scheme) (Some authority) (Some (take (length authority - 2) (drop 1 authority))) (Some path) 65535.

Inductive sun_result := SunNotUnix | SunTooLong | SunPath (written : bytes).

(** [sizeof(sa->sun_path)] on Linux *)
Definition sun_path_size : Z := 108.

(** The octets that [memcpy] writes to [sa->sun_path]; the length is a [size_t]. *)
Definition h2o_url_host_to_sun (host : bytes) : sun_result :=
  if (len host <? 5) || negb (bool_decide (take 5 host = lit "unix:")) then SunNotUnix
  else if sun_path_size <=? wrap64 (len host - 6 - 1) then SunTooLong
  else SunPath (drop 5 host).

Definition h2o_url_host_is_unix_path (host : bytes) : bool :=
  if len host <? 5 then false else bool_decide (take 5 host = lit "unix:").

Definition h2o_url_hosts_are_equal (host_a host_b : bytes) : bool :=
  if negb (len host_a =? len host_b) then false
  else if h2o_url_host_is_unix_path host_a then bool_decide (host_a = host_b)
  else h2o_lcstris host_a host_b.

(** ** Hosts and ports *)

(** What may follow an authority. *)
Definition ends (t : bytes) : Prop := match t with [] => True | c :: _ => c = 47 \/ c = 63 end.

Definition host_char (c : Z) : bool := negb ((c =? 47) || (c =? 63) || (c =? 58)).

Lemma memchr_some s c n : memchr s c = Some n -> s = take n s ++ c :: drop (S n) s /\ c ∉ take n s.
Proof.
  revert n. induction s as [|x s IH]; intros n; [done|]. cbn [memchr].
  destruct (Z.eqb_spec x c) as [->|Hne]; [intros [= <-]; split; [done|apply not_elem_of_nil]|].
  destruct (memchr s c) as [m|]; [|done]. intros [= <-]. destruct (IH m eq_refl) as [Hs Hn].
  split; [cbn; by f_equal|]. cbn [take]. rewrite not_elem_of_cons. done.
Qed.

Lemma memchr_app s c t : c ∉ s -> memchr (s ++ c :: t) c = Some (length s).
Proof.
  induction s as [|x s IH]; [cbn; by rewrite Z.eqb_refl|]. rewrite not_elem_of_cons. intros [Hx Hs].
  cbn [app memchr length]. destruct (Z.eqb_spec x c); [congruence|]. by rewrite IH.
Qed.

Lemma host_token_app h t :
  forallb host_char h = true -> (t = [] \/ host_char (hd 0 t) = false) -> host_token (h ++ t) = (h, t).
Proof.
  induction h as [|c h IH]; intros Hh Ht.
  - destruct t as [|c t]; [done|]. destruct Ht as [|Ht]; [done|]. cbn in *.
    unfold host_char in Ht. by apply negb_false_iff in Ht as ->.
  - cbn in *. apply andb_true_iff in Hh as [Hc Hh]. unfold host_char in Hc. apply negb_true_iff in Hc as ->.
    by rewrite IH.
Qed.

Lemma host_token_split s : forall h r, host_token s = (h, r) ->
  s = h ++ r /\ forallb host_char h = true /\ (r = [] \/ host_char (hd 0 r) = false).
Proof.
  induction s as [|c s IH]; intros h r; cbn; [intros [= <- <-]; auto|].
  destruct ((c =? 47) || (c =? 63) || (c =? 58)) eqn:E.
  - intros [= <- <-]. split_and!; [done|done|]. right. unfold host_char. cbn. by rewrite E.
  - destruct (host_token s) as [h' r'] eqn:E'. intros [= <- <-]. destruct (IH _ _ eq_refl) as (-> & Hh & Hr).
    split_and!; [done| |done]. cbn. unfold host_char at 1. by rewrite E, Hh.
Qed.

Lemma port_loop_app s : forall p q r, 0 <= p < 65535 -> port_loop s p = Some (q, r) ->
  0 <= q < 65535 /\ exists a, s = a ++ r /\ ends r /\ forall t, ends t -> port_loop (a ++ t) p = Some (q, t).
Proof.
  induction s as [|c s IH]; intros p q r Hp H.
  { injection H as <- <-. split; [done|]. exists []. split_and!; [done|done|].
    intros [|c t] Ht; [done|]. cbn in *. by destruct Ht as [-> | ->]. }
  cbn [port_loop] in H.
  destruct ((48 <=? c) && (c <=? 57)) eqn:Ed.
  - destruct (Z.leb_spec 65535 (wrap32 (p * 10 + c - 48))) as [|Hlt]; [done|].
    assert (0 <= wrap32 (p * 10 + c - 48)) by (apply Z.mod_pos_bound; lia).
    destruct (IH _ _ _ (conj H0 Hlt) H) as (Hq & a & -> & Hr & Ha). split; [done|].
    exists (c :: a). split_and!; [done|done|]. intros t Ht. cbn [app port_loop]. rewrite Ed.
    destruct (Z.leb_spec 65535 (wrap32 (p * 10 + c - 48))); [lia|]. by apply Ha.
  - destruct ((c =? 47) || (c =? 63)) eqn:Ee.
    + injection H as <- <-. split; [done|]. exists []. split_and!; [done|cbn; lia|].
      intros [|x t] Ht; [done|]. cbn in *. by destruct Ht as [-> | ->].
    + destruct (IH _ _ _ Hp H) as (Hq & a & -> & Hr & Ha). split; [done|].
      exists (c :: a). split_and!; [done|done|]. intros t Ht. cbn [app port_loop]. rewrite Ed, Ee. by apply Ha.
Qed.

(** The host within its authority. *)
Definition host_in (authority host : bytes) : Prop :=
  if hd 0 authority =? 91 then host `prefix_of` drop 1 authority else host `prefix_of` authority.

(** The rest after the host, for any end of the authority. *)
Definition port_part (host rest : bytes) : option (bytes * Z * bytes) :=
  match rest with
  | d :: rest' => if d =? 58 then '(p, rest) ← port_loop rest' 0; Some (host, wrap16 p, rest) else Some (host, 65535, rest)
  | [] => Some (host, 65535, rest)
  end.

Lemma port_part_host h rest h' p r : port_part h rest = Some (h', p, r) -> h = h'.
Proof.
  destruct rest as [|d rest]; cbn; [congruence|]. destruct (d =? 58); [|congruence].
  destruct (port_loop rest 0) as [[]|]; cbn; congruence.
Qed.

Lemma port_part_app host rest p r :
  port_part host rest = Some (host, p, r) ->
  0 <= p <= 65535 /\ exists a, rest = a ++ r /\ (a = [] \/ hd 0 a = 58) /\
    forall t, ends t -> port_part host (a ++ t) = Some (host, p, t).
Proof.
  intros H. destruct rest as [|d rest]; cbn [port_part] in H.
  { injection H as <- <-. split; [lia|]. exists []. split_and!; [done|by left|].
    intros [|c t] Ht; [done|]. cbn in *. by destruct Ht as [-> | ->]. }
  destruct (Z.eqb_spec d 58) as [->|Hd].
  - destruct (port_loop rest 0) as [[q r']|] eqn:E; [|done]. injection H as <- <-.
    destruct (port_loop_app rest 0 q r' ltac:(lia) E) as (Hq & a & -> & Hr & Ha).
    assert (Hw : wrap16 q = q) by (apply Z.mod_small; lia). rewrite Hw. split; [lia|].
    exists (58 :: a). split_and!; [done|by right|]. intros t Ht. cbn. rewrite Ha by done. cbn. by rewrite Hw.
  - injection H as <- <-. split; [lia|]. exists []. split_and!; [done|by left|].
    intros [|c t] Ht; [done|]. cbn in *. by destruct Ht as [-> | ->].
Qed.

Lemma take_app_exact {A} (l t : list A) n : n = length l -> take n (l ++ t) = l.
Proof. intros ->. apply take_app_length. Qed.

Lemma drop_app_exact {A} (l t : list A) n : n = length l -> drop n (l ++ t) = t.
Proof. intros ->. apply drop_app_length. Qed.

Lemma hostport_name c s h a t :
  (c =? 91) = false -> c :: s = h ++ a -> h <> [] ->
  forallb host_char h = true -> (a ++ t = [] \/ host_char (hd 0 (a ++ t)) = false) ->
  h2o_url_parse_hostport ((c :: s) ++ t) = port_part h (a ++ t).
Proof.
  intros Hc Hs Hh Hok Hend. rewrite Hs, <- app_assoc. destruct h as [|x h]; [done|].
  injection Hs as -> _. cbn [app]. unfold h2o_url_parse_hostport. rewrite Hc.
  change (x :: h ++ a ++ t) with ((x :: h) ++ (a ++ t)). rewrite host_token_app by done.
  cbn [mbind option_bind]. rewrite len_cons. pose proof (len_nonneg h).
  destruct (Z.eqb_spec (len h + 1) 0); [lia|]. done.
Qed.

Lemma hostport_v6 h a t :
  h <> [] -> 93 ∉ h -> h2o_url_parse_hostport (91 :: h ++ 93 :: a ++ t) = port_part h (a ++ t).
Proof.
  intros Hh Hn. unfold h2o_url_parse_hostport. cbn [Z.eqb Pos.eqb]. rewrite memchr_app by done.
  cbn [mbind option_bind]. rewrite take_app_length.
  replace (drop (S (length h)) (h ++ 93 :: a ++ t)) with (a ++ t)
    by (change (h ++ 93 :: a ++ t) with (h ++ [93] ++ (a ++ t)); rewrite app_assoc; symmetry; apply drop_app_exact; rewrite length_app; simpl; lia).
  destruct h as [|x h]; [done|]. rewrite len_cons. pose proof (len_nonneg h).
  destruct (Z.eqb_spec (len h + 1) 0); [lia|]. done.
Qed.

Lemma hostport_app s h p r :
  h2o_url_parse_hostport s = Some (h, p, r) ->
  0 <= p <= 65535 /\ exists a, s = a ++ r /\ host_in a h /\
    forall t, ends t -> h2o_url_parse_hostport (a ++ t) = Some (h, p, t).
Proof.
  intros H. destruct s as [|c s]; [done|]. destruct (Z.eqb_spec c 91) as [->|Hc].
  - cbn [h2o_url_parse_hostport Z.eqb Pos.eqb] in H. destruct (memchr s 93) as [n|] eqn:En; [|done].
    cbn [mbind option_bind] in H. destruct (memchr_some _ _ _ En) as [Hs Hn].
    destruct (Z.eqb_spec (len (take n s)) 0) as [|Hne]; [done|].
    change (port_part (take n s) (drop (S n) s) = Some (h, p, r)) in H.
    assert (take n s = h) as <- by (by eapply port_part_host).
    destruct (port_part_app _ _ _ _ H) as (Hp & a & Ha & _ & Ht). split; [done|].
    exists (91 :: take n s ++ 93 :: a). split_and!.
    + cbn. f_equal. rewrite <- app_assoc. cbn. by rewrite <- Ha.
    + unfold host_in. cbn. by eexists.
    + intros t Hend. cbn [app]. rewrite <- app_assoc. cbn [app]. rewrite hostport_v6; [by apply Ht| |done].
      intros E. by rewrite E in Hne.
  - cbn [h2o_url_parse_hostport] in H. destruct (Z.eqb_spec c 91); [done|].
    destruct (host_token (c :: s)) as [h' rest] eqn:E. cbn [mbind option_bind] in H.
    destruct (Z.eqb_spec (len h') 0) as [|Hne]; [done|].
    change (port_part h' rest = Some (h, p, r)) in H.
    assert (h' = h) as -> by (by eapply port_part_host).
    destruct (host_token_split _ _ _ E) as (Hs & Hh & Hr).
    destruct (port_part_app _ _ _ _ H) as (Hp & a & -> & Ha & Ht). split; [done|].
    exists (h ++ a). split_and!; [by rewrite <- app_assoc| |].
    + unfold host_in. destruct h as [|x h]; [done|]. injection Hs as -> _. cbn.
      destruct (Z.eqb_spec x 91); [done|]. by eexists.
    + intros t Hend. destruct h as [|x h]; [done|]. injection Hs as -> _. cbn [app].
      rewrite <- (Ht t Hend). apply (hostport_name x (h ++ a) (x :: h) a t); [by destruct (Z.eqb_spec x 91)|done|done|done|].
      destruct Ha as [-> | Ha].
      * destruct t as [|y t]; [by left|right]. cbn in *. by destruct Hend as [-> | ->].
      * destruct a as [|y a]; [done|]. cbn in *. subst y. by right.
Qed.

(** ** A parsed URL, printed *)

Lemma starts_with_app p t : starts_with (p ++ t) p = true.
Proof.
  unfold starts_with. rewrite len_app, take_app_length, bool_decide_eq_true_2 by done.
  pose proof (len_nonneg t). destruct (Z.leb_spec (len p) (len p + len t)); [done|lia].
Qed.

Lemma starts_with_false s p : take (length p) s <> p -> starts_with s p = false.
Proof. intros H. unfold starts_with. by rewrite bool_decide_eq_false_2, andb_false_r. Qed.

Definition parsed_scheme (sc : h2o_url_scheme_t) : Prop := sc <> H2O_URL_SCHEME_FASTCGI.

Lemma parse_scheme_some s sc p : parse_scheme s = Some (sc, p) -> parsed_scheme sc.
Proof. unfold parse_scheme. intros H. bcase_in H; try done; by injection H as <- <-. Qed.

Lemma parse_scheme_name sc t :
  parsed_scheme sc -> parse_scheme (scheme_name sc ++ lit ":" ++ t) = Some (sc, t).
Proof.
  intros Hs. unfold parse_scheme. destruct sc; [| | |done].
  - change (scheme_name _ ++ lit ":" ++ t) with (lit "http:" ++ t). by rewrite starts_with_app.
  - change (scheme_name _ ++ lit ":" ++ t) with (lit "https:" ++ t).
    by rewrite starts_with_false, starts_with_app by (cbn; discriminate).
  - change (scheme_name _ ++ lit ":" ++ t) with (lit "masque:" ++ t).
    rewrite starts_with_false by (cbn; discriminate). rewrite starts_with_false by (cbn; discriminate).
    by rewrite starts_with_app.
Qed.

(** The parts of a URL that [parse_authority_and_path] accepts. *)
Record url_parts (sc : option h2o_url_scheme_t) (u : h2o_url_t) (a h path : bytes) (p : Z) : Prop := {
  up_url : u = Url sc (Some a) (Some h) (Some path) p;
  up_port : 0 <= p <= 65535;
  up_host : host_in a h;
  up_path : hd 0 path = 47;
  up_again : parse_authority_and_path sc (a ++ path) = Some u }.

Lemma authority_parts sc a h path p :
  hd 0 path = 47 -> h2o_url_parse_hostport (a ++ path) = Some (h, p, path) ->
  parse_authority_and_path sc (a ++ path) = Some (Url sc (Some a) (Some h) (Some path) p).
Proof.
  intros Hp H. unfold parse_authority_and_path. rewrite H. cbn [mbind option_bind].
  rewrite length_app, Nat.add_sub, take_app_length. destruct path as [|c path]; [done|]. cbn in Hp. by subst c.
Qed.

Lemma parse_authority_parts sc src u :
  parse_authority_and_path sc src = Some u -> exists a h path p, url_parts sc u a h path p.
Proof.
  intros H. unfold parse_authority_and_path in H.
  destruct (h2o_url_parse_hostport src) as [[[h p] r]|] eqn:E; [|done]. cbn [mbind option_bind] in H.
  destruct (hostport_app _ _ _ _ E) as (Hp & a & -> & Hh & Ht).
  rewrite length_app, Nat.add_sub, take_app_length in H.
  assert (exists path, hd 0 path = 47 /\ u = Url sc (Some a) (Some h) (Some path) p) as (path & Hpath & ->).
  { destruct r as [|c r]; [injection H as <-; eexists; by split; [|reflexivity]|].
    destruct (Z.eqb_spec c 47) as [->|]; [injection H as <-; eexists; by split; [|reflexivity]|].
    destruct (Z.eqb_spec c 63) as [->|]; [injection H as <-; eexists; by split; [|reflexivity]|done]. }
  exists a, h, path, p. constructor; try done. apply authority_parts; [done|]. apply Ht.
  destruct path; [done|]. cbn in *. by left.
Qed.

Lemma url_build_parts sc a h path p :
  hd 0 path = 47 -> host_in a h ->
  url_build (Some sc) (Some a) (Some h) p path [] =
  Some (scheme_name sc ++ lit "://" ++ a ++ path, Url (Some sc) (Some a) (Some h) (Some path) p).
Proof.
  intros Hp Hh. unfold url_build. cbn [mbind option_bind default from_option]. unfold id. rewrite app_nil_r.
  assert (Hd : drop (length (scheme_name sc) + 3) (scheme_name sc ++ lit "://" ++ a ++ path) = a ++ path).
  { rewrite app_assoc. apply drop_app_exact. by rewrite length_app. }
  rewrite Hd, take_app_length, drop_app_length. do 5 f_equal. unfold host_in in Hh.
  destruct a as [|c a].
  - cbn. destruct Hh as [x Hx]. by destruct h.
  - rewrite len_cons. pose proof (len_nonneg a). destruct (Z.eqb_spec (len a + 1) 0); [lia|].
    cbn [negb andb nth app hd] in *. destruct (c =? 91); destruct Hh as [x Hx].
    + cbn [drop] in *. rewrite drop_0 in *. by rewrite Hx, <- app_assoc, take_app_length.
    + change (c :: a ++ path) with ((c :: a) ++ path). by rewrite Hx, <- app_assoc, take_app_length.
Qed.

Lemma url_parts_print sc u a h path p :
  parsed_scheme sc -> url_parts (Some sc) u a h path p ->
  h2o_url_resolve u None = Some (scheme_name sc ++ lit "://" ++ a ++ path, u) /\
  h2o_url_parse (scheme_name sc ++ lit "://" ++ a ++ path) = Some u.
Proof.
  intros Hsc [-> Hp Hh Hpath Hagain]. split.
  - unfold h2o_url_resolve. cbn [u_path u_scheme u_authority u_host u_port default from_option]. unfold id.
    destruct path as [|c path]; [done|]. cbn in Hpath. subst c. cbn [nth Z.eqb Pos.eqb negb].
    by apply url_build_parts.
  - unfold h2o_url_parse. change (lit "://") with (lit ":" ++ lit "//"). rewrite <- app_assoc.
    rewrite parse_scheme_name by done. cbn [mbind option_bind]. rewrite starts_with_app. cbn [negb].
    by rewrite (drop_app_exact (lit "//")).
Qed.

(** ** Built URLs *)

Lemma dec_fold_grows s : forall p, 0 <= p -> forallb is_digit s = true ->
  p <= fold_left (fun v c => 10 * v + (c - 48)) s p.
Proof.
  induction s as [|c s IH]; intros p Hp Hs; [simpl; lia|].
  cbn [forallb] in Hs. apply andb_true_iff in Hs as [Hc Hs]. apply is_digit_spec in Hc. cbn [fold_left].
  specialize (IH (10 * p + (c - 48)) ltac:(lia) Hs). lia.
Qed.

Lemma port_loop_digits s : forall p, 0 <= p -> forallb is_digit s = true ->
  fold_left (fun v c => 10 * v + (c - 48)) s p < 65535 ->
  port_loop s p = Some (fold_left (fun v c => 10 * v + (c - 48)) s p, []).
Proof.
  induction s as [|c s IH]; intros p Hp Hs Hv; [done|].
  cbn [forallb] in Hs. apply andb_true_iff in Hs as [Hc Hs]. pose proof (proj1 (is_digit_spec c) Hc) as Hr.
  cbn [port_loop fold_left] in *. unfold is_digit in Hc. rewrite Hc.
  pose proof (dec_fold_grows s (10 * p + (c - 48)) ltac:(lia) Hs).
  replace (wrap32 (p * 10 + c - 48)) with (10 * p + (c - 48)) by (unfold wrap32; rewrite Z.mod_small; lia).
  destruct (Z.leb_spec 65535 (10 * p + (c - 48))); [lia|]. apply IH; [lia|done|done].
Qed.

(** A host name that needs no brackets. *)
Definition plain_host (host : bytes) : Prop :=
  host <> [] /\ forallb host_char host = true /\ hd 0 host <> 91.

Lemma hostport_plain host a :
  plain_host host -> (a = [] \/ host_char (hd 0 a) = false) ->
  h2o_url_parse_hostport (host ++ a) = port_part host a.
Proof.
  intros (Hne & Hh & H91) Ha. destruct host as [|c host]; [done|].
  pose proof (hostport_name c (host ++ a) (c :: host) a []) as H. rewrite !app_nil_r in H.
  apply H; [by destruct (Z.eqb_spec c 91)|done|done|done|done].
Qed.

Lemma host_in_plain host x : plain_host host -> host_in (host ++ x) host.
Proof.
  intros (Hne & _ & H91). unfold host_in. destruct host as [|c host]; [done|]. cbn in *.
  destruct (Z.eqb_spec c 91); [done|]. by eexists.
Qed.

Lemma port_part_decimal host port t :
  0 <= port < 65535 -> ends t -> port_part host (58 :: decimal 5 port ++ t) = Some (host, port, t).
Proof.
  intros Hp Ht. assert (Hv : dec_val (decimal 5 port) = port) by (apply decimal_value; simpl; lia).
  unfold dec_val in Hv.
  destruct (port_loop_app (decimal 5 port) 0 port []) as (_ & a & Ha & _ & Hgo); [lia| |].
  { rewrite port_loop_digits, Hv; [done|lia|apply decimal_digits|lia]. }
  rewrite app_nil_r in Ha. subst a. cbn [port_part Z.eqb Pos.eqb]. rewrite Hgo by done. cbn.
  unfold wrap16. rewrite Z.mod_small by lia. done.
Qed.

Lemma init_hostport_parts sc host port path :
  plain_host host -> 0 <= port < 65535 -> hd 0 path = 47 ->
  exists a p, url_parts (Some sc) (h2o_url_init_with_hostport sc host port path) a host path p.
Proof.
  intros Hh Hp Hpath. unfold h2o_url_init_with_hostport.
  assert (He : ends path) by (destruct path; [done|]; by left).
  assert (Hpp : path = [] \/ host_char (hd 0 path) = false) by (rewrite Hpath; by right).
  destruct (port =? default_port sc).
  - exists host, 65535.
    constructor; [done|lia|rewrite <- (app_nil_r host) at 1; by apply host_in_plain|done|].
    apply authority_parts; [done|]. rewrite hostport_plain by done. destruct path as [|c path]; [done|].
    cbn in Hpath. by subst c.
  - exists (host ++ lit ":" ++ decimal 5 port), port.
    replace (length (host ++ lit ":" ++ decimal 5 port) - 1 - length (decimal 5 port))%nat with (length host)
      by (rewrite !length_app; simpl; lia).
    rewrite take_app_length. constructor; [done|lia|by apply host_in_plain|done|].
    apply authority_parts; [done|]. rewrite <- !app_assoc, hostport_plain by (done || by right).
    by apply port_part_decimal.
Qed.

(** ** Relative paths *)

Lemma prev_slash_spec base n : prev_slash base n = pred <$> back_to_slash base n.
Proof.
  induction n as [|n IH]; [done|]. cbn [prev_slash back_to_slash]. by destruct (nth n base 0 =? 47).
Qed.

(** The index of the slash that ends the directories of a stack. *)
Definition slash_at (stack : list bytes) : nat := (length (dirs stack) - 1)%nat.

Lemma prev_slash_dirs stack seg tail :
  47 ∉ seg -> prev_slash (dirs stack ++ seg ++ tail) (length (dirs stack) + length seg) = Some (slash_at stack).
Proof.
  intros Hs. rewrite prev_slash_spec. unfold slash_at. destruct (dirs_last stack) as [d ->].
  rewrite <- app_assoc, length_app. cbn [length]. replace (length d + 1 + length seg)%nat with (S (length d) + length seg)%nat by lia.
  rewrite back_to_slash_spec by done. cbn. f_equal. lia.
Qed.

(** Going up one directory. *)
Lemma resolve_up stack base rest :
  base = dirs stack ++ rest -> Forall (fun seg => 47 ∉ seg) stack ->
  (if (slash_at stack =? 0)%nat then Some (slash_at stack) else prev_slash base (slash_at stack))
  = Some (slash_at (tail stack)).
Proof.
  intros -> Hs. destruct Hs as [|seg stack Hseg Hs]; [done|]. cbn [tail].
  pose proof (dirs_length stack). unfold slash_at at 1 2 3. rewrite dirs_cons, !length_app. cbn [length].
  destruct (Nat.eqb_spec (length (dirs stack) + (length seg + 1) - 1) 0); [lia|].
  replace (length (dirs stack) + (length seg + 1) - 1)%nat with (length (dirs stack) + length seg)%nat by lia.
  rewrite <- !app_assoc. by apply prev_slash_dirs.
Qed.

Definition closed_path (x : list bytes * bytes) : bytes := close_path x.1 x.2.

Lemma close_dot stack : close_path stack (lit ".") = close_path stack [].
Proof. unfold close_path. change (dot_segment (lit ".")) with true. change (dot_segment []) with false.
  cbn iota. by rewrite app_nil_r. Qed.

Lemma close_dotdot stack : close_path stack (lit "..") = close_path (tail stack) [].
Proof. unfold close_path. change (dot_segment (lit "..")) with true. change (dot_segment []) with false.
  cbn iota. by rewrite app_nil_r. Qed.

(** The loop consumes dot segments and goes up as they say: what is left denotes the same path. *)
Lemma resolve_loop_spec n : forall relative stack base rest,
  (length relative <= n)%nat -> base = dirs stack ++ rest -> Forall (fun seg => 47 ∉ seg) stack ->
  exists stack' rest' r', resolve_loop base relative (slash_at stack) = Some (slash_at stack', r') /\
    base = dirs stack' ++ rest' /\
    closed_path (fold_left feed relative (stack, [])) = closed_path (fold_left feed r' (stack', [])) /\
    (Forall proper_segment stack -> Forall proper_segment stack').
Proof.
  induction n as [|n IH]; intros relative stack base rest Hn Hb Hs.
  all: assert (Hdone : exists stack' rest' r', Some (slash_at stack, relative) = Some (slash_at stack', r') /\
    base = dirs stack' ++ rest' /\
    closed_path (fold_left feed relative (stack, [])) = closed_path (fold_left feed r' (stack', [])) /\
    (Forall proper_segment stack -> Forall proper_segment stack')) by (by exists stack, rest, relative).
  all: destruct relative as [|c r1]; [done|]. { simpl in Hn. lia. }
  cbn [resolve_loop]. rewrite (resolve_up stack base rest Hb Hs).
  destruct (Z.eqb_spec c 46) as [->|]; [|done].
  assert (Hup : exists rest', base = dirs (tail stack) ++ rest').
  { destruct (dirs_tail_prefix stack) as [d Hd]. exists (d ++ rest). by rewrite app_assoc, <- Hd. }
  destruct Hup as [rest' Hb'].
  assert (Hs' : Forall (fun seg => 47 ∉ seg) (tail stack)) by (destruct Hs; done).
  assert (Hpr : Forall proper_segment stack -> Forall proper_segment (tail stack)) by (intros []; done).
  destruct r1 as [|d r2]; [exists stack, rest, []; split_and!; [done|done|apply close_dot|done]|].
  assert (Hno : exists stack' rest' r',
    (if d =? 47 then resolve_loop base r2 (slash_at stack) else Some (slash_at stack, 46 :: d :: r2))
      = Some (slash_at stack', r') /\ base = dirs stack' ++ rest' /\
    closed_path (fold_left feed (46 :: d :: r2) (stack, [])) = closed_path (fold_left feed r' (stack', [])) /\
    (Forall proper_segment stack -> Forall proper_segment stack')).
  { destruct (Z.eqb_spec d 47) as [->|]; [|done].
    apply (IH r2 stack base rest); [simpl in Hn; lia|done|done]. }
  destruct (Z.eqb_spec d 46) as [->|]; [|done].
  destruct r2 as [|e r3]; [exists (tail stack), rest', []; split_and!; [done|done|apply close_dotdot|done]|].
  destruct (Z.eqb_spec e 47) as [->|]; [|done]. cbn [mbind option_bind].
  destruct (IH r3 (tail stack) base rest' ltac:(simpl in Hn; lia) Hb' Hs') as (s' & t' & r' & H1 & H2 & H3 & H4).
  exists s', t', r'. split_and!; [done|done| |tauto]. rewrite <- H3. done.
Qed.

Lemma feed_free s : forall stack cur, 47 ∉ s -> fold_left feed s (stack, cur) = (stack, cur ++ s).
Proof.
  induction s as [|c s IH]; intros stack cur; [by rewrite app_nil_r|].
  rewrite not_elem_of_cons. intros [Hc Hs]. cbn [fold_left].
  change (feed (stack, cur) c) with (if c =? 47 then (push_segment stack cur, []) else (stack, cur ++ [c])).
  destruct (Z.eqb_spec c 47); [congruence|]. by rewrite IH, <- app_assoc.
Qed.

Lemma feed_dirs stack : Forall proper_segment stack ->
  fold_left feed (drop 1 (dirs stack)) ([], []) = (stack, []).
Proof.
  induction 1 as [|seg stack [Hf Hd] Hs IH]; [done|]. rewrite dirs_cons.
  rewrite drop_app_le by (pose proof (dirs_length stack); lia).
  rewrite !fold_left_app, IH, feed_free by done. cbn [fold_left app]. unfold feed. cbn [fst snd Z.eqb Pos.eqb].
  unfold push_segment. apply orb_false_iff in Hd as [-> ->]. done.
Qed.

(** Dot segments removed from a path that starts with a slash. *)
Definition remove_dots (path : bytes) : bytes := remove_dot_segments (drop 1 path).

Lemma remove_dots_dirs stack r : Forall proper_segment stack ->
  remove_dots (dirs stack ++ r) = closed_path (fold_left feed r (stack, [])).
Proof.
  intros Hs. unfold remove_dots, closed_path. rewrite drop_app_le by (pose proof (dirs_length stack); lia).
  by rewrite remove_dot_segments_feed, fold_left_app, feed_dirs.
Qed.

Lemma resolve_path_spec stack file relative :
  Forall proper_segment stack -> 47 ∉ file -> hd 0 relative <> 47 ->
  exists stack' r', h2o_url_resolve_path (dirs stack ++ file) relative = Some (dirs stack', r') /\
    remove_dots (dirs stack' ++ r') = remove_dots (dirs stack ++ relative).
Proof.
  intros Hs Hf Hr. assert (Hfree : Forall (fun seg => 47 ∉ seg) stack) by (eapply Forall_impl; [exact Hs|by intros ? []]).
  unfold h2o_url_resolve_path.
  replace (negb (len relative =? 0) && (nth 0 relative 0 =? 47)) with false
    by (destruct relative as [|c r]; [done|cbn in *; destruct (Z.eqb_spec c 47); [done|by rewrite andb_false_r]]).
  rewrite length_app. pose proof (prev_slash_dirs stack file [] Hf) as Hp. rewrite app_nil_r in Hp. rewrite Hp.
  cbn [mbind option_bind].
  destruct (resolve_loop_spec _ relative stack (dirs stack ++ file) file (le_n _) eq_refl Hfree)
    as (stack' & rest' & r' & -> & Hb & He & Hpr).
  cbn [mbind option_bind]. exists stack', r'. split.
  - rewrite Hb. do 2 f_equal. apply take_app_exact. unfold slash_at. pose proof (dirs_length stack'). lia.
  - by rewrite !remove_dots_dirs by auto.
Qed.

Lemma init_hostport_get_port sc host port path :
  0 <= port < 65535 -> h2o_url_get_port (h2o_url_init_with_hostport sc host port path) = Some port.
Proof.
  intros Hp. unfold h2o_url_get_port, h2o_url_init_with_hostport.
  destruct (Z.eqb_spec port (default_port sc)) as [->|]; [done|]. cbn [u_port].
  by destruct (Z.eqb_spec port 65535); [lia|].
Qed.

(** ** Properties *)

(** A URL that [h2o_url_parse] accepts is printed by [h2o_url_stringify] as a string that
    parses to the same scheme, authority, host, port and path, with the pointers of the copy
    that [h2o_url_resolve] fills giving the same parts; its path starts with a slash, as the
    HTTP clients rely on, and its port is a port number or 65535 for none. *)
Theorem url_reparse url u :
  h2o_url_parse url = Some u ->
  exists s, h2o_url_resolve u None = Some (s, u) /\ h2o_url_parse s = Some u /\
    hd 0 (default [] (u_path u)) = 47 /\ 0 <= u_port u <= 65535.
Proof.
  intros H. unfold h2o_url_parse in H. destruct (parse_scheme url) as [[sc p]|] eqn:E; [|done].
  cbn [mbind option_bind] in H. destruct (negb (starts_with p (lit "//"))); [done|].
  destruct (parse_authority_parts _ _ _ H) as (a & h & path & port & Hp).
  destruct (url_parts_print sc u a h path port) as [H1 H2]; [by eapply parse_scheme_some|done|].
  destruct Hp as [-> Hport _ Hpath _]. by eexists.
Qed.

Lemma url_reparse_witness :
  exists s, h2o_url_resolve (Url (Some H2O_URL_SCHEME_HTTPS) (Some (lit "[::1]:8443")) (Some (lit "::1")) (Some (lit "/?q")) 8443) None
      = Some (s, Url (Some H2O_URL_SCHEME_HTTPS) (Some (lit "[::1]:8443")) (Some (lit "::1")) (Some (lit "/?q")) 8443) /\
    h2o_url_parse s = Some (Url (Some H2O_URL_SCHEME_HTTPS) (Some (lit "[::1]:8443")) (Some (lit "::1")) (Some (lit "/?q")) 8443) /\
    hd 0 (default [] (Some (lit "/?q"))) = 47 /\ 0 <= 8443 <= 65535.
Proof. apply (url_reparse (lit "https://[::1]:8443?q")). vm_compute. reflexivity. Defined.

(** A URL built from a host name, a port and a path is printed as a string that parses to the
    very same URL, and [h2o_url_get_port] gives the port back, whether it is the default of
    the scheme, which is left out of the authority, or not. *)
Theorem url_built_parses sc host port path :
  parsed_scheme sc -> plain_host host -> 0 <= port < 65535 -> hd 0 path = 47 ->
  let u := h2o_url_init_with_hostport sc host port path in
  exists s, h2o_url_stringify u = Some s /\ h2o_url_parse s = Some u /\ h2o_url_get_port u = Some port.
Proof.
  intros Hsc Hh Hp Hpath u. destruct (init_hostport_parts sc host port path Hh Hp Hpath) as (a & p & Hparts).
  destruct (url_parts_print sc u a host path p Hsc Hparts) as [H1 H2].
  eexists. unfold h2o_url_stringify. rewrite H1. split_and!; [done|done|by apply init_hostport_get_port].
Qed.

Lemma url_built_parses_witness :
  let u := h2o_url_init_with_hostport H2O_URL_SCHEME_HTTP (lit "example.com") 8080 (lit "/index") in
  exists s, h2o_url_stringify u = Some s /\ h2o_url_parse s = Some u /\ h2o_url_get_port u = Some 8080.
Proof. apply url_built_parses; [done|split_and!; [done|done|by vm_compute]|lia|done]. Defined.

(** [h2o_url_resolve_path] implements the resolution of relative references: an absolute path
    replaces the base path; otherwise the directory of the base and the relative path that are
    left, once the dot segments in front are consumed, denote after removal of dot segments
    what RFC 3986 5.2.3 merges.  It never reads below the base, however many times the relative
    path goes up. *)
Theorem resolve_path_exact stack file relative :
  Forall proper_segment stack -> 47 ∉ file ->
  exists base' rel', h2o_url_resolve_path (dirs stack ++ file) relative = Some (base', rel') /\
    if hd 0 relative =? 47 then base' = [] /\ rel' = relative
    else (exists stack', base' = dirs stack') /\
         remove_dots (base' ++ rel') = remove_dots (dirs stack ++ relative).
Proof.
  intros Hs Hf. destruct (Z.eqb_spec (hd 0 relative) 47) as [Hr|Hr].
  - exists [], relative. split; [|done]. unfold h2o_url_resolve_path. destruct relative as [|c r]; [done|].
    cbn in Hr. subst c. rewrite len_cons. pose proof (len_nonneg r). by destruct (Z.eqb_spec (len r + 1) 0); [lia|].
  - destruct (resolve_path_spec stack file relative Hs Hf Hr) as (stack' & r' & H & He).
    exists (dirs stack'), r'. split_and!; [done|by eexists|done].
Qed.

Lemma resolve_path_exact_witness :
  exists base' rel', h2o_url_resolve_path (dirs [lit "b"; lit "a"] ++ lit "c.html") (lit "../../../d/../e") = Some (base', rel') /\
    if hd 0 (lit "../../../d/../e") =? 47 then base' = [] /\ rel' = lit "../../../d/../e"
    else (exists stack', base' = dirs stack') /\
         remove_dots (base' ++ rel') = remove_dots (dirs [lit "b"; lit "a"] ++ lit "../../../d/../e").
Proof.
  apply resolve_path_exact.
  - repeat constructor; cbn; rewrite ?not_elem_of_cons; split_and?; try done; apply not_elem_of_nil.
  - cbn. rewrite !not_elem_of_cons. split_and!; try done. apply not_elem_of_nil.
Defined.

(** A path of 109 octets is copied to a field of 108, and paths shorter than two octets are
    refused as too long: the subtraction is off by two and wraps. *)
Example host_to_sun_overflow :
  (exists path, h2o_url_host_to_sun (lit "unix:" ++ repeat 97 109) = SunPath path /\ sun_path_size < len path) /\
  h2o_url_host_to_sun (lit "unix:a") = SunTooLong.
Proof. split; [eexists; split; vm_compute; reflexivity|vm_compute; reflexivity]. Qed.

(** Characters within a port that are not digits are skipped. *)
Example port_skips_characters :
  h2o_url_parse_hostport (lit "host:8x0y/") = Some (lit "host", 80, lit "/").
Proof. vm_compute. reflexivity. Qed.

(** Only one side of the comparison is folded to lower case. *)
Example hosts_equal_not_symmetric :
  h2o_url_hosts_are_equal (lit "Example.com") (lit "example.com") = true /\
  h2o_url_hosts_are_equal (lit "example.com") (lit "Example.com") = false.
Proof. split; vm_compute; reflexivity. Qed.
