(* ===== verification/Tokens.v ===== *)
(** * Tokens and static tables (lib/common/token_table.h, lib/common/token.c)

    The predefined header names ([h2o__tokens]), the HPACK and QPACK static tables and
    [h2o_lookup_token], the switch on length and last octet that interns a name.  A token
    is named by its index in [h2o__tokens] (the macros of include/h2o/token_table.h). *)
From S2P Require Import Prelude.
From Stdlib Require Import ZArith Lia Ascii.
From stdpp Require Import base list numbers option strings.
Open Scope Z_scope.

Record h2o_token_flags_t := TokenFlags {
  http2_static_table_name_index : Z;
  proxy_should_drop_for_req : bool;
  proxy_should_drop_for_res : bool;
  is_init_header_special : bool;
  is_hpack_special : bool;
  copy_for_push_request : bool;
  tok_dont_compress : bool;
  likely_to_repeat : bool }.

Record h2o_token_t := Token { tok_buf : bytes; tok_flags : h2o_token_flags_t }.

Definition mk_token (s : string) (f : Z * list Z) : h2o_token_t :=
  let b n := negb (nth n f.2 0 =? 0) in
  Token (lit s) (TokenFlags f.1 (b 0%nat) (b 1%nat) (b 2%nat) (b 3%nat) (b 4%nat) (b 5%nat) (b 6%nat)).

Definition h2o__tokens : list h2o_token_t := [
  mk_token ":authority" (1, [0; 0; 0; 0; 0; 0; 1]);
  mk_token ":method" (2, [0; 0; 0; 0; 0; 0; 0]);
  mk_token ":path" (4, [0; 0; 0; 0; 0; 0; 0]);
  mk_token ":protocol" (0, [0; 0; 0; 0; 0; 0; 1]);
  mk_token ":scheme" (6, [0; 0; 0; 0; 0; 0; 0]);
  mk_token ":status" (8, [0; 0; 0; 0; 0; 0; 0]);
  mk_token "accept" (19, [0; 0; 0; 0; 1; 0; 1]);
  mk_token "accept-charset" (15, [0; 0; 0; 0; 1; 0; 1]);
  mk_token "accept-encoding" (16, [0; 0; 0; 0; 1; 0; 1]);
  mk_token "accept-language" (17, [0; 0; 0; 0; 1; 0; 1]);
  mk_token "accept-ranges" (18, [0; 0; 0; 0; 0; 0; 1]);
  mk_token "access-control-allow-credentials" (0, [0; 0; 0; 0; 0; 0; 0]);
  mk_token "access-control-allow-headers" (0, [0; 0; 0; 0; 0; 0; 1]);
  mk_token "access-control-allow-methods" (0, [0; 0; 0; 0; 0; 0; 1]);
  mk_token "access-control-allow-origin" (20, [0; 0; 0; 0; 0; 0; 1]);
  mk_token "access-control-expose-headers" (0, [0; 0; 0; 0; 0; 0; 1]);
  mk_token "access-control-request-headers" (0, [0; 0; 0; 0; 0; 0; 1]);
  mk_token "access-control-request-method" (0, [0; 0; 0; 0; 0; 0; 1]);
  mk_token "age" (21, [0; 0; 0; 0; 0; 0; 0]);
  mk_token "allow" (22, [0; 0; 0; 0; 0; 0; 1]);
  mk_token "alt-svc" (0, [0; 0; 0; 0; 0; 0; 1]);
  mk_token "authorization" (23, [0; 0; 0; 0; 0; 0; 0]);
  mk_token "cache-control" (24, [0; 0; 0; 0; 0; 0; 1]);
  mk_token "cache-digest" (0, [0; 0; 0; 1; 0; 0; 0]);
  mk_token "connection" (0, [1; 1; 0; 1; 0; 0; 0]);
  mk_token "content-disposition" (25, [0; 0; 0; 0; 0; 0; 1]);
  mk_token "content-encoding" (26, [0; 0; 0; 0; 0; 0; 1]);
  mk_token "content-language" (27, [0; 0; 0; 0; 0; 0; 1]);
  mk_token "content-length" (28, [0; 0; 1; 1; 0; 0; 0]);
  mk_token "content-location" (29, [0; 0; 0; 0; 0; 0; 0]);
  mk_token "content-range" (30, [0; 0; 0; 0; 0; 0; 0]);
  mk_token "content-security-policy" (0, [0; 0; 0; 0; 0; 0; 1]);
  mk_token "content-type" (31, [0; 0; 0; 0; 0; 0; 1]);
  mk_token "cookie" (32, [0; 0; 0; 0; 0; 1; 0]);
  mk_token "datagram-flow-id" (0, [1; 1; 0; 1; 0; 0; 0]);
  mk_token "date" (33, [0; 0; 0; 0; 0; 0; 1]);
  mk_token "early-data" (0, [0; 0; 0; 0; 0; 0; 0]);
  mk_token "etag" (34, [0; 0; 0; 0; 0; 0; 0]);
  mk_token "expect" (35, [0; 0; 1; 1; 0; 0; 1]);
  mk_token "expect-ct" (0, [0; 0; 0; 0; 0; 0; 1]);
  mk_token "expires" (36, [0; 0; 0; 0; 0; 0; 0]);
  mk_token "forwarded" (0, [0; 0; 0; 0; 0; 0; 1]);
  mk_token "from" (37, [0; 0; 0; 0; 0; 0; 1]);
  mk_token "host" (38, [0; 0; 1; 1; 0; 0; 0]);
  mk_token "http2-settings" (0, [1; 0; 0; 1; 0; 0; 0]);
  mk_token "if-match" (39, [0; 0; 0; 0; 0; 0; 0]);
  mk_token "if-modified-since" (40, [0; 0; 0; 0; 0; 0; 0]);
  mk_token "if-none-match" (41, [0; 0; 0; 0; 0; 0; 0]);
  mk_token "if-range" (42, [0; 0; 0; 0; 0; 0; 0]);
  mk_token "if-unmodified-since" (43, [0; 0; 0; 0; 0; 0; 0]);
  mk_token "keep-alive" (0, [1; 1; 0; 0; 0; 0; 0]);
  mk_token "last-modified" (44, [0; 0; 0; 0; 0; 0; 0]);
  mk_token "link" (45, [0; 0; 0; 0; 0; 0; 1]);
  mk_token "location" (46, [0; 0; 0; 0; 0; 0; 0]);
  mk_token "max-forwards" (47, [0; 0; 0; 0; 0; 0; 0]);
  mk_token "no-early-hints" (0, [0; 0; 0; 0; 0; 0; 1]);
  mk_token "origin" (0, [0; 0; 0; 0; 0; 0; 1]);
  mk_token "priority" (0, [0; 0; 0; 0; 0; 0; 1]);
  mk_token "proxy-authenticate" (48, [1; 0; 0; 0; 0; 0; 0]);
  mk_token "proxy-authorization" (49, [1; 0; 0; 0; 0; 0; 0]);
  mk_token "proxy-connection" (0, [1; 1; 0; 0; 0; 0; 0]);
  mk_token "purpose" (0, [0; 0; 0; 0; 0; 0; 1]);
  mk_token "range" (50, [0; 0; 0; 0; 0; 0; 0]);
  mk_token "referer" (51, [0; 0; 0; 0; 0; 0; 1]);
  mk_token "refresh" (52, [0; 0; 0; 0; 0; 0; 0]);
  mk_token "retry-after" (53, [0; 0; 0; 0; 0; 0; 1]);
  mk_token "server" (54, [0; 0; 0; 0; 0; 0; 1]);
  mk_token "set-cookie" (55, [0; 0; 0; 0; 0; 1; 0]);
  mk_token "strict-transport-security" (56, [0; 0; 0; 0; 0; 0; 1]);
  mk_token "te" (0, [1; 0; 0; 1; 0; 0; 1]);
  mk_token "timing-allow-origin" (0, [0; 0; 0; 0; 0; 0; 1]);
  mk_token "transfer-encoding" (57, [1; 1; 1; 1; 0; 0; 0]);
  mk_token "upgrade" (0, [1; 1; 1; 1; 0; 0; 0]);
  mk_token "upgrade-insecure-requests" (0, [0; 0; 0; 0; 0; 0; 1]);
  mk_token "user-agent" (58, [0; 0; 0; 0; 1; 0; 1]);
  mk_token "vary" (59, [0; 0; 0; 0; 0; 0; 1]);
  mk_token "via" (60, [0; 0; 0; 0; 0; 0; 0]);
  mk_token "www-authenticate" (61, [0; 0; 0; 0; 0; 0; 0]);
  mk_token "x-compress-hint" (0, [0; 0; 0; 0; 0; 0; 0]);
  mk_token "x-content-type-options" (0, [0; 0; 0; 0; 0; 0; 1]);
  mk_token "x-forwarded-for" (0, [0; 0; 0; 0; 0; 0; 1]);
  mk_token "x-frame-options" (0, [0; 0; 0; 0; 0; 0; 1]);
  mk_token "x-reproxy-url" (0, [0; 0; 0; 0; 0; 0; 0]);
  mk_token "x-traffic" (0, [0; 0; 0; 0; 0; 0; 0]);
  mk_token "x-xss-protection" (0, [0; 0; 0; 0; 0; 0; 1])].

Definition H2O_TOKEN_AUTHORITY : Z := 0.
Definition H2O_TOKEN_METHOD : Z := 1.
Definition H2O_TOKEN_PATH : Z := 2.
Definition H2O_TOKEN_PROTOCOL : Z := 3.
Definition H2O_TOKEN_SCHEME : Z := 4.
Definition H2O_TOKEN_STATUS : Z := 5.
Definition H2O_TOKEN_ACCEPT : Z := 6.
Definition H2O_TOKEN_ACCEPT_CHARSET : Z := 7.
Definition H2O_TOKEN_ACCEPT_ENCODING : Z := 8.
Definition H2O_TOKEN_ACCEPT_LANGUAGE : Z := 9.
Definition H2O_TOKEN_ACCEPT_RANGES : Z := 10.
Definition H2O_TOKEN_ACCESS_CONTROL_ALLOW_CREDENTIALS : Z := 11.
Definition H2O_TOKEN_ACCESS_CONTROL_ALLOW_HEADERS : Z := 12.
Definition H2O_TOKEN_ACCESS_CONTROL_ALLOW_METHODS : Z := 13.
Definition H2O_TOKEN_ACCESS_CONTROL_ALLOW_ORIGIN : Z := 14.
Definition H2O_TOKEN_ACCESS_CONTROL_EXPOSE_HEADERS : Z := 15.
Definition H2O_TOKEN_ACCESS_CONTROL_REQUEST_HEADERS : Z := 16.
Definition H2O_TOKEN_ACCESS_CONTROL_REQUEST_METHOD : Z := 17.
Definition H2O_TOKEN_AGE : Z := 18.
Definition H2O_TOKEN_ALLOW : Z := 19.
Definition H2O_TOKEN_ALT_SVC : Z := 20.
Definition H2O_TOKEN_AUTHORIZATION : Z := 21.
Definition H2O_TOKEN_CACHE_CONTROL : Z := 22.
Definition H2O_TOKEN_CACHE_DIGEST : Z := 23.
Definition H2O_TOKEN_CONNECTION : Z := 24.
Definition H2O_TOKEN_CONTENT_DISPOSITION : Z := 25.
Definition H2O_TOKEN_CONTENT_ENCODING : Z := 26.
Definition H2O_TOKEN_CONTENT_LANGUAGE : Z := 27.
Definition H2O_TOKEN_CONTENT_LENGTH : Z := 28.
Definition H2O_TOKEN_CONTENT_LOCATION : Z := 29.
Definition H2O_TOKEN_CONTENT_RANGE : Z := 30.
Definition H2O_TOKEN_CONTENT_SECURITY_POLICY : Z := 31.
Definition H2O_TOKEN_CONTENT_TYPE : Z := 32.
Definition H2O_TOKEN_COOKIE : Z := 33.
Definition H2O_TOKEN_DATAGRAM_FLOW_ID : Z := 34.
Definition H2O_TOKEN_DATE : Z := 35.
Definition H2O_TOKEN_EARLY_DATA : Z := 36.
Definition H2O_TOKEN_ETAG : Z := 37.
Definition H2O_TOKEN_EXPECT : Z := 38.
Definition H2O_TOKEN_EXPECT_CT : Z := 39.
Definition H2O_TOKEN_EXPIRES : Z := 40.
Definition H2O_TOKEN_FORWARDED : Z := 41.
Definition H2O_TOKEN_FROM : Z := 42.
Definition H2O_TOKEN_HOST : Z := 43.
Definition H2O_TOKEN_HTTP2_SETTINGS : Z := 44.
Definition H2O_TOKEN_IF_MATCH : Z := 45.
Definition H2O_TOKEN_IF_MODIFIED_SINCE : Z := 46.
Definition H2O_TOKEN_IF_NONE_MATCH : Z := 47.
Definition H2O_TOKEN_IF_RANGE : Z := 48.
Definition H2O_TOKEN_IF_UNMODIFIED_SINCE : Z := 49.
Definition H2O_TOKEN_KEEP_ALIVE : Z := 50.
Definition H2O_TOKEN_LAST_MODIFIED : Z := 51.
Definition H2O_TOKEN_LINK : Z := 52.
Definition H2O_TOKEN_LOCATION : Z := 53.
Definition H2O_TOKEN_MAX_FORWARDS : Z := 54.
Definition H2O_TOKEN_NO_EARLY_HINTS : Z := 55.
Definition H2O_TOKEN_ORIGIN : Z := 56.
Definition H2O_TOKEN_PRIORITY : Z := 57.
Definition H2O_TOKEN_PROXY_AUTHENTICATE : Z := 58.
Definition H2O_TOKEN_PROXY_AUTHORIZATION : Z := 59.
Definition H2O_TOKEN_PROXY_CONNECTION : Z := 60.
Definition H2O_TOKEN_PURPOSE : Z := 61.
Definition H2O_TOKEN_RANGE : Z := 62.
Definition H2O_TOKEN_REFERER : Z := 63.
Definition H2O_TOKEN_REFRESH : Z := 64.
Definition H2O_TOKEN_RETRY_AFTER : Z := 65.
Definition H2O_TOKEN_SERVER : Z := 66.
Definition H2O_TOKEN_SET_COOKIE : Z := 67.
Definition H2O_TOKEN_STRICT_TRANSPORT_SECURITY : Z := 68.
Definition H2O_TOKEN_TE : Z := 69.
Definition H2O_TOKEN_TIMING_ALLOW_ORIGIN : Z := 70.
Definition H2O_TOKEN_TRANSFER_ENCODING : Z := 71.
Definition H2O_TOKEN_UPGRADE : Z := 72.
Definition H2O_TOKEN_UPGRADE_INSECURE_REQUESTS : Z := 73.
Definition H2O_TOKEN_USER_AGENT : Z := 74.
Definition H2O_TOKEN_VARY : Z := 75.
Definition H2O_TOKEN_VIA : Z := 76.
Definition H2O_TOKEN_WWW_AUTHENTICATE : Z := 77.
Definition H2O_TOKEN_X_COMPRESS_HINT : Z := 78.
Definition H2O_TOKEN_X_CONTENT_TYPE_OPTIONS : Z := 79.
Definition H2O_TOKEN_X_FORWARDED_FOR : Z := 80.
Definition H2O_TOKEN_X_FRAME_OPTIONS : Z := 81.
Definition H2O_TOKEN_X_REPROXY_URL : Z := 82.
Definition H2O_TOKEN_X_TRAFFIC : Z := 83.
Definition H2O_TOKEN_X_XSS_PROTECTION : Z := 84.

Definition h2o_hpack_static_table : list (Z * bytes) := [
  (H2O_TOKEN_AUTHORITY, lit "");
  (H2O_TOKEN_METHOD, lit "GET");
  (H2O_TOKEN_METHOD, lit "POST");
  (H2O_TOKEN_PATH, lit "/");
  (H2O_TOKEN_PATH, lit "/index.html");
  (H2O_TOKEN_SCHEME, lit "http");
  (H2O_TOKEN_SCHEME, lit "https");
  (H2O_TOKEN_STATUS, lit "200");
  (H2O_TOKEN_STATUS, lit "204");
  (H2O_TOKEN_STATUS, lit "206");
  (H2O_TOKEN_STATUS, lit "304");
  (H2O_TOKEN_STATUS, lit "400");
  (H2O_TOKEN_STATUS, lit "404");
  (H2O_TOKEN_STATUS, lit "500");
  (H2O_TOKEN_ACCEPT_CHARSET, lit "");
  (H2O_TOKEN_ACCEPT_ENCODING, lit "gzip, deflate");
  (H2O_TOKEN_ACCEPT_LANGUAGE, lit "");
  (H2O_TOKEN_ACCEPT_RANGES, lit "");
  (H2O_TOKEN_ACCEPT, lit "");
  (H2O_TOKEN_ACCESS_CONTROL_ALLOW_ORIGIN, lit "");
  (H2O_TOKEN_AGE, lit "");
  (H2O_TOKEN_ALLOW, lit "");
  (H2O_TOKEN_AUTHORIZATION, lit "");
  (H2O_TOKEN_CACHE_CONTROL, lit "");
  (H2O_TOKEN_CONTENT_DISPOSITION, lit "");
  (H2O_TOKEN_CONTENT_ENCODING, lit "");
  (H2O_TOKEN_CONTENT_LANGUAGE, lit "");
  (H2O_TOKEN_CONTENT_LENGTH, lit "");
  (H2O_TOKEN_CONTENT_LOCATION, lit "");
  (H2O_TOKEN_CONTENT_RANGE, lit "");
  (H2O_TOKEN_CONTENT_TYPE, lit "");
  (H2O_TOKEN_COOKIE, lit "");
  (H2O_TOKEN_DATE, lit "");
  (H2O_TOKEN_ETAG, lit "");
  (H2O_TOKEN_EXPECT, lit "");
  (H2O_TOKEN_EXPIRES, lit "");
  (H2O_TOKEN_FROM, lit "");
  (H2O_TOKEN_HOST, lit "");
  (H2O_TOKEN_IF_MATCH, lit "");
  (H2O_TOKEN_IF_MODIFIED_SINCE, lit "");
  (H2O_TOKEN_IF_NONE_MATCH, lit "");
  (H2O_TOKEN_IF_RANGE, lit "");
  (H2O_TOKEN_IF_UNMODIFIED_SINCE, lit "");
  (H2O_TOKEN_LAST_MODIFIED, lit "");
  (H2O_TOKEN_LINK, lit "");
  (H2O_TOKEN_LOCATION, lit "");
  (H2O_TOKEN_MAX_FORWARDS, lit "");
  (H2O_TOKEN_PROXY_AUTHENTICATE, lit "");
  (H2O_TOKEN_PROXY_AUTHORIZATION, lit "");
  (H2O_TOKEN_RANGE, lit "");
  (H2O_TOKEN_REFERER, lit "");
  (H2O_TOKEN_REFRESH, lit "");
  (H2O_TOKEN_RETRY_AFTER, lit "");
  (H2O_TOKEN_SERVER, lit "");
  (H2O_TOKEN_SET_COOKIE, lit "");
  (H2O_TOKEN_STRICT_TRANSPORT_SECURITY, lit "");
  (H2O_TOKEN_TRANSFER_ENCODING, lit "");
  (H2O_TOKEN_USER_AGENT, lit "");
  (H2O_TOKEN_VARY, lit "");
  (H2O_TOKEN_VIA, lit "");
  (H2O_TOKEN_WWW_AUTHENTICATE, lit "")].

Definition h2o_qpack_static_table : list (Z * bytes) := [
  (H2O_TOKEN_AUTHORITY, lit "");
  (H2O_TOKEN_PATH, lit "/");
  (H2O_TOKEN_AGE, lit "0");
  (H2O_TOKEN_CONTENT_DISPOSITION, lit "");
  (H2O_TOKEN_CONTENT_LENGTH, lit "0");
  (H2O_TOKEN_COOKIE, lit "");
  (H2O_TOKEN_DATE, lit "");
  (H2O_TOKEN_ETAG, lit "");
  (H2O_TOKEN_IF_MODIFIED_SINCE, lit "");
  (H2O_TOKEN_IF_NONE_MATCH, lit "");
  (H2O_TOKEN_LAST_MODIFIED, lit "");
  (H2O_TOKEN_LINK, lit "");
  (H2O_TOKEN_LOCATION, lit "");
  (H2O_TOKEN_REFERER, lit "");
  (H2O_TOKEN_SET_COOKIE, lit "");
  (H2O_TOKEN_METHOD, lit "CONNECT");
  (H2O_TOKEN_METHOD, lit "DELETE");
  (H2O_TOKEN_METHOD, lit "GET");
  (H2O_TOKEN_METHOD, lit "HEAD");
  (H2O_TOKEN_METHOD, lit "OPTIONS");
  (H2O_TOKEN_METHOD, lit "POST");
  (H2O_TOKEN_METHOD, lit "PUT");
  (H2O_TOKEN_SCHEME, lit "http");
  (H2O_TOKEN_SCHEME, lit "https");
  (H2O_TOKEN_STATUS, lit "103");
  (H2O_TOKEN_STATUS, lit "200");
  (H2O_TOKEN_STATUS, lit "304");
  (H2O_TOKEN_STATUS, lit "404");
  (H2O_TOKEN_STATUS, lit "503");
  (H2O_TOKEN_ACCEPT, lit "*/*");
  (H2O_TOKEN_ACCEPT, lit "application/dns-message");
  (H2O_TOKEN_ACCEPT_ENCODING, lit "gzip, deflate, br");
  (H2O_TOKEN_ACCEPT_RANGES, lit "bytes");
  (H2O_TOKEN_ACCESS_CONTROL_ALLOW_HEADERS, lit "cache-control");
  (H2O_TOKEN_ACCESS_CONTROL_ALLOW_HEADERS, lit "content-type");
  (H2O_TOKEN_ACCESS_CONTROL_ALLOW_ORIGIN, lit "*");
  (H2O_TOKEN_CACHE_CONTROL, lit "max-age=0");
  (H2O_TOKEN_CACHE_CONTROL, lit "max-age=2592000");
  (H2O_TOKEN_CACHE_CONTROL, lit "max-age=604800");
  (H2O_TOKEN_CACHE_CONTROL, lit "no-cache");
  (H2O_TOKEN_CACHE_CONTROL, lit "no-store");
  (H2O_TOKEN_CACHE_CONTROL, lit "public, max-age=31536000");
  (H2O_TOKEN_CONTENT_ENCODING, lit "br");
  (H2O_TOKEN_CONTENT_ENCODING, lit "gzip");
  (H2O_TOKEN_CONTENT_TYPE, lit "application/dns-message");
  (H2O_TOKEN_CONTENT_TYPE, lit "application/javascript");
  (H2O_TOKEN_CONTENT_TYPE, lit "application/json");
  (H2O_TOKEN_CONTENT_TYPE, lit "application/x-www-form-urlencoded");
  (H2O_TOKEN_CONTENT_TYPE, lit "image/gif");
  (H2O_TOKEN_CONTENT_TYPE, lit "image/jpeg");
  (H2O_TOKEN_CONTENT_TYPE, lit "image/png");
  (H2O_TOKEN_CONTENT_TYPE, lit "text/css");
  (H2O_TOKEN_CONTENT_TYPE, lit "text/html; charset=utf-8");
  (H2O_TOKEN_CONTENT_TYPE, lit "text/plain");
  (H2O_TOKEN_CONTENT_TYPE, lit "text/plain;charset=utf-8");
  (H2O_TOKEN_RANGE, lit "bytes=0-");
  (H2O_TOKEN_STRICT_TRANSPORT_SECURITY, lit "max-age=31536000");
  (H2O_TOKEN_STRICT_TRANSPORT_SECURITY, lit "max-age=31536000; includesubdomains");
  (H2O_TOKEN_STRICT_TRANSPORT_SECURITY, lit "max-age=31536000; includesubdomains; preload");
  (H2O_TOKEN_VARY, lit "accept-encoding");
  (H2O_TOKEN_VARY, lit "origin");
  (H2O_TOKEN_X_CONTENT_TYPE_OPTIONS, lit "nosniff");
  (H2O_TOKEN_X_XSS_PROTECTION, lit "1; mode=block");
  (H2O_TOKEN_STATUS, lit "100");
  (H2O_TOKEN_STATUS, lit "204");
  (H2O_TOKEN_STATUS, lit "206");
  (H2O_TOKEN_STATUS, lit "302");
  (H2O_TOKEN_STATUS, lit "400");
  (H2O_TOKEN_STATUS, lit "403");
  (H2O_TOKEN_STATUS, lit "421");
  (H2O_TOKEN_STATUS, lit "425");
  (H2O_TOKEN_STATUS, lit "500");
  (H2O_TOKEN_ACCEPT_LANGUAGE, lit "");
  (H2O_TOKEN_ACCESS_CONTROL_ALLOW_CREDENTIALS, lit "FALSE");
  (H2O_TOKEN_ACCESS_CONTROL_ALLOW_CREDENTIALS, lit "TRUE");
  (H2O_TOKEN_ACCESS_CONTROL_ALLOW_HEADERS, lit "*");
  (H2O_TOKEN_ACCESS_CONTROL_ALLOW_METHODS, lit "get");
  (H2O_TOKEN_ACCESS_CONTROL_ALLOW_METHODS, lit "get, post, options");
  (H2O_TOKEN_ACCESS_CONTROL_ALLOW_METHODS, lit "options");
  (H2O_TOKEN_ACCESS_CONTROL_EXPOSE_HEADERS, lit "content-length");
  (H2O_TOKEN_ACCESS_CONTROL_REQUEST_HEADERS, lit "content-type");
  (H2O_TOKEN_ACCESS_CONTROL_REQUEST_METHOD, lit "get");
  (H2O_TOKEN_ACCESS_CONTROL_REQUEST_METHOD, lit "post");
  (H2O_TOKEN_ALT_SVC, lit "clear");
  (H2O_TOKEN_AUTHORIZATION, lit "");
  (H2O_TOKEN_CONTENT_SECURITY_POLICY, lit "script-src 'none'; object-src 'none'; base-uri 'none'");
  (H2O_TOKEN_EARLY_DATA, lit "1");
  (H2O_TOKEN_EXPECT_CT, lit "");
  (H2O_TOKEN_FORWARDED, lit "");
  (H2O_TOKEN_IF_RANGE, lit "");
  (H2O_TOKEN_ORIGIN, lit "");
  (H2O_TOKEN_PURPOSE, lit "prefetch");
  (H2O_TOKEN_SERVER, lit "");
  (H2O_TOKEN_TIMING_ALLOW_ORIGIN, lit "*");
  (H2O_TOKEN_UPGRADE_INSECURE_REQUESTS, lit "1");
  (H2O_TOKEN_USER_AGENT, lit "");
  (H2O_TOKEN_X_FORWARDED_FOR, lit "");
  (H2O_TOKEN_X_FRAME_OPTIONS, lit "deny");
  (H2O_TOKEN_X_FRAME_OPTIONS, lit "sameorigin")].

(** [switch (name[len - 1])] with, in each case, a sequence of [memcmp] tests on the rest. *)
Fixpoint memcmp_tests (name : bytes) (tests : list (string * Z)) : option Z :=
  match tests with
  | [] => None
  | (s, tok) :: tests =>
      if bool_decide (take (length (lit s)) name = lit s) then Some tok
      else memcmp_tests name tests
  end.

Fixpoint switch_last (last : Z) (name : bytes)
    (cases : list (ascii * list (string * Z))) : option Z :=
  match cases with
  | [] => None
  | (c, tests) :: cases =>
      if last =? chr c then memcmp_tests name tests
      else switch_last last name cases
  end.

Definition name_at (name : bytes) (i : nat) : Z := nth i name 0.

Definition lookup_token_2 (name : bytes) : option Z :=
  switch_last (name_at name 1) name [
    ("e"%char, [("t", H2O_TOKEN_TE)])].

Definition lookup_token_3 (name : bytes) : option Z :=
  switch_last (name_at name 2) name [
    ("a"%char, [("vi", H2O_TOKEN_VIA)]);
    ("e"%char, [("ag", H2O_TOKEN_AGE)])].

Definition lookup_token_4 (name : bytes) : option Z :=
  switch_last (name_at name 3) name [
    ("e"%char, [("dat", H2O_TOKEN_DATE)]);
    ("g"%char, [("eta", H2O_TOKEN_ETAG)]);
    ("k"%char, [("lin", H2O_TOKEN_LINK)]);
    ("m"%char, [("fro", H2O_TOKEN_FROM)]);
    ("t"%char, [("hos", H2O_TOKEN_HOST)]);
    ("y"%char, [("var", H2O_TOKEN_VARY)])].

Definition lookup_token_5 (name : bytes) : option Z :=
  switch_last (name_at name 4) name [
    ("e"%char, [("rang", H2O_TOKEN_RANGE)]);
    ("h"%char, [(":pat", H2O_TOKEN_PATH)]);
    ("w"%char, [("allo", H2O_TOKEN_ALLOW)])].

Definition lookup_token_6 (name : bytes) : option Z :=
  switch_last (name_at name 5) name [
    ("e"%char, [("cooki", H2O_TOKEN_COOKIE)]);
    ("n"%char, [("origi", H2O_TOKEN_ORIGIN)]);
    ("r"%char, [("serve", H2O_TOKEN_SERVER)]);
    ("t"%char, [("accep", H2O_TOKEN_ACCEPT); ("expec", H2O_TOKEN_EXPECT)])].

Definition lookup_token_7 (name : bytes) : option Z :=
  switch_last (name_at name 6) name [
    ("c"%char, [("alt-sv", H2O_TOKEN_ALT_SVC)]);
    ("d"%char, [(":metho", H2O_TOKEN_METHOD)]);
    ("e"%char, [(":schem", H2O_TOKEN_SCHEME); ("purpos", H2O_TOKEN_PURPOSE); ("upgrad", H2O_TOKEN_UPGRADE)]);
    ("h"%char, [("refres", H2O_TOKEN_REFRESH)]);
    ("r"%char, [("refere", H2O_TOKEN_REFERER)]);
    ("s"%char, [(":statu", H2O_TOKEN_STATUS); ("expire", H2O_TOKEN_EXPIRES)])].

Definition lookup_token_8 (name : bytes) : option Z :=
  switch_last (name_at name 7) name [
    ("e"%char, [("if-rang", H2O_TOKEN_IF_RANGE)]);
    ("h"%char, [("if-matc", H2O_TOKEN_IF_MATCH)]);
    ("n"%char, [("locatio", H2O_TOKEN_LOCATION)]);
    ("y"%char, [("priorit", H2O_TOKEN_PRIORITY)])].

Definition lookup_token_9 (name : bytes) : option Z :=
  switch_last (name_at name 8) name [
    ("c"%char, [("x-traffi", H2O_TOKEN_X_TRAFFIC)]);
    ("d"%char, [("forwarde", H2O_TOKEN_FORWARDED)]);
    ("l"%char, [(":protoco", H2O_TOKEN_PROTOCOL)]);
    ("t"%char, [("expect-c", H2O_TOKEN_EXPECT_CT)])].

Definition lookup_token_10 (name : bytes) : option Z :=
  switch_last (name_at name 9) name [
    ("a"%char, [("early-dat", H2O_TOKEN_EARLY_DATA)]);
    ("e"%char, [("keep-aliv", H2O_TOKEN_KEEP_ALIVE); ("set-cooki", H2O_TOKEN_SET_COOKIE)]);
    ("n"%char, [("connectio", H2O_TOKEN_CONNECTION)]);
    ("t"%char, [("user-agen", H2O_TOKEN_USER_AGENT)]);
    ("y"%char, [(":authorit", H2O_TOKEN_AUTHORITY)])].

Definition lookup_token_11 (name : bytes) : option Z :=
  switch_last (name_at name 10) name [
    ("r"%char, [("retry-afte", H2O_TOKEN_RETRY_AFTER)])].

Definition lookup_token_12 (name : bytes) : option Z :=
  switch_last (name_at name 11) name [
    ("e"%char, [("content-typ", H2O_TOKEN_CONTENT_TYPE)]);
    ("s"%char, [("max-forward", H2O_TOKEN_MAX_FORWARDS)]);
    ("t"%char, [("cache-diges", H2O_TOKEN_CACHE_DIGEST)])].

Definition lookup_token_13 (name : bytes) : option Z :=
  switch_last (name_at name 12) name [
    ("d"%char, [("last-modifie", H2O_TOKEN_LAST_MODIFIED)]);
    ("e"%char, [("content-rang", H2O_TOKEN_CONTENT_RANGE)]);
    ("h"%char, [("if-none-matc", H2O_TOKEN_IF_NONE_MATCH)]);
    ("l"%char, [("cache-contro", H2O_TOKEN_CACHE_CONTROL); ("x-reproxy-ur", H2O_TOKEN_X_REPROXY_URL)]);
    ("n"%char, [("authorizatio", H2O_TOKEN_AUTHORIZATION)]);
    ("s"%char, [("accept-range", H2O_TOKEN_ACCEPT_RANGES)])].

Definition lookup_token_14 (name : bytes) : option Z :=
  switch_last (name_at name 13) name [
    ("h"%char, [("content-lengt", H2O_TOKEN_CONTENT_LENGTH)]);
    ("s"%char, [("http2-setting", H2O_TOKEN_HTTP2_SETTINGS); ("no-early-hint", H2O_TOKEN_NO_EARLY_HINTS)]);
    ("t"%char, [("accept-charse", H2O_TOKEN_ACCEPT_CHARSET)])].

Definition lookup_token_15 (name : bytes) : option Z :=
  switch_last (name_at name 14) name [
    ("e"%char, [("accept-languag", H2O_TOKEN_ACCEPT_LANGUAGE)]);
    ("g"%char, [("accept-encodin", H2O_TOKEN_ACCEPT_ENCODING)]);
    ("r"%char, [("x-forwarded-fo", H2O_TOKEN_X_FORWARDED_FOR)]);
    ("s"%char, [("x-frame-option", H2O_TOKEN_X_FRAME_OPTIONS)]);
    ("t"%char, [("x-compress-hin", H2O_TOKEN_X_COMPRESS_HINT)])].

Definition lookup_token_16 (name : bytes) : option Z :=
  switch_last (name_at name 15) name [
    ("d"%char, [("datagram-flow-i", H2O_TOKEN_DATAGRAM_FLOW_ID)]);
    ("e"%char, [("content-languag", H2O_TOKEN_CONTENT_LANGUAGE); ("www-authenticat", H2O_TOKEN_WWW_AUTHENTICATE)]);
    ("g"%char, [("content-encodin", H2O_TOKEN_CONTENT_ENCODING)]);
    ("n"%char, [("content-locatio", H2O_TOKEN_CONTENT_LOCATION); ("proxy-connectio", H2O_TOKEN_PROXY_CONNECTION); ("x-xss-protectio", H2O_TOKEN_X_XSS_PROTECTION)])].

Definition lookup_token_17 (name : bytes) : option Z :=
  switch_last (name_at name 16) name [
    ("e"%char, [("if-modified-sinc", H2O_TOKEN_IF_MODIFIED_SINCE)]);
    ("g"%char, [("transfer-encodin", H2O_TOKEN_TRANSFER_ENCODING)])].

Definition lookup_token_18 (name : bytes) : option Z :=
  switch_last (name_at name 17) name [
    ("e"%char, [("proxy-authenticat", H2O_TOKEN_PROXY_AUTHENTICATE)])].

Definition lookup_token_19 (name : bytes) : option Z :=
  switch_last (name_at name 18) name [
    ("e"%char, [("if-unmodified-sinc", H2O_TOKEN_IF_UNMODIFIED_SINCE)]);
    ("n"%char, [("content-dispositio", H2O_TOKEN_CONTENT_DISPOSITION); ("proxy-authorizatio", H2O_TOKEN_PROXY_AUTHORIZATION); ("timing-allow-origi", H2O_TOKEN_TIMING_ALLOW_ORIGIN)])].

Definition lookup_token_22 (name : bytes) : option Z :=
  switch_last (name_at name 21) name [
    ("s"%char, [("x-content-type-option", H2O_TOKEN_X_CONTENT_TYPE_OPTIONS)])].

Definition lookup_token_23 (name : bytes) : option Z :=
  switch_last (name_at name 22) name [
    ("y"%char, [("content-security-polic", H2O_TOKEN_CONTENT_SECURITY_POLICY)])].

Definition lookup_token_25 (name : bytes) : option Z :=
  switch_last (name_at name 24) name [
    ("s"%char, [("upgrade-insecure-request", H2O_TOKEN_UPGRADE_INSECURE_REQUESTS)]);
    ("y"%char, [("strict-transport-securit", H2O_TOKEN_STRICT_TRANSPORT_SECURITY)])].

Definition lookup_token_27 (name : bytes) : option Z :=
  switch_last (name_at name 26) name [
    ("n"%char, [("access-control-allow-origi", H2O_TOKEN_ACCESS_CONTROL_ALLOW_ORIGIN)])].

Definition lookup_token_28 (name : bytes) : option Z :=
  switch_last (name_at name 27) name [
    ("s"%char, [("access-control-allow-header", H2O_TOKEN_ACCESS_CONTROL_ALLOW_HEADERS); ("access-control-allow-method", H2O_TOKEN_ACCESS_CONTROL_ALLOW_METHODS)])].

Definition lookup_token_29 (name : bytes) : option Z :=
  switch_last (name_at name 28) name [
    ("d"%char, [("access-control-request-metho", H2O_TOKEN_ACCESS_CONTROL_REQUEST_METHOD)]);
    ("s"%char, [("access-control-expose-header", H2O_TOKEN_ACCESS_CONTROL_EXPOSE_HEADERS)])].

Definition lookup_token_30 (name : bytes) : option Z :=
  switch_last (name_at name 29) name [
    ("s"%char, [("access-control-request-header", H2O_TOKEN_ACCESS_CONTROL_REQUEST_HEADERS)])].

Definition lookup_token_32 (name : bytes) : option Z :=
  switch_last (name_at name 31) name [
    ("s"%char, [("access-control-allow-credential", H2O_TOKEN_ACCESS_CONTROL_ALLOW_CREDENTIALS)])].

Definition h2o_lookup_token (name : bytes) : option Z :=
  match length name with
  | 2%nat => lookup_token_2 name
  | 3%nat => lookup_token_3 name
  | 4%nat => lookup_token_4 name
  | 5%nat => lookup_token_5 name
  | 6%nat => lookup_token_6 name
  | 7%nat => lookup_token_7 name
  | 8%nat => lookup_token_8 name
  | 9%nat => lookup_token_9 name
  | 10%nat => lookup_token_10 name
  | 11%nat => lookup_token_11 name
  | 12%nat => lookup_token_12 name
  | 13%nat => lookup_token_13 name
  | 14%nat => lookup_token_14 name
  | 15%nat => lookup_token_15 name
  | 16%nat => lookup_token_16 name
  | 17%nat => lookup_token_17 name
  | 18%nat => lookup_token_18 name
  | 19%nat => lookup_token_19 name
  | 22%nat => lookup_token_22 name
  | 23%nat => lookup_token_23 name
  | 25%nat => lookup_token_25 name
  | 27%nat => lookup_token_27 name
  | 28%nat => lookup_token_28 name
  | 29%nat => lookup_token_29 name
  | 30%nat => lookup_token_30 name
  | 32%nat => lookup_token_32 name
  | _ => None
  end.

(** ** Reference: the token of a name is its position in the table *)

Definition token_of (name : bytes) : option Z :=
  Z.of_nat <$> (list_find (fun t => tok_buf t = name) h2o__tokens ≫= fun p => Some p.1).

Definition token (t : Z) : h2o_token_t := nth (Z.to_nat t) h2o__tokens (mk_token "" (0, [])).

(** Indices of the token table. *)
Definition is_token_index (t : Z) : Prop := 0 <= t < 85.

(** ** The switch finds exactly the names of the table *)

Definition test_ok (n : nat) (c : ascii) (e : string * Z) : bool :=
  (length (lit e.1) =? n)%nat && bool_decide (tok_buf (token e.2) = lit e.1 ++ [chr c])
  && (0 <=? e.2) && (e.2 <? 85).

Definition case_ok (n : nat) (e : ascii * list (string * Z)) : bool :=
  forallb (test_ok n e.1) e.2.

Lemma memcmp_tests_sound n c name tests t :
  forallb (test_ok n c) tests = true -> length name = S n -> name_at name n = chr c ->
  memcmp_tests name tests = Some t -> tok_buf (token t) = name /\ is_token_index t.
Proof.
  induction tests as [|[s tok] tests IH]; simpl; [done|].
  rewrite andb_true_iff. intros [Hok Hoks] Hlen Hlast. case_bool_decide as Hs; [|by apply IH].
  intros [= <-]. unfold test_ok in Hok. rewrite !andb_true_iff, bool_decide_eq_true in Hok.
  simpl in Hok. destruct Hok as [[[Hn Hb] ?] ?]. split; [|unfold is_token_index; lia].
  apply Nat.eqb_eq in Hn. rewrite Hb, <- Hs, Hn, <- Hlast. unfold name_at.
  rewrite <- (take_drop n name) at 3. f_equal.
  assert (Hd : length (drop n name) = 1%nat) by (rewrite length_drop; lia).
  rewrite <- (take_drop n name) at 1. rewrite app_nth2; rewrite length_take; [|lia].
  replace (n - n `min` length name)%nat with 0%nat by lia.
  by destruct (drop n name) as [|x [|]].
Qed.

Lemma switch_last_sound n name cases t :
  forallb (case_ok n) cases = true -> length name = S n ->
  switch_last (name_at name n) name cases = Some t -> tok_buf (token t) = name /\ is_token_index t.
Proof.
  induction cases as [|[c tests] cases IH]; simpl; [done|].
  rewrite andb_true_iff. intros [Hok Hoks] Hlen. destruct (Z.eqb_spec (name_at name n) (chr c)); [|by apply IH].
  by eapply memcmp_tests_sound.
Qed.

Lemma lookup_token_sound name t :
  h2o_lookup_token name = Some t -> tok_buf (token t) = name /\ is_token_index t.
Proof.
  unfold h2o_lookup_token. remember (length name) as n eqn:Hl. symmetry in Hl. intros H.
  do 33 (destruct n as [|n];
         [first [done | eapply switch_last_sound; [|exact Hl|exact H]; vm_compute; reflexivity]|]).
  done.
Qed.

Lemma lookup_token_complete t :
  is_token_index t ->
  h2o_lookup_token (tok_buf (token t)) = Some t /\ token_of (tok_buf (token t)) = Some t.
Proof.
  intros Ht.
  assert (H : forallb (fun t => bool_decide (h2o_lookup_token (tok_buf (token t)) = Some t)
                                && bool_decide (token_of (tok_buf (token t)) = Some t))
                      (seqZ 0 85) = true) by (vm_compute; reflexivity).
  rewrite forallb_forall in H. specialize (H t).
  rewrite <- list_elem_of_In, elem_of_seqZ, andb_true_iff, !bool_decide_eq_true in H.
  apply H. unfold is_token_index in Ht. lia.
Qed.

Lemma token_of_sound name t :
  token_of name = Some t -> tok_buf (token t) = name /\ is_token_index t.
Proof.
  unfold token_of. destruct (list_find _ h2o__tokens) as [[i tk]|] eqn:E; [|done].
  intros [= <-]. apply list_find_Some in E as (Hi & Hb & _).
  unfold token. rewrite Nat2Z.id, (nth_lookup_Some _ _ _ _ Hi).
  split; [done|]. apply lookup_lt_Some in Hi. unfold is_token_index. simpl in Hi. lia.
Qed.

Lemma lookup_token_spec name : h2o_lookup_token name = token_of name.
Proof.
  destruct (h2o_lookup_token name) as [t|] eqn:Hl.
  - apply lookup_token_sound in Hl as [<- Ht]. symmetry. by apply lookup_token_complete.
  - destruct (token_of name) as [t|] eqn:Ht; [|done].
    apply token_of_sound in Ht as [<- Ht]. apply lookup_token_complete in Ht as [Ht _]. congruence.
Qed.

(** ** Properties *)

(** The hand-written switch of [h2o_lookup_token] finds exactly the names of the token
    table: its result is the position of the name in [h2o__tokens], or NULL when the name is
    not there; in particular every token is found by its own name. *)
Theorem lookup_token_exact name :
  h2o_lookup_token name = token_of name /\
  (forall t, h2o_lookup_token name = Some t <-> is_token_index t /\ tok_buf (token t) = name).
Proof.
  split; [apply lookup_token_spec|]. intros t. split.
  - intros H. apply lookup_token_sound in H as [? ?]. done.
  - intros [Ht <-]. by apply lookup_token_complete.
Qed.
