(* ===== verification/QpackStatic.v ===== *)
(** * QPACK static table lookup (lib/common/token_table.h)

    One function per token, [h2o_qpack_lookup_<name>], that searches the static table for
    a value: the index found (or the index of some entry with that name, or -1) and
    [*is_exact].  [h2o_qpack_lookup_static] is the array of these functions. *)
From S2P Require Import Prelude Tokens.
From Stdlib Require Import ZArith Lia.
From stdpp Require Import base list numbers option strings.
Open Scope Z_scope.

(** A sequence of [if (h2o_memis(value, lit)) { *is_exact = 1; return i; }], then
    [*is_exact = 0; return dflt]. *)
Fixpoint memis_chain (value : bytes) (tests : list (string * Z)) (dflt : Z) : Z * bool :=
  match tests with
  | [] => (dflt, false)
  | (s, i) :: tests =>
      if bool_decide (value = lit s) then (i, true) else memis_chain value tests dflt
  end.

Definition h2o_qpack_lookup_authority (value : bytes) : Z * bool :=
  memis_chain value [("", 0)] (0).
Definition h2o_qpack_lookup_method (value : bytes) : Z * bool :=
  memis_chain value [("CONNECT", 15); ("DELETE", 16); ("GET", 17); ("HEAD", 18); ("OPTIONS", 19); ("POST", 20); ("PUT", 21)] (15).
Definition h2o_qpack_lookup_path (value : bytes) : Z * bool :=
  memis_chain value [("/", 1)] (1).
Definition h2o_qpack_lookup_protocol (value : bytes) : Z * bool :=
  memis_chain value [] (-1).
Definition h2o_qpack_lookup_scheme (value : bytes) : Z * bool :=
  memis_chain value [("http", 22); ("https", 23)] (22).
Definition h2o_qpack_lookup_status (value : bytes) : Z * bool :=
  memis_chain value [("103", 24); ("200", 25); ("304", 26); ("404", 27); ("503", 28); ("100", 63); ("204", 64); ("206", 65); ("302", 66); ("400", 67); ("403", 68); ("421", 69); ("425", 70); ("500", 71)] (24).
Definition h2o_qpack_lookup_accept (value : bytes) : Z * bool :=
  memis_chain value [("*/*", 29); ("application/dns-message", 30)] (29).
Definition h2o_qpack_lookup_accept_charset (value : bytes) : Z * bool :=
  memis_chain value [] (-1).
Definition h2o_qpack_lookup_accept_encoding (value : bytes) : Z * bool :=
  memis_chain value [("gzip, deflate, br", 31)] (31).
Definition h2o_qpack_lookup_accept_language (value : bytes) : Z * bool :=
  memis_chain value [("", 72)] (72).
Definition h2o_qpack_lookup_accept_ranges (value : bytes) : Z * bool :=
  memis_chain value [("bytes", 32)] (32).
Definition h2o_qpack_lookup_access_control_allow_credentials (value : bytes) : Z * bool :=
  memis_chain value [("FALSE", 73); ("TRUE", 74)] (73).
Definition h2o_qpack_lookup_access_control_allow_headers (value : bytes) : Z * bool :=
  memis_chain value [("cache-control", 33); ("content-type", 34); ("*", 75)] (33).
Definition h2o_qpack_lookup_access_control_allow_methods (value : bytes) : Z * bool :=
  memis_chain value [("get", 76); ("get, post, options", 77); ("options", 78)] (76).
Definition h2o_qpack_lookup_access_control_allow_origin (value : bytes) : Z * bool :=
  memis_chain value [("*", 35)] (35).
Definition h2o_qpack_lookup_access_control_expose_headers (value : bytes) : Z * bool :=
  memis_chain value [("content-length", 79)] (79).
Definition h2o_qpack_lookup_access_control_request_headers (value : bytes) : Z * bool :=
  memis_chain value [("content-type", 80)] (80).
Definition h2o_qpack_lookup_access_control_request_method (value : bytes) : Z * bool :=
  memis_chain value [("get", 81); ("post", 82)] (81).
Definition h2o_qpack_lookup_age (value : bytes) : Z * bool :=
  memis_chain value [("0", 2)] (2).
Definition h2o_qpack_lookup_allow (value : bytes) : Z * bool :=
  memis_chain value [] (-1).
Definition h2o_qpack_lookup_alt_svc (value : bytes) : Z * bool :=
  memis_chain value [("clear", 83)] (83).
Definition h2o_qpack_lookup_authorization (value : bytes) : Z * bool :=
  memis_chain value [("", 84)] (84).
Definition h2o_qpack_lookup_cache_control (value : bytes) : Z * bool :=
  memis_chain value [("max-age=0", 36); ("max-age=2592000", 37); ("max-age=604800", 38); ("no-cache", 39); ("no-store", 40); ("public, max-age=31536000", 41)] (36).
Definition h2o_qpack_lookup_cache_digest (value : bytes) : Z * bool :=
  memis_chain value [] (-1).
Definition h2o_qpack_lookup_connection (value : bytes) : Z * bool :=
  memis_chain value [] (-1).
Definition h2o_qpack_lookup_content_disposition (value : bytes) : Z * bool :=
  memis_chain value [("", 3)] (3).
Definition h2o_qpack_lookup_content_encoding (value : bytes) : Z * bool :=
  memis_chain value [("br", 42); ("gzip", 43)] (42).
Definition h2o_qpack_lookup_content_language (value : bytes) : Z * bool :=
  memis_chain value [] (-1).
Definition h2o_qpack_lookup_content_length (value : bytes) : Z * bool :=
  memis_chain value [("0", 4)] (4).
Definition h2o_qpack_lookup_content_location (value : bytes) : Z * bool :=
  memis_chain value [] (-1).
Definition h2o_qpack_lookup_content_range (value : bytes) : Z * bool :=
  memis_chain value [] (-1).
Definition h2o_qpack_lookup_content_security_policy (value : bytes) : Z * bool :=
  memis_chain value [("script-src 'none'; object-src 'none'; base-uri 'none'", 85)] (85).
Definition h2o_qpack_lookup_content_type (value : bytes) : Z * bool :=
  memis_chain value [("application/dns-message", 44); ("application/javascript", 45); ("application/json", 46); ("application/x-www-form-urlencoded", 47); ("image/gif", 48); ("image/jpeg", 49); ("image/png", 50); ("text/css", 51); ("text/html; charset=utf-8", 52); ("text/plain", 53); ("text/plain;charset=utf-8", 54)] (44).
Definition h2o_qpack_lookup_cookie (value : bytes) : Z * bool :=
  memis_chain value [("", 5)] (5).
Definition h2o_qpack_lookup_datagram_flow_id (value : bytes) : Z * bool :=
  memis_chain value [] (-1).
Definition h2o_qpack_lookup_date (value : bytes) : Z * bool :=
  memis_chain value [("", 6)] (6).
Definition h2o_qpack_lookup_early_data (value : bytes) : Z * bool :=
  memis_chain value [("1", 86)] (86).
Definition h2o_qpack_lookup_etag (value : bytes) : Z * bool :=
  memis_chain value [("", 7)] (7).
Definition h2o_qpack_lookup_expect (value : bytes) : Z * bool :=
  memis_chain value [] (-1).
Definition h2o_qpack_lookup_expect_ct (value : bytes) : Z * bool :=
  memis_chain value [("", 87)] (87).
Definition h2o_qpack_lookup_expires (value : bytes) : Z * bool :=
  memis_chain value [] (-1).
Definition h2o_qpack_lookup_forwarded (value : bytes) : Z * bool :=
  memis_chain value [("", 88)] (88).
Definition h2o_qpack_lookup_from (value : bytes) : Z * bool :=
  memis_chain value [] (-1).
Definition h2o_qpack_lookup_host (value : bytes) : Z * bool :=
  memis_chain value [] (-1).
Definition h2o_qpack_lookup_http2_settings (value : bytes) : Z * bool :=
  memis_chain value [] (-1).
Definition h2o_qpack_lookup_if_match (value : bytes) : Z * bool :=
  memis_chain value [] (-1).
Definition h2o_qpack_lookup_if_modified_since (value : bytes) : Z * bool :=
  memis_chain value [("", 8)] (8).
Definition h2o_qpack_lookup_if_none_match (value : bytes) : Z * bool :=
  memis_chain value [("", 9)] (9).
Definition h2o_qpack_lookup_if_range (value : bytes) : Z * bool :=
  memis_chain value [("", 89)] (89).
Definition h2o_qpack_lookup_if_unmodified_since (value : bytes) : Z * bool :=
  memis_chain value [] (-1).
Definition h2o_qpack_lookup_keep_alive (value : bytes) : Z * bool :=
  memis_chain value [] (-1).
Definition h2o_qpack_lookup_last_modified (value : bytes) : Z * bool :=
  memis_chain value [("", 10)] (10).
Definition h2o_qpack_lookup_link (value : bytes) : Z * bool :=
  memis_chain value [("", 11)] (11).
Definition h2o_qpack_lookup_location (value : bytes) : Z * bool :=
  memis_chain value [("", 12)] (12).
Definition h2o_qpack_lookup_max_forwards (value : bytes) : Z * bool :=
  memis_chain value [] (-1).
Definition h2o_qpack_lookup_no_early_hints (value : bytes) : Z * bool :=
  memis_chain value [] (-1).
Definition h2o_qpack_lookup_origin (value : bytes) : Z * bool :=
  memis_chain value [("", 90)] (90).
Definition h2o_qpack_lookup_priority (value : bytes) : Z * bool :=
  memis_chain value [] (-1).
Definition h2o_qpack_lookup_proxy_authenticate (value : bytes) : Z * bool :=
  memis_chain value [] (-1).
Definition h2o_qpack_lookup_proxy_authorization (value : bytes) : Z * bool :=
  memis_chain value [] (-1).
Definition h2o_qpack_lookup_proxy_connection (value : bytes) : Z * bool :=
  memis_chain value [] (-1).
Definition h2o_qpack_lookup_purpose (value : bytes) : Z * bool :=
  memis_chain value [("prefetch", 91)] (91).
Definition h2o_qpack_lookup_range (value : bytes) : Z * bool :=
  memis_chain value [("bytes=0-", 55)] (55).
Definition h2o_qpack_lookup_referer (value : bytes) : Z * bool :=
  memis_chain value [("", 13)] (13).
Definition h2o_qpack_lookup_refresh (value : bytes) : Z * bool :=
  memis_chain value [] (-1).
Definition h2o_qpack_lookup_retry_after (value : bytes) : Z * bool :=
  memis_chain value [] (-1).
Definition h2o_qpack_lookup_server (value : bytes) : Z * bool :=
  memis_chain value [("", 92)] (92).
Definition h2o_qpack_lookup_set_cookie (value : bytes) : Z * bool :=
  memis_chain value [("", 14)] (14).
Definition h2o_qpack_lookup_strict_transport_security (value : bytes) : Z * bool :=
  memis_chain value [("max-age=31536000", 56); ("max-age=31536000; includesubdomains", 57); ("max-age=31536000; includesubdomains; preload", 58)] (56).
Definition h2o_qpack_lookup_te (value : bytes) : Z * bool :=
  memis_chain value [] (-1).
Definition h2o_qpack_lookup_timing_allow_origin (value : bytes) : Z * bool :=
  memis_chain value [("*", 93)] (93).
Definition h2o_qpack_lookup_transfer_encoding (value : bytes) : Z * bool :=
  memis_chain value [] (-1).
Definition h2o_qpack_lookup_upgrade (value : bytes) : Z * bool :=
  memis_chain value [] (-1).
Definition h2o_qpack_lookup_upgrade_insecure_requests (value : bytes) : Z * bool :=
  memis_chain value [("1", 94)] (94).
Definition h2o_qpack_lookup_user_agent (value : bytes) : Z * bool :=
  memis_chain value [("", 95)] (95).
Definition h2o_qpack_lookup_vary (value : bytes) : Z * bool :=
  memis_chain value [("accept-encoding", 59); ("origin", 60)] (59).
Definition h2o_qpack_lookup_via (value : bytes) : Z * bool :=
  memis_chain value [] (-1).
Definition h2o_qpack_lookup_www_authenticate (value : bytes) : Z * bool :=
  memis_chain value [] (-1).
Definition h2o_qpack_lookup_x_compress_hint (value : bytes) : Z * bool :=
  memis_chain value [] (-1).
Definition h2o_qpack_lookup_x_content_type_options (value : bytes) : Z * bool :=
  memis_chain value [("nosniff", 61)] (61).
Definition h2o_qpack_lookup_x_forwarded_for (value : bytes) : Z * bool :=
  memis_chain value [("", 96)] (96).
Definition h2o_qpack_lookup_x_frame_options (value : bytes) : Z * bool :=
  memis_chain value [("deny", 97); ("sameorigin", 98)] (97).
Definition h2o_qpack_lookup_x_reproxy_url (value : bytes) : Z * bool :=
  memis_chain value [] (-1).
Definition h2o_qpack_lookup_x_traffic (value : bytes) : Z * bool :=
  memis_chain value [] (-1).
Definition h2o_qpack_lookup_x_xss_protection (value : bytes) : Z * bool :=
  memis_chain value [("1; mode=block", 62)] (62).

Definition h2o_qpack_lookup_static : list (bytes -> Z * bool) := [
  h2o_qpack_lookup_authority;
  h2o_qpack_lookup_method;
  h2o_qpack_lookup_path;
  h2o_qpack_lookup_protocol;
  h2o_qpack_lookup_scheme;
  h2o_qpack_lookup_status;
  h2o_qpack_lookup_accept;
  h2o_qpack_lookup_accept_charset;
  h2o_qpack_lookup_accept_encoding;
  h2o_qpack_lookup_accept_language;
  h2o_qpack_lookup_accept_ranges;
  h2o_qpack_lookup_access_control_allow_credentials;
  h2o_qpack_lookup_access_control_allow_headers;
  h2o_qpack_lookup_access_control_allow_methods;
  h2o_qpack_lookup_access_control_allow_origin;
  h2o_qpack_lookup_access_control_expose_headers;
  h2o_qpack_lookup_access_control_request_headers;
  h2o_qpack_lookup_access_control_request_method;
  h2o_qpack_lookup_age;
  h2o_qpack_lookup_allow;
  h2o_qpack_lookup_alt_svc;
  h2o_qpack_lookup_authorization;
  h2o_qpack_lookup_cache_control;
  h2o_qpack_lookup_cache_digest;
  h2o_qpack_lookup_connection;
  h2o_qpack_lookup_content_disposition;
  h2o_qpack_lookup_content_encoding;
  h2o_qpack_lookup_content_language;
  h2o_qpack_lookup_content_length;
  h2o_qpack_lookup_content_location;
  h2o_qpack_lookup_content_range;
  h2o_qpack_lookup_content_security_policy;
  h2o_qpack_lookup_content_type;
  h2o_qpack_lookup_cookie;
  h2o_qpack_lookup_datagram_flow_id;
  h2o_qpack_lookup_date;
  h2o_qpack_lookup_early_data;
  h2o_qpack_lookup_etag;
  h2o_qpack_lookup_expect;
  h2o_qpack_lookup_expect_ct;
  h2o_qpack_lookup_expires;
  h2o_qpack_lookup_forwarded;
  h2o_qpack_lookup_from;
  h2o_qpack_lookup_host;
  h2o_qpack_lookup_http2_settings;
  h2o_qpack_lookup_if_match;
  h2o_qpack_lookup_if_modified_since;
  h2o_qpack_lookup_if_none_match;
  h2o_qpack_lookup_if_range;
  h2o_qpack_lookup_if_unmodified_since;
  h2o_qpack_lookup_keep_alive;
  h2o_qpack_lookup_last_modified;
  h2o_qpack_lookup_link;
  h2o_qpack_lookup_location;
  h2o_qpack_lookup_max_forwards;
  h2o_qpack_lookup_no_early_hints;
  h2o_qpack_lookup_origin;
  h2o_qpack_lookup_priority;
  h2o_qpack_lookup_proxy_authenticate;
  h2o_qpack_lookup_proxy_authorization;
  h2o_qpack_lookup_proxy_connection;
  h2o_qpack_lookup_purpose;
  h2o_qpack_lookup_range;
  h2o_qpack_lookup_referer;
  h2o_qpack_lookup_refresh;
  h2o_qpack_lookup_retry_after;
  h2o_qpack_lookup_server;
  h2o_qpack_lookup_set_cookie;
  h2o_qpack_lookup_strict_transport_security;
  h2o_qpack_lookup_te;
  h2o_qpack_lookup_timing_allow_origin;
  h2o_qpack_lookup_transfer_encoding;
  h2o_qpack_lookup_upgrade;
  h2o_qpack_lookup_upgrade_insecure_requests;
  h2o_qpack_lookup_user_agent;
  h2o_qpack_lookup_vary;
  h2o_qpack_lookup_via;
  h2o_qpack_lookup_www_authenticate;
  h2o_qpack_lookup_x_compress_hint;
  h2o_qpack_lookup_x_content_type_options;
  h2o_qpack_lookup_x_forwarded_for;
  h2o_qpack_lookup_x_frame_options;
  h2o_qpack_lookup_x_reproxy_url;
  h2o_qpack_lookup_x_traffic;
  h2o_qpack_lookup_x_xss_protection].

(** ** The lookup functions search the static table *)

(** What a lookup for the name [t] promises. *)
Definition lookup_ok (t : Z) (f : bytes -> Z * bool) : Prop :=
  forall value,
    let '(i, is_exact) := f value in
    if is_exact then 0 <= i /\ h2o_qpack_static_table !! Z.to_nat i = Some (t, value)
    else ((t, value) ∉ h2o_qpack_static_table) /\
         (if i =? -1 then Forall (fun e => e.1 <> t) h2o_qpack_static_table
          else 0 <= i /\ exists v, h2o_qpack_static_table !! Z.to_nat i = Some (t, v)).

Definition chain_ok (t : Z) (tests : list (string * Z)) (dflt : Z) : bool :=
  forallb (fun e => (0 <=? e.2) &&
             bool_decide (h2o_qpack_static_table !! Z.to_nat e.2 = Some (t, lit e.1))) tests
  && forallb (fun e => bool_decide (e.1 <> t) || existsb (fun s => bool_decide (lit s.1 = e.2)) tests)
       h2o_qpack_static_table
  && (if dflt =? -1 then forallb (fun e => bool_decide (e.1 <> t)) h2o_qpack_static_table
      else (0 <=? dflt) && bool_decide ((fst <$> (h2o_qpack_static_table !! Z.to_nat dflt)) = Some t)).

Lemma memis_chain_cases value tests dflt :
  (exists s i, (s, i) ∈ tests /\ value = lit s /\ memis_chain value tests dflt = (i, true)) \/
  (Forall (fun e => value <> lit e.1) tests /\ memis_chain value tests dflt = (dflt, false)).
Proof.
  induction tests as [|[s i] tests IH]; simpl; [by right|].
  case_bool_decide; [left; exists s, i; by rewrite list_elem_of_In; simpl; auto|].
  destruct IH as [(s' & i' & Hin & Hv & Hm)|[Hf Hm]].
  - left. exists s', i'. rewrite elem_of_cons. auto.
  - right. split; [by constructor|done].
Qed.

Lemma chain_lookup_ok t tests dflt :
  chain_ok t tests dflt = true -> lookup_ok t (fun value => memis_chain value tests dflt).
Proof.
  unfold chain_ok. rewrite !andb_true_iff, !forallb_forall. intros [[Hex Hall] Hd] value.
  destruct (memis_chain_cases value tests dflt) as [(s & i & Hin & -> & ->)|[Hf ->]].
  - specialize (Hex (s, i)). rewrite <- list_elem_of_In in Hex. specialize (Hex Hin).
    rewrite andb_true_iff, bool_decide_eq_true in Hex. simpl in Hex. split; [lia|apply Hex].
  - split.
    + intros Hin. specialize (Hall (t, value)). rewrite <- list_elem_of_In in Hall.
      specialize (Hall Hin). rewrite orb_true_iff, existsb_exists in Hall.
      destruct Hall as [Hne|(e & He & Hv)].
      * by apply bool_decide_eq_true in Hne.
      * rewrite Forall_forall in Hf. rewrite <- list_elem_of_In in He.
        apply bool_decide_eq_true in Hv. by apply (Hf e He).
    + destruct (dflt =? -1).
      * rewrite forallb_forall in Hd. apply Forall_forall. intros e He.
        specialize (Hd e). rewrite <- list_elem_of_In in Hd. apply bool_decide_eq_true in Hd; done.
      * rewrite andb_true_iff, bool_decide_eq_true in Hd. destruct Hd as [? Hd]. split; [lia|].
        destruct (h2o_qpack_static_table !! Z.to_nat dflt) as [[t' v]|]; [|done].
        simpl in Hd. exists v. congruence.
Qed.

Lemma qpack_lookup_static_ok t f :
  h2o_qpack_lookup_static !! t = Some f -> lookup_ok (Z.of_nat t) f.
Proof.
  intros Hf.
  do 85 (destruct t as [|t];
    [cbn in Hf; injection Hf as <-; apply chain_lookup_ok; vm_compute; reflexivity|]).
  done.
Qed.

(** ** Properties *)

(** Each of the lookup functions of the QPACK static table agrees with the table: an exact
    match is an entry with that name and value; otherwise no entry has both, and the index is
    an entry of that name, or -1 when the table has none. *)
Theorem qpack_static_lookup_exact (t : nat) (f : bytes -> Z * bool) (value : bytes) :
  h2o_qpack_lookup_static !! t = Some f ->
  let '(i, is_exact) := f value in
  if is_exact then 0 <= i /\ h2o_qpack_static_table !! Z.to_nat i = Some (Z.of_nat t, value)
  else ((Z.of_nat t, value) ∉ h2o_qpack_static_table) /\
       (if i =? -1 then Forall (fun e => e.1 <> Z.of_nat t) h2o_qpack_static_table
        else 0 <= i /\ exists v, h2o_qpack_static_table !! Z.to_nat i = Some (Z.of_nat t, v)).
Proof. intros H. exact (qpack_lookup_static_ok t f H value). Qed.

Lemma qpack_static_lookup_exact_witness :
  let '(i, is_exact) := h2o_qpack_lookup_method (lit "GET") in
  if is_exact then 0 <= i /\ h2o_qpack_static_table !! Z.to_nat i = Some (Z.of_nat 1, lit "GET")
  else ((Z.of_nat 1, lit "GET") ∉ h2o_qpack_static_table) /\
       (if i =? -1 then Forall (fun e => e.1 <> Z.of_nat 1) h2o_qpack_static_table
        else 0 <= i /\ exists v, h2o_qpack_static_table !! Z.to_nat i = Some (Z.of_nat 1, v)).
Proof. exact (qpack_static_lookup_exact 1 h2o_qpack_lookup_method (lit "GET") eq_refl). Defined.
