(* ===== verification/HpackInt.v ===== *)
(** * HPACK integers (lib/http2/hpack.c)

    The prefixed variable-length integers of RFC 7541 5.1, used by HPACK and QPACK:
    [h2o_hpack_decode_int] and [h2o_hpack_encode_int].  A source cursor
    [( *src, src_end)] is the list of the bytes that are left; the decoder returns the
    [int64_t] value (or a negative error code) and the advanced cursor. *)
From S2P Require Import Prelude.
From Stdlib Require Import ZArith Lia.
From stdpp Require Import base list numbers.
Open Scope Z_scope.

(** Error codes of include/h2o/http2_common.h. *)
Definition H2O_HTTP2_ERROR_NONE : Z := 0.
Definition H2O_HTTP2_ERROR_PROTOCOL : Z := -1.
Definition H2O_HTTP2_ERROR_INTERNAL : Z := -2.
Definition H2O_HTTP2_ERROR_FLOW_CONTROL : Z := -3.
Definition H2O_HTTP2_ERROR_STREAM_CLOSED : Z := -5.
Definition H2O_HTTP2_ERROR_FRAME_SIZE : Z := -6.
Definition H2O_HTTP2_ERROR_COMPRESSION : Z := -9.
Definition H2O_HTTP2_ERROR_INVALID_HEADER_CHAR : Z := -254.
Definition H2O_HTTP2_ERROR_INCOMPLETE : Z := -255.

(** ** Operations *)

(** The octets after the prefix: [n] iterations of the [for] loop are left ([shift] is
    7 * (8 - n)), then the ninth octet. *)
Fixpoint decode_int_loop (n : nat) (shift value : Z) (src : bytes) : Z * bytes :=
  match n with
  | S n =>
      match src with
      | [] => (H2O_HTTP2_ERROR_INCOMPLETE, [])
      | b :: src' =>
          let value := wrap64 (value + wrap64 (Z.shiftl (Z.land b 127) shift)) in
          if Z.land b 128 =? 0 then (to_int64 value, src')
          else decode_int_loop n (shift + 7) value src'
      end
  | O =>
      match src with
      | [] => (H2O_HTTP2_ERROR_INCOMPLETE, [])
      | b :: src' =>
          if negb (Z.land b 128 =? 0) then (H2O_HTTP2_ERROR_COMPRESSION, src)
          else
            let value := wrap64 (value + wrap64 (Z.shiftl (Z.land b 127) shift)) in
            if INT64_MAX <? value then (H2O_HTTP2_ERROR_COMPRESSION, src')
            else (to_int64 value, src')
      end
  end.

Definition h2o_hpack_decode_int (src : bytes) (prefix_bits : Z) : Z * bytes :=
  let prefix_max := wrap8 (Z.shiftl 1 prefix_bits - 1) in
  match src with
  | [] => (H2O_HTTP2_ERROR_INCOMPLETE, [])
  | b :: src' =>
      let value := Z.land b prefix_max in
      if negb (value =? prefix_max) then (value, src')
      else decode_int_loop 8 0 prefix_max src'
  end.

Definition encode_int_is_onebyte (value prefix_bits : Z) : bool :=
  value <? Z.shiftl 1 prefix_bits - 1.

(** [for (; value >= 128; value >>= 7) *dst++ = 0x80 | value; *dst++ = value;]
    A non-negative [int64_t] takes at most nine octets, the first eight of which go
    through the loop. *)
Fixpoint encode_int_loop (fuel : nat) (value : Z) : bytes :=
  match fuel with
  | O => []
  | S fuel =>
      if 128 <=? value
      then wrap8 (Z.lor 128 value) :: encode_int_loop fuel (Z.shiftr value 7)
      else [wrap8 value]
  end.

Definition encode_int_fuel : nat := 9.

(** [first] is the octet [*dst] holds on entry (the representation's pattern), to which
    the prefix is or-ed.  The assertion [value >= 0] sits in the branch where
    [value >= 2^prefix_bits - 1], so it cannot fail. *)
Definition h2o_hpack_encode_int (first value prefix_bits : Z) : bytes :=
  if encode_int_is_onebyte value prefix_bits then [wrap8 (Z.lor first value)]
  else
    let value := value - (Z.shiftl 1 prefix_bits - 1) in
    wrap8 (Z.lor first (Z.shiftl 1 prefix_bits - 1)) :: encode_int_loop encode_int_fuel value.

(** The pattern [first] leaves the [prefix_bits] low bits clear. *)
Definition prefix_clear (first prefix_bits : Z) : Prop :=
  is_byte first /\ first mod 2 ^ prefix_bits = 0.

(** ** Reference: the integer a representation denotes (RFC 7541 5.1), unbounded *)

Fixpoint rfc_tail (src : bytes) : option (Z * bytes) :=
  match src with
  | [] => None
  | b :: src' =>
      if b <? 128 then Some (b, src')
      else match rfc_tail src' with
           | Some (v, r) => Some (b - 128 + 128 * v, r)
           | None => None
           end
  end.

Definition rfc_int (src : bytes) (prefix_bits : Z) : option (Z * bytes) :=
  match src with
  | [] => None
  | b :: src' =>
      if b mod 2 ^ prefix_bits =? 2 ^ prefix_bits - 1
      then match rfc_tail src' with
           | Some (v, r) => Some (2 ^ prefix_bits - 1 + v, r)
           | None => None
           end
      else Some (b mod 2 ^ prefix_bits, src')
  end.

(** ** Round trip *)

Lemma pow7_succ k : 0 <= k -> 2 ^ (7 * (k + 1)) = 128 * 2 ^ (7 * k).
Proof.
  intros. replace (7 * (k + 1)) with (7 + 7 * k) by lia.
  now rewrite Z.pow_add_r by lia.
Qed.

(** One octet of a value, added at its place: no wrap-around below 2^63. *)
Lemma add_octet acc b shift :
  is_byte b -> 0 <= acc -> 0 <= shift -> acc + b mod 128 * 2 ^ shift <= INT64_MAX ->
  wrap64 (acc + wrap64 (Z.shiftl (Z.land b 127) shift)) = acc + b mod 128 * 2 ^ shift.
Proof.
  unfold INT64_MAX. intros Hb Hacc Hs Hle. rewrite land_127, Z.shiftl_mul_pow2 by lia.
  pose proof (Z.mod_pos_bound b 128 ltac:(lia)).
  pose proof (Z.pow_pos_nonneg 2 shift ltac:(lia) Hs).
  rewrite (wrap64_small (_ * _)) by nia. apply wrap64_small. nia.
Qed.

Lemma decode_encode_loop n : forall fuel shift acc v rest,
  (n < fuel)%nat -> shift = 7 * (8 - Z.of_nat n) -> 0 <= shift -> 0 <= acc ->
  0 <= v < 2 ^ (7 * (Z.of_nat n + 1)) -> acc + v * 2 ^ shift <= INT64_MAX ->
  decode_int_loop n shift acc (encode_int_loop fuel v ++ rest) = (acc + v * 2 ^ shift, rest).
Proof.
  induction n as [|n IH]; intros [|fuel] shift acc v rest Hf Hs Hs0 Hacc Hv Hle; try lia;
    simpl encode_int_loop; pose proof (Z.pow_pos_nonneg 2 shift ltac:(lia) Hs0).
  - change (2 ^ (7 * (Z.of_nat 0 + 1))) with 128 in Hv.
    destruct (Z.leb_spec 128 v); [lia|]. rewrite wrap8_small by (unfold is_byte; lia).
    simpl. rewrite land_128_byte by (unfold is_byte; lia).
    destruct (Z.ltb_spec v 128); [simpl|lia].
    rewrite add_octet, Z.mod_small by (rewrite ?Z.mod_small by lia; unfold is_byte; lia).
    destruct (Z.ltb_spec INT64_MAX (acc + v * 2 ^ shift)); [lia|].
    rewrite to_int64_small by nia. reflexivity.
  - rewrite Nat2Z.inj_succ in *. replace (Z.succ (Z.of_nat n) + 1) with (Z.of_nat n + 1 + 1) in Hv by lia.
    rewrite pow7_succ in Hv by lia.
    pose proof (Z.div_mod v 128 ltac:(lia)) as Hdm.
    pose proof (Z.mod_pos_bound v 128 ltac:(lia)).
    destruct (Z.leb_spec 128 v).
    + rewrite wrap8_lor_128. simpl.
      assert (Hb : is_byte (128 + v mod 128)) by (unfold is_byte; lia).
      assert (Hm : (128 + v mod 128) mod 128 = v mod 128).
      { rewrite <- Z.add_mod_idemp_l, Z.mod_same, Z.add_0_l, Z.mod_mod by lia. reflexivity. }
      rewrite land_128_byte by auto.
      destruct (Z.ltb_spec (128 + v mod 128) 128); [lia|].
      rewrite Z.shiftr_div_pow2 by lia. change (2 ^ 7) with 128.
      assert (Hp : 2 ^ (shift + 7) = 128 * 2 ^ shift) by (rewrite Z.pow_add_r by lia; lia).
      pose proof (Z.div_pos v 128 ltac:(lia) ltac:(lia)).
      rewrite add_octet, Hm by (rewrite ?Hm; auto; nia).
      pose proof (Z.div_lt_upper_bound v 128 (2 ^ (7 * (Z.of_nat n + 1))) ltac:(lia) ltac:(lia)).
      rewrite IH, Hp by (rewrite ?Hp; nia). f_equal. nia.
    + rewrite wrap8_small by (unfold is_byte; lia). simpl.
      rewrite land_128_byte by (unfold is_byte; lia).
      destruct (Z.ltb_spec v 128); [|lia].
      rewrite add_octet, Z.mod_small by (rewrite ?Z.mod_small by lia; unfold is_byte; lia).
      rewrite to_int64_small by nia. reflexivity.
Qed.

Lemma prefix_pow_bound n : 1 <= n <= 8 -> 2 <= 2 ^ n <= 256.
Proof.
  intros. split; [change 2 with (2 ^ 1) at 1|change 256 with (2 ^ 8)]; apply Z.pow_le_mono_r; lia.
Qed.

Lemma prefix_max_eq n : 1 <= n <= 8 -> wrap8 (Z.shiftl 1 n - 1) = 2 ^ n - 1.
Proof.
  intros. pose proof (prefix_pow_bound n ltac:(lia)).
  rewrite Z.shiftl_1_l. apply wrap8_small. unfold is_byte. lia.
Qed.

(** The first octet an integer is encoded into keeps the pattern and holds the prefix. *)
Lemma first_octet first n v :
  1 <= n <= 8 -> prefix_clear first n -> 0 <= v < 2 ^ n ->
  wrap8 (Z.lor first v) = first + v /\ (first + v) mod 2 ^ n = v.
Proof.
  intros Hn [Hb Hc] Hv. pose proof (prefix_pow_bound n Hn).
  pose proof (Z.div_mod first (2 ^ n) ltac:(lia)) as Hd. rewrite Hc, Z.add_0_r in Hd.
  assert (Hf : first = Z.shiftl (first / 2 ^ n) n) by (rewrite Z.shiftl_mul_pow2 by lia; lia).
  assert (He : Z.lor first v = first + v).
  { rewrite Hf, Z.lor_comm, lor_shiftl_add by lia. lia. }
  split.
  - rewrite He. apply wrap8_small. unfold is_byte in *.
    assert (2 ^ 8 = 2 ^ (8 - n) * 2 ^ n) by (rewrite <- Z.pow_add_r by lia; f_equal; lia).
    change (2 ^ 8) with 256 in *.
    assert (first / 2 ^ n < 2 ^ (8 - n)) by (apply Z.div_lt_upper_bound; lia). nia.
  - rewrite Hd, Z.add_comm, (Z.mul_comm (2 ^ n)), Z.mod_add, Z.mod_small; lia.
Qed.

Lemma decode_int_cons b src n :
  1 <= n <= 8 ->
  h2o_hpack_decode_int (b :: src) n =
  if b mod 2 ^ n =? 2 ^ n - 1 then decode_int_loop 8 0 (2 ^ n - 1) src else (b mod 2 ^ n, src).
Proof.
  intros Hn. unfold h2o_hpack_decode_int. rewrite (prefix_max_eq n Hn).
  pose proof (land_mask b n ltac:(lia)) as E. rewrite Z.shiftl_1_l in E. rewrite E.
  now destruct (_ =? _).
Qed.

Lemma decode_encode_int first v n rest :
  1 <= n <= 8 -> prefix_clear first n -> 0 <= v <= INT64_MAX ->
  h2o_hpack_decode_int (h2o_hpack_encode_int first v n ++ rest) n = (v, rest).
Proof.
  intros Hn Hp Hv. pose proof (prefix_pow_bound n Hn).
  unfold h2o_hpack_encode_int, encode_int_is_onebyte. rewrite Z.shiftl_1_l.
  destruct (Z.ltb_spec v (2 ^ n - 1)); rewrite <- app_comm_cons, decode_int_cons by auto.
  - destruct (first_octet first n v Hn Hp ltac:(lia)) as [-> ->].
    destruct (Z.eqb_spec v (2 ^ n - 1)); [lia|reflexivity].
  - destruct (first_octet first n (2 ^ n - 1) Hn Hp ltac:(lia)) as [-> ->].
    unfold INT64_MAX, encode_int_fuel in *.
    rewrite Z.eqb_refl, decode_encode_loop by (unfold INT64_MAX; lia). f_equal. lia.
Qed.

(** ** Size of an encoded integer *)

Lemma encode_int_loop_length k fuel v :
  0 <= v < 2 ^ (7 * (Z.of_nat k + 1)) -> (0 < fuel)%nat ->
  (1 <= length (encode_int_loop fuel v) <= S k)%nat.
Proof.
  revert k v. induction fuel as [|fuel IH]; intros k v Hv Hf; [lia|]. simpl.
  destruct (Z.leb_spec 128 v); simpl; [|lia].
  destruct k as [|k]; [change (2 ^ _) with 128 in Hv; lia|].
  destruct fuel as [|fuel]; [simpl; lia|].
  enough (1 <= length (encode_int_loop (S fuel) (Z.shiftr v 7)) <= S k)%nat by lia.
  apply IH; [|lia]. rewrite Z.shiftr_div_pow2 by lia. change (2 ^ 7) with 128.
  replace (Z.of_nat (S k) + 1) with (Z.of_nat k + 1 + 1) in Hv by lia.
  rewrite pow7_succ in Hv by lia.
  split; [apply Z.div_pos; lia|apply Z.div_lt_upper_bound; lia].
Qed.

Lemma encode_int_length first v n :
  1 <= n <= 8 -> 0 <= v <= INT64_MAX ->
  1 <= len (h2o_hpack_encode_int first v n) <= 10.
Proof.
  intros Hn Hv. pose proof (prefix_pow_bound n Hn).
  unfold h2o_hpack_encode_int, encode_int_is_onebyte, INT64_MAX in *. rewrite Z.shiftl_1_l.
  destruct (Z.ltb_spec v (2 ^ n - 1)); autorewrite with h2o; [lia|].
  pose proof (encode_int_loop_length 8 encode_int_fuel (v - (2 ^ n - 1))) as Hl.
  unfold len. unfold encode_int_fuel in *. simpl Z.of_nat in Hl. lia.
Qed.

Lemma encode_int_loop_ok fuel v : bytes_ok (encode_int_loop fuel v).
Proof.
  revert v. induction fuel; simpl; intros; [constructor|].
  bcase; repeat constructor; auto; apply is_byte_wrap8.
Qed.

Lemma encode_int_ok first v n : bytes_ok (h2o_hpack_encode_int first v n).
Proof.
  unfold h2o_hpack_encode_int. bcase; repeat constructor; try apply is_byte_wrap8.
  all: apply encode_int_loop_ok.
Qed.
#[export] Hint Resolve encode_int_ok : h2o.

(** ** What the decoder returns on every input *)

(** The three outcomes of decoding the tail of an integer when [n] more octets than the
    next one are allowed: the denoted value, a truncated input, or a representation the
    decoder refuses (a value that does not fit [int64_t], or too many octets). *)
Definition tail_outcome (n : nat) (acc shift : Z) (src : bytes) (res : Z * bytes) : Prop :=
  (exists w used, rfc_tail src = Some (w, res.2) /\ res.1 = acc + w * 2 ^ shift /\
     0 <= res.1 <= INT64_MAX /\ src = used ++ res.2 /\ (1 <= length used <= S n)%nat) \/
  (res.1 = H2O_HTTP2_ERROR_INCOMPLETE /\ rfc_tail src = None /\ (length src <= n)%nat) \/
  (res.1 = H2O_HTTP2_ERROR_COMPRESSION /\
     ((exists w r, rfc_tail src = Some (w, r) /\ INT64_MAX < acc + w * 2 ^ shift) \/
      ((n < length src)%nat /\ Forall (fun b => 128 <= b) (take (S n) src)))).

Lemma rfc_tail_last b src : b < 128 -> rfc_tail (b :: src) = Some (b, src).
Proof. intros. simpl. destruct (Z.ltb_spec b 128); [done|lia]. Qed.

(** A continuation octet in front of a tail keeps the outcome. *)
Lemma tail_outcome_cons n acc shift b src res :
  0 <= shift -> 128 <= b < 256 ->
  tail_outcome n (acc + b mod 128 * 2 ^ shift) (shift + 7) src res ->
  tail_outcome (S n) acc shift (b :: src) res.
Proof.
  intros Hs Hb H.
  assert (Hm : b mod 128 = b - 128).
  { symmetry. apply (Z.mod_unique b 128 1); lia. }
  assert (Hp : 2 ^ (shift + 7) = 128 * 2 ^ shift) by (rewrite Z.pow_add_r by lia; lia).
  assert (Hr : forall w r, rfc_tail src = Some (w, r) ->
                      rfc_tail (b :: src) = Some (b - 128 + 128 * w, r)).
  { intros w r Hw. simpl. rewrite Hw. destruct (Z.ltb_spec b 128); [lia|done]. }
  destruct H as [(w & used & Hw & Hv & Hbd & Happ & Hl)|[(Hv & Hw & Hl)|(Hv & Hc)]].
  - left. exists (b - 128 + 128 * w), (b :: used). rewrite (Hr _ _ Hw). simpl.
    repeat split; try lia. by rewrite Happ at 1.
  - right; left. split; [done|]. simpl. rewrite Hw.
    split; [|lia]. destruct (Z.ltb_spec b 128); [lia|done].
  - right; right. split; [done|]. destruct Hc as [(w & r & Hw & Hgt)|[Hl Hf]].
    + left. exists (b - 128 + 128 * w), r. split; [by apply Hr|]. rewrite Hp, Hm in Hgt. lia.
    + right. split; [simpl; lia|]. simpl. constructor; [lia|done].
Qed.

Lemma decode_int_loop_spec n : forall shift acc src,
  (n <= 8)%nat -> shift = 7 * (8 - Z.of_nat n) -> 0 <= acc < 2 ^ shift + 255 -> bytes_ok src ->
  tail_outcome n acc shift src (decode_int_loop n shift acc src).
Proof.
  induction n as [|n IH]; intros shift acc src Hn Hs Hacc Hsrc;
    (destruct Hsrc as [|b src Hb Hsrc]; [right; left; simpl; repeat split; lia|]);
    unfold is_byte in Hb; simpl; rewrite land_128_byte by done;
    pose proof (Z.mod_pos_bound b 128 ltac:(lia)).
  - replace shift with 56 in * by lia.
    destruct (Z.ltb_spec b 128); simpl;
      [|right; right; split; [done|]; right; simpl; split; [lia|by repeat constructor]].
    rewrite land_127, (Z.mod_small b 128), Z.shiftl_mul_pow2 by lia.
    rewrite (wrap64_small (b * _)), wrap64_small by lia.
    destruct (Z.ltb_spec INT64_MAX (acc + b * 2 ^ 56)).
    + right; right. split; [done|]. left. exists b, src. by rewrite rfc_tail_last.
    + left. exists b, [b]. rewrite rfc_tail_last, to_int64_small by lia.
      repeat split; simpl; try lia; done.
  - assert (Hpw : 2 ^ shift <= 2 ^ 49) by (apply Z.pow_le_mono_r; lia).
    pose proof (Z.pow_pos_nonneg 2 shift ltac:(lia) ltac:(lia)).
    rewrite add_octet by (unfold INT64_MAX; unfold is_byte; nia).
    destruct (Z.ltb_spec b 128).
    + rewrite (Z.mod_small b 128) in * by lia. left. exists b, [b].
      rewrite rfc_tail_last, to_int64_small by (unfold INT64_MAX; nia).
      repeat split; simpl; try lia; try done; unfold INT64_MAX; nia.
    + apply tail_outcome_cons; [lia|lia|]. apply IH; try lia; [|done].
      rewrite (Z.pow_add_r 2 shift 7) by lia. nia.
Qed.

Lemma decode_int_outcome src n v src' :
  1 <= n <= 8 -> bytes_ok src -> h2o_hpack_decode_int src n = (v, src') ->
  (0 <= v <= INT64_MAX /\ rfc_int src n = Some (v, src') /\
     exists used, src = used ++ src' /\ (1 <= length used <= 10)%nat) \/
  (v = H2O_HTTP2_ERROR_INCOMPLETE /\ rfc_int src n = None /\ (length src <= 9)%nat) \/
  (v = H2O_HTTP2_ERROR_COMPRESSION /\
     ((exists w r, rfc_int src n = Some (w, r) /\ INT64_MAX < w) \/
      ((10 <= length src)%nat /\ Forall (fun b => 128 <= b) (take 9 (tail src))))).
Proof.
  intros Hn Hok Hd. pose proof (prefix_pow_bound n Hn).
  destruct Hok as [|b src Hb Hok].
  { inv Hd. right; left. simpl. repeat split; lia. }
  rewrite decode_int_cons in Hd by done. unfold rfc_int.
  pose proof (Z.mod_pos_bound b (2 ^ n) ltac:(lia)).
  destruct (Z.eqb_spec (b mod 2 ^ n) (2 ^ n - 1)).
  - pose proof (decode_int_loop_spec 8 0 (2 ^ n - 1) src ltac:(lia) ltac:(lia) ltac:(simpl; lia) Hok) as Ho.
    rewrite Hd in Ho. unfold tail_outcome in Ho. rewrite Z.pow_0_r in Ho. cbn [fst snd] in Ho.
    destruct Ho as [(w & used & Hw & -> & Hbd & -> & Hl)|[(-> & Hw & Hl)|(-> & Hc)]].
    + left. rewrite Hw, Z.mul_1_r in *. repeat split; [lia|lia|].
      exists (b :: used). split; [done|simpl; lia].
    + right; left. rewrite Hw. repeat split. simpl. lia.
    + right; right. split; [done|]. destruct Hc as [(w & r & Hw & Hgt)|[Hl Hf]].
      * left. exists (2 ^ n - 1 + w), r. rewrite Hw. split; [done|lia].
      * right. split; [simpl; lia|done].
  - inv Hd. left. repeat split; [lia|unfold INT64_MAX; lia|].
    exists [b]. split; [done|simpl; lia].
Qed.

(** More input changes nothing but an incomplete integer. *)
Lemma decode_int_loop_app n : forall shift acc src t v rest,
  decode_int_loop n shift acc src = (v, rest) -> v <> H2O_HTTP2_ERROR_INCOMPLETE ->
  decode_int_loop n shift acc (src ++ t) = (v, rest ++ t).
Proof.
  induction n as [|n IH]; intros shift acc [|b src] t v rest; simpl; try (intros [= <- <-]; done).
  - destruct (negb _); [by intros [= <- <-]|]. destruct (_ <? _); by intros [= <- <-].
  - destruct (_ =? 0); [by intros [= <- <-]|]. apply IH.
Qed.

Lemma decode_int_app src t n v rest :
  h2o_hpack_decode_int src n = (v, rest) -> v <> H2O_HTTP2_ERROR_INCOMPLETE ->
  h2o_hpack_decode_int (src ++ t) n = (v, rest ++ t).
Proof.
  unfold h2o_hpack_decode_int. destruct src as [|b src]; [by intros [= <- <-]|].
  cbn [app]. cbv zeta. destruct (negb _); [by intros [= <- <-]|]. apply decode_int_loop_app.
Qed.

Lemma encode_int_nonempty first v n rest : h2o_hpack_encode_int first v n ++ rest <> [].
Proof. unfold h2o_hpack_encode_int. destruct (encode_int_is_onebyte v n); discriminate. Qed.
#[export] Hint Resolve encode_int_nonempty : h2o.

(** ** Properties *)

(** An integer up to [INT64_MAX] that is encoded after any leading bits, in any prefix of one
    to eight bits, takes at most ten octets and is decoded to itself, with the cursor at what
    follows. *)
Theorem encode_int_roundtrip first v n rest :
  1 <= n <= 8 -> prefix_clear first n -> 0 <= v <= INT64_MAX ->
  h2o_hpack_decode_int (h2o_hpack_encode_int first v n ++ rest) n = (v, rest) /\
  1 <= len (h2o_hpack_encode_int first v n) <= 10 /\ bytes_ok (h2o_hpack_encode_int first v n).
Proof.
  intros Hn Hp Hv. split_and!; [by apply decode_encode_int|by apply encode_int_length..|apply encode_int_ok].
Qed.

Lemma encode_int_roundtrip_witness :
  h2o_hpack_decode_int (h2o_hpack_encode_int 0x20 1337 5 ++ [7]) 5 = (1337, [7]) /\
  1 <= len (h2o_hpack_encode_int 0x20 1337 5) <= 10 /\ bytes_ok (h2o_hpack_encode_int 0x20 1337 5).
Proof.
  apply (encode_int_roundtrip 0x20 1337 5 [7]); [lia|split; [unfold is_byte; lia|reflexivity]|].
  unfold INT64_MAX. lia.
Defined.

(** On any input [h2o_hpack_decode_int] either returns the integer RFC 7541 5.1 defines, which
    fits [int64_t], after at most ten octets; or reports that the input ends within the
    integer, of which there are then fewer than ten octets; or reports an integer that is too
    large or too long.  No addition or shift wraps in an accepted integer. *)
Theorem decode_int_complete src n v src' :
  1 <= n <= 8 -> bytes_ok src -> h2o_hpack_decode_int src n = (v, src') ->
  (0 <= v <= INT64_MAX /\ rfc_int src n = Some (v, src') /\
     exists used, src = used ++ src' /\ (1 <= length used <= 10)%nat) \/
  (v = H2O_HTTP2_ERROR_INCOMPLETE /\ rfc_int src n = None /\ (length src <= 9)%nat) \/
  (v = H2O_HTTP2_ERROR_COMPRESSION /\
     ((exists w r, rfc_int src n = Some (w, r) /\ INT64_MAX < w) \/
      ((10 <= length src)%nat /\ Forall (fun b => 128 <= b) (take 9 (tail src))))).
Proof. apply decode_int_outcome. Qed.

Lemma decode_int_complete_witness :
  (0 <= 1337 <= INT64_MAX /\ rfc_int [0x1f; 154; 10; 9] 5 = Some (1337, [9]) /\
     exists used, [0x1f; 154; 10; 9] = used ++ [9] /\ (1 <= length used <= 10)%nat) \/
  (1337 = H2O_HTTP2_ERROR_INCOMPLETE /\ rfc_int [0x1f; 154; 10; 9] 5 = None /\ (length [0x1f; 154; 10; 9] <= 9)%nat) \/
  (1337 = H2O_HTTP2_ERROR_COMPRESSION /\
     ((exists w r, rfc_int [0x1f; 154; 10; 9] 5 = Some (w, r) /\ INT64_MAX < w) \/
      ((10 <= length [0x1f; 154; 10; 9])%nat /\ Forall (fun b => 128 <= b) (take 9 (tail [0x1f; 154; 10; 9]))))).
Proof.
  apply (decode_int_complete [0x1f; 154; 10; 9] 5 1337 [9]); [lia| |reflexivity].
  repeat constructor; unfold is_byte; lia.
Defined.
