(* ===== verification/HuffTable.v ===== *)
(** * The HPACK Huffman tables (lib/http2/hpack_huffman_table.h)

    The code table ([nbits], [code]) of the 256 octets and EOS, and the decoder's
    transition table: a row per state, an entry ([state], [flags], [sym]) per nibble. *)
From Stdlib Require Import ZArith.
From stdpp Require Import base list.
Open Scope Z_scope.

Record nghttp2_huff_sym := HuffSym { nbits : Z; code : Z }.
Record nghttp2_huff_decode := HuffDecode { hd_state : Z; hd_flags : Z; hd_sym : Z }.

Definition NGHTTP2_HUFF_ACCEPTED : Z := 1.
Definition NGHTTP2_HUFF_SYM : Z := 2.
Definition NGHTTP2_HUFF_FAIL : Z := 4.
Definition NGHTTP2_HUFF_INVALID_FOR_HEADER_NAME : Z := 8.
Definition NGHTTP2_HUFF_INVALID_FOR_HEADER_VALUE : Z := 16.
Definition NGHTTP2_HUFF_UPPER_CASE_CHAR : Z := 32.
Definition NGHTTP2_HUFF_INVALID_CHARS : Z :=
  Z.lor NGHTTP2_HUFF_INVALID_FOR_HEADER_NAME NGHTTP2_HUFF_INVALID_FOR_HEADER_VALUE.

Definition huff_sym_table : list nghttp2_huff_sym :=
  map (fun e => HuffSym e.1 e.2) [
   (13, 0x1ff8); (23, 0x7fffd8); (28, 0xfffffe2); (28, 0xfffffe3); (28, 0xfffffe4); (28, 0xfffffe5);
   (28, 0xfffffe6); (28, 0xfffffe7); (28, 0xfffffe8); (24, 0xffffea); (30, 0x3ffffffc); (28, 0xfffffe9);
   (28, 0xfffffea); (30, 0x3ffffffd); (28, 0xfffffeb); (28, 0xfffffec); (28, 0xfffffed); (28, 0xfffffee);
   (28, 0xfffffef); (28, 0xffffff0); (28, 0xffffff1); (28, 0xffffff2); (30, 0x3ffffffe); (28, 0xffffff3);
   (28, 0xffffff4); (28, 0xffffff5); (28, 0xffffff6); (28, 0xffffff7); (28, 0xffffff8); (28, 0xffffff9);
   (28, 0xffffffa); (28, 0xffffffb); (6, 0x14); (10, 0x3f8); (10, 0x3f9); (12, 0xffa);
   (13, 0x1ff9); (6, 0x15); (8, 0xf8); (11, 0x7fa); (10, 0x3fa); (10, 0x3fb);
   (8, 0xf9); (11, 0x7fb); (8, 0xfa); (6, 0x16); (6, 0x17); (6, 0x18);
   (5, 0x0); (5, 0x1); (5, 0x2); (6, 0x19); (6, 0x1a); (6, 0x1b);
   (6, 0x1c); (6, 0x1d); (6, 0x1e); (6, 0x1f); (7, 0x5c); (8, 0xfb);
   (15, 0x7ffc); (6, 0x20); (12, 0xffb); (10, 0x3fc); (13, 0x1ffa); (6, 0x21);
   (7, 0x5d); (7, 0x5e); (7, 0x5f); (7, 0x60); (7, 0x61); (7, 0x62);
   (7, 0x63); (7, 0x64); (7, 0x65); (7, 0x66); (7, 0x67); (7, 0x68);
   (7, 0x69); (7, 0x6a); (7, 0x6b); (7, 0x6c); (7, 0x6d); (7, 0x6e);
   (7, 0x6f); (7, 0x70); (7, 0x71); (7, 0x72); (8, 0xfc); (7, 0x73);
   (8, 0xfd); (13, 0x1ffb); (19, 0x7fff0); (13, 0x1ffc); (14, 0x3ffc); (6, 0x22);
   (15, 0x7ffd); (5, 0x3); (6, 0x23); (5, 0x4); (6, 0x24); (5, 0x5);
   (6, 0x25); (6, 0x26); (6, 0x27); (5, 0x6); (7, 0x74); (7, 0x75);
   (6, 0x28); (6, 0x29); (6, 0x2a); (5, 0x7); (6, 0x2b); (7, 0x76);
   (6, 0x2c); (5, 0x8); (5, 0x9); (6, 0x2d); (7, 0x77); (7, 0x78);
   (7, 0x79); (7, 0x7a); (7, 0x7b); (15, 0x7ffe); (11, 0x7fc); (14, 0x3ffd);
   (13, 0x1ffd); (28, 0xffffffc); (20, 0xfffe6); (22, 0x3fffd2); (20, 0xfffe7); (20, 0xfffe8);
   (22, 0x3fffd3); (22, 0x3fffd4); (22, 0x3fffd5); (23, 0x7fffd9); (22, 0x3fffd6); (23, 0x7fffda);
   (23, 0x7fffdb); (23, 0x7fffdc); (23, 0x7fffdd); (23, 0x7fffde); (24, 0xffffeb); (23, 0x7fffdf);
   (24, 0xffffec); (24, 0xffffed); (22, 0x3fffd7); (23, 0x7fffe0); (24, 0xffffee); (23, 0x7fffe1);
   (23, 0x7fffe2); (23, 0x7fffe3); (23, 0x7fffe4); (21, 0x1fffdc); (22, 0x3fffd8); (23, 0x7fffe5);
   (22, 0x3fffd9); (23, 0x7fffe6); (23, 0x7fffe7); (24, 0xffffef); (22, 0x3fffda); (21, 0x1fffdd);
   (20, 0xfffe9); (22, 0x3fffdb); (22, 0x3fffdc); (23, 0x7fffe8); (23, 0x7fffe9); (21, 0x1fffde);
   (23, 0x7fffea); (22, 0x3fffdd); (22, 0x3fffde); (24, 0xfffff0); (21, 0x1fffdf); (22, 0x3fffdf);
   (23, 0x7fffeb); (23, 0x7fffec); (21, 0x1fffe0); (21, 0x1fffe1); (22, 0x3fffe0); (21, 0x1fffe2);
   (23, 0x7fffed); (22, 0x3fffe1); (23, 0x7fffee); (23, 0x7fffef); (20, 0xfffea); (22, 0x3fffe2);
   (22, 0x3fffe3); (22, 0x3fffe4); (23, 0x7ffff0); (22, 0x3fffe5); (22, 0x3fffe6); (23, 0x7ffff1);
   (26, 0x3ffffe0); (26, 0x3ffffe1); (20, 0xfffeb); (19, 0x7fff1); (22, 0x3fffe7); (23, 0x7ffff2);
   (22, 0x3fffe8); (25, 0x1ffffec); (26, 0x3ffffe2); (26, 0x3ffffe3); (26, 0x3ffffe4); (27, 0x7ffffde);
   (27, 0x7ffffdf); (26, 0x3ffffe5); (24, 0xfffff1); (25, 0x1ffffed); (19, 0x7fff2); (21, 0x1fffe3);
   (26, 0x3ffffe6); (27, 0x7ffffe0); (27, 0x7ffffe1); (26, 0x3ffffe7); (27, 0x7ffffe2); (24, 0xfffff2);
   (21, 0x1fffe4); (21, 0x1fffe5); (26, 0x3ffffe8); (26, 0x3ffffe9); (28, 0xffffffd); (27, 0x7ffffe3);
   (27, 0x7ffffe4); (27, 0x7ffffe5); (20, 0xfffec); (24, 0xfffff3); (20, 0xfffed); (21, 0x1fffe6);
   (22, 0x3fffe9); (21, 0x1fffe7); (21, 0x1fffe8); (23, 0x7ffff3); (22, 0x3fffea); (22, 0x3fffeb);
   (25, 0x1ffffee); (25, 0x1ffffef); (24, 0xfffff4); (24, 0xfffff5); (26, 0x3ffffea); (23, 0x7ffff4);
   (26, 0x3ffffeb); (27, 0x7ffffe6); (26, 0x3ffffec); (26, 0x3ffffed); (27, 0x7ffffe7); (27, 0x7ffffe8);
   (27, 0x7ffffe9); (27, 0x7ffffea); (27, 0x7ffffeb); (28, 0xffffffe); (27, 0x7ffffec); (27, 0x7ffffed);
   (27, 0x7ffffee); (27, 0x7ffffef); (27, 0x7fffff0); (26, 0x3ffffee); (30, 0x3fffffff)].

Definition huff_decode_table : list (list nghttp2_huff_decode) :=
  map (map (fun e => HuffDecode e.1.1 e.1.2 e.2)) [
   (* 0 *)
   [(4, 0, 0); (5, 0, 0); (7, 0, 0); (8, 0, 0); (11, 0, 0); (12, 0, 0); (16, 0, 0); (19, 0, 0);
    (25, 0, 0); (28, 0, 0); (32, 0, 0); (35, 0, 0); (42, 0, 0); (49, 0, 0); (57, 0, 0); (64, 1, 0)];
   (* 1 *)
   [(0, 3, 48); (0, 3, 49); (0, 3, 50); (0, 3, 97); (0, 3, 99); (0, 3, 101); (0, 3, 105); (0, 3, 111);
    (0, 3, 115); (0, 3, 116); (13, 0, 0); (14, 0, 0); (17, 0, 0); (18, 0, 0); (20, 0, 0); (21, 0, 0)];
   (* 2 *)
   [(1, 2, 48); (22, 3, 48); (1, 2, 49); (22, 3, 49); (1, 2, 50); (22, 3, 50); (1, 2, 97); (22, 3, 97);
    (1, 2, 99); (22, 3, 99); (1, 2, 101); (22, 3, 101); (1, 2, 105); (22, 3, 105); (1, 2, 111); (22, 3, 111)];
   (* 3 *)
   [(2, 2, 48); (9, 2, 48); (23, 2, 48); (40, 3, 48); (2, 2, 49); (9, 2, 49); (23, 2, 49); (40, 3, 49);
    (2, 2, 50); (9, 2, 50); (23, 2, 50); (40, 3, 50); (2, 2, 97); (9, 2, 97); (23, 2, 97); (40, 3, 97)];
   (* 4 *)
   [(3, 2, 48); (6, 2, 48); (10, 2, 48); (15, 2, 48); (24, 2, 48); (31, 2, 48); (41, 2, 48); (56, 3, 48);
    (3, 2, 49); (6, 2, 49); (10, 2, 49); (15, 2, 49); (24, 2, 49); (31, 2, 49); (41, 2, 49); (56, 3, 49)];
   (* 5 *)
   [(3, 2, 50); (6, 2, 50); (10, 2, 50); (15, 2, 50); (24, 2, 50); (31, 2, 50); (41, 2, 50); (56, 3, 50);
    (3, 2, 97); (6, 2, 97); (10, 2, 97); (15, 2, 97); (24, 2, 97); (31, 2, 97); (41, 2, 97); (56, 3, 97)];
   (* 6 *)
   [(2, 2, 99); (9, 2, 99); (23, 2, 99); (40, 3, 99); (2, 2, 101); (9, 2, 101); (23, 2, 101); (40, 3, 101);
    (2, 2, 105); (9, 2, 105); (23, 2, 105); (40, 3, 105); (2, 2, 111); (9, 2, 111); (23, 2, 111); (40, 3, 111)];
   (* 7 *)
   [(3, 2, 99); (6, 2, 99); (10, 2, 99); (15, 2, 99); (24, 2, 99); (31, 2, 99); (41, 2, 99); (56, 3, 99);
    (3, 2, 101); (6, 2, 101); (10, 2, 101); (15, 2, 101); (24, 2, 101); (31, 2, 101); (41, 2, 101); (56, 3, 101)];
   (* 8 *)
   [(3, 2, 105); (6, 2, 105); (10, 2, 105); (15, 2, 105); (24, 2, 105); (31, 2, 105); (41, 2, 105); (56, 3, 105);
    (3, 2, 111); (6, 2, 111); (10, 2, 111); (15, 2, 111); (24, 2, 111); (31, 2, 111); (41, 2, 111); (56, 3, 111)];
   (* 9 *)
   [(1, 2, 115); (22, 3, 115); (1, 2, 116); (22, 3, 116); (0, 11, 32); (0, 3, 37); (0, 3, 45); (0, 3, 46);
    (0, 11, 47); (0, 3, 51); (0, 3, 52); (0, 3, 53); (0, 3, 54); (0, 3, 55); (0, 3, 56); (0, 3, 57)];
   (* 10 *)
   [(2, 2, 115); (9, 2, 115); (23, 2, 115); (40, 3, 115); (2, 2, 116); (9, 2, 116); (23, 2, 116); (40, 3, 116);
    (1, 10, 32); (22, 11, 32); (1, 2, 37); (22, 3, 37); (1, 2, 45); (22, 3, 45); (1, 2, 46); (22, 3, 46)];
   (* 11 *)
   [(3, 2, 115); (6, 2, 115); (10, 2, 115); (15, 2, 115); (24, 2, 115); (31, 2, 115); (41, 2, 115); (56, 3, 115);
    (3, 2, 116); (6, 2, 116); (10, 2, 116); (15, 2, 116); (24, 2, 116); (31, 2, 116); (41, 2, 116); (56, 3, 116)];
   (* 12 *)
   [(2, 10, 32); (9, 10, 32); (23, 10, 32); (40, 11, 32); (2, 2, 37); (9, 2, 37); (23, 2, 37); (40, 3, 37);
    (2, 2, 45); (9, 2, 45); (23, 2, 45); (40, 3, 45); (2, 2, 46); (9, 2, 46); (23, 2, 46); (40, 3, 46)];
   (* 13 *)
   [(3, 10, 32); (6, 10, 32); (10, 10, 32); (15, 10, 32); (24, 10, 32); (31, 10, 32); (41, 10, 32); (56, 11, 32);
    (3, 2, 37); (6, 2, 37); (10, 2, 37); (15, 2, 37); (24, 2, 37); (31, 2, 37); (41, 2, 37); (56, 3, 37)];
   (* 14 *)
   [(3, 2, 45); (6, 2, 45); (10, 2, 45); (15, 2, 45); (24, 2, 45); (31, 2, 45); (41, 2, 45); (56, 3, 45);
    (3, 2, 46); (6, 2, 46); (10, 2, 46); (15, 2, 46); (24, 2, 46); (31, 2, 46); (41, 2, 46); (56, 3, 46)];
   (* 15 *)
   [(1, 10, 47); (22, 11, 47); (1, 2, 51); (22, 3, 51); (1, 2, 52); (22, 3, 52); (1, 2, 53); (22, 3, 53);
    (1, 2, 54); (22, 3, 54); (1, 2, 55); (22, 3, 55); (1, 2, 56); (22, 3, 56); (1, 2, 57); (22, 3, 57)];
   (* 16 *)
   [(2, 10, 47); (9, 10, 47); (23, 10, 47); (40, 11, 47); (2, 2, 51); (9, 2, 51); (23, 2, 51); (40, 3, 51);
    (2, 2, 52); (9, 2, 52); (23, 2, 52); (40, 3, 52); (2, 2, 53); (9, 2, 53); (23, 2, 53); (40, 3, 53)];
   (* 17 *)
   [(3, 10, 47); (6, 10, 47); (10, 10, 47); (15, 10, 47); (24, 10, 47); (31, 10, 47); (41, 10, 47); (56, 11, 47);
    (3, 2, 51); (6, 2, 51); (10, 2, 51); (15, 2, 51); (24, 2, 51); (31, 2, 51); (41, 2, 51); (56, 3, 51)];
   (* 18 *)
   [(3, 2, 52); (6, 2, 52); (10, 2, 52); (15, 2, 52); (24, 2, 52); (31, 2, 52); (41, 2, 52); (56, 3, 52);
    (3, 2, 53); (6, 2, 53); (10, 2, 53); (15, 2, 53); (24, 2, 53); (31, 2, 53); (41, 2, 53); (56, 3, 53)];
   (* 19 *)
   [(2, 2, 54); (9, 2, 54); (23, 2, 54); (40, 3, 54); (2, 2, 55); (9, 2, 55); (23, 2, 55); (40, 3, 55);
    (2, 2, 56); (9, 2, 56); (23, 2, 56); (40, 3, 56); (2, 2, 57); (9, 2, 57); (23, 2, 57); (40, 3, 57)];
   (* 20 *)
   [(3, 2, 54); (6, 2, 54); (10, 2, 54); (15, 2, 54); (24, 2, 54); (31, 2, 54); (41, 2, 54); (56, 3, 54);
    (3, 2, 55); (6, 2, 55); (10, 2, 55); (15, 2, 55); (24, 2, 55); (31, 2, 55); (41, 2, 55); (56, 3, 55)];
   (* 21 *)
   [(3, 2, 56); (6, 2, 56); (10, 2, 56); (15, 2, 56); (24, 2, 56); (31, 2, 56); (41, 2, 56); (56, 3, 56);
    (3, 2, 57); (6, 2, 57); (10, 2, 57); (15, 2, 57); (24, 2, 57); (31, 2, 57); (41, 2, 57); (56, 3, 57)];
   (* 22 *)
   [(26, 0, 0); (27, 0, 0); (29, 0, 0); (30, 0, 0); (33, 0, 0); (34, 0, 0); (36, 0, 0); (37, 0, 0);
    (43, 0, 0); (46, 0, 0); (50, 0, 0); (53, 0, 0); (58, 0, 0); (61, 0, 0); (65, 0, 0); (68, 1, 0)];
   (* 23 *)
   [(0, 11, 61); (0, 43, 65); (0, 3, 95); (0, 3, 98); (0, 3, 100); (0, 3, 102); (0, 3, 103); (0, 3, 104);
    (0, 3, 108); (0, 3, 109); (0, 3, 110); (0, 3, 112); (0, 3, 114); (0, 3, 117); (38, 0, 0); (39, 0, 0)];
   (* 24 *)
   [(1, 10, 61); (22, 11, 61); (1, 42, 65); (22, 43, 65); (1, 2, 95); (22, 3, 95); (1, 2, 98); (22, 3, 98);
    (1, 2, 100); (22, 3, 100); (1, 2, 102); (22, 3, 102); (1, 2, 103); (22, 3, 103); (1, 2, 104); (22, 3, 104)];
   (* 25 *)
   [(2, 10, 61); (9, 10, 61); (23, 10, 61); (40, 11, 61); (2, 42, 65); (9, 42, 65); (23, 42, 65); (40, 43, 65);
    (2, 2, 95); (9, 2, 95); (23, 2, 95); (40, 3, 95); (2, 2, 98); (9, 2, 98); (23, 2, 98); (40, 3, 98)];
   (* 26 *)
   [(3, 10, 61); (6, 10, 61); (10, 10, 61); (15, 10, 61); (24, 10, 61); (31, 10, 61); (41, 10, 61); (56, 11, 61);
    (3, 42, 65); (6, 42, 65); (10, 42, 65); (15, 42, 65); (24, 42, 65); (31, 42, 65); (41, 42, 65); (56, 43, 65)];
   (* 27 *)
   [(3, 2, 95); (6, 2, 95); (10, 2, 95); (15, 2, 95); (24, 2, 95); (31, 2, 95); (41, 2, 95); (56, 3, 95);
    (3, 2, 98); (6, 2, 98); (10, 2, 98); (15, 2, 98); (24, 2, 98); (31, 2, 98); (41, 2, 98); (56, 3, 98)];
   (* 28 *)
   [(2, 2, 100); (9, 2, 100); (23, 2, 100); (40, 3, 100); (2, 2, 102); (9, 2, 102); (23, 2, 102); (40, 3, 102);
    (2, 2, 103); (9, 2, 103); (23, 2, 103); (40, 3, 103); (2, 2, 104); (9, 2, 104); (23, 2, 104); (40, 3, 104)];
   (* 29 *)
   [(3, 2, 100); (6, 2, 100); (10, 2, 100); (15, 2, 100); (24, 2, 100); (31, 2, 100); (41, 2, 100); (56, 3, 100);
    (3, 2, 102); (6, 2, 102); (10, 2, 102); (15, 2, 102); (24, 2, 102); (31, 2, 102); (41, 2, 102); (56, 3, 102)];
   (* 30 *)
   [(3, 2, 103); (6, 2, 103); (10, 2, 103); (15, 2, 103); (24, 2, 103); (31, 2, 103); (41, 2, 103); (56, 3, 103);
    (3, 2, 104); (6, 2, 104); (10, 2, 104); (15, 2, 104); (24, 2, 104); (31, 2, 104); (41, 2, 104); (56, 3, 104)];
   (* 31 *)
   [(1, 2, 108); (22, 3, 108); (1, 2, 109); (22, 3, 109); (1, 2, 110); (22, 3, 110); (1, 2, 112); (22, 3, 112);
    (1, 2, 114); (22, 3, 114); (1, 2, 117); (22, 3, 117); (0, 11, 58); (0, 43, 66); (0, 43, 67); (0, 43, 68)];
   (* 32 *)
   [(2, 2, 108); (9, 2, 108); (23, 2, 108); (40, 3, 108); (2, 2, 109); (9, 2, 109); (23, 2, 109); (40, 3, 109);
    (2, 2, 110); (9, 2, 110); (23, 2, 110); (40, 3, 110); (2, 2, 112); (9, 2, 112); (23, 2, 112); (40, 3, 112)];
   (* 33 *)
   [(3, 2, 108); (6, 2, 108); (10, 2, 108); (15, 2, 108); (24, 2, 108); (31, 2, 108); (41, 2, 108); (56, 3, 108);
    (3, 2, 109); (6, 2, 109); (10, 2, 109); (15, 2, 109); (24, 2, 109); (31, 2, 109); (41, 2, 109); (56, 3, 109)];
   (* 34 *)
   [(3, 2, 110); (6, 2, 110); (10, 2, 110); (15, 2, 110); (24, 2, 110); (31, 2, 110); (41, 2, 110); (56, 3, 110);
    (3, 2, 112); (6, 2, 112); (10, 2, 112); (15, 2, 112); (24, 2, 112); (31, 2, 112); (41, 2, 112); (56, 3, 112)];
   (* 35 *)
   [(2, 2, 114); (9, 2, 114); (23, 2, 114); (40, 3, 114); (2, 2, 117); (9, 2, 117); (23, 2, 117); (40, 3, 117);
    (1, 10, 58); (22, 11, 58); (1, 42, 66); (22, 43, 66); (1, 42, 67); (22, 43, 67); (1, 42, 68); (22, 43, 68)];
   (* 36 *)
   [(3, 2, 114); (6, 2, 114); (10, 2, 114); (15, 2, 114); (24, 2, 114); (31, 2, 114); (41, 2, 114); (56, 3, 114);
    (3, 2, 117); (6, 2, 117); (10, 2, 117); (15, 2, 117); (24, 2, 117); (31, 2, 117); (41, 2, 117); (56, 3, 117)];
   (* 37 *)
   [(2, 10, 58); (9, 10, 58); (23, 10, 58); (40, 11, 58); (2, 42, 66); (9, 42, 66); (23, 42, 66); (40, 43, 66);
    (2, 42, 67); (9, 42, 67); (23, 42, 67); (40, 43, 67); (2, 42, 68); (9, 42, 68); (23, 42, 68); (40, 43, 68)];
   (* 38 *)
   [(3, 10, 58); (6, 10, 58); (10, 10, 58); (15, 10, 58); (24, 10, 58); (31, 10, 58); (41, 10, 58); (56, 11, 58);
    (3, 42, 66); (6, 42, 66); (10, 42, 66); (15, 42, 66); (24, 42, 66); (31, 42, 66); (41, 42, 66); (56, 43, 66)];
   (* 39 *)
   [(3, 42, 67); (6, 42, 67); (10, 42, 67); (15, 42, 67); (24, 42, 67); (31, 42, 67); (41, 42, 67); (56, 43, 67);
    (3, 42, 68); (6, 42, 68); (10, 42, 68); (15, 42, 68); (24, 42, 68); (31, 42, 68); (41, 42, 68); (56, 43, 68)];
   (* 40 *)
   [(44, 0, 0); (45, 0, 0); (47, 0, 0); (48, 0, 0); (51, 0, 0); (52, 0, 0); (54, 0, 0); (55, 0, 0);
    (59, 0, 0); (60, 0, 0); (62, 0, 0); (63, 0, 0); (66, 0, 0); (67, 0, 0); (69, 0, 0); (72, 1, 0)];
   (* 41 *)
   [(0, 43, 69); (0, 43, 70); (0, 43, 71); (0, 43, 72); (0, 43, 73); (0, 43, 74); (0, 43, 75); (0, 43, 76);
    (0, 43, 77); (0, 43, 78); (0, 43, 79); (0, 43, 80); (0, 43, 81); (0, 43, 82); (0, 43, 83); (0, 43, 84)];
   (* 42 *)
   [(1, 42, 69); (22, 43, 69); (1, 42, 70); (22, 43, 70); (1, 42, 71); (22, 43, 71); (1, 42, 72); (22, 43, 72);
    (1, 42, 73); (22, 43, 73); (1, 42, 74); (22, 43, 74); (1, 42, 75); (22, 43, 75); (1, 42, 76); (22, 43, 76)];
   (* 43 *)
   [(2, 42, 69); (9, 42, 69); (23, 42, 69); (40, 43, 69); (2, 42, 70); (9, 42, 70); (23, 42, 70); (40, 43, 70);
    (2, 42, 71); (9, 42, 71); (23, 42, 71); (40, 43, 71); (2, 42, 72); (9, 42, 72); (23, 42, 72); (40, 43, 72)];
   (* 44 *)
   [(3, 42, 69); (6, 42, 69); (10, 42, 69); (15, 42, 69); (24, 42, 69); (31, 42, 69); (41, 42, 69); (56, 43, 69);
    (3, 42, 70); (6, 42, 70); (10, 42, 70); (15, 42, 70); (24, 42, 70); (31, 42, 70); (41, 42, 70); (56, 43, 70)];
   (* 45 *)
   [(3, 42, 71); (6, 42, 71); (10, 42, 71); (15, 42, 71); (24, 42, 71); (31, 42, 71); (41, 42, 71); (56, 43, 71);
    (3, 42, 72); (6, 42, 72); (10, 42, 72); (15, 42, 72); (24, 42, 72); (31, 42, 72); (41, 42, 72); (56, 43, 72)];
   (* 46 *)
   [(2, 42, 73); (9, 42, 73); (23, 42, 73); (40, 43, 73); (2, 42, 74); (9, 42, 74); (23, 42, 74); (40, 43, 74);
    (2, 42, 75); (9, 42, 75); (23, 42, 75); (40, 43, 75); (2, 42, 76); (9, 42, 76); (23, 42, 76); (40, 43, 76)];
   (* 47 *)
   [(3, 42, 73); (6, 42, 73); (10, 42, 73); (15, 42, 73); (24, 42, 73); (31, 42, 73); (41, 42, 73); (56, 43, 73);
    (3, 42, 74); (6, 42, 74); (10, 42, 74); (15, 42, 74); (24, 42, 74); (31, 42, 74); (41, 42, 74); (56, 43, 74)];
   (* 48 *)
   [(3, 42, 75); (6, 42, 75); (10, 42, 75); (15, 42, 75); (24, 42, 75); (31, 42, 75); (41, 42, 75); (56, 43, 75);
    (3, 42, 76); (6, 42, 76); (10, 42, 76); (15, 42, 76); (24, 42, 76); (31, 42, 76); (41, 42, 76); (56, 43, 76)];
   (* 49 *)
   [(1, 42, 77); (22, 43, 77); (1, 42, 78); (22, 43, 78); (1, 42, 79); (22, 43, 79); (1, 42, 80); (22, 43, 80);
    (1, 42, 81); (22, 43, 81); (1, 42, 82); (22, 43, 82); (1, 42, 83); (22, 43, 83); (1, 42, 84); (22, 43, 84)];
   (* 50 *)
   [(2, 42, 77); (9, 42, 77); (23, 42, 77); (40, 43, 77); (2, 42, 78); (9, 42, 78); (23, 42, 78); (40, 43, 78);
    (2, 42, 79); (9, 42, 79); (23, 42, 79); (40, 43, 79); (2, 42, 80); (9, 42, 80); (23, 42, 80); (40, 43, 80)];
   (* 51 *)
   [(3, 42, 77); (6, 42, 77); (10, 42, 77); (15, 42, 77); (24, 42, 77); (31, 42, 77); (41, 42, 77); (56, 43, 77);
    (3, 42, 78); (6, 42, 78); (10, 42, 78); (15, 42, 78); (24, 42, 78); (31, 42, 78); (41, 42, 78); (56, 43, 78)];
   (* 52 *)
   [(3, 42, 79); (6, 42, 79); (10, 42, 79); (15, 42, 79); (24, 42, 79); (31, 42, 79); (41, 42, 79); (56, 43, 79);
    (3, 42, 80); (6, 42, 80); (10, 42, 80); (15, 42, 80); (24, 42, 80); (31, 42, 80); (41, 42, 80); (56, 43, 80)];
   (* 53 *)
   [(2, 42, 81); (9, 42, 81); (23, 42, 81); (40, 43, 81); (2, 42, 82); (9, 42, 82); (23, 42, 82); (40, 43, 82);
    (2, 42, 83); (9, 42, 83); (23, 42, 83); (40, 43, 83); (2, 42, 84); (9, 42, 84); (23, 42, 84); (40, 43, 84)];
   (* 54 *)
   [(3, 42, 81); (6, 42, 81); (10, 42, 81); (15, 42, 81); (24, 42, 81); (31, 42, 81); (41, 42, 81); (56, 43, 81);
    (3, 42, 82); (6, 42, 82); (10, 42, 82); (15, 42, 82); (24, 42, 82); (31, 42, 82); (41, 42, 82); (56, 43, 82)];
   (* 55 *)
   [(3, 42, 83); (6, 42, 83); (10, 42, 83); (15, 42, 83); (24, 42, 83); (31, 42, 83); (41, 42, 83); (56, 43, 83);
    (3, 42, 84); (6, 42, 84); (10, 42, 84); (15, 42, 84); (24, 42, 84); (31, 42, 84); (41, 42, 84); (56, 43, 84)];
   (* 56 *)
   [(0, 43, 85); (0, 43, 86); (0, 43, 87); (0, 43, 89); (0, 3, 106); (0, 3, 107); (0, 3, 113); (0, 3, 118);
    (0, 3, 119); (0, 3, 120); (0, 3, 121); (0, 3, 122); (70, 0, 0); (71, 0, 0); (73, 0, 0); (74, 1, 0)];
   (* 57 *)
   [(1, 42, 85); (22, 43, 85); (1, 42, 86); (22, 43, 86); (1, 42, 87); (22, 43, 87); (1, 42, 89); (22, 43, 89);
    (1, 2, 106); (22, 3, 106); (1, 2, 107); (22, 3, 107); (1, 2, 113); (22, 3, 113); (1, 2, 118); (22, 3, 118)];
   (* 58 *)
   [(2, 42, 85); (9, 42, 85); (23, 42, 85); (40, 43, 85); (2, 42, 86); (9, 42, 86); (23, 42, 86); (40, 43, 86);
    (2, 42, 87); (9, 42, 87); (23, 42, 87); (40, 43, 87); (2, 42, 89); (9, 42, 89); (23, 42, 89); (40, 43, 89)];
   (* 59 *)
   [(3, 42, 85); (6, 42, 85); (10, 42, 85); (15, 42, 85); (24, 42, 85); (31, 42, 85); (41, 42, 85); (56, 43, 85);
    (3, 42, 86); (6, 42, 86); (10, 42, 86); (15, 42, 86); (24, 42, 86); (31, 42, 86); (41, 42, 86); (56, 43, 86)];
   (* 60 *)
   [(3, 42, 87); (6, 42, 87); (10, 42, 87); (15, 42, 87); (24, 42, 87); (31, 42, 87); (41, 42, 87); (56, 43, 87);
    (3, 42, 89); (6, 42, 89); (10, 42, 89); (15, 42, 89); (24, 42, 89); (31, 42, 89); (41, 42, 89); (56, 43, 89)];
   (* 61 *)
   [(2, 2, 106); (9, 2, 106); (23, 2, 106); (40, 3, 106); (2, 2, 107); (9, 2, 107); (23, 2, 107); (40, 3, 107);
    (2, 2, 113); (9, 2, 113); (23, 2, 113); (40, 3, 113); (2, 2, 118); (9, 2, 118); (23, 2, 118); (40, 3, 118)];
   (* 62 *)
   [(3, 2, 106); (6, 2, 106); (10, 2, 106); (15, 2, 106); (24, 2, 106); (31, 2, 106); (41, 2, 106); (56, 3, 106);
    (3, 2, 107); (6, 2, 107); (10, 2, 107); (15, 2, 107); (24, 2, 107); (31, 2, 107); (41, 2, 107); (56, 3, 107)];
   (* 63 *)
   [(3, 2, 113); (6, 2, 113); (10, 2, 113); (15, 2, 113); (24, 2, 113); (31, 2, 113); (41, 2, 113); (56, 3, 113);
    (3, 2, 118); (6, 2, 118); (10, 2, 118); (15, 2, 118); (24, 2, 118); (31, 2, 118); (41, 2, 118); (56, 3, 118)];
   (* 64 *)
   [(1, 2, 119); (22, 3, 119); (1, 2, 120); (22, 3, 120); (1, 2, 121); (22, 3, 121); (1, 2, 122); (22, 3, 122);
    (0, 3, 38); (0, 3, 42); (0, 11, 44); (0, 11, 59); (0, 43, 88); (0, 43, 90); (75, 0, 0); (78, 0, 0)];
   (* 65 *)
   [(2, 2, 119); (9, 2, 119); (23, 2, 119); (40, 3, 119); (2, 2, 120); (9, 2, 120); (23, 2, 120); (40, 3, 120);
    (2, 2, 121); (9, 2, 121); (23, 2, 121); (40, 3, 121); (2, 2, 122); (9, 2, 122); (23, 2, 122); (40, 3, 122)];
   (* 66 *)
   [(3, 2, 119); (6, 2, 119); (10, 2, 119); (15, 2, 119); (24, 2, 119); (31, 2, 119); (41, 2, 119); (56, 3, 119);
    (3, 2, 120); (6, 2, 120); (10, 2, 120); (15, 2, 120); (24, 2, 120); (31, 2, 120); (41, 2, 120); (56, 3, 120)];
   (* 67 *)
   [(3, 2, 121); (6, 2, 121); (10, 2, 121); (15, 2, 121); (24, 2, 121); (31, 2, 121); (41, 2, 121); (56, 3, 121);
    (3, 2, 122); (6, 2, 122); (10, 2, 122); (15, 2, 122); (24, 2, 122); (31, 2, 122); (41, 2, 122); (56, 3, 122)];
   (* 68 *)
   [(1, 2, 38); (22, 3, 38); (1, 2, 42); (22, 3, 42); (1, 10, 44); (22, 11, 44); (1, 10, 59); (22, 11, 59);
    (1, 42, 88); (22, 43, 88); (1, 42, 90); (22, 43, 90); (76, 0, 0); (77, 0, 0); (79, 0, 0); (81, 0, 0)];
   (* 69 *)
   [(2, 2, 38); (9, 2, 38); (23, 2, 38); (40, 3, 38); (2, 2, 42); (9, 2, 42); (23, 2, 42); (40, 3, 42);
    (2, 10, 44); (9, 10, 44); (23, 10, 44); (40, 11, 44); (2, 10, 59); (9, 10, 59); (23, 10, 59); (40, 11, 59)];
   (* 70 *)
   [(3, 2, 38); (6, 2, 38); (10, 2, 38); (15, 2, 38); (24, 2, 38); (31, 2, 38); (41, 2, 38); (56, 3, 38);
    (3, 2, 42); (6, 2, 42); (10, 2, 42); (15, 2, 42); (24, 2, 42); (31, 2, 42); (41, 2, 42); (56, 3, 42)];
   (* 71 *)
   [(3, 10, 44); (6, 10, 44); (10, 10, 44); (15, 10, 44); (24, 10, 44); (31, 10, 44); (41, 10, 44); (56, 11, 44);
    (3, 10, 59); (6, 10, 59); (10, 10, 59); (15, 10, 59); (24, 10, 59); (31, 10, 59); (41, 10, 59); (56, 11, 59)];
   (* 72 *)
   [(2, 42, 88); (9, 42, 88); (23, 42, 88); (40, 43, 88); (2, 42, 90); (9, 42, 90); (23, 42, 90); (40, 43, 90);
    (0, 3, 33); (0, 11, 34); (0, 11, 40); (0, 11, 41); (0, 11, 63); (80, 0, 0); (82, 0, 0); (84, 0, 0)];
   (* 73 *)
   [(3, 42, 88); (6, 42, 88); (10, 42, 88); (15, 42, 88); (24, 42, 88); (31, 42, 88); (41, 42, 88); (56, 43, 88);
    (3, 42, 90); (6, 42, 90); (10, 42, 90); (15, 42, 90); (24, 42, 90); (31, 42, 90); (41, 42, 90); (56, 43, 90)];
   (* 74 *)
   [(1, 2, 33); (22, 3, 33); (1, 10, 34); (22, 11, 34); (1, 10, 40); (22, 11, 40); (1, 10, 41); (22, 11, 41);
    (1, 10, 63); (22, 11, 63); (0, 3, 39); (0, 3, 43); (0, 3, 124); (83, 0, 0); (85, 0, 0); (88, 0, 0)];
   (* 75 *)
   [(2, 2, 33); (9, 2, 33); (23, 2, 33); (40, 3, 33); (2, 10, 34); (9, 10, 34); (23, 10, 34); (40, 11, 34);
    (2, 10, 40); (9, 10, 40); (23, 10, 40); (40, 11, 40); (2, 10, 41); (9, 10, 41); (23, 10, 41); (40, 11, 41)];
   (* 76 *)
   [(3, 2, 33); (6, 2, 33); (10, 2, 33); (15, 2, 33); (24, 2, 33); (31, 2, 33); (41, 2, 33); (56, 3, 33);
    (3, 10, 34); (6, 10, 34); (10, 10, 34); (15, 10, 34); (24, 10, 34); (31, 10, 34); (41, 10, 34); (56, 11, 34)];
   (* 77 *)
   [(3, 10, 40); (6, 10, 40); (10, 10, 40); (15, 10, 40); (24, 10, 40); (31, 10, 40); (41, 10, 40); (56, 11, 40);
    (3, 10, 41); (6, 10, 41); (10, 10, 41); (15, 10, 41); (24, 10, 41); (31, 10, 41); (41, 10, 41); (56, 11, 41)];
   (* 78 *)
   [(2, 10, 63); (9, 10, 63); (23, 10, 63); (40, 11, 63); (1, 2, 39); (22, 3, 39); (1, 2, 43); (22, 3, 43);
    (1, 2, 124); (22, 3, 124); (0, 3, 35); (0, 11, 62); (86, 0, 0); (87, 0, 0); (89, 0, 0); (90, 0, 0)];
   (* 79 *)
   [(3, 10, 63); (6, 10, 63); (10, 10, 63); (15, 10, 63); (24, 10, 63); (31, 10, 63); (41, 10, 63); (56, 11, 63);
    (2, 2, 39); (9, 2, 39); (23, 2, 39); (40, 3, 39); (2, 2, 43); (9, 2, 43); (23, 2, 43); (40, 3, 43)];
   (* 80 *)
   [(3, 2, 39); (6, 2, 39); (10, 2, 39); (15, 2, 39); (24, 2, 39); (31, 2, 39); (41, 2, 39); (56, 3, 39);
    (3, 2, 43); (6, 2, 43); (10, 2, 43); (15, 2, 43); (24, 2, 43); (31, 2, 43); (41, 2, 43); (56, 3, 43)];
   (* 81 *)
   [(2, 2, 124); (9, 2, 124); (23, 2, 124); (40, 3, 124); (1, 2, 35); (22, 3, 35); (1, 10, 62); (22, 11, 62);
    (0, 27, 0); (0, 3, 36); (0, 11, 64); (0, 11, 91); (0, 11, 93); (0, 3, 126); (91, 0, 0); (92, 0, 0)];
   (* 82 *)
   [(3, 2, 124); (6, 2, 124); (10, 2, 124); (15, 2, 124); (24, 2, 124); (31, 2, 124); (41, 2, 124); (56, 3, 124);
    (2, 2, 35); (9, 2, 35); (23, 2, 35); (40, 3, 35); (2, 10, 62); (9, 10, 62); (23, 10, 62); (40, 11, 62)];
   (* 83 *)
   [(3, 2, 35); (6, 2, 35); (10, 2, 35); (15, 2, 35); (24, 2, 35); (31, 2, 35); (41, 2, 35); (56, 3, 35);
    (3, 10, 62); (6, 10, 62); (10, 10, 62); (15, 10, 62); (24, 10, 62); (31, 10, 62); (41, 10, 62); (56, 11, 62)];
   (* 84 *)
   [(1, 26, 0); (22, 27, 0); (1, 2, 36); (22, 3, 36); (1, 10, 64); (22, 11, 64); (1, 10, 91); (22, 11, 91);
    (1, 10, 93); (22, 11, 93); (1, 2, 126); (22, 3, 126); (0, 3, 94); (0, 11, 125); (93, 0, 0); (94, 0, 0)];
   (* 85 *)
   [(2, 26, 0); (9, 26, 0); (23, 26, 0); (40, 27, 0); (2, 2, 36); (9, 2, 36); (23, 2, 36); (40, 3, 36);
    (2, 10, 64); (9, 10, 64); (23, 10, 64); (40, 11, 64); (2, 10, 91); (9, 10, 91); (23, 10, 91); (40, 11, 91)];
   (* 86 *)
   [(3, 26, 0); (6, 26, 0); (10, 26, 0); (15, 26, 0); (24, 26, 0); (31, 26, 0); (41, 26, 0); (56, 27, 0);
    (3, 2, 36); (6, 2, 36); (10, 2, 36); (15, 2, 36); (24, 2, 36); (31, 2, 36); (41, 2, 36); (56, 3, 36)];
   (* 87 *)
   [(3, 10, 64); (6, 10, 64); (10, 10, 64); (15, 10, 64); (24, 10, 64); (31, 10, 64); (41, 10, 64); (56, 11, 64);
    (3, 10, 91); (6, 10, 91); (10, 10, 91); (15, 10, 91); (24, 10, 91); (31, 10, 91); (41, 10, 91); (56, 11, 91)];
   (* 88 *)
   [(2, 10, 93); (9, 10, 93); (23, 10, 93); (40, 11, 93); (2, 2, 126); (9, 2, 126); (23, 2, 126); (40, 3, 126);
    (1, 2, 94); (22, 3, 94); (1, 10, 125); (22, 11, 125); (0, 11, 60); (0, 3, 96); (0, 11, 123); (95, 0, 0)];
   (* 89 *)
   [(3, 10, 93); (6, 10, 93); (10, 10, 93); (15, 10, 93); (24, 10, 93); (31, 10, 93); (41, 10, 93); (56, 11, 93);
    (3, 2, 126); (6, 2, 126); (10, 2, 126); (15, 2, 126); (24, 2, 126); (31, 2, 126); (41, 2, 126); (56, 3, 126)];
   (* 90 *)
   [(2, 2, 94); (9, 2, 94); (23, 2, 94); (40, 3, 94); (2, 10, 125); (9, 10, 125); (23, 10, 125); (40, 11, 125);
    (1, 10, 60); (22, 11, 60); (1, 2, 96); (22, 3, 96); (1, 10, 123); (22, 11, 123); (96, 0, 0); (110, 0, 0)];
   (* 91 *)
   [(3, 2, 94); (6, 2, 94); (10, 2, 94); (15, 2, 94); (24, 2, 94); (31, 2, 94); (41, 2, 94); (56, 3, 94);
    (3, 10, 125); (6, 10, 125); (10, 10, 125); (15, 10, 125); (24, 10, 125); (31, 10, 125); (41, 10, 125); (56, 11, 125)];
   (* 92 *)
   [(2, 10, 60); (9, 10, 60); (23, 10, 60); (40, 11, 60); (2, 2, 96); (9, 2, 96); (23, 2, 96); (40, 3, 96);
    (2, 10, 123); (9, 10, 123); (23, 10, 123); (40, 11, 123); (97, 0, 0); (101, 0, 0); (111, 0, 0); (133, 0, 0)];
   (* 93 *)
   [(3, 10, 60); (6, 10, 60); (10, 10, 60); (15, 10, 60); (24, 10, 60); (31, 10, 60); (41, 10, 60); (56, 11, 60);
    (3, 2, 96); (6, 2, 96); (10, 2, 96); (15, 2, 96); (24, 2, 96); (31, 2, 96); (41, 2, 96); (56, 3, 96)];
   (* 94 *)
   [(3, 10, 123); (6, 10, 123); (10, 10, 123); (15, 10, 123); (24, 10, 123); (31, 10, 123); (41, 10, 123); (56, 11, 123);
    (98, 0, 0); (99, 0, 0); (102, 0, 0); (105, 0, 0); (112, 0, 0); (119, 0, 0); (134, 0, 0); (153, 0, 0)];
   (* 95 *)
   [(0, 11, 92); (0, 11, 195); (0, 11, 208); (100, 0, 0); (103, 0, 0); (104, 0, 0); (106, 0, 0); (107, 0, 0);
    (113, 0, 0); (116, 0, 0); (120, 0, 0); (126, 0, 0); (135, 0, 0); (142, 0, 0); (154, 0, 0); (169, 0, 0)];
   (* 96 *)
   [(1, 10, 92); (22, 11, 92); (1, 10, 195); (22, 11, 195); (1, 10, 208); (22, 11, 208); (0, 11, 128); (0, 11, 130);
    (0, 11, 131); (0, 11, 162); (0, 11, 184); (0, 11, 194); (0, 11, 224); (0, 11, 226); (108, 0, 0); (109, 0, 0)];
   (* 97 *)
   [(2, 10, 92); (9, 10, 92); (23, 10, 92); (40, 11, 92); (2, 10, 195); (9, 10, 195); (23, 10, 195); (40, 11, 195);
    (2, 10, 208); (9, 10, 208); (23, 10, 208); (40, 11, 208); (1, 10, 128); (22, 11, 128); (1, 10, 130); (22, 11, 130)];
   (* 98 *)
   [(3, 10, 92); (6, 10, 92); (10, 10, 92); (15, 10, 92); (24, 10, 92); (31, 10, 92); (41, 10, 92); (56, 11, 92);
    (3, 10, 195); (6, 10, 195); (10, 10, 195); (15, 10, 195); (24, 10, 195); (31, 10, 195); (41, 10, 195); (56, 11, 195)];
   (* 99 *)
   [(3, 10, 208); (6, 10, 208); (10, 10, 208); (15, 10, 208); (24, 10, 208); (31, 10, 208); (41, 10, 208); (56, 11, 208);
    (2, 10, 128); (9, 10, 128); (23, 10, 128); (40, 11, 128); (2, 10, 130); (9, 10, 130); (23, 10, 130); (40, 11, 130)];
   (* 100 *)
   [(3, 10, 128); (6, 10, 128); (10, 10, 128); (15, 10, 128); (24, 10, 128); (31, 10, 128); (41, 10, 128); (56, 11, 128);
    (3, 10, 130); (6, 10, 130); (10, 10, 130); (15, 10, 130); (24, 10, 130); (31, 10, 130); (41, 10, 130); (56, 11, 130)];
   (* 101 *)
   [(1, 10, 131); (22, 11, 131); (1, 10, 162); (22, 11, 162); (1, 10, 184); (22, 11, 184); (1, 10, 194); (22, 11, 194);
    (1, 10, 224); (22, 11, 224); (1, 10, 226); (22, 11, 226); (0, 11, 153); (0, 11, 161); (0, 11, 167); (0, 11, 172)];
   (* 102 *)
   [(2, 10, 131); (9, 10, 131); (23, 10, 131); (40, 11, 131); (2, 10, 162); (9, 10, 162); (23, 10, 162); (40, 11, 162);
    (2, 10, 184); (9, 10, 184); (23, 10, 184); (40, 11, 184); (2, 10, 194); (9, 10, 194); (23, 10, 194); (40, 11, 194)];
   (* 103 *)
   [(3, 10, 131); (6, 10, 131); (10, 10, 131); (15, 10, 131); (24, 10, 131); (31, 10, 131); (41, 10, 131); (56, 11, 131);
    (3, 10, 162); (6, 10, 162); (10, 10, 162); (15, 10, 162); (24, 10, 162); (31, 10, 162); (41, 10, 162); (56, 11, 162)];
   (* 104 *)
   [(3, 10, 184); (6, 10, 184); (10, 10, 184); (15, 10, 184); (24, 10, 184); (31, 10, 184); (41, 10, 184); (56, 11, 184);
    (3, 10, 194); (6, 10, 194); (10, 10, 194); (15, 10, 194); (24, 10, 194); (31, 10, 194); (41, 10, 194); (56, 11, 194)];
   (* 105 *)
   [(2, 10, 224); (9, 10, 224); (23, 10, 224); (40, 11, 224); (2, 10, 226); (9, 10, 226); (23, 10, 226); (40, 11, 226);
    (1, 10, 153); (22, 11, 153); (1, 10, 161); (22, 11, 161); (1, 10, 167); (22, 11, 167); (1, 10, 172); (22, 11, 172)];
   (* 106 *)
   [(3, 10, 224); (6, 10, 224); (10, 10, 224); (15, 10, 224); (24, 10, 224); (31, 10, 224); (41, 10, 224); (56, 11, 224);
    (3, 10, 226); (6, 10, 226); (10, 10, 226); (15, 10, 226); (24, 10, 226); (31, 10, 226); (41, 10, 226); (56, 11, 226)];
   (* 107 *)
   [(2, 10, 153); (9, 10, 153); (23, 10, 153); (40, 11, 153); (2, 10, 161); (9, 10, 161); (23, 10, 161); (40, 11, 161);
    (2, 10, 167); (9, 10, 167); (23, 10, 167); (40, 11, 167); (2, 10, 172); (9, 10, 172); (23, 10, 172); (40, 11, 172)];
   (* 108 *)
   [(3, 10, 153); (6, 10, 153); (10, 10, 153); (15, 10, 153); (24, 10, 153); (31, 10, 153); (41, 10, 153); (56, 11, 153);
    (3, 10, 161); (6, 10, 161); (10, 10, 161); (15, 10, 161); (24, 10, 161); (31, 10, 161); (41, 10, 161); (56, 11, 161)];
   (* 109 *)
   [(3, 10, 167); (6, 10, 167); (10, 10, 167); (15, 10, 167); (24, 10, 167); (31, 10, 167); (41, 10, 167); (56, 11, 167);
    (3, 10, 172); (6, 10, 172); (10, 10, 172); (15, 10, 172); (24, 10, 172); (31, 10, 172); (41, 10, 172); (56, 11, 172)];
   (* 110 *)
   [(114, 0, 0); (115, 0, 0); (117, 0, 0); (118, 0, 0); (121, 0, 0); (123, 0, 0); (127, 0, 0); (130, 0, 0);
    (136, 0, 0); (139, 0, 0); (143, 0, 0); (146, 0, 0); (155, 0, 0); (162, 0, 0); (170, 0, 0); (180, 0, 0)];
   (* 111 *)
   [(0, 11, 176); (0, 11, 177); (0, 11, 179); (0, 11, 209); (0, 11, 216); (0, 11, 217); (0, 11, 227); (0, 11, 229);
    (0, 11, 230); (122, 0, 0); (124, 0, 0); (125, 0, 0); (128, 0, 0); (129, 0, 0); (131, 0, 0); (132, 0, 0)];
   (* 112 *)
   [(1, 10, 176); (22, 11, 176); (1, 10, 177); (22, 11, 177); (1, 10, 179); (22, 11, 179); (1, 10, 209); (22, 11, 209);
    (1, 10, 216); (22, 11, 216); (1, 10, 217); (22, 11, 217); (1, 10, 227); (22, 11, 227); (1, 10, 229); (22, 11, 229)];
   (* 113 *)
   [(2, 10, 176); (9, 10, 176); (23, 10, 176); (40, 11, 176); (2, 10, 177); (9, 10, 177); (23, 10, 177); (40, 11, 177);
    (2, 10, 179); (9, 10, 179); (23, 10, 179); (40, 11, 179); (2, 10, 209); (9, 10, 209); (23, 10, 209); (40, 11, 209)];
   (* 114 *)
   [(3, 10, 176); (6, 10, 176); (10, 10, 176); (15, 10, 176); (24, 10, 176); (31, 10, 176); (41, 10, 176); (56, 11, 176);
    (3, 10, 177); (6, 10, 177); (10, 10, 177); (15, 10, 177); (24, 10, 177); (31, 10, 177); (41, 10, 177); (56, 11, 177)];
   (* 115 *)
   [(3, 10, 179); (6, 10, 179); (10, 10, 179); (15, 10, 179); (24, 10, 179); (31, 10, 179); (41, 10, 179); (56, 11, 179);
    (3, 10, 209); (6, 10, 209); (10, 10, 209); (15, 10, 209); (24, 10, 209); (31, 10, 209); (41, 10, 209); (56, 11, 209)];
   (* 116 *)
   [(2, 10, 216); (9, 10, 216); (23, 10, 216); (40, 11, 216); (2, 10, 217); (9, 10, 217); (23, 10, 217); (40, 11, 217);
    (2, 10, 227); (9, 10, 227); (23, 10, 227); (40, 11, 227); (2, 10, 229); (9, 10, 229); (23, 10, 229); (40, 11, 229)];
   (* 117 *)
   [(3, 10, 216); (6, 10, 216); (10, 10, 216); (15, 10, 216); (24, 10, 216); (31, 10, 216); (41, 10, 216); (56, 11, 216);
    (3, 10, 217); (6, 10, 217); (10, 10, 217); (15, 10, 217); (24, 10, 217); (31, 10, 217); (41, 10, 217); (56, 11, 217)];
   (* 118 *)
   [(3, 10, 227); (6, 10, 227); (10, 10, 227); (15, 10, 227); (24, 10, 227); (31, 10, 227); (41, 10, 227); (56, 11, 227);
    (3, 10, 229); (6, 10, 229); (10, 10, 229); (15, 10, 229); (24, 10, 229); (31, 10, 229); (41, 10, 229); (56, 11, 229)];
   (* 119 *)
   [(1, 10, 230); (22, 11, 230); (0, 11, 129); (0, 11, 132); (0, 11, 133); (0, 11, 134); (0, 11, 136); (0, 11, 146);
    (0, 11, 154); (0, 11, 156); (0, 11, 160); (0, 11, 163); (0, 11, 164); (0, 11, 169); (0, 11, 170); (0, 11, 173)];
   (* 120 *)
   [(2, 10, 230); (9, 10, 230); (23, 10, 230); (40, 11, 230); (1, 10, 129); (22, 11, 129); (1, 10, 132); (22, 11, 132);
    (1, 10, 133); (22, 11, 133); (1, 10, 134); (22, 11, 134); (1, 10, 136); (22, 11, 136); (1, 10, 146); (22, 11, 146)];
   (* 121 *)
   [(3, 10, 230); (6, 10, 230); (10, 10, 230); (15, 10, 230); (24, 10, 230); (31, 10, 230); (41, 10, 230); (56, 11, 230);
    (2, 10, 129); (9, 10, 129); (23, 10, 129); (40, 11, 129); (2, 10, 132); (9, 10, 132); (23, 10, 132); (40, 11, 132)];
   (* 122 *)
   [(3, 10, 129); (6, 10, 129); (10, 10, 129); (15, 10, 129); (24, 10, 129); (31, 10, 129); (41, 10, 129); (56, 11, 129);
    (3, 10, 132); (6, 10, 132); (10, 10, 132); (15, 10, 132); (24, 10, 132); (31, 10, 132); (41, 10, 132); (56, 11, 132)];
   (* 123 *)
   [(2, 10, 133); (9, 10, 133); (23, 10, 133); (40, 11, 133); (2, 10, 134); (9, 10, 134); (23, 10, 134); (40, 11, 134);
    (2, 10, 136); (9, 10, 136); (23, 10, 136); (40, 11, 136); (2, 10, 146); (9, 10, 146); (23, 10, 146); (40, 11, 146)];
   (* 124 *)
   [(3, 10, 133); (6, 10, 133); (10, 10, 133); (15, 10, 133); (24, 10, 133); (31, 10, 133); (41, 10, 133); (56, 11, 133);
    (3, 10, 134); (6, 10, 134); (10, 10, 134); (15, 10, 134); (24, 10, 134); (31, 10, 134); (41, 10, 134); (56, 11, 134)];
   (* 125 *)
   [(3, 10, 136); (6, 10, 136); (10, 10, 136); (15, 10, 136); (24, 10, 136); (31, 10, 136); (41, 10, 136); (56, 11, 136);
    (3, 10, 146); (6, 10, 146); (10, 10, 146); (15, 10, 146); (24, 10, 146); (31, 10, 146); (41, 10, 146); (56, 11, 146)];
   (* 126 *)
   [(1, 10, 154); (22, 11, 154); (1, 10, 156); (22, 11, 156); (1, 10, 160); (22, 11, 160); (1, 10, 163); (22, 11, 163);
    (1, 10, 164); (22, 11, 164); (1, 10, 169); (22, 11, 169); (1, 10, 170); (22, 11, 170); (1, 10, 173); (22, 11, 173)];
   (* 127 *)
   [(2, 10, 154); (9, 10, 154); (23, 10, 154); (40, 11, 154); (2, 10, 156); (9, 10, 156); (23, 10, 156); (40, 11, 156);
    (2, 10, 160); (9, 10, 160); (23, 10, 160); (40, 11, 160); (2, 10, 163); (9, 10, 163); (23, 10, 163); (40, 11, 163)];
   (* 128 *)
   [(3, 10, 154); (6, 10, 154); (10, 10, 154); (15, 10, 154); (24, 10, 154); (31, 10, 154); (41, 10, 154); (56, 11, 154);
    (3, 10, 156); (6, 10, 156); (10, 10, 156); (15, 10, 156); (24, 10, 156); (31, 10, 156); (41, 10, 156); (56, 11, 156)];
   (* 129 *)
   [(3, 10, 160); (6, 10, 160); (10, 10, 160); (15, 10, 160); (24, 10, 160); (31, 10, 160); (41, 10, 160); (56, 11, 160);
    (3, 10, 163); (6, 10, 163); (10, 10, 163); (15, 10, 163); (24, 10, 163); (31, 10, 163); (41, 10, 163); (56, 11, 163)];
   (* 130 *)
   [(2, 10, 164); (9, 10, 164); (23, 10, 164); (40, 11, 164); (2, 10, 169); (9, 10, 169); (23, 10, 169); (40, 11, 169);
    (2, 10, 170); (9, 10, 170); (23, 10, 170); (40, 11, 170); (2, 10, 173); (9, 10, 173); (23, 10, 173); (40, 11, 173)];
   (* 131 *)
   [(3, 10, 164); (6, 10, 164); (10, 10, 164); (15, 10, 164); (24, 10, 164); (31, 10, 164); (41, 10, 164); (56, 11, 164);
    (3, 10, 169); (6, 10, 169); (10, 10, 169); (15, 10, 169); (24, 10, 169); (31, 10, 169); (41, 10, 169); (56, 11, 169)];
   (* 132 *)
   [(3, 10, 170); (6, 10, 170); (10, 10, 170); (15, 10, 170); (24, 10, 170); (31, 10, 170); (41, 10, 170); (56, 11, 170);
    (3, 10, 173); (6, 10, 173); (10, 10, 173); (15, 10, 173); (24, 10, 173); (31, 10, 173); (41, 10, 173); (56, 11, 173)];
   (* 133 *)
   [(137, 0, 0); (138, 0, 0); (140, 0, 0); (141, 0, 0); (144, 0, 0); (145, 0, 0); (147, 0, 0); (150, 0, 0);
    (156, 0, 0); (159, 0, 0); (163, 0, 0); (166, 0, 0); (171, 0, 0); (174, 0, 0); (181, 0, 0); (190, 0, 0)];
   (* 134 *)
   [(0, 11, 178); (0, 11, 181); (0, 11, 185); (0, 11, 186); (0, 11, 187); (0, 11, 189); (0, 11, 190); (0, 11, 196);
    (0, 11, 198); (0, 11, 228); (0, 11, 232); (0, 11, 233); (148, 0, 0); (149, 0, 0); (151, 0, 0); (152, 0, 0)];
   (* 135 *)
   [(1, 10, 178); (22, 11, 178); (1, 10, 181); (22, 11, 181); (1, 10, 185); (22, 11, 185); (1, 10, 186); (22, 11, 186);
    (1, 10, 187); (22, 11, 187); (1, 10, 189); (22, 11, 189); (1, 10, 190); (22, 11, 190); (1, 10, 196); (22, 11, 196)];
   (* 136 *)
   [(2, 10, 178); (9, 10, 178); (23, 10, 178); (40, 11, 178); (2, 10, 181); (9, 10, 181); (23, 10, 181); (40, 11, 181);
    (2, 10, 185); (9, 10, 185); (23, 10, 185); (40, 11, 185); (2, 10, 186); (9, 10, 186); (23, 10, 186); (40, 11, 186)];
   (* 137 *)
   [(3, 10, 178); (6, 10, 178); (10, 10, 178); (15, 10, 178); (24, 10, 178); (31, 10, 178); (41, 10, 178); (56, 11, 178);
    (3, 10, 181); (6, 10, 181); (10, 10, 181); (15, 10, 181); (24, 10, 181); (31, 10, 181); (41, 10, 181); (56, 11, 181)];
   (* 138 *)
   [(3, 10, 185); (6, 10, 185); (10, 10, 185); (15, 10, 185); (24, 10, 185); (31, 10, 185); (41, 10, 185); (56, 11, 185);
    (3, 10, 186); (6, 10, 186); (10, 10, 186); (15, 10, 186); (24, 10, 186); (31, 10, 186); (41, 10, 186); (56, 11, 186)];
   (* 139 *)
   [(2, 10, 187); (9, 10, 187); (23, 10, 187); (40, 11, 187); (2, 10, 189); (9, 10, 189); (23, 10, 189); (40, 11, 189);
    (2, 10, 190); (9, 10, 190); (23, 10, 190); (40, 11, 190); (2, 10, 196); (9, 10, 196); (23, 10, 196); (40, 11, 196)];
   (* 140 *)
   [(3, 10, 187); (6, 10, 187); (10, 10, 187); (15, 10, 187); (24, 10, 187); (31, 10, 187); (41, 10, 187); (56, 11, 187);
    (3, 10, 189); (6, 10, 189); (10, 10, 189); (15, 10, 189); (24, 10, 189); (31, 10, 189); (41, 10, 189); (56, 11, 189)];
   (* 141 *)
   [(3, 10, 190); (6, 10, 190); (10, 10, 190); (15, 10, 190); (24, 10, 190); (31, 10, 190); (41, 10, 190); (56, 11, 190);
    (3, 10, 196); (6, 10, 196); (10, 10, 196); (15, 10, 196); (24, 10, 196); (31, 10, 196); (41, 10, 196); (56, 11, 196)];
   (* 142 *)
   [(1, 10, 198); (22, 11, 198); (1, 10, 228); (22, 11, 228); (1, 10, 232); (22, 11, 232); (1, 10, 233); (22, 11, 233);
    (0, 27, 1); (0, 11, 135); (0, 11, 137); (0, 11, 138); (0, 11, 139); (0, 11, 140); (0, 11, 141); (0, 11, 143)];
   (* 143 *)
   [(2, 10, 198); (9, 10, 198); (23, 10, 198); (40, 11, 198); (2, 10, 228); (9, 10, 228); (23, 10, 228); (40, 11, 228);
    (2, 10, 232); (9, 10, 232); (23, 10, 232); (40, 11, 232); (2, 10, 233); (9, 10, 233); (23, 10, 233); (40, 11, 233)];
   (* 144 *)
   [(3, 10, 198); (6, 10, 198); (10, 10, 198); (15, 10, 198); (24, 10, 198); (31, 10, 198); (41, 10, 198); (56, 11, 198);
    (3, 10, 228); (6, 10, 228); (10, 10, 228); (15, 10, 228); (24, 10, 228); (31, 10, 228); (41, 10, 228); (56, 11, 228)];
   (* 145 *)
   [(3, 10, 232); (6, 10, 232); (10, 10, 232); (15, 10, 232); (24, 10, 232); (31, 10, 232); (41, 10, 232); (56, 11, 232);
    (3, 10, 233); (6, 10, 233); (10, 10, 233); (15, 10, 233); (24, 10, 233); (31, 10, 233); (41, 10, 233); (56, 11, 233)];
   (* 146 *)
   [(1, 26, 1); (22, 27, 1); (1, 10, 135); (22, 11, 135); (1, 10, 137); (22, 11, 137); (1, 10, 138); (22, 11, 138);
    (1, 10, 139); (22, 11, 139); (1, 10, 140); (22, 11, 140); (1, 10, 141); (22, 11, 141); (1, 10, 143); (22, 11, 143)];
   (* 147 *)
   [(2, 26, 1); (9, 26, 1); (23, 26, 1); (40, 27, 1); (2, 10, 135); (9, 10, 135); (23, 10, 135); (40, 11, 135);
    (2, 10, 137); (9, 10, 137); (23, 10, 137); (40, 11, 137); (2, 10, 138); (9, 10, 138); (23, 10, 138); (40, 11, 138)];
   (* 148 *)
   [(3, 26, 1); (6, 26, 1); (10, 26, 1); (15, 26, 1); (24, 26, 1); (31, 26, 1); (41, 26, 1); (56, 27, 1);
    (3, 10, 135); (6, 10, 135); (10, 10, 135); (15, 10, 135); (24, 10, 135); (31, 10, 135); (41, 10, 135); (56, 11, 135)];
   (* 149 *)
   [(3, 10, 137); (6, 10, 137); (10, 10, 137); (15, 10, 137); (24, 10, 137); (31, 10, 137); (41, 10, 137); (56, 11, 137);
    (3, 10, 138); (6, 10, 138); (10, 10, 138); (15, 10, 138); (24, 10, 138); (31, 10, 138); (41, 10, 138); (56, 11, 138)];
   (* 150 *)
   [(2, 10, 139); (9, 10, 139); (23, 10, 139); (40, 11, 139); (2, 10, 140); (9, 10, 140); (23, 10, 140); (40, 11, 140);
    (2, 10, 141); (9, 10, 141); (23, 10, 141); (40, 11, 141); (2, 10, 143); (9, 10, 143); (23, 10, 143); (40, 11, 143)];
   (* 151 *)
   [(3, 10, 139); (6, 10, 139); (10, 10, 139); (15, 10, 139); (24, 10, 139); (31, 10, 139); (41, 10, 139); (56, 11, 139);
    (3, 10, 140); (6, 10, 140); (10, 10, 140); (15, 10, 140); (24, 10, 140); (31, 10, 140); (41, 10, 140); (56, 11, 140)];
   (* 152 *)
   [(3, 10, 141); (6, 10, 141); (10, 10, 141); (15, 10, 141); (24, 10, 141); (31, 10, 141); (41, 10, 141); (56, 11, 141);
    (3, 10, 143); (6, 10, 143); (10, 10, 143); (15, 10, 143); (24, 10, 143); (31, 10, 143); (41, 10, 143); (56, 11, 143)];
   (* 153 *)
   [(157, 0, 0); (158, 0, 0); (160, 0, 0); (161, 0, 0); (164, 0, 0); (165, 0, 0); (167, 0, 0); (168, 0, 0);
    (172, 0, 0); (173, 0, 0); (175, 0, 0); (177, 0, 0); (182, 0, 0); (185, 0, 0); (191, 0, 0); (207, 0, 0)];
   (* 154 *)
   [(0, 11, 147); (0, 11, 149); (0, 11, 150); (0, 11, 151); (0, 11, 152); (0, 11, 155); (0, 11, 157); (0, 11, 158);
    (0, 11, 165); (0, 11, 166); (0, 11, 168); (0, 11, 174); (0, 11, 175); (0, 11, 180); (0, 11, 182); (0, 11, 183)];
   (* 155 *)
   [(1, 10, 147); (22, 11, 147); (1, 10, 149); (22, 11, 149); (1, 10, 150); (22, 11, 150); (1, 10, 151); (22, 11, 151);
    (1, 10, 152); (22, 11, 152); (1, 10, 155); (22, 11, 155); (1, 10, 157); (22, 11, 157); (1, 10, 158); (22, 11, 158)];
   (* 156 *)
   [(2, 10, 147); (9, 10, 147); (23, 10, 147); (40, 11, 147); (2, 10, 149); (9, 10, 149); (23, 10, 149); (40, 11, 149);
    (2, 10, 150); (9, 10, 150); (23, 10, 150); (40, 11, 150); (2, 10, 151); (9, 10, 151); (23, 10, 151); (40, 11, 151)];
   (* 157 *)
   [(3, 10, 147); (6, 10, 147); (10, 10, 147); (15, 10, 147); (24, 10, 147); (31, 10, 147); (41, 10, 147); (56, 11, 147);
    (3, 10, 149); (6, 10, 149); (10, 10, 149); (15, 10, 149); (24, 10, 149); (31, 10, 149); (41, 10, 149); (56, 11, 149)];
   (* 158 *)
   [(3, 10, 150); (6, 10, 150); (10, 10, 150); (15, 10, 150); (24, 10, 150); (31, 10, 150); (41, 10, 150); (56, 11, 150);
    (3, 10, 151); (6, 10, 151); (10, 10, 151); (15, 10, 151); (24, 10, 151); (31, 10, 151); (41, 10, 151); (56, 11, 151)];
   (* 159 *)
   [(2, 10, 152); (9, 10, 152); (23, 10, 152); (40, 11, 152); (2, 10, 155); (9, 10, 155); (23, 10, 155); (40, 11, 155);
    (2, 10, 157); (9, 10, 157); (23, 10, 157); (40, 11, 157); (2, 10, 158); (9, 10, 158); (23, 10, 158); (40, 11, 158)];
   (* 160 *)
   [(3, 10, 152); (6, 10, 152); (10, 10, 152); (15, 10, 152); (24, 10, 152); (31, 10, 152); (41, 10, 152); (56, 11, 152);
    (3, 10, 155); (6, 10, 155); (10, 10, 155); (15, 10, 155); (24, 10, 155); (31, 10, 155); (41, 10, 155); (56, 11, 155)];
   (* 161 *)
   [(3, 10, 157); (6, 10, 157); (10, 10, 157); (15, 10, 157); (24, 10, 157); (31, 10, 157); (41, 10, 157); (56, 11, 157);
    (3, 10, 158); (6, 10, 158); (10, 10, 158); (15, 10, 158); (24, 10, 158); (31, 10, 158); (41, 10, 158); (56, 11, 158)];
   (* 162 *)
   [(1, 10, 165); (22, 11, 165); (1, 10, 166); (22, 11, 166); (1, 10, 168); (22, 11, 168); (1, 10, 174); (22, 11, 174);
    (1, 10, 175); (22, 11, 175); (1, 10, 180); (22, 11, 180); (1, 10, 182); (22, 11, 182); (1, 10, 183); (22, 11, 183)];
   (* 163 *)
   [(2, 10, 165); (9, 10, 165); (23, 10, 165); (40, 11, 165); (2, 10, 166); (9, 10, 166); (23, 10, 166); (40, 11, 166);
    (2, 10, 168); (9, 10, 168); (23, 10, 168); (40, 11, 168); (2, 10, 174); (9, 10, 174); (23, 10, 174); (40, 11, 174)];
   (* 164 *)
   [(3, 10, 165); (6, 10, 165); (10, 10, 165); (15, 10, 165); (24, 10, 165); (31, 10, 165); (41, 10, 165); (56, 11, 165);
    (3, 10, 166); (6, 10, 166); (10, 10, 166); (15, 10, 166); (24, 10, 166); (31, 10, 166); (41, 10, 166); (56, 11, 166)];
   (* 165 *)
   [(3, 10, 168); (6, 10, 168); (10, 10, 168); (15, 10, 168); (24, 10, 168); (31, 10, 168); (41, 10, 168); (56, 11, 168);
    (3, 10, 174); (6, 10, 174); (10, 10, 174); (15, 10, 174); (24, 10, 174); (31, 10, 174); (41, 10, 174); (56, 11, 174)];
   (* 166 *)
   [(2, 10, 175); (9, 10, 175); (23, 10, 175); (40, 11, 175); (2, 10, 180); (9, 10, 180); (23, 10, 180); (40, 11, 180);
    (2, 10, 182); (9, 10, 182); (23, 10, 182); (40, 11, 182); (2, 10, 183); (9, 10, 183); (23, 10, 183); (40, 11, 183)];
   (* 167 *)
   [(3, 10, 175); (6, 10, 175); (10, 10, 175); (15, 10, 175); (24, 10, 175); (31, 10, 175); (41, 10, 175); (56, 11, 175);
    (3, 10, 180); (6, 10, 180); (10, 10, 180); (15, 10, 180); (24, 10, 180); (31, 10, 180); (41, 10, 180); (56, 11, 180)];
   (* 168 *)
   [(3, 10, 182); (6, 10, 182); (10, 10, 182); (15, 10, 182); (24, 10, 182); (31, 10, 182); (41, 10, 182); (56, 11, 182);
    (3, 10, 183); (6, 10, 183); (10, 10, 183); (15, 10, 183); (24, 10, 183); (31, 10, 183); (41, 10, 183); (56, 11, 183)];
   (* 169 *)
   [(0, 11, 188); (0, 11, 191); (0, 11, 197); (0, 11, 231); (0, 11, 239); (176, 0, 0); (178, 0, 0); (179, 0, 0);
    (183, 0, 0); (184, 0, 0); (186, 0, 0); (187, 0, 0); (192, 0, 0); (199, 0, 0); (208, 0, 0); (223, 0, 0)];
   (* 170 *)
   [(1, 10, 188); (22, 11, 188); (1, 10, 191); (22, 11, 191); (1, 10, 197); (22, 11, 197); (1, 10, 231); (22, 11, 231);
    (1, 10, 239); (22, 11, 239); (0, 11, 9); (0, 11, 142); (0, 11, 144); (0, 11, 145); (0, 11, 148); (0, 11, 159)];
   (* 171 *)
   [(2, 10, 188); (9, 10, 188); (23, 10, 188); (40, 11, 188); (2, 10, 191); (9, 10, 191); (23, 10, 191); (40, 11, 191);
    (2, 10, 197); (9, 10, 197); (23, 10, 197); (40, 11, 197); (2, 10, 231); (9, 10, 231); (23, 10, 231); (40, 11, 231)];
   (* 172 *)
   [(3, 10, 188); (6, 10, 188); (10, 10, 188); (15, 10, 188); (24, 10, 188); (31, 10, 188); (41, 10, 188); (56, 11, 188);
    (3, 10, 191); (6, 10, 191); (10, 10, 191); (15, 10, 191); (24, 10, 191); (31, 10, 191); (41, 10, 191); (56, 11, 191)];
   (* 173 *)
   [(3, 10, 197); (6, 10, 197); (10, 10, 197); (15, 10, 197); (24, 10, 197); (31, 10, 197); (41, 10, 197); (56, 11, 197);
    (3, 10, 231); (6, 10, 231); (10, 10, 231); (15, 10, 231); (24, 10, 231); (31, 10, 231); (41, 10, 231); (56, 11, 231)];
   (* 174 *)
   [(2, 10, 239); (9, 10, 239); (23, 10, 239); (40, 11, 239); (1, 10, 9); (22, 11, 9); (1, 10, 142); (22, 11, 142);
    (1, 10, 144); (22, 11, 144); (1, 10, 145); (22, 11, 145); (1, 10, 148); (22, 11, 148); (1, 10, 159); (22, 11, 159)];
   (* 175 *)
   [(3, 10, 239); (6, 10, 239); (10, 10, 239); (15, 10, 239); (24, 10, 239); (31, 10, 239); (41, 10, 239); (56, 11, 239);
    (2, 10, 9); (9, 10, 9); (23, 10, 9); (40, 11, 9); (2, 10, 142); (9, 10, 142); (23, 10, 142); (40, 11, 142)];
   (* 176 *)
   [(3, 10, 9); (6, 10, 9); (10, 10, 9); (15, 10, 9); (24, 10, 9); (31, 10, 9); (41, 10, 9); (56, 11, 9);
    (3, 10, 142); (6, 10, 142); (10, 10, 142); (15, 10, 142); (24, 10, 142); (31, 10, 142); (41, 10, 142); (56, 11, 142)];
   (* 177 *)
   [(2, 10, 144); (9, 10, 144); (23, 10, 144); (40, 11, 144); (2, 10, 145); (9, 10, 145); (23, 10, 145); (40, 11, 145);
    (2, 10, 148); (9, 10, 148); (23, 10, 148); (40, 11, 148); (2, 10, 159); (9, 10, 159); (23, 10, 159); (40, 11, 159)];
   (* 178 *)
   [(3, 10, 144); (6, 10, 144); (10, 10, 144); (15, 10, 144); (24, 10, 144); (31, 10, 144); (41, 10, 144); (56, 11, 144);
    (3, 10, 145); (6, 10, 145); (10, 10, 145); (15, 10, 145); (24, 10, 145); (31, 10, 145); (41, 10, 145); (56, 11, 145)];
   (* 179 *)
   [(3, 10, 148); (6, 10, 148); (10, 10, 148); (15, 10, 148); (24, 10, 148); (31, 10, 148); (41, 10, 148); (56, 11, 148);
    (3, 10, 159); (6, 10, 159); (10, 10, 159); (15, 10, 159); (24, 10, 159); (31, 10, 159); (41, 10, 159); (56, 11, 159)];
   (* 180 *)
   [(0, 11, 171); (0, 11, 206); (0, 11, 215); (0, 11, 225); (0, 11, 236); (0, 11, 237); (188, 0, 0); (189, 0, 0);
    (193, 0, 0); (196, 0, 0); (200, 0, 0); (203, 0, 0); (209, 0, 0); (216, 0, 0); (224, 0, 0); (238, 0, 0)];
   (* 181 *)
   [(1, 10, 171); (22, 11, 171); (1, 10, 206); (22, 11, 206); (1, 10, 215); (22, 11, 215); (1, 10, 225); (22, 11, 225);
    (1, 10, 236); (22, 11, 236); (1, 10, 237); (22, 11, 237); (0, 11, 199); (0, 11, 207); (0, 11, 234); (0, 11, 235)];
   (* 182 *)
   [(2, 10, 171); (9, 10, 171); (23, 10, 171); (40, 11, 171); (2, 10, 206); (9, 10, 206); (23, 10, 206); (40, 11, 206);
    (2, 10, 215); (9, 10, 215); (23, 10, 215); (40, 11, 215); (2, 10, 225); (9, 10, 225); (23, 10, 225); (40, 11, 225)];
   (* 183 *)
   [(3, 10, 171); (6, 10, 171); (10, 10, 171); (15, 10, 171); (24, 10, 171); (31, 10, 171); (41, 10, 171); (56, 11, 171);
    (3, 10, 206); (6, 10, 206); (10, 10, 206); (15, 10, 206); (24, 10, 206); (31, 10, 206); (41, 10, 206); (56, 11, 206)];
   (* 184 *)
   [(3, 10, 215); (6, 10, 215); (10, 10, 215); (15, 10, 215); (24, 10, 215); (31, 10, 215); (41, 10, 215); (56, 11, 215);
    (3, 10, 225); (6, 10, 225); (10, 10, 225); (15, 10, 225); (24, 10, 225); (31, 10, 225); (41, 10, 225); (56, 11, 225)];
   (* 185 *)
   [(2, 10, 236); (9, 10, 236); (23, 10, 236); (40, 11, 236); (2, 10, 237); (9, 10, 237); (23, 10, 237); (40, 11, 237);
    (1, 10, 199); (22, 11, 199); (1, 10, 207); (22, 11, 207); (1, 10, 234); (22, 11, 234); (1, 10, 235); (22, 11, 235)];
   (* 186 *)
   [(3, 10, 236); (6, 10, 236); (10, 10, 236); (15, 10, 236); (24, 10, 236); (31, 10, 236); (41, 10, 236); (56, 11, 236);
    (3, 10, 237); (6, 10, 237); (10, 10, 237); (15, 10, 237); (24, 10, 237); (31, 10, 237); (41, 10, 237); (56, 11, 237)];
   (* 187 *)
   [(2, 10, 199); (9, 10, 199); (23, 10, 199); (40, 11, 199); (2, 10, 207); (9, 10, 207); (23, 10, 207); (40, 11, 207);
    (2, 10, 234); (9, 10, 234); (23, 10, 234); (40, 11, 234); (2, 10, 235); (9, 10, 235); (23, 10, 235); (40, 11, 235)];
   (* 188 *)
   [(3, 10, 199); (6, 10, 199); (10, 10, 199); (15, 10, 199); (24, 10, 199); (31, 10, 199); (41, 10, 199); (56, 11, 199);
    (3, 10, 207); (6, 10, 207); (10, 10, 207); (15, 10, 207); (24, 10, 207); (31, 10, 207); (41, 10, 207); (56, 11, 207)];
   (* 189 *)
   [(3, 10, 234); (6, 10, 234); (10, 10, 234); (15, 10, 234); (24, 10, 234); (31, 10, 234); (41, 10, 234); (56, 11, 234);
    (3, 10, 235); (6, 10, 235); (10, 10, 235); (15, 10, 235); (24, 10, 235); (31, 10, 235); (41, 10, 235); (56, 11, 235)];
   (* 190 *)
   [(194, 0, 0); (195, 0, 0); (197, 0, 0); (198, 0, 0); (201, 0, 0); (202, 0, 0); (204, 0, 0); (205, 0, 0);
    (210, 0, 0); (213, 0, 0); (217, 0, 0); (220, 0, 0); (225, 0, 0); (231, 0, 0); (239, 0, 0); (246, 0, 0)];
   (* 191 *)
   [(0, 11, 192); (0, 11, 193); (0, 11, 200); (0, 11, 201); (0, 11, 202); (0, 11, 205); (0, 11, 210); (0, 11, 213);
    (0, 11, 218); (0, 11, 219); (0, 11, 238); (0, 11, 240); (0, 11, 242); (0, 11, 243); (0, 11, 255); (206, 0, 0)];
   (* 192 *)
   [(1, 10, 192); (22, 11, 192); (1, 10, 193); (22, 11, 193); (1, 10, 200); (22, 11, 200); (1, 10, 201); (22, 11, 201);
    (1, 10, 202); (22, 11, 202); (1, 10, 205); (22, 11, 205); (1, 10, 210); (22, 11, 210); (1, 10, 213); (22, 11, 213)];
   (* 193 *)
   [(2, 10, 192); (9, 10, 192); (23, 10, 192); (40, 11, 192); (2, 10, 193); (9, 10, 193); (23, 10, 193); (40, 11, 193);
    (2, 10, 200); (9, 10, 200); (23, 10, 200); (40, 11, 200); (2, 10, 201); (9, 10, 201); (23, 10, 201); (40, 11, 201)];
   (* 194 *)
   [(3, 10, 192); (6, 10, 192); (10, 10, 192); (15, 10, 192); (24, 10, 192); (31, 10, 192); (41, 10, 192); (56, 11, 192);
    (3, 10, 193); (6, 10, 193); (10, 10, 193); (15, 10, 193); (24, 10, 193); (31, 10, 193); (41, 10, 193); (56, 11, 193)];
   (* 195 *)
   [(3, 10, 200); (6, 10, 200); (10, 10, 200); (15, 10, 200); (24, 10, 200); (31, 10, 200); (41, 10, 200); (56, 11, 200);
    (3, 10, 201); (6, 10, 201); (10, 10, 201); (15, 10, 201); (24, 10, 201); (31, 10, 201); (41, 10, 201); (56, 11, 201)];
   (* 196 *)
   [(2, 10, 202); (9, 10, 202); (23, 10, 202); (40, 11, 202); (2, 10, 205); (9, 10, 205); (23, 10, 205); (40, 11, 205);
    (2, 10, 210); (9, 10, 210); (23, 10, 210); (40, 11, 210); (2, 10, 213); (9, 10, 213); (23, 10, 213); (40, 11, 213)];
   (* 197 *)
   [(3, 10, 202); (6, 10, 202); (10, 10, 202); (15, 10, 202); (24, 10, 202); (31, 10, 202); (41, 10, 202); (56, 11, 202);
    (3, 10, 205); (6, 10, 205); (10, 10, 205); (15, 10, 205); (24, 10, 205); (31, 10, 205); (41, 10, 205); (56, 11, 205)];
   (* 198 *)
   [(3, 10, 210); (6, 10, 210); (10, 10, 210); (15, 10, 210); (24, 10, 210); (31, 10, 210); (41, 10, 210); (56, 11, 210);
    (3, 10, 213); (6, 10, 213); (10, 10, 213); (15, 10, 213); (24, 10, 213); (31, 10, 213); (41, 10, 213); (56, 11, 213)];
   (* 199 *)
   [(1, 10, 218); (22, 11, 218); (1, 10, 219); (22, 11, 219); (1, 10, 238); (22, 11, 238); (1, 10, 240); (22, 11, 240);
    (1, 10, 242); (22, 11, 242); (1, 10, 243); (22, 11, 243); (1, 10, 255); (22, 11, 255); (0, 11, 203); (0, 11, 204)];
   (* 200 *)
   [(2, 10, 218); (9, 10, 218); (23, 10, 218); (40, 11, 218); (2, 10, 219); (9, 10, 219); (23, 10, 219); (40, 11, 219);
    (2, 10, 238); (9, 10, 238); (23, 10, 238); (40, 11, 238); (2, 10, 240); (9, 10, 240); (23, 10, 240); (40, 11, 240)];
   (* 201 *)
   [(3, 10, 218); (6, 10, 218); (10, 10, 218); (15, 10, 218); (24, 10, 218); (31, 10, 218); (41, 10, 218); (56, 11, 218);
    (3, 10, 219); (6, 10, 219); (10, 10, 219); (15, 10, 219); (24, 10, 219); (31, 10, 219); (41, 10, 219); (56, 11, 219)];
   (* 202 *)
   [(3, 10, 238); (6, 10, 238); (10, 10, 238); (15, 10, 238); (24, 10, 238); (31, 10, 238); (41, 10, 238); (56, 11, 238);
    (3, 10, 240); (6, 10, 240); (10, 10, 240); (15, 10, 240); (24, 10, 240); (31, 10, 240); (41, 10, 240); (56, 11, 240)];
   (* 203 *)
   [(2, 10, 242); (9, 10, 242); (23, 10, 242); (40, 11, 242); (2, 10, 243); (9, 10, 243); (23, 10, 243); (40, 11, 243);
    (2, 10, 255); (9, 10, 255); (23, 10, 255); (40, 11, 255); (1, 10, 203); (22, 11, 203); (1, 10, 204); (22, 11, 204)];
   (* 204 *)
   [(3, 10, 242); (6, 10, 242); (10, 10, 242); (15, 10, 242); (24, 10, 242); (31, 10, 242); (41, 10, 242); (56, 11, 242);
    (3, 10, 243); (6, 10, 243); (10, 10, 243); (15, 10, 243); (24, 10, 243); (31, 10, 243); (41, 10, 243); (56, 11, 243)];
   (* 205 *)
   [(3, 10, 255); (6, 10, 255); (10, 10, 255); (15, 10, 255); (24, 10, 255); (31, 10, 255); (41, 10, 255); (56, 11, 255);
    (2, 10, 203); (9, 10, 203); (23, 10, 203); (40, 11, 203); (2, 10, 204); (9, 10, 204); (23, 10, 204); (40, 11, 204)];
   (* 206 *)
   [(3, 10, 203); (6, 10, 203); (10, 10, 203); (15, 10, 203); (24, 10, 203); (31, 10, 203); (41, 10, 203); (56, 11, 203);
    (3, 10, 204); (6, 10, 204); (10, 10, 204); (15, 10, 204); (24, 10, 204); (31, 10, 204); (41, 10, 204); (56, 11, 204)];
   (* 207 *)
   [(211, 0, 0); (212, 0, 0); (214, 0, 0); (215, 0, 0); (218, 0, 0); (219, 0, 0); (221, 0, 0); (222, 0, 0);
    (226, 0, 0); (228, 0, 0); (232, 0, 0); (235, 0, 0); (240, 0, 0); (243, 0, 0); (247, 0, 0); (250, 0, 0)];
   (* 208 *)
   [(0, 11, 211); (0, 11, 212); (0, 11, 214); (0, 11, 221); (0, 11, 222); (0, 11, 223); (0, 11, 241); (0, 11, 244);
    (0, 11, 245); (0, 11, 246); (0, 11, 247); (0, 11, 248); (0, 11, 250); (0, 11, 251); (0, 11, 252); (0, 11, 253)];
   (* 209 *)
   [(1, 10, 211); (22, 11, 211); (1, 10, 212); (22, 11, 212); (1, 10, 214); (22, 11, 214); (1, 10, 221); (22, 11, 221);
    (1, 10, 222); (22, 11, 222); (1, 10, 223); (22, 11, 223); (1, 10, 241); (22, 11, 241); (1, 10, 244); (22, 11, 244)];
   (* 210 *)
   [(2, 10, 211); (9, 10, 211); (23, 10, 211); (40, 11, 211); (2, 10, 212); (9, 10, 212); (23, 10, 212); (40, 11, 212);
    (2, 10, 214); (9, 10, 214); (23, 10, 214); (40, 11, 214); (2, 10, 221); (9, 10, 221); (23, 10, 221); (40, 11, 221)];
   (* 211 *)
   [(3, 10, 211); (6, 10, 211); (10, 10, 211); (15, 10, 211); (24, 10, 211); (31, 10, 211); (41, 10, 211); (56, 11, 211);
    (3, 10, 212); (6, 10, 212); (10, 10, 212); (15, 10, 212); (24, 10, 212); (31, 10, 212); (41, 10, 212); (56, 11, 212)];
   (* 212 *)
   [(3, 10, 214); (6, 10, 214); (10, 10, 214); (15, 10, 214); (24, 10, 214); (31, 10, 214); (41, 10, 214); (56, 11, 214);
    (3, 10, 221); (6, 10, 221); (10, 10, 221); (15, 10, 221); (24, 10, 221); (31, 10, 221); (41, 10, 221); (56, 11, 221)];
   (* 213 *)
   [(2, 10, 222); (9, 10, 222); (23, 10, 222); (40, 11, 222); (2, 10, 223); (9, 10, 223); (23, 10, 223); (40, 11, 223);
    (2, 10, 241); (9, 10, 241); (23, 10, 241); (40, 11, 241); (2, 10, 244); (9, 10, 244); (23, 10, 244); (40, 11, 244)];
   (* 214 *)
   [(3, 10, 222); (6, 10, 222); (10, 10, 222); (15, 10, 222); (24, 10, 222); (31, 10, 222); (41, 10, 222); (56, 11, 222);
    (3, 10, 223); (6, 10, 223); (10, 10, 223); (15, 10, 223); (24, 10, 223); (31, 10, 223); (41, 10, 223); (56, 11, 223)];
   (* 215 *)
   [(3, 10, 241); (6, 10, 241); (10, 10, 241); (15, 10, 241); (24, 10, 241); (31, 10, 241); (41, 10, 241); (56, 11, 241);
    (3, 10, 244); (6, 10, 244); (10, 10, 244); (15, 10, 244); (24, 10, 244); (31, 10, 244); (41, 10, 244); (56, 11, 244)];
   (* 216 *)
   [(1, 10, 245); (22, 11, 245); (1, 10, 246); (22, 11, 246); (1, 10, 247); (22, 11, 247); (1, 10, 248); (22, 11, 248);
    (1, 10, 250); (22, 11, 250); (1, 10, 251); (22, 11, 251); (1, 10, 252); (22, 11, 252); (1, 10, 253); (22, 11, 253)];
   (* 217 *)
   [(2, 10, 245); (9, 10, 245); (23, 10, 245); (40, 11, 245); (2, 10, 246); (9, 10, 246); (23, 10, 246); (40, 11, 246);
    (2, 10, 247); (9, 10, 247); (23, 10, 247); (40, 11, 247); (2, 10, 248); (9, 10, 248); (23, 10, 248); (40, 11, 248)];
   (* 218 *)
   [(3, 10, 245); (6, 10, 245); (10, 10, 245); (15, 10, 245); (24, 10, 245); (31, 10, 245); (41, 10, 245); (56, 11, 245);
    (3, 10, 246); (6, 10, 246); (10, 10, 246); (15, 10, 246); (24, 10, 246); (31, 10, 246); (41, 10, 246); (56, 11, 246)];
   (* 219 *)
   [(3, 10, 247); (6, 10, 247); (10, 10, 247); (15, 10, 247); (24, 10, 247); (31, 10, 247); (41, 10, 247); (56, 11, 247);
    (3, 10, 248); (6, 10, 248); (10, 10, 248); (15, 10, 248); (24, 10, 248); (31, 10, 248); (41, 10, 248); (56, 11, 248)];
   (* 220 *)
   [(2, 10, 250); (9, 10, 250); (23, 10, 250); (40, 11, 250); (2, 10, 251); (9, 10, 251); (23, 10, 251); (40, 11, 251);
    (2, 10, 252); (9, 10, 252); (23, 10, 252); (40, 11, 252); (2, 10, 253); (9, 10, 253); (23, 10, 253); (40, 11, 253)];
   (* 221 *)
   [(3, 10, 250); (6, 10, 250); (10, 10, 250); (15, 10, 250); (24, 10, 250); (31, 10, 250); (41, 10, 250); (56, 11, 250);
    (3, 10, 251); (6, 10, 251); (10, 10, 251); (15, 10, 251); (24, 10, 251); (31, 10, 251); (41, 10, 251); (56, 11, 251)];
   (* 222 *)
   [(3, 10, 252); (6, 10, 252); (10, 10, 252); (15, 10, 252); (24, 10, 252); (31, 10, 252); (41, 10, 252); (56, 11, 252);
    (3, 10, 253); (6, 10, 253); (10, 10, 253); (15, 10, 253); (24, 10, 253); (31, 10, 253); (41, 10, 253); (56, 11, 253)];
   (* 223 *)
   [(0, 11, 254); (227, 0, 0); (229, 0, 0); (230, 0, 0); (233, 0, 0); (234, 0, 0); (236, 0, 0); (237, 0, 0);
    (241, 0, 0); (242, 0, 0); (244, 0, 0); (245, 0, 0); (248, 0, 0); (249, 0, 0); (251, 0, 0); (252, 0, 0)];
   (* 224 *)
   [(1, 10, 254); (22, 11, 254); (0, 27, 2); (0, 27, 3); (0, 27, 4); (0, 27, 5); (0, 27, 6); (0, 27, 7);
    (0, 27, 8); (0, 27, 11); (0, 27, 12); (0, 27, 14); (0, 27, 15); (0, 27, 16); (0, 27, 17); (0, 27, 18)];
   (* 225 *)
   [(2, 10, 254); (9, 10, 254); (23, 10, 254); (40, 11, 254); (1, 26, 2); (22, 27, 2); (1, 26, 3); (22, 27, 3);
    (1, 26, 4); (22, 27, 4); (1, 26, 5); (22, 27, 5); (1, 26, 6); (22, 27, 6); (1, 26, 7); (22, 27, 7)];
   (* 226 *)
   [(3, 10, 254); (6, 10, 254); (10, 10, 254); (15, 10, 254); (24, 10, 254); (31, 10, 254); (41, 10, 254); (56, 11, 254);
    (2, 26, 2); (9, 26, 2); (23, 26, 2); (40, 27, 2); (2, 26, 3); (9, 26, 3); (23, 26, 3); (40, 27, 3)];
   (* 227 *)
   [(3, 26, 2); (6, 26, 2); (10, 26, 2); (15, 26, 2); (24, 26, 2); (31, 26, 2); (41, 26, 2); (56, 27, 2);
    (3, 26, 3); (6, 26, 3); (10, 26, 3); (15, 26, 3); (24, 26, 3); (31, 26, 3); (41, 26, 3); (56, 27, 3)];
   (* 228 *)
   [(2, 26, 4); (9, 26, 4); (23, 26, 4); (40, 27, 4); (2, 26, 5); (9, 26, 5); (23, 26, 5); (40, 27, 5);
    (2, 26, 6); (9, 26, 6); (23, 26, 6); (40, 27, 6); (2, 26, 7); (9, 26, 7); (23, 26, 7); (40, 27, 7)];
   (* 229 *)
   [(3, 26, 4); (6, 26, 4); (10, 26, 4); (15, 26, 4); (24, 26, 4); (31, 26, 4); (41, 26, 4); (56, 27, 4);
    (3, 26, 5); (6, 26, 5); (10, 26, 5); (15, 26, 5); (24, 26, 5); (31, 26, 5); (41, 26, 5); (56, 27, 5)];
   (* 230 *)
   [(3, 26, 6); (6, 26, 6); (10, 26, 6); (15, 26, 6); (24, 26, 6); (31, 26, 6); (41, 26, 6); (56, 27, 6);
    (3, 26, 7); (6, 26, 7); (10, 26, 7); (15, 26, 7); (24, 26, 7); (31, 26, 7); (41, 26, 7); (56, 27, 7)];
   (* 231 *)
   [(1, 26, 8); (22, 27, 8); (1, 26, 11); (22, 27, 11); (1, 26, 12); (22, 27, 12); (1, 26, 14); (22, 27, 14);
    (1, 26, 15); (22, 27, 15); (1, 26, 16); (22, 27, 16); (1, 26, 17); (22, 27, 17); (1, 26, 18); (22, 27, 18)];
   (* 232 *)
   [(2, 26, 8); (9, 26, 8); (23, 26, 8); (40, 27, 8); (2, 26, 11); (9, 26, 11); (23, 26, 11); (40, 27, 11);
    (2, 26, 12); (9, 26, 12); (23, 26, 12); (40, 27, 12); (2, 26, 14); (9, 26, 14); (23, 26, 14); (40, 27, 14)];
   (* 233 *)
   [(3, 26, 8); (6, 26, 8); (10, 26, 8); (15, 26, 8); (24, 26, 8); (31, 26, 8); (41, 26, 8); (56, 27, 8);
    (3, 26, 11); (6, 26, 11); (10, 26, 11); (15, 26, 11); (24, 26, 11); (31, 26, 11); (41, 26, 11); (56, 27, 11)];
   (* 234 *)
   [(3, 26, 12); (6, 26, 12); (10, 26, 12); (15, 26, 12); (24, 26, 12); (31, 26, 12); (41, 26, 12); (56, 27, 12);
    (3, 26, 14); (6, 26, 14); (10, 26, 14); (15, 26, 14); (24, 26, 14); (31, 26, 14); (41, 26, 14); (56, 27, 14)];
   (* 235 *)
   [(2, 26, 15); (9, 26, 15); (23, 26, 15); (40, 27, 15); (2, 26, 16); (9, 26, 16); (23, 26, 16); (40, 27, 16);
    (2, 26, 17); (9, 26, 17); (23, 26, 17); (40, 27, 17); (2, 26, 18); (9, 26, 18); (23, 26, 18); (40, 27, 18)];
   (* 236 *)
   [(3, 26, 15); (6, 26, 15); (10, 26, 15); (15, 26, 15); (24, 26, 15); (31, 26, 15); (41, 26, 15); (56, 27, 15);
    (3, 26, 16); (6, 26, 16); (10, 26, 16); (15, 26, 16); (24, 26, 16); (31, 26, 16); (41, 26, 16); (56, 27, 16)];
   (* 237 *)
   [(3, 26, 17); (6, 26, 17); (10, 26, 17); (15, 26, 17); (24, 26, 17); (31, 26, 17); (41, 26, 17); (56, 27, 17);
    (3, 26, 18); (6, 26, 18); (10, 26, 18); (15, 26, 18); (24, 26, 18); (31, 26, 18); (41, 26, 18); (56, 27, 18)];
   (* 238 *)
   [(0, 27, 19); (0, 27, 20); (0, 27, 21); (0, 27, 23); (0, 27, 24); (0, 27, 25); (0, 27, 26); (0, 27, 27);
    (0, 27, 28); (0, 27, 29); (0, 27, 30); (0, 27, 31); (0, 27, 127); (0, 11, 220); (0, 11, 249); (253, 0, 0)];
   (* 239 *)
   [(1, 26, 19); (22, 27, 19); (1, 26, 20); (22, 27, 20); (1, 26, 21); (22, 27, 21); (1, 26, 23); (22, 27, 23);
    (1, 26, 24); (22, 27, 24); (1, 26, 25); (22, 27, 25); (1, 26, 26); (22, 27, 26); (1, 26, 27); (22, 27, 27)];
   (* 240 *)
   [(2, 26, 19); (9, 26, 19); (23, 26, 19); (40, 27, 19); (2, 26, 20); (9, 26, 20); (23, 26, 20); (40, 27, 20);
    (2, 26, 21); (9, 26, 21); (23, 26, 21); (40, 27, 21); (2, 26, 23); (9, 26, 23); (23, 26, 23); (40, 27, 23)];
   (* 241 *)
   [(3, 26, 19); (6, 26, 19); (10, 26, 19); (15, 26, 19); (24, 26, 19); (31, 26, 19); (41, 26, 19); (56, 27, 19);
    (3, 26, 20); (6, 26, 20); (10, 26, 20); (15, 26, 20); (24, 26, 20); (31, 26, 20); (41, 26, 20); (56, 27, 20)];
   (* 242 *)
   [(3, 26, 21); (6, 26, 21); (10, 26, 21); (15, 26, 21); (24, 26, 21); (31, 26, 21); (41, 26, 21); (56, 27, 21);
    (3, 26, 23); (6, 26, 23); (10, 26, 23); (15, 26, 23); (24, 26, 23); (31, 26, 23); (41, 26, 23); (56, 27, 23)];
   (* 243 *)
   [(2, 26, 24); (9, 26, 24); (23, 26, 24); (40, 27, 24); (2, 26, 25); (9, 26, 25); (23, 26, 25); (40, 27, 25);
    (2, 26, 26); (9, 26, 26); (23, 26, 26); (40, 27, 26); (2, 26, 27); (9, 26, 27); (23, 26, 27); (40, 27, 27)];
   (* 244 *)
   [(3, 26, 24); (6, 26, 24); (10, 26, 24); (15, 26, 24); (24, 26, 24); (31, 26, 24); (41, 26, 24); (56, 27, 24);
    (3, 26, 25); (6, 26, 25); (10, 26, 25); (15, 26, 25); (24, 26, 25); (31, 26, 25); (41, 26, 25); (56, 27, 25)];
   (* 245 *)
   [(3, 26, 26); (6, 26, 26); (10, 26, 26); (15, 26, 26); (24, 26, 26); (31, 26, 26); (41, 26, 26); (56, 27, 26);
    (3, 26, 27); (6, 26, 27); (10, 26, 27); (15, 26, 27); (24, 26, 27); (31, 26, 27); (41, 26, 27); (56, 27, 27)];
   (* 246 *)
   [(1, 26, 28); (22, 27, 28); (1, 26, 29); (22, 27, 29); (1, 26, 30); (22, 27, 30); (1, 26, 31); (22, 27, 31);
    (1, 26, 127); (22, 27, 127); (1, 10, 220); (22, 11, 220); (1, 10, 249); (22, 11, 249); (254, 0, 0); (255, 0, 0)];
   (* 247 *)
   [(2, 26, 28); (9, 26, 28); (23, 26, 28); (40, 27, 28); (2, 26, 29); (9, 26, 29); (23, 26, 29); (40, 27, 29);
    (2, 26, 30); (9, 26, 30); (23, 26, 30); (40, 27, 30); (2, 26, 31); (9, 26, 31); (23, 26, 31); (40, 27, 31)];
   (* 248 *)
   [(3, 26, 28); (6, 26, 28); (10, 26, 28); (15, 26, 28); (24, 26, 28); (31, 26, 28); (41, 26, 28); (56, 27, 28);
    (3, 26, 29); (6, 26, 29); (10, 26, 29); (15, 26, 29); (24, 26, 29); (31, 26, 29); (41, 26, 29); (56, 27, 29)];
   (* 249 *)
   [(3, 26, 30); (6, 26, 30); (10, 26, 30); (15, 26, 30); (24, 26, 30); (31, 26, 30); (41, 26, 30); (56, 27, 30);
    (3, 26, 31); (6, 26, 31); (10, 26, 31); (15, 26, 31); (24, 26, 31); (31, 26, 31); (41, 26, 31); (56, 27, 31)];
   (* 250 *)
   [(2, 26, 127); (9, 26, 127); (23, 26, 127); (40, 27, 127); (2, 10, 220); (9, 10, 220); (23, 10, 220); (40, 11, 220);
    (2, 10, 249); (9, 10, 249); (23, 10, 249); (40, 11, 249); (0, 27, 10); (0, 27, 13); (0, 27, 22); (0, 4, 0)];
   (* 251 *)
   [(3, 26, 127); (6, 26, 127); (10, 26, 127); (15, 26, 127); (24, 26, 127); (31, 26, 127); (41, 26, 127); (56, 27, 127);
    (3, 10, 220); (6, 10, 220); (10, 10, 220); (15, 10, 220); (24, 10, 220); (31, 10, 220); (41, 10, 220); (56, 11, 220)];
   (* 252 *)
   [(3, 10, 249); (6, 10, 249); (10, 10, 249); (15, 10, 249); (24, 10, 249); (31, 10, 249); (41, 10, 249); (56, 11, 249);
    (1, 26, 10); (22, 27, 10); (1, 26, 13); (22, 27, 13); (1, 26, 22); (22, 27, 22); (0, 4, 0); (0, 4, 0)];
   (* 253 *)
   [(2, 26, 10); (9, 26, 10); (23, 26, 10); (40, 27, 10); (2, 26, 13); (9, 26, 13); (23, 26, 13); (40, 27, 13);
    (2, 26, 22); (9, 26, 22); (23, 26, 22); (40, 27, 22); (0, 4, 0); (0, 4, 0); (0, 4, 0); (0, 4, 0)];
   (* 254 *)
   [(3, 26, 10); (6, 26, 10); (10, 26, 10); (15, 26, 10); (24, 26, 10); (31, 26, 10); (41, 26, 10); (56, 27, 10);
    (3, 26, 13); (6, 26, 13); (10, 26, 13); (15, 26, 13); (24, 26, 13); (31, 26, 13); (41, 26, 13); (56, 27, 13)];
   (* 255 *)
   [(3, 26, 22); (6, 26, 22); (10, 26, 22); (15, 26, 22); (24, 26, 22); (31, 26, 22); (41, 26, 22); (56, 27, 22);
    (0, 4, 0); (0, 4, 0); (0, 4, 0); (0, 4, 0); (0, 4, 0); (0, 4, 0); (0, 4, 0); (0, 4, 0)]].
