(* ===== verification/Huffman.v ===== *)
(** * HPACK Huffman coding (lib/http2/hpack.c)

    [huffdecode4] and [h2o_hpack_decode_huffman] walk the nibble automaton of
    [HuffTable]; [h2o_hpack_encode_huffman] packs the codes through a 40-bit window of a
    [uint64_t].  Both are related to the bit-level definition of RFC 7541 5.2: the
    concatenation of the octets' codes, padded with less than eight one bits. *)
From S2P Require Import Prelude HuffTable.
From Stdlib Require Import ZArith Lia.
From stdpp Require Import base list numbers option.
Open Scope Z_scope.

(** The descriptions [*err_desc] is set to (constant strings of hpack.c
    and of qpack.c). *)
Inductive hpack_err_desc :=
| h2o_hpack_err_missing_mandatory_pseudo_header
| h2o_hpack_err_invalid_pseudo_header
| h2o_hpack_err_found_upper_case_in_header_name
| h2o_hpack_err_unexpected_connection_specific_header
| h2o_hpack_err_invalid_content_length_header
| h2o_hpack_soft_err_found_invalid_char_in_header_name
| h2o_hpack_soft_err_found_invalid_char_in_header_value
| h2o_qpack_err_header_name_too_long
| h2o_qpack_err_header_value_too_long
| h2o_qpack_err_header_exceeds_table_size
| h2o_qpack_err_invalid_max_size
| h2o_qpack_err_invalid_static_reference
| h2o_qpack_err_invalid_dynamic_reference
| h2o_qpack_err_invalid_duplicate
| h2o_qpack_err_invalid_pseudo_header.

#[export] Instance hpack_err_desc_eq_dec : EqDecision hpack_err_desc.
Proof. solve_decision. Defined.

Definition H2O_HPACK_SOFT_ERROR_BIT_INVALID_NAME : Z := 1.
Definition H2O_HPACK_SOFT_ERROR_BIT_INVALID_VALUE : Z := 2.

(** ** Decoder *)

(** [*state], [*maybe_eos], [*seen_char_types] and the octets written from [_dst] on. *)
Record huff_dec := HuffDec {
  hs_state : Z;
  hs_maybe_eos : bool;
  hs_seen : Z;
  hs_dst : bytes }.

Definition huff_entry (state i : Z) : nghttp2_huff_decode :=
  nth (Z.to_nat i) (nth (Z.to_nat state) huff_decode_table []) (HuffDecode 0 0 0).

Definition flag_set (flags f : Z) : bool := negb (Z.land flags f =? 0).

Definition huffdecode4 (s : huff_dec) (i : Z) : option huff_dec :=
  let entry := huff_entry (hs_state s) i in
  if flag_set (hd_flags entry) NGHTTP2_HUFF_FAIL then None
  else
    let '(dst, seen) :=
      if flag_set (hd_flags entry) NGHTTP2_HUFF_SYM
      then (hs_dst s ++ [hd_sym entry],
            Z.lor (hs_seen s) (Z.land (hd_flags entry) NGHTTP2_HUFF_INVALID_CHARS))
      else (hs_dst s, hs_seen s) in
    Some (HuffDec (hd_state entry) (flag_set (hd_flags entry) NGHTTP2_HUFF_ACCEPTED) seen dst).

Fixpoint huffdecode_loop (s : huff_dec) (src : bytes) : option huff_dec :=
  match src with
  | [] => Some s
  | b :: src' =>
      match huffdecode4 s (Z.shiftr b 4) with
      | None => None
      | Some s =>
          match huffdecode4 s (Z.land b 15) with
          | None => None
          | Some s => huffdecode_loop s src'
          end
      end
  end.

Definition header_value_valid_as_whole (s : bytes) : bool :=
  match s with
  | [] => true
  | c0 :: _ =>
      let cn := List.last s 0 in
      negb ((c0 =? 0x20) || (c0 =? 0x09) || (cn =? 0x20) || (cn =? 0x09))
  end.

(** The decoded octets ([None] for [SIZE_MAX]), [*soft_errors] and [*err_desc] on return. *)
Record huff_result := HuffResult {
  hr_dst : option bytes;
  hr_soft_errors : Z;
  hr_err_desc : option hpack_err_desc }.

Definition h2o_hpack_decode_huffman (src : bytes) (is_name : bool) (soft_errors : Z)
    (err_desc : option hpack_err_desc) : huff_result :=
  match huffdecode_loop (HuffDec 0 true 0 []) src with
  | None => HuffResult None soft_errors err_desc
  | Some s =>
      if negb (hs_maybe_eos s) then HuffResult None soft_errors err_desc
      else
        let dst := hs_dst s in
        if is_name then
          match dst with
          | [] => HuffResult (Some dst)
                    (Z.lor soft_errors H2O_HPACK_SOFT_ERROR_BIT_INVALID_NAME) err_desc
          | c0 :: _ =>
              if flag_set (hs_seen s) NGHTTP2_HUFF_INVALID_FOR_HEADER_NAME && negb (c0 =? 58)
              then
                if flag_set (hs_seen s) NGHTTP2_HUFF_UPPER_CASE_CHAR
                then HuffResult None soft_errors
                       (Some h2o_hpack_err_found_upper_case_in_header_name)
                else HuffResult (Some dst)
                       (Z.lor soft_errors H2O_HPACK_SOFT_ERROR_BIT_INVALID_NAME) err_desc
              else HuffResult (Some dst) soft_errors err_desc
          end
        else
          if flag_set (hs_seen s) NGHTTP2_HUFF_INVALID_FOR_HEADER_VALUE
             || negb (header_value_valid_as_whole dst)
          then HuffResult (Some dst)
                 (Z.lor soft_errors H2O_HPACK_SOFT_ERROR_BIT_INVALID_VALUE) err_desc
          else HuffResult (Some dst) soft_errors err_desc
  end.

(** ** Encoder *)

Definition huff_sym (c : Z) : nghttp2_huff_sym := nth (Z.to_nat c) huff_sym_table (HuffSym 0 0).

(** [while (bits_left <= 32)]: [room] is [dst_end - dst]; [None] is the early
    [return SIZE_MAX].  Five rounds flush the 40-bit window. *)
Fixpoint huff_flush (fuel : nat) (bits bits_left : Z) (room : Z) : option (bytes * Z * Z * Z) :=
  match fuel with
  | O => Some ([], bits, bits_left, room)
  | S fuel =>
      if bits_left <=? 32 then
        let b := wrap8 (Z.shiftr bits 32) in
        let bits := wrap64 (Z.shiftl bits 8) in
        let bits_left := bits_left + 8 in
        let room := room - 1 in
        if room =? 0 then None
        else
          match huff_flush fuel bits bits_left room with
          | None => None
          | Some (out, bits, bits_left, room) => Some (b :: out, bits, bits_left, room)
          end
      else Some ([], bits, bits_left, room)
  end.

Fixpoint huff_encode_loop (bits bits_left : Z) (room : Z) (src : bytes) : option bytes :=
  match src with
  | [] =>
      if negb (bits_left =? 40) then
        let bits := Z.lor bits (Z.shiftl 1 bits_left - 1) in
        if room - 1 =? 0 then None else Some [wrap8 (Z.shiftr bits 32)]
      else if room =? 0 then None else Some []
  | c :: src' =>
      let sym := huff_sym c in
      let bits := wrap64 (Z.lor bits (wrap64 (Z.shiftl (code sym) (bits_left - nbits sym)))) in
      let bits_left := bits_left - nbits sym in
      match huff_flush 5 bits bits_left room with
      | None => None
      | Some (out, bits, bits_left, room) =>
          match huff_encode_loop bits bits_left room src' with
          | None => None
          | Some out' => Some (out ++ out')
          end
      end
  end.

(** [None] is [SIZE_MAX]: the output would not be shorter than the input. *)
Definition h2o_hpack_encode_huffman (src : bytes) : option bytes :=
  huff_encode_loop 0 40 (len src) src.

(** ** Bit strings *)

Fixpoint bits_of (n : nat) (v : Z) : list bool :=
  match n with
  | O => []
  | S n => Z.testbit v (Z.of_nat n) :: bits_of n v
  end.

Fixpoint bval (l : list bool) : Z :=
  match l with
  | [] => 0
  | b :: l => (if b then 2 ^ len l else 0) + bval l
  end.

Definition bytes_bits (s : bytes) : list bool := concat (map (bits_of 8) s).

Definition code_bits (c : Z) : list bool :=
  bits_of (Z.to_nat (nbits (huff_sym c))) (code (huff_sym c)).

(** The code of a byte string (RFC 7541 5.2), before the padding. *)
Definition huff_bits (s : bytes) : list bool := concat (map code_bits s).

(** ** Bit-level decoder: one bit at a time, [p] the bits of the code read so far *)

Definition code_list : list (list bool * Z) :=
  Eval vm_compute in map (fun c => (code_bits c, c)) (seqZ 0 257).

Fixpoint bits_eqb (p q : list bool) : bool :=
  match p, q with
  | [], [] => true
  | a :: p, b :: q => Bool.eqb a b && bits_eqb p q
  | _, _ => false
  end.

Definition find_code (p : list bool) : option Z :=
  snd <$> List.find (fun e => bits_eqb p e.1) code_list.

Fixpoint spec_run (p bs : list bool) : option (bytes * list bool) :=
  match bs with
  | [] => Some ([], p)
  | b :: bs =>
      match find_code (p ++ [b]) with
      | Some c =>
          if c =? 256 then None
          else match spec_run [] bs with
               | Some (o, q) => Some (c :: o, q)
               | None => None
               end
      | None => spec_run (p ++ [b]) bs
      end
  end.

(** Padding: fewer than eight bits, all ones (a prefix of EOS). *)
Definition is_padding (p : list bool) : bool := forallb (fun b => b) p && (length p <? 8)%nat.

(** ** The automaton's states are the proper prefixes of the codes *)

(** The bits read since the last complete code in each state, by exploring the table. *)
Definition learn (known : list (option (list bool))) (q : nat) : list (option (list bool)) :=
  match nth q known None with
  | None => known
  | Some p =>
      fold_left
        (fun known n =>
           match spec_run p (bits_of 4 n) with
           | Some (_, p') => <[Z.to_nat (hd_state (huff_entry (Z.of_nat q) n)) := Some p']> known
           | None => known
           end) (seqZ 0 16) known
  end.

Definition explore (known : list (option (list bool))) : list (option (list bool)) :=
  fold_left learn (seq 0 256) known.

Definition state_prefixes : list (list bool) :=
  Eval vm_compute in
    map (default []) (explore (explore (explore (Some [] :: replicate 255 None)))).

Definition state_prefix (q : Z) : list bool := nth (Z.to_nat q) state_prefixes [].

(** The character-class flags the automaton carries for an octet. *)
Definition char_class (c : Z) : Z :=
  if (c =? 9) then 8
  else if (c <? 32) || (c =? 127) then 24
  else if (c =? 32) || (c =? 34) || (c =? 40) || (c =? 41) || (c =? 44) || (c =? 47)
          || ((58 <=? c) && (c <=? 93)) || (c =? 123) || (c =? 125) || (128 <=? c) then 8
  else 0.

(** One transition agrees with reading the four bits one at a time. *)
Definition nibble_ok (q n : Z) : bool :=
  let e := huff_entry q n in
  match spec_run (state_prefix q) (bits_of 4 n) with
  | None => flag_set (hd_flags e) NGHTTP2_HUFF_FAIL
  | Some (o, p) =>
      negb (flag_set (hd_flags e) NGHTTP2_HUFF_FAIL)
      && match o with
         | [] => negb (flag_set (hd_flags e) NGHTTP2_HUFF_SYM)
         | [c] => flag_set (hd_flags e) NGHTTP2_HUFF_SYM && (hd_sym e =? c)
                  && (Z.land (hd_flags e) NGHTTP2_HUFF_INVALID_CHARS =? char_class c)
         | _ => false
         end
      && bits_eqb (state_prefix (hd_state e)) p
      && byteb (hd_state e)
      && Bool.eqb (flag_set (hd_flags e) NGHTTP2_HUFF_ACCEPTED) (is_padding p)
  end.

Lemma automaton_ok :
  forallb (fun q => forallb (nibble_ok q) (seqZ 0 16)) all_bytes = true.
Proof. vm_compute. reflexivity. Qed.

(** Every octet's code decodes to the octet, and the codes' sizes and values fit. *)
Definition code_ok (c : Z) : bool :=
  match spec_run [] (code_bits c) with
  | Some ([d], []) => d =? c
  | _ => false
  end
  && (5 <=? nbits (huff_sym c)) && (nbits (huff_sym c) <=? 30)
  && (0 <=? code (huff_sym c)) && (code (huff_sym c) <? 2 ^ nbits (huff_sym c)).

Lemma codes_ok : forallb code_ok all_bytes = true.
Proof. vm_compute. reflexivity. Qed.

Arguments bytes_bits : simpl never.
Arguments bits_of : simpl never.
Arguments huff_bits : simpl never.

(** ** Decoder: the automaton computes the bit-level decoding *)

Lemma bits_eqb_eq p q : bits_eqb p q = true <-> p = q.
Proof.
  revert q. induction p as [|a p IH]; intros [|b q]; simpl; try done.
  rewrite andb_true_iff, IH, Bool.eqb_true_iff. split; [by intros [-> ->]|by intros [= -> ->]].
Qed.

Lemma bytes_bits_cons b s : bytes_bits (b :: s) = bits_of 8 b ++ bytes_bits s.
Proof. done. Qed.

Lemma nibbles_of_byte b :
  is_byte b ->
  bits_of 8 b = bits_of 4 (Z.shiftr b 4) ++ bits_of 4 (Z.land b 15) /\
  0 <= Z.shiftr b 4 < 16 /\ 0 <= Z.land b 15 < 16.
Proof.
  intros Hb.
  apply (byte_forall (fun b =>
    bits_eqb (bits_of 8 b) (bits_of 4 (Z.shiftr b 4) ++ bits_of 4 (Z.land b 15))
    && (0 <=? Z.shiftr b 4) && (Z.shiftr b 4 <? 16)
    && (0 <=? Z.land b 15) && (Z.land b 15 <? 16))) in Hb; [|vm_compute; done].
  rewrite !andb_true_iff, bits_eqb_eq in Hb. destruct Hb as [[[[-> ?] ?] ?] ?]. split; [done|lia].
Qed.

Definition opt_bind_run (r : option (bytes * list bool)) (bs : list bool) :=
  match r with
  | None => None
  | Some (o, q) => match spec_run q bs with
                   | None => None
                   | Some (o', q') => Some (o ++ o', q')
                   end
  end.

Lemma spec_run_app p a b : spec_run p (a ++ b) = opt_bind_run (spec_run p a) b.
Proof.
  revert p. induction a as [|x a IH]; intros p; simpl.
  - by destruct (spec_run p b) as [[o q]|].
  - destruct (find_code (p ++ [x])) as [c|]; [|apply IH].
    destruct (c =? 256); [done|]. rewrite IH.
    destruct (spec_run [] a) as [[o q]|]; [|done]. simpl.
    by destruct (spec_run q b) as [[o' q']|].
Qed.

(** The simulation invariant: what has been read so far, at the bit level. *)
Definition dec_inv (s : huff_dec) (p : list bool) : Prop :=
  is_byte (hs_state s) /\ state_prefix (hs_state s) = p /\ hs_maybe_eos s = is_padding p /\
  hs_seen s = foldr (fun c m => Z.lor (char_class c) m) 0 (hs_dst s).

Lemma seen_snoc l c :
  foldr (fun c m => Z.lor (char_class c) m) 0 (l ++ [c]) =
  Z.lor (foldr (fun c m => Z.lor (char_class c) m) 0 l) (char_class c).
Proof.
  induction l as [|x l IH]; simpl; [by rewrite Z.lor_0_r|]. by rewrite IH, Z.lor_assoc.
Qed.

Lemma huffdecode4_sim s p n :
  dec_inv s p -> 0 <= n < 16 ->
  match huffdecode4 s n, spec_run p (bits_of 4 n) with
  | Some s', Some (o, p') => dec_inv s' p' /\ hs_dst s' = hs_dst s ++ o
  | None, None => True
  | _, _ => False
  end.
Proof.
  intros (Hq & Hp & Heos & Hseen) Hn.
  pose proof (byte_forall _ automaton_ok _ Hq) as Ha. rewrite forallb_forall in Ha.
  specialize (Ha n). rewrite <- list_elem_of_In, elem_of_seqZ in Ha. specialize (Ha ltac:(lia)).
  unfold nibble_ok in Ha. unfold huffdecode4. rewrite Hp in Ha.
  destruct (spec_run p (bits_of 4 n)) as [[o p']|]; [|by rewrite Ha].
  rewrite !andb_true_iff in Ha. destruct Ha as [[[[Hf Ho] Hst] Hsb] Hacc].
  apply negb_true_iff in Hf. rewrite Hf. apply bits_eqb_eq in Hst.
  apply byteb_spec in Hsb. apply Bool.eqb_prop in Hacc.
  destruct o as [|c [|? ?]]; [|rewrite !andb_true_iff in Ho; destruct Ho as [[Ho Hc] Hcls]|done].
  - apply negb_true_iff in Ho. rewrite Ho. unfold dec_inv. simpl. by rewrite app_nil_r.
  - rewrite Ho. apply Z.eqb_eq in Hc, Hcls. unfold dec_inv. simpl.
    by rewrite seen_snoc, Hc, Hcls, Hseen.
Qed.

Lemma huffdecode_loop_sim src : forall s p,
  bytes_ok src -> dec_inv s p ->
  match huffdecode_loop s src, spec_run p (bytes_bits src) with
  | Some s', Some (o, p') => dec_inv s' p' /\ hs_dst s' = hs_dst s ++ o
  | None, None => True
  | _, _ => False
  end.
Proof.
  induction src as [|b src IH]; intros s p Hok Hinv.
  { simpl. by rewrite app_nil_r. }
  inv Hok. cbn [huffdecode_loop]. rewrite bytes_bits_cons. destruct (nibbles_of_byte b) as (-> & Hhi & Hlo); [done|].
  rewrite <- app_assoc, spec_run_app.
  pose proof (huffdecode4_sim s p _ Hinv Hhi) as H4.
  destruct (huffdecode4 s (Z.shiftr b 4)) as [s1|], (spec_run p _) as [[o1 p1]|]; try done.
  destruct H4 as [Hinv1 Hd1]. cbn [opt_bind_run]. rewrite spec_run_app.
  pose proof (huffdecode4_sim s1 p1 _ Hinv1 Hlo) as H4.
  destruct (huffdecode4 s1 (Z.land b 15)) as [s2|], (spec_run p1 _) as [[o2 p2]|]; try done.
  destruct H4 as [Hinv2 Hd2]. cbn [opt_bind_run]. specialize (IH s2 p2 ltac:(done) Hinv2).
  destruct (huffdecode_loop s2 src) as [s3|], (spec_run p2 _) as [[o3 p3]|]; try done.
  destruct IH as [Hinv3 ->]. split; [done|]. by rewrite Hd2, Hd1, <- !app_assoc.
Qed.

(** ** The bit-level decoding inverts the code *)

Lemma find_code_sound p c : find_code p = Some c -> code_bits c = p /\ 0 <= c <= 256.
Proof.
  unfold find_code. destruct (List.find _ code_list) as [[q d]|] eqn:E; intros [= <-].
  apply List.find_some in E as [Hin He]. simpl in He. apply bits_eqb_eq in He as ->.
  change code_list with (map (fun c => (code_bits c, c)) (seqZ 0 257)) in Hin.
  apply in_map_iff in Hin as (x & [= <- ->] & Hx).
  split; [done|]. apply list_elem_of_In, elem_of_seqZ in Hx. lia.
Qed.

Lemma spec_run_sound bs : forall p o q,
  spec_run p bs = Some (o, q) -> p ++ bs = huff_bits o ++ q /\ bytes_ok o.
Proof.
  induction bs as [|b bs IH]; intros p o q; simpl.
  { intros [= <- <-]. rewrite app_nil_r. split; [done|constructor]. }
  destruct (find_code (p ++ [b])) as [c|] eqn:Hc.
  - apply find_code_sound in Hc as [Hc Hb]. destruct (Z.eqb_spec c 256); [done|].
    destruct (spec_run [] bs) as [[o' q']|] eqn:Hr; [|done]. intros [= <- <-].
    apply IH in Hr as [Hr Ho]. simpl in Hr. unfold huff_bits in *. simpl.
    rewrite Hc, Hr, <- !app_assoc. split; [done|]. constructor; [unfold is_byte; lia|done].
  - intros Hr. apply IH in Hr. by rewrite <- app_assoc in Hr.
Qed.

Lemma code_ok_byte c :
  is_byte c ->
  spec_run [] (code_bits c) = Some ([c], []) /\ 5 <= nbits (huff_sym c) <= 30 /\
  0 <= code (huff_sym c) < 2 ^ nbits (huff_sym c).
Proof.
  intros Hc. pose proof (byte_forall _ codes_ok _ Hc) as H. unfold code_ok in H.
  rewrite !andb_true_iff in H. destruct H as [[[[H ?] ?] ?] ?].
  split; [|lia]. destruct (spec_run _ _) as [[[|d [|]] [|]]|]; try done.
  apply Z.eqb_eq in H. by subst.
Qed.

Lemma spec_run_complete s q :
  bytes_ok s -> is_padding q = true -> spec_run [] (huff_bits s ++ q) = Some (s, q).
Proof.
  intros Hs Hq. unfold huff_bits. induction Hs as [|c s Hc Hs IH]; simpl.
  - unfold is_padding in Hq. apply andb_true_iff in Hq as [Hq Hl].
    destruct q as [|[] [|[] [|[] [|[] [|[] [|[] [|[] [|]]]]]]]]; done.
  - rewrite <- app_assoc, spec_run_app, (proj1 (code_ok_byte c Hc)). simpl. by rewrite IH.
Qed.

(** Decoding, without the validation: the reference answer for a whole string. *)
Definition spec_decode (src : bytes) : option bytes :=
  match spec_run [] (bytes_bits src) with
  | Some (o, q) => if is_padding q then Some o else None
  | None => None
  end.

Lemma spec_decode_iff src out :
  spec_decode src = Some out <->
  bytes_ok out /\ exists q, is_padding q = true /\ bytes_bits src = huff_bits out ++ q.
Proof.
  unfold spec_decode. split.
  - destruct (spec_run [] (bytes_bits src)) as [[o q]|] eqn:Hr; [|done].
    destruct (is_padding q) eqn:Hq; [|done]. intros [= <-].
    apply spec_run_sound in Hr as [Hr Ho]. simpl in Hr. eauto.
  - intros (Ho & q & Hq & ->). by rewrite spec_run_complete, Hq.
Qed.

(** The automaton's final state, read back at the bit level. *)
Lemma huffdecode_loop_spec src :
  bytes_ok src ->
  match huffdecode_loop (HuffDec 0 true 0 []) src with
  | Some s =>
      hs_seen s = foldr (fun c m => Z.lor (char_class c) m) 0 (hs_dst s) /\
      (if hs_maybe_eos s then Some (hs_dst s) else None) = spec_decode src
  | None => spec_decode src = None
  end.
Proof.
  intros Hok.
  assert (Hinv : dec_inv (HuffDec 0 true 0 []) []) by (repeat split; done).
  pose proof (huffdecode_loop_sim src _ _ Hok Hinv) as H. unfold spec_decode.
  destruct (huffdecode_loop _ src) as [s|], (spec_run [] _) as [[o p]|]; try done.
  destruct H as [(Hb & Hp & He & Hs) Hd]. simpl in Hd. rewrite Hd in *. by rewrite He.
Qed.
