(* ===== verification/HuffmanEnc.v ===== *)
(** * HPACK Huffman encoder: correctness (lib/http2/hpack.c)

    [h2o_hpack_encode_huffman] writes the bits of the codes, in order, padded with ones,
    and gives up exactly when the result would not be shorter than its input. *)
From S2P Require Import Prelude HuffTable Huffman.
From Stdlib Require Import ZArith Lia.
From stdpp Require Import base list numbers option strings.
Open Scope Z_scope.

(** ** Encoder: the 40-bit window holds the bits not yet written *)

Lemma length_bits_of n v : length (bits_of n v) = n.
Proof. induction n; unfold bits_of in *; simpl; congruence. Qed.

Lemma bval_bound l : 0 <= bval l < 2 ^ len l.
Proof.
  induction l as [|b l IH]; [by cbn|]. pose proof (len_nonneg l); rewrite len_cons, Z.pow_add_r by lia.
  simpl. destruct b; lia.
Qed.

Lemma bval_app a b : bval (a ++ b) = bval a * 2 ^ len b + bval b.
Proof.
  induction a as [|x a IH]; simpl; [lia|]. pose proof (len_nonneg a); pose proof (len_nonneg b). rewrite IH, len_app, Z.pow_add_r by lia.
  destruct x; lia.
Qed.

Lemma bval_bits_of n v : bval (bits_of n v) = v mod 2 ^ Z.of_nat n.
Proof.
  induction n as [|n IH]; [by rewrite Z.mod_1_r|].
  change (bits_of (S n) v) with (Z.testbit v (Z.of_nat n) :: bits_of n v). cbn [bval].
  unfold len. rewrite IH, length_bits_of, Nat2Z.inj_succ, Z.pow_succ_r by lia.
  rewrite Z.mul_comm, Z.rem_mul_r, <- Z.testbit_spec' by lia.
  destruct (Z.testbit v (Z.of_nat n)); simpl Z.b2z; lia.
Qed.

Lemma bits_of_bval l : bits_of (length l) (bval l) = l.
Proof.
  assert (Hg : forall n v w, v mod 2 ^ Z.of_nat n = w mod 2 ^ Z.of_nat n -> bits_of n v = bits_of n w).
  { induction n as [|n IH]; intros v w H; [done|].
    assert (Hb : forall i, 0 <= i <= Z.of_nat n -> Z.testbit v i = Z.testbit w i).
    { intros i Hi. rewrite <- (Z.mod_pow2_bits_low v (Z.of_nat (S n))) by lia.
      rewrite H. apply Z.mod_pow2_bits_low. lia. }
    unfold bits_of; fold bits_of. rewrite Hb by lia. f_equal. apply IH.
    apply Z.bits_inj'. intros i Hi. destruct (Z.lt_ge_cases i (Z.of_nat n)).
    - rewrite !Z.mod_pow2_bits_low by lia. apply Hb. lia.
    - by rewrite !Z.mod_pow2_bits_high by lia. }
  induction l as [|b l IH]; [done|]. cbn [length]. unfold bits_of; fold bits_of. f_equal.
  - rewrite Z.testbit_eqb by lia. simpl bval. fold (len l).
    pose proof (bval_bound l). pose proof (Z.pow_pos_nonneg 2 (len l) ltac:(lia) ltac:(auto with h2o)).
    destruct b.
    + rewrite <- (Z.div_unique (2 ^ len l + bval l) (2 ^ len l) 1 (bval l)) by lia. done.
    + rewrite <- (Z.div_unique (0 + bval l) (2 ^ len l) 0 (bval l)) by lia. done.
  - transitivity (bits_of (length l) (bval l)); [|done]. apply Hg. cbn [bval]. fold (len l). destruct b; [|done].
    rewrite Z.add_comm, <- (Z.mul_1_l (2 ^ len l)) at 1. apply Z.mod_add.
    pose proof (Z.pow_pos_nonneg 2 (len l)). pose proof (len_nonneg l). lia.
Qed.

Lemma bval_ones n : bval (replicate n true) = 2 ^ Z.of_nat n - 1.
Proof.
  induction n as [|n IH]; [done|]. cbn [replicate bval]. rewrite IH. unfold len.
  rewrite length_replicate, Nat2Z.inj_succ, Z.pow_succ_r by lia. lia.
Qed.

Lemma mod_lor a b n : 0 <= n -> (Z.lor a b) mod 2 ^ n = Z.lor (a mod 2 ^ n) (b mod 2 ^ n).
Proof. intros. by rewrite <- !Z.land_ones, Z.land_lor_distr_l by lia. Qed.

(** The low 40 bits of [bits] are the pending bits [P], left aligned. *)
Definition window (bits : Z) (P : list bool) : Prop :=
  len P <= 40 /\ bits mod 2 ^ 40 = bval P * 2 ^ (40 - len P).

Lemma wrap64_mod40 x : wrap64 x mod 2 ^ 40 = x mod 2 ^ 40.
Proof.
  unfold wrap64. change (2 ^ 64) with (2 ^ 40 * 2 ^ 24).
  rewrite Z.rem_mul_r, (Z.mul_comm (2 ^ 40)), Z.mod_add, Z.mod_mod by lia. done.
Qed.

Lemma window_push bits P v n :
  window bits P -> 0 <= n -> len P + n <= 40 -> 0 <= v < 2 ^ n ->
  window (wrap64 (Z.lor bits (wrap64 (Z.shiftl v (40 - len P - n))))) (P ++ bits_of (Z.to_nat n) v).
Proof.
  intros [Hl Hw] Hn Hle Hv.
  assert (Hlen : len (bits_of (Z.to_nat n) v) = n) by (unfold len; rewrite length_bits_of; lia).
  split; [rewrite len_app; lia|].
  assert (Hx : 0 <= Z.shiftl v (40 - len P - n) < 2 ^ (40 - len P)).
  { rewrite Z.shiftl_mul_pow2 by lia. pose proof (Z.pow_pos_nonneg 2 (40 - len P - n)).
    replace (2 ^ (40 - len P)) with (2 ^ n * 2 ^ (40 - len P - n))
      by (rewrite <- Z.pow_add_r by lia; f_equal; lia). nia. }
  assert (2 ^ (40 - len P) <= 2 ^ 40) by (apply Z.pow_le_mono_r; pose proof (len_nonneg P); lia).
  rewrite wrap64_mod40, mod_lor, Hw, wrap64_small, (Z.mod_small (Z.shiftl _ _)) by lia.
  rewrite Z.lor_comm, <- Z.shiftl_mul_pow2, lor_shiftl_add, !Z.shiftl_mul_pow2 by lia.
  rewrite bval_app, len_app, Hlen, bval_bits_of, Z2Nat.id, (Z.mod_small v) by lia.
  replace (40 - (len P + n)) with (40 - len P - n) by lia.
  replace (2 ^ (40 - len P)) with (2 ^ n * 2 ^ (40 - len P - n))
    by (rewrite <- Z.pow_add_r by lia; f_equal; lia). lia.
Qed.

(** The octet at the top of the window. *)
Lemma window_top bits A B :
  window bits (A ++ B) -> len A = 8 -> wrap8 (Z.shiftr bits 32) = bval A.
Proof.
  intros [Hl Hw] HA. rewrite len_app, HA in *.
  unfold wrap8. rewrite Z.shiftr_div_pow2 by lia.
  assert (Hd : (bits / 2 ^ 32) mod 2 ^ 8 = (bits mod 2 ^ 40) / 2 ^ 32).
  { change (2 ^ 40) with (2 ^ 32 * 2 ^ 8). rewrite Z.rem_mul_r by lia.
    rewrite Z.mul_comm, Z.div_add by lia. rewrite (Z.div_small (bits mod 2 ^ 32)); [lia|].
    apply Z.mod_pos_bound. lia. }
  rewrite Hd, Hw, bval_app. pose proof (bval_bound B). pose proof (len_nonneg B).
  assert (He : 2 ^ 32 = 2 ^ len B * 2 ^ (40 - (8 + len B)))
    by (rewrite <- Z.pow_add_r by lia; f_equal; lia).
  pose proof (Z.pow_pos_nonneg 2 (40 - (8 + len B)) ltac:(lia) ltac:(lia)).
  rewrite He. symmetry. apply (Z.div_unique _ _ _ (bval B * 2 ^ (40 - (8 + len B)))); [|ring].
  left. nia.
Qed.

Lemma window_pop bits A B :
  window bits (A ++ B) -> len A = 8 -> window (wrap64 (Z.shiftl bits 8)) B.
Proof.
  intros [Hl Hw] HA. rewrite len_app, HA in *. split; [lia|].
  rewrite wrap64_mod40, Z.shiftl_mul_pow2 by lia.
  change (2 ^ 40) with (2 ^ 32 * 2 ^ 8). rewrite Z.mul_mod_distr_r by lia.
  assert (Hm : bits mod 2 ^ 32 = (bits mod 2 ^ 40) mod 2 ^ 32).
  { change (2 ^ 40) with (2 ^ 32 * 2 ^ 8). rewrite (Z.rem_mul_r bits) by lia.
    rewrite (Z.mul_comm (2 ^ 32)), Z.mod_add, Z.mod_mod by lia. done. }
  rewrite Hm, Hw, bval_app. pose proof (bval_bound B). pose proof (len_nonneg B).
  assert (He : 2 ^ 32 = 2 ^ len B * 2 ^ (40 - (8 + len B)))
    by (rewrite <- Z.pow_add_r by lia; f_equal; lia).
  pose proof (Z.pow_pos_nonneg 2 (40 - (8 + len B)) ltac:(lia) ltac:(lia)).
  rewrite Z.mul_add_distr_r, <- Z.mul_assoc, <- He, Z.add_comm, Z.mod_add, Z.mod_small by nia.
  replace (40 - len B) with (40 - (8 + len B) + 8) by lia.
  rewrite (Z.pow_add_r 2 (40 - (8 + len B))) by lia. lia.
Qed.

Lemma split8 (P : list bool) :
  8 <= len P -> exists A B, P = A ++ B /\ len A = 8 /\ length A = 8%nat.
Proof.
  intros H. exists (take 8 P), (drop 8 P). rewrite take_drop. unfold len in *.
  rewrite length_take. split; [done|lia].
Qed.

(** [huff_flush] writes the whole octets of the window, or runs out of room. *)
Lemma huff_flush_spec fuel : forall bits P room,
  window bits P -> len P < 8 * (Z.of_nat fuel + 1) -> 0 < room ->
  match huff_flush fuel bits (40 - len P) room with
  | Some (out, bits', bits_left', room') =>
      exists P', P = bytes_bits out ++ P' /\ len P' < 8 /\ window bits' P' /\
        bits_left' = 40 - len P' /\ room' = room - len out /\ 0 < room' /\ bytes_ok out
  | None => 8 * room <= len P
  end.
Proof.
  induction fuel as [|fuel IH]; intros bits P room Hw Hl Hr; simpl.
  - exists P. rewrite len_nil. repeat split; try lia; try apply Hw. constructor.
  - destruct (Z.leb_spec (40 - len P) 32).
    + destruct (split8 P) as (A & B & -> & HA & HA'); [lia|].
      rewrite len_app, HA in *. destruct (Z.eqb_spec (room - 1) 0); [pose proof (len_nonneg B); lia|].
      replace (40 - (8 + len B) + 8) with (40 - len B) by lia.
      specialize (IH _ B (room - 1) (window_pop _ _ _ Hw HA) ltac:(lia) ltac:(lia)).
      destruct (huff_flush _ _ _ _) as [[[[out bits'] bl'] room']|]; [|lia].
      destruct IH as (P' & -> & HP' & Hw' & -> & -> & Hr' & Ho).
      exists P'. rewrite (window_top _ _ _ Hw HA), len_cons.
      rewrite bytes_bits_cons, <- app_assoc, <- HA', bits_of_bval.
      pose proof (bval_bound A) as HAb. rewrite HA in HAb.
      repeat split; try done; try lia; try apply Hw'. by constructor.
    + exists P. rewrite len_nil. repeat split; try lia; try apply Hw. constructor.
Qed.

Lemma is_padding_ones n : (n < 8)%nat -> is_padding (replicate n true) = true.
Proof. intros. do 8 (destruct n as [|n]; [done|]). lia. Qed.

(** The last, partial octet. *)
Lemma huff_finish bits P :
  window bits P -> 0 < len P < 8 ->
  wrap8 (Z.shiftr (Z.lor bits (Z.shiftl 1 (40 - len P) - 1)) 32) =
  bval (P ++ replicate (8 - length P) true).
Proof.
  intros Hw HP. set (k := 40 - len P).
  apply (window_top _ _ (replicate 32 true)).
  2:{ unfold len in *. rewrite length_app, length_replicate. lia. }
  rewrite <- app_assoc, <- replicate_add. destruct Hw as [Hl Hw].
  assert (Hn : Z.of_nat (8 - length P + 32) = k) by (unfold k, len in *; lia).
  assert (Hlen : len (P ++ replicate (8 - length P + 32) true) = 40)
    by (unfold k, len in *; rewrite length_app, length_replicate; lia).
  split; [lia|]. pose proof (Z.pow_pos_nonneg 2 k ltac:(lia) ltac:(lia)).
  assert (2 ^ k <= 2 ^ 40) by (apply Z.pow_le_mono_r; lia).
  rewrite Hlen, mod_lor, Hw, Z.shiftl_1_l, (Z.mod_small (2 ^ k - 1)) by lia. fold k.
  rewrite Z.lor_comm, <- Z.shiftl_mul_pow2, lor_shiftl_add, Z.shiftl_mul_pow2 by lia.
  rewrite bval_app, bval_ones, Hn. unfold len at 1. rewrite length_replicate, Hn. simpl. lia.
Qed.

Lemma huff_encode_loop_spec src : forall bits P room,
  bytes_ok src -> window bits P -> len P < 8 -> 0 < room ->
  match huff_encode_loop bits (40 - len P) room src with
  | Some out =>
      bytes_ok out /\ len out < room /\
      exists q, is_padding q = true /\ bytes_bits out = P ++ huff_bits src ++ q
  | None => 8 * room < len (P ++ huff_bits src) + 8
  end.
Proof.
  induction src as [|c src IH]; intros bits P room Hok Hw HP Hr; cbn [huff_encode_loop].
  - pose proof (len_nonneg P). destruct (Z.eqb_spec (40 - len P) 40); simpl.
    + destruct (Z.eqb_spec room 0); [lia|]. destruct P; [|rewrite len_cons in *; pose proof (len_nonneg P); lia].
      split_and!; [constructor|rewrite len_nil; lia|by exists []].
    + destruct (Z.eqb_spec (room - 1) 0); [rewrite len_app; change (len (huff_bits [])) with 0; lia|].
      rewrite huff_finish by (done || lia). set (q := replicate (8 - length P) true).
      assert (Hlen : len (P ++ q) = 8)
        by (unfold q, len in *; rewrite length_app, length_replicate; lia).
      pose proof (bval_bound (P ++ q)) as Hb. rewrite Hlen in Hb.
      split_and!; [by apply Forall_singleton|rewrite len_cons, len_nil; lia|].
      exists q. split; [apply is_padding_ones; unfold len in *; lia|].
      rewrite bytes_bits_cons. change (bytes_bits []) with (@nil bool).
      change (huff_bits []) with (@nil bool). rewrite app_nil_r. cbn [app].
      replace 8%nat with (length (P ++ q)) at 1 by (unfold len in Hlen; lia). apply bits_of_bval.
  - inv Hok. destruct (code_ok_byte c) as (_ & Hn & Hc); [done|].
    pose proof (window_push bits P (code (huff_sym c)) (nbits (huff_sym c)) Hw ltac:(lia) ltac:(lia) Hc) as Hw'.
    fold (code_bits c) in Hw'.
    assert (Hlen : len (code_bits c) = nbits (huff_sym c))
      by (unfold code_bits, len; rewrite length_bits_of; lia).
    pose proof (huff_flush_spec 5 _ _ room Hw') as Hf.
    rewrite len_app, Hlen, Z.sub_add_distr in Hf. specialize (Hf ltac:(lia) ltac:(lia)).
    unfold huff_bits. cbn [map concat]. fold (huff_bits src).
    destruct (huff_flush _ _ _ _) as [[[[out bits'] bl'] room']|].
    2:{ rewrite !len_app, Hlen. pose proof (len_nonneg (huff_bits src)). lia. }
    destruct Hf as (P' & HPe & HP' & Hw'' & -> & -> & Hr' & Ho).
    specialize (IH bits' P' (room - len out) ltac:(done) Hw'' HP' Hr').
    destruct (huff_encode_loop _ _ _ src) as [out'|].
    + destruct IH as (Ho' & Hl' & q & Hq & Hbits). rewrite len_app.
      split_and!; [by apply Forall_app|lia|]. exists q. split; [done|].
      transitivity (bytes_bits out ++ bytes_bits out');
        [unfold bytes_bits; by rewrite map_app, concat_app|].
      rewrite Hbits, !(app_assoc P), HPe. by rewrite <- !app_assoc.
    + rewrite app_assoc, HPe, <- app_assoc, len_app.
      assert (Hb8 : len (bytes_bits out) = 8 * len out); [|lia].
      clear. induction out as [|x out IH]; [done|].
      rewrite bytes_bits_cons, len_app, len_cons, IH. unfold len at 1. rewrite length_bits_of. lia.
Qed.

(** The encoder returns the padded code of its input when that is shorter than the
    input, and [SIZE_MAX] otherwise. *)
Lemma encode_huffman_spec src :
  bytes_ok src ->
  match h2o_hpack_encode_huffman src with
  | Some out => bytes_ok out /\ len out < len src /\
                exists q, is_padding q = true /\ bytes_bits out = huff_bits src ++ q
  | None => 8 * len src < len (huff_bits src) + 8
  end.
Proof.
  intros Hok. unfold h2o_hpack_encode_huffman. destruct src as [|c src]; [done|].
  apply (huff_encode_loop_spec (c :: src) 0 [] (len (c :: src)) Hok); [done|done|].
  rewrite len_cons. pose proof (len_nonneg src). lia.
Qed.

(** What the encoder writes is what the decoder reads. *)
Lemma encode_huffman_decodes src out :
  bytes_ok src -> h2o_hpack_encode_huffman src = Some out -> spec_decode out = Some src.
Proof.
  intros Hok He. pose proof (encode_huffman_spec src Hok) as H. rewrite He in H.
  apply spec_decode_iff. split; [done|]. apply H.
Qed.

(** ** Properties *)

(** When [h2o_hpack_encode_huffman] does not give up, its output is shorter than the string
    and decodes to it; it gives up only when the codes of the string need at least as many
    octets as the string has. *)
Theorem huffman_encode_roundtrip src :
  bytes_ok src ->
  match h2o_hpack_encode_huffman src with
  | Some out => bytes_ok out /\ len out < len src /\ spec_decode out = Some src
  | None => 8 * len src < len (huff_bits src) + 8
  end.
Proof.
  intros Hs. pose proof (encode_huffman_spec src Hs) as H.
  destruct (h2o_hpack_encode_huffman src) as [out|] eqn:E; [|done].
  destruct H as (Hb & Hl & _). split_and!; [done|done|]. by apply encode_huffman_decodes.
Qed.

Lemma huffman_encode_roundtrip_witness :
  match h2o_hpack_encode_huffman (lit "www.example.com") with
  | Some out => bytes_ok out /\ len out < len (lit "www.example.com") /\ spec_decode out = Some (lit "www.example.com")
  | None => 8 * len (lit "www.example.com") < len (huff_bits (lit "www.example.com")) + 8
  end.
Proof. apply (huffman_encode_roundtrip (lit "www.example.com")), lit_ok. Defined.
