(* ===== verification/HeaderTable.v ===== *)
(** * The HPACK dynamic table (lib/http2/hpack.c, include/h2o/http2_common.h)

    [h2o_hpack_header_table_t] is a growing ring buffer of entries, newest first from
    [entry_start_index]; a zeroed slot is [None].  The file gives the operations on it, the
    list of entries it represents and the operations' effect on that list.  Operations
    return [None] where the C code would fail an [assert]; the lemmas show that they do not.
    Sizes are sums of lengths of objects in memory and are not wrapped. *)
From S2P Require Import Prelude Tokens.
From Stdlib Require Import ZArith Lia.
From stdpp Require Import base list numbers option.
Open Scope Z_scope.

(** ** Data *)

(** The name of a header, an [h2o_iovec_t *]: a pointer into [h2o__tokens], or to a
    string of its own ([h2o_iovec_is_token] tells them apart by address). *)
Inductive name_ref := NTok (t : Z) | NStr (s : bytes).

#[export] Instance name_ref_eq_dec : EqDecision name_ref.
Proof. solve_decision. Defined.

Definition h2o_iovec_is_token (n : name_ref) : bool :=
  match n with NTok _ => true | NStr _ => false end.

Definition name_bytes (n : name_ref) : bytes :=
  match n with NTok t => tok_buf (token t) | NStr s => s end.

Record table_entry := Entry { e_name : name_ref; e_value : bytes; e_soft_errors : Z }.

#[export] Instance table_entry_eq_dec : EqDecision table_entry.
Proof. solve_decision. Defined.

Record header_table := HeaderTable {
  entries : list (option table_entry);
  num_entries : nat;
  entry_capacity : nat;
  entry_start_index : nat;
  hpack_size : Z;
  hpack_capacity : Z;
  hpack_max_capacity : Z }.

Definition HEADER_TABLE_OFFSET : Z := 62.
Definition HEADER_TABLE_ENTRY_SIZE_OFFSET : Z := 32.

Definition entry_size (name : name_ref) (value : bytes) : Z :=
  len (name_bytes name) + len value + HEADER_TABLE_ENTRY_SIZE_OFFSET.

(** ** Operations *)

(** [None]: [assert(entry->name != NULL)] fails. *)
Definition h2o_hpack_header_table_get (table : header_table) (index : nat) : option table_entry :=
  let entry_index := ((index + entry_start_index table) mod entry_capacity table)%nat in
  mjoin (entries table !! entry_index).

Definition header_table_evict_one (table : header_table) : option header_table :=
  if (num_entries table =? 0)%nat then None
  else
    let n := (num_entries table - 1)%nat in
    match h2o_hpack_header_table_get table n with
    | None => None
    | Some entry =>
        let slot := ((n + entry_start_index table) mod entry_capacity table)%nat in
        Some (HeaderTable (<[slot := None]> (entries table)) n (entry_capacity table)
                (entry_start_index table)
                (hpack_size table - entry_size (e_name entry) (e_value entry))
                (hpack_capacity table) (hpack_max_capacity table))
    end.

(** [while (cond) header_table_evict_one(table);] with one unit of fuel per entry. *)
Fixpoint evict_while (fuel : nat) (cond : header_table -> bool) (table : header_table)
    : option header_table :=
  match fuel with
  | O => if cond table then None else Some table
  | S fuel =>
      if cond table then header_table_evict_one table ≫= evict_while fuel cond
      else Some table
  end.

(** "grow the entries if full" *)
Definition header_table_grow (table : header_table) : header_table :=
  let new_capacity := (num_entries table * 2)%nat in
  let new_capacity := if (new_capacity <? 16)%nat then 16%nat else new_capacity in
  let copied :=
    map (fun dst_index =>
           mjoin (entries table !! ((entry_start_index table + dst_index)
                                      mod entry_capacity table)%nat))
        (seq 0 (num_entries table)) in
  HeaderTable (copied ++ replicate (new_capacity - num_entries table) None) (num_entries table)
    new_capacity 0 (hpack_size table) (hpack_capacity table) (hpack_max_capacity table).

(** The slot the caller fills ([None] for a NULL return) and the updated table. *)
Definition header_table_add (table : header_table) (size_add max_num_entries : Z)
    : option (option nat * header_table) :=
  table ← evict_while (num_entries table)
            (fun t => negb (num_entries t =? 0)%nat && (hpack_capacity t <? hpack_size t + size_add))
            table;
  table ← evict_while (num_entries table)
            (fun t => max_num_entries <=? Z.of_nat (num_entries t)) table;
  if (num_entries table =? 0)%nat && negb (hpack_size table =? 0) then None
  else if (num_entries table =? 0)%nat && (hpack_capacity table <? size_add) then Some (None, table)
  else
    let table := if (num_entries table =? entry_capacity table)%nat
                 then header_table_grow table else table in
    let start :=
      ((entry_start_index table + entry_capacity table - 1) mod entry_capacity table)%nat in
    Some (Some start,
          HeaderTable (entries table) (num_entries table + 1) (entry_capacity table) start
            (hpack_size table + size_add) (hpack_capacity table) (hpack_max_capacity table)).

(** The caller's assignments to [*entry]. *)
Definition header_table_fill (table : header_table) (slot : nat) (e : table_entry) : header_table :=
  HeaderTable (<[slot := Some e]> (entries table)) (num_entries table) (entry_capacity table)
    (entry_start_index table) (hpack_size table) (hpack_capacity table) (hpack_max_capacity table).

(** [header_table_add] followed by the assignments, as both callers do it. *)
Definition header_table_insert (table : header_table) (max_num_entries : Z) (e : table_entry)
    : option header_table :=
  r ← header_table_add table (entry_size (e_name e) (e_value e)) max_num_entries;
  match r.1 with
  | Some slot => Some (header_table_fill r.2 slot e)
  | None => Some r.2
  end.

(** A change of capacity, with the evictions it causes (the dynamic table size update
    of [h2o_hpack_decode_header] and [header_table_adjust_size]). *)
Definition header_table_set_capacity (table : header_table) (new_capacity : Z) : option header_table :=
  let table := HeaderTable (entries table) (num_entries table) (entry_capacity table)
                 (entry_start_index table) (hpack_size table) new_capacity
                 (hpack_max_capacity table) in
  evict_while (num_entries table)
    (fun t => negb (num_entries t =? 0)%nat && (hpack_capacity t <? hpack_size t)) table.

(** A connection's table before use: no storage. *)
Definition empty_table (capacity : Z) : header_table :=
  HeaderTable [] 0 0 0 0 capacity capacity.

(** ** The list a table represents *)

Definition size_of (e : table_entry) : Z := entry_size (e_name e) (e_value e).
Definition tsize (l : list table_entry) : Z := foldr (fun e n => size_of e + n) 0 l.

Record Rep (t : header_table) (l : list table_entry) : Prop := {
  rep_length : length (entries t) = entry_capacity t;
  rep_num : num_entries t = length l;
  rep_cap : (length l <= entry_capacity t)%nat;
  rep_start : (entry_start_index t < entry_capacity t \/ entry_capacity t = 0)%nat;
  rep_slots : forall i e, l !! i = Some e ->
    entries t !! ((i + entry_start_index t) mod entry_capacity t)%nat = Some (Some e);
  rep_size : hpack_size t = tsize l }.

(** The longest prefix whose entries fit a budget (the specification of eviction, RFC 7541
    4.3 and 4.4). *)
Fixpoint fit (budget : Z) (l : list table_entry) : list table_entry :=
  match l with
  | [] => []
  | e :: l => if size_of e <=? budget then e :: fit (budget - size_of e) l else []
  end.

(** At most [max - 1] entries are kept to make room for one more. *)
Definition limit (max_entries : Z) (l : list table_entry) : list table_entry :=
  if max_entries <=? len l then take (Z.to_nat (max_entries - 1)) l else l.

(** The specification of insertion. *)
Definition spec_insert (capacity max_entries : Z) (e : table_entry) (l : list table_entry)
    : list table_entry :=
  if size_of e <=? capacity
  then e :: limit max_entries (fit (capacity - size_of e) l)
  else [].

(** ** Sizes *)

Lemma size_of_pos e : 32 <= size_of e.
Proof.
  unfold size_of, entry_size, HEADER_TABLE_ENTRY_SIZE_OFFSET.
  pose proof (len_nonneg (name_bytes (e_name e))). pose proof (len_nonneg (e_value e)). lia.
Qed.

Lemma tsize_nonneg l : 0 <= tsize l.
Proof. induction l as [|e l IH]; simpl; [lia|]. pose proof (size_of_pos e). lia. Qed.

Lemma tsize_app a b : tsize (a ++ b) = tsize a + tsize b.
Proof. induction a; simpl; lia. Qed.

Lemma tsize_nil_inv l : tsize l = 0 -> l = [].
Proof.
  destruct l as [|e l]; [done|]. simpl. pose proof (size_of_pos e). pose proof (tsize_nonneg l). lia.
Qed.

Lemma fit_all b l : tsize l <= b -> fit b l = l.
Proof.
  revert b. induction l as [|e l IH]; intros b; simpl; [done|]. intros H.
  pose proof (tsize_nonneg l). destruct (Z.leb_spec (size_of e) b); [|lia]. f_equal. apply IH. lia.
Qed.

Lemma fit_snoc b l e : b < tsize (l ++ [e]) -> fit b (l ++ [e]) = fit b l.
Proof.
  revert b. induction l as [|x l IH]; intros b; simpl; intros H.
  - destruct (Z.leb_spec (size_of e) b); [lia|done].
  - destruct (Z.leb_spec (size_of x) b); [|done]. f_equal. apply IH. lia.
Qed.

Lemma fit_prefix b l : fit b l `prefix_of` l.
Proof.
  revert b. induction l as [|e l IH]; intros b; simpl; [apply prefix_nil|].
  destruct (_ <=? _); [by apply prefix_cons|apply prefix_nil].
Qed.

Lemma tsize_fit b l : 0 <= b -> tsize (fit b l) <= b.
Proof.
  revert b. induction l as [|e l IH]; intros b Hb; simpl; [lia|].
  destruct (Z.leb_spec (size_of e) b); simpl; [|lia]. specialize (IH (b - size_of e)). lia.
Qed.

Lemma tsize_prefix a b : a `prefix_of` b -> tsize a <= tsize b.
Proof. intros [c ->]. rewrite tsize_app. pose proof (tsize_nonneg c). lia. Qed.

Lemma limit_prefix m l : limit m l `prefix_of` l.
Proof. unfold limit. destruct (_ <=? _); [apply prefix_take|done]. Qed.

(** ** Ring arithmetic *)

Lemma ring_index i s c :
  (s < c)%nat -> (i < c)%nat ->
  ((i + s) mod c)%nat = (if (i + s <? c)%nat then i + s else i + s - c)%nat.
Proof.
  intros Hs Hi. destruct (Nat.ltb_spec (i + s) c); [by apply Nat.mod_small|].
  symmetry. apply (Nat.mod_unique _ _ 1); lia.
Qed.

Lemma ring_index_inj i j s c :
  (s < c)%nat -> (i < c)%nat -> (j < c)%nat ->
  ((i + s) mod c = (j + s) mod c)%nat -> i = j.
Proof.
  intros Hs Hi Hj. rewrite !ring_index by done.
  destruct (Nat.ltb_spec (i + s) c), (Nat.ltb_spec (j + s) c); lia.
Qed.

(** ** Effect of the operations on the represented list *)

Lemma get_rep t l i :
  Rep t l -> (i < length l)%nat -> h2o_hpack_header_table_get t i = l !! i.
Proof.
  intros HR Hi. destruct (lookup_lt_is_Some_2 l i Hi) as [e He].
  unfold h2o_hpack_header_table_get. by rewrite (rep_slots _ _ HR _ _ He), He.
Qed.

Lemma rep_evict_one t l e :
  Rep t (l ++ [e]) ->
  exists t', header_table_evict_one t = Some t' /\ Rep t' l /\
    hpack_capacity t' = hpack_capacity t /\ hpack_max_capacity t' = hpack_max_capacity t.
Proof.
  intros HR. pose proof HR as [H1 H2 H3 H4 H5 H6]. rewrite length_app in *. simpl in *.
  assert (He : (l ++ [e]) !! length l = Some e) by (rewrite lookup_app_r, Nat.sub_diag by lia; done).
  unfold header_table_evict_one. rewrite H2.
  destruct (Nat.eqb_spec (length l + 1) 0); [lia|]. replace (length l + 1 - 1)%nat with (length l) by lia.
  rewrite (get_rep _ _ _ HR), He by (rewrite length_app; simpl; lia).
  eexists. split; [done|]. split; [|done]. constructor; simpl; try lia.
  - by rewrite length_insert.
  - intros i x Hx. pose proof (lookup_lt_Some _ _ _ Hx). rewrite list_lookup_insert_ne.
    + apply H5. by rewrite lookup_app_l by lia.
    + intros Heq. apply ring_index_inj in Heq; lia.
  - rewrite H6, tsize_app. simpl. unfold size_of. lia.
Qed.

(** The abstract effect of an eviction loop: entries leave from the old end. *)
Fixpoint strip (cond : list table_entry -> bool) (n : nat) (l : list table_entry) : list table_entry :=
  if cond (take n l)
  then match n with O => [] | S n => strip cond n l end
  else take n l.

Lemma rep_evict_while cond cond' cap max l n : forall t,
  (forall t l, Rep t l -> hpack_capacity t = cap -> cond t = cond' l) -> cond' [] = false ->
  (n <= length l)%nat -> Rep t (take n l) -> hpack_capacity t = cap -> hpack_max_capacity t = max ->
  exists t', evict_while n cond t = Some t' /\ Rep t' (strip cond' n l) /\
    hpack_capacity t' = cap /\ hpack_max_capacity t' = max.
Proof.
  intros t Hc H0. revert t. induction n as [|n IH]; intros t Hn HR Hcap Hmax; simpl;
    rewrite (Hc _ _ HR Hcap).
  - rewrite take_0, H0 in *. eauto.
  - destruct (cond' (take (S n) l)); [|eauto].
    destruct (lookup_lt_is_Some_2 l n ltac:(lia)) as [e He].
    rewrite (take_S_r _ _ _ He) in HR. apply rep_evict_one in HR as (t' & -> & HR & Hc' & Hm').
    simpl. apply IH; [lia|done|congruence|congruence].
Qed.

Lemma strip_fit add cap n l :
  (n <= length l)%nat ->
  strip (fun l => negb (length l =? 0)%nat && (cap <? tsize l + add)) n l = fit (cap - add) (take n l).
Proof.
  induction n as [|n IH]; intros Hn; simpl strip; [done|].
  destruct (lookup_lt_is_Some_2 l n ltac:(lia)) as [e He].
  destruct (Nat.eqb_spec (length (take (S n) l)) 0) as [Hz|_]; [rewrite length_take in Hz; lia|].
  cbn [negb andb]. destruct (Z.ltb_spec cap (tsize (take (S n) l) + add)).
  - rewrite IH by lia. rewrite (take_S_r _ _ _ He) in *. rewrite fit_snoc; [done|lia].
  - rewrite fit_all; [done|lia].
Qed.

Lemma strip_limit max n l :
  1 <= max -> (n <= length l)%nat ->
  strip (fun l => max <=? len l) n l = limit max (take n l).
Proof.
  intros Hm. unfold limit. induction n as [|n IH]; intros Hn; simpl strip.
  - rewrite take_0, len_nil. by destruct (Z.leb_spec max 0); [lia|].
  - destruct (Z.leb_spec max (len (take (S n) l))) as [Hle|]; [|done].
    rewrite IH by lia. unfold len in *. rewrite length_take in *.
    destruct (Z.leb_spec max (Z.of_nat (n `min` length l))).
    + rewrite !take_take. f_equal. lia.
    + rewrite take_take. f_equal. lia.
Qed.

Lemma rep_grow t l :
  Rep t l ->
  Rep (header_table_grow t) l /\ (length l < entry_capacity (header_table_grow t))%nat.
Proof.
  intros HR. pose proof HR as [H1 H2 H3 H4 H5 H6]. unfold header_table_grow.
  assert (Hcap : (length l < if num_entries t * 2 <? 16 then 16 else num_entries t * 2)%nat)
    by (destruct (Nat.ltb_spec (num_entries t * 2) 16); lia).
  split; [|done]. constructor; simpl; try lia.
  - rewrite length_app, length_map, length_seq, length_replicate. lia.
  - intros i e He. pose proof (lookup_lt_Some _ _ _ He) as Hi.
    rewrite Nat.add_0_r, Nat.mod_small by lia.
    rewrite lookup_app_l by (rewrite length_map, length_seq; lia).
    rewrite list_lookup_fmap, lookup_seq_lt by lia. simpl.
    by rewrite Nat.add_comm, (H5 _ _ He).
Qed.

(** Filling the slot in front of the ring adds an entry at the head of the list. *)
Lemma rep_push t l e :
  Rep t l -> (length l < entry_capacity t)%nat ->
  let start := ((entry_start_index t + entry_capacity t - 1) mod entry_capacity t)%nat in
  Rep (header_table_fill
         (HeaderTable (entries t) (num_entries t + 1) (entry_capacity t) start
            (hpack_size t + size_of e) (hpack_capacity t) (hpack_max_capacity t)) start e)
      (e :: l).
Proof.
  intros [H1 H2 H3 H4 H5 H6] Hlt start.
  assert (Hs : (start = if entry_start_index t =? 0 then entry_capacity t - 1
                        else entry_start_index t - 1)%nat).
  { unfold start. destruct (Nat.eqb_spec (entry_start_index t) 0) as [->|].
    - rewrite Nat.mod_small by lia. lia.
    - symmetry. apply (Nat.mod_unique _ _ 1); lia. }
  assert (Hsc : (start < entry_capacity t)%nat)
    by (rewrite Hs; destruct (Nat.eqb_spec (entry_start_index t) 0); lia).
  constructor; simpl; try lia.
  - by rewrite length_insert.
  - intros [|i] x Hx; simpl in Hx.
    + injection Hx as <-. rewrite Nat.mod_small by lia. apply list_lookup_insert_eq. lia.
    + pose proof (lookup_lt_Some _ _ _ Hx) as Hi. rewrite list_lookup_insert_ne.
      * rewrite <- (H5 _ _ Hx). f_equal. rewrite !ring_index by lia. rewrite Hs.
        destruct (Nat.eqb_spec (entry_start_index t) 0);
          repeat match goal with |- context [(?a <? ?b)%nat] => destruct (Nat.ltb_spec a b) end; lia.
      * rewrite <- (Nat.mod_small start (entry_capacity t)) at 1 by lia.
        intros Heq. apply (ring_index_inj 0 (S i)) in Heq; lia.
Qed.

Lemma rep_make_room t l :
  Rep t l ->
  let t' := if (num_entries t =? entry_capacity t)%nat then header_table_grow t else t in
  Rep t' l /\ (length l < entry_capacity t')%nat /\
  hpack_capacity t' = hpack_capacity t /\ hpack_max_capacity t' = hpack_max_capacity t.
Proof.
  intros HR. rewrite (rep_num _ _ HR). pose proof (rep_cap _ _ HR).
  destruct (Nat.eqb_spec (length l) (entry_capacity t)).
  - destruct (rep_grow _ _ HR). done.
  - split_and!; [done|lia|done|done].
Qed.

(** The two eviction loops of [header_table_add]. *)
Lemma rep_add_evict t l add max_entries :
  Rep t l -> 1 <= max_entries ->
  exists t1 t2,
    evict_while (num_entries t)
      (fun t => negb (num_entries t =? 0)%nat && (hpack_capacity t <? hpack_size t + add)) t = Some t1 /\
    evict_while (num_entries t1) (fun t => max_entries <=? Z.of_nat (num_entries t)) t1 = Some t2 /\
    Rep t2 (limit max_entries (fit (hpack_capacity t - add) l)) /\
    hpack_capacity t2 = hpack_capacity t /\ hpack_max_capacity t2 = hpack_max_capacity t.
Proof.
  intros HR Hmax.
  destruct (rep_evict_while
    (fun t => negb (num_entries t =? 0)%nat && (hpack_capacity t <? hpack_size t + add))
    (fun l => negb (length l =? 0)%nat && (hpack_capacity t <? tsize l + add))
    (hpack_capacity t) (hpack_max_capacity t) l (length l) t) as (t1 & He1 & HR1 & Hc1 & Hm1);
    [|done|done|by rewrite firstn_all|done|done|].
  { intros t0 l0 HR0 Hc0. by rewrite (rep_num _ _ HR0), (rep_size _ _ HR0), Hc0. }
  rewrite strip_fit, firstn_all in HR1 by done.
  destruct (rep_evict_while (fun t => max_entries <=? Z.of_nat (num_entries t))
    (fun l => max_entries <=? len l) (hpack_capacity t) (hpack_max_capacity t)
    (fit (hpack_capacity t - add) l) (length (fit (hpack_capacity t - add) l)) t1)
    as (t2 & He2 & HR2 & Hc2 & Hm2); [|apply Z.leb_gt; rewrite len_nil; lia|done|
      by rewrite firstn_all|done|done|].
  { intros t0 l0 HR0 Hc0. unfold len. by rewrite (rep_num _ _ HR0). }
  rewrite strip_limit, firstn_all in HR2 by done.
  exists t1, t2. rewrite (rep_num _ _ HR), (rep_num _ _ HR1). done.
Qed.

Lemma fit_neg b l : b < 0 -> fit b l = [].
Proof.
  intros. destruct l as [|x l]; [done|]. simpl. pose proof (size_of_pos x).
  by destruct (Z.leb_spec (size_of x) b); [lia|].
Qed.

Lemma limit_nil m : limit m [] = [].
Proof. pose proof (limit_prefix m []) as Hp. by apply prefix_nil_inv in Hp. Qed.

(** Insertion implements [spec_insert], and no assertion fails. *)
Lemma rep_insert t l max_entries e :
  Rep t l -> 1 <= max_entries ->
  exists t', header_table_insert t max_entries e = Some t' /\
    Rep t' (spec_insert (hpack_capacity t) max_entries e l) /\
    hpack_capacity t' = hpack_capacity t /\ hpack_max_capacity t' = hpack_max_capacity t.
Proof.
  intros HR Hmax. unfold header_table_insert, header_table_add, spec_insert.
  fold (size_of e). pose proof (size_of_pos e) as Hpos.
  destruct (rep_add_evict t l (size_of e) max_entries HR Hmax) as (t1 & t2 & -> & He2 & HR2 & Hc2 & Hm2).
  cbn [mbind option_bind]. rewrite He2. cbn [mbind option_bind].
  destruct (rep_make_room _ _ HR2) as (HR3 & Hlt & Hc3 & Hm3).
  rewrite (rep_num _ _ HR2) in *. rewrite (rep_size _ _ HR2), Hc2.
  set (t3 := if (_ =? entry_capacity t2)%nat then header_table_grow t2 else t2) in *. clearbody t3.
  set (l2 := limit max_entries _) in *.
  destruct (Z.leb_spec (size_of e) (hpack_capacity t)).
  - rewrite (proj2 (Z.ltb_ge (hpack_capacity t) (size_of e))) by lia. rewrite andb_false_r.
    assert (((length l2 =? 0)%nat && negb (tsize l2 =? 0)) = false) as ->
      by (by destruct l2).
    eexists. split; [done|]. split; [exact (rep_push _ _ e HR3 Hlt)|]. simpl. split; congruence.
  - assert (Hl2 : l2 = []) by (unfold l2; by rewrite fit_neg, limit_nil by lia).
    rewrite Hl2 in *. simpl. destruct (Z.ltb_spec (hpack_capacity t) (size_of e)); [|lia].
    exists t2. done.
Qed.

(** A change of capacity keeps the newest entries that fit. *)
Lemma rep_set_capacity t l cap :
  Rep t l ->
  exists t', header_table_set_capacity t cap = Some t' /\ Rep t' (fit cap l) /\
    hpack_capacity t' = cap /\ hpack_max_capacity t' = hpack_max_capacity t.
Proof.
  intros HR. unfold header_table_set_capacity. simpl.
  destruct (rep_evict_while
    (fun t => negb (num_entries t =? 0)%nat && (hpack_capacity t <? hpack_size t))
    (fun l => negb (length l =? 0)%nat && (cap <? tsize l + 0))
    cap (hpack_max_capacity t) l (length l)
    (HeaderTable (entries t) (num_entries t) (entry_capacity t) (entry_start_index t)
       (hpack_size t) cap (hpack_max_capacity t))) as (t' & He & HR' & Hc & Hm); try done.
  - intros t0 l0 HR0 Hc0. by rewrite (rep_num _ _ HR0), (rep_size _ _ HR0), Hc0, Z.add_0_r.
  - rewrite firstn_all. destruct HR. by constructor.
  - rewrite (rep_num _ _ HR) in He |- *. rewrite He. exists t'.
    rewrite strip_fit, firstn_all, Z.sub_0_r in HR' by done. done.
Qed.

Lemma rep_empty cap : Rep (empty_table cap) [].
Proof. constructor; simpl; try done; lia. Qed.

(** The size invariant of RFC 7541 4.1: the entries fit the capacity. *)
Definition within (t : header_table) (l : list table_entry) : Prop :=
  Rep t l /\ tsize l <= hpack_capacity t.

Lemma tsize_spec_insert cap max_entries e l :
  0 <= cap -> tsize (spec_insert cap max_entries e l) <= cap.
Proof.
  intros Hc. unfold spec_insert. destruct (Z.leb_spec (size_of e) cap); [|done]. simpl.
  pose proof (tsize_prefix _ _ (limit_prefix max_entries (fit (cap - size_of e) l))).
  pose proof (tsize_fit (cap - size_of e) l). lia.
Qed.

Lemma length_spec_insert cap max_entries e l :
  1 <= max_entries -> len (spec_insert cap max_entries e l) <= max_entries.
Proof.
  intros Hm. unfold spec_insert, limit. bcase; autorewrite with h2o; unfold len in *;
    rewrite ?length_take; lia.
Qed.

(** ** Properties *)

(** Adding an entry to the dynamic table, a ring buffer that grows, does what RFC 7541 4.4
    says of the list of entries it represents: the oldest entries are dropped until the new
    one fits the capacity (and the limit on their number), it becomes the first, and an entry
    larger than the capacity empties the table.  No assertion fails, the recorded size is the
    sum of the entries' sizes and does not exceed the capacity, and lookups give the list. *)
Theorem table_insert_refines t l max_entries e :
  Rep t l -> 0 <= hpack_capacity t -> 1 <= max_entries ->
  exists t', header_table_insert t max_entries e = Some t' /\
    Rep t' (spec_insert (hpack_capacity t) max_entries e l) /\
    hpack_size t' <= hpack_capacity t' /\ hpack_capacity t' = hpack_capacity t /\
    (forall i, (i < num_entries t')%nat ->
       h2o_hpack_header_table_get t' i = spec_insert (hpack_capacity t) max_entries e l !! i).
Proof.
  intros HR Hc Hm. destruct (rep_insert t l max_entries e HR Hm) as (t' & Hi & HR' & Hc' & _).
  exists t'. split_and!; [done|done| |done|].
  - rewrite (rep_size _ _ HR'), Hc'. by apply tsize_spec_insert.
  - intros i Hlt. apply get_rep; [done|]. by rewrite <- (rep_num _ _ HR').
Qed.

Lemma table_insert_refines_witness :
  exists t', header_table_insert (empty_table 4096) 32 (Entry (NStr [120]) [1; 2] 0) = Some t' /\
    Rep t' (spec_insert 4096 32 (Entry (NStr [120]) [1; 2] 0) []) /\
    hpack_size t' <= hpack_capacity t' /\ hpack_capacity t' = 4096 /\
    (forall i, (i < num_entries t')%nat ->
       h2o_hpack_header_table_get t' i = spec_insert 4096 32 (Entry (NStr [120]) [1; 2] 0) [] !! i).
Proof.
  apply (table_insert_refines (empty_table 4096) [] 32); [apply rep_empty|simpl; lia|lia].
Defined.

(** A change of the capacity keeps the newest entries that fit it, in order, and no other
    (RFC 7541 4.3); no assertion fails. *)
Theorem table_set_capacity_refines t l cap :
  Rep t l -> 0 <= cap ->
  exists t', header_table_set_capacity t cap = Some t' /\ Rep t' (fit cap l) /\
    hpack_capacity t' = cap /\ hpack_size t' <= cap /\
    (hpack_size t <= cap -> Rep t' l).
Proof.
  intros HR Hc. destruct (rep_set_capacity t l cap HR) as (t' & Hs & HR' & Hc' & _).
  exists t'. split_and!; [done|done|done| |].
  - rewrite (rep_size _ _ HR'). by apply tsize_fit.
  - rewrite (rep_size _ _ HR). intros Hle. by rewrite (fit_all cap l Hle) in HR'.
Qed.

Lemma table_set_capacity_refines_witness :
  exists t', header_table_set_capacity (empty_table 4096) 100 = Some t' /\ Rep t' (fit 100 []) /\
    hpack_capacity t' = 100 /\ hpack_size t' <= 100 /\
    (hpack_size (empty_table 4096) <= 100 -> Rep t' []).
Proof. apply (table_set_capacity_refines (empty_table 4096) [] 100); [apply rep_empty|lia]. Defined.
