(* ===== verification/Headers.v ===== *)
(** * Lists of headers (lib/core/headers.c, include/h2o/header.h)

    [h2o_headers_t] is a vector of headers.  Indices are [ssize_t], -1 for none; an operation
    that changes the vector returns it with the index the C function returns. *)
From S2P Require Import Prelude Strings Tokens HeaderTable.
From Stdlib Require Import ZArith Lia.
From stdpp Require Import base list numbers option strings.
Open Scope Z_scope.

Record h2o_header_t := Header {
  h_name : name_ref;
  h_orig_name : option bytes;
  h_value : bytes;
  h_dont_compress : bool }.

#[export] Instance header_eq_dec : EqDecision h2o_header_t.
Proof. solve_decision. Defined.

Abbreviation h2o_headers_t := (list h2o_header_t).

Definition h2o_header_name_is_equal (x y : h2o_header_t) : bool :=
  if bool_decide (h_name x = h_name y) then true
  else bool_decide (name_bytes (h_name x) = name_bytes (h_name y)).

(** ** Operations *)

(** [slot->orig_name] is a copy of the [name->len] octets at [orig_name]. *)
Definition add_header (headers : h2o_headers_t) (name : name_ref) (orig_name : option bytes)
    (value : bytes) (dont_compress : bool) : h2o_headers_t * Z :=
  (headers ++ [Header name (take (length (name_bytes name)) <$> orig_name) value dont_compress],
   len headers).

(** The loops over [cursor], on the entries from it on. *)
Fixpoint find_header_loop (test : h2o_header_t -> bool) (rest : h2o_headers_t) (cursor : Z) : Z :=
  match rest with
  | [] => -1
  | h :: rest => if test h then cursor else find_header_loop test rest (cursor + 1)
  end.

Definition has_token (token : Z) (h : h2o_header_t) : bool := bool_decide (h_name h = NTok token).
Definition has_name (name : bytes) (h : h2o_header_t) : bool := bool_decide (name_bytes (h_name h) = name).

Definition h2o_find_header (headers : h2o_headers_t) (token cursor : Z) : Z :=
  find_header_loop (has_token token) (drop (Z.to_nat (cursor + 1)) headers) (cursor + 1).

Definition h2o_find_header_by_str (headers : h2o_headers_t) (name : bytes) (cursor : Z) : Z :=
  find_header_loop (has_name name) (drop (Z.to_nat (cursor + 1)) headers) (cursor + 1).

Definition h2o_add_header (headers : h2o_headers_t) (token : Z) (orig_name : option bytes)
    (value : bytes) : h2o_headers_t * Z :=
  add_header headers (NTok token) orig_name value false.

Definition h2o_add_header_by_str (headers : h2o_headers_t) (lowercase_name : bytes)
    (maybe_token : bool) (orig_name : option bytes) (value : bytes) : h2o_headers_t * Z :=
  match if maybe_token then h2o_lookup_token lowercase_name else None with
  | Some token => add_header headers (NTok token) orig_name value false
  | None => add_header headers (NStr lowercase_name) orig_name value false
  end.

Definition set_value (value : bytes) (h : h2o_header_t) : h2o_header_t :=
  Header (h_name h) (h_orig_name h) value (h_dont_compress h).

Definition h2o_set_header (headers : h2o_headers_t) (token : Z) (value : bytes)
    (overwrite_if_exists : bool) : h2o_headers_t * Z :=
  let cursor := h2o_find_header headers token (-1) in
  if negb (cursor =? -1) then
    (if overwrite_if_exists then alter (set_value value) (Z.to_nat cursor) headers else headers, cursor)
  else h2o_add_header headers token None value.

Definition h2o_set_header_by_str (headers : h2o_headers_t) (lowercase_name : bytes)
    (maybe_token : bool) (value : bytes) (overwrite_if_exists : bool) : h2o_headers_t * Z :=
  match if maybe_token then h2o_lookup_token lowercase_name else None with
  | Some token => h2o_set_header headers token value overwrite_if_exists
  | None =>
      let cursor := h2o_find_header_by_str headers lowercase_name (-1) in
      if negb (cursor =? -1) then
        (if overwrite_if_exists then alter (set_value value) (Z.to_nat cursor) headers else headers, cursor)
      else add_header headers (NStr lowercase_name) None value false
  end.

(** The loop of [h2o_set_header_token]: [None] for [return -1], otherwise [found]. *)
Fixpoint set_header_token_loop (rest : h2o_headers_t) (token : Z) (value : bytes) (i found : Z)
    : option (option Z) :=
  match rest with
  | [] => Some (Some found)
  | h :: rest =>
      if has_token token h then
        contains ← h2o_contains_token (h_value h) value 44;
        if contains : bool then Some None
        else set_header_token_loop rest token value (i + 1) i
      else set_header_token_loop rest token value (i + 1) found
  end.

(** [None] does not occur: see [set_header_token_total]. *)
Definition h2o_set_header_token (headers : h2o_headers_t) (token : Z) (value : bytes)
    : option (h2o_headers_t * Z) :=
  r ← set_header_token_loop headers token value 0 (-1);
  match r with
  | None => Some (headers, -1)
  | Some found =>
      if negb (found =? -1) then
        Some (alter (fun dest => set_value (h2o_concat_list [h_value dest; lit ", "; value]) dest)
                (Z.to_nat found) headers, found)
      else Some (h2o_add_header headers token None value)
  end.

(** [None]: the assertion fails. *)
Definition h2o_delete_header (headers : h2o_headers_t) (cursor : Z) : option (h2o_headers_t * Z) :=
  if cursor =? -1 then None
  else Some (take (Z.to_nat cursor) headers ++ drop (Z.to_nat cursor + 1) headers, cursor).

(** ** Searching *)

(** [r] is the index of the first entry from [c] on that satisfies [test]. *)
Definition found (test : h2o_header_t -> bool) (headers : h2o_headers_t) (c r : Z) : Prop :=
  (r = -1 /\ forall i h, headers !! i = Some h -> c <= Z.of_nat i -> test h = false) \/
  (exists h, c <= r < len headers /\ headers !! Z.to_nat r = Some h /\ test h = true /\
     forall i h', headers !! i = Some h' -> c <= Z.of_nat i < r -> test h' = false).

Lemma find_header_loop_spec test headers : forall rest c,
  0 <= c -> rest = drop (Z.to_nat c) headers -> found test headers c (find_header_loop test rest c).
Proof.
  induction rest as [|h rest IH]; intros c Hc Hr; simpl.
  - left. split; [done|]. intros i h Hi Hci. apply lookup_lt_Some in Hi.
    apply (f_equal length) in Hr. rewrite length_drop in Hr. simpl in Hr. lia.
  - assert (Hh : headers !! Z.to_nat c = Some h).
    { rewrite <- (Nat.add_0_r (Z.to_nat c)), <- lookup_drop, <- Hr. done. }
    pose proof (lookup_lt_Some _ _ _ Hh). destruct (test h) eqn:Ht.
    { right. exists h. unfold len. split_and!; [lia|lia|done|done|intros; lia]. }
    destruct (IH (c + 1) ltac:(lia)) as [[-> Hno]|(h' & Hb & Hl & Ht' & Hmin)].
    { replace (Z.to_nat (c + 1)) with (Z.to_nat c + 1)%nat by lia. by rewrite <- drop_drop, <- Hr. }
    + left. split; [done|]. intros i g Hg Hi. destruct (Z.eq_dec (Z.of_nat i) c) as [<-|]; [|eapply Hno; [done|lia]].
      rewrite Nat2Z.id in Hh. congruence.
    + right. exists h'. split_and!; [lia|lia|done|done|]. intros i g Hg Hi.
      destruct (Z.eq_dec (Z.of_nat i) c) as [<-|]; [|eapply Hmin; [done|lia]].
      rewrite Nat2Z.id in Hh. congruence.
Qed.

Lemma find_header_spec headers token cursor :
  -1 <= cursor -> found (has_token token) headers (cursor + 1) (h2o_find_header headers token cursor).
Proof. intros. apply find_header_loop_spec; [lia|done]. Qed.

Lemma find_header_by_str_spec headers name cursor :
  -1 <= cursor -> found (has_name name) headers (cursor + 1) (h2o_find_header_by_str headers name cursor).
Proof. intros. apply find_header_loop_spec; [lia|done]. Qed.

(** ** Setting a header *)

Lemma has_token_set_value token value h : has_token token (set_value value h) = has_token token h.
Proof. done. Qed.

(** The index found is that of the first entry of the name. *)
Lemma find_header_at headers token k h :
  headers !! k = Some h -> has_token token h = true ->
  (forall i h', headers !! i = Some h' -> (i < k)%nat -> has_token token h' = false) ->
  h2o_find_header headers token (-1) = Z.of_nat k.
Proof.
  intros Hk Ht Hmin. destruct (find_header_spec headers token (-1) ltac:(lia))
    as [[_ Hno]|(h' & Hb & Hl & Ht' & Hmin')].
  - rewrite (Hno _ _ Hk ltac:(lia)) in Ht. done.
  - set (r := h2o_find_header _ _ _) in *. destruct (Z.lt_total r (Z.of_nat k)) as [|[|]]; [|done|].
    + rewrite (Hmin _ _ Hl ltac:(lia)) in Ht'. done.
    + rewrite (Hmin' _ _ Hk ltac:(lia)) in Ht. done.
Qed.

(** After [h2o_set_header], the entry found by the name has the value, unless an existing one
    was to be kept; no other entry changes. *)
Definition set_outcome (headers headers' : h2o_headers_t) (token : Z) (value : bytes)
    (overwrite : bool) (r : Z) : Prop :=
  h2o_find_header headers' token (-1) = r /\ 0 <= r /\
  (exists h, headers' !! Z.to_nat r = Some h /\ h_name h = NTok token /\
     (h_value h = value \/ overwrite = false /\ headers' = headers)) /\
  (forall i, Z.of_nat i <> r -> headers' !! i = headers !! i).

Lemma has_token_name token h : has_token token h = true <-> h_name h = NTok token.
Proof. apply bool_decide_eq_true. Qed.

Lemma add_header_outcome headers token value overwrite :
  (forall i h, headers !! i = Some h -> has_token token h = false) ->
  let '(headers', r) := h2o_add_header headers token None value in
  set_outcome headers headers' token value overwrite r.
Proof.
  intros Hno. unfold h2o_add_header, add_header, set_outcome.
  set (h := Header _ _ value false).
  assert (Hnew : (headers ++ [h]) !! length headers = Some h)
    by (by rewrite lookup_app_r, Nat.sub_diag by lia).
  split_and!.
  - unfold len. eapply find_header_at; [exact Hnew|by apply has_token_name|].
    intros i h' Hi Hlt. rewrite lookup_app_l in Hi by done. by eapply Hno.
  - apply len_nonneg.
  - exists h. unfold len. rewrite Nat2Z.id. split_and!; [done|done|by left].
  - intros i Hi. unfold len in Hi. destruct (decide (i < length headers)%nat).
    + by rewrite lookup_app_l.
    + rewrite !lookup_ge_None_2; [done|lia|rewrite length_app; simpl; lia].
Qed.

Lemma set_header_spec headers token value overwrite :
  let '(headers', r) := h2o_set_header headers token value overwrite in
  set_outcome headers headers' token value overwrite r.
Proof.
  unfold h2o_set_header.
  destruct (find_header_spec headers token (-1) ltac:(lia)) as [[-> Hno]|(h & Hb & Hl & Ht & Hmin)].
  { change (negb (-1 =? -1)) with false. cbv iota. apply add_header_outcome.
    intros i h Hi. eapply Hno; [done|lia]. }
  set (k := h2o_find_header headers token (-1)) in *. destruct (Z.eqb_spec k (-1)); [lia|]. cbn [negb].
  pose proof (proj1 (has_token_name token h) Ht) as Hn. destruct overwrite.
  - assert (Hat : alter (set_value value) (Z.to_nat k) headers !! Z.to_nat k = Some (set_value value h))
      by (by rewrite list_lookup_alter_eq, Hl).
    split_and!; [|lia| |].
    + rewrite (find_header_at _ _ _ _ Hat); [lia|done|]. intros i h' Hi Hlt.
      rewrite list_lookup_alter_ne in Hi by lia. eapply Hmin; [done|lia].
    + eexists. split_and!; [exact Hat|done|by left].
    + intros i Hi. apply list_lookup_alter_ne. lia.
  - split_and!; [done|lia| |done]. exists h. split_and!; [done|done|by right].
Qed.

(** ** Adding a token to a list header *)

Lemma set_header_token_loop_total rest : forall token value i f,
  is_Some (set_header_token_loop rest token value i f).
Proof.
  induction rest as [|h rest IH]; intros token value i f; simpl; [by eexists|].
  destruct (has_token token h); [|apply IH].
  destruct (contains_token_loop_total (S (length (h_value h))) (h_value h) 0 value 44) as [b Hb]; [lia..|].
  unfold h2o_contains_token. rewrite Hb. simpl. destruct b; [by eexists|apply IH].
Qed.

Lemma set_header_token_total headers token value : is_Some (h2o_set_header_token headers token value).
Proof.
  unfold h2o_set_header_token. destruct (set_header_token_loop_total headers token value 0 (-1)) as [r ->].
  simpl. destruct r as [f|]; [|by eexists]. destruct (negb _); by eexists.
Qed.

(** A value [h2o_set_header_token] can look for: a token of the list grammar in lower case. *)
Definition list_token (value : bytes) : Prop :=
  value <> [] /\ (44 ∉ value) /\ rtrim (ltrim value) = value /\ h2o_strtolower value = value.

(** The first entry of that name which contains the token ends the loop. *)
Lemma set_header_token_loop_found rest : forall token value i f k h,
  rest !! k = Some h -> has_token token h = true -> h2o_contains_token (h_value h) value 44 = Some true ->
  set_header_token_loop rest token value i f = Some None.
Proof.
  induction rest as [|g rest IH]; intros token value i f k h Hk Ht Hc; [done|]. simpl.
  destruct k as [|k]; simpl in Hk.
  - injection Hk as ->. by rewrite Ht, Hc.
  - destruct (has_token token g); [|by eapply IH].
    destruct (contains_token_loop_total (S (length (h_value g))) (h_value g) 0 value 44) as [b Hb]; [lia..|].
    unfold h2o_contains_token at 1. rewrite Hb. simpl. destruct b; [done|by eapply IH].
Qed.

Lemma set_header_token_loop_index rest : forall token value i f r,
  set_header_token_loop rest token value i f = Some (Some r) ->
  r = f \/ exists k h, r = i + Z.of_nat k /\ rest !! k = Some h /\ has_token token h = true.
Proof.
  induction rest as [|h rest IH]; intros token value i f r H; simpl in H; [left; congruence|].
  destruct (has_token token h) eqn:Ht.
  - destruct (h2o_contains_token _ _ _) as [[]|]; simpl in H; try done.
    apply IH in H as [->|(k & g & -> & Hk & Hg)]; right; [exists O, h|exists (S k), g];
      split_and!; simpl; done || lia.
  - apply IH in H as [->|(k & g & -> & Hk & Hg)]; [by left|]. right. exists (S k), g.
    split_and!; simpl; done || lia.
Qed.

Lemma pieces_single is_sep p : Forall (fun c => is_sep c = false) p -> pieces is_sep p = [p].
Proof.
  intros Hp. destruct (pieces_app is_sep p [] Hp) as (q & ps & Hq & He).
  injection Hq as <- <-. by rewrite app_nil_r in He.
Qed.

Lemma pieces_sep is_sep a c b :
  is_sep c = true -> pieces is_sep (a ++ c :: b) = pieces is_sep a ++ pieces is_sep b.
Proof.
  intros Hc. induction a as [|d a IH]; simpl; [by rewrite Hc|].
  destruct (is_sep d); [by rewrite IH|]. rewrite IH.
  destruct (pieces is_sep a) as [|p ps] eqn:Ea; [|done].
  destruct (pieces_app is_sep [] a (List.Forall_nil _)) as (q & ps & Hq & _). congruence.
Qed.

Lemma not_comma value : 44 ∉ value -> Forall (fun c => sep 44 c = false) value.
Proof.
  intros H. rewrite Forall_forall. intros c Hc. unfold sep. destruct (Z.eqb_spec c 44) as [->|]; done.
Qed.

Lemma contains_appended value old :
  list_token value -> h2o_contains_token (h2o_concat_list [old; lit ", "; value]) value 44 = Some true.
Proof.
  intros (Hne & Hc & Htrim & Hlow). rewrite contains_token_spec; [|done| |done].
  2:{ intros ->. apply Hc. by apply list_elem_of_singleton. }
  f_equal. apply existsb_exists. exists (32 :: value).
  replace (h2o_concat_list [old; lit ", "; value]) with (old ++ 44 :: 32 :: value).
  2:{ unfold h2o_concat_list. simpl. by rewrite app_nil_r. }
  rewrite pieces_sep by done. rewrite (pieces_single _ (32 :: value)).
  2:{ constructor; [done|by apply not_comma]. }
  split; [apply in_app_iff; right; by left|].
  unfold hit. apply bool_decide_eq_true. simpl. by rewrite Htrim.
Qed.

Lemma contains_itself value : list_token value -> h2o_contains_token value value 44 = Some true.
Proof.
  intros (Hne & Hc & Htrim & Hlow). rewrite contains_token_spec; [|done| |done].
  2:{ intros ->. apply Hc. by apply list_elem_of_singleton. }
  rewrite pieces_single by (by apply not_comma). simpl. f_equal. rewrite orb_false_r.
  apply bool_decide_eq_true. by rewrite Htrim.
Qed.

(** Once [h2o_set_header_token] returns, an entry of that name contains the token. *)
Lemma set_header_token_contains headers token value headers' r :
  list_token value -> h2o_set_header_token headers token value = Some (headers', r) ->
  r <> -1 ->
  exists k h, r = Z.of_nat k /\ headers' !! k = Some h /\ has_token token h = true /\
    h2o_contains_token (h_value h) value 44 = Some true.
Proof.
  intros Hv. unfold h2o_set_header_token.
  destruct (set_header_token_loop headers token value 0 (-1)) as [[f|]|] eqn:E; simpl; [| |done].
  2:{ intros [= <- <-] Hr. done. }
  destruct (Z.eqb_spec f (-1)) as [->|Hf]; cbn [negb].
  - unfold h2o_add_header, add_header. intros [= <- <-] _. eexists (length headers), _.
    split_and!; [done|by rewrite lookup_app_r, Nat.sub_diag by lia| |].
    + by apply has_token_name.
    + by apply contains_itself.
  - intros [= <- <-] _. apply set_header_token_loop_index in E as [->|(k & h & -> & Hk & Ht)]; [done|].
    exists k, (set_value (h2o_concat_list [h_value h; lit ", "; value]) h).
    rewrite Z.add_0_l, Nat2Z.id, list_lookup_alter_eq, Hk.
    split_and!; [done|done|done|]. by apply contains_appended.
Qed.

(** ** Properties *)

(** [h2o_find_header] returns the index of the first header of the name after the cursor,
    and -1 exactly when there is none. *)
Theorem find_header_first headers token cursor :
  -1 <= cursor ->
  let r := h2o_find_header headers token cursor in
  (r = -1 /\ forall i h, headers !! i = Some h -> cursor < Z.of_nat i -> h_name h <> NTok token) \/
  (exists h, cursor < r /\ headers !! Z.to_nat r = Some h /\ h_name h = NTok token /\
     forall i h', headers !! i = Some h' -> cursor < Z.of_nat i < r -> h_name h' <> NTok token).
Proof.
  intros Hc. cbv zeta. destruct (find_header_spec headers token cursor Hc) as [[-> Hno]|(h & Hb & Hl & Ht & Hmin)].
  - left. split; [done|]. intros i h Hi Hlt Hn.
    apply has_token_name in Hn. rewrite (Hno _ _ Hi) in Hn; [done|lia].
  - right. exists h. split_and!; [lia|done|by apply has_token_name|].
    intros i h' Hi Hlt Hn. apply has_token_name in Hn. rewrite (Hmin _ _ Hi) in Hn; [done|lia].
Qed.

Lemma find_header_first_witness :
  let hs := [Header (NTok 3) None [1] false; Header (NTok 5) None [2] false] in
  let r := h2o_find_header hs 5 (-1) in
  (r = -1 /\ forall i h, hs !! i = Some h -> -1 < Z.of_nat i -> h_name h <> NTok 5) \/
  (exists h, -1 < r /\ hs !! Z.to_nat r = Some h /\ h_name h = NTok 5 /\
     forall i h', hs !! i = Some h' -> -1 < Z.of_nat i < r -> h_name h' <> NTok 5).
Proof. cbv zeta. apply find_header_first. lia. Defined.

(** [h2o_set_header] leaves the header findable at the index it returns, with the value
    unless it existed and was to be kept, and changes nothing else. *)
Theorem set_header_effect headers token value overwrite :
  let '(headers', r) := h2o_set_header headers token value overwrite in
  h2o_find_header headers' token (-1) = r /\ 0 <= r /\
  (exists h, headers' !! Z.to_nat r = Some h /\ h_name h = NTok token /\
     (h_value h = value \/ overwrite = false /\ headers' = headers)) /\
  (forall i, Z.of_nat i <> r -> headers' !! i = headers !! i).
Proof. exact (set_header_spec headers token value overwrite). Qed.

(** [h2o_set_header_token] always returns; afterwards a header of that name contains the
    token, and calling it again changes nothing (it returns -1). *)
Theorem set_header_token_idempotent headers token value :
  list_token value ->
  exists headers' r, h2o_set_header_token headers token value = Some (headers', r) /\
    h2o_set_header_token headers' token value = Some (headers', -1).
Proof.
  intros Hv. destruct (set_header_token_total headers token value) as [[headers' r] Hr].
  exists headers', r. split; [done|]. destruct (Z.eq_dec r (-1)) as [->|Hne].
  - unfold h2o_set_header_token in *. destruct (set_header_token_loop headers token value 0 (-1)) as [[f|]|] eqn:E;
      simpl in Hr; [| |done].
    + destruct (Z.eqb_spec f (-1)) as [->|Hf]; cbn [negb] in Hr.
      * injection Hr as _ Hl. pose proof (len_nonneg headers). lia.
      * by injection Hr.
    + injection Hr as <-. by rewrite E.
  - destruct (set_header_token_contains _ _ _ _ _ Hv Hr Hne) as (k & h & _ & Hk & Ht & Hc).
    unfold h2o_set_header_token. by rewrite (set_header_token_loop_found _ _ _ _ _ _ _ Hk Ht Hc).
Qed.

Lemma set_header_token_idempotent_witness :
  exists headers' r,
    h2o_set_header_token [Header (NTok 83) None (lit "Cookie") false] 83 (lit "accept-encoding")
      = Some (headers', r) /\
    h2o_set_header_token headers' 83 (lit "accept-encoding") = Some (headers', -1).
Proof.
  apply (set_header_token_idempotent [Header (NTok 83) None (lit "Cookie") false] 83 (lit "accept-encoding")).
  split; [done|]. split; [|split; reflexivity].
  intros H. apply list_elem_of_In in H. vm_compute in H.
  repeat (destruct H as [H|H]; [discriminate H|]). done.
Defined.
