(* ===== verification/Hpack.v ===== *)
(** * HPACK header fields (lib/http2/hpack.c)

    Decoding of strings and header fields against the dynamic table, and their encoding.
    A function that may fail an [assert] (or follow a NULL entry) returns [None] there. *)
From S2P Require Import Prelude Tokens HpackInt Huffman HeaderTable.
From Stdlib Require Import ZArith Lia.
From stdpp Require Import base list numbers option strings.
Open Scope Z_scope.

(** ** Validation of plain strings *)

Definition valid_h2_header_name_char_table : list Z := [
   0; 0; 0; 0; 0; 0; 0; 0; 0; 0; 0; 0; 0; 0; 0; 0; 0; 0; 0; 0; 0; 0; 0; 0; 0; 0; 0; 0; 0; 0; 0; 0;
   0; 1; 0; 1; 1; 1; 1; 1; 0; 0; 1; 1; 0; 1; 1; 0; 1; 1; 1; 1; 1; 1; 1; 1; 1; 1; 0; 0; 0; 0; 0; 0;
   0; 0; 0; 0; 0; 0; 0; 0; 0; 0; 0; 0; 0; 0; 0; 0; 0; 0; 0; 0; 0; 0; 0; 0; 0; 0; 0; 0; 0; 0; 1; 1;
   1; 1; 1; 1; 1; 1; 1; 1; 1; 1; 1; 1; 1; 1; 1; 1; 1; 1; 1; 1; 1; 1; 1; 1; 1; 1; 1; 0; 1; 0; 1; 0;
   0; 0; 0; 0; 0; 0; 0; 0; 0; 0; 0; 0; 0; 0; 0; 0; 0; 0; 0; 0; 0; 0; 0; 0; 0; 0; 0; 0; 0; 0; 0; 0;
   0; 0; 0; 0; 0; 0; 0; 0; 0; 0; 0; 0; 0; 0; 0; 0; 0; 0; 0; 0; 0; 0; 0; 0; 0; 0; 0; 0; 0; 0; 0; 0;
   0; 0; 0; 0; 0; 0; 0; 0; 0; 0; 0; 0; 0; 0; 0; 0; 0; 0; 0; 0; 0; 0; 0; 0; 0; 0; 0; 0; 0; 0; 0; 0;
   0; 0; 0; 0; 0; 0; 0; 0; 0; 0; 0; 0; 0; 0; 0; 0; 0; 0; 0; 0; 0; 0; 0; 0; 0; 0; 0; 0; 0; 0; 0; 0].

Definition valid_h2_field_value_char_table : list Z := [
   0; 0; 0; 0; 0; 0; 0; 0; 0; 1; 0; 0; 0; 0; 0; 0; 0; 0; 0; 0; 0; 0; 0; 0; 0; 0; 0; 0; 0; 0; 0; 0;
   1; 1; 1; 1; 1; 1; 1; 1; 1; 1; 1; 1; 1; 1; 1; 1; 1; 1; 1; 1; 1; 1; 1; 1; 1; 1; 1; 1; 1; 1; 1; 1;
   1; 1; 1; 1; 1; 1; 1; 1; 1; 1; 1; 1; 1; 1; 1; 1; 1; 1; 1; 1; 1; 1; 1; 1; 1; 1; 1; 1; 1; 1; 1; 1;
   1; 1; 1; 1; 1; 1; 1; 1; 1; 1; 1; 1; 1; 1; 1; 1; 1; 1; 1; 1; 1; 1; 1; 1; 1; 1; 1; 1; 1; 1; 1; 0;
   1; 1; 1; 1; 1; 1; 1; 1; 1; 1; 1; 1; 1; 1; 1; 1; 1; 1; 1; 1; 1; 1; 1; 1; 1; 1; 1; 1; 1; 1; 1; 1;
   1; 1; 1; 1; 1; 1; 1; 1; 1; 1; 1; 1; 1; 1; 1; 1; 1; 1; 1; 1; 1; 1; 1; 1; 1; 1; 1; 1; 1; 1; 1; 1;
   1; 1; 1; 1; 1; 1; 1; 1; 1; 1; 1; 1; 1; 1; 1; 1; 1; 1; 1; 1; 1; 1; 1; 1; 1; 1; 1; 1; 1; 1; 1; 1;
   1; 1; 1; 1; 1; 1; 1; 1; 1; 1; 1; 1; 1; 1; 1; 1; 1; 1; 1; 1; 1; 1; 1; 1; 1; 1; 1; 1; 1; 1; 1; 1].

Definition valid_h2_header_name_char (ch : Z) : bool :=
  negb (nth (Z.to_nat ch) valid_h2_header_name_char_table 0 =? 0).

Definition valid_h2_field_value_char (ch : Z) : bool :=
  negb (nth (Z.to_nat ch) valid_h2_field_value_char_table 0 =? 0).

(** The loop of [h2o_hpack_validate_header_name]: whether the hard validation succeeded,
    [*soft_errors] and [*err_desc]. *)
Fixpoint validate_name_loop (s : bytes) (soft_errors : Z) (err_desc : option hpack_err_desc)
    : bool * Z * option hpack_err_desc :=
  match s with
  | [] => (true, soft_errors, err_desc)
  | ch :: s =>
      if valid_h2_header_name_char ch then validate_name_loop s soft_errors err_desc
      else if wrap32 (ch - 65) <? 26
      then (false, soft_errors, Some h2o_hpack_err_found_upper_case_in_header_name)
      else validate_name_loop s (Z.lor soft_errors H2O_HPACK_SOFT_ERROR_BIT_INVALID_NAME) err_desc
  end.

Definition h2o_hpack_validate_header_name (s : bytes) (soft_errors : Z)
    (err_desc : option hpack_err_desc) : bool * Z * option hpack_err_desc :=
  match s with
  | [] => (true, Z.lor soft_errors H2O_HPACK_SOFT_ERROR_BIT_INVALID_NAME, err_desc)
  | _ => validate_name_loop s soft_errors err_desc
  end.

Definition h2o_hpack_validate_header_value (s : bytes) (soft_errors : Z) : Z :=
  if negb (header_value_valid_as_whole s) || negb (forallb valid_h2_field_value_char s)
  then Z.lor soft_errors H2O_HPACK_SOFT_ERROR_BIT_INVALID_VALUE
  else soft_errors.

(** ** Decoding *)

(** The string ([None] for NULL), [*src], [*soft_errors] and [*err_desc] on return. *)
Record string_result := StringResult {
  sr_ret : option bytes;
  sr_src : bytes;
  sr_soft_errors : Z;
  sr_err_desc : option hpack_err_desc }.

Definition decode_string (src : bytes) (soft_errors : Z) (is_header_name : bool)
    (err_desc : option hpack_err_desc) : string_result :=
  match src with
  | [] => StringResult None src soft_errors err_desc
  | b0 :: _ =>
      let is_huffman := negb (Z.land b0 0x80 =? 0) in
      let '(n, src) := h2o_hpack_decode_int src 7 in
      if n <? 0 then StringResult None src soft_errors err_desc
      else if len src <? n then StringResult None src soft_errors err_desc
      else
        let s := take (Z.to_nat n) src in
        let rest := drop (Z.to_nat n) src in
        if is_huffman then
          let r := h2o_hpack_decode_huffman s is_header_name soft_errors err_desc in
          match hr_dst r with
          | None => StringResult None src (hr_soft_errors r) (hr_err_desc r)
          | Some dst => StringResult (Some dst) rest (hr_soft_errors r) (hr_err_desc r)
          end
        else if is_header_name then
          let '(ok, soft_errors, err_desc) :=
            if (n =? 0) || negb (hd 0 src =? 58)
            then h2o_hpack_validate_header_name s soft_errors err_desc
            else (true, soft_errors, err_desc) in
          if ok then StringResult (Some s) rest soft_errors err_desc
          else StringResult None src soft_errors err_desc
        else StringResult (Some s) rest (h2o_hpack_validate_header_value s soft_errors) err_desc
  end.

(** The return code; the header, when [*_name] and [*_value] are set; [*src], the table and
    [*err_desc] on return. *)
Record header_result := HeaderResult {
  dh_ret : Z;
  dh_header : option (name_ref * bytes);
  dh_src : bytes;
  dh_table : header_table;
  dh_err_desc : option hpack_err_desc }.

(** The representation read at label [Redo]: [index] (0 for a new name),
    [value_is_indexed] and [do_index], with the cursor after it; or a size update. *)
Inductive representation :=
| Field (index : Z) (value_is_indexed do_index : bool)
| SizeUpdate (new_capacity : Z).

Definition decode_representation (src : bytes) : option (representation * bytes) :=
  match src with
  | [] => None
  | b :: src' =>
      if 128 <=? b then
        let '(index, src) := h2o_hpack_decode_int src 7 in
        if index <=? 0 then None else Some (Field index true false, src)
      else if 64 <=? b then
        if b =? 64 then Some (Field 0 false true, src')
        else
          let '(index, src) := h2o_hpack_decode_int src 6 in
          if index <=? 0 then None else Some (Field index false true, src)
      else if b <? 32 then
        if Z.land b 0xf =? 0 then Some (Field 0 false false, src')
        else
          let '(index, src) := h2o_hpack_decode_int src 4 in
          if index <=? 0 then None else Some (Field index false false, src)
      else
        let '(new_capacity, src) := h2o_hpack_decode_int src 5 in
        if new_capacity <? 0 then None else Some (SizeUpdate new_capacity, src)
  end.

(** "determine the header": the name, the value if it is indexed, the soft errors and the
    cursor; [inr] is the error code and [*err_desc]. *)
Definition determine_name (table : header_table) (index : Z) (value_is_indexed : bool)
    (src : bytes) (err_desc : option hpack_err_desc)
    : option ((name_ref * option bytes * Z * bytes * option hpack_err_desc)
              + (Z * bytes * option hpack_err_desc)) :=
  if 0 <? index then
    if index <? HEADER_TABLE_OFFSET then
      let '(name, value) := nth (Z.to_nat (index - 1)) h2o_hpack_static_table (0, []) in
      Some (inl (NTok name, if value_is_indexed then Some value else None, 0, src, err_desc))
    else if index - HEADER_TABLE_OFFSET <? Z.of_nat (num_entries table) then
      entry ← h2o_hpack_header_table_get table (Z.to_nat (index - HEADER_TABLE_OFFSET));
      Some (inl (e_name entry, if value_is_indexed then Some (e_value entry) else None,
                 e_soft_errors entry, src, err_desc))
    else Some (inr (H2O_HTTP2_ERROR_COMPRESSION, src, err_desc))
  else
    let r := decode_string src 0 true err_desc in
    match sr_ret r with
    | None =>
        Some (inr (if bool_decide (sr_err_desc r = Some h2o_hpack_err_found_upper_case_in_header_name)
                   then H2O_HTTP2_ERROR_PROTOCOL else H2O_HTTP2_ERROR_COMPRESSION,
                   sr_src r, sr_err_desc r))
    | Some s =>
        let name := match h2o_lookup_token s with Some t => NTok t | None => NStr s end in
        Some (inl (name, None, sr_soft_errors r, sr_src r, sr_err_desc r))
    end.

(** From "determine the header" to the return. *)
Definition decode_field (table : header_table) (index : Z) (value_is_indexed do_index : bool)
    (src : bytes) (err_desc : option hpack_err_desc) : option header_result :=
  r ← determine_name table index value_is_indexed src err_desc;
  match r with
  | inr (code, src, err_desc) => Some (HeaderResult code None src table err_desc)
  | inl (name, value, soft_errors, src, err_desc) =>
      let '(value, soft_errors, src, err_desc) :=
        match value with
        | Some value => (Some value, soft_errors, src, err_desc)
        | None =>
            let r := decode_string src
                       (Z.land soft_errors (Z.lnot H2O_HPACK_SOFT_ERROR_BIT_INVALID_VALUE))
                       false err_desc in
            (sr_ret r, sr_soft_errors r, sr_src r, sr_err_desc r)
        end in
      match value with
      | None => Some (HeaderResult H2O_HTTP2_ERROR_COMPRESSION None src table err_desc)
      | Some value =>
          table ← (if do_index then header_table_insert table SIZE_MAX (Entry name value soft_errors)
                   else Some table);
          if soft_errors =? 0 then Some (HeaderResult 0 (Some (name, value)) src table err_desc)
          else
            let err := if flag_set soft_errors H2O_HPACK_SOFT_ERROR_BIT_INVALID_NAME
                       then h2o_hpack_soft_err_found_invalid_char_in_header_name
                       else h2o_hpack_soft_err_found_invalid_char_in_header_value in
            Some (HeaderResult H2O_HTTP2_ERROR_INVALID_HEADER_CHAR (Some (name, value)) src table
                    (Some err))
      end
  end.

(** [goto Redo] after a size update; each round reads at least one octet. *)
Fixpoint decode_header_loop (fuel : nat) (table : header_table) (src : bytes)
    (err_desc : option hpack_err_desc) : option header_result :=
  match decode_representation src with
  | None => Some (HeaderResult H2O_HTTP2_ERROR_COMPRESSION None src table err_desc)
  | Some (Field index value_is_indexed do_index, src) =>
      decode_field table index value_is_indexed do_index src err_desc
  | Some (SizeUpdate new_capacity, src) =>
      if hpack_max_capacity table <? new_capacity
      then Some (HeaderResult H2O_HTTP2_ERROR_COMPRESSION None src table err_desc)
      else
        table ← header_table_set_capacity table new_capacity;
        match fuel with
        | O => None
        | S fuel => decode_header_loop fuel table src err_desc
        end
  end.

Definition h2o_hpack_decode_header (table : header_table) (src : bytes)
    (err_desc : option hpack_err_desc) : option header_result :=
  decode_header_loop (length src) table src err_desc.

(** ** Encoding *)

Definition encode_as_is (s : bytes) : bytes := h2o_hpack_encode_int 0 (len s) 7 ++ s.

Definition h2o_hpack_encode_string (s : bytes) : bytes :=
  if negb (len s =? 0) then
    match h2o_hpack_encode_huffman s with
    | Some h =>
        if encode_int_is_onebyte (wrap32 (len h)) 7
        then wrap8 (Z.lor 0x80 (len h)) :: h
        else h2o_hpack_encode_int 0x80 (len h) 7 ++ h
    | None => encode_as_is s
    end
  else encode_as_is s.

(** The octets written and the new table. *)
Definition header_table_adjust_size (table : header_table) (new_capacity : Z)
    : option (bytes * header_table) :=
  if hpack_capacity table <=? new_capacity then Some ([], table)
  else
    table ← header_table_set_capacity table new_capacity;
    Some (h2o_hpack_encode_int 0x20 (hpack_capacity table) 5, table).

(** "try to send as indexed": [i] entries have been compared and [remaining] are left; the
    index of the entry that matches name and value, if any, and [name_index]. *)
Fixpoint search_table (table : header_table) (name : name_ref) (value : bytes)
    (remaining i header_table_index : nat) (name_index : Z) : option (option Z * Z) :=
  match remaining with
  | O => Some (None, name_index)
  | S remaining =>
      entry ← mjoin (entries table !! header_table_index);
      let next := let j := S header_table_index in
                  if (j =? entry_capacity table)%nat then O else j in
      let name_matched :=
        if h2o_iovec_is_token name then bool_decide (name = e_name entry)
        else bool_decide (name_bytes name = name_bytes (e_name entry)) in
      if negb name_matched then search_table table name value remaining (S i) next name_index
      else
        let name_index :=
          if negb (h2o_iovec_is_token name) && (name_index =? 0)
          then Z.of_nat i + HEADER_TABLE_OFFSET else name_index in
        if bool_decide (value = e_value entry)
        then Some (Some (Z.of_nat i + HEADER_TABLE_OFFSET), name_index)
        else search_table table name value remaining (S i) next name_index
  end.

Definition name_token_flags (name : name_ref) : option h2o_token_flags_t :=
  match name with NTok t => Some (tok_flags (token t)) | NStr _ => None end.

Definition do_encode_header (table : header_table) (name : name_ref) (value : bytes)
    (dont_compress : bool) : option (bytes * header_table) :=
  let name_index :=
    match name_token_flags name with Some f => http2_static_table_name_index f | None => 0 end in
  r ← search_table table name value (num_entries table) 0 (entry_start_index table) name_index;
  match r with
  | (Some index, _) => Some (h2o_hpack_encode_int 0x80 index 7, table)
  | (None, name_index) =>
      let dont_compress :=
        dont_compress || match name_token_flags name with Some f => tok_dont_compress f | None => false end in
      let dont_compress := dont_compress && (len value <? 20) in
      let head :=
        if negb (name_index =? 0) then
          if dont_compress then h2o_hpack_encode_int 0x10 name_index 4
          else h2o_hpack_encode_int 0x40 name_index 6
        else 0x40 :: h2o_hpack_encode_string (name_bytes name) in
      if dont_compress then Some (head ++ encode_as_is value, table)
      else
        table ← header_table_insert table 32 (Entry name value 0);
        Some (head ++ h2o_hpack_encode_string value, table)
  end.
