(* ===== verification/HpackString.v ===== *)
(** * HPACK strings: correctness (lib/http2/hpack.c)

    What [h2o_hpack_decode_huffman] returns on every input, the agreement of the Huffman
    and plain paths of [decode_string], and the round trip of [h2o_hpack_encode_string]. *)
From S2P Require Import Prelude Tokens HpackInt HuffTable Huffman HuffmanEnc HeaderTable Hpack.
From Stdlib Require Import ZArith Lia.
From stdpp Require Import base list numbers option strings.
Open Scope Z_scope.

(** ** Character classes *)

Lemma class_tables c :
  is_byte c ->
  flag_set (char_class c) NGHTTP2_HUFF_INVALID_FOR_HEADER_NAME = negb (valid_h2_header_name_char c) /\
  flag_set (char_class c) NGHTTP2_HUFF_INVALID_FOR_HEADER_VALUE = negb (valid_h2_field_value_char c) /\
  flag_set (char_class c) NGHTTP2_HUFF_UPPER_CASE_CHAR = false.
Proof.
  intros Hc.
  apply (byte_forall (fun c =>
    Bool.eqb (flag_set (char_class c) NGHTTP2_HUFF_INVALID_FOR_HEADER_NAME)
             (negb (valid_h2_header_name_char c)) &&
    Bool.eqb (flag_set (char_class c) NGHTTP2_HUFF_INVALID_FOR_HEADER_VALUE)
             (negb (valid_h2_field_value_char c)) &&
    negb (flag_set (char_class c) NGHTTP2_HUFF_UPPER_CASE_CHAR))) in Hc; [|vm_compute; done].
  rewrite !andb_true_iff, !Bool.eqb_true_iff, negb_true_iff in Hc. tauto.
Qed.

Lemma flag_set_lor a b f : flag_set (Z.lor a b) f = flag_set a f || flag_set b f.
Proof.
  unfold flag_set. rewrite Z.land_lor_distr_l.
  destruct (Z.eqb_spec (Z.lor (Z.land a f) (Z.land b f)) 0) as [H|H].
  - apply Z.lor_eq_0_iff in H as [-> ->]. done.
  - destruct (Z.eqb_spec (Z.land a f) 0) as [Ha|], (Z.eqb_spec (Z.land b f) 0) as [Hb|]; try done.
    exfalso. apply H. by rewrite Ha, Hb.
Qed.

Definition seen_types (s : bytes) : Z := foldr (fun c m => Z.lor (char_class c) m) 0 s.

Lemma seen_types_flags s :
  bytes_ok s ->
  flag_set (seen_types s) NGHTTP2_HUFF_INVALID_FOR_HEADER_NAME
    = negb (forallb valid_h2_header_name_char s) /\
  flag_set (seen_types s) NGHTTP2_HUFF_INVALID_FOR_HEADER_VALUE
    = negb (forallb valid_h2_field_value_char s) /\
  flag_set (seen_types s) NGHTTP2_HUFF_UPPER_CASE_CHAR = false.
Proof.
  induction 1 as [|c s Hc Hs IH]; [done|]. unfold seen_types in *. cbn [foldr forallb].
  rewrite !flag_set_lor, !negb_andb. destruct (class_tables c Hc) as (-> & -> & ->).
  destruct IH as (-> & -> & ->). done.
Qed.

(** ** The Huffman decoder with its validation, on every input *)

Definition add_soft (b : bool) (soft bit : Z) : Z := if b then Z.lor soft bit else soft.

(** A name is refused softly when it is empty or has an invalid octet and is not a
    pseudo-header. *)
Definition soft_name (s : bytes) : bool :=
  match s with
  | [] => true
  | c :: _ => negb (forallb valid_h2_header_name_char s) && negb (c =? 58)
  end.

Definition soft_value (s : bytes) : bool :=
  negb (forallb valid_h2_field_value_char s) || negb (header_value_valid_as_whole s).

Lemma decode_huffman_spec src is_name soft err :
  bytes_ok src ->
  h2o_hpack_decode_huffman src is_name soft err =
  match spec_decode src with
  | None => HuffResult None soft err
  | Some dst =>
      HuffResult (Some dst)
        (if is_name then add_soft (soft_name dst) soft H2O_HPACK_SOFT_ERROR_BIT_INVALID_NAME
         else add_soft (soft_value dst) soft H2O_HPACK_SOFT_ERROR_BIT_INVALID_VALUE) err
  end.
Proof.
  intros Hok. unfold h2o_hpack_decode_huffman.
  pose proof (huffdecode_loop_spec src Hok) as H.
  destruct (huffdecode_loop _ src) as [s|]; [|by rewrite H].
  destruct H as [Hseen Hsp]. destruct (hs_maybe_eos s); [|by rewrite <- Hsp].
  rewrite <- Hsp. cbn [negb].
  assert (Hd : bytes_ok (hs_dst s)) by (symmetry in Hsp; apply spec_decode_iff in Hsp as [? _]; done).
  fold (seen_types (hs_dst s)) in Hseen.
  destruct (seen_types_flags _ Hd) as (Hn & Hv & Hu). rewrite <- Hseen in *.
  destruct is_name.
  - unfold soft_name, add_soft. destruct (hs_dst s) as [|c0 d]; [done|].
    rewrite Hn, Hu. by destruct (negb _ && negb _).
  - unfold soft_value, add_soft. rewrite Hv. by destruct (_ || _).
Qed.

(** ** The two paths agree on values *)

Lemma validate_value_soft s soft :
  h2o_hpack_validate_header_value s soft =
  add_soft (soft_value s) soft H2O_HPACK_SOFT_ERROR_BIT_INVALID_VALUE.
Proof.
  unfold h2o_hpack_validate_header_value, soft_value, add_soft. by rewrite orb_comm.
Qed.

(** ** Names *)

Definition is_upper (c : Z) : bool := (65 <=? c) && (c <=? 90).

Lemma upper_invalid c :
  is_byte c ->
  (wrap32 (c - 65) <? 26) = is_upper c /\ (is_upper c = true -> valid_h2_header_name_char c = false).
Proof.
  intros Hc.
  apply (byte_forall (fun c => Bool.eqb (wrap32 (c - 65) <? 26) (is_upper c) &&
           implb (is_upper c) (negb (valid_h2_header_name_char c)))) in Hc; [|vm_compute; done].
  rewrite andb_true_iff, Bool.eqb_true_iff in Hc. destruct Hc as [H1 H2]. split; [done|].
  intros Hu. rewrite Hu in H2. by apply negb_true_iff in H2.
Qed.

Lemma validate_name_loop_spec s soft err :
  bytes_ok s ->
  if existsb is_upper s
  then (validate_name_loop s soft err).1.1 = false /\
       (validate_name_loop s soft err).2 = Some h2o_hpack_err_found_upper_case_in_header_name
  else validate_name_loop s soft err =
       (true, add_soft (negb (forallb valid_h2_header_name_char s)) soft
                H2O_HPACK_SOFT_ERROR_BIT_INVALID_NAME, err).
Proof.
  intros Hs. revert soft. induction Hs as [|c s Hc Hs IH]; intros soft; [done|].
  cbn [existsb validate_name_loop forallb]. destruct (upper_invalid c Hc) as [-> Hui].
  destruct (is_upper c); cbn [orb].
  { by rewrite Hui. }
  destruct (valid_h2_header_name_char c); cbn [andb]; [apply IH|].
  specialize (IH (Z.lor soft H2O_HPACK_SOFT_ERROR_BIT_INVALID_NAME)).
  destruct (existsb is_upper s); [done|]. rewrite IH. f_equal. f_equal.
  unfold add_soft, H2O_HPACK_SOFT_ERROR_BIT_INVALID_NAME. simpl negb.
  destruct (negb _); [|done]. by rewrite <- Z.lor_assoc.
Qed.

(** ** Strings round trip *)

(** The names and values [decode_string] accepts without complaint. *)
Definition name_ok (s : bytes) : bool :=
  match s with
  | [] => false
  | c :: _ => (c =? 58) || forallb valid_h2_header_name_char s
  end.

Definition value_ok (s : bytes) : bool := negb (soft_value s).

Definition string_ok (is_name : bool) (s : bytes) : bool :=
  if is_name then name_ok s else value_ok s.

Lemma name_ok_soft s : name_ok s = true -> soft_name s = false.
Proof.
  destruct s as [|c s]; [done|]. unfold name_ok, soft_name.
  destruct (c =? 58), (forallb _ (c :: s)); done.
Qed.

Lemma valid_no_upper s :
  bytes_ok s -> forallb valid_h2_header_name_char s = true -> existsb is_upper s = false.
Proof.
  induction 1 as [|c s Hc Hs IH]; [done|]. cbn [existsb forallb].
  rewrite andb_true_iff. intros [Hv Hvs]. rewrite IH by done.
  destruct (upper_invalid c Hc) as [_ Hu]. destruct (is_upper c); [|done].
  rewrite Hu in Hv; done.
Qed.

Lemma validate_name_accepts s soft err c0 s0 :
  s = c0 :: s0 -> bytes_ok s -> forallb valid_h2_header_name_char s = true ->
  h2o_hpack_validate_header_name s soft err = (true, soft, err).
Proof.
  intros -> Hs Hv. unfold h2o_hpack_validate_header_name.
  pose proof (validate_name_loop_spec (c0 :: s0) soft err Hs) as H.
  rewrite valid_no_upper, Hv in H by done. exact H.
Qed.

Lemma decode_string_cons src soft is_name err n src' :
  src <> [] -> h2o_hpack_decode_int src 7 = (n, src') -> 0 <= n <= len src' ->
  decode_string src soft is_name err =
  let s := take (Z.to_nat n) src' in
  let rest := drop (Z.to_nat n) src' in
  if negb (Z.land (hd 0 src) 0x80 =? 0) then
    let r := h2o_hpack_decode_huffman s is_name soft err in
    match hr_dst r with
    | None => StringResult None src' (hr_soft_errors r) (hr_err_desc r)
    | Some dst => StringResult (Some dst) rest (hr_soft_errors r) (hr_err_desc r)
    end
  else if is_name then
    let '(ok, soft_errors, err_desc) :=
      if (n =? 0) || negb (hd 0 src' =? 58) then h2o_hpack_validate_header_name s soft err
      else (true, soft, err) in
    if ok then StringResult (Some s) rest soft_errors err_desc
    else StringResult None src' soft_errors err_desc
  else StringResult (Some s) rest (h2o_hpack_validate_header_value s soft) err.
Proof.
  intros Hne Hd Hn. destruct src as [|b src]; [done|]. unfold decode_string. rewrite Hd.
  destruct (Z.ltb_spec n 0); [lia|]. destruct (Z.ltb_spec (len src') n); [lia|]. done.
Qed.

Lemma take_len_app {A} (s t : list A) : take (Z.to_nat (len s)) (s ++ t) = s.
Proof. unfold len. by rewrite Nat2Z.id, take_app_length. Qed.
Lemma drop_len_app {A} (s t : list A) : drop (Z.to_nat (len s)) (s ++ t) = t.
Proof. unfold len. by rewrite Nat2Z.id, drop_app_length. Qed.

Lemma decode_as_is s rest soft is_name err :
  bytes_ok s -> len s <= INT64_MAX -> string_ok is_name s = true ->
  decode_string (encode_as_is s ++ rest) soft is_name err = StringResult (Some s) rest soft err.
Proof.
  intros Hs Hl Hok. unfold encode_as_is. rewrite <- app_assoc.
  pose proof (len_nonneg s).
  assert (Hp : prefix_clear 0 7) by (split; [unfold is_byte; lia|done]).
  rewrite (decode_string_cons _ _ _ _ (len s) (s ++ rest)).
  2:{ apply encode_int_nonempty. }
  2:{ by apply decode_encode_int. }
  2:{ rewrite len_app. pose proof (len_nonneg rest). lia. }
  rewrite take_len_app, drop_len_app.
  assert (Hb : (Z.land (hd 0 (h2o_hpack_encode_int 0 (len s) 7 ++ s ++ rest)) 0x80 =? 0) = true).
  { unfold h2o_hpack_encode_int, encode_int_is_onebyte. rewrite !Z.lor_0_l.
    change (Z.shiftl 1 7 - 1) with 127. destruct (Z.ltb_spec (len s) 127); [|done].
    cbn [app hd]. rewrite wrap8_small by (unfold is_byte; lia).
    rewrite land_128_byte by (unfold is_byte; lia). apply Z.ltb_lt. lia. }
  cbn zeta. rewrite Hb. cbn [negb]. destruct is_name; simpl in Hok.
  - destruct s as [|c0 s0]; [done|]. cbn [app hd]. unfold name_ok in Hok.
    destruct (c0 =? 58) eqn:Hc; cbn [negb orb] in *.
    + rewrite len_cons. destruct (Z.eqb_spec (len s0 + 1) 0); [pose proof (len_nonneg s0); lia|done].
    + rewrite orb_true_r. by rewrite (validate_name_accepts _ _ _ c0 s0).
  - rewrite validate_value_soft. unfold value_ok in Hok. apply negb_true_iff in Hok.
    by rewrite Hok.
Qed.

Lemma decode_encode_string s rest soft is_name err :
  bytes_ok s -> len s < 2 ^ 32 -> string_ok is_name s = true ->
  decode_string (h2o_hpack_encode_string s ++ rest) soft is_name err
  = StringResult (Some s) rest soft err.
Proof.
  intros Hs Hl Hok. unfold h2o_hpack_encode_string. unfold INT64_MAX in *.
  assert (Has : decode_string (encode_as_is s ++ rest) soft is_name err
                = StringResult (Some s) rest soft err)
    by (apply decode_as_is; [done|unfold INT64_MAX; lia|done]).
  destruct (negb (len s =? 0)); [|done].
  destruct (h2o_hpack_encode_huffman s) as [h|] eqn:Hh; [|done].
  pose proof (encode_huffman_spec s Hs) as Hspec. rewrite Hh in Hspec.
  destruct Hspec as (Hhok & Hhl & _). pose proof (len_nonneg h).
  assert (He : (if encode_int_is_onebyte (wrap32 (len h)) 7 then wrap8 (Z.lor 0x80 (len h)) :: h
                else h2o_hpack_encode_int 0x80 (len h) 7 ++ h)
               = h2o_hpack_encode_int 0x80 (len h) 7 ++ h).
  { unfold h2o_hpack_encode_int, wrap32. rewrite Z.mod_small by lia.
    by destruct (encode_int_is_onebyte (len h) 7). }
  rewrite He, <- app_assoc.
  assert (Hp : prefix_clear 0x80 7) by (split; [unfold is_byte; lia|done]).
  rewrite (decode_string_cons _ _ _ _ (len h) (h ++ rest)).
  2:{ apply encode_int_nonempty. }
  2:{ apply decode_encode_int; [lia|done|unfold INT64_MAX; lia]. }
  2:{ rewrite len_app. pose proof (len_nonneg rest). lia. }
  rewrite take_len_app, drop_len_app.
  assert (Hb : (Z.land (hd 0 (h2o_hpack_encode_int 0x80 (len h) 7 ++ h ++ rest)) 0x80 =? 0) = false).
  { unfold h2o_hpack_encode_int, encode_int_is_onebyte. change (Z.shiftl 1 7 - 1) with 127.
    destruct (Z.ltb_spec (len h) 127); [|reflexivity]. cbn [app hd].
    rewrite wrap8_lor_128, land_128_byte.
    - apply Z.ltb_ge. pose proof (Z.mod_pos_bound (len h) 128). lia.
    - pose proof (Z.mod_pos_bound (len h) 128). unfold is_byte. lia. }
  cbn zeta. rewrite Hb. cbn [negb].
  rewrite decode_huffman_spec, (encode_huffman_decodes _ _ Hs Hh) by done.
  cbn [hr_dst hr_soft_errors hr_err_desc]. f_equal. unfold string_ok, value_ok in Hok.
  destruct is_name; [by rewrite name_ok_soft|]. apply negb_true_iff in Hok. by rewrite Hok.
Qed.

(** ** Properties *)

(** C39: the Huffman decoder, a table of 256 states over half octets, accepts exactly the
    encodings of RFC 7541 5.2: a string is returned if and only if the input is the
    concatenation of its octets' codes followed by fewer than eight one bits. *)
Theorem huffman_decode_exact src dst is_name soft err :
  bytes_ok src ->
  hr_dst (h2o_hpack_decode_huffman src is_name soft err) = Some dst <->
  bytes_ok dst /\ exists pad, is_padding pad = true /\ bytes_bits src = huff_bits dst ++ pad.
Proof.
  intros Hs. rewrite <- spec_decode_iff, decode_huffman_spec by done. by destruct (spec_decode src).
Qed.

Lemma huffman_decode_exact_witness :
  hr_dst (h2o_hpack_decode_huffman [0xa8; 0xeb; 0x10; 0x64; 0x9c; 0xbf] false 0 None) = Some (lit "no-cache") <->
  bytes_ok (lit "no-cache") /\ exists pad, is_padding pad = true /\
    bytes_bits [0xa8; 0xeb; 0x10; 0x64; 0x9c; 0xbf] = huff_bits (lit "no-cache") ++ pad.
Proof. apply huffman_decode_exact. repeat constructor; unfold is_byte; lia. Defined.

(** A string that [h2o_hpack_encode_string] writes (with Huffman codes where they are
    shorter) is read by [decode_string] as the same string, without a soft error when it is
    a valid name or value, and the cursor is left at what follows. *)
Theorem encode_string_roundtrip s rest soft is_name err :
  bytes_ok s -> len s < 2 ^ 32 -> string_ok is_name s = true ->
  decode_string (h2o_hpack_encode_string s ++ rest) soft is_name err = StringResult (Some s) rest soft err.
Proof. apply decode_encode_string. Qed.

Lemma encode_string_roundtrip_witness :
  decode_string (h2o_hpack_encode_string (lit "x-frame-options") ++ [1; 2]) 0 true None
  = StringResult (Some (lit "x-frame-options")) [1; 2] 0 None.
Proof.
  apply (encode_string_roundtrip (lit "x-frame-options") [1; 2] 0 true None);
    [apply lit_ok|reflexivity|reflexivity].
Defined.

(** Huffman-coded names with upper-case letters only raise the soft error, plain ones the hard
    one. *)
Theorem upper_case_name_huffman :
  decode_string (0x82 :: [0x84; 0x7f]) 0 true None =
    StringResult (Some (lit "Aa")) [] H2O_HPACK_SOFT_ERROR_BIT_INVALID_NAME None /\
  decode_string (2 :: lit "Aa") 0 true None =
    StringResult None (lit "Aa") 0 (Some h2o_hpack_err_found_upper_case_in_header_name).
Proof. split; vm_compute; reflexivity. Qed.
