(* ===== verification/HpackSafe.v ===== *)
(** * HPACK: the decoder on arbitrary input (lib/http2/hpack.c)

    [h2o_hpack_decode_header] on any octets: it returns, no assertion fails, the table keeps
    its invariant and its limit, the codes it returns are the four of the source, and
    a header is delivered exactly with the codes that announce one, after consuming input. *)
From S2P Require Import Prelude Tokens HpackInt Huffman HeaderTable Hpack HpackString.
From Stdlib Require Import ZArith Lia.
From stdpp Require Import base list numbers option.
Open Scope Z_scope.

(** The invariant of a decoder's table. *)
Definition table_ok (t : header_table) : Prop :=
  exists l, Rep t l /\ tsize l <= hpack_capacity t /\ 0 <= hpack_capacity t <= hpack_max_capacity t.

Lemma table_ok_empty cap : 0 <= cap -> table_ok (empty_table cap).
Proof. intros. exists []. split; [apply rep_empty|]. simpl. lia. Qed.

(** [rest] is what is left of [src] after at least one octet. *)
Definition consumed (src rest : bytes) : Prop := exists used, src = used ++ rest /\ used <> [].

Lemma consumed_trans a b c : consumed a b -> consumed b c -> consumed a c.
Proof.
  intros (u & -> & Hu) (v & -> & Hv). exists (u ++ v). split; [by rewrite <- app_assoc|].
  by destruct u.
Qed.

Lemma consumed_length a b : consumed a b -> (length b < length a)%nat.
Proof. intros (u & -> & Hu). rewrite length_app. destruct u; [done|]. simpl. lia. Qed.

Lemma consumed_ok a b : consumed a b -> bytes_ok a -> bytes_ok b.
Proof. intros (u & -> & _) H. by apply Forall_app in H as [_ ?]. Qed.

Lemma consumed_drop a b n : consumed a b -> consumed a (drop n b).
Proof.
  intros (u & -> & Hu). exists (u ++ take n b). split; [by rewrite <- app_assoc, take_drop|]. by destruct u.
Qed.

Lemma consumed_cons b src : consumed (b :: src) src.
Proof. by exists [b]. Qed.

#[export] Hint Resolve consumed_cons consumed_drop : h2o.

Lemma decode_int_consumed src n v rest :
  1 <= n <= 8 -> bytes_ok src -> h2o_hpack_decode_int src n = (v, rest) -> 0 <= v -> consumed src rest.
Proof.
  intros Hn Hs H Hv. apply decode_int_outcome in H as [(_ & _ & used & -> & Hu)|[[-> _]|[-> _]]]; try done.
  exists used. split; [done|]. intros ->. simpl in Hu. lia.
Qed.

(** ** Strings *)

Lemma decode_string_consumed src soft is_name err s :
  bytes_ok src -> sr_ret (decode_string src soft is_name err) = Some s ->
  consumed src (sr_src (decode_string src soft is_name err)).
Proof.
  intros Hs. unfold decode_string. destruct src as [|b src]; [done|].
  destruct (h2o_hpack_decode_int (b :: src) 7) as [n rest] eqn:Hd.
  destruct (Z.ltb_spec n 0); [done|]. destruct (Z.ltb_spec (len rest) n); [done|].
  pose proof (decode_int_consumed _ 7 n _ ltac:(lia) Hs Hd ltac:(lia)) as Hc.
  destruct (negb _).
  - destruct (hr_dst _); [|done]. intros _. simpl. auto with h2o.
  - destruct is_name; [|simpl; auto with h2o].
    destruct (if _ || _ then _ else _) as [[[] ?] ?]; [simpl; auto with h2o|done].
Qed.

(** ** Representations *)

Lemma decode_representation_consumed src r rest :
  bytes_ok src -> decode_representation src = Some (r, rest) ->
  consumed src rest /\
  match r with Field index _ _ => 0 <= index | SizeUpdate capacity => 0 <= capacity end.
Proof.
  intros Hs. unfold decode_representation. destruct src as [|b src]; [done|].
  assert (Hint : forall n v rest', 1 <= n <= 8 ->
            h2o_hpack_decode_int (b :: src) n = (v, rest') -> 0 <= v -> consumed (b :: src) rest')
    by eauto using decode_int_consumed.
  destruct (128 <=? b); [|destruct (64 <=? b); [|destruct (b <? 32)]].
  - destruct (h2o_hpack_decode_int _ 7) as [v r'] eqn:Hd. destruct (Z.leb_spec v 0); [done|].
    intros [= <- <-]. split; [eapply Hint; [|exact Hd|]; lia|lia].
  - destruct (b =? 64); [intros [= <- <-]; auto with h2o lia|].
    destruct (h2o_hpack_decode_int _ 6) as [v r'] eqn:Hd. destruct (Z.leb_spec v 0); [done|].
    intros [= <- <-]. split; [eapply Hint; [|exact Hd|]; lia|lia].
  - destruct (Z.land b 15 =? 0); [intros [= <- <-]; auto with h2o lia|].
    destruct (h2o_hpack_decode_int _ 4) as [v r'] eqn:Hd. destruct (Z.leb_spec v 0); [done|].
    intros [= <- <-]. split; [eapply Hint; [|exact Hd|]; lia|lia].
  - destruct (h2o_hpack_decode_int _ 5) as [v r'] eqn:Hd. destruct (Z.ltb_spec v 0); [done|].
    intros [= <- <-]. split; [eapply Hint; [|exact Hd|]; lia|lia].
Qed.

(** ** Fields *)

(** What holds of every return of the decoder; [t] is the table before, [src] the input. *)
Record header_outcome (t : header_table) (src : bytes) (r : header_result) : Prop := {
  ho_table : table_ok (dh_table r);
  ho_max : hpack_max_capacity (dh_table r) = hpack_max_capacity t;
  ho_code : dh_ret r = 0 \/ dh_ret r = H2O_HTTP2_ERROR_INVALID_HEADER_CHAR \/
            dh_ret r = H2O_HTTP2_ERROR_COMPRESSION \/ dh_ret r = H2O_HTTP2_ERROR_PROTOCOL;
  ho_header : dh_ret r = 0 \/ dh_ret r = H2O_HTTP2_ERROR_INVALID_HEADER_CHAR ->
              is_Some (dh_header r) /\ consumed src (dh_src r);
  ho_soft : dh_ret r = H2O_HTTP2_ERROR_INVALID_HEADER_CHAR -> is_Some (dh_err_desc r) }.

Lemma outcome_error t src r code err :
  table_ok t -> code = H2O_HTTP2_ERROR_COMPRESSION \/ code = H2O_HTTP2_ERROR_PROTOCOL ->
  header_outcome t src (HeaderResult code None r t err).
Proof.
  intros Ht Hc. constructor; simpl; [done|done|tauto| |]; intros; exfalso;
    unfold H2O_HTTP2_ERROR_COMPRESSION, H2O_HTTP2_ERROR_PROTOCOL,
      H2O_HTTP2_ERROR_INVALID_HEADER_CHAR in *; lia.
Qed.

Lemma table_ok_insert t e :
  table_ok t ->
  exists t', header_table_insert t SIZE_MAX e = Some t' /\ table_ok t' /\
    hpack_max_capacity t' = hpack_max_capacity t.
Proof.
  intros (l & HR & Ht & Hc). destruct (rep_insert t l SIZE_MAX e HR) as (t' & Hi & HR' & Hc' & Hm').
  { unfold SIZE_MAX. lia. }
  exists t'. split_and!; [done| |done]. eexists. rewrite Hc', Hm'.
  split_and!; [exact HR'|apply tsize_spec_insert; lia|lia..].
Qed.

Lemma table_ok_set_capacity t cap :
  table_ok t -> 0 <= cap <= hpack_max_capacity t ->
  exists t', header_table_set_capacity t cap = Some t' /\ table_ok t' /\
    hpack_max_capacity t' = hpack_max_capacity t.
Proof.
  intros (l & HR & Ht & Hc) Hcap. destruct (rep_set_capacity t l cap HR) as (t' & Hs & HR' & Hc' & Hm').
  exists t'. split_and!; [done| |done]. eexists. rewrite Hc', Hm'.
  split_and!; [exact HR'|apply tsize_fit; lia|lia..].
Qed.

(** The name is found in a table or read, and nothing is consumed for an indexed one. *)
Lemma determine_name_safe t index vi src err :
  table_ok t -> bytes_ok src ->
  match determine_name t index vi src err with
  | Some (inl (_, value, _, rest, _)) =>
      (rest = src \/ consumed src rest) /\ (value = None -> 0 < index -> vi = false)
  | Some (inr (code, _, _)) => code = H2O_HTTP2_ERROR_COMPRESSION \/ code = H2O_HTTP2_ERROR_PROTOCOL
  | None => False
  end.
Proof.
  intros (l & HR & _) Hs. unfold determine_name. destruct (Z.ltb_spec 0 index).
  - destruct (index <? HEADER_TABLE_OFFSET) eqn:Ho.
    { destruct (nth _ _ _). split; [by left|]. by destruct vi. }
    apply Z.ltb_ge in Ho.
    destruct (Z.ltb_spec (index - HEADER_TABLE_OFFSET) (Z.of_nat (num_entries t))) as [Hn|]; [|by left].
    rewrite (rep_num _ _ HR) in Hn. rewrite (get_rep _ _ _ HR) by lia.
    destruct (lookup_lt_is_Some_2 l (Z.to_nat (index - HEADER_TABLE_OFFSET)) ltac:(lia)) as [e ->].
    simpl. split; [by left|]. by destruct vi.
  - destruct (sr_ret (decode_string src 0 true err)) as [s|] eqn:E.
    + split; [right; by eapply decode_string_consumed|]. lia.
    + destruct (bool_decide _); auto.
Qed.

(** The end of [decode_field], once the value is known. *)
Lemma field_tail_safe t src0 (di : bool) name v soft rest err :
  table_ok t -> consumed src0 rest ->
  exists r : header_result,
    (table ← (if di then header_table_insert t SIZE_MAX (Entry name v soft) else Some t);
     if soft =? 0 then Some (HeaderResult 0 (Some (name, v)) rest table err)
     else
       Some (HeaderResult H2O_HTTP2_ERROR_INVALID_HEADER_CHAR (Some (name, v)) rest table
               (Some (if flag_set soft H2O_HPACK_SOFT_ERROR_BIT_INVALID_NAME
                      then h2o_hpack_soft_err_found_invalid_char_in_header_name
                      else h2o_hpack_soft_err_found_invalid_char_in_header_value)))) = Some r /\
    header_outcome t src0 r.
Proof.
  intros Ht Hc.
  assert (exists t', (if di then header_table_insert t SIZE_MAX (Entry name v soft) else Some t) = Some t'
            /\ table_ok t' /\ hpack_max_capacity t' = hpack_max_capacity t) as (t' & -> & Ht' & Hm').
  { destruct di; [by apply table_ok_insert|by exists t]. }
  cbn [mbind option_bind]. destruct (soft =? 0); eexists; (split; [done|]); constructor; simpl; eauto; done.
Qed.

Lemma decode_field_safe t index vi di src0 src err :
  table_ok t -> bytes_ok src -> consumed src0 src ->
  exists r, decode_field t index vi di src err = Some r /\ header_outcome t src0 r.
Proof.
  intros Ht Hs Hc0. unfold decode_field. pose proof (determine_name_safe t index vi src err Ht Hs) as Hd.
  destruct (determine_name t index vi src err) as [[[[[[name value] soft] rest] err1]|[[code rest] err1]]|];
    [| |done]; cbn [mbind option_bind].
  2:{ eexists. split; [done|]. by apply outcome_error. }
  destruct Hd as [Hrest _].
  assert (Hrc : consumed src0 rest) by (destruct Hrest as [->|]; eauto using consumed_trans).
  assert (Hrok : bytes_ok rest) by (destruct Hrest as [->|]; eauto using consumed_ok).
  destruct value as [v|]; [by apply field_tail_safe|]. cbv zeta.
  set (soft' := Z.land soft _).
  destruct (sr_ret (decode_string rest soft' false err1)) as [v|] eqn:Hv.
  - apply field_tail_safe; [done|]. eapply consumed_trans; [done|]. by eapply decode_string_consumed.
  - eexists. split; [done|]. apply outcome_error; [done|by left].
Qed.

(** ** The loop over size updates *)

Lemma decode_header_loop_safe fuel : forall t src0 src err,
  (length src <= fuel)%nat -> table_ok t -> bytes_ok src -> src = src0 \/ consumed src0 src ->
  exists r, decode_header_loop fuel t src err = Some r /\ header_outcome t src0 r.
Proof.
  induction fuel as [|fuel IH]; intros t src0 src err Hf Ht Hs Hsrc; cbn [decode_header_loop].
  { destruct src; [|simpl in Hf; lia]. simpl. eexists. split; [done|]. apply outcome_error; [done|by left]. }
  destruct (decode_representation src) as [[r rest]|] eqn:Hr.
  2:{ eexists. split; [done|]. apply outcome_error; [done|by left]. }
  apply decode_representation_consumed in Hr as [Hc Hpos]; [|done].
  assert (Hc0 : consumed src0 rest) by (destruct Hsrc as [->|]; eauto using consumed_trans).
  destruct r as [index vi di|cap].
  - apply decode_field_safe; eauto using consumed_ok.
  - destruct (Z.ltb_spec (hpack_max_capacity t) cap).
    { eexists. split; [done|]. apply outcome_error; [done|by left]. }
    destruct (table_ok_set_capacity t cap Ht ltac:(lia)) as (t' & -> & Ht' & Hm'). cbn [mbind option_bind].
    apply consumed_length in Hc as Hl.
    destruct (IH t' src0 rest err ltac:(lia) Ht' ltac:(eauto using consumed_ok) ltac:(by right))
      as (r & -> & [H1 H2 H3 H4 H5]).
    eexists. split; [done|]. constructor; auto. congruence.
Qed.

Lemma decode_header_safe t src err :
  table_ok t -> bytes_ok src ->
  exists r, h2o_hpack_decode_header t src err = Some r /\ header_outcome t src r.
Proof. intros. apply decode_header_loop_safe; auto. Qed.

(** One round per octet is more than enough, so a size update only changes the table. *)
Lemma decode_header_loop_fuel n : forall m t src err,
  (length src <= n)%nat -> (length src <= m)%nat -> bytes_ok src ->
  decode_header_loop n t src err = decode_header_loop m t src err.
Proof.
  induction n as [|n IH]; intros m t src err Hn Hm Hs.
  { destruct src; [|simpl in Hn; lia]. by destruct m. }
  destruct m as [|m]; [destruct src; [done|simpl in Hm; lia]|]. cbn [decode_header_loop].
  destruct (decode_representation src) as [[[]rest]|] eqn:Hr; [done| |done].
  apply decode_representation_consumed in Hr as [Hc _]; [|done].
  destruct (_ <? _); [done|]. destruct (header_table_set_capacity t _); [|done]. cbn [mbind option_bind].
  apply consumed_length in Hc as Hl. apply IH; [lia|lia|]. by eapply consumed_ok.
Qed.

Lemma decode_header_size_update t cap t' src src' err :
  bytes_ok src -> decode_representation src = Some (SizeUpdate cap, src') ->
  cap <= hpack_max_capacity t -> header_table_set_capacity t cap = Some t' ->
  h2o_hpack_decode_header t src err = h2o_hpack_decode_header t' src' err.
Proof.
  intros Hs Hr Hcap Ht. unfold h2o_hpack_decode_header.
  pose proof Hr as Hc. apply decode_representation_consumed in Hc as [Hc _]; [|done].
  apply consumed_length in Hc as Hl. destruct (length src) as [|n] eqn:En; [lia|].
  cbn [decode_header_loop]. rewrite Hr. destruct (Z.ltb_spec (hpack_max_capacity t) cap); [lia|].
  rewrite Ht. cbn [mbind option_bind]. apply decode_header_loop_fuel; [lia|lia|]. by eapply consumed_ok.
Qed.

(** ** Properties *)

(** C22: on any octets, [h2o_hpack_decode_header] returns without failing an assertion or reading a
    slot that holds no entry; the table keeps its invariant (the ring represents a list whose
    size is recorded and within the capacity, itself within the limit) and its limit; the
    code is success, the soft error, COMPRESSION or PROTOCOL; and with the first two a header
    is delivered and at least one octet was consumed. *)
Theorem decode_header_total t src err :
  table_ok t -> bytes_ok src ->
  exists r, h2o_hpack_decode_header t src err = Some r /\
    table_ok (dh_table r) /\ hpack_max_capacity (dh_table r) = hpack_max_capacity t /\
    (dh_ret r = 0 \/ dh_ret r = H2O_HTTP2_ERROR_INVALID_HEADER_CHAR \/
     dh_ret r = H2O_HTTP2_ERROR_COMPRESSION \/ dh_ret r = H2O_HTTP2_ERROR_PROTOCOL) /\
    (dh_ret r = 0 \/ dh_ret r = H2O_HTTP2_ERROR_INVALID_HEADER_CHAR ->
     is_Some (dh_header r) /\ exists used, src = used ++ dh_src r /\ used <> []).
Proof.
  intros Ht Hs. destruct (decode_header_safe t src err Ht Hs) as (r & Hr & [H1 H2 H3 H4 _]). eauto 10.
Qed.

Lemma decode_header_total_witness :
  exists r, h2o_hpack_decode_header (empty_table 4096) [0x3e; 0x82] None = Some r /\
    table_ok (dh_table r) /\ hpack_max_capacity (dh_table r) = hpack_max_capacity (empty_table 4096) /\
    (dh_ret r = 0 \/ dh_ret r = H2O_HTTP2_ERROR_INVALID_HEADER_CHAR \/
     dh_ret r = H2O_HTTP2_ERROR_COMPRESSION \/ dh_ret r = H2O_HTTP2_ERROR_PROTOCOL) /\
    (dh_ret r = 0 \/ dh_ret r = H2O_HTTP2_ERROR_INVALID_HEADER_CHAR ->
     is_Some (dh_header r) /\ exists used, [0x3e; 0x82] = used ++ dh_src r /\ used <> []).
Proof.
  apply (decode_header_total (empty_table 4096) [0x3e; 0x82] None).
  - apply table_ok_empty. lia.
  - repeat constructor; unfold is_byte; lia.
Defined.
