(* ===== verification/HpackSync.v ===== *)
(** * HPACK: the encoder and the decoder stay in step (lib/http2/hpack.c)

    The encoder's table ([do_encode_header], at most 32 entries) and the peer decoder's
    table ([h2o_hpack_decode_header], bounded by size only) are related by [Sync]: the
    encoder's entries are the newest entries of the decoder.  Encoding a header and
    decoding the octets yields the header and preserves [Sync]. *)
From S2P Require Import Prelude Tokens HpackInt Huffman HeaderTable Hpack HpackString HpackSafe.
From Stdlib Require Import ZArith Lia.
From stdpp Require Import base list numbers option.
Open Scope Z_scope.

(** ** Names *)

(** The decoder's name for a string: its token when there is one. *)
Definition intern (s : bytes) : name_ref :=
  match h2o_lookup_token s with Some t => NTok t | None => NStr s end.

Definition name_wf (n : name_ref) : Prop :=
  match n with NTok t => is_token_index t | NStr s => bytes_ok s end.

Lemma token_bytes_ok : forallb (fun t => forallb byteb (tok_buf t)) h2o__tokens = true.
Proof. vm_compute. reflexivity. Qed.

Lemma name_bytes_ok n : name_wf n -> bytes_ok (name_bytes n).
Proof.
  destruct n as [t|s]; [|done]. simpl. unfold is_token_index. intros Ht.
  pose proof token_bytes_ok as H. rewrite forallb_forall in H. apply bytes_okb, H.
  unfold token. apply nth_In. simpl. lia.
Qed.

Lemma name_bytes_intern s : name_bytes (intern s) = s.
Proof.
  unfold intern. destruct (h2o_lookup_token s) as [t|] eqn:E; [|done].
  by apply lookup_token_sound in E as [? _].
Qed.

Lemma intern_token t : is_token_index t -> intern (name_bytes (NTok t)) = NTok t.
Proof. intros Ht. unfold intern. simpl. by rewrite (proj1 (lookup_token_complete t Ht)). Qed.

(** The static table holds every name at the index its token's flags give. *)
Definition static_name_ok (t : Z) : bool :=
  let i := http2_static_table_name_index (tok_flags (token t)) in
  (i =? 0) || ((1 <=? i) && (i <? 62) &&
               ((nth (Z.to_nat (i - 1)) h2o_hpack_static_table (0, [])).1 =? t)).

Lemma static_names_ok : forallb static_name_ok (seqZ 0 85) = true.
Proof. vm_compute. reflexivity. Qed.

Lemma static_name t :
  is_token_index t -> http2_static_table_name_index (tok_flags (token t)) <> 0 ->
  let i := http2_static_table_name_index (tok_flags (token t)) in
  1 <= i < 62 /\ (nth (Z.to_nat (i - 1)) h2o_hpack_static_table (0, [])).1 = t.
Proof.
  intros Ht Hi. pose proof static_names_ok as H. rewrite forallb_forall in H.
  specialize (H t). rewrite <- list_elem_of_In, elem_of_seqZ in H.
  unfold is_token_index in Ht. specialize (H ltac:(lia)). unfold static_name_ok in H.
  cbn zeta. apply orb_true_iff in H as [H|H]; [lia|]. rewrite !andb_true_iff in H. lia.
Qed.

(** ** Representations *)

Lemma encode_int_head first v n :
  1 <= n <= 8 -> prefix_clear first n -> 0 <= v ->
  exists tl, h2o_hpack_encode_int first v n = (first + Z.min v (2 ^ n - 1)) :: tl.
Proof.
  intros Hn Hp Hv. pose proof (prefix_pow_bound n Hn).
  unfold h2o_hpack_encode_int, encode_int_is_onebyte. rewrite Z.shiftl_1_l.
  destruct (Z.ltb_spec v (2 ^ n - 1)); eexists.
  - by rewrite (proj1 (first_octet first n v Hn Hp ltac:(lia))), Z.min_l by lia.
  - by rewrite (proj1 (first_octet first n (2 ^ n - 1) Hn Hp ltac:(lia))), Z.min_r by lia.
Qed.

Ltac representation first n k :=
  let tl := fresh "tl" in
  assert (prefix_clear first n) as Hpc by (split; [unfold is_byte; lia|reflexivity]);
  pose proof (decode_encode_int first k n) as Hdec;
  destruct (encode_int_head first k n ltac:(lia) Hpc ltac:(lia)) as [tl Htl];
  unfold decode_representation; rewrite Htl in *; cbn [app] in *;
  rewrite Hdec by (done || lia).

Lemma rep_indexed k rest :
  1 <= k <= INT64_MAX ->
  decode_representation (h2o_hpack_encode_int 0x80 k 7 ++ rest) = Some (Field k true false, rest).
Proof.
  intros Hk. representation 0x80 7 k.
  destruct (Z.leb_spec 128 (128 + Z.min k (2 ^ 7 - 1))); [|lia].
  destruct (Z.leb_spec k 0); [lia|done].
Qed.

Lemma rep_literal k rest :
  1 <= k <= INT64_MAX ->
  decode_representation (h2o_hpack_encode_int 0x40 k 6 ++ rest) = Some (Field k false true, rest).
Proof.
  intros Hk. representation 0x40 6 k.
  destruct (Z.leb_spec 128 (64 + Z.min k (2 ^ 6 - 1))); [lia|].
  destruct (Z.leb_spec 64 (64 + Z.min k (2 ^ 6 - 1))); [|lia].
  destruct (Z.eqb_spec (64 + Z.min k (2 ^ 6 - 1)) 64); [lia|].
  destruct (Z.leb_spec k 0); [lia|done].
Qed.

Lemma rep_never_indexed k rest :
  1 <= k <= INT64_MAX ->
  decode_representation (h2o_hpack_encode_int 0x10 k 4 ++ rest) = Some (Field k false false, rest).
Proof.
  intros Hk. representation 0x10 4 k.
  destruct (Z.leb_spec 128 (16 + Z.min k (2 ^ 4 - 1))); [lia|].
  destruct (Z.leb_spec 64 (16 + Z.min k (2 ^ 4 - 1))); [lia|].
  destruct (Z.ltb_spec (16 + Z.min k (2 ^ 4 - 1)) 32); [|lia].
  change 0xf with (Z.ones 4). rewrite Z.land_ones by lia.
  replace ((16 + Z.min k (2 ^ 4 - 1)) mod 2 ^ 4) with (Z.min k 15)
    by (apply (Z.mod_unique _ _ 1); lia).
  destruct (Z.eqb_spec (Z.min k 15) 0); [lia|].
  destruct (Z.leb_spec k 0); [lia|done].
Qed.

Lemma rep_size_update c rest :
  0 <= c <= INT64_MAX ->
  decode_representation (h2o_hpack_encode_int 0x20 c 5 ++ rest) = Some (SizeUpdate c, rest).
Proof.
  intros Hk. representation 0x20 5 c.
  destruct (Z.leb_spec 128 (32 + Z.min c (2 ^ 5 - 1))); [lia|].
  destruct (Z.leb_spec 64 (32 + Z.min c (2 ^ 5 - 1))); [lia|].
  destruct (Z.ltb_spec (32 + Z.min c (2 ^ 5 - 1)) 32); [lia|].
  destruct (Z.ltb_spec c 0); [lia|done].
Qed.

(** ** The encoder's search of its table *)

Definition same_name (n m : name_ref) : Prop := name_bytes n = name_bytes m.

Definition search_outcome (l : list table_entry) (name : name_ref) (value : bytes) (name_index : Z)
    (r : option Z * Z) : Prop :=
  match r with
  | (Some k, _) =>
      exists j e, k = Z.of_nat j + 62 /\ l !! j = Some e /\ same_name name (e_name e) /\ value = e_value e
  | (None, k) =>
      k = name_index \/
      h2o_iovec_is_token name = false /\
      exists j e, k = Z.of_nat j + 62 /\ l !! j = Some e /\ same_name name (e_name e)
  end.

Lemma search_table_spec t l name value n : forall i name_index,
  Rep t l -> (i + n = length l)%nat ->
  exists r, search_table t name value n i ((i + entry_start_index t) mod entry_capacity t) name_index
            = Some r /\ search_outcome l name value name_index r.
Proof.
  induction n as [|n IH]; intros i name_index HR Hlen; cbn [search_table].
  { eexists. split; [done|]. by left. }
  pose proof HR as [H1 H2 H3 H4 H5 H6].
  destruct (lookup_lt_is_Some_2 l i ltac:(lia)) as [e He].
  rewrite (H5 _ _ He). cbn [mjoin option_join mbind option_bind].
  assert (Hnext : (if S ((i + entry_start_index t) mod entry_capacity t) =? entry_capacity t
                   then O else S ((i + entry_start_index t) mod entry_capacity t))%nat
                  = ((S i + entry_start_index t) mod entry_capacity t)%nat).
  { rewrite (ring_index i) by lia. destruct (Nat.eq_dec (S i) (entry_capacity t)) as [Hc|].
    - rewrite <- Hc. replace (S i + entry_start_index t)%nat with (entry_start_index t + 1 * S i)%nat by lia.
      rewrite Nat.Div0.mod_add, Nat.mod_small by lia.
      repeat match goal with |- context [(?a <? ?b)%nat] => destruct (Nat.ltb_spec a b) end;
        destruct (Nat.eqb_spec (S (i + entry_start_index t)) (S i));
        destruct (Nat.eqb_spec (S (i + entry_start_index t - S i)) (S i)); lia.
    - rewrite (ring_index (S i)) by lia.
      repeat match goal with |- context [(?a <? ?b)%nat] => destruct (Nat.ltb_spec a b) end;
        repeat match goal with |- context [(?a =? ?b)%nat] => destruct (Nat.eqb_spec a b) end; lia. }
  rewrite Hnext.
  destruct (if h2o_iovec_is_token name then _ else _) eqn:Hm; cbn [negb].
  2:{ destruct (IH (S i) name_index HR ltac:(lia)) as (r & Hr & Ho). eauto. }
  assert (Hs : same_name name (e_name e)).
  { unfold same_name. destruct (h2o_iovec_is_token name); apply bool_decide_eq_true in Hm; congruence. }
  destruct (bool_decide_reflect (value = e_value e)) as [Hv|Hv].
  { eexists. split; [done|]. exists i, e. done. }
  destruct (IH (S i) (if negb (h2o_iovec_is_token name) && (name_index =? 0)
                      then Z.of_nat i + HEADER_TABLE_OFFSET else name_index) HR ltac:(lia))
    as (r & Hr & Ho).
  exists r. split; [done|]. destruct r as [[k|] k']; [done|]. simpl in *.
  destruct Ho as [->|Ho]; [|by right].
  destruct (h2o_iovec_is_token name); simpl; [by left|].
  destruct (name_index =? 0); [|by left]. right. split; [done|]. by exists i, e.
Qed.

(** ** Tables in step *)

Definition entry_sim (e d : table_entry) : Prop :=
  e_name d = intern (name_bytes (e_name e)) /\ e_value d = e_value e /\ e_soft_errors d = 0.

Lemma entry_sim_size e d : entry_sim e d -> size_of e = size_of d.
Proof.
  intros (Hn & Hv & _). unfold size_of, entry_size. by rewrite Hn, Hv, name_bytes_intern.
Qed.

(** The list [l] of the encoder is simulated by a prefix of the decoder's list. *)
Definition newest (l ld : list table_entry) : Prop :=
  exists ld1 ld2, ld = ld1 ++ ld2 /\ Forall2 entry_sim l ld1.

Lemma newest_lookup l ld j e :
  newest l ld -> l !! j = Some e -> exists d, ld !! j = Some d /\ entry_sim e d.
Proof.
  intros (ld1 & ld2 & -> & HF) He. destruct (Forall2_lookup_l _ _ _ _ _ HF He) as (d & Hd & Hs).
  exists d. split; [|done]. by apply lookup_app_l_Some.
Qed.

Lemma newest_prefix l' l ld : l' `prefix_of` l -> newest l ld -> newest l' ld.
Proof.
  intros [k ->] (ld1 & ld2 & -> & HF). apply Forall2_app_inv_l in HF as (a & b & Ha & Hb & ->).
  exists a, (b ++ ld2). by rewrite <- app_assoc.
Qed.

Lemma newest_fit b l ld : newest l ld -> newest (fit b l) (fit b ld).
Proof.
  intros (ld1 & ld2 & -> & HF). revert b. induction HF as [|e d l ld1 Hs HF IH]; intros b; simpl.
  - eexists [], _. done.
  - rewrite <- (entry_sim_size _ _ Hs). destruct (size_of e <=? b); [|by exists [], []].
    destruct (IH (b - size_of e)) as (a & c & Ha & Hc). exists (d :: a), c.
    rewrite Ha. split; [done|by constructor].
Qed.

Lemma length_le_tsize l : 32 * len l <= tsize l.
Proof.
  induction l as [|e l IH]; [done|]. rewrite len_cons. simpl. pose proof (size_of_pos e). lia.
Qed.

Lemma newest_insert cap e d l ld :
  0 <= cap <= UINT32_MAX -> entry_sim e d -> newest l ld ->
  newest (spec_insert cap 32 e l) (spec_insert cap SIZE_MAX d ld).
Proof.
  intros Hc Hs Hn. unfold spec_insert. rewrite <- (entry_sim_size _ _ Hs).
  destruct (Z.leb_spec (size_of e) cap); [|by exists [], []].
  pose proof (newest_fit (cap - size_of e) l ld Hn) as Hf.
  apply (newest_prefix _ _ _ (limit_prefix 32 _)) in Hf as (a & c & Ha & HF).
  exists (d :: a), c. split; [|by constructor]. cbn [app]. f_equal. rewrite <- Ha.
  pose proof (length_le_tsize (fit (cap - size_of e) ld)).
  pose proof (tsize_fit (cap - size_of e) ld ltac:(lia)). pose proof (size_of_pos e).
  unfold limit. rewrite (proj2 (Z.leb_gt _ _)); [done|].
  unfold SIZE_MAX, UINT32_MAX in *. lia.
Qed.

Definition Sync (te td : header_table) : Prop :=
  exists l ld, Rep te l /\ Rep td ld /\ newest l ld /\
    tsize l <= hpack_capacity te /\
    hpack_capacity te = hpack_capacity td /\ 0 <= hpack_capacity te <= UINT32_MAX /\
    hpack_capacity td <= hpack_max_capacity td.

Lemma sync_insert te td name value :
  Sync te td ->
  exists te' td',
    header_table_insert te 32 (Entry name value 0) = Some te' /\
    header_table_insert td SIZE_MAX (Entry (intern (name_bytes name)) value 0) = Some td' /\
    Sync te' td' /\ hpack_max_capacity td' = hpack_max_capacity td.
Proof.
  intros (l & ld & HR & HRd & Hn & Ht & Hc & Hb & Hbm).
  destruct (rep_insert te l 32 (Entry name value 0) HR ltac:(lia)) as (te' & He & HR' & Hc' & Hm').
  destruct (rep_insert td ld SIZE_MAX (Entry (intern (name_bytes name)) value 0) HRd)
    as (td' & Hd & HRd' & Hcd' & Hmd'); [unfold SIZE_MAX; lia|].
  exists te', td'. split_and!; [done|done| |done].
  eexists _, _. split_and!; [exact HR'|exact HRd'| |rewrite Hc'; apply tsize_spec_insert; lia|congruence|lia..].
  rewrite <- Hc. apply newest_insert; [done| |done]. repeat split.
Qed.

(** ** One header *)

(** The flag never-to-be-indexed is effective (values shorter than 20 octets) only for
    names of the static table; see [do_encode_header_desync] for what happens otherwise. *)
Definition plain (name : name_ref) (value : bytes) (dont_compress : bool) : Prop :=
  dont_compress = true -> len value < 20 ->
  exists f, name_token_flags name = Some f /\ http2_static_table_name_index f <> 0.

Definition header_wf (name : name_ref) (value : bytes) : Prop :=
  name_wf name /\ bytes_ok value /\ len (name_bytes name) < 2 ^ 32 /\ len value < 2 ^ 32 /\
  name_ok (name_bytes name) = true /\ value_ok value = true.

(** Every token marked [dont_compress] is in the static table. *)
Lemma dont_compress_tokens :
  forallb (fun t => negb (tok_dont_compress (tok_flags t)) ||
                    negb (http2_static_table_name_index (tok_flags t) =? 0)) h2o__tokens = true.
Proof. vm_compute. reflexivity. Qed.

Lemma dont_compress_indexed t :
  is_token_index t -> tok_dont_compress (tok_flags (token t)) = true ->
  http2_static_table_name_index (tok_flags (token t)) <> 0.
Proof.
  intros Ht Hd. pose proof dont_compress_tokens as H. rewrite forallb_forall in H.
  specialize (H (token t)). rewrite Hd in H. unfold is_token_index in Ht.
  specialize (H ltac:(unfold token; apply nth_In; simpl; lia)). simpl in H. lia.
Qed.

Lemma rep_index_bound t l j e :
  Rep t l -> tsize l <= UINT32_MAX -> l !! j = Some e -> 1 <= Z.of_nat j + 62 <= INT64_MAX.
Proof.
  intros HR Ht He. apply lookup_lt_Some in He. pose proof (length_le_tsize l).
  unfold len, UINT32_MAX, INT64_MAX in *. lia.
Qed.

Lemma determine_dynamic td ld j d indexed src err :
  Rep td ld -> ld !! j = Some d -> e_soft_errors d = 0 ->
  determine_name td (Z.of_nat j + 62) indexed src err =
  Some (inl (e_name d, if indexed then Some (e_value d) else None, 0, src, err)).
Proof.
  intros HR Hd Hs. unfold determine_name, HEADER_TABLE_OFFSET.
  pose proof (lookup_lt_Some _ _ _ Hd). rewrite (rep_num _ _ HR).
  destruct (Z.ltb_spec 0 (Z.of_nat j + 62)); [|lia].
  destruct (Z.ltb_spec (Z.of_nat j + 62) 62); [lia|].
  destruct (Z.ltb_spec (Z.of_nat j + 62 - 62) (Z.of_nat (length ld))); [|lia].
  replace (Z.to_nat (Z.of_nat j + 62 - 62)) with j by lia.
  rewrite (get_rep _ _ _ HR), Hd by lia. simpl. by rewrite Hs.
Qed.

(** An indexed name is decoded to the name it stands for. *)
Lemma determine_indexed te td l ld name value static k src err :
  Rep te l -> Rep td ld -> newest l ld -> tsize l <= UINT32_MAX -> name_wf name ->
  static = match name_token_flags name with Some f => http2_static_table_name_index f | None => 0 end ->
  search_outcome l name value static (None, k) -> k <> 0 ->
  determine_name td k false src err
    = Some (inl (intern (name_bytes name), None, 0, src, err)) /\ 1 <= k <= INT64_MAX.
Proof.
  intros HR HRd Hn Ht Hwf -> Ho Hk. destruct Ho as [->|(_ & j & e & -> & He & Hs)].
  - destruct name as [t|]; [|done]. simpl in *.
    destruct (static_name t Hwf Hk) as [Hi Hst]. unfold determine_name, HEADER_TABLE_OFFSET.
    set (i := http2_static_table_name_index _) in *.
    destruct (Z.ltb_spec 0 i), (Z.ltb_spec i 62); try lia.
    destruct (nth (Z.to_nat (i - 1)) h2o_hpack_static_table (0, [])) as [t' v'].
    simpl in Hst. subst t'. rewrite <- (intern_token t Hwf). unfold INT64_MAX. split; [done|lia].
  - destruct (newest_lookup _ _ _ _ Hn He) as (d & Hd & Hsd & _ & Hs0).
    split; [|exact (rep_index_bound _ _ _ _ HR Ht He)]. rewrite (determine_dynamic _ _ _ _ _ _ _ HRd Hd Hs0).
    by rewrite Hsd, <- Hs.
Qed.

(** The decoder after the name of a literal. *)
Lemma decode_field_literal td k do_index src src' err name value rest :
  determine_name td k false src err = Some (inl (name, None, 0, src', err)) ->
  decode_string src' 0 false err = StringResult (Some value) rest 0 err ->
  decode_field td k false do_index src err =
  (td' ← (if do_index then header_table_insert td SIZE_MAX (Entry name value 0) else Some td);
   Some (HeaderResult 0 (Some (name, value)) rest td' err)).
Proof.
  intros Hn Hv. unfold decode_field. rewrite Hn. cbn [mbind option_bind].
  rewrite Z.land_0_l, Hv. cbn. done.
Qed.

Lemma decode_header_field td src err k vi di src' :
  decode_representation src = Some (Field k vi di, src') ->
  h2o_hpack_decode_header td src err = decode_field td k vi di src' err.
Proof.
  intros H. unfold h2o_hpack_decode_header. destruct (length src); simpl; by rewrite H.
Qed.

(** A new name is decoded to its token, if any. *)
Lemma determine_new td s rest err :
  bytes_ok s -> len s < 2 ^ 32 -> name_ok s = true ->
  determine_name td 0 false (h2o_hpack_encode_string s ++ rest) err
  = Some (inl (intern s, None, 0, rest, err)).
Proof.
  intros Hs Hl Hok. unfold determine_name. destruct (Z.ltb_spec 0 0); [lia|].
  by rewrite (decode_encode_string s rest 0 true err Hs Hl Hok).
Qed.

(** The two ends of one header field. *)
Lemma encode_decode_header te td name value dont_compress :
  Sync te td -> header_wf name value -> plain name value dont_compress ->
  exists out te' td',
    do_encode_header te name value dont_compress = Some (out, te') /\
    (forall rest err, h2o_hpack_decode_header td (out ++ rest) err =
       Some (HeaderResult 0 (Some (intern (name_bytes name), value)) rest td' err)) /\
    Sync te' td' /\ hpack_max_capacity td' = hpack_max_capacity td.
Proof.
  intros HS (Hnw & Hvb & Hnl & Hvl & Hno & Hvo) Hplain.
  pose proof HS as (l & ld & HR & HRd & Hn & Ht & Hc & Hb & _).
  assert (Ht' : tsize l <= UINT32_MAX) by lia. unfold do_encode_header.
  set (static := match name_token_flags name with Some f => http2_static_table_name_index f | None => 0 end).
  destruct (search_table_spec te l name value (num_entries te) 0 static HR) as (r & Hr & Ho);
    [by rewrite (rep_num _ _ HR)|].
  assert (Hstart : ((0 + entry_start_index te) mod entry_capacity te = entry_start_index te)%nat \/
                   num_entries te = O).
  { destruct (rep_start _ _ HR) as [|Hz]; [left; by apply Nat.mod_small|right].
    pose proof (rep_cap _ _ HR). rewrite (rep_num _ _ HR). lia. }
  assert (Hr' : search_table te name value (num_entries te) 0 (entry_start_index te) static = Some r).
  { destruct Hstart as [<-|Hz]; [done|]. by rewrite Hz in *. }
  rewrite Hr'. cbn [mbind option_bind]. destruct r as [[k0|] k].
  - (* indexed *)
    destruct Ho as (j & e & -> & He & Hs & ->).
    destruct (newest_lookup _ _ _ _ Hn He) as (d & Hd & Hsn & Hsv & Hs0).
    eexists _, te, td. split; [done|]. split_and!; [|done|done]. intros rest err.
    rewrite (decode_header_field _ _ _ _ _ _ _ (rep_indexed _ rest (rep_index_bound _ _ _ _ HR Ht' He))).
    unfold decode_field. rewrite (determine_dynamic _ _ _ _ _ _ _ HRd Hd Hs0). cbn.
    by rewrite Hsn, Hsv, <- Hs.
  - (* literal *)
    pose proof (fun src err => determine_indexed te td l ld name value static k src err
                  HR HRd Hn Ht' Hnw eq_refl Ho) as Hidx.
    set (flag := _ && (len value <? 20)).
    assert (Hflag : flag = true -> k <> 0).
    { intros Hf. apply andb_true_iff in Hf as [Hf Hv20]. apply Z.ltb_lt in Hv20.
      assert (Hst : static <> 0).
      { apply orb_true_iff in Hf as [Hf|Hf].
        - destruct (Hplain Hf Hv20) as (f & Hf' & Hne). unfold static. by rewrite Hf'.
        - destruct name as [t|]; [|done]. by apply dont_compress_indexed. }
      destruct Ho as [->|(_ & j & ? & -> & _)]; [done|lia]. }
    destruct flag.
    + (* never indexed *)
      destruct (Z.eqb_spec k 0) as [Hk0|Hk]; [by apply Hflag in Hk0|]. cbn [negb].
      destruct (Hidx [] None Hk) as [_ Hkb].
      eexists _, te, td. split; [done|]. split_and!; [|done|done]. intros rest err.
      destruct (Hidx (encode_as_is value ++ rest) err Hk) as [Hdn _]. rewrite <- app_assoc.
      rewrite (decode_header_field _ _ _ _ _ _ _ (rep_never_indexed _ _ Hkb)).
      erewrite decode_field_literal; [|exact Hdn|apply decode_as_is]; try done.
      unfold INT64_MAX. lia.
    + (* with indexing *)
      destruct (sync_insert te td name value HS) as (te' & td' & -> & Hid & HS' & Hm).
      cbn [mbind option_bind]. destruct (Z.eqb_spec k 0) as [Hk0|Hk]; cbn [negb].
      * eexists _, te', td'. split; [done|]. split_and!; [|done|done]. intros rest err.
        cbn [app]. rewrite <- app_assoc.
        rewrite (decode_header_field _ _ _ 0 false true
                   (h2o_hpack_encode_string (name_bytes name) ++ h2o_hpack_encode_string value ++ rest))
          by done.
        erewrite decode_field_literal; [| |by apply (decode_encode_string value rest 0 false)].
        2:{ apply determine_new; [by apply name_bytes_ok|done|done]. }
        by rewrite Hid.
      * destruct (Hidx [] None Hk) as [_ Hkb].
        eexists _, te', td'. split; [done|]. split_and!; [|done|done]. intros rest err.
        destruct (Hidx (h2o_hpack_encode_string value ++ rest) err Hk) as [Hdn _]. rewrite <- app_assoc.
        rewrite (decode_header_field _ _ _ _ _ _ _ (rep_literal _ _ Hkb)).
        erewrite decode_field_literal; [|exact Hdn|by apply (decode_encode_string value rest 0 false)].
        by rewrite Hid.
Qed.

(** ** Size updates *)

(** Lowering the encoder's capacity writes an update that lowers the decoder's. *)
Lemma adjust_size_sync te td cap :
  Sync te td -> 0 <= cap ->
  exists out te' td',
    header_table_adjust_size te cap = Some (out, te') /\ bytes_ok out /\ Sync te' td' /\
    hpack_max_capacity td' = hpack_max_capacity td /\
    hpack_capacity te' = Z.min cap (hpack_capacity te) /\
    forall src err, bytes_ok src ->
      h2o_hpack_decode_header td (out ++ src) err = h2o_hpack_decode_header td' src err.
Proof.
  intros HS Hcap. pose proof HS as (l & ld & HR & HRd & Hn & Ht & Hc & Hb & Hbm).
  unfold header_table_adjust_size. destruct (Z.leb_spec (hpack_capacity te) cap).
  { exists [], te, td. split_and!; done || lia. }
  destruct (rep_set_capacity te l cap HR) as (te' & Hse & HR' & Hce & Hme).
  destruct (rep_set_capacity td ld cap HRd) as (td' & Hsd & HRd' & Hcd & Hmd).
  rewrite Hse. cbn [mbind option_bind]. rewrite Hce. eexists _, te', td'.
  split_and!; [done|apply encode_int_ok| |done|lia|].
  - exists (fit cap l), (fit cap ld). split_and!; [done|done|by apply newest_fit| |congruence|lia..].
    rewrite Hce. apply tsize_fit. lia.
  - intros src err Hs. eapply decode_header_size_update.
    + apply Forall_app. split; [apply encode_int_ok|done].
    + apply rep_size_update. unfold UINT32_MAX, INT64_MAX in *. lia.
    + lia.
    + done.
Qed.

(** ** Properties *)

Lemma sync_empty cap : 0 <= cap <= UINT32_MAX -> Sync (empty_table cap) (empty_table cap).
Proof.
  intros Hc. exists [], []. split_and!; [apply rep_empty|apply rep_empty|by exists [], []|simpl; lia|done|simpl; lia..].
Qed.



(** When the encoder is told a smaller table size, it evicts what does not fit and announces
    the size; a decoder in step reads the update before the next field, ends up in step, and
    decodes what follows as if the update were not there. *)
Theorem size_update_in_step te td cap :
  Sync te td -> 0 <= cap ->
  exists out te' td',
    header_table_adjust_size te cap = Some (out, te') /\ Sync te' td' /\
    hpack_capacity te' = Z.min cap (hpack_capacity te) /\
    forall src err, bytes_ok src ->
      h2o_hpack_decode_header td (out ++ src) err = h2o_hpack_decode_header td' src err.
Proof.
  intros HS Hc. destruct (adjust_size_sync te td cap HS Hc) as (out & te' & td' & Ha & _ & HS' & _ & Hcap & Hd).
  by exists out, te', td'.
Qed.

Lemma size_update_in_step_witness :
  exists out te' td',
    header_table_adjust_size (empty_table 4096) 1000 = Some (out, te') /\ Sync te' td' /\
    hpack_capacity te' = Z.min 1000 4096 /\
    forall src err, bytes_ok src ->
      h2o_hpack_decode_header (empty_table 4096) (out ++ src) err = h2o_hpack_decode_header td' src err.
Proof.
  apply (size_update_in_step (empty_table 4096) (empty_table 4096) 1000); [|lia].
  apply sync_empty. unfold UINT32_MAX. lia.
Defined.

(** A header marked [dont_compress] with a name in neither table, and a short value, is written
    with incremental indexing but not entered in the encoder's table: sending [a: 1], then
    such a header, then [a: 1] again, the peer reads the second header twice. *)
Theorem do_encode_header_desync :
  ('(o1, t1) ← do_encode_header (empty_table 4096) (NStr [97]) [49] false;
   '(o2, t2) ← do_encode_header t1 (NStr [98]) [50] true;
   '(o3, _) ← do_encode_header t2 (NStr [97]) [49] false;
   r1 ← h2o_hpack_decode_header (empty_table 4096) o1 None;
   r2 ← h2o_hpack_decode_header (dh_table r1) o2 None;
   r3 ← h2o_hpack_decode_header (dh_table r2) o3 None;
   Some (map dh_header [r1; r2; r3]))
  = Some [Some (NStr [97], [49]); Some (NStr [98], [50]); Some (NStr [98], [50])].
Proof. vm_compute. reflexivity. Qed.
