(* ===== verification/Http2Frame.v ===== *)
(** * HTTP/2 frames (lib/http2/frame.c, include/h2o/http2_common.h)

    The frame header, the control frames the server writes, the payload decoders, the
    peer's SETTINGS and the flow-control window.  A write buffer ([h2o_buffer_t]) is the
    list of the octets it holds; [h2o_fatal] is [None]. *)
From S2P Require Import Prelude HpackInt.
From Stdlib Require Import ZArith Lia.
From stdpp Require Import base list numbers option strings.
Open Scope Z_scope.

(** ** Integers in network order *)

Definition h2o_http2_encode16u (value : Z) : bytes := [wrap8 (Z.shiftr value 8); wrap8 value].
Definition h2o_http2_encode24u (value : Z) : bytes :=
  [wrap8 (Z.shiftr value 16); wrap8 (Z.shiftr value 8); wrap8 value].
Definition h2o_http2_encode32u (value : Z) : bytes :=
  [wrap8 (Z.shiftr value 24); wrap8 (Z.shiftr value 16); wrap8 (Z.shiftr value 8); wrap8 value].

Definition at_ (src : bytes) (i : nat) : Z := nth i src 0.

Definition h2o_http2_decode16u (src : bytes) : Z := Z.lor (Z.shiftl (at_ src 0) 8) (at_ src 1).
Definition h2o_http2_decode24u (src : bytes) : Z :=
  Z.lor (Z.lor (Z.shiftl (at_ src 0) 16) (Z.shiftl (at_ src 1) 8)) (at_ src 2).
Definition h2o_http2_decode32u (src : bytes) : Z :=
  Z.lor (Z.lor (Z.lor (Z.shiftl (at_ src 0) 24) (Z.shiftl (at_ src 1) 16)) (Z.shiftl (at_ src 2) 8))
    (at_ src 3).

(** ** Frames *)

Definition H2O_HTTP2_FRAME_HEADER_SIZE : Z := 9.

Definition H2O_HTTP2_FRAME_TYPE_DATA : Z := 0.
Definition H2O_HTTP2_FRAME_TYPE_HEADERS : Z := 1.
Definition H2O_HTTP2_FRAME_TYPE_PRIORITY : Z := 2.
Definition H2O_HTTP2_FRAME_TYPE_RST_STREAM : Z := 3.
Definition H2O_HTTP2_FRAME_TYPE_SETTINGS : Z := 4.
Definition H2O_HTTP2_FRAME_TYPE_PUSH_PROMISE : Z := 5.
Definition H2O_HTTP2_FRAME_TYPE_PING : Z := 6.
Definition H2O_HTTP2_FRAME_TYPE_GOAWAY : Z := 7.
Definition H2O_HTTP2_FRAME_TYPE_WINDOW_UPDATE : Z := 8.
Definition H2O_HTTP2_FRAME_TYPE_CONTINUATION : Z := 9.
Definition H2O_HTTP2_FRAME_TYPE_ORIGIN : Z := 12.

Definition H2O_HTTP2_FRAME_FLAG_END_STREAM : Z := 0x1.
Definition H2O_HTTP2_FRAME_FLAG_ACK : Z := 0x1.
Definition H2O_HTTP2_FRAME_FLAG_END_HEADERS : Z := 0x4.
Definition H2O_HTTP2_FRAME_FLAG_PADDED : Z := 0x8.
Definition H2O_HTTP2_FRAME_FLAG_PRIORITY : Z := 0x20.

(** [payload] holds the [length] octets the pointer of the C structure gives access to. *)
Record h2o_http2_frame_t := Frame {
  f_length : Z; f_type : Z; f_flags : Z; f_stream_id : Z; f_payload : bytes }.

Record h2o_http2_priority_t := Priority { exclusive : Z; dependency : Z; weight : Z }.
Definition h2o_http2_default_priority : h2o_http2_priority_t := Priority 0 0 16.

Definition h2o_http2_encode_frame_header (length type flags stream_id : Z) : option bytes :=
  if 0xffffff <? length then None
  else Some (h2o_http2_encode24u length ++ [wrap8 type; wrap8 flags] ++ h2o_http2_encode32u stream_id).

(** [allocate_frame] and the octets its caller then writes: the frame appended to [buf]. *)
Definition allocate_frame (buf : bytes) (type flags stream_id : Z) (payload : bytes) : option bytes :=
  header ← h2o_http2_encode_frame_header (len payload) type flags stream_id;
  Some (buf ++ header ++ payload).

Definition h2o_http2__encode_rst_stream_frame (buf : bytes) (stream_id errnum : Z) : option bytes :=
  allocate_frame buf H2O_HTTP2_FRAME_TYPE_RST_STREAM 0 stream_id (h2o_http2_encode32u errnum).

(** [data] points to eight octets. *)
Definition h2o_http2_encode_ping_frame (buf : bytes) (is_ack : bool) (data : bytes) : option bytes :=
  allocate_frame buf H2O_HTTP2_FRAME_TYPE_PING (if is_ack then H2O_HTTP2_FRAME_FLAG_ACK else 0) 0
    (take 8 data).

Definition h2o_http2_encode_goaway_frame (buf : bytes) (last_stream_id errnum : Z)
    (additional_data : bytes) : option bytes :=
  allocate_frame buf H2O_HTTP2_FRAME_TYPE_GOAWAY 0 0
    (h2o_http2_encode32u last_stream_id ++ h2o_http2_encode32u (wrap32 (- errnum)) ++ additional_data).

Definition h2o_http2_encode_settings_frame (buf : bytes) (settings : list (Z * Z)) : option bytes :=
  allocate_frame buf H2O_HTTP2_FRAME_TYPE_SETTINGS 0 0
    (concat (map (fun kv => h2o_http2_encode16u kv.1 ++ h2o_http2_encode32u kv.2) settings)).

Definition h2o_http2_encode_window_update_frame (buf : bytes) (stream_id window_size_increment : Z)
    : option bytes :=
  allocate_frame buf H2O_HTTP2_FRAME_TYPE_WINDOW_UPDATE 0 stream_id
    (h2o_http2_encode32u window_size_increment).

Definition h2o_http2_encode_origin_frame (buf payload : bytes) : option bytes :=
  allocate_frame buf H2O_HTTP2_FRAME_TYPE_ORIGIN 0 0 payload.

(** The frame and the octets consumed. *)
Definition h2o_http2_decode_frame (src : bytes) (max_frame_size : Z) : res (h2o_http2_frame_t * Z) :=
  if len src <? H2O_HTTP2_FRAME_HEADER_SIZE then Err H2O_HTTP2_ERROR_INCOMPLETE None
  else
    let length := h2o_http2_decode24u src in
    let type := at_ src 3 in
    let flags := at_ src 4 in
    let stream_id := Z.land (h2o_http2_decode32u (drop 5 src)) 0x7fffffff in
    if max_frame_size <? length then Err H2O_HTTP2_ERROR_FRAME_SIZE None
    else if len src <? H2O_HTTP2_FRAME_HEADER_SIZE + length then Err H2O_HTTP2_ERROR_INCOMPLETE None
    else
      Ok (Frame length type flags stream_id (take (Z.to_nat length) (drop 9 src)),
          H2O_HTTP2_FRAME_HEADER_SIZE + length).

Definition has_flag (frame : h2o_http2_frame_t) (flag : Z) : bool :=
  negb (Z.land (f_flags frame) flag =? 0).

(** ** Payloads *)

Definition h2o_http2_decode_data_payload (frame : h2o_http2_frame_t) : res bytes :=
  if f_stream_id frame =? 0
  then Err H2O_HTTP2_ERROR_PROTOCOL (Some "invalid stream id in DATA frame"%string)
  else if has_flag frame H2O_HTTP2_FRAME_FLAG_PADDED then
    if f_length frame <? 1
    then Err H2O_HTTP2_ERROR_PROTOCOL (Some "invalid DATA frame"%string)
    else
      let padding_length := at_ (f_payload frame) 0 in
      if f_length frame <? 1 + padding_length
      then Err H2O_HTTP2_ERROR_PROTOCOL (Some "invalid DATA frame"%string)
      else Ok (take (Z.to_nat (f_length frame - (1 + padding_length))) (drop 1 (f_payload frame)))
  else Ok (take (Z.to_nat (f_length frame)) (f_payload frame)).

Definition decode_priority (src : bytes) : h2o_http2_priority_t * bytes :=
  let u4 := h2o_http2_decode32u src in
  let src := drop 4 src in
  (Priority (Z.shiftr u4 31) (Z.land u4 0x7fffffff) (at_ src 0 + 1), drop 1 src).

(** The priority and the header block fragment. *)
Definition h2o_http2_decode_headers_payload (frame : h2o_http2_frame_t)
    : res (h2o_http2_priority_t * bytes) :=
  let src := f_payload frame in
  if f_stream_id frame =? 0
  then Err H2O_HTTP2_ERROR_PROTOCOL (Some "invalid stream id in HEADERS frame"%string)
  else
    let unpadded :=
      if has_flag frame H2O_HTTP2_FRAME_FLAG_PADDED then
        match src with
        | [] => Err H2O_HTTP2_ERROR_PROTOCOL (Some "invalid HEADERS frame"%string)
        | padlen :: src =>
            if len src <? padlen
            then Err H2O_HTTP2_ERROR_PROTOCOL (Some "invalid HEADERS frame"%string)
            else Ok (take (Z.to_nat (len src - padlen)) src)
        end
      else Ok src in
    match unpadded with
    | Err code desc => Err code desc
    | Ok src =>
        if has_flag frame H2O_HTTP2_FRAME_FLAG_PRIORITY then
          if len src <? 5 then Err (-1) None
          else Ok (decode_priority src)
        else Ok (h2o_http2_default_priority, src)
    end.

Definition h2o_http2_decode_priority_payload (frame : h2o_http2_frame_t) : res h2o_http2_priority_t :=
  if f_stream_id frame =? 0
  then Err H2O_HTTP2_ERROR_PROTOCOL (Some "invalid stream id in PRIORITY frame"%string)
  else if negb (f_length frame =? 5)
  then Err H2O_HTTP2_ERROR_FRAME_SIZE (Some "invalid PRIORITY frame"%string)
  else Ok (decode_priority (f_payload frame)).1.

Definition h2o_http2_decode_rst_stream_payload (frame : h2o_http2_frame_t) : res Z :=
  if f_stream_id frame =? 0
  then Err H2O_HTTP2_ERROR_PROTOCOL (Some "invalid stream id in RST_STREAM frame"%string)
  else if negb (f_length frame =? 4)
  then Err H2O_HTTP2_ERROR_FRAME_SIZE (Some "invalid RST_STREAM frame"%string)
  else Ok (h2o_http2_decode32u (f_payload frame)).

Definition h2o_http2_decode_ping_payload (frame : h2o_http2_frame_t) : res bytes :=
  if negb (f_stream_id frame =? 0)
  then Err H2O_HTTP2_ERROR_PROTOCOL (Some "invalid PING frame"%string)
  else if negb (f_length frame =? 8)
  then Err H2O_HTTP2_ERROR_FRAME_SIZE (Some "invalid PING frame"%string)
  else Ok (take 8 (f_payload frame)).

(** The last stream id, the error code and the debug data. *)
Definition h2o_http2_decode_goaway_payload (frame : h2o_http2_frame_t) : res (Z * Z * bytes) :=
  if negb (f_stream_id frame =? 0)
  then Err H2O_HTTP2_ERROR_PROTOCOL (Some "invalid stream id in GOAWAY frame"%string)
  else if f_length frame <? 8
  then Err H2O_HTTP2_ERROR_FRAME_SIZE (Some "invalid GOAWAY frame"%string)
  else Ok (Z.land (h2o_http2_decode32u (f_payload frame)) 0x7fffffff,
           h2o_http2_decode32u (drop 4 (f_payload frame)),
           take (Z.to_nat (f_length frame - 8)) (drop 8 (f_payload frame))).

(** The increment; on an error, also [*err_is_stream_level]. *)
Definition h2o_http2_decode_window_update_payload (frame : h2o_http2_frame_t) : res Z * bool :=
  if negb (f_length frame =? 4)
  then (Err H2O_HTTP2_ERROR_FRAME_SIZE (Some "invalid WINDOW_UPDATE frame"%string), false)
  else
    let window_size_increment := Z.land (h2o_http2_decode32u (f_payload frame)) 0x7fffffff in
    if window_size_increment =? 0
    then (Err H2O_HTTP2_ERROR_PROTOCOL (Some "invalid WINDOW_UPDATE frame"%string),
          negb (f_stream_id frame =? 0))
    else (Ok window_size_increment, false).

(** ** Settings *)

Record h2o_http2_settings_t := Settings {
  header_table_size : Z;
  enable_push : Z;
  max_concurrent_streams : Z;
  initial_window_size : Z;
  max_frame_size : Z }.

Definition H2O_HTTP2_SETTINGS_DEFAULT : h2o_http2_settings_t :=
  Settings 4096 1 UINT32_MAX 65535 16384.

(** [SET(label, member, min, max, err_code)] *)
Definition set_setting (value min max err_code : Z) (s' : h2o_http2_settings_t)
    : res h2o_http2_settings_t :=
  if negb ((min <=? value) && (value <=? max))
  then Err err_code (Some "invalid SETTINGS frame"%string)
  else Ok s'.

Definition apply_setting (s : h2o_http2_settings_t) (identifier value : Z)
    : res h2o_http2_settings_t :=
  let '(Settings hts ep mcs iws mfs) := s in
  if identifier =? 1 then set_setting value 0 UINT32_MAX 0 (Settings value ep mcs iws mfs)
  else if identifier =? 2
  then set_setting value 0 1 H2O_HTTP2_ERROR_PROTOCOL (Settings hts value mcs iws mfs)
  else if identifier =? 3 then set_setting value 0 UINT32_MAX 0 (Settings hts ep value iws mfs)
  else if identifier =? 4
  then set_setting value 0 0x7fffffff H2O_HTTP2_ERROR_FLOW_CONTROL (Settings hts ep mcs value mfs)
  else if identifier =? 5
  then set_setting value 16384 16777215 H2O_HTTP2_ERROR_PROTOCOL (Settings hts ep mcs iws value)
  else Ok s.

(** The updated settings and the return code.  On an error the settings read before it
    stay updated. *)
Fixpoint update_peer_settings_loop (fuel : nat) (settings : h2o_http2_settings_t) (src : bytes)
    : h2o_http2_settings_t * Z * option string :=
  match fuel with
  | O => (settings, 0, None)
  | S fuel =>
      if 6 <=? len src then
        match apply_setting settings (h2o_http2_decode16u src) (h2o_http2_decode32u (drop 2 src)) with
        | Err code desc => (settings, code, desc)
        | Ok settings => update_peer_settings_loop fuel settings (drop 6 src)
        end
      else if negb (len src =? 0) then (settings, H2O_HTTP2_ERROR_FRAME_SIZE, None)
      else (settings, 0, None)
  end.

Definition h2o_http2_update_peer_settings (settings : h2o_http2_settings_t) (src : bytes)
    : h2o_http2_settings_t * Z * option string :=
  update_peer_settings_loop (S (length src)) settings src.

(** ** Flow control *)

(** [h2o_http2_window_t] is its [_avail] member, an [ssize_t]. *)
Definition h2o_http2_window_init (initial_window_size : Z) : Z := initial_window_size.

(** The new window and the return value. *)
Definition h2o_http2_window_update (avail delta : Z) : Z * Z :=
  let v := avail + delta in
  if INT32_MAX <? v then (avail, -1) else (v, 0).

Definition h2o_http2_window_get_avail (avail : Z) : Z := avail.

Definition h2o_http2_window_consume_window (avail bytes : Z) : Z := avail - bytes.

(** ** Integers round trip *)

Lemma shiftl_lor_8 a b n : 8 <= n -> Z.lor (Z.shiftl a n) (Z.shiftl b (n - 8)) = Z.shiftl (Z.lor (Z.shiftl a 8) b) (n - 8).
Proof. intros. rewrite Z.shiftl_lor, Z.shiftl_shiftl by lia. do 2 f_equal. lia. Qed.

Lemma at_byte src i : bytes_ok src -> is_byte (at_ src i).
Proof.
  intros H. unfold at_. destruct (nth_in_or_default i src 0) as [Hin| ->]; [|unfold is_byte; lia].
  rewrite Forall_forall in H. by apply H, list_elem_of_In.
Qed.

Lemma decode32u_eq src :
  bytes_ok src ->
  h2o_http2_decode32u src = at_ src 0 * 2 ^ 24 + at_ src 1 * 2 ^ 16 + at_ src 2 * 2 ^ 8 + at_ src 3.
Proof.
  intros H. unfold h2o_http2_decode32u.
  rewrite (shiftl_lor_8 _ _ 24) by lia. change (24 - 8) with 16.
  rewrite (shiftl_lor_8 _ _ 16) by lia. change (16 - 8) with 8.
  rewrite !lor_add_byte by auto using at_byte. rewrite !Z.shiftl_mul_pow2 by lia. lia.
Qed.

Lemma decode24u_eq src :
  bytes_ok src -> h2o_http2_decode24u src = at_ src 0 * 2 ^ 16 + at_ src 1 * 2 ^ 8 + at_ src 2.
Proof.
  intros H. unfold h2o_http2_decode24u.
  rewrite (shiftl_lor_8 _ _ 16) by lia. change (16 - 8) with 8.
  rewrite !lor_add_byte by auto using at_byte. rewrite !Z.shiftl_mul_pow2 by lia. lia.
Qed.

Lemma decode16u_eq src :
  bytes_ok src -> h2o_http2_decode16u src = at_ src 0 * 2 ^ 8 + at_ src 1.
Proof.
  intros H. unfold h2o_http2_decode16u. rewrite lor_add_byte by auto using at_byte.
  rewrite Z.shiftl_mul_pow2 by lia. lia.
Qed.

(** Only the octets at hand matter. *)
Lemma at_app_l s t i : (i < length s)%nat -> at_ (s ++ t) i = at_ s i.
Proof. intros. unfold at_. by apply app_nth1. Qed.

Ltac octets := unfold at_, wrap8, wrap16, wrap32; cbn [app nth]; rewrite ?Z.shiftr_div_pow2 by lia;
  change (2 ^ 8) with 256; change (2 ^ 16) with 65536; change (2 ^ 24) with 16777216;
  change (2 ^ 32) with 4294967296; Z.div_mod_to_equations; lia.

Lemma decode32u_encode v rest :
  h2o_http2_decode32u (h2o_http2_encode32u v ++ rest) = wrap32 v.
Proof.
  transitivity (h2o_http2_decode32u (h2o_http2_encode32u v)); [done|].
  rewrite decode32u_eq by (repeat constructor; apply is_byte_wrap8).
  unfold h2o_http2_encode32u. octets.
Qed.

Lemma decode24u_encode v rest :
  0 <= v < 2 ^ 24 -> h2o_http2_decode24u (h2o_http2_encode24u v ++ rest) = v.
Proof.
  intros Hv. transitivity (h2o_http2_decode24u (h2o_http2_encode24u v)); [done|].
  rewrite decode24u_eq by (repeat constructor; apply is_byte_wrap8).
  unfold h2o_http2_encode24u. octets.
Qed.

Lemma decode16u_encode v rest :
  h2o_http2_decode16u (h2o_http2_encode16u v ++ rest) = wrap16 v.
Proof.
  transitivity (h2o_http2_decode16u (h2o_http2_encode16u v)); [done|].
  rewrite decode16u_eq by (repeat constructor; apply is_byte_wrap8).
  unfold h2o_http2_encode16u. octets.
Qed.

Lemma decode32u_bound src : bytes_ok src -> 0 <= h2o_http2_decode32u src < 2 ^ 32.
Proof.
  intros H. rewrite decode32u_eq by done.
  pose proof (at_byte src 0 H). pose proof (at_byte src 1 H).
  pose proof (at_byte src 2 H). pose proof (at_byte src 3 H). unfold is_byte in *. lia.
Qed.

Lemma decode24u_bound src : bytes_ok src -> 0 <= h2o_http2_decode24u src < 2 ^ 24.
Proof.
  intros H. rewrite decode24u_eq by done.
  pose proof (at_byte src 0 H). pose proof (at_byte src 1 H). pose proof (at_byte src 2 H).
  unfold is_byte in *. lia.
Qed.

Lemma land_31 v : Z.land v 0x7fffffff = v mod 2 ^ 31.
Proof. apply (Z.land_ones v 31). lia. Qed.

(** ** Frames round trip *)

Lemma encode_frame_header_length length type flags stream_id h :
  h2o_http2_encode_frame_header length type flags stream_id = Some h -> len h = 9.
Proof. unfold h2o_http2_encode_frame_header. destruct (_ <? _); [done|]. by intros [= <-]. Qed.

(** A frame that was written is read back, with what follows it left over. *)
Lemma decode_encode_frame type flags stream_id payload rest max_size h :
  h2o_http2_encode_frame_header (len payload) type flags stream_id = Some h ->
  is_byte type -> is_byte flags -> 0 <= stream_id < 2 ^ 31 -> len payload <= max_size ->
  h2o_http2_decode_frame (h ++ payload ++ rest) max_size =
  Ok (Frame (len payload) type flags stream_id payload, 9 + len payload).
Proof.
  intros Hh Ht Hf Hs Hm. pose proof (encode_frame_header_length _ _ _ _ _ Hh) as Hl.
  unfold h2o_http2_encode_frame_header in Hh. destruct (Z.ltb_spec 0xffffff (len payload)); [done|].
  injection Hh as Hh. pose proof (len_nonneg payload). pose proof (len_nonneg rest).
  unfold h2o_http2_decode_frame, H2O_HTTP2_FRAME_HEADER_SIZE.
  rewrite !len_app, Hl.
  destruct (Z.ltb_spec (9 + (len payload + len rest)) 9); [lia|]. 
  assert (h ++ payload ++ rest = h2o_http2_encode24u (len payload) ++ [wrap8 type; wrap8 flags] ++
            h2o_http2_encode32u stream_id ++ payload ++ rest) as -> by (by subst h).
  rewrite decode24u_encode by lia.
  destruct (Z.ltb_spec max_size (len payload)); [lia|].
  destruct (Z.ltb_spec (9 + (len payload + len rest)) (9 + len payload)); [lia|].
  do 3 f_equal.
  - unfold at_. simpl. by apply wrap8_small.
  - unfold at_. simpl. by apply wrap8_small.
  - change (drop 5 _) with (h2o_http2_encode32u stream_id ++ payload ++ rest).
    rewrite decode32u_encode, land_31. unfold wrap32.
    rewrite (Z.mod_small stream_id (2 ^ 32)), Z.mod_small by lia. done.
  - change (drop 9 _) with (payload ++ rest). unfold len. by rewrite Nat2Z.id, take_app_length.
Qed.

(** What a successful [decode_frame] guarantees. *)
Lemma decode_frame_ok src max_size frame n :
  bytes_ok src -> h2o_http2_decode_frame src max_size = Ok (frame, n) ->
  n = 9 + f_length frame /\ n <= len src /\ 0 <= f_length frame <= max_size /\
  len (f_payload frame) = f_length frame /\ 0 <= f_stream_id frame < 2 ^ 31 /\
  (forall more, h2o_http2_decode_frame (src ++ more) max_size = Ok (frame, n)).
Proof.
  intros Hok. unfold h2o_http2_decode_frame, H2O_HTTP2_FRAME_HEADER_SIZE.
  destruct (Z.ltb_spec (len src) 9) as [|H9]; [done|].
  destruct (Z.ltb_spec max_size (h2o_http2_decode24u src)); [done|].
  destruct (Z.ltb_spec (len src) (9 + h2o_http2_decode24u src)); [done|]. intros [= <- <-]. simpl.
  pose proof (decode24u_bound src Hok). rewrite land_31.
  pose proof (Z.mod_pos_bound (h2o_http2_decode32u (drop 5 src)) (2 ^ 31) ltac:(lia)).
  assert (Hlen : len (take (Z.to_nat (h2o_http2_decode24u src)) (drop 9 src)) = h2o_http2_decode24u src)
    by (unfold len in *; rewrite length_take, length_drop; lia).
  split_and!; try lia. intros more. rewrite len_app. pose proof (len_nonneg more).
  unfold len in H9. do 9 (destruct src as [|? src]; [simpl in H9; lia|]).
  cbn [app].
  unfold h2o_http2_decode24u, h2o_http2_decode32u, at_ in *. cbn [nth drop] in *.
  match goal with |- context [if ?b then _ else _] => destruct b eqn:E1; [lia|] end.
  match goal with |- context [if ?b then _ else _] => destruct b eqn:E2; [lia|] end.
  match goal with |- context [if ?b then _ else _] => destruct b eqn:E3; [lia|] end.
  do 3 f_equal; [by rewrite <- land_31|]. rewrite !drop_0 in *. rewrite take_app_le; [done|].
  unfold len in Hlen. rewrite length_take in Hlen. lia.
Qed.

(** ** Control frames *)

Lemma allocate_frame_decodes buf type flags stream_id payload rest max_size out :
  allocate_frame buf type flags stream_id payload = Some out ->
  is_byte type -> is_byte flags -> 0 <= stream_id < 2 ^ 31 -> len payload <= max_size ->
  exists frame, out = buf ++ frame /\
    h2o_http2_decode_frame (frame ++ rest) max_size =
    Ok (Frame (len payload) type flags stream_id payload, 9 + len payload).
Proof.
  unfold allocate_frame. intros H Ht Hf Hs Hm.
  destruct (h2o_http2_encode_frame_header _ _ _ _) as [h|] eqn:Hh; [|done].
  simpl in H. injection H as <-. exists (h ++ payload). split; [done|].
  rewrite <- app_assoc. by apply decode_encode_frame.
Qed.

Lemma allocate_frame_some buf type flags stream_id payload :
  len payload <= 0xffffff -> is_Some (allocate_frame buf type flags stream_id payload).
Proof.
  intros H. unfold allocate_frame, h2o_http2_encode_frame_header.
  destruct (Z.ltb_spec 0xffffff (len payload)); [lia|]. simpl. eauto.
Qed.

(** Writing a control frame of up to 16384 octets and reading it back. *)
Lemma control_frame_roundtrip buf type flags stream_id payload rest max_size :
  is_byte type -> is_byte flags -> 0 <= stream_id < 2 ^ 31 -> len payload <= 16384 -> 16384 <= max_size ->
  exists frame, allocate_frame buf type flags stream_id payload = Some (buf ++ frame) /\
    h2o_http2_decode_frame (frame ++ rest) max_size =
    Ok (Frame (len payload) type flags stream_id payload, 9 + len payload).
Proof.
  intros Ht Hf Hs Hl Hm.
  destruct (allocate_frame_some buf type flags stream_id payload ltac:(lia)) as [out Ho].
  destruct (allocate_frame_decodes _ _ _ _ _ rest max_size _ Ho Ht Hf Hs ltac:(lia)) as (frame & -> & Hd).
  eauto.
Qed.

(** The control frames, one by one. *)

Lemma decode32u_payload v : 0 <= v < 2 ^ 32 -> h2o_http2_decode32u (h2o_http2_encode32u v) = v.
Proof.
  intros Hv. rewrite <- (app_nil_r (h2o_http2_encode32u v)), decode32u_encode. by apply Z.mod_small.
Qed.

Lemma rst_stream_roundtrip buf rest stream_id errnum :
  0 < stream_id < 2 ^ 31 -> 0 <= errnum < 2 ^ 32 ->
  exists f n fr, h2o_http2__encode_rst_stream_frame buf stream_id errnum = Some (buf ++ f) /\
    h2o_http2_decode_frame (f ++ rest) 16384 = Ok (fr, n) /\ f_stream_id fr = stream_id /\
    h2o_http2_decode_rst_stream_payload fr = Ok errnum.
Proof.
  intros Hs He. unfold h2o_http2__encode_rst_stream_frame.
  destruct (control_frame_roundtrip buf H2O_HTTP2_FRAME_TYPE_RST_STREAM 0 stream_id (h2o_http2_encode32u errnum)
    rest 16384) as (f & -> & Hf); [done|done|lia|done|lia|].
  eexists f, _, _. split_and!; [done|exact Hf|done|]. unfold h2o_http2_decode_rst_stream_payload.
  cbn [f_stream_id f_length f_payload]. destruct (Z.eqb_spec stream_id 0); [lia|].
  by rewrite decode32u_payload.
Qed.

Lemma ping_roundtrip buf rest data :
  len data = 8 ->
  exists f n fr, h2o_http2_encode_ping_frame buf true data = Some (buf ++ f) /\
    h2o_http2_decode_frame (f ++ rest) 16384 = Ok (fr, n) /\ has_flag fr H2O_HTTP2_FRAME_FLAG_ACK = true /\
    h2o_http2_decode_ping_payload fr = Ok data.
Proof.
  intros Hd. unfold h2o_http2_encode_ping_frame.
  assert (Ht : take 8 data = data) by (apply take_ge; unfold len in Hd; lia). rewrite Ht.
  destruct (control_frame_roundtrip buf H2O_HTTP2_FRAME_TYPE_PING H2O_HTTP2_FRAME_FLAG_ACK 0 data rest 16384)
    as (f & -> & Hf); [done|done|lia|lia|lia|].
  eexists f, _, _. split_and!; [done|exact Hf|done|]. unfold h2o_http2_decode_ping_payload.
  cbn [f_stream_id f_length f_payload]. by rewrite Hd, Ht.
Qed.

Lemma goaway_roundtrip buf rest last_stream_id code debug :
  0 <= last_stream_id < 2 ^ 31 -> - 2 ^ 31 < code <= 0 -> len debug <= 1000 ->
  exists f n fr, h2o_http2_encode_goaway_frame buf last_stream_id code debug = Some (buf ++ f) /\
    h2o_http2_decode_frame (f ++ rest) 16384 = Ok (fr, n) /\
    h2o_http2_decode_goaway_payload fr = Ok (last_stream_id, - code, debug).
Proof.
  intros Hl Hc Hg. pose proof (len_nonneg debug). unfold h2o_http2_encode_goaway_frame.
  assert (Hw : wrap32 (- code) = - code) by (apply Z.mod_small; lia). rewrite Hw.
  set (p := h2o_http2_encode32u last_stream_id ++ h2o_http2_encode32u (- code) ++ debug).
  assert (Hp : len p = 8 + len debug) by (unfold p; rewrite !len_app; unfold len; simpl length; lia).
  destruct (control_frame_roundtrip buf H2O_HTTP2_FRAME_TYPE_GOAWAY 0 0 p rest 16384)
    as (f & -> & Hf); [done|done|lia|lia|lia|].
  eexists f, _, _. split_and!; [done|exact Hf|]. unfold h2o_http2_decode_goaway_payload.
  cbn [f_stream_id f_length f_payload]. rewrite Hp. destruct (Z.ltb_spec (8 + len debug) 8); [lia|].
  cbn [Z.eqb negb]. unfold p. change (drop 4 _) with (h2o_http2_encode32u (- code) ++ debug).
  rewrite !decode32u_encode, land_31, Hw. change (drop 8 _) with debug.
  replace (8 + len debug - 8) with (len debug) by lia. unfold len at 1. rewrite Nat2Z.id, firstn_all.
  unfold wrap32. rewrite (Z.mod_small last_stream_id (2 ^ 32)), Z.mod_small by lia. done.
Qed.

Lemma window_update_roundtrip buf rest stream_id increment :
  0 < stream_id < 2 ^ 31 -> 0 < increment < 2 ^ 31 ->
  exists f n fr, h2o_http2_encode_window_update_frame buf stream_id increment = Some (buf ++ f) /\
    h2o_http2_decode_frame (f ++ rest) 16384 = Ok (fr, n) /\ f_stream_id fr = stream_id /\
    h2o_http2_decode_window_update_payload fr = (Ok increment, false).
Proof.
  intros Hs Hi. unfold h2o_http2_encode_window_update_frame.
  destruct (control_frame_roundtrip buf H2O_HTTP2_FRAME_TYPE_WINDOW_UPDATE 0 stream_id
    (h2o_http2_encode32u increment) rest 16384) as (f & -> & Hf); [done|done|lia|done|lia|].
  eexists f, _, _. split_and!; [done|exact Hf|done|]. unfold h2o_http2_decode_window_update_payload.
  cbn [f_stream_id f_length f_payload]. rewrite decode32u_payload, land_31, Z.mod_small by lia.
  change (len (h2o_http2_encode32u increment)) with 4. by destruct (Z.eqb_spec increment 0); [lia|].
Qed.

(** ** Padding *)

(** [data] between its pad length and its padding. *)
Definition padded (payload data : bytes) : Prop :=
  exists padding, payload = len padding :: data ++ padding.

Lemma padded_take padlen rest data :
  0 <= padlen ->
  padded (padlen :: rest) data <-> padlen <= len rest /\ data = take (Z.to_nat (len rest - padlen)) rest.
Proof.
  intros Hp. split.
  - intros (padding & [= -> ->]). rewrite len_app. pose proof (len_nonneg data). split; [lia|].
    replace (len data + len padding - len padding) with (len data) by lia.
    unfold len. by rewrite Nat2Z.id, take_app_length.
  - intros [Hle ->]. exists (drop (Z.to_nat (len rest - padlen)) rest). rewrite take_drop. f_equal.
    unfold len in *. rewrite length_drop. lia.
Qed.

Lemma data_payload_padded frame data :
  bytes_ok (f_payload frame) -> len (f_payload frame) = f_length frame -> f_stream_id frame <> 0 ->
  h2o_http2_decode_data_payload frame = Ok data <->
  if has_flag frame H2O_HTTP2_FRAME_FLAG_PADDED then padded (f_payload frame) data
  else f_payload frame = data.
Proof.
  intros Hb Hl Hs. unfold h2o_http2_decode_data_payload. destruct (Z.eqb_spec (f_stream_id frame) 0); [done|].
  destruct (has_flag _ _).
  2:{ rewrite <- Hl. unfold len. rewrite Nat2Z.id, firstn_all. split; [by intros [= <-]|by intros ->]. }
  rewrite <- Hl. destruct (f_payload frame) as [|padlen rest] eqn:E.
  { split; [done|]. by intros [? ?]. }
  apply Forall_cons in Hb as [Hb _]. rewrite padded_take by (unfold is_byte in Hb; lia). rewrite len_cons.
  pose proof (len_nonneg rest). destruct (Z.ltb_spec (len rest + 1) 1); [lia|].
  change (at_ (padlen :: rest) 0) with padlen. change (drop 1 (padlen :: rest)) with (drop 0 rest).
  rewrite drop_0. replace (len rest + 1 - (1 + padlen)) with (len rest - padlen) by lia.
  destruct (Z.ltb_spec (len rest + 1) (1 + padlen)).
  - split; [done|]. intros [? _]. lia.
  - split; [intros [= <-]; split; [lia|done]|by intros [_ ->]].
Qed.

(** The header block after the padding and the five octets of the priority. *)
Definition prioritized (frame : h2o_http2_frame_t) (block : bytes) (p : h2o_http2_priority_t) (headers : bytes)
    : Prop :=
  if has_flag frame H2O_HTTP2_FRAME_FLAG_PRIORITY
  then 5 <= len block /\ decode_priority block = (p, headers)
  else p = h2o_http2_default_priority /\ headers = block.

Lemma headers_payload_padded frame p headers :
  bytes_ok (f_payload frame) -> f_stream_id frame <> 0 ->
  h2o_http2_decode_headers_payload frame = Ok (p, headers) <->
  exists block, prioritized frame block p headers /\
    if has_flag frame H2O_HTTP2_FRAME_FLAG_PADDED then padded (f_payload frame) block
    else f_payload frame = block.
Proof.
  intros Hb Hs. unfold h2o_http2_decode_headers_payload.
  destruct (Z.eqb_spec (f_stream_id frame) 0); [done|].
  assert (Hprio : forall block,
    (if has_flag frame H2O_HTTP2_FRAME_FLAG_PRIORITY
     then if len block <? 5 then Err (-1) None else Ok (decode_priority block)
     else Ok (h2o_http2_default_priority, block)) = Ok (p, headers) <->
    prioritized frame block p headers).
  { intros block. unfold prioritized. destruct (has_flag _ _).
    - destruct (Z.ltb_spec (len block) 5).
      + split; [done|]. intros [? _]. lia.
      + split; [intros Hd; split; [lia|congruence]|by intros [_ ->]].
    - split; [by intros [= <- <-]|by intros [-> ->]]. }
  destruct (has_flag frame H2O_HTTP2_FRAME_FLAG_PADDED).
  2:{ rewrite Hprio. split; [intros Hpr; by exists (f_payload frame)|]. by intros (? & ? & ->). }
  destruct (f_payload frame) as [|padlen rest] eqn:E.
  { split; [done|]. by intros (? & _ & ? & ?). }
  apply Forall_cons in Hb as [Hb _]. setoid_rewrite padded_take; [|unfold is_byte in Hb; lia].
  destruct (Z.ltb_spec (len rest) padlen).
  - split; [done|]. intros (? & _ & ? & _). lia.
  - rewrite Hprio. split; [intros Hpr; eexists; by split_and!|]. by intros (? & ? & _ & ->).
Qed.

(** ** Settings *)

(** The ranges RFC 7540 6.5.2 allows. *)
Definition settings_ok (s : h2o_http2_settings_t) : Prop :=
  0 <= header_table_size s <= UINT32_MAX /\ 0 <= enable_push s <= 1 /\
  0 <= max_concurrent_streams s <= UINT32_MAX /\ 0 <= initial_window_size s <= INT32_MAX /\
  16384 <= max_frame_size s <= 16777215.

Lemma apply_setting_ok s identifier value s' :
  settings_ok s -> apply_setting s identifier value = Ok s' -> settings_ok s'.
Proof.
  unfold settings_ok, apply_setting, set_setting, INT32_MAX. destruct s as [hts ep mcs iws mfs].
  cbn [header_table_size enable_push max_concurrent_streams initial_window_size max_frame_size].
  intros Hs Ha.
  repeat (destruct (identifier =? _);
    [destruct (negb ((_ <=? value) && (value <=? _))) eqn:Hr; [done|];
     apply negb_false_iff, andb_true_iff in Hr as [Hr1 Hr2];
     injection Ha as <-; cbn; lia|]).
  injection Ha as <-. cbn. lia.
Qed.

Lemma update_settings_loop_ok fuel : forall s src,
  settings_ok s -> settings_ok (update_peer_settings_loop fuel s src).1.1.
Proof.
  induction fuel as [|fuel IH]; intros s src Hs; simpl; [done|].
  destruct (6 <=? len src).
  - destruct (apply_setting s _ _) as [s'|] eqn:Ha; [|done]. apply IH. by eapply apply_setting_ok.
  - by destruct (negb (len src =? 0)).
Qed.

(** What a list of settings does: each in turn, up to the first refused one. *)
Fixpoint apply_settings (s : h2o_http2_settings_t) (kvs : list (Z * Z))
    : h2o_http2_settings_t * Z * option string :=
  match kvs with
  | [] => (s, 0, None)
  | (k, v) :: kvs =>
      match apply_setting s k v with
      | Err code desc => (s, code, desc)
      | Ok s => apply_settings s kvs
      end
  end.

Definition encode_kv (kv : Z * Z) : bytes := h2o_http2_encode16u kv.1 ++ h2o_http2_encode32u kv.2.

Lemma update_settings_encoded kvs : forall fuel s,
  (length kvs < fuel)%nat ->
  Forall (fun kv => 0 <= kv.1 < 2 ^ 16 /\ 0 <= kv.2 < 2 ^ 32) kvs ->
  update_peer_settings_loop fuel s (concat (map encode_kv kvs)) = apply_settings s kvs.
Proof.
  induction kvs as [|[k v] kvs IH]; intros [|fuel] s Hf Hok; simpl in Hf; try lia; [done|].
  inv Hok. cbn [map concat]. set (tl := concat (map encode_kv kvs)) in *.
  cbn [update_peer_settings_loop apply_settings].
  assert (Hl : len (encode_kv (k, v) ++ tl) = 6 + len tl) by (rewrite len_app; done).
  rewrite Hl. pose proof (len_nonneg tl). destruct (Z.leb_spec 6 (6 + len tl)); [|lia].
  assert (Hk : h2o_http2_decode16u (encode_kv (k, v) ++ tl) = k).
  { unfold encode_kv. rewrite <- app_assoc, decode16u_encode. apply Z.mod_small. simpl in *. lia. }
  assert (Hv : h2o_http2_decode32u (drop 2 (encode_kv (k, v) ++ tl)) = v).
  { change (drop 2 _) with (h2o_http2_encode32u v ++ tl). rewrite decode32u_encode.
    apply Z.mod_small. simpl in *. lia. }
  rewrite Hk, Hv. destruct (apply_setting s k v); [|done]. apply IH; [lia|done].
Qed.

Lemma length_encoded_kvs kvs : length (concat (map encode_kv kvs)) = (6 * length kvs)%nat.
Proof. induction kvs as [|kv kvs IH]; [done|]. cbn [map concat]. rewrite length_app, IH. simpl. lia. Qed.

(** ** Properties *)

(** A frame that [h2o_http2_decode_frame] accepts lies within the input, is no longer than the
    limit, has the payload its length announces and a 31-bit stream id, and is the same frame
    whatever octets follow. *)
Theorem decode_frame_within src max_size frame n :
  bytes_ok src -> h2o_http2_decode_frame src max_size = Ok (frame, n) ->
  n = 9 + f_length frame /\ n <= len src /\ 0 <= f_length frame <= max_size /\
  len (f_payload frame) = f_length frame /\ 0 <= f_stream_id frame < 2 ^ 31 /\
  (forall more, h2o_http2_decode_frame (src ++ more) max_size = Ok (frame, n)).
Proof. apply decode_frame_ok. Qed.

Lemma decode_frame_within_witness :
  let f := Frame 1 6 1 5 [42] in
  10 = 9 + f_length f /\ 10 <= len [0; 0; 1; 6; 1; 128; 0; 0; 5; 42; 7] /\ 0 <= f_length f <= 16384 /\
  len (f_payload f) = f_length f /\ 0 <= f_stream_id f < 2 ^ 31 /\
  (forall more, h2o_http2_decode_frame ([0; 0; 1; 6; 1; 128; 0; 0; 5; 42; 7] ++ more) 16384 = Ok (f, 10)).
Proof.
  cbv zeta. apply (decode_frame_within [0; 0; 1; 6; 1; 128; 0; 0; 5; 42; 7] 16384); [|reflexivity].
  repeat constructor; unfold is_byte; lia.
Defined.

(** The control frames the server writes are read back by the decoders of their payloads:
    RST_STREAM, PING, GOAWAY, WINDOW_UPDATE and SETTINGS carry what was given to the encoder
    (a GOAWAY its negated error code), and the frame is appended to the buffer. *)
Theorem control_frames_roundtrip buf rest stream_id errnum data last_stream_id code debug increment :
  0 < stream_id < 2 ^ 31 -> 0 <= errnum < 2 ^ 32 -> len data = 8 ->
  0 <= last_stream_id < 2 ^ 31 -> - 2 ^ 31 < code <= 0 -> len debug <= 1000 -> 0 < increment < 2 ^ 31 ->
  (exists f n fr, h2o_http2__encode_rst_stream_frame buf stream_id errnum = Some (buf ++ f) /\
     h2o_http2_decode_frame (f ++ rest) 16384 = Ok (fr, n) /\ f_stream_id fr = stream_id /\
     h2o_http2_decode_rst_stream_payload fr = Ok errnum) /\
  (exists f n fr, h2o_http2_encode_ping_frame buf true data = Some (buf ++ f) /\
     h2o_http2_decode_frame (f ++ rest) 16384 = Ok (fr, n) /\ has_flag fr H2O_HTTP2_FRAME_FLAG_ACK = true /\
     h2o_http2_decode_ping_payload fr = Ok data) /\
  (exists f n fr, h2o_http2_encode_goaway_frame buf last_stream_id code debug = Some (buf ++ f) /\
     h2o_http2_decode_frame (f ++ rest) 16384 = Ok (fr, n) /\
     h2o_http2_decode_goaway_payload fr = Ok (last_stream_id, - code, debug)) /\
  (exists f n fr, h2o_http2_encode_window_update_frame buf stream_id increment = Some (buf ++ f) /\
     h2o_http2_decode_frame (f ++ rest) 16384 = Ok (fr, n) /\ f_stream_id fr = stream_id /\
     h2o_http2_decode_window_update_payload fr = (Ok increment, false)).
Proof.
  intros Hs He Hd Hl Hc Hg Hi.
  split_and!; [by apply rst_stream_roundtrip|by apply ping_roundtrip|by apply goaway_roundtrip|
    by apply window_update_roundtrip].
Qed.

Lemma control_frames_roundtrip_witness :
  (exists f n fr, h2o_http2__encode_rst_stream_frame [] 3 8 = Some ([] ++ f) /\
     h2o_http2_decode_frame (f ++ []) 16384 = Ok (fr, n) /\ f_stream_id fr = 3 /\
     h2o_http2_decode_rst_stream_payload fr = Ok 8) /\
  (exists f n fr, h2o_http2_encode_ping_frame [] true [1; 2; 3; 4; 5; 6; 7; 8] = Some ([] ++ f) /\
     h2o_http2_decode_frame (f ++ []) 16384 = Ok (fr, n) /\ has_flag fr H2O_HTTP2_FRAME_FLAG_ACK = true /\
     h2o_http2_decode_ping_payload fr = Ok [1; 2; 3; 4; 5; 6; 7; 8]) /\
  (exists f n fr, h2o_http2_encode_goaway_frame [] 7 H2O_HTTP2_ERROR_PROTOCOL [] = Some ([] ++ f) /\
     h2o_http2_decode_frame (f ++ []) 16384 = Ok (fr, n) /\
     h2o_http2_decode_goaway_payload fr = Ok (7, - H2O_HTTP2_ERROR_PROTOCOL, [])) /\
  (exists f n fr, h2o_http2_encode_window_update_frame [] 3 100 = Some ([] ++ f) /\
     h2o_http2_decode_frame (f ++ []) 16384 = Ok (fr, n) /\ f_stream_id fr = 3 /\
     h2o_http2_decode_window_update_payload fr = (Ok 100, false)).
Proof.
  apply (control_frames_roundtrip [] [] 3 8 [1; 2; 3; 4; 5; 6; 7; 8] 7 H2O_HTTP2_ERROR_PROTOCOL [] 100);
    unfold H2O_HTTP2_ERROR_PROTOCOL; try lia; vm_compute; done.
Defined.

(** C40: the peer's settings stay in the ranges of RFC 7540 6.5.2 whatever payload is received, even
    when it is refused; and the settings a SETTINGS frame was built from are applied in order,
    up to the first that is out of range, which decides the error. *)
Theorem peer_settings_in_range s src kvs :
  settings_ok s ->
  settings_ok (h2o_http2_update_peer_settings s src).1.1 /\
  (Forall (fun kv => 0 <= kv.1 < 2 ^ 16 /\ 0 <= kv.2 < 2 ^ 32) kvs ->
   h2o_http2_update_peer_settings s
     (concat (map (fun kv => h2o_http2_encode16u kv.1 ++ h2o_http2_encode32u kv.2) kvs)) = apply_settings s kvs).
Proof.
  intros Hs. split; [by apply update_settings_loop_ok|]. intros Hk.
  unfold h2o_http2_update_peer_settings. apply update_settings_encoded; [|done].
  pose proof (length_encoded_kvs kvs) as Hl. unfold encode_kv in Hl. rewrite Hl. lia.
Qed.

Lemma peer_settings_in_range_witness :
  settings_ok (h2o_http2_update_peer_settings H2O_HTTP2_SETTINGS_DEFAULT [0; 4; 255; 255; 255; 255]).1.1 /\
  (Forall (fun kv => 0 <= kv.1 < 2 ^ 16 /\ 0 <= kv.2 < 2 ^ 32) [(4, 65536); (5, 1)] ->
   h2o_http2_update_peer_settings H2O_HTTP2_SETTINGS_DEFAULT
     (concat (map (fun kv => h2o_http2_encode16u kv.1 ++ h2o_http2_encode32u kv.2) [(4, 65536); (5, 1)]))
   = apply_settings H2O_HTTP2_SETTINGS_DEFAULT [(4, 65536); (5, 1)]).
Proof.
  apply (peer_settings_in_range H2O_HTTP2_SETTINGS_DEFAULT [0; 4; 255; 255; 255; 255] [(4, 65536); (5, 1)]).
  vm_compute. repeat split; discriminate.
Defined.

(** A DATA frame yields its data exactly when the padding its first octet announces fits: the
    payload is that octet, the data and the padding (or the data alone without the flag); a
    HEADERS frame likewise, with the priority read from the five octets in front. *)
Theorem padding_removed frame :
  bytes_ok (f_payload frame) -> len (f_payload frame) = f_length frame -> f_stream_id frame <> 0 ->
  (forall data, h2o_http2_decode_data_payload frame = Ok data <->
     if has_flag frame H2O_HTTP2_FRAME_FLAG_PADDED then padded (f_payload frame) data
     else f_payload frame = data) /\
  (forall p headers, h2o_http2_decode_headers_payload frame = Ok (p, headers) <->
     exists block, prioritized frame block p headers /\
       if has_flag frame H2O_HTTP2_FRAME_FLAG_PADDED then padded (f_payload frame) block
       else f_payload frame = block).
Proof.
  intros Hb Hl Hs. split; [by intros; apply data_payload_padded|by intros; apply headers_payload_padded].
Qed.

Lemma padding_removed_witness :
  let frame := Frame 4 0 0x8 1 [1; 7; 8; 0] in
  (forall data, h2o_http2_decode_data_payload frame = Ok data <->
     if has_flag frame H2O_HTTP2_FRAME_FLAG_PADDED then padded (f_payload frame) data
     else f_payload frame = data) /\
  (forall p headers, h2o_http2_decode_headers_payload frame = Ok (p, headers) <->
     exists block, prioritized frame block p headers /\
       if has_flag frame H2O_HTTP2_FRAME_FLAG_PADDED then padded (f_payload frame) block
       else f_payload frame = block).
Proof.
  cbv zeta. apply padding_removed; [repeat constructor; unfold is_byte; lia|reflexivity|discriminate].
Defined.
