(* ===== verification/Http3Frame.v ===== *)
(** * HTTP/3 frames (lib/http3/frame.c, h2o_http3_read_frame of lib/http3/common.c)

    With the variable-length integers of QUIC they are made of (ptls_encode_quicint and
    ptls_decode_quicint of deps/picotls, quicly_encodev_capacity of deps/quicly).  A failed
    decoding, [UINT64_MAX] in C, is [None]; where the pointer has moved before the failure and
    is used afterwards, the definition says so. *)
From S2P Require Import Prelude.
From Stdlib Require Import ZArith Lia.
From stdpp Require Import base list numbers option strings.
Open Scope Z_scope.

(** ** Variable-length integers *)

Definition UINT64_MAX : Z := 2 ^ 64 - 1.
Definition PTLS_QUICINT_MAX : Z := 4611686018427387903.

(** [do *p++ = (uint8_t)(v >> sb); while ((sb -= 8) != 0)] *)
Fixpoint quicint_tail (n : nat) (v : Z) : bytes :=
  match n with
  | O => []
  | S n' => wrap8 (Z.shiftr v (8 * Z.of_nat n)) :: quicint_tail n' v
  end.

(** [None]: the assertion on the range. *)
Definition ptls_encode_quicint (v : Z) : option bytes :=
  head ← (if 63 <? v then
            if 16383 <? v then
              if 1073741823 <? v then
                if v <=? 4611686018427387903
                then Some (Z.lor 0xc0 (wrap8 (Z.shiftr v 56)) :: quicint_tail 6 v)
                else None
              else Some (Z.lor 0x80 (wrap8 (Z.shiftr v 24)) :: quicint_tail 2 v)
            else Some [Z.lor 0x40 (wrap8 (Z.shiftr (wrap16 v) 8))]
          else Some []);
  Some (head ++ [wrap8 v]).

Fixpoint quicint_loop (n : nat) (v : Z) (src : bytes) : option (Z * bytes) :=
  match n, src with
  | O, _ => Some (v, src)
  | S n, b :: src => quicint_loop n (Z.lor (wrap64 (Z.shiftl v 8)) b) src
  | S _, [] => None
  end.

(** The value, [UINT64_MAX] on failure, and [*src] on return. *)
Definition ptls_decode_quicint (src : bytes) : Z * bytes :=
  match src with
  | [] => (UINT64_MAX, src)
  | b :: src =>
      if b <=? 0x3f then (b, src)
      else
        let v := Z.land b 0x3f in
        let bytes_left := Z.shiftl 1 (Z.shiftr b 6) - 1 in
        if len src <? bytes_left then (UINT64_MAX, src)
        else match quicint_loop (Z.to_nat bytes_left) v src with
             | Some r => r
             | None => (UINT64_MAX, src)
             end
  end.

Definition quicly_encodev_capacity (v : Z) : Z :=
  if 63 <? v then
    if 16383 <? v then
      if 1073741823 <? v then 8 else 4
    else 2
  else 1.

Definition quicly_stream_is_client_initiated (stream_id : Z) : bool :=
  if stream_id <? 0 then negb (Z.land stream_id 1 =? 0) else Z.land stream_id 1 =? 0.

Definition quicly_stream_is_unidirectional (stream_id : Z) : bool :=
  if stream_id <? 0 then false else negb (Z.land stream_id 2 =? 0).

(** ** Constants *)

Definition H2O_HTTP3_FRAME_TYPE_DATA : Z := 0.
Definition H2O_HTTP3_FRAME_TYPE_HEADERS : Z := 1.
Definition H2O_HTTP3_FRAME_TYPE_CANCEL_PUSH : Z := 3.
Definition H2O_HTTP3_FRAME_TYPE_SETTINGS : Z := 4.
Definition H2O_HTTP3_FRAME_TYPE_PUSH_PROMISE : Z := 5.
Definition H2O_HTTP3_FRAME_TYPE_GOAWAY : Z := 7.
Definition H2O_HTTP3_FRAME_TYPE_MAX_PUSH_ID : Z := 13.
Definition H2O_HTTP3_FRAME_TYPE_PRIORITY_UPDATE_REQUEST : Z := 0xF0700.
Definition H2O_HTTP3_FRAME_TYPE_PRIORITY_UPDATE_PUSH : Z := 0xF0701.

Definition QUICLY_ERROR_FROM_APPLICATION_ERROR_CODE (e : Z) : Z := e + 0x30000.
Definition H2O_HTTP3_ERROR_GENERAL_PROTOCOL : Z := QUICLY_ERROR_FROM_APPLICATION_ERROR_CODE 0x101.
Definition H2O_HTTP3_ERROR_FRAME_UNEXPECTED : Z := QUICLY_ERROR_FROM_APPLICATION_ERROR_CODE 0x105.
Definition H2O_HTTP3_ERROR_FRAME : Z := QUICLY_ERROR_FROM_APPLICATION_ERROR_CODE 0x106.
Definition H2O_HTTP3_ERROR_QPACK_DECOMPRESSION_FAILED : Z := QUICLY_ERROR_FROM_APPLICATION_ERROR_CODE 0x200.
Definition H2O_HTTP3_ERROR_QPACK_DECODER_STREAM : Z := QUICLY_ERROR_FROM_APPLICATION_ERROR_CODE 0x202.
Definition H2O_HTTP3_ERROR_INCOMPLETE : Z := -1.

(** The stream types that carry frames. *)
Inductive stream_type := H2O_HTTP3_STREAM_TYPE_CONTROL | H2O_HTTP3_STREAM_TYPE_REQUEST.

(** ** Reading a frame *)

Record h2o_http3_read_frame_t := H3Frame {
  h3_type : Z;
  h3_header_size : Z;
  h3_payload : option bytes; (* NULL for DATA *)
  h3_length : Z }.

(** The row of a frame type in the table of [h2o_http3_read_frame]: requests from clients,
    from servers, control streams of clients, of servers. *)
Definition frame_row (type : Z) : option (bool * bool * bool * bool) :=
  if type =? H2O_HTTP3_FRAME_TYPE_DATA then Some (true, true, false, false)
  else if type =? H2O_HTTP3_FRAME_TYPE_HEADERS then Some (true, true, false, false)
  else if type =? H2O_HTTP3_FRAME_TYPE_CANCEL_PUSH then Some (false, false, true, true)
  else if type =? H2O_HTTP3_FRAME_TYPE_SETTINGS then Some (false, false, true, true)
  else if type =? H2O_HTTP3_FRAME_TYPE_PUSH_PROMISE then Some (false, true, false, false)
  else if type =? H2O_HTTP3_FRAME_TYPE_GOAWAY then Some (false, false, true, true)
  else if type =? H2O_HTTP3_FRAME_TYPE_MAX_PUSH_ID then Some (false, false, true, false)
  else if type =? H2O_HTTP3_FRAME_TYPE_PRIORITY_UPDATE_REQUEST then Some (false, false, true, false)
  else if type =? H2O_HTTP3_FRAME_TYPE_PRIORITY_UPDATE_PUSH then Some (false, false, true, false)
  else None.

Definition frame_allowed (type : Z) (is_client : bool) (st : stream_type) : bool :=
  match frame_row type with
  | None => true
  | Some (req_clnt, req_srvr, ctl_clnt, ctl_srvr) =>
      match st with
      | H2O_HTTP3_STREAM_TYPE_REQUEST => (req_clnt && negb is_client) || (req_srvr && is_client)
      | H2O_HTTP3_STREAM_TYPE_CONTROL => (ctl_clnt && negb is_client) || (ctl_srvr && is_client)
      end
  end.

(** The frame and the octets after it. *)
Definition h2o_http3_read_frame (is_client : bool) (st : stream_type) (max_frame_payload_size : Z)
    (src0 : bytes) : res (h2o_http3_read_frame_t * bytes) :=
  let '(type, src) := ptls_decode_quicint src0 in
  if type =? UINT64_MAX then Err H2O_HTTP3_ERROR_INCOMPLETE None
  else
    let '(length, src) := ptls_decode_quicint src in
    if length =? UINT64_MAX then Err H2O_HTTP3_ERROR_INCOMPLETE None
    else
      let header_size := wrap8 (len src0 - len src) in
      let validate payload src :=
        if frame_allowed type is_client st then Ok (H3Frame type header_size payload length, src)
        else Err H2O_HTTP3_ERROR_FRAME_UNEXPECTED None in
      if negb (type =? H2O_HTTP3_FRAME_TYPE_DATA) then
        if max_frame_payload_size <? length
        then Err H2O_HTTP3_ERROR_GENERAL_PROTOCOL (Some "HTTP/3 frame is too large"%string)
        else if len src <? length then Err H2O_HTTP3_ERROR_INCOMPLETE None
        else validate (Some (take (Z.to_nat length) src)) (drop (Z.to_nat length) src)
      else validate None src.

(** ** PRIORITY_UPDATE and GOAWAY *)

Record h2o_http3_priority_update_frame_t := PriorityUpdate {
  pu_element_is_push : bool;
  pu_element : Z; (* a bit-field of 63 bits *)
  pu_value : bytes }.

Definition h2o_http3_priority_update_frame_capacity (frame : h2o_http3_priority_update_frame_t) : Z :=
  4 + 8 + 8 + len (pu_value frame).

(** The octets written, and how far the pointer that is returned has moved. *)
Definition h2o_http3_encode_priority_update_frame (frame : h2o_http3_priority_update_frame_t)
    : option (bytes * Z) :=
  t ← ptls_encode_quicint (if pu_element_is_push frame then H2O_HTTP3_FRAME_TYPE_PRIORITY_UPDATE_PUSH
                           else H2O_HTTP3_FRAME_TYPE_PRIORITY_UPDATE_REQUEST);
  l ← ptls_encode_quicint (quicly_encodev_capacity (pu_element frame) + len (pu_value frame));
  e ← ptls_encode_quicint (pu_element frame);
  Some (t ++ l ++ e ++ pu_value frame, len (t ++ l ++ e)).

(** The result of the decoding is assigned to the bit-field before it is compared. *)
Definition h2o_http3_decode_priority_update_frame (is_push : bool) (payload : bytes)
    : res h2o_http3_priority_update_frame_t :=
  match payload with
  | [] => Err H2O_HTTP3_ERROR_FRAME None
  | _ =>
      let '(decoded, src) := ptls_decode_quicint payload in
      let element := decoded mod 2 ^ 63 in
      if element =? UINT64_MAX then Err H2O_HTTP3_ERROR_FRAME (Some "invalid PRIORITY frame"%string)
      else if (if is_push
               then negb (negb (quicly_stream_is_client_initiated element) && quicly_stream_is_unidirectional element)
               else negb (quicly_stream_is_client_initiated element && negb (quicly_stream_is_unidirectional element)))
      then Err H2O_HTTP3_ERROR_FRAME None
      else Ok (PriorityUpdate is_push element src)
  end.

Definition h2o_http3_goaway_frame_capacity (stream_or_push_id : Z) : Z :=
  1 + 1 + quicly_encodev_capacity stream_or_push_id.

Definition h2o_http3_encode_goaway_frame (stream_or_push_id : Z) : option bytes :=
  id ← ptls_encode_quicint stream_or_push_id;
  Some (H2O_HTTP3_FRAME_TYPE_GOAWAY :: wrap8 (quicly_encodev_capacity stream_or_push_id) :: id).

Definition h2o_http3_decode_goaway_frame (payload : bytes) : res Z :=
  let '(id, src) := ptls_decode_quicint payload in
  if (id =? UINT64_MAX) || negb (len src =? 0)
  then Err H2O_HTTP3_ERROR_FRAME (Some "Invalid GOAWAY frame"%string)
  else Ok id.

(** ** Integers: round trip *)

Definition be (v : Z) (s : bytes) : Z := fold_left (fun v b => v * 256 + b) s v.

Lemma quicint_loop_be s : forall v t,
  bytes_ok s -> 0 <= v -> v * 256 ^ len s + 256 ^ len s <= 2 ^ 64 ->
  quicint_loop (length s) v (s ++ t) = Some (be v s, t).
Proof.
  induction s as [|b s IH]; intros v t Hs Hv Hb; [done|].
  apply Forall_cons in Hs as [Hbyte Hs]. rewrite len_cons in Hb. pose proof (len_nonneg s).
  replace (256 ^ (len s + 1)) with (256 * 256 ^ len s) in Hb by (rewrite Z.pow_add_r by lia; lia).
  assert (0 < 256 ^ len s) by (apply Z.pow_pos_nonneg; lia).
  assert (Hw : Z.lor (wrap64 (Z.shiftl v 8)) b = v * 256 + b).
  { rewrite wrap64_small by (rewrite Z.shiftl_mul_pow2 by lia; nia).
    rewrite lor_add_byte by done. rewrite Z.shiftl_mul_pow2 by lia. lia. }
  cbn [length app quicint_loop be fold_left]. rewrite Hw. apply IH; [done|unfold is_byte in *; lia|].
  unfold is_byte in Hbyte. nia.
Qed.

Lemma pow256 n : 0 <= n -> 2 ^ (8 * n) = 256 ^ n.
Proof. intros. by rewrite Z.pow_mul_r by lia. Qed.

Lemma shiftr_split v n : 0 <= n -> v mod 256 ^ (n + 1) = wrap8 (Z.shiftr v (8 * n)) * 256 ^ n + v mod 256 ^ n.
Proof.
  intros Hn. rewrite Z.shiftr_div_pow2 by lia. rewrite pow256 by lia.
  unfold wrap8. change (2 ^ 8) with 256.
  rewrite Z.pow_add_r by lia. change (256 ^ 1) with 256. rewrite Z.rem_mul_r by (try apply Z.pow_nonzero; lia). lia.
Qed.

Lemma be_tail n v : forall v0,
  be v0 (quicint_tail n v ++ [wrap8 v]) = v0 * 256 ^ (Z.of_nat n + 1) + v mod 256 ^ (Z.of_nat n + 1).
Proof.
  induction n as [|n IH]; intros v0; [done|].
  cbn [quicint_tail app]. cbn [be fold_left]. fold (be (v0 * 256 + wrap8 (Z.shiftr v (8 * Z.of_nat (S n)))) (quicint_tail n v ++ [wrap8 v])).
  rewrite IH. rewrite (shiftr_split v (Z.of_nat (S n))) by lia.
  replace (Z.of_nat (S n)) with (Z.of_nat n + 1) by lia.
  rewrite (Z.pow_add_r 256 (Z.of_nat n + 1) 1) by lia. lia.
Qed.

Lemma quicint_tail_ok n v : bytes_ok (quicint_tail n v ++ [wrap8 v]).
Proof. induction n; simpl; repeat constructor; auto with h2o; apply is_byte_wrap8. Qed.

Lemma quicint_tail_len n v : len (quicint_tail n v) = Z.of_nat n.
Proof. induction n as [|n IH]; [done|]. cbn [quicint_tail]. rewrite len_cons, IH. lia. Qed.

(** The first octet: the two bits of the length and the top of the value. *)
Lemma quicint_first_octet k h t rest :
  0 <= h < 64 -> 1 <= k <= 3 -> len t = Z.shiftl 1 k - 1 -> bytes_ok t -> h * 256 ^ len t + 256 ^ len t <= 2 ^ 64 ->
  ptls_decode_quicint (Z.lor (64 * k) h :: t ++ rest) = (be h t, rest).
Proof.
  intros Hh Hk Hl Ht Hb.
  assert (Ho : Z.lor (64 * k) h = 64 * k + h).
  { rewrite Z.lor_comm. replace (64 * k) with (Z.shiftl k 6) by (rewrite Z.shiftl_mul_pow2; lia).
    rewrite lor_shiftl_add by lia. lia. }
  rewrite Ho. cbn [ptls_decode_quicint]. destruct (Z.leb_spec (64 * k + h) 63); [lia|].
  replace (Z.land (64 * k + h) 63) with h
    by (rewrite (Z.land_ones _ 6) by lia; change (2 ^ 6) with 64; rewrite Z.add_comm, Z.mul_comm, Z.mod_add by lia;
        symmetry; apply Z.mod_small; lia).
  replace (Z.shiftr (64 * k + h) 6) with k
    by (rewrite Z.shiftr_div_pow2 by lia; change (2 ^ 6) with 64;
        rewrite Z.mul_comm, Z.add_comm, Z.div_add, (Z.div_small h) by lia; lia).
  rewrite <- Hl, len_app. pose proof (len_nonneg rest).
  destruct (Z.ltb_spec (len t + len rest) (len t)); [lia|].
  unfold len. rewrite Nat2Z.id. rewrite quicint_loop_be; [done|done|lia|done].
Qed.

Lemma shiftr_small v n m : 0 <= n -> 0 <= v < 2 ^ n * m -> 0 <= Z.shiftr v n < m.
Proof.
  intros Hn Hv. rewrite Z.shiftr_div_pow2 by lia. pose proof (Z.pow_pos_nonneg 2 n ltac:(lia) Hn).
  split; [apply Z.div_pos; lia|apply Z.div_lt_upper_bound; lia].
Qed.

Lemma quicint_value v n : 0 <= n -> 0 <= v -> Z.shiftr v (8 * n) * 256 ^ n + v mod 256 ^ n = v.
Proof.
  intros Hn Hv. rewrite Z.shiftr_div_pow2 by lia. rewrite pow256 by lia.
  pose proof (Z.div_mod v (256 ^ n) ltac:(apply Z.pow_nonzero; lia)). lia.
Qed.

Lemma decode_encode_long v n k rest :
  0 <= v < 64 * 256 ^ (Z.of_nat n + 1) -> 1 <= k <= 3 -> Z.of_nat n + 1 = Z.shiftl 1 k - 1 -> (n <= 6)%nat ->
  ptls_decode_quicint (Z.lor (64 * k) (Z.shiftr v (8 * (Z.of_nat n + 1))) :: (quicint_tail n v ++ [wrap8 v]) ++ rest) = (v, rest).
Proof.
  intros Hv Hk Hl Hn.
  assert (Hlen : len (quicint_tail n v ++ [wrap8 v]) = Z.of_nat n + 1) by (rewrite len_app, quicint_tail_len; done).
  assert (Hp : 0 < 256 ^ (Z.of_nat n + 1)) by (apply Z.pow_pos_nonneg; lia).
  assert (Hh : 0 <= Z.shiftr v (8 * (Z.of_nat n + 1)) < 64).
  { apply shiftr_small; [lia|]. rewrite pow256 by lia. lia. }
  rewrite quicint_first_octet; [|done|done|by rewrite Hlen|apply quicint_tail_ok|].
  - rewrite be_tail, quicint_value by lia. done.
  - rewrite Hlen. assert (256 ^ (Z.of_nat n + 1) <= 256 ^ 7) by (apply Z.pow_le_mono_r; lia).
    change (256 ^ 7) with (2 ^ 56) in *. change (2 ^ 64) with (256 * 2 ^ 56). nia.
Qed.

Lemma quicint_encode_spec v :
  0 <= v <= PTLS_QUICINT_MAX ->
  exists e, ptls_encode_quicint v = Some e /\ len e = quicly_encodev_capacity v /\ bytes_ok e /\
    forall t, ptls_decode_quicint (e ++ t) = (v, t).
Proof.
  unfold PTLS_QUICINT_MAX. intros Hv. unfold ptls_encode_quicint, quicly_encodev_capacity.
  assert (Hlong : forall n k, 1 <= k <= 3 -> Z.of_nat n + 1 = Z.shiftl 1 k - 1 -> (n <= 6)%nat -> v < 64 * 256 ^ (Z.of_nat n + 1) ->
    let e := (Z.lor (64 * k) (wrap8 (Z.shiftr v (8 * (Z.of_nat n + 1)))) :: quicint_tail n v) ++ [wrap8 v] in
    len e = Z.of_nat n + 2 /\ bytes_ok e /\ forall t, ptls_decode_quicint (e ++ t) = (v, t)).
  { intros n k Hk Hl Hn Hlt e.
    assert (Hh : 0 <= Z.shiftr v (8 * (Z.of_nat n + 1)) < 64) by (apply shiftr_small; [lia|rewrite pow256 by lia; lia]).
    subst e. rewrite wrap8_small by (unfold is_byte; lia). cbn [app]. split_and!.
    - rewrite len_cons, len_app, quicint_tail_len. change (len [wrap8 v]) with 1. lia.
    - constructor; [|apply quicint_tail_ok]. rewrite Z.lor_comm.
      replace (64 * k) with (Z.shiftl k 6) by (rewrite Z.shiftl_mul_pow2; lia).
      rewrite lor_shiftl_add by lia. rewrite Z.shiftl_mul_pow2 by lia. unfold is_byte. lia.
    - intros t. apply decode_encode_long; try lia. }
  destruct (Z.ltb_spec 63 v); [destruct (Z.ltb_spec 16383 v); [destruct (Z.ltb_spec 1073741823 v)|]|].
  - destruct (Z.leb_spec v 4611686018427387903); [|lia]. cbn [mbind option_bind].
    destruct (Hlong 6%nat 3) as (L1 & L2 & L3); [lia|done|lia|simpl; lia|]. eexists. split; [done|]. split_and!; [exact L1|exact L2|exact L3].
  - cbn [mbind option_bind].
    destruct (Hlong 2%nat 2) as (L1 & L2 & L3); [lia|done|lia|simpl; lia|]. eexists. split; [done|]. split_and!; [exact L1|exact L2|exact L3].
  - cbn [mbind option_bind]. replace (wrap16 v) with v by (unfold wrap16; rewrite Z.mod_small; lia).
    destruct (Hlong 0%nat 1) as (L1 & L2 & L3); [lia|done|lia|simpl; lia|]. eexists. split; [done|]. split_and!; [exact L1|exact L2|exact L3].
  - cbn [mbind option_bind app]. exists [wrap8 v]. rewrite wrap8_small by (unfold is_byte; lia).
    split_and!; [done|done|repeat constructor; lia|]. intros t. cbn. by destruct (Z.leb_spec v 63); [|lia].
Qed.

(** A decoded integer depends on its octets only. *)
Lemma quicint_decode_split src :
  bytes_ok src ->
  (ptls_decode_quicint src).1 = UINT64_MAX \/
  exists pre v rest, src = pre ++ rest /\ pre <> [] /\ 0 <= v <= PTLS_QUICINT_MAX /\
    forall t, ptls_decode_quicint (pre ++ t) = (v, t).
Proof.
  intros Hs. destruct src as [|b src]; [by left|]. apply Forall_cons in Hs as [Hb Hs].
  cbn [ptls_decode_quicint]. destruct (Z.leb_spec b 63) as [Hsmall|Hbig].
  { right. exists [b], b, src. split_and!; [done|done|unfold is_byte in Hb; lia|unfold PTLS_QUICINT_MAX; lia|].
    intros t. cbn. by destruct (Z.leb_spec b 63); [|lia]. }
  set (n := Z.shiftl 1 (Z.shiftr b 6) - 1). destruct (Z.ltb_spec (len src) n) as [|Hlen]; [by left|]. right.
  unfold is_byte in Hb.
  assert (Hk : 1 <= Z.shiftr b 6 <= 3).
  { rewrite Z.shiftr_div_pow2 by lia. change (2 ^ 6) with 64. Z.div_mod_to_equations. lia. }
  assert (Hn : n = 1 \/ n = 3 \/ n = 7).
  { subst n. assert (Z.shiftr b 6 = 1 \/ Z.shiftr b 6 = 2 \/ Z.shiftr b 6 = 3) as [-> | [-> | ->]] by lia; [left|right;left|right;right]; done. }
  assert (Hh : 0 <= Z.land b 63 < 64) by (change 63 with (Z.ones 6); rewrite Z.land_ones by lia; apply Z.mod_pos_bound; lia).
  set (t0 := take (Z.to_nat n) src).
  assert (Ht0 : length t0 = Z.to_nat n) by (subst t0; rewrite length_take; unfold len in Hlen; lia).
  assert (Hl0 : len t0 = n) by (unfold len; lia).
  assert (Hok : bytes_ok t0) by (by apply Forall_take).
  assert (Hpow : 256 ^ n <= 256 ^ 7) by (apply Z.pow_le_mono_r; lia).
  exists (b :: t0), (be (Z.land b 63) t0), (drop (Z.to_nat n) src).
  assert (Hbe : 0 <= be (Z.land b 63) t0 < 64 * 256 ^ n).
  { rewrite <- Hl0. clear -Hh Hok. revert Hh. generalize 64 as m. generalize (Z.land b 63) as v.
    induction Hok as [|x t0 Hx Hok IH]; intros v m Hv; [unfold be; cbn [fold_left]; change (len (@nil Z)) with 0; change (256 ^ 0) with 1; lia|]. cbn [be fold_left]. rewrite len_cons, Z.pow_add_r by (try apply len_nonneg; lia).
    change (256 ^ 1) with 256. unfold is_byte in Hx.
    specialize (IH (v * 256 + x) (m * 256) ltac:(lia)). unfold be in IH. lia. }
  split_and!.
  - cbn. f_equal. symmetry. apply take_drop.
  - done.
  - lia.
  - change (256 ^ 7) with (2 ^ 56) in Hpow. unfold PTLS_QUICINT_MAX. lia.
  - intros t. cbn [app ptls_decode_quicint]. destruct (Z.leb_spec b 63); [lia|]. fold n.
    rewrite len_app, Hl0. pose proof (len_nonneg t). destruct (Z.ltb_spec (n + len t) n); [lia|].
    rewrite <- Ht0, quicint_loop_be; [done|done|lia|]. rewrite Hl0. change (256 ^ 7) with (2 ^ 56) in Hpow.
    change (2 ^ 64) with (256 * 2 ^ 56). assert (0 < 256 ^ n) by (apply Z.pow_pos_nonneg; lia). nia.
Qed.

(** ** Reading frames *)

Lemma quicint_decoded src v rest :
  bytes_ok src -> ptls_decode_quicint src = (v, rest) -> v <> UINT64_MAX ->
  exists pre, src = pre ++ rest /\ pre <> [] /\ 0 <= v <= PTLS_QUICINT_MAX /\
    forall t, ptls_decode_quicint (pre ++ t) = (v, t).
Proof.
  intros Hs H Hv. destruct (quicint_decode_split src Hs) as [Hm|(pre & w & r & -> & Hne & Hr & Ht)].
  - by rewrite H in Hm.
  - rewrite Ht in H. injection H as -> ->. by exists pre.
Qed.

(** Both integers of a frame header, read; the rest of the function does not depend on where
    the input ends. *)
Lemma read_header src :
  bytes_ok src ->
  (forall c st m, h2o_http3_read_frame c st m src = Err H2O_HTTP3_ERROR_INCOMPLETE None) \/
  exists pre type length rest, src = pre ++ rest /\ pre <> [] /\ 0 <= type /\ 0 <= length <= PTLS_QUICINT_MAX /\
    forall c st m t,
      h2o_http3_read_frame c st m (pre ++ t) =
      let validate payload src :=
        if frame_allowed type c st then Ok (H3Frame type (wrap8 (len pre)) payload length, src)
        else Err H2O_HTTP3_ERROR_FRAME_UNEXPECTED None in
      if negb (type =? H2O_HTTP3_FRAME_TYPE_DATA) then
        if m <? length then Err H2O_HTTP3_ERROR_GENERAL_PROTOCOL (Some "HTTP/3 frame is too large"%string)
        else if len t <? length then Err H2O_HTTP3_ERROR_INCOMPLETE None
        else validate (Some (take (Z.to_nat length) t)) (drop (Z.to_nat length) t)
      else validate None t.
Proof.
  intros Hs. destruct (ptls_decode_quicint src) as [type r1] eqn:E1.
  destruct (Z.eq_dec type UINT64_MAX) as [->|Hty].
  { left. intros. unfold h2o_http3_read_frame. by rewrite E1. }
  destruct (quicint_decoded _ _ _ Hs E1 Hty) as (p1 & -> & Hne & Hr1 & Ht1).
  apply Forall_app in Hs as [_ Hs]. destruct (ptls_decode_quicint r1) as [length r2] eqn:E2.
  assert (Hnm : forall v, 0 <= v <= PTLS_QUICINT_MAX -> (v =? UINT64_MAX) = false)
    by (unfold PTLS_QUICINT_MAX, UINT64_MAX; intros; lia).
  destruct (Z.eq_dec length UINT64_MAX) as [->|Hle].
  { left. intros. unfold h2o_http3_read_frame. rewrite Ht1, Hnm, E2 by done. done. }
  destruct (quicint_decoded _ _ _ Hs E2 Hle) as (p2 & -> & _ & Hr2 & Ht2).
  right. exists (p1 ++ p2), type, length, r2. split_and!; [by rewrite <- app_assoc|by destruct p1|lia|lia|lia|].
  intros c st m t. unfold h2o_http3_read_frame. rewrite <- app_assoc, Ht1, Hnm, Ht2, Hnm by done.
  replace (len (p1 ++ p2 ++ t) - len t) with (len (p1 ++ p2)) by (rewrite !len_app; lia). done.
Qed.

Lemma read_frame_ok c st m src f rest :
  bytes_ok src -> h2o_http3_read_frame c st m src = Ok (f, rest) ->
  exists pre, src = pre ++ rest /\ pre <> [] /\
    (forall p, h3_payload f = Some p -> len p = h3_length f /\ h3_length f <= m) /\
    forall t, h2o_http3_read_frame c st m (pre ++ t) = Ok (f, t).
Proof.
  intros Hs H. destruct (read_header src Hs) as [Hi|(pre & type & length & r & -> & Hne & _ & Hl & Ht)]; [by rewrite Hi in H|].
  rewrite Ht in H. cbv zeta in H. destruct (negb (type =? H2O_HTTP3_FRAME_TYPE_DATA)) eqn:Et.
  - destruct (Z.ltb_spec m length) as [|Hm]; [done|]. destruct (Z.ltb_spec (len r) length) as [|Hlen]; [done|].
    destruct (frame_allowed type c st) eqn:Ea; [|done]. injection H as <- <-.
    assert (Htl : len (take (Z.to_nat length) r) = length) by (unfold len in *; rewrite length_take; lia).
    exists (pre ++ take (Z.to_nat length) r). split_and!; [by rewrite <- app_assoc, take_drop|by destruct pre| |].
    + intros p [= <-]. done.
    + intros t. rewrite <- app_assoc, Ht. cbv beta zeta. rewrite Ea. destruct (Z.ltb_spec m length); [lia|].
      rewrite len_app, Htl. pose proof (len_nonneg t). destruct (Z.ltb_spec (length + len t) length); [lia|].
      assert (Hn : Datatypes.length (take (Z.to_nat length) r) = Z.to_nat length) by (unfold len in *; lia).
      rewrite <- Hn at 1 3. by rewrite take_app_length, drop_app_length.
  - destruct (frame_allowed type c st) eqn:Ea; [|done]. injection H as <- <-.
    exists pre. split_and!; [done|done|done|]. intros t. rewrite Ht. cbv beta zeta. by rewrite Ea.
Qed.

Lemma read_frame_err c st m src code d t :
  bytes_ok src -> h2o_http3_read_frame c st m src = Err code d -> code <> H2O_HTTP3_ERROR_INCOMPLETE ->
  h2o_http3_read_frame c st m (src ++ t) = Err code d.
Proof.
  intros Hs H Hc. destruct (read_header src Hs) as [Hi|(pre & type & length & r & -> & _ & _ & _ & Ht)].
  { rewrite Hi in H. congruence. }
  rewrite <- app_assoc, Ht. rewrite Ht in H. cbv zeta in *.
  destruct (negb (type =? H2O_HTTP3_FRAME_TYPE_DATA)); [|by destruct (frame_allowed type c st)].
  destruct (m <? length); [done|]. destruct (Z.ltb_spec (len r) length) as [|Hlen]; [congruence|].
  rewrite len_app. pose proof (len_nonneg t). destruct (Z.ltb_spec (len r + len t) length); [lia|].
  by destruct (frame_allowed type c st).
Qed.

Lemma read_encoded_frame c st m type (t l p rest : bytes) :
  0 <= type <= PTLS_QUICINT_MAX -> type <> H2O_HTTP3_FRAME_TYPE_DATA -> frame_allowed type c st = true ->
  ptls_encode_quicint type = Some t -> ptls_encode_quicint (len p) = Some l -> len p <= m -> len p <= PTLS_QUICINT_MAX ->
  exists h, h2o_http3_read_frame c st m (t ++ l ++ p ++ rest) = Ok (H3Frame type h (Some p) (len p), rest).
Proof.
  intros Hty Hne Ha Et El Hm Hl. pose proof (len_nonneg p) as Hp.
  destruct (quicint_encode_spec type Hty) as (t' & Et' & _ & _ & Ht). rewrite Et in Et'. injection Et' as <-.
  destruct (quicint_encode_spec (len p) (conj Hp Hl)) as (l' & El' & _ & _ & Hl'). rewrite El in El'. injection El' as <-.
  unfold h2o_http3_read_frame. rewrite Ht, Hl'.
  assert (Hnm : forall v, 0 <= v <= PTLS_QUICINT_MAX -> (v =? UINT64_MAX) = false)
    by (unfold PTLS_QUICINT_MAX, UINT64_MAX; intros; lia).
  rewrite !Hnm by lia. cbv zeta. destruct (Z.eqb_spec type H2O_HTTP3_FRAME_TYPE_DATA); [done|]. cbn [negb].
  destruct (Z.ltb_spec m (len p)); [lia|]. rewrite len_app. pose proof (len_nonneg rest).
  destruct (Z.ltb_spec (len p + len rest) (len p)); [lia|]. rewrite Ha.
  replace (Z.to_nat (len p)) with (length p) by (unfold len; lia). rewrite take_app_length, drop_app_length. by eexists.
Qed.

Lemma goaway_frame id rest c m :
  0 <= id <= PTLS_QUICINT_MAX -> 8 <= m ->
  exists f frame p, h2o_http3_encode_goaway_frame id = Some f /\ len f = h2o_http3_goaway_frame_capacity id /\
    h2o_http3_read_frame c H2O_HTTP3_STREAM_TYPE_CONTROL m (f ++ rest) = Ok (frame, rest) /\
    h3_type frame = H2O_HTTP3_FRAME_TYPE_GOAWAY /\ h3_payload frame = Some p /\
    h2o_http3_decode_goaway_frame p = Ok id.
Proof.
  intros Hid Hm. destruct (quicint_encode_spec id Hid) as (e & He & Hl & Hok & Hd).
  unfold h2o_http3_encode_goaway_frame, h2o_http3_goaway_frame_capacity. rewrite He. cbn [mbind option_bind].
  assert (Hcap : 1 <= quicly_encodev_capacity id <= 8) by (unfold quicly_encodev_capacity; bcase; lia).
  rewrite wrap8_small by (unfold is_byte; lia).
  destruct (read_encoded_frame c H2O_HTTP3_STREAM_TYPE_CONTROL m H2O_HTTP3_FRAME_TYPE_GOAWAY [7] [len e] e rest)
    as (h & Hr); try (unfold PTLS_QUICINT_MAX, H2O_HTTP3_FRAME_TYPE_GOAWAY in *; lia || done).
  { by destruct c. }
  { unfold ptls_encode_quicint. destruct (Z.ltb_spec 63 (len e)); [lia|]. cbn. by rewrite wrap8_small by (unfold is_byte; lia). }
  rewrite <- Hl. do 3 eexists. split; [done|]. split; [rewrite !len_cons; lia|]. split; [exact Hr|].
  split_and!; [done|done|]. unfold h2o_http3_decode_goaway_frame. pose proof (Hd []) as Hd0. rewrite app_nil_r in Hd0.
  rewrite Hd0. unfold UINT64_MAX, PTLS_QUICINT_MAX in *. by destruct (Z.eqb_spec id (2 ^ 64 - 1)); [lia|].
Qed.

(** ** Properties *)

(** Reading a frame does not depend on how the stream was cut.  A frame that is read takes at
    least one octet and is read in the same way whatever follows it, its payload has the
    length announced and is within the limit; an error other than "incomplete" is final, more
    input gives the same error; so only "incomplete" waits for more. *)
Theorem read_frame_incremental c st m src :
  bytes_ok src ->
  match h2o_http3_read_frame c st m src with
  | Ok (f, rest) => exists pre, src = pre ++ rest /\ pre <> [] /\
      (forall p, h3_payload f = Some p -> len p = h3_length f /\ h3_length f <= m) /\
      forall t, h2o_http3_read_frame c st m (pre ++ t) = Ok (f, t)
  | Err code d => code <> H2O_HTTP3_ERROR_INCOMPLETE ->
      forall t, h2o_http3_read_frame c st m (src ++ t) = Err code d
  end.
Proof.
  intros Hs. destruct (h2o_http3_read_frame c st m src) as [[f rest]|code d] eqn:E.
  - by apply read_frame_ok.
  - intros Hc t. by apply read_frame_err.
Qed.

Lemma read_frame_incremental_witness :
  match h2o_http3_read_frame false H2O_HTTP3_STREAM_TYPE_REQUEST 16384 [1; 2; 0; 0; 9] with
  | Ok (f, rest) => exists pre, [1; 2; 0; 0; 9] = pre ++ rest /\ pre <> [] /\
      (forall p, h3_payload f = Some p -> len p = h3_length f /\ h3_length f <= 16384) /\
      forall t, h2o_http3_read_frame false H2O_HTTP3_STREAM_TYPE_REQUEST 16384 (pre ++ t) = Ok (f, t)
  | Err code d => code <> H2O_HTTP3_ERROR_INCOMPLETE ->
      forall t, h2o_http3_read_frame false H2O_HTTP3_STREAM_TYPE_REQUEST 16384 ([1; 2; 0; 0; 9] ++ t) = Err code d
  end.
Proof. apply read_frame_incremental. by apply bytes_okb. Defined.

(** A GOAWAY frame for any identifier takes the octets its capacity says, is read back from a
    control stream on either side whatever follows it, and decodes to the identifier. *)
Theorem h3_goaway_roundtrip id rest c m :
  0 <= id <= PTLS_QUICINT_MAX -> 8 <= m ->
  exists f frame p, h2o_http3_encode_goaway_frame id = Some f /\ len f = h2o_http3_goaway_frame_capacity id /\
    h2o_http3_read_frame c H2O_HTTP3_STREAM_TYPE_CONTROL m (f ++ rest) = Ok (frame, rest) /\
    h3_type frame = H2O_HTTP3_FRAME_TYPE_GOAWAY /\ h3_payload frame = Some p /\
    h2o_http3_decode_goaway_frame p = Ok id.
Proof. apply goaway_frame. Qed.

Lemma h3_goaway_roundtrip_witness :
  exists f frame p, h2o_http3_encode_goaway_frame 70000 = Some f /\ len f = h2o_http3_goaway_frame_capacity 70000 /\
    h2o_http3_read_frame true H2O_HTTP3_STREAM_TYPE_CONTROL 16384 (f ++ [1]) = Ok (frame, [1]) /\
    h3_type frame = H2O_HTTP3_FRAME_TYPE_GOAWAY /\ h3_payload frame = Some p /\
    h2o_http3_decode_goaway_frame p = Ok 70000.
Proof. apply (h3_goaway_roundtrip 70000 [1] true 16384); unfold PTLS_QUICINT_MAX; lia. Defined.

(** The pointer that [h2o_http3_encode_priority_update_frame] returns stops before the value. *)
Example priority_update_value_lost :
  h2o_http3_encode_priority_update_frame (PriorityUpdate false 4 (lit "u=1"))
    = Some ([128; 15; 7; 0; 4; 4] ++ lit "u=1", 6).
Proof. vm_compute. reflexivity. Qed.

(** A truncated integer is not noticed: the bit-field never equals [UINT64_MAX], and the value it
    then has looks like a push stream. *)
Example priority_update_truncated :
  h2o_http3_decode_priority_update_frame true [0xc0] = Ok (PriorityUpdate true (2 ^ 63 - 1) []).
Proof. vm_compute. reflexivity. Qed.
