(* ===== verification/HpackFlatten.v ===== *)
(** * HPACK: header blocks (lib/http2/hpack.c)

    The functions that write a request, a push promise, a response or trailers: pseudo
    headers, the header list, and the frames that carry the block.  The octets a function
    writes at [dst] are its result; the write buffer [*buf] is the list of its octets. *)
From S2P Require Import Prelude Strings Tokens HpackInt Huffman HuffmanEnc HeaderTable Headers Url Hpack.
From S2P Require Import HpackString HpackSync Http2Frame.
From Stdlib Require Import ZArith Lia.
From stdpp Require Import base list numbers option strings.
Open Scope Z_scope.

(** ** Pseudo headers *)

(** [None]: the assertion fails. *)
Definition encode_status (status : Z) : option bytes :=
  if negb ((100 <=? status) && (status <=? 999)) then None
  else Some (
    if status =? 200 then [Z.lor 0x80 8]
    else if status =? 204 then [Z.lor 0x80 9]
    else if status =? 206 then [Z.lor 0x80 10]
    else if status =? 304 then [Z.lor 0x80 11]
    else if status =? 400 then [Z.lor 0x80 12]
    else if status =? 404 then [Z.lor 0x80 13]
    else if status =? 500 then [Z.lor 0x80 14]
    else 8 :: 3 :: decimal 3 status).

Definition encode_content_length (value : Z) : bytes :=
  let digits := decimal 20 value in
  0x0f :: 0x0d :: wrap8 (len digits) :: digits.

(** ** The encoder's state: the table and the octets written so far *)

Definition writer (A : Type) : Type := header_table -> option (A * header_table).

Definition encode_header (header : h2o_header_t) : writer bytes := fun table =>
  do_encode_header table (h_name header) (h_value header) (h_dont_compress header).

Definition encode_header_token (t : Z) (value : bytes) : writer bytes := fun table =>
  do_encode_header table (NTok t) value (tok_dont_compress (tok_flags (token t))).

Definition encode_method (value : bytes) : writer bytes := fun table =>
  if bool_decide (value = lit "GET") then Some ([0x82], table)
  else if bool_decide (value = lit "POST") then Some ([0x83], table)
  else encode_header_token H2O_TOKEN_METHOD value table.

Definition encode_scheme (scheme : h2o_url_scheme_t) : writer bytes := fun table =>
  if bool_decide (scheme = H2O_URL_SCHEME_HTTPS) then Some ([0x87], table)
  else if bool_decide (scheme = H2O_URL_SCHEME_HTTP) then Some ([0x86], table)
  else encode_header_token H2O_TOKEN_SCHEME (scheme_name scheme) table.

Definition encode_path (value : bytes) : writer bytes := fun table =>
  if bool_decide (value = lit "/") then Some ([0x84], table)
  else if bool_decide (value = lit "/index.html") then Some ([0x85], table)
  else encode_header_token H2O_TOKEN_PATH value table.

Definition encode_literal_header_without_indexing (name value : bytes) : bytes :=
  0 :: h2o_hpack_encode_string name ++ h2o_hpack_encode_string value.

(** One writer after the other. *)
Definition wnil : writer bytes := fun table => Some ([], table).
Definition wret (out : bytes) : writer bytes := fun table => Some (out, table).
Definition wapp (a b : writer bytes) : writer bytes := fun table =>
  '(out, table) ← a table; '(out', table) ← b table; Some (out ++ out', table).
Declare Scope writer_scope.
Delimit Scope writer_scope with writer.
Infix "+++" := wapp (at level 60, right associativity) : writer_scope.
Open Scope writer_scope.

Definition wseq {A} (f : A -> writer bytes) (l : list A) : writer bytes :=
  foldr (fun x w => f x +++ w) wnil l.

(** The loop body of requests and push promises. *)
Definition encode_request_header (header : h2o_header_t) : writer bytes :=
  if bool_decide (h_name header = NTok H2O_TOKEN_ACCEPT_ENCODING)
     && bool_decide (h_value header = lit "gzip, deflate")
  then wret [0x90] else encode_header header.

(** ** Capacities *)

Definition H2O_HPACK_ENCODE_INT_MAX_LENGTH : Z := 10.
Definition DYNAMIC_TABLE_SIZE_UPDATE_MAX_SIZE : Z := 5.
Definition STATUS_HEADER_MAX_SIZE : Z := 5.
Definition CONTENT_LENGTH_HEADER_MAX_SIZE : Z := 3 + 20.

Definition calc_capacity (name_len value_len : Z) : Z :=
  name_len + value_len + 1 + H2O_HPACK_ENCODE_INT_MAX_LENGTH * 2.

Definition calc_headers_capacity (headers : h2o_headers_t) : Z :=
  foldr (fun header capacity =>
    calc_capacity (len (name_bytes (h_name header))) (len (h_value header)) + capacity) 0 headers.

Definition token_capacity (t : Z) (value : bytes) : Z :=
  calc_capacity (len (tok_buf (token t))) (len value).

(** ** Frames *)

(** The loop that inserts CONTINUATION headers; [rest] are the octets from [off] on. *)
Fixpoint continuation_loop (fuel : nat) (rest : bytes) (stream_id max_frame_size : Z) : option bytes :=
  match fuel with
  | O => None
  | S fuel =>
      let left := len rest in
      if left <=? max_frame_size then
        header ← h2o_http2_encode_frame_header left H2O_HTTP2_FRAME_TYPE_CONTINUATION
                   H2O_HTTP2_FRAME_FLAG_END_HEADERS stream_id;
        Some (header ++ rest)
      else
        header ← h2o_http2_encode_frame_header max_frame_size H2O_HTTP2_FRAME_TYPE_CONTINUATION 0 stream_id;
        frames ← continuation_loop fuel (drop (Z.to_nat max_frame_size) rest) stream_id max_frame_size;
        Some (header ++ take (Z.to_nat max_frame_size) rest ++ frames)
  end.

(** [before] is the buffer up to [start_at] and [payload] what follows the room for the first
    frame header. *)
Definition fixup_frame_headers (before payload : bytes) (type stream_id max_frame_size flags : Z)
    : option bytes :=
  let payload_size := len payload in
  if payload_size <=? max_frame_size then
    header ← h2o_http2_encode_frame_header payload_size type
               (Z.lor H2O_HTTP2_FRAME_FLAG_END_HEADERS flags) stream_id;
    Some (before ++ header ++ payload)
  else
    header ← h2o_http2_encode_frame_header max_frame_size type flags stream_id;
    frames ← continuation_loop (length payload) (drop (Z.to_nat max_frame_size) payload) stream_id max_frame_size;
    Some (before ++ header ++ take (Z.to_nat max_frame_size) payload ++ frames).

(** ** Messages *)

(** The block of a message, the capacity reserved for it (frame header included), the buffer
    and the table on return. *)
Record flattened := Flattened {
  fl_block : bytes;
  fl_capacity : Z;
  fl_buf : bytes;
  fl_table : header_table }.

Definition flatten (buf : bytes) (table : header_table) (capacity : Z) (w : writer bytes)
    (type stream_id max_frame_size flags : Z) : option flattened :=
  '(block, table) ← w table;
  buf ← fixup_frame_headers buf block type stream_id max_frame_size flags;
  Some (Flattened block capacity buf table).

Definition header_table_adjust (hpack_capacity : Z) : writer bytes := fun table =>
  header_table_adjust_size table hpack_capacity.

Definition hundred_continue : bytes := lit "100-continue".

Record flatten_request_args := FlattenRequest {
  fr_method : bytes;
  fr_scheme : h2o_url_scheme_t;
  fr_authority : bytes;
  fr_path : bytes;
  fr_protocol : option bytes; (* [protocol.base] may be NULL *)
  fr_headers : h2o_headers_t;
  fr_is_end_stream : bool;
  fr_send_own_expect : bool }.

Definition old_style_connect (a : flatten_request_args) : bool :=
  bool_decide (fr_method a = lit "CONNECT") && bool_decide (fr_protocol a = None).

Definition request_capacity (a : flatten_request_args) : Z :=
  calc_headers_capacity (fr_headers a) + H2O_HTTP2_FRAME_HEADER_SIZE
  + DYNAMIC_TABLE_SIZE_UPDATE_MAX_SIZE
  + token_capacity H2O_TOKEN_METHOD (fr_method a)
  + (if negb (old_style_connect a) then token_capacity H2O_TOKEN_SCHEME (scheme_name (fr_scheme a)) else 0)
  + token_capacity H2O_TOKEN_AUTHORITY (fr_authority a)
  + (if negb (old_style_connect a) then token_capacity H2O_TOKEN_PATH (fr_path a) else 0)
  + token_capacity H2O_TOKEN_PROTOCOL (default [] (fr_protocol a))
  + (if fr_send_own_expect a then token_capacity H2O_TOKEN_EXPECT hundred_continue else 0).

Definition request_block (hpack_capacity : Z) (a : flatten_request_args) : writer bytes :=
  header_table_adjust hpack_capacity
  +++ encode_method (fr_method a)
  +++ (if negb (old_style_connect a) then encode_scheme (fr_scheme a) else wnil)
  +++ encode_header_token H2O_TOKEN_AUTHORITY (fr_authority a)
  +++ (if negb (old_style_connect a) then encode_path (fr_path a) else wnil)
  +++ (match fr_protocol a with
       | Some protocol => encode_header (Header (NTok H2O_TOKEN_PROTOCOL) None protocol false)
       | None => wnil
       end)
  +++ (if fr_send_own_expect a then encode_header_token H2O_TOKEN_EXPECT hundred_continue else wnil)
  +++ wseq encode_request_header (fr_headers a).

Definition h2o_hpack_flatten_request (buf : bytes) (table : header_table)
    (hpack_capacity stream_id max_frame_size : Z) (a : flatten_request_args) : option flattened :=
  flatten buf table (request_capacity a) (request_block hpack_capacity a)
    H2O_HTTP2_FRAME_TYPE_HEADERS stream_id max_frame_size
    (if fr_is_end_stream a then H2O_HTTP2_FRAME_FLAG_END_STREAM else 0).

Definition h2o_hpack_flatten_push_promise (buf : bytes) (table : header_table)
    (hpack_capacity stream_id max_frame_size : Z) (scheme : h2o_url_scheme_t)
    (authority method path : bytes) (headers : h2o_headers_t) (parent_stream_id : Z) : option flattened :=
  flatten buf table
    (calc_headers_capacity headers + (H2O_HTTP2_FRAME_HEADER_SIZE + 4)
     + DYNAMIC_TABLE_SIZE_UPDATE_MAX_SIZE
     + token_capacity H2O_TOKEN_METHOD method + token_capacity H2O_TOKEN_SCHEME (scheme_name scheme)
     + token_capacity H2O_TOKEN_AUTHORITY authority + token_capacity H2O_TOKEN_PATH path)
    (wret (h2o_http2_encode32u stream_id)
     +++ header_table_adjust hpack_capacity
     +++ encode_method method
     +++ encode_scheme scheme
     +++ encode_header_token H2O_TOKEN_AUTHORITY authority
     +++ encode_path path
     +++ wseq encode_request_header headers)
    H2O_HTTP2_FRAME_TYPE_PUSH_PROMISE parent_stream_id max_frame_size 0.

(** [server_name] is [None] for NULL; [content_length] may be [SIZE_MAX]. *)
Definition response_capacity (headers : h2o_headers_t) (server_name : option bytes)
    (content_length : Z) : Z :=
  calc_headers_capacity headers + H2O_HTTP2_FRAME_HEADER_SIZE + DYNAMIC_TABLE_SIZE_UPDATE_MAX_SIZE
  + STATUS_HEADER_MAX_SIZE
  + (match server_name with
     | Some server_name => if negb (len server_name =? 0) then 5 + len server_name else 0
     | None => 0
     end)
  + (if negb (content_length =? SIZE_MAX) then CONTENT_LENGTH_HEADER_MAX_SIZE else 0).

Definition response_block (hpack_capacity status : Z) (headers : h2o_headers_t)
    (server_name : option bytes) (content_length : Z) : writer bytes :=
  header_table_adjust hpack_capacity
  +++ (fun table => out ← encode_status status; Some (out, table))
  +++ (match server_name with
       | Some server_name =>
           if negb (len server_name =? 0) then encode_header_token H2O_TOKEN_SERVER server_name else wnil
       | None => wnil
       end)
  +++ wseq encode_header headers
  +++ (if negb (content_length =? SIZE_MAX) then wret (encode_content_length content_length) else wnil).

(** The return value is [headers_size], the length of the block. *)
Definition h2o_hpack_flatten_response (buf : bytes) (table : header_table)
    (hpack_capacity stream_id max_frame_size status : Z) (headers : h2o_headers_t)
    (server_name : option bytes) (content_length : Z) (is_end_stream : bool) : option (flattened * Z) :=
  r ← flatten buf table (response_capacity headers server_name content_length)
        (response_block hpack_capacity status headers server_name content_length)
        H2O_HTTP2_FRAME_TYPE_HEADERS stream_id max_frame_size
        (if is_end_stream then H2O_HTTP2_FRAME_FLAG_END_STREAM else 0);
  Some (r, len (fl_block r)).

Definition h2o_hpack_flatten_trailers (buf : bytes) (table : header_table)
    (hpack_capacity stream_id max_frame_size : Z) (headers : h2o_headers_t) : option flattened :=
  flatten buf table
    (calc_headers_capacity headers + H2O_HTTP2_FRAME_HEADER_SIZE + DYNAMIC_TABLE_SIZE_UPDATE_MAX_SIZE)
    (header_table_adjust hpack_capacity +++ wseq encode_header headers)
    H2O_HTTP2_FRAME_TYPE_HEADERS stream_id max_frame_size H2O_HTTP2_FRAME_FLAG_END_STREAM.

(** ** The frames carry the block *)

(** The peer's side: CONTINUATION frames of one stream up to END_HEADERS. *)
Fixpoint read_continuations (fuel : nat) (stream_id max_size : Z) (src : bytes) : option (bytes * bytes) :=
  match fuel with
  | O => None
  | S fuel =>
      match h2o_http2_decode_frame src max_size with
      | Err _ _ => None
      | Ok (frame, n) =>
          let rest := drop (Z.to_nat n) src in
          if negb (f_type frame =? H2O_HTTP2_FRAME_TYPE_CONTINUATION) || negb (f_stream_id frame =? stream_id)
          then None
          else if has_flag frame H2O_HTTP2_FRAME_FLAG_END_HEADERS then Some (f_payload frame, rest)
          else '(more, rest) ← read_continuations fuel stream_id max_size rest;
               Some (f_payload frame ++ more, rest)
      end
  end.

(** A header block: the first frame, the whole block and what follows it. *)
Definition read_block (max_size : Z) (src : bytes) : option (h2o_http2_frame_t * bytes * bytes) :=
  match h2o_http2_decode_frame src max_size with
  | Err _ _ => None
  | Ok (frame, n) =>
      let rest := drop (Z.to_nat n) src in
      if has_flag frame H2O_HTTP2_FRAME_FLAG_END_HEADERS then Some (frame, f_payload frame, rest)
      else '(more, rest) ← read_continuations (length rest) (f_stream_id frame) max_size rest;
           Some (frame, f_payload frame ++ more, rest)
  end.

Lemma encode_frame_header_some n type flags stream_id :
  n <= 0xffffff -> exists h, h2o_http2_encode_frame_header n type flags stream_id = Some h /\ length h = 9%nat.
Proof.
  intros Hn. unfold h2o_http2_encode_frame_header. destruct (Z.ltb_spec 0xffffff n); [lia|]. by eexists.
Qed.

Lemma drop_frame (h payload rest : bytes) :
  length h = 9%nat -> drop (Z.to_nat (9 + len payload)) (h ++ payload ++ rest) = rest.
Proof.
  intros Hh. rewrite app_assoc. apply drop_app_length'. rewrite length_app, Hh. unfold len. lia.
Qed.

Lemma continuation_loop_read fuel : forall rest stream_id max_size tail,
  1 <= max_size <= 0xffffff -> 0 <= stream_id < 2 ^ 31 -> (length rest <= fuel)%nat -> (0 < fuel)%nat ->
  exists frames, continuation_loop fuel rest stream_id max_size = Some frames /\
    forall n, (length frames <= n)%nat ->
    read_continuations n stream_id max_size (frames ++ tail) = Some (rest, tail).
Proof.
  induction fuel as [|fuel IH]; intros rest stream_id max_size tail Hm Hs Hr Hf; [lia|].
  cbn [continuation_loop]. destruct (Z.leb_spec (len rest) max_size) as [Hle|Hgt].
  - destruct (encode_frame_header_some (len rest) H2O_HTTP2_FRAME_TYPE_CONTINUATION
      H2O_HTTP2_FRAME_FLAG_END_HEADERS stream_id ltac:(lia)) as (h & Hh & Hl).
    rewrite Hh. cbn [mbind option_bind]. eexists. split; [done|]. rewrite length_app, Hl.
    intros [|n] Hn; [lia|]. cbn [read_continuations]. rewrite <- app_assoc.
    rewrite (decode_encode_frame _ _ _ _ _ _ _ Hh) by (done || lia). cbn -[drop Z.to_nat Z.add].
    rewrite Z.eqb_refl. cbn -[drop Z.to_nat Z.add]. by rewrite drop_frame.
  - destruct (encode_frame_header_some max_size H2O_HTTP2_FRAME_TYPE_CONTINUATION 0 stream_id ltac:(lia))
      as (h & Hh & Hl).
    rewrite Hh. cbn [mbind option_bind]. set (p := take (Z.to_nat max_size) rest).
    assert (Hp : len p = max_size) by (unfold p, len in *; rewrite length_take; lia).
    destruct (IH (drop (Z.to_nat max_size) rest) stream_id max_size tail Hm Hs)
      as (frames & Hc & Hread); [rewrite length_drop; lia|unfold len in *; lia|].
    rewrite Hc. cbn [mbind option_bind]. eexists. split; [done|]. rewrite !length_app, Hl.
    intros [|n] Hn; [lia|]. cbn [read_continuations]. rewrite <- !app_assoc. rewrite <- Hp in Hh.
    rewrite (decode_encode_frame _ _ _ _ _ _ _ Hh) by (done || lia). cbn -[drop Z.to_nat Z.add].
    rewrite Z.eqb_refl. cbn -[drop Z.to_nat Z.add]. rewrite drop_frame, Hread by (done || lia). cbn.
    unfold p. by rewrite take_drop.
Qed.

(** The frames written for a block are read back as that block, each within the limit. *)
Lemma fixup_read before payload type stream_id max_size flags tail :
  1 <= max_size <= 0xffffff -> 0 <= stream_id < 2 ^ 31 -> is_byte type -> flags = 0 \/ flags = 1 ->
  exists frames first,
    fixup_frame_headers before payload type stream_id max_size flags = Some (before ++ frames) /\
    read_block max_size (frames ++ tail) = Some (first, payload, tail) /\
    f_type first = type /\ f_stream_id first = stream_id /\
    has_flag first H2O_HTTP2_FRAME_FLAG_END_STREAM = (flags =? 1).
Proof.
  intros Hm Hs Ht Hflags. unfold fixup_frame_headers, read_block.
  assert (Hfb : is_byte (Z.lor H2O_HTTP2_FRAME_FLAG_END_HEADERS flags) /\ is_byte flags)
    by (destruct Hflags as [-> | ->]; done).
  destruct Hfb as [Hfb Hfb'].
  destruct (Z.leb_spec (len payload) max_size) as [Hle|Hgt].
  - destruct (encode_frame_header_some (len payload) type (Z.lor H2O_HTTP2_FRAME_FLAG_END_HEADERS flags)
      stream_id ltac:(lia)) as (h & Hh & Hl).
    rewrite Hh. cbn [mbind option_bind]. 
    exists (h ++ payload), (Frame (len payload) type (Z.lor H2O_HTTP2_FRAME_FLAG_END_HEADERS flags) stream_id payload).
    split; [done|]. rewrite <- app_assoc, (decode_encode_frame _ _ _ _ _ _ _ Hh) by (done || lia).
    rewrite drop_frame by done. split; [|by destruct Hflags as [-> | ->]].
    by destruct Hflags as [-> | ->].
  - destruct (encode_frame_header_some max_size type flags stream_id ltac:(lia)) as (h & Hh & Hl).
    rewrite Hh. cbn [mbind option_bind]. set (p := take (Z.to_nat max_size) payload).
    assert (Hp : len p = max_size) by (unfold p, len in *; rewrite length_take; lia).
    destruct (continuation_loop_read (length payload) (drop (Z.to_nat max_size) payload) stream_id max_size
      tail Hm Hs) as (frames & Hc & Hread); [rewrite length_drop; lia|unfold len in *; lia|].
    rewrite Hc. cbn [mbind option_bind]. 
    exists (h ++ p ++ frames), (Frame (len p) type flags stream_id p).
    split; [done|]. rewrite <- Hp in Hh.
    rewrite <- !app_assoc, (decode_encode_frame _ _ _ _ _ _ _ Hh) by (done || lia).
    rewrite drop_frame by done. cbn [f_stream_id f_payload].
    rewrite Hread by (rewrite length_app; lia). split; [|by destruct Hflags as [-> | ->]].
    assert (Hpp : p ++ drop (Z.to_nat max_size) payload = payload) by apply take_drop.
    destruct Hflags as [-> | ->]; cbn; by rewrite Hpp.
Qed.

(** ** The reserved capacity is enough *)

Definition enc_ok (te : header_table) : Prop :=
  exists l, Rep te l /\ tsize l <= hpack_capacity te /\ 0 <= hpack_capacity te <= UINT32_MAX.

(** From any encoder state, [w] succeeds and writes at most [cap] octets. *)
Definition bounded (w : writer bytes) (cap : Z) : Prop :=
  forall te, enc_ok te ->
  exists out te', w te = Some (out, te') /\ enc_ok te' /\ bytes_ok out /\ len out <= cap.

Lemma bounded_app a b ca cb : bounded a ca -> bounded b cb -> bounded (a +++ b) (ca + cb).
Proof.
  intros Ha Hb te Hte. unfold wapp. destruct (Ha te Hte) as (o & t & -> & Ht & Ho & Hl).
  cbn [mbind option_bind]. destruct (Hb t Ht) as (o' & t' & -> & Ht' & Ho' & Hl').
  cbn [mbind option_bind]. eexists _, _. split_and!; [done|done|by apply Forall_app|].
  rewrite len_app. lia.
Qed.

Lemma bounded_ret out cap : bytes_ok out -> len out <= cap -> bounded (wret out) cap.
Proof. intros Ho Hl te Hte. by exists out, te. Qed.

Lemma bounded_nil cap : 0 <= cap -> bounded wnil cap.
Proof. intros. by apply (bounded_ret []). Qed.

Lemma bounded_weaken w c c' : bounded w c -> c <= c' -> bounded w c'.
Proof. intros H Hc te Hte. destruct (H te Hte) as (o & t & ? & ? & ? & ?). exists o, t. auto with lia. Qed.

Lemma encode_int_short k first v n :
  1 <= n <= 8 -> 0 <= v < 2 ^ (7 * (Z.of_nat k + 1)) -> len (h2o_hpack_encode_int first v n) <= Z.of_nat k + 2.
Proof.
  intros Hn Hv. pose proof (prefix_pow_bound n Hn). unfold h2o_hpack_encode_int, encode_int_is_onebyte.
  rewrite Z.shiftl_1_l. destruct (Z.ltb_spec v (2 ^ n - 1)); [unfold len; simpl; lia|]. cbv zeta.
  rewrite len_cons. pose proof (encode_int_loop_length k encode_int_fuel (v - (2 ^ n - 1))) as Hl.
  unfold len, encode_int_fuel in *. lia.
Qed.

Lemma encode_as_is_length s :
  bytes_ok s -> len s <= INT64_MAX -> bytes_ok (encode_as_is s) /\ len (encode_as_is s) <= len s + 10.
Proof.
  intros Hs Hl. unfold encode_as_is. pose proof (len_nonneg s).
  pose proof (encode_int_length 0 (len s) 7 ltac:(lia) ltac:(lia)). rewrite len_app.
  split; [apply Forall_app; auto using encode_int_ok|lia].
Qed.

(** A string takes no more than its length and a length prefix. *)
Lemma encode_string_short k s :
  bytes_ok s -> len s < 2 ^ (7 * (Z.of_nat k + 1)) -> (k <= 7)%nat ->
  bytes_ok (h2o_hpack_encode_string s) /\ len (h2o_hpack_encode_string s) <= len s + (Z.of_nat k + 2).
Proof.
  intros Hs Hl Hk. pose proof (len_nonneg s).
  assert (Has : bytes_ok (encode_as_is s) /\ len (encode_as_is s) <= len s + (Z.of_nat k + 2)).
  { unfold encode_as_is. rewrite len_app. pose proof (encode_int_short k 0 (len s) 7 ltac:(lia) ltac:(lia)).
    split; [apply Forall_app; auto using encode_int_ok|lia]. }
  unfold h2o_hpack_encode_string. destruct (negb (len s =? 0)); [|done].
  pose proof (encode_huffman_spec s Hs) as Hh. destruct (h2o_hpack_encode_huffman s) as [h|]; [|done].
  destruct Hh as (Hb & Hlt & _). pose proof (len_nonneg h). destruct (encode_int_is_onebyte _ _).
  - rewrite len_cons. split; [|lia]. by constructor; [apply is_byte_wrap8|].
  - rewrite len_app. pose proof (encode_int_short k 0x80 (len h) 7 ltac:(lia) ltac:(lia)).
    split; [apply Forall_app; auto using encode_int_ok|lia].
Qed.

Lemma encode_string_length s :
  bytes_ok s -> len s < 2 ^ 32 ->
  bytes_ok (h2o_hpack_encode_string s) /\ len (h2o_hpack_encode_string s) <= len s + 10.
Proof.
  intros Hs Hl. destruct (encode_string_short 7 s Hs) as [Hb Hle]; [|lia|].
  - change (2 ^ (7 * (Z.of_nat 7 + 1))) with (2 ^ 56). lia.
  - split; [done|lia].
Qed.

(** The search of the encoder's table, from the oldest state of the loop. *)
Lemma search_from_start te l name value name_index :
  Rep te l -> tsize l <= UINT32_MAX -> 0 <= name_index < 62 ->
  exists r, search_table te name value (num_entries te) 0 (entry_start_index te) name_index = Some r /\
    match r with
    | (Some k, _) => 62 <= k < 2 ^ 28
    | (None, k) => 0 <= k < 2 ^ 28 /\ (h2o_iovec_is_token name = true -> k = name_index)
    end.
Proof.
  intros HR Ht Hi.
  destruct (search_table_spec te l name value (num_entries te) 0 name_index HR) as (r & Hr & Ho);
    [by rewrite (rep_num _ _ HR)|].
  exists r. split.
  { destruct (rep_start _ _ HR) as [Hlt|Hz].
    - rewrite <- Hr. f_equal. symmetry. by apply Nat.mod_small.
    - pose proof (rep_cap _ _ HR). assert (num_entries te = O) as Hn by (rewrite (rep_num _ _ HR); lia).
      by rewrite Hn in *. }
  assert (Hlen : Z.of_nat (length l) < 2 ^ 28 - 62).
  { pose proof (length_le_tsize l) as Hlt. unfold len in Hlt. unfold UINT32_MAX in Ht. lia. }
  destruct r as [[k|] k'].
  - destruct Ho as (j & e & -> & Hj & _). apply lookup_lt_Some in Hj. lia.
  - destruct Ho as [->|(Hnt & j & e & -> & Hj & _)]; [lia|]. apply lookup_lt_Some in Hj.
    split; [lia|]. by rewrite Hnt.
Qed.

Lemma static_index_bound name :
  name_wf name ->
  0 <= match name_token_flags name with Some f => http2_static_table_name_index f | None => 0 end < 62.
Proof.
  intros Hn. destruct name as [t|]; simpl; [|lia].
  destruct (Z.eq_dec (http2_static_table_name_index (tok_flags (token t))) 0) as [->|Hne]; [lia|].
  destruct (static_name t Hn Hne) as [? _]. lia.
Qed.

Lemma enc_ok_insert te e :
  enc_ok te -> exists te', header_table_insert te 32 e = Some te' /\ enc_ok te'.
Proof.
  intros (l & HR & Ht & Hc). destruct (rep_insert te l 32 e HR ltac:(lia)) as (t' & Hi & HR' & Hc' & _).
  exists t'. split; [done|]. eexists. rewrite Hc'. split_and!; [exact HR'|apply tsize_spec_insert; lia|lia..].
Qed.

(** A name and a value whose lengths fit 32 bits. *)
Definition field_size_ok (name : name_ref) (value : bytes) : Prop :=
  name_wf name /\ bytes_ok value /\ len (name_bytes name) < 2 ^ 32 /\ len value < 2 ^ 32.

Lemma do_encode_header_bounded name value dc :
  field_size_ok name value ->
  bounded (fun te => do_encode_header te name value dc) (calc_capacity (len (name_bytes name)) (len value)).
Proof.
  intros (Hn & Hv & Hnl & Hvl) te Hte. pose proof Hte as (l & HR & Ht & Hc). unfold do_encode_header.
  destruct (search_from_start te l name value _ HR ltac:(lia) (static_index_bound name Hn)) as (r & -> & Hr).
  cbn [mbind option_bind]. unfold calc_capacity, H2O_HPACK_ENCODE_INT_MAX_LENGTH.
  pose proof (len_nonneg value). pose proof (len_nonneg (name_bytes name)).
  assert (Hint : forall first k n, 1 <= n <= 8 -> 0 <= k < 2 ^ 28 ->
            bytes_ok (h2o_hpack_encode_int first k n) /\ len (h2o_hpack_encode_int first k n) <= 10).
  { intros first k n Hn' Hk. split; [apply encode_int_ok|]. apply encode_int_length; [done|].
    unfold INT64_MAX. lia. }
  destruct r as [[k0|] k].
  { eexists _, te. split_and!; [done|done|apply Hint; lia|]. destruct (Hint 0x80 k0 7); lia. }
  destruct (encode_string_length value Hv Hvl) as [Hvb Hvs].
  destruct (encode_string_length (name_bytes name) (name_bytes_ok _ Hn) Hnl) as [Hnb Hns].
  destruct (encode_as_is_length value Hv ltac:(unfold INT64_MAX; lia)) as [Hab Has].
  set (flag := _ && _). set (head := if negb (k =? 0) then _ else _).
  assert (Hhead : bytes_ok head /\ len head <= 1 + (len (name_bytes name) + 10)).
  { unfold head. destruct (negb (k =? 0)).
    - destruct flag; [destruct (Hint 0x10 k 4)|destruct (Hint 0x40 k 6)]; try lia; split; done || lia.
    - rewrite len_cons. split; [by constructor|lia]. }
  destruct Hhead as [Hhb Hhl]. destruct flag.
  - eexists _, te. split_and!; [done|done|by apply Forall_app|]. rewrite len_app. lia.
  - destruct (enc_ok_insert te (Entry name value 0) Hte) as (te' & -> & Hte'). cbn [mbind option_bind].
    eexists _, te'. split_and!; [done|done|by apply Forall_app|]. rewrite len_app. lia.
Qed.

Lemma token_bytes_length : forallb (fun t => len (tok_buf t) <? 2 ^ 32) h2o__tokens = true.
Proof. vm_compute. reflexivity. Qed.

Lemma token_name_length t : is_token_index t -> len (tok_buf (token t)) < 2 ^ 32.
Proof.
  intros Ht. pose proof token_bytes_length as H. rewrite forallb_forall in H. apply Z.ltb_lt, H.
  unfold token. apply nth_In. unfold is_token_index in Ht. simpl. lia.
Qed.

Lemma token_field_ok t value :
  is_token_index t -> bytes_ok value -> len value < 2 ^ 32 -> field_size_ok (NTok t) value.
Proof. intros. split_and!; auto. by apply token_name_length. Qed.

Lemma header_token_bounded t value :
  is_token_index t -> bytes_ok value -> len value < 2 ^ 32 ->
  bounded (encode_header_token t value) (token_capacity t value).
Proof. intros. by apply (do_encode_header_bounded (NTok t)), token_field_ok. Qed.

Lemma token_capacity_pos t value : 21 <= token_capacity t value.
Proof.
  unfold token_capacity, calc_capacity, H2O_HPACK_ENCODE_INT_MAX_LENGTH.
  pose proof (len_nonneg value). pose proof (len_nonneg (tok_buf (token t))). lia.
Qed.

Lemma one_octet_bounded b t value : is_byte b -> bounded (wret [b]) (token_capacity t value).
Proof.
  intros Hb. pose proof (token_capacity_pos t value). apply bounded_ret; [by constructor|].
  change (len [b]) with 1. lia.
Qed.

Lemma method_bounded m : bytes_ok m -> len m < 2 ^ 32 -> bounded (encode_method m) (token_capacity H2O_TOKEN_METHOD m).
Proof.
  intros. unfold encode_method. intros te. bcase; intros Hte;
    [by apply (one_octet_bounded 0x82)|by apply (one_octet_bounded 0x83)|by apply header_token_bounded].
Qed.

Lemma scheme_bounded s : bounded (encode_scheme s) (token_capacity H2O_TOKEN_SCHEME (scheme_name s)).
Proof.
  unfold encode_scheme. intros te. bcase; intros Hte;
    [by apply (one_octet_bounded 0x87)|by apply (one_octet_bounded 0x86)|].
  apply header_token_bounded; [done|destruct s; apply lit_ok|by destruct s|done].
Qed.

Lemma path_bounded p : bytes_ok p -> len p < 2 ^ 32 -> bounded (encode_path p) (token_capacity H2O_TOKEN_PATH p).
Proof.
  intros. unfold encode_path. intros te. bcase; intros Hte;
    [by apply (one_octet_bounded 0x84)|by apply (one_octet_bounded 0x85)|by apply header_token_bounded].
Qed.

Definition header_size_ok (h : h2o_header_t) : Prop := field_size_ok (h_name h) (h_value h).

Lemma wseq_bounded (f : h2o_header_t -> writer bytes) headers :
  (forall h, header_size_ok h -> bounded (f h) (calc_capacity (len (name_bytes (h_name h))) (len (h_value h)))) ->
  Forall header_size_ok headers -> bounded (wseq f headers) (calc_headers_capacity headers).
Proof.
  intros Hf. induction 1 as [|h headers Hh Hhs IH]; [by apply bounded_nil|].
  simpl. by apply bounded_app; [apply Hf|].
Qed.

Lemma headers_bounded headers :
  Forall header_size_ok headers -> bounded (wseq encode_header headers) (calc_headers_capacity headers).
Proof. apply wseq_bounded. intros h Hh. by apply do_encode_header_bounded. Qed.

Lemma request_headers_bounded headers :
  Forall header_size_ok headers -> bounded (wseq encode_request_header headers) (calc_headers_capacity headers).
Proof.
  apply wseq_bounded. intros h Hh. unfold encode_request_header. bcase.
  - apply bounded_ret; [repeat constructor; unfold is_byte; lia|]. unfold calc_capacity, H2O_HPACK_ENCODE_INT_MAX_LENGTH.
    pose proof (len_nonneg (name_bytes (h_name h))). pose proof (len_nonneg (h_value h)).
    change (len [0x90]) with 1. lia.
  - by apply do_encode_header_bounded.
Qed.

(** Capacities below 2 ^ 28 take at most five octets. *)
Lemma adjust_bounded cap :
  0 <= cap < 2 ^ 28 -> bounded (header_table_adjust cap) DYNAMIC_TABLE_SIZE_UPDATE_MAX_SIZE.
Proof.
  intros Hcap te (l & HR & Ht & Hc). unfold header_table_adjust, header_table_adjust_size.
  destruct (Z.leb_spec (hpack_capacity te) cap).
  { exists [], te. split_and!; [done|by exists l|done|done]. }
  destruct (rep_set_capacity te l cap HR) as (te' & -> & HR' & Hc' & _). cbn [mbind option_bind].
  eexists _, te'. split_and!; [done| |apply encode_int_ok|].
  - exists (fit cap l). rewrite Hc'. split_and!; [done|apply tsize_fit; lia|lia..].
  - rewrite Hc'. apply (encode_int_short 3); [lia|]. change (7 * (Z.of_nat 3 + 1)) with 28. lia.
Qed.

(** ** Decimal numbers *)

Lemma status_bounded status :
  100 <= status <= 999 ->
  bounded (fun table => out ← encode_status status; Some (out, table)) STATUS_HEADER_MAX_SIZE.
Proof.
  intros Hs te Hte. unfold encode_status.
  destruct (Z.leb_spec 100 status), (Z.leb_spec status 999); try lia. cbn [negb andb].
  assert (Hd : bytes_ok (8 :: 3 :: decimal 3 status) /\ len (8 :: 3 :: decimal 3 status) <= 5).
  { pose proof (decimal_length 3 status). split; [|rewrite !len_cons; unfold len; lia].
    repeat (constructor; [unfold is_byte; lia|]). apply digits_bytes, decimal_digits. }
  assert (Ho : forall c, is_byte c -> bytes_ok [c] /\ len [c] <= 5).
  { intros c Hc. split; [by constructor|]. change (len [c]) with 1. lia. }
  cbn [mbind option_bind]. eexists _, te. split; [done|]. split; [done|].
  unfold STATUS_HEADER_MAX_SIZE. bcase; first [exact Hd|by apply Ho, byteb_spec].
Qed.

Lemma content_length_bounded v : bounded (wret (encode_content_length v)) CONTENT_LENGTH_HEADER_MAX_SIZE.
Proof.
  unfold encode_content_length. cbv zeta. apply bounded_ret.
  - repeat (constructor; [unfold is_byte; lia|]). constructor; [apply is_byte_wrap8|].
    apply digits_bytes, decimal_digits.
  - pose proof (decimal_length 20 v). rewrite !len_cons. unfold len, CONTENT_LENGTH_HEADER_MAX_SIZE. lia.
Qed.

(** The server name, whose token is indexed by one octet, fits five octets and its length. *)
Lemma server_bounded s :
  bytes_ok s -> 0 < len s < 2 ^ 21 -> bounded (encode_header_token H2O_TOKEN_SERVER s) (5 + len s).
Proof.
  intros Hs Hl te Hte. pose proof Hte as (l & HR & Ht & Hc). unfold encode_header_token, do_encode_header.
  change (name_token_flags (NTok H2O_TOKEN_SERVER)) with (Some (tok_flags (token H2O_TOKEN_SERVER))).
  cbv iota.
  change (http2_static_table_name_index (tok_flags (token H2O_TOKEN_SERVER))) with 54.
  change (tok_dont_compress (tok_flags (token H2O_TOKEN_SERVER))) with false.
  destruct (search_from_start te l (NTok H2O_TOKEN_SERVER) s 54 HR ltac:(lia) ltac:(lia)) as (r & -> & Hr).
  cbn [mbind option_bind]. destruct r as [[k|] k'].
  - eexists _, te. split_and!; [done|done|apply encode_int_ok|].
    pose proof (encode_int_short 3 0x80 k 7 ltac:(lia)) as Hk. change (7 * (Z.of_nat 3 + 1)) with 28 in Hk. lia.
  - destruct Hr as [_ Hk]. rewrite (Hk eq_refl). cbn [orb andb].
    destruct (enc_ok_insert te (Entry (NTok H2O_TOKEN_SERVER) s 0) Hte) as (te' & -> & Hte').
    cbn [mbind option_bind]. destruct (encode_string_short 2 s Hs) as [Hb Hle]; [simpl; lia|lia|].
    eexists _, te'. split_and!; [done|done|apply Forall_app; split; [apply encode_int_ok|done]|].
    rewrite len_app. change (len (if negb (54 =? 0) then _ else _)) with 1. lia.
Qed.

(** ** Messages fit *)

Lemma flatten_bounded buf te capacity w type stream_id max_size flags cap r :
  bounded w cap -> enc_ok te -> cap + H2O_HTTP2_FRAME_HEADER_SIZE <= capacity ->
  flatten buf te capacity w type stream_id max_size flags = Some r ->
  H2O_HTTP2_FRAME_HEADER_SIZE + len (fl_block r) <= fl_capacity r /\ fl_capacity r = capacity /\
  enc_ok (fl_table r) /\ bytes_ok (fl_block r).
Proof.
  intros Hw Hte Hcap. unfold flatten. destruct (Hw te Hte) as (out & te' & -> & Hte' & Ho & Hl).
  cbn [mbind option_bind]. destruct (fixup_frame_headers _ _ _ _ _ _); [|done].
  cbn [mbind option_bind]. intros [= <-]. simpl. split_and!; [lia|done|done|done].
Qed.

Record request_size_ok (a : flatten_request_args) : Prop := {
  rs_method : bytes_ok (fr_method a) /\ len (fr_method a) < 2 ^ 32;
  rs_authority : bytes_ok (fr_authority a) /\ len (fr_authority a) < 2 ^ 32;
  rs_path : bytes_ok (fr_path a) /\ len (fr_path a) < 2 ^ 32;
  rs_protocol : bytes_ok (default [] (fr_protocol a)) /\ len (default [] (fr_protocol a)) < 2 ^ 32;
  rs_headers : Forall header_size_ok (fr_headers a) }.

Lemma request_block_bounded cap a :
  0 <= cap < 2 ^ 28 -> request_size_ok a ->
  bounded (request_block cap a) (request_capacity a - H2O_HTTP2_FRAME_HEADER_SIZE).
Proof.
  intros Hcap [[] [] [] [] Hh]. unfold request_block, request_capacity.
  pose proof (token_capacity_pos H2O_TOKEN_PROTOCOL (default [] (fr_protocol a))).
  eapply bounded_weaken.
  - repeat apply bounded_app.
    + by apply adjust_bounded.
    + by apply method_bounded.
    + instantiate (1 := if negb (old_style_connect a) then _ else _).
      destruct (negb _); [apply scheme_bounded|by apply bounded_nil].
    + by apply header_token_bounded.
    + instantiate (1 := if negb (old_style_connect a) then _ else _).
      destruct (negb _); [by apply path_bounded|by apply bounded_nil].
    + instantiate (1 := token_capacity H2O_TOKEN_PROTOCOL (default [] (fr_protocol a))).
      destruct (fr_protocol a) as [p|]; [|by apply bounded_nil; lia].
      by apply (do_encode_header_bounded (NTok H2O_TOKEN_PROTOCOL)), token_field_ok.
    + instantiate (1 := if fr_send_own_expect a then _ else _).
      destruct (fr_send_own_expect a); [|by apply bounded_nil].
      apply header_token_bounded; [done|apply lit_ok|done].
    + by apply request_headers_bounded.
  - bcase; lia.
Qed.

Lemma response_block_bounded cap status headers server content_length :
  0 <= cap < 2 ^ 28 -> 100 <= status <= 999 -> Forall header_size_ok headers ->
  bytes_ok (default [] server) -> len (default [] server) < 2 ^ 21 ->
  bounded (response_block cap status headers server content_length)
    (response_capacity headers server content_length - H2O_HTTP2_FRAME_HEADER_SIZE).
Proof.
  intros Hcap Hs Hh Hsb Hsl. unfold response_block, response_capacity. eapply bounded_weaken.
  - repeat apply bounded_app.
    + by apply adjust_bounded.
    + by apply status_bounded.
    + instantiate (1 := match server with
        | Some server_name => if negb (len server_name =? 0) then 5 + len server_name else 0
        | None => 0 end).
      destruct server as [s|]; [|by apply bounded_nil].
      destruct (Z.eqb_spec (len s) 0); [by apply bounded_nil|]. simpl in *.
      pose proof (len_nonneg s). apply server_bounded; [done|lia].
    + by apply headers_bounded.
    + instantiate (1 := if negb (content_length =? SIZE_MAX) then _ else _).
      destruct (negb _); [apply content_length_bounded|by apply bounded_nil].
  - lia.
Qed.

Lemma trailers_block_bounded cap headers :
  0 <= cap < 2 ^ 28 -> Forall header_size_ok headers ->
  bounded (header_table_adjust cap +++ wseq encode_header headers)
    (calc_headers_capacity headers + DYNAMIC_TABLE_SIZE_UPDATE_MAX_SIZE).
Proof.
  intros. eapply bounded_weaken; [apply bounded_app; [by apply adjust_bounded|by apply headers_bounded]|lia].
Qed.

Lemma push_promise_block_bounded cap stream_id scheme authority method path headers :
  0 <= cap < 2 ^ 28 -> Forall header_size_ok headers ->
  bytes_ok authority -> len authority < 2 ^ 32 -> bytes_ok method -> len method < 2 ^ 32 ->
  bytes_ok path -> len path < 2 ^ 32 ->
  bounded (wret (h2o_http2_encode32u stream_id) +++ header_table_adjust cap +++ encode_method method
           +++ encode_scheme scheme +++ encode_header_token H2O_TOKEN_AUTHORITY authority
           +++ encode_path path +++ wseq encode_request_header headers)
    (calc_headers_capacity headers + 4 + DYNAMIC_TABLE_SIZE_UPDATE_MAX_SIZE
     + token_capacity H2O_TOKEN_METHOD method + token_capacity H2O_TOKEN_SCHEME (scheme_name scheme)
     + token_capacity H2O_TOKEN_AUTHORITY authority + token_capacity H2O_TOKEN_PATH path).
Proof.
  intros. eapply bounded_weaken.
  - repeat apply bounded_app.
    + apply (bounded_ret _ 4); [repeat constructor; apply is_byte_wrap8|done].
    + by apply adjust_bounded.
    + by apply method_bounded.
    + apply scheme_bounded.
    + by apply header_token_bounded.
    + by apply path_bounded.
    + by apply request_headers_bounded.
  - lia.
Qed.

(** ** Properties *)

(** [fixup_frame_headers] cuts a header block of any length into one HEADERS (or PUSH_PROMISE)
    frame and CONTINUATION frames: a peer that reads frames of at most [max_frame_size] octets
    collects exactly the block, on the stream and with the END_STREAM flag given, sees
    END_HEADERS on the last frame only, and is left with what follows. *)
Theorem frames_carry_block before payload type stream_id max_size flags tail :
  1 <= max_size <= 0xffffff -> 0 <= stream_id < 2 ^ 31 -> is_byte type -> flags = 0 \/ flags = 1 ->
  exists frames first,
    fixup_frame_headers before payload type stream_id max_size flags = Some (before ++ frames) /\
    read_block max_size (frames ++ tail) = Some (first, payload, tail) /\
    f_type first = type /\ f_stream_id first = stream_id /\
    has_flag first H2O_HTTP2_FRAME_FLAG_END_STREAM = (flags =? 1).
Proof. apply fixup_read. Qed.

Lemma frames_carry_block_witness :
  exists frames first,
    fixup_frame_headers [7] [1; 2; 3; 4; 5] 1 3 2 1 = Some ([7] ++ frames) /\
    read_block 2 (frames ++ [9]) = Some (first, [1; 2; 3; 4; 5], [9]) /\
    f_type first = 1 /\ f_stream_id first = 3 /\
    has_flag first H2O_HTTP2_FRAME_FLAG_END_STREAM = (1 =? 1).
Proof.
  apply (frames_carry_block [7] [1; 2; 3; 4; 5] 1 3 2 1 [9]); [lia|lia|unfold is_byte; lia|by right].
Defined.

(** The octets reserved for a response, computed from the lengths of its headers, are enough
    for what is then written without checks, as long as the table size announced takes five
    octets and the server name is shorter than two megabytes. *)
Theorem response_fits buf te cap stream_id max_size status headers server content_length end_stream r n :
  enc_ok te -> 0 <= cap < 2 ^ 28 -> 100 <= status <= 999 -> Forall header_size_ok headers ->
  bytes_ok (default [] server) -> len (default [] server) < 2 ^ 21 ->
  h2o_hpack_flatten_response buf te cap stream_id max_size status headers server content_length end_stream
    = Some (r, n) ->
  H2O_HTTP2_FRAME_HEADER_SIZE + len (fl_block r) <= response_capacity headers server content_length /\
  n = len (fl_block r) /\ bytes_ok (fl_block r) /\ enc_ok (fl_table r).
Proof.
  intros Hte Hcap Hst Hh Hb Hl. unfold h2o_hpack_flatten_response.
  destruct (flatten buf te _ _ _ _ _ _) as [r'|] eqn:Hf; [|done]. cbn [mbind option_bind]. intros [= <- <-].
  pose proof (response_block_bounded cap status headers server content_length Hcap Hst Hh Hb Hl) as Hbound.
  eapply flatten_bounded in Hf as (H1 & H2 & H3 & H4); [|exact Hbound|done|lia].
  rewrite <- H2. by split_and!.
Qed.

Lemma response_fits_witness :
  exists r n, h2o_hpack_flatten_response [] (empty_table 4096) 4096 1 16384 404 [] (Some (lit "h2o")) 12 false
    = Some (r, n) /\
  H2O_HTTP2_FRAME_HEADER_SIZE + len (fl_block r) <= response_capacity [] (Some (lit "h2o")) 12 /\
  n = len (fl_block r) /\ bytes_ok (fl_block r) /\ enc_ok (fl_table r).
Proof.
  destruct (h2o_hpack_flatten_response [] (empty_table 4096) 4096 1 16384 404 [] (Some (lit "h2o")) 12 false)
    as [[r n]|] eqn:E; [|vm_compute in E; discriminate E].
  exists r, n. split; [reflexivity|].
  apply (response_fits [] (empty_table 4096) 4096 1 16384 404 [] (Some (lit "h2o")) 12 false r n); try lia.
  - exists []. split; [apply rep_empty|]. unfold UINT32_MAX. simpl. lia.
  - constructor.
  - apply lit_ok.
  - reflexivity.
  - exact E.
Defined.

(** Likewise, a request never writes more than was reserved for it, whichever of its pseudo
    headers are sent. *)
Theorem request_fits buf te cap stream_id max_size a r :
  enc_ok te -> 0 <= cap < 2 ^ 28 -> request_size_ok a ->
  h2o_hpack_flatten_request buf te cap stream_id max_size a = Some r ->
  H2O_HTTP2_FRAME_HEADER_SIZE + len (fl_block r) <= request_capacity a /\
  bytes_ok (fl_block r) /\ enc_ok (fl_table r).
Proof.
  intros Hte Hcap Ha Hf. unfold h2o_hpack_flatten_request in Hf.
  eapply flatten_bounded in Hf as (H1 & H2 & H3 & H4); [|by apply request_block_bounded|done|lia].
  rewrite <- H2. by split_and!.
Qed.

Lemma request_fits_witness :
  let a := FlattenRequest (lit "GET") H2O_URL_SCHEME_HTTPS (lit "example.com") (lit "/x") None [] true true in
  exists r, h2o_hpack_flatten_request [] (empty_table 4096) 100 1 16384 a = Some r /\
  H2O_HTTP2_FRAME_HEADER_SIZE + len (fl_block r) <= request_capacity a /\
  bytes_ok (fl_block r) /\ enc_ok (fl_table r).
Proof.
  set (a := FlattenRequest _ _ _ _ _ _ _ _). cbv zeta.
  destruct (h2o_hpack_flatten_request [] (empty_table 4096) 100 1 16384 a) as [r|] eqn:E;
    [|vm_compute in E; discriminate E].
  exists r. split; [reflexivity|]. apply (request_fits [] (empty_table 4096) 100 1 16384 a r); [|lia| |exact E].
  - exists []. split; [apply rep_empty|]. unfold UINT32_MAX. simpl. lia.
  - constructor; [split; [apply lit_ok|reflexivity]..|split; [constructor|reflexivity]|constructor].
Defined.
