(* ===== verification/HpackParse.v ===== *)
(** * Parsing of requests and responses (lib/http2/hpack.c)

    [h2o_hpack_parse_request] and [h2o_hpack_parse_response] read a header block through a
    callback that decodes one field; the callback is the class [HeaderDecoder], whose
    instance for HPACK is [h2o_hpack_decode_header].  The results are proved for every
    decoder that keeps the promise of the class. *)
From S2P Require Import Prelude Strings Url Tokens HpackInt Huffman HeaderTable Headers Hpack HpackSafe.
From Stdlib Require Import ZArith Lia.
From stdpp Require Import base list numbers option strings.
Open Scope Z_scope.

(** ** The decoder callback *)

(** The return code; the header, when [*name] and [*value] are set; [*src], the decoder's
    state and [*err_desc] on return. *)
Record cb_result (ctx : Type) := CbResult {
  cb_ret : Z;
  cb_header : option (name_ref * bytes);
  cb_src : bytes;
  cb_ctx : ctx;
  cb_err_desc : option hpack_err_desc }.
Arguments CbResult {_} _ _ _ _ _.
Arguments cb_ret {_} _.
Arguments cb_header {_} _.
Arguments cb_src {_} _.
Arguments cb_ctx {_} _.
Arguments cb_err_desc {_} _.

(** [h2o_hpack_decode_header_cb]: it returns; a header comes with success and with the soft
    error, which has a description, and takes input.  It is not called at the end of the input. *)
Class HeaderDecoder (ctx : Type) := {
  decode_cb : ctx -> bytes -> option hpack_err_desc -> option (cb_result ctx);
  decoder_ok : ctx -> Prop;
  decode_cb_safe : forall c src err, decoder_ok c -> bytes_ok src -> src <> [] ->
    exists r, decode_cb c src err = Some r /\ decoder_ok (cb_ctx r) /\
      (cb_ret r = 0 \/ cb_ret r = H2O_HTTP2_ERROR_INVALID_HEADER_CHAR ->
       is_Some (cb_header r) /\ consumed src (cb_src r)) /\
      (cb_ret r = H2O_HTTP2_ERROR_INVALID_HEADER_CHAR -> is_Some (cb_err_desc r)) }.

Definition hpack_cb (table : header_table) (src : bytes) (err : option hpack_err_desc)
    : option (cb_result header_table) :=
  r ← h2o_hpack_decode_header table src err;
  Some (CbResult (dh_ret r) (dh_header r) (dh_src r) (dh_table r) (dh_err_desc r)).

#[export] Program Instance hpack_decoder : HeaderDecoder header_table := {
  decode_cb := hpack_cb;
  decoder_ok := table_ok }.
Next Obligation.
  intros c src err Hc Hs _. destruct (decode_header_safe c src err Hc Hs) as (r & Hr & Ho).
  unfold hpack_cb. rewrite Hr. eexists. split; [done|]. simpl.
  split_and!; [apply Ho|intros; by apply Ho|intros; by apply Ho].
Qed.

(** ** Requests *)

Definition H2O_HPACK_PARSE_HEADERS_METHOD_EXISTS : Z := 1.
Definition H2O_HPACK_PARSE_HEADERS_SCHEME_EXISTS : Z := 2.
Definition H2O_HPACK_PARSE_HEADERS_PATH_EXISTS : Z := 4.
Definition H2O_HPACK_PARSE_HEADERS_AUTHORITY_EXISTS : Z := 8.
Definition H2O_HPACK_PARSE_HEADERS_PROTOCOL_EXISTS : Z := 16.

Section Request.
Context {digests_t : Type}.
(** [h2o_cache_digests_load_header] of lib/http2/cache_digests.c *)
Variable h2o_cache_digests_load_header : digests_t -> bytes -> digests_t.

(** What the output arguments point to; [base == NULL] is [None]. *)
Record request := Request {
  rq_method : option bytes;
  rq_scheme : option h2o_url_scheme_t;
  rq_authority : option bytes;
  rq_path : option bytes;
  rq_protocol : option bytes;
  rq_headers : h2o_headers_t;
  rq_map : Z;              (* [*pseudo_header_exists_map] *)
  rq_content_length : Z;
  rq_expect : option bytes;
  rq_digests : digests_t;
  rq_flow_id : option bytes;
  rq_err : option hpack_err_desc }.

(** The pointers that may be NULL: [authority], [digests] and [datagram_flow_id]. *)
Record request_args := RequestArgs {
  has_authority : bool;
  has_digests : bool;
  has_flow_id : bool }.

Definition set_err (st : request) (err : hpack_err_desc) : request :=
  let '(Request m s a p pr h mp cl e d f _) := st in Request m s a p pr h mp cl e d f (Some err).

(** The assignment of one pseudo header that was not there, with its bit. *)
Definition set_pseudo (st : request) (t : Z) (value : bytes) : request :=
  let '(Request m s a p pr h mp cl e d f err) := st in
  if t =? H2O_TOKEN_AUTHORITY
  then Request m s (Some value) p pr h (Z.lor mp H2O_HPACK_PARSE_HEADERS_AUTHORITY_EXISTS) cl e d f err
  else if t =? H2O_TOKEN_METHOD
  then Request (Some value) s a p pr h (Z.lor mp H2O_HPACK_PARSE_HEADERS_METHOD_EXISTS) cl e d f err
  else if t =? H2O_TOKEN_PROTOCOL
  then Request m s a p (Some value) h (Z.lor mp H2O_HPACK_PARSE_HEADERS_PROTOCOL_EXISTS) cl e d f err
  else if t =? H2O_TOKEN_PATH
  then Request m s a (Some value) pr h (Z.lor mp H2O_HPACK_PARSE_HEADERS_PATH_EXISTS) cl e d f err
  else
    let scheme := if bool_decide (value = lit "https") then H2O_URL_SCHEME_HTTPS
                  else if bool_decide (value = lit "masque") then H2O_URL_SCHEME_MASQUE
                  else H2O_URL_SCHEME_HTTP in
    Request m (Some scheme) a p pr h (Z.lor mp H2O_HPACK_PARSE_HEADERS_SCHEME_EXISTS) cl e d f err.

(** The state after a field, or the state and the code of a return. *)
Abbreviation step_result := (request + request * Z)%type.

Definition refuse (st : request) (err : hpack_err_desc) : step_result :=
  inr (set_err st err, H2O_HTTP2_ERROR_PROTOCOL).

Definition request_pseudo (st : request) (name : name_ref) (value : bytes) : step_result :=
  let invalid := refuse st h2o_hpack_err_invalid_pseudo_header in
  if bool_decide (name = NTok H2O_TOKEN_AUTHORITY) then
    if bool_decide (rq_authority st <> None) then invalid
    else inl (set_pseudo st H2O_TOKEN_AUTHORITY value)
  else if bool_decide (name = NTok H2O_TOKEN_METHOD) then
    if bool_decide (rq_method st <> None) then invalid
    else inl (set_pseudo st H2O_TOKEN_METHOD value)
  else if bool_decide (name = NTok H2O_TOKEN_PROTOCOL) then
    if bool_decide (rq_protocol st <> None) then inr (st, H2O_HTTP2_ERROR_PROTOCOL)
    else inl (set_pseudo st H2O_TOKEN_PROTOCOL value)
  else if bool_decide (name = NTok H2O_TOKEN_PATH) then
    if bool_decide (rq_path st <> None) then invalid
    else if len value =? 0 then invalid
    else inl (set_pseudo st H2O_TOKEN_PATH value)
  else if bool_decide (name = NTok H2O_TOKEN_SCHEME) then
    if bool_decide (rq_scheme st <> None) then invalid
    else inl (set_pseudo st H2O_TOKEN_SCHEME value)
  else inr (st, H2O_HTTP2_ERROR_PROTOCOL).

Definition add_request_header (st : request) (name : name_ref) (value : bytes) : request :=
  let '(Request m s a p pr h mp cl e d f err) := st in
  let h := match name with
           | NTok t => (h2o_add_header h t None value).1
           | NStr n => (h2o_add_header_by_str h n false None value).1
           end in
  Request m s a p pr h mp cl e d f err.

Definition request_regular (args : request_args) (st : request) (name : name_ref) (value : bytes)
    : step_result :=
  let '(Request m s a p pr h mp cl e d f err) := st in
  match name with
  | NStr _ => inl (add_request_header st name value)
  | NTok t =>
      if is_hpack_special (tok_flags (token t)) then
        if t =? H2O_TOKEN_CONTENT_LENGTH then
          let cl := h2o_strtosize value in
          let st := Request m s a p pr h mp cl e d f err in
          if cl =? SIZE_MAX then refuse st h2o_hpack_err_invalid_content_length_header else inl st
        else if t =? H2O_TOKEN_EXPECT then inl (Request m s a p pr h mp cl (Some value) d f err)
        else if (t =? H2O_TOKEN_HOST) && has_authority args then
          inl (match a with
               | None => Request m s (Some value) p pr h mp cl e d f err
               | Some _ => st
               end)
        else if (t =? H2O_TOKEN_TE) && h2o_lcstris value (lit "trailers")
        then inl (add_request_header st name value)
        else if (t =? H2O_TOKEN_CACHE_DIGEST) && has_digests args then
          let st := Request m s a p pr h mp cl e (h2o_cache_digests_load_header d value) f err in
          inl (add_request_header st name value)
        else if t =? H2O_TOKEN_DATAGRAM_FLOW_ID then
          inl (if has_flow_id args then Request m s a p pr h mp cl e d (Some value) err else st)
        else refuse st h2o_hpack_err_unexpected_connection_specific_header
      else inl (add_request_header st name value)
  end.

(** One field; [map] tells whether [pseudo_header_exists_map] is not NULL. *)
Definition request_field (args : request_args) (map : bool) (st : request) (name : name_ref) (value : bytes)
    : step_result * bool :=
  if hd 0 (name_bytes name) =? 58 then
    if map then (request_pseudo st name value, map)
    else (refuse st h2o_hpack_err_invalid_pseudo_header, map)
  else (request_regular args st name value, false).

Context {ctx : Type} `{HeaderDecoder ctx}.

(** The results, the decoder's state and the return code; [None]: out of fuel, or a
    callback that announces a header and sets none. *)
Fixpoint parse_request_loop (fuel : nat) (c : ctx) (args : request_args) (map : bool) (st : request)
    (src : bytes) : option (request * ctx * Z) :=
  match src with
  | [] => Some (st, c, match rq_err st with Some _ => H2O_HTTP2_ERROR_INVALID_HEADER_CHAR | None => 0 end)
  | _ =>
      match fuel with
      | O => None
      | S fuel =>
          r ← decode_cb c src None;
          let ret := cb_ret r in
          if negb (ret =? 0) && negb (ret =? H2O_HTTP2_ERROR_INVALID_HEADER_CHAR) then
            let '(Request m s a p pr h mp cl e d f _) := st in
            Some (Request m s a p pr h mp cl e d f (cb_err_desc r), cb_ctx r, ret)
          else
            let st :=
              if negb (ret =? 0) then
                match rq_err st, cb_err_desc r with
                | None, Some err => set_err st err
                | _, _ => st
                end
              else st in
            '(name, value) ← cb_header r;
            match request_field args map st name value with
            | (inl st, map) => parse_request_loop fuel (cb_ctx r) args map st (cb_src r)
            | (inr (st, code), _) => Some (st, cb_ctx r, code)
            end
      end
  end.

Definition h2o_hpack_parse_request (c : ctx) (args : request_args) (map : bool) (st : request)
    (src : bytes) : option (request * ctx * Z) :=
  let '(Request m s a p pr h mp _ e d f err) := st in
  parse_request_loop (length src) c args map (Request m s a p pr h mp SIZE_MAX e d f err) src.
End Request.

(** ** Responses *)

Record response := Response {
  rs_status : option Z;   (* [*status]; [None] for a NULL pointer *)
  rs_hdrs : h2o_headers_t;
  rs_flow_id : option bytes;
  rs_err : option hpack_err_desc }.

Abbreviation response_step := (response + response * Z)%type.

Definition refuse_response (st : response) (err : hpack_err_desc) : response_step :=
  inr (Response (rs_status st) (rs_hdrs st) (rs_flow_id st) (Some err), H2O_HTTP2_ERROR_PROTOCOL).

(** [PARSE_DIGIT(mul, min_digit)] at [*c] *)
Definition PARSE_DIGIT (st : response) (c mul min_digit : Z) : response_step :=
  if (c <? 48 + min_digit) || (57 <? c) then refuse_response st h2o_hpack_err_invalid_pseudo_header
  else inl (Response ((fun s => s + (c - 48) * mul) <$> rs_status st) (rs_hdrs st) (rs_flow_id st) (rs_err st)).

Definition bind_step (r : response_step) (k : response -> response_step) : response_step :=
  match r with inl st => k st | inr e => inr e end.

Definition response_pseudo (st : response) (name : name_ref) (value : bytes) : response_step :=
  match rs_status st with
  | None => refuse_response st h2o_hpack_err_invalid_pseudo_header
  | Some status =>
      if negb (bool_decide (name = NTok H2O_TOKEN_STATUS)) || negb (status =? 0) || negb (len value =? 3)
      then refuse_response st h2o_hpack_err_invalid_pseudo_header
      else
        bind_step (PARSE_DIGIT st (nth 0 value 0) 100 1) (fun st =>
        bind_step (PARSE_DIGIT st (nth 1 value 0) 10 0) (fun st =>
        PARSE_DIGIT st (nth 2 value 0) 1 0))
  end.

Definition add_response_header (st : response) (name : name_ref) (value : bytes) : response :=
  Response (rs_status st)
    (match name with
     | NTok t => (h2o_add_header (rs_hdrs st) t None value).1
     | NStr n => (h2o_add_header_by_str (rs_hdrs st) n false None value).1
     end) (rs_flow_id st) (rs_err st).

Definition response_regular (has_flow_id : bool) (st : response) (name : name_ref) (value : bytes)
    : response_step :=
  if bool_decide (rs_status st = Some 0)
  then refuse_response st h2o_hpack_err_missing_mandatory_pseudo_header
  else
    match name with
    | NStr _ => inl (add_response_header st name value)
    | NTok t =>
        if is_hpack_special (tok_flags (token t)) then
          if (t =? H2O_TOKEN_CONTENT_LENGTH) || (t =? H2O_TOKEN_CACHE_DIGEST) || (t =? H2O_TOKEN_HOST)
          then inl (add_response_header st name value)
          else if t =? H2O_TOKEN_DATAGRAM_FLOW_ID then
            inl (if has_flow_id then Response (rs_status st) (rs_hdrs st) (Some value) (rs_err st) else st)
          else refuse_response st h2o_hpack_err_unexpected_connection_specific_header
        else inl (add_response_header st name value)
    end.

Definition response_field (has_flow_id : bool) (st : response) (name : name_ref) (value : bytes)
    : response_step :=
  if hd 0 (name_bytes name) =? 58 then response_pseudo st name value
  else response_regular has_flow_id st name value.

Section ResponseLoop.
Context {ctx : Type} `{HeaderDecoder ctx}.

(** [do ... while (src != src_end)] *)
Fixpoint parse_response_loop (fuel : nat) (c : ctx) (has_flow_id : bool) (st : response) (src : bytes)
    : option (response * ctx * Z) :=
  match fuel with
  | O => None
  | S fuel =>
      r ← decode_cb c src None;
      let ret := cb_ret r in
      if negb (ret =? 0) && negb (ret =? H2O_HTTP2_ERROR_INVALID_HEADER_CHAR) then
        Some (Response (rs_status st) (rs_hdrs st) (rs_flow_id st) (cb_err_desc r), cb_ctx r, ret)
      else
        let st :=
          if negb (ret =? 0) then
            match rs_err st with
            | None => Response (rs_status st) (rs_hdrs st) (rs_flow_id st) (cb_err_desc r)
            | Some _ => st
            end
          else st in
        '(name, value) ← cb_header r;
        match response_field has_flow_id st name value with
        | inr (st, code) => Some (st, cb_ctx r, code)
        | inl st =>
            match cb_src r with
            | [] => Some (st, cb_ctx r,
                          match rs_err st with Some _ => H2O_HTTP2_ERROR_INVALID_HEADER_CHAR | None => 0 end)
            | src => parse_response_loop fuel (cb_ctx r) has_flow_id st src
            end
        end
  end.

(** [has_status]: [status] is not NULL. *)
Definition h2o_hpack_parse_response (c : ctx) (has_status has_flow_id : bool) (st : response) (src : bytes)
    : option (response * ctx * Z) :=
  let st := Response (if has_status then Some 0 else None) (rs_hdrs st) (rs_flow_id st) (rs_err st) in
  if has_status && (len src =? 0) then
    Some (Response (rs_status st) (rs_hdrs st) (rs_flow_id st)
            (Some h2o_hpack_err_missing_mandatory_pseudo_header), c, H2O_HTTP2_ERROR_PROTOCOL)
  else parse_response_loop (S (length src)) c has_flow_id st src.
End ResponseLoop.

(** ** What a parsed message satisfies *)

Definition is_pseudo (name : name_ref) : bool := hd 0 (name_bytes name) =? 58.

(** The fields a request's header list may hold: no pseudo header, and of the tokens that HPACK
    treats specially only [te: trailers] and [cache-digest]. *)
Definition request_header_ok (h : h2o_header_t) : Prop :=
  is_pseudo (h_name h) = false /\
  match h_name h with
  | NStr _ => True
  | NTok t => is_hpack_special (tok_flags (token t)) = true ->
      t = H2O_TOKEN_TE /\ h2o_strtolower (h_value h) = lit "trailers" \/ t = H2O_TOKEN_CACHE_DIGEST
  end.

Section RequestInvariant.
Context {digests_t : Type} (load : digests_t -> bytes -> digests_t).

(** The bits of the map tell which pseudo headers were seen ([host] may stand in for
    [:authority]). *)
Record request_ok (st : request (digests_t := digests_t)) : Prop := {
  ro_headers : Forall request_header_ok (rq_headers st);
  ro_method : Z.testbit (rq_map st) 0 = true <-> is_Some (rq_method st);
  ro_scheme : Z.testbit (rq_map st) 1 = true <-> is_Some (rq_scheme st);
  ro_path : Z.testbit (rq_map st) 2 = true <-> is_Some (rq_path st);
  ro_authority : Z.testbit (rq_map st) 3 = true -> is_Some (rq_authority st);
  ro_protocol : Z.testbit (rq_map st) 4 = true <-> is_Some (rq_protocol st);
  ro_path_nonempty : rq_path st <> Some [] }.

Definition step_ok (r : request (digests_t := digests_t) + request (digests_t := digests_t) * Z) : Prop :=
  match r with inl st => request_ok st | inr (st, code) => request_ok st /\ code = H2O_HTTP2_ERROR_PROTOCOL end.

Lemma set_err_ok st err : request_ok st -> request_ok (set_err st err).
Proof. intros [H1 H2 H3 H4 H5 H6 H7]. destruct st. by constructor. Qed.

Lemma refuse_ok st err : request_ok st -> step_ok (refuse st err).
Proof. intros. split; [by apply set_err_ok|done]. Qed.

(** Bits of the map after one more was set. *)
Ltac map_bits :=
  rewrite ?Z.lor_spec;
  repeat match goal with
         | |- context [Z.testbit (Zpos ?p) ?i] =>
             let b := eval vm_compute in (Z.testbit (Zpos p) i) in
             change (Z.testbit (Zpos p) i) with b
         end;
  rewrite ?orb_false_r, ?orb_true_r; try done; try (split; intros; by eexists).

Lemma set_pseudo_ok st t value :
  request_ok st -> t = H2O_TOKEN_AUTHORITY \/ t = H2O_TOKEN_METHOD \/ t = H2O_TOKEN_PROTOCOL \/
    t = H2O_TOKEN_PATH \/ t = H2O_TOKEN_SCHEME ->
  (t = H2O_TOKEN_PATH -> value <> []) -> request_ok (set_pseudo st t value).
Proof.
  intros [H1 H2 H3 H4 H5 H6 H7] Ht Hv. destruct st.
  destruct Ht as [->|[->|[->|[->| ->]]]]; constructor;
    cbn -[Z.testbit Z.lor]; cbn -[Z.testbit Z.lor] in H1, H2, H3, H4, H5, H6, H7; auto.
  all: unfold H2O_HPACK_PARSE_HEADERS_AUTHORITY_EXISTS, H2O_HPACK_PARSE_HEADERS_METHOD_EXISTS,
    H2O_HPACK_PARSE_HEADERS_PROTOCOL_EXISTS, H2O_HPACK_PARSE_HEADERS_PATH_EXISTS,
    H2O_HPACK_PARSE_HEADERS_SCHEME_EXISTS; map_bits.
  intros [= ->]. by apply Hv.
Qed.

Lemma request_pseudo_ok st name value : request_ok st -> step_ok (request_pseudo st name value).
Proof.
  intros Hst. unfold request_pseudo.
  repeat match goal with
         | |- step_ok (if ?b then _ else _) => destruct b eqn:?
         end;
    try (by apply refuse_ok); try done;
    apply set_pseudo_ok; auto; try done.
  intros _ ->. done.
Qed.

Lemma add_request_header_ok st name value :
  request_ok st -> request_header_ok (Header name None value false) ->
  request_ok (add_request_header st name value).
Proof.
  intros [H1 H2 H3 H4 H5 H6 H7] Hh. destruct st. constructor; simpl in *; auto.
  destruct name; apply Forall_app; split; auto.
Qed.

Lemma request_regular_ok args st name value :
  request_ok st -> is_pseudo name = false -> step_ok (request_regular load args st name value).
Proof.
  intros Hst Hn. unfold request_regular. pose proof Hst as [H1 H2 H3 H4 H5 H6 H7].
  destruct st as [m s a p pr h mp cl e d f err]. simpl in H1, H2, H3, H4, H5, H6, H7.
  destruct name as [t|n]; [|apply add_request_header_ok; [done|by split]].
  destruct (is_hpack_special (tok_flags (token t))) eqn:Hsp.
  2:{ apply add_request_header_ok; [done|]. split; [done|]. simpl. congruence. }
  destruct (t =? H2O_TOKEN_CONTENT_LENGTH).
  { destruct (h2o_strtosize value =? SIZE_MAX); [apply refuse_ok|]; by constructor. }
  destruct (t =? H2O_TOKEN_EXPECT); [by constructor|].
  destruct ((t =? H2O_TOKEN_HOST) && has_authority args).
  { destruct a; [done|]. constructor; simpl; auto; by eexists. }
  destruct ((t =? H2O_TOKEN_TE) && h2o_lcstris value (lit "trailers")) eqn:Hte.
  { apply andb_true_iff in Hte as [Ht Hv]. apply Z.eqb_eq in Ht. apply lcstris_eq in Hv.
    apply add_request_header_ok; [done|]. split; [done|]. simpl. auto. }
  destruct ((t =? H2O_TOKEN_CACHE_DIGEST) && has_digests args) eqn:Hcd.
  { apply andb_true_iff in Hcd as [Ht _]. apply Z.eqb_eq in Ht.
    apply add_request_header_ok; [by constructor|]. split; [done|]. simpl. auto. }
  destruct (t =? H2O_TOKEN_DATAGRAM_FLOW_ID); [destruct (has_flow_id args); [by constructor|done]|].
  by apply refuse_ok.
Qed.

Lemma request_field_ok args map st name value :
  request_ok st -> step_ok (request_field load args map st name value).1.
Proof.
  intros Hst. unfold request_field. destruct (hd 0 (name_bytes name) =? 58) eqn:Hp.
  - destruct map; [by apply request_pseudo_ok|by apply refuse_ok].
  - by apply request_regular_ok.
Qed.

Context {ctx : Type} `{HeaderDecoder ctx}.

(** The parser returns with the decoder in order and a well-formed request; the soft error
    is never dropped: success comes without a description. *)
Lemma parse_request_loop_ok fuel : forall c args map st src,
  (length src <= fuel)%nat -> decoder_ok c -> bytes_ok src -> request_ok st ->
  exists st' c' code, parse_request_loop load fuel c args map st src = Some (st', c', code) /\
    decoder_ok c' /\ request_ok st' /\
    (code = 0 -> rq_err st' = None).
Proof.
  induction fuel as [|fuel IH]; intros c args map st src Hf Hc Hs Hst.
  { destruct src; [|simpl in Hf; lia]. simpl. eexists _, _, _. split; [done|]. split_and!; [done|done|].
    by destruct (rq_err st). }
  destruct src as [|b src]; simpl.
  { eexists _, _, _. split; [done|]. split_and!; [done|done|]. by destruct (rq_err st). }
  destruct (decode_cb_safe c (b :: src) None Hc Hs ltac:(done)) as (r & -> & Hc' & Hok & Hsoft). cbn [mbind option_bind].
  destruct (negb (cb_ret r =? 0) && negb (cb_ret r =? H2O_HTTP2_ERROR_INVALID_HEADER_CHAR)) eqn:Hret.
  { destruct st. eexists _, _, _. split; [done|]. split_and!; [done| |].
    - destruct Hst as [H1 H2 H3 H4 H5 H6 H7]. by constructor.
    - intros H0. by rewrite H0 in Hret. }
  destruct Hok as [[[name value] Hh] Hcons].
  { destruct (Z.eqb_spec (cb_ret r) 0); [by left|].
    destruct (Z.eqb_spec (cb_ret r) H2O_HTTP2_ERROR_INVALID_HEADER_CHAR); [by right|done]. }
  rewrite Hh. cbn [mbind option_bind].
  set (st1 := if negb (cb_ret r =? 0) then _ else st).
  assert (Hst1 : request_ok st1).
  { unfold st1. destruct (negb _); [|done]. destruct (rq_err st), (cb_err_desc r); auto using set_err_ok. }
  pose proof (request_field_ok args map st1 name value Hst1) as Hfield.
  destruct (request_field load args map st1 name value) as [[st2|[st2 code]] map2]; simpl in Hfield.
  - apply IH; [|done|by eapply consumed_ok|done].
    apply consumed_length in Hcons. simpl in Hcons, Hf. lia.
  - destruct Hfield as [Hst2 ->]. eexists _, _, _. by split_and!.
Qed.
End RequestInvariant.

(** ** Responses *)

(** A response's header list: no pseudo header, and of the special tokens only the three that
    are passed through. *)
Definition response_header_ok (h : h2o_header_t) : Prop :=
  is_pseudo (h_name h) = false /\
  match h_name h with
  | NStr _ => True
  | NTok t => is_hpack_special (tok_flags (token t)) = true ->
      t = H2O_TOKEN_CONTENT_LENGTH \/ t = H2O_TOKEN_CACHE_DIGEST \/ t = H2O_TOKEN_HOST
  end.

(** The status, while no error was returned, is 0 or three digits. *)
Definition response_ok (st : response) : Prop :=
  Forall response_header_ok (rs_hdrs st) /\
  (forall s, rs_status st = Some s -> s = 0 \/ 100 <= s <= 999).

Definition response_step_ok (r : response_step) : Prop :=
  match r with
  | inl st => response_ok st /\ rs_status st <> Some 0
  | inr (st, code) => Forall response_header_ok (rs_hdrs st) /\ code = H2O_HTTP2_ERROR_PROTOCOL
  end.

Lemma refuse_response_ok st err : Forall response_header_ok (rs_hdrs st) -> response_step_ok (refuse_response st err).
Proof. intros. by split. Qed.

(** The three digits of a status line. *)
Lemma parse_status st d0 d1 d2 :
  rs_status st = Some 0 -> Forall response_header_ok (rs_hdrs st) ->
  response_step_ok
    (bind_step (PARSE_DIGIT st d0 100 1) (fun st =>
     bind_step (PARSE_DIGIT st d1 10 0) (fun st => PARSE_DIGIT st d2 1 0))).
Proof.
  intros Hs Hh. unfold PARSE_DIGIT at 1.
  destruct ((d0 <? 48 + 1) || (57 <? d0)) eqn:H0; [by apply refuse_response_ok|]. cbn [bind_step].
  unfold PARSE_DIGIT at 1. destruct ((d1 <? 48 + 0) || (57 <? d1)) eqn:H1; [by apply refuse_response_ok|].
  cbn [bind_step]. unfold PARSE_DIGIT.
  destruct ((d2 <? 48 + 0) || (57 <? d2)) eqn:H2; [by apply refuse_response_ok|].
  simpl. rewrite Hs. simpl. apply orb_false_iff in H0, H1, H2. split; [split; [done|]|].
  - intros s [= <-]. right. lia.
  - intros [= Hz]. lia.
Qed.

Lemma response_field_ok flow st name value :
  response_ok st -> response_step_ok (response_field flow st name value).
Proof.
  intros [Hh Hs]. unfold response_field. destruct (hd 0 (name_bytes name) =? 58) eqn:Hp.
  - unfold response_pseudo. destruct (rs_status st) as [s|] eqn:Es; [|by apply refuse_response_ok].
    destruct (negb (bool_decide _) || _ || _) eqn:Hc; [by apply refuse_response_ok|].
    apply parse_status; [|done]. rewrite Es.
    destruct (Z.eqb_spec s 0) as [->|]; [done|]. rewrite orb_true_r in Hc. done.
  - unfold response_regular. destruct (bool_decide_reflect (rs_status st = Some 0)); [by apply refuse_response_ok|].
    assert (Hadd : response_header_ok (Header name None value false) ->
              response_step_ok (inl (add_response_header st name value))).
    { intros Hn. split; [split; [|done]|done]. simpl. destruct name; apply Forall_app; auto. }
    destruct name as [t|n']; [|apply Hadd; by split].
    destruct (is_hpack_special (tok_flags (token t))) eqn:Hsp;
      [|apply Hadd; split; [done|simpl; congruence]].
    destruct ((t =? H2O_TOKEN_CONTENT_LENGTH) || (t =? H2O_TOKEN_CACHE_DIGEST) || (t =? H2O_TOKEN_HOST)) eqn:Ht.
    { apply Hadd. split; [done|]. intros _. rewrite !orb_true_iff, !Z.eqb_eq in Ht. tauto. }
    destruct (t =? H2O_TOKEN_DATAGRAM_FLOW_ID); [by destruct flow|by apply refuse_response_ok].
Qed.

Section ResponseInvariant.
Context {ctx : Type} `{HeaderDecoder ctx}.

Lemma parse_response_loop_ok fuel : forall c flow st src,
  (length src < fuel)%nat -> decoder_ok c -> bytes_ok src -> src <> [] -> response_ok st ->
  exists st' c' code, parse_response_loop fuel c flow st src = Some (st', c', code) /\
    decoder_ok c' /\ Forall response_header_ok (rs_hdrs st') /\
    (code = 0 -> rs_err st' = None /\ forall s, rs_status st' = Some s -> 100 <= s <= 999).
Proof.
  induction fuel as [|fuel IH]; intros c flow st src Hf Hc Hs Hne Hst; [lia|]. cbn [parse_response_loop].
  destruct (decode_cb_safe c src None Hc Hs Hne) as (r & -> & Hc' & Hok & Hsoft). cbn [mbind option_bind].
  destruct (negb (cb_ret r =? 0) && negb (cb_ret r =? H2O_HTTP2_ERROR_INVALID_HEADER_CHAR)) eqn:Hret.
  { eexists _, _, _. split; [done|]. split_and!; [done|apply Hst|]. intros H0. by rewrite H0 in Hret. }
  destruct Hok as [[[name value] Hh] Hcons].
  { destruct (Z.eqb_spec (cb_ret r) 0); [by left|].
    destruct (Z.eqb_spec (cb_ret r) H2O_HTTP2_ERROR_INVALID_HEADER_CHAR); [by right|done]. }
  rewrite Hh. cbn [mbind option_bind].
  set (st1 := if negb (cb_ret r =? 0) then _ else st).
  assert (Hst1 : response_ok st1).
  { unfold st1. destruct (negb _); [|done]. by destruct (rs_err st). }
  pose proof (response_field_ok flow st1 name value Hst1) as Hfield.
  destruct (response_field flow st1 name value) as [st2|[st2 code]]; simpl in Hfield.
  2:{ destruct Hfield as [Hst2 ->]. eexists _, _, _. by split_and!. }
  destruct Hfield as [Hst2 Hnz]. apply consumed_ok in Hcons as Hok2; [|done].
  apply consumed_length in Hcons. destruct (cb_src r) as [|b rest] eqn:Er.
  - eexists _, _, _. split; [done|]. split_and!; [done|apply Hst2|].
    destruct (rs_err st2); [done|]. intros _. split; [done|]. intros s Hss.
    destruct (proj2 Hst2 s Hss) as [->|]; [done|done].
  - apply IH; [lia|done|done|done|done].
Qed.
End ResponseInvariant.

Lemma parse_request_ok {digests_t ctx : Type} `{HeaderDecoder ctx}
    (load : digests_t -> bytes -> digests_t) (c : ctx) args map st src :
  decoder_ok c -> bytes_ok src -> request_ok st ->
  exists st' c' code, h2o_hpack_parse_request load c args map st src = Some (st', c', code) /\
    decoder_ok c' /\ request_ok st' /\ (code = 0 -> rq_err st' = None).
Proof.
  intros Hc Hs Hst. unfold h2o_hpack_parse_request. destruct st.
  apply parse_request_loop_ok; [done|done|done|]. destruct Hst. by constructor.
Qed.

Lemma parse_response_ok {ctx : Type} `{HeaderDecoder ctx} (c : ctx) has_status flow st src :
  decoder_ok c -> bytes_ok src -> has_status = true \/ src <> [] -> Forall response_header_ok (rs_hdrs st) ->
  exists st' c' code, h2o_hpack_parse_response c has_status flow st src = Some (st', c', code) /\
    decoder_ok c' /\ Forall response_header_ok (rs_hdrs st') /\
    (code = 0 -> rs_err st' = None /\ forall s, rs_status st' = Some s -> 100 <= s <= 999).
Proof.
  intros Hc Hs Hne Hst. unfold h2o_hpack_parse_response. cbn [rs_status rs_hdrs rs_flow_id rs_err].
  destruct (has_status && (len src =? 0)) eqn:E.
  { eexists _, _, _. split; [done|]. by split_and!. }
  apply parse_response_loop_ok; [lia|done|done| |].
  { intros ->. by destruct Hne as [-> |]. } split; [done|]. simpl. destruct has_status; [|done].
  intros s [= <-]. by left.
Qed.

(** ** Properties *)

(** With any decoder that keeps its promise, [h2o_hpack_parse_request] terminates on any header
    block; whatever it returns, the header list holds no pseudo header and no
    connection-specific one (only [te: trailers] and [cache-digest] of the special names),
    each bit of the map tells whether its pseudo header was set, the path is not empty, and a
    return of zero comes without an error description. *)
Theorem parse_request_wellformed {digests_t ctx : Type} `{HeaderDecoder ctx}
    (load : digests_t -> bytes -> digests_t) (c : ctx) args map st src :
  decoder_ok c -> bytes_ok src -> request_ok st ->
  exists st' c' code, h2o_hpack_parse_request load c args map st src = Some (st', c', code) /\
    decoder_ok c' /\ request_ok st' /\ (code = 0 -> rq_err st' = None).
Proof. apply parse_request_ok. Qed.

Lemma parse_request_wellformed_witness :
  exists st' c' code,
    h2o_hpack_parse_request (fun (d : unit) _ => d) (empty_table 4096) (RequestArgs true true false) true
      (Request None None None None None [] 0 0 None tt None None) [0x82; 0x84; 0x87; 0x41; 1; 97]
      = Some (st', c', code) /\
    decoder_ok c' /\ request_ok st' /\ (code = 0 -> rq_err st' = None).
Proof.
  apply (parse_request_wellformed (fun (d : unit) _ => d) (empty_table 4096) (RequestArgs true true false) true
           (Request None None None None None [] 0 0 None tt None None)).
  - apply table_ok_empty. lia.
  - repeat constructor; unfold is_byte; lia.
  - constructor; simpl; try done; split; (discriminate || (intros [x Hx]; discriminate Hx)).
Defined.

(** With any decoder that keeps its promise, [h2o_hpack_parse_response] terminates on any header
    block; the header list never holds a pseudo header or a connection-specific one, and a
    return of zero comes with a status of three digits (when one is asked for) and without an
    error description. *)
Theorem parse_response_wellformed {ctx : Type} `{HeaderDecoder ctx} (c : ctx) has_status flow st src :
  decoder_ok c -> bytes_ok src -> has_status = true \/ src <> [] -> Forall response_header_ok (rs_hdrs st) ->
  exists st' c' code, h2o_hpack_parse_response c has_status flow st src = Some (st', c', code) /\
    decoder_ok c' /\ Forall response_header_ok (rs_hdrs st') /\
    (code = 0 -> rs_err st' = None /\ forall s, rs_status st' = Some s -> 100 <= s <= 999).
Proof. apply parse_response_ok. Qed.

Lemma parse_response_wellformed_witness :
  exists st' c' code,
    h2o_hpack_parse_response (empty_table 4096) true false (Response None [] None None) [0x88; 0x40; 1; 120; 1; 49]
      = Some (st', c', code) /\
    decoder_ok c' /\ Forall response_header_ok (rs_hdrs st') /\
    (code = 0 -> rs_err st' = None /\ forall s, rs_status st' = Some s -> 100 <= s <= 999).
Proof.
  apply (parse_response_wellformed (empty_table 4096) true false (Response None [] None None)).
  - apply table_ok_empty. lia.
  - repeat constructor; unfold is_byte; lia.
  - by left.
  - constructor.
Defined.
