(* ===== verification/MessageFields.v ===== *)
(** * Messages as lists of fields

    What the parsers of requests and responses make of a block that decodes to a given list of
    fields, for any decoder of the class [HeaderDecoder]; HPACK and QPACK share it. *)
From S2P Require Import Prelude Strings Url Tokens HpackInt Huffman HeaderTable Headers Hpack.
From S2P Require Import HpackString HpackSafe HpackSync HpackFlatten HpackParse.
From Stdlib Require Import ZArith Lia.
From stdpp Require Import base list numbers option strings.
Open Scope Z_scope.

Abbreviation field := (name_ref * bytes)%type.

(** ** Blocks *)

Section Decodes.
Context {ctx : Type} `{HeaderDecoder ctx}.

(** [block] decodes to the fields, one call of the decoder each. *)
Inductive decodes : ctx -> bytes -> list field -> ctx -> Prop :=
| decodes_nil c : decodes c [] [] c
| decodes_cons c out rest f fs c1 c2 :
    (forall more err, bytes_ok more ->
       decode_cb c (out ++ more) err = Some (CbResult 0 (Some f) more c1 err)) ->
    out <> [] -> bytes_ok rest ->
    decodes c1 rest fs c2 -> decodes c (out ++ rest) (f :: fs) c2.

Lemma decodes_one c out f c1 :
  (forall more err, bytes_ok more ->
     decode_cb c (out ++ more) err = Some (CbResult 0 (Some f) more c1 err)) ->
  out <> [] -> decodes c out [f] c1.
Proof. intros Hd Hne. rewrite <- (app_nil_r out). eapply decodes_cons; eauto using decodes_nil. Qed.

Lemma decodes_app c a fs c1 b gs c2 :
  bytes_ok b -> decodes c a fs c1 -> decodes c1 b gs c2 -> decodes c (a ++ b) (fs ++ gs) c2.
Proof.
  intros Hb H1 H2. induction H1; [done|]. rewrite <- app_assoc. cbn [app].
  econstructor; eauto. by apply Forall_app.
Qed.

Lemma decodes_empty c block fs c' : decodes c block fs c' -> block = [] -> fs = [].
Proof. intros Hd. destruct Hd; [done|]. intros Hb. by apply app_nil in Hb as [-> _]. Qed.

Lemma decodes_hd c block f fs c' err :
  decodes c block (f :: fs) c' -> exists rest c1,
    decode_cb c block err = Some (CbResult 0 (Some f) rest c1 err) /\
    decodes c1 rest fs c' /\ (length rest < length block)%nat /\ (fs = [] -> rest = []) /\ (fs <> [] -> rest <> []).
Proof.
  intros Hd. inversion Hd as [|? out rest ? ? c1 ? Hcb Hne Hr Hrest]; subst.
  eexists _, _. split_and!; [by apply Hcb|done| | |].
  - rewrite length_app. destruct out; [done|]. simpl. lia.
  - intros ->. by inversion Hrest.
  - intros Hf Hn. by apply Hf, (decodes_empty _ _ _ _ Hrest).
Qed.

Lemma decodes_nil_inv c block c' : decodes c block [] c' -> block = [] /\ c' = c.
Proof. intros Hd. by inversion Hd. Qed.
End Decodes.

Definition received (h : h2o_header_t) : field := (intern (name_bytes (h_name h)), h_value h).

(** The parsed form of a header. *)
Definition as_received (h : h2o_header_t) : h2o_header_t :=
  Header (intern (name_bytes (h_name h))) None (h_value h) false.

(** ** Digits *)

Lemma digits_value_ok s : forallb is_digit s = true -> value_ok s = true.
Proof.
  intros Hd. unfold value_ok, soft_value. apply negb_true_iff, orb_false_iff.
  assert (Hall : forall c, c ∈ s -> 48 <= c <= 57).
  { intros c Hc. rewrite forallb_forall in Hd. by apply is_digit_spec, Hd, list_elem_of_In. }
  split; apply negb_false_iff.
  - apply forallb_forall. intros c Hc. apply list_elem_of_In, Hall in Hc.
    assert (Hv : forallb (fun c => valid_h2_field_value_char c) (seqZ 48 10) = true) by (vm_compute; done).
    rewrite forallb_forall in Hv. apply Hv, list_elem_of_In, elem_of_seqZ. lia.
  - destruct s as [|c0 s]; [done|]. unfold header_value_valid_as_whole.
    assert (H0 : 48 <= c0 <= 57) by (apply Hall; left).
    assert (Hn : 48 <= List.last (c0 :: s) 0 <= 57).
    { apply Hall, list_elem_of_In. destruct (exists_last (l := c0 :: s) ltac:(done)) as (l & x & ->).
      rewrite last_last. apply in_app_iff. right. by left. }
    destruct (Z.eqb_spec c0 32), (Z.eqb_spec c0 9), (Z.eqb_spec (List.last (c0 :: s) 0) 32),
      (Z.eqb_spec (List.last (c0 :: s) 0) 9); lia || done.
Qed.

Lemma status_length status : 100 <= status <= 999 -> length (decimal 3 status) = 3%nat.
Proof.
  intros Hs. cbn [decimal].
  destruct (Z.eqb_spec (status / 10) 0); [Z.div_mod_to_equations; lia|].
  destruct (Z.eqb_spec (status / 10 / 10) 0); [Z.div_mod_to_equations; lia|].
  by destruct (_ =? 0).
Qed.

(** ** Responses *)

(** The parser over a list of fields. *)
Fixpoint response_fields (flow : bool) (st : response) (fs : list field) : response_step :=
  match fs with
  | [] => inl st
  | (n, v) :: fs => bind_step (response_field flow st n v) (fun st => response_fields flow st fs)
  end.

Lemma response_field_err flow st n v st' : response_field flow st n v = inl st' -> rs_err st' = rs_err st.
Proof.
  unfold response_field, response_pseudo, response_regular, PARSE_DIGIT, refuse_response, bind_step.
  intros H. bcase_in H; try destruct (rs_status st); try destruct n; bcase_in H; try done;
    try (by injection H as <-).
Qed.

Lemma parse_response_decodes {ctx : Type} `{HeaderDecoder ctx} fs : forall fuel (td : ctx) block td' flow st st',
  fs <> [] -> decodes td block fs td' -> (length block < fuel)%nat -> rs_err st = None ->
  response_fields flow st fs = inl st' ->
  parse_response_loop fuel td flow st block = Some (st', td', 0).
Proof.
  induction fs as [|[n v] fs IH]; intros fuel td block td' flow st st' Hne Hd Hf He Hr; [done|].
  destruct fuel as [|fuel]; [lia|]. cbn [parse_response_loop].
  destruct (decodes_hd _ _ _ _ _ None Hd) as (rest & td1 & Hdec & Hd1 & Hl & Hnil & Hnn).
  rewrite Hdec. cbn [mbind option_bind cb_ret cb_header cb_src cb_ctx].
  cbn [response_fields bind_step] in Hr. change (negb (0 =? 0)) with false. cbn [andb]. cbv iota.
  destruct (response_field flow st n v) as [st1|] eqn:Hfield; [|done]. cbn [bind_step] in Hr.
  pose proof (response_field_err _ _ _ _ _ Hfield) as He1. rewrite He in He1.
  destruct fs as [|f fs].
  - rewrite (Hnil eq_refl) in *. injection Hr as <-. apply decodes_nil_inv in Hd1 as [_ ->]. by rewrite He1.
  - destruct rest as [|b rest]; [by destruct (Hnn ltac:(done))|]. apply IH; done || lia.
Qed.

Lemma response_field_adds flow st h :
  rs_status st <> Some 0 -> response_header_ok (as_received h) ->
  response_field flow st (received h).1 (received h).2 =
  inl (Response (rs_status st) (rs_hdrs st ++ [as_received h]) (rs_flow_id st) (rs_err st)).
Proof.
  intros Hs [Hp Ht]. unfold response_field, received, as_received, is_pseudo in *. cbn [fst snd h_name] in *.
  rewrite Hp. unfold response_regular. destruct (bool_decide_reflect (rs_status st = Some 0)); [done|].
  destruct (intern (name_bytes (h_name h))) as [t|s]; [|done].
  destruct (is_hpack_special (tok_flags (token t))); [|done].
  destruct (Ht eq_refl) as [->|[->| ->]]; done.
Qed.

Lemma response_fields_app flow st a b :
  response_fields flow st (a ++ b) = bind_step (response_fields flow st a) (fun st => response_fields flow st b).
Proof.
  revert st. induction a as [|[n v] a IH]; intros st; [done|]. simpl.
  destruct (response_field flow st n v); simpl; [apply IH|done].
Qed.

Lemma response_fields_add flow hs : forall st,
  rs_status st <> Some 0 -> Forall (fun h => response_header_ok (as_received h)) hs ->
  response_fields flow st (map received hs) =
  inl (Response (rs_status st) (rs_hdrs st ++ map as_received hs) (rs_flow_id st) (rs_err st)).
Proof.
  induction hs as [|h hs IH]; intros st Hs Hh; simpl.
  - rewrite app_nil_r. by destruct st.
  - inv Hh. pose proof (response_field_adds flow st h Hs) as Hf. unfold received in Hf at 1 2. simpl in Hf.
    rewrite Hf by done. cbn [bind_step]. rewrite IH by done. simpl. by rewrite <- app_assoc.
Qed.

Lemma response_field_status flow st status :
  rs_status st = Some 0 -> 100 <= status <= 999 ->
  response_field flow st (NTok H2O_TOKEN_STATUS) (decimal 3 status) =
  inl (Response (Some status) (rs_hdrs st) (rs_flow_id st) (rs_err st)).
Proof.
  intros Hst Hs. unfold response_field. change (hd 0 (name_bytes (NTok H2O_TOKEN_STATUS)) =? 58) with true.
  unfold response_pseudo. rewrite Hst. unfold len. rewrite (status_length status Hs).
  change (negb (bool_decide (NTok H2O_TOKEN_STATUS = NTok H2O_TOKEN_STATUS)) || negb (0 =? 0)
          || negb (Z.of_nat 3 =? 3)) with false. cbv iota.
  pose proof (Z.mod_pos_bound status 10 ltac:(lia)) as H0.
  pose proof (Z.mod_pos_bound (status / 10) 10 ltac:(lia)) as H1.
  assert (H2 : 1 <= status / 10 / 10 <= 9) by (Z.div_mod_to_equations; lia).
  assert (Hdec : decimal 3 status = [48 + status / 10 / 10; 48 + (status / 10) mod 10; 48 + status mod 10]).
  { cbn [decimal]. destruct (Z.eqb_spec (status / 10) 0); [Z.div_mod_to_equations; lia|].
    destruct (Z.eqb_spec (status / 10 / 10) 0); [lia|].
    destruct (Z.eqb_spec (status / 10 / 10 / 10) 0); [|Z.div_mod_to_equations; lia].
    simpl. by rewrite (Z.mod_small (status / 10 / 10)) by lia. }
  rewrite Hdec. cbn [nth]. set (a := status / 10 / 10) in *. set (b := (status / 10) mod 10) in *.
  set (c := status mod 10) in *.
  assert (Hsum : 100 * a + 10 * b + c = status) by (unfold a, b, c; Z.div_mod_to_equations; lia).
  unfold PARSE_DIGIT at 1. replace ((48 + a <? 48 + 1) || (57 <? 48 + a)) with false by lia.
  cbn [bind_step]. unfold PARSE_DIGIT at 1. replace ((48 + b <? 48 + 0) || (57 <? 48 + b)) with false by lia.
  cbn [bind_step]. unfold PARSE_DIGIT. replace ((48 + c <? 48 + 0) || (57 <? 48 + c)) with false by lia.
  simpl. rewrite Hst. simpl. do 3 f_equal. lia.
Qed.

(** The header list the peer gets: the server name, the headers and the content length. *)
Definition server_header (server : option bytes) : h2o_headers_t :=
  match server with
  | Some s => if negb (len s =? 0) then [Header (NTok H2O_TOKEN_SERVER) None s false] else []
  | None => []
  end.

Definition content_length_header (v : Z) : h2o_headers_t :=
  if negb (v =? SIZE_MAX) then [Header (NTok H2O_TOKEN_CONTENT_LENGTH) None (decimal 20 v) false] else [].

Lemma parse_response_block {ctx : Type} `{HeaderDecoder ctx} (td : ctx) block status flow fs td' st' :
  decodes td block ((NTok H2O_TOKEN_STATUS, decimal 3 status) :: fs) td' ->
  response_fields flow (Response (Some 0) [] None None)
    ((NTok H2O_TOKEN_STATUS, decimal 3 status) :: fs) = inl st' ->
  h2o_hpack_parse_response td true flow (Response None [] None None) block = Some (st', td', 0).
Proof.
  intros Hd Hr. unfold h2o_hpack_parse_response. cbn [rs_status rs_hdrs rs_flow_id rs_err andb].
  destruct block as [|b block]; [by apply decodes_empty in Hd|].
  destruct (Z.eqb_spec (len (b :: block)) 0) as [H0|_].
  { rewrite len_cons in H0. pose proof (len_nonneg block). lia. }
  by eapply parse_response_decodes; [| |lia| |exact Hr].
Qed.

(** ** Requests *)

Section RequestFields.
Context {digests_t : Type} (load : digests_t -> bytes -> digests_t).

(** The parser over a list of fields, with [pseudo_header_exists_map] not NULL or NULL. *)
Fixpoint request_fields (args : request_args) (map : bool) (st : request (digests_t := digests_t))
    (fs : list field) : option (request * bool) :=
  match fs with
  | [] => Some (st, map)
  | (n, v) :: fs =>
      match request_field load args map st n v with
      | (inl st, map) => request_fields args map st fs
      | (inr _, _) => None
      end
  end.

Lemma request_fields_app args map st a b :
  request_fields args map st (a ++ b) =
  '(st, map) ← request_fields args map st a; request_fields args map st b.
Proof.
  revert map st. induction a as [|[n v] a IH]; intros map st; [done|]. simpl.
  destruct (request_field load args map st n v) as [[st'|] map']; [apply IH|done].
Qed.

Lemma request_field_err args map st n v st' map' :
  request_field load args map st n v = (inl st', map') -> rq_err st' = rq_err st.
Proof.
  unfold request_field, request_pseudo, request_regular, refuse, set_pseudo, add_request_header.
  intros H. destruct st. bcase_in H; try done; try (by injection H as <- <-).
  all: destruct n; bcase_in H; try done; try (by injection H as <- <-).
  all: destruct rq_authority; by injection H as <- <-.
Qed.

Lemma parse_request_decodes {ctx : Type} `{HeaderDecoder ctx} fs : forall fuel (td : ctx) block td' args map st st' map',
  decodes td block fs td' -> (length block <= fuel)%nat -> rq_err st = None ->
  request_fields args map st fs = Some (st', map') ->
  parse_request_loop load fuel td args map st block = Some (st', td', 0).
Proof.
  induction fs as [|[n v] fs IH]; intros fuel td block td' args map st st' map' Hd Hf He Hr.
  { apply decodes_nil_inv in Hd as [-> ->]. injection Hr as <- <-. destruct fuel; simpl; by rewrite He. }
  destruct (decodes_hd _ _ _ _ _ None Hd) as (rest & td1 & Hdec & Hd1 & Hl & _).
  destruct block as [|b block]; [simpl in Hl; lia|]. destruct fuel as [|fuel]; [simpl in Hf; lia|].
  cbn [parse_request_loop].
  rewrite Hdec. cbn [mbind option_bind cb_ret cb_header cb_src cb_ctx].
  change (negb (0 =? 0)) with false. cbn [andb]. cbv iota. cbn [request_fields] in Hr.
  destruct (request_field load args map st n v) as [[st1|] map1] eqn:Hfield; [|done].
  apply request_field_err in Hfield. eapply IH; [done|simpl in *; lia|congruence|done].
Qed.

(** The headers of a request that are passed on as they are. *)
Definition request_plain (h : h2o_header_t) : Prop :=
  is_pseudo (intern (name_bytes (h_name h))) = false /\
  match intern (name_bytes (h_name h)) with
  | NTok t => is_hpack_special (tok_flags (token t)) = false
  | NStr _ => True
  end.

Lemma request_fields_add args hs : forall map m s a p pr h mp cl e d f err,
  Forall request_plain hs ->
  request_fields args map (Request m s a p pr h mp cl e d f err) (List.map received hs) =
  Some (Request m s a p pr (h ++ List.map as_received hs) mp cl e d f err,
        match hs with [] => map | _ => false end).
Proof.
  induction hs as [|x hs IH]; intros map m s a p pr h mp cl e d f err Hh; simpl.
  { by rewrite app_nil_r. }
  inv Hh. destruct H1 as [Hp Ht]. unfold request_field. unfold is_pseudo in Hp. rewrite Hp.
  unfold request_regular.
  assert (Hadd : forall n, n = intern (name_bytes (h_name x)) ->
    request_fields args false (add_request_header (Request m s a p pr h mp cl e d f err) n (h_value x))
      (List.map received hs) =
    Some (Request m s a p pr (h ++ as_received x :: List.map as_received hs) mp cl e d f err, false)).
  { intros n Hn. unfold add_request_header, as_received at 1. rewrite <- Hn.
    destruct n; simpl; rewrite IH by done; rewrite <- app_assoc; simpl; by destruct hs. }
  destruct (intern (name_bytes (h_name x))) as [t|s'] eqn:En; [rewrite Ht|]; by apply Hadd.
Qed.

Definition expect_field (b : bool) : list field :=
  if b then [(NTok H2O_TOKEN_EXPECT, hundred_continue)] else [].

Definition pseudo_fields (a : flatten_request_args) : list field :=
  (NTok H2O_TOKEN_METHOD, fr_method a)
  :: (if negb (old_style_connect a) then [(NTok H2O_TOKEN_SCHEME, scheme_name (fr_scheme a))] else [])
  ++ (NTok H2O_TOKEN_AUTHORITY, fr_authority a)
  :: (if negb (old_style_connect a) then [(NTok H2O_TOKEN_PATH, fr_path a)] else [])
  ++ (match fr_protocol a with Some p => [(NTok H2O_TOKEN_PROTOCOL, p)] | None => [] end).

(** What the peer gets. *)
Definition received_request (a : flatten_request_args) (d : digests_t) : request (digests_t := digests_t) :=
  Request (Some (fr_method a))
    (if negb (old_style_connect a) then Some (fr_scheme a) else None)
    (Some (fr_authority a))
    (if negb (old_style_connect a) then Some (fr_path a) else None)
    (fr_protocol a) (map as_received (fr_headers a))
    (9 + (if negb (old_style_connect a) then 6 else 0) + (match fr_protocol a with Some _ => 16 | None => 0 end))
    SIZE_MAX (if fr_send_own_expect a then Some hundred_continue else None) d None None.

Definition fresh_request (cl : Z) (d : digests_t) : request (digests_t := digests_t) :=
  Request None None None None None [] 0 cl None d None None.

(** One pseudo header that was not there yet. *)
Ltac pseudo_field := intros H; unfold request_field, request_pseudo; rewrite ?H; reflexivity.

Lemma field_method args st v :
  rq_method st = None ->
  request_field load args true st (NTok H2O_TOKEN_METHOD) v = (inl (set_pseudo st H2O_TOKEN_METHOD v), true).
Proof. pseudo_field. Qed.

Lemma field_scheme args st v :
  rq_scheme st = None ->
  request_field load args true st (NTok H2O_TOKEN_SCHEME) v = (inl (set_pseudo st H2O_TOKEN_SCHEME v), true).
Proof. pseudo_field. Qed.

Lemma field_authority args st v :
  rq_authority st = None ->
  request_field load args true st (NTok H2O_TOKEN_AUTHORITY) v = (inl (set_pseudo st H2O_TOKEN_AUTHORITY v), true).
Proof. pseudo_field. Qed.

Lemma field_protocol args st v :
  rq_protocol st = None ->
  request_field load args true st (NTok H2O_TOKEN_PROTOCOL) v = (inl (set_pseudo st H2O_TOKEN_PROTOCOL v), true).
Proof. pseudo_field. Qed.

Lemma field_path args st v :
  rq_path st = None -> v <> [] ->
  request_field load args true st (NTok H2O_TOKEN_PATH) v = (inl (set_pseudo st H2O_TOKEN_PATH v), true).
Proof.
  intros H Hv. unfold request_field, request_pseudo. rewrite H.
  assert ((len v =? 0) = false) as Hl.
  { destruct v as [|c v]; [done|]. rewrite len_cons. pose proof (len_nonneg v). lia. }
  rewrite Hl. reflexivity.
Qed.

Lemma field_expect args map m s a p pr h mp cl e d f err v :
  request_field load args map (Request m s a p pr h mp cl e d f err) (NTok H2O_TOKEN_EXPECT) v =
  (inl (Request m s a p pr h mp cl (Some v) d f err), false).
Proof. reflexivity. Qed.

Lemma scheme_of_name s :
  s <> H2O_URL_SCHEME_FASTCGI ->
  (if bool_decide (scheme_name s = lit "https") then H2O_URL_SCHEME_HTTPS
   else if bool_decide (scheme_name s = lit "masque") then H2O_URL_SCHEME_MASQUE
   else H2O_URL_SCHEME_HTTP) = s.
Proof. by destruct s. Qed.

(** The state after the pseudo headers. *)
Lemma request_fields_pseudo args a d :
  fr_scheme a <> H2O_URL_SCHEME_FASTCGI -> fr_path a <> [] ->
  request_fields args true (fresh_request SIZE_MAX d) (pseudo_fields a) =
  let '(Request m s au p pr _ mp cl _ d' f err) := received_request a d in
  Some (Request m s au p pr [] mp cl None d' f err, true).
Proof.
  intros Hs Hp. unfold pseudo_fields, received_request, fresh_request.
  cbn [request_fields]. rewrite field_method by done.
  destruct (old_style_connect a); cbn [negb app].
  - cbn [request_fields]. rewrite field_authority by done.
    destruct (fr_protocol a); cbn [request_fields]; [|done]. by rewrite field_protocol.
  - cbn [request_fields]. rewrite field_scheme by done. cbn [app request_fields].
    rewrite field_authority by done. cbn [app request_fields]. rewrite field_path by done.
    pose proof (scheme_of_name _ Hs) as Hsn.
    destruct (fr_protocol a); cbn [request_fields].
    + rewrite field_protocol by done. unfold set_pseudo. cbn -[lit]. by rewrite Hsn.
    + unfold set_pseudo. cbn -[lit]. by rewrite Hsn.
Qed.

Lemma request_fields_received args a d :
  fr_scheme a <> H2O_URL_SCHEME_FASTCGI -> fr_path a <> [] -> Forall request_plain (fr_headers a) ->
  exists map', request_fields args true (fresh_request SIZE_MAX d)
    (pseudo_fields a ++ expect_field (fr_send_own_expect a) ++ map received (fr_headers a))
  = Some (received_request a d, map').
Proof.
  intros Hs Hp Hh. rewrite request_fields_app, request_fields_pseudo by done.
  unfold received_request. cbn [mbind option_bind].
  rewrite request_fields_app. destruct (fr_send_own_expect a); cbn [expect_field request_fields mbind option_bind].
  - rewrite field_expect. cbn [mbind option_bind]. rewrite request_fields_add; [by eexists|done].
  - rewrite request_fields_add; [by eexists|done].
Qed.

End RequestFields.
