(* ===== verification/HpackMessage.v ===== *)
(** * HPACK: messages end to end

    A response written by [h2o_hpack_flatten_response] and read by
    [h2o_hpack_parse_response] (and a request likewise) gives back its parts, and leaves the
    two dynamic tables in step. *)
From S2P Require Import Prelude Strings Url Tokens HpackInt Huffman HeaderTable Headers Hpack.
From S2P Require Import HpackString HpackSafe HpackSync Http2Frame HpackFlatten HpackParse MessageFields.
From Stdlib Require Import ZArith Lia.
From stdpp Require Import base list numbers option strings.
Open Scope Z_scope.
Open Scope writer_scope.

(** ** Blocks *)

(** The decoder as the parsers call it. *)
Lemma hpack_cb_field td src f more td1 err :
  h2o_hpack_decode_header td src err = Some (HeaderResult 0 (Some f) more td1 err) ->
  decode_cb td src err = Some (CbResult 0 (Some f) more td1 err).
Proof. intros H. cbn. unfold hpack_cb. by rewrite H. Qed.

(** From tables in step, [w] writes octets that decode to [fs], and they stay in step. *)
Definition sends (w : writer bytes) (fs : list field) : Prop :=
  forall te td, Sync te td ->
  exists out te' td', w te = Some (out, te') /\ bytes_ok out /\ Sync te' td' /\
    hpack_max_capacity td' = hpack_max_capacity td /\ decodes td out fs td'.

Lemma sends_app a b fs gs : sends a fs -> sends b gs -> sends (a +++ b) (fs ++ gs).
Proof.
  intros Ha Hb te td HS. destruct (Ha te td HS) as (o & te1 & td1 & Hw & Ho & HS1 & Hm1 & Hd1).
  destruct (Hb te1 td1 HS1) as (o' & te2 & td2 & Hw' & Ho' & HS2 & Hm2 & Hd2).
  unfold wapp. rewrite Hw. cbn [mbind option_bind]. rewrite Hw'. cbn [mbind option_bind].
  exists (o ++ o'), te2, td2. split_and!; [done|by apply Forall_app|done|congruence|].
  by eapply decodes_app.
Qed.

Lemma sends_nil : sends wnil [].
Proof. intros te td HS. exists [], te, td. split_and!; try done. constructor. Qed.

(** A field whose octets do not depend on the tables. *)
Lemma sends_ret out f :
  bytes_ok out -> out <> [] ->
  (forall td more err, bytes_ok more ->
     h2o_hpack_decode_header td (out ++ more) err = Some (HeaderResult 0 (Some f) more td err)) ->
  sends (wret out) [f].
Proof.
  intros Ho Hne Hd te td HS. exists out, te, td. split_and!; try done.
  apply decodes_one; [|done]. intros. by apply hpack_cb_field, Hd.
Qed.

(** A header the encoder can send: a valid name and value, and no request to keep out of the
    tables a name that is in none. *)
Definition sendable (h : h2o_header_t) : Prop :=
  header_wf (h_name h) (h_value h) /\ plain (h_name h) (h_value h) (h_dont_compress h).

Lemma header_wf_size name value : header_wf name value -> field_size_ok name value.
Proof. intros (H1 & H2 & H3 & H4 & _). by split_and!. Qed.

Lemma sync_enc_ok te td : Sync te td -> enc_ok te.
Proof. intros (l & ld & HR & _ & _ & Ht & _ & Hc & _). by exists l. Qed.

Lemma sends_do_encode name value dc :
  header_wf name value -> plain name value dc ->
  sends (fun te => do_encode_header te name value dc) [(intern (name_bytes name), value)].
Proof.
  intros Hwf Hp te td HS.
  destruct (do_encode_header_bounded name value dc (header_wf_size _ _ Hwf) te (sync_enc_ok _ _ HS))
    as (out & te' & Hout & _ & Hob & _).
  destruct (encode_decode_header te td name value dc HS Hwf Hp) as (out1 & te1 & td1 & Hout1 & Hd1 & HS1 & Hm1).
  assert (out1 = out /\ te1 = te') as [-> ->] by (rewrite Hout in Hout1; by injection Hout1).
  exists out, te', td1. split_and!; try done.
  apply decodes_one; [intros; by apply hpack_cb_field|intros ->].
  specialize (Hd1 [] None). discriminate Hd1.
Qed.

(** ** Fields of the static table *)

Lemma determine_static td k vi src err n v :
  1 <= k < 62 -> nth (Z.to_nat (k - 1)) h2o_hpack_static_table (0, []) = (n, v) ->
  determine_name td k vi src err = Some (inl (NTok n, if vi then Some v else None, 0, src, err)).
Proof.
  intros Hk Hn. unfold determine_name, HEADER_TABLE_OFFSET.
  destruct (Z.ltb_spec 0 k), (Z.ltb_spec k 62); try lia. by rewrite Hn.
Qed.

Lemma sends_static k n v :
  1 <= k < 62 -> nth (Z.to_nat (k - 1)) h2o_hpack_static_table (0, []) = (n, v) ->
  sends (wret (h2o_hpack_encode_int 0x80 k 7)) [(NTok n, v)].
Proof.
  intros Hk Hn. apply sends_ret.
  - apply encode_int_ok.
  - intros He. apply (encode_int_nonempty 0x80 k 7 []). by rewrite He.
  - intros td more err _.
    rewrite (decode_header_field _ _ _ k true false more) by (apply rep_indexed; unfold INT64_MAX; lia).
    unfold decode_field. by rewrite (determine_static td k true more err n v Hk Hn).
Qed.

Lemma rep_without_indexing k rest :
  1 <= k <= INT64_MAX ->
  decode_representation (h2o_hpack_encode_int 0 k 4 ++ rest) = Some (Field k false false, rest).
Proof.
  intros Hk. representation 0 4 k. rewrite Z.add_0_l.
  destruct (Z.leb_spec 128 (Z.min k (2 ^ 4 - 1))); [lia|].
  destruct (Z.leb_spec 64 (Z.min k (2 ^ 4 - 1))); [lia|].
  destruct (Z.ltb_spec (Z.min k (2 ^ 4 - 1)) 32); [|lia].
  change 0xf with (Z.ones 4). rewrite Z.land_ones, Z.mod_small by lia.
  destruct (Z.eqb_spec (Z.min k (2 ^ 4 - 1)) 0); [lia|].
  destruct (Z.leb_spec k 0); [lia|done].
Qed.

Lemma sends_literal k n v value :
  1 <= k < 62 -> nth (Z.to_nat (k - 1)) h2o_hpack_static_table (0, []) = (n, v) ->
  bytes_ok value -> len value <= INT64_MAX -> value_ok value = true ->
  sends (wret (h2o_hpack_encode_int 0 k 4 ++ encode_as_is value)) [(NTok n, value)].
Proof.
  intros Hk Hn Hb Hl Hv. apply sends_ret.
  - apply Forall_app. split; [apply encode_int_ok|]. by apply encode_as_is_length.
  - apply encode_int_nonempty.
  - intros td more err _. rewrite <- app_assoc.
    rewrite (decode_header_field _ _ _ k false false (encode_as_is value ++ more))
      by (apply rep_without_indexing; unfold INT64_MAX; lia).
    by erewrite decode_field_literal; [|exact (determine_static td k false _ err n v Hk Hn)|by apply decode_as_is].
Qed.

Lemma encode_as_is_short s : len s < 127 -> encode_as_is s = wrap8 (len s) :: s.
Proof.
  intros Hl. unfold encode_as_is, h2o_hpack_encode_int, encode_int_is_onebyte.
  change (Z.shiftl 1 7 - 1) with 127. destruct (Z.ltb_spec (len s) 127); [|lia]. by rewrite Z.lor_0_l.
Qed.

(** The status line, by index for the common codes. *)
Lemma sends_status status :
  100 <= status <= 999 ->
  sends (fun table => out ← encode_status status; Some (out, table))
    [(NTok H2O_TOKEN_STATUS, decimal 3 status)].
Proof.
  intros Hs. unfold encode_status.
  destruct (Z.leb_spec 100 status), (Z.leb_spec status 999); try lia. cbn [negb andb mbind option_bind].
  repeat match goal with
         | |- context [status =? ?k] =>
             destruct (Z.eqb_spec status k) as [->|];
             [match goal with
              | |- sends (fun table => Some (?o, table)) _ =>
                  first [exact (sends_static 8 _ _ ltac:(lia) eq_refl)
                        |exact (sends_static 9 _ _ ltac:(lia) eq_refl)
                        |exact (sends_static 10 _ _ ltac:(lia) eq_refl)
                        |exact (sends_static 11 _ _ ltac:(lia) eq_refl)
                        |exact (sends_static 12 _ _ ltac:(lia) eq_refl)
                        |exact (sends_static 13 _ _ ltac:(lia) eq_refl)
                        |exact (sends_static 14 _ _ ltac:(lia) eq_refl)]
              end|]
         end.
  pose proof (status_length status Hs) as Hl. pose proof (decimal_digits 3 status) as Hd.
  replace (8 :: 3 :: decimal 3 status) with (h2o_hpack_encode_int 0 8 4 ++ encode_as_is (decimal 3 status)).
  2:{ rewrite encode_as_is_short by (unfold len; lia). unfold len. by rewrite Hl. }
  apply (sends_literal 8 _ (lit "200")); [lia|done|by apply digits_bytes| |by apply digits_value_ok].
  unfold len, INT64_MAX. lia.
Qed.

Lemma sends_content_length v :
  sends (wret (encode_content_length v)) [(NTok H2O_TOKEN_CONTENT_LENGTH, decimal 20 v)].
Proof.
  pose proof (decimal_length 20 v) as Hl. pose proof (decimal_digits 20 v) as Hd.
  replace (encode_content_length v) with (h2o_hpack_encode_int 0 28 4 ++ encode_as_is (decimal 20 v)).
  2:{ unfold encode_content_length. rewrite encode_as_is_short by (unfold len; lia). done. }
  apply (sends_literal 28 _ []); [lia|done|by apply digits_bytes| |by apply digits_value_ok].
  unfold len, INT64_MAX. lia.
Qed.

(** ** Header lists and size updates *)

Lemma sends_header h : sendable h -> sends (encode_header h) [received h].
Proof. intros [Hwf Hp]. by apply sends_do_encode. Qed.

Lemma sends_wseq (f : h2o_header_t -> writer bytes) (hs : h2o_headers_t) :
  (forall h, sendable h -> sends (f h) [received h]) ->
  Forall sendable hs -> sends (wseq f hs) (map received hs).
Proof.
  intros Hf. induction 1 as [|h hs Hh Hhs IH]; [apply sends_nil|]. simpl.
  apply (sends_app _ _ [received h]); [by apply Hf|done].
Qed.

Lemma plain_token t value : is_token_index t -> plain (NTok t) value (tok_dont_compress (tok_flags (token t))).
Proof.
  intros Ht Hd _. eexists. split; [done|]. by apply dont_compress_indexed.
Qed.

Lemma plain_false name value : plain name value false.
Proof. intros ?. done. Qed.

Lemma sends_token t value :
  header_wf (NTok t) value -> sends (encode_header_token t value) [(NTok t, value)].
Proof.
  intros Hwf. pose proof (proj1 Hwf) as Ht. simpl in Ht.
  pose proof (sends_do_encode (NTok t) value _ Hwf (plain_token t value Ht)) as Hs.
  by rewrite (intern_token t Ht) in Hs.
Qed.

Lemma sends_adjust cap w f fs :
  0 <= cap -> sends w (f :: fs) -> sends (header_table_adjust cap +++ w) (f :: fs).
Proof.
  intros Hcap Hw te td HS.
  destruct (adjust_size_sync te td cap HS Hcap) as (o & te1 & td1 & Ha & Ho & HS1 & Hm1 & _ & Hd1).
  destruct (Hw te1 td1 HS1) as (o' & te2 & td2 & Hw' & Ho' & HS2 & Hm2 & Hd2).
  unfold wapp, header_table_adjust. rewrite Ha. cbn [mbind option_bind]. rewrite Hw'. cbn [mbind option_bind].
  exists (o ++ o'), te2, td2. split_and!; [done|by apply Forall_app|done|congruence|].
  inv Hd2. rewrite app_assoc. eapply decodes_cons; [|intros Hn; by apply app_nil in Hn as [_ ?]|done|done].
  intros more err Hmore. rewrite <- app_assoc. cbn. unfold hpack_cb. rewrite Hd1; [by apply H1|].
  apply Forall_app in Ho' as [? _]. by apply Forall_app.
Qed.

(** The pseudo headers of a request. *)
Lemma sends_method m : header_wf (NTok H2O_TOKEN_METHOD) m -> sends (encode_method m) [(NTok H2O_TOKEN_METHOD, m)].
Proof.
  intros Hm. unfold encode_method. destruct (bool_decide_reflect (m = lit "GET")) as [->|].
  { exact (sends_static 2 _ _ ltac:(lia) eq_refl). }
  destruct (bool_decide_reflect (m = lit "POST")) as [->|]; [|by apply sends_token].
  exact (sends_static 3 _ _ ltac:(lia) eq_refl).
Qed.

Lemma sends_scheme s : sends (encode_scheme s) [(NTok H2O_TOKEN_SCHEME, scheme_name s)].
Proof.
  unfold encode_scheme. destruct (bool_decide_reflect (s = H2O_URL_SCHEME_HTTPS)) as [->|].
  { exact (sends_static 7 _ _ ltac:(lia) eq_refl). }
  destruct (bool_decide_reflect (s = H2O_URL_SCHEME_HTTP)) as [->|].
  { exact (sends_static 6 _ _ ltac:(lia) eq_refl). }
  apply sends_token. split_and!; try done; destruct s; try done; apply lit_ok.
Qed.

Lemma sends_path p : header_wf (NTok H2O_TOKEN_PATH) p -> sends (encode_path p) [(NTok H2O_TOKEN_PATH, p)].
Proof.
  intros Hm. unfold encode_path. destruct (bool_decide_reflect (p = lit "/")) as [->|].
  { exact (sends_static 4 _ _ ltac:(lia) eq_refl). }
  destruct (bool_decide_reflect (p = lit "/index.html")) as [->|]; [|by apply sends_token].
  exact (sends_static 5 _ _ ltac:(lia) eq_refl).
Qed.

Lemma sends_request_header h : sendable h -> sends (encode_request_header h) [received h].
Proof.
  intros Hh. unfold encode_request_header.
  destruct (bool_decide_reflect (h_name h = NTok H2O_TOKEN_ACCEPT_ENCODING)) as [Hn|]; [|by apply sends_header].
  destruct (bool_decide_reflect (h_value h = lit "gzip, deflate")) as [Hv|]; [|by apply sends_header].
  unfold received. rewrite Hn, Hv, intern_token by done. exact (sends_static 16 _ _ ltac:(lia) eq_refl).
Qed.

(** ** Responses *)

Definition response_headers (headers : h2o_headers_t) (server : option bytes) (content_length : Z) : h2o_headers_t :=
  server_header server ++ headers ++ content_length_header content_length.

Record response_sendable (headers : h2o_headers_t) (server : option bytes) (status : Z) : Prop := {
  sr_headers : Forall sendable headers;
  sr_allowed : Forall (fun h => response_header_ok (as_received h)) headers;
  sr_server : forall s, server = Some s -> s <> [] -> header_wf (NTok H2O_TOKEN_SERVER) s;
  sr_status : 100 <= status <= 999 }.

Lemma sends_response cap status headers server content_length :
  0 <= cap -> response_sendable headers server status ->
  sends (response_block cap status headers server content_length)
    ((NTok H2O_TOKEN_STATUS, decimal 3 status) :: map received (response_headers headers server content_length)).
Proof.
  intros Hcap [Hh _ Hsv Hst]. unfold response_block, response_headers. rewrite !map_app.
  apply sends_adjust; [done|]. apply (sends_app _ _ [_]); [by apply sends_status|].
  apply sends_app.
  - unfold server_header. destruct server as [s|]; [|apply sends_nil].
    destruct (Z.eqb_spec (len s) 0) as [|Hne]; [apply sends_nil|].
    apply sends_token, Hsv; [done|]. intros ->. done.
  - apply sends_app; [apply sends_wseq; [apply sends_header|done]|].
    unfold content_length_header. destruct (negb _); [apply sends_content_length|apply sends_nil].
Qed.

Lemma response_headers_allowed headers server content_length status :
  response_sendable headers server status ->
  Forall (fun h => response_header_ok (as_received h)) (response_headers headers server content_length).
Proof.
  intros [_ Ha _ _]. unfold response_headers, server_header, content_length_header.
  apply Forall_app; split; [|apply Forall_app; split; [done|]].
  - destruct server as [s|]; [|constructor]. destruct (negb _); [|constructor].
    constructor; [|constructor]. by split.
  - destruct (negb _); [|constructor]. constructor; [|constructor]. split; [done|]. intros _. by left.
Qed.

(** A message written and read: its frames, its block and the tables. *)
Lemma flatten_sends buf te td capacity w f fs type stream_id max_size flags tail :
  sends w (f :: fs) -> Sync te td ->
  1 <= max_size <= 0xffffff -> 0 <= stream_id < 2 ^ 31 -> is_byte type -> flags = 0 \/ flags = 1 ->
  exists r frames first td',
    flatten buf te capacity w type stream_id max_size flags = Some r /\ fl_buf r = buf ++ frames /\
    read_block max_size (frames ++ tail) = Some (first, fl_block r, tail) /\
    f_type first = type /\ f_stream_id first = stream_id /\
    has_flag first H2O_HTTP2_FRAME_FLAG_END_STREAM = (flags =? 1) /\
    decodes td (fl_block r) (f :: fs) td' /\ Sync (fl_table r) td' /\
    hpack_max_capacity td' = hpack_max_capacity td.
Proof.
  intros Hw HS Hm Hs Ht Hf. destruct (Hw te td HS) as (out & te' & td' & Hout & Ho & HS' & Hm' & Hd).
  destruct (fixup_read buf out type stream_id max_size flags tail Hm Hs Ht Hf)
    as (frames & first & Hfix & Hread & H1 & H2 & H3).
  unfold flatten. rewrite Hout. cbn [mbind option_bind]. rewrite Hfix. cbn [mbind option_bind].
  eexists _, frames, first, td'. split; [done|]. simpl. split_and!; done.
Qed.

Lemma response_roundtrip buf te td cap stream_id max_size status headers server content_length end_stream tail :
  Sync te td -> response_sendable headers server status -> 0 <= cap ->
  1 <= max_size <= 0xffffff -> 0 <= stream_id < 2 ^ 31 ->
  exists r frames first td',
    h2o_hpack_flatten_response buf te cap stream_id max_size status headers server content_length end_stream
      = Some (r, len (fl_block r)) /\
    fl_buf r = buf ++ frames /\
    read_block max_size (frames ++ tail) = Some (first, fl_block r, tail) /\
    f_type first = H2O_HTTP2_FRAME_TYPE_HEADERS /\ f_stream_id first = stream_id /\
    has_flag first H2O_HTTP2_FRAME_FLAG_END_STREAM = end_stream /\
    h2o_hpack_parse_response td true false (Response None [] None None) (fl_block r) =
      Some (Response (Some status) (map as_received (response_headers headers server content_length)) None None,
            td', 0) /\
    Sync (fl_table r) td'.
Proof.
  intros HS Hok Hcap Hm Hs.
  destruct (flatten_sends buf te td (response_capacity headers server content_length) _ _ _
    H2O_HTTP2_FRAME_TYPE_HEADERS stream_id max_size
    (if end_stream then H2O_HTTP2_FRAME_FLAG_END_STREAM else 0) tail
    (sends_response cap status headers server content_length Hcap Hok) HS Hm Hs)
    as (r & frames & first & td' & Hfl & Hb & Hread & H1 & H2 & H3 & Hd & HS' & _); [done|by destruct end_stream; auto|].
  unfold h2o_hpack_flatten_response. rewrite Hfl. cbn [mbind option_bind].
  exists r, frames, first, td'. split_and!; try done; [by destruct end_stream|].
  eapply parse_response_block; [exact Hd|]. cbn [response_fields].
  rewrite response_field_status by (done || apply Hok). cbn [bind_step rs_hdrs rs_flow_id rs_err].
  rewrite response_fields_add; [done| |by eapply response_headers_allowed].
  intros [= Hz]. destruct Hok as [_ _ _ Hst]. lia.
Qed.

(** ** Requests *)

Section RequestRoundTrip.
Context {digests_t : Type} (load : digests_t -> bytes -> digests_t).

Record request_sendable (a : flatten_request_args) : Prop := {
  sq_method : header_wf (NTok H2O_TOKEN_METHOD) (fr_method a);
  sq_scheme : fr_scheme a <> H2O_URL_SCHEME_FASTCGI;
  sq_authority : header_wf (NTok H2O_TOKEN_AUTHORITY) (fr_authority a);
  sq_path : header_wf (NTok H2O_TOKEN_PATH) (fr_path a) /\ fr_path a <> [];
  sq_protocol : forall p, fr_protocol a = Some p -> header_wf (NTok H2O_TOKEN_PROTOCOL) p;
  sq_headers : Forall sendable (fr_headers a);
  sq_plain : Forall request_plain (fr_headers a) }.

Lemma sends_request cap a :
  0 <= cap -> request_sendable a ->
  sends (request_block cap a)
    (pseudo_fields a ++ expect_field (fr_send_own_expect a) ++ map received (fr_headers a)).
Proof.
  intros Hcap [Hm _ Ha [Hp _] Hpr Hh _]. unfold request_block, pseudo_fields.
  cbn [app]. apply sends_adjust; [done|]. apply (sends_app _ _ [_]); [by apply sends_method|].
  rewrite <- app_assoc. apply sends_app.
  { destruct (negb _); [apply sends_scheme|apply sends_nil]. }
  cbn [app]. apply (sends_app _ _ [_]); [by apply sends_token|]. rewrite <- app_assoc. apply sends_app.
  { destruct (negb _); [by apply sends_path|apply sends_nil]. }
  apply sends_app.
  { destruct (fr_protocol a) as [p|]; [|apply sends_nil].
    apply (sends_header (Header (NTok H2O_TOKEN_PROTOCOL) None p false)).
    split; [by apply Hpr|apply plain_false]. }
  apply sends_app; [|apply sends_wseq; [apply sends_request_header|done]].
  unfold expect_field. destruct (fr_send_own_expect a); [|apply sends_nil].
  apply sends_token. split_and!; try done. apply lit_ok.
Qed.

Lemma request_roundtrip buf te td cap stream_id max_size a args cl d tail :
  Sync te td -> request_sendable a -> 0 <= cap ->
  1 <= max_size <= 0xffffff -> 0 <= stream_id < 2 ^ 31 ->
  exists r frames first td',
    h2o_hpack_flatten_request buf te cap stream_id max_size a = Some r /\
    fl_buf r = buf ++ frames /\
    read_block max_size (frames ++ tail) = Some (first, fl_block r, tail) /\
    f_type first = H2O_HTTP2_FRAME_TYPE_HEADERS /\ f_stream_id first = stream_id /\
    has_flag first H2O_HTTP2_FRAME_FLAG_END_STREAM = fr_is_end_stream a /\
    h2o_hpack_parse_request load td args true (fresh_request cl d) (fl_block r) =
      Some (received_request a d, td', 0) /\
    Sync (fl_table r) td'.
Proof.
  intros HS Hok Hcap Hm Hs. pose proof (sends_request cap a Hcap Hok) as Hsend.
  unfold pseudo_fields in Hsend. cbn [app] in Hsend.
  destruct (flatten_sends buf te td (request_capacity a) _ _ _
    H2O_HTTP2_FRAME_TYPE_HEADERS stream_id max_size
    (if fr_is_end_stream a then H2O_HTTP2_FRAME_FLAG_END_STREAM else 0) tail Hsend HS Hm Hs)
    as (r & frames & first & td' & Hfl & Hb & Hread & H1 & H2 & H3 & Hd & HS' & _);
    [done|by destruct (fr_is_end_stream a); auto|].
  exists r, frames, first, td'. split_and!; try done; [by destruct (fr_is_end_stream a)|].
  destruct (request_fields_received load args a d) as [map' Hr]; [apply Hok..|].
  unfold h2o_hpack_parse_request, fresh_request. eapply parse_request_decodes; [exact Hd|done|done|].
  exact Hr.
Qed.
End RequestRoundTrip.

(** ** Properties *)




