(* ===== verification/Qpack.v ===== *)
(** * QPACK: the dynamic table and the decoder (lib/http3/qpack.c)

    The decoder has two inputs: the instructions of the peer's encoder stream
    ([h2o_qpack_decoder_handle_input]), which fill the dynamic table, and the header blocks of
    the requests ([h2o_qpack_parse_request], [h2o_qpack_parse_response]), which refer to it.
    [None] is a failed assertion or a read outside of an object. *)
From S2P Require Import Prelude Tokens HpackInt Huffman HeaderTable Headers Hpack HpackSafe HpackParse Http3Frame.
From Stdlib Require Import ZArith Lia.
From stdpp Require Import base list numbers option.
Open Scope Z_scope.

(** ** The dynamic table *)

(** [qt_entries] are the entries in [first, last), oldest first; the positions of [first] and
    of [buf_end] are relative to [buf_start]. *)
Record qpack_table := QTable {
  qt_entries : list table_entry;
  qt_first : nat;
  qt_capacity : nat;
  qt_base_offset : Z; (* absolute index of [first] *)
  qt_num_bytes : Z;
  qt_max_size : Z }.

Definition qpack_table_init (max_size : Z) : qpack_table := QTable [] 0 0 1 0 max_size.

Fixpoint qpack_evict_loop (entries : list table_entry) (first : nat) (base_offset num_bytes max_size delta : Z)
    : option (list table_entry * nat * Z * Z) :=
  match entries with
  | [] => if num_bytes =? 0 then Some ([], first, base_offset, num_bytes) else None
  | e :: rest =>
      if num_bytes + delta <=? max_size then Some (entries, first, base_offset, num_bytes)
      else qpack_evict_loop rest (S first) (base_offset + 1)
             (num_bytes - entry_size (e_name e) (e_value e)) max_size delta
  end.

Definition qpack_table_evict (t : qpack_table) (delta : Z) : option qpack_table :=
  '(entries, first, base_offset, num_bytes) ←
    qpack_evict_loop (qt_entries t) (qt_first t) (qt_base_offset t) (qt_num_bytes t) (qt_max_size t) delta;
  Some (QTable entries first (qt_capacity t) base_offset num_bytes (qt_max_size t)).

(** The place for one more entry at [last]: the new [first] and capacity. *)
Definition qpack_table_room (count first capacity : nat) : option (nat * nat) :=
  if (first + count =? capacity)%nat then
    let new_capacity := if (count <=? 2)%nat then 4%nat else (count * 2)%nat in
    if (capacity <? new_capacity)%nat then Some (0%nat, new_capacity)
    else if (first =? 0)%nat then None else Some (0%nat, capacity)
  else Some (first, capacity).

Definition qpack_table_insert (t : qpack_table) (added : table_entry) : option qpack_table :=
  let size := entry_size (e_name added) (e_value added) in
  t ← qpack_table_evict t size;
  '(first, capacity) ← qpack_table_room (length (qt_entries t)) (qt_first t) (qt_capacity t);
  Some (QTable (qt_entries t ++ [added]) first capacity (qt_base_offset t) (qt_num_bytes t + size) (qt_max_size t)).

Definition qpack_table_total_inserts (t : qpack_table) : Z := qt_base_offset t + len (qt_entries t).

(** The index is compared with a [size_t]. *)
Definition resolve_static_abs (index : Z) : option (Z * bytes) :=
  if len h2o_qpack_static_table <=? wrap64 index then None
  else h2o_qpack_static_table !! Z.to_nat index.

Definition resolve_dynamic_abs (t : qpack_table) (index : Z) : option table_entry :=
  if index <? qt_base_offset t then None
  else
    let index := index - qt_base_offset t in
    if len (qt_entries t) <=? index then None else qt_entries t !! Z.to_nat index.

(** ** Integers and values *)

(** The code, the value and [*src]. *)
Definition qpack_decode_int (src : bytes) (prefix_bits : Z) : Z * Z * bytes :=
  let '(value, src) := h2o_hpack_decode_int src prefix_bits in
  if value <? 0
  then (if value =? H2O_HTTP2_ERROR_INCOMPLETE then H2O_HTTP3_ERROR_INCOMPLETE
        else H2O_HTTP3_ERROR_QPACK_DECOMPRESSION_FAILED, value, src)
  else (0, value, src).

(** The value ([None] for [SIZE_MAX]), the soft errors and [*err_desc]. *)
Definition decode_value (soft_errors : Z) (is_huff : bool) (src : bytes) (err : option hpack_err_desc)
    : huff_result :=
  if is_huff then h2o_hpack_decode_huffman src false soft_errors err
  else HuffResult (Some src) (h2o_hpack_validate_header_value src soft_errors) err.

(** ** The decoder *)

Record qpack_decoder := QDecoder {
  qd_table : qpack_table;
  qd_header_table_size : Z;
  qd_max_entries : Z;
  qd_insert_count : Z;  (* [uint32_t] *)
  qd_total_inserts : Z; (* [uint64_t] *)
  qd_max_blocked : Z;
  qd_blocked : list (Z * Z); (* stream_id and largest_ref *)
  qd_num_unblocked : nat }.

Definition h2o_qpack_create_decoder (header_table_size max_blocked : Z) : qpack_decoder :=
  QDecoder (qpack_table_init header_table_size) header_table_size (header_table_size / 32) 0 0 max_blocked [] 0.

Definition set_table (q : qpack_decoder) (t : qpack_table) : qpack_decoder :=
  QDecoder t (qd_header_table_size q) (qd_max_entries q) (qd_insert_count q) (qd_total_inserts q)
    (qd_max_blocked q) (qd_blocked q) (qd_num_unblocked q).

Definition set_blocked (q : qpack_decoder) (blocked : list (Z * Z)) (num_unblocked : nat) : qpack_decoder :=
  QDecoder (qd_table q) (qd_header_table_size q) (qd_max_entries q) (qd_insert_count q) (qd_total_inserts q)
    (qd_max_blocked q) blocked num_unblocked.

(** [for (i = size; i != 0; --i) if (entries[i - 1].largest_ref <= largest_ref) break;] *)
Fixpoint link_position (entries : list (Z * Z)) (i : nat) (largest_ref : Z) : nat :=
  match i with
  | O => O
  | S i' => if (nth i' entries (0, 0)).2 <=? largest_ref then i else link_position entries i' largest_ref
  end.

Definition decoder_link_blocked (q : qpack_decoder) (stream_id largest_ref : Z) : qpack_decoder :=
  let i := link_position (qd_blocked q) (length (qd_blocked q)) largest_ref in
  set_blocked q (take i (qd_blocked q) ++ (stream_id, largest_ref) :: drop i (qd_blocked q)) (qd_num_unblocked q).

Definition decoder_insert (q : qpack_decoder) (added : table_entry) : option qpack_decoder :=
  t ← qpack_table_insert (qd_table q) added;
  Some (QDecoder t (qd_header_table_size q) (qd_max_entries q) (wrap32 (qd_insert_count q + 1))
          (wrap64 (qd_total_inserts q + 1)) (qd_max_blocked q) (qd_blocked q) (qd_num_unblocked q)).

(** The code, the decoder and [*err_desc]. *)
Abbreviation instr_result := (option (Z * qpack_decoder * option hpack_err_desc)).

Definition qpack_failed (q : qpack_decoder) (err : option hpack_err_desc) : instr_result :=
  Some (H2O_HTTP3_ERROR_QPACK_DECOMPRESSION_FAILED, q, err).

Definition decode_value_and_insert (q : qpack_decoder) (name : name_ref) (soft_errors : Z) (is_huff : bool)
    (qstr : bytes) (err : option hpack_err_desc) : instr_result :=
  let r := decode_value soft_errors is_huff qstr err in
  match hr_dst r with
  | None => qpack_failed q (hr_err_desc r)
  | Some value =>
      if qt_max_size (qd_table q) <? entry_size name value
      then qpack_failed q (Some h2o_qpack_err_header_exceeds_table_size)
      else
        q ← decoder_insert q (Entry name value (hr_soft_errors r));
        Some (0, q, hr_err_desc r)
  end.

Definition insert_token_header (q : qpack_decoder) (name : Z) (value_is_huff : bool) (value : bytes)
    (err : option hpack_err_desc) : instr_result :=
  decode_value_and_insert q (NTok name) 0 value_is_huff value err.

Definition insert_literal_header (q : qpack_decoder) (name : bytes) (value_is_huff : bool) (value : bytes)
    (soft_errors : Z) (err : option hpack_err_desc) : instr_result :=
  decode_value_and_insert q (NStr name) soft_errors value_is_huff value err.

Definition insert_with_name_reference (q : qpack_decoder) (name_is_static : bool) (name_index : Z)
    (value_is_huff : bool) (value : bytes) (err : option hpack_err_desc) : instr_result :=
  if name_is_static then
    match resolve_static_abs name_index with
    | None => qpack_failed q (Some h2o_qpack_err_invalid_static_reference)
    | Some (name, _) => insert_token_header q name value_is_huff value err
    end
  else
    let base_index := qpack_table_total_inserts (qd_table q) - 1 in
    if base_index <? name_index then qpack_failed q (Some h2o_qpack_err_invalid_dynamic_reference)
    else match resolve_dynamic_abs (qd_table q) (base_index - name_index) with
         | None => qpack_failed q (Some h2o_qpack_err_invalid_dynamic_reference)
         | Some ref =>
             match e_name ref with
             | NTok t => insert_token_header q t value_is_huff value err
             | NStr n => insert_literal_header q n value_is_huff value
                           (Z.land (e_soft_errors ref) H2O_HPACK_SOFT_ERROR_BIT_INVALID_NAME) err
             end
         end.

Definition insert_without_name_reference (q : qpack_decoder) (qnhuff : bool) (qn : bytes) (qvhuff : bool)
    (qv : bytes) (err : option hpack_err_desc) : instr_result :=
  let '(name, soft_errors, err) :=
    if qnhuff then
      let r := h2o_hpack_decode_huffman qn true 0 err in (hr_dst r, hr_soft_errors r, hr_err_desc r)
    else
      let '(ok, soft_errors, err) := h2o_hpack_validate_header_name qn 0 err in
      (if ok then Some qn else None, soft_errors, err) in
  match name with
  | None => qpack_failed q err
  | Some name =>
      match h2o_lookup_token name with
      | Some token => insert_token_header q token qvhuff qv err
      | None => insert_literal_header q name qvhuff qv soft_errors err
      end
  end.

Definition duplicate (q : qpack_decoder) (index : Z) (err : option hpack_err_desc) : instr_result :=
  if len (qt_entries (qd_table q)) <=? index then qpack_failed q (Some h2o_qpack_err_invalid_duplicate)
  else
    header ← qt_entries (qd_table q) !! Z.to_nat (len (qt_entries (qd_table q)) - index - 1);
    q ← decoder_insert q header;
    Some (0, q, err).

Definition dynamic_table_size_update (q : qpack_decoder) (max_size : Z) (err : option hpack_err_desc)
    : instr_result :=
  if qd_header_table_size q <? max_size then qpack_failed q (Some h2o_qpack_err_invalid_max_size)
  else
    let t := qd_table q in
    t ← qpack_table_evict (QTable (qt_entries t) (qt_first t) (qt_capacity t) (qt_base_offset t) (qt_num_bytes t) max_size) 0;
    Some (0, set_table q t, err).

(** ** The encoder stream *)

(** One instruction: [inl]: it is not complete, or its integers are not valid ([goto Exit] with
    this code); [inr]: its outcome, and [src] after it. *)
Definition decoder_instruction (q : qpack_decoder) (b : Z) (src : bytes) (err : option hpack_err_desc)
    : option (Z + Z * qpack_decoder * option hpack_err_desc * bytes) :=
  let kind := Z.shiftr b 5 in
  let finish (r : instr_result) (src : bytes) := '(ret, q, err) ← r; Some (inr (ret, q, err, src)) in
  if (kind =? 2) || (kind =? 3) then
    let name_is_huff := negb (Z.land b 0x20 =? 0) in
    let '(ret, name_len, src) := qpack_decode_int src 5 in
    if negb (ret =? 0) then Some (inl ret)
    else if negb (name_len <? len src) then Some (inl 0)
    else
      let name := take (Z.to_nat name_len) src in
      let src := drop (Z.to_nat name_len) src in
      let value_is_huff := negb (Z.land (nth 0 src 0) 0x80 =? 0) in
      let '(ret, value_len, src) := qpack_decode_int src 7 in
      if negb (ret =? 0) then Some (inl ret)
      else if negb (value_len <=? len src) then Some (inl 0)
      else finish (insert_without_name_reference q name_is_huff name value_is_huff
                     (take (Z.to_nat value_len) src) err) (drop (Z.to_nat value_len) src)
  else if kind =? 0 then
    let '(ret, index, src) := qpack_decode_int src 5 in
    if negb (ret =? 0) then Some (inl ret) else finish (duplicate q index err) src
  else if kind =? 1 then
    let '(ret, max_size, src) := qpack_decode_int src 5 in
    if negb (ret =? 0) then Some (inl ret) else finish (dynamic_table_size_update q max_size err) src
  else
    let name_is_static := negb (Z.land b 0x40 =? 0) in
    let '(ret, name_index, src) := qpack_decode_int src 6 in
    if negb (ret =? 0) then Some (inl ret)
    else match src with
    | [] => Some (inl 0)
    | c :: _ =>
        let value_is_huff := negb (Z.land c 0x80 =? 0) in
        let '(ret, value_len, src) := qpack_decode_int src 7 in
        if negb (ret =? 0) then Some (inl ret)
        else if negb (value_len <=? len src) then Some (inl 0)
        else finish (insert_with_name_reference q name_is_static name_index value_is_huff
                       (take (Z.to_nat value_len) src) err) (drop (Z.to_nat value_len) src)
    end.

(** The loop; the code, the decoder, [*_src] (the first instruction that is not complete) and
    [*err_desc].  An instruction takes at least one octet. *)
Fixpoint decoder_input_loop (fuel : nat) (q : qpack_decoder) (src : bytes) (err : option hpack_err_desc)
    : option (Z * qpack_decoder * bytes * option hpack_err_desc) :=
  match src with
  | [] => Some (0, q, src, err)
  | b :: _ =>
      match fuel with
      | O => None
      | S fuel =>
          r ← decoder_instruction q b src err;
          match r with
          | inl ret => Some (ret, q, src, err)
          | inr (ret, q, err, src) =>
              if negb (ret =? 0) then Some (ret, q, src, err) else decoder_input_loop fuel q src err
          end
      end
  end.

(** The streams that were unblocked are dropped from the list; the source of the [memmove] is
    [entries + remaining].  [None]: it reads behind the list. *)
Definition drop_unblocked (q : qpack_decoder) : option qpack_decoder :=
  if (qd_num_unblocked q =? 0)%nat then Some q
  else
    let remaining := (length (qd_blocked q) - qd_num_unblocked q)%nat in
    if (length (qd_blocked q) <? remaining + remaining)%nat then None
    else Some (set_blocked q (take remaining (drop remaining (qd_blocked q))) 0).

(** [for (num_unblocked = 0; num_unblocked < size; ++num_unblocked)] up to a reference that is
    not there yet *)
Fixpoint count_unblocked (entries : list (Z * Z)) (total_inserts : Z) : nat :=
  match entries with
  | (_, largest_ref) :: rest => if total_inserts <? largest_ref then O else S (count_unblocked rest total_inserts)
  | [] => O
  end.

(** The array of identifiers is written over the entries: with 24 octets to an entry, the
    identifiers 3k and 3k + 1 replace the two integers of entry k. *)
Fixpoint overlay_ids (entries : list (Z * Z)) (ids : list Z) : list (Z * Z) :=
  match entries with
  | [] => []
  | (stream_id, largest_ref) :: rest =>
      (default stream_id (head ids), default largest_ref (ids !! 1%nat)) :: overlay_ids rest (drop 3 ids)
  end.

Record handled := Handled {
  ha_ret : Z;
  ha_decoder : qpack_decoder;
  ha_src : bytes;
  ha_err_desc : option hpack_err_desc;
  ha_unblocked : list Z }. (* not set unless the code is 0 *)

Definition h2o_qpack_decoder_handle_input (q : qpack_decoder) (src : bytes) (err : option hpack_err_desc)
    : option handled :=
  q ← drop_unblocked q;
  '(ret, q, src, err) ← decoder_input_loop (length src) q src err;
  let ret := if ret =? H2O_HTTP3_ERROR_INCOMPLETE then 0 else ret in
  if ret =? 0 then
    let n := count_unblocked (qd_blocked q) (qd_total_inserts q) in
    let ids := map fst (take n (qd_blocked q)) in
    Some (Handled ret (set_blocked q (overlay_ids (take n (qd_blocked q)) ids ++ drop n (qd_blocked q)) n) src err ids)
  else Some (Handled ret q src err []).

(** The octets written, and the decoder. *)
Definition h2o_qpack_decoder_send_state_sync (q : qpack_decoder) : bytes * qpack_decoder :=
  if qd_insert_count q =? 0 then ([], q)
  else (h2o_hpack_encode_int 0 (qd_insert_count q) 6,
        QDecoder (qd_table q) (qd_header_table_size q) (qd_max_entries q) 0 (qd_total_inserts q)
          (qd_max_blocked q) (qd_blocked q) (qd_num_unblocked q)).

Definition h2o_qpack_decoder_send_stream_cancel (stream_id : Z) : bytes :=
  h2o_hpack_encode_int 0x40 stream_id 6.

(** ** Header blocks *)

Definition resolve_static (src : bytes) (prefix_bits : Z) : option (Z * bytes) * bytes :=
  let '(ret, index, src) := qpack_decode_int src prefix_bits in
  if negb (ret =? 0) then (None, src)
  else if negb (index <? len h2o_qpack_static_table) then (None, src)
  else (h2o_qpack_static_table !! Z.to_nat index, src).

Definition resolve_dynamic (t : qpack_table) (base_index : Z) (src : bytes) (prefix_bits : Z)
    : option table_entry * bytes :=
  let '(ret, off, src) := qpack_decode_int src prefix_bits in
  if negb (ret =? 0) || (base_index <=? off) then (None, src)
  else (resolve_dynamic_abs t (base_index - off), src).

Definition resolve_dynamic_postbase (t : qpack_table) (base_index : Z) (src : bytes) (prefix_bits : Z)
    : option table_entry * bytes :=
  let '(ret, off, src) := qpack_decode_int src prefix_bits in
  if negb (ret =? 0) || (INT64_MAX - base_index - 1 <? off) then (None, src)
  else (resolve_dynamic_abs t (base_index + off + 1), src).

(** The name ([None] for NULL), the soft errors, [*src] and [*err_desc]; the code reads the
    octet at [*src] before it looks at the end, [None] when there is none. *)
Definition decode_header_name_literal (soft_errors : Z) (src : bytes) (prefix_bits : Z)
    (err : option hpack_err_desc) : option (option name_ref * Z * bytes * option hpack_err_desc) :=
  match src with
  | [] => None
  | b :: _ =>
      let is_huff := negb (Z.land (Z.shiftr b prefix_bits) 1 =? 0) in
      let '(ret, n, src) := qpack_decode_int src prefix_bits in
      if negb (ret =? 0) then Some (None, soft_errors, src, Some h2o_qpack_err_header_name_too_long)
      else if len src <? n then Some (None, soft_errors, src, err)
      else
        let s := take (Z.to_nat n) src in
        let rest := drop (Z.to_nat n) src in
        if is_huff then
          let r := h2o_hpack_decode_huffman s true soft_errors err in
          match hr_dst r with
          | None => Some (None, hr_soft_errors r, src, hr_err_desc r)
          | Some name =>
              Some (Some (match h2o_lookup_token name with Some t => NTok t | None => NStr name end),
                    hr_soft_errors r, rest, hr_err_desc r)
          end
        else match h2o_lookup_token s with
             | Some t => Some (Some (NTok t), soft_errors, rest, err)
             | None =>
                 let '(ok, soft_errors, err) := h2o_hpack_validate_header_name s soft_errors err in
                 if ok then Some (Some (NStr s), soft_errors, rest, err)
                 else Some (None, soft_errors, src, err)
             end
  end.

(** The value ([base == NULL] is [None]), the soft errors, [*src] and [*err_desc]. *)
Definition decode_header_value_literal (soft_errors : Z) (src : bytes) (err : option hpack_err_desc)
    : option bytes * Z * bytes * option hpack_err_desc :=
  match src with
  | [] => (None, soft_errors, src, err)
  | b :: _ =>
      let is_huff := negb (Z.land b 0x80 =? 0) in
      let '(ret, n, src) := qpack_decode_int src 7 in
      if negb (ret =? 0) then (None, soft_errors, src, Some h2o_qpack_err_header_value_too_long)
      else if len src <? n then (None, soft_errors, src, err)
      else
        let r := decode_value soft_errors is_huff (take (Z.to_nat n) src) err in
        match hr_dst r with
        | None => (None, hr_soft_errors r, src, hr_err_desc r)
        | Some value => (Some value, hr_soft_errors r, drop (Z.to_nat n) src, hr_err_desc r)
        end
  end.

Record qpack_ctx := QCtx {
  qc_decoder : qpack_decoder;
  qc_req_insert_count : Z;
  qc_base_index : Z }.

(** The error description of soft errors, and the return. *)
Definition qpack_header_done (ctx : qpack_ctx) (name : name_ref) (value : bytes) (soft_errors : Z) (src : bytes)
    (err : option hpack_err_desc) : cb_result qpack_ctx :=
  if negb (soft_errors =? 0) then
    CbResult H2O_HTTP2_ERROR_INVALID_HEADER_CHAR (Some (name, value)) src ctx
      (Some (if negb (Z.land soft_errors H2O_HPACK_SOFT_ERROR_BIT_INVALID_NAME =? 0)
             then h2o_hpack_soft_err_found_invalid_char_in_header_name
             else h2o_hpack_soft_err_found_invalid_char_in_header_value))
  else CbResult 0 (Some (name, value)) src ctx err.

Definition qpack_header_fail (ctx : qpack_ctx) (src : bytes) (err : option hpack_err_desc) : cb_result qpack_ctx :=
  CbResult H2O_HTTP3_ERROR_QPACK_DECOMPRESSION_FAILED None src ctx err.

(** A field with a name that is there and a literal value. *)
Definition qpack_literal_value (ctx : qpack_ctx) (name : name_ref) (soft_errors : Z) (src : bytes)
    (err : option hpack_err_desc) : cb_result qpack_ctx :=
  let '(value, soft_errors, src, err) := decode_header_value_literal soft_errors src err in
  match value with
  | None => qpack_header_fail ctx src err
  | Some value => qpack_header_done ctx name value soft_errors src err
  end.

(** [decode_header]; the octet at [*src] is read first. *)
Definition qpack_decode_header (ctx : qpack_ctx) (src : bytes) (err : option hpack_err_desc)
    : option (cb_result qpack_ctx) :=
  let table := qd_table (qc_decoder ctx) in
  let base_index := qc_base_index ctx in
  let by_entry (r : option table_entry * bytes) : option (cb_result qpack_ctx) :=
    let '(entry, src) := r in
    match entry with
    | None => Some (qpack_header_fail ctx src (Some h2o_qpack_err_invalid_dynamic_reference))
    | Some e => Some (qpack_header_done ctx (e_name e) (e_value e) (e_soft_errors e) src err)
    end in
  let by_name (r : option table_entry * bytes) : option (cb_result qpack_ctx) :=
    let '(entry, src) := r in
    match entry with
    | None => Some (qpack_header_fail ctx src (Some h2o_qpack_err_invalid_dynamic_reference))
    | Some e => Some (qpack_literal_value ctx (e_name e)
                        (Z.land (e_soft_errors e) H2O_HPACK_SOFT_ERROR_BIT_INVALID_NAME) src err)
    end in
  match src with
  | [] => None
  | b :: _ =>
      let kind := Z.shiftr b 4 in
      if 12 <=? kind then
        let '(entry, src) := resolve_static src 6 in
        match entry with
        | None => Some (qpack_header_fail ctx src (Some h2o_qpack_err_invalid_static_reference))
        | Some (name, value) => Some (qpack_header_done ctx (NTok name) value 0 src err)
        end
      else if 8 <=? kind then by_entry (resolve_dynamic table base_index src 6)
      else if (kind =? 5) || (kind =? 7) then
        let '(entry, src) := resolve_static src 4 in
        match entry with
        | None => Some (qpack_header_fail ctx src (Some h2o_qpack_err_invalid_static_reference))
        | Some (name, _) => Some (qpack_literal_value ctx (NTok name) 0 src err)
        end
      else if (kind =? 4) || (kind =? 6) then by_name (resolve_dynamic table base_index src 4)
      else if (kind =? 2) || (kind =? 3) then
        '(name, soft_errors, src, err) ← decode_header_name_literal 0 src 3 err;
        match name with
        | None => Some (qpack_header_fail ctx src err)
        | Some name => Some (qpack_literal_value ctx name soft_errors src err)
        end
      else if kind =? 1 then by_entry (resolve_dynamic_postbase table base_index src 4)
      else by_name (resolve_dynamic_postbase table base_index src 3)
  end.

(** The Required Insert Count of an encoded value; [None] is a failure.  The additions are
    those of [uint64_t], the variable an [int64_t]. *)
Definition decode_req_insert_count (q : qpack_decoder) (encoded : Z) : option Z :=
  if 0 <? encoded then
    if qd_max_entries q =? 0 then None
    else
      let full_range := wrap32 (2 * qd_max_entries q) in
      let max_value := wrap64 (qd_total_inserts q + qd_max_entries q) in
      let rounded := wrap64 (max_value / full_range * full_range) in
      let req := to_int64 (wrap64 (encoded + wrap64 (rounded - 1))) in
      req ← (if max_value <? wrap64 req then
               if req <=? full_range then None else Some (req - full_range)
             else Some req);
      if req =? 0 then None
      else if PTLS_QUICINT_MAX <? req then None
      else Some req
  else Some encoded.

(** The code, the decoder, and with code 0 the context and [*src]. *)
Definition parse_decode_context (q : qpack_decoder) (stream_id : Z) (src : bytes)
    : Z * qpack_decoder * option (qpack_ctx * bytes) :=
  let failed := (H2O_HTTP3_ERROR_QPACK_DECOMPRESSION_FAILED, q, None) in
  let '(ret, encoded, src) := qpack_decode_int src 8 in
  if negb (ret =? 0) then failed
  else match decode_req_insert_count q encoded with
  | None => failed
  | Some req_insert_count =>
      match src with
      | [] => failed
      | b :: _ =>
          let sign := negb (Z.land b 0x80 =? 0) in
          let '(ret, delta_base, src) := qpack_decode_int src 7 in
          if negb (ret =? 0) then failed
          else if PTLS_QUICINT_MAX <? delta_base then failed
          else
            let base_index := if negb sign then req_insert_count + delta_base
                              else req_insert_count - delta_base - 1 in
            if base_index <? 0 then failed
            else if qpack_table_total_inserts (qd_table q) <=? req_insert_count then
              if qd_max_blocked q <=? len (qd_blocked q) + 1 then failed
              else (H2O_HTTP3_ERROR_INCOMPLETE, decoder_link_blocked q stream_id req_insert_count, None)
            else (0, q, Some (QCtx q req_insert_count base_index, src))
      end
  end.

Definition send_header_ack (ctx : qpack_ctx) (stream_id : Z) : bytes :=
  if qc_req_insert_count ctx =? 0 then [] else h2o_hpack_encode_int 0x80 stream_id 7.

Definition normalize_error_code (err : Z) : Z :=
  if (err <? 0) && negb (err =? H2O_HTTP2_ERROR_INVALID_HEADER_CHAR)
  then H2O_HTTP3_ERROR_QPACK_DECOMPRESSION_FAILED else err.

(** ** Messages *)

(** [decode_header] delivers a header with success and with the soft error, after input. *)
Definition qpack_outcome (ctx : qpack_ctx) (src : bytes) (r : cb_result qpack_ctx) : Prop :=
  cb_ctx r = ctx /\
  (cb_ret r = H2O_HTTP3_ERROR_QPACK_DECOMPRESSION_FAILED \/
   (cb_ret r = 0 \/ cb_ret r = H2O_HTTP2_ERROR_INVALID_HEADER_CHAR /\ is_Some (cb_err_desc r)) /\
   is_Some (cb_header r) /\ consumed src (cb_src r)).

Lemma qpack_fail_outcome ctx src0 src err : qpack_outcome ctx src0 (qpack_header_fail ctx src err).
Proof. split; [done|by left]. Qed.

Lemma qpack_done_outcome ctx name value soft src0 src err :
  consumed src0 src -> qpack_outcome ctx src0 (qpack_header_done ctx name value soft src err).
Proof. intros. unfold qpack_header_done. destruct (negb _); (split; [done|]); right; simpl; eauto. Qed.

#[export] Hint Resolve qpack_fail_outcome qpack_done_outcome : h2o.

Lemma qpack_decode_int_ok src n ret v rest :
  1 <= n <= 8 -> bytes_ok src -> qpack_decode_int src n = (ret, v, rest) -> ret = 0 ->
  0 <= v <= INT64_MAX /\ consumed src rest.
Proof.
  intros Hn Hs. unfold qpack_decode_int. destruct (h2o_hpack_decode_int src n) as [w r] eqn:E.
  destruct (Z.ltb_spec w 0) as [Hw|Hw]; intros [= <- <- <-].
  { by destruct (w =? H2O_HTTP2_ERROR_INCOMPLETE). }
  intros _. split; [|by eapply decode_int_consumed].
  apply decode_int_outcome in E as [(? & _)|[(-> & _)|(-> & _)]]; [done|by cbv in Hw..|lia|done].
Qed.

(** A step of the decoders: an integer of [n] bits is read, or there is an error. *)
Ltac read_int Hs :=
  match goal with
  | |- context [qpack_decode_int ?src ?n] =>
      let E := fresh "E" in
      destruct (qpack_decode_int src n) as [[? ?] ?] eqn:E;
      match type of E with
      | _ = (?ret, _, _) =>
          destruct (Z.eqb_spec ret 0) as [Hz|];
          [apply (qpack_decode_int_ok src n) in E as [? ?]; [|lia|exact Hs|exact Hz]; subst ret|]
      end
  end.

Lemma resolve_static_ok src n r rest :
  1 <= n <= 8 -> bytes_ok src -> resolve_static src n = (Some r, rest) -> consumed src rest.
Proof. intros Hn Hs. unfold resolve_static. read_int Hs; simpl; [|done]. destruct (negb _); by intros [= _ <-]. Qed.

Lemma resolve_dynamic_ok t base src n r rest :
  1 <= n <= 8 -> bytes_ok src -> resolve_dynamic t base src n = (Some r, rest) -> consumed src rest.
Proof. intros Hn Hs. unfold resolve_dynamic. read_int Hs; simpl; [|done]. destruct (_ <=? _); by intros [= _ <-]. Qed.

Lemma resolve_postbase_ok t base src n r rest :
  1 <= n <= 8 -> bytes_ok src -> resolve_dynamic_postbase t base src n = (Some r, rest) -> consumed src rest.
Proof.
  intros Hn Hs. unfold resolve_dynamic_postbase. read_int Hs; simpl; [|done]. destruct (_ <? _); by intros [= _ <-].
Qed.

Lemma decode_value_literal_ok soft src err v soft' rest err' :
  bytes_ok src -> decode_header_value_literal soft src err = (Some v, soft', rest, err') -> consumed src rest.
Proof.
  intros Hs. unfold decode_header_value_literal. destruct src as [|b src]; [done|]. read_int Hs; simpl; [|done].
  destruct (_ <? _); [done|]. destruct (hr_dst _); [|done]. intros [= _ _ <- _]. auto with h2o.
Qed.

Lemma decode_name_literal_ok soft src n err :
  1 <= n <= 8 -> bytes_ok src -> src <> [] ->
  exists name soft' rest err', decode_header_name_literal soft src n err = Some (name, soft', rest, err') /\
    (is_Some name -> consumed src rest).
Proof.
  intros Hn Hs Hne. unfold decode_header_name_literal. destruct src as [|b src]; [done|]. cbv zeta.
  assert (Hfail : forall (s : Z) (r : bytes) (e : option hpack_err_desc), exists name soft' rest err', Some (@None name_ref, s, r, e) =
    Some (name, soft', rest, err') /\ (is_Some name -> consumed (b :: src) rest)) by
    (intros; eexists _, _, _, _; split; [done|]; by intros [? [=]]).
  read_int Hs; simpl; [|apply Hfail].
  destruct (_ <? _); [apply Hfail|]. destruct (negb _).
  - destruct (hr_dst _); [|apply Hfail]. eexists _, _, _, _. split; [done|]. auto with h2o.
  - destruct (h2o_lookup_token _); [eexists _, _, _, _; split; [done|]; auto with h2o|].
    destruct (h2o_hpack_validate_header_name _ _ _) as [[[] ?] ?]; [|apply Hfail].
    eexists _, _, _, _. split; [done|]. auto with h2o.
Qed.

Lemma qpack_literal_outcome ctx name soft src0 src err :
  bytes_ok src -> consumed src0 src -> qpack_outcome ctx src0 (qpack_literal_value ctx name soft src err).
Proof.
  intros Hs Hc. unfold qpack_literal_value.
  destruct (decode_header_value_literal soft src err) as [[[[v|] s] r] e] eqn:E; [|apply qpack_fail_outcome].
  apply decode_value_literal_ok in E; [|done]. apply qpack_done_outcome. by eapply consumed_trans.
Qed.

(** [decode_header] returns on any octets. *)
Lemma qpack_decode_header_safe ctx src err :
  bytes_ok src -> src <> [] ->
  exists r, qpack_decode_header ctx src err = Some r /\ qpack_outcome ctx src r.
Proof.
  intros Hs Hne. unfold qpack_decode_header. destruct src as [|b src]; [done|]. cbv zeta.
  assert (Hok : forall r, qpack_outcome ctx (b :: src) r ->
    exists r', Some r = Some r' /\ qpack_outcome ctx (b :: src) r') by eauto.
  assert (Hlit : forall name soft rest e, consumed (b :: src) rest ->
    qpack_outcome ctx (b :: src) (qpack_literal_value ctx name soft rest e))
    by (intros; apply qpack_literal_outcome; eauto using consumed_ok).
  destruct (12 <=? _); [|destruct (8 <=? _); [|destruct (_ || _); [|destruct (_ || _); [|destruct (_ || _);
    [|destruct (_ =? 1)]]]]].
  - destruct (resolve_static _ 6) as [[[name v]|] rest] eqn:E; apply Hok; auto with h2o.
    apply resolve_static_ok in E; auto with h2o lia.
  - destruct (resolve_dynamic _ _ _ 6) as [[e|] rest] eqn:E; apply Hok; auto with h2o.
    apply resolve_dynamic_ok in E; auto with h2o lia.
  - destruct (resolve_static _ 4) as [[[name v]|] rest] eqn:E; apply Hok; auto with h2o.
    apply resolve_static_ok in E; auto with h2o lia.
  - destruct (resolve_dynamic _ _ _ 4) as [[e|] rest] eqn:E; apply Hok; auto with h2o.
    apply resolve_dynamic_ok in E; auto with h2o lia.
  - destruct (decode_name_literal_ok 0 (b :: src) 3 err ltac:(lia) Hs Hne) as ([name|] & s & r & e & -> & Hc);
      simpl; apply Hok; auto with h2o.
  - destruct (resolve_dynamic_postbase _ _ _ 4) as [[e|] rest] eqn:E; apply Hok; auto with h2o.
    apply resolve_postbase_ok in E; auto with h2o lia.
  - destruct (resolve_dynamic_postbase _ _ _ 3) as [[e|] rest] eqn:E; apply Hok; auto with h2o.
    apply resolve_postbase_ok in E; auto with h2o lia.
Qed.

(** The QPACK decoder keeps the promise the parsers rely on. *)
Program Definition qpack_header_decoder (q : qpack_decoder) : HeaderDecoder qpack_ctx := {|
  decode_cb := qpack_decode_header;
  decoder_ok c := qc_decoder c = q |}.
Next Obligation.
  intros q c src err Hc Hs Hne. destruct (qpack_decode_header_safe c src err Hs Hne) as (r & Hr & Hctx & H).
  exists r. split; [done|]. split; [congruence|].
  destruct H as [H0|[[H0|[H0 He]] [Hh Hc']]]; rewrite H0; [|done|done].
  split; [intros [H|H]|intros H]; cbv in H; done.
Qed.

(** What the parsers give back: the message, the decoder, the code, and the acknowledgement
    written to [outbuf] ([None]: [*outbufsize] is not set). *)
Record qpack_parsed (message : Type) := QParsed {
  qp_message : message;
  qp_decoder : qpack_decoder;
  qp_ret : Z;
  qp_ack : option bytes }.
Arguments QParsed {_} _ _ _ _.
Arguments qp_message {_} _.
Arguments qp_decoder {_} _.
Arguments qp_ret {_} _.
Arguments qp_ack {_} _.

Definition h2o_qpack_parse_request {digests_t : Type} (load : digests_t -> bytes -> digests_t) (q : qpack_decoder)
    (stream_id : Z) (args : request_args) (map : bool) (st : request (digests_t := digests_t)) (src : bytes)
    : option (qpack_parsed (request (digests_t := digests_t))) :=
  match parse_decode_context q stream_id src with
  | (0, q, Some (ctx, src)) =>
      '(st, ctx, ret) ← h2o_hpack_parse_request (H := qpack_header_decoder q) load ctx args map st src;
      if negb (ret =? 0) && negb (ret =? H2O_HTTP2_ERROR_INVALID_HEADER_CHAR)
      then Some (QParsed st (qc_decoder ctx) (normalize_error_code ret) None)
      else Some (QParsed st (qc_decoder ctx) ret (Some (send_header_ack ctx stream_id)))
  | (ret, q, _) => Some (QParsed st q ret None)
  end.

Definition h2o_qpack_parse_response (q : qpack_decoder) (stream_id : Z) (has_status has_flow_id : bool)
    (st : response) (src : bytes) : option (qpack_parsed response) :=
  match parse_decode_context q stream_id src with
  | (0, q, Some (ctx, src)) =>
      '(st, ctx, ret) ← h2o_hpack_parse_response (H := qpack_header_decoder q) ctx has_status has_flow_id st src;
      if negb (ret =? 0) then Some (QParsed st (qc_decoder ctx) (normalize_error_code ret) None)
      else Some (QParsed st (qc_decoder ctx) 0 (Some (send_header_ack ctx stream_id)))
  | (ret, q, _) => Some (QParsed st q ret None)
  end.
