(* ===== verification/QpackTable.v ===== *)
(** * QPACK: the dynamic table and the history of insertions (lib/http3/qpack.c)

    The table is specified by the list of all the headers ever inserted: a header keeps the
    absolute index it got, evictions only forget the oldest ones, and an index is resolved to
    the header that was inserted under it or to nothing.  The decoder keeps this on any input
    of the encoder stream. *)
From S2P Require Import Prelude Tokens HpackInt Huffman HeaderTable Hpack HpackSafe HpackParse Http3Frame Qpack.
From Stdlib Require Import ZArith Lia.
From stdpp Require Import base list numbers option.
Open Scope Z_scope.

(** ** The table *)

(** [hist]: every header inserted so far, the oldest first. *)
Record QShape (t : qpack_table) (hist : list table_entry) : Prop := {
  qr_base : 1 <= qt_base_offset t <= 1 + len hist;
  qr_entries : qt_entries t = drop (Z.to_nat (qt_base_offset t - 1)) hist;
  qr_bytes : qt_num_bytes t = tsize (qt_entries t);
  qr_room : (qt_first t + length (qt_entries t) <= qt_capacity t)%nat;
  qr_capacity : qt_capacity t = 0%nat \/ (4 <= qt_capacity t)%nat }.

(** ... and the size is within the limit. *)
Definition QRep (t : qpack_table) (hist : list table_entry) : Prop :=
  QShape t hist /\ qt_num_bytes t <= qt_max_size t.

Lemma qrep_init max_size : 0 <= max_size -> QRep (qpack_table_init max_size) [].
Proof. intros. split; [constructor|]; simpl; try done; lia. Qed.

Lemma qrep_total t hist : QRep t hist -> qpack_table_total_inserts t = len hist + 1.
Proof.
  intros [[Hb He _ _ _] _]. unfold qpack_table_total_inserts, len in *. rewrite He, length_drop. lia.
Qed.

(** An absolute index denotes the header that was inserted under it, while it is there. *)
Lemma resolve_dynamic_abs_hist t hist i e :
  QRep t hist ->
  resolve_dynamic_abs t i = Some e <-> qt_base_offset t <= i /\ hist !! Z.to_nat (i - 1) = Some e.
Proof.
  intros [HR _]. pose proof (qr_base _ _ HR) as Hb. unfold resolve_dynamic_abs.
  destruct (Z.ltb_spec i (qt_base_offset t)); [split; [done|lia]|]. rewrite (qr_entries _ _ HR).
  rewrite lookup_drop. replace (Z.to_nat (qt_base_offset t - 1) + Z.to_nat (i - qt_base_offset t))%nat
    with (Z.to_nat (i - 1)) by lia.
  destruct (Z.leb_spec (len (drop (Z.to_nat (qt_base_offset t - 1)) hist)) (i - qt_base_offset t)) as [Hl|Hl].
  - split; [done|]. intros [_ H2]. apply lookup_lt_Some in H2. unfold len in Hl. rewrite length_drop in Hl.
    unfold len in *. lia.
  - tauto.
Qed.

(** ** Eviction *)

(** What is kept of a table: as many of the newest entries as the budget holds. *)
Definition newest (budget : Z) (l : list table_entry) : list table_entry := rev (fit budget (rev l)).

Lemma tsize_rev l : tsize (rev l) = tsize l.
Proof. induction l; simpl; [done|]. rewrite tsize_app. simpl. lia. Qed.

Lemma newest_all b l : tsize l <= b -> newest b l = l.
Proof. intros. unfold newest. rewrite fit_all by (by rewrite tsize_rev). apply rev_involutive. Qed.

Lemma newest_cons b e l : b < tsize (e :: l) -> newest b (e :: l) = newest b l.
Proof.
  intros. unfold newest. cbn [rev]. rewrite fit_snoc; [done|].
  change (rev l ++ [e]) with (rev (e :: l)). by rewrite tsize_rev.
Qed.

Lemma tsize_newest b l : 0 <= b -> tsize (newest b l) <= b.
Proof. intros. unfold newest. rewrite tsize_rev. by apply tsize_fit. Qed.

(** The loop stops at the newest entries that leave room for [delta]; the entries in front of
    them are counted by [first] and [base_offset]. *)
Lemma evict_loop_spec entries : forall first base bytes max delta,
  bytes = tsize entries ->
  exists n, qpack_evict_loop entries first base bytes max delta =
    Some (drop n entries, (first + n)%nat, base + Z.of_nat n, tsize (drop n entries)) /\
    (n <= length entries)%nat /\ drop n entries = newest (max - delta) entries.
Proof.
  induction entries as [|e entries IH]; intros first base bytes max delta ->; cbn [qpack_evict_loop].
  { exists 0%nat. simpl. rewrite Nat.add_0_r, Z.add_0_r. by split. }
  destruct (Z.leb_spec (tsize (e :: entries) + delta) max) as [H|H].
  - exists 0%nat. simpl drop. rewrite Nat.add_0_r, Z.add_0_r. split; [done|]. split; [lia|].
    by rewrite newest_all by lia.
  - destruct (IH (S first) (base + 1) (tsize entries) max delta) as (n & Hn & Hl & Hd); [done|].
    exists (S n). change (tsize (e :: entries)) with (size_of e + tsize entries) in *.
    replace (size_of e + tsize entries - entry_size (e_name e) (e_value e)) with (tsize entries)
      by (unfold size_of; lia).
    rewrite Hn. split; [|split; [simpl; lia|]].
    + do 3 f_equal; [f_equal|]; lia.
    + rewrite newest_cons; [done|]. simpl. lia.
Qed.

Lemma qrep_evict t hist delta :
  QShape t hist -> 0 <= delta <= qt_max_size t ->
  exists t', qpack_table_evict t delta = Some t' /\ QShape t' hist /\
    qt_entries t' = newest (qt_max_size t - delta) (qt_entries t) /\
    qt_num_bytes t' + delta <= qt_max_size t /\ qt_max_size t' = qt_max_size t.
Proof.
  intros [Hb He Hs Hr Hc] Hd. unfold qpack_table_evict.
  destruct (evict_loop_spec (qt_entries t) (qt_first t) (qt_base_offset t) (qt_num_bytes t) (qt_max_size t) delta)
    as (n & -> & Hn & Hk); [done|]. cbn [mbind option_bind].
  eexists. split; [done|]. cbn [qt_entries qt_num_bytes qt_max_size]. split_and!; [|done| |done].
  - constructor; cbn [qt_base_offset qt_entries qt_num_bytes qt_max_size qt_first qt_capacity]; [| |done| |done].
    + rewrite He, length_drop in Hn. unfold len in *. lia.
    + rewrite He, drop_drop. f_equal. lia.
    + rewrite length_drop. lia.
  - rewrite Hk. pose proof (tsize_newest (qt_max_size t - delta) (qt_entries t)). lia.
Qed.

(** The buffer has a place for the new entry, after it was grown or its content moved. *)
Lemma table_room_spec count first capacity :
  (first + count <= capacity)%nat -> capacity = 0%nat \/ (4 <= capacity)%nat ->
  exists first' capacity', qpack_table_room count first capacity = Some (first', capacity') /\
    (first' + count < capacity')%nat /\ (4 <= capacity')%nat.
Proof.
  intros H Hc. unfold qpack_table_room.
  destruct (Nat.eqb_spec (first + count) capacity); [|eexists _, _; split; [done|lia]].
  cbv zeta. set (new := if (count <=? 2)%nat then 4%nat else (count * 2)%nat).
  assert (Hnew : (4 <= new /\ count < new)%nat) by (unfold new; destruct (Nat.leb_spec count 2); lia).
  destruct (Nat.ltb_spec capacity new); [eexists _, _; split; [done|lia]|].
  destruct (Nat.eqb_spec first 0); [lia|]; eexists _, _; split; [done|lia].
Qed.

Lemma qrep_insert t hist e :
  QRep t hist -> size_of e <= qt_max_size t ->
  exists t', qpack_table_insert t e = Some t' /\ QRep t' (hist ++ [e]) /\
    qt_entries t' = newest (qt_max_size t - size_of e) (qt_entries t) ++ [e] /\ qt_max_size t' = qt_max_size t.
Proof.
  intros [HS _] Hsz. pose proof (size_of_pos e). unfold qpack_table_insert. fold (size_of e).
  destruct (qrep_evict t hist (size_of e) HS ltac:(lia)) as (t1 & -> & [Hb He Hs Hr Hc] & Hk & Hle & Hm).
  cbn [mbind option_bind].
  destruct (table_room_spec _ _ _ Hr Hc) as (f & c & -> & Hf & Hc'). cbn [mbind option_bind].
  eexists. split; [done|]. split; [split|by rewrite Hk].
  - constructor; cbn [qt_base_offset qt_entries qt_num_bytes qt_max_size qt_first qt_capacity]; [| | | |by right].
    + unfold len in *. rewrite length_app. simpl. lia.
    + rewrite He, drop_app_le; [done|]. unfold len in Hb. lia.
    + rewrite tsize_app, Hs. simpl. lia.
    + rewrite length_app. simpl. lia.
  - cbn [qt_num_bytes qt_max_size]. lia.
Qed.

Lemma qrep_set_max t hist m :
  QRep t hist -> 0 <= m ->
  exists t', qpack_table_evict (QTable (qt_entries t) (qt_first t) (qt_capacity t) (qt_base_offset t)
      (qt_num_bytes t) m) 0 = Some t' /\ QRep t' hist /\ qt_entries t' = newest m (qt_entries t) /\
    qt_max_size t' = m.
Proof.
  intros [HS _] Hm.
  destruct (qrep_evict (QTable (qt_entries t) (qt_first t) (qt_capacity t) (qt_base_offset t) (qt_num_bytes t) m)
    hist 0) as (t' & -> & HS' & Hk & Hle & Hm'); [destruct HS; by constructor|simpl; lia|].
  cbn [qt_max_size qt_entries] in *. exists t'. split; [done|]. split; [split; [done|lia]|].
  by rewrite Hk, Z.sub_0_r.
Qed.
