(* ===== verification/QpackStream.v ===== *)
(** * QPACK: the encoder stream (lib/http3/qpack.c)

    [h2o_qpack_decoder_handle_input] on any octets: it returns, the table stays the one of its
    history, and the result does not depend on how the stream was cut into pieces. *)
From S2P Require Import Prelude Tokens HpackInt Huffman HeaderTable Hpack HpackSafe HpackParse Http3Frame Qpack QpackTable.
From Stdlib Require Import ZArith Lia.
From stdpp Require Import base list numbers option sorting.
Open Scope Z_scope.

(** ** The invariant *)

Record qdec_ok (q : qpack_decoder) (hist : list table_entry) : Prop := {
  qo_table : QRep (qd_table q) hist;
  qo_max : 0 <= qt_max_size (qd_table q) <= qd_header_table_size q;
  qo_total : qd_total_inserts q = wrap64 (len hist) }.

(** What the instructions leave as it is. *)
Definition same_settings (q q' : qpack_decoder) : Prop :=
  qd_header_table_size q' = qd_header_table_size q /\ qd_max_entries q' = qd_max_entries q /\
  qd_max_blocked q' = qd_max_blocked q /\ qd_blocked q' = qd_blocked q /\ qd_num_unblocked q' = qd_num_unblocked q.

(** The outcome of an instruction: headers were added to the history, or it failed and
    nothing changed. *)
Definition instr_ok (q : qpack_decoder) (hist : list table_entry) (r : instr_result) : Prop :=
  exists ret q' err added, r = Some (ret, q', err) /\ qdec_ok q' (hist ++ added) /\ same_settings q q' /\
    (ret = 0 \/ ret = H2O_HTTP3_ERROR_QPACK_DECOMPRESSION_FAILED /\ q' = q).

Section Instructions.
Context (q : qpack_decoder) (hist : list table_entry) (Hq : qdec_ok q hist).

Lemma failed_ok err : instr_ok q hist (qpack_failed q err).
Proof. exists H2O_HTTP3_ERROR_QPACK_DECOMPRESSION_FAILED, q, err, []. rewrite app_nil_r. split_and!; auto. by split_and!. Qed.

Lemma decoder_insert_ok e err :
  size_of e <= qt_max_size (qd_table q) -> instr_ok q hist (q ← decoder_insert q e; Some (0, q, err)).
Proof.
  intros Hs. destruct Hq as [HR Hm Ht]. unfold decoder_insert.
  destruct (qrep_insert (qd_table q) hist e HR Hs) as (t' & -> & HR' & _ & Hm'). cbn [mbind option_bind].
  eexists _, _, _, [e]. split; [done|]. split; [constructor|]; cbn; [done|lia| |].
  - rewrite Ht, len_app. unfold wrap64. by rewrite Z.add_mod_idemp_l.
  - split; [by split_and!|by left].
Qed.

Lemma value_insert_ok name soft huff qstr err : instr_ok q hist (decode_value_and_insert q name soft huff qstr err).
Proof.
  unfold decode_value_and_insert. destruct (hr_dst _) as [v|]; [|apply failed_ok].
  destruct (Z.ltb_spec (qt_max_size (qd_table q)) (entry_size name v)); [apply failed_ok|].
  by apply decoder_insert_ok.
Qed.
Hint Resolve failed_ok value_insert_ok : h2o.

Lemma name_reference_ok static index huff value err :
  instr_ok q hist (insert_with_name_reference q static index huff value err).
Proof.
  unfold insert_with_name_reference, insert_token_header, insert_literal_header. destruct static.
  - destruct (resolve_static_abs index) as [[]|]; auto with h2o.
  - cbv zeta. destruct (_ <? _); auto with h2o. destruct (resolve_dynamic_abs _ _) as [e|]; auto with h2o.
    destruct (e_name e); auto with h2o.
Qed.

Lemma no_reference_ok nhuff n vhuff v err :
  instr_ok q hist (insert_without_name_reference q nhuff n vhuff v err).
Proof.
  unfold insert_without_name_reference, insert_token_header, insert_literal_header.
  destruct (if nhuff then _ else _) as [[[name|] soft] err']; auto with h2o.
  destruct (h2o_lookup_token name); auto with h2o.
Qed.

Lemma tsize_elem (l : list table_entry) e : e ∈ l -> size_of e <= tsize l.
Proof.
  induction 1 as [e l|e x l _ IH]; simpl; [pose proof (tsize_nonneg l)|pose proof (size_of_pos x)]; lia.
Qed.

Lemma duplicate_ok index err : 0 <= index -> instr_ok q hist (duplicate q index err).
Proof.
  intros Hi. unfold duplicate. destruct (Z.leb_spec (len (qt_entries (qd_table q))) index); auto with h2o.
  destruct (lookup_lt_is_Some_2 (qt_entries (qd_table q))
              (Z.to_nat (len (qt_entries (qd_table q)) - index - 1))) as [e He].
  { unfold len in *. lia. }
  rewrite He. cbn [mbind option_bind]. apply decoder_insert_ok.
  pose proof (tsize_elem _ _ (list_elem_of_lookup_2 _ _ _ He)).
  destruct (qo_table _ _ Hq) as [HS Hle]. rewrite (qr_bytes _ _ HS) in Hle. lia.
Qed.

Lemma size_update_ok m err : 0 <= m -> instr_ok q hist (dynamic_table_size_update q m err).
Proof.
  intros Hm. unfold dynamic_table_size_update.
  destruct (Z.ltb_spec (qd_header_table_size q) m); [auto with h2o|]. destruct Hq as [HR Hx Ht].
  destruct (qrep_set_max (qd_table q) hist m HR Hm) as (t' & Ht' & HR' & _ & Hm'). cbv zeta. rewrite Ht'.
  cbn [mbind option_bind]. eexists _, _, _, []. split; [done|]. rewrite app_nil_r.
  split; [constructor|]; cbn; [done|lia|done|]. split; [by split_and!|by left].
Qed.
End Instructions.

(** ** One instruction *)

Definition instruction_outcome (q : qpack_decoder) (hist : list table_entry) (src : bytes)
    (r : option (Z + Z * qpack_decoder * option hpack_err_desc * bytes)) : Prop :=
  match r with
  | Some (inl ret) => ret = 0 \/ ret = H2O_HTTP3_ERROR_INCOMPLETE \/ ret = H2O_HTTP3_ERROR_QPACK_DECOMPRESSION_FAILED
  | Some (inr (ret, q', err, rest)) => consumed src rest /\ instr_ok q hist (Some (ret, q', err))
  | None => False
  end.

Lemma instruction_finish q hist src rest r :
  instr_ok q hist r -> consumed src rest ->
  instruction_outcome q hist src ('(ret, q', err) ← r; Some (inr (ret, q', err, rest))).
Proof. intros Hr Hc. pose proof Hr as (ret & q' & err & added & -> & _). by split. Qed.

Lemma qpack_decode_int_code src n :
  let '(ret, _, _) := qpack_decode_int src n in
  ret = 0 \/ ret = H2O_HTTP3_ERROR_INCOMPLETE \/ ret = H2O_HTTP3_ERROR_QPACK_DECOMPRESSION_FAILED.
Proof.
  unfold qpack_decode_int. destruct (h2o_hpack_decode_int src n). destruct (_ <? 0); [|by left].
  destruct (_ =? _); auto.
Qed.

(** Read an integer, or close the goal with the code of the failure. *)
Ltac instr_int Hs :=
  match goal with
  | |- context [qpack_decode_int ?src ?n] => pose proof (qpack_decode_int_code src n)
  end;
  read_int Hs; cbn [negb]; [|simpl; assumption].

Lemma instruction_safe q hist b src err :
  qdec_ok q hist -> bytes_ok (b :: src) ->
  instruction_outcome q hist (b :: src) (decoder_instruction q b (b :: src) err).
Proof.
  intros Hq Hs. unfold decoder_instruction. cbv zeta.
  destruct (_ || _); [|destruct (_ =? 0); [|destruct (_ =? 1)]].
  - instr_int Hs. destruct (Z.ltb_spec z0 (len l)); cbn [negb]; [|by left].
    assert (Hs' : bytes_ok (drop (Z.to_nat z0) l)) by (apply Forall_drop; eauto using consumed_ok).
    instr_int Hs'. destruct (_ <=? _); cbn [negb]; [|by left].
    apply instruction_finish; [by apply no_reference_ok|]. eauto using consumed_trans with h2o.
  - instr_int Hs. apply instruction_finish; [|done]. apply duplicate_ok; [done|lia].
  - instr_int Hs. apply instruction_finish; [|done]. apply size_update_ok; [done|lia].
  - instr_int Hs. assert (Hs' : bytes_ok l) by eauto using consumed_ok. destruct l as [|c l]; [by left|].
    instr_int Hs'. destruct (_ <=? _); cbn [negb]; [|by left].
    apply instruction_finish; [by apply name_reference_ok|]. eauto using consumed_trans with h2o.
Qed.

(** The loop returns; it leaves the table of a longer history, the rest of the input, and a
    code among three. *)
Lemma input_loop_safe fuel : forall q hist src err,
  (length src <= fuel)%nat -> qdec_ok q hist -> bytes_ok src ->
  exists ret q' rest err' added, decoder_input_loop fuel q src err = Some (ret, q', rest, err') /\
    qdec_ok q' (hist ++ added) /\ same_settings q q' /\ (exists used, src = used ++ rest) /\
    (ret = 0 \/ ret = H2O_HTTP3_ERROR_INCOMPLETE \/ ret = H2O_HTTP3_ERROR_QPACK_DECOMPRESSION_FAILED).
Proof.
  induction fuel as [|fuel IH]; intros q hist src err Hf Hq Hs.
  { destruct src; [|simpl in Hf; lia]. eexists _, _, _, _, []. rewrite app_nil_r. split; [done|].
    split_and!; auto; [by split_and!|by exists []]. }
  destruct src as [|b src].
  { eexists _, _, _, _, []. rewrite app_nil_r. split; [done|]. split_and!; auto; [by split_and!|by exists []]. }
  cbn [decoder_input_loop]. pose proof (instruction_safe q hist b src err Hq Hs) as Ho.
  destruct (decoder_instruction q b (b :: src) err) as [[ret|[[[ret q1] err1] rest]]|]; [| |done];
    cbn [mbind option_bind].
  { eexists _, _, _, _, []. rewrite app_nil_r. split; [done|]. split_and!; auto; [by split_and!|by exists []]. }
  destruct Ho as [Hc (ret' & q' & err' & added & [= <- <- <-] & Hq' & Hsame & Hret)].
  destruct (Z.eqb_spec ret 0); cbn [negb].
  - apply consumed_length in Hc as Hl. apply consumed_ok in Hc as Hr; [|done]. simpl in Hl, Hf.
    destruct (IH q1 (hist ++ added) rest err1 ltac:(lia) Hq' Hr) as (ret2 & q2 & rest2 & err2 & added2 & -> & Hq2 & Hs2 & [u2 ->] & Hr2).
    eexists _, _, _, _, (added ++ added2). rewrite app_assoc. split; [done|]. split_and!; auto.
    + unfold same_settings in *. intuition congruence.
    + destruct Hc as (u & -> & _). exists (u ++ u2). by rewrite app_assoc.
  - eexists _, _, _, _, added. split; [done|]. destruct Hc as (u & Hu & _). split_and!; eauto. tauto.
Qed.

(** ** Cutting the stream *)

Lemma qpack_decode_int_app src t n ret v rest :
  qpack_decode_int src n = (ret, v, rest) -> ret <> H2O_HTTP3_ERROR_INCOMPLETE ->
  qpack_decode_int (src ++ t) n = (ret, v, rest ++ t) /\ (ret = 0 -> 0 <= v).
Proof.
  unfold qpack_decode_int. destruct (h2o_hpack_decode_int src n) as [w r] eqn:E. intros H Hret.
  assert (Hw : w <> H2O_HTTP2_ERROR_INCOMPLETE). { intros ->. simpl in H. congruence. }
  rewrite (decode_int_app _ t _ _ _ E Hw). destruct (Z.ltb_spec w 0); inv H; [|done].
  split; [done|]. by destruct (Z.eqb_spec v H2O_HTTP2_ERROR_INCOMPLETE).
Qed.

(** Only an instruction that is not complete waits for more input: [r] is its result, [r']
    the one with [t] behind the input. *)
Definition settled (r : Z + Z * qpack_decoder * option hpack_err_desc * bytes) (t : bytes)
    (r' : option (Z + Z * qpack_decoder * option hpack_err_desc * bytes)) : Prop :=
  match r with
  | inl ret => ret = H2O_HTTP3_ERROR_QPACK_DECOMPRESSION_FAILED -> r' = Some (inl ret)
  | inr (ret, q, err, rest) => r' = Some (inr (ret, q, err, rest ++ t))
  end.

Lemma finish_app (r : instr_result) rest t x :
  ('(ret, q, err) ← r; Some (inr (ret, q, err, rest))) = Some x ->
  settled x t ('(ret, q, err) ← r; Some (inr (ret, q, err, rest ++ t))).
Proof. destruct r as [[[ret q] err]|]; [|done]. by intros [= <-]. Qed.

(** Read the same integer on both sides. *)
Ltac int_app t :=
  lazymatch goal with
  | |- ?lhs = Some _ -> _ =>
    lazymatch lhs with context [qpack_decode_int ?src ?n] =>
        let E := fresh "E" in let ret := fresh "ret" in let Ha := fresh "Ha" in
        let v := fresh "v" in let rest := fresh "rest" in let Hpos := fresh "Hpos" in
        destruct (qpack_decode_int src n) as [[ret v] rest] eqn:E;
        destruct (Z.eqb_spec ret H2O_HTTP3_ERROR_INCOMPLETE) as [->|Ha];
        [by intros [= <-]
        |apply (qpack_decode_int_app _ t) in E as [E Hpos]; [|exact Ha]; rewrite ?E;
         destruct (Z.eqb_spec ret 0) as [->|?]; cbn [negb];
         [specialize (Hpos eq_refl)|by intros [= <-]]]
    end
  end.

Lemma take_drop_app (v : Z) (s t : bytes) :
  0 <= v <= len s ->
  (v <=? len (s ++ t)) = true /\ take (Z.to_nat v) (s ++ t) = take (Z.to_nat v) s /\
  drop (Z.to_nat v) (s ++ t) = drop (Z.to_nat v) s ++ t.
Proof.
  intros H. unfold len in *. rewrite length_app. split_and!; [apply Z.leb_le; lia| |].
  - apply take_app_le. lia.
  - apply drop_app_le. lia.
Qed.

Lemma instruction_app q b src t err r :
  decoder_instruction q b (b :: src) err = Some r ->
  settled r t (decoder_instruction q b (b :: src ++ t) err).
Proof.
  unfold decoder_instruction. cbv zeta. change (b :: src ++ t) with ((b :: src) ++ t).
  destruct (_ || _); [|destruct (_ =? 0); [|destruct (_ =? 1)]].
  - int_app t. destruct (Z.ltb_spec v (len rest)) as [Hlt|]; cbn [negb]; [|by intros [= <-]].
    destruct (take_drop_app v rest t ltac:(lia)) as (_ & -> & ->).
    destruct (Z.ltb_spec v (len (rest ++ t))) as [_|]; [|rewrite len_app in *; pose proof (len_nonneg t); lia].
    cbn [negb]. int_app t. destruct (Z.leb_spec v0 (len rest0)); cbn [negb]; [|by intros [= <-]].
    destruct (take_drop_app v0 rest0 t ltac:(lia)) as (-> & -> & ->). cbn [negb].
    replace (nth 0 (drop (Z.to_nat v) rest ++ t) 0) with (nth 0 (drop (Z.to_nat v) rest) 0); [apply finish_app|].
    destruct (drop (Z.to_nat v) rest) eqn:Ed; [|done].
    apply (f_equal length) in Ed. rewrite length_drop in Ed. unfold len in Hlt. simpl in Ed. lia.
  - int_app t. apply finish_app.
  - int_app t. apply finish_app.
  - int_app t. destruct rest as [|c rest]; [by intros [= <-]|]. cbn [app].
    change (c :: rest ++ t) with ((c :: rest) ++ t). int_app t.
    destruct (Z.leb_spec v0 (len rest0)); cbn [negb]; [|by intros [= <-]].
    destruct (take_drop_app v0 rest0 t ltac:(lia)) as (-> & -> & ->). cbn [negb]. apply finish_app.
Qed.

(** A unit of fuel for each octet is enough. *)
Lemma input_loop_fuel n : forall m q hist src err,
  (length src <= n)%nat -> (length src <= m)%nat -> qdec_ok q hist -> bytes_ok src ->
  decoder_input_loop n q src err = decoder_input_loop m q src err.
Proof.
  induction n as [|n IH]; intros m q hist src err Hn Hm Hq Hs.
  { destruct src; [|simpl in Hn; lia]. by destruct m. }
  destruct src as [|b src]; [by destruct m|]. destruct m as [|m]; [simpl in Hm; lia|].
  cbn [decoder_input_loop]. pose proof (instruction_safe q hist b src err Hq Hs) as Ho.
  destruct (decoder_instruction q b (b :: src) err) as [[ret|[[[ret q1] err1] rest]]|]; [done| |done].
  cbn [mbind option_bind]. destruct Ho as [Hc (? & ? & ? & added & [= <- <- <-] & Hq' & _)].
  destruct (negb _); [done|]. apply consumed_length in Hc as Hl. simpl in *.
  eapply IH; [lia|lia|exact Hq'|by eapply consumed_ok].
Qed.

(** More input: a failure stays, and otherwise the loop goes on from where it stopped. *)
Lemma input_loop_app fuel : forall q hist src t err ret q' rest err',
  (length src <= fuel)%nat -> qdec_ok q hist -> bytes_ok src -> bytes_ok t ->
  decoder_input_loop fuel q src err = Some (ret, q', rest, err') ->
  decoder_input_loop (length (src ++ t)) q (src ++ t) err =
    if ret =? H2O_HTTP3_ERROR_QPACK_DECOMPRESSION_FAILED then Some (ret, q', rest ++ t, err')
    else decoder_input_loop (length (rest ++ t)) q' (rest ++ t) err'.
Proof.
  induction fuel as [|fuel IH]; intros q hist src t err ret q' rest err' Hf Hq Hs Ht.
  { destruct src; [|simpl in Hf; lia]. by intros [= <- <- <- <-]. }
  destruct src as [|b src]; [by intros [= <- <- <- <-]|]. cbn [decoder_input_loop].
  pose proof (instruction_safe q hist b src err Hq Hs) as Ho.
  destruct (decoder_instruction q b (b :: src) err) as [r|] eqn:Ei; [|done]. cbn [mbind option_bind].
  pose proof (instruction_app q b src t err r Ei) as Ha.
  destruct r as [ret1|[[[ret1 q1] err1] rest1]]; simpl in Ha.
  - intros [= -> <- <- <-]. destruct (Z.eqb_spec ret H2O_HTTP3_ERROR_QPACK_DECOMPRESSION_FAILED) as [->|]; [|done].
    cbn [app length decoder_input_loop]. by rewrite Ha.
  - destruct Ho as [Hc (? & ? & ? & added & [= <- <- <-] & Hq' & _ & Hret)].
    cbn [app length decoder_input_loop]. rewrite Ha. cbn [mbind option_bind].
    destruct (Z.eqb_spec ret1 0) as [->|Hz]; cbn [negb].
    + intros Hl. apply consumed_length in Hc as Hlen. apply consumed_ok in Hc as Hr; [|done]. simpl in Hlen, Hf.
      rewrite <- (IH q1 _ rest1 t err1 ret q' rest err' ltac:(lia) Hq' Hr Ht Hl).
      eapply input_loop_fuel; [rewrite !length_app; lia|done|exact Hq'|by apply Forall_app].
    + intros [= <- <- <- <-]. by destruct Hret as [->|[-> _]].
Qed.

(** ** The streams that wait *)

Lemma link_position_app l i r :
  (i <= length l)%nat -> (link_position l i r <= i)%nat /\
  (forall e, e ∈ drop (link_position l i r) (take i l) -> r < e.2) /\
  (link_position l i r = 0%nat \/ (nth (link_position l i r - 1) l (0, 0)).2 <= r).
Proof.
  induction i as [|i IH]; intros Hi; cbn [link_position].
  { split_and!; [lia| |by left]. intros e He. by apply elem_of_nil in He. }
  destruct (Z.leb_spec (nth i l (0, 0)).2 r) as [Hle|Hgt].
  - split_and!; [lia| |right; by rewrite Nat.sub_1_r]. intros e He.
    rewrite drop_ge in He by (rewrite length_take; lia). by apply elem_of_nil in He.
  - destruct (IH ltac:(lia)) as (H1 & H2 & H3). split_and!; [lia| |done]. intros e He.
    destruct (lookup_lt_is_Some_2 l i ltac:(lia)) as [x Hx]. rewrite (take_S_r _ _ _ Hx), drop_app_le in He by (rewrite length_take; lia).
    apply elem_of_app in He as [He|He]; [by apply H2|]. apply list_elem_of_singleton in He as ->.
    rewrite (nth_lookup_Some _ _ _ _ Hx) in Hgt. done.
Qed.

(** The waiting streams are ordered by the reference they wait for. *)
Definition by_ref (a b : Z * Z) : Prop := a.2 <= b.2.
Abbreviation refs_sorted := (StronglySorted by_ref).

Lemma sorted_app_inv (a b : list (Z * Z)) :
  refs_sorted (a ++ b) <-> refs_sorted a /\ refs_sorted b /\ forall x y, x ∈ a -> y ∈ b -> by_ref x y.
Proof.
  induction a as [|x a IH]; simpl.
  { split; [|by intros (_ & ? & _)]. intros. split_and!; [constructor|done|]. intros x y Hx. by apply elem_of_nil in Hx. }
  split.
  - intros H. apply StronglySorted_inv in H as [H1 H2]. apply IH in H1 as (Ha & Hb & Hab).
    rewrite Forall_app, !Forall_forall in H2. destruct H2 as [H2 H3]. split_and!; [|done|].
    + constructor; [done|]. by apply Forall_forall.
    + intros y z Hy Hz. apply elem_of_cons in Hy as [->|Hy]; auto.
  - intros (Ha & Hb & Hab). apply StronglySorted_inv in Ha as [H1 H2]. constructor.
    + apply IH. split_and!; auto. intros. apply Hab; [by constructor|done].
    + apply Forall_app. split; [done|]. apply Forall_forall. intros y Hy. apply Hab; [by constructor|done].
Qed.

Lemma link_blocked_sorted q id r :
  refs_sorted (qd_blocked q) -> refs_sorted (qd_blocked (decoder_link_blocked q id r)).
Proof.
  intros Hs. unfold decoder_link_blocked. cbn [qd_blocked set_blocked].
  destruct (link_position_app (qd_blocked q) (length (qd_blocked q)) r ltac:(lia)) as (Hi & Hafter & Hbefore).
  rewrite firstn_all in Hafter. set (i := link_position _ _ r) in *.
  rewrite <- (take_drop i (qd_blocked q)) in Hs. apply sorted_app_inv in Hs as (H1 & H2 & H12).
  apply sorted_app_inv. split_and!; [done| |].
  - constructor; [done|]. apply Forall_forall. intros e He. specialize (Hafter e He). unfold by_ref. simpl. lia.
  - intros x y Hx Hy. apply elem_of_cons in Hy as [->|Hy]; [|by apply H12]. unfold by_ref. simpl.
    destruct Hbefore as [H0|Hle]; [rewrite H0 in Hx; by apply elem_of_nil in Hx|].
    destruct (lookup_lt_is_Some_2 (qd_blocked q) (i - 1)) as [l Hl].
    { apply list_elem_of_lookup in Hx as [j Hj]. apply lookup_lt_Some in Hj. rewrite length_take in Hj. lia. }
    rewrite (nth_lookup_Some _ _ _ _ Hl) in Hle. 
    destruct i as [|i]; [by apply elem_of_nil in Hx|]. simpl in Hl. rewrite Nat.sub_0_r in Hl.
    rewrite (take_S_r _ _ _ Hl) in H1, Hx. apply elem_of_app in Hx as [Hx|Hx].
    + apply sorted_app_inv in H1 as (_ & _ & H1). specialize (H1 x l Hx ltac:(by constructor)). unfold by_ref in H1. lia.
    + by apply list_elem_of_singleton in Hx as ->.
Qed.

Lemma count_unblocked_filter l total :
  refs_sorted l -> take (count_unblocked l total) l = filter (fun e => e.2 <= total) l.
Proof.
  induction 1 as [|[id r] l _ IH Hall]; [done|]. cbn [count_unblocked]. rewrite filter_cons.
  destruct (Z.ltb_spec total r) as [Hlt|Hge]; destruct (decide _) as [Hd|Hd]; simpl in Hd; try lia.
  - clear IH. simpl. induction Hall as [|[id' r'] l H _ IHl]; [done|].
    rewrite filter_cons_False by (unfold by_ref in H; simpl in *; lia). done.
  - simpl. by f_equal.
Qed.

(** ** Properties *)

(** [h2o_qpack_decoder_handle_input] on any octets returns: no assertion of the table fails,
    the code is 0 or DECOMPRESSION_FAILED, what is left is the end of the input, the dynamic
    table is the one of a history that was only extended (so an absolute index keeps denoting
    the header that was inserted under it) and stays within the size the settings allow; on
    success the streams reported are those whose reference is there now. *)
Theorem handle_input_total q hist src err :
  qdec_ok q hist -> bytes_ok src -> qd_num_unblocked q = 0%nat -> refs_sorted (qd_blocked q) ->
  exists r added, h2o_qpack_decoder_handle_input q src err = Some r /\
    qdec_ok (ha_decoder r) (hist ++ added) /\
    qd_header_table_size (ha_decoder r) = qd_header_table_size q /\
    (exists used, src = used ++ ha_src r) /\
    (ha_ret r = H2O_HTTP3_ERROR_QPACK_DECOMPRESSION_FAILED \/
     ha_ret r = 0 /\ ha_unblocked r =
       map fst (filter (fun e => e.2 <= qd_total_inserts (ha_decoder r)) (qd_blocked q))).
Proof.
  intros Hq Hs Hn Hb. unfold h2o_qpack_decoder_handle_input, drop_unblocked. rewrite Hn.
  cbn [Nat.eqb mbind option_bind].
  destruct (input_loop_safe (length src) q hist src err ltac:(lia) Hq Hs)
    as (ret & q' & rest & err' & added & -> & Hq' & (Hh & _ & _ & Hbl & _) & Hu & Hret).
  cbn [mbind option_bind].
  destruct ((if ret =? H2O_HTTP3_ERROR_INCOMPLETE then 0 else ret) =? 0) eqn:E; eexists _, added; (split; [done|]);
    cbn [ha_decoder ha_src ha_ret ha_unblocked qd_header_table_size qd_total_inserts set_blocked].
  - apply Z.eqb_eq in E. split_and!; [destruct Hq'; by constructor|done|done|]. right. split; [done|].
    by rewrite Hbl, count_unblocked_filter.
  - split_and!; [done|done|done|]. left. destruct Hret as [->|[->| ->]]; done.
Qed.

Lemma handle_input_total_witness :
  let q := h2o_qpack_create_decoder 4096 100 in
  exists r added, h2o_qpack_decoder_handle_input q [0x43; 120; 45; 97; 1; 49; 0; 0x3f] None = Some r /\
    qdec_ok (ha_decoder r) ([] ++ added) /\
    qd_header_table_size (ha_decoder r) = qd_header_table_size q /\
    (exists used, [0x43; 120; 45; 97; 1; 49; 0; 0x3f] = used ++ ha_src r) /\
    (ha_ret r = H2O_HTTP3_ERROR_QPACK_DECOMPRESSION_FAILED \/
     ha_ret r = 0 /\ ha_unblocked r =
       map fst (filter (fun e => e.2 <= qd_total_inserts (ha_decoder r)) (qd_blocked q))).
Proof.
  apply (handle_input_total (h2o_qpack_create_decoder 4096 100) []); [|by apply bytes_okb|done|constructor].
  constructor; [apply qrep_init; lia|simpl; lia|done].
Defined.

(** C31: the encoder stream may arrive in any pieces.  After a piece that was handled with success,
    what is left of it followed by the rest of the stream gives what the whole would have
    given: the same table, code and rest; and a failure on a piece is the failure of the whole
    (while no stream waits). *)
Theorem handle_input_chunks q hist a b err r :
  qdec_ok q hist -> qd_blocked q = [] -> qd_num_unblocked q = 0%nat -> bytes_ok a -> bytes_ok b ->
  h2o_qpack_decoder_handle_input q a err = Some r ->
  h2o_qpack_decoder_handle_input q (a ++ b) err =
    if ha_ret r =? 0
    then h2o_qpack_decoder_handle_input (ha_decoder r) (ha_src r ++ b) (ha_err_desc r)
    else Some (Handled (ha_ret r) (ha_decoder r) (ha_src r ++ b) (ha_err_desc r) []).
Proof.
  intros Hq Hbl Hn Ha Hb. unfold h2o_qpack_decoder_handle_input, drop_unblocked. rewrite Hn.
  cbn [Nat.eqb mbind option_bind].
  destruct (input_loop_safe (length a) q hist a err ltac:(lia) Hq Ha)
    as (ret & q' & rest & err' & added & Hl & Hq' & (_ & _ & _ & Hbl' & Hn') & _ & Hret).
  rewrite Hl, (input_loop_app (length a) q hist a b err ret q' rest err' ltac:(lia) Hq Ha Hb Hl).
  cbn [mbind option_bind]. rewrite Hbl in Hbl'. rewrite Hn in Hn'. rewrite Hbl'.
  assert (Hset : set_blocked q' [] 0 = q') by (destruct q'; simpl in *; by subst).
  destruct Hret as [->|[->| ->]]; intros [= <-]; cbn -[decoder_input_loop app length]; rewrite ?Hset, ?Hbl', ?Hn'; done.
Qed.

Lemma handle_input_chunks_witness :
  let q := h2o_qpack_create_decoder 4096 100 in
  let r := Handled 0 q [0x43; 120] None [] in
  h2o_qpack_decoder_handle_input q ([0x43; 120] ++ [45; 97; 1; 49]) None =
    if ha_ret r =? 0
    then h2o_qpack_decoder_handle_input (ha_decoder r) (ha_src r ++ [45; 97; 1; 49]) (ha_err_desc r)
    else Some (Handled (ha_ret r) (ha_decoder r) (ha_src r ++ [45; 97; 1; 49]) (ha_err_desc r) []).
Proof.
  apply (handle_input_chunks (h2o_qpack_create_decoder 4096 100) [] [0x43; 120] [45; 97; 1; 49] None
           (Handled 0 (h2o_qpack_create_decoder 4096 100) [0x43; 120] None [])).
  - constructor; [apply qrep_init; lia|simpl; lia|done].
  - done.
  - done.
  - by apply bytes_okb.
  - by apply bytes_okb.
  - vm_compute. reflexivity.
Defined.

(** ** When several streams wait *)

(** Streams 4 and 8 wait for the first header, stream 12 for the fifth. *)
Definition three_waiting : qpack_decoder :=
  decoder_link_blocked (decoder_link_blocked (decoder_link_blocked (h2o_qpack_create_decoder 4096 100) 4 1) 8 1) 12 5.

(** The first header unblocks 4 and 8; with the next input, 8 is reported again and 12 is gone
    from the list: the entries that are moved to the front are those at [entries + remaining]
    and not those behind the streams that were unblocked. *)
Example waiting_stream_lost :
  exists r1 r2, h2o_qpack_decoder_handle_input three_waiting [0x43; 120; 45; 97; 1; 49] None = Some r1 /\
    ha_unblocked r1 = [4; 8] /\
    h2o_qpack_decoder_handle_input (ha_decoder r1) [] None = Some r2 /\
    ha_unblocked r2 = [8] /\ qd_blocked (ha_decoder r2) = [(8, 1)].
Proof. eexists _, _. split; [vm_compute; reflexivity|]. split; [done|]. split; [vm_compute; reflexivity|]. done. Qed.
