(* ===== verification/QpackBlock.v ===== *)
(** * QPACK: header blocks (lib/http3/qpack.c)

    The prefix of a header block with its Required Insert Count, and the parsers of requests
    and responses on arbitrary input. *)
From S2P Require Import Prelude Tokens HpackInt Huffman HeaderTable Headers Hpack HpackSafe HpackParse Http3Frame Qpack QpackTable QpackStream.
From Stdlib Require Import ZArith Lia.
From stdpp Require Import base list numbers option.
Open Scope Z_scope.

(** ** The Required Insert Count *)

(** The encoding of RFC 9204, 4.5.1.1 *)
Definition encoded_insert_count (max_entries req : Z) : Z :=
  if req =? 0 then 0 else req mod (2 * max_entries) + 1.

(** In a window as long as the period, a number is known from its remainder. *)
Lemma mod_window p m a b : 0 < p -> m - p < a <= m -> m - p < b <= m -> a mod p = b mod p -> a = b.
Proof.
  intros Hp Ha Hb He. pose proof (Z.div_mod a p ltac:(lia)). pose proof (Z.div_mod b p ltac:(lia)).
  assert (a / p = b / p) by nia. nia.
Qed.

Lemma req_insert_count_window p m r :
  0 < p -> m - p < r <= m ->
  let req := m / p * p + r mod p in
  r = (if m <? req then req - p else req) /\ (m < req -> req - p = r).
Proof.
  intros Hp Hr req. pose proof (Z.mod_pos_bound r p Hp). pose proof (Z.mod_pos_bound m p Hp).
  pose proof (Z.div_mod m p ltac:(lia)).
  assert (Hm : forall k, (m / p * p + r mod p + k * p) mod p = r mod p).
  { intros k. rewrite Z.mod_add, Z.add_comm, Z.mod_add, Z.mod_mod by lia. done. }
  assert (m < req -> req - p = r).
  { intros. apply (mod_window p m); [lia|unfold req; lia|lia|]. rewrite <- (Hm (-1)); f_equal; unfold req; lia. }
  split; [|done]. destruct (Z.ltb_spec m req); [lia|].
  apply (mod_window p m); [lia|lia|unfold req in *; lia|]. rewrite <- (Hm 0); f_equal; unfold req; lia.
Qed.

Lemma req_insert_count_ok q hist req :
  qdec_ok q hist -> 0 < qd_max_entries q <= 2 ^ 27 -> len hist + qd_max_entries q <= PTLS_QUICINT_MAX ->
  1 <= req -> len hist - qd_max_entries q < req <= len hist + qd_max_entries q ->
  decode_req_insert_count q (encoded_insert_count (qd_max_entries q) req) = Some req.
Proof.
  intros Hq Hme Hn Hr Hw. unfold decode_req_insert_count, encoded_insert_count.
  set (me := qd_max_entries q) in *. set (n := len hist) in *. pose proof (len_nonneg hist).
  destruct (Z.eqb_spec req 0); [lia|]. pose proof (Z.mod_pos_bound req (2 * me) ltac:(lia)).
  destruct (Z.ltb_spec 0 (req mod (2 * me) + 1)); [|lia]. destruct (Z.eqb_spec me 0); [lia|]. cbv zeta.
  unfold PTLS_QUICINT_MAX in *.
  rewrite (qo_total _ _ Hq). fold n. rewrite (wrap64_small n) by lia.
  unfold wrap32. rewrite (Z.mod_small (2 * me)) by lia. rewrite (wrap64_small (n + me)) by lia.
  pose proof (Z.div_mod (n + me) (2 * me) ltac:(lia)). pose proof (Z.mod_pos_bound (n + me) (2 * me) ltac:(lia)).
  assert (0 <= (n + me) / (2 * me)) by (apply Z.div_pos; lia).
  rewrite (wrap64_small ((n + me) / (2 * me) * (2 * me))) by lia.
  destruct (req_insert_count_window (2 * me) (n + me) req ltac:(lia) ltac:(lia)) as [Hin Hout].
  set (v := (n + me) / (2 * me) * (2 * me) + req mod (2 * me)) in *.
  assert (Hv : to_int64 (wrap64 (req mod (2 * me) + 1 + wrap64 ((n + me) / (2 * me) * (2 * me) - 1))) = v).
  { unfold wrap64. rewrite Z.add_mod_idemp_r by lia.
    replace (req mod (2 * me) + 1 + ((n + me) / (2 * me) * (2 * me) - 1)) with v by (unfold v; lia).
    rewrite Z.mod_small by lia. apply to_int64_small. unfold INT64_MAX. lia. }
  rewrite Hv, (wrap64_small v) by lia. destruct (Z.ltb_spec (n + me) v).
  - rewrite (Hout ltac:(lia)). destruct (Z.leb_spec v (2 * me)); [lia|]. cbn [mbind option_bind].
    destruct (Z.eqb_spec req 0); [lia|]. destruct (Z.ltb_spec 4611686018427387903 req); [lia|done].
  - rewrite <- Hin. cbn [mbind option_bind].
    destruct (Z.eqb_spec req 0); [lia|]. destruct (Z.ltb_spec 4611686018427387903 req); [lia|done].
Qed.

(** ** The prefix *)

Record context_ok (q : qpack_decoder) (stream_id : Z) (src : bytes) (r : Z * qpack_decoder * option (qpack_ctx * bytes))
    : Prop := {
  co_code : r.1.1 = 0 \/ r.1.1 = H2O_HTTP3_ERROR_INCOMPLETE \/ r.1.1 = H2O_HTTP3_ERROR_QPACK_DECOMPRESSION_FAILED;
  co_blocked : r.1.1 = H2O_HTTP3_ERROR_INCOMPLETE ->
    exists req, r.1.2 = decoder_link_blocked q stream_id req /\ qpack_table_total_inserts (qd_table q) <= req /\
      len (qd_blocked (r.1.2)) < qd_max_blocked q;
  co_same : r.1.1 <> H2O_HTTP3_ERROR_INCOMPLETE -> r.1.2 = q;
  co_context : r.1.1 = 0 -> exists ctx rest, r.2 = Some (ctx, rest) /\ consumed src rest /\ qc_decoder ctx = q /\
    qc_req_insert_count ctx < qpack_table_total_inserts (qd_table q) /\ 0 <= qc_base_index ctx }.

Lemma context_failed q id src : context_ok q id src (H2O_HTTP3_ERROR_QPACK_DECOMPRESSION_FAILED, q, None).
Proof. constructor; simpl; [by right; right|intros H; by cbv in H|done|intros H; by cbv in H]. Qed.
#[export] Hint Resolve context_failed : h2o.

Lemma context_safe q id src : bytes_ok src -> context_ok q id src (parse_decode_context q id src).
Proof.
  intros Hs. unfold parse_decode_context. cbv zeta. read_int Hs; cbn [negb]; [|apply context_failed].
  destruct (decode_req_insert_count q _) as [req|]; [|auto with h2o].
  assert (Hs' : bytes_ok l) by eauto using consumed_ok. destruct l as [|b l]; [auto with h2o|].
  read_int Hs'; cbn [negb]; [|auto with h2o]. destruct (_ <? _); [auto with h2o|].
  set (base := if negb _ then _ else _). destruct (Z.ltb_spec base 0); [auto with h2o|].
  destruct (Z.leb_spec (qpack_table_total_inserts (qd_table q)) req).
  - destruct (Z.leb_spec (qd_max_blocked q) (len (qd_blocked q) + 1)); [auto with h2o|].
    constructor; cbn [fst snd]; [by right; left| |done|done]. intros _. exists req. split_and!; [done|done|].
    unfold decoder_link_blocked, len in *. cbn [qd_blocked set_blocked].
    rewrite length_app, length_take, length_cons, length_drop. lia.
  - constructor; cbn [fst snd]; [by left|done|done|]. intros _. eexists _, _. split; [done|].
    split_and!; [by eapply consumed_trans|done|done|done].
Qed.

Lemma normalize_hard code :
  code <> 0 -> code <> H2O_HTTP2_ERROR_INVALID_HEADER_CHAR ->
  normalize_error_code code = 0 \/ normalize_error_code code = H2O_HTTP2_ERROR_INVALID_HEADER_CHAR -> False.
Proof.
  intros H1 H2. unfold normalize_error_code. destruct (Z.eqb_spec code H2O_HTTP2_ERROR_INVALID_HEADER_CHAR); [done|].
  destruct (Z.ltb_spec code 0); simpl; [intros [Hn|Hn]; by cbv in Hn|tauto].
Qed.

(** ** Properties *)

(** The Required Insert Count that a peer encodes as RFC 9204 says is the one the decoder
    recovers, whatever the number of insertions so far, as long as it is within MaxEntries of
    the insertions the decoder has seen. *)
Theorem req_insert_count_roundtrip q hist req :
  qdec_ok q hist -> 0 < qd_max_entries q <= 2 ^ 27 -> len hist + qd_max_entries q <= PTLS_QUICINT_MAX ->
  1 <= req -> len hist - qd_max_entries q < req <= len hist + qd_max_entries q ->
  decode_req_insert_count q (encoded_insert_count (qd_max_entries q) req) = Some req.
Proof. apply req_insert_count_ok. Qed.

Lemma req_insert_count_roundtrip_witness :
  decode_req_insert_count (h2o_qpack_create_decoder 4096 100) (encoded_insert_count 128 77) = Some 77.
Proof.
  apply (req_insert_count_roundtrip (h2o_qpack_create_decoder 4096 100) []);
    [|repeat split; by vm_compute..].
  constructor; [apply qrep_init; lia|simpl; lia|done].
Defined.

(** An encoded count above the range is taken as well, where the RFC asks for an error. *)
Example insert_count_out_of_range :
  decode_req_insert_count (h2o_qpack_create_decoder 4096 100) 300 = Some 43.
Proof. vm_compute. reflexivity. Qed.

(** [h2o_qpack_parse_request] returns on any octets.  The decoder is the same afterwards,
    except that a stream whose insertions are not there yet is put on the list of those that
    wait, which stays within the number the settings allow; an acknowledgement is built
    exactly when the code is 0 or the soft error; the request is well formed (no pseudo
    header nor connection-specific header in the list) and code 0 comes without an error
    description. *)
Theorem qpack_request_wellformed {digests_t : Type} (load : digests_t -> bytes -> digests_t) q id args map st src :
  bytes_ok src -> request_ok st ->
  exists p, h2o_qpack_parse_request load q id args map st src = Some p /\
    request_ok (qp_message p) /\
    (qp_decoder p = q \/ qp_ret p = H2O_HTTP3_ERROR_INCOMPLETE /\
       (exists req, qp_decoder p = decoder_link_blocked q id req) /\
       len (qd_blocked (qp_decoder p)) < qd_max_blocked q) /\
    (is_Some (qp_ack p) <-> qp_ret p = 0 \/ qp_ret p = H2O_HTTP2_ERROR_INVALID_HEADER_CHAR) /\
    (qp_ret p = 0 -> rq_err (qp_message p) = None).
Proof.
  intros Hs Hst. unfold h2o_qpack_parse_request.
  destruct (context_safe q id src Hs) as [H1 H2 H3 H4].
  destruct (parse_decode_context q id src) as [[ret q1] o]. cbn [fst snd] in *.
  destruct (Z.eq_dec ret 0) as [->|Hz].
  - destruct H4 as (ctx & rest & -> & Hc & Hq & _ & _); [done|]. rewrite (H3 ltac:(done)).
    destruct (parse_request_ok (H := qpack_header_decoder q) load ctx args map st rest)
      as (st' & c' & code & -> & Hd & Hok & Herr); [done|by eapply consumed_ok|done|]. cbn [mbind option_bind].
    simpl in Hd. destruct (negb (code =? 0) && negb (code =? H2O_HTTP2_ERROR_INVALID_HEADER_CHAR)) eqn:E;
      (eexists; split; [done|]); cbn [qp_message qp_decoder qp_ret qp_ack].
    + rewrite andb_true_iff, !negb_true_iff, !Z.eqb_neq in E. destruct E as [E1 E2].
      split_and!; [done|by left| |].
      * split; [by intros [? [=]]|]. intros Hn. exfalso. by apply (normalize_hard code) in Hn.
      * intros Hn. exfalso. by apply (normalize_hard code); [| |left].
    + rewrite andb_false_iff, !negb_false_iff, !Z.eqb_eq in E. split_and!; [done|by left|by split; eauto|done].
  - destruct H1 as [->|[->| ->]]; [done| |]; (eexists; split; [reflexivity|]);
      cbn [qp_message qp_decoder qp_ret qp_ack].
    + destruct (H2 eq_refl) as (req & -> & _ & Hlt). split_and!; [done|right; by eauto| |done].
      split; [by intros [? [=]]|]. intros [Hn|Hn]; by cbv in Hn.
    + split_and!; [done|left; by apply H3| |done]. split; [by intros [? [=]]|]. intros [Hn|Hn]; by cbv in Hn.
Qed.

Lemma qpack_request_wellformed_witness :
  let q := h2o_qpack_create_decoder 0 100 in
  exists p, h2o_qpack_parse_request (fun (d : unit) _ => d) q 4 (RequestArgs true true false) true
      (Request None None None None None [] 0 0 None tt None None) [0; 0; 0xd1; 0xd7; 0xc1; 0x50; 1; 97] = Some p /\
    request_ok (qp_message p) /\
    (qp_decoder p = q \/ qp_ret p = H2O_HTTP3_ERROR_INCOMPLETE /\
       (exists req, qp_decoder p = decoder_link_blocked q 4 req) /\
       len (qd_blocked (qp_decoder p)) < qd_max_blocked q) /\
    (is_Some (qp_ack p) <-> qp_ret p = 0 \/ qp_ret p = H2O_HTTP2_ERROR_INVALID_HEADER_CHAR) /\
    (qp_ret p = 0 -> rq_err (qp_message p) = None).
Proof.
  apply (qpack_request_wellformed (fun (d : unit) _ => d) (h2o_qpack_create_decoder 0 100) 4
           (RequestArgs true true false) true (Request None None None None None [] 0 0 None tt None None)).
  - by apply bytes_okb.
  - constructor; simpl; try done; split; (discriminate || (intros [x Hx]; discriminate Hx)).
Defined.
