(* ===== verification/QpackEncode.v ===== *)
(** * QPACK: the encoder (lib/http3/qpack.c)

    The encoder's dynamic table and the header blocks in flight, the instructions of the
    peer's decoder stream, and the functions that flatten requests and responses into HEADERS
    frames.  [None] is a failed assertion or a read outside of an object. *)
From S2P Require Import Prelude Strings Url Tokens QpackStatic HpackInt Huffman HeaderTable Headers Http3Frame HpackParse Qpack.
From Stdlib Require Import ZArith Lia.
From stdpp Require Import base list numbers option strings.
Open Scope Z_scope.

(** ** The encoder *)

Record inflight_block := Inflight { if_stream_id : Z; if_largest_ref : Z; if_is_blocking : bool }.

Record qpack_encoder := QEncoder {
  qe_table : qpack_table;
  qe_largest_known_received : Z;
  qe_max_blocked : Z;
  qe_num_blocked : Z; (* [uint16_t] *)
  qe_inflight : list inflight_block }.

Definition h2o_qpack_create_encoder (header_table_size max_blocked : Z) : qpack_encoder :=
  QEncoder (qpack_table_init header_table_size) 0 max_blocked 0 [].

(** ** The decoder stream *)

Definition sync_err : string := "Table State Synchronize: invalid argument".
Definition ack_err : string := "Header Acknowledgement: invalid stream id".

(** The code, the encoder ([None] for NULL) and [*err_desc]. *)
Abbreviation enc_result := (Z * option qpack_encoder * option string)%type.

Definition handle_table_state_synchronize (qpack : option qpack_encoder) (insert_count : Z) (err : option string)
    : enc_result :=
  let error := (H2O_HTTP3_ERROR_QPACK_DECODER_STREAM, qpack, Some sync_err) in
  match qpack with
  | None => error
  | Some q =>
      if insert_count =? 0 then error
      else
        let new_value := qe_largest_known_received q + insert_count in
        if qpack_table_total_inserts (qe_table q) <=? new_value then error
        else (0, Some (QEncoder (qe_table q) new_value (qe_max_blocked q) (qe_num_blocked q) (qe_inflight q)), err)
  end.

(** [memmove(entries + index, entries + index + 1, k)], where [k] counts octets and an entry
    has 24 of them (little endian): of the first entry the octets below [k] are those of the
    second, and so on. *)
Definition mix_octets (k dst src : Z) : Z :=
  let m := 2 ^ (8 * Z.max 0 (Z.min 8 k)) in dst / m * m + src mod m.

Definition mix_entry (k : Z) (dst src : inflight_block) : inflight_block :=
  Inflight (mix_octets k (if_stream_id dst) (if_stream_id src))
    (mix_octets (k - 8) (if_largest_ref dst) (if_largest_ref src))
    (if 16 <? k then if_is_blocking src else if_is_blocking dst).

Fixpoint memmove_entries (k : Z) (entries : list inflight_block) : list inflight_block :=
  match entries with
  | dst :: ((src :: _) as rest) => mix_entry k dst src :: memmove_entries (k - 24) rest
  | _ => entries
  end.

Definition evict_inflight_by_index (q : qpack_encoder) (index : nat) : option qpack_encoder :=
  e ← qe_inflight q !! index;
  let num_blocked := if if_is_blocking e then wrap16 (qe_num_blocked q - 1) else qe_num_blocked q in
  let size := (length (qe_inflight q) - 1)%nat in
  let inflight :=
    if (size =? 0)%nat then []
    else if (index <? size)%nat
    then take size (take index (qe_inflight q) ++
                    memmove_entries (Z.of_nat (size - index)) (drop index (qe_inflight q)))
    else take size (qe_inflight q) in
  Some (QEncoder (qe_table q) (qe_largest_known_received q) (qe_max_blocked q) num_blocked inflight).

(** [for (i = 0; i < inflight.size; ++i) if (entries[i].stream_id == stream_id) goto Found;] *)
Fixpoint find_inflight (entries : list inflight_block) (stream_id : Z) (i : nat) : option (nat * inflight_block) :=
  match entries with
  | [] => None
  | e :: rest => if if_stream_id e =? stream_id then Some (i, e) else find_inflight rest stream_id (S i)
  end.

Definition handle_header_ack (qpack : option qpack_encoder) (stream_id : Z) (err : option string)
    : option enc_result :=
  let not_found := Some (H2O_HTTP3_ERROR_QPACK_DECODER_STREAM, qpack, Some ack_err) in
  match qpack with
  | None => not_found
  | Some q =>
      match find_inflight (qe_inflight q) stream_id 0 with
      | None => not_found
      | Some (i, e) =>
          let q := if qe_largest_known_received q <? if_largest_ref e
                   then QEncoder (qe_table q) (if_largest_ref e) (qe_max_blocked q) (qe_num_blocked q) (qe_inflight q)
                   else q in
          q ← evict_inflight_by_index q i;
          Some (0, Some q, err)
      end
  end.

(** A round removes an entry or goes on to the next one. *)
Fixpoint cancel_loop (fuel : nat) (q : qpack_encoder) (stream_id : Z) (index : nat) : option qpack_encoder :=
  match qe_inflight q !! index with
  | None => Some q
  | Some e =>
      match fuel with
      | O => None
      | S fuel =>
          if if_stream_id e =? stream_id
          then q ← evict_inflight_by_index q index; cancel_loop fuel q stream_id index
          else cancel_loop fuel q stream_id (S index)
      end
  end.

Definition handle_stream_cancellation (qpack : option qpack_encoder) (stream_id : Z) (err : option string)
    : option enc_result :=
  match qpack with
  | None => Some (0, None, err)
  | Some q =>
      q ← cancel_loop (length (qe_inflight q)) q stream_id 0;
      Some (0, Some q, err)
  end.

(** One instruction: [inl] is a [goto Exit] with the code, [inr] its outcome and [src]. *)
Definition encoder_instruction (qpack : option qpack_encoder) (b : Z) (src : bytes) (err : option string)
    : option (Z + enc_result * bytes) :=
  let kind := Z.shiftr b 6 in
  if kind =? 0 then
    let '(ret, insert_count, src) := qpack_decode_int src 6 in
    if negb (ret =? 0) then Some (inl ret)
    else Some (inr (handle_table_state_synchronize qpack insert_count err, src))
  else if kind =? 1 then
    let '(ret, stream_id, src) := qpack_decode_int src 6 in
    if negb (ret =? 0) then Some (inl ret)
    else r ← handle_stream_cancellation qpack stream_id err; Some (inr (r, src))
  else
    let '(ret, stream_id, src) := qpack_decode_int src 7 in
    if negb (ret =? 0) then Some (inl ret)
    else r ← handle_header_ack qpack stream_id err; Some (inr (r, src)).

Fixpoint encoder_input_loop (fuel : nat) (qpack : option qpack_encoder) (src : bytes) (err : option string)
    : option (enc_result * bytes) :=
  match src with
  | [] => Some (0, qpack, err, src)
  | b :: _ =>
      match fuel with
      | O => None
      | S fuel =>
          r ← encoder_instruction qpack b src err;
          match r with
          | inl ret => Some (ret, qpack, err, src)
          | inr (ret, qpack, err, src) =>
              if negb (ret =? 0) then Some (ret, qpack, err, src) else encoder_input_loop fuel qpack src err
          end
      end
  end.

(** The code, the encoder, [*err_desc] and [*_src]. *)
Definition h2o_qpack_encoder_handle_input (qpack : option qpack_encoder) (src : bytes) (err : option string)
    : option (enc_result * bytes) :=
  '(ret, qpack, err, src) ← encoder_input_loop (length src) qpack src err;
  Some (if ret =? H2O_HTTP3_ERROR_INCOMPLETE then 0 else ret, qpack, err, src).

(** ** Searching the dynamic table *)

Fixpoint lookup_dynamic_loop (fuel : nat) (t : qpack_table) (name : name_ref) (value : bytes) (i name_found : Z)
    : option (Z * bool) :=
  if i <? qt_base_offset t then Some (name_found, false)
  else
    match fuel with
    | O => None
    | S fuel =>
        entry ← qt_entries t !! Z.to_nat (i - qt_base_offset t);
        let same_name := if h2o_iovec_is_token name then bool_decide (name = e_name entry)
                         else bool_decide (name_bytes name = name_bytes (e_name entry)) in
        if negb same_name then lookup_dynamic_loop fuel t name value (i - 1) name_found
        else if bool_decide (value = e_value entry) then Some (i, true)
        else lookup_dynamic_loop fuel t name value (i - 1) (if name_found =? -1 then i else name_found)
    end.

(** The index and [*is_exact]. *)
Definition lookup_dynamic (q : qpack_encoder) (name : name_ref) (value : bytes) (acked_only : bool)
    : option (Z * bool) :=
  lookup_dynamic_loop (length (qt_entries (qe_table q))) (qe_table q) name value
    (if acked_only then qe_largest_known_received q else qpack_table_total_inserts (qe_table q) - 1) (-1).

(** ** Strings *)

(** What [flatten_string] writes where the octet [first] is.  A value is written behind the
    last octet, where the octet is not set; it does not matter then ([flatten_value]). *)
Definition flatten_string (first : Z) (src : bytes) (prefix_bits : Z) (dont_compress : bool) : bytes :=
  match (if dont_compress then None else h2o_hpack_encode_huffman src) with
  | None =>
      h2o_hpack_encode_int (Z.land first (Z.lnot (Z.shiftl 2 prefix_bits - 1))) (len src) prefix_bits ++ src
  | Some huff =>
      h2o_hpack_encode_int
        (Z.lor (Z.land first (Z.lnot (Z.shiftl 1 prefix_bits - 1))) (Z.shiftl 1 prefix_bits)) (len huff) prefix_bits
      ++ huff
  end.

Definition flatten_value (value : bytes) (dont_compress : bool) : bytes := flatten_string 0 value 7 dont_compress.

Definition emit_insert_with_nameref (is_static : bool) (index : Z) (value : bytes) : bytes :=
  h2o_hpack_encode_int (Z.lor 0x80 (if is_static then 0x40 else 0)) index 6 ++ flatten_value value false.

Definition emit_insert_without_nameref (name value : bytes) : bytes :=
  flatten_string 0x40 name 5 false ++ flatten_value value false.

(** ** Fields *)

(** [encoder_buf] is [None] for NULL; [headers_buf] are the octets behind the room for the
    prefix. *)
Record flatten_context := FlattenContext {
  fc_qpack : option qpack_encoder;
  fc_stream_id : Z;
  fc_encoder_buf : option bytes;
  fc_headers_buf : bytes;
  fc_base_index : Z;
  fc_largest_ref : Z }.

Definition append (ctx : flatten_context) (out : bytes) : flatten_context :=
  FlattenContext (fc_qpack ctx) (fc_stream_id ctx) (fc_encoder_buf ctx) (fc_headers_buf ctx ++ out)
    (fc_base_index ctx) (fc_largest_ref ctx).

Definition refer (ctx : flatten_context) (index : Z) : flatten_context :=
  FlattenContext (fc_qpack ctx) (fc_stream_id ctx) (fc_encoder_buf ctx) (fc_headers_buf ctx) (fc_base_index ctx)
    (if fc_largest_ref ctx <? index then index else fc_largest_ref ctx).

Definition flatten_static_indexed (ctx : flatten_context) (index : Z) : flatten_context :=
  append ctx (h2o_hpack_encode_int 0xc0 index 6).

Definition flatten_dynamic_indexed (ctx : flatten_context) (index : Z) : flatten_context :=
  let ctx := refer ctx index in
  append ctx
    (if index <=? fc_base_index ctx
     then h2o_hpack_encode_int 0x80 (fc_base_index ctx - index) 6
     else h2o_hpack_encode_int 0x10 (index - fc_base_index ctx - 1) 4).

Definition flatten_static_nameref (ctx : flatten_context) (index : Z) (value : bytes) (dont_compress : bool)
    : flatten_context :=
  append ctx (h2o_hpack_encode_int (Z.lor 0x50 (if dont_compress then 0x20 else 0)) index 4
              ++ flatten_value value dont_compress).

Definition flatten_dynamic_nameref (ctx : flatten_context) (index : Z) (value : bytes) (dont_compress : bool)
    : flatten_context :=
  let ctx := refer ctx index in
  append ctx
    ((if index <=? fc_base_index ctx
      then h2o_hpack_encode_int (Z.lor 0x40 (if dont_compress then 0x20 else 0)) (fc_base_index ctx - index) 4
      else h2o_hpack_encode_int (if dont_compress then 0x8 else 0) (index - fc_base_index ctx - 1) 3)
     ++ flatten_value value dont_compress).

Definition flatten_without_nameref (ctx : flatten_context) (name value : bytes) (dont_compress : bool)
    : flatten_context :=
  append ctx (flatten_string (Z.lor 0x20 (if dont_compress then 0x10 else 0)) name 3 false
              ++ flatten_value value dont_compress).

(** The instruction to the encoder stream, the insertion and the reference to it.  For a name that
    is not a token the code places the copy of the name by [added->value_len], which it has not set
    yet; no caller gets there, since only tokens are likely to repeat. *)
Definition insert_and_refer (ctx : flatten_context) (q : qpack_encoder) (buf : bytes)
    (static_index dynamic_index : Z) (name : name_ref) (value : bytes) : option flatten_context :=
  let emitted :=
    if 0 <=? static_index then emit_insert_with_nameref true static_index value
    else if 0 <=? dynamic_index then emit_insert_with_nameref false dynamic_index value
    else emit_insert_without_nameref (name_bytes name) value in
  table ← match name with
          | NTok _ => qpack_table_insert (qe_table q) (Entry name value 0)
          | NStr _ => None
          end;
  let q := QEncoder table (qe_largest_known_received q) (qe_max_blocked q) (qe_num_blocked q) (qe_inflight q) in
  Some (flatten_dynamic_indexed
          (FlattenContext (Some q) (fc_stream_id ctx) (Some (buf ++ emitted)) (fc_headers_buf ctx)
             (fc_base_index ctx) (fc_largest_ref ctx))
          (qpack_table_total_inserts table - 1)).

(** The field as a literal. *)
Definition flatten_literal (ctx : flatten_context) (static_index dynamic_index : Z) (name : name_ref) (value : bytes)
    (dont_compress : bool) : flatten_context :=
  if 0 <=? static_index then flatten_static_nameref ctx static_index value dont_compress
  else if 0 <=? dynamic_index then flatten_dynamic_nameref ctx dynamic_index value dont_compress
  else flatten_without_nameref ctx (name_bytes name) value dont_compress.

Definition do_flatten_header (ctx : flatten_context) (static_index : Z) (is_exact likely : bool) (name : name_ref)
    (value : bytes) (dont_compress : bool) : option flatten_context :=
  if (0 <=? static_index) && is_exact then Some (flatten_static_indexed ctx static_index)
  else
    match fc_qpack ctx with
    | None => Some (flatten_literal ctx static_index (-1) name value dont_compress)
    | Some q =>
        '(dynamic_index, is_exact) ← lookup_dynamic q name value (bool_decide (fc_encoder_buf ctx = None));
        if (0 <=? dynamic_index) && is_exact then Some (flatten_dynamic_indexed ctx dynamic_index)
        else
          match fc_encoder_buf ctx with
          | Some buf =>
              if likely && (((static_index <? 0) && (dynamic_index <? 0)) || (8 <=? len value))
                 && (entry_size name value <=? qt_max_size (qe_table q) - qt_num_bytes (qe_table q))
              then insert_and_refer ctx q buf static_index dynamic_index name value
              else Some (flatten_literal ctx static_index dynamic_index name value dont_compress)
          | None => Some (flatten_literal ctx static_index dynamic_index name value dont_compress)
          end
    end.

Definition flatten_header (ctx : flatten_context) (header : h2o_header_t) : option flatten_context :=
  let '(static_index, is_exact, likely) :=
    match h_name header with
    | NTok t =>
        let '(i, exact) := nth (Z.to_nat t) h2o_qpack_lookup_static (fun _ => (-1, false)) (h_value header) in
        (i, exact, likely_to_repeat (tok_flags (token t)))
    | NStr _ => (-1, false, false)
    end in
  do_flatten_header ctx static_index is_exact likely (h_name header) (h_value header) (h_dont_compress header).

(** The assertion there compares the address of a library function, and holds. *)
Definition flatten_known_header_with_static_lookup (ctx : flatten_context) (lookup_cb : bytes -> Z * bool) (name : Z)
    (value : bytes) : option flatten_context :=
  let '(static_index, is_exact) := lookup_cb value in
  do_flatten_header ctx static_index is_exact (likely_to_repeat (tok_flags (token name))) (NTok name) value false.

(** ** Frames *)

Definition PREFIX_CAPACITY : Z := 1 + 8 + 10 + 10.

Definition prepare_flatten (qpack : option qpack_encoder) (stream_id : Z) (encoder_buf : option bytes)
    : flatten_context :=
  FlattenContext qpack stream_id
    (match qpack with
     | Some q => if qe_num_blocked q <? qe_max_blocked q then encoder_buf else None
     | None => None
     end)
    []
    (match qpack with Some q => qpack_table_total_inserts (qe_table q) - 1 | None => 0 end)
    0.

Record flattened_frame := FlattenedFrame {
  ff_frame : bytes;
  ff_serialized_header_len : Z;
  ff_qpack : option qpack_encoder;
  ff_encoder_buf : option bytes }.

(** The base index and the largest reference written, and the encoder with the block in
    flight. *)
Definition mark_inflight (ctx : flatten_context) : option (Z * Z * option qpack_encoder) :=
  if fc_largest_ref ctx =? 0 then Some (0, 0, fc_qpack ctx)
  else
    q ← fc_qpack ctx;
    '(largest_ref, num_blocked, is_blocking) ←
      (if fc_largest_ref ctx <? qe_largest_known_received q
       then Some (qe_largest_known_received q, qe_num_blocked q, false)
       else if qe_largest_known_received q <? fc_largest_ref ctx
       then if negb (qe_num_blocked q <? qe_max_blocked q) then None
            else Some (fc_largest_ref ctx, wrap16 (qe_num_blocked q + 1), true)
       else Some (fc_largest_ref ctx, qe_num_blocked q, false));
    Some (fc_base_index ctx, largest_ref,
          Some (QEncoder (qe_table q) (qe_largest_known_received q) (qe_max_blocked q) num_blocked
                  (qe_inflight q ++ [Inflight (fc_stream_id ctx) largest_ref is_blocking]))).

Definition block_prefix (base_index largest_ref : Z) : bytes :=
  h2o_hpack_encode_int 0 (if negb (largest_ref =? 0) then largest_ref + 1 else 0) 8
  ++ (if largest_ref <=? base_index
      then h2o_hpack_encode_int 0 (base_index - largest_ref) 7
      else h2o_hpack_encode_int 0x80 (largest_ref - base_index - 1) 7).

(** [None] also when the room for the prefix is not enough. *)
Definition finalize_flatten (ctx : flatten_context) : option flattened_frame :=
  '(base_index, largest_ref, qpack) ← mark_inflight ctx;
  let prefix := block_prefix base_index largest_ref in
  let payload := prefix ++ fc_headers_buf ctx in
  let len_len := quicly_encodev_capacity (len payload) in
  if PREFIX_CAPACITY - len prefix - len_len - 1 <? 0 then None
  else
    encoded_len ← ptls_encode_quicint (len payload);
    Some (FlattenedFrame (H2O_HTTP3_FRAME_TYPE_HEADERS :: encoded_len ++ payload) (len payload) qpack
            (fc_encoder_buf ctx)).

(** ** Messages *)

Fixpoint flatten_headers (ctx : flatten_context) (headers : h2o_headers_t) : option flatten_context :=
  match headers with
  | [] => Some ctx
  | h :: headers => ctx ← flatten_header ctx h; flatten_headers ctx headers
  end.

Definition flatten_datagram_flow_id (ctx : flatten_context) (datagram_flow_id : option bytes)
    : option flatten_context :=
  match datagram_flow_id with
  | Some id => flatten_known_header_with_static_lookup ctx h2o_qpack_lookup_datagram_flow_id H2O_TOKEN_DATAGRAM_FLOW_ID id
  | None => Some ctx
  end.

Definition h2o_qpack_flatten_request (qpack : option qpack_encoder) (stream_id : Z) (encoder_buf : option bytes)
    (method : bytes) (scheme : h2o_url_scheme_t) (authority path : bytes) (protocol : option bytes)
    (headers : h2o_headers_t) (datagram_flow_id : option bytes) : option flattened_frame :=
  let ctx := prepare_flatten qpack stream_id encoder_buf in
  ctx ← flatten_known_header_with_static_lookup ctx h2o_qpack_lookup_method H2O_TOKEN_METHOD method;
  let old_style_connect := bool_decide (method = lit "CONNECT") && bool_decide (protocol = None) in
  ctx ← (if negb old_style_connect then
           if bool_decide (scheme = H2O_URL_SCHEME_HTTP) then Some (flatten_static_indexed ctx 22)
           else if bool_decide (scheme = H2O_URL_SCHEME_HTTPS) then Some (flatten_static_indexed ctx 23)
           else flatten_known_header_with_static_lookup ctx h2o_qpack_lookup_scheme H2O_TOKEN_SCHEME
                  (scheme_name scheme)
         else Some ctx);
  ctx ← flatten_known_header_with_static_lookup ctx h2o_qpack_lookup_authority H2O_TOKEN_AUTHORITY authority;
  ctx ← (if negb old_style_connect
         then flatten_known_header_with_static_lookup ctx h2o_qpack_lookup_path H2O_TOKEN_PATH path
         else Some ctx);
  ctx ← (match protocol with
         | Some protocol =>
             flatten_known_header_with_static_lookup ctx h2o_qpack_lookup_protocol H2O_TOKEN_PROTOCOL protocol
         | None => Some ctx
         end);
  ctx ← flatten_headers ctx headers;
  ctx ← flatten_datagram_flow_id ctx datagram_flow_id;
  finalize_flatten ctx.

Definition indexed_status : list (Z * Z) :=
  [(24, 103); (25, 200); (26, 304); (27, 404); (28, 503); (63, 100); (64, 204); (65, 206); (66, 302); (67, 400);
   (68, 403); (69, 421); (70, 425); (71, 500)].

Definition flatten_status (ctx : flatten_context) (status : Z) : option flatten_context :=
  match List.find (fun e => e.2 =? status) indexed_status with
  | Some (cp, _) => Some (flatten_static_indexed ctx cp)
  | None => do_flatten_header ctx 24 false (likely_to_repeat (tok_flags (token H2O_TOKEN_STATUS)))
              (NTok H2O_TOKEN_STATUS) (decimal 5 (wrap16 status)) false
  end.

Definition h2o_qpack_flatten_response (qpack : option qpack_encoder) (stream_id : Z) (encoder_buf : option bytes)
    (status : Z) (headers : h2o_headers_t) (server_name : option bytes) (content_length : Z)
    (datagram_flow_id : option bytes) : option flattened_frame :=
  let ctx := prepare_flatten qpack stream_id encoder_buf in
  ctx ← flatten_status ctx status;
  ctx ← (match server_name with
         | Some server_name =>
             if negb (len server_name =? 0)
             then do_flatten_header ctx 92 false (likely_to_repeat (tok_flags (token H2O_TOKEN_SERVER)))
                    (NTok H2O_TOKEN_SERVER) server_name false
             else Some ctx
         | None => Some ctx
         end);
  ctx ← (if negb (content_length =? SIZE_MAX) then
           if content_length =? 0 then Some (flatten_static_indexed ctx 4)
           else do_flatten_header ctx 4 false (likely_to_repeat (tok_flags (token H2O_TOKEN_CONTENT_LENGTH)))
                  (NTok H2O_TOKEN_CONTENT_LENGTH) (decimal 20 content_length) false
         else Some ctx);
  ctx ← flatten_headers ctx headers;
  ctx ← flatten_datagram_flow_id ctx datagram_flow_id;
  finalize_flatten ctx.

(** ** The state of an encoder *)

(** An encoder that never inserted: what the peer's settings create and the callers, which pass
    no encoder stream, keep. *)
Definition idle (qpack : option qpack_encoder) : Prop :=
  forall q, qpack = Some q ->
  qt_entries (qe_table q) = [] /\ qt_base_offset (qe_table q) = 1 /\ qe_largest_known_received q = 0 /\
  qe_inflight q = [].
