(* ===== verification/QpackAcks.v ===== *)
(** * QPACK: the decoder stream (lib/http3/qpack.c)

    [h2o_qpack_encoder_handle_input] on any octets: it returns, it only removes blocks from the
    list of those in flight, and the insertions the peer may acknowledge are those made. *)
From S2P Require Import Prelude HpackInt HeaderTable HpackSafe Http3Frame HpackParse Qpack QpackEncode.
From Stdlib Require Import ZArith Lia.
From stdpp Require Import base list numbers option strings.
Open Scope Z_scope.

(** ** Removing a block in flight *)

Lemma memmove_entries_length entries : forall k, length (memmove_entries k entries) = length entries.
Proof.
  induction entries as [|dst [|src rest] IH]; intros k; [done|done|].
  change (S (length (memmove_entries (k - 24) (src :: rest))) = S (length (src :: rest))). by rewrite IH.
Qed.

Lemma evict_inflight_ok q index :
  (index < length (qe_inflight q))%nat ->
  exists q', evict_inflight_by_index q index = Some q' /\ qe_table q' = qe_table q /\
    qe_largest_known_received q' = qe_largest_known_received q /\
    length (qe_inflight q') = (length (qe_inflight q) - 1)%nat.
Proof.
  intros Hi. unfold evict_inflight_by_index.
  destruct (lookup_lt_is_Some_2 (qe_inflight q) index Hi) as [e ->]. cbn [mbind option_bind].
  eexists. split; [done|]. cbn [qe_table qe_largest_known_received qe_inflight]. split_and!; [done|done|].
  destruct (Nat.eqb_spec (length (qe_inflight q) - 1) 0) as [Hz|]; [simpl; lia|].
  destruct (Nat.ltb_spec index (length (qe_inflight q) - 1)); rewrite length_take.
  - rewrite length_app, length_take, memmove_entries_length, length_drop. lia.
  - lia.
Qed.

(** What the instructions keep: the table, and no new block in flight. *)
Definition encoder_step (q q' : qpack_encoder) : Prop :=
  qe_table q' = qe_table q /\ (length (qe_inflight q') <= length (qe_inflight q))%nat /\
  (idle (Some q) -> idle (Some q')).

Definition encoder_steps (qpack qpack' : option qpack_encoder) : Prop :=
  match qpack, qpack' with
  | None, None => True
  | Some q, Some q' => encoder_step q q'
  | _, _ => False
  end.

#[export] Instance encoder_steps_preorder : PreOrder encoder_steps.
Proof.
  split.
  - intros [q|]; [|done]. by split_and!.
  - intros [a|] [b|] [c|]; try done. intros (H1 & H2 & H3) (H4 & H5 & H6). split_and!; [congruence|lia|auto].
Qed.

Lemma find_inflight_spec entries id : forall i j e,
  find_inflight entries id i = Some (j, e) -> (i <= j < i + length entries)%nat.
Proof.
  induction entries as [|x entries IH]; intros i j e; simpl; [done|].
  destruct (_ =? _); [intros [= <- <-]; lia|]. intros H. apply IH in H. lia.
Qed.

Lemma header_ack_ok qpack id err :
  exists ret qpack' err', handle_header_ack qpack id err = Some (ret, qpack', err') /\ encoder_steps qpack qpack' /\
    (ret = 0 \/ ret = H2O_HTTP3_ERROR_QPACK_DECODER_STREAM /\ qpack' = qpack).
Proof.
  unfold handle_header_ack. destruct qpack as [q|]; [|by eexists _, _, _; split_and!; auto].
  destruct (find_inflight (qe_inflight q) id 0) as [[i e]|] eqn:E.
  2:{ eexists _, _, _. split; [done|]. split; [reflexivity|auto]. }
  apply find_inflight_spec in E. cbv zeta.
  match goal with |- context [evict_inflight_by_index ?x i] => set (q1 := x) end.
  assert (Hq1 : qe_inflight q1 = qe_inflight q /\ qe_table q1 = qe_table q)
    by (unfold q1; by destruct (_ <? _)).
  destruct Hq1 as [Hi Ht]. destruct (evict_inflight_ok q1 i) as (q' & -> & Ht' & _ & Hl); [rewrite Hi; lia|].
  cbn [mbind option_bind]. eexists _, _, _. split; [done|]. split; [|by left]. split_and!; [congruence|rewrite Hl, Hi; lia|].
  intros Hidle. destruct (Hidle q eq_refl) as (_ & _ & _ & Hn). rewrite Hn in E. simpl in E. lia.
Qed.

(** Each round of a cancellation removes a block or passes one. *)
Lemma cancel_loop_ok fuel : forall q id index,
  (length (qe_inflight q) <= fuel + index)%nat ->
  exists q', cancel_loop fuel q id index = Some q' /\ encoder_steps (Some q) (Some q').
Proof.
  induction fuel as [|fuel IH]; intros q id index Hf; cbn [cancel_loop];
    destruct (qe_inflight q !! index) as [e|] eqn:E.
  - apply lookup_lt_Some in E. lia.
  - by eexists; split.
  - apply lookup_lt_Some in E as Hlt. destruct (_ =? _); [|apply IH; lia].
    destruct (evict_inflight_ok q index Hlt) as (q1 & -> & Ht & _ & Hl). cbn [mbind option_bind].
    destruct (IH q1 id index ltac:(lia)) as (q' & -> & Hs). eexists. split; [done|].
    transitivity (Some q1); [|done]. split_and!; [done|lia|].
    intros Hidle. destruct (Hidle q eq_refl) as (_ & _ & _ & Hn). rewrite Hn in Hlt. simpl in Hlt. lia.
  - by eexists; split.
Qed.

Lemma cancellation_ok qpack id err :
  exists qpack', handle_stream_cancellation qpack id err = Some (0, qpack', err) /\ encoder_steps qpack qpack'.
Proof.
  destruct qpack as [q|]; [|by eexists]. unfold handle_stream_cancellation.
  destruct (cancel_loop_ok (length (qe_inflight q)) q id 0) as (q' & -> & Hs); [lia|]. by eexists.
Qed.

Lemma synchronize_ok qpack n err :
  0 <= n ->
  let '(ret, qpack', err') := handle_table_state_synchronize qpack n err in
  encoder_steps qpack qpack' /\ (ret = 0 \/ ret = H2O_HTTP3_ERROR_QPACK_DECODER_STREAM /\ qpack' = qpack).
Proof.
  intros Hn. unfold handle_table_state_synchronize. destruct qpack as [q|]; [|by split; auto].
  destruct (Z.eqb_spec n 0); [split; [reflexivity|auto]|].
  destruct (Z.leb_spec (qpack_table_total_inserts (qe_table q)) (qe_largest_known_received q + n));
    [split; [reflexivity|auto]|].
  split; [|by left]. split_and!; [done|done|]. intros Hidle q' [= <-]. simpl.
  destruct (Hidle q eq_refl) as (He & Hb & Hk & Hi). unfold qpack_table_total_inserts in *.
  rewrite He, Hb, Hk in *. change (len []) with 0 in *. lia.
Qed.

(** ** The stream *)

Definition encoder_code (ret : Z) : Prop :=
  ret = 0 \/ ret = H2O_HTTP3_ERROR_INCOMPLETE \/ ret = H2O_HTTP3_ERROR_QPACK_DECOMPRESSION_FAILED \/
  ret = H2O_HTTP3_ERROR_QPACK_DECODER_STREAM.

Lemma qpack_int_code src n : encoder_code (qpack_decode_int src n).1.1.
Proof.
  unfold qpack_decode_int, encoder_code. destruct (h2o_hpack_decode_int src n). destruct (_ <? 0); [|by left].
  simpl. destruct (_ =? _); auto.
Qed.

Lemma encoder_instruction_ok qpack b src err :
  bytes_ok (b :: src) ->
  match encoder_instruction qpack b (b :: src) err with
  | Some (inl ret) => encoder_code ret
  | Some (inr (ret, qpack', _, rest)) => encoder_code ret /\ encoder_steps qpack qpack' /\ consumed (b :: src) rest
  | None => False
  end.
Proof.
  intros Hs. unfold encoder_instruction, encoder_code. cbv zeta.
  destruct (_ =? 0); [|destruct (_ =? 1)].
  - pose proof (qpack_int_code (b :: src) 6) as Hc. read_int Hs; cbn [negb]; [|exact Hc].
    pose proof (synchronize_ok qpack z0 err ltac:(lia)) as Ho.
    destruct (handle_table_state_synchronize qpack z0 err) as [[ret q'] err']. destruct Ho as [Ho [->|[-> _]]]; auto 7.
  - pose proof (qpack_int_code (b :: src) 6) as Hc. read_int Hs; cbn [negb]; [|exact Hc].
    destruct (cancellation_ok qpack z0 err) as (q' & -> & Ho). cbn [mbind option_bind]. auto.
  - pose proof (qpack_int_code (b :: src) 7) as Hc. read_int Hs; cbn [negb]; [|exact Hc].
    destruct (header_ack_ok qpack z0 err) as (ret & q' & err' & -> & Ho & [->|[-> _]]); cbn [mbind option_bind]; auto 7.
Qed.

Lemma encoder_loop_ok fuel : forall qpack src err,
  (length src <= fuel)%nat -> bytes_ok src ->
  exists ret qpack' err' rest, encoder_input_loop fuel qpack src err = Some (ret, qpack', err', rest) /\
    encoder_code ret /\ encoder_steps qpack qpack' /\ exists used, src = used ++ rest.
Proof.
  assert (Hstop : forall (qpack : option qpack_encoder) (src : bytes) ret (err : option string), encoder_code ret ->
    exists ret' qpack' err' rest, Some (ret, qpack, err, src) = Some (ret', qpack', err', rest) /\
      encoder_code ret' /\ encoder_steps qpack qpack' /\ exists used, src = used ++ rest).
  { intros. eexists _, _, _, _. split; [done|]. split_and!; [done|reflexivity|by exists []]. }
  induction fuel as [|fuel IH]; intros qpack src err Hf Hs.
  { destruct src; [|simpl in Hf; lia]. apply Hstop. by left. }
  destruct src as [|b src]; [apply Hstop; by left|]. cbn [encoder_input_loop].
  pose proof (encoder_instruction_ok qpack b src err Hs) as Ho.
  destruct (encoder_instruction qpack b (b :: src) err) as [[ret|[[[ret q1] err1] rest]]|]; [by apply Hstop| |done].
  cbn [mbind option_bind]. destruct Ho as (Hc & Hst & Hcons).
  assert (Hlift : forall ret2 q2 err2 rest2, encoder_code ret2 -> encoder_steps q1 q2 -> (exists u, rest = u ++ rest2) ->
    exists ret' qpack' err' rest', Some (ret2, q2, err2 : option string, rest2) = Some (ret', qpack', err', rest') /\
      encoder_code ret' /\ encoder_steps qpack qpack' /\ exists used, b :: src = used ++ rest').
  { intros ret2 q2 err2 rest2 Hc2 Hs2 [u ->]. eexists _, _, _, _. split; [done|]. split_and!; [done|by etransitivity|].
    destruct Hcons as (v & -> & _). exists (v ++ u). by rewrite app_assoc. }
  destruct (ret =? 0); cbn [negb].
  - apply consumed_length in Hcons as Hl. apply consumed_ok in Hcons as Hr; [|done]. simpl in Hl, Hf.
    destruct (IH q1 rest err1 ltac:(lia) Hr) as (r2 & q2 & e2 & rest2 & -> & Hc2 & Hs2 & Hu2). by apply Hlift.
  - apply Hlift; [done|reflexivity|by exists []].
Qed.

(** ** Properties *)

(** [h2o_qpack_encoder_handle_input] on any octets returns: no entry outside of the list of
    blocks in flight is read, the code is 0, DECOMPRESSION_FAILED or DECODER_STREAM, what is
    left is the end of the input, the encoder's table does not change, the list of blocks in
    flight does not grow, and an encoder that never inserted stays one (so an acknowledgement
    of anything is refused). *)
Theorem encoder_input_total qpack src err :
  bytes_ok src ->
  exists ret qpack' err' rest, h2o_qpack_encoder_handle_input qpack src err = Some (ret, qpack', err', rest) /\
    (ret = 0 \/ ret = H2O_HTTP3_ERROR_QPACK_DECOMPRESSION_FAILED \/ ret = H2O_HTTP3_ERROR_QPACK_DECODER_STREAM) /\
    (exists used, src = used ++ rest) /\
    match qpack, qpack' with
    | None, None => True
    | Some q, Some q' => qe_table q' = qe_table q /\ (length (qe_inflight q') <= length (qe_inflight q))%nat /\
        (idle (Some q) -> idle (Some q'))
    | _, _ => False
    end.
Proof.
  intros Hs. unfold h2o_qpack_encoder_handle_input.
  destruct (encoder_loop_ok (length src) qpack src err ltac:(lia) Hs) as (ret & q' & err' & rest & -> & Hc & Hst & Hu).
  cbn [mbind option_bind]. eexists _, _, _, _. split; [done|]. split_and!; [|done|done].
  destruct Hc as [->|[->|[->| ->]]]; auto.
Qed.

Lemma encoder_input_total_witness :
  let q := h2o_qpack_create_encoder 4096 100 in
  exists ret qpack' err' rest, h2o_qpack_encoder_handle_input (Some q) [0x44; 0x84] None = Some (ret, qpack', err', rest) /\
    (ret = 0 \/ ret = H2O_HTTP3_ERROR_QPACK_DECOMPRESSION_FAILED \/ ret = H2O_HTTP3_ERROR_QPACK_DECODER_STREAM) /\
    (exists used, [0x44; 0x84] = used ++ rest) /\
    match Some q, qpack' with
    | None, None => True
    | Some q, Some q' => qe_table q' = qe_table q /\ (length (qe_inflight q') <= length (qe_inflight q))%nat /\
        (idle (Some q) -> idle (Some q'))
    | _, _ => False
    end.
Proof. apply (encoder_input_total (Some (h2o_qpack_create_encoder 4096 100))). by apply bytes_okb. Defined.

(** The acknowledgement of the first of three blocks: the [memmove] moves two octets and not
    two entries, so that stream 8 is there twice and stream 12, which was counted as
    blocking, is gone. *)
Example acknowledged_block_corrupts :
  let q := QEncoder (qpack_table_init 4096) 0 100 1
             [Inflight 4 1 false; Inflight 8 2 false; Inflight 12 3 true] in
  exists q', handle_header_ack (Some q) 4 None = Some (0, Some q', None) /\
    qe_inflight q' = [Inflight 8 1 false; Inflight 8 2 false] /\ qe_num_blocked q' = 1.
Proof. eexists. split; [vm_compute; reflexivity|]. by split. Qed.
