(* ===== verification/QpackMessage.v ===== *)
(** * QPACK: messages end to end

    A response or a request that the server or the client writes without a dynamic table (both
    pass no encoder stream), read from its HEADERS frame and parsed, gives back its parts. *)
From S2P Require Import Prelude Strings Url Tokens QpackStatic HpackInt Huffman HuffmanEnc HeaderTable Headers Hpack.
From S2P Require Import HpackString HpackSafe HpackSync HpackFlatten HpackParse MessageFields.
From S2P Require Import Http3Frame Qpack QpackTable QpackStream QpackBlock QpackEncode.
From Stdlib Require Import ZArith Lia.
From stdpp Require Import base list numbers option strings.
Open Scope Z_scope.

(** ** Strings *)

(** The patterns in front of a string: the mark of a Huffman string is the bit above the
    prefix. *)
Definition string_pattern (first n : Z) : Prop := (first, n) ∈ [(0, 7); (0x20, 3); (0x30, 3); (0x40, 5)].

Lemma string_pattern_bits first n :
  string_pattern first n ->
  1 <= n <= 7 /\ Z.land first (Z.lnot (Z.shiftl 2 n - 1)) = first /\
  Z.lor (Z.land first (Z.lnot (Z.shiftl 1 n - 1))) (Z.shiftl 1 n) = first + 2 ^ n /\
  prefix_clear first n /\ prefix_clear (first + 2 ^ n) n.
Proof.
  unfold string_pattern. rewrite !elem_of_cons, elem_of_nil.
  intros [[= -> ->]|[[= -> ->]|[[= -> ->]|[[= -> ->]|[]]]]]; repeat split; by vm_compute.
Qed.

(** A string is written as its length and its octets, or the mark, the length of its code and
    the code. *)
Lemma flatten_string_spec first s n dc :
  string_pattern first n -> bytes_ok s -> len s < 2 ^ 32 ->
  exists (huff : bool) body,
    flatten_string first s n dc = h2o_hpack_encode_int (first + if huff then 2 ^ n else 0) (len body) n ++ body /\
    prefix_clear (first + if huff then 2 ^ n else 0) n /\ bytes_ok body /\ 0 <= len body < 2 ^ 32 /\
    if huff then h2o_hpack_encode_huffman s = Some body else body = s.
Proof.
  intros Hp Hs Hl. destruct (string_pattern_bits first n Hp) as (Hn & H1 & H2 & H3 & H4). unfold flatten_string.
  pose proof (len_nonneg s).
  destruct (if dc then None else h2o_hpack_encode_huffman s) as [h|] eqn:E.
  - destruct dc; [done|]. pose proof (encode_huffman_spec s Hs) as Hspec. rewrite E in Hspec.
    destruct Hspec as (Hh & Hle & _). pose proof (len_nonneg h). exists true, h. rewrite H2.
    split_and!; [done|done|done|lia|lia|done].
  - exists false, s. rewrite H1, Z.add_0_r. split_and!; [done|done|done|lia|lia|done].
Qed.

(** ... octets, and few more than the string has. *)
Lemma flatten_string_ok first s n dc :
  string_pattern first n -> bytes_ok s -> len s < 2 ^ 32 ->
  bytes_ok (flatten_string first s n dc) /\ len (flatten_string first s n dc) < 2 ^ 32 + 10.
Proof.
  intros Hp Hs Hl. destruct (string_pattern_bits first n Hp) as (Hn & _).
  destruct (flatten_string_spec first s n dc Hp Hs Hl) as (huff & body & -> & _ & Hb & Hbl & _).
  pose proof (encode_int_length (first + if huff then 2 ^ n else 0) (len body) n ltac:(lia) ltac:(unfold INT64_MAX; lia)).
  split; [apply Forall_app; split; [apply encode_int_ok|done]|]. rewrite len_app. lia.
Qed.

Lemma huffman_name s body soft err :
  bytes_ok s -> h2o_hpack_encode_huffman s = Some body -> name_ok s = true ->
  h2o_hpack_decode_huffman body true soft err = HuffResult (Some s) soft err.
Proof.
  intros Hs Hh Hok. pose proof (encode_huffman_spec s Hs) as Hspec. rewrite Hh in Hspec. destruct Hspec as (Hb & _).
  rewrite decode_huffman_spec, (encode_huffman_decodes _ _ Hs Hh) by done. by rewrite name_ok_soft.
Qed.

Lemma huffman_value s body soft err :
  bytes_ok s -> h2o_hpack_encode_huffman s = Some body -> value_ok s = true ->
  h2o_hpack_decode_huffman body false soft err = HuffResult (Some s) soft err.
Proof.
  intros Hs Hh Hok. pose proof (encode_huffman_spec s Hs) as Hspec. rewrite Hh in Hspec. destruct Hspec as (Hb & _).
  rewrite decode_huffman_spec, (encode_huffman_decodes _ _ Hs Hh) by done.
  unfold value_ok in Hok. apply negb_true_iff in Hok. by rewrite Hok.
Qed.

(** The integer and the octets in front of [more]. *)
Lemma decode_counted first n body more :
  1 <= n <= 8 -> prefix_clear first n -> len body < 2 ^ 32 ->
  exists tl, h2o_hpack_encode_int first (len body) n = (first + Z.min (len body) (2 ^ n - 1)) :: tl /\
    qpack_decode_int (((first + Z.min (len body) (2 ^ n - 1)) :: tl) ++ body ++ more) n = (0, len body, body ++ more) /\
    (len (body ++ more) <? len body) = false.
Proof.
  intros Hn Hp Hl. pose proof (len_nonneg body). destruct (encode_int_head first (len body) n Hn Hp ltac:(lia)) as [tl Htl].
  exists tl. split; [done|]. rewrite <- Htl. unfold qpack_decode_int.
  rewrite decode_encode_int by (done || unfold INT64_MAX; lia). split.
  - by destruct (Z.ltb_spec (len body) 0); [lia|].
  - rewrite len_app. pose proof (len_nonneg more). apply Z.ltb_ge. lia.
Qed.

Lemma decode_flatten_value v dc soft more err :
  bytes_ok v -> len v < 2 ^ 32 -> value_ok v = true ->
  decode_header_value_literal soft (flatten_value v dc ++ more) err = (Some v, soft, more, err).
Proof.
  intros Hv Hl Hok. unfold flatten_value.
  destruct (flatten_string_spec 0 v 7 dc) as (huff & body & -> & Hp & Hb & Hbl & Hbody); [left|done|done|].
  destruct (decode_counted _ 7 body more ltac:(lia) Hp ltac:(lia)) as (tl & -> & Hd & Hlt).
  rewrite <- app_assoc. unfold decode_header_value_literal. cbn [app]. cbn [app] in Hd. rewrite Hd.
  cbn [negb Z.eqb]. rewrite Hlt, take_len_app, drop_len_app.
  assert (Hm : 0 <= Z.min (len body) (2 ^ 7 - 1) < 128) by lia.
  rewrite land_128_byte by (unfold is_byte; destruct huff; lia).
  destruct huff.
  - destruct (Z.ltb_spec (0 + 2 ^ 7 + Z.min (len body) (2 ^ 7 - 1)) 128); [lia|]. cbn [negb]. unfold decode_value.
    by rewrite (huffman_value v body soft err Hv Hbody Hok).
  - destruct (Z.ltb_spec (0 + 0 + Z.min (len body) (2 ^ 7 - 1)) 128); [|lia]. cbn [negb]. unfold decode_value. subst body.
    rewrite validate_value_soft. unfold value_ok in Hok. apply negb_true_iff in Hok. by rewrite Hok.
Qed.

(** A name the decoder accepts: a token, or a valid name that does not look like a pseudo
    header. *)
Definition qname_ok (s : bytes) : Prop := name_ok s = true /\ (is_Some (h2o_lookup_token s) \/ hd 0 s <> 58).

Lemma shiftr_octet first n k m :
  (first, n) ∈ [(0x20, 3); (0x28, 3); (0x30, 3); (0x38, 3)] -> 0 <= k < 8 -> m = first + k ->
  Z.land (Z.shiftr m n) 1 = (first / 8) mod 2 /\ Z.shiftr m 4 = first / 16.
Proof.
  intros Hin Hk ->.
  assert (Hall : forallb (fun e : Z * Z => forallb (fun k =>
    (Z.land (Z.shiftr (e.1 + k) e.2) 1 =? (e.1 / 8) mod 2) && (Z.shiftr (e.1 + k) 4 =? e.1 / 16)) (seqZ 0 8))
    [(0x20, 3); (0x28, 3); (0x30, 3); (0x38, 3)] = true) by (vm_compute; done).
  rewrite forallb_forall in Hall. apply list_elem_of_In in Hin. specialize (Hall _ Hin). cbn [fst snd] in Hall.
  rewrite forallb_forall in Hall. specialize (Hall k). rewrite <- list_elem_of_In, elem_of_seqZ in Hall.
  specialize (Hall ltac:(lia)). apply andb_true_iff in Hall as [H1 H2]. lia.
Qed.

(** A literal name; its first octet has the pattern of the representation. *)
Lemma decode_flatten_name first s more err :
  first = 0x20 \/ first = 0x30 -> bytes_ok s -> len s < 2 ^ 32 -> qname_ok s ->
  exists b tl, flatten_string first s 3 false ++ more = b :: tl /\
    (Z.shiftr b 4 = 2 \/ Z.shiftr b 4 = 3) /\
    decode_header_name_literal 0 (b :: tl) 3 err = Some (Some (intern s), 0, more, err).
Proof.
  intros Hf Hs Hl [Hok Htok].
  destruct (flatten_string_spec first s 3 false) as (huff & body & -> & Hp & Hb & Hbl & Hbody);
    [unfold string_pattern; destruct Hf as [-> | ->]; (rewrite !elem_of_cons; auto 6)|done|done|].
  destruct (decode_counted _ 3 body more ltac:(lia) Hp ltac:(lia)) as (tl & -> & Hd & Hlt).
  rewrite <- app_assoc. cbn [app] in *. eexists _, _. split; [done|].
  set (b := first + _ + _) in *.
  assert (Hbits : Z.land (Z.shiftr b 3) 1 = (if huff then 1 else 0) /\ (Z.shiftr b 4 = 2 \/ Z.shiftr b 4 = 3)).
  { destruct (shiftr_octet (first + if huff then 2 ^ 3 else 0) 3 (Z.min (len body) (2 ^ 3 - 1)) b) as [-> ->];
      [destruct Hf as [-> | ->], huff; (rewrite !elem_of_cons; auto 6)|lia|done|].
    destruct Hf as [-> | ->], huff; (split; [done|]); auto. }
  destruct Hbits as [Hbit Hkind]. split; [done|].
  unfold decode_header_name_literal. rewrite Hd, Hbit. cbn [negb Z.eqb].
  rewrite Hlt, take_len_app, drop_len_app. unfold intern. destruct huff; cbn [negb Z.eqb].
  - by rewrite (huffman_name s body 0 err Hs Hbody Hok).
  - subst body. destruct (h2o_lookup_token s); [done|]. destruct Htok as [[? [=]]|Hc].
    destruct s as [|c s]; [done|]. unfold name_ok in Hok. simpl in Hc. apply orb_true_iff in Hok as [Hok|Hok]; [lia|].
    by rewrite (validate_name_accepts _ _ _ c s).
Qed.

(** ** Fields *)

(** [out] decodes to the field, whatever the decoder's tables hold. *)
Definition qfield (out : bytes) (f : field) : Prop :=
  bytes_ok out /\ out <> [] /\ len out <= 2 ^ 34 /\
  forall c more err, bytes_ok more ->
    qpack_decode_header c (out ++ more) err = Some (CbResult 0 (Some f) more c err).

Lemma static_index_kind i :
  0 <= i < 99 ->
  (12 <=? Z.shiftr (0xc0 + Z.min i (2 ^ 6 - 1)) 4) = true /\
  (forall b, b = 0x50 \/ b = 0x70 ->
     let k := Z.shiftr (b + Z.min i (2 ^ 4 - 1)) 4 in k = 5 \/ k = 7).
Proof.
  intros Hi.
  assert (Hall : forallb (fun i => (12 <=? Z.shiftr (0xc0 + Z.min i (2 ^ 6 - 1)) 4) &&
    forallb (fun b => (Z.shiftr (b + Z.min i (2 ^ 4 - 1)) 4 =? 5) || (Z.shiftr (b + Z.min i (2 ^ 4 - 1)) 4 =? 7))
      [0x50; 0x70]) (seqZ 0 99) = true) by (vm_compute; done).
  rewrite forallb_forall in Hall. specialize (Hall i). rewrite <- list_elem_of_In, elem_of_seqZ in Hall.
  specialize (Hall ltac:(lia)). rewrite !andb_true_iff, forallb_forall in Hall. destruct Hall as [H1 H2].
  split; [done|]. intros b Hb. specialize (H2 b). simpl in H2. specialize (H2 ltac:(destruct Hb; auto)).
  apply orb_true_iff in H2 as [H|H]; apply Z.eqb_eq in H; auto.
Qed.

Lemma resolve_static_index first i n e more :
  1 <= n <= 8 -> prefix_clear first n -> 0 <= i -> h2o_qpack_static_table !! Z.to_nat i = Some e ->
  resolve_static (h2o_hpack_encode_int first i n ++ more) n = (Some e, more).
Proof.
  intros Hn Hp Hi He. pose proof (lookup_lt_Some _ _ _ He) as Hlt.
  assert (Hlen : length h2o_qpack_static_table = 99%nat) by (vm_compute; done).
  unfold resolve_static, qpack_decode_int. rewrite decode_encode_int by (done || unfold INT64_MAX; lia).
  destruct (Z.ltb_spec i 0); [lia|]. cbn [negb Z.eqb]. unfold len. rewrite Hlen in *.
  destruct (Z.ltb_spec i (Z.of_nat 99)); [|lia]. cbn [negb]. by rewrite He.
Qed.

Lemma qpack_static_bound i e : 0 <= i -> h2o_qpack_static_table !! Z.to_nat i = Some e -> 0 <= i < 99.
Proof.
  intros Hi He. pose proof (lookup_lt_Some _ _ _ He) as Hlt.
  assert (Hlen : length h2o_qpack_static_table = 99%nat) by (vm_compute; done). rewrite Hlen in Hlt. lia.
Qed.

Lemma qfield_static i n v :
  0 <= i -> h2o_qpack_static_table !! Z.to_nat i = Some (n, v) -> qfield (h2o_hpack_encode_int 0xc0 i 6) (NTok n, v).
Proof.
  intros Hi He. pose proof (qpack_static_bound i _ Hi He) as Hb.
  assert (Hp : prefix_clear 0xc0 6) by (split; [unfold is_byte; lia|done]).
  destruct (encode_int_head 0xc0 i 6 ltac:(lia) Hp Hi) as [tl Htl].
  pose proof (encode_int_length 0xc0 i 6 ltac:(lia) ltac:(unfold INT64_MAX; lia)).
  split_and!; [apply encode_int_ok|by rewrite Htl|lia|]. intros c more err _.
  pose proof (resolve_static_index 0xc0 i 6 (n, v) more ltac:(lia) Hp Hi He) as Hr.
  rewrite Htl in *. cbn [app] in *. unfold qpack_decode_header.
  rewrite (proj1 (static_index_kind i Hb)), Hr. done.
Qed.

Lemma qfield_static_name i n v0 v (dc : bool) :
  0 <= i -> h2o_qpack_static_table !! Z.to_nat i = Some (n, v0) ->
  bytes_ok v -> len v < 2 ^ 32 -> value_ok v = true ->
  qfield (h2o_hpack_encode_int (Z.lor 0x50 (if dc then 0x20 else 0)) i 4 ++ flatten_value v dc) (NTok n, v).
Proof.
  intros Hi He Hv Hl Hok. pose proof (qpack_static_bound i _ Hi He) as Hb.
  set (first := Z.lor 0x50 _). assert (Hf : first = 0x50 \/ first = 0x70) by (unfold first; destruct dc; auto).
  assert (Hp : prefix_clear first 4) by (destruct Hf as [-> | ->]; split; (unfold is_byte; lia) || done).
  destruct (encode_int_head first i 4 ltac:(lia) Hp Hi) as [tl Htl].
  destruct (flatten_string_ok 0 v 7 dc ltac:(left) Hv Hl) as [Hvb Hvl]. fold (flatten_value v dc) in Hvb, Hvl.
  pose proof (encode_int_length first i 4 ltac:(lia) ltac:(unfold INT64_MAX; lia)).
  split_and!; [apply Forall_app; split; [apply encode_int_ok|done]|by rewrite Htl|rewrite len_app; lia|].
  intros c more err Hmore. rewrite <- app_assoc.
    pose proof (resolve_static_index first i 4 (n, v0) (flatten_value v dc ++ more) ltac:(lia) Hp Hi He) as Hr.
    rewrite Htl in *. cbn [app] in *. unfold qpack_decode_header. rewrite Hr.
    destruct (proj2 (static_index_kind i Hb) first Hf) as [Hk|Hk]; cbv zeta in Hk |- *; rewrite Hk; cbn;
      unfold qpack_literal_value; rewrite decode_flatten_value by done; done.
Qed.

Lemma qfield_literal s v (dc : bool) :
  bytes_ok s -> len s < 2 ^ 32 -> qname_ok s -> bytes_ok v -> len v < 2 ^ 32 -> value_ok v = true ->
  qfield (flatten_string (Z.lor 0x20 (if dc then 0x10 else 0)) s 3 false ++ flatten_value v dc) (intern s, v).
Proof.
  intros Hs Hsl Hsn Hv Hl Hok.
  set (first := Z.lor 0x20 _). assert (Hf : first = 0x20 \/ first = 0x30) by (unfold first; destruct dc; auto).
  assert (Hsp : string_pattern first 3) by (unfold string_pattern; destruct Hf as [-> | ->]; (rewrite !elem_of_cons; auto 6)).
  destruct (flatten_string_ok 0 v 7 dc ltac:(left) Hv Hl) as [Hvb Hvl]. fold (flatten_value v dc) in Hvb, Hvl.
  destruct (flatten_string_ok first s 3 false Hsp Hs Hsl) as [Hsb Hsl'].
  split_and!; [by apply Forall_app| |rewrite len_app; lia|].
  - destruct (decode_flatten_name first s (flatten_value v dc) None Hf Hs Hsl Hsn) as (b & tl & -> & _). done.
  - intros c more err Hmore. rewrite <- app_assoc.
    destruct (decode_flatten_name first s (flatten_value v dc ++ more) err Hf Hs Hsl Hsn) as (b & tl & -> & Hk & Hd).
    unfold qpack_decode_header. rewrite Hd. destruct Hk as [Hk|Hk]; rewrite Hk; cbn;
      unfold qpack_literal_value; rewrite decode_flatten_value by done; done.
Qed.

(** ** Writing without a dynamic table *)

Record quiet (ctx : flatten_context) : Prop := {
  qu_idle : idle (fc_qpack ctx);
  qu_buf : fc_encoder_buf ctx = None;
  qu_ref : fc_largest_ref ctx = 0 }.

Lemma quiet_append ctx out : quiet ctx -> quiet (append ctx out).
Proof. by intros [H1 H2 H3]. Qed.

Lemma append_append ctx a b : append (append ctx a) b = append ctx (a ++ b).
Proof. unfold append. simpl. by rewrite app_assoc. Qed.

Lemma append_nil ctx : append ctx [] = ctx.
Proof. unfold append. rewrite app_nil_r. by destruct ctx. Qed.

(** [w] appends octets that decode to the fields. *)
Definition qwrites (w : flatten_context -> option flatten_context) (fs : list field) : Prop :=
  exists out, bytes_ok out /\ len out <= 2 ^ 34 * len fs /\
    (forall ctx, quiet ctx -> w ctx = Some (append ctx out)) /\
    forall q c, decodes (H := qpack_header_decoder q) c out fs c.

Lemma qwrites_field (w : flatten_context -> option flatten_context) out f :
  qfield out f -> (forall ctx, quiet ctx -> w ctx = Some (append ctx out)) -> qwrites w [f].
Proof.
  intros (Ho & Hne & Hl & Hd) Hw. exists out. split_and!; [done|change (len [f]) with 1; lia|done|].
  intros q c. apply decodes_one; [|done]. intros more err Hmore. by apply Hd.
Qed.

Lemma qwrites_nil : qwrites Some [].
Proof.
  exists []. split_and!; [constructor|done|intros ctx _; by rewrite append_nil|]. intros. apply decodes_nil.
Qed.

Lemma qwrites_bind a b fs gs :
  qwrites a fs -> qwrites b gs -> qwrites (fun ctx => ctx ← a ctx; b ctx) (fs ++ gs).
Proof.
  intros (o & Ho & Hl & Ha & Hd) (o' & Ho' & Hl' & Hb & Hd'). exists (o ++ o'). split_and!.
  - by apply Forall_app.
  - rewrite !len_app. lia.
  - intros ctx Hq. rewrite (Ha ctx Hq). cbn [mbind option_bind]. rewrite Hb by (by apply quiet_append).
    by rewrite append_append.
  - intros q c. eapply decodes_app; [done|apply Hd|apply Hd'].
Qed.

(** What the index that was looked up says of the field. *)
Definition static_hit (name : name_ref) (value : bytes) (i : Z) (exact : bool) : Prop :=
  if i <? 0 then qname_ok (name_bytes name)
  else exists t v, name = NTok t /\ h2o_qpack_static_table !! Z.to_nat i = Some (t, v) /\ (exact = true -> v = value).

Lemma lookup_idle q name value :
  idle (Some q) -> lookup_dynamic q name value true = Some (-1, false).
Proof. intros Hi. destruct (Hi q eq_refl) as (He & Hb & Hk & _). unfold lookup_dynamic. rewrite He, Hk. simpl. by rewrite Hb. Qed.

Lemma qwrites_do_flatten i exact likely name value dc :
  header_wf name value -> static_hit name value i exact ->
  qwrites (fun ctx => do_flatten_header ctx i exact likely name value dc) [(intern (name_bytes name), value)].
Proof.
  intros (Hn & Hv & Hnl & Hvl & Hno & Hvo) Hhit. unfold static_hit in Hhit.
  assert (Hw : forall ctx, quiet ctx -> (0 <=? i) && exact = false ->
    do_flatten_header ctx i exact likely name value dc = Some (flatten_literal ctx i (-1) name value dc)).
  { intros ctx [Hi Hb _] He. unfold do_flatten_header. rewrite He, Hb. destruct (fc_qpack ctx) as [q|]; [|done].
    rewrite bool_decide_true by done. by rewrite lookup_idle. }
  destruct (Z.ltb_spec i 0) as [Hneg|Hpos].
  - assert (He : (0 <=? i) = false) by lia.
    eapply qwrites_field; [apply (qfield_literal (name_bytes name) value dc); auto using name_bytes_ok|].
    intros ctx Hq. rewrite Hw by (done || by rewrite He). unfold flatten_literal. by rewrite He.
  - assert (He : (0 <=? i) = true) by lia. destruct Hhit as (t & v & -> & Ht & Hex).
    rewrite intern_token by done. destruct exact.
    + rewrite (Hex eq_refl) in Ht. eapply qwrites_field; [by apply (qfield_static i)|].
      intros ctx Hq. unfold do_flatten_header. by rewrite He.
    + eapply qwrites_field; [by apply (qfield_static_name i t v)|].
      intros ctx Hq. rewrite Hw by (done || by rewrite andb_false_r). unfold flatten_literal. by rewrite He.
Qed.

(** The generated lookups. *)
Lemma lookup_hit t f value :
  is_token_index t -> header_wf (NTok t) value -> lookup_ok t f ->
  static_hit (NTok t) value (f value).1 (f value).2.
Proof.
  intros Ht (_ & _ & _ & _ & Hno & _) Hl. specialize (Hl value). unfold static_hit.
  destruct (f value) as [i exact]. cbn [fst snd]. destruct exact.
  - destruct Hl as [Hi He]. destruct (Z.ltb_spec i 0); [lia|]. eauto.
  - destruct Hl as [_ Hl]. destruct (Z.eqb_spec i (-1)) as [Ei|Ei].
    + rewrite Ei. split; [done|]. left. exists t. apply (lookup_token_complete t Ht).
    + destruct Hl as [Hi [v Hv]]. destruct (Z.ltb_spec i 0); [lia|]. by exists t, v.
Qed.

Lemma qwrites_known t f value :
  is_token_index t -> header_wf (NTok t) value -> lookup_ok t f ->
  qwrites (fun ctx => flatten_known_header_with_static_lookup ctx f t value) [(NTok t, value)].
Proof.
  intros Ht Hwf Hf. pose proof (lookup_hit t f value Ht Hwf Hf) as Hhit.
  rewrite <- (intern_token t Ht). unfold flatten_known_header_with_static_lookup.
  destruct (f value) as [i exact]. by apply qwrites_do_flatten.
Qed.

(** A header that can be sent. *)
Definition qsendable (h : h2o_header_t) : Prop :=
  header_wf (h_name h) (h_value h) /\ is_pseudo (h_name h) = false.

Lemma qwrites_header h : qsendable h -> qwrites (fun ctx => flatten_header ctx h) [received h].
Proof.
  intros [Hwf Hp]. unfold flatten_header, received. pose proof Hwf as (Hn & _ & _ & _ & Hno & _).
  destruct (h_name h) as [t|s] eqn:En.
  - simpl in Hn. destruct (lookup_lt_is_Some_2 h2o_qpack_lookup_static (Z.to_nat t)) as [f Hf].
    { unfold is_token_index in Hn. change (length h2o_qpack_lookup_static) with 85%nat. lia. }
    rewrite (nth_lookup_Some _ _ _ _ Hf). apply qpack_lookup_static_ok in Hf.
    rewrite Z2Nat.id in Hf by (unfold is_token_index in Hn; lia).
    pose proof (lookup_hit t f (h_value h) Hn Hwf Hf) as Hhit. destruct (f (h_value h)) as [i exact].
    by apply qwrites_do_flatten.
  - apply qwrites_do_flatten; [done|]. unfold static_hit. simpl. split; [done|]. right.
    unfold is_pseudo in Hp. simpl in Hp. lia.
Qed.

Lemma qwrites_headers hs :
  Forall qsendable hs -> qwrites (fun ctx => flatten_headers ctx hs) (map received hs).
Proof.
  induction 1 as [|h hs Hh Hhs IH]; [apply qwrites_nil|]. simpl.
  by apply (qwrites_bind (fun ctx => flatten_header ctx h) _ [received h]); [apply qwrites_header|].
Qed.

(** ** Responses *)

Lemma digits_wf t fuel v :
  is_token_index t -> name_ok (tok_buf (token t)) = true -> (fuel <= 20)%nat -> header_wf (NTok t) (decimal fuel v).
Proof.
  intros Ht Hn Hf. pose proof (decimal_digits fuel v) as Hd. pose proof (decimal_length fuel v).
  split_and!; [done|by apply digits_bytes|by apply token_name_length|unfold len; lia|done|by apply digits_value_ok].
Qed.

Lemma qwrites_status status :
  100 <= status <= 999 ->
  qwrites (fun ctx => flatten_status ctx status) [(NTok H2O_TOKEN_STATUS, decimal 3 status)].
Proof.
  intros Hs. unfold flatten_status.
  destruct (List.find (fun e => e.2 =? status) indexed_status) as [[cp st]|] eqn:E.
  - apply List.find_some in E as [Hin He]. cbn [snd] in He. apply Z.eqb_eq in He as ->.
    eapply qwrites_field; [|done]. apply (qfield_static cp).
    + assert (Hall : Forall (fun e => 0 <= e.1) indexed_status) by (repeat constructor; simpl; lia).
      rewrite Forall_forall in Hall. by apply (Hall (cp, status)), list_elem_of_In.
    + assert (Hall : forallb (fun e => bool_decide (h2o_qpack_static_table !! Z.to_nat e.1 =
        Some (H2O_TOKEN_STATUS, decimal 3 e.2))) indexed_status = true) by (vm_compute; done).
      rewrite forallb_forall in Hall. specialize (Hall _ Hin). by apply bool_decide_eq_true in Hall.
  - replace (decimal 5 (wrap16 status)) with (decimal 3 status).
    + rewrite <- (intern_token H2O_TOKEN_STATUS) by done. apply qwrites_do_flatten; [by apply digits_wf; [| |lia]|].
      by exists H2O_TOKEN_STATUS, (lit "103").
    + unfold wrap16. rewrite Z.mod_small by lia. symmetry. apply decimal_fuel; [simpl; lia|lia].
Qed.

Lemma qwrites_server s :
  header_wf (NTok H2O_TOKEN_SERVER) s ->
  qwrites (fun ctx => do_flatten_header ctx 92 false (likely_to_repeat (tok_flags (token H2O_TOKEN_SERVER)))
             (NTok H2O_TOKEN_SERVER) s false) [(NTok H2O_TOKEN_SERVER, s)].
Proof.
  intros Hs. rewrite <- (intern_token H2O_TOKEN_SERVER) by done. apply qwrites_do_flatten; [done|].
  by exists H2O_TOKEN_SERVER, [].
Qed.

Lemma qwrites_content_length v :
  0 <= v ->
  qwrites (fun ctx => if v =? 0 then Some (flatten_static_indexed ctx 4)
    else do_flatten_header ctx 4 false (likely_to_repeat (tok_flags (token H2O_TOKEN_CONTENT_LENGTH)))
           (NTok H2O_TOKEN_CONTENT_LENGTH) (decimal 20 v) false) [(NTok H2O_TOKEN_CONTENT_LENGTH, decimal 20 v)].
Proof.
  intros Hv. destruct (Z.eqb_spec v 0) as [->|].
  - eapply qwrites_field; [|done]. by apply (qfield_static 4).
  - rewrite <- (intern_token H2O_TOKEN_CONTENT_LENGTH) by done.
    apply qwrites_do_flatten; [by apply digits_wf; [| |lia]|]. by exists H2O_TOKEN_CONTENT_LENGTH, (lit "0").
Qed.

Definition flow_field (flow : option bytes) : list field :=
  match flow with Some id => [(NTok H2O_TOKEN_DATAGRAM_FLOW_ID, id)] | None => [] end.

Lemma qwrites_flow_id flow :
  (forall id, flow = Some id -> header_wf (NTok H2O_TOKEN_DATAGRAM_FLOW_ID) id) ->
  qwrites (fun ctx => flatten_datagram_flow_id ctx flow) (flow_field flow).
Proof.
  intros Hf. destruct flow as [id|]; [|apply qwrites_nil]. simpl.
  apply qwrites_known; [done|by apply Hf|]. by apply (qpack_lookup_static_ok 34).
Qed.

(** The header list the peer gets. *)
Definition h3_response_headers (headers : h2o_headers_t) (server : option bytes) (content_length : Z) : h2o_headers_t :=
  server_header server ++ content_length_header content_length ++ headers.

Record h3_response_sendable (headers : h2o_headers_t) (server flow : option bytes) (status content_length : Z) : Prop := {
  hr_headers : Forall qsendable headers;
  hr_allowed : Forall (fun h => response_header_ok (as_received h)) headers;
  hr_count : len headers <= 2 ^ 20;
  hr_server : forall s, server = Some s -> s <> [] -> header_wf (NTok H2O_TOKEN_SERVER) s;
  hr_flow : forall id, flow = Some id -> header_wf (NTok H2O_TOKEN_DATAGRAM_FLOW_ID) id;
  hr_status : 100 <= status <= 999;
  hr_length : 0 <= content_length <= SIZE_MAX }.

(** ** Frames and prefixes *)

Lemma prepare_quiet qpack id : idle qpack -> quiet (prepare_flatten qpack id None).
Proof. intros Hi. constructor; simpl; [done| |done]. destruct qpack as [q|]; [|done]. by destruct (_ <? _). Qed.

(** A block without references: the frame, and what is read from it. *)
Lemma qwrites_frame w fs qpack id :
  qwrites w fs -> len fs <= 2 ^ 21 -> idle qpack ->
  exists frame block, (ctx ← w (prepare_flatten qpack id None); finalize_flatten ctx) = Some frame /\
    ff_qpack frame = qpack /\ ff_encoder_buf frame = None /\
    ff_serialized_header_len frame = len ([0; 0] ++ block) /\ bytes_ok ([0; 0] ++ block) /\
    (forall q c, decodes (H := qpack_header_decoder q) c block fs c) /\
    forall is_client m rest, ff_serialized_header_len frame <= m ->
      exists h, h2o_http3_read_frame is_client H2O_HTTP3_STREAM_TYPE_REQUEST m (ff_frame frame ++ rest) =
        Ok (H3Frame H2O_HTTP3_FRAME_TYPE_HEADERS h (Some ([0; 0] ++ block)) (len ([0; 0] ++ block)), rest).
Proof.
  intros (out & Ho & Hl & Hw & Hd) Hfs Hi. rewrite (Hw _ (prepare_quiet qpack id Hi)). cbn [mbind option_bind].
  unfold finalize_flatten, mark_inflight, append. cbn [fc_largest_ref fc_qpack fc_headers_buf prepare_flatten Z.eqb].
  cbn [mbind option_bind app]. change (block_prefix 0 0) with [0; 0].
  assert (Hlen : 0 <= len ([0; 0] ++ out) <= PTLS_QUICINT_MAX).
  { rewrite len_app. change (len [0; 0]) with 2. pose proof (len_nonneg out). unfold PTLS_QUICINT_MAX. lia. }
  destruct (quicint_encode_spec _ Hlen) as (l & El & _).
  assert (Hcap : quicly_encodev_capacity (len ([0; 0] ++ out)) <= 8) by (unfold quicly_encodev_capacity; bcase; lia).
  change (len [0; 0]) with 2. unfold PREFIX_CAPACITY.
  destruct (Z.ltb_spec (1 + 8 + 10 + 10 - 2 - quicly_encodev_capacity (len ([0; 0] ++ out)) - 1) 0); [lia|].
  rewrite El. cbn [mbind option_bind].
  eexists _, out. split; [done|]. cbn [ff_qpack ff_encoder_buf ff_serialized_header_len ff_frame].
  split_and!; [done|apply (qu_buf _ (prepare_quiet qpack id Hi))|done| |done|].
  { repeat constructor; [unfold is_byte; lia..|done]. }
  intros is_client m rest Hm. cbn [app]. rewrite <- app_assoc.
  apply (read_encoded_frame is_client H2O_HTTP3_STREAM_TYPE_REQUEST m H2O_HTTP3_FRAME_TYPE_HEADERS [1] l ([0; 0] ++ out) rest);
    try done; try lia; by destruct is_client.
Qed.

Lemma context_static q hist id block :
  qdec_ok q hist -> parse_decode_context q id ([0; 0] ++ block) = (0, q, Some (QCtx q 0 0, block)).
Proof.
  intros Hq. unfold parse_decode_context. cbn [app].
  assert (H8 : qpack_decode_int (0 :: 0 :: block) 8 = (0, 0, 0 :: block)) by done.
  assert (H7 : qpack_decode_int (0 :: block) 7 = (0, 0, block)) by done.
  rewrite H8. cbn [negb Z.eqb]. unfold decode_req_insert_count. cbn [Z.ltb Z.compare].
  rewrite H7. cbn. rewrite (qrep_total _ _ (qo_table _ _ Hq)). pose proof (len_nonneg hist).
  destruct (Z.leb_spec (len hist + 1) 0); [lia|done].
Qed.

(** ** Responses, end to end *)

Definition response_writer (status : Z) (headers : h2o_headers_t) (server_name : option bytes) (content_length : Z)
    (flow : option bytes) (ctx : flatten_context) : option flatten_context :=
  ctx ← flatten_status ctx status;
  ctx ← (match server_name with
         | Some server_name =>
             if negb (len server_name =? 0)
             then do_flatten_header ctx 92 false (likely_to_repeat (tok_flags (token H2O_TOKEN_SERVER)))
                    (NTok H2O_TOKEN_SERVER) server_name false
             else Some ctx
         | None => Some ctx
         end);
  ctx ← (if negb (content_length =? SIZE_MAX) then
           if content_length =? 0 then Some (flatten_static_indexed ctx 4)
           else do_flatten_header ctx 4 false (likely_to_repeat (tok_flags (token H2O_TOKEN_CONTENT_LENGTH)))
                  (NTok H2O_TOKEN_CONTENT_LENGTH) (decimal 20 content_length) false
         else Some ctx);
  ctx ← flatten_headers ctx headers;
  flatten_datagram_flow_id ctx flow.

Lemma flatten_response_writer qpack id buf status headers server cl flow :
  h2o_qpack_flatten_response qpack id buf status headers server cl flow =
  (ctx ← response_writer status headers server cl flow (prepare_flatten qpack id buf); finalize_flatten ctx).
Proof.
  unfold h2o_qpack_flatten_response, response_writer.
  destruct (flatten_status _ status) as [ctx1|]; [|done]. cbn [mbind option_bind].
  destruct (match server with Some _ => _ | None => _ end) as [ctx2|]; [|done]. cbn [mbind option_bind].
  destruct (if negb (cl =? SIZE_MAX) then _ else _) as [ctx3|]; [|done]. cbn [mbind option_bind].
  destruct (flatten_headers ctx3 headers); done.
Qed.

Lemma qwrites_response status headers server cl flow :
  h3_response_sendable headers server flow status cl ->
  qwrites (response_writer status headers server cl flow)
    ((NTok H2O_TOKEN_STATUS, decimal 3 status)
     :: map received (h3_response_headers headers server cl) ++ flow_field flow).
Proof.
  intros [Hh _ _ Hsv Hfl Hst Hcl]. unfold response_writer, h3_response_headers. rewrite !map_app, <- !app_assoc.
  apply (qwrites_bind (fun ctx => flatten_status ctx status) _ [_]); [by apply qwrites_status|].
  apply (qwrites_bind (fun ctx => match server with Some s => _ | None => _ end)).
  { unfold server_header. destruct server as [s|]; [|apply qwrites_nil].
    destruct (Z.eqb_spec (len s) 0) as [|Hne]; [apply qwrites_nil|].
    apply qwrites_server, Hsv; [done|]. intros ->. done. }
  apply (qwrites_bind (fun ctx => if negb (cl =? SIZE_MAX) then _ else _)).
  { unfold content_length_header. destruct (negb _); [|apply qwrites_nil]. apply qwrites_content_length. lia. }
  apply (qwrites_bind (fun ctx => flatten_headers ctx headers)); [by apply qwrites_headers|by apply qwrites_flow_id].
Qed.

Lemma received_headers_allowed headers server cl flow status :
  h3_response_sendable headers server flow status cl ->
  Forall (fun h => response_header_ok (as_received h)) (h3_response_headers headers server cl).
Proof.
  intros [_ Ha _ _ _ _ _]. unfold h3_response_headers, server_header, content_length_header.
  apply Forall_app; split; [|apply Forall_app; split; [|done]].
  - destruct server as [s|]; [|constructor]. destruct (negb _); [|constructor].
    constructor; [|constructor]. by split.
  - destruct (negb _); [|constructor]. constructor; [|constructor]. split; [done|]. intros _. by left.
Qed.

Lemma response_fields_received headers server cl flow status has_flow :
  h3_response_sendable headers server flow status cl ->
  response_fields has_flow (Response (Some 0) [] None None)
    ((NTok H2O_TOKEN_STATUS, decimal 3 status)
     :: map received (h3_response_headers headers server cl) ++ flow_field flow) =
  inl (Response (Some status) (map as_received (h3_response_headers headers server cl))
         (if has_flow then flow else None) None).
Proof.
  intros Hok. cbn [response_fields]. rewrite response_field_status by (done || apply Hok).
  cbn [bind_step rs_hdrs rs_flow_id rs_err]. rewrite response_fields_app, response_fields_add;
    [|intros [= Hz]; destruct Hok; lia|by eapply received_headers_allowed].
  cbn [bind_step rs_status rs_hdrs rs_flow_id rs_err app].
  destruct flow as [id|]; [|by destruct has_flow]. cbn [flow_field response_fields].
  unfold response_field, response_regular. cbn [rs_status].
  change (hd 0 (name_bytes (NTok H2O_TOKEN_DATAGRAM_FLOW_ID)) =? 58) with false. cbv iota.
  rewrite bool_decide_false by (intros [= Hz]; destruct Hok; lia). by destruct has_flow.
Qed.

Lemma server_header_count server : len (server_header server) <= 1.
Proof. unfold server_header. destruct server as [s|]; [destruct (negb _)|]; done. Qed.

Lemma content_length_count cl : len (content_length_header cl) <= 1.
Proof. unfold content_length_header. by destruct (negb _). Qed.

Lemma flow_field_count flow : len (flow_field flow) <= 1.
Proof. by destruct flow. Qed.

Lemma len_map {A B} (f : A -> B) l : len (map f l) = len l.
Proof. unfold len. by rewrite length_map. Qed.

Lemma h3_response_roundtrip enc dec hist id status headers server cl flow has_flow :
  idle enc -> qdec_ok dec hist -> h3_response_sendable headers server flow status cl ->
  exists frame payload,
    h2o_qpack_flatten_response enc id None status headers server cl flow = Some frame /\
    ff_qpack frame = enc /\ ff_serialized_header_len frame = len payload /\
    (forall m rest, len payload <= m -> exists h,
       h2o_http3_read_frame true H2O_HTTP3_STREAM_TYPE_REQUEST m (ff_frame frame ++ rest) =
       Ok (H3Frame H2O_HTTP3_FRAME_TYPE_HEADERS h (Some payload) (len payload), rest)) /\
    h2o_qpack_parse_response dec id true has_flow (Response None [] None None) payload =
    Some (QParsed (Response (Some status) (map as_received (h3_response_headers headers server cl))
                     (if has_flow then flow else None) None) dec 0 (Some [])).
Proof.
  intros Hi Hq Hok. rewrite flatten_response_writer.
  destruct (qwrites_frame _ _ enc id (qwrites_response status headers server cl flow Hok))
    as (frame & block & Hf & He & _ & Hl & _ & Hd & Hr); [|done|].
  { rewrite len_cons, len_app, len_map. unfold h3_response_headers. rewrite !len_app.
    pose proof (server_header_count server). pose proof (content_length_count cl). pose proof (flow_field_count flow).
    destruct Hok. lia. }
  exists frame, ([0; 0] ++ block). rewrite Hl in Hr. split_and!; [done|done|done| |].
  - intros m rest Hm. by apply Hr.
  - unfold h2o_qpack_parse_response. rewrite (context_static dec hist) by done.
    rewrite (parse_response_block (H := qpack_header_decoder dec) _ block status has_flow _ _ _ (Hd dec (QCtx dec 0 0))
               (response_fields_received headers server cl flow status has_flow Hok)).
    done.
Qed.

(** ** Requests, end to end *)

Definition request_writer (method : bytes) (scheme : h2o_url_scheme_t) (authority path : bytes)
    (protocol : option bytes) (headers : h2o_headers_t) (flow : option bytes) (ctx : flatten_context)
    : option flatten_context :=
  ctx ← flatten_known_header_with_static_lookup ctx h2o_qpack_lookup_method H2O_TOKEN_METHOD method;
  ctx ← (if negb (bool_decide (method = lit "CONNECT") && bool_decide (protocol = None)) then
           if bool_decide (scheme = H2O_URL_SCHEME_HTTP) then Some (flatten_static_indexed ctx 22)
           else if bool_decide (scheme = H2O_URL_SCHEME_HTTPS) then Some (flatten_static_indexed ctx 23)
           else flatten_known_header_with_static_lookup ctx h2o_qpack_lookup_scheme H2O_TOKEN_SCHEME
                  (scheme_name scheme)
         else Some ctx);
  ctx ← flatten_known_header_with_static_lookup ctx h2o_qpack_lookup_authority H2O_TOKEN_AUTHORITY authority;
  ctx ← (if negb (bool_decide (method = lit "CONNECT") && bool_decide (protocol = None))
         then flatten_known_header_with_static_lookup ctx h2o_qpack_lookup_path H2O_TOKEN_PATH path
         else Some ctx);
  ctx ← (match protocol with
         | Some protocol =>
             flatten_known_header_with_static_lookup ctx h2o_qpack_lookup_protocol H2O_TOKEN_PROTOCOL protocol
         | None => Some ctx
         end);
  ctx ← flatten_headers ctx headers;
  flatten_datagram_flow_id ctx flow.

Lemma flatten_request_writer qpack id buf method scheme authority path protocol headers flow :
  h2o_qpack_flatten_request qpack id buf method scheme authority path protocol headers flow =
  (ctx ← request_writer method scheme authority path protocol headers flow (prepare_flatten qpack id buf);
   finalize_flatten ctx).
Proof.
  unfold h2o_qpack_flatten_request, request_writer.
  destruct (flatten_known_header_with_static_lookup _ _ _ method) as [c1|]; [|done]. cbn [mbind option_bind].
  destruct (if negb _ then if bool_decide (scheme = _) then _ else _ else _) as [c2|]; [|done]. cbn [mbind option_bind].
  destruct (flatten_known_header_with_static_lookup _ _ _ authority) as [c3|]; [|done]. cbn [mbind option_bind].
  destruct (if negb _ then _ else _) as [c4|]; [|done]. cbn [mbind option_bind].
  destruct (match protocol with Some _ => _ | None => _ end) as [c5|]; [|done]. cbn [mbind option_bind].
  destruct (flatten_headers c5 headers); done.
Qed.

Lemma qwrites_scheme scheme :
  qwrites (fun ctx =>
    if bool_decide (scheme = H2O_URL_SCHEME_HTTP) then Some (flatten_static_indexed ctx 22)
    else if bool_decide (scheme = H2O_URL_SCHEME_HTTPS) then Some (flatten_static_indexed ctx 23)
    else flatten_known_header_with_static_lookup ctx h2o_qpack_lookup_scheme H2O_TOKEN_SCHEME (scheme_name scheme))
    [(NTok H2O_TOKEN_SCHEME, scheme_name scheme)].
Proof.
  destruct (bool_decide_reflect (scheme = H2O_URL_SCHEME_HTTP)) as [->|].
  { eapply qwrites_field; [|done]. by apply (qfield_static 22). }
  destruct (bool_decide_reflect (scheme = H2O_URL_SCHEME_HTTPS)) as [->|].
  { eapply qwrites_field; [|done]. by apply (qfield_static 23). }
  apply qwrites_known; [done| |by apply (qpack_lookup_static_ok 4)].
  split_and!; try done; destruct scheme; try done; apply lit_ok.
Qed.

Record h3_request_sendable (a : flatten_request_args) (flow : option bytes) : Prop := {
  hq_method : header_wf (NTok H2O_TOKEN_METHOD) (fr_method a);
  hq_scheme : fr_scheme a <> H2O_URL_SCHEME_FASTCGI;
  hq_authority : header_wf (NTok H2O_TOKEN_AUTHORITY) (fr_authority a);
  hq_path : header_wf (NTok H2O_TOKEN_PATH) (fr_path a) /\ fr_path a <> [];
  hq_protocol : forall p, fr_protocol a = Some p -> header_wf (NTok H2O_TOKEN_PROTOCOL) p;
  hq_headers : Forall qsendable (fr_headers a);
  hq_plain : Forall request_plain (fr_headers a);
  hq_count : len (fr_headers a) <= 2 ^ 20;
  hq_flow : forall id, flow = Some id -> header_wf (NTok H2O_TOKEN_DATAGRAM_FLOW_ID) id }.

Lemma qwrites_request a flow :
  h3_request_sendable a flow ->
  qwrites (request_writer (fr_method a) (fr_scheme a) (fr_authority a) (fr_path a) (fr_protocol a) (fr_headers a) flow)
    (pseudo_fields a ++ map received (fr_headers a) ++ flow_field flow).
Proof.
  intros [Hm _ Ha [Hp _] Hpr Hh _ _ Hf]. unfold request_writer, pseudo_fields. fold (old_style_connect a).
  cbn [app]. rewrite <- !app_assoc. cbn [app]. rewrite <- !app_assoc.
  apply (qwrites_bind (fun ctx => flatten_known_header_with_static_lookup ctx _ _ _) _ [_]).
  { apply qwrites_known; [done|done|by apply (qpack_lookup_static_ok 1)]. }
  apply (qwrites_bind (fun ctx => if negb (old_style_connect a) then _ else _)).
  { destruct (negb _); [apply qwrites_scheme|apply qwrites_nil]. }
  apply (qwrites_bind (fun ctx => flatten_known_header_with_static_lookup ctx _ _ _) _ [_]).
  { apply qwrites_known; [done|done|by apply (qpack_lookup_static_ok 0)]. }
  apply (qwrites_bind (fun ctx => if negb (old_style_connect a) then _ else _)).
  { destruct (negb _); [|apply qwrites_nil]. apply qwrites_known; [done|done|by apply (qpack_lookup_static_ok 2)]. }
  apply (qwrites_bind (fun ctx => match fr_protocol a with Some _ => _ | None => _ end)).
  { destruct (fr_protocol a) as [p|]; [|apply qwrites_nil].
    apply qwrites_known; [done|by apply Hpr|by apply (qpack_lookup_static_ok 3)]. }
  apply (qwrites_bind (fun ctx => flatten_headers ctx (fr_headers a))); [by apply qwrites_headers|by apply qwrites_flow_id].
Qed.

(** What the server gets. *)
Definition h3_received_request {digests_t : Type} (a : flatten_request_args) (flow : option bytes) (d : digests_t)
    : request (digests_t := digests_t) :=
  let '(Request m s au p pr h mp cl e d _ err) := received_request a d in Request m s au p pr h mp cl e d flow err.

Section H3Request.
Context {digests_t : Type} (load : digests_t -> bytes -> digests_t).

Lemma field_flow_id args map m s a p pr h mp cl e d f err id :
  request_field load args map (Request m s a p pr h mp cl e d f err) (NTok H2O_TOKEN_DATAGRAM_FLOW_ID) id =
  (inl (Request m s a p pr h mp cl e d (if has_flow_id args then Some id else f) err), false).
Proof. unfold request_field. cbn -[H2O_TOKEN_DATAGRAM_FLOW_ID]. by destruct (has_flow_id args). Qed.

Lemma h3_request_fields args a flow d :
  h3_request_sendable a flow -> fr_send_own_expect a = false ->
  exists map', request_fields load args true (fresh_request SIZE_MAX d)
    (pseudo_fields a ++ map received (fr_headers a) ++ flow_field flow) =
    Some (h3_received_request a (if has_flow_id args then flow else None) d, map').
Proof.
  intros Hok He. destruct (request_fields_received load args a d) as [map' Hr]; [apply Hok|apply Hok|apply Hok|].
  rewrite He in Hr. cbn [expect_field app] in Hr. rewrite app_assoc, request_fields_app, Hr.
  cbn [mbind option_bind]. unfold h3_received_request, received_request.
  destruct flow as [id|]; cbn [flow_field request_fields].
  - rewrite field_flow_id. by eexists.
  - destruct (has_flow_id args); by eexists.
Qed.

Lemma h3_request_roundtrip enc dec hist id a flow args cl d :
  idle enc -> qdec_ok dec hist -> h3_request_sendable a flow -> fr_send_own_expect a = false ->
  exists frame payload,
    h2o_qpack_flatten_request enc id None (fr_method a) (fr_scheme a) (fr_authority a) (fr_path a) (fr_protocol a)
      (fr_headers a) flow = Some frame /\
    ff_qpack frame = enc /\
    (forall m rest, len payload <= m -> exists h,
       h2o_http3_read_frame false H2O_HTTP3_STREAM_TYPE_REQUEST m (ff_frame frame ++ rest) =
       Ok (H3Frame H2O_HTTP3_FRAME_TYPE_HEADERS h (Some payload) (len payload), rest)) /\
    h2o_qpack_parse_request load dec id args true (fresh_request cl d) payload =
    Some (QParsed (h3_received_request a (if has_flow_id args then flow else None) d) dec 0 (Some [])).
Proof.
  intros Hi Hq Hok He. rewrite flatten_request_writer.
  destruct (qwrites_frame _ _ enc id (qwrites_request a flow Hok))
    as (frame & block & Hf & Henc & _ & Hl & _ & Hd & Hr); [|done|].
  { rewrite !len_app, len_map. pose proof (flow_field_count flow). destruct Hok.
    assert (len (pseudo_fields a) <= 5); [|lia].
    unfold pseudo_fields. destruct (negb _), (fr_protocol a); done. }
  exists frame, ([0; 0] ++ block). rewrite Hl in Hr. split_and!; [done|done| |].
  - intros m rest Hm. by apply Hr.
  - unfold h2o_qpack_parse_request. rewrite (context_static dec hist) by done.
    destruct (h3_request_fields args a flow d Hok He) as [map' Hfields].
    pose proof (parse_request_decodes load (H := qpack_header_decoder dec) _ (length block) (QCtx dec 0 0) block _ args
      true (fresh_request SIZE_MAX d) _ map' (Hd dec (QCtx dec 0 0)) (le_n _) eq_refl Hfields) as Hparse.
    unfold h2o_hpack_parse_request, fresh_request in *. by rewrite Hparse.
Qed.
End H3Request.

(** ** Properties *)





(** ** The encoder's use of its table *)

(** With an encoder stream, a name that is only in the dynamic table is referred to by its
    absolute index, where the instruction takes an index that counts back from the last
    insertion: the peer's decoder refuses the second of these two insertions. *)
Definition allow_header (value : string) : h2o_header_t := Header (NTok H2O_TOKEN_ALLOW) None (lit value) false.

Example dynamic_name_reference_refused :
  exists ctx buf r,
    flatten_headers (prepare_flatten (Some (h2o_qpack_create_encoder 4096 100)) 4 (Some []))
      [allow_header "GET, HEAD"; allow_header "GET, POST"] = Some ctx /\
    fc_encoder_buf ctx = Some buf /\
    h2o_qpack_decoder_handle_input (h2o_qpack_create_decoder 4096 100) buf None = Some r /\
    ha_ret r = H2O_HTTP3_ERROR_QPACK_DECOMPRESSION_FAILED /\
    ha_err_desc r = Some h2o_qpack_err_invalid_dynamic_reference.
Proof.
  eexists _, _, _. split; [vm_compute; reflexivity|]. split; [vm_compute; reflexivity|].
  split; [vm_compute; reflexivity|]. split; vm_compute; reflexivity.
Qed.
