(* ===== verification/Linklist.v ===== *)
(** * Intrusive linked lists (include/h2o/linklist.h)

    A list is a ring of links through an anchor; a link that is in no list holds NULL pointers.
    The pointers of all links in memory are two finite maps, without an entry for NULL; [None] is a
    failed assertion or a NULL dereference.  The theorems say that the operations are those on lists
    of members, which is how the rest of the development sees them. *)
From S2P Require Import Prelude.
From stdpp Require Import base list option gmap.

Abbreviation loc := nat.

(** All [h2o_linklist_t] in memory. *)
Record links := Links {
  l_next : gmap loc loc;
  l_prev : gmap loc loc }.

Definition set_next (h : links) (x y : loc) : links := Links (<[x := y]> (l_next h)) (l_prev h).
Definition set_prev (h : links) (x y : loc) : links := Links (l_next h) (<[x := y]> (l_prev h)).

Definition h2o_linklist_init_anchor (h : links) (anchor : loc) : links := set_next (set_prev h anchor anchor) anchor anchor.

Definition h2o_linklist_is_linked (h : links) (node : loc) : bool := bool_decide (is_Some (l_next h !! node)).

Definition h2o_linklist_is_empty (h : links) (anchor : loc) : bool := bool_decide (l_next h !! anchor = Some anchor).

Definition h2o_linklist_insert (h : links) (pos node : loc) : option links :=
  if h2o_linklist_is_linked h node then None
  else
    p ← l_prev h !! pos;
    let h := set_next (set_prev h node p) node pos in
    let h := set_next h p node in
    Some (set_prev h pos node).

Definition h2o_linklist_insert_list (h : links) (pos list : loc) : option links :=
  if h2o_linklist_is_empty h list then Some h
  else
    first ← l_next h !! list;
    p ← l_prev h !! pos;
    let h := set_prev h first p in
    last ← l_prev h !! list;
    let h := set_next h last pos in
    p ← l_prev h !! pos;
    first ← l_next h !! list;
    let h := set_next h p first in
    last ← l_prev h !! list;
    let h := set_prev h pos last in
    Some (h2o_linklist_init_anchor h list).

Definition h2o_linklist_unlink (h : links) (node : loc) : option links :=
  n ← l_next h !! node;
  p ← l_prev h !! node;
  let h := set_prev h n p in
  p ← l_prev h !! node;
  n ← l_next h !! node;
  let h := set_next h p n in
  Some (Links (delete node (l_next h)) (delete node (l_prev h))).

(** ** Segments *)

Definition link (h : links) (x y : loc) : Prop := l_next h !! x = Some y /\ l_prev h !! y = Some x.

(** From [x] through [ys] to [z]. *)
Fixpoint seg (h : links) (x : loc) (ys : list loc) (z : loc) : Prop :=
  match ys with
  | [] => link h x z
  | y :: ys => link h x y /\ seg h y ys z
  end.

Lemma seg_app h x ys y zs z : seg h x (ys ++ y :: zs) z <-> seg h x ys y /\ seg h y zs z.
Proof. revert x. induction ys as [|u ys IH]; intros x; simpl; [tauto|]. rewrite IH. tauto. Qed.

(** The pointers that a segment consists of. *)
Lemma seg_ext h h' x ys z :
  (forall u, u ∈ x :: ys -> l_next h' !! u = l_next h !! u) ->
  (forall u, u ∈ ys ++ [z] -> l_prev h' !! u = l_prev h !! u) -> seg h x ys z -> seg h' x ys z.
Proof.
  revert x. induction ys as [|y ys IH]; intros x Hn Hp; simpl; unfold link.
  - rewrite Hn, Hp by (simpl; left). tauto.
  - rewrite Hn, Hp by (simpl; left). intros [? ?]. split; [assumption|].
    apply IH; [intros u Hu; apply Hn; now right|intros u Hu; apply Hp; simpl; now right|assumption].
Qed.

(** The link before the end. *)
Lemma seg_end h x ys z : seg h x ys z -> exists p, last (x :: ys) = Some p /\ link h p z.
Proof.
  revert x. induction ys as [|y ys IH]; intros x; simpl; [eauto|]. intros [_ H].
  destruct (IH y H) as (p & Hp & ?). exists p. split; [exact Hp|assumption].
Qed.

(** The end of a segment is another link. *)
Lemma seg_retarget h h' x ys z z' p :
  NoDup (x :: ys) -> last (x :: ys) = Some p -> link h' p z' ->
  (forall u, u ∈ x :: ys -> u <> p -> l_next h' !! u = l_next h !! u) ->
  (forall u, u ∈ ys -> l_prev h' !! u = l_prev h !! u) -> seg h x ys z -> seg h' x ys z'.
Proof.
  revert x. induction ys as [|y ys IH]; intros x Hnd Hp Hl Hn Hpr; simpl in *.
  - injection Hp as <-. auto.
  - apply NoDup_cons in Hnd as [Hx Hnd]. intros [[H1 H2] H]. split.
    + split; [rewrite Hn; [assumption|left|]|rewrite Hpr; [assumption|left]].
      intros ->. apply Hx. eapply last_Some_elem_of. exact Hp.
    + apply IH; auto; intros u Hu; [intros ?; apply Hn; auto; now right|apply Hpr; now right].
Qed.

(** ** Lists in memory *)

Abbreviation rings := (list (loc * list loc)).

Definition members (rs : rings) : list loc := concat (map (fun r => r.1 :: r.2) rs).

(** The links in memory are those of the given lists, each an anchor and its members. *)
Record in_memory (h : links) (rs : rings) : Prop := {
  im_nodup : NoDup (members rs);
  im_ring : Forall (fun r => seg h r.1 r.2 r.1) rs;
  im_rest : forall x, x ∉ members rs -> l_next h !! x = None /\ l_prev h !! x = None }.

Lemma members_app rs rs' : members (rs ++ rs') = members rs ++ members rs'.
Proof. unfold members. now rewrite map_app, concat_app. Qed.

Lemma members_cons a xs rs : members ((a, xs) :: rs) = a :: xs ++ members rs.
Proof. reflexivity. Qed.

(** The other lists do not notice a change of the links of one. *)
Lemma others_ext h h' rs (l : list loc) :
  (forall u, u ∉ l -> l_next h' !! u = l_next h !! u /\ l_prev h' !! u = l_prev h !! u) ->
  (forall u, u ∈ l -> u ∉ members rs) ->
  Forall (fun r => seg h r.1 r.2 r.1) rs -> Forall (fun r => seg h' r.1 r.2 r.1) rs.
Proof.
  intros Hsame Hdisj. induction rs as [|[a xs] rs IH]; intros H; [constructor|].
  apply Forall_cons in H as [H Hrs]. rewrite members_cons in Hdisj.
  assert (Hout : forall u, u ∈ a :: xs -> u ∉ l) by (intros u Hu Hl; apply (Hdisj u Hl); rewrite app_comm_cons, elem_of_app; now left).
  constructor.
  - simpl in *. eapply seg_ext; [| |exact H]; intros u Hu; apply Hsame, Hout; [assumption|].
    apply elem_of_app in Hu as [Hu|Hu%list_elem_of_singleton]; [now right|subst u; left].
  - apply IH; [|assumption]. intros u Hu Hm. apply (Hdisj u Hu). rewrite app_comm_cons, elem_of_app. now right.
Qed.

Lemma in_memory_perm h rs rs' : rs ≡ₚ rs' -> in_memory h rs -> in_memory h rs'.
Proof.
  intros Hp [Hnd Hr Hm]. assert (Hmem : members rs ≡ₚ members rs').
  { unfold members. clear -Hp. induction Hp as [|x l l' _ IH|x y l|l l' l'' _ IH1 _ IH2]; simpl.
    - reflexivity.
    - now rewrite IH.
    - solve_Permutation.
    - now rewrite IH1. }
  split; [now rewrite <- Hmem|now rewrite <- Hp|]. intros x Hx. apply Hm. now rewrite Hmem.
Qed.

(** A step on the first list. *)
Lemma step_first h h' a xs xs' rs :
  in_memory h ((a, xs) :: rs) -> NoDup (a :: xs') -> seg h' a xs' a ->
  (forall u, u ∈ a :: xs' -> u ∈ a :: xs \/ u ∉ members ((a, xs) :: rs)) ->
  (forall u, u ∉ a :: xs -> u ∉ a :: xs' -> l_next h' !! u = l_next h !! u /\ l_prev h' !! u = l_prev h !! u) ->
  (forall u, u ∈ xs -> u ∉ xs' -> l_next h' !! u = None /\ l_prev h' !! u = None) ->
  in_memory h' ((a, xs') :: rs).
Proof.
  intros [Hnd Hr Hm] Hnd' Hseg Hnew Hsame Hgone. rewrite members_cons in *. apply Forall_cons in Hr as [_ Hr].
  change (a :: xs ++ members rs) with ((a :: xs) ++ members rs) in *. apply NoDup_app in Hnd as (Hnd1 & Hdisj & Hnd2).
  assert (Hdisj' : forall u, u ∈ a :: xs' -> u ∉ members rs).
  { intros u Hu. destruct (Hnew u Hu) as [?|Hn]; [now apply Hdisj|]. rewrite elem_of_app in Hn. tauto. }
  split.
  - rewrite members_cons. change (a :: xs' ++ members rs) with ((a :: xs') ++ members rs). apply NoDup_app. auto.
  - constructor; [exact Hseg|]. apply (others_ext h h' rs ((a :: xs) ++ (a :: xs'))); [| |assumption].
    + intros u Hu. rewrite elem_of_app in Hu. apply Hsame; tauto.
    + intros u Hu. rewrite elem_of_app in Hu. destruct Hu; auto.
  - intros u Hu. rewrite members_cons in Hu. change (a :: xs' ++ members rs) with ((a :: xs') ++ members rs) in Hu.
    rewrite elem_of_app in Hu. destruct (decide (u ∈ a :: xs)) as [Hin|Hout].
    + apply Hgone.
      * apply elem_of_cons in Hin as [->|?]; [|assumption]. exfalso. apply Hu. left. left.
      * intros H. apply Hu. left. now right.
    + destruct (Hsame u Hout) as [-> ->]; [tauto|]. apply Hm. rewrite elem_of_app. tauto.
Qed.

(** ** The operations *)

Lemma insert_seg h x ys z n :
  NoDup (x :: ys) -> n ∉ x :: ys -> n <> z -> z ∉ ys -> l_next h !! n = None -> seg h x ys z ->
  exists h' p, h2o_linklist_insert h z n = Some h' /\ last (x :: ys) = Some p /\ seg h' x (ys ++ [n]) z /\
    (forall u, u <> n -> u <> p -> l_next h' !! u = l_next h !! u) /\
    (forall u, u <> n -> u <> z -> l_prev h' !! u = l_prev h !! u).
Proof.
  intros Hnd Hn Hnz Hz Hun Hseg. destruct (seg_end h x ys z Hseg) as (p & Hlast & Hp1 & Hp2).
  assert (Hpin : p ∈ x :: ys) by (eapply last_Some_elem_of; exact Hlast).
  assert (Hpn : p <> n) by congruence.
  unfold h2o_linklist_insert, h2o_linklist_is_linked. rewrite Hun, bool_decide_false by (by intros []). rewrite Hp2.
  cbn [mbind option_bind]. eexists _, p. split; [reflexivity|]. split; [assumption|]. set (h' := set_prev _ z n).
  assert (Hnext : forall u, l_next h' !! u = if decide (u = p) then Some n else if decide (u = n) then Some z else l_next h !! u).
  { intros u. simpl. rewrite !lookup_insert. repeat case_decide; congruence. }
  assert (Hprev : forall u, l_prev h' !! u = if decide (u = z) then Some n else if decide (u = n) then Some p else l_prev h !! u).
  { intros u. simpl. rewrite !lookup_insert. repeat case_decide; congruence. }
  split_and!.
  - rewrite seg_app. split.
    + apply (seg_retarget h h' x ys z n p); auto.
      * split; [rewrite Hnext|rewrite Hprev]; repeat case_decide; congruence.
      * intros u Hu Hup. rewrite Hnext. repeat case_decide; congruence.
      * intros u Hu. rewrite Hprev. repeat case_decide; subst; try congruence. exfalso. apply Hn. now right.
    + split; [rewrite Hnext|rewrite Hprev]; repeat case_decide; congruence.
  - intros u ? ?. rewrite Hnext. repeat case_decide; congruence.
  - intros u ? ?. rewrite Hprev. repeat case_decide; congruence.
Qed.

Lemma ring_nodup h a xs rs : in_memory h ((a, xs) :: rs) -> NoDup (a :: xs) /\ seg h a xs a.
Proof.
  intros [Hnd Hr _]. rewrite members_cons, app_comm_cons in Hnd. apply NoDup_app in Hnd as (? & _). split; [assumption|].
  now apply Forall_cons in Hr as [? _].
Qed.

Lemma insert_last h a xs rs n :
  in_memory h ((a, xs) :: rs) -> n ∉ members ((a, xs) :: rs) ->
  exists h', h2o_linklist_insert h a n = Some h' /\ in_memory h' ((a, xs ++ [n]) :: rs).
Proof.
  intros Hm Hn. destruct (ring_nodup h a xs rs Hm) as [Hnd Hseg]. pose proof Hnd as [Hax Hnx]%NoDup_cons.
  pose proof Hn as Hn'. rewrite members_cons, app_comm_cons, elem_of_app, elem_of_cons in Hn'.
  destruct (insert_seg h a xs a n) as (h' & p & Hins & Hlast & Hseg' & Hnext & Hprev); auto.
  { rewrite elem_of_cons. tauto. }
  { now apply (im_rest _ _ Hm). }
  exists h'. split; [assumption|]. apply (step_first h h' a xs); auto.
  - apply NoDup_cons. rewrite elem_of_app, list_elem_of_singleton. split; [intros [?|?]; [contradiction|subst; tauto]|].
    apply NoDup_app. split_and!; auto using NoDup_singleton. intros x Hx ->%list_elem_of_singleton. tauto.
  - intros u. rewrite elem_of_cons, elem_of_app, list_elem_of_singleton, elem_of_cons. intros [->|[?| ->]]; auto.
  - intros u Hu Hu'. rewrite elem_of_cons, elem_of_app, list_elem_of_singleton in Hu'. rewrite elem_of_cons in Hu.
    assert (p ∈ a :: xs) as Hp by (eapply last_Some_elem_of; exact Hlast). rewrite elem_of_cons in Hp.
    split; [apply Hnext|apply Hprev]; try tauto; intros ->; tauto.
  - intros u Hu Hu'. rewrite elem_of_app in Hu'. tauto.
Qed.

Lemma NoDup_insert (l1 l2 : list loc) n : NoDup (l1 ++ l2) -> n ∉ l1 ++ l2 -> NoDup (l1 ++ n :: l2).
Proof. intros. rewrite <- Permutation_middle. now constructor. Qed.

Lemma insert_before h a l1 pos l2 rs n :
  in_memory h ((a, l1 ++ pos :: l2) :: rs) -> n ∉ members ((a, l1 ++ pos :: l2) :: rs) ->
  exists h', h2o_linklist_insert h pos n = Some h' /\ in_memory h' ((a, l1 ++ n :: pos :: l2) :: rs).
Proof.
  intros Hm Hn. destruct (ring_nodup _ _ _ _ Hm) as [Hnd Hseg]. apply seg_app in Hseg as [Hs1 Hs2].
  pose proof Hn as Hn'. rewrite members_cons, app_comm_cons, elem_of_app in Hn'.
  assert (Hna : n ∉ a :: l1 ++ pos :: l2) by tauto. rewrite elem_of_cons, elem_of_app, elem_of_cons in Hna.
  pose proof Hnd as Hnd'. rewrite app_comm_cons in Hnd'. apply NoDup_app in Hnd' as (Hnd1 & Hd12 & [Hpos2 Hnd2]%NoDup_cons).
  assert (Hpos1 : pos ∉ a :: l1) by (intros H; apply (Hd12 _ H); now left).
  destruct (insert_seg h a l1 pos n) as (h' & p & Hins & Hlast & Hseg' & Hnext & Hprev); auto.
  { rewrite elem_of_cons. tauto. }
  { intros ->. tauto. }
  { intros H. apply Hpos1. now right. }
  { now apply (im_rest _ _ Hm). }
  assert (Hp : p ∈ a :: l1) by (eapply last_Some_elem_of; exact Hlast).
  exists h'. split; [assumption|]. apply (step_first h h' a (l1 ++ pos :: l2)); auto.
  - rewrite app_comm_cons. apply NoDup_insert; [now rewrite <- app_comm_cons|]. rewrite <- app_comm_cons. tauto.
  - change (l1 ++ n :: pos :: l2) with (l1 ++ [n] ++ pos :: l2). rewrite app_assoc, seg_app. split; [assumption|].
    eapply seg_ext; [| |exact Hs2].
    + intros u Hu. apply Hnext; intros ->; [rewrite elem_of_cons in Hu; tauto|]. now apply (Hd12 _ Hp).
    + intros u Hu. apply Hprev; intros ->; rewrite elem_of_app, list_elem_of_singleton in Hu; [tauto|].
      destruct Hu as [?| ->]; [contradiction|]. apply Hpos1. left.
  - intros u. rewrite !elem_of_cons, !elem_of_app, !elem_of_cons. intros [?|[?|[->|?]]]; tauto.
  - intros u Hu Hu'. rewrite elem_of_cons, elem_of_app, !elem_of_cons in Hu, Hu'. rewrite elem_of_cons in Hp.
    split; [apply Hnext|apply Hprev]; intros ->; tauto.
  - intros u Hu Hu'. rewrite elem_of_app, elem_of_cons in Hu, Hu'. rewrite elem_of_cons in Hu'. tauto.
Qed.

Lemma unlink_member h a l1 n l2 rs :
  in_memory h ((a, l1 ++ n :: l2) :: rs) ->
  exists h', h2o_linklist_unlink h n = Some h' /\ in_memory h' ((a, l1 ++ l2) :: rs).
Proof.
  intros Hm. destruct (ring_nodup _ _ _ _ Hm) as [Hnd Hseg]. apply seg_app in Hseg as [Hs1 Hs2].
  pose proof Hnd as Hnd'. rewrite app_comm_cons in Hnd'. apply NoDup_app in Hnd' as (Hnd1 & Hd12 & [Hn2 Hnd2]%NoDup_cons).
  assert (Hn1 : n ∉ a :: l1) by (intros H; apply (Hd12 _ H); now left).
  destruct (seg_end h a l1 n Hs1) as (p & Hlast & Hpn & Hnp).
  assert (Hp : p ∈ a :: l1) by (eapply last_Some_elem_of; exact Hlast).
  assert (Hto : exists q, link h n q /\ (l2 = [] /\ q = a \/ exists l, l2 = q :: l)).
  { destruct l2 as [|y l]; [exists a; auto|]. exists y. split; [apply Hs2|eauto]. }
  destruct Hto as (q & [Hnq Hqn] & Hhead).
  assert (Hq : q ∈ a :: l2) by (destruct Hhead as [[-> ->]|[l ->]]; [left|right; left]).
  assert (Hpne : p <> n) by (intros ->; contradiction).
  assert (Hqne : q <> n) by (intros E; rewrite E, elem_of_cons in Hq; destruct Hq as [->|?]; [apply Hn1; left|contradiction]).
  unfold h2o_linklist_unlink. rewrite Hnq. cbn [mbind option_bind]. rewrite Hnp. cbn [mbind option_bind].
  cbn [set_prev l_prev l_next]. rewrite lookup_insert_ne, Hnp by assumption. cbn [mbind option_bind]. rewrite Hnq. cbn [mbind option_bind].
  eexists. split; [reflexivity|]. set (h' := Links _ _).
  assert (Hnext : forall u, l_next h' !! u = if decide (u = n) then None else if decide (u = p) then Some q else l_next h !! u).
  { intros u. simpl. rewrite lookup_delete, lookup_insert. repeat case_decide; congruence. }
  assert (Hprev : forall u, l_prev h' !! u = if decide (u = n) then None else if decide (u = q) then Some p else l_prev h !! u).
  { intros u. simpl. rewrite lookup_delete, lookup_insert. repeat case_decide; congruence. }
  rewrite elem_of_cons in Hn1, Hp, Hq.
  assert (Hd : forall u, u ∈ l2 -> u ∉ a :: l1) by (intros u Hu Hu'; apply (Hd12 _ Hu'); now right).
  apply (step_first h h' a (l1 ++ n :: l2)); auto.
  - rewrite app_comm_cons. apply NoDup_app. split_and!; auto. intros u Hu Hu'. now apply (Hd u).
  - assert (Hto : seg h' a l1 q).
    { apply (seg_retarget h h' a l1 n q p); auto.
      - split; [rewrite Hnext|rewrite Hprev]; repeat case_decide; congruence.
      - intros u Hu Hup. rewrite Hnext. repeat case_decide; subst; try congruence. rewrite elem_of_cons in Hu. tauto.
      - intros u Hu. rewrite Hprev. repeat case_decide; subst; try congruence; [tauto|]. exfalso.
        destruct Hq as [Hq|Hq]; [|apply (Hd q Hq); now right]. apply NoDup_cons in Hnd1 as [? _]. congruence. }
    destruct Hhead as [[-> ->]|[l ->]]; [now rewrite app_nil_r|]. apply seg_app. split; [exact Hto|]. destruct Hs2 as [_ Hs2].
    apply NoDup_cons in Hnd2 as [Hy _]. eapply seg_ext; [| |exact Hs2].
    + intros u Hu. rewrite Hnext. repeat case_decide; subst; try congruence. exfalso.
      apply (Hd p); [assumption|]. now rewrite elem_of_cons.
    + intros u Hu. rewrite Hprev. rewrite elem_of_app, list_elem_of_singleton in Hu.
      repeat case_decide; subst; try congruence; exfalso.
      * destruct Hu as [?| ->]; [apply Hn2; now right|tauto].
      * destruct Hu as [?| ->]; [contradiction|]. apply (Hd a); left.
  - intros u. rewrite !elem_of_cons, !elem_of_app, !elem_of_cons. tauto.
  - intros u Hu _. rewrite elem_of_cons, elem_of_app, elem_of_cons in Hu. rewrite Hnext, Hprev.
    repeat case_decide; subst; tauto.
  - intros u Hu Hu'. rewrite elem_of_app, elem_of_cons in Hu. rewrite elem_of_app in Hu'.
    assert (u = n) as -> by tauto. split; [rewrite Hnext|rewrite Hprev]; now rewrite decide_True.
Qed.

Lemma insert_list_pointers h b ys a f xs :
  NoDup (b :: ys ++ a :: f :: xs) -> seg h b ys b -> seg h a (f :: xs) a ->
  exists h' p l, h2o_linklist_insert_list h b a = Some h' /\ last (b :: ys) = Some p /\ last (f :: xs) = Some l /\
    (forall u, l_next h' !! u = if decide (u = a) then Some a else if decide (u = p) then Some f
                               else if decide (u = l) then Some b else l_next h !! u) /\
    (forall u, l_prev h' !! u = if decide (u = a) then Some a else if decide (u = b) then Some l
                               else if decide (u = f) then Some p else l_prev h !! u).
Proof.
  intros Hnd Hb [[Haf Hfa] Ha]. destruct (seg_end _ _ _ _ Hb) as (p & Hp & Hpb & Hbp).
  destruct (seg_end _ _ _ _ Ha) as (l & Hl & Hla & Hal).
  assert (Hpin : p ∈ b :: ys) by (eapply last_Some_elem_of; exact Hp).
  assert (Hlin : l ∈ f :: xs) by (eapply last_Some_elem_of; exact Hl).
  rewrite app_comm_cons in Hnd. apply NoDup_app in Hnd as (_ & Hd & [Hax _]%NoDup_cons).
  assert (Hbx : forall u, u ∈ b :: ys -> u <> a /\ u ∉ f :: xs).
  { intros u Hu. specialize (Hd u Hu). rewrite elem_of_cons in Hd. tauto. }
  assert (Hbs : b <> a /\ b ∉ f :: xs) by (apply Hbx; left). pose proof (Hbx p Hpin) as Hps.
  assert (Hla' : l <> a) by (intros ->; contradiction). assert (Hfa' : f <> a) by (intros ->; apply Hax; left).
  assert (Hbf : b <> f) by (intros ->; apply Hbs; left). assert (Hpl : p <> l) by (intros ->; now apply Hps).
  destruct Hbs as [Hba _], Hps as [Hpa _].
  unfold h2o_linklist_insert_list, h2o_linklist_is_empty. rewrite bool_decide_false by congruence.
  rewrite Haf. cbn [mbind option_bind]. rewrite Hbp. cbn [mbind option_bind set_prev set_next l_prev l_next].
  rewrite !(lookup_insert_ne _ f a), !Hal by assumption. cbn [mbind option_bind set_prev set_next l_prev l_next].
  rewrite !(lookup_insert_ne _ f b), !Hbp by congruence. cbn [mbind option_bind set_prev set_next l_prev l_next].
  rewrite !(lookup_insert_ne _ l a), !Haf by assumption. cbn [mbind option_bind set_prev set_next l_prev l_next].
  eexists _, p, l. split; [reflexivity|]. split; [assumption|]. split; [assumption|].
  split; intros u; simpl; rewrite !lookup_insert; repeat case_decide; congruence.
Qed.

(** The cases of a pointer in rings that have no link in common. *)
Ltac pointer_cases :=
  repeat case_decide; subst; destruct_and?; try congruence; try tauto; exfalso;
  match goal with H : ?x ∉ ?x :: _ |- _ => apply H; now left end.

Lemma insert_list_ok h b ys a xs rs :
  in_memory h ((b, ys) :: (a, xs) :: rs) ->
  exists h', h2o_linklist_insert_list h b a = Some h' /\ in_memory h' ((b, ys ++ xs) :: (a, []) :: rs).
Proof.
  intros Hm. pose proof Hm as [Hnd [Hb [Ha Hrs]%Forall_cons]%Forall_cons Hout]. simpl in Hb, Ha.
  destruct xs as [|f xs].
  { exists h. unfold h2o_linklist_insert_list, h2o_linklist_is_empty. destruct Ha as [Ha _].
    rewrite bool_decide_true by assumption. now rewrite app_nil_r. }
  assert (Hmem : members ((b, ys ++ f :: xs) :: (a, []) :: rs) ≡ₚ members ((b, ys) :: (a, f :: xs) :: rs)).
  { rewrite !members_cons. solve_Permutation. }
  assert (Hnd1 : NoDup (b :: ys ++ a :: f :: xs) /\ forall u, u ∈ b :: ys ++ a :: f :: xs -> u ∉ members rs).
  { rewrite !members_cons in Hnd. replace (b :: ys ++ a :: (f :: xs) ++ members rs) with ((b :: ys ++ a :: f :: xs) ++ members rs) in Hnd
      by (simpl; now rewrite <- app_assoc). apply NoDup_app in Hnd as (? & ? & _). auto. }
  destruct Hnd1 as [Hnd1 Hdisj].
  destruct (insert_list_pointers h b ys a f xs Hnd1 Hb Ha) as (h' & p & l & Hins & Hp & Hl & Hnext & Hprev).
  exists h'. split; [assumption|]. destruct Ha as [_ Ha].
  assert (Hpin : p ∈ b :: ys) by (eapply last_Some_elem_of; exact Hp).
  assert (Hlin : l ∈ f :: xs) by (eapply last_Some_elem_of; exact Hl).
  pose proof Hnd1 as Hnd2. rewrite app_comm_cons in Hnd2. apply NoDup_app in Hnd2 as (Hndb & Hd & [Hax Hndf]%NoDup_cons).
  assert (Hbx : forall u, u ∈ b :: ys -> u <> a /\ u ∉ f :: xs).
  { intros u Hu. specialize (Hd u Hu). rewrite elem_of_cons in Hd. tauto. }
  assert (Hfx : forall u, u ∈ f :: xs -> u <> a /\ u ∉ b :: ys).
  { intros u Hu. split; [intros ->; contradiction|]. intros Hu'. now apply (Hbx u Hu'). }
  pose proof (Hbx p Hpin). pose proof (Hfx l Hlin). pose proof (Hbx b ltac:(left)). pose proof (Hfx f ltac:(left)).
  assert (Hself : l_next h' !! a = Some a /\ l_prev h' !! a = Some a) by (rewrite Hnext, Hprev; now rewrite !decide_True).
  split; [now rewrite Hmem| |].
  - constructor; [|constructor].
    + simpl. apply seg_app. split.
      * apply (seg_retarget h h' b ys b f p); auto.
        -- split; [rewrite Hnext|rewrite Hprev]; pointer_cases.
        -- intros u Hu Hup. pose proof (Hbx u Hu). rewrite Hnext. pointer_cases.
        -- intros u Hu. pose proof (Hbx u ltac:(now right)). rewrite Hprev. apply NoDup_cons in Hndb as [? _]. pointer_cases.
      * apply (seg_retarget h h' f xs a b l); auto.
        -- split; [rewrite Hnext|rewrite Hprev]; pointer_cases.
        -- intros u Hu Hul. pose proof (Hfx u Hu). rewrite Hnext. pointer_cases.
        -- intros u Hu. pose proof (Hfx u ltac:(now right)). rewrite Hprev. apply NoDup_cons in Hndf as [? _]. pointer_cases.
    + exact Hself.
    + apply (others_ext h h' rs (b :: ys ++ a :: f :: xs)); auto. intros u Hu.
      rewrite elem_of_cons, elem_of_app, elem_of_cons in Hu. rewrite elem_of_cons in Hpin.
      rewrite Hnext, Hprev. rewrite (elem_of_cons xs) in Hlin, Hu. repeat case_decide; subst; tauto.
  - intros u Hu. rewrite Hmem in Hu. destruct (Hout u Hu) as [H5 H6].
    rewrite !members_cons, elem_of_cons, elem_of_app, elem_of_cons, elem_of_app in Hu. rewrite elem_of_cons in Hpin.
    rewrite Hnext, Hprev. rewrite elem_of_cons in Hlin, Hu. repeat case_decide; subst; tauto.
Qed.

Lemma is_linked_iff h rs x : in_memory h rs -> h2o_linklist_is_linked h x = true <-> x ∈ members rs.
Proof.
  intros Hm. unfold h2o_linklist_is_linked. rewrite bool_decide_eq_true. split.
  - intros Hx. destruct (decide (x ∈ members rs)) as [|Hn]; [assumption|]. destruct (im_rest _ _ Hm x Hn) as [E _].
    rewrite E in Hx. now destruct Hx.
  - intros Hx. unfold members in Hx. rewrite list_elem_of_In, in_concat in Hx. destruct Hx as (l & Hl & Hx).
    apply in_map_iff in Hl as ([a xs] & <- & Hr). apply list_elem_of_In in Hx, Hr.
    pose proof (im_ring _ _ Hm) as H. rewrite Forall_forall in H. specialize (H _ Hr). simpl in H, Hx.
    apply list_elem_of_split in Hx as (l1 & l2 & E). destruct l1 as [|y l1]; injection E as -> ->.
    + destruct l2; [destruct H as [-> _]|destruct H as [[-> _] _]]; eauto.
    + apply seg_app in H as [_ H]. destruct l2; [destruct H as [-> _]|destruct H as [[-> _] _]]; eauto.
Qed.

Lemma is_empty_iff h a xs rs : in_memory h ((a, xs) :: rs) -> h2o_linklist_is_empty h a = true <-> xs = [].
Proof.
  intros Hm. destruct (ring_nodup _ _ _ _ Hm) as [Hnd Hseg]. unfold h2o_linklist_is_empty. rewrite bool_decide_eq_true.
  destruct xs as [|x xs]; [split; [reflexivity|intros _; apply Hseg]|]. destruct Hseg as [[-> _] _].
  split; [|discriminate]. intros [= ->]. apply NoDup_cons in Hnd as [Hnd _]. exfalso. apply Hnd. left.
Qed.

Lemma init_anchor_ok h rs a : in_memory h rs -> a ∉ members rs -> in_memory (h2o_linklist_init_anchor h a) ((a, []) :: rs).
Proof.
  intros [Hnd Hr Hm] Ha. set (h' := h2o_linklist_init_anchor h a).
  assert (Hne : forall u, u <> a -> l_next h' !! u = l_next h !! u /\ l_prev h' !! u = l_prev h !! u)
    by (intros u Hu; simpl; now rewrite !lookup_insert_ne).
  split.
  - rewrite members_cons. now constructor.
  - constructor; [split; simpl; now rewrite lookup_insert_eq|].
    apply (others_ext h h' rs [a]); [| |assumption]; intros u; rewrite list_elem_of_singleton; [apply Hne|now intros ->].
  - intros u. rewrite members_cons. cbn [app]. rewrite elem_of_cons. intros Hu. destruct (Hne u) as [-> ->]; [tauto|]. apply Hm. tauto.
Qed.

(** Linked lists are lists.  Whatever lists are in memory, linked through pairwise different links: a new
    anchor is an empty list; a link that is in no list can be put at the end of a list or before any member; any
    member can be unlinked; the members of one list can be moved to the end of another; all other lists stay as
    they are, and the tests tell whether a list is empty and whether a link is in use. *)
Theorem linklist_refines h a xs rs :
  in_memory h ((a, xs) :: rs) ->
  (forall n, n ∉ members ((a, xs) :: rs) ->
     in_memory (h2o_linklist_init_anchor h n) ((n, []) :: (a, xs) :: rs) /\
     (exists h', h2o_linklist_insert h a n = Some h' /\ in_memory h' ((a, xs ++ [n]) :: rs)) /\
     forall l1 pos l2, xs = l1 ++ pos :: l2 ->
       exists h', h2o_linklist_insert h pos n = Some h' /\ in_memory h' ((a, l1 ++ n :: pos :: l2) :: rs)) /\
  (forall l1 n l2, xs = l1 ++ n :: l2 ->
     exists h', h2o_linklist_unlink h n = Some h' /\ in_memory h' ((a, l1 ++ l2) :: rs)) /\
  (forall b ys rs', rs = (b, ys) :: rs' ->
     exists h', h2o_linklist_insert_list h a b = Some h' /\ in_memory h' ((a, xs ++ ys) :: (b, []) :: rs')) /\
  (forall x, h2o_linklist_is_linked h x = true <-> x ∈ members ((a, xs) :: rs)) /\
  (h2o_linklist_is_empty h a = true <-> xs = []).
Proof.
  intros Hm. split; [|split; [|split; [|split]]].
  - intros n Hn. split; [now apply init_anchor_ok|]. split; [now apply insert_last|].
    intros l1 pos l2 ->. now apply insert_before.
  - intros l1 n l2 ->. now apply unlink_member.
  - intros b ys rs' ->. now apply insert_list_ok.
  - intros x. now apply is_linked_iff.
  - now apply (is_empty_iff h a xs rs).
Qed.

Lemma linklist_refines_witness :
  exists h h', h2o_linklist_insert (h2o_linklist_init_anchor (Links ∅ ∅) 0) 0 1 = Some h /\
    h2o_linklist_insert h 1 2 = Some h' /\ in_memory h' [(0, [2; 1])].
Proof.
  assert (H0 : in_memory (h2o_linklist_init_anchor (Links ∅ ∅) 0) [(0, [])]).
  { apply init_anchor_ok; [|apply not_elem_of_nil]. split; [constructor|constructor|]. intros x _. simpl. now rewrite lookup_empty. }
  destruct (linklist_refines _ 0 [] [] H0) as (H & _). destruct (H 1) as (_ & (h & Hh & H1) & _).
  { rewrite members_cons. simpl. rewrite list_elem_of_singleton. discriminate. }
  destruct (linklist_refines h 0 [1] [] H1) as (H' & _). destruct (H' 2) as (_ & _ & H2).
  { rewrite members_cons. simpl. rewrite elem_of_cons, list_elem_of_singleton. intros [?|?]; discriminate. }
  destruct (H2 [] 1 [] eq_refl) as (h' & Hh' & H3). exists h, h'. auto.
Defined.
