(* ===== verification/SchedQueue.v ===== *)
(** * The queue of the HTTP/2 scheduler (lib/http2/scheduler.c)

    A weighted round-robin queue: a ring of 64 lists with a bit per list that may hold
    entries, and a list of its own for the entries of weight 257.  An entry is put
    [OFFSET_TABLE[weight - 1] + deficit] units of 1/65536 list ahead of the list being
    served, and keeps the fraction as its deficit.

    A list of nodes is the list of what [h2o_linklist_t] links (see Linklist.v); a node of the
    queue is named by the number of the openref that holds it. *)
From S2P Require Import Prelude.
From Stdlib Require Import ZArith Lia.
From stdpp Require Import base list numbers option sets.
Open Scope Z_scope.

Abbreviation ref_id := nat.

Record queue := Queue {
  q_bits : Z;
  q_offset : Z;
  q_anchors : list (list ref_id);
  q_anchor257 : list ref_id }.

Definition queue_init : queue := Queue 0 0 (replicate 64 []) [].

Definition queue_is_empty (q : queue) : bool := (q_bits q =? 0) && is_nil (q_anchor257 q).

Definition OFFSET_TABLE : list Z :=
  [4128768; 2064384; 1376256; 1032192; 825754; 688128; 589824; 516096; 458752; 412877; 375343; 344064; 317598; 294912; 275251;
   258048; 242869; 229376; 217304; 206438; 196608; 187671; 179512; 172032; 165151; 158799; 152917; 147456; 142371; 137626;
   133186; 129024; 125114; 121434; 117965; 114688; 111588; 108652; 105866; 103219; 100702; 98304; 96018; 93836; 91750;
   89756; 87846; 86016; 84261; 82575; 80956; 79399; 77901; 76459; 75069; 73728; 72435; 71186; 69979; 68813;
   67685; 66593; 65536; 64512; 63520; 62557; 61623; 60717; 59837; 58982; 58152; 57344; 56558; 55794; 55050;
   54326; 53620; 52933; 52263; 51610; 50972; 50351; 49744; 49152; 48574; 48009; 47457; 46918; 46391; 45875;
   45371; 44878; 44395; 43923; 43461; 43008; 42565; 42130; 41705; 41288; 40879; 40478; 40085; 39700; 39322;
   38951; 38587; 38229; 37879; 37534; 37196; 36864; 36538; 36217; 35902; 35593; 35289; 34990; 34696; 34406;
   34122; 33842; 33567; 33297; 33030; 32768; 32510; 32256; 32006; 31760; 31517; 31279; 31043; 30812; 30583;
   30359; 30137; 29919; 29703; 29491; 29282; 29076; 28873; 28672; 28474; 28279; 28087; 27897; 27710; 27525;
   27343; 27163; 26985; 26810; 26637; 26466; 26298; 26131; 25967; 25805; 25645; 25486; 25330; 25175; 25023;
   24872; 24723; 24576; 24431; 24287; 24145; 24004; 23866; 23729; 23593; 23459; 23326; 23195; 23066; 22938;
   22811; 22686; 22562; 22439; 22318; 22198; 22079; 21962; 21845; 21730; 21617; 21504; 21393; 21282; 21173;
   21065; 20958; 20852; 20748; 20644; 20541; 20439; 20339; 20239; 20140; 20043; 19946; 19850; 19755; 19661;
   19568; 19475; 19384; 19293; 19204; 19115; 19027; 18939; 18853; 18767; 18682; 18598; 18515; 18432; 18350;
   18269; 18188; 18109; 18030; 17951; 17873; 17796; 17720; 17644; 17569; 17495; 17421; 17348; 17275; 17203;
   17132; 17061; 16991; 16921; 16852; 16784; 16716; 16648; 16581; 16515; 16449; 16384; 16319; 16255; 16191;
   16128; 0].

(** The offset in units of 1/65536, as the table has it. *)
Definition offset_of (weight : Z) : Z := default 0 (OFFSET_TABLE !! Z.to_nat (weight - 1)).

(** The body of [queue_set] behind its first assertion: the queue, and the deficit of the
    node.  [h2o_linklist_insert] puts the node at the end of the list. *)
Definition queue_link (q : queue) (node : ref_id) (deficit weight : Z) : option (queue * Z) :=
  if 256 <? weight then
    Some (Queue (q_bits q) (q_offset q) (q_anchors q) (q_anchor257 q ++ [node]), deficit)
  else if weight <? 1 then None
  else
    let offset := wrap64 (offset_of weight + deficit) in
    let deficit := offset mod 65536 in
    let offset := offset / 65536 in
    Some (Queue (Z.lor (q_bits q) (wrap64 (Z.shiftl 1 (64 - 1 - offset)))) (q_offset q)
            (alter (fun l => l ++ [node]) (Z.to_nat ((q_offset q + offset) mod 64)) (q_anchors q))
            (q_anchor257 q),
          deficit).

(** [h2o_linklist_unlink] of a node of the queue. *)
Definition queue_unlink (q : queue) (node : ref_id) : queue :=
  Queue (q_bits q) (q_offset q) (map (filter (.≠ node)) (q_anchors q)) (filter (.≠ node) (q_anchor257 q)).

Definition clear_first (bits : Z) : Z := Z.land bits (Z.shiftl 1 (64 - 1) - 1).

(** The loop of [queue_pop]; [None]: out of fuel. *)
Fixpoint queue_pop_loop (fuel : nat) (q : queue) : option (option ref_id * queue) :=
  if q_bits q =? 0 then Some (None, q)
  else
    match fuel with
    | O => None
    | S fuel =>
        let zeroes := clzll (q_bits q) in
        let bits := wrap64 (Z.shiftl (q_bits q) zeroes) in
        let offset := (q_offset q + zeroes) mod 64 in
        match q_anchors q !! Z.to_nat offset with
        | Some (node :: rest) =>
            Some (Some node,
                  Queue (if is_nil rest then clear_first bits else bits) offset
                    (<[Z.to_nat offset := rest]> (q_anchors q)) (q_anchor257 q))
        | _ => queue_pop_loop fuel (Queue (clear_first bits) offset (q_anchors q) (q_anchor257 q))
        end
    end.

(** Every turn of the loop drops a bit of the 64. *)
Definition queue_pop (q : queue) : option (option ref_id * queue) :=
  match q_anchor257 q with
  | node :: rest => Some (Some node, Queue (q_bits q) (q_offset q) (q_anchors q) rest)
  | [] => queue_pop_loop 64 q
  end.

(** ** The lists in the order they are served *)

Definition slots (q : queue) : list (list ref_id) :=
  drop (Z.to_nat (q_offset q)) (q_anchors q) ++ take (Z.to_nat (q_offset q)) (q_anchors q).

(** A list that holds an entry has its bit set. *)
Definition bits_cover (bits : Z) (ls : list (list ref_id)) : Prop :=
  forall i l, ls !! i = Some l -> l <> [] -> Z.testbit bits (63 - Z.of_nat i) = true.

Record queue_ok (q : queue) : Prop := {
  ok_bits : 0 <= q_bits q < 2 ^ 64;
  ok_offset : 0 <= q_offset q < 64;
  ok_anchors : length (q_anchors q) = 64%nat;
  ok_cover : bits_cover (q_bits q) (slots q) }.

Lemma length_slots q : length (slots q) = length (q_anchors q).
Proof. unfold slots. rewrite length_app, length_drop, length_take. lia. Qed.

Lemma slots_lookup q j :
  0 <= q_offset q < 64 -> length (q_anchors q) = 64%nat -> (j < 64)%nat ->
  slots q !! j = q_anchors q !! Z.to_nat ((q_offset q + Z.of_nat j) mod 64).
Proof.
  intros Ho Hl Hj. unfold slots.
  assert (Hd : length (drop (Z.to_nat (q_offset q)) (q_anchors q)) = (64 - Z.to_nat (q_offset q))%nat)
    by (rewrite length_drop; lia).
  destruct (decide (q_offset q + Z.of_nat j < 64)).
  - rewrite lookup_app_l by lia. rewrite lookup_drop, Z.mod_small by lia. f_equal. lia.
  - rewrite lookup_app_r, Hd by lia. rewrite lookup_take_lt by lia.
    rewrite <- (Z.mod_unique (q_offset q + Z.of_nat j) 64 1 (q_offset q + Z.of_nat j - 64)) by lia.
    f_equal. lia.
Qed.

(** The lists seen from another position of the ring. *)
Lemma slots_turn q z bits :
  queue_ok q -> 0 <= z < 64 ->
  slots (Queue bits ((q_offset q + z) mod 64) (q_anchors q) (q_anchor257 q))
  = drop (Z.to_nat z) (slots q) ++ take (Z.to_nat z) (slots q).
Proof.
  intros [_ Ho Hl _] Hz. unfold slots. cbn [q_offset q_anchors].
  set (o := Z.to_nat (q_offset q)). set (k := Z.to_nat z).
  assert (Hd : length (drop o (q_anchors q)) = (64 - o)%nat) by (rewrite length_drop; lia).
  destruct (decide (q_offset q + z < 64)).
  - rewrite Z.mod_small by lia. replace (Z.to_nat (q_offset q + z)) with (o + k)%nat by lia.
    rewrite drop_app_le, take_app_le by lia. rewrite drop_drop, <- app_assoc. f_equal.
    rewrite <- take_take_drop. reflexivity.
  - rewrite <- (Z.mod_unique (q_offset q + z) 64 1 (q_offset q + z - 64)) by lia.
    replace (Z.to_nat (q_offset q + z - 64)) with (k - (64 - o))%nat by lia.
    rewrite drop_app_ge, take_app_ge, Hd by lia. rewrite app_assoc.
    rewrite take_take, Nat.min_l by lia. f_equal.
    rewrite <- (take_drop o (q_anchors q)) at 1. rewrite drop_app_le by (rewrite length_take; lia).
    reflexivity.
Qed.

(** ** Bits *)

Lemma lor_bound a b : 0 <= a < 2 ^ 64 -> 0 <= b < 2 ^ 64 -> 0 <= Z.lor a b < 2 ^ 64.
Proof.
  intros Ha Hb. assert (H : Z.lor a b = Z.lor a b mod 2 ^ 64).
  { rewrite <- (Z.mod_small a (2 ^ 64)), <- (Z.mod_small b (2 ^ 64)) at 1 by lia.
    rewrite <- !Z.land_ones by lia. now rewrite Z.land_lor_distr_l. }
  rewrite H. apply Z.mod_pos_bound. lia.
Qed.

Lemma clear_first_mod bits : clear_first bits = bits mod 2 ^ 63.
Proof. apply land_mask. lia. Qed.

Lemma clear_first_spec bits j :
  0 <= j -> Z.testbit (clear_first bits) j = Z.testbit bits j && (j <? 63).
Proof.
  intros. rewrite clear_first_mod. destruct (Z.ltb_spec j 63).
  - rewrite Z.mod_pow2_bits_low by lia. now rewrite andb_true_r.
  - rewrite Z.mod_pow2_bits_high by lia. now rewrite andb_false_r.
Qed.

Lemma shl_spec bits z j :
  0 <= z -> 0 <= j < 64 -> Z.testbit (wrap64 (Z.shiftl bits z)) j = (z <=? j) && Z.testbit bits (j - z).
Proof.
  intros. unfold wrap64. rewrite Z.mod_pow2_bits_low, Z.shiftl_spec by lia.
  destruct (Z.leb_spec z j); [reflexivity|]. now rewrite Z.testbit_neg_r by lia.
Qed.

Lemma clzll_bounds bits :
  0 < bits < 2 ^ 64 -> 0 <= clzll bits < 64 /\ Z.testbit bits (63 - clzll bits) = true.
Proof.
  intros. unfold clzll. assert (Z.log2 bits < 64) by (apply Z.log2_lt_pow2; lia).
  pose proof (Z.log2_nonneg bits). split; [lia|].
  replace (63 - (63 - Z.log2 bits)) with (Z.log2 bits) by lia. apply Z.bit_log2. lia.
Qed.

Lemma clzll_above bits j : 0 < bits -> 63 - clzll bits < j -> Z.testbit bits j = false.
Proof. intros. apply Z.bits_above_log2; unfold clzll in *; lia. Qed.

(** The lists before the first set bit are empty. *)
Lemma cover_prefix q :
  queue_ok q -> 0 < q_bits q ->
  take (Z.to_nat (clzll (q_bits q))) (slots q) = replicate (Z.to_nat (clzll (q_bits q))) [].
Proof.
  intros Hq Hb. destruct (clzll_bounds (q_bits q)) as [Hz _]; [destruct Hq; lia|].
  apply list_eq_same_length with (Z.to_nat (clzll (q_bits q))).
  - now rewrite length_replicate.
  - rewrite length_take, length_slots, (ok_anchors _ Hq). lia.
  - intros i x y Hi Hx Hy. apply lookup_replicate in Hy as [-> _].
    rewrite lookup_take_lt in Hx by lia. destruct x as [|n x]; [reflexivity|].
    pose proof (ok_cover _ Hq i _ Hx ltac:(discriminate)) as Ht.
    rewrite clzll_above in Ht by lia. discriminate.
Qed.

(** The state of the loop with the position at the first set bit. *)
Definition turned (q : queue) : queue :=
  Queue (wrap64 (Z.shiftl (q_bits q) (clzll (q_bits q)))) ((q_offset q + clzll (q_bits q)) mod 64)
    (q_anchors q) (q_anchor257 q).

Lemma turned_ok q :
  queue_ok q -> 0 < q_bits q ->
  queue_ok (turned q) /\
  exists ls, slots q = replicate (Z.to_nat (clzll (q_bits q))) [] ++ ls /\
             slots (turned q) = ls ++ replicate (Z.to_nat (clzll (q_bits q))) [].
Proof.
  intros Hq Hb. pose proof (cover_prefix q Hq Hb) as Hp.
  destruct (clzll_bounds (q_bits q)) as [Hz _]; [destruct Hq; lia|].
  pose proof (slots_turn q (clzll (q_bits q)) (wrap64 (Z.shiftl (q_bits q) (clzll (q_bits q)))) Hq Hz) as Hs.
  change (slots (turned q) = drop (Z.to_nat (clzll (q_bits q))) (slots q) ++ take (Z.to_nat (clzll (q_bits q))) (slots q)) in Hs.
  set (z := clzll (q_bits q)) in *. split.
  - split; [apply Z.mod_pos_bound; lia | apply Z.mod_pos_bound; lia | apply (ok_anchors _ Hq) |].
    intros i l Hl Hne. cbn [turned q_bits]. fold z.
    assert (Hi : (i < 64)%nat).
    { apply lookup_lt_Some in Hl. rewrite length_slots in Hl. simpl in Hl. now rewrite (ok_anchors _ Hq) in Hl. }
    rewrite shl_spec by lia. rewrite Hs, Hp in Hl. apply lookup_app_Some in Hl as [Hl|[_ Hl]].
    + rewrite lookup_drop in Hl. pose proof (lookup_lt_Some _ _ _ Hl) as Hlt.
      rewrite length_slots, (ok_anchors _ Hq) in Hlt.
      pose proof (ok_cover _ Hq _ _ Hl Hne) as Ht.
      replace (63 - Z.of_nat i - z) with (63 - Z.of_nat (Z.to_nat z + i)) by lia.
      rewrite Ht. destruct (Z.leb_spec z (63 - Z.of_nat i)); [reflexivity|lia].
    + apply lookup_replicate in Hl as [-> _]. contradiction.
  - exists (drop (Z.to_nat z) (slots q)). rewrite Hs, Hp. split; [|reflexivity].
    rewrite <- Hp. symmetry. apply take_drop.
Qed.

(** ** Taking the first entry *)

(** The first entry of the lists, and the lists seen from the position of that entry. *)
Definition pops (ls : list (list ref_id)) (node : ref_id) (ls' : list (list ref_id)) : Prop :=
  exists i rest tl, ls = replicate i [] ++ (node :: rest) :: tl /\ ls' = rest :: tl ++ replicate i [].

Lemma pops_turn z ls node ls' : pops (ls ++ replicate z []) node ls' -> pops (replicate z [] ++ ls) node ls'.
Proof.
  intros (i & rest & tl & Hl & ->). symmetry in Hl.
  apply app_eq_app in Hl as [k [[_ Hk]|[-> Hk]]].
  - assert (Hin : node :: rest ∈ replicate z []) by (rewrite Hk; set_solver).
    apply elem_of_replicate in Hin as [? _]. discriminate.
  - destruct k as [|x k]; [destruct z; discriminate Hk|]. injection Hk as <- ->.
    exists (z + i)%nat, rest, k. rewrite replicate_add, <- !app_assoc. split; [reflexivity|].
    now rewrite <- !replicate_add, Nat.add_comm.
Qed.

Lemma all_empty_turn z ls : Forall (.= []) (ls ++ replicate z []) -> Forall (.= []) (replicate z ([] : list ref_id) ++ ls).
Proof. rewrite !Forall_app. tauto. Qed.

(** The outcome of taking an entry out of the ring. *)
Definition ring_popped (q : queue) (r : option ref_id) (q' : queue) : Prop :=
  queue_ok q' /\ q_anchor257 q' = q_anchor257 q /\
  match r with
  | Some node => pops (slots q) node (slots q')
  | None => Forall (.= []) (slots q) /\ Forall (.= []) (slots q') /\ q_bits q' = 0
  end.

Lemma ring_popped_turned q r q' :
  queue_ok q -> 0 < q_bits q -> ring_popped (turned q) r q' -> ring_popped q r q'.
Proof.
  intros Hq Hb (Hq' & H257 & Hr). destruct (turned_ok q Hq Hb) as (_ & ls & Hs & Ht).
  split; [assumption|]. split; [assumption|].
  rewrite Ht in Hr. rewrite Hs. destruct r.
  - now apply pops_turn.
  - destruct Hr as (Hr & ? & ?). auto using all_empty_turn.
Qed.

Definition cleared (q : queue) : queue := Queue (clear_first (q_bits q)) (q_offset q) (q_anchors q) (q_anchor257 q).

Lemma cleared_ok q : queue_ok q -> slots q !! 0%nat = Some [] -> queue_ok (cleared q).
Proof.
  intros Hq H0. split; try apply Hq.
  - simpl. rewrite clear_first_mod. pose proof (Z.mod_pos_bound (q_bits q) (2 ^ 63)). lia.
  - intros i l Hl Hne. cbn [cleared q_bits]. change (slots q !! i = Some l) in Hl.
    assert (i <> 0%nat) by (intros ->; congruence).
    pose proof (lookup_lt_Some _ _ _ Hl) as Hlt. rewrite length_slots, (ok_anchors _ Hq) in Hlt.
    rewrite clear_first_spec, (ok_cover _ Hq _ _ Hl Hne) by lia.
    destruct (Z.ltb_spec (63 - Z.of_nat i) 63); [reflexivity|lia].
Qed.

Lemma take_first q node rest :
  queue_ok q -> slots q !! 0%nat = Some (node :: rest) ->
  ring_popped q (Some node)
    (Queue (if is_nil rest then clear_first (q_bits q) else q_bits q) (q_offset q)
       (<[Z.to_nat (q_offset q) := rest]> (q_anchors q)) (q_anchor257 q)).
Proof.
  intros Hq H0. set (q' := Queue _ _ _ _). pose proof (ok_offset _ Hq) as Ho.
  pose proof (ok_anchors _ Hq) as Hl.
  assert (Hs : slots q' = <[0%nat := rest]> (slots q)).
  { unfold slots. cbn [q' q_offset q_anchors]. rewrite take_insert_ge by lia.
    rewrite drop_insert_ge, Nat.sub_diag by lia.
    rewrite insert_app_l; [reflexivity|]. rewrite length_drop. lia. }
  destruct (slots q) as [|l tl] eqn:E; simplify_eq/=. split; [|split; [reflexivity|]].
  - split; simpl.
    + rewrite clear_first_mod. pose proof (Z.mod_pos_bound (q_bits q) (2 ^ 63)).
      pose proof (ok_bits _ Hq). destruct (is_nil rest); lia.
    + assumption.
    + now rewrite length_insert.
    + rewrite Hs. intros [|i] l Hi Hne; simplify_eq/=.
      * destruct l as [|n l]; [contradiction|]. simpl.
        apply (ok_cover _ Hq 0%nat (node :: n :: l)); [now rewrite E|discriminate].
      * assert (Hi' : slots q !! S i = Some l) by now rewrite E.
        pose proof (lookup_lt_Some _ _ _ Hi') as Hlt. rewrite length_slots, Hl in Hlt.
        pose proof (ok_cover _ Hq _ _ Hi' Hne) as Ht.
        destruct (is_nil rest); [|assumption]. rewrite clear_first_spec, Ht by lia.
        destruct (Z.ltb_spec (63 - Z.of_nat (S i)) 63); [reflexivity|lia].
  - exists 0%nat, rest, tl. rewrite E. simpl. rewrite app_nil_r. now rewrite Hs.
Qed.

(** The bits that are left after some turns: none at the bottom, since every turn shifts. *)
Definition bits_left (f : nat) (bits : Z) : Prop :=
  f = 64%nat \/ bits < 2 ^ 63 /\ forall j, 0 <= j < 63 - Z.of_nat f -> Z.testbit bits j = false.

Lemma bits_left_step f bits :
  0 < bits < 2 ^ 64 -> bits_left (S f) bits ->
  bits_left f (clear_first (wrap64 (Z.shiftl bits (clzll bits)))).
Proof.
  intros Hb Hl. right. split.
  { rewrite clear_first_mod. apply Z.mod_pos_bound. lia. }
  intros j Hj. destruct (clzll_bounds bits Hb) as [Hz _].
  rewrite clear_first_spec, shl_spec by lia.
  destruct Hl as [Hf|[Hlt Hlow]]; [lia|].
  assert (1 <= clzll bits).
  { unfold clzll. assert (Z.log2 bits < 63) by (apply Z.log2_lt_pow2; lia). lia. }
  destruct (Z.leb_spec (clzll bits) j); [|reflexivity]. now rewrite Hlow by lia.
Qed.

Lemma bits_left_done bits : 0 <= bits -> bits_left 0 bits -> bits = 0.
Proof.
  intros Hb [Hf|[Hlt Hlow]]; [discriminate|]. apply Z.bits_inj'. intros j Hj. rewrite Z.bits_0.
  destruct (decide (j < 63)); [apply Hlow; lia|].
  rewrite <- (Z.mod_small bits (2 ^ 63)) by lia. apply Z.mod_pow2_bits_high. lia.
Qed.

Lemma empty_ring q : queue_ok q -> q_bits q = 0 -> Forall (.= []) (slots q).
Proof.
  intros Hq Hb. apply Forall_lookup. intros i l Hl. destruct l as [|n l]; [reflexivity|].
  pose proof (ok_cover _ Hq _ _ Hl ltac:(discriminate)) as Ht. rewrite Hb, Z.bits_0 in Ht. discriminate.
Qed.

Lemma empty_popped q : queue_ok q -> q_bits q = 0 -> ring_popped q None q.
Proof. intros Hq Hb. pose proof (empty_ring q Hq Hb). unfold ring_popped. tauto. Qed.

Lemma pop_loop_ok f q :
  queue_ok q -> bits_left f (q_bits q) ->
  exists r q', queue_pop_loop f q = Some (r, q') /\ ring_popped q r q'.
Proof.
  revert q. induction f as [|f IH]; intros q Hq Hf; pose proof (ok_bits _ Hq) as Hb; simpl.
  - apply bits_left_done in Hf; [|lia]. rewrite Hf. exists None, q. auto using empty_popped.
  - destruct (Z.eqb_spec (q_bits q) 0) as [E|E].
    { exists None, q. auto using empty_popped. }
    destruct (turned_ok q Hq ltac:(lia)) as [Ht _].
    pose proof (slots_lookup _ 0%nat (ok_offset _ Ht) (ok_anchors _ Ht) ltac:(lia)) as H0.
    rewrite Z.add_0_r, Z.mod_small in H0 by apply Ht. cbn [turned q_anchors q_offset] in H0.
    destruct (q_anchors q !! Z.to_nat _) as [[|node rest]|] eqn:Ea.
    + destruct (IH (cleared (turned q))) as (r & q' & Hr & Hp).
      { now apply cleared_ok. }
      { apply bits_left_step; [lia|assumption]. }
      exists r, q'. split; [exact Hr|]. now apply ring_popped_turned; [|lia|].
    + eexists _, _. split; [reflexivity|]. apply ring_popped_turned; [assumption|lia|].
      now apply (take_first (turned q)).
    + apply lookup_ge_None in H0. rewrite length_slots, (ok_anchors _ Ht) in H0. lia.
Qed.

(** ** Putting an entry *)

Definition link_offset (deficit weight : Z) : Z := (offset_of weight + deficit) / 65536.

Lemma offset_of_bounds weight : 1 <= weight <= 256 -> 16128 <= offset_of weight <= 63 * 65536.
Proof.
  intros Hw.
  assert (H : forallb (fun w => (16128 <=? offset_of w) && (offset_of w <=? 63 * 65536)) (seqZ 1 256) = true)
    by (vm_compute; reflexivity).
  rewrite forallb_forall in H. specialize (H weight).
  rewrite <- list_elem_of_In, elem_of_seqZ in H. specialize (H ltac:(lia)). lia.
Qed.

Lemma link_offset_bounds deficit weight :
  1 <= weight <= 256 -> 0 <= deficit < 65536 ->
  0 <= link_offset deficit weight < 64 /\ wrap64 (offset_of weight + deficit) = offset_of weight + deficit.
Proof.
  intros Hw Hd. pose proof (offset_of_bounds weight Hw). unfold link_offset. split; [|apply wrap64_small; lia].
  split; [apply Z.div_pos; lia|]. apply Z.div_lt_upper_bound; lia.
Qed.

(** The queue with the entry at the end of a list. *)
Lemma queue_link_ok q node deficit weight :
  queue_ok q -> 1 <= weight <= 256 -> 0 <= deficit < 65536 ->
  exists q', queue_link q node deficit weight = Some (q', (offset_of weight + deficit) mod 65536) /\
    queue_ok q' /\ q_anchor257 q' = q_anchor257 q /\ q_offset q' = q_offset q /\
    slots q' = alter (.++ [node]) (Z.to_nat (link_offset deficit weight)) (slots q).
Proof.
  intros Hq Hw Hd. destruct (link_offset_bounds deficit weight Hw Hd) as [Ho Hwr].
  unfold queue_link. destruct (Z.ltb_spec 256 weight); [lia|]. destruct (Z.ltb_spec weight 1); [lia|].
  rewrite Hwr. fold (link_offset deficit weight). eexists. split; [reflexivity|].
  set (off := link_offset deficit weight) in *. set (q' := Queue _ _ _ _).
  assert (Hs : slots q' = alter (.++ [node]) (Z.to_nat off) (slots q)).
  { apply list_eq. intros j. destruct (decide (j < 64)%nat) as [Hj|Hj].
    2:{ rewrite !lookup_ge_None_2; [reflexivity| |]; rewrite ?length_alter, length_slots; simpl;
        rewrite ?length_alter, (ok_anchors _ Hq); lia. }
    rewrite list_lookup_alter, !slots_lookup; simpl; rewrite ?length_alter; try apply Hq; try lia.
    rewrite list_lookup_alter.
    assert (Hmod : Z.to_nat ((q_offset q + off) mod 64) = Z.to_nat ((q_offset q + Z.of_nat j) mod 64)
                   <-> Z.to_nat off = j).
    { pose proof (ok_offset _ Hq). Z.to_euclidean_division_equations. lia. }
    repeat case_decide; subst; rewrite ?Z2Nat.id by lia; first [reflexivity | tauto | lia]. }
  pose proof (ok_bits _ Hq) as Hb. split; [|auto]. split.
  - apply lor_bound; [assumption|]. apply Z.mod_pos_bound. lia.
  - apply Hq.
  - simpl. rewrite length_alter. apply Hq.
  - rewrite Hs. intros i l Hl Hne. cbn [q' q_bits].
    pose proof (lookup_lt_Some _ _ _ Hl) as Hi. rewrite length_alter, length_slots, (ok_anchors _ Hq) in Hi.
    rewrite Z.lor_spec, shl_spec by lia. rewrite list_lookup_alter in Hl. case_decide.
    + subst i. rewrite Z2Nat.id, (proj2 (Z.leb_le _ _)) by lia.
      replace (63 - off - (64 - 1 - off)) with 0 by lia. now rewrite orb_true_r.
    + now rewrite (ok_cover _ Hq _ _ Hl Hne).
Qed.

Lemma queue_link_257 q node deficit weight :
  256 < weight ->
  queue_link q node deficit weight
  = Some (Queue (q_bits q) (q_offset q) (q_anchors q) (q_anchor257 q ++ [node]), deficit).
Proof. intros. unfold queue_link. now rewrite (proj2 (Z.ltb_lt _ _)) by lia. Qed.

Lemma slots_unlink q node : slots (queue_unlink q node) = map (filter (.≠ node)) (slots q).
Proof. unfold slots. simpl. now rewrite skipn_map, firstn_map, map_app. Qed.

Lemma queue_unlink_ok q node : queue_ok q -> queue_ok (queue_unlink q node).
Proof.
  intros [Hb Ho Hl Hc]. split; simpl; try assumption.
  - now rewrite length_map.
  - rewrite slots_unlink. intros i l Hi Hne.
    apply list_lookup_fmap_Some in Hi as (l0 & -> & Hi).
    apply (Hc _ _ Hi). intros ->. now apply Hne.
Qed.

Lemma queue_ok_257 q l : queue_ok q -> queue_ok (Queue (q_bits q) (q_offset q) (q_anchors q) l).
Proof. intros [Hb Ho Hl Hc]. split; assumption. Qed.

Lemma queue_init_ok : queue_ok queue_init.
Proof.
  split; simpl; try lia. change (slots queue_init) with (replicate 64 ([] : list ref_id)).
  intros i l Hl Hne. by apply lookup_replicate in Hl as [-> _].
Qed.

(** ** A stable priority queue

    The entries in the order in which they are served, each with its distance from the position
    of the ring; an entry of weight 257 comes before all others. *)

Abbreviation pq := (list (Z * ref_id)).

Fixpoint keys_from (k : Z) (ls : list (list ref_id)) : pq :=
  match ls with
  | [] => []
  | l :: ls => map (pair k) l ++ keys_from (k + 1) ls
  end.

Definition queue_view (q : queue) : pq := map (pair (-1)) (q_anchor257 q) ++ keys_from 0 (slots q).

(** Behind the entries that are due not later. *)
Definition pq_insert (k : Z) (node : ref_id) (v : pq) : pq :=
  filter (fun e => e.1 <= k) v ++ (k, node) :: filter (fun e => k < e.1) v.

(** The first entry; the position moves to it. *)
Definition pq_pop (v : pq) : option ref_id * pq :=
  match v with
  | [] => (None, [])
  | (k, node) :: v => (Some node, map (fun e => (e.1 - Z.max 0 k, e.2)) v)
  end.

(** The distance at which an entry is put. *)
Definition link_key (deficit weight : Z) : Z := if 256 <? weight then -1 else link_offset deficit weight.

Lemma keys_from_range k ls e : e ∈ keys_from k ls -> k <= e.1 < k + len ls.
Proof.
  revert k. induction ls as [|l ls IH]; intros k He; simpl in He; [set_solver|].
  rewrite len_cons. pose proof (len_nonneg ls). apply elem_of_app in He as [He|He].
  - apply list_elem_of_fmap in He as (n & -> & _). simpl. lia.
  - apply IH in He. lia.
Qed.

Lemma filter_none {A} (P : A -> Prop) `{forall x, Decision (P x)} (l : list A) : (forall x, x ∈ l -> ~ P x) -> filter P l = [].
Proof.
  induction l as [|x l IH]; intros Hl; [reflexivity|].
  rewrite filter_cons_False by (apply Hl; set_solver). apply IH. set_solver.
Qed.

(** Below the entries of a part of the queue. *)
Lemma pq_insert_above k node u v :
  (forall e, e ∈ u -> e.1 <= k) -> pq_insert k node (u ++ v) = u ++ pq_insert k node v.
Proof.
  intros Hu. unfold pq_insert. rewrite !filter_app, (filter_all _ u) by assumption.
  rewrite (filter_none (fun e => k < e.1) u), <- app_assoc; [reflexivity|].
  intros e He. specialize (Hu e He). lia.
Qed.

Lemma pq_insert_below k node v : (forall e, e ∈ v -> k < e.1) -> pq_insert k node v = (k, node) :: v.
Proof.
  intros Hv. unfold pq_insert. rewrite (filter_all (fun e => k < e.1)) by assumption.
  rewrite filter_none; [reflexivity|]. intros e He. specialize (Hv e He). lia.
Qed.

Lemma keys_of (k : Z) (l : list ref_id) e : e ∈ map (pair k) l -> e.1 = k.
Proof. intros (n & -> & _)%list_elem_of_fmap. reflexivity. Qed.

Lemma keys_from_insert k i node ls :
  (i < length ls)%nat ->
  keys_from k (alter (.++ [node]) i ls) = pq_insert (k + Z.of_nat i) node (keys_from k ls).
Proof.
  revert k i. induction ls as [|l ls IH]; intros k i Hi; simpl in Hi; [lia|].
  destruct i as [|i].
  - simpl. rewrite Z.add_0_r, pq_insert_above by (intros e He; rewrite (keys_of _ _ _ He); lia).
    rewrite pq_insert_below, map_app, <- app_assoc; [reflexivity|].
    intros e He. apply keys_from_range in He. lia.
  - change (alter (.++ [node]) (S i) (l :: ls)) with (l :: alter (.++ [node]) i ls).
    cbn [keys_from].
    rewrite pq_insert_above by (intros e He; rewrite (keys_of _ _ _ He); lia).
    rewrite IH by lia. do 2 f_equal. lia.
Qed.

Lemma keys_from_app k ls ls' : keys_from k (ls ++ ls') = keys_from k ls ++ keys_from (k + len ls) ls'.
Proof.
  revert k. induction ls as [|l ls IH]; intros k; simpl.
  - f_equal. unfold len. simpl. lia.
  - rewrite IH, app_assoc, len_cons. do 2 f_equal. lia.
Qed.

Lemma keys_from_empty k ls : Forall (.= []) ls -> keys_from k ls = [].
Proof. intros Hl. revert k. induction Hl as [|l ls -> _ IH]; intros k; simpl; auto. Qed.

Lemma keys_from_shift k d ls : map (fun e => (e.1 - d, e.2)) (keys_from k ls) = keys_from (k - d) ls.
Proof.
  revert k. induction ls as [|l ls IH]; intros k; simpl; [reflexivity|].
  rewrite map_app, map_map, IH. do 2 f_equal. lia.
Qed.

Lemma keys_from_filter k node ls :
  keys_from k (map (filter (.≠ node)) ls) = filter (fun e => e.2 <> node) (keys_from k ls).
Proof.
  revert k. induction ls as [|l ls IH]; intros k; simpl; [reflexivity|].
  rewrite IH, filter_app. f_equal. clear. induction l as [|n l IH]; simpl; [reflexivity|].
  rewrite !filter_cons. simpl. repeat case_decide; simpl; now rewrite ?IH.
Qed.

Lemma pops_view node ls ls' :
  pops ls node ls' -> pq_pop (keys_from 0 ls) = (Some node, keys_from 0 ls').
Proof.
  intros (i & rest & tl & -> & ->). rewrite keys_from_app, keys_from_empty by now apply Forall_replicate.
  simpl. f_equal. rewrite map_app, map_map, keys_from_shift. simpl.
  rewrite (keys_from_app _ tl), (keys_from_empty _ (replicate i [])) by now apply Forall_replicate.
  rewrite app_nil_r. unfold len. rewrite length_replicate. f_equal.
  - apply map_ext. intros. f_equal. lia.
  - f_equal. lia.
Qed.

Lemma queue_link_view q node deficit weight :
  queue_ok q -> 1 <= weight <= 257 -> 0 <= deficit < 65536 ->
  exists q' deficit', queue_link q node deficit weight = Some (q', deficit') /\ queue_ok q' /\
    0 <= deficit' < 65536 /\ queue_view q' = pq_insert (link_key deficit weight) node (queue_view q) /\
    (weight <= 256 -> link_key deficit weight * 65536 + deficit' = offset_of weight + deficit).
Proof.
  intros Hq Hw Hd. unfold link_key. destruct (Z.ltb_spec 256 weight) as [H|H].
  - rewrite queue_link_257 by assumption. eexists _, _. split; [reflexivity|].
    split; [now apply queue_ok_257|]. split; [assumption|]. split; [|lia]. unfold queue_view. cbn [q_anchor257].
    rewrite pq_insert_above by (intros e He; rewrite (keys_of _ _ _ He); lia).
    rewrite pq_insert_below, map_app, <- app_assoc; [reflexivity|].
    intros e He. apply keys_from_range in He. lia.
  - destruct (queue_link_ok q node deficit weight) as (q' & -> & Hq' & H257 & _ & Hs); [assumption|lia|assumption|].
    destruct (link_offset_bounds deficit weight) as [Ho _]; [lia|assumption|].
    eexists _, _. split; [reflexivity|]. split; [assumption|]. split; [apply Z.mod_pos_bound; lia|].
    split; [|intros _; unfold link_offset; rewrite Z.mul_comm; symmetry; apply Z.div_mod; lia].
    unfold queue_view. rewrite H257, Hs, keys_from_insert by (rewrite length_slots, (ok_anchors _ Hq); lia).
    rewrite pq_insert_above by (intros e He; rewrite (keys_of _ _ _ He); lia).
    do 2 f_equal. lia.
Qed.

Lemma queue_pop_view q :
  queue_ok q ->
  exists r q', queue_pop q = Some (r, q') /\ queue_ok q' /\ (r, queue_view q') = pq_pop (queue_view q) /\
    (r = None -> queue_is_empty q' = true).
Proof.
  intros Hq. unfold queue_pop, queue_view. destruct (q_anchor257 q) as [|node rest] eqn:E.
  - destruct (pop_loop_ok 64 q Hq) as (r & q' & Hr & Hq' & H257 & Hp); [now left|].
    rewrite E in H257. exists r, q'. rewrite H257. cbn [app map]. split; [exact Hr|]. clear Hr. split; [exact Hq'|].
    destruct r as [node|].
    + apply pops_view in Hp. rewrite Hp. split; [reflexivity|discriminate].
    + destruct Hp as (H1 & H2 & Hb). rewrite !keys_from_empty by assumption. split; [reflexivity|].
      unfold queue_is_empty. now rewrite Hb, H257.
  - eexists _, _. split; [reflexivity|]. split; [now apply queue_ok_257|]. split; [|discriminate].
    simpl. change (Z.max 0 (-1)) with 0. unfold queue_view. cbn [q_anchor257].
    rewrite map_app, map_map, keys_from_shift. reflexivity.
Qed.

Lemma queue_unlink_view q node : queue_view (queue_unlink q node) = filter (fun e => e.2 <> node) (queue_view q).
Proof.
  unfold queue_view. rewrite slots_unlink, filter_app, keys_from_filter. f_equal. simpl.
  generalize (q_anchor257 q). intros l. induction l as [|n l IH]; simpl; [reflexivity|].
  rewrite !filter_cons. simpl. repeat case_decide; simpl; now rewrite ?IH.
Qed.

Lemma queue_is_empty_view q : queue_ok q -> queue_is_empty q = true -> queue_view q = [].
Proof.
  intros Hq. unfold queue_is_empty, queue_view. intros [Hb Hn]%andb_prop. apply Z.eqb_eq in Hb.
  rewrite (keys_from_empty _ _ (empty_ring q Hq Hb)). destruct (q_anchor257 q); [reflexivity|discriminate].
Qed.

(** The ring of 64 lists with its bit field is a stable priority queue.  Putting an entry never
    fails and places it, first in first out, behind every entry that is due not later, at the
    distance of its weight and deficit (before all others for weight 257), and the distance and the
    deficit that is kept account for every unit of the offset; taking an entry ends, yields the first
    entry and moves the position to it, or tells that the queue is empty; taking out an entry removes
    it and nothing else; a queue reported as empty is empty. *)
Theorem queue_is_priority_queue q :
  queue_ok q ->
  (forall node deficit weight, 1 <= weight <= 257 -> 0 <= deficit < 65536 ->
     exists q' deficit', queue_link q node deficit weight = Some (q', deficit') /\ queue_ok q' /\
       0 <= deficit' < 65536 /\ queue_view q' = pq_insert (link_key deficit weight) node (queue_view q) /\
       (weight <= 256 -> link_key deficit weight * 65536 + deficit' = offset_of weight + deficit)) /\
  (exists r q', queue_pop q = Some (r, q') /\ queue_ok q' /\ (r, queue_view q') = pq_pop (queue_view q) /\
     (r = None -> queue_is_empty q' = true)) /\
  (forall node, queue_ok (queue_unlink q node) /\
     queue_view (queue_unlink q node) = filter (fun e => e.2 <> node) (queue_view q)) /\
  (queue_is_empty q = true -> queue_view q = []).
Proof.
  intros Hq. split; [|split; [|split]].
  - intros. now apply queue_link_view.
  - now apply queue_pop_view.
  - intros. auto using queue_unlink_ok, queue_unlink_view.
  - now apply queue_is_empty_view.
Qed.

Lemma queue_is_priority_queue_witness :
  queue_ok queue_init /\
  exists q d, queue_link queue_init 7%nat 100 16 = Some (q, d) /\ queue_view q = [(3, 7%nat)] /\ d = 61540.
Proof.
  split; [exact queue_init_ok|].
  destruct (queue_is_priority_queue queue_init queue_init_ok) as [H _].
  destruct (H 7%nat 100 16) as (q & d & Hl & _ & _ & Hv & Ho); [lia|lia|].
  exists q, d. split; [assumption|]. vm_compute in Hv. split; [assumption|].
  specialize (Ho ltac:(lia)). change (link_key 100 16) with 3 in Ho. change (offset_of 16) with 258048 in Ho. lia.
Defined.

(** ** Fair shares

    What a scheduler of streams that always have something to send does: the first entry is taken
    and put back with its weight. *)

Section Service.
Context (weight : ref_id -> Z).

Definition set_deficit (deficits : ref_id -> Z) (node : ref_id) (d : Z) (m : ref_id) : Z :=
  if decide (m = node) then d else deficits m.

Fixpoint serve (k : nat) (q : queue) (deficits : ref_id -> Z)
    : option (list ref_id * queue * (ref_id -> Z)) :=
  match k with
  | O => Some ([], q, deficits)
  | S k =>
      '(r, q) ← queue_pop q;
      node ← r;
      '(q, d) ← queue_link q node (deficits node) (weight node);
      '(served, q, deficits) ← serve k q (set_deficit deficits node d);
      Some (node :: served, q, deficits)
  end.

Definition times (m : ref_id) (served : list ref_id) : Z := len (filter (.= m) served).

(** The place of an entry on an axis on which the position of the ring moves by 65536 a list:
    where it was at the start, and an offset for each time that it was served. *)
Definition placed (now : Z) (start count deficits : ref_id -> Z) (v : pq) : Prop :=
  Forall (fun e => 0 <= e.1 < 64 /\ 0 <= deficits e.2 < 65536 /\
            ((now + e.1) * 65536 + deficits e.2 = start e.2 + count e.2 * offset_of (weight e.2))%Z) v.

Lemma pq_insert_perm k node v : pq_insert k node v ≡ₚ (k, node) :: v.
Proof.
  unfold pq_insert. rewrite <- Permutation_middle. constructor.
  induction v as [|e v IH]; [reflexivity|]. rewrite !filter_cons.
  repeat case_decide; try lia; simpl; rewrite <- ?Permutation_middle; now constructor.
Qed.

#[local] Instance placed_perm now start count deficits : Proper ((≡ₚ) ==> iff) (placed now start count deficits).
Proof. intros v v' Hv. unfold placed. now rewrite Hv. Qed.

Lemma view_range q e : queue_ok q -> q_anchor257 q = [] -> e ∈ queue_view q -> 0 <= e.1 < 64.
Proof.
  intros Hq H E. unfold queue_view in E. rewrite H in E. apply keys_from_range in E.
  unfold len in E. rewrite length_slots, (ok_anchors _ Hq) in E. lia.
Qed.

Lemma pop_257 q r q' : queue_ok q -> q_anchor257 q = [] -> queue_pop q = Some (r, q') -> q_anchor257 q' = [].
Proof.
  intros Hq H. unfold queue_pop. rewrite H.
  destruct (pop_loop_ok 64 q Hq) as (r0 & q0 & Hr & _ & H0 & _); [now left|].
  rewrite Hr. intros [= _ <-]. congruence.
Qed.

Lemma link_257 q node d w q' d' : w <= 256 -> queue_link q node d w = Some (q', d') -> q_anchor257 q' = q_anchor257 q.
Proof.
  intros Hw. unfold queue_link. destruct (Z.ltb_spec 256 w); [lia|].
  destruct (w <? 1); [discriminate|]. now intros [= <- _].
Qed.

(** The queue of entries that are all served by weight. *)
Record serving (now : Z) (start count deficits : ref_id -> Z) (q : queue) : Prop := {
  sv_ok : queue_ok q;
  sv_257 : q_anchor257 q = [];
  sv_nodup : NoDup (queue_view q).*2;
  sv_weights : Forall (fun n => 1 <= weight n <= 256) (queue_view q).*2;
  sv_placed : placed now start count deficits (queue_view q) }.

Lemma placed_moved now start count deficits v k node d :
  0 <= k -> node ∉ v.*2 -> Forall (fun e => k <= e.1) v -> placed now start count deficits v ->
  placed (now + k) start (fun m => count m + times m [node]) (set_deficit deficits node d)
    (map (fun e => (e.1 - k, e.2)) v).
Proof.
  unfold placed. rewrite !Forall_forall. intros Hk0 Hn Hk Hv e (e0 & -> & He)%list_elem_of_fmap.
  specialize (Hv _ He). specialize (Hk _ He). simpl.
  assert (e0.2 <> node) by (intros <-; apply Hn, list_elem_of_fmap; eauto).
  unfold set_deficit, times. rewrite filter_cons. repeat case_decide; try congruence.
  change (len (filter (.= e0.2) [])) with 0. rewrite Z.add_0_r.
  replace (now + k + (e0.1 - k)) with (now + e0.1) by lia. lia.
Qed.

Lemma serve_step now start count deficits q k node v :
  serving now start count deficits q -> queue_view q = (k, node) :: v ->
  exists q1 q2 d, queue_pop q = Some (Some node, q1) /\
    queue_link q1 node (deficits node) (weight node) = Some (q2, d) /\
    (queue_view q2).*2 ≡ₚ (queue_view q).*2 /\
    serving (now + k) start (fun m => count m + times m [node]) (set_deficit deficits node d) q2.
Proof.
  intros [Hq H257 Hnd Hw Hp] Hv. destruct (queue_pop_view q Hq) as (r & q1 & Hpop & Hq1 & Hr & _).
  pose proof (pop_257 _ _ _ Hq H257 Hpop) as H1.
  rewrite Hv in *. simpl in *. apply NoDup_cons in Hnd as [Hn Hnd]. apply Forall_cons in Hw as [Hwn Hw].
  pose proof Hp as [(Hk & Hd & Heq) Hpv]%Forall_cons. simpl in Hk, Hd, Heq.
  rewrite Z.max_r in Hr by lia. injection Hr as -> Hv1.
  destruct (queue_link_view q1 node (deficits node) (weight node)) as (q2 & d & Hl & Hq2 & Hd2 & Hv2 & Hoff);
    [assumption|lia|assumption|].
  specialize (Hoff ltac:(lia)). pose proof (link_257 _ _ _ _ _ _ (proj2 Hwn) Hl) as H2. rewrite H1 in H2.
  rewrite Hv1 in Hv2. assert (Hperm : queue_view q2 ≡ₚ (link_key (deficits node) (weight node), node)
                                        :: map (fun e => (e.1 - k, e.2)) v) by (rewrite Hv2; apply pq_insert_perm).
  assert (Hids : (queue_view q2).*2 ≡ₚ node :: v.*2).
  { rewrite Hperm. simpl. rewrite <- list_fmap_compose. reflexivity. }
  exists q1, q2, d. split; [assumption|]. split; [assumption|]. split; [assumption|].
  split; try assumption.
  - rewrite Hids. now constructor.
  - rewrite Hids. now constructor.
  - rewrite Hperm. constructor.
    + assert (Hlk : 0 <= link_key (deficits node) (weight node) < 64).
      { apply (view_range q2 (link_key (deficits node) (weight node), node) Hq2 H2). rewrite Hperm. left. }
      simpl. unfold set_deficit, times. rewrite filter_cons_True by reflexivity.
      rewrite decide_True by reflexivity. change (len (node :: filter (.= node) [])) with 1.
      split; [assumption|]. split; [assumption|]. nia.
    + apply placed_moved; try assumption; [lia|]. apply Forall_forall. intros e He.
      assert (Hs : (e.1 - k, e.2) ∈ queue_view q1) by (rewrite Hv1; apply list_elem_of_fmap; eauto).
      apply view_range in Hs; [|assumption..]. simpl in Hs. lia.
Qed.

Lemma times_cons m node served : times m (node :: served) = times m [node] + times m served.
Proof.
  unfold times. change (node :: served) with ([node] ++ served). now rewrite filter_app, len_app.
Qed.

Lemma serve_ok k now start count deficits q :
  serving now start count deficits q -> queue_view q <> [] ->
  exists served q' deficits' now' count', serve k q deficits = Some (served, q', deficits') /\
    length served = k /\ Forall (.∈ (queue_view q).*2) served /\ (queue_view q').*2 ≡ₚ (queue_view q).*2 /\
    (forall m, count' m = count m + times m served) /\ serving now' start count' deficits' q'.
Proof.
  revert now count deficits q. induction k as [|k IH]; intros now count deficits q Hs Hne.
  - exists [], q, deficits, now, count. simpl. split_and!; auto. intros m. change (times m []) with 0. lia.
  - destruct (queue_view q) as [|[key node] v] eqn:Hv; [contradiction|].
    destruct (serve_step _ _ _ _ _ _ _ _ Hs Hv) as (q1 & q2 & d & Hpop & Hlink & Hperm & Hs2).
    destruct (IH _ _ _ _ Hs2) as (served & q' & deficits' & now' & count' & Hrun & Hlen & Hall & Hperm' & Hc & Hs').
    { intros E. rewrite E, Hv in Hperm. now apply Permutation_nil_cons in Hperm. }
    rewrite Hv in Hperm. exists (node :: served), q', deficits', now', count'.
    cbn [serve]. rewrite Hpop. cbn [mbind option_bind]. rewrite Hlink. cbn [mbind option_bind]. rewrite Hrun.
    split; [reflexivity|]. split; [simpl; lia|]. split.
    { constructor; [simpl; left|]. rewrite Forall_forall in Hall |- *. intros n Hn.
      rewrite <- Hperm. now apply Hall. }
    split; [now rewrite Hperm'|]. split; [|assumption]. intros m. rewrite Hc, (times_cons m node served). lia.
Qed.

(** The queue as it is found: entries of weights 1 to 256, with their deficits. *)
Record queue_by_weight (q : queue) (deficits : ref_id -> Z) : Prop := {
  bw_ok : queue_ok q;
  bw_257 : q_anchor257 q = [];
  bw_nodup : NoDup (queue_view q).*2;
  bw_weights : Forall (fun n => 1 <= weight n <= 256 /\ 0 <= deficits n < 65536) (queue_view q).*2 }.

Lemma placed_start deficits v :
  NoDup v.*2 -> Forall (fun e => 0 <= e.1 < 64 /\ 0 <= deficits e.2 < 65536) v ->
  exists start, (forall n, n ∈ v.*2 -> 0 <= start n < 64 * 65536) /\ placed 0 start (fun _ => 0) deficits v.
Proof.
  induction v as [|e v IH]; intros Hnd Hall.
  - exists (fun _ => 0). split; [|constructor]. intros n Hn. now apply elem_of_nil in Hn.
  - apply NoDup_cons in Hnd as [Hn Hnd]. apply Forall_cons in Hall as [He Hall].
    destruct (IH Hnd Hall) as (start & Hr & Hp).
    exists (fun n => if decide (n = e.2) then e.1 * 65536 + deficits n else start n). split.
    + intros n Hin. case_decide as E; [subst n; lia|]. apply Hr.
      simpl in Hin. apply elem_of_cons in Hin as [?|?]; [contradiction|assumption].
    + constructor; [rewrite decide_True by reflexivity; lia|].
      unfold placed in Hp. rewrite Forall_forall in Hp |- *. intros e0 He0. specialize (Hp _ He0).
      rewrite decide_False; [assumption|]. intros E. apply Hn. rewrite <- E. apply list_elem_of_fmap. eauto.
Qed.

Lemma serve_balanced k q deficits :
  queue_by_weight q deficits -> queue_view q <> [] ->
  exists served q' deficits', serve k q deficits = Some (served, q', deficits') /\ length served = k /\
    Forall (.∈ (queue_view q).*2) served /\ queue_by_weight q' deficits' /\
    forall m n, m ∈ (queue_view q).*2 -> n ∈ (queue_view q).*2 ->
      Z.abs (times m served * offset_of (weight m) - times n served * offset_of (weight n)) < 2 ^ 23.
Proof.
  intros [Hq H257 Hnd Hw] Hne.
  destruct (placed_start deficits (queue_view q) Hnd) as (start & Hst & Hp).
  { rewrite Forall_fmap in Hw. eapply Forall_impl; [apply Forall_and; split; [apply Forall_forall; intros e; exact (view_range q e Hq H257)|exact Hw]|].
    simpl. tauto. }
  destruct (serve_ok k 0 start (fun _ => 0) deficits q) as
    (served & q' & deficits' & now & count & Hrun & Hlen & Hall & Hperm & Hc & [Hq' H257' Hnd' Hw' Hp']); [|assumption|].
  { split; try assumption. eapply Forall_impl; [exact Hw|]. simpl. tauto. }
  exists served, q', deficits'. split; [assumption|]. split; [assumption|]. split; [assumption|].
  unfold placed in Hp'. rewrite Forall_forall in Hp'. split.
  { split; try assumption. rewrite Forall_forall in Hw' |- *. intros n Hn. split; [auto|].
    apply list_elem_of_fmap in Hn as (e & -> & He). apply Hp' in He. tauto. }
  intros m n Hm Hn. pose proof (Hst _ Hm). pose proof (Hst _ Hn). rewrite <- Hperm in Hm, Hn.
  apply list_elem_of_fmap in Hm as (em & -> & Hm), Hn as (en & -> & Hn).
  apply Hp' in Hm, Hn. rewrite Hc in Hm, Hn. lia.
Qed.
End Service.

(** The table holds the rounded quotients of 63 lists by the weight. *)
Lemma offset_of_exact weight : 1 <= weight <= 256 -> 2 * Z.abs (offset_of weight * weight - 63 * 65536) <= weight.
Proof.
  intros Hw.
  assert (H : forallb (fun w => 2 * Z.abs (offset_of w * w - 63 * 65536) <=? w) (seqZ 1 256) = true)
    by (vm_compute; reflexivity).
  rewrite forallb_forall in H. specialize (H weight).
  rewrite <- list_elem_of_In, elem_of_seqZ in H. specialize (H ltac:(lia)). lia.
Qed.


Definition example_weight (n : ref_id) : Z := match n with 1%nat => 16 | 2%nat => 256 | _ => 1 end.

Definition example_queue : queue :=
  match ('(q, _) ← queue_link queue_init 1%nat 0 16; '(q, _) ← queue_link q 2%nat 0 256; Some q) with
  | Some q => q
  | None => queue_init
  end.

Lemma example_by_weight : queue_by_weight example_weight example_queue (fun _ => 0) /\ queue_view example_queue <> [].
Proof.
  destruct (queue_link_view queue_init 1%nat 0 16 queue_init_ok) as (q1 & d1 & H1 & Hq1 & _); [lia|lia|].
  destruct (queue_link_view q1 2%nat 0 256 Hq1) as (q2 & d2 & H2 & Hq2 & _); [lia|lia|].
  assert (example_queue = q2) as ->.
  { unfold example_queue. rewrite H1. cbn [mbind option_bind]. now rewrite H2. }
  vm_compute in H1. injection H1 as <- <-. vm_compute in H2. injection H2 as <- <-. split; [|vm_compute; discriminate].
  split; [assumption|reflexivity| |];
    (replace (_.*2) with [2%nat; 1%nat] by (vm_compute; reflexivity)); repeat constructor; try set_solver; simpl; lia.
Qed.

Lemma example_in : 1%nat ∈ (queue_view example_queue).*2 /\ 2%nat ∈ (queue_view example_queue).*2.
Proof. replace (_.*2) with [2%nat; 1%nat] by (vm_compute; reflexivity). set_solver. Qed.


Lemma length_by_times (ids served : list ref_id) b :
  Forall (.∈ ids) served -> Forall (fun m => times m served <= b) ids -> len served <= b * len ids.
Proof.
  revert served. induction ids as [|m ids IH]; intros served Hs Hb.
  - destruct served as [|n served]; [rewrite !len_nil; lia|]. apply Forall_cons in Hs as [Hn _]. now apply elem_of_nil in Hn.
  - apply Forall_cons in Hb as [Hm Hb]. rewrite len_cons.
    specialize (IH (filter (.≠ m) served)).
    assert (Hlen : len served = times m served + len (filter (.≠ m) served)).
    { clear. unfold times. induction served as [|n served IH]; [reflexivity|].
      rewrite !filter_cons. repeat case_decide; try contradiction; rewrite !len_cons; lia. }
    assert (Hle : len (filter (.≠ m) served) <= b * len ids).
    { apply IH.
      - rewrite Forall_forall in Hs |- *. intros n [Hne Hn]%list_elem_of_filter.
        specialize (Hs _ Hn). apply elem_of_cons in Hs as [?|?]; [contradiction|assumption].
      - eapply Forall_impl; [exact Hb|]. intros n Hn. unfold times in Hn |- *.
        assert (len (filter (.= n) (filter (.≠ m) served)) <= len (filter (.= n) served)); [|lia].
        clear. induction served as [|x served IH]; [vm_compute; discriminate|]. rewrite !filter_cons.
        repeat case_decide; rewrite ?filter_cons; repeat case_decide; rewrite ?len_cons; try contradiction; lia. }
    lia.
Qed.

(** No entry starves: whatever the weights, each of [n] entries is served within [520 * n + 1]
    rounds. *)
Theorem no_starvation weight k q deficits node :
  queue_by_weight weight q deficits -> node ∈ (queue_view q).*2 -> 520 * len (queue_view q) < Z.of_nat k ->
  exists served q' deficits', serve weight k q deficits = Some (served, q', deficits') /\ node ∈ served.
Proof.
  intros Hq Hn Hk. destruct (serve_balanced weight k q deficits Hq) as (served & q' & d' & Hr & Hl & Hin & _ & Hb).
  { intros E. rewrite E in Hn. now apply elem_of_nil in Hn. }
  exists served, q', d'. split; [assumption|].
  destruct (decide (node ∈ served)) as [|Hno]; [assumption|]. exfalso.
  assert (H0 : times node served = 0).
  { unfold times. rewrite filter_none; [reflexivity|]. now intros x Hx ->. }
  assert (Hle : len served <= 520 * len (queue_view q).*2).
  { apply length_by_times; [assumption|]. apply Forall_forall. intros m Hm. specialize (Hb m node Hm Hn).
    rewrite H0 in Hb. pose proof (bw_weights _ _ _ Hq) as Hw. rewrite Forall_forall in Hw.
    pose proof (offset_of_bounds (weight m) (proj1 (Hw m Hm))). nia. }
  unfold len in *. rewrite length_fmap in Hle. lia.
Qed.

Lemma no_starvation_witness :
  exists served q' deficits', serve example_weight 1041 example_queue (fun _ => 0) = Some (served, q', deficits') /\
    1%nat ∈ served.
Proof.
  destruct example_by_weight as [Hq _].
  apply (no_starvation example_weight 1041 example_queue (fun _ => 0) 1 Hq);
    [apply example_in | vm_compute; reflexivity].
Defined.
