(* ===== verification/Scheduler.v ===== *)
(** * The HTTP/2 scheduler: the dependency tree (lib/http2/scheduler.c)

    A node for the connection (the root) and one for every stream, each with the list of its
    dependents and the queue of those that are active or have active streams below them.

    Nodes are named by numbers.  A list linked by [h2o_linklist_t] is the list of its members (the
    pointers are the subject of Linklist.v), so that unlinking a member takes it out of the list it
    is in, wherever that is, and a link is in use when some list has it.  [None] is a failed
    assertion, a NULL dereference, or a loop that does not end; the counters count objects in
    memory and do not wrap. *)
From S2P Require Import Prelude SchedQueue.
From Stdlib Require Import ZArith Lia.
From stdpp Require Import base list numbers option gmap.
Open Scope Z_scope.

(** [h2o_http2_scheduler_node_t] *)
Record node := Node {
  n_parent : option ref_id;
  n_all_refs : list ref_id;
  n_queue : option queue }.

(** The members of [h2o_http2_scheduler_openref_t] besides the node. *)
Record openref := OpenRef {
  r_weight : Z;
  r_active_cnt : Z;
  r_self_is_active : bool;
  r_deficit : Z;
  r_is_relocated : bool }.

Record sched := Sched {
  s_node : gmap ref_id node;
  s_ref : gmap ref_id openref }.

Definition upd_node (s : sched) (i : ref_id) (f : node -> node) : sched := Sched (alter f i (s_node s)) (s_ref s).
Definition upd_ref (s : sched) (i : ref_id) (f : openref -> openref) : sched := Sched (s_node s) (alter f i (s_ref s)).

Definition set_parent (p : option ref_id) (n : node) : node := Node p (n_all_refs n) (n_queue n).
Definition set_all_refs (l : list ref_id) (n : node) : node := Node (n_parent n) l (n_queue n).
Definition set_queue (q : option queue) (n : node) : node := Node (n_parent n) (n_all_refs n) q.
Definition set_weight (w : Z) (r : openref) : openref :=
  OpenRef w (r_active_cnt r) (r_self_is_active r) (r_deficit r) (r_is_relocated r).
Definition set_active_cnt (c : Z) (r : openref) : openref :=
  OpenRef (r_weight r) c (r_self_is_active r) (r_deficit r) (r_is_relocated r).
Definition set_self_is_active (b : bool) (r : openref) : openref :=
  OpenRef (r_weight r) (r_active_cnt r) b (r_deficit r) (r_is_relocated r).
Definition set_ref_deficit (d : Z) (r : openref) : openref :=
  OpenRef (r_weight r) (r_active_cnt r) (r_self_is_active r) d (r_is_relocated r).

(** ** The lists *)

Definition queue_ids (q : option queue) : list ref_id :=
  match q with
  | None => []
  | Some q => (queue_view q).*2
  end.

(** [h2o_linklist_is_linked(&ref->_queue_node._link)] *)
Definition queue_linked (s : sched) (ref : ref_id) : bool :=
  bool_decide (map_Exists (fun _ n => ref ∈ queue_ids (n_queue n)) (s_node s)).

(** [h2o_linklist_is_linked(&ref->_all_link)] *)
Definition h2o_http2_scheduler_is_open (s : sched) (ref : ref_id) : bool :=
  bool_decide (map_Exists (fun _ n => ref ∈ n_all_refs n) (s_node s)).

Definition unlink_queue (s : sched) (ref : ref_id) : sched :=
  Sched ((fun n => set_queue ((fun q => queue_unlink q ref) <$> n_queue n) n) <$> s_node s) (s_ref s).

Definition unlink_all (s : sched) (ref : ref_id) : sched :=
  Sched ((fun n => set_all_refs (filter (.≠ ref) (n_all_refs n)) n) <$> s_node s) (s_ref s).

Definition insert_all (s : sched) (parent ref : ref_id) : sched :=
  upd_node s parent (fun n => set_all_refs (n_all_refs n ++ [ref]) n).

(** [queue_set(node->_queue, &ref->_queue_node, ref->weight)] *)
Definition queue_set (s : sched) (i ref : ref_id) : option sched :=
  if queue_linked s ref then None
  else
    n ← s_node s !! i;
    q ← n_queue n;
    r ← s_ref s !! ref;
    '(q, d) ← queue_link q ref (r_deficit r) (r_weight r);
    Some (upd_ref (upd_node s i (set_queue (Some q))) ref (set_ref_deficit d)).

Definition queue_unset (s : sched) (ref : ref_id) : option sched :=
  if queue_linked s ref then Some (unlink_queue s ref) else None.

(** The queue of the node is there afterwards. *)
Definition get_queue (s : sched) (i : ref_id) : sched :=
  upd_node s i (fun n => match n_queue n with None => set_queue (Some queue_init) n | Some _ => n end).

(** ** Counters *)

Fixpoint incr_active_cnt_loop (fuel : nat) (s : sched) (i : ref_id) : option sched :=
  match fuel with
  | O => None
  | S fuel =>
      n ← s_node s !! i;
      match n_parent n with
      | None => Some s
      | Some p =>
          r ← s_ref s !! i;
          let s := upd_ref s i (set_active_cnt (r_active_cnt r + 1)) in
          if negb (r_active_cnt r + 1 =? 1) then Some s
          else
            s ← queue_set (get_queue s p) p i;
            incr_active_cnt_loop fuel s p
      end
  end.

Fixpoint decr_active_cnt_loop (fuel : nat) (s : sched) (i : ref_id) : option sched :=
  match fuel with
  | O => None
  | S fuel =>
      n ← s_node s !! i;
      match n_parent n with
      | None => Some s
      | Some p =>
          r ← s_ref s !! i;
          let s := upd_ref s i (set_active_cnt (r_active_cnt r - 1)) in
          if negb (r_active_cnt r - 1 =? 0) then Some s
          else
            s ← queue_unset s i;
            decr_active_cnt_loop fuel s p
      end
  end.

(** The path to the root has no more nodes than there are. *)
Definition incr_active_cnt (s : sched) (i : ref_id) : option sched := incr_active_cnt_loop (size (s_node s)) s i.
Definition decr_active_cnt (s : sched) (i : ref_id) : option sched := decr_active_cnt_loop (size (s_node s)) s i.

(** ** Moving in the tree *)

(** [do_rebind] without its last line. *)
Definition relink (s : sched) (ref new_parent : ref_id) : option sched :=
  n ← s_node s !! ref;
  r ← s_ref s !! ref;
  let s := insert_all (unlink_all s ref) new_parent ref in
  s ← (if negb (r_active_cnt r =? 0) then
         s ← queue_unset s ref;
         s ← queue_set (get_queue s new_parent) new_parent ref;
         old_parent ← n_parent n;
         s ← decr_active_cnt s old_parent;
         incr_active_cnt s new_parent
       else Some s);
  Some (upd_node s ref (set_parent (Some new_parent))).

(** The search of [ref] among the nodes above [t]. *)
Fixpoint depends_on (fuel : nat) (s : sched) (t ref : ref_id) : option bool :=
  match fuel with
  | O => None
  | S fuel =>
      n ← s_node s !! t;
      match n_parent n with
      | None => Some false
      | Some p => if bool_decide (p = ref) then Some true else depends_on fuel s p ref
      end
  end.

(** [h2o_http2_scheduler_rebind] up to its last line; [inl]: there is nothing to change. *)
Definition rebind_prepare (s : sched) (ref new_parent : ref_id) (weight : Z) (exclusive : bool)
    : option (sched + sched) :=
  if negb (h2o_http2_scheduler_is_open s ref) then None
  else if bool_decide (ref = new_parent) then None
  else if negb ((1 <=? weight) && (weight <=? 257)) then None
  else
    n ← s_node s !! ref;
    r ← s_ref s !! ref;
    if bool_decide (n_parent n = Some new_parent) && (r_weight r =? weight) && negb exclusive then Some (inl s)
    else
      let s := upd_ref s ref (set_weight weight) in
      if is_nil (n_all_refs n) then Some (inr s)
      else
        below ← depends_on (size (s_node s)) s new_parent ref;
        if (below : bool) then
          old_parent ← n_parent n;
          s ← relink s new_parent old_parent;
          Some (inr s)
        else Some (inr s).

(** [h2o_http2_scheduler_rebind] with [exclusive = 0]. *)
Definition rebind_shared (s : sched) (ref new_parent : ref_id) (weight : Z) : option sched :=
  r ← rebind_prepare s ref new_parent weight false;
  match r with
  | inl s => Some s
  | inr s => relink s ref new_parent
  end.

(** Every turn takes a dependent away from [parent]. *)
Fixpoint convert_to_exclusive_loop (fuel : nat) (s : sched) (parent added : ref_id) : option sched :=
  n ← s_node s !! parent;
  match n_all_refs n with
  | [] => Some s
  | child :: _ =>
      if bool_decide (child = added) then
        if bool_decide (last (n_all_refs n) = Some added) then Some s else None
      else
        match fuel with
        | O => None
        | S fuel =>
            r ← s_ref s !! child;
            s ← rebind_shared s child added (r_weight r);
            convert_to_exclusive_loop fuel s parent added
        end
  end.

Definition convert_to_exclusive (s : sched) (parent added : ref_id) : option sched :=
  n ← s_node s !! parent;
  convert_to_exclusive_loop (length (n_all_refs n)) s parent added.

Definition do_rebind (s : sched) (ref new_parent : ref_id) (exclusive : bool) : option sched :=
  s ← relink s ref new_parent;
  if exclusive then convert_to_exclusive s new_parent ref else Some s.

Definition h2o_http2_scheduler_rebind (s : sched) (ref new_parent : ref_id) (weight : Z) (exclusive : bool)
    : option sched :=
  r ← rebind_prepare s ref new_parent weight exclusive;
  match r with
  | inl s => Some s
  | inr s => do_rebind s ref new_parent exclusive
  end.

(** ** Opening and closing *)

Definition h2o_http2_scheduler_init (root : ref_id) : sched := Sched {[ root := Node None [] None ]} ∅.

(** [ref] is not open: its links are overwritten. *)
Definition h2o_http2_scheduler_open (s : sched) (ref parent : ref_id) (weight : Z) (exclusive : bool) : option sched :=
  match s_node s !! ref with
  | Some _ => None
  | None =>
      if bool_decide (is_Some (s_node s !! parent)) then
        let s := Sched (<[ref := Node (Some parent) [] None]> (s_node s))
                   (<[ref := OpenRef weight 0 false 0 false]> (s_ref s)) in
        let s := insert_all s parent ref in
        if exclusive then convert_to_exclusive s parent ref else Some s
      else None
  end.

Definition total_weight_of (s : sched) (children : list ref_id) : Z :=
  fold_left (fun t c => wrap32 (t + default 0 (r_weight <$> s_ref s !! c))) children 0.

(** The weight of a dependent whose parent, of weight [weight], goes. *)
Definition split_weight (weight total_weight child_weight : Z) : Z :=
  let factor := wrap32 (wrap32 (weight * 65536) + total_weight / 2) / total_weight in
  let w := wrap16 (wrap32 (wrap32 (child_weight * factor) / 32768 + 1) / 2) in
  if w <? 1 then 1 else if 256 <? w then 256 else w.

(** Every turn takes a dependent away from [ref]. *)
Fixpoint raise_loop (fuel : nat) (s : sched) (ref parent : ref_id) (weight total_weight : Z) : option sched :=
  n ← s_node s !! ref;
  match n_all_refs n with
  | [] => Some s
  | child :: _ =>
      match fuel with
      | O => None
      | S fuel =>
          r ← s_ref s !! child;
          s ← rebind_shared s child parent (split_weight weight total_weight (r_weight r));
          raise_loop fuel s ref parent weight total_weight
      end
  end.

(** The openref, which is in no list any more, is the caller's again: it is not looked at before it
    is opened anew. *)
Definition forget (s : sched) (ref : ref_id) : sched := Sched (delete ref (s_node s)) (delete ref (s_ref s)).

Definition h2o_http2_scheduler_close (s : sched) (ref : ref_id) : option sched :=
  if negb (h2o_http2_scheduler_is_open s ref) then None
  else
    n ← s_node s !! ref;
    r ← s_ref s !! ref;
    parent ← n_parent n;
    s ← (if is_nil (n_all_refs n) then Some s
         else
           let total_weight := total_weight_of s (n_all_refs n) in
           if total_weight =? 0 then None
           else raise_loop (length (n_all_refs n)) s ref parent (r_weight r) total_weight);
    let s := unlink_all (upd_node s ref (set_queue None)) ref in
    r ← s_ref s !! ref;
    if r_self_is_active r then
      if negb (r_active_cnt r =? 1) then None
      else
        s ← queue_unset s ref;
        decr_active_cnt (forget s ref) parent
    else if negb (r_active_cnt r =? 0) then None
    else Some (forget s ref).

(** In a list, the name of one member for that of another. *)
Definition rename (src dst : ref_id) (l : list ref_id) : list ref_id :=
  map (fun i => if decide (i = src) then dst else i) l.

Definition rename_queue (src dst : ref_id) (q : queue) : queue :=
  Queue (q_bits q) (q_offset q) (map (rename src dst) (q_anchors q)) (rename src dst (q_anchor257 q)).

(** [dst] takes the place of [src] in the lists, and the dependents of [src]. *)
Definition h2o_http2_scheduler_relocate (s : sched) (dst src : ref_id) : option sched :=
  n ← s_node s !! src;
  r ← s_ref s !! src;
  match s_node s !! dst with
  | Some _ => None
  | None =>
      if negb (forallb (fun c => bool_decide ((s_node s !! c ≫= n_parent) = Some src)) (n_all_refs n)) then None else
      let moved (i : ref_id) (m : node) : node :=
        Node (if bool_decide (i ∈ n_all_refs n) then Some dst else n_parent m)
          (rename src dst (n_all_refs m)) (rename_queue src dst <$> n_queue m) in
      let dst_node := Node (n_parent n) (n_all_refs n) (if is_nil (n_all_refs n) then None else n_queue n) in
      Some (Sched (<[dst := dst_node]> (delete src (map_imap (fun i m => Some (moved i m)) (s_node s))))
              (<[dst := OpenRef (r_weight r) (r_active_cnt r) (r_self_is_active r) (r_deficit r) true]>
                 (delete src (s_ref s))))
  end.

(** ** Activity *)

Definition h2o_http2_scheduler_deactivate (s : sched) (ref : ref_id) : option sched :=
  r ← s_ref s !! ref;
  if negb (r_self_is_active r) then Some s
  else decr_active_cnt (upd_ref s ref (set_self_is_active false)) ref.

Definition h2o_http2_scheduler_activate (s : sched) (ref : ref_id) : option sched :=
  r ← s_ref s !! ref;
  if r_self_is_active r then Some s
  else incr_active_cnt (upd_ref s ref (set_self_is_active true)) ref.

Definition h2o_http2_scheduler_is_active (s : sched) (root : ref_id) : option bool :=
  n ← s_node s !! root;
  Some (match n_queue n with None => false | Some q => negb (queue_is_empty q) end).

Definition h2o_http2_scheduler_get_weight (s : sched) (ref : ref_id) : option Z := r_weight <$> s_ref s !! ref.
Definition h2o_http2_scheduler_get_parent (s : sched) (ref : ref_id) : option (option ref_id) :=
  n_parent <$> s_node s !! ref.

(** The way down to the first dependents ends, since it goes through different nodes. *)
Fixpoint find_parent_loop (fuel : nat) (s : sched) (i : ref_id) (new_weight : Z) : option ref_id :=
  n ← s_node s !! i;
  match n_all_refs n with
  | [] => Some i
  | child :: _ =>
      r ← s_ref s !! child;
      if negb (r_is_relocated r) && (r_weight r <? new_weight) then Some i
      else
        match fuel with
        | O => None
        | S fuel => find_parent_loop fuel s child new_weight
        end
  end.

Definition h2o_http2_scheduler_find_parent_by_weight (s : sched) (root : ref_id) (new_weight : Z) : option ref_id :=
  find_parent_loop (size (s_node s)) s root new_weight.

(** ** Running

    The callback is a function of the stream and of what the caller keeps; it gives the value to
    return, whether the stream is still active, and does not change the tree while a stream is out
    of its queue ([emit_writereq_of_openref] of connection.c). *)
Section Run.
Context {A : Type} (cb : ref_id -> A -> Z * bool * A).

Fixpoint proceed_loop (fuel : nat) (s : sched) (i : ref_id) (a : A) : option (Z * sched * A) :=
  n ← s_node s !! i;
  match n_queue n with
  | None => Some (0, s, a)
  | Some q =>
      '(popped, q) ← queue_pop q;
      let s := upd_node s i (set_queue (Some q)) in
      match popped with
      | None => Some (0, s, a)
      | Some ref =>
          r ← s_ref s !! ref;
          if negb (r_self_is_active r) then
            s ← queue_set s i ref;
            match fuel with
            | O => None
            | S fuel => proceed_loop fuel s ref a
            end
          else if r_active_cnt r =? 0 then None
          else
            let '(bail_out, still_is_active, a) := cb ref a in
            s ← (if still_is_active then queue_set s i ref
                 else
                   let s := upd_ref s ref (fun r => set_active_cnt (r_active_cnt r - 1) (set_self_is_active false r)) in
                   if negb (r_active_cnt r - 1 =? 0) then queue_set s i ref
                   else
                     m ← s_node s !! ref;
                     match n_parent m with
                     | Some p => decr_active_cnt s p
                     | None => Some s
                     end);
            Some (bail_out, s, a)
      end
  end.

Definition proceed (s : sched) (i : ref_id) (a : A) : option (Z * sched * A) :=
  proceed_loop (size (s_node s)) s i a.

(** The loop ends when the callback has nothing left to send; the fuel is the caller's. *)
Fixpoint h2o_http2_scheduler_run (fuel : nat) (s : sched) (root : ref_id) (a : A) : option (Z * sched * A) :=
  active ← h2o_http2_scheduler_is_active s root;
  if negb active then Some (0, s, a)
  else
    match fuel with
    | O => None
    | S fuel =>
        '(bail_out, s, a) ← proceed s root a;
        if negb (bail_out =? 0) then Some (bail_out, s, a) else h2o_http2_scheduler_run fuel s root a
    end.
End Run.
