(* ===== verification/SchedulerInv.v ===== *)
(** * The HTTP/2 scheduler: its invariant

    The dependency tree is a tree; the dependents of a node are listed once; the queue of a node
    holds exactly the dependents that count as active; and the counter of an openref is the length
    of that queue, plus one if the stream is active itself. *)
From S2P Require Import Prelude SchedQueue Scheduler.
From Stdlib Require Import ZArith Lia.
From stdpp Require Import base list numbers option gmap.
Open Scope Z_scope.

(** ** The fields of a node *)

Definition parent_of (s : sched) (i : ref_id) : option ref_id := s_node s !! i ≫= n_parent.
Definition kids (s : sched) (i : ref_id) : list ref_id := default [] (n_all_refs <$> s_node s !! i).
Definition ids (s : sched) (i : ref_id) : list ref_id := queue_ids (s_node s !! i ≫= n_queue).
Definition cnt (s : sched) (i : ref_id) : Z := default 0 (r_active_cnt <$> s_ref s !! i).

(** What the counters do not change. *)
Definition ref_shape (r : openref) : Z * bool * bool := (r_weight r, r_self_is_active r, r_is_relocated r).
Definition node_shape (n : node) : option ref_id * list ref_id := (n_parent n, n_all_refs n).

Record same_shape (s s' : sched) : Prop := {
  sh_node : node_shape <$> s_node s' = node_shape <$> s_node s;
  sh_ref : ref_shape <$> s_ref s' = ref_shape <$> s_ref s }.

#[export] Instance same_shape_preorder : PreOrder same_shape.
Proof. split; [now split|]. intros s1 s2 s3 [] []. split; congruence. Qed.

Lemma sh_lookup s s' i : same_shape s s' -> node_shape <$> s_node s' !! i = node_shape <$> s_node s !! i.
Proof. intros [H _]. now rewrite <- !lookup_fmap, H. Qed.

Lemma sh_lookup_ref s s' i : same_shape s s' -> ref_shape <$> s_ref s' !! i = ref_shape <$> s_ref s !! i.
Proof. intros [_ H]. now rewrite <- !lookup_fmap, H. Qed.

Lemma sh_parent s s' i : same_shape s s' -> parent_of s' i = parent_of s i.
Proof.
  intros H. apply (sh_lookup _ _ i) in H. unfold parent_of.
  destruct (s_node s' !! i), (s_node s !! i); simplify_eq/=; congruence.
Qed.

Lemma sh_kids s s' i : same_shape s s' -> kids s' i = kids s i.
Proof.
  intros H. apply (sh_lookup _ _ i) in H. unfold kids.
  destruct (s_node s' !! i), (s_node s !! i); simplify_eq/=; congruence.
Qed.

Lemma sh_is_node s s' i : same_shape s s' -> is_Some (s_node s' !! i) <-> is_Some (s_node s !! i).
Proof. intros H. apply (sh_lookup _ _ i) in H. rewrite <- !(fmap_is_Some node_shape), H. reflexivity. Qed.

Lemma sh_is_ref s s' i : same_shape s s' -> is_Some (s_ref s' !! i) <-> is_Some (s_ref s !! i).
Proof. intros H. apply (sh_lookup_ref _ _ i) in H. rewrite <- !(fmap_is_Some ref_shape), H. reflexivity. Qed.

Lemma sh_size s s' : same_shape s s' -> size (s_node s') = size (s_node s).
Proof. intros [H _]. rewrite <- (map_size_fmap node_shape), H. apply map_size_fmap. Qed.

(** ** The effect of the operations on queues *)

Definition queues_wf (s : sched) : Prop := forall i q, s_node s !! i ≫= n_queue = Some q -> queue_ok q.

Lemma queue_linked_iff s c : queue_linked s c = true <-> exists j, c ∈ ids s j.
Proof.
  unfold queue_linked. rewrite bool_decide_eq_true. unfold map_Exists, ids. split.
  - intros (j & n & Hj & Hc). exists j. now rewrite Hj.
  - intros (j & Hc). destruct (s_node s !! j) as [n|] eqn:Hj; [|now apply elem_of_nil in Hc]. eauto.
Qed.

Lemma queue_linked_false s c : (forall j, c ∉ ids s j) -> queue_linked s c = false.
Proof.
  intros H. destruct (queue_linked s c) eqn:E; [|reflexivity].
  apply queue_linked_iff in E as [j Hj]. now destruct (H j).
Qed.

Lemma unlink_ids s c j : ids (unlink_queue s c) j = filter (.≠ c) (ids s j).
Proof.
  unfold ids, unlink_queue. simpl. rewrite lookup_fmap. destruct (s_node s !! j) as [n|]; [|reflexivity]. simpl.
  destruct (n_queue n) as [q|]; [|reflexivity]. simpl. rewrite queue_unlink_view.
  generalize (queue_view q). intros v. induction v as [|e v IH]; [reflexivity|].
  rewrite !filter_cons. simpl. rewrite filter_cons. case_decide; [simpl; f_equal|]; exact IH.
Qed.

Lemma unlink_shape s c : same_shape s (unlink_queue s c).
Proof. split; [|reflexivity]. simpl. rewrite <- map_fmap_compose. now apply map_fmap_ext. Qed.

Lemma unlink_wf s c : queues_wf s -> queues_wf (unlink_queue s c).
Proof.
  intros H i q. unfold unlink_queue. simpl. rewrite lookup_fmap.
  destruct (s_node s !! i) as [n|] eqn:E; [|discriminate]. simpl.
  destruct (n_queue n) as [q0|] eqn:Eq; [|discriminate]. intros [= <-].
  apply queue_unlink_ok, (H i). now rewrite E.
Qed.

Lemma queue_unset_ok s c j :
  queues_wf s -> c ∈ ids s j ->
  exists s', queue_unset s c = Some s' /\ same_shape s s' /\ queues_wf s' /\ s_ref s' = s_ref s /\
    forall i, ids s' i = filter (.≠ c) (ids s i).
Proof.
  intros Hq Hc. exists (unlink_queue s c). unfold queue_unset.
  rewrite (proj2 (queue_linked_iff s c)) by eauto.
  split_and!; auto using unlink_shape, unlink_wf, unlink_ids.
Qed.

Lemma get_queue_shape s i : same_shape s (get_queue s i).
Proof.
  split; [|reflexivity]. simpl. apply map_eq. intros j. rewrite !lookup_fmap, lookup_alter.
  case_decide; [subst j|reflexivity]. destruct (s_node s !! i) as [n|]; [|reflexivity].
  simpl. now destruct (n_queue n).
Qed.

Lemma get_queue_lookup s i n :
  s_node s !! i = Some n -> s_node (get_queue s i) !! i = Some (set_queue (Some (default queue_init (n_queue n))) n).
Proof.
  intros H. simpl. rewrite lookup_alter_eq, H. simpl. f_equal. destruct n as [pa al [q|]]; reflexivity.
Qed.

Lemma get_queue_ne s i j : i <> j -> s_node (get_queue s i) !! j = s_node s !! j.
Proof. intros. simpl. now rewrite lookup_alter_ne. Qed.

Lemma get_queue_id s i q : s_node s !! i ≫= n_queue = Some q -> get_queue s i = s.
Proof.
  intros H. unfold get_queue, upd_node. rewrite alter_id; [now destruct s|].
  intros n Hn. rewrite Hn in H. simpl in H. now rewrite H.
Qed.

Lemma get_queue_ids s i j : ids (get_queue s i) j = ids s j.
Proof.
  unfold ids. simpl. rewrite lookup_alter. case_decide; [subst j|reflexivity].
  destruct (s_node s !! i) as [n|]; [|reflexivity]. simpl. destruct (n_queue n) eqn:E; simpl; now rewrite ?E.
Qed.

Lemma get_queue_wf s i : queues_wf s -> queues_wf (get_queue s i).
Proof.
  intros H j q. simpl. rewrite lookup_alter. case_decide; [subst j|apply H].
  destruct (s_node s !! i) as [n|] eqn:E; [|discriminate]. simpl.
  destruct (n_queue n) eqn:Eq; simpl; [|intros [= <-]; apply queue_init_ok].
  intros Hq. apply (H i). now rewrite E.
Qed.

Lemma queue_set_ok s i c r :
  queues_wf s -> is_Some (s_node s !! i) -> s_ref s !! c = Some r ->
  1 <= r_weight r <= 257 -> 0 <= r_deficit r < 65536 -> (forall j, c ∉ ids s j) ->
  exists s' d, queue_set (get_queue s i) i c = Some s' /\ same_shape s s' /\ queues_wf s' /\ 0 <= d < 65536 /\
    s_ref s' = <[c := set_ref_deficit d r]> (s_ref s) /\
    (ids s' i ≡ₚ c :: ids s i) /\ forall j, j <> i -> ids s' j = ids s j.
Proof.
  intros Hq [n Hn] Hr Hw Hd Hc. pose proof (get_queue_lookup s i n Hn) as Hg.
  set (q := default queue_init (n_queue n)) in *.
  assert (Hqo : queue_ok q) by (eapply (get_queue_wf s i Hq i); rewrite Hg; reflexivity).
  destruct (queue_link_view q c (r_deficit r) (r_weight r) Hqo Hw Hd) as (q' & d & Hl & Hq' & Hd' & Hv & _).
  assert (Hids : (queue_view q).*2 = ids s i) by (rewrite <- (get_queue_ids s i i); unfold ids; now rewrite Hg).
  exists (upd_ref (upd_node (get_queue s i) i (set_queue (Some q'))) c (set_ref_deficit d)), d.
  unfold queue_set. rewrite queue_linked_false by (intros j; rewrite get_queue_ids; apply Hc).
  rewrite Hg. cbn [mbind option_bind n_queue set_queue].
  change (s_ref (get_queue s i)) with (s_ref s). rewrite Hr. cbn [mbind option_bind]. rewrite Hl.
  split; [reflexivity|]. split; [|split; [|split; [assumption|split; [|split]]]].
  - etransitivity; [apply (get_queue_shape s i)|]. split.
    + simpl. apply map_eq. intros j. rewrite !lookup_fmap, lookup_alter. case_decide; [subst j|reflexivity].
      now destruct (alter _ _ _ !! i).
    + simpl. apply map_eq. intros j. rewrite !lookup_fmap, lookup_alter. case_decide; [subst j|reflexivity].
      now destruct (s_ref s !! c).
  - intros j q0. cbn [upd_ref upd_node s_node]. rewrite lookup_alter. case_decide; [subst j|apply (get_queue_wf s i Hq)].
    rewrite Hg. now intros [= <-].
  - apply map_eq. intros j. simpl. rewrite lookup_alter, lookup_insert. case_decide; [subst j; now rewrite Hr|reflexivity].
  - unfold ids at 1. cbn [upd_ref upd_node s_node]. rewrite lookup_alter_eq, Hg.
    cbn [fmap option_fmap option_map mbind option_bind n_queue set_queue queue_ids].
    rewrite Hv, pq_insert_perm, fmap_cons. now rewrite Hids.
  - intros j Hj. unfold ids. cbn [upd_ref upd_node s_node]. rewrite lookup_alter_ne by congruence.
    now rewrite get_queue_ne.
Qed.

(** ** The invariant *)

Definition single (i : ref_id) (z : Z) (j : ref_id) : Z := if decide (j = i) then z else 0.

(** The members of a queue that are counted; [pend] is in a queue and is not counted yet. *)
Definition counted (pend : option ref_id) (l : list ref_id) : Z := len (filter (fun c => Some c <> pend) l).

Lemma counted_cons pend c l : counted pend (c :: l) = counted pend l + (if decide (Some c = pend) then 0 else 1).
Proof.
  unfold counted. rewrite filter_cons. repeat case_decide; try contradiction; rewrite ?len_cons; try lia.
  all: congruence.
Qed.

#[export] Instance len_perm {A} : Proper ((≡ₚ) ==> eq) (@len A).
Proof. intros l l' H. unfold len. now rewrite H. Qed.

#[export] Instance counted_perm pend : Proper ((≡ₚ) ==> eq) (counted pend).
Proof. intros l l' H. unfold counted. now rewrite H. Qed.

Lemma remove_perm (c : ref_id) (l : list ref_id) : NoDup l -> c ∈ l -> l ≡ₚ c :: filter (.≠ c) l.
Proof.
  intros Hnd Hc. apply elem_of_Permutation in Hc as [k Hk]. rewrite Hk in Hnd. apply NoDup_cons in Hnd as [Hn _].
  rewrite Hk, filter_cons_False by (intros H; now apply H). constructor.
  rewrite filter_all; [reflexivity|]. now intros x Hx ->.
Qed.

Lemma remove_absent (c : ref_id) (l : list ref_id) : c ∉ l -> filter (.≠ c) l = l.
Proof. intros Hc. apply filter_all. now intros x Hx ->. Qed.

Lemma counted_nonneg pend l : 0 <= counted pend l.
Proof. apply len_nonneg. Qed.

Section Invariant.
Context (root : ref_id).

(** The tree, with the parents of the refs as [par] has them. *)
Record tree_ok (par : ref_id -> option ref_id) (s : sched) : Prop := {
  t_root : is_Some (s_node s !! root) /\ parent_of s root = None /\ s_ref s !! root = None;
  t_dom : forall i, i <> root -> is_Some (s_node s !! i) <-> is_Some (s_ref s !! i);
  t_par : forall c, is_Some (s_ref s !! c) <-> is_Some (par c);
  t_par_node : forall c p, par c = Some p -> is_Some (s_node s !! p);
  t_kids : forall p c, c ∈ kids s p <-> par c = Some p;
  t_nodup : forall p, NoDup (kids s p) }.

Record queues_ok (par : ref_id -> option ref_id) (s : sched) : Prop := {
  q_ok : queues_wf s;
  q_ids : forall p c, c ∈ ids s p <-> par c = Some p /\ cnt s c <> 0;
  q_nodup : forall p, NoDup (ids s p) }.

Definition ref_ok (pend : option ref_id) (d : Z) (members : list ref_id) (r : openref) : Prop :=
  1 <= r_weight r <= 257 /\ 0 <= r_deficit r < 65536 /\ 0 <= r_active_cnt r /\
  r_active_cnt r = Z.b2z (r_self_is_active r) + counted pend members + d.

Definition refs_ok (pend : option ref_id) (delta : ref_id -> Z) (s : sched) : Prop :=
  forall c r, s_ref s !! c = Some r -> ref_ok pend (delta c) (ids s c) r.

Record inv (par : ref_id -> option ref_id) (pend : option ref_id) (delta : ref_id -> Z) (s : sched) : Prop := {
  i_tree : tree_ok par s;
  i_queues : queues_ok par s;
  i_refs : refs_ok pend delta s }.

(** The way to the root, in the fields as in [par], through none of [av]. *)
Inductive chain (s : sched) (par : ref_id -> option ref_id) (av : ref_id -> Prop) : ref_id -> nat -> Prop :=
| chain_root : chain s par av root 0
| chain_up i p k :
    parent_of s i = Some p -> par i = Some p -> ~ av i -> chain s par av p k -> chain s par av i (S k).

Definition nowhere (i : ref_id) : Prop := False.

Record sched_ok (s : sched) : Prop := {
  so_inv : inv (parent_of s) None (fun _ => 0) s;
  so_chain : forall i, is_Some (s_node s !! i) -> exists k, chain s (parent_of s) nowhere i k }.

Lemma tree_ok_dom par s s' :
  (forall i, parent_of s' i = parent_of s i) -> (forall i, kids s' i = kids s i) ->
  (forall i, is_Some (s_node s' !! i) <-> is_Some (s_node s !! i)) ->
  (forall i, is_Some (s_ref s' !! i) <-> is_Some (s_ref s !! i)) -> tree_ok par s -> tree_ok par s'.
Proof.
  intros Ep Ek En Er [(Hr & Hr' & Hr'') Hd Hp Hn Hk Hu]. split.
  - rewrite En, Ep. split_and!; auto. apply eq_None_not_Some. rewrite Er, Hr''. by intros [].
  - intros. rewrite En, Er. auto.
  - intros. rewrite Er. auto.
  - intros c p Hc. rewrite En. eauto.
  - intros. rewrite Ek. auto.
  - intros. rewrite Ek. auto.
Qed.

Lemma tree_ok_shape par s s' : same_shape s s' -> tree_ok par s -> tree_ok par s'.
Proof.
  intros H. apply tree_ok_dom; intros i;
    [now apply sh_parent|now apply sh_kids|now apply sh_is_node|now apply sh_is_ref].
Qed.

Lemma chain_shape par av s s' i k : same_shape s s' -> chain s par av i k -> chain s' par av i k.
Proof.
  intros H. induction 1 as [|i p k Hf Hp Ha _ IH]; [constructor|].
  econstructor; [|eassumption..]. now rewrite (sh_parent _ _ _ H).
Qed.

(** The depth of a node is unique, so that the way up goes through different nodes. *)
Lemma chain_depth par av s i k k' : parent_of s root = None -> chain s par av i k -> chain s par av i k' -> k = k'.
Proof.
  intros Hr H. revert k'. induction H as [|i p k Hf Hp Ha _ IH]; intros k' H'; inversion H'; simplify_eq; auto; congruence.
Qed.

Lemma chain_path par av s i k :
  parent_of s root = None -> is_Some (s_node s !! root) -> chain s par av i k ->
  exists l, NoDup l /\ length l = S k /\
    Forall (fun x => is_Some (s_node s !! x) /\ exists j, (j <= k)%nat /\ chain s par av x j) l.
Proof.
  intros Hr Hn. induction 1 as [|i p k Hf Hp Ha Hc IH].
  - exists [root]. split; [apply NoDup_singleton|]. split; [reflexivity|]. repeat constructor; [assumption|].
    exists 0%nat. split; [lia|constructor].
  - destruct IH as (l & Hnd & Hl & Hall). exists (i :: l).
    assert (Hi : chain s par av i (S k)) by (eapply chain_up; eassumption).
    split; [|split; [simpl; lia|]].
    + constructor; [|assumption]. intros Hin. rewrite Forall_forall in Hall.
      destruct (Hall i Hin) as (_ & j & Hj & Hcj). pose proof (chain_depth _ _ _ _ _ _ Hr Hi Hcj). lia.
    + constructor.
      * split; [|eauto]. unfold parent_of in Hf. destruct (s_node s !! i); [eauto|discriminate].
      * eapply Forall_impl; [exact Hall|]. intros x (? & j & ? & ?). eauto.
Qed.

Lemma chain_fuel par av s i k :
  parent_of s root = None -> is_Some (s_node s !! root) -> chain s par av i k -> (k < size (s_node s))%nat.
Proof.
  intros Hr Hn Hc. destruct (chain_path par av s i k Hr Hn Hc) as (l & Hnd & Hl & Hall).
  assert (Hs : (length l <= size (dom (s_node s)))%nat).
  { rewrite <- (size_list_to_set (C := gset ref_id)) by assumption. apply subseteq_size.
    intros x Hx. apply elem_of_list_to_set in Hx. rewrite Forall_forall in Hall.
    apply elem_of_dom, Hall, Hx. }
  rewrite size_dom in Hs. lia.
Qed.

(** ** Counters *)

Lemma cnt_lookup s c r : s_ref s !! c = Some r -> cnt s c = r_active_cnt r.
Proof. unfold cnt. now intros ->. Qed.

Lemma shape_cnt s c v : same_shape s (upd_ref s c (set_active_cnt v)).
Proof.
  split; [reflexivity|]. simpl. apply map_eq. intros j. rewrite !lookup_fmap, lookup_alter.
  case_decide; [subst j|reflexivity]. now destruct (s_ref s !! c).
Qed.

(** A counter that stays positive. *)
Lemma bump_ok par pend delta s c r v :
  inv par pend delta s -> s_ref s !! c = Some r -> r_active_cnt r <> 0 -> 0 < v ->
  inv par pend (fun j => delta j + single c (v - r_active_cnt r) j) (upd_ref s c (set_active_cnt v)).
Proof.
  intros [Ht [Hq Hi Hn] Hr] Hc Hz Hv. split.
  - eapply tree_ok_shape; [apply shape_cnt|assumption].
  - split; [exact Hq| |exact Hn]. intros p x. change (ids (upd_ref s c (set_active_cnt v)) p) with (ids s p).
    rewrite Hi. unfold cnt at 2. simpl. rewrite lookup_alter. case_decide; [subst x|reflexivity].
    rewrite Hc. simpl. rewrite (cnt_lookup s c r Hc). split; intros [? ?]; split; auto; lia.
  - intros x rx. simpl. rewrite lookup_alter. unfold single. case_decide as E.
    + subst x. rewrite Hc. intros [= <-]. specialize (Hr c r Hc). unfold ref_ok in *. simpl. rewrite decide_True by reflexivity.
      change (ids _ c) with (ids s c). lia.
    + intros Hx. specialize (Hr x rx Hx). rewrite decide_False, Z.add_0_r by congruence. exact Hr.
Qed.

(** A ref that becomes active is put in the queue of its parent, which is to count it. *)
Lemma activate_ok par s c p r :
  inv par None (single c (-1)) s -> par c = Some p -> p <> c -> s_ref s !! c = Some r -> r_active_cnt r = 0 ->
  exists s', queue_set (get_queue (upd_ref s c (set_active_cnt 1)) p) p c = Some s' /\ same_shape s s' /\
    inv par None (single p (-1)) s'.
Proof.
  intros [Ht [Hq Hi Hn] Hr] Hp Hpc Hc Hz.
  pose proof (Hr c r Hc) as (Hw & Hd & _ & Hcnt). unfold single in Hcnt. rewrite decide_True in Hcnt by reflexivity.
  assert (Hout : forall j, c ∉ ids s j).
  { intros j Hj. apply Hi in Hj as [_ Hj]. rewrite (cnt_lookup _ _ _ Hc) in Hj. contradiction. }
  set (s1 := upd_ref s c (set_active_cnt 1)).
  assert (Hc1 : s_ref s1 !! c = Some (set_active_cnt 1 r)) by (simpl; now rewrite lookup_alter_eq, Hc).
  destruct (queue_set_ok s1 p c (set_active_cnt 1 r) Hq) as (s' & d & Hset & Hsh & Hq' & Hd' & Href & Hidp & Hidj);
    [exact (t_par_node _ _ Ht c p Hp)|assumption..|].
  exists s'. split; [assumption|].
  assert (Hsh' : same_shape s s') by (etransitivity; [apply (shape_cnt s c 1)|exact Hsh]).
  split; [assumption|]. change (ids s1) with (ids s) in Hidp, Hidj. split.
  - now apply (tree_ok_shape _ s).
  - split; [assumption| |].
    + assert (Hcnt' : forall x, cnt s' x = if decide (x = c) then 1 else cnt s x).
      { intros x. unfold cnt. rewrite Href, lookup_insert. simpl. case_decide as E; [subst x|].
        - now rewrite decide_True.
        - now rewrite decide_False, lookup_alter_ne by congruence. }
      clear - Hp Hi Hout Hidp Hidj Hcnt'. intros j x. rewrite Hcnt'.
      destruct (decide (j = p)) as [->|Hj]; [rewrite Hidp, elem_of_cons|rewrite Hidj by assumption];
        (case_decide as E; [subst x|rewrite Hi; intuition congruence]).
      * split; [intros _; split; [assumption|lia] | now left].
      * split; [now intros ?%Hout | intros [? _]; congruence].
    + intros j. destruct (decide (j = p)) as [->|Hj]; [|now rewrite Hidj].
      rewrite Hidp. constructor; auto.
  - intros x rx. rewrite Href, lookup_insert. unfold single. case_decide as E.
    + subst x. intros [= <-]. unfold ref_ok. simpl. rewrite decide_False, Hidj by congruence. lia.
    + simpl. rewrite lookup_alter_ne by assumption. intros Hx. specialize (Hr x rx Hx).
      unfold single in Hr. rewrite decide_False in Hr by congruence. unfold ref_ok in *.
      case_decide; [subst x; rewrite Hidp, counted_cons, decide_False by discriminate|rewrite Hidj by assumption]; lia.
Qed.

(** A ref that becomes inactive is taken out of the queue of its parent, which is to count it off. *)
Lemma deactivate_ok par pend s c p r :
  inv par pend (single c 1) s -> par c = Some p -> p <> c -> Some c <> pend ->
  s_ref s !! c = Some r -> r_active_cnt r = 1 ->
  exists s', queue_unset (upd_ref s c (set_active_cnt 0)) c = Some s' /\ same_shape s s' /\
    inv par pend (single p 1) s' /\ forall x, x <> c -> s_ref s' !! x = s_ref s !! x.
Proof.
  intros [Ht [Hq Hi Hn] Hr] Hp Hpc Hpend Hc Hz.
  pose proof (Hr c r Hc) as (Hw & Hd & _ & Hcnt). unfold single in Hcnt. rewrite decide_True in Hcnt by reflexivity.
  assert (Hin : c ∈ ids s p) by (apply Hi; rewrite (cnt_lookup _ _ _ Hc); split; [assumption|lia]).
  set (s1 := upd_ref s c (set_active_cnt 0)).
  destruct (queue_unset_ok s1 c p Hq Hin) as (s' & Hset & Hsh & Hq' & Href & Hids).
  exists s'. split; [assumption|].
  assert (Hsh' : same_shape s s') by (etransitivity; [apply (shape_cnt s c 0)|exact Hsh]).
  split; [assumption|]. change (ids s1) with (ids s) in Hids.
  assert (Hidj : forall j, j <> p -> ids s' j = ids s j).
  { intros j Hj. rewrite Hids. apply remove_absent. intros [? _]%Hi. congruence. }
  split; [|intros x Hx; rewrite Href; simpl; now rewrite lookup_alter_ne].
  split.
  - now apply (tree_ok_shape _ s).
  - split; [assumption| |].
    + assert (Hcnt' : forall x, cnt s' x = if decide (x = c) then 0 else cnt s x).
      { intros x. unfold cnt. rewrite Href. simpl. rewrite lookup_alter. case_decide as E; [subst x|].
        - now rewrite decide_True, Hc.
        - now rewrite decide_False by congruence. }
      clear - Hi Hids Hcnt'. intros j x. rewrite Hcnt', Hids, list_elem_of_filter, Hi.
      case_decide; intuition congruence.
    + intros j. rewrite Hids. now apply NoDup_filter.
  - intros x rx. rewrite Href. simpl. rewrite lookup_alter. unfold single. case_decide as E.
    + subst x. rewrite Hc. intros [= <-]. unfold ref_ok. simpl. rewrite decide_False, Hidj by congruence. lia.
    + intros Hx. specialize (Hr x rx Hx). unfold single in Hr. rewrite decide_False in Hr by congruence.
      unfold ref_ok in *. case_decide as Ep; [subst x|rewrite Hidj by assumption; lia].
      rewrite (remove_perm c (ids s p)), counted_cons, decide_False, <- Hids in Hr by auto. lia.
Qed.

Lemma no_delta par pend s : inv par pend (single root 1) s \/ inv par pend (single root (-1)) s -> inv par pend (fun _ => 0) s.
Proof.
  intros H. destruct H as [[Ht Hq Hr]|[Ht Hq Hr]]; (split; [assumption..|]); intros c r Hc;
    specialize (Hr c r Hc); unfold single in Hr; (rewrite decide_False in Hr; [exact Hr|]);
    intros ->; destruct (t_root _ _ Ht) as (_ & _ & H); congruence.
Qed.

Lemma inv_delta par pend delta delta' s :
  (forall j, delta j = delta' j) -> inv par pend delta s -> inv par pend delta' s.
Proof. intros H [Ht Hq Hr]. split; [assumption..|]. intros c r Hc. rewrite <- H. now apply Hr. Qed.

Lemma parent_node s i p : parent_of s i = Some p -> exists n, s_node s !! i = Some n /\ n_parent n = Some p.
Proof. unfold parent_of. destruct (s_node s !! i) as [n|]; [eauto|discriminate]. Qed.

Lemma chain_up_ne par av s i p k : parent_of s root = None -> parent_of s i = Some p -> chain s par av p k -> par i = Some p -> ~ av i -> p <> i.
Proof.
  intros Hr Hf Hc Hp Ha ->. assert (chain s par av i (S k)) by (eapply chain_up; eassumption).
  pose proof (chain_depth _ _ _ _ _ _ Hr Hc H). lia.
Qed.

Lemma incr_ok par av fuel s0 s i k :
  chain s0 par av i k -> same_shape s0 s -> (k < fuel)%nat -> inv par None (single i (-1)) s ->
  exists s', incr_active_cnt_loop fuel s i = Some s' /\ inv par None (fun _ => 0) s' /\ same_shape s s'.
Proof.
  intros Hc. revert s fuel. induction Hc as [|i p k Hpar Hp Ha Hc IH]; intros s fuel Hsh Hf Hinv; (destruct fuel as [|fuel]; [lia|]).
  - destruct (t_root _ _ (i_tree _ _ _ _ Hinv)) as ([n Hn] & Hnp & _). exists s. simpl. unfold parent_of in Hnp.
    rewrite Hn in Hnp |- *. simpl in *. rewrite Hnp. split; [reflexivity|]. split; [auto using no_delta|reflexivity].
  - rewrite <- (sh_parent _ _ _ Hsh) in Hpar. destruct (parent_node _ _ _ Hpar) as (n & Hn & Hnp).
    assert (Hpi : p <> i).
    { eapply (chain_up_ne par av s); [apply (i_tree _ _ _ _ Hinv)|eassumption| |eassumption..]. eapply chain_shape; eassumption. }
    destruct (proj2 (t_par _ _ (i_tree _ _ _ _ Hinv) i)) as [r Hr]; [now rewrite Hp|].
    pose proof (i_refs _ _ _ _ Hinv i r Hr) as (_ & _ & Hnn & _).
    cbn [incr_active_cnt_loop]. rewrite Hn. cbn [mbind option_bind]. rewrite Hnp, Hr. cbn [mbind option_bind].
    destruct (Z.eqb_spec (r_active_cnt r + 1) 1) as [E|E]; cbn [negb].
    + destruct (activate_ok par s i p r) as (s1 & Hset & Hsh1 & Hinv1); [assumption..|lia|].
      rewrite E, Hset. cbn [mbind option_bind].
      destruct (IH s1 fuel) as (s' & Hrun & Hinv' & Hsh'); [etransitivity; eassumption|lia|assumption|].
      exists s'. split; [assumption|]. split; [assumption|]. etransitivity; eassumption.
    + eexists. split; [reflexivity|]. split; [|apply shape_cnt].
      eapply inv_delta; [|eapply bump_ok; [exact Hinv|exact Hr|lia|lia]]. intros j. unfold single. case_decide; lia.
Qed.

Lemma decr_ok par pend fuel s0 s i k :
  chain s0 par (fun x => Some x = pend) i k -> same_shape s0 s -> (k < fuel)%nat -> inv par pend (single i 1) s ->
  exists s', decr_active_cnt_loop fuel s i = Some s' /\ inv par pend (fun _ => 0) s' /\ same_shape s s' /\
    forall x, Some x = pend -> s_ref s' !! x = s_ref s !! x.
Proof.
  intros Hc. revert s fuel. induction Hc as [|i p k Hpar Hp Ha Hc IH]; intros s fuel Hsh Hf Hinv; (destruct fuel as [|fuel]; [lia|]).
  - destruct (t_root _ _ (i_tree _ _ _ _ Hinv)) as ([n Hn] & Hnp & _). exists s. simpl. unfold parent_of in Hnp.
    rewrite Hn in Hnp |- *. simpl in *. rewrite Hnp. split; [reflexivity|]. split; [auto using no_delta|]. now split.
  - rewrite <- (sh_parent _ _ _ Hsh) in Hpar. destruct (parent_node _ _ _ Hpar) as (n & Hn & Hnp).
    assert (Hpi : p <> i).
    { eapply (chain_up_ne par (fun x => Some x = pend) s); [apply (i_tree _ _ _ _ Hinv)|eassumption| |eassumption..]. eapply chain_shape; eassumption. }
    destruct (proj2 (t_par _ _ (i_tree _ _ _ _ Hinv) i)) as [r Hr]; [now rewrite Hp|].
    pose proof (i_refs _ _ _ _ Hinv i r Hr) as (_ & _ & Hnn & Hcnt). unfold single in Hcnt.
    rewrite decide_True in Hcnt by reflexivity. pose proof (counted_nonneg pend (ids s i)).
    cbn [decr_active_cnt_loop]. rewrite Hn. cbn [mbind option_bind]. rewrite Hnp, Hr. cbn [mbind option_bind].
    destruct (Z.eqb_spec (r_active_cnt r - 1) 0) as [E|E]; cbn [negb].
    + destruct (deactivate_ok par pend s i p r) as (s1 & Hset & Hsh1 & Hinv1 & Hfr1); [assumption..|lia|].
      rewrite E, Hset. cbn [mbind option_bind].
      destruct (IH s1 fuel) as (s' & Hrun & Hinv' & Hsh' & Hfr'); [etransitivity; eassumption|lia|assumption|].
      exists s'. split; [assumption|]. split; [assumption|]. split; [etransitivity; eassumption|].
      intros x Hx. rewrite Hfr' by assumption. apply Hfr1. now intros ->.
    + destruct (r_self_is_active r); simpl in Hcnt; (eexists; split; [reflexivity|]; split; [|split; [apply shape_cnt|]];
        [|intros x Hx; simpl; rewrite lookup_alter_ne; [reflexivity|now intros ->]];
        eapply inv_delta; [|eapply bump_ok; [exact Hinv|exact Hr|lia|lia]]; intros j; unfold single; case_decide; lia).
Qed.

Lemma tree_root par s : tree_ok par s -> parent_of s root = None /\ is_Some (s_node s !! root).
Proof. intros Ht. destruct (t_root _ _ Ht) as (? & ? & ?). now split. Qed.

Lemma incr_active_cnt_ok par av s i k :
  chain s par av i k -> inv par None (single i (-1)) s ->
  exists s', incr_active_cnt s i = Some s' /\ inv par None (fun _ => 0) s' /\ same_shape s s'.
Proof.
  intros Hc Hinv. destruct (tree_root _ _ (i_tree _ _ _ _ Hinv)) as [Hr Hn].
  eapply incr_ok; [exact Hc|reflexivity|eapply chain_fuel; eassumption|assumption].
Qed.

Lemma decr_active_cnt_ok par pend s i k :
  chain s par (fun x => Some x = pend) i k -> inv par pend (single i 1) s ->
  exists s', decr_active_cnt s i = Some s' /\ inv par pend (fun _ => 0) s' /\ same_shape s s' /\
    forall x, Some x = pend -> s_ref s' !! x = s_ref s !! x.
Proof.
  intros Hc Hinv. destruct (tree_root _ _ (i_tree _ _ _ _ Hinv)) as [Hr Hn].
  eapply decr_ok; [exact Hc|reflexivity|eapply chain_fuel; eassumption|assumption].
Qed.

(** ** The parents as another function has them *)

Lemma inv_par par par' pend delta s : (forall c, par c = par' c) -> inv par pend delta s -> inv par' pend delta s.
Proof.
  intros E [[Hr Hd Hp Hn Hk Hu] [Hq Hi Hnd] Hrefs]. split; [|split|]; try assumption.
  - split; try assumption; intros; rewrite <- ?E; auto. rewrite <- E in *. eauto.
  - intros p c. rewrite Hi, E. reflexivity.
Qed.

Lemma chain_weaken s s' par par' (av av' : ref_id -> Prop) i k :
  (forall x, av' x -> av x) ->
  (forall x p, ~ av x -> parent_of s x = Some p -> parent_of s' x = Some p) ->
  (forall x p, ~ av x -> par x = Some p -> par' x = Some p) ->
  chain s par av i k -> chain s' par' av' i k.
Proof. intros Ha Hf Hp. induction 1 as [|i p k ? ? ? _ IH]; [constructor|]. eapply chain_up; eauto. Qed.

(** The nodes on the way up are not deeper. *)
Lemma chain_shallow s par i k :
  chain s par nowhere i k -> parent_of s root = None ->
  chain s par (fun x => exists j, (k < j)%nat /\ chain s par nowhere x j) i k.
Proof.
  intros Hc Hr. cut (forall m, (k <= m)%nat -> chain s par (fun x => exists j, (m < j)%nat /\ chain s par nowhere x j) i k).
  { intros H. now apply H. }
  induction Hc as [|i p k Hf Hp _ Hc IH]; intros m Hm; [constructor|].
  eapply chain_up; [eassumption..| |apply IH; lia].
  intros (j & Hj & Hcj). assert (Hci : chain s par nowhere i (S k)) by (eapply chain_up; [eassumption..|tauto|assumption]).
  pose proof (chain_depth _ _ _ _ _ _ Hr Hci Hcj). lia.
Qed.

(** Above a node that is not as deep as [x] there is no [x]. *)
Lemma chain_avoid s par i k x j :
  parent_of s root = None -> chain s par nowhere i k -> chain s par nowhere x j -> (k < j)%nat ->
  chain s par (.= x) i k.
Proof.
  intros Hr Hi Hx Hkj. eapply chain_weaken; [..|apply (chain_shallow _ _ _ _ Hi Hr)]; auto.
  intros y ->. eauto.
Qed.

Lemma sched_ok_shape s s' : sched_ok s -> same_shape s s' -> inv (parent_of s) None (fun _ => 0) s' -> sched_ok s'.
Proof.
  intros [_ Hc] Hsh Hinv. split.
  - eapply inv_par; [|exact Hinv]. intros c. symmetry. now apply sh_parent.
  - intros i Hi. apply (sh_is_node _ _ _ Hsh) in Hi. destruct (Hc i Hi) as [k Hk]. exists k.
    eapply chain_weaken; [..|exact Hk]; intros x; try rewrite (sh_parent _ _ _ Hsh); auto.
Qed.

Lemma sched_ok_root s : sched_ok s -> parent_of s root = None.
Proof. intros [Hi _]. apply (tree_root _ _ (i_tree _ _ _ _ Hi)). Qed.

(** A ref has a parent, and a way up that starts there. *)
Lemma ref_parent s c :
  sched_ok s -> is_Some (s_ref s !! c) ->
  exists p k, parent_of s c = Some p /\ chain s (parent_of s) nowhere p k /\ chain s (parent_of s) nowhere c (S k) /\
    p <> c /\ is_Some (s_node s !! p) /\ is_Some (s_node s !! c).
Proof.
  intros Hs Hc. pose proof (so_inv _ Hs) as [Ht _ _]. pose proof (sched_ok_root _ Hs) as Hr.
  apply (t_par _ _ Ht) in Hc as [p Hp].
  assert (Hn : is_Some (s_node s !! c)) by (destruct (parent_node _ _ _ Hp) as (n & -> & _); eauto).
  destruct (so_chain _ Hs c Hn) as [k Hk]. inversion Hk as [E|i p' k' Hf _ _ Hc']; subst.
  - congruence.
  - assert (p' = p) as -> by congruence. exists p, k'. split_and!; auto.
    + eapply chain_up_ne; try eassumption. tauto.
    + exact (t_par_node _ _ Ht c p Hp).
Qed.

(** ** Activity *)

(** A change of a ref that keeps its counter. *)
Lemma upd_ref_inv par delta delta' s c r f :
  inv par None delta s -> s_ref s !! c = Some r -> r_active_cnt (f r) = r_active_cnt r ->
  1 <= r_weight (f r) <= 257 -> r_deficit (f r) = r_deficit r ->
  delta' c = delta c + Z.b2z (r_self_is_active r) - Z.b2z (r_self_is_active (f r)) ->
  (forall j, j <> c -> delta' j = delta j) ->
  inv par None delta' (upd_ref s c f).
Proof.
  intros [Ht [Hq Hi Hn] Hr] Hc Hcnt Hw Hd Hdc Hdj.
  assert (Href : forall x, is_Some (s_ref (upd_ref s c f) !! x) <-> is_Some (s_ref s !! x)).
  { intros x. simpl. rewrite lookup_alter. case_decide; [subst x|reflexivity]. now rewrite fmap_is_Some. }
  split.
  - destruct Ht as [(H1 & H2 & H3) Hdom Hp Hpn Hk Hnd]. split; try assumption.
    + split; [assumption|]. split; [assumption|]. apply eq_None_not_Some. rewrite Href, H3. by intros [].
    + intros. rewrite Href. auto.
    + intros. rewrite Href. auto.
  - split; [exact Hq| |exact Hn]. intros p x. change (ids (upd_ref s c f) p) with (ids s p). rewrite Hi.
    replace (cnt (upd_ref s c f) x) with (cnt s x); [reflexivity|].
    unfold cnt. simpl. rewrite lookup_alter. case_decide; [subst x; rewrite Hc; simpl; congruence|reflexivity].
  - intros x rx. simpl. rewrite lookup_alter. change (ids (upd_ref s c f) x) with (ids s x). case_decide as E.
    + subst x. rewrite Hc. intros [= <-]. specialize (Hr c r Hc). unfold ref_ok in *. rewrite Hdc, Hcnt, Hd. lia.
    + intros Hx. rewrite Hdj by congruence. now apply Hr.
Qed.

Lemma upd_ref_chain s c f i k : chain s (parent_of s) nowhere i k -> chain (upd_ref s c f) (parent_of s) nowhere i k.
Proof. now apply chain_weaken. Qed.

Lemma sched_ok_upd s c f s' :
  sched_ok s -> same_shape (upd_ref s c f) s' -> inv (parent_of s) None (fun _ => 0) s' -> sched_ok s'.
Proof.
  intros [_ Hc] Hsh Hinv. split.
  - eapply inv_par; [|exact Hinv]. intros x. symmetry. now rewrite (sh_parent _ _ _ Hsh).
  - intros i Hi. apply (sh_is_node _ _ _ Hsh) in Hi. destruct (Hc i Hi) as [k Hk]. exists k.
    eapply chain_weaken; [..|exact Hk]; intros x; try rewrite (sh_parent _ _ _ Hsh); auto.
Qed.

Lemma activate_preserves s c :
  sched_ok s -> is_Some (s_ref s !! c) ->
  exists s', h2o_http2_scheduler_activate s c = Some s' /\ sched_ok s' /\ forall i, parent_of s' i = parent_of s i.
Proof.
  intros Hs [r Hr]. unfold h2o_http2_scheduler_activate. rewrite Hr. simpl.
  destruct (r_self_is_active r) eqn:Ea; [eauto|].
  destruct (ref_parent s c Hs) as (p & k & _ & _ & Hk & _); [eauto|].
  destruct (incr_active_cnt_ok (parent_of s) nowhere (upd_ref s c (set_self_is_active true)) c (S k)) as (s' & Hrun & Hinv & Hsh).
  - now apply upd_ref_chain.
  - pose proof (so_inv _ Hs) as Hi. pose proof (i_refs _ _ _ _ Hi c r Hr) as (? & _).
    eapply (upd_ref_inv _ (fun _ => 0)); [exact Hi|exact Hr|reflexivity|assumption|reflexivity| |];
      unfold single; [rewrite decide_True by reflexivity; rewrite Ea; reflexivity|].
    intros j Hj. now rewrite decide_False.
  - exists s'. split; [assumption|]. split; [eapply sched_ok_upd; eassumption|]. intros i. now rewrite (sh_parent _ _ i Hsh).
Qed.

Lemma deactivate_preserves s c :
  sched_ok s -> is_Some (s_ref s !! c) ->
  exists s', h2o_http2_scheduler_deactivate s c = Some s' /\ sched_ok s' /\ forall i, parent_of s' i = parent_of s i.
Proof.
  intros Hs [r Hr]. unfold h2o_http2_scheduler_deactivate. rewrite Hr. simpl.
  destruct (r_self_is_active r) eqn:Ea; [|simpl; eauto]. simpl.
  destruct (ref_parent s c Hs) as (p & k & _ & _ & Hk & _); [eauto|].
  destruct (decr_active_cnt_ok (parent_of s) None (upd_ref s c (set_self_is_active false)) c (S k)) as (s' & Hrun & Hinv & Hsh & _).
  - eapply chain_weaken; [| | |exact Hk]; auto. discriminate.
  - pose proof (so_inv _ Hs) as Hi. pose proof (i_refs _ _ _ _ Hi c r Hr) as (? & _).
    eapply (upd_ref_inv _ (fun _ => 0)); [exact Hi|exact Hr|reflexivity|assumption|reflexivity| |];
      unfold single; [rewrite decide_True by reflexivity; rewrite Ea; reflexivity|].
    intros j Hj. now rewrite decide_False.
  - exists s'. split; [assumption|]. split; [eapply sched_ok_upd; eassumption|]. intros i. now rewrite (sh_parent _ _ i Hsh).
Qed.
End Invariant.
