(* ===== verification/SchedulerMove.v ===== *)
(** * The HTTP/2 scheduler: changes of the tree

    Rebinding, opening, closing and relocating refs keep the invariant and never run into an
    assertion. *)
From S2P Require Import Prelude SchedQueue Scheduler SchedulerInv.
From Stdlib Require Import ZArith Lia.
From stdpp Require Import base list numbers option gmap.
Open Scope Z_scope.

(** ** A ref under another parent *)

(** The lists of dependents after [ref] was moved to [np]. *)
Definition moved_kids (s : sched) (ref np p : ref_id) : list ref_id :=
  filter (.≠ ref) (kids s p) ++ (if decide (p = np) then [ref] else []).

Definition moved_parent (s : sched) (ref np i : ref_id) : option ref_id :=
  if decide (i = ref) then Some np else parent_of s i.

(** The effect of moving [ref] to [np]. *)
Record moved (s : sched) (ref np : ref_id) (s' : sched) : Prop := {
  mv_parent : forall i, parent_of s' i = moved_parent s ref np i;
  mv_kids : forall i, kids s' i = moved_kids s ref np i;
  mv_node : forall i, is_Some (s_node s' !! i) <-> is_Some (s_node s !! i);
  mv_ref : ref_shape <$> s_ref s' = ref_shape <$> s_ref s }.

Section Move.
Context (root : ref_id).
Abbreviation inv := (inv root).
Abbreviation sched_ok := (sched_ok root).
Abbreviation chain := (chain root).
Abbreviation tree_ok := (tree_ok root).

Definition relisted (s : sched) (ref np : ref_id) : sched := insert_all (unlink_all s ref) np ref.

Lemma relisted_lookup s ref np i :
  s_node (relisted s ref np) !! i
  = (fun n => set_all_refs (filter (.≠ ref) (n_all_refs n) ++ (if decide (i = np) then [ref] else [])) n) <$> s_node s !! i.
Proof.
  unfold relisted, insert_all, unlink_all. simpl. rewrite lookup_alter, !lookup_fmap. case_decide as E.
  - subst i. rewrite decide_True by reflexivity. now destruct (s_node s !! np).
  - rewrite decide_False by congruence. destruct (s_node s !! i) as [n|]; [|reflexivity]. simpl.
    now rewrite app_nil_r.
Qed.

Lemma relisted_parent s ref np i : parent_of (relisted s ref np) i = parent_of s i.
Proof. unfold parent_of. rewrite relisted_lookup. now destruct (s_node s !! i). Qed.

Lemma relisted_kids s ref np i : is_Some (s_node s !! np) -> kids (relisted s ref np) i = moved_kids s ref np i.
Proof.
  intros Hn. unfold moved_kids, kids. rewrite relisted_lookup. destruct (s_node s !! i) eqn:E; [reflexivity|].
  simpl. rewrite decide_False; [reflexivity|]. intros ->. rewrite E in Hn. now destruct Hn.
Qed.

Lemma relisted_queue s ref np i : s_node (relisted s ref np) !! i ≫= n_queue = s_node s !! i ≫= n_queue.
Proof. rewrite relisted_lookup. now destruct (s_node s !! i). Qed.

Lemma relisted_ids s ref np i : ids (relisted s ref np) i = ids s i.
Proof. unfold ids. now rewrite relisted_queue. Qed.

Lemma relisted_node s ref np i : is_Some (s_node (relisted s ref np) !! i) <-> is_Some (s_node s !! i).
Proof. rewrite relisted_lookup. apply fmap_is_Some. Qed.

Lemma moved_kids_iff s ref np p c :
  tree_ok (parent_of s) s -> is_Some (s_ref s !! ref) ->
  c ∈ moved_kids s ref np p <-> moved_parent s ref np c = Some p.
Proof.
  intros Ht Hr. unfold moved_kids, moved_parent. rewrite elem_of_app, list_elem_of_filter, (t_kids _ _ _ Ht).
  destruct (decide (p = np)) as [->|Hp]; rewrite ?list_elem_of_singleton, ?elem_of_nil; case_decide; intuition congruence.
Qed.

Lemma moved_kids_nodup s ref np p : NoDup (kids s p) -> NoDup (moved_kids s ref np p).
Proof.
  intros H. apply NoDup_app. split; [now apply NoDup_filter|]. split.
  - intros x [Hx _]%list_elem_of_filter. case_decide; rewrite ?list_elem_of_singleton, ?elem_of_nil; auto.
  - case_decide; [apply NoDup_singleton|constructor].
Qed.

Lemma relisted_tree s ref np :
  tree_ok (parent_of s) s -> is_Some (s_ref s !! ref) -> is_Some (s_node s !! np) ->
  tree_ok (moved_parent s ref np) (relisted s ref np).
Proof.
  intros Ht Hr Hn. pose proof Ht as [(H1 & H2 & H3) Hd Hp Hpn Hk Hu]. split.
  - rewrite relisted_node, relisted_parent. auto.
  - intros. rewrite relisted_node. auto.
  - intros c. unfold moved_parent. case_decide as E; [subst c|apply Hp]. split; [eauto|intros _; exact Hr].
  - intros c p. rewrite relisted_node. unfold moved_parent. case_decide; [intros [= <-]; assumption|apply Hpn].
  - intros p c. rewrite relisted_kids by assumption. now apply moved_kids_iff.
  - intros p. rewrite relisted_kids by assumption. now apply moved_kids_nodup.
Qed.

(** [ref] in the queue of [np] and out of that of its old parent, before the counters follow. *)
Lemma requeued_inv s ref old np r :
  sched_ok s -> s_ref s !! ref = Some r -> r_active_cnt r <> 0 -> parent_of s ref = Some old -> is_Some (s_node s !! np) ->
  exists s1 s2, queue_unset (relisted s ref np) ref = Some s1 /\ queue_set (get_queue s1 np) np ref = Some s2 /\
    same_shape (relisted s ref np) s2 /\ inv (moved_parent s ref np) (Some ref) (single old 1) s2 /\ cnt s2 ref <> 0.
Proof.
  intros [[Ht [Hq Hi Hn] Hr] _] Href Hz Hold Hnp.
  assert (Hin : ref ∈ ids s old) by (apply Hi; now rewrite (cnt_lookup _ _ _ Href)).
  assert (Hq0 : queues_wf (relisted s ref np)) by (intros i q; rewrite relisted_queue; apply Hq).
  destruct (queue_unset_ok (relisted s ref np) ref old Hq0) as (s1 & Hun & Hsh1 & Hq1 & Href1 & Hids1);
    [now rewrite relisted_ids|].
  assert (Hids1' : forall i, ids s1 i = filter (.≠ ref) (ids s i)) by (intros i; now rewrite Hids1, relisted_ids).
  pose proof (Hr ref r Href) as (Hw & Hd & Hnn & _).
  destruct (queue_set_ok s1 np ref r Hq1) as (s2 & d & Hset & Hsh2 & Hq2 & Hd2 & Href2 & Hidp & Hidj); try assumption.
  { rewrite (sh_is_node _ _ _ Hsh1). now rewrite relisted_node. }
  { now rewrite Href1. }
  { intros j. rewrite Hids1'. now intros [? _]%list_elem_of_filter. }
  exists s1, s2. split; [assumption|]. split; [assumption|].
  assert (Hsh : same_shape (relisted s ref np) s2) by (etransitivity; eassumption).
  split; [assumption|]. rewrite Href1 in Href2. change (s_ref (relisted s ref np)) with (s_ref s) in Href2.
  assert (Hcnt : forall x, cnt s2 x = cnt s x).
  { intros x. unfold cnt. rewrite Href2, lookup_insert. case_decide; [subst x; now rewrite Href|reflexivity]. }
  assert (Hid : forall j, ids s2 j ≡ₚ filter (.≠ ref) (ids s j) ++ (if decide (j = np) then [ref] else [])).
  { intros j. case_decide as E; [subst j; rewrite Hidp, Hids1'; apply Permutation_cons_append|].
    now rewrite Hidj, Hids1', app_nil_r. }
  split; [|now rewrite Hcnt, (cnt_lookup _ _ _ Href)]. split.
  - eapply tree_ok_shape; [exact Hsh|]. apply relisted_tree; eauto.
  - split; [assumption| |].
    + intros p c. rewrite Hcnt, Hid, elem_of_app, list_elem_of_filter, Hi. unfold moved_parent.
      assert (cnt s ref <> 0) by now rewrite (cnt_lookup _ _ _ Href).
      destruct (decide (p = np)) as [->|]; rewrite ?list_elem_of_singleton, ?elem_of_nil;
        (case_decide; [subst c|]); intuition congruence.
    + intros p. rewrite Hid. apply NoDup_app. split; [now apply NoDup_filter|]. split.
      * intros x [Hx _]%list_elem_of_filter. case_decide; rewrite ?list_elem_of_singleton, ?elem_of_nil; auto.
      * case_decide; [apply NoDup_singleton|constructor].
  - assert (Hco : forall c, counted (Some ref) (ids s2 c) = counted None (ids s c) - single old 1 c).
    { intros c. rewrite Hid. unfold counted. rewrite filter_app, len_app.
      replace (len (filter _ (if decide (c = np) then [ref] else []))) with 0.
      2:{ case_decide; [rewrite filter_cons_False by (intros X; now apply X)|]; reflexivity. }
      rewrite (filter_all _ (filter _ _)).
      2:{ intros x [Hx _]%list_elem_of_filter. congruence. }
      rewrite (filter_all (fun x => Some x <> None)) by discriminate. unfold single. case_decide as E.
      - subst c. rewrite (remove_perm ref (ids s old)) at 2 by auto. rewrite len_cons. lia.
      - rewrite remove_absent; [lia|]. intros [? _]%Hi. congruence. }
    intros c rc. rewrite Href2, lookup_insert. unfold ref_ok. rewrite Hco. case_decide as E.
    + subst c. intros [= <-]. specialize (Hr ref r Href). unfold ref_ok in Hr. simpl. lia.
    + intros Hc. specialize (Hr c rc Hc). unfold ref_ok in Hr. lia.
Qed.

(** The queue member that was put there is counted now. *)
Lemma uncount s par ref np :
  inv par (Some ref) (fun _ => 0) s -> par ref = Some np -> cnt s ref <> 0 -> inv par None (single np (-1)) s.
Proof.
  intros [Ht Hq Hr] Hp Hz. split; [assumption..|]. pose proof Hq as [_ Hi Hn].
  intros c rc Hc. specialize (Hr c rc Hc). unfold ref_ok in *.
  assert (Hco : counted None (ids s c) = counted (Some ref) (ids s c) - single np (-1) c); [|lia].
  unfold single. case_decide as E.
  - subst c. rewrite (remove_perm ref (ids s np)); [|apply Hn|now apply Hi].
    rewrite !counted_cons, decide_False, decide_True by congruence. unfold counted.
    rewrite (filter_all (fun c => Some c <> None)), (filter_all (fun c => Some c <> Some ref)); [lia| |discriminate].
    intros x [? _]%list_elem_of_filter. congruence.
  - unfold counted. rewrite (filter_all (fun c => Some c <> None)), (filter_all (fun c => Some c <> Some ref));
      [lia| |discriminate]. intros x Hx [= ->]. apply Hi in Hx as [? _]. congruence.
Qed.

(** The field of the parent, last. *)
Lemma reparented s ref np s1 :
  sched_ok s -> is_Some (s_ref s !! ref) -> is_Some (s_node s !! np) ->
  (exists k, chain s (parent_of s) (.= ref) np k) ->
  same_shape (relisted s ref np) s1 -> inv (moved_parent s ref np) None (fun _ => 0) s1 ->
  sched_ok (upd_node s1 ref (set_parent (Some np))) /\ moved s ref np (upd_node s1 ref (set_parent (Some np))).
Proof.
  intros Hs Hr Hnp [k Hk] Hsh [Ht Hq Hrefs]. set (s2 := upd_node s1 ref (set_parent (Some np))).
  destruct (ref_parent root s ref Hs Hr) as (old & k0 & Hold & _ & _ & _ & _ & Hnode).
  assert (Hn : forall i, is_Some (s_node s2 !! i) <-> is_Some (s_node s !! i)).
  { intros i. rewrite <- (relisted_node s ref np), <- (sh_is_node _ _ _ Hsh). simpl. rewrite lookup_alter.
    case_decide; [subst i; apply fmap_is_Some|reflexivity]. }
  assert (Hids : forall i, ids s2 i = ids s1 i).
  { intros i. unfold ids. simpl. rewrite lookup_alter. case_decide; [subst i|reflexivity]. now destruct (s_node s1 !! ref). }
  assert (Hkids : forall i, kids s2 i = kids s1 i).
  { intros i. unfold kids. simpl. rewrite lookup_alter. case_decide; [subst i|reflexivity]. now destruct (s_node s1 !! ref). }
  assert (Hpar : forall i, parent_of s2 i = moved_parent s ref np i).
  { intros i. unfold moved_parent, parent_of at 1. simpl. rewrite lookup_alter. case_decide as E.
    - subst i. rewrite decide_True by reflexivity. destruct (s_node s1 !! ref) eqn:E1; [reflexivity|].
      exfalso. apply Hn in Hnode. simpl in Hnode. rewrite lookup_alter_eq, E1 in Hnode. now destruct Hnode.
    - rewrite decide_False by congruence. change (parent_of s1 i = parent_of s i).
      now rewrite (sh_parent _ _ _ Hsh), relisted_parent. }
  split; [split|split].
  - eapply inv_par; [intros c; symmetry; apply Hpar|]. split.
    + destruct Ht as [(H1 & H2 & H3) Hd Hp Hpn Hk' Hu]. split.
      * split_and!; [|rewrite Hpar|assumption].
        -- rewrite Hn, <- (relisted_node s ref np), <- (sh_is_node _ _ _ Hsh). assumption.
        -- unfold moved_parent. rewrite decide_False, <- (relisted_parent s ref np), <- (sh_parent _ _ _ Hsh); [assumption|].
           intros ->. apply (sh_is_ref _ _ _ Hsh) in Hr. rewrite H3 in Hr. now destruct Hr.
      * intros i Hi. rewrite Hn, <- (relisted_node s ref np), <- (sh_is_node _ _ _ Hsh). now apply Hd.
      * assumption.
      * intros c p Hc. rewrite Hn, <- (relisted_node s ref np), <- (sh_is_node _ _ _ Hsh). eauto.
      * intros. rewrite Hkids. apply Hk'.
      * intros. rewrite Hkids. apply Hu.
    + destruct Hq as [Hw Hi Hnd]. split; [|intros; rewrite Hids; apply Hi|intros; rewrite Hids; apply Hnd].
      intros i q. simpl. rewrite lookup_alter. case_decide; [subst i|apply Hw].
      specialize (Hw ref q). destruct (s_node s1 !! ref); auto.
    + intros c rc Hc. rewrite Hids. now apply Hrefs.
  - intros i Hi. apply Hn in Hi. destruct (so_chain _ _ Hs i Hi) as [j Hj].
    assert (Hnpc : exists k', chain s2 (parent_of s2) nowhere np k').
    { exists k. eapply chain_weaken; [now intros x []| | |exact Hk]; intros x p Hx; rewrite Hpar;
        unfold moved_parent; now rewrite decide_False by congruence. }
    clear Hi. induction Hj as [|i p j Hf _ _ _ [k' IH]]; [exists 0%nat; constructor|].
    destruct (decide (i = ref)) as [->|Hne].
    + destruct Hnpc as [k'' Hk'']. exists (S k'').
      assert (E : parent_of s2 ref = Some np) by (rewrite Hpar; unfold moved_parent; now rewrite decide_True).
      eapply chain_up; [exact E..|tauto|exact Hk''].
    + exists (S k'). assert (E : parent_of s2 i = Some p) by (rewrite Hpar; unfold moved_parent; now rewrite decide_False).
      eapply chain_up; [exact E..|tauto|exact IH].
  - assumption.
  - intros i. rewrite Hkids, (sh_kids _ _ _ Hsh). now apply relisted_kids.
  - assumption.
  - simpl. now rewrite (sh_ref _ _ Hsh).
Qed.

Lemma relink_ok s ref np :
  sched_ok s -> is_Some (s_ref s !! ref) -> is_Some (s_node s !! np) ->
  (exists k, chain s (parent_of s) (.= ref) np k) ->
  exists s', relink s ref np = Some s' /\ sched_ok s' /\ moved s ref np s'.
Proof.
  intros Hs [r Hr] Hnp Hk. pose proof (sched_ok_root _ _ Hs) as Hroot.
  destruct (ref_parent root s ref Hs) as (old & k0 & Hold & Hc0 & Hc1 & _ & _ & [n Hn]); [eauto|].
  unfold relink. rewrite Hn. cbn [mbind option_bind]. rewrite Hr. cbn [mbind option_bind].
  fold (relisted s ref np). destruct (Z.eqb_spec (r_active_cnt r) 0) as [Ez|Ez]; cbn [negb].
  - cbn [mbind option_bind]. eexists. split; [reflexivity|].
    apply reparented; eauto; [reflexivity|]. destruct (so_inv _ _ Hs) as [Ht [Hq Hi Hnd] Hrefs].
    split; [apply relisted_tree; eauto| |].
    + split; [intros i q; rewrite relisted_queue; apply Hq| |intros p; rewrite relisted_ids; apply Hnd].
      intros p c. rewrite relisted_ids, Hi. unfold moved_parent. change (cnt (relisted s ref np) c) with (cnt s c).
      case_decide; [subst c|reflexivity]. rewrite (cnt_lookup _ _ _ Hr). intuition congruence.
    + intros c rc Hc. rewrite relisted_ids. now apply Hrefs.
  - destruct (requeued_inv s ref old np r Hs Hr Ez Hold Hnp) as (s1 & s2 & Hun & Hset & Hsh & Hinv & Hcnt).
    rewrite Hun. cbn [mbind option_bind]. rewrite Hset. cbn [mbind option_bind].
    assert (n_parent n = Some old) as -> by (unfold parent_of in Hold; now rewrite Hn in Hold). cbn [mbind option_bind].
    assert (Hup : forall i k, chain s (parent_of s) (.= ref) i k -> chain s2 (moved_parent s ref np) (fun x => Some x = Some ref) i k).
    { intros i k. apply chain_weaken; [now intros x [= ->]| |]; intros x p Hx.
      - now rewrite (sh_parent _ _ _ Hsh), relisted_parent.
      - unfold moved_parent. now rewrite decide_False. }
    destruct (decr_active_cnt_ok root (moved_parent s ref np) (Some ref) s2 old k0) as (s3 & Hdec & Hinv3 & Hsh3 & Hfr);
      [apply Hup; eapply chain_avoid; eauto|assumption|].
    rewrite Hdec. cbn [mbind option_bind]. destruct Hk as [k Hk].
    destruct (incr_active_cnt_ok root (moved_parent s ref np) (fun x => Some x = Some ref) s3 np k) as (s4 & Hinc & Hinv4 & Hsh4).
    { eapply chain_shape; [exact Hsh3|]. now apply Hup. }
    { eapply uncount; [exact Hinv3| |unfold cnt; now rewrite Hfr]. unfold moved_parent. now rewrite decide_True. }
    rewrite Hinc. cbn [mbind option_bind]. eexists. split; [reflexivity|].
    apply reparented; eauto. etransitivity; [exact Hsh|]. etransitivity; eassumption.
Qed.

(** ** Rebinding *)

Lemma is_open_ok s c : sched_ok s -> is_Some (s_ref s !! c) -> h2o_http2_scheduler_is_open s c = true.
Proof.
  intros Hs Hc. destruct (ref_parent root s c Hs Hc) as (p & k & Hp & _ & _ & _ & [n Hn] & _).
  apply bool_decide_eq_true. exists p, n. split; [assumption|].
  apply (t_kids _ _ _ (i_tree _ _ _ _ _ (so_inv _ _ Hs))) in Hp. unfold kids in Hp. now rewrite Hn in Hp.
Qed.

Lemma set_weight_ok s c w : sched_ok s -> is_Some (s_ref s !! c) -> 1 <= w <= 257 -> sched_ok (upd_ref s c (set_weight w)).
Proof.
  intros Hs [r Hr] Hw. eapply (sched_ok_upd root s c (set_weight w)); [assumption|reflexivity|].
  eapply (upd_ref_inv _ _ (fun _ => 0)); [apply Hs|exact Hr|reflexivity|assumption|reflexivity|simpl; lia|reflexivity].
Qed.

Lemma chain_node s par av i k : is_Some (s_node s !! root) -> chain s par av i k -> is_Some (s_node s !! i).
Proof.
  intros Hr Hc. destruct Hc as [|i p k Hf _ _ _]; [assumption|].
  destruct (parent_node _ _ _ Hf) as (n & -> & _). eauto.
Qed.

Lemma root_node s : sched_ok s -> is_Some (s_node s !! root).
Proof. intros Hs. apply (tree_root _ _ _ (i_tree _ _ _ _ _ (so_inv _ _ Hs))). Qed.

Lemma root_no_ref s c : sched_ok s -> is_Some (s_ref s !! c) -> c <> root.
Proof.
  intros Hs [r Hr] ->. destruct (t_root _ _ _ (i_tree _ _ _ _ _ (so_inv _ _ Hs))) as (_ & _ & H). congruence.
Qed.

Lemma depends_on_ok s t ref k fuel :
  is_Some (s_node s !! root) -> parent_of s root = None -> chain s (parent_of s) nowhere t k -> (k < fuel)%nat -> t <> ref ->
  exists b, depends_on fuel s t ref = Some b /\
    (b = false -> chain s (parent_of s) (.= ref) t k) /\
    (b = true -> (exists j, (j < k)%nat /\ chain s (parent_of s) nowhere ref j) /\
       (ref <> root -> forall k', ~ chain s (parent_of s) (.= ref) t k')).
Proof.
  intros Hn Hr Hc. revert fuel. induction Hc as [|t p k Hf _ _ Hc IH]; intros fuel Hk Hne; (destruct fuel as [|fuel]; [lia|]).
  - exists false. destruct Hn as [n Hn]. unfold parent_of in Hr. simpl. rewrite Hn in Hr |- *. simpl in *. rewrite Hr.
    split_and!; [reflexivity|constructor|discriminate].
  - destruct (parent_node _ _ _ Hf) as (n & Hnt & Hp). simpl. rewrite Hnt. simpl. rewrite Hp.
    case_bool_decide as E.
    + subst p. exists true. split_and!; [reflexivity|discriminate|]. intros _. split; [eauto|].
      intros Hroot k' Hk'. inversion Hk' as [|t' p' k'' Hf' _ Ha Hp']; subst; [congruence|].
      assert (p' = ref) as -> by congruence. inversion Hp'; subst; [congruence|auto].
    + destruct (IH fuel) as (b & Hb & Hfalse & Htrue); [lia|assumption|]. exists b. split; [assumption|]. split.
      * intros ->. eapply chain_up; eauto.
      * intros ->. destruct Htrue as [(j & ? & ?) Hno]; [reflexivity|]. split; [exists j; split; [lia|assumption]|].
        intros Hroot k' Hk'. inversion Hk' as [|t' p' k'' Hf' _ Ha Hp']; subst; [congruence|].
        assert (p' = p) as -> by congruence. now apply (Hno Hroot k'').
Qed.

(** A node without dependents is above no other. *)
Lemma childless_above s ref t k :
  sched_ok s -> kids s ref = [] -> t <> ref -> chain s (parent_of s) nowhere t k -> chain s (parent_of s) (.= ref) t k.
Proof.
  intros Hs Hk Hne Hc. induction Hc as [|t p k Hf Hp _ Hc IH]; [constructor|].
  eapply chain_up; eauto. apply IH. intros ->.
  apply (t_kids _ _ _ (i_tree _ _ _ _ _ (so_inv _ _ Hs))) in Hf. rewrite Hk in Hf. now apply elem_of_nil in Hf.
Qed.

Lemma moved_ref s ref np s' i : moved s ref np s' -> is_Some (s_ref s' !! i) <-> is_Some (s_ref s !! i).
Proof. intros [_ _ _ H]. rewrite <- !(fmap_is_Some ref_shape), <- !lookup_fmap, H. reflexivity. Qed.

(** The state in which [ref] can be moved to [np]. *)
Lemma prepare_ok s ref np w exclusive :
  sched_ok s -> is_Some (s_ref s !! ref) -> is_Some (s_node s !! np) -> ref <> np -> 1 <= w <= 257 ->
  rebind_prepare s ref np w exclusive = Some (inl s) /\ exclusive = false /\ parent_of s ref = Some np /\
    upd_ref s ref (set_weight w) = s \/
  exists s1, rebind_prepare s ref np w exclusive = Some (inr s1) /\ sched_ok s1 /\
    (exists k, chain s1 (parent_of s1) (.= ref) np k) /\
    (forall i, is_Some (s_node s1 !! i) <-> is_Some (s_node s !! i)) /\
    ref_shape <$> s_ref s1 = ref_shape <$> s_ref (upd_ref s ref (set_weight w)) /\
    ((exists k, chain s (parent_of s) (.= ref) np k) -> s1 = upd_ref s ref (set_weight w)).
Proof.
  intros Hs Hr Hnp Hne Hw. pose proof (sched_ok_root _ _ Hs) as Hroot. pose proof (root_node _ Hs) as Hrn.
  destruct (ref_parent root s ref Hs Hr) as (old & k0 & Hold & Hc0 & Hc1 & _ & Hnold & [n Hn]).
  destruct Hr as [r Hr]. set (s0 := upd_ref s ref (set_weight w)).
  assert (Hs0 : sched_ok s0) by (apply set_weight_ok; eauto).
  assert (Hr0 : is_Some (s_ref s0 !! ref)) by (simpl; rewrite lookup_alter_eq, Hr; eauto).
  destruct (so_chain _ _ Hs0 np Hnp) as [k Hk]. pose proof (sched_ok_root _ _ Hs0) as Hroot0.
  assert (Hnn : n_parent n = Some old) by (unfold parent_of in Hold; now rewrite Hn in Hold).
  unfold rebind_prepare. rewrite is_open_ok by eauto. cbn [negb].
  rewrite bool_decide_false by assumption. rewrite (proj2 (Z.leb_le _ _)), (proj2 (Z.leb_le _ _)) by lia. cbn [andb negb].
  rewrite Hn. cbn [mbind option_bind]. rewrite Hr. cbn [mbind option_bind]. rewrite Hnn.
  destruct (bool_decide (Some old = Some np) && (r_weight r =? w) && negb exclusive) eqn:Esame.
  { left. split; [reflexivity|]. apply andb_prop in Esame as [Esame He]. apply andb_prop in Esame as [Esame Hrw].
    apply bool_decide_eq_true in Esame. apply Z.eqb_eq in Hrw. split; [now destruct exclusive|]. split; [congruence|].
    unfold s0, upd_ref. rewrite alter_id; [now destruct s|]. intros r'. rewrite Hr. intros [= <-]. subst w. now destruct r. }
  right. destruct (is_nil (n_all_refs n)) eqn:Ekids.
  { exists s0. split_and!; eauto. exists k. apply childless_above; try assumption; [|congruence].
    unfold kids. simpl. rewrite Hn. simpl. now destruct (n_all_refs n). }
  destruct (depends_on_ok s0 np ref k (size (s_node s0))) as (b & Hb & Hfalse & Htrue); try assumption; [|congruence|].
  { eapply (chain_fuel root); eassumption. }
  fold s0. rewrite Hb. cbn [mbind option_bind]. destruct b.
  - destruct Htrue as [(j & Hj & Hcj) Hno]; [reflexivity|].
    pose proof (upd_ref_chain root s ref (set_weight w) _ _ Hc1) as Hc1'.
    pose proof (upd_ref_chain root s ref (set_weight w) _ _ Hc0) as Hc0'. fold s0 in Hc0', Hc1'.
    pose proof (chain_depth _ _ _ _ _ _ _ Hroot0 Hcj Hc1') as ->.
    assert (Hnpr : is_Some (s_ref s0 !! np)).
    { apply (t_dom _ _ _ (i_tree _ _ _ _ _ (so_inv _ _ Hs0))); [|assumption].
      intros ->. pose proof (chain_depth _ _ _ _ _ _ _ Hroot0 Hk (chain_root _ _ _ _)). lia. }
    destruct (relink_ok s0 np old Hs0 Hnpr Hnold) as (s1 & Hrel & Hs1 & Hmv).
    { exists k0. eapply chain_avoid; [exact Hroot0|exact Hc0'|exact Hk|lia]. }
    rewrite Hrel. exists s1. split; [reflexivity|]. split; [assumption|]. split; [|split; [|split]].
    + assert (Hav : chain s0 (parent_of s0) (fun x => exists j, (k0 < j)%nat /\ chain s0 (parent_of s0) nowhere x j) old k0)
        by now apply chain_shallow.
      assert (Hpar : forall x p, ~ (exists j, (k0 < j)%nat /\ chain s0 (parent_of s0) nowhere x j) ->
                       parent_of s0 x = Some p -> parent_of s1 x = Some p).
      { intros x p Hx Hp. rewrite (mv_parent _ _ _ _ Hmv). unfold moved_parent. rewrite decide_False; [assumption|].
        intros ->. apply Hx. exists k. split; [lia|assumption]. }
      assert (Hnew : parent_of s1 np = Some old) by (rewrite (mv_parent _ _ _ _ Hmv); unfold moved_parent; now rewrite decide_True).
      exists (S k0). eapply chain_up; [exact Hnew..|congruence|].
      eapply chain_weaken; [|exact Hpar|exact Hpar|exact Hav]. intros x ->. exists (S k0). split; [lia|assumption].
    + intros i. now rewrite (mv_node _ _ _ _ Hmv).
    + exact (mv_ref _ _ _ _ Hmv).
    + intros [k' Hk']. exfalso. apply (Hno (root_no_ref _ _ Hs0 Hr0) k').
      eapply chain_weaken; [..|exact Hk']; auto.
  - exists s0. split_and!; eauto.
Qed.

Lemma shape_is_ref (s s' : sched) i : ref_shape <$> s_ref s' = ref_shape <$> s_ref s -> is_Some (s_ref s' !! i) <-> is_Some (s_ref s !! i).
Proof. intros H. rewrite <- !(fmap_is_Some ref_shape), <- !lookup_fmap, H. reflexivity. Qed.

Lemma upd_is_ref s ref f i : is_Some (s_ref (upd_ref s ref f) !! i) <-> is_Some (s_ref s !! i).
Proof. simpl. rewrite lookup_alter. case_decide; [subst i; apply fmap_is_Some|reflexivity]. Qed.

(** What rebinding leaves: the nodes, and the refs but for the weight. *)
Record rebound (s : sched) (ref : ref_id) (w : Z) (s' : sched) : Prop := {
  rb_node : forall i, is_Some (s_node s' !! i) <-> is_Some (s_node s !! i);
  rb_ref : ref_shape <$> s_ref s' = ref_shape <$> s_ref (upd_ref s ref (set_weight w)) }.

Lemma rebound_ref s ref w s' i : rebound s ref w s' -> is_Some (s_ref s' !! i) <-> is_Some (s_ref s !! i).
Proof. intros [_ H]. now rewrite (shape_is_ref _ _ _ H), upd_is_ref. Qed.

(** The last step, from the state that [rebind_prepare] leaves. *)
Lemma rebind_last s s1 ref np w :
  is_Some (s_ref s !! ref) -> is_Some (s_node s !! np) ->
  sched_ok s1 -> (exists k, chain s1 (parent_of s1) (.= ref) np k) ->
  (forall i, is_Some (s_node s1 !! i) <-> is_Some (s_node s !! i)) ->
  ref_shape <$> s_ref s1 = ref_shape <$> s_ref (upd_ref s ref (set_weight w)) ->
  exists s', relink s1 ref np = Some s' /\ sched_ok s' /\ moved s1 ref np s' /\ rebound s ref w s'.
Proof.
  intros Hr Hnp Hs1 Hk Hn1 Href1. destruct (relink_ok s1 ref np Hs1) as (s' & Hrel & Hs' & Hmv); [|now rewrite Hn1|assumption|].
  { now rewrite (shape_is_ref _ _ _ Href1), upd_is_ref. }
  exists s'. split_and!; [assumption..|]. split.
  - intros i. now rewrite (mv_node _ _ _ _ Hmv), Hn1.
  - now rewrite (mv_ref _ _ _ _ Hmv).
Qed.

Lemma rebind_shared_ok s ref np w :
  sched_ok s -> is_Some (s_ref s !! ref) -> is_Some (s_node s !! np) -> ref <> np -> 1 <= w <= 257 ->
  exists s', rebind_shared s ref np w = Some s' /\ sched_ok s' /\ rebound s ref w s' /\ parent_of s' ref = Some np /\
    ((exists k, chain s (parent_of s) (.= ref) np k) -> parent_of s ref <> Some np -> moved (upd_ref s ref (set_weight w)) ref np s').
Proof.
  intros Hs Hr Hnp Hne Hw. unfold rebind_shared.
  destruct (prepare_ok s ref np w false Hs Hr Hnp Hne Hw)
    as [(-> & _ & Hp & Hsame)|(s1 & -> & Hs1 & Hk & Hn1 & Href1 & Heq)]; cbn [mbind option_bind].
  - exists s. split_and!; [reflexivity|assumption| |assumption|congruence]. split; [reflexivity|now rewrite Hsame].
  - destruct (rebind_last s s1 ref np w) as (s' & Hrel & Hs' & Hmv & Hrb); [assumption..|].
    exists s'. split_and!; [assumption..| |].
    + rewrite (mv_parent _ _ _ _ Hmv). unfold moved_parent. now rewrite decide_True.
    + intros Hab _. now rewrite <- (Heq Hab).
Qed.

Lemma kid_ref s p c : sched_ok s -> c ∈ kids s p -> is_Some (s_ref s !! c) /\ parent_of s c = Some p.
Proof.
  intros Hs Hc. pose proof (i_tree _ _ _ _ _ (so_inv _ _ Hs)) as Ht.
  apply (t_kids _ _ _ Ht) in Hc. split; [|assumption]. apply (t_par _ _ _ Ht). eauto.
Qed.

Lemma kids_nodup s p : sched_ok s -> NoDup (kids s p).
Proof. intros Hs. apply (t_nodup _ _ _ (i_tree _ _ _ _ _ (so_inv _ _ Hs))). Qed.

Lemma kids_lookup s p n : s_node s !! p = Some n -> n_all_refs n = kids s p.
Proof. unfold kids. now intros ->. Qed.

Lemma kid_node s p c : c ∈ kids s p -> is_Some (s_node s !! p).
Proof. unfold kids. destruct (s_node s !! p); [eauto|]. intros H. now apply elem_of_nil in H. Qed.

Lemma ref_weight s c r : sched_ok s -> s_ref s !! c = Some r -> 1 <= r_weight r <= 257.
Proof. intros Hs Hc. now destruct (i_refs _ _ _ _ _ (so_inv _ _ Hs) c r Hc). Qed.

Lemma moved_head s c np p l s' :
  moved s c np s' -> kids s p = c :: l -> NoDup (kids s p) -> p <> np -> kids s' p = l.
Proof.
  intros Hmv Hk Hnd Hp. rewrite (mv_kids _ _ _ _ Hmv). unfold moved_kids. rewrite decide_False, app_nil_r by assumption.
  rewrite Hk in Hnd |- *. apply NoDup_cons in Hnd as [Hc _].
  rewrite filter_cons_False by (intros H; now apply H). now apply remove_absent.
Qed.

Lemma convert_loop_ok l fuel s p added :
  sched_ok s -> kids s p = l ++ [added] -> (length l <= fuel)%nat ->
  exists s', convert_to_exclusive_loop fuel s p added = Some s' /\ sched_ok s' /\ kids s' p = [added] /\
    parent_of s' added = Some p /\
    (forall i, is_Some (s_node s' !! i) <-> is_Some (s_node s !! i)) /\ ref_shape <$> s_ref s' = ref_shape <$> s_ref s.
Proof.
  revert fuel s. induction l as [|c l IH]; intros fuel s Hs Hk Hf.
  - destruct (kid_ref s p added Hs) as [_ Hpar]; [rewrite Hk; now left|].
    destruct (kid_node s p added) as [n Hn]; [rewrite Hk; now left|].
    exists s. split; [|split_and!; auto]. destruct fuel; simpl; rewrite Hn; simpl; rewrite (kids_lookup _ _ _ Hn), Hk;
      simpl; rewrite !bool_decide_true by reflexivity; reflexivity.
  - destruct fuel as [|fuel]; [simpl in Hf; lia|].
    pose proof (kids_nodup s p Hs) as Hnd. rewrite Hk in Hnd. simpl in Hnd. apply NoDup_cons in Hnd as [Hcl _].
    assert (Hca : c <> added) by (intros ->; apply Hcl, elem_of_app; right; now left).
    destruct (kid_ref s p c Hs) as [Hr Hpc]; [rewrite Hk; now left|].
    destruct (kid_ref s p added Hs) as [Hra Hpa]; [rewrite Hk; right; apply elem_of_app; right; now left|].
    destruct (kid_node s p c) as [n Hn]; [rewrite Hk; now left|].
    destruct (ref_parent root s added Hs Hra) as (p' & k & Hp' & Hkp & _ & Hpne & _ & Hna). assert (p' = p) as -> by congruence.
    destruct (ref_parent root s c Hs Hr) as (p'' & k'' & Hp'' & Hkp'' & Hkc & _). assert (p'' = p) as -> by congruence.
    pose proof (chain_depth _ _ _ _ _ _ _ (sched_ok_root _ _ Hs) Hkp Hkp'') as <-.
    destruct Hr as [r Hr]. destruct (rebind_shared_ok s c added (r_weight r)) as (s1 & Hreb & Hs1 & Hrb & _ & Hmv);
      [assumption|eauto|assumption|assumption|now apply (ref_weight s c)|].
    specialize (Hmv ltac:(exists (S k); eapply chain_up; eauto using chain_avoid, sched_ok_root) ltac:(congruence)).
    assert (Hk1 : kids s1 p = l ++ [added]).
    { eapply moved_head; [exact Hmv|exact Hk|apply (kids_nodup _ _ Hs)|congruence]. }
    destruct (IH fuel s1 Hs1 Hk1) as (s' & Hrun & Hs' & Hks' & Hpar & Hn' & Href'); [simpl in Hf; lia|].
    exists s'. split; [|split_and!; try assumption].
    + cbn [convert_to_exclusive_loop]. rewrite Hn. cbn [mbind option_bind]. rewrite (kids_lookup _ _ _ Hn), Hk. cbn [app].
      rewrite bool_decide_false by assumption. rewrite Hr. cbn [mbind option_bind]. rewrite Hreb. exact Hrun.
    + intros i. now rewrite Hn', (rb_node _ _ _ _ Hrb).
    + rewrite Href', (rb_ref _ _ _ _ Hrb). simpl. unfold upd_ref. rewrite alter_id; [reflexivity|].
      intros r'. rewrite Hr. intros [= <-]. now destruct r.
Qed.

Lemma convert_ok l s p added :
  sched_ok s -> kids s p = l ++ [added] ->
  exists s', convert_to_exclusive s p added = Some s' /\ sched_ok s' /\ kids s' p = [added] /\
    parent_of s' added = Some p /\
    (forall i, is_Some (s_node s' !! i) <-> is_Some (s_node s !! i)) /\ ref_shape <$> s_ref s' = ref_shape <$> s_ref s.
Proof.
  intros Hs Hk. destruct (kid_node s p added) as [n Hn]; [rewrite Hk; apply elem_of_app; right; now left|].
  unfold convert_to_exclusive. rewrite Hn. cbn [mbind option_bind]. apply convert_loop_ok with l; [assumption..|].
  rewrite (kids_lookup _ _ _ Hn), Hk, length_app. lia.
Qed.

(** Every ref can be moved under every other node. *)
Lemma rebind_ok s ref np w exclusive :
  sched_ok s -> is_Some (s_ref s !! ref) -> is_Some (s_node s !! np) -> ref <> np -> 1 <= w <= 257 ->
  exists s', h2o_http2_scheduler_rebind s ref np w exclusive = Some s' /\ sched_ok s' /\ rebound s ref w s' /\
    parent_of s' ref = Some np /\ (exclusive = true -> kids s' np = [ref]).
Proof.
  intros Hs Hr Hnp Hne Hw. unfold h2o_http2_scheduler_rebind, do_rebind.
  destruct (prepare_ok s ref np w exclusive Hs Hr Hnp Hne Hw)
    as [(-> & -> & Hp & Hsame)|(s1 & -> & Hs1 & Hk & Hn1 & Href1 & Heq)]; cbn [mbind option_bind].
  - exists s. split_and!; [reflexivity|assumption| |assumption|congruence]. split; [reflexivity|now rewrite Hsame].
  - destruct (rebind_last s s1 ref np w) as (s2 & Hrel & Hs2 & Hmv & Hrb); [assumption..|].
    rewrite Hrel. cbn [mbind option_bind].
    assert (Hpar : parent_of s2 ref = Some np) by (rewrite (mv_parent _ _ _ _ Hmv); unfold moved_parent; now rewrite decide_True).
    destruct exclusive; [|exists s2; split_and!; auto; discriminate].
    assert (Hkids : kids s2 np = filter (.≠ ref) (kids s1 np) ++ [ref]).
    { rewrite (mv_kids _ _ _ _ Hmv). unfold moved_kids. now rewrite decide_True. }
    destruct (convert_ok _ s2 np ref Hs2 Hkids) as (s' & Hc & Hs' & Hk' & Hp' & Hn' & Href').
    exists s'. split_and!; auto. split.
    + intros i. now rewrite Hn', (rb_node _ _ _ _ Hrb).
    + now rewrite Href', (rb_ref _ _ _ _ Hrb).
Qed.
End Move.
