(* ===== verification/SchedulerOpen.v ===== *)
(** * The HTTP/2 scheduler: opening, closing and relocating

    Refs that come, go and change their place in memory. *)
From S2P Require Import Prelude SchedQueue Scheduler SchedulerInv SchedulerMove.
From Stdlib Require Import ZArith Lia.
From stdpp Require Import base list numbers option gmap.
Open Scope Z_scope.

Section Open.
Context (root : ref_id).
Abbreviation inv := (inv root).
Abbreviation sched_ok := (sched_ok root).
Abbreviation chain := (chain root).

Lemma init_ok : sched_ok (h2o_http2_scheduler_init root).
Proof.
  assert (Hl : forall i n, s_node (h2o_http2_scheduler_init root) !! i = Some n -> i = root /\ n = Node None [] None).
  { intros i n H. simpl in H. now apply lookup_singleton_Some in H as [-> <-]. }
  assert (Hp : forall i, parent_of (h2o_http2_scheduler_init root) i = None).
  { intros i. unfold parent_of. destruct (_ !! i) eqn:E; [|reflexivity]. now apply Hl in E as [_ ->]. }
  assert (Hk : forall i, kids (h2o_http2_scheduler_init root) i = []).
  { intros i. unfold kids. destruct (_ !! i) eqn:E; [|reflexivity]. now apply Hl in E as [_ ->]. }
  assert (Hi : forall i, ids (h2o_http2_scheduler_init root) i = []).
  { intros i. unfold ids. destruct (_ !! i) eqn:E; [|reflexivity]. now apply Hl in E as [_ ->]. }
  split; [split; [split|split|]|].
  - split_and!; [|apply Hp|reflexivity]. simpl. rewrite lookup_singleton_eq. eauto.
  - intros i Hne. simpl. rewrite lookup_singleton_ne, lookup_empty by congruence.
    split; by intros [].
  - intros c. rewrite Hp. simpl. rewrite lookup_empty. split; by intros [].
  - intros c p. now rewrite Hp.
  - intros p c. rewrite Hk, Hp, elem_of_nil. now split.
  - intros p. rewrite Hk. constructor.
  - intros i q. destruct (_ !! i) eqn:E; [|discriminate]. now apply Hl in E as [_ ->].
  - intros p c. rewrite Hi, Hp, elem_of_nil. intuition congruence.
  - intros p. rewrite Hi. constructor.
  - intros c r. simpl. now rewrite lookup_empty.
  - intros i [n Hn]. apply Hl in Hn as [-> _]. exists 0%nat. constructor.
Qed.

(** A fresh ref is a leaf. *)
Definition opened (s : sched) (ref parent : ref_id) (w : Z) : sched :=
  insert_all (Sched (<[ref := Node (Some parent) [] None]> (s_node s)) (<[ref := OpenRef w 0 false 0 false]> (s_ref s)))
    parent ref.

Lemma opened_ok s ref p w :
  sched_ok s -> s_node s !! ref = None -> is_Some (s_node s !! p) -> 1 <= w <= 257 ->
  sched_ok (opened s ref p w) /\ kids (opened s ref p w) p = kids s p ++ [ref].
Proof.
  intros Hs Hn [np Hp] Hw. pose proof (so_inv _ _ Hs) as [Ht [Hq Hi Hnd] Hr]. set (s1 := opened s ref p w).
  assert (Hpr : p <> ref) by congruence.
  assert (Hroot : ref <> root) by (intros ->; destruct (root_node _ _ Hs); congruence).
  assert (Href : s_ref s !! ref = None).
  { apply eq_None_not_Some. rewrite <- (t_dom _ _ _ Ht ref Hroot), Hn. by intros []. }
  assert (Hl : forall i, s_node s1 !! i = if decide (i = ref) then Some (Node (Some p) [] None)
                        else if decide (i = p) then Some (set_all_refs (n_all_refs np ++ [ref]) np) else s_node s !! i).
  { intros i. unfold s1, opened, insert_all, upd_node. simpl. rewrite lookup_alter, !lookup_insert.
    repeat case_decide; subst; try congruence. now rewrite Hp. }
  assert (Hpar : forall i, parent_of s1 i = if decide (i = ref) then Some p else parent_of s i).
  { intros i. unfold parent_of. rewrite Hl. repeat case_decide; subst; try reflexivity. now rewrite Hp. }
  assert (Hkids : forall i, kids s1 i = kids s i ++ (if decide (i = p) then [ref] else [])).
  { intros i. unfold kids. rewrite Hl. repeat case_decide; subst; try congruence.
    - now rewrite Hn.
    - now rewrite Hp.
    - now rewrite app_nil_r. }
  assert (Hids : forall i, ids s1 i = ids s i).
  { intros i. unfold ids. rewrite Hl. repeat case_decide; subst; try reflexivity; [now rewrite Hn|now rewrite Hp]. }
  assert (Hcnt : forall i, cnt s1 i = cnt s i).
  { intros i. unfold cnt, s1, opened. simpl. rewrite lookup_insert. case_decide; [subst i; now rewrite Href|reflexivity]. }
  assert (Hnone : parent_of s ref = None) by (unfold parent_of; now rewrite Hn).
  assert (Hnode : forall i, is_Some (s_node s !! i) -> is_Some (s_node s1 !! i)).
  { intros i. rewrite Hl. repeat case_decide; eauto. }
  split; [split; [split; [split|split|]|]|].
  - rewrite Hpar, decide_False by congruence. destruct (t_root _ _ _ Ht) as (? & ? & ?). split_and!; auto.
    simpl. now rewrite lookup_insert_ne.
  - intros i Hne. pose proof (t_dom _ _ _ Ht i Hne) as Hd. rewrite Hl. simpl. rewrite lookup_insert.
    repeat case_decide; subst; try congruence; [split; eauto|rewrite <- Hd, Hp; split; eauto].
  - intros c. pose proof (t_par _ _ _ Ht c) as Hd. rewrite Hpar. simpl. rewrite lookup_insert.
    repeat case_decide; subst; try congruence. split; eauto.
  - intros c q. rewrite Hpar. case_decide; [intros [= <-]; apply Hnode; eauto|]. intros Hc. apply Hnode. now apply (t_par_node _ _ _ Ht c).
  - intros q c. rewrite Hkids, elem_of_app, (t_kids _ _ _ Ht), Hpar.
    destruct (decide (q = p)) as [->|]; rewrite ?list_elem_of_singleton, ?elem_of_nil; case_decide; intuition congruence.
  - intros q. rewrite Hkids. apply NoDup_app. split; [apply Ht|]. split.
    + intros x Hx. apply (t_kids _ _ _ Ht) in Hx. case_decide; rewrite ?list_elem_of_singleton, ?elem_of_nil; [congruence|tauto].
    + case_decide; [apply NoDup_singleton|constructor].
  - intros i q. rewrite Hl. repeat case_decide; subst; [discriminate| |apply Hq].
    intros Hqp. apply (Hq p). now rewrite Hp.
  - intros q c. rewrite Hids, Hcnt, Hi, Hpar. case_decide; [subst c|reflexivity].
    unfold cnt. rewrite Href. simpl. intuition congruence.
  - intros q. rewrite Hids. apply Hnd.
  - intros c r. simpl. rewrite lookup_insert, Hids. case_decide as E.
    + subst c. intros [= <-]. unfold ref_ok. simpl. replace (ids s ref) with ([] : list ref_id) by (unfold ids; now rewrite Hn).
      change (counted None []) with 0. lia.
    + intros Hc. now apply Hr.
  - assert (Hold : forall i k, chain s (parent_of s) nowhere i k -> chain s1 (parent_of s1) nowhere i k).
    { intros i k. apply chain_weaken; auto; intros x y _ Hx; rewrite Hpar; case_decide; congruence. }
    intros i. rewrite Hl. intros Hi'. destruct (decide (i = ref)) as [->|Hne].
    + destruct (so_chain _ _ Hs p) as [k Hk]; [eauto|]. exists (S k).
      assert (E : parent_of s1 ref = Some p) by now rewrite Hpar, decide_True.
      eapply chain_up; [exact E..|tauto|auto].
    + destruct (so_chain _ _ Hs i) as [k Hk]; [case_decide; subst; eauto|]. eauto.
  - rewrite Hkids. now rewrite decide_True.
Qed.

Lemma open_ok s ref p w exclusive :
  sched_ok s -> s_node s !! ref = None -> is_Some (s_node s !! p) -> 1 <= w <= 257 ->
  exists s', h2o_http2_scheduler_open s ref p w exclusive = Some s' /\ sched_ok s' /\ parent_of s' ref = Some p /\
    (exclusive = true -> kids s' p = [ref]) /\
    ref_shape <$> s_ref s' = ref_shape <$> <[ref := OpenRef w 0 false 0 false]> (s_ref s).
Proof.
  intros Hs Hn Hp Hw. unfold h2o_http2_scheduler_open. rewrite Hn, bool_decide_true by assumption.
  fold (opened s ref p w). destruct (opened_ok s ref p w Hs Hn Hp Hw) as [Hs1 Hk].
  destruct exclusive.
  - destruct (convert_ok root _ _ p ref Hs1 Hk) as (s' & Hc & Hs' & Hk' & Hp' & _ & Hr'). exists s'. auto.
  - exists (opened s ref p w). split_and!; auto; [|discriminate].
    apply (kid_ref root _ p ref Hs1). rewrite Hk. apply elem_of_app. right. now left.
Qed.

(** ** Closing *)

Lemma split_weight_range w total c : 1 <= split_weight w total c <= 256.
Proof.
  unfold split_weight. cbv zeta. match goal with |- context [wrap16 ?x] => generalize (wrap16 x) end.
  intros v. destruct (Z.ltb_spec v 1), (Z.ltb_spec 256 v); lia.
Qed.

Lemma self_shape (s s' : sched) :
  ref_shape <$> s_ref s' = ref_shape <$> s_ref s -> r_self_is_active <$> s_ref s' = r_self_is_active <$> s_ref s.
Proof.
  intros H. apply map_eq. intros i. apply (f_equal (fun m => m !! i)) in H. rewrite !lookup_fmap in *.
  destruct (s_ref s' !! i) as [[]|], (s_ref s !! i) as [[]|]; simplify_eq/=; congruence.
Qed.

Lemma rebound_self s ref w s' : rebound s ref w s' -> r_self_is_active <$> s_ref s' = r_self_is_active <$> s_ref s.
Proof.
  intros [_ H]. rewrite (self_shape _ _ H). apply map_eq. intros i. simpl. rewrite !lookup_fmap, lookup_alter.
  case_decide; [subst i|reflexivity]. now destruct (s_ref s !! ref).
Qed.

(** The dependents of a ref go to its parent, one by one. *)
Lemma raise_loop_ok l fuel s ref p w total :
  sched_ok s -> is_Some (s_ref s !! ref) -> parent_of s ref = Some p -> kids s ref = l -> (length l <= fuel)%nat ->
  exists s', raise_loop fuel s ref p w total = Some s' /\ sched_ok s' /\ kids s' ref = [] /\ parent_of s' ref = Some p /\
    (forall i, parent_of s' i = if decide (i ∈ l) then Some p else parent_of s i) /\
    (forall i, is_Some (s_node s' !! i) <-> is_Some (s_node s !! i)) /\
    r_self_is_active <$> s_ref s' = r_self_is_active <$> s_ref s.
Proof.
  revert fuel s. induction l as [|c l IH]; intros fuel s Hs Hr Hp Hk Hf;
    destruct (ref_parent root s ref Hs Hr) as (p' & k & Hp' & Hkp & Hkr & Hpne & Hpn & [n Hn]);
    assert (p' = p) as -> by congruence.
  - exists s. split; [|split_and!; auto; intros i; rewrite decide_False; auto; apply not_elem_of_nil].
    destruct fuel; simpl; rewrite Hn; simpl; now rewrite (kids_lookup _ _ _ Hn), Hk.
  - destruct fuel as [|fuel]; [simpl in Hf; lia|].
    pose proof (kids_nodup root s ref Hs) as Hnd. pose proof Hnd as Hnd'. rewrite Hk in Hnd'. apply NoDup_cons in Hnd' as [Hcl _].
    destruct (kid_ref root s ref c Hs) as [Hrc Hpc]; [rewrite Hk; now left|].
    destruct (ref_parent root s c Hs Hrc) as (p'' & k'' & Hp'' & Hkp'' & Hkc & Hrcne & _). assert (p'' = ref) as -> by congruence.
    pose proof (chain_depth _ _ _ _ _ _ _ (sched_ok_root _ _ Hs) Hkr Hkp'') as <-.
    destruct Hrc as [rc Hrc]. pose proof (split_weight_range w total (r_weight rc)).
    assert (Hcp : c <> p).
    { intros ->. pose proof (chain_depth _ _ _ _ _ _ _ (sched_ok_root _ _ Hs) Hkp Hkc). lia. }
    destruct (rebind_shared_ok root s c p (split_weight w total (r_weight rc))) as (s1 & Hreb & Hs1 & Hrb & _ & Hmv);
      [assumption|eauto|assumption|assumption|lia|].
    specialize (Hmv ltac:(exists k; eapply chain_avoid; [apply (sched_ok_root _ _ Hs)|exact Hkp|exact Hkc|lia]) ltac:(congruence)).
    assert (Hk1 : kids s1 ref = l) by (eapply moved_head; [exact Hmv|exact Hk|exact Hnd|congruence]).
    assert (Hpar1 : forall i, parent_of s1 i = if decide (i = c) then Some p else parent_of s i)
      by (intros i; exact (mv_parent _ _ _ _ Hmv i)).
    destruct (IH fuel s1 Hs1) as (s' & Hrun & Hs' & Hks' & Hpr' & Hpar' & Hn' & Hself'); try assumption.
    { now rewrite (rebound_ref _ _ _ _ _ Hrb). }
    { rewrite Hpar1. now rewrite decide_False. }
    { simpl in Hf. lia. }
    exists s'. split; [|split_and!; try assumption].
    + cbn [raise_loop]. rewrite Hn. cbn [mbind option_bind]. rewrite (kids_lookup _ _ _ Hn), Hk.
      rewrite Hrc. cbn [mbind option_bind]. rewrite Hreb. exact Hrun.
    + intros i. rewrite Hpar', Hpar1. destruct (decide (i ∈ l)) as [Hl|Hl].
      * rewrite decide_True; [reflexivity|now right].
      * case_decide as E; [subst i; rewrite decide_True; [reflexivity|now left]|].
        rewrite decide_False; [reflexivity|]. intros [?|?]%elem_of_cons; contradiction.
    + intros i. now rewrite Hn', (rb_node _ _ _ _ Hrb).
    + now rewrite Hself', (rebound_self _ _ _ _ Hrb).
Qed.

Lemma total_weight_pos s l :
  sched_ok s -> Forall (fun c => is_Some (s_ref s !! c)) l -> l <> [] -> 257 * len l < 2 ^ 32 -> total_weight_of s l <> 0.
Proof.
  intros Hs Hl Hne Hlen. unfold total_weight_of.
  assert (Hgen : forall t, 0 <= t -> t + 257 * len l < 2 ^ 32 ->
            t + len l <= fold_left (fun t c => wrap32 (t + default 0 (r_weight <$> s_ref s !! c))) l t).
  { clear Hne Hlen. induction Hl as [|c l [r Hr] _ IH]; intros t Ht Hb; [rewrite len_nil in *; simpl; lia|].
    rewrite len_cons in Hb |- *. pose proof (ref_weight root s c r Hs Hr). cbn [fold_left]. rewrite Hr. simpl.
    pose proof (len_nonneg l). unfold wrap32 at 2. rewrite (Z.mod_small (t + r_weight r)) by lia.
    specialize (IH (t + r_weight r) ltac:(lia) ltac:(lia)). lia. }
  specialize (Hgen 0 ltac:(lia) ltac:(lia)). destruct l as [|c l]; [contradiction|].
  rewrite len_cons in Hgen. pose proof (len_nonneg l). lia.
Qed.

(** A leaf that is gone from the lists. *)
Record detached (s : sched) (ref : ref_id) (s' : sched) : Prop := {
  dt_node : forall i, is_Some (s_node s' !! i) <-> i <> ref /\ is_Some (s_node s !! i);
  dt_parent : forall i, i <> ref -> parent_of s' i = parent_of s i;
  dt_kids : forall i, i <> ref -> kids s' i = filter (.≠ ref) (kids s i);
  dt_ids : forall i, i <> ref -> ids s' i = filter (.≠ ref) (ids s i);
  dt_wf : queues_wf s';
  dt_ref : s_ref s' = delete ref (s_ref s) }.

Lemma gone (s : sched) i : s_node s !! i = None -> parent_of s i = None /\ kids s i = [] /\ ids s i = [].
Proof. intros H. unfold parent_of, kids, ids. now rewrite H. Qed.

Lemma detached_ok s ref p r s' :
  sched_ok s -> kids s ref = [] -> s_ref s !! ref = Some r -> parent_of s ref = Some p -> detached s ref s' ->
  inv (parent_of s') None (single p (if decide (r_active_cnt r = 0) then 0 else 1)) s' /\
  forall i, is_Some (s_node s' !! i) -> exists k, chain s' (parent_of s') nowhere i k.
Proof.
  intros Hs Hk Hr Hp [Hn Hpar Hkids Hids Hwf Href]. pose proof (so_inv _ _ Hs) as [Ht [Hq Hi Hnd] Hrefs].
  pose proof (root_no_ref root s ref Hs ltac:(eauto)) as Hroot.
  assert (Hgone : s_node s' !! ref = None).
  { apply eq_None_not_Some. rewrite Hn. tauto. }
  destruct (gone s' ref Hgone) as (Hp0 & Hk0 & Hi0).
  assert (Hnokid : forall c, parent_of s c <> Some ref).
  { intros c Hc. apply (t_kids _ _ _ Ht) in Hc. rewrite Hk in Hc. now apply elem_of_nil in Hc. }
  assert (Hcnt : forall c, c <> ref -> cnt s' c = cnt s c).
  { intros c Hc. unfold cnt. now rewrite Href, lookup_delete_ne. }
  assert (Hmem : forall c, c = ref -> forall l, c ∈ filter (.≠ ref) (l : list ref_id) -> False).
  { intros c -> l [H _]%list_elem_of_filter. now apply H. }
  split; [split|].
  - split.
    + destruct (t_root _ _ _ Ht) as (H1 & H2 & H3). rewrite Hpar, Hn by congruence. split_and!; auto.
      now rewrite Href, lookup_delete_ne.
    + intros i Hne. rewrite Hn, Href, lookup_delete_is_Some, (t_dom _ _ _ Ht i Hne). intuition congruence.
    + intros c. rewrite Href, lookup_delete_is_Some, (t_par _ _ _ Ht c). destruct (decide (c = ref)) as [->|Hc].
      * rewrite Hp0. split; [intros [? _]; congruence|by intros []].
      * rewrite Hpar by assumption. intuition congruence.
    + intros c q. destruct (decide (c = ref)) as [->|Hc]; [now rewrite Hp0|]. rewrite Hpar by assumption. intros Hcq.
      rewrite Hn. split; [intros ->; now apply (Hnokid c)|now apply (t_par_node _ _ _ Ht c)].
    + intros q c. destruct (decide (q = ref)) as [->|Hq'].
      * rewrite Hk0, elem_of_nil. split; [tauto|]. destruct (decide (c = ref)) as [->|Hc]; [now rewrite Hp0|].
        rewrite Hpar by assumption. apply Hnokid.
      * rewrite Hkids, list_elem_of_filter, (t_kids _ _ _ Ht) by assumption.
        destruct (decide (c = ref)) as [->|Hc]; [rewrite Hp0; intuition congruence|rewrite Hpar by assumption; tauto].
    + intros q. destruct (decide (q = ref)) as [->|Hq']; [rewrite Hk0; constructor|]. rewrite Hkids by assumption.
      apply NoDup_filter, Ht.
  - split; [assumption| |].
    + intros q c. destruct (decide (c = ref)) as [->|Hc].
      * rewrite Hp0. split; [|intros [? _]; congruence]. destruct (decide (q = ref)) as [->|Hq'].
        -- rewrite Hi0. now intros ?%elem_of_nil.
        -- rewrite Hids by assumption. now intros ?%Hmem.
      * rewrite Hpar, Hcnt by assumption. destruct (decide (q = ref)) as [->|Hq'].
        -- rewrite Hi0, elem_of_nil. split; [tauto|]. intros [? _]. now apply (Hnokid c).
        -- rewrite Hids, list_elem_of_filter, Hi by assumption. tauto.
    + intros q. destruct (decide (q = ref)) as [->|Hq']; [rewrite Hi0; constructor|]. rewrite Hids by assumption.
      apply NoDup_filter, Hnd.
  - intros c rc. rewrite Href, lookup_delete_Some. intros [Hc Hrc]. specialize (Hrefs c rc Hrc). unfold ref_ok in *.
    rewrite Hids by congruence. unfold single. destruct (decide (r_active_cnt r = 0)) as [E|E].
    + rewrite remove_absent; [case_decide; lia|]. rewrite Hi. intros [_ H]. apply H. now rewrite (cnt_lookup _ _ _ Hr).
    + case_decide as Ep; [subst c|].
      * rewrite (remove_perm ref (ids s p)), counted_cons in Hrefs; [rewrite decide_False in Hrefs by discriminate; lia|apply Hnd|].
        apply Hi. now rewrite (cnt_lookup _ _ _ Hr).
      * rewrite remove_absent; [lia|]. rewrite Hi. intros [? _]. congruence.
  - intros i [Hne Hi']%Hn. destruct (so_chain _ _ Hs i Hi') as [k Hk']. exists k.
    eapply chain_weaken; [now intros x []| | |apply (childless_above root s ref); eauto];
      intros x y Hx; now rewrite Hpar.
Qed.

Definition unlisted (s : sched) (ref : ref_id) : sched := unlink_all (upd_node s ref (set_queue None)) ref.

Lemma unlisted_lookup s ref i :
  i <> ref -> s_node (unlisted s ref) !! i = (fun n => set_all_refs (filter (.≠ ref) (n_all_refs n)) n) <$> s_node s !! i.
Proof. intros H. simpl. now rewrite lookup_fmap, lookup_alter_ne by congruence. Qed.

Lemma forget_detached s s2 ref :
  queues_wf s2 -> s_ref s2 = s_ref s ->
  (forall i, i <> ref -> node_shape <$> s_node s2 !! i = node_shape <$> s_node (unlisted s ref) !! i) ->
  (forall i, i <> ref -> ids s2 i = filter (.≠ ref) (ids s i)) ->
  detached s ref (forget s2 ref).
Proof.
  intros Hw Hr Hsh Hids.
  assert (Hne : forall i, i <> ref -> s_node (forget s2 ref) !! i = s_node s2 !! i)
    by (intros i Hi; simpl; now rewrite lookup_delete_ne).
  split.
  - intros i. destruct (decide (i = ref)) as [->|Hi].
    + simpl. rewrite lookup_delete_eq. split; [by intros []|tauto].
    + rewrite Hne by assumption. specialize (Hsh i Hi). rewrite unlisted_lookup in Hsh by assumption.
      assert (Hiff : is_Some (s_node s2 !! i) <-> is_Some (s_node s !! i)).
      { rewrite <- (fmap_is_Some node_shape), Hsh, !fmap_is_Some. reflexivity. }
      tauto.
  - intros i Hi. unfold parent_of. rewrite Hne by assumption. specialize (Hsh i Hi).
    rewrite unlisted_lookup in Hsh by assumption. unfold node_shape in Hsh.
    destruct (s_node s2 !! i), (s_node s !! i); simplify_eq/=; first [assumption | reflexivity].
  - intros i Hi. unfold kids. rewrite Hne by assumption. specialize (Hsh i Hi).
    rewrite unlisted_lookup in Hsh by assumption. unfold node_shape in Hsh.
    destruct (s_node s2 !! i), (s_node s !! i); simplify_eq/=; first [assumption | reflexivity].
  - intros i Hi. rewrite <- Hids by assumption. unfold ids. now rewrite Hne.
  - intros i q. simpl. rewrite lookup_delete. case_decide; [discriminate|apply Hw].
  - simpl. now rewrite Hr.
Qed.

Lemma unlisted_ids s ref i : i <> ref -> ids (unlisted s ref) i = ids s i.
Proof. intros H. unfold ids. rewrite unlisted_lookup by assumption. now destruct (s_node s !! i). Qed.

Lemma unlisted_wf s ref : queues_wf s -> queues_wf (unlisted s ref).
Proof.
  intros H i q. simpl. rewrite lookup_fmap, lookup_alter. case_decide; [subst i; now destruct (s_node s !! ref)|].
  specialize (H i q). destruct (s_node s !! i); auto.
Qed.

(** The last part of closing, for a ref that has no dependents any more. *)
Lemma detach_ok s ref p r :
  sched_ok s -> kids s ref = [] -> s_ref s !! ref = Some r -> parent_of s ref = Some p ->
  exists s', (if r_self_is_active r then
                if negb (r_active_cnt r =? 1) then None
                else
                  s ← queue_unset (unlisted s ref) ref;
                  decr_active_cnt (forget s ref) p
              else if negb (r_active_cnt r =? 0) then None
              else Some (forget (unlisted s ref) ref)) = Some s' /\
    sched_ok s' /\ s_node s' !! ref = None /\ forall i, i <> ref -> parent_of s' i = parent_of s i.
Proof.
  intros Hs Hk Hr Hp. pose proof (so_inv _ _ Hs) as [Ht [Hq Hi Hnd] Hrefs].
  destruct (ref_parent root s ref Hs) as (p' & kp & Hp' & Hkp & _ & Hpne & Hpn & _); [eauto|]. assert (p' = p) as -> by congruence.
  assert (Hids : ids s ref = []).
  { destruct (ids s ref) as [|c l] eqn:E; [reflexivity|]. assert (Hc : c ∈ ids s ref) by (rewrite E; now left).
    apply Hi in Hc as [Hc _]. apply (t_kids _ _ _ Ht) in Hc. rewrite Hk in Hc. now apply elem_of_nil in Hc. }
  destruct (Hrefs ref r Hr) as (_ & _ & _ & Hcnt). rewrite Hids in Hcnt. change (counted None []) with 0 in Hcnt.
  assert (Hend : forall s', detached s ref s' -> (r_active_cnt r = 0 -> sched_ok s') /\
            (r_active_cnt r <> 0 -> exists s'', decr_active_cnt s' p = Some s'' /\ sched_ok s'' /\ same_shape s' s'')).
  { intros s' Hd. destruct (detached_ok s ref p r s' Hs Hk Hr Hp Hd) as [Hinv Hchain]. split; intros E.
    - rewrite decide_True in Hinv by assumption. split; [|assumption]. eapply inv_delta; [|exact Hinv].
      intros j. unfold single. now case_decide.
    - rewrite decide_False in Hinv by assumption. destruct (Hchain p) as [k Hkp'].
      { rewrite (dt_node _ _ _ Hd). split; assumption. }
      destruct (decr_active_cnt_ok root (parent_of s') None s' p k) as (s'' & Hdec & Hinv'' & Hsh & _); [|assumption|].
      { eapply chain_weaken; [..|exact Hkp']; auto. discriminate. }
      exists s''. split_and!; [assumption| |assumption]. split; [eapply inv_par; [|exact Hinv'']; intros; symmetry; now apply sh_parent|].
      intros i Hi'. rewrite (sh_is_node _ _ _ Hsh) in Hi'. destruct (Hchain i Hi') as [k' Hk']. exists k'.
      eapply chain_weaken; [..|exact Hk']; auto; intros x; now rewrite (sh_parent _ _ _ Hsh). }
  pose proof (unlisted_wf s ref Hq) as Hwf.
  destruct (r_self_is_active r); simpl in Hcnt.
  - rewrite (proj2 (Z.eqb_eq _ _)) by lia. cbn [negb].
    destruct (queue_unset_ok (unlisted s ref) ref p Hwf) as (s1 & Hun & Hsh & Hwf1 & Href1 & Hids1).
    { rewrite unlisted_ids by assumption. apply Hi. rewrite (cnt_lookup _ _ _ Hr). split; [assumption|lia]. }
    rewrite Hun. cbn [mbind option_bind].
    assert (Hd : detached s ref (forget s1 ref)).
    { apply forget_detached; try assumption; intros i Hne; [now apply sh_lookup|]. now rewrite Hids1, unlisted_ids. }
    destruct (Hend _ Hd) as [_ H]. destruct H as (s' & Hdec & Hs' & Hsh'); [lia|].
    exists s'. split_and!; auto.
    + apply eq_None_not_Some. rewrite (sh_is_node _ _ _ Hsh'), (dt_node _ _ _ Hd). tauto.
    + intros i Hne. rewrite (sh_parent _ _ _ Hsh'). now apply (dt_parent _ _ _ Hd).
  - rewrite (proj2 (Z.eqb_eq _ _)) by lia. cbn [negb].
    assert (Hd : detached s ref (forget (unlisted s ref) ref)).
    { apply forget_detached; try assumption; try reflexivity. intros i Hne. rewrite unlisted_ids by assumption.
      symmetry. apply remove_absent. rewrite Hi, (cnt_lookup _ _ _ Hr). intros [_ H]. lia. }
    exists (forget (unlisted s ref) ref). split; [reflexivity|]. split_and!.
    + apply Hend; [assumption|lia].
    + apply eq_None_not_Some. rewrite (dt_node _ _ _ Hd). tauto.
    + intros i Hne. now apply (dt_parent _ _ _ Hd).
Qed.

Lemma close_ok s ref :
  sched_ok s -> is_Some (s_ref s !! ref) -> 257 * len (kids s ref) < 2 ^ 32 ->
  exists s', h2o_http2_scheduler_close s ref = Some s' /\ sched_ok s' /\ s_node s' !! ref = None /\
    forall i, i <> ref -> parent_of s' i = if decide (parent_of s i = Some ref) then parent_of s ref else parent_of s i.
Proof.
  intros Hs Hr Hlen. destruct (ref_parent root s ref Hs Hr) as (p & k & Hp & _ & _ & _ & _ & [n Hn]).
  pose proof (is_open_ok root s ref Hs Hr) as Hopen. destruct Hr as [r Hr].
  assert (Hnp : n_parent n = Some p) by (unfold parent_of in Hp; now rewrite Hn in Hp).
  assert (Hraise : exists s1, (if is_nil (n_all_refs n) then Some s
             else if total_weight_of s (n_all_refs n) =? 0 then None
             else raise_loop (length (n_all_refs n)) s ref p (r_weight r) (total_weight_of s (n_all_refs n))) = Some s1 /\
             sched_ok s1 /\ kids s1 ref = [] /\ parent_of s1 ref = Some p /\ is_Some (s_ref s1 !! ref) /\
             forall i, parent_of s1 i = if decide (parent_of s i = Some ref) then Some p else parent_of s i).
  { rewrite (kids_lookup _ _ _ Hn). pose proof (i_tree _ _ _ _ _ (so_inv _ _ Hs)) as Ht.
    destruct (kids s ref) as [|c l] eqn:Ek; cbn [is_nil].
    - exists s. split_and!; eauto. intros i. rewrite decide_False; [reflexivity|]. rewrite <- (t_kids _ _ _ Ht), Ek. apply not_elem_of_nil.
    - rewrite <- Ek in *. rewrite (proj2 (Z.eqb_neq _ _)).
      2:{ apply total_weight_pos; [assumption| |rewrite Ek; discriminate|assumption].
          apply Forall_forall. intros x Hx. now apply (kid_ref root s ref). }
      destruct (raise_loop_ok (kids s ref) (length (kids s ref)) s ref p (r_weight r) (total_weight_of s (kids s ref)))
        as (s1 & Hrun & Hs1 & Hk1 & Hp1 & Hpar1 & _ & Hself); eauto.
      exists s1. split_and!; auto.
      + rewrite <- (fmap_is_Some r_self_is_active), <- lookup_fmap, Hself, lookup_fmap, fmap_is_Some. eauto.
      + intros i. rewrite Hpar1. apply decide_ext. apply (t_kids _ _ _ Ht). }
  destruct Hraise as (s1 & Hrun & Hs1 & Hk1 & Hp1 & [r1 Hr1] & Hpar1).
  destruct (detach_ok s1 ref p r1 Hs1 Hk1 Hr1 Hp1) as (s' & Hd & Hs' & Hgone & Hpar').
  exists s'. split_and!; auto.
  - unfold h2o_http2_scheduler_close. rewrite Hopen. cbn [negb]. rewrite Hn. cbn [mbind option_bind]. rewrite Hr.
    cbn [mbind option_bind]. rewrite Hnp. cbn [mbind option_bind]. cbv zeta. rewrite Hrun. cbn [mbind option_bind].
    fold (unlisted s1 ref). change (s_ref (unlisted s1 ref)) with (s_ref s1). rewrite Hr1. cbn [mbind option_bind]. exact Hd.
  - intros i Hi. now rewrite Hpar', Hpar1, Hp by assumption.
Qed.
End Open.
