(* ===== verification/SchedulerRelocate.v ===== *)
(** * The HTTP/2 scheduler: relocating a ref

    The tree with one ref in another place in memory is the same tree under another name. *)
From S2P Require Import Prelude SchedQueue Scheduler SchedulerInv SchedulerMove SchedulerOpen.
From Stdlib Require Import ZArith Lia.
From stdpp Require Import base list numbers option gmap.
Open Scope Z_scope.

(** ** Trees under other names *)

Definition ref_data (r : openref) : Z * Z * bool * Z := (r_weight r, r_active_cnt r, r_self_is_active r, r_deficit r).

Section Renaming.
Context (root : ref_id) (f : ref_id -> ref_id) (s s' : sched).
Abbreviation is_node i := (is_Some (s_node s !! i)).

Record renamed : Prop := {
  rn_inj : forall i j, is_node i -> is_node j -> f i = f j -> i = j;
  rn_root : f root = root;
  rn_node : forall j, is_Some (s_node s' !! j) <-> exists i, is_node i /\ j = f i;
  rn_parent : forall i, is_node i -> parent_of s' (f i) = f <$> parent_of s i;
  rn_kids : forall i, is_node i -> kids s' (f i) = f <$> kids s i;
  rn_ids : forall i, is_node i -> ids s' (f i) = f <$> ids s i;
  rn_ref : forall i, is_node i -> ref_data <$> s_ref s' !! f i = ref_data <$> s_ref s !! i;
  rn_ref_node : forall j, is_Some (s_ref s' !! j) -> is_Some (s_node s' !! j);
  rn_wf : queues_wf s' }.

Context (Hs : sched_ok root s) (R : renamed).

#[local] Lemma tree_s : tree_ok root (parent_of s) s.
Proof. apply (i_tree _ _ _ _ _ (so_inv _ _ Hs)). Qed.

#[local] Lemma child_node i p : parent_of s i = Some p -> is_node i /\ is_node p.
Proof.
  intros H. split; [|now apply (t_par_node _ _ _ tree_s i)].
  destruct (parent_node _ _ _ H) as (n & -> & _). eauto.
Qed.

#[local] Lemma renamed_is_ref i : is_node i -> is_Some (s_ref s' !! f i) <-> is_Some (s_ref s !! i).
Proof. intros Hi. rewrite <- !(fmap_is_Some ref_data), (rn_ref R) by assumption. reflexivity. Qed.

#[local] Lemma renamed_cnt i : is_node i -> cnt s' (f i) = cnt s i.
Proof.
  intros Hi. pose proof (rn_ref R i Hi) as H. unfold cnt.
  destruct (s_ref s' !! f i), (s_ref s !! i); simplify_eq/=; auto.
Qed.

(** A link of the renamed tree is one of the tree. *)
#[local] Lemma renamed_link c p :
  parent_of s' c = Some p <-> exists i q, parent_of s i = Some q /\ c = f i /\ p = f q.
Proof.
  split.
  - intros H. assert (Hc : is_Some (s_node s' !! c)) by (destruct (parent_node _ _ _ H) as (n & -> & _); eauto).
    apply (rn_node R) in Hc as (i & Hi & ->). rewrite (rn_parent R) in H by assumption.
    apply fmap_Some in H as (q & Hq & ->). eauto.
  - intros (i & q & Hq & -> & ->). destruct (child_node i q Hq) as [Hi _]. now rewrite (rn_parent R), Hq.
Qed.

(** A list of dependents that is renamed with the tree. *)
#[local] Lemma renamed_list (l l' : ref_id -> list ref_id) (P : ref_id -> Prop) :
  (forall i, is_node i -> l' (f i) = f <$> l i) -> (forall j, s_node s' !! j = None -> l' j = []) ->
  (forall p c, c ∈ l p <-> parent_of s c = Some p /\ P c) ->
  forall p c, c ∈ l' p <-> exists i q, parent_of s i = Some q /\ P i /\ c = f i /\ p = f q.
Proof.
  intros Hl Hout Hmem p c. split.
  - intros Hc. destruct (s_node s' !! p) eqn:E; [|rewrite (Hout p E) in Hc; now apply elem_of_nil in Hc].
    destruct (proj1 (rn_node R p)) as (q & Hq & ->); [eauto|]. rewrite (Hl q Hq) in Hc.
    apply list_elem_of_fmap in Hc as (i & -> & Hi). apply Hmem in Hi as [? ?]. eauto 6.
  - intros (i & q & Hq & HP & -> & ->). destruct (child_node i q Hq) as [_ Hnq]. rewrite (Hl q Hnq).
    apply list_elem_of_fmap. exists i. split; [reflexivity|]. now apply Hmem.
Qed.

#[local] Lemma renamed_nodup (l l' : ref_id -> list ref_id) :
  (forall i, is_node i -> l' (f i) = f <$> l i) -> (forall j, s_node s' !! j = None -> l' j = []) ->
  (forall p c, c ∈ l p -> parent_of s c = Some p) -> (forall p, NoDup (l p)) -> forall p, NoDup (l' p).
Proof.
  intros Hl Hout Hmem Hnd p. destruct (s_node s' !! p) eqn:E; [|rewrite (Hout p E); constructor].
  destruct (proj1 (rn_node R p)) as (q & Hq & ->); [eauto|]. rewrite (Hl q Hq).
  apply NoDup_fmap_2_strong; [|apply Hnd]. intros x y Hx Hy.
  apply (rn_inj R); [apply (child_node x q)|apply (child_node y q)]; auto.
Qed.

Lemma gone_kids j : s_node s' !! j = None -> kids s' j = [].
Proof. intros H. now apply gone. Qed.
Lemma gone_ids j : s_node s' !! j = None -> ids s' j = [].
Proof. intros H. now apply gone. Qed.

#[local] Lemma renamed_tree : tree_ok root (parent_of s') s'.
Proof.
  pose proof tree_s as Ht. pose proof (t_root _ _ _ Ht) as (Hr1 & Hr2 & Hr3). split.
  - split_and!.
    + apply (rn_node R). exists root. split; [assumption|]. symmetry. apply (rn_root R).
    + rewrite <- (rn_root R), (rn_parent R), Hr2 by assumption. reflexivity.
    + apply eq_None_not_Some. rewrite <- (rn_root R), renamed_is_ref, Hr3 by assumption. by intros [].
  - intros j Hj. split; [|apply (rn_ref_node R)]. intros (i & Hi & ->)%(rn_node R). apply renamed_is_ref; [assumption|].
    apply (t_dom _ _ _ Ht); [|assumption]. intros ->. now rewrite (rn_root R) in Hj.
  - intros c. split.
    + intros Hc. pose proof (rn_ref_node R c Hc) as (i & Hi & ->)%(rn_node R). rewrite (rn_parent R), fmap_is_Some by assumption.
      apply (t_par _ _ _ Ht). now apply renamed_is_ref.
    + intros [p (i & q & Hq & -> & _)%renamed_link]. destruct (child_node i q Hq) as [Hi _].
      apply renamed_is_ref; [assumption|]. apply (t_par _ _ _ Ht). eauto.
  - intros c p (i & q & Hq & _ & ->)%renamed_link. apply (rn_node R). exists q. split; [|reflexivity]. now apply (child_node i).
  - intros p c. rewrite renamed_link, (renamed_list (kids s) (kids s') (fun _ => True) (rn_kids R) gone_kids).
    + split; [intros (i & q & ? & _ & ?); eauto|]. intros (i & q & ? & ?). exists i, q. tauto.
    + intros. rewrite (t_kids _ _ _ Ht). tauto.
  - apply (renamed_nodup (kids s) (kids s') (rn_kids R) gone_kids); [|apply Ht]. intros p c. apply Ht.
Qed.

#[local] Lemma renamed_queues : queues_ok (parent_of s') s'.
Proof.
  pose proof (so_inv _ _ Hs) as [_ [Hq Hi Hnd] _]. split; [apply (rn_wf R)| |].
  - intros p c. rewrite (renamed_list (ids s) (ids s') (fun c => cnt s c <> 0) (rn_ids R) gone_ids Hi), renamed_link. split.
    + intros (i & q & Hq' & Hc & -> & ->). split; [eauto|]. now rewrite renamed_cnt by apply (child_node i q Hq').
    + intros [(i & q & Hq' & -> & ->) Hc]. exists i, q. rewrite renamed_cnt in Hc by apply (child_node i q Hq'). tauto.
  - apply (renamed_nodup (ids s) (ids s') (rn_ids R) gone_ids); [|assumption]. intros p c. apply Hi.
Qed.

Lemma counted_all l : counted None l = len l.
Proof. unfold counted. now rewrite filter_all. Qed.

Lemma renamed_ok : sched_ok root s'.
Proof.
  split; [split; [exact renamed_tree|exact renamed_queues|]|].
  - intros c rc Hc. pose proof (rn_ref_node R c ltac:(eauto)) as (i & Hi & ->)%(rn_node R).
    pose proof (rn_ref R i Hi) as Hd. rewrite Hc in Hd. destruct (s_ref s !! i) as [r|] eqn:Hr; [|discriminate].
    pose proof (i_refs _ _ _ _ _ (so_inv _ _ Hs) i r Hr) as Hok. unfold ref_ok in *. rewrite (rn_ids R i Hi).
    rewrite !counted_all in *. unfold len in *. rewrite length_fmap. injection Hd as -> -> -> ->. exact Hok.
  - assert (Hch : forall i k, chain root s (parent_of s) nowhere i k -> chain root s' (parent_of s') nowhere (f i) k).
    { intros i k. induction 1 as [|i p k Hf _ _ _ IH]; [rewrite (rn_root R); constructor|].
      assert (E : parent_of s' (f i) = Some (f p)) by (apply renamed_link; eauto).
      eapply chain_up; [exact E..|tauto|assumption]. }
    intros j (i & Hi & ->)%(rn_node R). destruct (so_chain _ _ Hs i Hi) as [k Hk]. eauto.
Qed.
End Renaming.

(** ** The queue under other names *)

Definition new_name (src dst i : ref_id) : ref_id := if decide (i = src) then dst else i.

Lemma rename_queue_slots src dst q : slots (rename_queue src dst q) = map (rename src dst) (slots q).
Proof. unfold slots. simpl. now rewrite skipn_map, firstn_map, map_app. Qed.

Lemma rename_queue_ok src dst q : queue_ok q -> queue_ok (rename_queue src dst q).
Proof.
  intros [Hb Ho Hl Hc]. split; try assumption.
  - simpl. now rewrite length_map.
  - rewrite rename_queue_slots. intros i l Hi Hne. apply list_lookup_fmap_Some in Hi as (l0 & -> & Hi).
    apply (Hc _ _ Hi). now intros ->.
Qed.

Lemma rename_keys src dst k ls :
  (keys_from k (map (rename src dst) ls)).*2 = new_name src dst <$> (keys_from k ls).*2.
Proof.
  revert k. induction ls as [|l ls IH]; intros k; [reflexivity|]. simpl. rewrite !fmap_app, IH. f_equal.
  unfold rename. rewrite !map_map. induction l; [reflexivity|]. simpl. now f_equal.
Qed.

Lemma rename_queue_ids src dst q : queue_ids (Some (rename_queue src dst q)) = new_name src dst <$> queue_ids (Some q).
Proof.
  simpl. unfold queue_view. rewrite !fmap_app, rename_queue_slots, rename_keys. f_equal. simpl.
  unfold rename. rewrite !map_map. generalize (q_anchor257 q). intros l. induction l; [reflexivity|]. simpl. now f_equal.
Qed.

Section Relocate.
Context (root : ref_id) (s : sched) (dst src : ref_id).
Context (Hs : sched_ok root s) (Hsrc : is_Some (s_ref s !! src)) (Hdst : s_node s !! dst = None).

#[local] Lemma src_facts : exists p, parent_of s src = Some p /\ p <> src /\ is_Some (s_node s !! src) /\ src <> dst /\ src <> root.
Proof.
  destruct (ref_parent root s src Hs Hsrc) as (p & k & Hp & _ & _ & Hpne & _ & [n Hn]). exists p.
  split_and!; eauto; [congruence|now apply (root_no_ref root s)].
Qed.

#[local] Lemma own_kids_absent : src ∉ kids s src /\ src ∉ ids s src.
Proof.
  destruct src_facts as (p & Hp & Hne & _). pose proof (so_inv _ _ Hs) as [Ht [_ Hi _] _].
  rewrite (t_kids _ _ _ Ht), Hi. split; [congruence|intros [? _]; congruence].
Qed.

#[local] Lemma new_name_absent (l : list ref_id) : src ∉ l -> new_name src dst <$> l = l.
Proof.
  intros H. rewrite <- (list_fmap_id l) at 2. apply list_fmap_ext. intros i x Hx. unfold new_name. rewrite decide_False; [reflexivity|].
  intros ->. apply H. eapply list_elem_of_lookup_2, Hx.
Qed.

(** The state that is left. *)
Context (n : node) (r : openref) (s' : sched).
Context (Hn : s_node s !! src = Some n) (Hr : s_ref s !! src = Some r).
Context (Hdn : s_node s' !! dst = Some (Node (n_parent n) (n_all_refs n) (if is_nil (n_all_refs n) then None else n_queue n))).
Context (Hsn : s_node s' !! src = None).
Context (Hon : forall i, i <> src -> i <> dst ->
  s_node s' !! i = (fun m => Node (if bool_decide (i ∈ n_all_refs n) then Some dst else n_parent m)
                          (rename src dst (n_all_refs m)) (rename_queue src dst <$> n_queue m)) <$> s_node s !! i).
Context (Href : s_ref s' = <[dst := OpenRef (r_weight r) (r_active_cnt r) (r_self_is_active r) (r_deficit r) true]>
                             (delete src (s_ref s))).

#[local] Lemma name_src : new_name src dst src = dst.
Proof. unfold new_name. now rewrite decide_True. Qed.

#[local] Lemma name_other i : i <> src -> new_name src dst i = i.
Proof. intros. unfold new_name. now rewrite decide_False. Qed.

#[local] Lemma node_ne_dst i : is_Some (s_node s !! i) -> i <> dst.
Proof. intros [m Hm] ->. congruence. Qed.

#[local] Lemma relocated_ids i : is_Some (s_node s !! i) -> ids s' (new_name src dst i) = new_name src dst <$> ids s i.
Proof.
  intros Hi. pose proof (node_ne_dst i Hi) as Hid. destruct (decide (i = src)) as [->|Hne].
  - rewrite name_src, new_name_absent by apply own_kids_absent. unfold ids. rewrite Hdn, Hn. simpl.
    destruct (n_all_refs n) as [|c l] eqn:E; [|reflexivity]. simpl. symmetry.
    destruct (queue_ids (n_queue n)) as [|c l] eqn:Eq; [reflexivity|].
    assert (Hc : c ∈ ids s src) by (unfold ids; rewrite Hn; simpl; rewrite Eq; now left).
    pose proof (so_inv _ _ Hs) as [Ht [_ Hids _] _]. apply Hids in Hc as [Hc _]. apply (t_kids _ _ _ Ht) in Hc.
    unfold kids in Hc. rewrite Hn in Hc. simpl in Hc. rewrite E in Hc. now apply elem_of_nil in Hc.
  - rewrite name_other by assumption. unfold ids. rewrite Hon by assumption. destruct Hi as [m ->]. simpl.
    destruct (n_queue m) as [q|]; [|reflexivity]. exact (rename_queue_ids src dst q).
Qed.

#[local] Lemma relocated_parent i : is_Some (s_node s !! i) -> parent_of s' (new_name src dst i) = new_name src dst <$> parent_of s i.
Proof.
  intros Hi. pose proof (node_ne_dst i Hi) as Hid. pose proof (i_tree _ _ _ _ _ (so_inv _ _ Hs)) as Ht.
  destruct (decide (i = src)) as [->|Hne].
  - rewrite name_src. destruct src_facts as (p & Hp & Hpne & _). rewrite Hp. unfold parent_of in Hp |- *. rewrite Hdn.
    rewrite Hn in Hp. simpl in *. rewrite Hp, name_other by assumption. reflexivity.
  - rewrite name_other by assumption. unfold parent_of at 1. rewrite Hon by assumption.
    pose proof (t_kids _ _ _ Ht src i) as Hk. unfold kids in Hk. rewrite Hn in Hk. simpl in Hk.
    destruct Hi as [m Hm]. rewrite Hm. simpl. assert (Hpm : parent_of s i = n_parent m) by (unfold parent_of; now rewrite Hm).
    case_bool_decide as E; [apply Hk in E; rewrite E; simpl; now rewrite name_src|]. rewrite Hpm in *.
    destruct (n_parent m) as [q|]; [|reflexivity]. simpl. rewrite name_other; [reflexivity|]. intros ->. now apply E, Hk.
Qed.

#[local] Lemma relocated_kids i : is_Some (s_node s !! i) -> kids s' (new_name src dst i) = new_name src dst <$> kids s i.
Proof.
  intros Hi. pose proof (node_ne_dst i Hi) as Hid. destruct (decide (i = src)) as [->|Hne].
  - rewrite name_src, new_name_absent by apply own_kids_absent. unfold kids. now rewrite Hdn, Hn.
  - rewrite name_other by assumption. unfold kids. rewrite Hon by assumption. now destruct Hi as [m ->].
Qed.

Lemma relocated_renamed : renamed root (new_name src dst) s s'.
Proof.
  destruct src_facts as (p & Hp & Hpne & _ & Hsd & Hsr). split.
  - intros i j Hi Hj. pose proof (node_ne_dst i Hi). pose proof (node_ne_dst j Hj). unfold new_name.
    repeat case_decide; congruence.
  - now apply name_other.
  - intros j. split.
    + intros Hj. destruct (decide (j = dst)) as [->|Hjd]; [exists src; rewrite name_src; eauto|].
      destruct (decide (j = src)) as [->|Hjs]; [rewrite Hsn in Hj; now destruct Hj|].
      exists j. rewrite name_other by assumption. rewrite Hon, fmap_is_Some in Hj by assumption. auto.
    + intros (i & Hi & ->). pose proof (node_ne_dst i Hi) as Hid. destruct (decide (i = src)) as [->|Hne].
      * rewrite name_src, Hdn. eauto.
      * rewrite name_other, Hon, fmap_is_Some by assumption. assumption.
  - exact relocated_parent.
  - exact relocated_kids.
  - exact relocated_ids.
  - intros i Hi. pose proof (node_ne_dst i Hi) as Hid. rewrite Href. destruct (decide (i = src)) as [->|Hne].
    + rewrite name_src, lookup_insert_eq, Hr. reflexivity.
    + rewrite name_other, lookup_insert_ne, lookup_delete_ne by congruence. reflexivity.
  - intros j. rewrite Href, lookup_insert. case_decide as E; [subst j; rewrite Hdn; eauto|].
    rewrite lookup_delete_is_Some. intros [Hne Hj]. rewrite Hon, fmap_is_Some by congruence.
    destruct (ref_parent root s j Hs Hj) as (_ & _ & _ & _ & _ & _ & _ & ?). assumption.
  - pose proof (q_ok _ _ (i_queues _ _ _ _ _ (so_inv _ _ Hs))) as Hw. intros i q. destruct (decide (i = dst)) as [->|Hid].
    + rewrite Hdn. simpl. destruct (is_nil (n_all_refs n)); [discriminate|]. intros H. apply (Hw src). now rewrite Hn.
    + destruct (decide (i = src)) as [->|Hne]; [rewrite Hsn; discriminate|]. rewrite Hon by assumption.
      specialize (Hw i). destruct (s_node s !! i) as [m|]; [|discriminate]. simpl in *.
      destruct (n_queue m) as [q0|]; [|discriminate]. intros [= <-]. apply rename_queue_ok. now apply Hw.
Qed.
End Relocate.

Lemma relocate_ok root s dst src :
  sched_ok root s -> is_Some (s_ref s !! src) -> s_node s !! dst = None ->
  exists s', h2o_http2_scheduler_relocate s dst src = Some s' /\ sched_ok root s' /\ renamed root (new_name src dst) s s'.
Proof.
  intros Hs Hsrc Hdst. destruct (src_facts root s dst src Hs Hsrc Hdst) as (p & Hp & Hpne & [n Hn] & Hsd & Hsr).
  destruct Hsrc as [r Hr]. unfold h2o_http2_scheduler_relocate.
  rewrite Hn. cbn [mbind option_bind]. rewrite Hr. cbn [mbind option_bind]. rewrite Hdst.
  rewrite (proj2 (forallb_forall _ _)); cbn [negb].
  2:{ intros c Hc. apply list_elem_of_In in Hc. rewrite (kids_lookup _ _ _ Hn) in Hc. apply bool_decide_eq_true.
      exact (proj2 (kid_ref root s src c Hs Hc)). }
  eexists. split; [reflexivity|]. set (s' := Sched _ _).
  cut (renamed root (new_name src dst) s s'); [intros R; split; [exact (renamed_ok root (new_name src dst) s s' Hs R)|assumption]|].
  eapply (relocated_renamed root s dst src Hs ltac:(eauto) Hdst n r s' Hn Hr); simpl.
  - now rewrite lookup_insert_eq.
  - now rewrite lookup_insert_ne, lookup_delete_eq.
  - intros i H1 H2. rewrite lookup_insert_ne, lookup_delete_ne, map_lookup_imap by congruence.
    now destruct (s_node s !! i).
  - reflexivity.
Qed.
