(* ===== verification/SchedulerRun.v ===== *)
(** * The HTTP/2 scheduler: running

    [proceed] serves one active stream, whichever node it starts from; [h2o_http2_scheduler_run]
    serves until no stream is active or the callback asks to stop. *)
From S2P Require Import Prelude SchedQueue Scheduler SchedulerInv SchedulerMove SchedulerOpen SchedulerRelocate.
From Stdlib Require Import ZArith Lia.
From stdpp Require Import base list numbers option gmap.
Open Scope Z_scope.

Definition selfs (s : sched) : gmap ref_id bool := r_self_is_active <$> s_ref s.

Lemma selfs_lookup s c : selfs s !! c = r_self_is_active <$> s_ref s !! c.
Proof. apply lookup_fmap. Qed.

Lemma shape_selfs s s' : same_shape s s' -> selfs s' = selfs s.
Proof. intros [_ H]. exact (self_shape s s' H). Qed.

Section Run.
Context (root : ref_id).
Abbreviation inv := (inv root).
Abbreviation sched_ok := (sched_ok root).
Abbreviation chain := (chain root).

(** The state with a member of the queue of [i] taken out, and the queue of [i] put instead. *)
Record taken (s : sched) (i ref : ref_id) (s1 : sched) : Prop := {
  tk_shape : same_shape s s1;
  tk_ref : s_ref s1 = s_ref s;
  tk_wf : queues_wf s1;
  tk_queue : is_Some (s_node s1 !! i ≫= n_queue);
  tk_ids : ids s i ≡ₚ ref :: ids s1 i;
  tk_other : forall j, j <> i -> ids s1 j = ids s j }.

Definition set_q (s : sched) (i : ref_id) (q : queue) : sched := upd_node s i (set_queue (Some q)).

Lemma set_q_shape s i q : same_shape s (set_q s i q).
Proof.
  split; [|reflexivity]. simpl. apply map_eq. intros j. rewrite !lookup_fmap, lookup_alter.
  case_decide; [subst j|reflexivity]. now destruct (s_node s !! i).
Qed.

Lemma set_q_ids s i q j : is_Some (s_node s !! i) -> ids (set_q s i q) j = if decide (j = i) then (queue_view q).*2 else ids s j.
Proof.
  intros [n Hn]. unfold ids, set_q. simpl. rewrite lookup_alter. case_decide as E.
  - subst j. rewrite decide_True, Hn by reflexivity. reflexivity.
  - now rewrite decide_False by congruence.
Qed.

Lemma set_q_wf s i q : queues_wf s -> queue_ok q -> queues_wf (set_q s i q).
Proof.
  intros Hw Hq j q'. simpl. rewrite lookup_alter. case_decide; [subst j|apply Hw].
  destruct (s_node s !! i); [|discriminate]. now intros [= <-].
Qed.

(** Taking from the queue of a node. *)
Lemma pop_ok s i n q :
  sched_ok s -> s_node s !! i = Some n -> n_queue n = Some q ->
  exists r q', queue_pop q = Some (r, q') /\
    match r with
    | None => ids s i = [] /\ ids (set_q s i q') i = [] /\ sched_ok (set_q s i q') /\ queue_is_empty q' = true
    | Some ref => taken s i ref (set_q s i q')
    end.
Proof.
  intros Hs Hn Hq. pose proof (so_inv _ _ Hs) as [Ht [Hw Hi Hnd] Hr].
  assert (Hqo : queue_ok q) by (apply (Hw i); now rewrite Hn).
  destruct (queue_pop_view q Hqo) as (r & q' & Hpop & Hq' & Hv & Hemp). exists r, q'. split; [assumption|].
  assert (Hids : ids s i = (queue_view q).*2) by (unfold ids; rewrite Hn; simpl; now rewrite Hq).
  pose proof (fun j => set_q_ids s i q' j ltac:(eauto)) as Hset.
  destruct (queue_view q) as [|[key ref] v]; simpl in Hv; injection Hv as -> Hv.
  - assert (Hsame : forall j, ids (set_q s i q') j = ids s j).
    { intros j. rewrite Hset. case_decide; [subst j; now rewrite Hids, Hv|reflexivity]. }
    split_and!; [now rewrite Hids|now rewrite Hsame, Hids| |auto].
    apply (sched_ok_shape root s); [assumption|apply set_q_shape|]. split.
    + eapply tree_ok_shape; [apply set_q_shape|assumption].
    + split; [now apply set_q_wf| |intros p; now rewrite Hsame]. intros p c. rewrite Hsame. apply Hi.
    + intros c rc. simpl. rewrite Hsame. apply Hr.
  - split; [apply set_q_shape|reflexivity|now apply set_q_wf| | |].
    + unfold set_q. simpl. rewrite lookup_alter_eq, Hn. eauto.
    + rewrite Hids, Hset, decide_True, Hv by reflexivity. simpl. constructor. rewrite <- list_fmap_compose. reflexivity.
    + intros j Hj. now rewrite Hset, decide_False.
Qed.

Lemma taken_member s i ref s1 :
  sched_ok s -> taken s i ref s1 ->
  parent_of s ref = Some i /\ cnt s ref <> 0 /\ (forall j, ref ∉ ids s1 j) /\ is_Some (s_node s1 !! i) /\ ref <> i.
Proof.
  intros Hs [Hsh Href Hw Hq Hids Hother]. pose proof (so_inv _ _ Hs) as [Ht [_ Hi Hnd] _].
  assert (Hin : ref ∈ ids s i) by (rewrite Hids; now left). apply Hi in Hin as [Hp Hc].
  assert (Hnot : ref ∉ ids s1 i) by (specialize (Hnd i); rewrite Hids in Hnd; now apply NoDup_cons in Hnd as [? _]).
  split_and!; auto.
  - intros j. destruct (decide (j = i)) as [->|Hj]; [assumption|]. rewrite Hother by assumption. rewrite Hi. intros [? _]. congruence.
  - destruct (s_node s1 !! i); [eauto|]. destruct Hq as [? H]. discriminate H.
  - destruct (ref_parent root s ref Hs) as (p & _ & Hp' & _ & _ & Hne & _).
    { apply (t_par _ _ _ Ht). eauto. }
    congruence.
Qed.

(** The member is put back; the refs may have changed by [g]. *)
Lemma requeue_ok s i ref s1 g :
  sched_ok s -> taken s i ref s1 ->
  (forall r, s_ref s !! ref = Some r -> r_weight (g r) = r_weight r /\ r_deficit (g r) = r_deficit r /\
     0 < r_active_cnt (g r) /\
     r_active_cnt (g r) - Z.b2z (r_self_is_active (g r)) = r_active_cnt r - Z.b2z (r_self_is_active r)) ->
  exists s2, queue_set (upd_ref s1 ref g) i ref = Some s2 /\ sched_ok s2 /\
    (forall j, ids s2 j ≡ₚ ids s j) /\
    (forall j, parent_of s2 j = parent_of s j) /\ (forall j, is_Some (s_node s2 !! j) <-> is_Some (s_node s !! j)) /\
    selfs s2 = alter (fun _ => default false (r_self_is_active ∘ g <$> s_ref s !! ref)) ref (selfs s).
Proof.
  intros Hs Htk Hg. destruct (taken_member s i ref s1 Hs Htk) as (Hp & Hc & Hout & Hni & Hne).
  destruct Htk as [Hsh Href Hw [q Hq] Hids Hother]. pose proof (so_inv _ _ Hs) as [Ht [_ Hi Hnd] Hr].
  destruct (proj2 (t_par _ _ _ Ht ref)) as [r Hrr]; [eauto|]. specialize (Hg r Hrr).
  destruct Hg as (Hgw & Hgd & Hgc & Hgs). pose proof (Hr ref r Hrr) as (Hwr & Hdr & Hcr & Hcntr).
  assert (Hr1 : s_ref (upd_ref s1 ref g) !! ref = Some (g r)) by (simpl; rewrite lookup_alter_eq, Href, Hrr; reflexivity).
  destruct (queue_set_ok (upd_ref s1 ref g) i ref (g r)) as (s2 & d & Hset & Hsh2 & Hw2 & Hd & Href2 & Hidi & Hidj);
    [assumption..|lia|lia|assumption|].
  rewrite (get_queue_id _ _ q) in Hset by assumption. exists s2. split; [assumption|].
  assert (Hperm : forall j, ids s2 j ≡ₚ ids s j).
  { intros j. destruct (decide (j = i)) as [->|Hj]; [rewrite Hidi, Hids; reflexivity|].
    rewrite Hidj by assumption. change (ids (upd_ref s1 ref g) j) with (ids s1 j). now rewrite Hother. }
  assert (Hpar : forall j, parent_of s2 j = parent_of s j).
  { intros j. rewrite (sh_parent _ _ _ Hsh2). exact (sh_parent _ _ _ Hsh). }
  assert (Hnode : forall j, is_Some (s_node s2 !! j) <-> is_Some (s_node s !! j)).
  { intros j. rewrite (sh_is_node _ _ _ Hsh2). exact (sh_is_node _ _ _ Hsh). }
  assert (Hlook : forall c, s_ref s2 !! c = if decide (c = ref) then Some (set_ref_deficit d (g r)) else s_ref s !! c).
  { intros c. rewrite Href2. simpl. rewrite lookup_insert, lookup_alter. repeat case_decide; try congruence; subst; auto. }
  split; [|split; [assumption|split; [assumption|split; [assumption|]]]].
  - assert (Hsame : forall c, cnt s2 c <> 0 <-> cnt s c <> 0).
    { intros c. unfold cnt. rewrite Hlook. case_decide; [subst c|reflexivity]. unfold cnt in Hc. rewrite Hrr in *. simpl in *. lia. }
    split; [eapply inv_par; [intros c; symmetry; apply Hpar|]; split|].
    + apply (tree_ok_dom root _ s); auto.
      * intros j. rewrite (sh_kids _ _ _ Hsh2). exact (sh_kids _ _ _ Hsh).
      * intros c. rewrite Hlook. case_decide; [subst c; rewrite Hrr; split; eauto|reflexivity].
    + split; [assumption| |intros p; rewrite Hperm; apply Hnd]. intros p c. rewrite Hperm, Hi, Hsame. reflexivity.
    + intros c rc. rewrite Hlook. unfold ref_ok. rewrite Hperm. case_decide as E.
      * subst c. intros [= <-]. simpl. rewrite Hgw. lia.
      * intros Hrc. exact (Hr c rc Hrc).
    + intros j Hj. apply Hnode in Hj. destruct (so_chain _ _ Hs j Hj) as [k Hk]. exists k.
      eapply chain_weaken; [..|exact Hk]; auto; intros x y; rewrite Hpar; auto.
  - apply map_eq. intros c. rewrite lookup_alter, !selfs_lookup, Hlook, Hrr. simpl.
    repeat case_decide; try congruence; subst; rewrite ?selfs_lookup, ?Hrr; reflexivity.
Qed.

(** The member was the last activity below its parent. *)
Lemma finish_ok s i ref s1 r g :
  sched_ok s -> taken s i ref s1 -> s_ref s !! ref = Some r -> r_self_is_active r = true -> r_active_cnt r = 1 ->
  r_weight (g r) = r_weight r -> r_deficit (g r) = r_deficit r -> r_active_cnt (g r) = 0 -> r_self_is_active (g r) = false ->
  exists s2, decr_active_cnt (upd_ref s1 ref g) i = Some s2 /\ sched_ok s2 /\
    (forall j, parent_of s2 j = parent_of s j) /\ (forall j, is_Some (s_node s2 !! j) <-> is_Some (s_node s !! j)) /\
    selfs s2 = alter (fun _ => false) ref (selfs s).
Proof.
  intros Hs Htk Hrr Hself Hcnt Hgw Hgd Hgc Hgs. destruct (taken_member s i ref s1 Hs Htk) as (Hp & Hc & Hout & Hni & Hne).
  destruct Htk as [Hsh Href Hw Hq Hids Hother]. pose proof (so_inv _ _ Hs) as [Ht [_ Hi Hnd] Hr].
  set (s1' := upd_ref s1 ref g).
  assert (Hlook : forall c, s_ref s1' !! c = if decide (c = ref) then Some (g r) else s_ref s !! c).
  { intros c. simpl. rewrite lookup_alter, Href. repeat case_decide; try congruence; subst; now rewrite ?Hrr. }
  assert (Hinv : inv (parent_of s) None (single i 1) s1').
  { split.
    - apply (tree_ok_dom root _ s); auto; intros j; [exact (sh_parent _ _ _ Hsh)|exact (sh_kids _ _ _ Hsh)|exact (sh_is_node _ _ _ Hsh)|].
      rewrite Hlook. case_decide; [subst j; rewrite Hrr; split; eauto|reflexivity].
    - split; [exact Hw| |].
      + intros p c. change (ids s1' p) with (ids s1 p). unfold cnt. rewrite Hlook. case_decide as E.
        * subst c. simpl. split; [now intros ?%Hout|lia].
        * fold (cnt s c). rewrite <- Hi. destruct (decide (p = i)) as [->|Hpi]; [rewrite Hids, elem_of_cons; intuition congruence|].
          now rewrite Hother.
      + intros p. change (ids s1' p) with (ids s1 p). destruct (decide (p = i)) as [->|Hpi]; [|rewrite Hother by assumption; apply Hnd].
        specialize (Hnd i). rewrite Hids in Hnd. now apply NoDup_cons in Hnd as [_ ?].
    - intros c rc. rewrite Hlook. change (ids s1' c) with (ids s1 c). unfold ref_ok, single. case_decide as E.
      + subst c. intros [= <-]. specialize (Hr ref r Hrr). unfold ref_ok in Hr. rewrite Hself in Hr. simpl in Hr.
        rewrite Hgs, Hother, decide_False by congruence. simpl. lia.
      + intros Hrc. specialize (Hr c rc Hrc). unfold ref_ok in Hr. case_decide as E2; [subst c|rewrite Hother by assumption; lia].
        rewrite Hids, counted_cons, decide_False in Hr by discriminate. lia. }
  assert (Hi0 : is_Some (s_node s !! i)) by now rewrite <- (sh_is_node _ _ i Hsh).
  destruct (so_chain _ _ Hs i Hi0) as [k Hk].
  destruct (decr_active_cnt_ok root (parent_of s) None s1' i k) as (s2 & Hdec & Hinv2 & Hsh2 & _); [|assumption|].
  { eapply chain_weaken; [..|exact Hk]; auto; [discriminate|]. intros x y _ Hx. rewrite <- Hx. exact (sh_parent _ _ _ Hsh). }
  assert (Hpar : forall j, parent_of s2 j = parent_of s j).
  { intros j. rewrite (sh_parent _ _ _ Hsh2). exact (sh_parent _ _ _ Hsh). }
  assert (Hnode : forall j, is_Some (s_node s2 !! j) <-> is_Some (s_node s !! j)).
  { intros j. rewrite (sh_is_node _ _ _ Hsh2). exact (sh_is_node _ _ _ Hsh). }
  exists s2. split_and!; auto.
  - split; [eapply inv_par; [|exact Hinv2]; auto|]. intros j Hj. apply Hnode in Hj.
    destruct (so_chain _ _ Hs j Hj) as [k' Hk']. exists k'. eapply chain_weaken; [..|exact Hk']; auto; intros x y; rewrite Hpar; auto.
  - rewrite (shape_selfs _ _ Hsh2). apply map_eq. intros c. rewrite lookup_alter, !selfs_lookup, Hlook.
    repeat case_decide; try congruence; subst; rewrite ?selfs_lookup, ?Hrr; simpl; congruence.
Qed.

Lemma upd_ref_id s c : upd_ref s c id = s.
Proof. unfold upd_ref. rewrite alter_id by reflexivity. now destruct s. Qed.

Lemma selfs_same s c (b : bool) : selfs s !! c = Some b -> alter (fun _ => b) c (selfs s) = selfs s.
Proof. intros H. apply alter_id. congruence. Qed.

Lemma same_size (s s' : sched) :
  (forall j, is_Some (s_node s' !! j) <-> is_Some (s_node s !! j)) -> size (s_node s') = size (s_node s).
Proof.
  intros H. rewrite <- !size_dom. f_equal. apply set_eq. intros j. rewrite !elem_of_dom. apply H.
Qed.

(** A ref that counts as active without being active itself has active dependents. *)
Lemma active_below s ref r :
  sched_ok s -> s_ref s !! ref = Some r -> r_active_cnt r <> 0 -> r_self_is_active r = false -> ids s ref <> [].
Proof.
  intros Hs Hr Hc Hself E. destruct (i_refs _ _ _ _ _ (so_inv _ _ Hs) ref r Hr) as (_ & _ & _ & H).
  rewrite Hself, E in H. now apply Hc.
Qed.

Section Callback.
Context {A : Type} (cb : ref_id -> A -> Z * bool * A).

(** What one call of [proceed] does when there is something to do: one call of the callback. *)
Definition served (s : sched) (a : A) (r : option (Z * sched * A)) : Prop :=
  exists ref bail still s' a', r = Some (bail, s', a') /\ selfs s !! ref = Some true /\ cb ref a = (bail, still, a') /\
    sched_ok s' /\ selfs s' = alter (fun _ => still) ref (selfs s).

Lemma serve_self s i ref s1 r a :
  sched_ok s -> taken s i ref s1 -> s_ref s !! ref = Some r -> r_self_is_active r = true ->
  served s a
    (let '(bail_out, still_is_active, a) := cb ref a in
     s ← (if still_is_active then queue_set s1 i ref
          else
            let s := upd_ref s1 ref (fun r => set_active_cnt (r_active_cnt r - 1) (set_self_is_active false r)) in
            if negb (r_active_cnt r - 1 =? 0) then queue_set s i ref
            else
              m ← s_node s !! ref;
              match n_parent m with
              | Some p => decr_active_cnt s p
              | None => Some s
              end);
     Some (bail_out, s, a)).
Proof.
  intros Hs Htk Hr Hself. destruct (cb ref a) as [[bail still] a'] eqn:Ecb.
  destruct (taken_member s i ref s1 Hs Htk) as (Hp & Hc & _ & Hni & _). rewrite (cnt_lookup _ _ _ Hr) in Hc.
  pose proof (i_refs _ _ _ _ _ (so_inv _ _ Hs) ref r Hr) as (_ & _ & Hnn & _).
  assert (Hsl : selfs s !! ref = Some true) by (rewrite selfs_lookup, Hr; simpl; now rewrite Hself).
  set (g := fun r => set_active_cnt (r_active_cnt r - 1) (set_self_is_active false r)).
  assert (Hend : exists s', (if still then queue_set s1 i ref
      else if negb (r_active_cnt r - 1 =? 0) then queue_set (upd_ref s1 ref g) i ref
           else m ← s_node (upd_ref s1 ref g) !! ref;
                match n_parent m with Some p => decr_active_cnt (upd_ref s1 ref g) p | None => Some (upd_ref s1 ref g) end) = Some s' /\
      sched_ok s' /\ selfs s' = alter (fun _ => still) ref (selfs s)).
  { destruct still; [|destruct (Z.eqb_spec (r_active_cnt r - 1) 0) as [E|E]; cbn [negb]].
    - destruct (requeue_ok s i ref s1 id Hs Htk) as (s' & Hset & Hs' & _ & _ & _ & Hsf).
      { intros r0. rewrite Hr. intros [= <-]. cbn. lia. }
      rewrite upd_ref_id in Hset. exists s'. split_and!; auto. rewrite Hsf, Hr. cbn. now rewrite Hself.
    - destruct (finish_ok s i ref s1 r g Hs Htk Hr Hself) as (s' & Hdec & Hs' & _ & _ & Hsf); try reflexivity; [lia|simpl; lia|].
      exists s'. split_and!; auto. rewrite <- (sh_parent _ _ _ (tk_shape _ _ _ _ Htk)) in Hp.
      destruct (parent_node _ _ _ Hp) as (m & Hm & Hpm). cbn [upd_ref s_node]. rewrite Hm. cbn [mbind option_bind].
      rewrite Hpm. exact Hdec.
    - destruct (requeue_ok s i ref s1 g Hs Htk) as (s' & Hset & Hs' & _ & _ & _ & Hsf).
      { intros r0. rewrite Hr. intros [= <-]. cbn. rewrite Hself. cbn. lia. }
      exists s'. split_and!; auto. rewrite Hsf, Hr. reflexivity. }
  destruct Hend as (s' & Hrun & Hs' & Hsf). exists ref, bail, still, s', a'. split_and!; auto.
  cbv zeta. fold g. rewrite Hrun. reflexivity.
Qed.

Lemma proceed_loop_ok fuel s i k a :
  sched_ok s -> chain s (parent_of s) nowhere i k -> is_Some (s_node s !! i) -> (size (s_node s) <= fuel + k + 1)%nat ->
  ids s i <> [] -> served s a (proceed_loop cb fuel s i a).
Proof.
  revert s i k. induction fuel as [|fuel IH]; intros s i k Hs Hk [n Hn] Hf Hids.
  all: assert (Hq : exists q, n_queue n = Some q)
    by (unfold ids in Hids; rewrite Hn in Hids; simpl in Hids; destruct (n_queue n); [eauto|contradiction]).
  all: destruct Hq as [q Hq]; destruct (pop_ok s i n q Hs Hn Hq) as ([ref|] & q' & Hpop & Htk); [|destruct Htk as [? _]; contradiction].
  all: destruct (taken_member s i ref _ Hs Htk) as (Hp & Hc & _ & _ & _).
  all: destruct (proj2 (t_par _ _ _ (i_tree _ _ _ _ _ (so_inv _ _ Hs)) ref)) as [r Hr]; [eauto|].
  all: rewrite (cnt_lookup _ _ _ Hr) in Hc.
  all: cbn [proceed_loop]; rewrite Hn; cbn [mbind option_bind]; rewrite Hq, Hpop; cbn [mbind option_bind].
  all: fold (set_q s i q'); change (s_ref (set_q s i q')) with (s_ref s); rewrite Hr; cbn [mbind option_bind].
  all: destruct (r_self_is_active r) eqn:Hself; cbn [negb];
    [rewrite (proj2 (Z.eqb_neq _ _)) by assumption; now apply serve_self|].
  all: destruct (requeue_ok s i ref (set_q s i q') id Hs Htk) as (s2 & Hset & Hs2 & Hperm & Hpar & Hnode & Hsf);
    [intros r0; rewrite Hr; intros [= <-]; cbn; pose proof (i_refs _ _ _ _ _ (so_inv _ _ Hs) ref r Hr) as (_ & _ & ? & _); lia|].
  all: rewrite upd_ref_id in Hset; rewrite Hset; cbn [mbind option_bind].
  all: assert (Hk2 : chain s2 (parent_of s2) nowhere ref (S k)).
  1,3: assert (E : parent_of s2 ref = Some i) by (now rewrite Hpar); eapply chain_up; [exact E..|tauto|];
       eapply chain_weaken; [..|exact Hk]; auto; intros x y _; now rewrite Hpar.
  - exfalso. pose proof (chain_fuel root _ _ _ _ _ (sched_ok_root _ _ Hs2) (root_node root s2 Hs2) Hk2) as H.
    rewrite (same_size s s2 Hnode) in H. lia.
  - assert (Hsame : selfs s2 = selfs s).
    { rewrite Hsf, Hr. apply selfs_same. rewrite selfs_lookup, Hr. simpl. now rewrite Hself. }
    destruct (IH s2 ref (S k) Hs2 Hk2) as (ref' & bail & still & s' & a' & H1 & H2 & H3 & H4 & H5).
    + apply Hnode. destruct (ref_parent root s ref Hs) as (_ & _ & _ & _ & _ & _ & _ & ?); eauto.
    + rewrite (same_size s s2 Hnode). lia.
    + intros E. specialize (Hperm ref). rewrite E in Hperm. apply Permutation_nil_l in Hperm.
      now apply (active_below s ref r).
    + exists ref', bail, still, s', a'. rewrite Hsame in H2, H5. auto 6.
Qed.

Lemma active_at_root s c k :
  sched_ok s -> chain s (parent_of s) nowhere c k -> c <> root -> cnt s c <> 0 -> ids s root <> [].
Proof.
  intros Hs Hk. pose proof (so_inv _ _ Hs) as [Ht [_ Hi _] Hr]. induction Hk as [|c p k Hp _ _ _ IH]; intros Hne Hc; [contradiction|].
  assert (Hin : c ∈ ids s p) by now apply Hi.
  assert (Hsome : ids s p <> []) by (intros E; rewrite E in Hin; now apply elem_of_nil in Hin).
  destruct (decide (p = root)) as [->|Hpr]; [assumption|]. apply IH; [assumption|].
  destruct (proj1 (t_dom _ _ _ Ht p Hpr)) as [r Hrp]; [now apply (t_par_node _ _ _ Ht c)|].
  rewrite (cnt_lookup _ _ _ Hrp). destruct (Hr p r Hrp) as (_ & _ & _ & H). rewrite counted_all in H.
  assert (0 < len (ids s p)) by (destruct (ids s p); [contradiction|rewrite len_cons; pose proof (len_nonneg l); lia]).
  destruct (r_self_is_active r); simpl in H; lia.
Qed.

(** Nothing is active when the queue of the root is empty. *)
Lemma idle_at_root s c r :
  sched_ok s -> ids s root = [] -> s_ref s !! c = Some r -> r_self_is_active r = false /\ r_active_cnt r = 0.
Proof.
  intros Hs Hids Hr. destruct (i_refs _ _ _ _ _ (so_inv _ _ Hs) c r Hr) as (_ & _ & _ & H).
  destruct (ref_parent root s c Hs) as (p & k & _ & _ & Hk & _); [eauto|].
  assert (Hc : cnt s c = 0).
  { destruct (decide (cnt s c = 0)) as [|Hc]; [assumption|]. exfalso.
    now apply (active_at_root s c (S k) Hs Hk (root_no_ref root s c Hs ltac:(eauto)) Hc). }
  rewrite (cnt_lookup _ _ _ Hr) in Hc. pose proof (counted_nonneg None (ids s c)).
  destruct (r_self_is_active r); simpl in H; [lia|auto].
Qed.

Lemma is_active_false s :
  sched_ok s -> h2o_http2_scheduler_is_active s root = Some false -> ids s root = [].
Proof.
  intros Hs. unfold h2o_http2_scheduler_is_active, ids. destruct (root_node root s Hs) as [n Hn]. rewrite Hn. simpl.
  destruct (n_queue n) as [q|] eqn:Eq; [|reflexivity]. intros [= H%negb_false_iff].
  unfold queue_ids. rewrite (queue_is_empty_view q); [reflexivity| |assumption].
  apply (q_ok _ _ (i_queues _ _ _ _ _ (so_inv _ _ Hs)) root). now rewrite Hn.
Qed.

Lemma is_active_some s : sched_ok s -> exists b, h2o_http2_scheduler_is_active s root = Some b.
Proof. intros Hs. unfold h2o_http2_scheduler_is_active. destruct (root_node root s Hs) as [n ->]. simpl. eauto. Qed.

(** With nothing to do, [proceed] leaves a queue that is seen to be empty. *)
Lemma proceed_idle s a :
  sched_ok s -> ids s root = [] ->
  exists s', proceed cb s root a = Some (0, s', a) /\ sched_ok s' /\ ids s' root = [] /\
    h2o_http2_scheduler_is_active s' root = Some false.
Proof.
  intros Hs Hids. destruct (root_node root s Hs) as [n Hn]. unfold proceed.
  assert (Hrun : proceed_loop cb (size (s_node s)) s root a = match n_queue n with
            | None => Some (0, s, a) | Some q => '(popped, q) ← queue_pop q;
                match popped with None => Some (0, set_q s root q, a) | Some _ => proceed_loop cb (size (s_node s)) s root a end end).
  { destruct (n_queue n) as [q|] eqn:Eq; [|destruct (size (s_node s)); cbn [proceed_loop]; rewrite Hn; cbn [mbind option_bind]; now rewrite Eq].
    destruct (queue_pop q) as [[[x|] q']|] eqn:Ep; try reflexivity;
      destruct (size (s_node s)); cbn [proceed_loop]; rewrite Hn; cbn [mbind option_bind]; rewrite Eq, Ep; reflexivity. }
  rewrite Hrun. destruct (n_queue n) as [q|] eqn:Eq.
  - destruct (pop_ok s root n q Hs Hn Eq) as ([ref|] & q' & Hpop & H).
    + apply tk_ids in H. rewrite Hids in H. now apply Permutation_nil_cons in H.
    + rewrite Hpop. cbn [mbind option_bind]. destruct H as (_ & Hids' & Hs' & Hemp). eexists. split_and!; [reflexivity|assumption..|].
      unfold h2o_http2_scheduler_is_active, set_q. simpl. rewrite lookup_alter_eq, Hn. simpl. now rewrite Hemp.
  - exists s. split_and!; auto. unfold h2o_http2_scheduler_is_active. rewrite Hn. simpl. now rewrite Eq.
Qed.

(** The number of active streams. *)
Definition num_active (s : sched) : nat := size (filter (fun e : ref_id * bool => e.2 = true) (selfs s)).

Lemma num_active_served s s' ref (still : bool) :
  selfs s !! ref = Some true -> selfs s' = alter (fun _ => still) ref (selfs s) ->
  num_active s = (num_active s' + if still then 0 else 1)%nat.
Proof.
  intros Hr Hs. unfold num_active. rewrite Hs. destruct still.
  - rewrite selfs_same by assumption. lia.
  - replace (filter _ (alter _ ref (selfs s))) with (delete ref (filter (fun e : ref_id * bool => e.2 = true) (selfs s))).
    + rewrite map_size_delete_Some; [|exists true; now apply map_lookup_filter_Some].
      assert (size (filter (fun e : ref_id * bool => e.2 = true) (selfs s)) <> 0%nat); [|lia].
      apply map_size_non_empty_iff. intros E. apply (f_equal (fun m => m !! ref)) in E. rewrite lookup_empty in E.
      apply map_lookup_filter_None in E as [E|E]; [congruence|]. now apply (E true).
    + apply map_eq. intros c. apply option_eq. intros b. rewrite lookup_delete_Some, !map_lookup_filter_Some.
      rewrite lookup_alter. case_decide as E; [subst c; rewrite Hr|]; simpl; naive_solver.
Qed.

(** The callback says that a stream is still active only when it has sent something. *)
Definition makes_progress (m : A -> nat) : Prop :=
  forall ref a bail still a', cb ref a = (bail, still, a') -> (m a' <= m a)%nat /\ (still = true -> (m a' < m a)%nat).

Lemma run_ok m fuel s a :
  makes_progress m -> sched_ok s -> (m a + num_active s < fuel)%nat ->
  exists bail s' a', h2o_http2_scheduler_run cb fuel s root a = Some (bail, s', a') /\ sched_ok s' /\
    (bail = 0 -> ids s' root = []).
Proof.
  intros Hm. revert s a. induction fuel as [|fuel IH]; intros s a Hs Hf; [lia|].
  cbn [h2o_http2_scheduler_run]. destruct (is_active_some s Hs) as [b Hb]. rewrite Hb. cbn [mbind option_bind].
  destruct b; cbn [negb]; [|exists 0, s, a; split_and!; auto using is_active_false].
  destruct (decide (ids s root = [])) as [E|E].
  - destruct (proceed_idle s a Hs E) as (s' & Hp & Hs' & Hids & Hact). rewrite Hp. cbn [mbind option_bind].
    change (negb (0 =? 0)) with false. cbn iota. exists 0, s', a. split; [|auto].
    destruct fuel; cbn [h2o_http2_scheduler_run]; rewrite Hact; reflexivity.
  - destruct (proceed_loop_ok (size (s_node s)) s root 0 a Hs) as (ref & bail & still & s' & a' & Hp & Hr & Hcb & Hs' & Hsf);
      [constructor|now apply root_node|lia|assumption|].
    fold (proceed cb s root a) in Hp. rewrite Hp. cbn [mbind option_bind].
    destruct (Z.eqb_spec bail 0) as [E0|E0]; cbn [negb]; [|exists bail, s', a'; split_and!; auto; contradiction].
    destruct (Hm _ _ _ _ _ Hcb) as [Hle Hlt]. pose proof (num_active_served s s' ref still Hr Hsf) as Hn.
    apply IH; [assumption|]. destruct still; [specialize (Hlt eq_refl)|]; lia.
Qed.
End Callback.
End Run.

(** ** The life of a scheduler *)

Inductive sched_op :=
| OpOpen (ref parent : ref_id) (weight : Z) (exclusive : bool)
| OpClose (ref : ref_id)
| OpRelocate (dst src : ref_id)
| OpRebind (ref new_parent : ref_id) (weight : Z) (exclusive : bool)
| OpActivate (ref : ref_id)
| OpDeactivate (ref : ref_id).

Definition exec (s : sched) (op : sched_op) : option sched :=
  match op with
  | OpOpen ref p w e => h2o_http2_scheduler_open s ref p w e
  | OpClose ref => h2o_http2_scheduler_close s ref
  | OpRelocate dst src => h2o_http2_scheduler_relocate s dst src
  | OpRebind ref p w e => h2o_http2_scheduler_rebind s ref p w e
  | OpActivate ref => h2o_http2_scheduler_activate s ref
  | OpDeactivate ref => h2o_http2_scheduler_deactivate s ref
  end.

(** What the caller has to see to: a ref that is opened, or relocated to, is not in use and all
    others are open, weights are of 1 to 257, a stream does not depend on itself (connection.c
    refuses such frames), and a stream has less than 2^24 dependents. *)
Definition allowed (s : sched) (op : sched_op) : Prop :=
  match op with
  | OpOpen ref p w _ => s_node s !! ref = None /\ is_Some (s_node s !! p) /\ 1 <= w <= 257
  | OpClose ref => is_Some (s_ref s !! ref) /\ 257 * len (kids s ref) < 2 ^ 32
  | OpRelocate dst src => s_node s !! dst = None /\ is_Some (s_ref s !! src)
  | OpRebind ref p w _ => is_Some (s_ref s !! ref) /\ is_Some (s_node s !! p) /\ ref <> p /\ 1 <= w <= 257
  | OpActivate ref | OpDeactivate ref => is_Some (s_ref s !! ref)
  end.

(** The states that a connection can bring its scheduler to, with runs in between. *)
Inductive reached (root : ref_id) : sched -> Prop :=
| reached_init : reached root (h2o_http2_scheduler_init root)
| reached_op s op s' : reached root s -> allowed s op -> exec s op = Some s' -> reached root s'
| reached_run {A} (cb : ref_id -> A -> Z * bool * A) m fuel s a bail s' a' :
    reached root s -> makes_progress cb m -> (m a + num_active s < fuel)%nat ->
    h2o_http2_scheduler_run cb fuel s root a = Some (bail, s', a') -> reached root s'.

Lemma exec_ok root s op : sched_ok root s -> allowed s op -> exists s', exec s op = Some s' /\ sched_ok root s'.
Proof.
  intros Hs. destruct op as [ref p w e|ref|dst src|ref p w e|ref|ref]; simpl.
  - intros (? & ? & ?). destruct (open_ok root s ref p w e) as (s' & ? & ? & _); eauto.
  - intros [? ?]. destruct (close_ok root s ref) as (s' & ? & ? & _); eauto.
  - intros [? ?]. destruct (relocate_ok root s dst src) as (s' & ? & ? & _); eauto.
  - intros (? & ? & ? & ?). destruct (rebind_ok root s ref p w e) as (s' & ? & ? & _); eauto.
  - intros ?. destruct (activate_preserves root s ref) as (s' & ? & ? & _); eauto.
  - intros ?. destruct (deactivate_preserves root s ref) as (s' & ? & ? & _); eauto.
Qed.

Lemma reached_ok root s : reached root s -> sched_ok root s.
Proof.
  induction 1 as [|s op s' _ IH Ha He|A cb m fuel s a bail s' a' _ IH Hm Hf Hrun].
  - apply init_ok.
  - destruct (exec_ok root s op IH Ha) as (s1 & H1 & Hs1). congruence.
  - destruct (run_ok root cb m fuel s a Hm IH Hf) as (b & s1 & a1 & H1 & Hs1 & _). congruence.
Qed.

(** C23: in every state that a connection can bring its scheduler to by opening, closing, relocating,
    rebinding (exclusively or not), activating and deactivating streams and by runs, the dependencies
    form a tree, the queue of every node holds exactly its dependents with activity, once each, and
    every counter is right; and every operation that the caller may call there ends without failing an
    assertion. *)
Theorem scheduler_invariant root s :
  reached root s ->
  sched_ok root s /\ forall op, allowed s op -> exists s', exec s op = Some s' /\ reached root s'.
Proof.
  intros H. pose proof (reached_ok root s H) as Hs. split; [assumption|].
  intros op Ha. destruct (exec_ok root s op Hs Ha) as (s' & He & _). eauto using reached_op.
Qed.

Definition example_ops : list sched_op :=
  [OpOpen 1 0 16 false; OpOpen 3 1 32 false; OpOpen 5 1 64 false; OpActivate 3; OpActivate 5; OpOpen 7 0 255 true;
   OpRebind 7 3 10 true; OpActivate 7; OpRelocate 9 1].

Definition allowedb (s : sched) (op : sched_op) : bool :=
  match op with
  | OpOpen ref p w _ => bool_decide (s_node s !! ref = None) && bool_decide (is_Some (s_node s !! p)) && (1 <=? w) && (w <=? 257)
  | OpClose ref => bool_decide (is_Some (s_ref s !! ref)) && (257 * len (kids s ref) <? 2 ^ 32)
  | OpRelocate dst src => bool_decide (s_node s !! dst = None) && bool_decide (is_Some (s_ref s !! src))
  | OpRebind ref p w _ => bool_decide (is_Some (s_ref s !! ref)) && bool_decide (is_Some (s_node s !! p)) && bool_decide (ref <> p)
                          && (1 <=? w) && (w <=? 257)
  | OpActivate ref | OpDeactivate ref => bool_decide (is_Some (s_ref s !! ref))
  end.

Lemma allowedb_ok s op : allowedb s op = true -> allowed s op.
Proof.
  destruct op; simpl; rewrite ?andb_true_iff, ?bool_decide_eq_true; intros; split_and?; try tauto; lia.
Qed.

Fixpoint exec_all (s : sched) (ops : list sched_op) : option sched :=
  match ops with
  | [] => Some s
  | op :: ops => if allowedb s op then s ← exec s op; exec_all s ops else None
  end.

Lemma exec_all_reached root ops s s' : reached root s -> exec_all s ops = Some s' -> reached root s'.
Proof.
  revert s. induction ops as [|op ops IH]; simpl; intros s Hs; [now intros [= <-]|].
  destruct (allowedb s op) eqn:E; [|discriminate]. apply allowedb_ok in E.
  destruct (exec s op) as [s1|] eqn:E1; [|discriminate]. simpl. apply IH. eauto using reached_op.
Qed.

Definition example_sched : sched := default (h2o_http2_scheduler_init 0) (exec_all (h2o_http2_scheduler_init 0) example_ops).

Lemma example_reached : reached 0 example_sched.
Proof.
  apply (exec_all_reached 0 example_ops (h2o_http2_scheduler_init 0)); [constructor|].
  unfold example_sched. destruct (exec_all _ _) eqn:E; [reflexivity|]. vm_compute in E. discriminate.
Qed.

Lemma scheduler_invariant_witness :
  parent_of example_sched 3 = Some 0%nat /\ kids example_sched 7 = [9%nat] /\
  exists s', exec example_sched (OpClose 3) = Some s' /\ reached 0 s'.
Proof.
  split; [vm_compute; reflexivity|]. split; [vm_compute; reflexivity|].
  destruct (scheduler_invariant 0 example_sched example_reached) as [_ H]. apply H.
  apply allowedb_ok. vm_compute. reflexivity.
Defined.

(** Rebinding and closing do to the tree what the protocol asks for.  A ref that is rebound depends on
    the new parent with the new weight, and the activity of all streams is as before; exclusively, it is the
    only dependent of the new parent.  The dependents of a ref that is closed go to its parent, and all
    others stay where they are. *)
Theorem rebind_and_close root s :
  reached root s ->
  (forall ref p w exclusive, allowed s (OpRebind ref p w exclusive) ->
     exists s', h2o_http2_scheduler_rebind s ref p w exclusive = Some s' /\ parent_of s' ref = Some p /\
       h2o_http2_scheduler_get_weight s' ref = Some w /\ selfs s' = selfs s /\
       (exclusive = true -> kids s' p = [ref])) /\
  (forall ref, allowed s (OpClose ref) ->
     exists s', h2o_http2_scheduler_close s ref = Some s' /\ h2o_http2_scheduler_is_open s' ref = false /\
       forall i, i <> ref -> parent_of s' i = if decide (parent_of s i = Some ref) then parent_of s ref else parent_of s i).
Proof.
  intros H. pose proof (reached_ok root s H) as Hs. split.
  - intros ref p w e (Hr & Hp & Hne & Hw). destruct (rebind_ok root s ref p w e Hs Hr Hp Hne Hw) as (s' & He & _ & Hrb & Hpar & Hk).
    exists s'. split_and!; auto; [|now apply (rebound_self s ref w)]. unfold h2o_http2_scheduler_get_weight.
    pose proof (rb_ref _ _ _ _ Hrb) as Hsh. apply (f_equal (fun m => m !! ref)) in Hsh. simpl in Hsh.
    rewrite !lookup_fmap, lookup_alter_eq in Hsh. destruct Hr as [r Hr]. rewrite Hr in Hsh. simpl in Hsh.
    destruct (s_ref s' !! ref) as [r'|]; [|discriminate]. now injection Hsh as <- _ _.
  - intros ref [Hr Hl]. destruct (close_ok root s ref Hs Hr Hl) as (s' & He & Hs' & Hgone & Hpar).
    exists s'. split_and!; auto. apply bool_decide_eq_false. intros (p & n & Hn & Hin).
    assert (Hk : ref ∈ kids s' p) by (unfold kids; now rewrite Hn).
    destruct (kid_ref root s' p ref Hs' Hk) as [Hr' _].
    destruct (ref_parent root s' ref Hs' Hr') as (_ & _ & _ & _ & _ & _ & _ & [m Hm]). congruence.
Qed.

Lemma rebind_and_close_witness :
  exists s', h2o_http2_scheduler_rebind example_sched 9 0 100 true = Some s' /\
    parent_of s' 9 = Some 0%nat /\ kids s' 0 = [9%nat].
Proof.
  destruct (rebind_and_close 0 example_sched example_reached) as [H _].
  destruct (H 9%nat 0%nat 100 true) as (s' & He & Hp & _ & _ & Hk).
  - apply (allowedb_ok example_sched (OpRebind 9 0 100 true)). vm_compute. reflexivity.
  - exists s'. auto.
Defined.

(** C24: a run serves every stream that has something to send.  If the callback reports a stream as still
    active only after it has sent something, the run ends, and unless the callback asked to stop no stream is
    active and no counter is left: no active stream is passed over, wherever it is in the tree. *)
Theorem run_serves_all {A} (cb : ref_id -> A -> Z * bool * A) root m fuel s a :
  reached root s -> makes_progress cb m -> (m a + num_active s < fuel)%nat ->
  exists bail s' a', h2o_http2_scheduler_run cb fuel s root a = Some (bail, s', a') /\ reached root s' /\
    (bail = 0 -> forall c r, s_ref s' !! c = Some r -> r_self_is_active r = false /\ r_active_cnt r = 0).
Proof.
  intros H Hm Hf. pose proof (reached_ok root s H) as Hs.
  destruct (run_ok root cb m fuel s a Hm Hs Hf) as (bail & s' & a' & Hrun & Hs' & Hidle).
  exists bail, s', a'. split; [assumption|]. split; [eapply reached_run; eassumption|].
  intros Hb c r Hc. eapply idle_at_root; eauto.
Qed.

(** A callback that sends the octets that a connection has left for its streams, one at a time. *)
Definition example_cb (ref : ref_id) (a : list ref_id * nat) : Z * bool * (list ref_id * nat) :=
  match a.2 with
  | O => (0, false, a)
  | S k => (0, true, (ref :: a.1, k))
  end.

Lemma run_serves_all_witness :
  exists bail s' a', h2o_http2_scheduler_run example_cb 14 example_sched 0 ([], 10%nat) = Some (bail, s', a') /\
    (bail = 0 -> forall c r, s_ref s' !! c = Some r -> r_self_is_active r = false /\ r_active_cnt r = 0).
Proof.
  destruct (run_serves_all example_cb 0 (fun a => a.2) 14 example_sched ([], 10%nat) example_reached) as (b & s' & a' & H & _ & H').
  - intros ref [l [|k]] bail still a'; cbn; intros [= <- <- <-]; cbn; split; intros; try discriminate; lia.
  - apply Nat.ltb_lt. vm_compute. reflexivity.
  - exists b, s', a'. split; [exact H|exact H'].
Defined.

(** One step of a run serves one stream: if any stream is active, the callback is called once, for a
    stream that is active, and that stream stays active exactly if the callback says so. *)
Theorem proceed_serves_one {A} (cb : ref_id -> A -> Z * bool * A) root s c r a :
  reached root s -> s_ref s !! c = Some r -> r_self_is_active r = true ->
  exists ref bail still s' a', proceed cb s root a = Some (bail, s', a') /\ cb ref a = (bail, still, a') /\
    selfs s !! ref = Some true /\ selfs s' = alter (fun _ => still) ref (selfs s).
Proof.
  intros H Hc Hself. pose proof (reached_ok root s H) as Hs.
  destruct (proceed_loop_ok root cb (size (s_node s)) s root 0 a Hs) as (ref & bail & still & s' & a' & H1 & H2 & H3 & _ & H5);
    [constructor|now apply root_node|lia| |].
  - intros E. destruct (idle_at_root root s c r Hs E Hc). congruence.
  - exists ref, bail, still, s', a'. auto.
Qed.

Lemma proceed_serves_one_witness :
  exists ref bail still s' a', proceed example_cb example_sched 0 ([], 5%nat) = Some (bail, s', a') /\
    example_cb ref ([], 5%nat) = (bail, still, a') /\ selfs example_sched !! ref = Some true /\
    selfs s' = alter (fun _ => still) ref (selfs example_sched).
Proof.
  destruct (s_ref example_sched !! 5%nat) as [r|] eqn:E; [|vm_compute in E; discriminate].
  apply (proceed_serves_one example_cb 0 example_sched 5 r ([], 5%nat) example_reached E).
  vm_compute in E. injection E as <-. reflexivity.
Defined.
