(* ===== verification/Timerwheel.v ===== *)
(** * The timer wheel (lib/common/timerwheel.c)

    A hierarchy of wheels of 32 slots: a slot of wheel [w] stands for [32 ^ w] ticks.  A timer is
    put in the wheel that its distance from [last_run] asks for, and is moved to lower wheels as
    time goes on, until it is collected from wheel 0.

    A list linked by [h2o_linklist_t] is the list of its members (see Linklist.v).  A timer is
    named by a number, with the time at which it expires.  [None] is a failed assertion, an
    access outside of the array, a shift past the width of [int], or a loop that does not end. *)
From S2P Require Import Prelude.
From Stdlib Require Import ZArith Lia.
From stdpp Require Import base numbers option list.
Open Scope Z_scope.

Definition H2O_TIMERWHEEL_BITS_PER_WHEEL : Z := 5.
Definition H2O_TIMERWHEEL_SLOTS_PER_WHEEL : nat := 32.
Definition H2O_TIMERWHEEL_SLOTS_MASK : Z := 31.

(** [h2o_timerwheel_entry_t] *)
Record timer := Timer {
  t_id : nat;
  t_expire_at : Z }.

#[global] Instance timer_eq_dec : EqDecision timer.
Proof. solve_decision. Defined.

Record timerwheel := Wheel {
  last_run : Z;
  max_ticks : Z;
  num_wheels : nat;
  wheels : list (list (list timer)) }.

(** [ctx->wheels[wheel][slot]] *)
Definition slot_get (c : timerwheel) (wheel slot : nat) : list timer :=
  default [] (w ← wheels c !! wheel; w !! slot).

Definition slot_alter (f : list timer -> list timer) (c : timerwheel) (wheel slot : nat) : timerwheel :=
  Wheel (last_run c) (max_ticks c) (num_wheels c) (alter (alter f slot) wheel (wheels c)).

Definition slot_set (c : timerwheel) (wheel slot : nat) (l : list timer) : timerwheel :=
  slot_alter (fun _ => l) c wheel slot.

Definition set_last_run (c : timerwheel) (t : Z) : timerwheel := Wheel t (max_ticks c) (num_wheels c) (wheels c).

Definition timer_wheel (delta : Z) : nat :=
  if delta =? 0 then 0%nat else Z.to_nat ((63 - clzll delta) / H2O_TIMERWHEEL_BITS_PER_WHEEL).

Definition timer_slot (wheel : nat) (expire : Z) : nat :=
  Z.to_nat (Z.land H2O_TIMERWHEEL_SLOTS_MASK (Z.shiftr expire (Z.of_nat wheel * H2O_TIMERWHEEL_BITS_PER_WHEEL))).

(** ** Validation *)

Definition SPAN (i : nat) : Z := wrap64 (Z.shiftl 1 (H2O_TIMERWHEEL_BITS_PER_WHEEL * Z.of_nat i)).

Definition calc_expire_for_slot (num_wheels : nat) (last_run : Z) (wheel slot : nat) : Z * Z :=
  let at_min := wrap64 (Z.land last_run (Z.lnot (SPAN (S wheel) - 1)) + wrap64 (Z.of_nat slot * SPAN wheel)) in
  let adj_at_min := if (wheel =? 0)%nat then at_min <? last_run else at_min <=? last_run in
  let at_min := if adj_at_min then wrap64 (at_min + SPAN (S wheel)) else at_min in
  (at_min, if (wheel =? num_wheels - 1)%nat then SIZE_MAX else wrap64 (at_min + SPAN wheel - 1)).

Definition validate_slot (c : timerwheel) (wheel slot : nat) : bool :=
  let '(at_min, at_max) := calc_expire_for_slot (num_wheels c) (last_run c) wheel slot in
  forallb (fun e => (at_min <=? t_expire_at e) && (t_expire_at e <=? at_max)) (slot_get c wheel slot).

Definition h2o_timerwheel_validate (c : timerwheel) : bool :=
  forallb (fun wheel => forallb (validate_slot c wheel) (seq 0 H2O_TIMERWHEEL_SLOTS_PER_WHEEL)) (seq 0 (num_wheels c)).

(** ** The time to wake up *)

(** The slots from [slot] on: [inl] is the time at which an entry is found, [inr] the time behind them. *)
Fixpoint wake_scan (k slot : nat) (c : timerwheel) (wheel : nat) (at_ : Z) : Z + Z :=
  match k with
  | O => inr at_
  | S k =>
      if negb (is_nil (slot_get c wheel slot)) then inl at_
      else
        let at_incr := wrap64 (Z.shiftl 1 (Z.of_nat wheel * H2O_TIMERWHEEL_BITS_PER_WHEEL)) in
        wake_scan k (S slot) c wheel (wrap64 (at_ + at_incr))
  end.

(** The carry: whether a higher wheel has an entry at [at_]. *)
Fixpoint wake_carry (k wi : nat) (c : timerwheel) (at_ : Z) : bool :=
  match k with
  | O => false
  | S k =>
      let si := timer_slot wi at_ in
      if negb (is_nil (slot_get c wi si)) then true
      else if negb (si =? 0)%nat then false
      else wake_carry k (S wi) c at_
  end.

(** One turn of the outer loop; the second turn of [while (1)] is the last, since it has [slot_base = 0]. *)
Definition wake_wheel (c : timerwheel) (wheel : nat) (at_ : Z) : Z + Z :=
  let at_incr := wrap64 (Z.shiftl 1 (Z.of_nat wheel * H2O_TIMERWHEEL_BITS_PER_WHEEL)) in
  let carry (at_ : Z) := wake_carry (num_wheels c - S wheel) (S wheel) c at_ in
  let slot_base := timer_slot wheel at_ in
  match wake_scan (H2O_TIMERWHEEL_SLOTS_PER_WHEEL - slot_base) slot_base c wheel at_ with
  | inl at_ => inl at_
  | inr at_ =>
      if carry at_ then inl at_
      else if (slot_base =? 0)%nat then inr at_
      else
        match wake_scan slot_base 0 c wheel at_ with
        | inl at_ => inl at_
        | inr at_ =>
            let at_ := wrap64 (at_ + wrap64 (at_incr * Z.of_nat (H2O_TIMERWHEEL_SLOTS_PER_WHEEL - slot_base))) in
            if carry at_ then inl at_ else inr at_
        end
  end.

Fixpoint wake_loop (k wheel : nat) (c : timerwheel) (at_ : Z) : Z :=
  match k with
  | O => SIZE_MAX
  | S k =>
      match wake_wheel c wheel at_ with
      | inl at_ => at_
      | inr at_ => wake_loop k (S wheel) c at_
      end
  end.

Definition h2o_timerwheel_get_wake_at (c : timerwheel) : Z := wake_loop (num_wheels c) 0 c (last_run c).

(** ** Linking and cascading *)

(** [H2O_TIMER_VALIDATE] is 0. *)
Definition link_timer (c : timerwheel) (entry : timer) : option timerwheel :=
  let limit := wrap64 (last_run c + max_ticks c) in
  let wheel_abs := if limit <? t_expire_at entry then limit else t_expire_at entry in
  let wheel := timer_wheel (wrap64 (wheel_abs - last_run c)) in
  let slot := timer_slot wheel wheel_abs in
  if (wheel <? num_wheels c)%nat then Some (slot_alter (fun l => l ++ [entry]) c wheel slot) else None.

Definition h2o_timerwheel_create (num_wheels : nat) (now : Z) : timerwheel :=
  Wheel now
    (wrap64 (wrap64 (Z.shiftl 1 (H2O_TIMERWHEEL_BITS_PER_WHEEL * (Z.of_nat num_wheels - 1)))
             * (Z.of_nat H2O_TIMERWHEEL_SLOTS_PER_WHEEL - 1)))
    num_wheels (replicate num_wheels (replicate H2O_TIMERWHEEL_SLOTS_PER_WHEEL [])).

Fixpoint cascade_loop (fuel : nat) (c : timerwheel) (wheel slot : nat) : option timerwheel :=
  match slot_get c wheel slot with
  | [] => Some c
  | entry :: rest =>
      match fuel with
      | O => None
      | S fuel =>
          if t_expire_at entry <? last_run c then None
          else
            c ← link_timer (slot_set c wheel slot rest) entry;
            if bool_decide (t_id <$> last (slot_get c wheel slot) = Some (t_id entry)) then None
            else cascade_loop fuel c wheel slot
      end
  end.

(** Every turn takes an entry out of the slot. *)
Definition cascade_one (c : timerwheel) (wheel slot : nat) : option timerwheel :=
  if (wheel =? 0)%nat then None else cascade_loop (length (slot_get c wheel slot)) c wheel slot.

Fixpoint cascade_all_loop (k : nat) (c : timerwheel) (wheel : nat) (cascaded : bool) : option (bool * timerwheel) :=
  match k with
  | O => Some (cascaded, c)
  | S k =>
      let slot := timer_slot wheel (last_run c) in
      let cascaded := cascaded || negb (is_nil (slot_get c wheel slot)) in
      c ← cascade_one c wheel slot;
      if negb (slot =? 0)%nat then Some (cascaded, c) else cascade_all_loop k c (S wheel) cascaded
  end.

Definition cascade_all (c : timerwheel) (wheel : nat) : option (bool * timerwheel) :=
  cascade_all_loop (num_wheels c - wheel) c wheel false.

(** ** Collecting *)

(** How a turn over the slots ends: [goto Exit], [goto Redo] with [wheel = 0], or at the last slot. *)
Inductive pass := PassExit | PassRedo | PassCarry.

(** The slots of wheel 0. *)
Fixpoint collect_loop (k slot : nat) (c : timerwheel) (now : Z) (expired : list timer) : pass * timerwheel * list timer :=
  match k with
  | O => (PassCarry, c, expired)
  | S k =>
      let expired := expired ++ slot_get c 0 slot in
      let c := slot_set c 0 slot [] in
      if last_run c =? now then (PassExit, c, expired)
      else collect_loop k (S slot) (set_last_run c (wrap64 (last_run c + 1))) now expired
  end.

(** The slots of another wheel. *)
Fixpoint skip_loop (k slot : nat) (c : timerwheel) (wheel : nat) (now : Z) : option (pass * timerwheel) :=
  match k with
  | O => Some (PassCarry, c)
  | S k =>
      if negb (is_nil (slot_get c wheel slot)) then
        c ← cascade_one c wheel slot;
        if is_nil (slot_get c wheel slot) then Some (PassRedo, c) else None
      else
        let shift := Z.of_nat wheel * H2O_TIMERWHEEL_BITS_PER_WHEEL in
        if 31 <=? shift then None
        else
          let c := set_last_run c (wrap64 (last_run c + Z.shiftl 1 shift)) in
          if now <? last_run c then Some (PassExit, set_last_run c now) else skip_loop k (S slot) c wheel now
  end.

Definition expired_exit (c : timerwheel) (now : Z) (expired : list timer) : option (timerwheel * list timer) :=
  if last_run c =? now then Some (c, expired) else None.

Fixpoint get_expired_loop (fuel : nat) (c : timerwheel) (wheel : nat) (now : Z) (expired : list timer)
    : option (timerwheel * list timer) :=
  match fuel with
  | O => None
  | S fuel =>
      let slot_start := timer_slot wheel (last_run c) in
      let k := (H2O_TIMERWHEEL_SLOTS_PER_WHEEL - slot_start)%nat in
      '(p, c, expired) ←
        (if (wheel =? 0)%nat then Some (collect_loop k slot_start c now expired)
         else '(p, c) ← skip_loop k slot_start c wheel now; Some (p, c, expired));
      match p with
      | PassExit => expired_exit c now expired
      | PassRedo => get_expired_loop fuel c 0 now expired
      | PassCarry =>
          '(cascaded, c) ← cascade_all c (if negb (wheel =? 0)%nat then wheel else 1%nat);
          if (cascaded : bool) then get_expired_loop fuel c 0 now expired
          else if negb (slot_start =? 0)%nat then get_expired_loop fuel c wheel now expired
          else if (S wheel <? num_wheels c)%nat then get_expired_loop fuel c (S wheel) now expired
          else expired_exit (if last_run c <? now then set_last_run c now else c) now expired
      end
  end.

(** Two turns move [last_run] forward. *)
Definition h2o_timerwheel_get_expired (c : timerwheel) (now : Z) (expired : list timer) : option (timerwheel * list timer) :=
  if now <? last_run c then Some (c, expired)
  else get_expired_loop (S (S (Z.to_nat (2 * (now - last_run c))))) c 0 now expired.

(** ** Running *)

(** All timers of the wheel. *)
Definition contents (c : timerwheel) : list timer := concat (concat (wheels c)).

Definition remove_id (id : nat) (l : list timer) : list timer := filter (fun e => t_id e <> id) l.

(** [h2o_timerwheel_unlink], of a timer of the wheel or of none. *)
Definition h2o_timerwheel_unlink (c : timerwheel) (id : nat) : timerwheel :=
  Wheel (last_run c) (max_ticks c) (num_wheels c) (map (map (remove_id id)) (wheels c)).

Definition h2o_timerwheel_is_linked (c : timerwheel) (expired : list timer) (id : nat) : bool :=
  bool_decide (id ∈ t_id <$> (contents c ++ expired)).

Definition h2o_timerwheel_link_abs (c : timerwheel) (expired : list timer) (id : nat) (at_ : Z) : option timerwheel :=
  if h2o_timerwheel_is_linked c expired id then None
  else link_timer c (Timer id (if at_ <? last_run c then last_run c else at_)).

(** What a callback does to the timers: it links and unlinks, also those that are still to be called. *)
Inductive action :=
| Link (id : nat) (at_ : Z)
| Unlink (id : nat).

Fixpoint act (l : list action) (c : timerwheel) (expired : list timer) : option (timerwheel * list timer) :=
  match l with
  | [] => Some (c, expired)
  | Link id at_ :: l => c ← h2o_timerwheel_link_abs c expired id at_; act l c expired
  | Unlink id :: l => act l (h2o_timerwheel_unlink c id) (remove_id id expired)
  end.

Section Run.
Context {A : Type} (cb : timer -> A -> list action * A).

(** The callbacks, as a function of the timer and of what the program keeps; [count] is the number of the calls. *)
Fixpoint run_loop (fuel : nat) (c : timerwheel) (expired : list timer) (calls : list timer) (a : A)
    : option (list timer * timerwheel * A) :=
  match expired with
  | [] => Some (calls, c, a)
  | entry :: expired =>
      match fuel with
      | O => None
      | S fuel =>
          let '(actions, a) := cb entry a in
          '(c, expired) ← act actions c expired;
          run_loop fuel c expired (calls ++ [entry]) a
      end
  end.

(** A callback adds nothing to the list of expired timers. *)
Definition h2o_timerwheel_run (c : timerwheel) (now : Z) (a : A) : option (Z * list timer * timerwheel * A) :=
  '(c, expired) ← h2o_timerwheel_get_expired c now [];
  '(calls, c, a) ← run_loop (length expired) c expired [] a;
  Some (len calls, calls, c, a).
End Run.

(** ** An example: timers of three wheels *)

Example run_three :
  let c := h2o_timerwheel_create 3 100 in
  (c ← h2o_timerwheel_link_abs c [] 1 105;
   c ← h2o_timerwheel_link_abs c [] 2 1500;
   c ← h2o_timerwheel_link_abs c [] 3 200;
   c ← h2o_timerwheel_link_abs c [] 4 201;
   '(n, calls, c, _) ← h2o_timerwheel_run (fun _ (_ : unit) => ([], ())) c 200 ();
   Some (n, calls, contents c, h2o_timerwheel_get_wake_at c, h2o_timerwheel_validate c))
  = Some (2, [Timer 1 105; Timer 3 200], [Timer 4 201; Timer 2 1500], 201, true).
Proof. vm_compute. reflexivity. Qed.

(** With one wheel only, a timer that is further away than the wheel is called early. *)
Example one_wheel_early :
  (c ← h2o_timerwheel_link_abs (h2o_timerwheel_create 1 0) [] 1 100; snd <$> h2o_timerwheel_get_expired c 31 []) = Some [Timer 1 100].
Proof. vm_compute. reflexivity. Qed.
