(* ===== verification/TimerwheelOk.v ===== *)
(** * The timer wheel: invariant and lemmas (lib/common/timerwheel.c)

    Every timer of wheel [w] has a time at which its slot comes up, a multiple of [32 ^ w] that
    is neither before [last_run] nor a whole turn of the wheel after it ([due]).  The functions
    keep this, never pass over such a time, and collect the timers of wheel 0 when it has come. *)
From S2P Require Import Prelude Timerwheel.
From Stdlib Require Import ZArith Lia Permutation.
From stdpp Require Import base numbers option list sorting.
Open Scope Z_scope.

(** ** Powers of 32 *)

Definition pw (w : nat) : Z := 32 ^ Z.of_nat w.

Lemma pw_0 : pw 0 = 1.
Proof. reflexivity. Qed.
Lemma pw_S w : pw (S w) = 32 * pw w.
Proof. unfold pw. rewrite Nat2Z.inj_succ, Z.pow_succ_r; lia. Qed.
Lemma pw_pos w : 0 < pw w.
Proof. unfold pw. apply Z.pow_pos_nonneg; lia. Qed.
Lemma pw_2 w : pw w = 2 ^ (5 * Z.of_nat w).
Proof. unfold pw. change 32 with (2 ^ 5). rewrite <- Z.pow_mul_r; lia. Qed.
Lemma pw_le w v : (w <= v)%nat -> pw w <= pw v.
Proof. intros. unfold pw. apply Z.pow_le_mono_r; lia. Qed.
Lemma pw_7 w : (w <= 7)%nat -> pw w <= 2 ^ 35.
Proof. intros H. apply pw_le in H. exact H. Qed.

#[export] Hint Resolve pw_pos : h2o.

Lemma pw_divide w v : (w <= v)%nat -> (pw w | pw v).
Proof.
  intros H. exists (32 ^ (Z.of_nat v - Z.of_nat w)). unfold pw. rewrite <- Z.pow_add_r by lia. f_equal. lia.
Qed.

(** [t] is a multiple of the span of wheel [w]. *)
Definition aligned (w : nat) (t : Z) : Prop := (pw w | t).

Lemma aligned_0 t : aligned 0 t.
Proof. apply Z.divide_1_l. Qed.
Lemma aligned_le w v t : (w <= v)%nat -> aligned v t -> aligned w t.
Proof. intros H Ha. eapply Z.divide_trans; [apply (pw_divide _ _ H)|exact Ha]. Qed.
Lemma aligned_add w t : aligned w t -> aligned w (t + pw w).
Proof. intros H. apply Z.divide_add_r; [assumption|apply Z.divide_refl]. Qed.

(** Behind a multiple, the next one. *)
Lemma aligned_next w t u : aligned w t -> aligned w u -> t < u -> t + pw w <= u.
Proof.
  intros [a ->] [b ->] H. pose proof (pw_pos w). apply Z.mul_lt_mono_pos_r in H; [|assumption].
  replace (a * pw w + pw w) with ((a + 1) * pw w) by ring. apply Z.mul_le_mono_nonneg_r; lia.
Qed.

(** The number of the slot. *)
Lemma timer_slot_eq w t : 0 <= t -> timer_slot w t = Z.to_nat ((t / pw w) mod 32).
Proof.
  intros Ht. unfold timer_slot, H2O_TIMERWHEEL_SLOTS_MASK, H2O_TIMERWHEEL_BITS_PER_WHEEL.
  rewrite Z.land_comm. change 31 with (Z.ones 5). rewrite Z.land_ones by lia.
  rewrite Z.shiftr_div_pow2 by lia. rewrite pw_2. do 3 f_equal. f_equal. lia.
Qed.

Lemma timer_slot_lt w t : 0 <= t -> (timer_slot w t < 32)%nat.
Proof. intros. rewrite timer_slot_eq by assumption. pose proof (Z.mod_pos_bound (t / pw w) 32). lia. Qed.

(** Two multiples with the same slot, less than a turn apart, are the same. *)
Lemma same_slot w t u :
  0 <= t -> 0 <= u -> aligned w t -> aligned w u -> timer_slot w t = timer_slot w u -> t - pw (S w) < u < t + pw (S w) -> u = t.
Proof.
  intros Ht Hu [a ->] [b ->] H Hr. pose proof (pw_pos w). rewrite pw_S in Hr.
  rewrite !timer_slot_eq, !Z.div_mul in H by lia.
  apply (f_equal Z.of_nat) in H. rewrite !Z2Nat.id in H by (apply Z.mod_pos_bound; lia).
  assert (a - 32 < b < a + 32) by nia. f_equal.
  pose proof (Z.div_mod a 32). pose proof (Z.div_mod b 32). nia.
Qed.

(** The slot of a time in a wheel is that of the multiple before it. *)
Lemma timer_slot_floor w t : 0 <= t -> timer_slot w (t / pw w * pw w) = timer_slot w t.
Proof. intros. pose proof (pw_pos w). rewrite !timer_slot_eq, Z.div_mul by (try apply Z.mul_nonneg_nonneg; try apply Z.div_pos; lia). reflexivity. Qed.

Lemma timer_slot_aligned w t : 0 <= t -> aligned w t -> timer_slot w t = 0%nat <-> aligned (S w) t.
Proof.
  intros Ht [a ->]. pose proof (pw_pos w) as Hp. rewrite timer_slot_eq, Z.div_mul by lia. unfold aligned. rewrite pw_S. split.
  - intros H. assert (Hm : a mod 32 = 0) by (pose proof (Z.mod_pos_bound a 32); lia).
    apply Z.mod_divide in Hm as [b ->]; [|lia]. exists b. ring.
  - intros [b Hb]. assert (a = b * 32) as -> by nia. now rewrite Z.mod_mul.
Qed.

(** The slot of the next multiple. *)
Lemma timer_slot_next w t :
  0 <= t -> aligned w t -> (timer_slot w t < 31)%nat -> timer_slot w (t + pw w) = S (timer_slot w t).
Proof.
  intros Ht [a ->] H. pose proof (pw_pos w). rewrite !timer_slot_eq in * by lia.
  replace (a * pw w + pw w) with ((a + 1) * pw w) by ring. rewrite !Z.div_mul in * by lia.
  rewrite <- Z.add_mod_idemp_l by lia. pose proof (Z.mod_pos_bound a 32). rewrite (Z.mod_small (a mod 32 + 1)) by lia. lia.
Qed.

Lemma timer_slot_wrap w t :
  0 <= t -> aligned w t -> timer_slot w t = 31%nat -> timer_slot w (t + pw w) = 0%nat.
Proof.
  intros Ht [a ->] H. pose proof (pw_pos w). rewrite !timer_slot_eq in * by lia.
  replace (a * pw w + pw w) with ((a + 1) * pw w) by ring. rewrite !Z.div_mul in * by lia.
  rewrite <- Z.add_mod_idemp_l by lia. pose proof (Z.mod_pos_bound a 32). replace (a mod 32) with 31 by lia. reflexivity.
Qed.

(** The wheel of a distance. *)
Lemma timer_wheel_range delta :
  0 <= delta < 2 ^ 64 ->
  delta < pw (S (timer_wheel delta)) /\ (timer_wheel delta = 0%nat \/ pw (timer_wheel delta) <= delta).
Proof.
  intros H. unfold timer_wheel, clzll, H2O_TIMERWHEEL_BITS_PER_WHEEL. destruct (Z.eqb_spec delta 0) as [->|Hd].
  { split; [reflexivity|now left]. }
  replace (63 - (63 - Z.log2 delta)) with (Z.log2 delta) by lia.
  pose proof (Z.log2_nonneg delta) as Hl. destruct (Z.log2_spec delta) as [H1 H2]; [lia|].
  pose proof (Z.div_mod (Z.log2 delta) 5) as Hm. pose proof (Z.mod_pos_bound (Z.log2 delta) 5) as Hb.
  pose proof (Z.div_pos (Z.log2 delta) 5) as Hp. rewrite !pw_2, !Nat2Z.inj_succ, !Z2Nat.id by lia. split.
  - eapply Z.lt_le_trans; [exact H2|]. apply Z.pow_le_mono_r; lia.
  - right. eapply Z.le_trans; [|exact H1]. apply Z.pow_le_mono_r; lia.
Qed.

(** ** Slots *)

Record shape (c : timerwheel) : Prop := {
  sh_wheels : length (wheels c) = num_wheels c;
  sh_slots : Forall (fun w => length w = 32%nat) (wheels c) }.

Lemma slot_lookup c w s : shape c -> (w < num_wheels c)%nat -> (s < 32)%nat ->
  exists wl, wheels c !! w = Some wl /\ wl !! s = Some (slot_get c w s).
Proof.
  intros [Hn Hs] Hw Hlt. destruct (lookup_lt_is_Some_2 (wheels c) w) as [wl Ewl]; [lia|]. exists wl. split; [assumption|].
  rewrite Forall_forall in Hs. destruct (lookup_lt_is_Some_2 wl s) as [l El].
  { rewrite (Hs wl); [lia|]. eapply list_elem_of_lookup_2; eassumption. }
  unfold slot_get. rewrite Ewl. simpl. now rewrite El.
Qed.

Lemma slot_alter_shape f c w s : shape c -> shape (slot_alter f c w s).
Proof.
  intros [Hn Hs]. split; simpl; [now rewrite length_alter|]. apply Forall_alter; [assumption|].
  intros x Hx Hl. now rewrite length_alter.
Qed.

Lemma slot_get_alter f c w s : shape c -> (w < num_wheels c)%nat -> (s < 32)%nat ->
  slot_get (slot_alter f c w s) w s = f (slot_get c w s).
Proof.
  intros H Hw Hs. destruct (slot_lookup c w s H Hw Hs) as (wl & E1 & E2).
  unfold slot_get at 1. simpl. rewrite list_lookup_alter_eq, E1. simpl. now rewrite list_lookup_alter_eq, E2.
Qed.

Lemma slot_get_alter_ne f c w s w' s' : w <> w' \/ s <> s' -> slot_get (slot_alter f c w s) w' s' = slot_get c w' s'.
Proof.
  intros H. unfold slot_get. simpl. destruct (decide (w = w')) as [->|Hw].
  - rewrite list_lookup_alter_eq. destruct (wheels c !! w') as [wl|]; [|reflexivity]. simpl. rewrite list_lookup_alter_ne; [reflexivity|tauto].
  - now rewrite list_lookup_alter_ne.
Qed.

Lemma concat_alter {A} (f : list A -> list A) (ls : list (list A)) i l :
  ls !! i = Some l -> exists l1 l2, concat ls = l1 ++ l ++ l2 /\ concat (alter f i ls) = l1 ++ f l ++ l2.
Proof.
  revert i. induction ls as [|x ls IH]; intros [|i] H; try discriminate.
  - injection H as ->. exists [], (concat ls). auto.
  - destruct (IH i H) as (l1 & l2 & E1 & E2). exists (x ++ l1), l2. simpl. rewrite E1, <- !app_assoc. split; [reflexivity|].
    change (x ++ concat (alter f i ls) = x ++ l1 ++ f l ++ l2). now rewrite E2.
Qed.

(** One slot among the contents. *)
Lemma contents_alter f c w s : shape c -> (w < num_wheels c)%nat -> (s < 32)%nat ->
  exists l1 l2, contents c = l1 ++ slot_get c w s ++ l2 /\ contents (slot_alter f c w s) = l1 ++ f (slot_get c w s) ++ l2.
Proof.
  intros H Hw Hs. destruct (slot_lookup c w s H Hw Hs) as (wl & E1 & E2).
  destruct (concat_alter (alter f s) _ _ _ E1) as (k1 & k2 & F1 & F2). destruct (concat_alter f _ _ _ E2) as (m1 & m2 & G1 & G2).
  exists (concat k1 ++ m1), (m2 ++ concat k2). unfold contents. simpl. rewrite F1, F2, !concat_app, G1, G2, <- !app_assoc. auto.
Qed.

Lemma elem_of_contents c e : e ∈ contents c <-> exists w s, e ∈ slot_get c w s.
Proof.
  unfold contents. rewrite list_elem_of_In, in_concat. split.
  - intros (l & Hl & He). apply in_concat in Hl as (wl & Hwl & Hl). apply list_elem_of_In in Hwl, Hl, He.
    apply list_elem_of_lookup in Hwl as [w Hw], Hl as [s Hs]. exists w, s. unfold slot_get. rewrite Hw. simpl. now rewrite Hs.
  - intros (w & s & He). unfold slot_get in He. destruct (wheels c !! w) as [wl|] eqn:Ew; simpl in He; [|now apply elem_of_nil in He].
    destruct (wl !! s) as [l|] eqn:Es; simpl in He; [|now apply elem_of_nil in He].
    exists l. rewrite in_concat. split; [|now apply list_elem_of_In]. exists wl.
    split; apply list_elem_of_In; eapply list_elem_of_lookup_2; eassumption.
Qed.

(** A slot that has an entry is in the array. *)
Lemma slot_get_range c w s e : shape c -> e ∈ slot_get c w s -> (w < num_wheels c)%nat /\ (s < 32)%nat.
Proof.
  intros [Hn Hs] He. unfold slot_get in He. destruct (wheels c !! w) as [wl|] eqn:Ew; simpl in He; [|now apply elem_of_nil in He].
  destruct (wl !! s) as [l|] eqn:Es; simpl in He; [|now apply elem_of_nil in He].
  rewrite <- Hn. split; [now apply lookup_lt_Some in Ew|]. rewrite Forall_forall in Hs.
  rewrite <- (Hs wl); [now apply lookup_lt_Some in Es|]. eapply list_elem_of_lookup_2; eassumption.
Qed.

Lemma push_contents c w s e : shape c -> (w < num_wheels c)%nat -> (s < 32)%nat ->
  contents (slot_alter (fun l => l ++ [e]) c w s) ≡ₚ e :: contents c.
Proof.
  intros H Hw Hs. destruct (contents_alter (fun l => l ++ [e]) c w s H Hw Hs) as (l1 & l2 & -> & ->).
  rewrite <- app_assoc, app_assoc. simpl. rewrite <- Permutation_middle. now rewrite app_assoc.
Qed.

Lemma pop_contents c w s e rest : shape c -> slot_get c w s = e :: rest -> contents c ≡ₚ e :: contents (slot_set c w s rest).
Proof.
  intros H E. destruct (slot_get_range c w s e H) as [Hw Hs]; [rewrite E; left|].
  unfold slot_set. destruct (contents_alter (fun _ => rest) c w s H Hw Hs) as (l1 & l2 & -> & ->). rewrite E. symmetry. apply Permutation_middle.
Qed.

Lemma clear_contents c w s : shape c -> (w < num_wheels c)%nat -> (s < 32)%nat ->
  contents c ≡ₚ slot_get c w s ++ contents (slot_set c w s []).
Proof.
  intros H Hw Hs. unfold slot_set. destruct (contents_alter (fun _ => []) c w s H Hw Hs) as (l1 & l2 & -> & ->). simpl.
  rewrite !app_assoc. apply Permutation_app_tail, Permutation_app_comm.
Qed.

Lemma contents_nil c : (forall w s, slot_get c w s = []) -> contents c = [].
Proof.
  intros H. destruct (contents c) as [|e l] eqn:E; [reflexivity|].
  assert (He : e ∈ contents c) by (rewrite E; left). apply elem_of_contents in He as (w & s & He).
  rewrite H in He. now apply elem_of_nil in He.
Qed.

(** ** The invariant *)

(** The slot [s] of wheel [w], in which [e] is, comes up at [d]. *)
Record due (n : nat) (lr : Z) (w s : nat) (e : timer) (d : Z) : Prop := {
  du_aligned : aligned w d;
  du_slot : timer_slot w d = s;
  du_from : lr <= d;
  du_to : d < lr + pw (S w);
  du_expire : d <= t_expire_at e;
  du_exact : (S w < n)%nat -> t_expire_at e < d + pw w }.

(** All entries have a time that is not over, and for the wheels from 1 to [v - 1] it has not come yet. *)
Record settled (v : nat) (c : timerwheel) : Prop := {
  st_shape : shape c;
  st_wheels : (2 <= num_wheels c <= 7)%nat;
  st_ticks : max_ticks c = 31 * pw (num_wheels c - 1);
  st_time : 0 <= last_run c;
  st_due w s e : e ∈ slot_get c w s ->
    exists d, due (num_wheels c) (last_run c) w s e d /\ ((1 <= w < v)%nat -> last_run c < d) }.

(** Between the calls no time of a higher wheel has come; an entry is linked once. *)
Definition wheel_ok (c : timerwheel) : Prop := settled (num_wheels c) c /\ NoDup (t_id <$> contents c).

Lemma settled_le v v' c : (v' <= v)%nat -> settled v c -> settled v' c.
Proof.
  intros Hv [H1 H2 H3 H4 H5]. split; try assumption. intros w s e He. destruct (H5 w s e He) as (d & Hd & Hl).
  exists d. split; [assumption|]. intros. apply Hl. lia.
Qed.

(** The time of an entry is the only one for its slot. *)
Lemma due_at n lr w s e d t :
  0 <= lr -> due n lr w s e d -> aligned w t -> timer_slot w t = s -> lr <= t -> t <= d -> d = t.
Proof.
  intros H0 [Ha Hs H1 H2 H3 H4] Hat Hst Hl Htd. apply (same_slot w); try assumption; [lia|lia|congruence|lia].
Qed.

(** A slot of wheel [w] that would come up now is empty: the entries of the wheel are later. *)
Lemma settled_empty w c :
  settled w c -> slot_get c w (timer_slot w (last_run c)) = [] -> settled (S w) c.
Proof.
  intros [H1 H2 H3 H4 H5] E. split; try assumption. intros w' s e He. destruct (H5 w' s e He) as (d & Hd & Hl).
  exists d. split; [assumption|]. intros Hw. destruct (decide (w' = w)) as [->|]; [|apply Hl; lia].
  pose proof (du_from _ _ _ _ _ _ Hd). destruct (decide (d = last_run c)) as [->|]; [|lia].
  rewrite <- (du_slot _ _ _ _ _ _ Hd), E in He. now apply elem_of_nil in He.
Qed.

(** No time of a higher wheel is now, if now is no multiple. *)
Lemma settled_unaligned v v' c : settled v c -> ~ aligned v (last_run c) -> settled v' c.
Proof.
  intros [H1 H2 H3 H4 H5] Hn. split; try assumption. intros w s e He. destruct (H5 w s e He) as (d & Hd & Hl).
  exists d. split; [assumption|]. intros Hw. destruct (decide (w < v)%nat); [apply Hl; lia|].
  pose proof (du_from _ _ _ _ _ _ Hd). destruct (decide (d = last_run c)) as [->|]; [|lia].
  exfalso. apply Hn. apply (aligned_le v w); [lia|]. apply (du_aligned _ _ _ _ _ _ Hd).
Qed.

(** Time goes on, past no time of an entry. *)
Lemma settled_advance v v' c t :
  settled v c -> last_run c <= t ->
  (forall w s e d, e ∈ slot_get c w s -> due (num_wheels c) (last_run c) w s e d -> ((1 <= w < v)%nat -> last_run c < d) ->
     t <= d /\ ((1 <= w < v')%nat -> t < d)) ->
  settled v' (set_last_run c t).
Proof.
  intros [H1 H2 H3 H4 H5] Ht Hd. split; simpl; try assumption; [|lia|].
  { destruct H1. now split. }
  intros w s e He. destruct (H5 w s e He) as (d & Hdu & Hl). destruct (Hd w s e d He Hdu Hl) as [G1 G2].
  exists d. split; [|assumption]. destruct Hdu. split; try assumption. lia.
Qed.

(** ** Linking *)

(** The time of an entry at distance [a - lr]. *)
Lemma floor_due n lr a e (w := timer_wheel (a - lr)) (d := a / pw w * pw w) :
  0 <= lr -> lr <= a <= t_expire_at e -> a - lr < 2 ^ 64 -> ((S w < n)%nat -> a = t_expire_at e) ->
  due n lr w (timer_slot w a) e d /\ ((1 <= w)%nat -> lr < d).
Proof.
  intros H0 Ha Hb Hx. destruct (timer_wheel_range (a - lr)) as [H1 H2]; [lia|]. fold w in H1, H2.
  pose proof (pw_pos w) as Hp. pose proof (Z.div_mod a (pw w)) as Hm. pose proof (Z.mod_pos_bound a (pw w)) as Hr.
  assert (Hd : a - pw w < d <= a) by (subst d; lia).
  assert (Hw : w = 0%nat -> d = a) by (intros E; subst d; rewrite E, pw_0, Z.div_1_r; lia).
  split; [|lia]. split; try lia.
  - now exists (a / pw w).
  - apply timer_slot_floor. lia.
Qed.

Lemma settled_push v c w s e d :
  settled v c -> (w < num_wheels c)%nat -> (s < 32)%nat ->
  due (num_wheels c) (last_run c) w s e d -> ((1 <= w)%nat -> last_run c < d) ->
  settled v (slot_alter (fun l => l ++ [e]) c w s).
Proof.
  intros [H1 H2 H3 H4 H5] Hw Hs Hd Hl. split; try assumption; [now apply slot_alter_shape|]. simpl. intros w' s' e' He.
  destruct (decide (w = w' /\ s = s')) as [[<- <-]|Hne].
  - rewrite slot_get_alter in He by assumption. apply elem_of_app in He as [He|He]; [now apply H5|].
    apply list_elem_of_singleton in He as ->. exists d. split; [assumption|]. intros. apply Hl. lia.
  - rewrite slot_get_alter_ne in He; [now apply H5|]. destruct (decide (w = w')); [right|left]; tauto.
Qed.

Lemma pw_top n : (2 <= n)%nat -> pw n = 32 * pw (n - 1).
Proof. intros. rewrite <- pw_S. f_equal. lia. Qed.

(** Where a timer that is not over goes: not into a slot that comes up now. *)
Lemma link_timer_ok v c e :
  settled v c -> last_run c <= t_expire_at e -> last_run c + pw (num_wheels c) < 2 ^ 64 ->
  exists w s, (w < num_wheels c)%nat /\ (s < 32)%nat /\
    link_timer c e = Some (slot_alter (fun l => l ++ [e]) c w s) /\
    settled v (slot_alter (fun l => l ++ [e]) c w s) /\
    forall u, aligned u (last_run c) -> (1 <= u)%nat -> w <> u \/ s <> timer_slot u (last_run c).
Proof.
  intros Hc He Hlr. pose proof (st_time _ _ Hc) as H0. pose proof (st_wheels _ _ Hc) as Hn.
  pose proof (pw_top (num_wheels c)) as Hpn. pose proof (pw_pos (num_wheels c - 1)) as Hp. pose proof (st_ticks _ _ Hc) as Hmax.
  unfold link_timer. rewrite (wrap64_small (last_run c + max_ticks c)) by lia.
  set (a := if last_run c + max_ticks c <? t_expire_at e then last_run c + max_ticks c else t_expire_at e).
  assert (Ha : last_run c <= a <= t_expire_at e /\ a <= last_run c + max_ticks c /\ (a = t_expire_at e \/ a = last_run c + max_ticks c)).
  { subst a. destruct (Z.ltb_spec (last_run c + max_ticks c) (t_expire_at e)); lia. }
  clearbody a. destruct Ha as (Ha1 & Ha2 & Ha3). rewrite wrap64_small by lia.
  destruct (timer_wheel_range (a - last_run c)) as [Hr1 Hr2]; [lia|]. set (w := timer_wheel (a - last_run c)) in *.
  assert (Hw : (w < num_wheels c)%nat).
  { destruct (decide (w < num_wheels c)%nat) as [|Hx]; [assumption|]. pose proof (pw_le (num_wheels c) w). lia. }
  pose proof (floor_due (num_wheels c) (last_run c) a e) as Hf. cbv zeta in Hf. fold w in Hf.
  destruct Hf as [Hd Hl]; [assumption|lia|lia| |].
  { intros Hx. pose proof (pw_le (S w) (num_wheels c - 1)). lia. }
  set (d := a / pw w * pw w) in *. pose proof (timer_slot_lt w a) as Hs. exists w, (timer_slot w a).
  destruct (Nat.ltb_spec w (num_wheels c)) as [_|]; [|lia].
  split; [assumption|]. split; [lia|]. split; [reflexivity|]. split; [apply (settled_push v c w _ e d); assumption || lia|].
  intros u Hu H1. destruct (decide (w = u)) as [<-|]; [|now left]. right. intros E.
  specialize (Hl H1). assert (d = last_run c); [|lia]. destruct Hd as [G1 G2 G3 G4 G5 G6].
  apply (same_slot w); try assumption; lia.
Qed.

(** ** Cascading *)

Lemma settled_set v c w s l :
  settled v c -> (forall e, e ∈ l -> e ∈ slot_get c w s) -> settled v (slot_set c w s l).
Proof.
  intros [H1 H2 H3 H4 H5] Hl. split; try assumption; [now apply slot_alter_shape|]. simpl. intros w' s' e He. apply H5.
  pose proof (slot_get_range _ _ _ _ (slot_alter_shape (fun _ => l) c w s H1) He) as [Hw' Hs']. simpl in Hw'.
  destruct (decide (w = w' /\ s = s')) as [[<- <-]|Hne].
  - unfold slot_set in He. rewrite slot_get_alter in He by assumption. now apply Hl.
  - unfold slot_set in He. rewrite slot_get_alter_ne in He; [assumption|]. destruct (decide (w = w')); [right|left]; tauto.
Qed.

(** The timers stay, and the time. *)
Definition moved (c c' : timerwheel) : Prop :=
  contents c' ≡ₚ contents c /\ last_run c' = last_run c /\ num_wheels c' = num_wheels c.

Lemma moved_trans c1 c2 c3 : moved c1 c2 -> moved c2 c3 -> moved c1 c3.
Proof. intros (H1 & H2 & H3) (G1 & G2 & G3). split; [etransitivity; eassumption|split; congruence]. Qed.

Lemma moved_nodup c c' : moved c c' -> NoDup (t_id <$> contents c) -> NoDup (t_id <$> contents c').
Proof. intros (H & _). now rewrite H. Qed.

(** One turn: the first entry goes elsewhere. *)
Lemma cascade_step v c w e rest :
  settled v c -> NoDup (t_id <$> contents c) -> aligned w (last_run c) -> (1 <= w)%nat ->
  last_run c + pw (num_wheels c) < 2 ^ 64 -> slot_get c w (timer_slot w (last_run c)) = e :: rest ->
  exists c', link_timer (slot_set c w (timer_slot w (last_run c)) rest) e = Some c' /\ settled v c' /\ moved c c' /\
    slot_get c' w (timer_slot w (last_run c)) = rest /\ t_id <$> last rest <> Some (t_id e).
Proof.
  intros Hc Hnd Ha Hw Hlr E. set (s := timer_slot w (last_run c)) in *. pose proof (st_shape _ _ Hc) as Hsh.
  destruct (slot_get_range c w s e Hsh) as [Hwn Hs]; [rewrite E; left|].
  assert (Hc1 : settled v (slot_set c w s rest)) by (apply settled_set; [assumption|]; intros x Hx; rewrite E; now right).
  pose proof (pop_contents c w s e rest Hsh E) as Hpop.
  destruct (st_due _ _ Hc w s e) as (d & [G1 G2 G3 G4 G5 G6] & _); [rewrite E; left|].
  destruct (link_timer_ok v _ e Hc1) as (w1 & s1 & Hw1 & Hs1 & El & Hs2 & Hne); [simpl; lia|assumption|].
  eexists. split; [exact El|]. split; [assumption|]. split; [|split].
  - split; [|now split]. rewrite push_contents, Hpop; [reflexivity|apply (st_shape _ _ Hc1)|assumption|assumption].
  - rewrite slot_get_alter_ne by (apply Hne; assumption). unfold slot_set. now apply slot_get_alter.
  - intros Hl. apply fmap_Some in Hl as (x & Hx & Hid). rewrite Hpop in Hnd. apply NoDup_cons in Hnd as [Hnd _].
    apply Hnd. apply list_elem_of_fmap. exists x. split; [now symmetry|]. apply elem_of_contents. exists w, s.
    unfold slot_set. rewrite slot_get_alter by assumption. now apply last_Some_elem_of.
Qed.

Lemma cascade_loop_ok fuel v c w :
  settled v c -> NoDup (t_id <$> contents c) -> aligned w (last_run c) -> (1 <= w)%nat ->
  last_run c + pw (num_wheels c) < 2 ^ 64 -> (length (slot_get c w (timer_slot w (last_run c))) <= fuel)%nat ->
  exists c', cascade_loop fuel c w (timer_slot w (last_run c)) = Some c' /\ settled v c' /\ moved c c' /\
    slot_get c' w (timer_slot w (last_run c)) = [].
Proof.
  revert c. induction fuel as [|fuel IH]; intros c Hc Hnd Ha Hw Hlr Hf; simpl;
    destruct (slot_get c w (timer_slot w (last_run c))) as [|e rest] eqn:E; simpl in Hf;
    try (exists c; split; [reflexivity|]; split; [assumption|]; split; [now repeat split|assumption]); [lia|].
  destruct (st_due _ _ Hc w (timer_slot w (last_run c)) e) as (d & [G1 G2 G3 G4 G5 G6] & _); [rewrite E; left|].
  destruct (Z.ltb_spec (t_expire_at e) (last_run c)); [lia|].
  destruct (cascade_step v c w e rest) as (c1 & El & Hc1 & Hm & Er & Hid); try assumption.
  rewrite El. simpl. rewrite Er, bool_decide_eq_false_2 by assumption.
  destruct Hm as (Hm1 & Hm2 & Hm3). rewrite <- Hm2. destruct (IH c1) as (c2 & E2 & Hc2 & Hm' & Es); try assumption.
  - now rewrite Hm1.
  - now rewrite Hm2.
  - rewrite Hm2, Hm3. assumption.
  - rewrite Hm2, Er. lia.
  - exists c2. split; [assumption|]. split; [assumption|]. split; [|assumption]. apply (moved_trans c c1); [|assumption]. now repeat split.
Qed.

(** A cascade at a multiple empties the slot that comes up. *)
Lemma cascade_one_ok w c :
  settled w c -> NoDup (t_id <$> contents c) -> aligned w (last_run c) -> (1 <= w)%nat -> last_run c + pw (num_wheels c) < 2 ^ 64 ->
  exists c', cascade_one c w (timer_slot w (last_run c)) = Some c' /\ settled (S w) c' /\ moved c c' /\
    slot_get c' w (timer_slot w (last_run c)) = [].
Proof.
  intros Hc Hnd Ha Hw Hlr. unfold cascade_one. destruct (Nat.eqb_spec w 0); [lia|].
  destruct (cascade_loop_ok (length (slot_get c w (timer_slot w (last_run c)))) w c w) as (c' & E & Hc' & Hm & Es); try assumption; [lia|].
  exists c'. split; [assumption|]. split; [|split; assumption]. apply settled_empty; [assumption|].
  destruct Hm as (_ & -> & _). assumption.
Qed.

Lemma cascade_empty c w s : (1 <= w)%nat -> slot_get c w s = [] -> cascade_one c w s = Some c.
Proof. intros Hw E. unfold cascade_one. destruct (Nat.eqb_spec w 0); [lia|]. rewrite E. simpl. now rewrite E. Qed.

Lemma cascade_all_true k c w b c' : cascade_all_loop k c w true = Some (b, c') -> b = true.
Proof.
  revert c w. induction k as [|k IH]; intros c w; simpl; [congruence|].
  destruct (cascade_one c w _) as [c1|]; [|discriminate]. simpl. case_match; [congruence|apply IH].
Qed.

Lemma cascade_all_ok k c w b :
  (k + w = num_wheels c)%nat -> (1 <= w)%nat -> settled w c -> NoDup (t_id <$> contents c) -> aligned w (last_run c) ->
  last_run c + pw (num_wheels c) < 2 ^ 64 ->
  exists b' c', cascade_all_loop k c w b = Some (b', c') /\ settled (num_wheels c) c' /\ moved c c' /\ (b' = false -> c' = c).
Proof.
  revert c w b. induction k as [|k IH]; intros c w b Hk Hw Hc Hnd Ha Hlr; simpl.
  { exists b, c. split; [reflexivity|]. split; [|split; [now repeat split|reflexivity]]. now replace (num_wheels c) with w by lia. }
  destruct (cascade_one_ok w c) as (c1 & E & Hc1 & Hm & Hs); try assumption. rewrite E. simpl. set (s := timer_slot w (last_run c)) in *.
  set (b1 := b || negb (is_nil (slot_get c w s))).
  assert (Hb1 : b1 = false -> c1 = c).
  { intros Hb. apply orb_false_iff in Hb as [_ Hb]. destruct (slot_get c w s) eqn:Es; [|discriminate].
    rewrite cascade_empty in E by assumption. congruence. }
  destruct Hm as (Hm1 & Hm2 & Hm3). pose proof (st_time _ _ Hc) as H0. destruct (Nat.eqb_spec s 0) as [E0|E0]; simpl.
  - destruct (IH c1 (S w) b1) as (b2 & c2 & E2 & Hc2 & Hm' & Hb2); [lia|lia|assumption|now rewrite Hm1| |rewrite Hm2, Hm3; assumption|].
    { rewrite Hm2. now apply timer_slot_aligned. }
    exists b2, c2. split; [assumption|]. split; [congruence|]. split; [apply (moved_trans c c1); [now repeat split|assumption]|].
    intros Hb. rewrite Hb2 by assumption. apply Hb1. destruct b1; [|reflexivity]. apply cascade_all_true in E2. congruence.
  - exists b1, c1. split; [reflexivity|]. split; [|split; [now repeat split|assumption]].
    apply (settled_unaligned (S w)); [assumption|]. rewrite Hm2. now rewrite <- timer_slot_aligned.
Qed.

(** ** Collecting *)

Definition expire_le (x y : timer) : Prop := t_expire_at x <= t_expire_at y.

(** Some timers have gone to the list, in order, those that expire from [lo] to [hi - 1]. *)
Definition fired (c : timerwheel) (x : list timer) (lo hi : Z) (c' : timerwheel) (x' : list timer) : Prop :=
  exists l, x' = x ++ l /\ contents c ≡ₚ l ++ contents c' /\ Forall (fun e => lo <= t_expire_at e < hi) l /\
    StronglySorted expire_le l.

Lemma fired_none c x lo hi c' : contents c' ≡ₚ contents c -> fired c x lo hi c' x.
Proof. intros H. exists []. rewrite app_nil_r. repeat split; [now symmetry|constructor|constructor]. Qed.

Lemma sorted_app l1 l2 m lo hi :
  StronglySorted expire_le l1 -> StronglySorted expire_le l2 ->
  Forall (fun e => lo <= t_expire_at e < m) l1 -> Forall (fun e => m <= t_expire_at e < hi) l2 ->
  StronglySorted expire_le (l1 ++ l2).
Proof.
  intros H1 H2 F1 F2. apply StronglySorted_app_2; [|assumption|assumption]. intros a b Ha Hb.
  rewrite Forall_forall in F1, F2. specialize (F1 a Ha). specialize (F2 b Hb). unfold expire_le. simpl in *. lia.
Qed.

Lemma fired_trans c x lo m c1 x1 hi c2 x2 :
  lo <= m <= hi -> fired c x lo m c1 x1 -> fired c1 x1 m hi c2 x2 -> fired c x lo hi c2 x2.
Proof.
  intros Hm (l1 & -> & P1 & F1 & S1) (l2 & -> & P2 & F2 & S2). exists (l1 ++ l2).
  split; [now rewrite app_assoc|]. split; [rewrite P1, P2; now rewrite app_assoc|].
  split; [|now apply (sorted_app _ _ m lo hi)].
  apply Forall_app. split; [eapply Forall_impl; [exact F1|]|eapply Forall_impl; [exact F2|]]; intros e; simpl; lia.
Qed.

Lemma fired_nodup c x lo hi c' x' : fired c x lo hi c' x' -> NoDup (t_id <$> contents c) -> NoDup (t_id <$> contents c').
Proof. intros (l & _ & P & _). rewrite P, fmap_app. intros H. now apply NoDup_app in H. Qed.

(** The entries of wheel 0 whose slot comes up expire now. *)
Lemma first_slot v c e :
  settled v c -> e ∈ slot_get c 0 (timer_slot 0 (last_run c)) -> t_expire_at e = last_run c.
Proof.
  intros Hc He. destruct (st_due _ _ Hc _ _ _ He) as (d & Hd & _). pose proof (st_wheels _ _ Hc). pose proof (st_time _ _ Hc).
  destruct Hd as [G1 G2 G3 G4 G5 G6]. assert (d = last_run c) as ->.
  { apply (same_slot 0); try apply aligned_0; [lia|lia|now symmetry|pose proof (pw_pos 1); lia]. }
  rewrite pw_0 in G6. lia.
Qed.

Lemma sorted_equal t l : Forall (fun e => t_expire_at e = t) l -> StronglySorted expire_le l.
Proof.
  induction l as [|e l IH]; intros H; [constructor|]. apply Forall_cons in H as [He H]. constructor; [now apply IH|].
  eapply Forall_impl; [exact H|]. intros x Hx. simpl in Hx. unfold expire_le. lia.
Qed.

(** One slot of wheel 0. *)
Lemma collect_step v c x (s := timer_slot 0 (last_run c)) :
  settled v c -> fired c x (last_run c) (last_run c + 1) (slot_set c 0 s []) (x ++ slot_get c 0 s) /\
    settled v (slot_set c 0 s []) /\ slot_get (slot_set c 0 s []) 0 s = [].
Proof.
  intros Hc. pose proof (st_wheels _ _ Hc) as Hn. pose proof (st_shape _ _ Hc) as Hsh. pose proof (timer_slot_lt 0 _ (st_time _ _ Hc)) as Hs.
  fold s in Hs. assert (Hall : Forall (fun e => t_expire_at e = last_run c) (slot_get c 0 s)).
  { rewrite Forall_forall. intros e He. now apply (first_slot v). }
  split; [|split].
  - exists (slot_get c 0 s). split; [reflexivity|]. split; [apply clear_contents; assumption || lia|].
    split; [|now apply (sorted_equal (last_run c))]. eapply Forall_impl; [exact Hall|]. intros e He. simpl in He. lia.
  - apply settled_set; [assumption|]. intros e He. now apply elem_of_nil in He.
  - unfold slot_set. apply slot_get_alter; assumption || lia.
Qed.
