(* ===== verification/TimerwheelRun.v ===== *)
(** * The timer wheel: theorems (lib/common/timerwheel.c)

    Timers are collected exactly when they expire and in order, the time to wake up is right, and
    callbacks may link and unlink timers. *)
From S2P Require Import Prelude Timerwheel TimerwheelOk.
From Stdlib Require Import ZArith Lia Permutation.
From stdpp Require Import base numbers option list sorting.
Open Scope Z_scope.

(** ** Collecting from wheel 0 *)

(** The timers of the wheel expire after [t]. *)
Definition later (c : timerwheel) (t : Z) : Prop := Forall (fun e => t < t_expire_at e) (contents c).

Lemma later_due c t :
  settled 1 c -> (forall w s e d, e ∈ slot_get c w s -> due (num_wheels c) (last_run c) w s e d -> t < d) -> later c t.
Proof.
  intros Hc H. unfold later. rewrite Forall_forall. intros e He. apply elem_of_contents in He as (w & s & He).
  destruct (st_due _ _ Hc w s e He) as (d & Hd & _). pose proof (H w s e d He Hd). pose proof (du_expire _ _ _ _ _ _ Hd). lia.
Qed.

(** Nothing comes up any more at the time of the last run. *)
Lemma all_later c w s e d :
  settled (num_wheels c) c -> slot_get c 0 (timer_slot 0 (last_run c)) = [] ->
  e ∈ slot_get c w s -> due (num_wheels c) (last_run c) w s e d -> last_run c < d.
Proof.
  intros Hc E He Hd. pose proof (du_from _ _ _ _ _ _ Hd) as Hf. pose proof (st_time _ _ Hc) as H0.
  destruct (decide (d = last_run c)) as [Heq|]; [exfalso|lia]. destruct (decide (w = 0%nat)) as [->|Hw].
  - rewrite <- (du_slot _ _ _ _ _ _ Hd), Heq, E in He. now apply elem_of_nil in He.
  - destruct (st_due _ _ Hc w s e He) as (d' & Hd' & Hl). pose proof (slot_get_range _ _ _ _ (st_shape _ _ Hc) He) as [Hn _].
    assert (last_run c < d') by (apply Hl; lia). assert (d' = d); [|lia].
    apply (due_at (num_wheels c) (last_run c) w s e d' d); try assumption; [apply Hd|apply Hd|lia].
Qed.

Lemma collect_loop_ok k slot c now x :
  (S k + slot = 32)%nat -> slot = timer_slot 0 (last_run c) -> settled (num_wheels c) c -> last_run c <= now -> now + 1 < 2 ^ 64 ->
  exists p c' x', collect_loop (S k) slot c now x = (p, c', x') /\ num_wheels c' = num_wheels c /\
    ((p = PassExit /\ settled (num_wheels c) c' /\ last_run c' = now /\ fired c x (last_run c) (now + 1) c' x' /\ later c' now) \/
     (p = PassCarry /\ settled 1 c' /\ last_run c < last_run c' <= now /\ fired c x (last_run c) (last_run c') c' x' /\
      aligned 1 (last_run c') /\ (forall s, (s < slot)%nat -> slot_get c' 0 s = slot_get c 0 s) /\
      (forall s, (slot <= s < 32)%nat -> slot_get c' 0 s = []))).
Proof.
  revert slot c x. induction k as [|k IH]; intros slot c x Hk Hs Hc Hle Hb.
  all: destruct (collect_step _ c x Hc) as (Hf & Hc1 & E1); rewrite <- Hs in Hf, Hc1, E1.
  all: assert (Hlt : forall w s e d, e ∈ slot_get (slot_set c 0 slot []) w s ->
         due (num_wheels c) (last_run c) w s e d -> last_run c < d)
         by (intros w s e d; apply (all_later (slot_set c 0 slot [])); [assumption|]; simpl; now rewrite <- Hs).
  all: assert (Hst1 : settled 1 (slot_set c 0 slot [])) by (apply (settled_le (num_wheels c)); [pose proof (st_wheels _ _ Hc); lia|assumption]).
  all: cbn [collect_loop]; change (last_run (slot_set c 0 slot [])) with (last_run c).
  all: destruct (Z.eqb_spec (last_run c) now) as [Heq|Hne].
  1,3: eexists _, _, _; split; [reflexivity|]; split; [reflexivity|]; left; split; [reflexivity|]; split; [assumption|];
    split; [assumption|]; split; [now rewrite <- Heq|]; rewrite <- Heq; now apply later_due.
  all: pose proof (st_time _ _ Hc) as H0; rewrite wrap64_small by lia.
  all: set (c2 := set_last_run (slot_set c 0 slot []) (last_run c + 1)).
  all: assert (Hc2 : settled 1 c2) by (apply (settled_advance 1); [assumption|simpl; lia|]; intros w s e d He Hd _;
         specialize (Hlt w s e d He Hd); simpl in *; split; [lia|lia]).
  all: pose proof (timer_slot_next 0 (last_run c) H0 (aligned_0 _)) as Hnext;
    pose proof (timer_slot_wrap 0 (last_run c) H0 (aligned_0 _)) as Hwrap; rewrite pw_0, <- Hs in Hnext, Hwrap.
  - eexists _, _, _; split; [reflexivity|]; split; [reflexivity|]; right; split; [reflexivity|]. split; [assumption|].
    split; [simpl; lia|]. split; [assumption|]. split; [apply timer_slot_aligned; [simpl; lia|apply aligned_0|apply Hwrap; lia]|].
    split; [intros s Hs'; apply slot_get_alter_ne; lia|]. intros s Hs'. replace s with slot by lia. exact E1.
  - destruct (IH (S slot) c2 (x ++ slot_get c 0 slot)) as (p & c3 & x3 & E3 & Hn3 & H3); [lia|simpl; rewrite Hnext; lia| |simpl; lia|assumption|].
    { apply (settled_unaligned 1); [assumption|]. rewrite <- timer_slot_aligned; [simpl; rewrite Hnext; lia|simpl; lia|apply aligned_0]. }
    exists p, c3, x3. split; [exact E3|]. split; [assumption|]. destruct H3 as [(-> & G1 & G2 & G3 & G4)|(-> & G1 & G2 & G3 & G4 & G5 & G6)].
    + left. split; [reflexivity|]. split; [assumption|]. split; [assumption|]. split; [|assumption].
      eapply fired_trans; [|exact Hf|exact G3]; simpl in *; lia.
    + right. split; [reflexivity|]. split; [assumption|]. split; [simpl in *; lia|].
      split; [eapply fired_trans; [|exact Hf|exact G3]; simpl in *; lia|]. split; [assumption|]. split.
      * intros s Hs'. rewrite G5 by lia. apply slot_get_alter_ne. lia.
      * intros s Hs'. destruct (decide (s = slot)) as [->|]; [|apply G6; lia]. rewrite G5 by lia. exact E1.
Qed.

(** ** Skipping the slots of a higher wheel *)

Definition below_empty (w : nat) (c : timerwheel) : Prop := forall w' s, (w' < w)%nat -> slot_get c w' s = [].

(** With the wheels below empty, all times are multiples of the span of the wheel. *)
Lemma settled_skip v w c :
  settled (num_wheels c) c -> below_empty w c -> aligned w (last_run c) -> (1 <= w)%nat ->
  settled 1 (set_last_run c (last_run c + pw w)) /\
  forall t, last_run c <= t < last_run c + pw w -> settled v (set_last_run c t) /\ later c t.
Proof.
  intros Hc Hb Ha Hw. pose proof (pw_pos w) as Hp.
  assert (Hd : forall w' s e d, e ∈ slot_get c w' s -> due (num_wheels c) (last_run c) w' s e d ->
    ((1 <= w' < num_wheels c)%nat -> last_run c < d) -> last_run c + pw w <= d).
  { intros w' s e d He Hd Hl. pose proof (slot_get_range _ _ _ _ (st_shape _ _ Hc) He) as [Hn _].
    destruct (decide (w' < w)%nat) as [Hx|Hx]; [rewrite Hb in He by assumption; now apply elem_of_nil in He|].
    apply aligned_next; [assumption| |apply Hl; lia]. apply (aligned_le w w'); [lia|]. apply Hd. }
  split; [|intros t Ht; split].
  - apply (settled_advance (num_wheels c)); [assumption|lia|]. intros. split; [eapply Hd; eassumption|lia].
  - apply (settled_advance (num_wheels c)); [assumption|lia|]. intros w' s e d He Hdu Hl. specialize (Hd w' s e d He Hdu Hl). lia.
  - unfold later. rewrite Forall_forall. intros e He. apply elem_of_contents in He as (w' & s & He).
    destruct (st_due _ _ Hc w' s e He) as (d & Hdu & Hl). specialize (Hd w' s e d He Hdu Hl). pose proof (du_expire _ _ _ _ _ _ Hdu). lia.
Qed.

Lemma settled_below w c : settled 1 c -> below_empty w c -> settled w c.
Proof.
  intros [H1 H2 H3 H4 H5] Hb. split; try assumption. intros w' s e He. destruct (H5 w' s e He) as (d & Hd & _).
  exists d. split; [assumption|]. intros Hw. rewrite Hb in He by lia. now apply elem_of_nil in He.
Qed.

(** An entry of a settled wheel is not in the slot that comes up. *)
Lemma settled_current w c :
  settled (num_wheels c) c -> aligned w (last_run c) -> (1 <= w)%nat -> slot_get c w (timer_slot w (last_run c)) = [].
Proof.
  intros Hc Ha Hw. destruct (slot_get c w (timer_slot w (last_run c))) as [|e l] eqn:E; [reflexivity|].
  assert (He : e ∈ slot_get c w (timer_slot w (last_run c))) by (rewrite E; left). pose proof (st_time _ _ Hc).
  destruct (st_due _ _ Hc _ _ _ He) as (d & Hd & Hl). pose proof (slot_get_range _ _ _ _ (st_shape _ _ Hc) He) as [Hn _].
  assert (d = last_run c); [|specialize (Hl ltac:(lia)); lia].
  apply (due_at (num_wheels c) (last_run c) w (timer_slot w (last_run c)) e); try assumption; [reflexivity|lia|apply Hd].
Qed.

Lemma shift_pw w : Z.shiftl 1 (Z.of_nat w * 5) = pw w.
Proof. rewrite Z.shiftl_1_l, pw_2. f_equal. lia. Qed.

Definition skip_ok (k slot : nat) (c : timerwheel) (w : nat) (now : Z) (p : pass) (c' : timerwheel) : Prop :=
  match p with
  | PassExit => c' = set_last_run c now /\ settled (num_wheels c) c' /\ later c' now
  | PassRedo => settled (num_wheels c) c' /\ contents c' ≡ₚ contents c /\ num_wheels c' = num_wheels c /\
      last_run c <= last_run c' <= now
  | PassCarry => c' = set_last_run c (last_run c + Z.of_nat k * pw w) /\ settled w c' /\ last_run c' <= now /\
      (forall s, (slot <= s < 32)%nat -> slot_get c w s = [])
  end.

Lemma skip_loop_ok k slot c w now :
  (k + slot = 32)%nat -> (1 <= w < num_wheels c)%nat -> aligned w (last_run c) -> (k <> 0%nat -> slot = timer_slot w (last_run c)) ->
  settled w c -> (slot = 0%nat -> settled (num_wheels c) c) -> below_empty w c -> NoDup (t_id <$> contents c) ->
  last_run c <= now -> now + pw (num_wheels c) < 2 ^ 64 ->
  exists p c', skip_loop k slot c w now = Some (p, c') /\ skip_ok k slot c w now p c'.
Proof.
  revert slot c. induction k as [|k IH]; intros slot c Hk Hw Ha Hs Hc Hc0 Hb Hnd Hle Hbd.
  { exists PassCarry, c. split; [reflexivity|]. simpl. rewrite Z.mul_0_l, Z.add_0_r. split; [now destruct c|]. split; [assumption|]. split; [assumption|lia]. }
  specialize (Hs ltac:(lia)). pose proof (st_time _ _ Hc) as H0. pose proof (st_wheels _ _ Hc) as Hn.
  assert (Hup : forall c', settled (S w) c' -> last_run c' = last_run c -> slot <> 0%nat -> settled (num_wheels c) c').
  { intros c' Hc' El Hne. apply (settled_unaligned (S w)); [assumption|]. rewrite El, <- timer_slot_aligned by assumption. congruence. }
  cbn [skip_loop]. destruct (is_nil (slot_get c w slot)) eqn:E; simpl.
  - assert (Es : slot_get c w slot = []) by (destruct (slot_get c w slot); [reflexivity|discriminate]).
    assert (Hcn : settled (num_wheels c) c).
    { destruct (decide (slot = 0%nat)) as [Hz|Hz]; [now apply Hc0|]. apply Hup; [|reflexivity|assumption].
      apply settled_empty; [assumption|congruence]. }
    unfold H2O_TIMERWHEEL_BITS_PER_WHEEL. destruct (Z.leb_spec 31 (Z.of_nat w * 5)); [lia|]. rewrite shift_pw.
    pose proof (pw_le w (num_wheels c)) as Hpl. pose proof (pw_pos w) as Hp. rewrite wrap64_small by lia.
    destruct (settled_skip (num_wheels c) w c Hcn Hb Ha ltac:(lia)) as [Hn1 Hn2]. set (c1 := set_last_run c (last_run c + pw w)) in *.
    change (last_run c1) with (last_run c + pw w). destruct (Z.ltb_spec now (last_run c + pw w)).
    + eexists _, _. split; [reflexivity|]. split; [reflexivity|]. now apply Hn2.
    + assert (Hs1 : (slot < 31)%nat -> timer_slot w (last_run c1) = S slot).
      { intros. rewrite Hs. apply timer_slot_next; [assumption|assumption|lia]. }
      destruct (IH (S slot) c1) as (p & c' & E' & H'); try assumption; try lia.
      * now apply aligned_add.
      * now apply settled_below.
      * exists p, c'. split; [exact E'|]. destruct p; unfold skip_ok in *; [exact H'|simpl in H'; intuition lia|].
        destruct H' as (-> & G1 & G2 & G3). split; [unfold set_last_run; simpl; f_equal; lia|]. split; [assumption|]. split; [assumption|].
        intros s Hs'. destruct (decide (s = slot)) as [->|]; [assumption|apply G3; lia].
  - destruct (cascade_one_ok w c) as (c1 & E1 & Hc1 & (Hm1 & Hm2 & Hm3) & Hs1); try assumption; [lia|lia|].
    rewrite Hs, E1. simpl. rewrite Hs1. simpl. eexists _, _. split; [reflexivity|]. split; [|split; [assumption|split; [assumption|lia]]].
    apply Hup; [assumption|assumption|]. intros Hz. rewrite Hs, settled_current in E; [discriminate|now apply Hc0|assumption|lia].
Qed.

(** ** The whole of it *)

Record loop_pre (c : timerwheel) (w : nat) (now : Z) : Prop := {
  lp_ok : wheel_ok c;
  lp_now : last_run c <= now;
  lp_bound : now + pw (num_wheels c) < 2 ^ 64;
  lp_wheel : (w < num_wheels c)%nat;
  lp_aligned : aligned w (last_run c);
  lp_below : below_empty w c }.

(** The timers that expire until [now] have gone to the list, and the others are left. *)
Definition collected (c : timerwheel) (x : list timer) (now : Z) (r : option (timerwheel * list timer)) : Prop :=
  exists c' x', r = Some (c', x') /\ wheel_ok c' /\ last_run c' = now /\ num_wheels c' = num_wheels c /\
    fired c x (last_run c) (now + 1) c' x' /\ later c' now.

Definition loop_fuel (c : timerwheel) (w : nat) (now : Z) : Z := 2 * (now - last_run c) + (if (w =? 0)%nat then 0 else 1).

Lemma collected_after c x c1 x1 now r :
  fired c x (last_run c) (last_run c1) c1 x1 -> num_wheels c1 = num_wheels c -> last_run c <= last_run c1 <= now ->
  collected c1 x1 now r -> collected c x now r.
Proof.
  intros Hf Hn Hle (c' & x' & -> & H1 & H2 & H3 & H4 & H5). exists c', x'. split; [reflexivity|]. split; [assumption|].
  split; [assumption|]. split; [congruence|]. split; [|assumption]. eapply fired_trans; [|exact Hf|exact H4]. lia.
Qed.

(** With nothing left, the end. *)
Lemma exit_empty c x now :
  settled 1 c -> last_run c <= now -> contents c = [] ->
  collected c x now (expired_exit (if last_run c <? now then set_last_run c now else c) now x).
Proof.
  intros Hc Hle He. assert (E : expired_exit (if last_run c <? now then set_last_run c now else c) now x = Some (set_last_run c now, x)).
  { unfold expired_exit. destruct (Z.ltb_spec (last_run c) now); simpl; [now rewrite Z.eqb_refl|].
    replace now with (last_run c) by lia. rewrite Z.eqb_refl. now destruct c. }
  rewrite E. eexists _, _. split; [reflexivity|]. assert (He' : contents (set_last_run c now) = []) by assumption.
  split; [split|]; [|rewrite He'; constructor|split; [reflexivity|split; [reflexivity|split; [now apply fired_none; rewrite He'; rewrite He|]]]].
  - apply (settled_advance 1); [assumption|assumption|]. intros w s e d Hin. exfalso.
    assert (Hx : e ∈ contents c) by (apply elem_of_contents; eauto). rewrite He in Hx. now apply elem_of_nil in Hx.
  - unfold later. rewrite He'. constructor.
Qed.

Section Carry.
Context (fuel : nat) (now : Z).
Hypothesis again : forall c w x, loop_pre c w now -> loop_fuel c w now < Z.of_nat fuel -> collected c x now (get_expired_loop fuel c w now x).

Lemma carry_ok c w v x (slot_start : nat) :
  v = Nat.max 1 w ->
  settled (Nat.max 1 w) c -> NoDup (t_id <$> contents c) -> last_run c <= now -> now + pw (num_wheels c) < 2 ^ 64 ->
  (w < num_wheels c)%nat -> aligned (S w) (last_run c) -> below_empty w c ->
  (slot_start = 0%nat -> forall s, (s < 32)%nat -> slot_get c w s = []) -> 2 * (now - last_run c) + 1 < Z.of_nat fuel ->
  collected c x now
    ('(cascaded, c) ← cascade_all c v;
     if (cascaded : bool) then get_expired_loop fuel c 0 now x
     else if negb (slot_start =? 0)%nat then get_expired_loop fuel c w now x
     else if (S w <? num_wheels c)%nat then get_expired_loop fuel c (S w) now x
     else expired_exit (if last_run c <? now then set_last_run c now else c) now x).
Proof.
  intros -> Hc Hnd Hle Hbd Hw Ha Hb Hz Hf. pose proof (st_wheels _ _ Hc) as Hn.
  destruct (cascade_all_ok (num_wheels c - Nat.max 1 w) c (Nat.max 1 w) false) as (b & c1 & E & Hc1 & (M1 & M2 & M3) & Hsame);
    [lia|lia|assumption|assumption|apply (aligned_le _ (S w)); [lia|assumption]|lia|].
  unfold cascade_all. rewrite E. simpl.
  assert (Hpre : forall v, (v < num_wheels c)%nat -> aligned v (last_run c) -> below_empty v c1 -> loop_pre c1 v now).
  { intros v Hv Hav Hbv. split; try rewrite M2; try rewrite M3; try assumption. split; [now rewrite M3|now rewrite M1]. }
  assert (Hfu : forall v, loop_fuel c1 v now < Z.of_nat fuel).
  { intros v. unfold loop_fuel. rewrite M2. destruct (v =? 0)%nat; lia. }
  assert (Hgo : forall v, (v < num_wheels c)%nat -> aligned v (last_run c) -> below_empty v c1 -> collected c x now (get_expired_loop fuel c1 v now x)).
  { intros v Hv Hav Hbv. apply (collected_after c x c1 x); [now apply fired_none|assumption|lia|]. apply again; [now apply Hpre|apply Hfu]. }
  destruct b.
  { apply Hgo; [lia|apply aligned_0|]. intros w' s Hw'. lia. }
  specialize (Hsame eq_refl) as ->. destruct (Nat.eqb_spec slot_start 0) as [Es|Es]; simpl.
  2: { apply Hgo; [assumption|apply (aligned_le _ (S w)); [lia|assumption]|assumption]. }
  assert (Hb' : below_empty (S w) c).
  { intros w' s Hw'. destruct (decide (w' = w)) as [->|]; [|apply Hb; lia].
    destruct (slot_get c w s) as [|e l] eqn:El; [reflexivity|]. pose proof (slot_get_range c w s e (st_shape _ _ Hc)) as Hr.
    rewrite <- El, Hz; [reflexivity|assumption|]. apply Hr. rewrite El. left. }
  destruct (Nat.ltb_spec (S w) (num_wheels c)) as [Hsw|Hsw]; [now apply Hgo|].
  apply exit_empty; [apply (settled_le (num_wheels c)); [lia|assumption]|assumption|]. apply contents_nil. intros w' s.
  destruct (decide (w' < S w)%nat); [now apply Hb'|]. destruct (slot_get c w' s) as [|e l] eqn:El; [reflexivity|].
  pose proof (slot_get_range c w' s e (st_shape _ _ Hc)) as Hr. rewrite El in Hr. destruct Hr; [left|lia].
Qed.
End Carry.

(** The end of the turn. *)
Lemma aligned_turn w t : 0 <= t -> aligned w t -> aligned (S w) (t + Z.of_nat (32 - timer_slot w t) * pw w).
Proof.
  intros Ht [a ->]. pose proof (pw_pos w) as Hp. rewrite timer_slot_eq, Z.div_mul by lia. pose proof (Z.mod_pos_bound a 32).
  unfold aligned. rewrite pw_S. exists (a / 32 + 1). rewrite Nat2Z.inj_sub, Z2Nat.id by lia. rewrite (Z.div_mod a 32) at 1 by lia.
  change (Z.of_nat 32) with 32. ring.
Qed.

Lemma get_expired_loop_ok fuel now : forall c w x,
  loop_pre c w now -> loop_fuel c w now < Z.of_nat fuel -> collected c x now (get_expired_loop fuel c w now x).
Proof.
  induction fuel as [|fuel IH]; intros c w x Hpre Hf.
  { unfold loop_fuel in Hf. pose proof (lp_now _ _ _ Hpre). destruct (w =? 0)%nat; lia. }
  destruct Hpre as [[Hc Hnd] Hle Hbd Hw Ha Hb]. pose proof (st_time _ _ Hc) as H0. pose proof (timer_slot_lt w _ H0) as Hs.
  pose proof (st_wheels _ _ Hc) as Hn. pose proof (pw_pos (num_wheels c)) as Hp.
  cbn [get_expired_loop]. set (s := timer_slot w (last_run c)) in *. unfold H2O_TIMERWHEEL_SLOTS_PER_WHEEL, loop_fuel in *.
  destruct (Nat.eqb_spec w 0) as [Ew|Ew]; [subst w|].
  - destruct (collect_loop_ok (31 - s) s c now x) as (p & c1 & x1 & E & Hn1 & H1); [lia|reflexivity|assumption|assumption|lia|].
    replace (32 - s)%nat with (S (31 - s)) by lia. rewrite E. cbn [mbind option_bind].
    destruct H1 as [(-> & G1 & G2 & G3 & G4)|(-> & G1 & G2 & G3 & G4 & _ & G5)].
    + unfold expired_exit. rewrite G2, Z.eqb_refl. exists c1, x1. split; [reflexivity|]. split; [|tauto].
      split; [now rewrite Hn1|]. now apply (fired_nodup _ _ _ _ _ _ G3).
    + apply (collected_after c x c1 x1); [assumption|assumption|lia|]. apply (carry_ok fuel now IH c1 0 1 x1 s); try assumption; try lia.
      * now apply (fired_nodup _ _ _ _ _ _ G3).
      * rewrite Hn1. assumption.
      * intros w' s' Hw'. lia.
      * intros Ez s' Hs'. apply G5. lia.
  - destruct (skip_loop_ok (32 - s) s c w now) as (p & c1 & E & H1); try assumption; try lia.
    { apply (settled_le (num_wheels c)); [lia|assumption]. } { intros _. assumption. }
    rewrite E. cbn [mbind option_bind]. destruct p; simpl in H1.
    + destruct H1 as (-> & G1 & G2). unfold expired_exit. simpl. rewrite Z.eqb_refl. eexists _, _. split; [reflexivity|].
      split; [now split|]. split; [reflexivity|]. split; [reflexivity|]. split; [now apply fired_none|assumption].
    + destruct H1 as (G1 & G2 & G3 & G4). apply (collected_after c x c1 x); [now apply fired_none|assumption|assumption|]. apply IH.
      * split; try assumption; try lia; [|rewrite G3; assumption|apply aligned_0|intros w' s' Hw'; lia].
        split; [now rewrite G3|now rewrite G2].
      * unfold loop_fuel. simpl. lia.
    + destruct H1 as (Ec & G1 & G2 & G3). assert (Hlt : last_run c < last_run c1).
      { rewrite Ec. simpl. pose proof (pw_pos w). nia. }
      apply (collected_after c x c1 x); [apply fired_none; now rewrite Ec|now rewrite Ec|lia|].
      apply (carry_ok fuel now IH c1 w w x s); try lia.
      all: try (rewrite Ec; assumption).
      * now replace (Nat.max 1 w) with w by lia.
      * rewrite Ec. now apply aligned_turn.
      * intros Ez s' Hs'. rewrite Ec. apply G3. lia.
Qed.

(** No assertion fails, the timers collected are exactly those that expire at or before [now], each once, in the order
    in which they expire, and the others stay in a wheel that is well formed. *)
Lemma get_expired_ok c now x :
  wheel_ok c -> last_run c <= now -> now + pw (num_wheels c) < 2 ^ 64 ->
  exists c' l, h2o_timerwheel_get_expired c now x = Some (c', x ++ l) /\
    wheel_ok c' /\ last_run c' = now /\ num_wheels c' = num_wheels c /\
    contents c ≡ₚ l ++ contents c' /\ Forall (fun e => t_expire_at e <= now) l /\
    Forall (fun e => now < t_expire_at e) (contents c') /\ StronglySorted expire_le l.
Proof.
  intros Hc Hle Hbd. unfold h2o_timerwheel_get_expired. destruct (Z.ltb_spec now (last_run c)); [lia|].
  destruct (get_expired_loop_ok (S (S (Z.to_nat (2 * (now - last_run c))))) now c 0 x) as (c' & x' & E & H1 & H2 & H3 & (l & -> & H4 & H5 & H6) & H7).
  { pose proof (st_wheels _ _ (proj1 Hc)). split; try assumption; [lia|apply aligned_0|]. intros w s Hw. lia. }
  { unfold loop_fuel. simpl. lia. }
  exists c', l. split; [exact E|]. repeat (split; [assumption|]). split; [|split; assumption].
  eapply Forall_impl; [exact H5|]. intros e He. simpl in He. lia.
Qed.

(** ** Linking and unlinking *)

Lemma slot_get_create n now w s : slot_get (h2o_timerwheel_create n now) w s = [].
Proof.
  unfold slot_get, h2o_timerwheel_create. cbn [wheels]. destruct (replicate n (replicate H2O_TIMERWHEEL_SLOTS_PER_WHEEL (@nil timer)) !! w) as [l|] eqn:E; [|reflexivity].
  apply lookup_replicate in E as [-> _]. cbn [mbind option_bind].
  destruct (replicate H2O_TIMERWHEEL_SLOTS_PER_WHEEL (@nil timer) !! s) as [l|] eqn:E; [|reflexivity].
  now apply lookup_replicate in E as [-> _].
Qed.

Lemma create_ok n now : (2 <= n <= 7)%nat -> 0 <= now -> wheel_ok (h2o_timerwheel_create n now).
Proof.
  intros Hn Hnow. split; [|rewrite contents_nil; [constructor|apply slot_get_create]]. split; try assumption.
  - split; simpl; [apply length_replicate|]. apply Forall_replicate. reflexivity.
  - simpl. rewrite Z.shiftl_1_l. unfold H2O_TIMERWHEEL_BITS_PER_WHEEL, H2O_TIMERWHEEL_SLOTS_PER_WHEEL.
    replace (2 ^ (5 * (Z.of_nat n - 1))) with (pw (n - 1)) by (rewrite pw_2; f_equal; lia).
    pose proof (pw_pos (n - 1)). pose proof (pw_7 (n - 1)).
    rewrite (wrap64_small (pw (n - 1))) by lia. change (Z.of_nat 32 - 1) with 31. rewrite wrap64_small; lia.
  - intros w s e He. rewrite slot_get_create in He. now apply elem_of_nil in He.
Qed.

Lemma slot_get_unlink c id w s : slot_get (h2o_timerwheel_unlink c id) w s = remove_id id (slot_get c w s).
Proof.
  unfold slot_get. simpl. rewrite list_lookup_fmap. destruct (wheels c !! w) as [l|]; [|reflexivity]. simpl.
  rewrite list_lookup_fmap. now destruct (l !! s).
Qed.

Lemma concat_filter {A} (P : A -> Prop) `{forall x, Decision (P x)} (ls : list (list A)) : concat (map (filter P) ls) = filter P (concat ls).
Proof. induction ls as [|l ls IH]; [reflexivity|]. simpl. now rewrite filter_app, IH. Qed.

Lemma contents_unlink c id : contents (h2o_timerwheel_unlink c id) = remove_id id (contents c).
Proof.
  unfold contents, remove_id. simpl. rewrite <- concat_filter, <- concat_map. f_equal.
Qed.

Lemma unlink_settled v c id : settled v c -> settled v (h2o_timerwheel_unlink c id).
Proof.
  intros [[H1 H1'] H2 H3 H4 H5]. split; try assumption.
  - split; simpl; [now rewrite length_map|]. apply Forall_map. eapply Forall_impl; [exact H1'|]. intros l Hl. simpl in *. now rewrite length_map.
  - intros w s e He. rewrite slot_get_unlink in He. apply list_elem_of_filter in He as [_ He]. now apply H5.
Qed.

(** The timers of the wheel and those that wait for their callbacks: none twice. *)
Definition run_ok (c : timerwheel) (x : list timer) : Prop :=
  settled (num_wheels c) c /\ NoDup (t_id <$> (contents c ++ x)) /\ last_run c + pw (num_wheels c) < 2 ^ 64.

Lemma link_abs_ok c x id t :
  run_ok c x -> id ∉ t_id <$> (contents c ++ x) ->
  exists c', h2o_timerwheel_link_abs c x id t = Some c' /\ run_ok c' x /\ last_run c' = last_run c /\ num_wheels c' = num_wheels c /\
    contents c' ≡ₚ Timer id (Z.max (last_run c) t) :: contents c.
Proof.
  intros (Hc & Hnd & Hb) Hid. unfold h2o_timerwheel_link_abs, h2o_timerwheel_is_linked. rewrite bool_decide_eq_false_2 by assumption.
  replace (if t <? last_run c then last_run c else t) with (Z.max (last_run c) t) by (destruct (Z.ltb_spec t (last_run c)); lia).
  destruct (link_timer_ok (num_wheels c) c (Timer id (Z.max (last_run c) t)) Hc) as (w & s & Hw & Hs & -> & Hc' & _); [simpl; lia|assumption|].
  eexists. split; [reflexivity|]. pose proof (push_contents c w s (Timer id (Z.max (last_run c) t)) (st_shape _ _ Hc) Hw Hs) as Hp.
  split; [|split; [reflexivity|split; [reflexivity|exact Hp]]]. split; [assumption|]. split; [|assumption].
  rewrite Hp. simpl. now constructor.
Qed.

Lemma sublist_map {A B} (f : A -> B) l1 l2 : l1 `sublist_of` l2 -> (f <$> l1) `sublist_of` (f <$> l2).
Proof. induction 1; simpl; now constructor. Qed.

Lemma unlink_run_ok c x id : run_ok c x -> run_ok (h2o_timerwheel_unlink c id) (remove_id id x).
Proof.
  intros (Hc & Hnd & Hb). split; [now apply unlink_settled|]. split; [|assumption]. rewrite contents_unlink. unfold remove_id.
  rewrite <- filter_app. eapply sublist_NoDup; [exact Hnd|apply sublist_map, sublist_filter].
Qed.

(** ** Callbacks *)

Definition no_unlink (l : list action) : Prop := Forall (fun x => match x with Link _ _ => True | Unlink _ => False end) l.

Lemma act_ok l c x c' x' :
  run_ok c x -> act l c x = Some (c', x') ->
  run_ok c' x' /\ last_run c' = last_run c /\ num_wheels c' = num_wheels c /\ x' `sublist_of` x /\
  (Forall (fun e => last_run c <= t_expire_at e) (contents c) -> Forall (fun e => last_run c <= t_expire_at e) (contents c')) /\
  (no_unlink l -> x' = x).
Proof.
  revert c x. induction l as [|[id t|id] l IH]; intros c x Hok E; simpl in E.
  - injection E as -> ->. repeat split; try apply Hok; auto.
  - destruct (h2o_timerwheel_link_abs c x id t) as [c1|] eqn:E1; [|discriminate]. simpl in E.
    assert (Hid : id ∉ t_id <$> (contents c ++ x)).
    { unfold h2o_timerwheel_link_abs, h2o_timerwheel_is_linked in E1. case_bool_decide; [discriminate|assumption]. }
    destruct (link_abs_ok c x id t Hok Hid) as (c2 & E2 & H1 & H2 & H3 & H4). rewrite E1 in E2. injection E2 as <-.
    destruct (IH c1 x H1 E) as (G1 & G2 & G3 & G4 & G5 & G6). rewrite H2 in *. repeat (split; [assumption || congruence|]). split.
    + intros Hf. apply G5. rewrite H4. constructor; [simpl; lia|assumption].
    + intros Hn. apply Forall_cons in Hn as [_ Hn]. auto.
  - destruct (IH _ _ (unlink_run_ok c x id Hok) E) as (G1 & G2 & G3 & G4 & G5 & G6). split; [assumption|]. split; [assumption|].
    split; [assumption|]. split; [etransitivity; [exact G4|apply sublist_filter]|]. split.
    + intros Hf. apply G5. rewrite contents_unlink. simpl.
      rewrite Forall_forall in *. intros e He. apply list_elem_of_filter in He as [_ He]. now apply Hf.
    + intros Hn. now apply Forall_cons in Hn as [[] _].
Qed.

Section Callbacks.
Context {A : Type} (cb : timer -> A -> list action * A) (now : Z).

(** A callback does not link a timer that is linked. *)
Hypothesis cb_legal : forall entry a c x,
  run_ok c x -> last_run c = now -> t_id entry ∉ t_id <$> (contents c ++ x) -> is_Some (act (cb entry a).1 c x).

Lemma run_loop_ok fuel c x calls a :
  run_ok c x -> last_run c = now -> (length x <= fuel)%nat -> Forall (fun e => now <= t_expire_at e) (contents c) ->
  exists called c' a', run_loop cb fuel c x calls a = Some (calls ++ called, c', a') /\
    run_ok c' [] /\ last_run c' = now /\ num_wheels c' = num_wheels c /\ called `sublist_of` x /\
    Forall (fun e => now <= t_expire_at e) (contents c') /\
    ((forall entry a, no_unlink (cb entry a).1) -> called = x).
Proof.
  revert c x calls a. induction fuel as [|fuel IH]; intros c [|e x] calls a Hok Hl Hf Hlater; simpl in Hf; try lia; simpl.
  1,2: exists [], c, a; rewrite app_nil_r; repeat split; try apply Hok; auto.
  pose proof (cb_legal e a c x) as Hleg. assert (Hok1 : run_ok c x /\ t_id e ∉ t_id <$> (contents c ++ x)).
  { destruct Hok as (H1 & H2 & H3). rewrite <- Permutation_middle in H2. apply NoDup_cons in H2 as [H2 H2']. split; [split; [|split]|]; assumption. }
  destruct Hok1 as [Hok1 Hid]. destruct (Hleg Hok1 Hl Hid) as [[c1 x1] E]. destruct (cb e a) as [l a1] eqn:Ecb. simpl in E. rewrite E. simpl.
  destruct (act_ok l c x c1 x1 Hok1 E) as (G1 & G2 & G3 & G4 & G5 & G6).
  destruct (IH c1 x1 (calls ++ [e]) a1) as (called & c2 & a2 & E2 & K1 & K2 & K3 & K4 & K5 & K6); [assumption|congruence| |subst now; auto|].
  { pose proof (sublist_length _ _ G4). lia. }
  exists (e :: called), c2, a2. rewrite E2, <- app_assoc. split; [reflexivity|]. split; [assumption|]. split; [assumption|].
  split; [congruence|]. split; [constructor; etransitivity; eassumption|]. split; [assumption|].
  intros Hn. f_equal. rewrite K6 by assumption. apply G6. pose proof (Hn e a) as Hx. now rewrite Ecb in Hx.
Qed.

(** C25: a run calls back the timers that have expired.  With callbacks that link and unlink timers as they like, but
    do not link a timer that is linked: the timers called are, in the order in which they expire, those that expire at
    or before the time of the run, all of them unless a callback unlinks one before its turn; their number is
    returned; timers that callbacks link are not called in the same run; and the wheel stays well formed. *)
Theorem run_calls_expired c a :
  wheel_ok c -> last_run c <= now -> now + pw (num_wheels c) < 2 ^ 64 ->
  exists l rest calls c' a', h2o_timerwheel_run cb c now a = Some (len calls, calls, c', a') /\
    contents c ≡ₚ l ++ rest /\ Forall (fun e => t_expire_at e <= now) l /\ Forall (fun e => now < t_expire_at e) rest /\
    StronglySorted expire_le l /\ calls `sublist_of` l /\ ((forall entry a, no_unlink (cb entry a).1) -> calls = l) /\
    wheel_ok c' /\ last_run c' = now /\ Forall (fun e => now <= t_expire_at e) (contents c').
Proof.
  intros Hc Hle Hbd. unfold h2o_timerwheel_run.
  destruct (get_expired_ok c now [] Hc Hle Hbd) as (c1 & l & E & Hc1 & Hl1 & Hn1 & Hp & Hl & Hr & Hs). rewrite E. simpl.
  destruct (run_loop_ok (length l) c1 l [] a) as (calls & c2 & a2 & E2 & (K1 & K1' & _) & K2 & K3 & K4 & K5 & K6); [|assumption|lia| |].
  { split; [apply Hc1|]. split; [|rewrite Hl1, Hn1; assumption]. rewrite (Permutation_app_comm (contents c1) l), <- Hp. apply Hc. }
  { eapply Forall_impl; [exact Hr|]. intros e He. simpl in He. lia. }
  rewrite E2. simpl. exists l, (contents c1), calls, c2, a2. repeat (split; [assumption || reflexivity|]).
  split; [|split; assumption]. split; [assumption|]. now rewrite app_nil_r in K1'.
Qed.
End Callbacks.

(** ** An example: two timers, the first of which links itself again *)

Definition example_wheel : timerwheel :=
  let c := h2o_timerwheel_create 3 100 in
  default c (c ← h2o_timerwheel_link_abs c [] 1 105; h2o_timerwheel_link_abs c [] 2 1500).

Lemma example_wheel_ok : wheel_ok example_wheel /\ contents example_wheel ≡ₚ [Timer 2 1500; Timer 1 105].
Proof.
  assert (H0 : run_ok (h2o_timerwheel_create 3 100) []).
  { destruct (create_ok 3 100) as [H1 H2]; [lia|lia|]. split; [assumption|]. split; [now rewrite app_nil_r|reflexivity]. }
  destruct (link_abs_ok _ _ 1 105 H0) as (c1 & E1 & H1 & _ & _ & P1); [apply not_elem_of_nil|].
  destruct (link_abs_ok _ _ 2 1500 H1) as (c2 & E2 & H2 & L2 & _ & P2).
  { rewrite app_nil_r, P1. simpl. rewrite list_elem_of_singleton. discriminate. }
  assert (E : example_wheel = c2) by (unfold example_wheel; rewrite E1; simpl; now rewrite E2).
  rewrite E. split; [split; [apply H2|]|].
  - destruct H2 as (_ & H2 & _). now rewrite app_nil_r in H2.
  - assert (L1 : last_run c1 = 100) by (clear -E1; vm_compute in E1; injection E1 as <-; reflexivity). rewrite P2, P1, L1. reflexivity.
Qed.

Definition example_cb (entry : timer) (a : Z) : list action * Z := ([Link (t_id entry) (t_expire_at entry + 95)], a + 1).

Lemma run_calls_expired_witness :
  exists calls c' a', h2o_timerwheel_run example_cb example_wheel 200 0 = Some (len calls, calls, c', a') /\
    calls = [Timer 1 105] /\ wheel_ok c' /\ last_run c' = 200.
Proof.
  destruct (run_calls_expired example_cb 200) with (c := example_wheel) (a := 0)
    as (l & rest & calls & c' & a' & E & Hp & Hl & Hr & Hs & Hc & Hall & Hok & Hlr & _).
  - intros entry a c x Hok _ Hid. simpl. destruct (link_abs_ok c x (t_id entry) (t_expire_at entry + 95) Hok Hid) as (c' & -> & _). simpl. eauto.
  - apply example_wheel_ok.
  - vm_compute. discriminate.
  - reflexivity.
  - exists calls, c', a'. split; [assumption|]. split; [|split; assumption]. clear -E. vm_compute in E. injection E as _ <- _ _. reflexivity.
Defined.
