(* ===== verification/TimerwheelWake.v ===== *)
(** * The timer wheel: the time to wake up (lib/common/timerwheel.c)

    [h2o_timerwheel_get_wake_at] finds the first time at which a slot with timers comes up, so that
    a loop that sleeps until then is never late, does not spin, and calls every timer in the very
    tick in which it expires.  The validator accepts every well-formed wheel. *)
From S2P Require Import Prelude Timerwheel TimerwheelOk TimerwheelRun.
From Stdlib Require Import ZArith Lia Permutation.
From stdpp Require Import base numbers option list sorting.
Open Scope Z_scope.

(** All slots that hold timers, in the wheels from [v] on, come up at [t] or after it. *)
Definition due_ge (v : nat) (c : timerwheel) (t : Z) : Prop :=
  forall w s e d, (v <= w)%nat -> e ∈ slot_get c w s -> due (num_wheels c) (last_run c) w s e d -> t <= d.

(** A slot comes up at [t], and none before. *)
Definition found (c : timerwheel) (t : Z) : Prop :=
  due_ge 0 c t /\ exists w s e, e ∈ slot_get c w s /\ due (num_wheels c) (last_run c) w s e t.

(** Whatever is in the slot of [t] comes up at [t]. *)
Lemma slot_due w c t e :
  settled 1 c -> last_run c <= t -> aligned w t -> due_ge w c t -> e ∈ slot_get c w (timer_slot w t) ->
  due (num_wheels c) (last_run c) w (timer_slot w t) e t.
Proof.
  intros Hc Hle Ha Hge He. destruct (st_due _ _ Hc w _ e He) as (d & Hd & _). pose proof (st_time _ _ Hc).
  pose proof (Hge w _ e d ltac:(lia) He Hd). replace t with d at 2; [assumption|].
  apply (due_at (num_wheels c) (last_run c) w (timer_slot w t) e); try assumption; reflexivity.
Qed.

Lemma found_slot w c t e :
  settled 1 c -> last_run c <= t -> aligned w t -> due_ge 0 c t -> e ∈ slot_get c w (timer_slot w t) -> found c t.
Proof.
  intros Hc Hle Ha Hge He. split; [assumption|]. exists w, (timer_slot w t), e. split; [assumption|].
  apply slot_due; try assumption. intros w' s e' d _. apply Hge. lia.
Qed.

(** The slot of [t] is empty: the wheel and those above go on to the next multiple. *)
Lemma due_ge_next w c t :
  aligned w t -> due_ge w c t -> due_ge (S w) c (t + 1) -> slot_get c w (timer_slot w t) = [] -> due_ge w c (t + pw w).
Proof.
  intros Ha Hge Hgt E w' s e d Hw He Hd. apply aligned_next; [assumption|apply (aligned_le w w'); [assumption|apply Hd]|].
  destruct (decide (w' = w)) as [->|]; [|pose proof (Hgt w' s e d ltac:(lia) He Hd); lia].
  pose proof (Hge w s e d ltac:(lia) He Hd). destruct (decide (d = t)) as [->|]; [|lia].
  rewrite <- (du_slot _ _ _ _ _ _ Hd), E in He. now apply elem_of_nil in He.
Qed.

Lemma due_ge_below w c t : below_empty w c -> due_ge w c t -> due_ge 0 c t.
Proof.
  intros Hb Hge w' s e d _ He Hd. destruct (decide (w' < w)%nat); [rewrite Hb in He by assumption; now apply elem_of_nil in He|].
  apply (Hge w' s e d); [lia|assumption|assumption].
Qed.

Lemma due_ge_unaligned w c t : due_ge w c t -> ~ aligned w t -> due_ge w c (t + 1).
Proof.
  intros Hge Hn w' s e d Hw He Hd. pose proof (Hge w' s e d Hw He Hd). destruct (decide (d = t)) as [->|]; [|lia].
  exfalso. apply Hn. apply (aligned_le w w'); [assumption|apply Hd].
Qed.

Lemma due_ge_le w w' c t t' : (w <= w')%nat -> t' <= t -> due_ge w c t -> due_ge w' c t'.
Proof. intros Hw Ht Hge u s e d Hu He Hd. pose proof (Hge u s e d ltac:(lia) He Hd). lia. Qed.

(** ** Scanning a wheel *)

Lemma wake_scan_ok k slot c w t :
  settled 1 c -> last_run c <= t -> t + Z.of_nat k * pw w < 2 ^ 64 -> aligned w t -> below_empty w c -> (slot + k <= 32)%nat ->
  (k <> 0%nat -> slot = timer_slot w t) -> due_ge w c t -> (k <> 0%nat -> due_ge (S w) c (t + 1)) ->
  match wake_scan k slot c w t with
  | inl t' => found c t'
  | inr t' => t' = t + Z.of_nat k * pw w /\ due_ge w c t' /\ forall s, (slot <= s < slot + k)%nat -> slot_get c w s = []
  end.
Proof.
  revert slot t. induction k as [|k IH]; intros slot t Hc Hle Hb Ha Hbe Hk Hs Hge Hgt; cbn [wake_scan].
  { split; [lia|]. split; [assumption|lia]. }
  specialize (Hs ltac:(lia)). specialize (Hgt ltac:(lia)). pose proof (st_time _ _ Hc) as H0. pose proof (pw_pos w) as Hp.
  destruct (is_nil (slot_get c w slot)) eqn:E; cbn [negb].
  2: { apply not_nil_elem in E as [e He]. rewrite Hs in He. apply (found_slot w c t e); try assumption. now apply (due_ge_below w). }
  apply is_nil_true in E. unfold H2O_TIMERWHEEL_BITS_PER_WHEEL. rewrite shift_pw, (wrap64_small (pw w)), (wrap64_small (t + pw w)) by nia.
  pose proof (timer_slot_next w t ltac:(lia) Ha) as Hn.
  assert (Hge' : due_ge w c (t + pw w)) by (apply due_ge_next; try assumption; congruence).
  assert (Hgt' : k <> 0%nat -> due_ge (S w) c (t + pw w + 1)).
  { intros Hk0. apply due_ge_unaligned; [now apply (due_ge_le w _ _ (t + pw w)); [lia|lia|]|].
    rewrite <- timer_slot_aligned by (try apply aligned_add; assumption || lia). lia. }
  specialize (IH (S slot) (t + pw w)). destruct (wake_scan k (S slot) c w (t + pw w)) as [t'|t'].
  - apply IH; try assumption; try lia. now apply aligned_add.
  - destruct IH as (-> & G1 & G2); try assumption; try lia; [now apply aligned_add|].
    split; [lia|]. split; [assumption|]. intros s Hs'. destruct (decide (s = slot)) as [->|]; [assumption|apply G2; lia].
Qed.

Lemma wake_carry_ok k wi c t :
  settled 1 c -> (k + wi = num_wheels c \/ k = 0 /\ num_wheels c <= wi)%nat -> last_run c <= t -> aligned wi t -> due_ge 0 c t ->
  if wake_carry k wi c t then found c t else due_ge wi c (t + 1).
Proof.
  revert wi. induction k as [|k IH]; intros wi Hc Hk Hle Ha Hge; cbn [wake_carry].
  { intros w s e d Hw He Hd. pose proof (slot_get_range _ _ _ _ (st_shape _ _ Hc) He). lia. }
  destruct (is_nil (slot_get c wi (timer_slot wi t))) eqn:E; cbn [negb].
  2: { apply not_nil_elem in E as [e He]. now apply (found_slot wi c t e). }
  apply is_nil_true in E. pose proof (st_time _ _ Hc) as H0.
  assert (Hwi : due_ge (S wi) c (t + 1) -> due_ge wi c (t + 1)).
  { intros Hgt. pose proof (pw_pos wi). apply (due_ge_le wi wi c (t + pw wi)); [lia|lia|].
    apply due_ge_next; try assumption. now apply (due_ge_le 0 wi c t t); [lia|lia|]. }
  destruct (Nat.eqb_spec (timer_slot wi t) 0) as [Ez|Ez]; cbn [negb].
  - specialize (IH (S wi) Hc ltac:(lia) Hle). destruct (wake_carry k (S wi) c t); [|apply Hwi]; apply IH; try assumption.
    all: now apply timer_slot_aligned; [lia|..].
  - apply Hwi. apply due_ge_unaligned; [apply (due_ge_le 0 _ c t t); [lia|lia|assumption]|]. rewrite <- timer_slot_aligned; [assumption|lia|assumption].
Qed.

(** Before wheel [w] is scanned. *)
Record waking (c : timerwheel) (w : nat) (t : Z) : Prop := {
  wk_from : last_run c <= t;
  wk_to : t <= last_run c + 3 * pw w;
  wk_aligned : aligned w t;
  wk_below : below_empty w c;
  wk_due : due_ge w c t;
  wk_above : due_ge (S w) c (t + 1) }.

Lemma waking_next c w t t' :
  waking c w t -> t <= t' <= t + 64 * pw w -> aligned (S w) t' -> (forall s, (s < 32)%nat -> slot_get c w s = []) -> shape c ->
  due_ge (S w) c (t' + 1) -> waking c (S w) t'.
Proof.
  intros [H1 H2 H3 H4 H5 H6] Ht Ha Hs Hsh Hgt. split; try assumption; [lia|rewrite pw_S; pose proof (pw_pos w); lia| | |].
  - intros w' s Hw'. destruct (decide (w' = w)) as [->|]; [|apply H4; lia]. destruct (slot_get c w s) as [|e l] eqn:E; [reflexivity|].
    rewrite <- E. apply Hs. apply (slot_get_range c w s e Hsh). rewrite E. left.
  - apply (due_ge_le (S w) _ c (t' + 1)); [lia|lia|assumption].
  - apply (due_ge_le (S w) _ c (t' + 1)); [lia|lia|assumption].
Qed.

Lemma wake_wheel_ok c w t :
  settled 1 c -> waking c w t -> (w < num_wheels c)%nat -> last_run c + 3 * pw (num_wheels c) < 2 ^ 64 ->
  match wake_wheel c w t with
  | inl t' => found c t'
  | inr t' => waking c (S w) t'
  end.
Proof.
  intros Hc Hwk Hw Hb. pose proof Hwk as [H1 H2 H3 H4 H5 H6]. pose proof (st_time _ _ Hc) as H0. pose proof (pw_pos w) as Hp.
  assert (Hpn : 32 * pw w <= pw (num_wheels c)) by (rewrite <- pw_S; apply pw_le; lia).
  unfold wake_wheel, H2O_TIMERWHEEL_SLOTS_PER_WHEEL, H2O_TIMERWHEEL_BITS_PER_WHEEL. rewrite shift_pw, (wrap64_small (pw w)) by lia.
  pose proof (timer_slot_lt w t ltac:(lia)) as Hs. pose proof (aligned_turn w t ltac:(lia) H3) as Ht1. set (s := timer_slot w t) in *.
  pose proof (wake_scan_ok (32 - s) s c w t) as Hscan. destruct (wake_scan (32 - s) s c w t) as [t1|t1].
  { apply Hscan; try assumption; try lia; auto. }
  destruct Hscan as (E1 & G1 & G2); try assumption; try lia; auto. rewrite <- E1 in Ht1.
  assert (Hcarry : forall u, last_run c <= u -> aligned (S w) u -> due_ge w c u ->
    if wake_carry (num_wheels c - S w) (S w) c u then found c u else due_ge (S w) c (u + 1)).
  { intros u Hu Hau Hge. apply wake_carry_ok; try assumption; [lia|]. now apply (due_ge_below w). }
  pose proof (Hcarry t1 ltac:(nia) Ht1 G1) as Hc1. destruct (wake_carry (num_wheels c - S w) (S w) c t1); [assumption|].
  destruct (Nat.eqb_spec s 0) as [Ez|Ez].
  { apply (waking_next c w t); try assumption; [nia| |apply Hc]. intros s' Hs'. apply G2. lia. }
  assert (Ha1 : aligned w t1) by (apply (aligned_le w (S w)); [lia|assumption]).
  assert (Hz1 : 0%nat = timer_slot w t1) by (symmetry; apply timer_slot_aligned; [nia|assumption|assumption]).
  pose proof (wake_scan_ok s 0 c w t1) as Hscan2. destruct (wake_scan s 0 c w t1) as [t2|t2].
  { apply Hscan2; try assumption; try nia; auto. }
  destruct Hscan2 as (E2 & K1 & K2); try assumption; try nia; auto.
  assert (E3 : wrap64 (t2 + wrap64 (pw w * Z.of_nat (32 - s))) = t1 + pw (S w)).
  { rewrite pw_S, (wrap64_small (pw w * _)) by nia. rewrite wrap64_small by nia. nia. }
  rewrite E3. assert (Ha3 : aligned (S w) (t1 + pw (S w))) by now apply aligned_add.
  assert (Hempty : forall s', (s' < 32)%nat -> slot_get c w s' = []).
  { intros s' Hs'. destruct (decide (s' < s)%nat); [apply K2; lia|apply G2; lia]. }
  assert (Hge3 : due_ge w c (t1 + pw (S w))).
  { intros w' s' e d Hw' He Hd. destruct (decide (w' = w)) as [->|].
    - rewrite Hempty in He; [now apply elem_of_nil in He|]. apply (slot_get_range _ _ _ _ (st_shape _ _ Hc) He).
    - apply aligned_next; [assumption|apply (aligned_le _ w'); [lia|apply Hd]|]. pose proof (Hc1 w' s' e d ltac:(lia) He Hd). lia. }
  pose proof (Hcarry (t1 + pw (S w)) ltac:(rewrite pw_S; nia) Ha3 Hge3) as Hc3.
  destruct (wake_carry (num_wheels c - S w) (S w) c (t1 + pw (S w))); [assumption|].
  apply (waking_next c w t); try assumption; [rewrite pw_S; nia|apply Hc].
Qed.

Lemma wake_loop_ok k w c t :
  settled 1 c -> waking c w t -> (k + w = num_wheels c)%nat -> last_run c + 3 * pw (num_wheels c) < 2 ^ 64 ->
  contents c = [] /\ wake_loop k w c t = SIZE_MAX \/ found c (wake_loop k w c t).
Proof.
  revert w t. induction k as [|k IH]; intros w t Hc Hwk Hk Hb; simpl.
  - left. split; [|reflexivity]. apply contents_nil. intros w' s. destruct (slot_get c w' s) as [|e l] eqn:E; [reflexivity|].
    rewrite <- E. apply (wk_below _ _ _ Hwk). pose proof (slot_get_range c w' s e (st_shape _ _ Hc)) as Hr. rewrite E in Hr.
    destruct Hr; [left|lia].
  - pose proof (wake_wheel_ok c w t Hc Hwk ltac:(lia) Hb) as H. destruct (wake_wheel c w t) as [t'|t']; [now right|]. apply IH; try assumption. lia.
Qed.

(** The first time at which a slot comes up. *)
Lemma wake_at_found c :
  wheel_ok c -> last_run c + 3 * pw (num_wheels c) < 2 ^ 64 ->
  contents c = [] /\ h2o_timerwheel_get_wake_at c = SIZE_MAX \/ found c (h2o_timerwheel_get_wake_at c).
Proof.
  intros [Hc _] Hb. pose proof (st_wheels _ _ Hc) as Hn.
  assert (H1 : settled 1 c) by (apply (settled_le (num_wheels c)); [lia|assumption]).
  apply wake_loop_ok; try assumption; [|lia]. split; try lia.
  - rewrite pw_0. lia.
  - apply aligned_0.
  - intros w s Hw. lia.
  - intros w s e d _ _ Hd. apply Hd.
  - intros w s e d Hw He Hd. destruct (st_due _ _ Hc w s e He) as (d' & Hd' & Hl).
    pose proof (slot_get_range _ _ _ _ (st_shape _ _ Hc) He) as [Hwn _]. specialize (Hl ltac:(lia)).
    assert (d' = d); [|lia]. destruct (Z.le_ge_cases d d').
    + apply (due_at (num_wheels c) (last_run c) w s e d' d); try assumption; try apply Hd. apply Hc.
    + symmetry. apply (due_at (num_wheels c) (last_run c) w s e d d'); try assumption; try apply Hd'. apply Hc.
Qed.

(** ** Sleeping until the time to wake up *)

Lemma found_range c t : wheel_ok c -> found c t -> last_run c <= t < last_run c + pw (num_wheels c).
Proof.
  intros [Hc _] (_ & w & s & e & He & Hd). pose proof (slot_get_range _ _ _ _ (st_shape _ _ Hc) He) as [Hw _].
  pose proof (pw_le (S w) (num_wheels c) Hw). destruct Hd. lia.
Qed.

Lemma found_before c t : wheel_ok c -> found c t -> Forall (fun e => t <= t_expire_at e) (contents c).
Proof.
  intros [Hc _] (Hge & _). rewrite Forall_forall. intros e He. apply elem_of_contents in He as (w & s & He).
  destruct (st_due _ _ Hc w s e He) as (d & Hd & _). pose proof (Hge w s e d ltac:(lia) He Hd). pose proof (du_expire _ _ _ _ _ _ Hd). lia.
Qed.

(** After a run nothing comes up at the same time again. *)
Lemma found_after c t : wheel_ok c -> later c (last_run c) -> found c t -> last_run c < t.
Proof.
  intros [Hc _] Hl (_ & w & s & e & He & Hd). pose proof (st_wheels _ _ Hc) as Hn. pose proof (du_from _ _ _ _ _ _ Hd) as Hf.
  destruct (decide (w = 0%nat)) as [->|Hw].
  - pose proof (du_exact _ _ _ _ _ _ Hd ltac:(lia)) as Hx. rewrite pw_0 in Hx. unfold later in Hl. rewrite Forall_forall in Hl.
    assert (Hin : e ∈ contents c) by (apply elem_of_contents; eauto). specialize (Hl e Hin). simpl in Hl. lia.
  - destruct (decide (t = last_run c)) as [->|]; [|lia]. exfalso.
    rewrite <- (du_slot _ _ _ _ _ _ Hd), settled_current in He; [now apply elem_of_nil in He|assumption|apply Hd|lia].
Qed.

Lemma wake_step c :
  wheel_ok c -> contents c <> [] -> last_run c + 4 * pw (num_wheels c) < 2 ^ 64 ->
  let t := h2o_timerwheel_get_wake_at c in
  last_run c <= t < last_run c + pw (num_wheels c) /\ Forall (fun e => t <= t_expire_at e) (contents c) /\
  exists c' l, h2o_timerwheel_get_expired c t [] = Some (c', l) /\ wheel_ok c' /\ last_run c' = t /\ num_wheels c' = num_wheels c /\
    contents c ≡ₚ l ++ contents c' /\ Forall (fun e => t_expire_at e = t) l /\ t < h2o_timerwheel_get_wake_at c'.
Proof.
  intros Hc Hne Hb t. pose proof (pw_pos (num_wheels c)) as Hp. destruct (wake_at_found c Hc) as [[? _]|Hf]; [lia|contradiction|].
  fold t in Hf. pose proof (found_range c t Hc Hf) as Hr. pose proof (found_before c t Hc Hf) as Hbf. split; [assumption|]. split; [assumption|].
  destruct (get_expired_ok c t [] Hc) as (c' & l & E & Hc' & Hl & Hn & Hperm & Hle & Hlt & _); [lia|lia|].
  exists c', l. repeat (split; [assumption|]). split.
  - rewrite Forall_forall in *. intros e He. assert (He' : e ∈ contents c) by (rewrite Hperm; apply elem_of_app; now left).
    specialize (Hbf e He'). specialize (Hle e He). simpl in *. lia.
  - destruct (wake_at_found c' Hc') as [[_ ->]|Hf']; [rewrite Hl, Hn; lia|unfold SIZE_MAX; lia|].
    rewrite <- Hl. apply found_after; [assumption| |assumption]. now rewrite Hl.
Qed.

(** The time to wake up is right.  Without timers it is [UINT64_MAX].  Otherwise it is neither before the last run
    nor after the first timer expires; a run at that time calls only timers that expire in that very tick; and the
    next time to wake up is a later one, so that a loop that sleeps until then does not spin. *)
Theorem wake_at_in_time c :
  wheel_ok c -> last_run c + 4 * pw (num_wheels c) < 2 ^ 64 ->
  let t := h2o_timerwheel_get_wake_at c in
  (contents c = [] -> t = SIZE_MAX) /\
  (contents c <> [] ->
     last_run c <= t < last_run c + pw (num_wheels c) /\ Forall (fun e => t <= t_expire_at e) (contents c) /\
     exists c' l, h2o_timerwheel_get_expired c t [] = Some (c', l) /\ Forall (fun e => t_expire_at e = t) l /\
       wheel_ok c' /\ last_run c' = t /\ t < h2o_timerwheel_get_wake_at c').
Proof.
  intros Hc Hb t. split.
  - intros He. destruct (wake_at_found c Hc) as [[_ H]|(_ & w & s & e & Hin & _)]; [pose proof (pw_pos (num_wheels c)); lia|exact H|].
    assert (Hx : e ∈ contents c) by (apply elem_of_contents; eauto). rewrite He in Hx. now apply elem_of_nil in Hx.
  - intros Hne. destruct (wake_step c Hc Hne Hb) as (H1 & H2 & c' & l & H3 & H4 & H5 & _ & _ & H6 & H7). eauto 10.
Qed.

Lemma wake_at_in_time_witness :
  let t := h2o_timerwheel_get_wake_at example_wheel in
  t = 105 /\ exists c' l, h2o_timerwheel_get_expired example_wheel t [] = Some (c', l) /\ Forall (fun e => t_expire_at e = t) l /\
    wheel_ok c' /\ t < h2o_timerwheel_get_wake_at c'.
Proof.
  destruct example_wheel_ok as [Hok Hp]. destruct (wake_at_in_time example_wheel Hok) as [_ H]; [reflexivity|].
  destruct H as (_ & _ & c' & l & H1 & H2 & H3 & _ & H4); [intros E; rewrite E in Hp; now apply Permutation_nil_cons in Hp|].
  split; [reflexivity|]. eauto 10.
Defined.

(** A loop that sleeps until the time to wake up and runs the wheel; the log has the times and the timers. *)
Inductive wakes (c : timerwheel) : list (Z * list timer) -> timerwheel -> Prop :=
| wakes_nil : wakes c [] c
| wakes_cons c1 l log c' :
    h2o_timerwheel_get_expired c (h2o_timerwheel_get_wake_at c) [] = Some (c1, l) ->
    wakes c1 log c' -> wakes c ((h2o_timerwheel_get_wake_at c, l) :: log) c'.

Lemma wakes_until k c e :
  wheel_ok c -> e ∈ contents c -> t_expire_at e + 4 * pw (num_wheels c) < 2 ^ 64 ->
  (t_expire_at e - h2o_timerwheel_get_wake_at c < Z.of_nat k) ->
  exists log c', wakes c log c' /\ (exists l, (t_expire_at e, l) ∈ log /\ e ∈ l) /\
    Forall (fun p => Forall (fun x => t_expire_at x = p.1) p.2) log.
Proof.
  revert c. induction k as [|k IH]; intros c Hc He Hb Hk.
  all: assert (Hne : contents c <> []) by (intros E; rewrite E in He; now apply elem_of_nil in He).
  all: assert (Hlr : last_run c <= t_expire_at e)
    by (apply elem_of_contents in He as (w & s & He); destruct (st_due _ _ (proj1 Hc) w s e He) as (d & [] & _); lia).
  all: destruct (wake_step c Hc Hne ltac:(lia)) as (H1 & H2 & c1 & l & H3 & H4 & H5 & H6 & H7 & H8 & H9).
  all: rewrite Forall_forall in H2; specialize (H2 e He); simpl in H2.
  1: lia.
  destruct (decide (e ∈ l)) as [Hin|Hnin].
  - rewrite Forall_forall in H8. exists [(h2o_timerwheel_get_wake_at c, l)], c1. split; [|split].
    + econstructor; [exact H3|constructor].
    + exists l. split; [|assumption]. rewrite (H8 e Hin). left.
    + constructor; [|constructor]. simpl. now rewrite Forall_forall.
  - assert (He1 : e ∈ contents c1) by (rewrite H7 in He; apply elem_of_app in He; tauto).
    destruct (IH c1 H4 He1) as (log & c' & G1 & (l' & G2 & G3) & G4); [rewrite H6; assumption|lia|].
    exists ((h2o_timerwheel_get_wake_at c, l) :: log), c'. split; [econstructor; eassumption|]. split; [|now constructor].
    exists l'. split; [now right|assumption].
Qed.

(** C26: every timer is called, and in time.  A loop that sleeps until the time to wake up, runs the wheel, and sleeps
    again, calls any given timer after finitely many turns, in the tick in which it expires; no timer is called in
    any other tick. *)
Theorem every_timer_on_time c e :
  wheel_ok c -> e ∈ contents c -> t_expire_at e + 4 * pw (num_wheels c) < 2 ^ 64 ->
  exists log c', wakes c log c' /\ (exists l, (t_expire_at e, l) ∈ log /\ e ∈ l) /\
    Forall (fun p => Forall (fun x => t_expire_at x = p.1) p.2) log.
Proof.
  intros Hc He Hb. apply (wakes_until (S (Z.to_nat (t_expire_at e - h2o_timerwheel_get_wake_at c)))); try assumption. lia.
Qed.

Lemma every_timer_on_time_witness :
  exists log c', wakes example_wheel log c' /\ exists l, (1500, l) ∈ log /\ Timer 2 1500 ∈ l.
Proof.
  destruct example_wheel_ok as [Hok Hp]. destruct (every_timer_on_time example_wheel (Timer 2 1500) Hok) as (log & c' & H1 & H2 & _).
  - rewrite Hp. left.
  - reflexivity.
  - eauto.
Defined.

(** ** The validator *)

Lemma SPAN_pw i : (i <= 7)%nat -> SPAN i = pw i.
Proof.
  intros Hi. unfold SPAN, H2O_TIMERWHEEL_BITS_PER_WHEEL. rewrite Z.shiftl_1_l, <- pw_2. apply wrap64_small.
  pose proof (pw_pos i). pose proof (pw_7 i Hi). lia.
Qed.

Lemma land_span t i : Z.land t (Z.lnot (pw i - 1)) = t / pw i * pw i.
Proof.
  rewrite pw_2. replace (2 ^ (5 * Z.of_nat i) - 1) with (Z.ones (5 * Z.of_nat i)) by (rewrite Z.ones_equiv; lia).
  rewrite <- Z.ldiff_land, Z.ldiff_ones_r, Z.shiftr_div_pow2, Z.shiftl_mul_pow2 by lia. reflexivity.
Qed.

(** A multiple by its turn and its slot. *)
Lemma aligned_turn_slot w d : 0 <= d -> aligned w d -> exists q, 0 <= q /\ d = q * pw (S w) + Z.of_nat (timer_slot w d) * pw w.
Proof.
  intros Hd [a ->]. pose proof (pw_pos w). exists (a / 32). rewrite timer_slot_eq, Z.div_mul, Z2Nat.id, pw_S by (try apply Z.mod_pos_bound; lia).
  split; [apply Z.div_pos; nia|]. rewrite (Z.div_mod a 32) at 1 by lia. ring.
Qed.

(** The least time the validator accepts in a slot is the one at which the slot comes up. *)
Lemma calc_expire_min c w s e d :
  settled 1 c -> (w < num_wheels c)%nat -> due (num_wheels c) (last_run c) w s e d -> ((1 <= w)%nat -> last_run c < d) ->
  last_run c + 2 * pw (num_wheels c) < 2 ^ 64 -> (calc_expire_for_slot (num_wheels c) (last_run c) w s).1 = d.
Proof.
  intros Hc Hw Hd Hl Hb. pose proof (st_time _ _ Hc) as H0. pose proof (st_wheels _ _ Hc) as Hn. destruct Hd as [D1 D2 D3 D4 _ _].
  pose proof (pw_le (S w) (num_wheels c) Hw) as Hpl. pose proof (pw_pos w) as Hp. pose proof (timer_slot_lt w d ltac:(lia)) as Hs. rewrite D2 in Hs.
  destruct (aligned_turn_slot w d ltac:(lia) D1) as (q & Hq & Ed). rewrite D2 in Ed.
  unfold calc_expire_for_slot. rewrite !SPAN_pw by lia. rewrite land_span. rewrite pw_S in *. set (p := pw w) in *.
  pose proof (Z.div_mod (last_run c) (32 * p) ltac:(lia)) as Em. pose proof (Z.mod_pos_bound (last_run c) (32 * p) ltac:(lia)) as Hm.
  set (q0 := last_run c / (32 * p)) in *. assert (Hq0 : q0 <= q <= q0 + 1) by nia.
  assert (0 <= q0) by nia. rewrite (wrap64_small (Z.of_nat s * p)), (wrap64_small (q0 * (32 * p) + Z.of_nat s * p)) by nia.
  assert (Hadj : (if (w =? 0)%nat then q0 * (32 * p) + Z.of_nat s * p <? last_run c else q0 * (32 * p) + Z.of_nat s * p <=? last_run c) = (q =? q0 + 1)).
  { destruct (Nat.eqb_spec w 0) as [->|Hw0]; [|specialize (Hl ltac:(lia))]; destruct (Z.eqb_spec q (q0 + 1)) as [->|]; nia. }
  simpl. rewrite Hadj. destruct (Z.eqb_spec q (q0 + 1)) as [->|]; [rewrite wrap64_small|]; nia.
Qed.

(** The validator accepts: [h2o_timerwheel_validate] finds no fault in a well-formed wheel. *)
Theorem validate_accepts c :
  wheel_ok c -> last_run c + 2 * pw (num_wheels c) < 2 ^ 64 -> Forall (fun e => t_expire_at e < 2 ^ 64) (contents c) ->
  h2o_timerwheel_validate c = true.
Proof.
  intros [Hc _] Hb Hx. pose proof (st_wheels _ _ Hc) as Hn. unfold h2o_timerwheel_validate. apply forallb_forall. intros w Hw.
  apply in_seq in Hw. apply forallb_forall. intros s _. unfold validate_slot.
  destruct (calc_expire_for_slot (num_wheels c) (last_run c) w s) as [at_min at_max] eqn:E. apply forallb_forall. intros e He.
  apply list_elem_of_In in He. destruct (st_due _ _ Hc w s e He) as (d & Hd & Hl).
  assert (Hmin : at_min = d).
  { rewrite <- (calc_expire_min c w s e d); try assumption; [now rewrite E|apply (settled_le (num_wheels c)); [lia|assumption]|lia|].
    intros. apply Hl. lia. }
  subst at_min.
  rewrite Forall_forall in Hx. specialize (Hx e ltac:(apply elem_of_contents; eauto)). simpl in Hx.
  assert (Hmax : t_expire_at e <= at_max).
  { unfold calc_expire_for_slot in E. injection E as Em <-. rewrite Em. destruct (Nat.eqb_spec w (num_wheels c - 1)); [unfold SIZE_MAX; lia|].
    pose proof (du_exact _ _ _ _ _ _ Hd ltac:(lia)) as Hex. destruct Hd as [D1 D2 D3 D4 D5 D6].
    pose proof (pw_le (S w) (num_wheels c) ltac:(lia)). pose proof (pw_le w (num_wheels c) ltac:(lia)). pose proof (pw_pos w). pose proof (st_time _ _ Hc).
    rewrite SPAN_pw by lia. rewrite wrap64_small; lia. }
  pose proof (du_expire _ _ _ _ _ _ Hd). apply andb_true_iff. split; lia.
Qed.

Lemma validate_accepts_witness : h2o_timerwheel_validate example_wheel = true.
Proof.
  destruct example_wheel_ok as [Hok Hp]. apply (validate_accepts example_wheel Hok); [reflexivity|].
  rewrite Hp. repeat constructor.
Defined.
