(* ===== verification/Timestr.v ===== *)
(** * Time stamps (lib/common/time.c, include/h2o/time_.h)

    Dates of HTTP headers and of the access log.  A [struct tm] is a record; the functions of
    the C library that break down a time, [gmtime_r] and [localtime_r], are written out for the
    Gregorian calendar; a time zone is its distance from UTC in minutes.  A buffer that a
    function fills is the octets it writes. *)
From S2P Require Import Prelude Strings.
From Stdlib Require Import ZArith Lia.
From stdpp Require Import base list numbers option strings.
Open Scope Z_scope.

Record tm := Tm {
  tm_sec : Z; tm_min : Z; tm_hour : Z; tm_mday : Z; tm_mon : Z; tm_year : Z; tm_wday : Z; tm_yday : Z }.

#[export] Instance tm_eq_dec : EqDecision tm.
Proof. solve_decision. Defined.

(** ** The calendar *)

Definition leap (y : Z) : bool := (y mod 4 =? 0) && (negb (y mod 100 =? 0) || (y mod 400 =? 0)).

(** The days from January 1, 1970 to January 1 of a year. *)
Definition year_start (y : Z) : Z := 365 * (y - 1970) + (y - 1969) / 4 - (y - 1901) / 100 + (y - 1601) / 400.

(** The days of a year before the first of a month. *)
Definition month_days (leap : bool) (mon : Z) : Z :=
  match mon with
  | 0 => 0 | 1 => 31
  | _ => (if leap then 1 else 0) +
         match mon with
         | 2 => 59 | 3 => 90 | 4 => 120 | 5 => 151 | 6 => 181 | 7 => 212 | 8 => 243 | 9 => 273 | 10 => 304
         | 11 => 334 | _ => 365
         end
  end.

Definition month_of (leap : bool) (yday : Z) : Z :=
  Z.of_nat (length (filter (fun m => month_days leap m <= yday) [1; 2; 3; 4; 5; 6; 7; 8; 9; 10; 11])).

Definition year_of (d : Z) : Z :=
  let y := 1970 + d * 400 / 146097 in
  if d <? year_start y then y - 1 else if d <? year_start (y + 1) then y else y + 1.

Definition gmtime (t : Z) : tm :=
  let d := t / 86400 in
  let s := t mod 86400 in
  let y := year_of d in
  let yday := d - year_start y in
  let mon := month_of (leap y) yday in
  Tm (s mod 60) (s / 60 mod 60) (s / 3600) (yday - month_days (leap y) mon + 1) mon (y - 1900)
     ((d + 4) mod 7) yday.

(** In a zone that is [tz] minutes ahead of UTC. *)
Definition localtime (tz t : Z) : tm := gmtime (t + 60 * tz).

(** ** Writing *)

(** Three letters out of a string of names.  [None]: read outside of the string. *)
Definition three_letters (names : bytes) (i : Z) : option bytes :=
  if (0 <=? i) && (3 * i + 3 <=? len names) then Some (take 3 (drop (Z.to_nat (3 * i)) names)) else None.

Definition emit_wday (wday : Z) : option bytes := three_letters (lit "SunMonTueWedThuFriSat") wday.
Definition emit_mon (mon : Z) : option bytes := three_letters (lit "JanFebMarAprMayJunJulAugSepOctNovDec") mon.

(** The digits are written from the back; [%] and [/] of C. *)
Fixpoint emit_digits (n : Z) (cnt : nat) : bytes :=
  match cnt with
  | O => []
  | S cnt => emit_digits (Z.quot n 10) cnt ++ [wrap8 (48 + Z.rem n 10)]
  end.

Definition H2O_TIMESTR_RFC1123_LEN : Z := 29.
Definition H2O_TIMESTR_LOG_LEN : Z := 26.

(** [None]: a read outside of the names, or the assertion fails. *)
Definition h2o_time2str_rfc1123 (gmt : tm) : option bytes :=
  wday ← emit_wday (tm_wday gmt);
  mon ← emit_mon (tm_mon gmt);
  let buf := wday ++ lit ", " ++ emit_digits (tm_mday gmt) 2 ++ lit " " ++ mon ++ lit " "
             ++ emit_digits (tm_year gmt + 1900) 4 ++ lit " " ++ emit_digits (tm_hour gmt) 2 ++ lit ":"
             ++ emit_digits (tm_min gmt) 2 ++ lit ":" ++ emit_digits (tm_sec gmt) 2 ++ lit " GMT" in
  if len buf =? H2O_TIMESTR_RFC1123_LEN then Some buf else None.

(** ** Reading *)

Fixpoint fetch_digits_loop (s : bytes) (value : Z) : Z :=
  match s with
  | [] => value
  | c :: s => if negb (is_digit c) then -1 else fetch_digits_loop s (value * 10 + c - 48)
  end.

(** The [n] octets of [s] from [pos] on. *)
Definition fetch_digits (s : bytes) (pos n : nat) : Z := fetch_digits_loop (take n (drop pos s)) 0.

Definition PACK3 (a b c : Z) : Z :=
  Z.lor (Z.lor (Z.shiftl (Z.land a 255) 16) (Z.shiftl (Z.land b 255) 8)) (Z.land c 255).

Definition pack3_lit (s : string) : Z :=
  match lit s with [a; b; c] => PACK3 a b c | _ => 0 end.

(** The [switch]. *)
Definition month_cases : list (Z * Z) :=
  [(pack3_lit "Jan", 0); (pack3_lit "Feb", 1); (pack3_lit "Mar", 2); (pack3_lit "Apr", 3); (pack3_lit "May", 4);
   (pack3_lit "Jun", 5); (pack3_lit "Jul", 6); (pack3_lit "Aug", 7); (pack3_lit "Sep", 8); (pack3_lit "Oct", 9);
   (pack3_lit "Nov", 10); (pack3_lit "Dec", 11)].

Fixpoint find_case (cases : list (Z * Z)) (v : Z) : option Z :=
  match cases with
  | [] => None
  | (k, m) :: cases => if v =? k then Some m else find_case cases v
  end.

(** The return value with what [*tm] holds then. *)
Definition FETCH (s : bytes) (pos n : nat) (store : Z -> tm) (k : tm -> Z * tm) : Z * tm :=
  let v := fetch_digits s pos n in
  if v =? -1 then (-1, store v) else k (store v).

Definition h2o_time_parse_rfc1123 (s : bytes) (t : tm) : Z * tm :=
  if negb (len s =? H2O_TIMESTR_RFC1123_LEN) then (-1, t)
  else
    FETCH s 12 4 (fun v => Tm (tm_sec t) (tm_min t) (tm_hour t) (tm_mday t) (tm_mon t) v (tm_wday t) (tm_yday t)) $ fun t =>
    let t := Tm (tm_sec t) (tm_min t) (tm_hour t) (tm_mday t) (tm_mon t) (tm_year t - 1900) (tm_wday t) (tm_yday t) in
    FETCH s 5 2 (fun v => Tm (tm_sec t) (tm_min t) (tm_hour t) v (tm_mon t) (tm_year t) (tm_wday t) (tm_yday t)) $ fun t =>
    FETCH s 17 2 (fun v => Tm (tm_sec t) (tm_min t) v (tm_mday t) (tm_mon t) (tm_year t) (tm_wday t) (tm_yday t)) $ fun t =>
    FETCH s 20 2 (fun v => Tm (tm_sec t) v (tm_hour t) (tm_mday t) (tm_mon t) (tm_year t) (tm_wday t) (tm_yday t)) $ fun t =>
    FETCH s 23 2 (fun v => Tm v (tm_min t) (tm_hour t) (tm_mday t) (tm_mon t) (tm_year t) (tm_wday t) (tm_yday t)) $ fun t =>
    match find_case month_cases (PACK3 (nth 8 s 0) (nth 9 s 0) (nth 10 s 0)) with
    | None => (-1, t)
    | Some mon => (0, Tm (tm_sec t) (tm_min t) (tm_hour t) (tm_mday t) mon (tm_year t) (tm_wday t) (tm_yday t))
    end.

(** ** The access log *)

Definition calc_gmt_offset (t : Z) (local : tm) : Z :=
  let gmt := gmtime t in
  let delta := (tm_hour local - tm_hour gmt) * 60 + (tm_min local - tm_min gmt) in
  if negb (tm_yday local =? tm_yday gmt) then
    let day_offset := if tm_year local =? tm_year gmt then tm_yday local - tm_yday gmt
                      else tm_year local - tm_year gmt in
    delta + day_offset * 24 * 60
  else delta.

(** [%02d] and [%d], of a number that is not negative. *)
Definition fmt_02d (n : Z) : bytes := if n <? 10 then 48 :: decimal 20 n else decimal 20 n.

(** [None]: a read outside of the names, or the assertion fails. *)
Definition h2o_time2str_log (tz time : Z) : option bytes :=
  let localt := localtime tz time in
  let gmt_off := calc_gmt_offset time localt in
  let '(gmt_sign, gmt_off) := if 0 <=? gmt_off then (43, gmt_off) else (45, - gmt_off) in
  mon ← emit_mon (tm_mon localt);
  let buf := fmt_02d (tm_mday localt) ++ lit "/" ++ mon ++ lit "/" ++ decimal 20 (tm_year localt + 1900)
             ++ lit ":" ++ fmt_02d (tm_hour localt) ++ lit ":" ++ fmt_02d (tm_min localt) ++ lit ":"
             ++ fmt_02d (tm_sec localt) ++ lit " " ++ [gmt_sign] ++ fmt_02d (gmt_off / 60) ++ fmt_02d (gmt_off mod 60) in
  if len buf =? H2O_TIMESTR_LOG_LEN then Some buf else None.

(** ** Intervals *)

Definition to_int32 (x : Z) : Z := (x + 2 ^ 31) mod 2 ^ 32 - 2 ^ 31.

(** The seconds and the microseconds of two times. *)
Definition h2o_timeval_subtract (from until : Z * Z) : Z :=
  let delta_sec := to_int32 (to_int32 (fst until) - to_int32 (fst from)) in
  let delta_usec := to_int32 (to_int32 (snd until) - to_int32 (snd from)) in
  delta_sec * 1000 * 1000 + delta_usec.

Definition h2o_timeval_is_null (tv : Z * Z) : bool := fst tv =? 0.

(** ** Order of broken-down times (lib/handler/file.c, [tm_is_lessthan]) *)

Fixpoint cmp_fields (l : list (Z * Z)) : bool :=
  match l with
  | [] => false
  | (x, y) :: l => if x <? y then true else if y <? x then false else cmp_fields l
  end.

Definition tm_is_lessthan (x y : tm) : bool :=
  cmp_fields [(tm_year x, tm_year y); (tm_mon x, tm_mon y); (tm_mday x, tm_mday y); (tm_hour x, tm_hour y);
              (tm_min x, tm_min y); (tm_sec x, tm_sec y)].

Example gmtime_ex : gmtime 1411104244 = Tm 4 24 5 19 8 114 5 261.
Proof. reflexivity. Qed.
Example time2str_ex : h2o_time2str_rfc1123 (gmtime 1411104244) = Some (lit "Fri, 19 Sep 2014 05:24:04 GMT").
Proof. reflexivity. Qed.
Example log_ex : h2o_time2str_log 540 1409294078 = Some (lit "29/Aug/2014:15:34:38 +0900").
Proof. reflexivity. Qed.
Example log_ex2 : h2o_time2str_log (-570) 1409294078 = Some (lit "28/Aug/2014:21:04:38 -0930").
Proof. reflexivity. Qed.

(** ** The calendar is right *)

Lemma year_step y : year_start (y + 1) = year_start y + 365 + (if leap y then 1 else 0).
Proof.
  unfold year_start, leap.
  destruct (Z.eqb_spec (y mod 4) 0), (Z.eqb_spec (y mod 100) 0), (Z.eqb_spec (y mod 400) 0); cbn [andb orb negb];
    Z.div_mod_to_equations; lia.
Qed.

Lemma year_of_spec d : year_start (year_of d) <= d < year_start (year_of d + 1).
Proof.
  unfold year_of. set (y := 1970 + d * 400 / 146097).
  assert (year_start (y - 1) <= d < year_start (y + 2)).
  { unfold year_start, y. Z.div_mod_to_equations. lia. }
  destruct (Z.ltb_spec d (year_start y)).
  - replace (y - 1 + 1) with y by lia. lia.
  - destruct (Z.ltb_spec d (year_start (y + 1))); [lia|]. replace (y + 1 + 1) with (y + 2) by lia. lia.
Qed.

Lemma year_start_mono x y : x < y -> year_start (x + 1) <= year_start y.
Proof. intros. unfold year_start. Z.div_mod_to_equations. lia. Qed.

Definition month_ok (l : bool) (yday : Z) : bool :=
  let m := month_of l yday in
  (0 <=? m) && (m <=? 11) && (month_days l m <=? yday) && (yday <? month_days l (m + 1))
  && (month_days l (m + 1) <=? month_days l m + 31).

Lemma month_of_spec (l : bool) yday : 0 <= yday < 365 + (if l then 1 else 0) ->
  0 <= month_of l yday <= 11 /\
  month_days l (month_of l yday) <= yday < month_days l (month_of l yday + 1) /\
  month_days l (month_of l yday + 1) <= month_days l (month_of l yday) + 31.
Proof.
  intros Hy. assert (Hok : month_ok l yday = true); [|unfold month_ok in Hok; lia].
  assert (Hall : forallb (month_ok l) (seqZ 0 (365 + (if l then 1 else 0))) = true) by (destruct l; vm_compute; done).
  rewrite forallb_forall in Hall. apply Hall, list_elem_of_In, elem_of_seqZ. lia.
Qed.

Lemma month_days_mono l a b : 0 <= a < b -> b <= 11 -> month_days l (a + 1) <= month_days l b.
Proof.
  intros Ha Hb.
  assert (Hall : forallb (fun b : Z => forallb (fun a : Z => month_days l (a + 1) <=? month_days l b) (seqZ 0 b)) (seqZ 0 12) = true)
    by (destruct l; vm_compute; done).
  rewrite forallb_forall in Hall. specialize (Hall b ltac:(apply list_elem_of_In, elem_of_seqZ; lia)). cbn beta in Hall.
  rewrite forallb_forall in Hall. specialize (Hall a ltac:(apply list_elem_of_In, elem_of_seqZ; lia)). lia.
Qed.

(** What [gmtime] gives is the time in days and seconds, in the ranges of the fields. *)
Lemma gmtime_spec t :
  let g := gmtime t in let y := tm_year g + 1900 in
  t = (year_start y + tm_yday g) * 86400 + tm_hour g * 3600 + tm_min g * 60 + tm_sec g /\
  0 <= tm_sec g < 60 /\ 0 <= tm_min g < 60 /\ 0 <= tm_hour g < 24 /\
  0 <= tm_mon g <= 11 /\ 1 <= tm_mday g <= 31 /\ 0 <= tm_wday g <= 6 /\
  tm_yday g = month_days (leap y) (tm_mon g) + tm_mday g - 1 /\
  month_days (leap y) (tm_mon g) <= tm_yday g < month_days (leap y) (tm_mon g + 1) /\
  0 <= tm_yday g < 365 + (if leap y then 1 else 0).
Proof.
  cbv zeta. cbn [gmtime tm_sec tm_min tm_hour tm_mday tm_mon tm_year tm_wday tm_yday].
  set (d := t / 86400). set (s := t mod 86400).
  replace (year_of d - 1900 + 1900) with (year_of d) by lia.
  pose proof (year_of_spec d) as Hy. pose proof (year_step (year_of d)) as Hstep.
  set (y := year_of d) in *. set (yday := d - year_start y).
  assert (0 <= yday < 365 + (if leap y then 1 else 0)) by (unfold yday; lia).
  pose proof (month_of_spec (leap y) yday ltac:(lia)) as (Hm & Hd & Hl).
  assert (0 <= s < 86400) by (apply Z.mod_pos_bound; lia).
  assert (t = d * 86400 + s) by (unfold d, s; pose proof (Z.div_mod t 86400); lia).
  pose proof (Z.mod_pos_bound (d + 4) 7).
  split_and!; try lia; unfold yday in *; Z.div_mod_to_equations; lia.
Qed.

(** ** Comparing broken-down times compares times *)

Lemma tm_order x y :
  tm_is_lessthan (gmtime x) (gmtime y) = true -> x < y.
Proof.
  pose proof (gmtime_spec x) as Hx. pose proof (gmtime_spec y) as Hy. cbv zeta in Hx, Hy.
  set (g := gmtime x) in *. set (h := gmtime y) in *. clearbody g h.
  unfold tm_is_lessthan. cbn [cmp_fields].
  destruct (Z.ltb_spec (tm_year g) (tm_year h)).
  { intros _. pose proof (year_start_mono (tm_year g + 1900) (tm_year h + 1900)). 
    rewrite year_step in *. lia. }
  destruct (Z.ltb_spec (tm_year h) (tm_year g)); [done|].
  assert (Heq : tm_year g = tm_year h) by lia. rewrite Heq in *.
  destruct (Z.ltb_spec (tm_mon g) (tm_mon h)).
  { intros _. pose proof (month_days_mono (leap (tm_year h + 1900)) (tm_mon g) (tm_mon h)). lia. }
  destruct (Z.ltb_spec (tm_mon h) (tm_mon g)); [done|].
  assert (Hmon : tm_mon g = tm_mon h) by lia. rewrite Hmon in *.
  bcase; intros; try done; lia.
Qed.

Lemma tm_order_total x y :
  tm_is_lessthan (gmtime x) (gmtime y) = false -> tm_is_lessthan (gmtime y) (gmtime x) = false -> x = y.
Proof.
  pose proof (gmtime_spec x) as Hx. pose proof (gmtime_spec y) as Hy. cbv zeta in Hx, Hy.
  set (g := gmtime x) in *. set (h := gmtime y) in *. clearbody g h.
  unfold tm_is_lessthan. cbn [cmp_fields].
  destruct (Z.ltb_spec (tm_year g) (tm_year h)), (Z.ltb_spec (tm_year h) (tm_year g)); try done; try lia.
  assert (Heq : tm_year g = tm_year h) by lia. rewrite Heq in *.
  destruct (Z.ltb_spec (tm_mon g) (tm_mon h)), (Z.ltb_spec (tm_mon h) (tm_mon g)); try done; try lia.
  assert (Hmon : tm_mon g = tm_mon h) by lia. rewrite Hmon in *.
  bcase; intros; try done; lia.
Qed.

(** [tm_is_lessthan] on the fields of two times compares the times. *)
Lemma tm_is_lessthan_exact x y : tm_is_lessthan (gmtime x) (gmtime y) = (x <? y).
Proof.
  destruct (tm_is_lessthan (gmtime x) (gmtime y)) eqn:H1.
  - apply tm_order in H1. lia.
  - destruct (tm_is_lessthan (gmtime y) (gmtime x)) eqn:H2.
    + apply tm_order in H2. lia.
    + pose proof (tm_order_total _ _ H1 H2). lia.
Qed.

(** ** Dates are read back *)

Lemma emit_digits_2 n : 0 <= n < 100 ->
  exists a b, emit_digits n 2 = [a; b] /\ fetch_digits_loop [a; b] 0 = n.
Proof.
  intros Hn. eexists _, _. split; [reflexivity|].
  assert (Hall : forallb (fun n => fetch_digits_loop (emit_digits n 2) 0 =? n) (seqZ 0 100) = true) by (vm_compute; done).
  rewrite forallb_forall in Hall. specialize (Hall n ltac:(apply list_elem_of_In, elem_of_seqZ; lia)).
  by apply Z.eqb_eq in Hall.
Qed.

Lemma fetch_digit_step n c s v : 0 <= n -> c = wrap8 (48 + Z.rem n 10) ->
  fetch_digits_loop (c :: s) v = fetch_digits_loop s (v * 10 + Z.rem n 10).
Proof.
  intros Hn ->. pose proof (Z.rem_bound_pos n 10). cbn [fetch_digits_loop].
  rewrite wrap8_small by (unfold is_byte; lia). unfold is_digit.
  replace ((48 <=? 48 + Z.rem n 10) && (48 + Z.rem n 10 <=? 57)) with true by lia. cbn [negb]. f_equal. lia.
Qed.

Lemma emit_digits_4 n : 0 <= n < 10000 ->
  exists a b c d, emit_digits n 4 = [a; b; c; d] /\ fetch_digits_loop [a; b; c; d] 0 = n.
Proof.
  intros Hn. eexists _, _, _, _. split; [reflexivity|].
  assert (0 <= Z.quot n 10 < 1000) by (Z.quot_rem_to_equations; lia).
  assert (0 <= Z.quot (Z.quot n 10) 10 < 100) by (Z.quot_rem_to_equations; lia).
  assert (0 <= Z.quot (Z.quot (Z.quot n 10) 10) 10 < 10) by (Z.quot_rem_to_equations; lia).
  do 4 (erewrite fetch_digit_step; [|..|reflexivity]; [|lia]). cbn [fetch_digits_loop].
  Z.quot_rem_to_equations. lia.
Qed.

Lemma emit_mon_read mon : 0 <= mon <= 11 ->
  exists a b c, emit_mon mon = Some [a; b; c] /\ find_case month_cases (PACK3 a b c) = Some mon.
Proof.
  intros H.
  assert (Hall : forallb (fun mon => match emit_mon mon with
      | Some [a; b; c] => bool_decide (find_case month_cases (PACK3 a b c) = Some mon) | _ => false end) (seqZ 0 12) = true)
    by (vm_compute; done).
  rewrite forallb_forall in Hall. specialize (Hall mon ltac:(apply list_elem_of_In, elem_of_seqZ; lia)). cbv beta in Hall.
  destruct (emit_mon mon) as [[|a [|b [|c [|]]]]|]; try discriminate. apply bool_decide_eq_true in Hall. eauto.
Qed.

Lemma emit_wday_some wday : 0 <= wday <= 6 -> exists a b c, emit_wday wday = Some [a; b; c].
Proof.
  intros H. assert (wday = 0 \/ wday = 1 \/ wday = 2 \/ wday = 3 \/ wday = 4 \/ wday = 5 \/ wday = 6) as Hm by lia.
  clear H. repeat destruct Hm as [->|Hm]; try subst wday; do 3 eexists; vm_compute; reflexivity.
Qed.

(** The fields that the text has. *)
Definition date_ok (g : tm) : Prop :=
  0 <= tm_sec g < 100 /\ 0 <= tm_min g < 100 /\ 0 <= tm_hour g < 100 /\ 0 <= tm_mday g < 100 /\
  0 <= tm_mon g <= 11 /\ 0 <= tm_wday g <= 6 /\ 0 <= tm_year g + 1900 < 10000.

Lemma FETCH_ok s pos n v store k : fetch_digits s pos n = v -> 0 <= v -> FETCH s pos n store k = k (store v).
Proof. intros Hv Hp. unfold FETCH. rewrite Hv. by replace (v =? -1) with false by lia. Qed.

Lemma parse_rfc1123_fields s t0 sec min hour mday mon year :
  len s = H2O_TIMESTR_RFC1123_LEN -> fetch_digits s 12 4 = year -> fetch_digits s 5 2 = mday ->
  fetch_digits s 17 2 = hour -> fetch_digits s 20 2 = min -> fetch_digits s 23 2 = sec ->
  find_case month_cases (PACK3 (nth 8 s 0) (nth 9 s 0) (nth 10 s 0)) = Some mon ->
  0 <= sec /\ 0 <= min /\ 0 <= hour /\ 0 <= mday /\ 0 <= year ->
  h2o_time_parse_rfc1123 s t0 = (0, Tm sec min hour mday mon (year - 1900) (tm_wday t0) (tm_yday t0)).
Proof.
  intros Hl Hy Hd Hh Hm Hs Hmon Hpos. unfold h2o_time_parse_rfc1123. rewrite Hl, Z.eqb_refl. cbn [negb].
  erewrite FETCH_ok; [|done|lia]. cbv zeta. cbn [tm_sec tm_min tm_hour tm_mday tm_mon tm_year tm_wday tm_yday].
  do 4 (erewrite FETCH_ok; [|done|lia]; cbn [tm_sec tm_min tm_hour tm_mday tm_mon tm_year tm_wday tm_yday]).
  by rewrite Hmon.
Qed.

Lemma rfc1123_read g t0 : date_ok g ->
  exists s, h2o_time2str_rfc1123 g = Some s /\ len s = H2O_TIMESTR_RFC1123_LEN /\
    h2o_time_parse_rfc1123 s t0 =
      (0, Tm (tm_sec g) (tm_min g) (tm_hour g) (tm_mday g) (tm_mon g) (tm_year g) (tm_wday t0) (tm_yday t0)).
Proof.
  intros (Hs & Hm & Hh & Hd & Hmon & Hw & Hy). unfold h2o_time2str_rfc1123.
  destruct (emit_wday_some _ Hw) as (w1 & w2 & w3 & ->). destruct (emit_mon_read _ Hmon) as (m1 & m2 & m3 & -> & Hfind).
  destruct (emit_digits_2 _ Hs) as (s1 & s2 & -> & Hs'). destruct (emit_digits_2 _ Hm) as (n1 & n2 & -> & Hn').
  destruct (emit_digits_2 _ Hh) as (h1 & h2 & -> & Hh'). destruct (emit_digits_2 _ Hd) as (d1 & d2 & -> & Hd').
  destruct (emit_digits_4 _ Hy) as (y1 & y2 & y3 & y4 & -> & Hy').
  eexists. split; [reflexivity|]. split; [reflexivity|].
  rewrite (parse_rfc1123_fields _ t0 (tm_sec g) (tm_min g) (tm_hour g) (tm_mday g) (tm_mon g) (tm_year g + 1900));
    [do 2 f_equal; lia|reflexivity|done..|lia].
Qed.

(** The times of the years 0 to 9999. *)
Definition in_four_digits (t : Z) : Prop := year_start 0 * 86400 <= t < year_start 10000 * 86400.

Lemma gmtime_date_ok t : in_four_digits t -> date_ok (gmtime t).
Proof.
  intros Ht. unfold in_four_digits in Ht. pose proof (gmtime_spec t) as H. cbv zeta in H. set (g := gmtime t) in *.
  pose proof (year_step (tm_year g + 1900)) as Hstep.
  assert (0 <= tm_year g + 1900).
  { destruct (Z.le_gt_cases 0 (tm_year g + 1900)) as [|Hneg]; [done|].
    pose proof (year_start_mono (tm_year g + 1900) 0 ltac:(lia)). lia. }
  assert (tm_year g + 1900 < 10000).
  { destruct (Z.lt_ge_cases (tm_year g + 1900) 10000) as [|Hpos]; [done|].
    pose proof (year_start_mono 9999 (tm_year g + 1900) ltac:(lia)) as Hm. change (9999 + 1) with 10000 in Hm. lia. }
  unfold date_ok. lia.
Qed.

(** ** The offset of the zone *)

(** Of two days next to each other in different years, the later is in the next year. *)
Lemma next_year y1 d1 y2 d2 :
  y1 < y2 -> 0 <= d1 < 365 + (if leap y1 then 1 else 0) -> 0 <= d2 ->
  year_start y2 + d2 <= year_start y1 + d1 + 1 -> y2 = y1 + 1 /\ d2 = 0 /\ 364 <= d1 /\ year_start y2 = year_start y1 + d1 + 1.
Proof.
  intros Hy H1 H2 Hd. pose proof (year_step y1) as Hs. pose proof (year_start_mono y1 y2 Hy).
  assert (y2 = y1 + 1).
  { destruct (Z.eq_dec y2 (y1 + 1)) as [|Hne]; [done|]. pose proof (year_start_mono (y1 + 1) y2 ltac:(lia)) as Hm.
    rewrite year_step, Hs in Hm. destruct (leap (y1 + 1)); lia. }
  subst y2. destruct (leap y1); lia.
Qed.

Lemma gmt_offset_any t tz : -1440 < tz < 1440 -> calc_gmt_offset t (localtime tz t) = tz.
Proof.
  intros Htz. unfold calc_gmt_offset, localtime.
  pose proof (gmtime_spec t) as Hg. pose proof (gmtime_spec (t + 60 * tz)) as Hl. cbv zeta in Hg, Hl.
  set (g := gmtime t) in *. set (l := gmtime (t + 60 * tz)) in *. clearbody g l.
  destruct Hg as (Hg & Hgs & Hgm & Hgh & _ & _ & _ & _ & _ & Hgy).
  destruct Hl as (Hl & Hls & Hlm & Hlh & _ & _ & _ & _ & _ & Hly).
  destruct (Z.eqb_spec (tm_year l) (tm_year g)) as [Heq|Hne].
  { rewrite Heq in *. destruct (Z.eqb_spec (tm_yday l) (tm_yday g)) as [He|]; cbn [negb]; [rewrite He in *|]; lia. }
  destruct (Z.lt_total (tm_year l) (tm_year g)) as [Hlt|[|Hlt]]; [|lia|].
  - destruct (next_year (tm_year l + 1900) (tm_yday l) (tm_year g + 1900) (tm_yday g)) as (H1 & H2 & H3 & H4); try lia.
    replace (tm_yday l =? tm_yday g) with false by lia. cbn [negb]. lia.
  - destruct (next_year (tm_year g + 1900) (tm_yday g) (tm_year l + 1900) (tm_yday l)) as (H1 & H2 & H3 & H4); try lia.
    replace (tm_yday l =? tm_yday g) with false by lia. cbn [negb]. lia.
Qed.

Lemma len_fmt_02d n : 0 <= n < 100 -> len (fmt_02d n) = 2.
Proof.
  intros Hn. assert (Hall : forallb (fun n => len (fmt_02d n) =? 2) (seqZ 0 100) = true) by (vm_compute; done).
  rewrite forallb_forall in Hall. specialize (Hall n ltac:(apply list_elem_of_In, elem_of_seqZ; lia)). lia.
Qed.

Lemma len_decimal_4 n : 1000 <= n < 10000 -> len (decimal 20 n) = 4.
Proof.
  intros Hn. cbn [decimal].
  replace (n / 10 =? 0) with false by (Z.div_mod_to_equations; lia).
  replace (n / 10 / 10 =? 0) with false by (Z.div_mod_to_equations; lia).
  replace (n / 10 / 10 / 10 =? 0) with false by (Z.div_mod_to_equations; lia).
  replace (n / 10 / 10 / 10 / 10 =? 0) with true by (Z.div_mod_to_equations; lia).
  done.
Qed.

(** ** Properties *)

(** C38: a date that the server writes is read back as the same time: for every time of the years 0
    to 9999 the text has 29 octets, is accepted, and what is read compares with any other time,
    broken down, as the time itself does. *)
Theorem date_roundtrip t t0 :
  in_four_digits t ->
  exists s g, h2o_time2str_rfc1123 (gmtime t) = Some s /\ len s = H2O_TIMESTR_RFC1123_LEN /\
    h2o_time_parse_rfc1123 s t0 = (0, g) /\
    forall u, tm_is_lessthan g (gmtime u) = (t <? u) /\ tm_is_lessthan (gmtime u) g = (u <? t).
Proof.
  intros Ht. destruct (rfc1123_read (gmtime t) t0 (gmtime_date_ok t Ht)) as (s & Hs & Hl & Hp).
  eexists s, _. split_and!; [done..|]. intros u. rewrite <- !tm_is_lessthan_exact. done.
Qed.

Lemma date_roundtrip_witness : in_four_digits 1411104244 /\ exists s g,
    h2o_time2str_rfc1123 (gmtime 1411104244) = Some s /\ len s = H2O_TIMESTR_RFC1123_LEN /\
    h2o_time_parse_rfc1123 s (gmtime 0) = (0, g) /\
    forall u, tm_is_lessthan g (gmtime u) = (1411104244 <? u) /\ tm_is_lessthan (gmtime u) g = (u <? 1411104244).
Proof. split; [|apply (date_roundtrip 1411104244 (gmtime 0))]; (split; vm_compute; [discriminate|reflexivity]). Defined.

(** The access log gives the offset of the zone, to the minute, in every zone less than a day
    away from UTC and also across the ends of days and years; and its time stamp has the length
    that the code asserts for every time of the years 1000 to 9999 (of the zone). *)
Theorem log_offset_exact t tz :
  -1440 < tz < 1440 ->
  calc_gmt_offset t (localtime tz t) = tz /\
  (year_start 1000 * 86400 <= t + 60 * tz < year_start 10000 * 86400 ->
   exists s, h2o_time2str_log tz t = Some s /\ len s = H2O_TIMESTR_LOG_LEN).
Proof.
  intros Htz. pose proof (gmt_offset_any t tz Htz) as Hoff. split; [done|]. intros Ht.
  unfold h2o_time2str_log. rewrite Hoff.
  pose proof (gmtime_spec (t + 60 * tz)) as H. cbv zeta in H. change (gmtime (t + 60 * tz)) with (localtime tz t) in H.
  set (l := localtime tz t) in *. clearbody l.
  pose proof (year_step (tm_year l + 1900)) as Hstep.
  assert (1000 <= tm_year l + 1900).
  { destruct (Z.le_gt_cases 1000 (tm_year l + 1900)) as [|Hneg]; [done|].
    pose proof (year_start_mono (tm_year l + 1900) 1000 ltac:(lia)). lia. }
  assert (tm_year l + 1900 < 10000).
  { destruct (Z.lt_ge_cases (tm_year l + 1900) 10000) as [|Hpos]; [done|].
    pose proof (year_start_mono 9999 (tm_year l + 1900) ltac:(lia)) as Hm. change (9999 + 1) with 10000 in Hm. lia. }
  destruct (emit_mon_read (tm_mon l) ltac:(lia)) as (a & b & c & -> & _).
  destruct (Z.leb_spec 0 tz); cbn [mbind option_bind].
  1: assert (0 <= tz / 60 < 100 /\ 0 <= tz mod 60 < 100) by (Z.div_mod_to_equations; lia).
  2: assert (0 <= - tz / 60 < 100 /\ 0 <= - tz mod 60 < 100) by (Z.div_mod_to_equations; lia).
  all: match goal with |- context [len ?s =? _] => assert (Hlen : len s = H2O_TIMESTR_LOG_LEN) end.
  1,3: rewrite !len_app, !len_fmt_02d, !len_decimal_4 by lia; reflexivity.
  all: rewrite Hlen, Z.eqb_refl; eauto.
Qed.

Lemma log_offset_exact_witness : -1440 < -570 < 1440 /\
  calc_gmt_offset 1409294078 (localtime (-570) 1409294078) = -570 /\
  (year_start 1000 * 86400 <= 1409294078 + 60 * -570 < year_start 10000 * 86400 ->
   exists s, h2o_time2str_log (-570) 1409294078 = Some s /\ len s = H2O_TIMESTR_LOG_LEN).
Proof. split; [lia|]. apply (log_offset_exact 1409294078 (-570)). lia. Defined.
