(* ===== verification/Filecache.v ===== *)
(** * The cache of open files (lib/common/filecache.c, include/h2o/filecache.h)

    Files that were opened, or could not be opened, by their paths.  The entries are reference
    counted: one reference is the cache's own, the others are those of callers of
    [h2o_filecache_open_file].

    The entries in memory are a finite map from addresses, the hash table ([khash]) is a finite
    map from paths, the list of entries is the list of its members from [lru.next] to [lru.prev].
    [fc_fds] are the file descriptors that the cache has got from the system and not closed.
    [None] is a failed assertion, an access to an entry that is not there (any more) or the
    closing of a descriptor that is not open. *)
From S2P Require Import Prelude Strings Timestr.
From Stdlib Require Import ZArith Lia.
From stdpp Require Import base numbers option list gmap strings.
Open Scope Z_scope.

Record stat := Stat {
  st_mtime : Z;
  st_size : Z;
  st_isdir : bool }.

(** [f_last_modified] is [None] while [str[0]] is 0; [f_etag] is empty while [len] is 0. *)
Record fileref := FileRef {
  f_fd : Z;
  f_refcnt : Z;
  f_st : stat;
  f_last_modified : option (tm * bytes);
  f_etag : bytes;
  f_open_err : Z;
  f_path : bytes }.

Record filecache := Filecache {
  fc_hash : gmap bytes nat;
  fc_lru : list nat;
  fc_capacity : Z;
  fc_refs : gmap nat fileref;
  fc_fds : gset Z }.

Definition set_fc_refs (m : gmap nat fileref) (c : filecache) : filecache :=
  Filecache (fc_hash c) (fc_lru c) (fc_capacity c) m (fc_fds c).
Definition set_fc_fds (s : gset Z) (c : filecache) : filecache :=
  Filecache (fc_hash c) (fc_lru c) (fc_capacity c) (fc_refs c) s.
Definition put_refcnt (n : Z) (r : fileref) : fileref :=
  FileRef (f_fd r) n (f_st r) (f_last_modified r) (f_etag r) (f_open_err r) (f_path r).

(** ** References *)

(** [close(2)]. *)
Definition sys_close (c : filecache) (fd : Z) : option filecache :=
  if bool_decide (fd ∈ fc_fds c) then Some (set_fc_fds (fc_fds c ∖ {[fd]}) c) else None.

Definition h2o_filecache_close_file (c : filecache) (ref : nat) : option filecache :=
  r ← fc_refs c !! ref;
  let refcnt := wrap64 (f_refcnt r - 1) in
  if negb (refcnt =? 0) then Some (set_fc_refs (<[ref := put_refcnt refcnt r]> (fc_refs c)) c)
  else if bool_decide (ref ∈ fc_lru c) then None
  else
    c ← (if negb (f_fd r =? -1) then sys_close c (f_fd r) else Some c);
    Some (set_fc_refs (delete ref (fc_refs c)) c).

(** The entry is that of a path of the table. *)
Definition release_from_cache (c : filecache) (path : bytes) : option filecache :=
  ref ← fc_hash c !! path;
  if bool_decide (ref ∈ fc_lru c) then
    h2o_filecache_close_file
      (Filecache (delete path (fc_hash c)) (filter (.≠ ref) (fc_lru c)) (fc_capacity c) (fc_refs c) (fc_fds c)) ref
  else None.

Definition h2o_filecache_create (capacity : Z) : filecache := Filecache ∅ [] capacity ∅ ∅.

(** The paths in the order of the slots of the table. *)
Fixpoint clear_paths (paths : list bytes) (c : filecache) : option filecache :=
  match paths with
  | [] => Some c
  | path :: paths => c ← release_from_cache c path; clear_paths paths c
  end.

Definition h2o_filecache_clear (c : filecache) : option filecache :=
  c ← clear_paths (map_to_list (fc_hash c)).*1 c;
  if bool_decide (size (fc_hash c) = 0%nat) then Some c else None.

(** ** Opening *)

(** What [open(2)] and [fstat(2)] answer. *)
Inductive os_answer :=
| OpenFails (errno : Z)
| StatFails (fd errno : Z)
| Opens (fd : Z) (st : stat).

(** The part of [h2o_filecache_open_file] that puts a new entry into the cache, purging one if the
    cache is full: the count of references to the entry, and the cache. *)
Definition assign_entry (c : filecache) (path : bytes) (newref : nat) : option (Z * filecache) :=
  if negb (fc_capacity c =? 0) then
    c ← (if Z.of_nat (size (fc_hash c)) =? fc_capacity c then
           purge_ref ← last (fc_lru c);
           p ← fc_refs c !! purge_ref;
           release_from_cache c (f_path p)
         else Some c);
    Some (2, Filecache (<[path := newref]> (fc_hash c)) (newref :: fc_lru c) (fc_capacity c) (fc_refs c) (fc_fds c))
  else Some (1, c).

(** The part that opens the file, or memoizes the error; with the descriptors that are open. *)
Definition open_entry (refcnt : Z) (path : bytes) (os : os_answer) (fds : gset Z) : fileref * gset Z :=
  match os with
  | Opens fd st => (FileRef fd refcnt st None [] 0 path, fds ∪ {[fd]})
  | StatFails _ errno | OpenFails errno => (FileRef (-1) refcnt (Stat 0 0 false) None [] errno path, fds)
  end.

(** [os] is the answer when the descriptors of the argument are open, [newref] the address that
    [h2o_mem_alloc] gives.  The reference, and [errno] if it is [NULL]. *)
Definition h2o_filecache_open_file (c : filecache) (path : bytes) (newref : nat) (os : gset Z -> os_answer)
    : option (option nat * Z * filecache) :=
  '(ref, r, c) ←
    match fc_hash c !! path with
    | Some ref =>
        r ← fc_refs c !! ref;
        let r := put_refcnt (wrap64 (f_refcnt r + 1)) r in
        Some (ref, r, set_fc_refs (<[ref := r]> (fc_refs c)) c)
    | None =>
        '(refcnt, c) ← assign_entry c path newref;
        let '(r, fds) := open_entry refcnt path (os (fc_fds c)) (fc_fds c) in
        match fc_refs c !! newref with
        | Some _ => None
        | None => Some (newref, r, set_fc_refs (<[newref := r]> (fc_refs c)) (set_fc_fds fds c))
        end
    end;
  if f_fd r =? -1 then
    c ← h2o_filecache_close_file c ref;
    Some (None, f_open_err r, c)
  else Some (Some ref, 0, c).

(** ** The date and the tag of a file *)

(** The least hexadecimal digits of a number below [16 ^ fuel], in lower case. *)
Definition hex_digit (d : Z) : Z := if d <? 10 then 48 + d else 87 + d.

Fixpoint hexadecimal (fuel : nat) (value : Z) : bytes :=
  match fuel with
  | O => []
  | S fuel => if value / 16 =? 0 then [hex_digit (value mod 16)]
              else hexadecimal fuel (value / 16) ++ [hex_digit (value mod 16)]
  end.

(** [%08x] of an [unsigned]. *)
Fixpoint hex_padded (n : nat) (value : Z) : bytes :=
  match n with
  | O => []
  | S n => hex_padded n (value / 16) ++ [hex_digit (value mod 16)]
  end.

Definition H2O_FILECACHE_ETAG_MAXLEN : Z := 27.

(** [None]: the assertion fails, or that of [h2o_time2str_rfc1123]. *)
Definition h2o_filecache_get_last_modified (r : fileref) : option (tm * bytes * fileref) :=
  if f_fd r =? -1 then None
  else
    match f_last_modified r with
    | Some (gm, str) => Some (gm, str, r)
    | None =>
        let gm := gmtime (st_mtime (f_st r)) in
        str ← h2o_time2str_rfc1123 gm;
        Some (gm, str, FileRef (f_fd r) (f_refcnt r) (f_st r) (Some (gm, str)) (f_etag r) (f_open_err r) (f_path r))
    end.

Definition h2o_filecache_get_etag (r : fileref) : option (bytes * fileref) :=
  if f_fd r =? -1 then None
  else
    let etag :=
      if len (f_etag r) =? 0 then
        [34] ++ hex_padded 8 (wrap32 (st_mtime (f_st r))) ++ [45] ++ hexadecimal 16 (wrap64 (st_size (f_st r))) ++ [34]
      else f_etag r in
    Some (etag, FileRef (f_fd r) (f_refcnt r) (f_st r) (f_last_modified r) etag (f_open_err r) (f_path r)).

(** [char] is signed: an octet from 128 on is less than 0x21. *)
Definition etag_char_ok (c : Z) : bool :=
  let c' := if c <? 128 then c else c - 256 in negb (c' <? 0x21) && negb (c =? 34).

Definition h2o_filecache_compare_etag_strong (tag1 tag2 : bytes) : bool :=
  if len tag1 <? 3 then false
  else if negb (nth 0 tag1 0 =? 34) || negb (nth (length tag1 - 1) tag1 0 =? 34) then false
  else if negb (forallb etag_char_ok (take (length tag1 - 2) (drop 1 tag1))) then false
  else bool_decide (tag1 = tag2).

(** ** An example *)

Example etag_ex :
  fst <$> h2o_filecache_get_etag (FileRef 3 1 (Stat 0x5f3e1a2b 0x1c0 false) None [] 0 (lit "/a"))
  = Some ([34] ++ lit "5f3e1a2b-1c0" ++ [34]).
Proof. vm_compute. reflexivity. Qed.

(** The file that has just been used is dropped, not the one that has not been used: the list is in
    the order of insertion. *)
Definition open_as (fd : Z) (_ : gset Z) : os_answer := Opens fd (Stat 0 0 false).

Example purges_oldest_not_least_recent :
  ('(_, _, c) ← h2o_filecache_open_file (h2o_filecache_create 2) (lit "/a") 1 (open_as 11);
   '(_, _, c) ← h2o_filecache_open_file c (lit "/b") 2 (open_as 12);
   '(_, _, c) ← h2o_filecache_open_file c (lit "/a") 3 (open_as 13);
   '(_, _, c) ← h2o_filecache_open_file c (lit "/c") 3 (open_as 13);
   Some (fc_hash c !! lit "/a", fc_hash c !! lit "/b", fc_hash c !! lit "/c"))
  = Some (None, Some 2%nat, Some 3%nat).
Proof. vm_compute. reflexivity. Qed.
