(* ===== verification/FilecacheOk.v ===== *)
(** * The cache of open files: invariant (lib/common/filecache.c)

    However callers open and close files, with whatever answers of the system: no assertion
    fails, no entry is used after it is freed, no descriptor is leaked or closed twice or closed
    under a caller, and the cache holds no more entries than its capacity. *)
From S2P Require Import Prelude Strings Timestr Filecache.
From Stdlib Require Import ZArith Lia Relations.
From stdpp Require Import base numbers option list gmap strings.
Open Scope Z_scope.

(** ** The invariant, for a count of the references to each entry *)

Definition etag_of (st : stat) : bytes :=
  [34] ++ hex_padded 8 (wrap32 (st_mtime st)) ++ [45] ++ hexadecimal 16 (wrap64 (st_size st)) ++ [34].

(** What is kept with an entry is of its file. *)
Definition data_ok (r : fileref) : Prop :=
  (forall gm str, f_last_modified r = Some (gm, str) -> gm = gmtime (st_mtime (f_st r)) /\ h2o_time2str_rfc1123 gm = Some str) /\
  (f_etag r = [] \/ f_etag r = etag_of (f_st r)).

Record fc_inv (c : filecache) (cnt : nat -> Z) : Prop := {
  fi_nodup : NoDup (fc_lru c);
  fi_hash k a : fc_hash c !! k = Some a <-> a ∈ fc_lru c /\ f_path <$> fc_refs c !! a = Some k;
  fi_lru a : a ∈ fc_lru c -> is_Some (fc_refs c !! a);
  fi_refs a r : fc_refs c !! a = Some r -> f_refcnt r = cnt a /\ 1 <= cnt a < 2 ^ 64 /\ data_ok r;
  fi_fds fd : fd ∈ fc_fds c <-> fd <> -1 /\ exists a r, fc_refs c !! a = Some r /\ f_fd r = fd;
  fi_inj a b ra rb : fc_refs c !! a = Some ra -> fc_refs c !! b = Some rb -> f_fd ra = f_fd rb -> f_fd ra <> -1 -> a = b }.

Definition bump (cnt : nat -> Z) (a : nat) (d : Z) : nat -> Z := fun b => if decide (b = a) then cnt b + d else cnt b.

Lemma bump_eq cnt a d : bump cnt a d a = cnt a + d.
Proof. unfold bump. by rewrite decide_True. Qed.
Lemma bump_ne cnt a d b : b <> a -> bump cnt a d b = cnt b.
Proof. intros. unfold bump. by rewrite decide_False. Qed.

Lemma fc_inv_ext c cnt cnt' : (forall a, is_Some (fc_refs c !! a) -> cnt a = cnt' a) -> fc_inv c cnt -> fc_inv c cnt'.
Proof.
  intros He H. split; try apply H. intros a r Hr. rewrite <- (He a) by eauto. by apply H.
Qed.

(** Another entry in the place of one: same file and path. *)
Lemma fc_inv_update c cnt cnt' a r r' :
  fc_inv c cnt -> fc_refs c !! a = Some r -> f_fd r' = f_fd r -> f_path r' = f_path r -> data_ok r' ->
  f_refcnt r' = cnt' a -> 1 <= cnt' a < 2 ^ 64 -> (forall b, b <> a -> cnt' b = cnt b) ->
  fc_inv (set_fc_refs (<[a := r']> (fc_refs c)) c) cnt'.
Proof.
  intros H Hr Hfd Hp Hd Hc Hb Hne. split; simpl.
  - apply H.
  - intros k b. rewrite (fi_hash _ _ H). destruct (decide (b = a)) as [->|Hba].
    + by rewrite lookup_insert_eq, Hr; simpl; rewrite Hp.
    + by rewrite lookup_insert_ne.
  - intros b Hb'. destruct (decide (b = a)) as [->|]; [rewrite lookup_insert_eq; eauto|].
    rewrite lookup_insert_ne by done. by apply H.
  - intros b q Hq. destruct (decide (b = a)) as [->|Hba].
    + rewrite lookup_insert_eq in Hq. injection Hq as <-. done.
    + rewrite lookup_insert_ne in Hq by done. rewrite Hne by done. by apply H.
  - intros fd. rewrite (fi_fds _ _ H). split; intros (H1 & b & q & Hq & E); split; [done| |done|].
    + destruct (decide (b = a)) as [->|]; [|exists b, q; by rewrite lookup_insert_ne].
      exists a, r'. rewrite lookup_insert_eq. split; [done|]. rewrite Hr in Hq. injection Hq as <-. congruence.
    + destruct (decide (b = a)) as [->|]; [|rewrite lookup_insert_ne in Hq by done; eauto].
      rewrite lookup_insert_eq in Hq. injection Hq as <-. exists a, r. split; [done|congruence].
  - assert (Hget : forall b q, <[a := r']> (fc_refs c) !! b = Some q -> exists q', fc_refs c !! b = Some q' /\ f_fd q' = f_fd q).
    { intros b q Hq. destruct (decide (b = a)) as [->|]; [|rewrite lookup_insert_ne in Hq by done; eauto].
      rewrite lookup_insert_eq in Hq. injection Hq as <-. eauto. }
    intros b1 b2 q1 q2 (p1 & E1 & F1)%Hget (p2 & E2 & F2)%Hget E Hn. eapply (fi_inj _ _ H); [done|done|congruence|congruence].
Qed.

Lemma data_ok_refcnt n r : data_ok r -> data_ok (put_refcnt n r).
Proof. done. Qed.

(** ** Dropping a reference *)

(** The same file. *)
Definition same_file (r r' : fileref) : Prop := f_fd r' = f_fd r /\ f_st r' = f_st r /\ f_path r' = f_path r.

(** One of [n] references to the entry at [a], of [r], is dropped. *)
Definition drops (c c' : filecache) (a : nat) (r : fileref) (n : Z) : Prop :=
  fc_hash c' = fc_hash c /\ fc_lru c' = fc_lru c /\ fc_capacity c' = fc_capacity c /\
  (forall b, b <> a -> fc_refs c' !! b = fc_refs c !! b) /\
  (2 <= n -> exists r', fc_refs c' !! a = Some r' /\ same_file r r').

Lemma fc_inv_free c cnt a r :
  fc_inv c cnt -> fc_refs c !! a = Some r -> a ∉ fc_lru c ->
  fc_inv (Filecache (fc_hash c) (fc_lru c) (fc_capacity c) (delete a (fc_refs c)) (fc_fds c ∖ {[f_fd r]})) cnt.
Proof.
  intros H Hr Hna. split; simpl.
  - apply H.
  - intros k b. rewrite (fi_hash _ _ H). destruct (decide (b = a)) as [->|]; [tauto|]. by rewrite lookup_delete_ne.
  - intros b Hb. destruct (decide (b = a)) as [->|]; [tauto|]. rewrite lookup_delete_ne by done. by apply H.
  - intros b q Hq. apply lookup_delete_Some in Hq as [_ Hq]. by apply H.
  - intros fd. rewrite elem_of_difference, elem_of_singleton, (fi_fds _ _ H). split.
    + intros ((H1 & b & q & Hq & <-) & Hne). split; [done|]. exists b, q. rewrite lookup_delete_ne; [done|congruence].
    + intros (H1 & b & q & Hq & <-). apply lookup_delete_Some in Hq as [Hab Hq].
      split; [split; [done|eauto]|]. intros Heq. apply Hab. apply (fi_inj _ _ H a b r q); congruence.
  - intros b1 b2 q1 q2 [_ E1]%lookup_delete_Some [_ E2]%lookup_delete_Some. by apply (fi_inj _ _ H).
Qed.

Lemma close_file_inv c cnt a r :
  fc_inv c cnt -> fc_refs c !! a = Some r -> (cnt a = 1 -> a ∉ fc_lru c) ->
  succeeds (h2o_filecache_close_file c a) (fun c' => fc_inv c' (bump cnt a (-1)) /\ drops c c' a r (cnt a)).
Proof.
  intros H Hr Hlast. destruct (fi_refs _ _ H a r Hr) as (Hc & Hb & Hd).
  unfold h2o_filecache_close_file. rewrite Hr. cbn [mbind option_bind]. rewrite wrap64_small, Hc by lia.
  destruct (Z.eqb_spec (cnt a - 1) 0) as [E|E]; cbn [negb].
  - rewrite bool_decide_eq_false_2 by (apply Hlast; lia).
    assert (Hcl : (if negb (f_fd r =? -1) then sys_close c (f_fd r) else Some c) = Some (set_fc_fds (fc_fds c ∖ {[f_fd r]}) c)).
    { destruct (Z.eqb_spec (f_fd r) (-1)) as [Em|Em]; cbn [negb].
      - f_equal. destruct c as [h l cap m fds]. unfold set_fc_fds. simpl. f_equal.
        apply leibniz_equiv. intros fd. rewrite elem_of_difference, elem_of_singleton. split; [|tauto].
        intros Hfd. split; [done|]. intros ->. apply (fi_fds _ _ H) in Hfd as [Hn _]. done.
      - unfold sys_close. rewrite bool_decide_eq_true_2; [done|]. apply (fi_fds _ _ H). eauto. }
    rewrite Hcl. apply succeeds_some. split.
    + apply (fc_inv_ext _ cnt); [|exact (fc_inv_free c cnt a r H Hr (Hlast ltac:(lia)))].
      simpl. intros b [q Hq]. apply lookup_delete_Some in Hq as [Hba _]. by rewrite bump_ne.
    + unfold drops. simpl. split_and!; [done..| |].
      * intros b Hb'. by rewrite lookup_delete_ne.
      * lia.
  - apply succeeds_some. split.
    + eapply fc_inv_update; [done|done|done|done|by apply data_ok_refcnt| | |].
      * simpl. by rewrite bump_eq.
      * rewrite bump_eq. lia.
      * intros b Hb'. by rewrite bump_ne.
    + unfold drops. simpl. split_and!; [done..| |].
      * intros b Hb'. by rewrite lookup_insert_ne.
      * intros _. eexists. rewrite lookup_insert_eq. done.
Qed.

Lemma release_inv c cnt k a r :
  fc_inv c cnt -> fc_hash c !! k = Some a -> fc_refs c !! a = Some r ->
  succeeds (release_from_cache c k) (fun c' =>
    fc_inv c' (bump cnt a (-1)) /\ fc_hash c' = delete k (fc_hash c) /\ fc_lru c' = filter (.≠ a) (fc_lru c) /\
    fc_capacity c' = fc_capacity c /\ (forall b, b <> a -> fc_refs c' !! b = fc_refs c !! b) /\
    (2 <= cnt a -> exists r', fc_refs c' !! a = Some r' /\ same_file r r')).
Proof.
  intros H Hk Hr. destruct (proj1 (fi_hash _ _ H k a) Hk) as [Ha Hp]. rewrite Hr in Hp. simpl in Hp.
  unfold release_from_cache. rewrite Hk. cbn [mbind option_bind]. rewrite bool_decide_eq_true_2 by done.
  set (c1 := Filecache _ _ _ _ _).
  assert (H1 : fc_inv c1 cnt).
  { split; simpl; try apply H.
    - apply NoDup_filter, H.
    - intros k' b. rewrite lookup_delete_Some, (fi_hash _ _ H), list_elem_of_filter. split.
      + intros (Hne & Hb & Hpb). split; [split; [|done]|done]. intros ->. rewrite Hr in Hpb. simpl in Hpb. congruence.
      + intros ((Hne & Hb) & Hpb). split; [|done]. intros ->.
        assert (fc_hash c !! k' = Some b) by (apply (fi_hash _ _ H); done). congruence.
    - intros b Hb. apply list_elem_of_filter in Hb as [_ Hb]. by apply H. }
  eapply succeeds_weaken; [apply (close_file_inv c1 cnt a r H1 Hr)|].
  { intros _ Hin. apply list_elem_of_filter in Hin as [Hin _]. done. }
  intros c' (Hinv & Eh & El & Ec & Hne & Hsame). done.
Qed.

(** ** The references of callers *)

Definition in_lru (c : filecache) (a : nat) : Z := if bool_decide (a ∈ fc_lru c) then 1 else 0.

(** [held] are the references that callers have. *)
Record fc_ok (c : filecache) (held : nat -> Z) : Prop := {
  fo_inv : fc_inv c (fun a => held a + in_lru c a);
  fo_held a : 0 <= held a < 2 ^ 63;
  fo_open a : 0 < held a -> exists r, fc_refs c !! a = Some r /\ f_fd r <> -1;
  fo_cap : len (fc_lru c) <= fc_capacity c }.

Lemma hash_lru c cnt : fc_inv c cnt -> (map_to_list (fc_hash c)).*2 ≡ₚ fc_lru c.
Proof.
  intros H. apply NoDup_Permutation.
  - apply NoDup_fmap_2_strong; [|apply NoDup_map_to_list].
    intros [k1 a1] [k2 a2] H1 H2 E. simpl in E. subst a2. apply elem_of_map_to_list in H1, H2.
    apply (fi_hash _ _ H) in H1 as [_ H1], H2 as [_ H2]. congruence.
  - apply H.
  - intros a. rewrite list_elem_of_fmap. split.
    + intros ([k b] & -> & Hk). apply elem_of_map_to_list, (fi_hash _ _ H) in Hk as [Hk _]. done.
    + intros Ha. destruct (fi_lru _ _ H a Ha) as [r Hr]. exists (f_path r, a). split; [done|].
      apply elem_of_map_to_list, (fi_hash _ _ H). by rewrite Hr.
Qed.

Lemma hash_size c cnt : fc_inv c cnt -> Z.of_nat (size (fc_hash c)) = len (fc_lru c).
Proof. intros H. unfold len. rewrite <- (hash_lru c cnt H), length_fmap, length_map_to_list. done. Qed.

(** An entry that is in memory is referenced. *)
Lemma in_lru_range c a : 0 <= in_lru c a <= 1.
Proof. unfold in_lru. destruct (bool_decide _); lia. Qed.

Lemma in_lru_true c a : a ∈ fc_lru c -> in_lru c a = 1.
Proof. intros. unfold in_lru. by rewrite bool_decide_eq_true_2. Qed.
Lemma in_lru_false c a : a ∉ fc_lru c -> in_lru c a = 0.
Proof. intros. unfold in_lru. by rewrite bool_decide_eq_false_2. Qed.

Lemma in_lru_same c c' b : (b ∈ fc_lru c' <-> b ∈ fc_lru c) -> in_lru c' b = in_lru c b.
Proof. intros H. unfold in_lru. by rewrite (bool_decide_ext _ _ H). Qed.

(** What callers have is as it was. *)
Definition kept (c c' : filecache) (held : nat -> Z) : Prop :=
  forall a r, 0 < held a -> fc_refs c !! a = Some r -> exists r', fc_refs c' !! a = Some r' /\ same_file r r'.

Lemma kept_refl c held : kept c c held.
Proof. intros a r _ Hr. exists r. done. Qed.

Lemma kept_trans c1 c2 c3 held : kept c1 c2 held -> kept c2 c3 held -> kept c1 c3 held.
Proof.
  intros H1 H2 a r Ha Hr. destruct (H1 a r Ha Hr) as (r1 & Hr1 & S1). destruct (H2 a r1 Ha Hr1) as (r2 & Hr2 & S2).
  exists r2. split; [done|]. unfold same_file in *. intuition congruence.
Qed.

Lemma kept_open c c' held : fc_ok c held -> kept c c' held -> forall a, 0 < held a -> exists r, fc_refs c' !! a = Some r /\ f_fd r <> -1.
Proof.
  intros H Hk a Ha. destruct (fo_open _ _ H a Ha) as (r & Hr & Hfd). destruct (Hk a r Ha Hr) as (r' & Hr' & E & _).
  exists r'. split; [done|congruence].
Qed.

Lemma close_held_ok c held a :
  fc_ok c held -> 0 < held a ->
  succeeds (h2o_filecache_close_file c a) (fun c' => fc_ok c' (bump held a (-1)) /\ kept c c' (bump held a (-1))).
Proof.
  intros H Ha. destruct (fo_open _ _ H a Ha) as (r & Hr & Hfd). pose proof (fo_inv _ _ H) as Hinv.
  eapply succeeds_weaken; [apply (close_file_inv _ _ a r Hinv Hr)|].
  { intros Hc Hin. rewrite (in_lru_true _ _ Hin) in Hc. lia. }
  intros c' (Hi & Eh & El & Ec & Hne & Hsame). pose proof (in_lru_range c a).
  assert (Hk : kept c c' (bump held a (-1))).
  { intros b q Hb Hq. destruct (decide (b = a)) as [->|Hd]; [|rewrite Hne by done; by exists q].
    rewrite bump_eq in Hb. rewrite Hr in Hq. injection Hq as <-. apply Hsame. lia. }
  split; [|done]. split.
  - eapply fc_inv_ext; [|exact Hi]. intros b _. unfold bump, in_lru. rewrite El. case_decide; lia.
  - intros b. pose proof (fo_held _ _ H b). unfold bump. case_decide; subst; lia.
  - intros b Hb. assert (0 < held b) by (unfold bump in Hb; case_decide; lia).
    destruct (fo_open _ _ H b ltac:(done)) as (q & Hq & Hqf). destruct (Hk b q Hb Hq) as (q' & Hq' & E & _).
    exists q'. split; [done|congruence].
  - rewrite El, Ec. apply H.
Qed.

Lemma fc_release_ok c held k a :
  fc_ok c held -> fc_hash c !! k = Some a ->
  succeeds (release_from_cache c k) (fun c' => fc_ok c' held /\ kept c c' held /\ fc_hash c' = delete k (fc_hash c) /\
    fc_lru c' = filter (.≠ a) (fc_lru c) /\ fc_capacity c' = fc_capacity c /\ (forall b, b <> a -> fc_refs c' !! b = fc_refs c !! b)).
Proof.
  intros H Hk. pose proof (fo_inv _ _ H) as Hinv. destruct (proj1 (fi_hash _ _ Hinv k a) Hk) as [Ha _].
  destruct (fi_lru _ _ Hinv a Ha) as [r Hr].
  eapply succeeds_weaken; [apply (release_inv _ _ k a r Hinv Hk Hr)|].
  intros c' (Hi & Eh & El & Ec & Hne & Hsame). rewrite (in_lru_true _ _ Ha) in Hsame.
  assert (Hkept : kept c c' held).
  { intros b q Hb Hq. destruct (decide (b = a)) as [->|Hd]; [|rewrite Hne by done; by exists q].
    rewrite Hr in Hq. injection Hq as <-. apply Hsame. lia. }
  split_and!; try done. split.
  - eapply fc_inv_ext; [|exact Hi]. intros b _. destruct (decide (b = a)) as [->|Hd].
    + rewrite bump_eq, in_lru_true, in_lru_false; [lia| |done]. rewrite El. intros Hin. by apply list_elem_of_filter in Hin as [Hin _].
    + rewrite bump_ne by done. f_equal. symmetry. apply in_lru_same. rewrite El, list_elem_of_filter. tauto.
  - apply H.
  - by apply (kept_open c).
  - rewrite El, Ec. pose proof (fo_cap _ _ H). pose proof (length_filter (.≠ a) (fc_lru c)). unfold len in *. lia.
Qed.

(** ** Opening *)

(** The system gives descriptors that are not open. *)
Definition os_ok (os : gset Z -> os_answer) : Prop :=
  forall fds, match os fds with
              | Opens fd _ => 0 <= fd /\ fd ∉ fds
              | _ => True
              end.

Definition open_post (c : filecache) (held : nat -> Z) (path : bytes) (x : option nat * Z * filecache) : Prop :=
  let '(ref, _, c') := x in
  kept c c' held /\ fc_capacity c' = fc_capacity c /\
  match ref with
  | None => fc_ok c' held
  | Some a => fc_ok c' (bump held a 1) /\ exists r, fc_refs c' !! a = Some r /\ f_path r = path /\ f_fd r ∈ fc_fds c'
  end.

(** The end of [h2o_filecache_open_file], after the label. *)
Lemma open_finish c held path a r :
  fc_inv c (bump (fun b => held b + in_lru c b) a 1) -> (forall b, 0 <= held b < 2 ^ 63 - 1) ->
  (forall b, 0 < held b -> exists q, fc_refs c !! b = Some q /\ f_fd q <> -1) -> len (fc_lru c) <= fc_capacity c ->
  fc_refs c !! a = Some r -> f_path r = path ->
  succeeds (if f_fd r =? -1 then c' ← h2o_filecache_close_file c a; Some (None, f_open_err r, c') else Some (Some a, 0, c))
    (open_post c held path).
Proof.
  intros Hi Hh Ho Hcap Hr Hp. destruct (fi_refs _ _ Hi a r Hr) as (Hcnt & Hb & _). rewrite bump_eq in Hcnt, Hb.
  destruct (Z.eqb_spec (f_fd r) (-1)) as [E|E].
  - assert (Hz : held a = 0).
    { destruct (Z.eq_dec (held a) 0) as [|Hn]; [done|]. destruct (Ho a) as (q & Hq & Hf); [specialize (Hh a); lia|]. congruence. }
    eapply succeeds_bind; [apply (close_file_inv _ _ a r Hi Hr)|].
    { rewrite bump_eq, Hz. intros Hc Hin. rewrite (in_lru_true _ _ Hin) in Hc. lia. }
    intros c' (Hi' & Eh & El & Ec & Hne & _). apply succeeds_some.
    assert (Hk : kept c c' held).
    { intros b q Hb' Hq. destruct (decide (b = a)) as [->|]; [lia|]. rewrite Hne by done. by exists q. }
    split; [done|]. split; [done|]. split.
    + eapply fc_inv_ext; [|exact Hi']. intros b _. unfold bump, in_lru. rewrite El. repeat case_decide; lia.
    + intros b. specialize (Hh b). lia.
    + intros b Hb'. destruct (Ho b Hb') as (q & Hq & Hf). destruct (Hk b q Hb' Hq) as (q' & Hq' & Hs & _).
      exists q'. split; [done|congruence].
    + by rewrite El, Ec.
  - apply succeeds_some. split; [apply kept_refl|]. split; [done|]. split.
    + split; [|..].
      * eapply fc_inv_ext; [|exact Hi]. intros b _. unfold bump. case_decide; lia.
      * intros b. specialize (Hh b). unfold bump. case_decide; lia.
      * intros b Hb'. destruct (decide (b = a)) as [->|Hd]; [eauto|]. rewrite bump_ne in Hb' by done. by apply Ho.
      * done.
    + exists r. split; [done|]. split; [done|]. apply (fi_fds _ _ Hi). eauto.
Qed.

Lemma open_hit_ok c held path a r :
  fc_ok c held -> (forall b, held b < 2 ^ 63 - 1) -> fc_hash c !! path = Some a -> fc_refs c !! a = Some r ->
  let r' := put_refcnt (wrap64 (f_refcnt r + 1)) r in
  let c' := set_fc_refs (<[a := r']> (fc_refs c)) c in
  fc_inv c' (bump (fun b => held b + in_lru c b) a 1) /\ kept c c' held.
Proof.
  intros H Hh Hk Hr. pose proof (fo_inv _ _ H) as Hinv. destruct (fi_refs _ _ Hinv a r Hr) as (Hcnt & Hb & Hd).
  pose proof (in_lru_range c a). specialize (Hh a).
  split.
  - eapply fc_inv_update; [exact Hinv|exact Hr|done|done|by apply data_ok_refcnt| | |].
    + simpl. rewrite bump_eq, Hcnt, wrap64_small; lia.
    + rewrite bump_eq. lia.
    + intros b Hb'. by rewrite bump_ne.
  - intros b q Hb' Hq. simpl. destruct (decide (b = a)) as [->|]; [|rewrite lookup_insert_ne by done; by exists q].
    rewrite lookup_insert_eq. eexists. split; [done|]. rewrite Hr in Hq. injection Hq as <-. done.
Qed.

(** A new entry, with [n] references. *)
Lemma add_entry_inv c cnt a r n (cached : bool) :
  fc_inv c cnt -> fc_refs c !! a = None -> fc_hash c !! f_path r = None -> f_refcnt r = n -> 1 <= n < 2 ^ 64 ->
  f_last_modified r = None -> f_etag r = [] -> (f_fd r <> -1 -> f_fd r ∉ fc_fds c) ->
  fc_inv (Filecache (if cached then <[f_path r := a]> (fc_hash c) else fc_hash c) (if cached then a :: fc_lru c else fc_lru c)
            (fc_capacity c) (<[a := r]> (fc_refs c)) (if f_fd r =? -1 then fc_fds c else fc_fds c ∪ {[f_fd r]}))
    (fun b => if decide (b = a) then n else cnt b).
Proof.
  intros H Hna Hnk Hn Hb Hlm Het Hfd.
  assert (Hnl : a ∉ fc_lru c) by (intros Hin; destruct (fi_lru _ _ H a Hin); congruence).
  assert (Hne : forall b, b ∈ fc_lru c -> b <> a) by (intros b Hb' ->; done).
  assert (Hin : forall fd, fd ∈ (if f_fd r =? -1 then fc_fds c else fc_fds c ∪ {[f_fd r]}) <-> fd ∈ fc_fds c \/ fd = f_fd r /\ fd <> -1).
  { intros fd. destruct (Z.eqb_spec (f_fd r) (-1)); [|set_solver]. split; [tauto|]. intros [|[-> ?]]; done. }
  split; simpl.
  - destruct cached; [constructor|]; try done; apply H.
  - intros k b. destruct (decide (b = a)) as [->|Hba].
    + rewrite lookup_insert_eq. simpl. destruct cached.
      * rewrite lookup_insert_Some, (fi_hash _ _ H), Hna, elem_of_cons. simpl. intuition congruence.
      * rewrite (fi_hash _ _ H), Hna. simpl. intuition congruence.
    + rewrite lookup_insert_ne by done. destruct cached; [|apply H].
      rewrite lookup_insert_Some, (fi_hash _ _ H), elem_of_cons. split; [intuition congruence|].
      intros ([->|Hb'] & Hp); [done|]. right. split; [|done]. intros <-.
      assert (fc_hash c !! f_path r = Some b) by (apply (fi_hash _ _ H); done). congruence.
  - intros b Hb'. destruct (decide (b = a)) as [->|]; [rewrite lookup_insert_eq; eauto|]. rewrite lookup_insert_ne by done.
    apply H. destruct cached; [|done]. apply elem_of_cons in Hb' as [|]; done.
  - intros b q Hq. case_decide as Hd.
    + subst b. rewrite lookup_insert_eq in Hq. injection Hq as <-. split; [done|]. split; [done|].
      split; [by rewrite Hlm|by left].
    + rewrite lookup_insert_ne in Hq by done. by apply H.
  - intros fd. rewrite Hin, (fi_fds _ _ H). split.
    + intros [(H1 & b & q & Hq & <-)|[-> H1]]; (split; [done|]).
      * exists b, q. rewrite lookup_insert_ne; [done|]. intros ->. congruence.
      * exists a, r. by rewrite lookup_insert_eq.
    + intros (H1 & b & q & Hq & <-). destruct (decide (b = a)) as [->|].
      * rewrite lookup_insert_eq in Hq. injection Hq as <-. by right.
      * rewrite lookup_insert_ne in Hq by done. left. eauto.
  - assert (Hnew : forall b q, fc_refs c !! b = Some q -> f_fd q = f_fd r -> f_fd r <> -1 -> False).
    { intros b q Hq E Hn'. apply (Hfd Hn'), (fi_fds _ _ H). eauto. }
    intros b1 b2 q1 q2 H1 H2 E Hn'. apply lookup_insert_Some in H1 as [[<- <-]|[? H1]], H2 as [[<- <-]|[? H2]]; [done|..].
    + exfalso. eapply Hnew; [exact H2|done..].
    + exfalso. eapply Hnew; [exact H1|done|congruence].
    + by eapply (fi_inj _ _ H).
Qed.

(** Room for one more entry. *)
Lemma open_purge_ok c held path :
  fc_ok c held -> fc_capacity c <> 0 -> fc_hash c !! path = None ->
  succeeds (if Z.of_nat (size (fc_hash c)) =? fc_capacity c then
              purge_ref ← last (fc_lru c); p ← fc_refs c !! purge_ref; release_from_cache c (f_path p)
            else Some c)
    (fun c' => fc_ok c' held /\ kept c c' held /\ fc_capacity c' = fc_capacity c /\ len (fc_lru c') < fc_capacity c /\
       fc_hash c' !! path = None /\ forall b, fc_refs c !! b = None -> fc_refs c' !! b = None).
Proof.
  intros H Hcap Hk. pose proof (fo_inv _ _ H) as Hinv. pose proof (fo_cap _ _ H) as Hl. rewrite (hash_size _ _ Hinv).
  destruct (Z.eqb_spec (len (fc_lru c)) (fc_capacity c)) as [E|E].
  2: { apply succeeds_some. split_and!; try done; [apply kept_refl|lia]. }
  destruct (last (fc_lru c)) as [a|] eqn:Ea; [|apply last_None in Ea; rewrite Ea in E; done].
  assert (Ha : a ∈ fc_lru c) by (apply last_Some in Ea as [l ->]; apply elem_of_app; right; by left).
  destruct (fi_lru _ _ Hinv a Ha) as [p Hp]. cbn [mbind option_bind]. rewrite Hp. cbn [mbind option_bind].
  eapply succeeds_weaken; [apply (fc_release_ok c held (f_path p) a H)|].
  { apply (fi_hash _ _ Hinv). by rewrite Hp. }
  intros c' (Hok & Hkept & Eh & El & Ec & Hne). split_and!; try done.
  - apply last_Some in Ea as [l El']. rewrite El, <- E, El' in *. pose proof (fi_nodup _ _ Hinv) as Hnd. rewrite El' in Hnd.
    rewrite (filter_ne_middle a l []) by done. unfold len. rewrite !length_app. simpl. lia.
  - rewrite Eh. apply lookup_delete_None. by right.
  - intros b Hb. rewrite Hne; [done|]. intros ->. congruence.
Qed.

(** The cache with the entry at [a] put into it, if there is a cache. *)
Definition with_entry (c : filecache) (cached : bool) (path : bytes) (a : nat) : filecache :=
  Filecache (if cached then <[path := a]> (fc_hash c) else fc_hash c) (if cached then a :: fc_lru c else fc_lru c)
    (fc_capacity c) (fc_refs c) (fc_fds c).

Lemma assign_entry_ok c held path a :
  fc_ok c held -> fc_hash c !! path = None -> fc_refs c !! a = None ->
  exists c1 cached, assign_entry c path a = Some (if cached : bool then 2 else 1, with_entry c1 cached path a) /\
    fc_ok c1 held /\ kept c c1 held /\ fc_capacity c1 = fc_capacity c /\
    (cached = true -> len (fc_lru c1) < fc_capacity c) /\ fc_hash c1 !! path = None /\ fc_refs c1 !! a = None.
Proof.
  intros H Hk Ha. unfold assign_entry. destruct (Z.eqb_spec (fc_capacity c) 0) as [E|E]; cbn [negb].
  - exists c, false. split_and!; try done; [by destruct c|apply kept_refl].
  - destruct (open_purge_ok c held path H E Hk) as (c1 & -> & H1 & H2 & H3 & H4 & H5 & H6).
    exists c1, true. split_and!; try done. by apply H6.
Qed.

Lemma in_lru_with_entry c cached path a b :
  a ∉ fc_lru c -> in_lru (with_entry c cached path a) b = (if decide (b = a) then (if cached then 1 else 0) else in_lru c b).
Proof.
  intros Ha. case_decide as Hd; [subst b; destruct cached|].
  - apply in_lru_true. by left.
  - by apply in_lru_false.
  - apply in_lru_same. destruct cached; simpl; [rewrite elem_of_cons|]; tauto.
Qed.

Lemma open_entry_inv c held cached path a r fds os :
  fc_ok c held -> os_ok os -> fc_hash c !! path = None -> fc_refs c !! a = None ->
  open_entry (if cached : bool then 2 else 1) path (os (fc_fds c)) (fc_fds c) = (r, fds) ->
  let c' := set_fc_refs (<[a := r]> (fc_refs c)) (set_fc_fds fds (with_entry c cached path a)) in
  f_path r = path /\ fc_inv c' (bump (fun b => held b + in_lru c' b) a 1) /\ kept c c' held.
Proof.
  intros H Hos Hk Ha Ho c'. specialize (Hos (fc_fds c)).
  assert (Hr : f_path r = path /\ f_refcnt r = (if cached then 2 else 1) /\ f_last_modified r = None /\ f_etag r = [] /\
    (f_fd r <> -1 -> f_fd r ∉ fc_fds c) /\ fds = (if f_fd r =? -1 then fc_fds c else fc_fds c ∪ {[f_fd r]})).
  { unfold open_entry in Ho. destruct (os (fc_fds c)) as [|?|fd st]; injection Ho as <- <-; simpl; try done.
    destruct Hos. replace (fd =? -1) with false by lia. done. }
  destruct Hr as (Hp & Hn & Hlm & Het & Hfd & Ef).
  assert (Hz : held a = 0).
  { destruct (Z.eq_dec (held a) 0) as [|Hnz]; [done|]. pose proof (fo_held _ _ H a).
    destruct (fo_open _ _ H a ltac:(lia)) as (q & Hq & _). congruence. }
  assert (Hnl : a ∉ fc_lru c) by (intros Hin; destruct (fi_lru _ _ (fo_inv _ _ H) _ Hin); congruence).
  split; [done|]. split.
  - pose proof (add_entry_inv c _ a r (if cached then 2 else 1) cached (fo_inv _ _ H) Ha) as Hadd.
    rewrite Hp in Hadd. specialize (Hadd Hk Hn ltac:(destruct cached; lia) Hlm Het Hfd). rewrite <- Ef in Hadd.
    eapply fc_inv_ext; [|exact Hadd]. intros b _. cbn beta. unfold bump.
    change (in_lru c' b) with (in_lru (with_entry c cached path a) b). rewrite in_lru_with_entry by done.
    case_decide; subst; destruct cached; lia.
  - intros b q Hb Hq. exists q. split; [|done]. simpl. rewrite lookup_insert_ne; [done|]. intros ->. congruence.
Qed.

Lemma open_file_ok c held path newref os :
  fc_ok c held -> (forall b, held b < 2 ^ 63 - 1) -> fc_refs c !! newref = None -> os_ok os ->
  succeeds (h2o_filecache_open_file c path newref os) (open_post c held path).
Proof.
  intros H Hh Hnew Hos.
  assert (Hh' : forall b, 0 <= held b < 2 ^ 63 - 1) by (intros b; pose proof (fo_held _ _ H b); specialize (Hh b); lia).
  unfold h2o_filecache_open_file. destruct (fc_hash c !! path) as [a|] eqn:Hk.
  - destruct (proj1 (fi_hash _ _ (fo_inv _ _ H) path a) Hk) as [Ha Hp].
    destruct (fi_lru _ _ (fo_inv _ _ H) a Ha) as [r Hr]. rewrite Hr in *. cbn [mbind option_bind]. simpl in Hp. injection Hp as Hp.
    destruct (open_hit_ok c held path a r H Hh Hk Hr) as [Hi Hkept].
    match type of Hkept with kept _ ?c1 _ => set (c' := c1) in * end. set (r' := put_refcnt _ r) in *.
    eapply succeeds_weaken; [apply (open_finish c' held path a r')|]; [exact Hi|done|by apply (kept_open c)|apply H| |done|].
    + simpl. by rewrite lookup_insert_eq.
    + intros [[ref err] c2] (K & Ec & Hrest). split; [by eapply kept_trans|]. by split.
  - destruct (assign_entry_ok c held path newref H Hk Hnew) as (c1 & cached & -> & Hok & Hk1 & Hc1 & Hroom & Hh1 & Hn1).
    cbn [mbind option_bind]. change (fc_fds (with_entry c1 cached path newref)) with (fc_fds c1).
    change (fc_refs (with_entry c1 cached path newref)) with (fc_refs c1). rewrite Hn1.
    destruct (open_entry _ path (os (fc_fds c1)) (fc_fds c1)) as [r fds] eqn:Ho.
    destruct (open_entry_inv c1 held cached path newref r fds os Hok Hos Hh1 Hn1 Ho) as (Hp & Hi & Hk2).
    match type of Hk2 with kept _ ?c2 _ => set (c' := c2) in * end.
    assert (Hk3 : kept c c' held) by (by eapply kept_trans).
    eapply succeeds_weaken; [apply (open_finish c' held path newref r)|]; [exact Hi|done|by apply (kept_open c)| | |done|].
    + simpl. destruct cached; [rewrite len_cons, Hc1; specialize (Hroom eq_refl); lia|]. apply Hok.
    + simpl. by rewrite lookup_insert_eq.
    + intros [[ref err] c2] (K & Ec & Hrest). split; [by eapply kept_trans|]. split; [simpl in *; congruence|done].
Qed.

(** ** Clearing *)

Lemma clear_paths_ok paths : forall c held,
  fc_ok c held -> NoDup paths -> (forall k, k ∈ paths <-> is_Some (fc_hash c !! k)) ->
  succeeds (clear_paths paths c) (fun c' => fc_ok c' held /\ kept c c' held /\ fc_hash c' = ∅ /\ fc_capacity c' = fc_capacity c).
Proof.
  induction paths as [|k paths IH]; intros c held H Hnd Hks; cbn [clear_paths].
  - apply succeeds_some. split_and!; [done|apply kept_refl| |done]. apply map_eq. intros k. rewrite lookup_empty.
    destruct (fc_hash c !! k) as [a|] eqn:E; [|done]. assert (Hk : k ∈ []) by (apply Hks; eauto). by apply not_elem_of_nil in Hk.
  - apply NoDup_cons in Hnd as [Hk Hnd]. destruct (proj1 (Hks k) ltac:(by left)) as [a Ha].
    eapply succeeds_bind; [apply (fc_release_ok c held k a H Ha)|]. intros c1 (H1 & K1 & Eh & El & Ec & _).
    eapply succeeds_weaken; [apply (IH c1 held H1 Hnd)|].
    + intros k'. rewrite Eh. split.
      * intros Hin. rewrite lookup_delete_ne by (intros ->; done). apply Hks. by right.
      * intros [b [Hne Hb]%lookup_delete_Some]. assert (Hin : k' ∈ k :: paths) by (apply Hks; eauto).
        apply elem_of_cons in Hin as [->|]; done.
    + intros c2 (H2 & K2 & E2 & E3). split_and!; [done|by eapply kept_trans|done|congruence].
Qed.

Lemma fc_clear_ok c held :
  fc_ok c held -> succeeds (h2o_filecache_clear c) (fun c' => fc_ok c' held /\ kept c c' held /\ fc_lru c' = [] /\ fc_capacity c' = fc_capacity c).
Proof.
  intros H. unfold h2o_filecache_clear. eapply succeeds_bind; [apply (clear_paths_ok _ c held H)|].
  - apply NoDup_fst_map_to_list.
  - intros k. rewrite list_elem_of_fmap. split.
    + intros ([k' a] & -> & Hin). apply elem_of_map_to_list in Hin. eauto.
    + intros [a Ha]. exists (k, a). split; [done|]. by apply elem_of_map_to_list.
  - intros c' (H' & K & E & Ec). rewrite E, map_size_empty. rewrite bool_decide_eq_true_2 by done. apply succeeds_some.
    split_and!; try done. destruct (fc_lru c') as [|a l] eqn:El; [done|].
    pose proof (hash_size _ _ (fo_inv _ _ H')) as Hs. rewrite E, El, map_size_empty, len_cons in Hs. pose proof (len_nonneg l). lia.
Qed.

(** ** Runs

    What callers and the system can do to the cache, as steps, and what holds in every state that
    the steps lead to. *)

(** A cache, and the references that callers have. *)
Abbreviation fstate := (filecache * (nat -> Z))%type.

Inductive fc_step : fstate -> fstate -> Prop :=
| step_open c held path newref os ref errno c' :
    fc_refs c !! newref = None -> os_ok os -> (forall b, held b < 2 ^ 63 - 1) ->
    h2o_filecache_open_file c path newref os = Some (ref, errno, c') ->
    fc_step (c, held) (c', match ref with Some a => bump held a 1 | None => held end)
| step_close c held a c' :
    0 < held a -> h2o_filecache_close_file c a = Some c' -> fc_step (c, held) (c', bump held a (-1))
| step_clear c held c' : h2o_filecache_clear c = Some c' -> fc_step (c, held) (c', held)
| step_etag c held a r etag r' :
    0 < held a -> fc_refs c !! a = Some r -> h2o_filecache_get_etag r = Some (etag, r') ->
    fc_step (c, held) (set_fc_refs (<[a := r']> (fc_refs c)) c, held)
| step_last_modified c held a r gm str r' :
    0 < held a -> fc_refs c !! a = Some r -> h2o_filecache_get_last_modified r = Some (gm, str, r') ->
    fc_step (c, held) (set_fc_refs (<[a := r']> (fc_refs c)) c, held).

Definition fc_start (capacity : Z) : fstate := (h2o_filecache_create capacity, fun _ => 0).
Definition fc_reached (capacity : Z) (s : fstate) : Prop := clos_refl_trans_1n _ fc_step (fc_start capacity) s.

(** ** Dates and tags *)

Lemma get_etag_ok r : data_ok r -> f_fd r <> -1 ->
  exists r', h2o_filecache_get_etag r = Some (etag_of (f_st r), r') /\ data_ok r' /\ same_file r r' /\ f_refcnt r' = f_refcnt r.
Proof.
  intros [Hlm Het] Hfd. unfold h2o_filecache_get_etag. replace (f_fd r =? -1) with false by lia.
  set (etag := if len (f_etag r) =? 0 then _ else _).
  assert (E : etag = etag_of (f_st r)).
  { unfold etag. destruct Het as [->| ->]; [done|]. by destruct (len _ =? 0). }
  eexists. rewrite E. split_and!; [done|split; [done|by right]|done|done].
Qed.

Lemma get_last_modified_ok r : data_ok r -> forall gm str r', h2o_filecache_get_last_modified r = Some (gm, str, r') ->
  gm = gmtime (st_mtime (f_st r)) /\ h2o_time2str_rfc1123 gm = Some str /\ data_ok r' /\ same_file r r' /\ f_refcnt r' = f_refcnt r.
Proof.
  intros [Hlm Het] gm str r'. unfold h2o_filecache_get_last_modified. destruct (f_fd r =? -1); [done|].
  destruct (f_last_modified r) as [[gm0 str0]|] eqn:E.
  - intros [= <- <- <-]. destruct (Hlm gm0 str0 eq_refl). split_and!; try done. split; [|done]. by rewrite E.
  - destruct (h2o_time2str_rfc1123 _) as [s|] eqn:Es; [|done]. intros [= <- <- <-]. split_and!; try done.
    split; [|done]. simpl. intros gm' str' [= <- <-]. done.
Qed.

Lemma replace_entry_ok c held a r r' :
  fc_ok c held -> fc_refs c !! a = Some r -> data_ok r' -> same_file r r' -> f_refcnt r' = f_refcnt r ->
  fc_ok (set_fc_refs (<[a := r']> (fc_refs c)) c) held /\ kept c (set_fc_refs (<[a := r']> (fc_refs c)) c) held.
Proof.
  intros H Hr Hd (Hfd & Hst & Hp) Hn. destruct (fi_refs _ _ (fo_inv _ _ H) a r Hr) as (Hc & Hb & _).
  assert (Hk : kept c (set_fc_refs (<[a := r']> (fc_refs c)) c) held).
  { intros b q Hb' Hq. simpl. destruct (decide (b = a)) as [->|]; [|rewrite lookup_insert_ne by done; by exists q].
    rewrite lookup_insert_eq. exists r'. split; [done|]. rewrite Hr in Hq. injection Hq as <-. done. }
  split; [|done]. split; try apply H.
  - eapply fc_inv_update; [apply (fo_inv _ _ H)|exact Hr|done|done|done| |done|done]. cbn beta. change (in_lru _ a) with (in_lru c a). lia.
  - by apply (kept_open c).
Qed.

Lemma start_ok capacity : 0 <= capacity -> fc_ok (h2o_filecache_create capacity) (fun _ => 0).
Proof.
  intros Hc. split; simpl; [|lia|lia|done]. split; simpl.
  - constructor.
  - intros k a. rewrite lookup_empty, elem_of_nil. naive_solver.
  - intros a Ha. by apply elem_of_nil in Ha.
  - done.
  - intros fd. split; [intros Hx; by apply not_elem_of_empty in Hx|]. intros (_ & a & r & Hr & _). done.
  - done.
Qed.

(** A step, to a state that is all right, with the files of the references that stay. *)
Lemma fc_step_ok s s' : fc_step s s' -> fc_ok s.1 s.2 ->
  fc_ok s'.1 s'.2 /\ fc_capacity s'.1 = fc_capacity s.1 /\
  forall a r, 0 < s.2 a -> 0 < s'.2 a -> fc_refs s.1 !! a = Some r -> exists r', fc_refs s'.1 !! a = Some r' /\ same_file r r'.
Proof.
  destruct 1 as [c held path newref os ref errno c' Hn Hos Hh E|c held a c' Ha E|c held c' E|c held a r etag r' Ha Hr E|c held a r gm str r' Ha Hr E];
    simpl; intros H.
  - destruct (open_file_ok c held path newref os H Hh Hn Hos) as (x & E' & Hp). rewrite E in E'. injection E' as <-.
    destruct Hp as (K & Ec & Hp). split_and!; [destruct ref; [apply Hp|done]|done|]. intros b r Hb _. by apply K.
  - destruct (close_held_ok c held a H Ha) as (x & E' & Hok & K). rewrite E in E'. injection E' as <-.
    split_and!; [done| |intros b r _ Hb; by apply K].
    destruct (fo_open _ _ H a Ha) as (r & Hr & _). destruct (close_file_inv _ _ a r (fo_inv _ _ H) Hr) as (y & E' & _ & _ & _ & Ec & _).
    { intros Hc Hin. rewrite (in_lru_true _ _ Hin) in Hc. lia. }
    rewrite E in E'. by injection E' as <-.
  - destruct (fc_clear_ok c held H) as (x & E' & Hok & K & _ & Ec). rewrite E in E'. injection E' as <-.
    split_and!; [done|done|]. intros b r Hb _. by apply K.
  - destruct (fo_open _ _ H a Ha) as (q & Hq & Hfd). rewrite Hr in Hq. injection Hq as <-.
    destruct (get_etag_ok r) as (r2 & E' & Hd & Hs & Hn); [apply (fi_refs _ _ (fo_inv _ _ H) a r Hr)|done|].
    rewrite E in E'. injection E' as -> <-. destruct (replace_entry_ok c held a r r' H Hr Hd Hs Hn) as [Hok K].
    split_and!; [done|done|]. intros b q Hb _. by apply K.
  - destruct (get_last_modified_ok r) with (gm := gm) (str := str) (r' := r') as (_ & _ & Hd & Hs & Hn);
      [apply (fi_refs _ _ (fo_inv _ _ H) a r Hr)|done|].
    destruct (replace_entry_ok c held a r r' H Hr Hd Hs Hn) as [Hok K].
    split_and!; [done|done|]. intros b q Hb _. by apply K.
Qed.

Lemma fc_reached_ok capacity s : 0 <= capacity -> fc_reached capacity s -> fc_ok s.1 s.2 /\ fc_capacity s.1 = capacity.
Proof.
  intros Hc Hr. assert (H0 : fc_ok (fc_start capacity).1 (fc_start capacity).2) by (by apply start_ok).
  assert (Hcap : fc_capacity (fc_start capacity).1 = capacity) by done. unfold fc_reached in Hr.
  induction Hr as [s|s1 s2 s3 Hstep Hr IH]; [done|].
  destruct (fc_step_ok s1 s2 Hstep H0) as (H1 & E & _). apply IH; [done|congruence].
Qed.

(** When nothing is held or cached, nothing is open. *)
Lemma nothing_left c held : fc_ok c held -> (forall a, held a = 0) -> fc_lru c = [] -> fc_refs c = ∅ /\ fc_fds c = ∅.
Proof.
  intros H Hh Hl. assert (Hr : fc_refs c = ∅).
  { apply map_eq. intros a. rewrite lookup_empty. destruct (fc_refs c !! a) as [r|] eqn:E; [|done].
    destruct (fi_refs _ _ (fo_inv _ _ H) a r E) as (_ & Hb & _). rewrite Hh in Hb. unfold in_lru in Hb. rewrite Hl in Hb.
    rewrite bool_decide_eq_false_2 in Hb by (apply not_elem_of_nil). lia. }
  split; [done|]. apply leibniz_equiv. intros fd. rewrite (fi_fds _ _ (fo_inv _ _ H)), Hr. split.
  - intros (_ & a & r & E & _). done.
  - intros E. by apply not_elem_of_empty in E.
Qed.

(** ** Properties *)

(** C15: the cache of open files is safe in every state that its callers can bring it to.  No function
    fails an assertion or uses an entry that is freed.  A reference that a caller has is to a file
    that is open, and the tag of the file is that of its time and size; no step changes the file
    behind a reference.  Every descriptor that is open is that of an entry which is referenced, so
    that once all references are closed and the cache is cleared nothing is left open.  The cache
    has no more entries than its capacity. *)
Theorem filecache_safe capacity c held :
  0 <= capacity -> fc_reached capacity (c, held) ->
  (forall path newref os, fc_refs c !! newref = None -> os_ok os -> (forall b, held b < 2 ^ 63 - 1) ->
     is_Some (h2o_filecache_open_file c path newref os)) /\
  (forall a, 0 < held a -> is_Some (h2o_filecache_close_file c a) /\
     exists r, fc_refs c !! a = Some r /\ f_fd r ∈ fc_fds c /\ fst <$> h2o_filecache_get_etag r = Some (etag_of (f_st r))) /\
  (forall c' held' a r, fc_step (c, held) (c', held') -> 0 < held a -> 0 < held' a -> fc_refs c !! a = Some r ->
     exists r', fc_refs c' !! a = Some r' /\ same_file r r') /\
  (forall fd, fd ∈ fc_fds c -> exists a r, fc_refs c !! a = Some r /\ f_fd r = fd /\ (0 < held a \/ a ∈ fc_lru c)) /\
  (exists c', h2o_filecache_clear c = Some c' /\ ((forall a, held a = 0) -> fc_fds c' = ∅)) /\
  len (fc_lru c) <= capacity.
Proof.
  intros Hcap Hr. destruct (fc_reached_ok capacity _ Hcap Hr) as [H Ec]. simpl in H, Ec. pose proof (fo_inv _ _ H) as Hi. split_and!.
  - intros path newref os Hn Hos Hh. destruct (open_file_ok c held path newref os H Hh Hn Hos) as (x & E & _). eauto.
  - intros a Ha. split; [destruct (close_held_ok c held a H Ha) as (x & E & _); eauto|].
    destruct (fo_open _ _ H a Ha) as (r & E & Hfd). exists r. split_and!; [done|apply (fi_fds _ _ Hi); eauto|].
    destruct (get_etag_ok r) as (r' & -> & _); [apply (fi_refs _ _ Hi a r E)|done|done].
  - intros c' held' a r Hs. apply (fc_step_ok _ _ Hs H).
  - intros fd Hfd. apply (fi_fds _ _ Hi) in Hfd as (_ & a & r & E & Ef). exists a, r. split_and!; [done|done|].
    destruct (fi_refs _ _ Hi a r E) as (_ & Hb & _). unfold in_lru in Hb. case_bool_decide; [by right|left; lia].
  - destruct (fc_clear_ok c held H) as (c' & E & H' & _ & El & _). exists c'. split; [done|]. intros Hz. by apply (nothing_left c' held).
  - rewrite <- Ec. apply H.
Qed.

(** A file that is opened, found by its path again, and closed once. *)
Definition sample_os (fds : gset Z) : os_answer :=
  if bool_decide (3 ∈ fds) then OpenFails 24 else Opens 3 (Stat 1411104244 5 false).

Lemma sample_os_ok : os_ok sample_os.
Proof. intros fds. unfold sample_os. case_bool_decide; [done|]. split; [lia|done]. Qed.

Definition sample_cache : filecache :=
  default (h2o_filecache_create 1)
    ('(_, _, c) ← h2o_filecache_open_file (h2o_filecache_create 1) (lit "/a") 7 sample_os;
     '(_, _, c) ← h2o_filecache_open_file c (lit "/a") 8 sample_os;
     h2o_filecache_close_file c 7).

Definition sample_held : nat -> Z := bump (bump (bump (fun _ => 0) 7 1) 7 1) 7 (-1).

Lemma sample_reached : fc_reached 1 (sample_cache, sample_held).
Proof.
  econstructor; [eapply (step_open _ _ (lit "/a") 7%nat sample_os); [done|apply sample_os_ok|intros; lia|vm_compute; reflexivity]|].
  econstructor; [eapply (step_open _ _ (lit "/a") 8%nat sample_os); [done|apply sample_os_ok| |vm_compute; reflexivity]|].
  { intros b. unfold bump. case_decide; lia. }
  econstructor; [eapply (step_close _ _ 7%nat); [vm_compute; reflexivity|vm_compute; reflexivity]|].
  match goal with |- clos_refl_trans_1n _ _ ?s _ => replace (sample_cache, sample_held) with s by (vm_compute; reflexivity) end.
  constructor.
Qed.

Lemma filecache_safe_witness : fc_reached 1 (sample_cache, sample_held) /\
  is_Some (h2o_filecache_close_file sample_cache 7) /\ len (fc_lru sample_cache) <= 1.
Proof.
  split; [exact sample_reached|].
  destruct (filecache_safe 1 sample_cache sample_held ltac:(lia) sample_reached) as (_ & Hclose & _ & _ & _ & Hl).
  split; [apply (Hclose 7%nat); reflexivity|exact Hl].
Defined.
