(* ===== verification/FileRange.v ===== *)
(** * Byte ranges (lib/handler/file.c, [process_range])

    The value of a Range header is [remain] octets of memory at [buf]; the parser also looks at the
    octet after them.  [mem] are the octets in memory from [buf] on, [remain] is [buf_end - buf].
    The outer [None] is a read past [mem]; the inner one is [return NULL]. *)
From S2P Require Import Prelude Strings.
From Stdlib Require Import ZArith Lia.
From stdpp Require Import base list numbers option strings.
Open Scope Z_scope.

Abbreviation answer A := (option (option A)).

Definition is_ws (c : Z) : bool := (c =? 32) || (c =? 9).

(** The loops over spaces and tabs, with [CHECK_EOF] after each. *)
Fixpoint skip_ws (mem : bytes) (remain : Z) : answer (bytes * Z) :=
  match mem with
  | [] => None
  | c :: mem' =>
      if is_ws c then
        if remain - 1 =? 0 then Some None else skip_ws mem' (remain - 1)
      else Some (Some (mem, remain))
  end.

(** The [while (1)] loop. *)
Fixpoint skip_commas (fuel : nat) (mem : bytes) (remain : Z) (needs_comma : bool) : answer (bytes * Z) :=
  match fuel, mem with
  | S fuel, c :: mem' =>
      if negb (c =? 44) then
        if needs_comma then Some None else Some (Some (mem, remain))
      else
        r ← skip_ws mem' (remain - 1);
        match r with
        | None => Some None
        | Some (mem, remain) => skip_commas fuel mem remain false
        end
  | _, _ => None
  end.

(** From the first call of [h2o_strtosizefwd] to the end of the [if]: [range_start], [range_count],
    and where [buf] is. *)
Definition parse_range (mem : bytes) (remain file_size : Z) : answer (Z * Z * bytes * Z) :=
  '(range_start, n) ← h2o_strtosizefwd mem (wrap64 remain);
  let mem := drop (Z.to_nat n) mem in
  let remain := remain - n in
  if negb (range_start =? SIZE_MAX) then
    if remain =? 0 then Some None
    else
      match mem with
      | [] => None
      | c :: mem =>
          let remain := remain - 1 in
          if negb (c =? 45) then Some None
          else
            '(range_count, n) ← h2o_strtosizefwd mem (wrap64 remain);
            let mem := drop (Z.to_nat n) mem in
            let remain := remain - n in
            let '(range_start, range_count) :=
              if file_size <=? range_start then (SIZE_MAX, range_count)
              else if negb (range_count =? SIZE_MAX) then
                let range_count := if file_size - 1 <? range_count then file_size - 1 else range_count in
                if range_start <=? range_count then
                  (range_start, wrap64 (range_count - wrap64 (range_start - 1)))
                else (SIZE_MAX, range_count)
              else (range_start, file_size - range_start) in
            Some (Some (range_start, range_count, mem, remain))
      end
  else
    match mem with
    | [] => None
    | c :: mem =>
        let remain := remain - 1 in
        if negb (c =? 45) then Some None
        else if remain =? 0 then Some None
        else
          '(range_count, n) ← h2o_strtosizefwd mem (wrap64 remain);
          let mem := drop (Z.to_nat n) mem in
          let remain := remain - n in
          if range_count =? SIZE_MAX then Some None
          else if negb (range_count =? 0) then
            let range_count := if file_size <? range_count then file_size else range_count in
            Some (Some (file_size - range_count, range_count, mem, remain))
          else Some (Some (SIZE_MAX, range_count, mem, remain))
    end.

(** The [do] loop.  Every turn moves [buf]. *)
Fixpoint ranges_loop (fuel : nat) (mem : bytes) (remain : Z) (needs_comma : bool) (file_size : Z) (ranges : list (Z * Z))
    : answer (list (Z * Z)) :=
  match fuel with
  | O => None
  | S fuel =>
      r ← skip_commas (length mem) mem remain needs_comma;
      match r with
      | None => Some None
      | Some (mem, remain) =>
          if remain =? 0 then Some (Some ranges)
          else
            r ← parse_range mem remain file_size;
            match r with
            | None => Some None
            | Some (range_start, range_count, mem, remain) =>
                let ranges := if negb (range_start =? SIZE_MAX) then ranges ++ [(range_start, range_count)] else ranges in
                r ← (if negb (remain =? 0) then skip_ws mem remain else Some (Some (mem, remain)));
                match r with
                | None => Some None
                | Some (mem, remain) =>
                    if 0 <? remain then ranges_loop fuel mem remain true file_size ranges else Some (Some ranges)
                end
            end
      end
  end.

(** The pairs of [ranges.entries], which is [NULL] while nothing has been added. *)
Definition process_range (mem : bytes) (len file_size : Z) : answer (list (Z * Z)) :=
  if (len <? 6) || negb (bool_decide (take 6 mem = lit "bytes=")) then Some None
  else if len - 6 =? 0 then Some None
  else
    r ← ranges_loop (length mem) (drop 6 mem) (len - 6) false file_size [];
    match r with
    | None | Some [] => Some None
    | Some ranges => Some (Some ranges)
    end.

(** ** Examples *)

(** A value in memory, followed by a zero. *)
Definition range_of (value : bytes) (file_size : Z) : answer (list (Z * Z)) :=
  process_range (value ++ [0]) (len value) file_size.

(** As the unit tests of the handler have it. *)
Example range_ex1 : range_of (lit "bytes=0-10") 100 = Some (Some [(0, 11)]).
Proof. reflexivity. Qed.
Example range_ex3 : range_of (lit "bytes=, 0-10,,	90- ,-5,") 100 = Some (Some [(0, 11); (90, 10); (95, 5)]).
Proof. reflexivity. Qed.
Example range_ex4 : range_of (lit "bytes=0-1000, 100-") 100 = Some (Some [(0, 100)]).
Proof. reflexivity. Qed.

(** The last octets of an empty file are a range of no octets. *)
Example range_empty_file : range_of (lit "bytes=-5") 0 = Some (Some [(0, 0)]).
Proof. reflexivity. Qed.

(** A value that ends in a comma, and is followed in memory by a space that is not its own, is
    refused; followed by anything else it is accepted. *)
Example range_reads_past_comma :
  process_range (lit "bytes=0-1, " ++ [13; 10]) (len (lit "bytes=0-1,")) 100 = Some None /\
  process_range (lit "bytes=0-1," ++ [13; 10]) (len (lit "bytes=0-1,")) 100 = Some (Some [(0, 2)]).
Proof. split; reflexivity. Qed.

(** A number of more than 64 bits is taken for a small one, or as if it were not there. *)
Example range_overflow :
  range_of (lit "bytes=0-18446744073709551617") 100 = Some (Some [(0, 2)]) /\
  range_of (lit "bytes=18446744073709551617-5") 100 = Some None.
Proof. split; reflexivity. Qed.
