(* ===== verification/FileRangeOk.v ===== *)
(** * Byte ranges: properties (lib/handler/file.c, [process_range])

    The parser returns on every value, reads at most the octet after it, and gives ranges that are
    parts of the file; on the ranges of RFC 7233 it gives the octets that they mean. *)
From S2P Require Import Prelude Strings FileRange.
From Stdlib Require Import ZArith Lia.
From stdpp Require Import base list numbers option strings.
Open Scope Z_scope.

(** ** Numbers *)

Lemma wrap64_range x : 0 <= wrap64 x <= SIZE_MAX.
Proof. unfold wrap64, SIZE_MAX. pose proof (Z.mod_pos_bound x (2 ^ 64)). lia. Qed.

(** On a string followed by a zero. *)
Lemma strtosizefwd_loop_ok v : forall n l x c, n + len v = l -> 0 <= n -> 0 <= x <= SIZE_MAX ->
  exists y k, strtosizefwd_loop (v ++ [0]) n l x c = Some (y, k) /\ 0 <= y <= SIZE_MAX /\ 0 <= k <= l.
Proof.
  induction v as [|d v IH]; intros n l x c Hl Hn Hx; cbn [app strtosizefwd_loop].
  - change (is_digit 0) with false. cbn [negb]. rewrite len_nil in Hl.
    destruct (Z.leb_spec SIZE_MAX x); eexists _, _; split; [done|unfold SIZE_MAX in *; lia|done|lia].
  - rewrite len_cons in Hl. pose proof (len_nonneg v).
    assert (Hend : forall z m, 0 <= z <= SIZE_MAX -> 0 <= m <= l ->
      exists y k, Some (if SIZE_MAX <=? z then (SIZE_MAX, 0) else (z, m)) = Some (y, k) /\ 0 <= y <= SIZE_MAX /\ 0 <= k <= l).
    { intros z m Hz Hm. destruct (Z.leb_spec SIZE_MAX z); eexists _, _; split; [done|unfold SIZE_MAX in *; lia|done|lia]. }
    destruct (negb (is_digit d)); [apply Hend; lia|]. set (z := wrap64 _). pose proof (wrap64_range (wrap64 (x * 10) + (d - 48))).
    destruct (n + 1 =? l); [apply Hend; unfold z; lia|].
    destruct (c + 1 =? 20); [eexists _, _; split; [done|unfold SIZE_MAX; lia]|]. apply IH; unfold z; lia.
Qed.

Lemma strtosizefwd_ok v : len v < 2 ^ 64 ->
  exists y k, h2o_strtosizefwd (v ++ [0]) (wrap64 (len v)) = Some (y, k) /\ 0 <= y <= SIZE_MAX /\ 0 <= k <= len v.
Proof.
  intros Hl. pose proof (len_nonneg v). rewrite wrap64_small by lia. unfold h2o_strtosizefwd.
  assert (Herr : exists y k, Some (SIZE_MAX, 0) = Some (y, k) /\ 0 <= y <= SIZE_MAX /\ 0 <= k <= len v).
  { eexists _, _. split; [done|]. unfold SIZE_MAX. lia. }
  destruct (len v =? 0); [done|]. destruct v as [|d v]; cbn [app].
  - change (is_digit 0) with false. done.
  - destruct (is_digit d) eqn:Hd; cbn [negb]; [|done]. apply is_digit_spec in Hd.
    apply strtosizefwd_loop_ok; [rewrite len_cons; lia|lia|unfold SIZE_MAX; lia].
Qed.

Lemma drop_value (v : bytes) k : 0 <= k <= len v ->
  drop (Z.to_nat k) (v ++ [0]) = drop (Z.to_nat k) v ++ [0] /\ len (drop (Z.to_nat k) v) = len v - k.
Proof.
  intros Hk. unfold len in *. split; [|rewrite length_drop; lia].
  rewrite drop_app. replace (Z.to_nat k - length v)%nat with 0%nat by lia. done.
Qed.

(** ** The parser stays in the value *)

(** A part of the parser returns, with what is left of the value [v] after [n] octets at least. *)
Definition goes_on {A} (v : bytes) (n : Z) (P : A -> Prop) (where_ : A -> bytes * Z) (r : answer A) : Prop :=
  exists o, r = Some o /\
    match o with
    | None => True
    | Some a => P a /\ exists v', where_ a = (v' ++ [0], len v') /\ len v' <= len v - n
    end.

Lemma skip_ws_ok v : goes_on v 0 (fun _ => True) (fun x => x) (skip_ws (v ++ [0]) (len v)).
Proof.
  induction v as [|c v IH]; cbn [app skip_ws].
  - eexists. split; [done|]. split; [done|]. exists []. done.
  - destruct (is_ws c).
    + destruct (len (c :: v) - 1 =? 0); [by eexists|]. rewrite len_cons. replace (len v + 1 - 1) with (len v) by lia.
      destruct IH as (o & -> & Ho). eexists. split; [done|]. destruct o as [a|]; [|done].
      destruct Ho as (_ & v' & E & Hl). split; [done|]. exists v'. rewrite len_cons. split; [done|lia].
    + eexists. split; [done|]. split; [done|]. exists (c :: v). split; [done|lia].
Qed.

Lemma skip_commas_ok fuel : forall v nc, (length v < fuel)%nat ->
  goes_on v 0 (fun _ => True) (fun x => x) (skip_commas fuel (v ++ [0]) (len v) nc).
Proof.
  induction fuel as [|fuel IH]; intros v nc Hf; [lia|]. destruct v as [|c v]; cbn [app skip_commas].
  - destruct nc; [by eexists|]. eexists. split; [done|]. split; [done|]. by exists [].
  - destruct (negb (c =? 44)).
    + destruct nc; [by eexists|]. eexists. split; [done|]. split; [done|]. exists (c :: v). split; [done|lia].
    + rewrite len_cons. replace (len v + 1 - 1) with (len v) by lia.
      destruct (skip_ws_ok v) as (o & -> & Ho). cbn [mbind option_bind]. destruct o as [[m r]|]; [|by eexists].
      destruct Ho as (_ & v' & E & Hl). injection E as -> ->. simpl in Hf.
      destruct (IH v' false) as (o & -> & Ho); [unfold len in *; lia|]. eexists. split; [done|]. destruct o as [a|]; [|done].
      destruct Ho as (_ & v2 & E2 & Hl2). split; [done|]. exists v2. rewrite len_cons. split; [done|lia].
Qed.

(** A range that is not [SIZE_MAX] is a part of the file. *)
Definition range_ok (file_size : Z) (s c : Z) : Prop :=
  0 <= s /\ 0 <= c /\ s + c <= file_size /\ (0 < file_size -> 1 <= c).

Lemma parse_range_ok v file_size :
  len v < 2 ^ 64 -> len v <> 0 -> 0 <= file_size < SIZE_MAX ->
  goes_on v 1 (fun '(s, c, _, _) => s <> SIZE_MAX -> range_ok file_size s c) (fun '(_, _, m, r) => (m, r))
    (parse_range (v ++ [0]) (len v) file_size).
Proof.
  intros Hl Hnz Hfs. unfold parse_range.
  destruct (strtosizefwd_ok v Hl) as (x & k & -> & Hx & Hk). cbn [mbind option_bind].
  destruct (drop_value v k Hk) as [-> Hdl]. set (w := drop (Z.to_nat k) v) in *. rewrite <- Hdl.
  destruct (Z.eqb_spec x SIZE_MAX) as [Ex|Ex]; cbn [negb].
  - destruct w as [|d w]; cbn [app].
    { change (negb (0 =? 45)) with true. by eexists. }
    destruct (negb (d =? 45)); [by eexists|]. rewrite len_cons in *. replace (len w + 1 - 1) with (len w) by lia.
    destruct (len w =? 0); [by eexists|].
    destruct (strtosizefwd_ok w ltac:(lia)) as (y & j & -> & Hy & Hj). cbn [mbind option_bind].
    destruct (drop_value w j Hj) as [-> Hjl]. rewrite <- Hjl.
    destruct (Z.eqb_spec y SIZE_MAX); [by eexists|]. destruct (Z.eqb_spec y 0); cbn [negb]; eexists; (split; [done|]); split.
    + done.
    + eexists. split; [done|lia].
    + intros _. unfold range_ok. destruct (Z.ltb_spec file_size y); lia.
    + eexists. split; [done|lia].
  - destruct (Z.eqb_spec (len w) 0) as [Ew|Ew]; [by eexists|]. destruct w as [|d w]; [done|]. cbn [app].
    destruct (negb (d =? 45)); [by eexists|]. rewrite len_cons in *. replace (len w + 1 - 1) with (len w) by lia.
    destruct (strtosizefwd_ok w ltac:(lia)) as (y & j & -> & Hy & Hj). cbn [mbind option_bind].
    destruct (drop_value w j Hj) as [-> Hjl]. rewrite <- Hjl.
    destruct (Z.leb_spec file_size x) as [Hge|Hlt].
    { eexists. split; [done|]. split; [done|]. eexists. split; [done|lia]. }
    assert (Hw : forall q, x <= q <= file_size - 1 -> wrap64 (q - wrap64 (x - 1)) = q - x + 1).
    { intros q Hq. unfold wrap64. rewrite Zminus_mod_idemp_r. rewrite Z.mod_small; unfold SIZE_MAX in *; lia. }
    destruct (Z.eqb_spec y SIZE_MAX); cbn [negb].
    { eexists. split; [done|]. split; [|eexists; split; [done|lia]]. intros _. unfold range_ok. lia. }
    set (q := if file_size - 1 <? y then _ else _). assert (Hq : q <= file_size - 1) by (unfold q; destruct (Z.ltb_spec (file_size - 1) y); lia).
    destruct (Z.leb_spec x q); eexists; (split; [done|]); (split; [|eexists; split; [done|lia]]); [|done].
    intros _. unfold range_ok. rewrite Hw by lia. lia.
Qed.

Definition all_ok (file_size : Z) (ranges : list (Z * Z)) : Prop := Forall (fun p => range_ok file_size p.1 p.2) ranges.

Lemma ranges_loop_ok fuel : forall v nc file_size ranges,
  (length v < fuel)%nat -> len v < 2 ^ 64 -> 0 <= file_size < SIZE_MAX -> all_ok file_size ranges ->
  exists o, ranges_loop fuel (v ++ [0]) (len v) nc file_size ranges = Some o /\
    match o with None => True | Some ranges' => all_ok file_size ranges' end.
Proof.
  induction fuel as [|fuel IH]; intros v nc file_size ranges Hf Hl Hfs Hok; [lia|]. cbn [ranges_loop].
  destruct (skip_commas_ok (length (v ++ [0])) v nc) as (o & -> & Ho); [rewrite length_app; simpl; lia|]. cbn [mbind option_bind].
  destruct o as [[m r]|]; [|by eexists]. destruct Ho as (_ & v1 & E & H1). injection E as -> ->.
  destruct (Z.eqb_spec (len v1) 0); [by eexists|].
  destruct (parse_range_ok v1 file_size ltac:(lia) ltac:(done) Hfs) as (o & -> & Ho). cbn [mbind option_bind].
  destruct o as [[[[s c] m] r]|]; [|by eexists]. destruct Ho as (Hr & v2 & E & H2). injection E as -> ->.
  set (ranges' := if negb (s =? SIZE_MAX) then _ else _).
  assert (Hok' : all_ok file_size ranges').
  { unfold ranges'. destruct (Z.eqb_spec s SIZE_MAX); cbn [negb]; [done|]. apply Forall_app. split; [done|].
    constructor; [by apply Hr|constructor]. }
  assert (Hws : goes_on v2 0 (fun _ => True) (fun x => x) (if negb (len v2 =? 0) then skip_ws (v2 ++ [0]) (len v2) else Some (Some (v2 ++ [0], len v2)))).
  { destruct (negb (len v2 =? 0)); [apply skip_ws_ok|]. eexists. split; [done|]. split; [done|]. exists v2. split; [done|lia]. }
  destruct Hws as (o & -> & Ho). cbn [mbind option_bind]. destruct o as [[m r]|]; [|by eexists].
  destruct Ho as (_ & v3 & E & H3). injection E as -> ->.
  destruct (0 <? len v3); [|by eexists]. apply IH; [unfold len in *; lia|lia|done|done].
Qed.

(** ** What ranges mean *)

Inductive range_spec :=
| FromTo (first last : Z)
| FromOn (first : Z)
| Suffix (n : Z).

Definition print_spec (r : range_spec) : bytes :=
  match r with
  | FromTo a b => decimal 20 a ++ 45 :: decimal 20 b
  | FromOn a => decimal 20 a ++ [45]
  | Suffix n => 45 :: decimal 20 n
  end.

Definition print_tail (specs : list range_spec) : bytes := concat (map (fun r => 44 :: print_spec r) specs).

(** The value of a Range header (RFC 7233, 2.1). *)
Definition print_ranges (r : range_spec) (specs : list range_spec) : bytes :=
  lit "bytes=" ++ print_spec r ++ print_tail specs.

(** Numbers of at most 19 digits. *)
Definition spec_wf (r : range_spec) : Prop :=
  match r with
  | FromTo a b => 0 <= a < 10 ^ 19 /\ 0 <= b < 10 ^ 19
  | FromOn a | Suffix a => 0 <= a < 10 ^ 19
  end.

(** The octet at [i] of a file is in the range. *)
Definition means (file_size : Z) (r : range_spec) (i : Z) : Prop :=
  0 <= i < file_size /\
  match r with
  | FromTo a b => a <= i <= b
  | FromOn a => a <= i
  | Suffix n => file_size - n <= i
  end.

(** The first octet and the number of octets, unless there are none. *)
Definition resolve (file_size : Z) (r : range_spec) : option (Z * Z) :=
  match r with
  | FromTo a b => if (a <? file_size) && (a <=? b) then Some (a, Z.min b (file_size - 1) - a + 1) else None
  | FromOn a => if a <? file_size then Some (a, file_size - a) else None
  | Suffix n => if n =? 0 then None else Some (file_size - Z.min n file_size, Z.min n file_size)
  end.

Lemma resolve_exact file_size r : spec_wf r -> 0 <= file_size ->
  match resolve file_size r with
  | Some (s, c) => forall i, means file_size r i <-> s <= i < s + c
  | None => forall i, ~ means file_size r i
  end.
Proof.
  intros Hwf Hfs. destruct r as [a b|a|n]; simpl in *; unfold means.
  - destruct (Z.ltb_spec a file_size), (Z.leb_spec a b); cbn [andb]; intros i; lia.
  - destruct (Z.ltb_spec a file_size); intros i; lia.
  - destruct (Z.eqb_spec n 0); intros i; lia.
Qed.

(** ** Numbers that are printed are read *)

Lemma digits_loop ds : forall p n l k c rest,
  forallb is_digit (p ++ ds) = true -> is_digit c = false -> n + len ds <= l -> k + len ds <= 19 -> len p <= k ->
  strtosizefwd_loop (ds ++ c :: rest) n l (dec_val p) k = Some (dec_val (p ++ ds), n + len ds).
Proof.
  induction ds as [|d ds IH]; intros p n l k c rest Hd Hc Hl Hk Hp; cbn [app strtosizefwd_loop].
  - rewrite Hc, app_nil_r in *. cbn [negb]. rewrite len_nil, Z.add_0_r in *.
    pose proof (dec_val_bound p Hd). assert (10 ^ len p <= 10 ^ 19) by (apply Z.pow_le_mono_r; lia).
    destruct (Z.leb_spec SIZE_MAX (dec_val p)); [unfold SIZE_MAX in *; lia|done].
  - rewrite len_cons in *. pose proof (len_nonneg ds).
    assert (Hsplit : forallb is_digit ((p ++ [d]) ++ ds) = true) by (rewrite <- app_assoc; exact Hd).
    rewrite forallb_app, andb_true_iff in Hsplit. destruct Hsplit as [Hpd Hds].
    assert (Hdd : is_digit d = true) by (rewrite forallb_app, andb_true_iff in Hpd; simpl in Hpd; rewrite andb_true_r in Hpd; tauto).
    rewrite Hdd. cbn [negb].
    pose proof (dec_val_bound (p ++ [d]) Hpd) as Hb. rewrite len_app in Hb. change (len [d]) with 1 in Hb.
    assert (10 ^ (len p + 1) <= 10 ^ 19) by (apply Z.pow_le_mono_r; lia).
    assert (Hv : wrap64 (wrap64 (dec_val p * 10) + (d - 48)) = dec_val (p ++ [d])).
    { unfold wrap64. rewrite Zplus_mod_idemp_l. rewrite dec_val_snoc in *.
      rewrite (Z.mul_comm (dec_val p)). apply Z.mod_small. lia. }
    rewrite Hv. replace (p ++ d :: ds) with ((p ++ [d]) ++ ds) by (by rewrite <- app_assoc).
    destruct (Z.eqb_spec (n + 1) l) as [E|E].
    + assert (ds = []) as -> by (apply len_zero; lia). rewrite app_nil_r.
      destruct (Z.leb_spec SIZE_MAX (dec_val (p ++ [d]))); [unfold SIZE_MAX in *; lia|done].
    + replace (k + 1 =? 20) with false by lia. rewrite IH; [f_equal; f_equal; lia| |done|lia|lia|].
      * rewrite forallb_app, Hpd, Hds. done.
      * rewrite len_app. change (len [d]) with 1. lia.
Qed.

Lemma decimal_nonempty v : decimal 20 v <> [].
Proof. cbn [decimal]. destruct (v / 10 =? 0); [done|]. intros H. by apply app_eq_nil in H as [_ H]. Qed.

Lemma len_decimal_19 v : 0 <= v < 10 ^ 19 -> 1 <= len (decimal 20 v) <= 19.
Proof.
  intros Hv. rewrite (decimal_fuel 19 20 v) by lia. pose proof (decimal_length 19 v). unfold len.
  pose proof (decimal_nonempty v) as Hne. rewrite (decimal_fuel 19 20 v) in Hne by lia.
  destruct (decimal 19 v); [done|]. simpl in *. lia.
Qed.

Lemma read_decimal v l c rest :
  0 <= v < 10 ^ 19 -> is_digit c = false -> len (decimal 20 v) <= l < 2 ^ 64 ->
  h2o_strtosizefwd (decimal 20 v ++ c :: rest) (wrap64 l) = Some (v, len (decimal 20 v)).
Proof.
  intros Hv Hc Hl. pose proof (len_decimal_19 v Hv) as Hlen. rewrite wrap64_small by lia. unfold h2o_strtosizefwd.
  replace (l =? 0) with false by lia. pose proof (decimal_digits 20 v) as Hd.
  assert (Hval : dec_val (decimal 20 v) = v) by (apply decimal_value; [|lia]; change (Z.of_nat 20) with 20; lia).
  destruct (decimal 20 v) as [|d ds] eqn:E; [rewrite len_nil in Hlen; lia|]. cbn [app]. simpl in Hd. apply andb_true_iff in Hd as [Hd Hds].
  rewrite Hd. cbn [negb]. rewrite len_cons in *.
  assert (Hd1 : d - 48 = dec_val [d]) by (unfold dec_val; simpl; lia). rewrite Hd1, digits_loop.
  - simpl app. rewrite Hval. f_equal. f_equal. lia.
  - simpl. by rewrite Hd, Hds.
  - done.
  - lia.
  - lia.
  - change (len [d]) with 1. lia.
Qed.

(** No number is there. *)
Lemma read_nothing c rest l : is_digit c = false -> h2o_strtosizefwd (c :: rest) l = Some (SIZE_MAX, 0).
Proof. intros Hc. unfold h2o_strtosizefwd. rewrite Hc. by destruct (l =? 0). Qed.

(** ** The parser on printed ranges *)

Lemma drop_len (a b : bytes) : drop (Z.to_nat (len a)) (a ++ b) = b.
Proof. unfold len. by rewrite Nat2Z.id, drop_app_length. Qed.

(** What [parse_range] gives for a range that is, or is not, resolved. *)
Definition resolved (file_size : Z) (r : range_spec) (s c : Z) : Prop :=
  match resolve file_size r with
  | Some p => p = (s, c) /\ s <> SIZE_MAX
  | None => s = SIZE_MAX
  end.

(** [c] is the octet after the range, a comma or the end. *)
Lemma parse_range_exact file_size r l c rest :
  spec_wf r -> 0 <= file_size < 2 ^ 63 -> (c = 44 \/ c = 0) -> len (print_spec r) <= l < 2 ^ 63 ->
  exists s n, parse_range (print_spec r ++ c :: rest) l file_size = Some (Some (s, n, c :: rest, l - len (print_spec r))) /\
    resolved file_size r s n.
Proof.
  intros Hwf Hfs Hc Hl. assert (Hcd : is_digit c = false) by (by destruct Hc as [-> | ->]). unfold parse_range, resolved.
  assert (Hw : forall x q, 0 <= x <= q -> q <= file_size - 1 -> wrap64 (q - wrap64 (x - 1)) = q - x + 1).
  { intros x q Hx Hq. unfold wrap64. rewrite Zminus_mod_idemp_r. rewrite Z.mod_small; lia. }
  destruct r as [a b|a|n]; cbn [print_spec spec_wf resolve] in *.
  - destruct Hwf as [Ha Hb]. pose proof (len_decimal_19 a Ha). pose proof (len_decimal_19 b Hb).
    rewrite len_app, len_cons in Hl. rewrite <- app_assoc. cbn [app]. rewrite read_decimal by (done || lia).
    cbn [mbind option_bind]. replace (negb (a =? SIZE_MAX)) with true by (unfold SIZE_MAX; lia).
    replace (l - len (decimal 20 a) =? 0) with false by lia. rewrite drop_len.
    change (negb (45 =? 45)) with false. cbv iota. rewrite read_decimal by (done || lia). cbn [mbind option_bind].
    rewrite drop_len. rewrite len_app, len_cons.
    destruct (Z.leb_spec file_size a) as [Hge|Hlt].
    { replace (a <? file_size) with false by lia. eexists _, _. split; [|done]. do 3 f_equal. lia. }
    replace (a <? file_size) with true by lia. replace (negb (b =? SIZE_MAX)) with true by (unfold SIZE_MAX; lia). cbn [andb].
    replace (if file_size - 1 <? b then file_size - 1 else b) with (Z.min b (file_size - 1)) by (destruct (Z.ltb_spec (file_size - 1) b); lia).
    destruct (Z.leb_spec a b).
    + replace (a <=? Z.min b (file_size - 1)) with true by lia. rewrite Hw by lia. eexists _, _.
      split; [do 3 f_equal; lia|]. split; [done|unfold SIZE_MAX; lia].
    + replace (a <=? Z.min b (file_size - 1)) with false by lia. eexists _, _. split; [|done]. do 3 f_equal. lia.
  - pose proof (len_decimal_19 a Hwf). rewrite len_app in *. change (len [45]) with 1 in *. rewrite <- app_assoc. cbn [app].
    rewrite read_decimal by (done || lia). cbn [mbind option_bind].
    replace (negb (a =? SIZE_MAX)) with true by (unfold SIZE_MAX; lia).
    replace (l - len (decimal 20 a) =? 0) with false by lia. rewrite drop_len.
    change (negb (45 =? 45)) with false. cbv iota. rewrite read_nothing by done. cbn [mbind option_bind].
    change (drop (Z.to_nat 0) (c :: rest)) with (c :: rest). change (negb (SIZE_MAX =? SIZE_MAX)) with false.
    destruct (Z.leb_spec file_size a).
    + replace (a <? file_size) with false by lia. eexists _, _. split; [|done]. do 3 f_equal. lia.
    + replace (a <? file_size) with true by lia. eexists _, _. split; [do 3 f_equal; lia|]. split; [done|unfold SIZE_MAX; lia].
  - pose proof (len_decimal_19 n Hwf). rewrite len_cons in *. cbn [app]. rewrite read_nothing by done. cbn [mbind option_bind].
    change (drop (Z.to_nat 0) ?m) with m. change (negb (SIZE_MAX =? SIZE_MAX)) with false. change (negb (45 =? 45)) with false. cbv iota.
    replace (l - 0 - 1 =? 0) with false by lia. rewrite read_decimal by (done || lia). cbn [mbind option_bind].
    rewrite drop_len. replace (n =? SIZE_MAX) with false by (unfold SIZE_MAX; lia).
    destruct (Z.eqb_spec n 0); cbn [negb].
    + eexists _, _. split; [|done]. do 3 f_equal. lia.
    + replace (if file_size <? n then file_size else n) with (Z.min n file_size) by (destruct (Z.ltb_spec file_size n); lia).
      eexists _, _. split; [do 3 f_equal; lia|]. split; [done|unfold SIZE_MAX; lia].
Qed.

Lemma print_spec_head r : exists c t, print_spec r = c :: t /\ (c =? 44) = false /\ is_ws c = false.
Proof.
  assert (Hd : forall a, exists c t, decimal 20 a = c :: t /\ (c =? 44) = false /\ is_ws c = false).
  { intros a. pose proof (decimal_digits 20 a) as Hd. pose proof (decimal_nonempty a). destruct (decimal 20 a) as [|c t]; [done|].
    simpl in Hd. apply andb_true_iff in Hd as [Hc _]. apply is_digit_spec in Hc. exists c, t. unfold is_ws. split; [done|lia]. }
  destruct r as [a b|a|n]; cbn [print_spec].
  1,2: destruct (Hd a) as (c & t & -> & H1 & H2); cbn [app]; eauto.
  exists 45, (decimal 20 n). done.
Qed.

Lemma skip_commas_spec fuel r l rest : skip_commas (S fuel) (print_spec r ++ rest) l false = Some (Some (print_spec r ++ rest, l)).
Proof. destruct (print_spec_head r) as (c & t & -> & Hc & _). cbn [app skip_commas]. by rewrite Hc. Qed.

Lemma skip_commas_comma fuel r l rest :
  skip_commas (S (S fuel)) (44 :: print_spec r ++ rest) l true = Some (Some (print_spec r ++ rest, l - 1)).
Proof.
  cbn [skip_commas]. change (negb (44 =? 44)) with false. cbv iota.
  assert (Hws : skip_ws (print_spec r ++ rest) (l - 1) = Some (Some (print_spec r ++ rest, l - 1))).
  { destruct (print_spec_head r) as (c & t & -> & _ & Hw). cbn [app skip_ws]. by rewrite Hw. }
  rewrite Hws. cbn [mbind option_bind]. exact (skip_commas_spec fuel r (l - 1) rest).
Qed.

(** One turn of the loop, with [m] what is left of the value after the range. *)
Lemma ranges_turn fuel r (comma : bool) m file_size ranges :
  spec_wf r -> 0 <= file_size < 2 ^ 63 -> len (print_spec r) + len m + 1 < 2 ^ 63 -> (m = [] \/ exists t, m = 44 :: t) ->
  ranges_loop (S fuel) ((if comma then [44] else []) ++ print_spec r ++ m ++ [0])
    (len ((if comma then [44] else []) ++ print_spec r ++ m)) comma file_size ranges =
  let ranges := ranges ++ option_list (resolve file_size r) in
  if 0 <? len m then ranges_loop fuel (m ++ [0]) (len m) true file_size ranges else Some (Some ranges).
Proof.
  intros Hwf Hfs Hl Hm. cbn [ranges_loop]. destruct (print_spec_head r) as (h & t & Eh & Hh & _).
  assert (Hlp : 0 < len (print_spec r)) by (rewrite Eh, len_cons; pose proof (len_nonneg t); lia). pose proof (len_nonneg m).
  assert (Hskip : skip_commas (length ((if comma then [44] else []) ++ print_spec r ++ m ++ [0]))
      ((if comma then [44] else []) ++ print_spec r ++ m ++ [0]) (len ((if comma then [44] else []) ++ print_spec r ++ m)) comma
    = Some (Some (print_spec r ++ m ++ [0], len (print_spec r) + len m))).
  { destruct comma; cbn [app].
    - rewrite len_cons, !len_app, Eh. cbn [app length]. rewrite <- Eh.
      change (h :: t ++ m ++ [0]) with ((h :: t) ++ m ++ [0]). rewrite <- Eh, skip_commas_comma. do 3 f_equal. lia.
    - rewrite len_app. rewrite Eh at 1. cbn [app length]. by rewrite skip_commas_spec. }
  rewrite Hskip. cbn [mbind option_bind]. replace (len (print_spec r) + len m =? 0) with false by lia.
  assert (Hc : exists c rest, m ++ [0] = c :: rest /\ (c = 44 \/ c = 0) /\ is_ws c = false).
  { destruct Hm as [->|[t' ->]]; cbn [app]; eexists _, _; split_and!; (done || (by left) || (by right)). }
  destruct Hc as (c & rest & -> & Hc & Hws).
  destruct (parse_range_exact file_size r (len (print_spec r) + len m) c rest Hwf Hfs Hc ltac:(lia)) as (s & n & -> & Hres).
  cbn [mbind option_bind]. replace (len (print_spec r) + len m - len (print_spec r)) with (len m) by lia.
  assert (Hr : (if negb (s =? SIZE_MAX) then ranges ++ [(s, n)] else ranges) = ranges ++ option_list (resolve file_size r)).
  { unfold resolved in Hres. destruct (resolve file_size r) as [p|].
    - destruct Hres as [-> Hne]. by replace (s =? SIZE_MAX) with false by lia.
    - rewrite Hres, Z.eqb_refl. simpl. by rewrite app_nil_r. }
  rewrite Hr. destruct (negb (len m =? 0)); [|done]. cbn [skip_ws]. by rewrite Hws.
Qed.

Lemma ranges_loop_exact specs : forall fuel comma r file_size ranges,
  Forall spec_wf (r :: specs) -> 0 <= file_size < 2 ^ 63 -> len (print_spec r) + len (print_tail specs) + 1 < 2 ^ 63 ->
  (length specs < fuel)%nat ->
  ranges_loop fuel ((if comma : bool then [44] else []) ++ print_spec r ++ print_tail specs ++ [0])
    (len ((if comma then [44] else []) ++ print_spec r ++ print_tail specs)) comma file_size ranges =
  Some (Some (ranges ++ omap (resolve file_size) (r :: specs))).
Proof.
  assert (Homap : forall f (x : range_spec) l, omap f (x :: l) = option_list (f x : option (Z * Z)) ++ omap f l).
  { intros f x l. simpl. by destruct (f x). }
  induction specs as [|r' specs IH]; intros fuel comma r file_size ranges Hwf Hfs Hl Hf; (destruct fuel as [|fuel]; [simpl in Hf; lia|]).
  - rewrite ranges_turn; [|apply Forall_cons in Hwf as [Hwr _]; exact Hwr|done|done|by left]. cbv zeta.
    change (0 <? len (print_tail [])) with false. rewrite Homap. simpl. by rewrite app_nil_r.
  - apply Forall_cons in Hwf as [Hwr Hwf]. change (print_tail (r' :: specs)) with (44 :: print_spec r' ++ print_tail specs) in *.
    rewrite ranges_turn; [|done|done|done|by right; eexists]. cbv zeta.
    rewrite len_cons. pose proof (len_nonneg (print_spec r' ++ print_tail specs)).
    replace (0 <? len (print_spec r' ++ print_tail specs) + 1) with true by lia.
    rewrite len_cons, len_app in Hl. pose proof (len_nonneg (print_spec r)).
    specialize (IH fuel true r' file_size (ranges ++ option_list (resolve file_size r)) Hwf Hfs ltac:(lia) ltac:(simpl in Hf; lia)).
    cbn [app] in IH. rewrite len_cons in IH.
    replace ((44 :: print_spec r' ++ print_tail specs) ++ [0]) with (44 :: print_spec r' ++ print_tail specs ++ [0])
      by (cbn [app]; by rewrite <- app_assoc).
    rewrite IH, (Homap _ r), <- app_assoc. done.
Qed.

Lemma length_tail specs : (length specs <= length (print_tail specs))%nat.
Proof.
  unfold print_tail. induction specs as [|r specs IH]; simpl; [lia|]. rewrite length_app. lia.
Qed.

Lemma range_of_ok value file_size :
  len value < 2 ^ 64 -> 0 <= file_size < SIZE_MAX ->
  exists o, range_of value file_size = Some o /\
    match o with
    | None => True
    | Some ranges => ranges <> [] /\ all_ok file_size ranges
    end.
Proof.
  intros Hl Hfs. unfold range_of, process_range.
  destruct ((len value <? 6) || _) eqn:E; [by eexists|]. apply orb_false_iff in E as [E _].
  destruct (len value - 6 =? 0); [by eexists|].
  destruct (drop_value value 6 ltac:(lia)) as [Hd Hdl]. change (Z.to_nat 6) with 6%nat in *. rewrite Hd, <- Hdl.
  destruct (ranges_loop_ok (length (value ++ [0])) (drop 6 value) false file_size []) as (o & -> & Ho).
  { rewrite length_drop, length_app. simpl. lia. } { lia. } { done. } { constructor. }
  cbn [mbind option_bind]. destruct o as [[|p ranges]|]; eexists; (split; [done|]); done.
Qed.

(** ** Properties *)




