(* ===== verification/Cache.v ===== *)
(** * The cache (lib/common/cache.c)

    Values named by keys, with a time to live and a bound on the sum of their sizes.  The entries
    are reference counted: one reference is the cache's own, the others are those that
    [h2o_cache_fetch] has given to callers.

    The entries in memory are a finite map from addresses.  The hash table ([khash]) is a finite
    map from hashes and keys, since callers pass one hash for one key, or 0 for that of
    [h2o_cache_calchash].  A list linked by [h2o_linklist_t] is the list of its members
    (see Linklist.v).  The mutex makes each function one step.  [None] is a failed assertion or
    an access to an entry that is not there (any more). *)
From S2P Require Import Prelude.
From Stdlib Require Import ZArith Lia.
From stdpp Require Import base numbers option list gmap strings.
Open Scope string_scope.
Open Scope Z_scope.

Abbreviation addr := nat.

(** A value is a buffer of the caller's, which the cache does not look into. *)
Record value := Value {
  v_base : addr;
  v_len : Z }.

#[global] Instance value_eq_dec : EqDecision value.
Proof. solve_decision. Defined.

Record cache_ref := Ref {
  r_key : bytes;
  r_keyhash : Z;
  r_at : Z;
  r_value : value;
  r_requested_early_update : bool;
  r_refcnt : Z }.

(** The cache, the entries in memory, and the values that [destroy_cb] has been called with. *)
Record cache := Cache {
  c_flags : Z;
  c_table : gmap (Z * bytes) addr;
  c_size : Z;
  c_capacity : Z;
  c_lru : list addr;
  c_age : list addr;
  c_duration : Z;
  c_destroy_cb : bool;
  c_refs : gmap addr cache_ref;
  c_destroyed : list value }.

Definition H2O_CACHE_FLAG_EARLY_UPDATE : Z := 0x2.

Definition set_table (t : gmap (Z * bytes) addr) (c : cache) : cache :=
  Cache (c_flags c) t (c_size c) (c_capacity c) (c_lru c) (c_age c) (c_duration c) (c_destroy_cb c) (c_refs c) (c_destroyed c).
Definition put_size (n : Z) (c : cache) : cache :=
  Cache (c_flags c) (c_table c) n (c_capacity c) (c_lru c) (c_age c) (c_duration c) (c_destroy_cb c) (c_refs c) (c_destroyed c).
Definition set_lru (l : list addr) (c : cache) : cache :=
  Cache (c_flags c) (c_table c) (c_size c) (c_capacity c) l (c_age c) (c_duration c) (c_destroy_cb c) (c_refs c) (c_destroyed c).
Definition set_age (l : list addr) (c : cache) : cache :=
  Cache (c_flags c) (c_table c) (c_size c) (c_capacity c) (c_lru c) l (c_duration c) (c_destroy_cb c) (c_refs c) (c_destroyed c).
Definition set_refs (m : gmap addr cache_ref) (c : cache) : cache :=
  Cache (c_flags c) (c_table c) (c_size c) (c_capacity c) (c_lru c) (c_age c) (c_duration c) (c_destroy_cb c) m (c_destroyed c).
Definition add_destroyed (v : value) (c : cache) : cache :=
  Cache (c_flags c) (c_table c) (c_size c) (c_capacity c) (c_lru c) (c_age c) (c_duration c) (c_destroy_cb c) (c_refs c) (c_destroyed c ++ [v]).

Definition set_refcnt (n : Z) (r : cache_ref) : cache_ref :=
  Ref (r_key r) (r_keyhash r) (r_at r) (r_value r) (r_requested_early_update r) n.
Definition set_early (r : cache_ref) : cache_ref := Ref (r_key r) (r_keyhash r) (r_at r) (r_value r) true (r_refcnt r).

Definition h2o_cache_release (c : cache) (ref : addr) : option cache :=
  r ← c_refs c !! ref;
  if r_refcnt r =? 1 then
    if bool_decide (ref ∈ c_lru c) then None
    else if bool_decide (ref ∈ c_age c) then None
    else
      let c := if c_destroy_cb c then add_destroyed (r_value r) c else c in
      Some (set_refs (delete ref (c_refs c)) c)
  else Some (set_refs (<[ref := set_refcnt (wrap64 (r_refcnt r - 1)) r]> (c_refs c)) c).

(** What the table compares. *)
Definition ref_key (r : cache_ref) : Z * bytes := (r_keyhash r, r_key r).

(** The entry is that of a key of the table. *)
Definition erase_ref (c : cache) (key : Z * bytes) (reuse : bool) : option cache :=
  ref ← c_table c !! key;
  r ← c_refs c !! ref;
  let c := if negb reuse then set_table (delete key (c_table c)) c else c in
  if bool_decide (ref ∈ c_lru c) && bool_decide (ref ∈ c_age c) then
    let c := set_age (filter (.≠ ref) (c_age c)) (set_lru (filter (.≠ ref) (c_lru c)) c) in
    h2o_cache_release (put_size (wrap64 (c_size c - v_len (r_value r))) c) ref
  else None.

Definition get_timeleft (c : cache) (r : cache_ref) (now : Z) : Z := to_int64 (wrap64 (r_at r + c_duration c) - now).

Fixpoint purge_size (fuel : nat) (c : cache) : option cache :=
  if c_capacity c <? c_size c then
    match c_lru c, fuel with
    | last :: _, S fuel =>
        r ← c_refs c !! last;
        c ← erase_ref c (ref_key r) false;
        purge_size fuel c
    | _, _ => None
    end
  else Some c.

Fixpoint purge_age (fuel : nat) (c : cache) (now : Z) : option cache :=
  match c_age c with
  | [] => Some c
  | oldest :: _ =>
      r ← c_refs c !! oldest;
      if 0 <=? get_timeleft c r now then Some c
      else
        match fuel with
        | O => None
        | S fuel => c ← erase_ref c (ref_key r) false; purge_age fuel c now
        end
  end.

(** Every turn erases an entry. *)
Definition purge (c : cache) (now : Z) : option cache :=
  c ← purge_size (length (c_lru c)) c;
  purge_age (length (c_age c)) c now.

Definition h2o_cache_calchash (s : bytes) : Z :=
  fold_right (fun b h => wrap32 (wrap32 (wrap32 (Z.shiftl h 5) - h) + b)) 0 s.

Definition h2o_cache_create (flags capacity duration : Z) (destroy_cb : bool) : cache :=
  Cache flags ∅ 0 capacity [] [] duration destroy_cb ∅ [].

Fixpoint clear_loop (fuel : nat) (c : cache) : option cache :=
  match c_lru c with
  | [] => Some c
  | ref :: _ =>
      match fuel with
      | O => None
      | S fuel =>
          r ← c_refs c !! ref;
          c ← erase_ref c (ref_key r) false;
          clear_loop fuel c
      end
  end.

Definition h2o_cache_clear (c : cache) : option cache :=
  c ← clear_loop (length (c_lru c)) c;
  if bool_decide (size (c_table c) = 0%nat) && (c_size c =? 0) then Some c else None.

Definition key_of (key : bytes) (keyhash : Z) : Z * bytes := (if keyhash =? 0 then h2o_cache_calchash key else keyhash, key).

(** The entry, if it is found. *)
Definition h2o_cache_fetch (c : cache) (now : Z) (key : bytes) (keyhash : Z) : option (option addr * cache) :=
  c ← purge c now;
  match c_table c !! key_of key keyhash with
  | None => Some (None, c)
  | Some ref =>
      r ← c_refs c !! ref;
      let timeleft := get_timeleft c r now in
      if timeleft <? 0 then Some (None, c)
      else if negb (Z.land (c_flags c) H2O_CACHE_FLAG_EARLY_UPDATE =? 0) && (timeleft <? 10)
              && negb (r_requested_early_update r) then
        Some (None, set_refs (<[ref := set_early r]> (c_refs c)) c)
      else if bool_decide (ref ∈ c_lru c) then
        let c := set_lru (filter (.≠ ref) (c_lru c) ++ [ref]) c in
        Some (Some ref, set_refs (<[ref := set_refcnt (wrap64 (r_refcnt r + 1)) r]> (c_refs c)) c)
      else None
  end.

(** [newref] is the address that [h2o_mem_alloc] gives, which is not in use. *)
Definition h2o_cache_set (c : cache) (now : Z) (key : bytes) (keyhash : Z) (v : value) (newref : addr) : option (bool * cache) :=
  let k := key_of key keyhash in
  match c_refs c !! newref with
  | Some _ => None
  | None =>
      let c := set_refs (<[newref := Ref key k.1 now v false 1]> (c_refs c)) c in
      '(existed, c) ←
        match c_table c !! k with
        | Some _ => c ← erase_ref c k true; Some (true, c)
        | None => Some (false, c)
        end;
      let c := set_table (<[k := newref]> (c_table c)) c in
      let c := set_age (c_age c ++ [newref]) (set_lru (c_lru c ++ [newref]) c) in
      c ← purge (put_size (wrap64 (c_size c + v_len v)) c) now;
      Some (existed, c)
  end.

Definition h2o_cache_delete (c : cache) (now : Z) (key : bytes) (keyhash : Z) : option cache :=
  c ← purge c now;
  match c_table c !! key_of key keyhash with
  | None => Some c
  | Some _ => erase_ref c (key_of key keyhash) false
  end.

Definition h2o_cache_get_capacity (c : cache) : Z := c_capacity c.
Definition h2o_cache_get_duration (c : cache) : Z := c_duration c.

(** ** An example: as the unit test of the cache has it *)

Example cache_test :
  let key := lit "key" in
  let c := h2o_cache_create H2O_CACHE_FLAG_EARLY_UPDATE 1024 1000 true in
  ('(r1, c) ← h2o_cache_fetch c 0 key 0;
   '(_, c) ← h2o_cache_set c 0 key 0 (Value 100 5) 1;
   c ← h2o_cache_delete c 0 key 0;
   '(r2, c) ← h2o_cache_fetch c 0 key 0;
   '(_, c) ← h2o_cache_set c 0 key 0 (Value 100 5) 1;
   '(r3, c) ← h2o_cache_fetch c 0 key 0;
   c ← h2o_cache_release c 1;
   '(r4, c) ← h2o_cache_fetch c 999 key 0;
   '(r5, c) ← h2o_cache_fetch c 999 key 0;
   c ← h2o_cache_release c 1;
   '(_, c) ← h2o_cache_set c 999 key 0 (Value 200 6) 2;
   '(r6, c) ← h2o_cache_fetch c 999 key 0;
   c ← h2o_cache_release c 2;
   let destroyed := c_destroyed c in
   c ← h2o_cache_clear c;
   Some ([r1; r2; r3; r4; r5; r6], v_len <$> destroyed, v_len <$> c_destroyed c))
  = Some ([None; None; Some 1%nat; None; Some 1%nat; Some 2%nat], [5; 5], [5; 5; 6]).
Proof. vm_compute. reflexivity. Qed.
