(* ===== verification/CacheOk.v ===== *)
(** * The cache: invariant and refinement (lib/common/cache.c)

    The functions keep the table, the two lists, the size and the reference counts consistent, so
    that no assertion fails, no entry is used after it is freed, and every value is given to
    [destroy_cb] once; seen from outside, the cache is a list of entries in order of use. *)
From S2P Require Import Prelude Cache.
From Stdlib Require Import ZArith Lia Permutation.
From stdpp Require Import base numbers option list gmap sorting.
Open Scope Z_scope.

(** ** The invariant *)

(** The sum of the sizes of the entries at [l]. *)
Fixpoint total_size (m : gmap addr cache_ref) (l : list addr) : Z :=
  match l with
  | [] => 0
  | a :: l => default 0 ((fun r => v_len (r_value r)) <$> m !! a) + total_size m l
  end.

(** The values of the entries in memory. *)
Definition values (m : gmap addr cache_ref) : list value := (fun p => r_value p.2) <$> map_to_list m.

Definition in_cache (c : cache) (a : addr) : Z := if bool_decide (a ∈ c_lru c) then 1 else 0.

(** [held] are the references of callers, [stored] the values that the cache was given. *)
Record cache_ok (c : cache) (held : addr -> Z) (stored : list value) : Prop := {
  ok_nodup : NoDup (c_lru c);
  ok_age : c_age c ≡ₚ c_lru c;
  ok_table k a : c_table c !! k = Some a <-> a ∈ c_lru c /\ ref_key <$> c_refs c !! a = Some k;
  ok_lru a : a ∈ c_lru c -> is_Some (c_refs c !! a);
  ok_held a : 0 <= held a /\ (0 < held a -> is_Some (c_refs c !! a));
  ok_refs a r : c_refs c !! a = Some r ->
    1 <= r_refcnt r /\ r_refcnt r = held a + in_cache c a /\ 0 <= v_len (r_value r);
  ok_size : c_size c = total_size (c_refs c) (c_lru c);
  ok_bound : c_size c < 2 ^ 64;
  ok_values : c_destroy_cb c = true -> c_destroyed c ++ values (c_refs c) ≡ₚ stored }.

(** The references of callers are counted by a [size_t]. *)
Definition countable_refs (held : addr -> Z) : Prop := forall a, held a < 2 ^ 63.

Lemma total_ext m m' l : (forall a, a ∈ l -> r_value <$> m' !! a = r_value <$> m !! a) -> total_size m' l = total_size m l.
Proof.
  induction l as [|a l IH]; intros H; simpl; [reflexivity|]. rewrite IH by (intros; apply H; now right).
  specialize (H a ltac:(left)). destruct (m !! a), (m' !! a); simpl in *; congruence.
Qed.

Lemma total_nonneg m l : (forall a r, m !! a = Some r -> 0 <= v_len (r_value r)) -> 0 <= total_size m l.
Proof.
  intros H. induction l as [|a l IH]; simpl; [lia|]. destruct (m !! a) as [r|] eqn:E; simpl; [|lia]. specialize (H a r E). lia.
Qed.

Lemma total_app m l1 l2 : total_size m (l1 ++ l2) = total_size m l1 + total_size m l2.
Proof. induction l1 as [|a l1 IH]; simpl; [lia|]. rewrite IH. lia. Qed.

(** One entry out of the list. *)
Lemma total_filter m l a r : NoDup l -> a ∈ l -> m !! a = Some r -> total_size m (filter (.≠ a) l) = total_size m l - v_len (r_value r).
Proof.
  intros Hnd Ha Hr. apply list_elem_of_split in Ha as (l1 & l2 & ->). rewrite filter_ne_middle by assumption.
  rewrite !total_app. simpl. rewrite Hr. simpl. lia.
Qed.

(** ** Erasing and releasing *)

Lemma cached_key c held stored a r :
  cache_ok c held stored -> a ∈ c_lru c -> c_refs c !! a = Some r -> c_table c !! ref_key r = Some a.
Proof. intros H Ha Hr. apply (ok_table _ _ _ H). split; [assumption|]. now rewrite Hr. Qed.

(** The memory when the cache gives up its reference to [a]. *)
Definition refs_without (c : cache) (held : addr -> Z) (a : addr) (r : cache_ref) : gmap addr cache_ref :=
  if held a =? 0 then delete a (c_refs c) else <[a := set_refcnt (held a) r]> (c_refs c).

(** The cache without its entry at [a]. *)
Definition erased (c : cache) (held : addr -> Z) (a : addr) (r : cache_ref) : cache :=
  Cache (c_flags c) (delete (ref_key r) (c_table c)) (c_size c - v_len (r_value r)) (c_capacity c)
    (filter (.≠ a) (c_lru c)) (filter (.≠ a) (c_age c)) (c_duration c) (c_destroy_cb c)
    (refs_without c held a r)
    (if (held a =? 0) && c_destroy_cb c then c_destroyed c ++ [r_value r] else c_destroyed c).

Lemma not_elem_filter_ne (a : addr) (l : list addr) : a ∉ filter (.≠ a) l.
Proof. intros H. apply list_elem_of_filter in H as [H _]. contradiction. Qed.

Lemma total_member c held stored a r :
  cache_ok c held stored -> a ∈ c_lru c -> c_refs c !! a = Some r -> 0 <= v_len (r_value r) <= c_size c.
Proof.
  intros H Ha Hr. destruct (ok_refs _ _ _ H a r Hr) as (_ & _ & Hl). split; [assumption|]. rewrite (ok_size _ _ _ H).
  pose proof (total_filter (c_refs c) (c_lru c) a r (ok_nodup _ _ _ H) Ha Hr).
  pose proof (total_nonneg (c_refs c) (filter (.≠ a) (c_lru c))) as Hn.
  enough (0 <= total_size (c_refs c) (filter (.≠ a) (c_lru c))) by lia. apply Hn. intros b q Hq. apply (ok_refs _ _ _ H b q Hq).
Qed.

Lemma erase_ref_eq c held stored a r :
  cache_ok c held stored -> countable_refs held -> a ∈ c_lru c -> c_refs c !! a = Some r ->
  erase_ref c (ref_key r) false = Some (erased c held a r).
Proof.
  intros H Hcr Ha Hr. pose proof (total_member c held stored a r H Ha Hr) as Hlen. pose proof (ok_bound _ _ _ H) as Hb.
  unfold erase_ref. rewrite (cached_key c held stored a r H Ha Hr). simpl. rewrite Hr. simpl.
  rewrite (bool_decide_eq_true_2 (a ∈ c_lru c)) by assumption.
  rewrite (bool_decide_eq_true_2 (a ∈ c_age c)) by now rewrite (ok_age _ _ _ H). simpl.
  unfold h2o_cache_release. simpl. rewrite Hr. simpl. rewrite wrap64_small by lia.
  destruct (ok_refs _ _ _ H a r Hr) as (H1 & H2 & _). unfold in_cache in H2. rewrite bool_decide_eq_true_2 in H2 by assumption.
  unfold erased, refs_without. destruct (Z.eqb_spec (held a) 0) as [E|E].
  - destruct (Z.eqb_spec (r_refcnt r) 1); [|lia]. rewrite !bool_decide_eq_false_2 by apply not_elem_filter_ne.
    destruct (c_destroy_cb c) eqn:Ed; unfold set_refs, add_destroyed; simpl; now rewrite Ed.
  - destruct (Z.eqb_spec (r_refcnt r) 1); [lia|]. specialize (Hcr a). rewrite wrap64_small by lia.
    replace (r_refcnt r - 1) with (held a) by lia. reflexivity.
Qed.

Lemma values_delete m a r : m !! a = Some r -> values m ≡ₚ r_value r :: values (delete a m).
Proof. intros Hr. unfold values. now rewrite <- (map_to_list_delete m a r Hr). Qed.

Lemma values_insert m a r : m !! a = None -> values (<[a := r]> m) ≡ₚ r_value r :: values m.
Proof. intros Hr. unfold values. now rewrite map_to_list_insert. Qed.

(** The values do not change with the counts. *)
Lemma values_update m a r r' : m !! a = Some r -> r_value r' = r_value r -> values (<[a := r']> m) ≡ₚ values m.
Proof.
  intros Hr Hv. rewrite <- insert_delete_eq, values_insert by apply lookup_delete_eq.
  now rewrite (values_delete m a r Hr), Hv.
Qed.

Lemma refs_without_ne c held a r b : a <> b -> refs_without c held a r !! b = c_refs c !! b.
Proof. intros Hne. unfold refs_without. destruct (held a =? 0); [now apply lookup_delete_ne|now apply lookup_insert_ne]. Qed.

Lemma refs_without_values c held a r :
  c_refs c !! a = Some r ->
  (if held a =? 0 then [r_value r] else []) ++ values (refs_without c held a r) ≡ₚ values (c_refs c).
Proof.
  intros Hr. unfold refs_without. destruct (held a =? 0); simpl; [symmetry; now apply values_delete|now apply (values_update _ _ r)].
Qed.

Lemma erased_ok c held stored a r :
  cache_ok c held stored -> a ∈ c_lru c -> c_refs c !! a = Some r -> cache_ok (erased c held a r) held stored.
Proof.
  intros H Ha Hr. assert (Hin : forall b, b ∈ filter (.≠ a) (c_lru c) <-> b <> a /\ b ∈ c_lru c) by (intros; rewrite list_elem_of_filter; reflexivity).
  assert (Hic : forall b, b <> a -> in_cache (erased c held a r) b = in_cache c b).
  { intros b Hb. unfold in_cache. simpl. destruct (decide (b ∈ c_lru c)) as [Hx|Hx];
      [rewrite !bool_decide_eq_true_2|rewrite !bool_decide_eq_false_2]; try reflexivity; try assumption; rewrite Hin; tauto. }
  split; simpl.
  - apply NoDup_filter, H.
  - now rewrite (ok_age _ _ _ H).
  - intros k b. rewrite Hin. split.
    + intros E. apply lookup_delete_Some in E as [Hk E]. apply (ok_table _ _ _ H) in E as [E1 E2].
      assert (b <> a) by (intros ->; rewrite Hr in E2; simpl in E2; congruence). rewrite refs_without_ne; auto.
    + intros [[Hb E1] E2]. rewrite refs_without_ne in E2 by auto. apply lookup_delete_Some.
      assert (E : c_table c !! k = Some b) by (apply (ok_table _ _ _ H); tauto). split; [|assumption].
      intros Hk. pose proof (cached_key c held stored a r H Ha Hr). rewrite Hk in *. congruence.
  - intros b. rewrite Hin. intros [Hb E]. rewrite refs_without_ne by auto. now apply (ok_lru _ _ _ H).
  - intros b. split; [apply (ok_held _ _ _ H)|]. intros Hb. destruct (decide (b = a)) as [->|]; [|rewrite refs_without_ne by auto; now apply (ok_held _ _ _ H)].
    unfold refs_without. destruct (Z.eqb_spec (held a) 0); [lia|]. rewrite lookup_insert_eq. eauto.
  - intros b q Hq. destruct (decide (b = a)) as [->|Hb]; [|rewrite refs_without_ne in Hq by auto; rewrite Hic by assumption; now apply (ok_refs _ _ _ H)].
    unfold refs_without in Hq. pose proof (ok_held _ _ _ H a) as [H0 _]. destruct (Z.eqb_spec (held a) 0); [now rewrite lookup_delete_eq in Hq|].
    rewrite lookup_insert_eq in Hq. injection Hq as <-. simpl. unfold in_cache. simpl. rewrite bool_decide_eq_false_2 by apply not_elem_filter_ne.
    pose proof (ok_refs _ _ _ H a r Hr) as (_ & _ & Hl). lia.
  - rewrite (ok_size _ _ _ H), <- (total_filter _ _ a r) by (try apply H; assumption). symmetry. apply total_ext.
    intros b Hb. apply Hin in Hb as [Hb _]. now rewrite refs_without_ne by auto.
  - pose proof (ok_bound _ _ _ H). destruct (ok_refs _ _ _ H a r Hr) as (_ & _ & Hl). lia.
  - intros Hd. rewrite <- (ok_values _ _ _ H Hd), <- (refs_without_values c held a r Hr), Hd.
    destruct (held a =? 0); simpl; [now rewrite <- app_assoc|reflexivity].
Qed.

(** ** The cache seen from outside *)

(** A key, a value, and when it was set. *)
Abbreviation entry := (Z * bytes * value * Z)%type.

Definition data (r : cache_ref) : entry := (ref_key r, r_value r, r_at r).

(** The entries, the least recently used one first. *)
Definition view (c : cache) : list entry := omap (fun a => data <$> c_refs c !! a) (c_lru c).

Definition spec_total (v : list entry) : Z := foldr (fun e n => v_len e.1.2 + n) 0 v.

Fixpoint spec_evict (capacity : Z) (v : list entry) : list entry :=
  match v with
  | [] => []
  | _ :: v' => if capacity <? spec_total v then spec_evict capacity v' else v
  end.

Definition spec_fresh (duration now : Z) (v : list entry) : list entry := filter (fun e => now <= e.2 + duration) v.

(** Least recently used entries go until the rest fits, and those that are too old. *)
Definition spec_purge (capacity duration now : Z) (v : list entry) : list entry := spec_fresh duration now (spec_evict capacity v).

Definition spec_remove (k : Z * bytes) (v : list entry) : list entry := filter (fun e => e.1.1 <> k) v.

(** A smaller cache, with the entries that are left as they were. *)
Record shrunk (c c' : cache) : Prop := {
  sk_lru : c_lru c' `sublist_of` c_lru c;
  sk_age : c_age c' `sublist_of` c_age c;
  sk_refs b : b ∈ c_lru c' -> c_refs c' !! b = c_refs c !! b;
  sk_same : (c_capacity c', c_duration c', c_flags c', c_destroy_cb c') = (c_capacity c, c_duration c, c_flags c, c_destroy_cb c) }.

Lemma shrunk_refl c : shrunk c c.
Proof. now split. Qed.

Lemma shrunk_trans c1 c2 c3 : shrunk c1 c2 -> shrunk c2 c3 -> shrunk c1 c3.
Proof.
  intros [A1 A2 A3 A4] [B1 B2 B3 B4]. split; [etransitivity; eassumption|etransitivity; eassumption| |congruence].
  intros b Hb. rewrite B3, A3; [reflexivity| |assumption]. eapply elem_of_sublist; [eassumption|]. exact B1 || assumption.
Qed.

Lemma erased_shrunk c held a r : shrunk c (erased c held a r).
Proof.
  split; simpl; [apply sublist_filter|apply sublist_filter| |reflexivity].
  intros b Hb. apply list_elem_of_filter in Hb as [Hb _]. apply refs_without_ne. congruence.
Qed.

Definition view_of (m : gmap addr cache_ref) (l : list addr) : list entry := omap (fun a => data <$> m !! a) l.

Lemma view_of_cons m a l :
  view_of m (a :: l) = match data <$> m !! a with Some d => d :: view_of m l | None => view_of m l end.
Proof. reflexivity. Qed.

Lemma view_of_ext m m' l : (forall a, a ∈ l -> data <$> m' !! a = data <$> m !! a) -> view_of m' l = view_of m l.
Proof.
  induction l as [|a l IH]; intros H; [reflexivity|]. rewrite !view_of_cons, (H a) by left.
  rewrite IH; [reflexivity|]. intros b Hb. apply H. now right.
Qed.

Lemma view_of_app m l1 l2 : view_of m (l1 ++ l2) = view_of m l1 ++ view_of m l2.
Proof. apply omap_app. Qed.

Lemma view_total m l : spec_total (view_of m l) = total_size m l.
Proof.
  induction l as [|a l IH]; [reflexivity|]. rewrite view_of_cons. simpl. destruct (m !! a) as [r|]; simpl; now rewrite IH.
Qed.

Lemma key_inj c held stored a b ra rb :
  cache_ok c held stored -> a ∈ c_lru c -> b ∈ c_lru c -> c_refs c !! a = Some ra -> c_refs c !! b = Some rb ->
  ref_key ra = ref_key rb -> a = b.
Proof.
  intros H Ha Hb Hra Hrb E. pose proof (cached_key c held stored a ra H Ha Hra). pose proof (cached_key c held stored b rb H Hb Hrb). congruence.
Qed.

(** In the view, an entry is found by its key. *)
Lemma view_remove c held stored a r l :
  cache_ok c held stored -> a ∈ c_lru c -> c_refs c !! a = Some r -> (forall b, b ∈ l -> b ∈ c_lru c) ->
  view_of (c_refs c) (filter (.≠ a) l) = spec_remove (ref_key r) (view_of (c_refs c) l).
Proof.
  intros H Ha Hr Hl. induction l as [|b l IH]; [reflexivity|]. rewrite view_of_cons.
  assert (Hb : b ∈ c_lru c) by (apply Hl; left). specialize (IH ltac:(intros x Hx; apply Hl; now right)).
  destruct (ok_lru _ _ _ H b Hb) as [rb Hrb]. rewrite Hrb. simpl. unfold spec_remove in *. destruct (decide (b = a)) as [->|Hne].
  - rewrite filter_cons_False, IH by tauto. rewrite filter_cons_False; [reflexivity|]. simpl. rewrite Hrb in Hr. injection Hr as ->. tauto.
  - rewrite (filter_cons_True (.≠ a)), view_of_cons, Hrb by assumption. simpl. rewrite IH. rewrite filter_cons_True; [reflexivity|]. simpl.
    intros E. apply Hne. eapply key_inj; eassumption.
Qed.

Lemma erased_view c held stored a r :
  cache_ok c held stored -> a ∈ c_lru c -> c_refs c !! a = Some r -> view (erased c held a r) = spec_remove (ref_key r) (view c).
Proof.
  intros H Ha Hr. change (view_of (refs_without c held a r) (filter (.≠ a) (c_lru c)) = spec_remove (ref_key r) (view_of (c_refs c) (c_lru c))).
  rewrite <- (view_remove c held stored a r) by auto. apply view_of_ext. intros b Hb. apply list_elem_of_filter in Hb as [Hb _].
  now rewrite refs_without_ne by congruence.
Qed.

(** ** Purging *)

Lemma purge_size_ok fuel c held stored :
  cache_ok c held stored -> countable_refs held -> 0 <= c_capacity c -> (length (c_lru c) <= fuel)%nat ->
  exists c', purge_size fuel c = Some c' /\ cache_ok c' held stored /\ shrunk c c' /\ c_size c' <= c_capacity c /\
    view c' = spec_evict (c_capacity c) (view c).
Proof.
  intros H Hcr Hcap. revert c H Hcap. induction fuel as [|fuel IH]; intros c H Hcap Hf; cbn [purge_size];
    assert (Ht : c_size c = spec_total (view c)) by (rewrite (ok_size _ _ _ H); symmetry; apply view_total).
  all: destruct (Z.ltb_spec (c_capacity c) (c_size c)) as [Hlt|Hge].
  2,4: exists c; split; [reflexivity|]; split; [assumption|]; split; [apply shrunk_refl|]; split; [assumption|];
    destruct (view c) eqn:E; [reflexivity|]; cbn [spec_evict]; rewrite <- Ht; destruct (Z.ltb_spec (c_capacity c) (c_size c)); [lia|reflexivity].
  all: destruct (c_lru c) as [|a l] eqn:El; [pose proof (ok_size _ _ _ H) as Hs; rewrite El in Hs; simpl in Hs; lia|]; simpl in Hf.
  1: lia.
  assert (Ha : a ∈ c_lru c) by (rewrite El; left). destruct (ok_lru _ _ _ H a Ha) as [r Hr]. rewrite Hr. simpl.
  rewrite (erase_ref_eq c held stored a r) by assumption. simpl.
  pose proof (ok_nodup _ _ _ H) as Hnd. rewrite El in Hnd. pose proof (filter_ne_middle a [] l Hnd) as Hfl. simpl in Hfl.
  destruct (IH (erased c held a r)) as (c' & E & H' & Hsk & Hsz & Hv); [now apply erased_ok|assumption| |].
  { simpl. rewrite El, Hfl. lia. }
  exists c'. split; [assumption|]. split; [assumption|]. split; [apply (shrunk_trans _ (erased c held a r)); [apply erased_shrunk|assumption]|].
  split; [assumption|]. rewrite Hv. simpl c_capacity.
  assert (Ev : view c = data r :: view (erased c held a r)).
  { unfold view at 1. rewrite El. simpl. rewrite Hr. simpl. f_equal. unfold view. simpl c_lru. rewrite El, Hfl. symmetry. apply view_of_ext.
    intros b Hb. simpl. rewrite refs_without_ne; [reflexivity|]. intros ->. now apply NoDup_cons in Hnd as [Hnd _]. }
  rewrite Ev in *. cbn [spec_evict]. rewrite <- Ht. destruct (Z.ltb_spec (c_capacity c) (c_size c)); [reflexivity|lia].
Qed.

(** ** The age of entries *)

Definition at_of (c : cache) (a : addr) : Z := default 0 (r_at <$> c_refs c !! a).

(** The clock has not gone back since the first entry was set: the list is in order of age. *)
Record aged (c : cache) (clock : Z) : Prop := {
  ag_sorted : StronglySorted (fun a b => at_of c a <= at_of c b) (c_age c);
  ag_range a r : a ∈ c_lru c -> c_refs c !! a = Some r -> 0 <= r_at r <= clock }.

Lemma sorted_sublist {A} (R R' : A -> A -> Prop) l l' :
  l' `sublist_of` l -> StronglySorted R l -> (forall x y, x ∈ l' -> y ∈ l' -> R x y -> R' x y) -> StronglySorted R' l'.
Proof.
  induction 1 as [|x l1 l2 Hs IH|x l1 l2 Hs IH]; intros Hl HR; [constructor| |].
  - apply StronglySorted_inv in Hl as [Hl Hf]. constructor.
    + apply IH; [assumption|]. intros a b Ha Hb. apply HR; now right.
    + rewrite Forall_forall in *. intros y Hy. apply HR; [left|now right|]. apply Hf. eapply elem_of_sublist; eassumption.
  - apply StronglySorted_inv in Hl as [Hl _]. now apply IH.
Qed.

Lemma aged_shrunk c c' held stored clock : cache_ok c' held stored -> shrunk c c' -> aged c clock -> aged c' clock.
Proof.
  intros H [S1 S2 S3 S4] [A1 A2]. split.
  - apply (sorted_sublist _ _ _ _ S2 A1). intros x y Hx Hy. rewrite (ok_age _ _ _ H) in Hx, Hy. unfold at_of. now rewrite !S3 by assumption.
  - intros a r Ha Hr. rewrite S3 in Hr by assumption. apply (A2 a); [|assumption]. eapply elem_of_sublist; eassumption.
Qed.

Lemma timeleft_eq c r now :
  0 <= r_at r -> 0 <= c_duration c -> r_at r + c_duration c < 2 ^ 63 -> 0 <= now < 2 ^ 63 -> get_timeleft c r now = r_at r + c_duration c - now.
Proof. intros. unfold get_timeleft. rewrite wrap64_small by lia. unfold to_int64. rewrite Z.mod_small; lia. Qed.

Lemma view_elem c held stored a : cache_ok c held stored -> a ∈ c_lru c -> exists r, c_refs c !! a = Some r /\ data r ∈ view c.
Proof.
  intros H Ha. destruct (ok_lru _ _ _ H a Ha) as [r Hr]. exists r. split; [assumption|]. unfold view. apply list_elem_of_omap.
  exists a. split; [assumption|]. now rewrite Hr.
Qed.

Lemma elem_view c e : e ∈ view c -> exists a r, a ∈ c_lru c /\ c_refs c !! a = Some r /\ e = data r.
Proof.
  intros He. unfold view in He. apply list_elem_of_omap in He as (a & Ha & E). apply fmap_Some in E as (r & Hr & ->). eauto.
Qed.

(** The times are small enough for 64 bits with a sign. *)
Definition clock_ok (c : cache) (clock now : Z) : Prop := 0 <= c_duration c /\ clock + c_duration c < 2 ^ 63 /\ 0 <= now < 2 ^ 63.

(** An old entry can go first. *)
Lemma spec_fresh_remove d now k v :
  (forall e, e ∈ v -> e.1.1 = k -> e.2 + d < now) -> spec_fresh d now (spec_remove k v) = spec_fresh d now v.
Proof.
  unfold spec_fresh, spec_remove. induction v as [|e v IH]; intros H; [reflexivity|].
  specialize (IH ltac:(intros x Hx; apply H; now right)). destruct (decide (e.1.1 = k)) as [Hk|Hk].
  - rewrite filter_cons_False by tauto. rewrite IH, filter_cons_False; [reflexivity|]. specialize (H e ltac:(left) Hk). lia.
  - rewrite filter_cons_True by assumption. rewrite !filter_cons, IH. reflexivity.
Qed.

Lemma purge_age_ok fuel c held stored now :
  cache_ok c held stored -> countable_refs held -> (length (c_age c) <= fuel)%nat ->
  exists c', purge_age fuel c now = Some c' /\ cache_ok c' held stored /\ shrunk c c' /\ c_size c' <= c_size c /\
    forall clock, aged c clock -> clock_ok c clock now -> view c' = spec_fresh (c_duration c) now (view c).
Proof.
  intros H Hcr. revert c H. induction fuel as [|fuel IH]; intros c H Hf; cbn [purge_age].
  all: destruct (c_age c) as [|a l] eqn:Ea; simpl in Hf; [|try lia].
  1,2: exists c; split; [reflexivity|]; split; [assumption|]; split; [apply shrunk_refl|]; split; [lia|]; intros clock _ _.
  1,2: pose proof (ok_age _ _ _ H) as Hp; rewrite Ea in Hp; apply Permutation_nil in Hp; unfold view; now rewrite Hp.
  assert (Ha : a ∈ c_lru c) by (rewrite <- (ok_age _ _ _ H), Ea; left). destruct (ok_lru _ _ _ H a Ha) as [r Hr]. rewrite Hr. simpl.
  destruct (Z.leb_spec 0 (get_timeleft c r now)) as [Hle|Hlt].
  - exists c. split; [reflexivity|]. split; [assumption|]. split; [apply shrunk_refl|]. split; [lia|]. intros clock [A1 A2] (D1 & D2 & D3).
    unfold spec_fresh. symmetry. apply filter_all. intros e He. apply elem_view in He as (b & rb & Hb & Hrb & ->). simpl.
    pose proof (A2 a r Ha Hr). rewrite timeleft_eq in Hle by lia. rewrite Ea in A1. apply StronglySorted_inv in A1 as [_ A1].
    rewrite <- (ok_age _ _ _ H), Ea in Hb. apply elem_of_cons in Hb as [->|Hb]; [rewrite Hrb in Hr; injection Hr as ->; lia|].
    rewrite Forall_forall in A1. specialize (A1 b Hb). unfold at_of in A1. rewrite Hr, Hrb in A1. simpl in A1. lia.
  - rewrite (erase_ref_eq c held stored a r) by assumption. simpl.
    destruct (IH (erased c held a r)) as (c' & E & H' & Hsk & Hsz & Hv); [now apply erased_ok| |].
    { simpl. pose proof (ok_nodup _ _ _ H) as Hnd. rewrite <- (ok_age _ _ _ H), Ea in Hnd. pose proof (filter_ne_middle a [] l Hnd) as Hfl.
      simpl in Hfl. rewrite Ea, Hfl. lia. }
    exists c'. split; [assumption|]. split; [assumption|]. split; [apply (shrunk_trans _ (erased c held a r)); [apply erased_shrunk|assumption]|].
    split; [pose proof (total_member c held stored a r H Ha Hr); simpl in Hsz; lia|].
    intros clock Hag Hck. rewrite (Hv clock); [|apply (aged_shrunk c _ held stored); [now apply erased_ok|apply erased_shrunk|assumption]|assumption].
    rewrite (erased_view c held stored) by assumption. simpl. destruct Hag as [A1 A2]. destruct Hck as (D1 & D2 & D3). pose proof (A2 a r Ha Hr).
    rewrite timeleft_eq in Hlt by lia. apply spec_fresh_remove. intros e He Hk. apply elem_view in He as (b & rb & Hb & Hrb & ->). simpl in *.
    assert (b = a) as -> by exact (key_inj c held stored b a rb r H Hb Ha Hrb Hr Hk). rewrite Hrb in Hr. injection Hr as ->. lia.
Qed.

Lemma purge_ok c held stored now :
  cache_ok c held stored -> countable_refs held -> 0 <= c_capacity c ->
  exists c', purge c now = Some c' /\ cache_ok c' held stored /\ shrunk c c' /\ c_size c' <= c_capacity c /\
    forall clock, aged c clock -> clock_ok c clock now ->
      view c' = spec_purge (c_capacity c) (c_duration c) now (view c) /\ aged c' clock.
Proof.
  intros H Hcr Hcap. unfold purge. destruct (purge_size_ok (length (c_lru c)) c held stored) as (c1 & E1 & H1 & S1 & Z1 & V1); try assumption; [lia|].
  rewrite E1. simpl. destruct (purge_age_ok (length (c_age c1)) c1 held stored now) as (c2 & E2 & H2 & S2 & Z2 & V2); try assumption; [lia|].
  exists c2. split; [assumption|]. split; [assumption|]. split; [now apply (shrunk_trans c c1)|]. split; [lia|].
  intros clock Hag Hck. pose proof (aged_shrunk c c1 held stored clock H1 S1 Hag) as Hag1.
  pose proof (sk_same _ _ S1) as Hs. injection Hs as Hcp Hdu Hfl Hcb. split.
  - unfold spec_purge. rewrite <- V1, <- Hdu. apply (V2 clock); [assumption|]. unfold clock_ok in *. now rewrite Hdu.
  - now apply (aged_shrunk c1 c2 held stored).
Qed.

(** After a purge nothing in the cache is too old. *)
Lemma purged_fresh c held stored clock now cap dur v a r :
  cache_ok c held stored -> view c = spec_purge cap dur now v -> aged c clock -> clock_ok c clock now -> dur = c_duration c ->
  a ∈ c_lru c -> c_refs c !! a = Some r -> 0 <= get_timeleft c r now.
Proof.
  intros H Hv [_ A2] (D1 & D2 & D3) -> Ha Hr. pose proof (A2 a r Ha Hr). rewrite timeleft_eq by lia.
  destruct (view_elem c held stored a H Ha) as (r' & Hr' & He). rewrite Hr in Hr'. injection Hr' as <-.
  rewrite Hv in He. apply list_elem_of_filter in He as [He _]. simpl in He. lia.
Qed.
