(* ===== verification/CacheRun.v ===== *)
(** * The cache: the functions (lib/common/cache.c) *)
From S2P Require Import Prelude Cache CacheOk.
From Stdlib Require Import ZArith Lia Permutation.
From stdpp Require Import base numbers option list gmap sorting.
Open Scope Z_scope.

(** The references of callers, [n] more for one entry. *)
Definition hold (held : addr -> Z) (a : addr) (n : Z) (b : addr) : Z := if decide (b = a) then held b + n else held b.

Lemma hold_eq held a n : hold held a n a = held a + n.
Proof. unfold hold. now rewrite decide_True. Qed.
Lemma hold_ne held a n b : b <> a -> hold held a n b = held b.
Proof. intros. unfold hold. now rewrite decide_False. Qed.

(** ** Entries and lists changed in place *)

(** An entry is updated, with the same key and value. *)
Lemma update_ref_ok c held held' stored a r r' :
  cache_ok c held stored -> c_refs c !! a = Some r -> data r' = data r ->
  (forall b, b <> a -> held' b = held b) -> 0 <= held' a -> 1 <= r_refcnt r' -> r_refcnt r' = held' a + in_cache c a ->
  cache_ok (set_refs (<[a := r']> (c_refs c)) c) held' stored.
Proof.
  intros H Hr Hd Hne H0 H1 H2. injection Hd as Hk1 Hk2 Hv Hat.
  assert (Hk : ref_key r' = ref_key r) by (unfold ref_key; congruence).
  split; simpl; try apply H.
  - intros k b. rewrite (ok_table _ _ _ H). destruct (decide (b = a)) as [->|Hb]; [|now rewrite lookup_insert_ne by auto].
    rewrite lookup_insert_eq, Hr. simpl. now rewrite Hk.
  - intros b Hb. destruct (decide (b = a)) as [->|]; [rewrite lookup_insert_eq; eauto|]. rewrite lookup_insert_ne by auto. now apply (ok_lru _ _ _ H).
  - intros b. destruct (decide (b = a)) as [->|Hb]; [rewrite lookup_insert_eq; eauto|]. rewrite lookup_insert_ne, Hne by auto. apply (ok_held _ _ _ H).
  - intros b q Hq. destruct (decide (b = a)) as [->|Hb].
    + rewrite lookup_insert_eq in Hq. injection Hq as <-. rewrite Hv. pose proof (ok_refs _ _ _ H a r Hr) as (_ & _ & Hl). auto.
    + rewrite lookup_insert_ne in Hq by auto. rewrite Hne by assumption. now apply (ok_refs _ _ _ H).
  - rewrite (ok_size _ _ _ H). symmetry. apply total_ext. intros b _. destruct (decide (b = a)) as [->|]; [|now rewrite lookup_insert_ne by auto].
    rewrite lookup_insert_eq, Hr. simpl. congruence.
  - intros Hcb. rewrite (values_update _ _ r) by assumption. now apply (ok_values _ _ _ H).
Qed.

Lemma update_ref_view c a r r' : c_refs c !! a = Some r -> data r' = data r -> view (set_refs (<[a := r']> (c_refs c)) c) = view c.
Proof.
  intros Hr Hd. apply view_of_ext. intros b _. simpl. destruct (decide (b = a)) as [->|]; [|now rewrite lookup_insert_ne by auto].
  rewrite lookup_insert_eq, Hr. simpl. congruence.
Qed.

Lemma update_ref_aged c a r r' clock :
  aged c clock -> c_refs c !! a = Some r -> r_at r' = r_at r -> aged (set_refs (<[a := r']> (c_refs c)) c) clock.
Proof.
  intros [A1 A2] Hr Hat. split; simpl.
  - eapply (sorted_sublist _ _ (c_age c)); [reflexivity|exact A1|]. intros x y _ _. unfold at_of. simpl.
    assert (He : forall z, r_at <$> <[a := r']> (c_refs c) !! z = r_at <$> c_refs c !! z).
    { intros z. destruct (decide (z = a)) as [->|]; [rewrite lookup_insert_eq, Hr; simpl; congruence|now rewrite lookup_insert_ne by auto]. }
    now rewrite !He.
  - intros b q Hb Hq. destruct (decide (b = a)) as [->|].
    + rewrite lookup_insert_eq in Hq. injection Hq as <-. rewrite Hat. now apply (A2 a).
    + rewrite lookup_insert_ne in Hq by auto. now apply (A2 b).
Qed.

Lemma total_perm m l l' : l ≡ₚ l' -> total_size m l = total_size m l'.
Proof. induction 1; simpl; lia. Qed.

(** The order of use changes. *)
Lemma reorder_ok c held stored l : cache_ok c held stored -> l ≡ₚ c_lru c -> cache_ok (set_lru l c) held stored.
Proof.
  intros H Hl. assert (Hin : forall b, b ∈ l <-> b ∈ c_lru c) by (intros b; now rewrite Hl).
  assert (Hic : forall b, in_cache (set_lru l c) b = in_cache c b) by (intros b; unfold in_cache; simpl; now rewrite (bool_decide_ext _ _ (Hin b))).
  split; simpl; try apply H.
  - rewrite Hl. apply H.
  - rewrite Hl. apply H.
  - intros k b. rewrite Hin. apply H.
  - intros b. rewrite Hin. apply H.
  - intros b r. rewrite Hic. apply H.
  - rewrite (total_perm _ l (c_lru c)) by assumption. apply H.
Qed.

Lemma filter_ne_perm (a : addr) l : NoDup l -> a ∈ l -> filter (.≠ a) l ++ [a] ≡ₚ l.
Proof.
  intros Hnd Ha. apply list_elem_of_split in Ha as (l1 & l2 & ->). rewrite filter_ne_middle by assumption.
  rewrite Permutation_app_comm. simpl. now rewrite Permutation_middle.
Qed.

(** ** Releasing *)

(** The last reference goes: the entry is freed. *)
Definition freed (c : cache) (a : addr) (r : cache_ref) : cache :=
  Cache (c_flags c) (c_table c) (c_size c) (c_capacity c) (c_lru c) (c_age c) (c_duration c) (c_destroy_cb c) (delete a (c_refs c))
    (if c_destroy_cb c then c_destroyed c ++ [r_value r] else c_destroyed c).

Lemma freed_ok c held stored a r :
  cache_ok c held stored -> a ∉ c_lru c -> c_refs c !! a = Some r -> held a = 1 -> cache_ok (freed c a r) (hold held a (-1)) stored.
Proof.
  intros H Hnl Hr Ha. assert (Hne : forall b, b ∈ c_lru c -> delete a (c_refs c) !! b = c_refs c !! b) by (intros b Hb; apply lookup_delete_ne; congruence).
  split; simpl; try apply H.
  - intros k b. rewrite (ok_table _ _ _ H). split; intros [G1 G2]; (split; [assumption|]); [now rewrite Hne|now rewrite <- Hne].
  - intros b Hb. rewrite Hne by assumption. now apply (ok_lru _ _ _ H).
  - intros b. destruct (decide (b = a)) as [->|Hb]; [rewrite hold_eq; split; lia|]. rewrite hold_ne, lookup_delete_ne by auto. apply (ok_held _ _ _ H).
  - intros b q Hq. destruct (decide (b = a)) as [->|Hb]; [now rewrite lookup_delete_eq in Hq|].
    rewrite lookup_delete_ne in Hq by auto. rewrite hold_ne by assumption. now apply (ok_refs _ _ _ H).
  - rewrite (ok_size _ _ _ H). symmetry. apply total_ext. intros b Hb. now rewrite Hne.
  - intros Hcb. rewrite <- (ok_values _ _ _ H Hcb), (values_delete _ _ r Hr), Hcb, <- app_assoc. reflexivity.
Qed.

Lemma release_ok c held stored a :
  cache_ok c held stored -> countable_refs held -> 0 < held a ->
  exists c', h2o_cache_release c a = Some c' /\ cache_ok c' (hold held a (-1)) stored /\ view c' = view c /\
    forall clock, aged c clock -> aged c' clock.
Proof.
  intros H Hcr Ha. destruct (proj2 (ok_held _ _ _ H a) Ha) as [r Hr]. destruct (ok_refs _ _ _ H a r Hr) as (R1 & R2 & R3).
  unfold h2o_cache_release. rewrite Hr. simpl. destruct (Z.eqb_spec (r_refcnt r) 1) as [E1|E1].
  - assert (Hnl : a ∉ c_lru c).
    { intros Hin. unfold in_cache in R2. rewrite bool_decide_eq_true_2 in R2 by assumption. lia. }
    unfold in_cache in R2. rewrite bool_decide_eq_false_2 in R2 by assumption.
    rewrite !bool_decide_eq_false_2 by (try rewrite (ok_age _ _ _ H); assumption).
    assert (Hok : cache_ok (freed c a r) (hold held a (-1)) stored) by (apply freed_ok; try assumption; lia).
    assert (Hne : forall b, b ∈ c_lru c -> delete a (c_refs c) !! b = c_refs c !! b) by (intros b Hb; apply lookup_delete_ne; congruence).
    exists (freed c a r). split; [unfold freed, set_refs, add_destroyed; destruct (c_destroy_cb c) eqn:Ed; simpl; now rewrite ?Ed|].
    split; [assumption|]. split.
    + apply view_of_ext. intros b Hb. simpl. now rewrite Hne.
    + intros clock. apply (aged_shrunk c _ _ _ clock Hok). now split.
  - specialize (Hcr a). assert (0 <= in_cache c a <= 1) by (unfold in_cache; case_bool_decide; lia).
    rewrite wrap64_small by lia. eexists. split; [reflexivity|]. split; [|split].
    + apply (update_ref_ok c held _ stored a r); try assumption; try reflexivity; rewrite ?hold_eq; simpl; try lia. intros b Hb. now apply hold_ne.
    + now apply (update_ref_view c a r).
    + intros clock Hag. now apply (update_ref_aged c a r).
Qed.

(** ** Fetching *)

Lemma view_find c held stored k :
  cache_ok c held stored ->
  match c_table c !! k with
  | Some a => a ∈ c_lru c /\ exists r, c_refs c !! a = Some r /\ ref_key r = k /\ data r ∈ view c
  | None => Forall (fun e => e.1.1 <> k) (view c)
  end.
Proof.
  intros H. destruct (c_table c !! k) as [a|] eqn:E.
  - apply (ok_table _ _ _ H) in E as [Ha E]. split; [assumption|]. destruct (view_elem c held stored a H Ha) as (r & Hr & He).
    exists r. rewrite Hr in E. simpl in E. split; [assumption|]. split; [congruence|assumption].
  - rewrite Forall_forall. intros e He Hk. apply elem_view in He as (a & r & Ha & Hr & ->). simpl in Hk.
    pose proof (cached_key c held stored a r H Ha Hr). congruence.
Qed.

(** The entry of a key is used: it goes to the end. *)
Lemma touch_view c held stored a r :
  cache_ok c held stored -> a ∈ c_lru c -> c_refs c !! a = Some r ->
  view (set_lru (filter (.≠ a) (c_lru c) ++ [a]) c) = spec_remove (ref_key r) (view c) ++ [data r].
Proof.
  intros H Ha Hr. unfold view. simpl. rewrite omap_app.
  change (view_of (c_refs c) (filter (.≠ a) (c_lru c)) ++ view_of (c_refs c) [a] = spec_remove (ref_key r) (view c) ++ [data r]).
  rewrite (view_remove c held stored a r) by auto. rewrite view_of_cons, Hr. reflexivity.
Qed.

(** What a fetch gives, on a list of entries that are fresh. *)
Definition fetched (flags duration now : Z) (k : Z * bytes) (v : list entry) (found : option entry) (v' : list entry) : Prop :=
  match found with
  | Some e => e ∈ v /\ e.1.1 = k /\ v' = spec_remove k v ++ [e]
  | None => v' = v /\
      (Forall (fun e => e.1.1 <> k) v \/
       Z.land flags H2O_CACHE_FLAG_EARLY_UPDATE <> 0 /\ exists e, e ∈ v /\ e.1.1 = k /\ e.2 + duration - now < 10)
  end.

Lemma fetch_ok c held stored now key keyhash :
  cache_ok c held stored -> countable_refs held -> 0 <= c_capacity c ->
  exists o c', h2o_cache_fetch c now key keyhash = Some (o, c') /\ c_size c' <= c_capacity c /\
    cache_ok c' (match o with Some a => hold held a 1 | None => held end) stored /\
    forall clock, aged c clock -> clock_ok c clock now ->
      aged c' clock /\
      fetched (c_flags c) (c_duration c) now (key_of key keyhash) (spec_purge (c_capacity c) (c_duration c) now (view c))
        (a ← o; data <$> c_refs c' !! a) (view c').
Proof.
  intros H Hcr Hcap. unfold h2o_cache_fetch. destruct (purge_ok c held stored now H Hcr Hcap) as (c1 & E1 & H1 & S1 & Z1 & V1).
  rewrite E1. simpl. set (k := key_of key keyhash). pose proof (sk_same _ _ S1) as Hs. injection Hs as Hcp Hdu Hfl Hcb.
  pose proof (view_find c1 held stored k H1) as Hfind. destruct (c_table c1 !! k) as [a|] eqn:Et.
  2: { exists None, c1. split; [reflexivity|]. split; [assumption|]. split; [assumption|]. intros clock Hag Hck.
       destruct (V1 clock Hag Hck) as [Hv Hag1]. split; [assumption|]. simpl. rewrite <- Hv. split; [reflexivity|now left]. }
  destruct Hfind as (Ha & r & Hr & Hk & He). rewrite Hr. simpl. destruct (Z.ltb_spec (get_timeleft c1 r now) 0) as [Hlt|Hge].
  { exists None, c1. split; [reflexivity|]. split; [assumption|]. split; [assumption|]. intros clock Hag Hck.
    destruct (V1 clock Hag Hck) as [Hv Hag1]. exfalso.
    enough (0 <= get_timeleft c1 r now) by lia. eapply (purged_fresh c1 held stored clock now); try eassumption; [|now symmetry].
    unfold clock_ok in *. now rewrite Hdu. }
  pose proof (ok_refs _ _ _ H1 a r Hr) as (R1 & R2 & R3). assert (Hic : in_cache c1 a = 1) by (unfold in_cache; now rewrite bool_decide_eq_true_2).
  destruct (negb (Z.land (c_flags c1) H2O_CACHE_FLAG_EARLY_UPDATE =? 0) && (get_timeleft c1 r now <? 10) && negb (r_requested_early_update r)) eqn:Ee.
  - apply andb_true_iff in Ee as [Ee _]. apply andb_true_iff in Ee as [Ef Ew]. apply negb_true_iff, Z.eqb_neq in Ef. apply Z.ltb_lt in Ew.
    eexists None, _. split; [reflexivity|]. split; [assumption|]. split.
    { apply (update_ref_ok c1 held held stored a r); try assumption; try reflexivity; [apply (ok_held _ _ _ H1)]. }
    intros clock Hag Hck. destruct (V1 clock Hag Hck) as [Hv Hag1]. split; [now apply (update_ref_aged c1 a r)|]. simpl.
    rewrite (update_ref_view c1 a r) by (assumption || reflexivity). rewrite <- Hv. split; [reflexivity|]. right. split; [congruence|].
    exists (data r). split; [assumption|]. split; [assumption|]. simpl. destruct Hck as (D1 & D2 & D3).
    pose proof (ag_range _ _ Hag1 a r Ha Hr). rewrite timeleft_eq in Ew by lia. lia.
  - rewrite bool_decide_eq_true_2 by assumption. specialize (Hcr a). rewrite wrap64_small by lia.
    pose proof (filter_ne_perm a (c_lru c1) (ok_nodup _ _ _ H1) Ha) as Hperm.
    pose proof (reorder_ok c1 held stored _ H1 Hperm) as H2. set (c2 := set_lru (filter (.≠ a) (c_lru c1) ++ [a]) c1) in *.
    eexists (Some a), _. split; [reflexivity|]. split; [assumption|]. split.
    { apply (update_ref_ok c2 held _ stored a r); try assumption; try reflexivity; rewrite ?hold_eq; simpl; try lia.
      - intros b Hb. now apply hold_ne.
      - unfold in_cache. simpl. rewrite bool_decide_eq_true_2; [lia|]. now rewrite Hperm. }
    intros clock Hag Hck. destruct (V1 clock Hag Hck) as [Hv Hag1]. split.
    + apply (update_ref_aged c2 a r); [|assumption|reflexivity]. destruct Hag1 as [A1 A2]. split; [exact A1|].
      intros b q Hb. apply A2. simpl in Hb. now rewrite Hperm in Hb.
    + simpl. rewrite lookup_insert_eq. simpl.
      pose proof (update_ref_view c2 a r (set_refcnt (r_refcnt r + 1) r) Hr eq_refl) as Ev. change (c_refs c2) with (c_refs c1) in Ev.
      rewrite Ev, <- Hv. split; [exact He|]. split; [exact Hk|].
      rewrite <- Hk. exact (touch_view c1 held stored a r H1 Ha Hr).
Qed.

(** ** Setting *)

(** The cache with one more entry. *)
Definition added (c : cache) (r : cache_ref) (a : addr) : cache :=
  Cache (c_flags c) (<[ref_key r := a]> (c_table c)) (c_size c + v_len (r_value r)) (c_capacity c)
    (c_lru c ++ [a]) (c_age c ++ [a]) (c_duration c) (c_destroy_cb c) (<[a := r]> (c_refs c)) (c_destroyed c).

Lemma fresh_not_cached c held stored a : cache_ok c held stored -> c_refs c !! a = None -> a ∉ c_lru c /\ held a = 0.
Proof.
  intros H Ha. split.
  - intros Hin. destruct (ok_lru _ _ _ H a Hin) as [r Hr]. congruence.
  - destruct (ok_held _ _ _ H a) as [H0 H1]. destruct (decide (held a = 0)); [assumption|]. destruct H1 as [r Hr]; [lia|congruence].
Qed.

Lemma added_ok c held stored r a :
  cache_ok c held stored -> c_refs c !! a = None -> c_table c !! ref_key r = None -> r_refcnt r = 1 -> 0 <= v_len (r_value r) ->
  c_size c + v_len (r_value r) < 2 ^ 64 -> cache_ok (added c r a) held (r_value r :: stored).
Proof.
  intros H Ha Ht Hc Hl Hb. destruct (fresh_not_cached c held stored a H Ha) as [Hn Hh].
  assert (Hin : forall b, b ∈ c_lru c ++ [a] <-> b ∈ c_lru c \/ b = a) by (intros b; rewrite elem_of_app, list_elem_of_singleton; reflexivity).
  assert (Hne : forall b, b ∈ c_lru c -> b <> a) by (intros b Hx ->; contradiction).
  split; simpl.
  - apply NoDup_app. split; [apply H|]. split; [|apply NoDup_singleton]. intros b Hx. rewrite list_elem_of_singleton. now apply Hne.
  - now rewrite (ok_age _ _ _ H).
  - intros k b. rewrite Hin. destruct (decide (b = a)) as [->|Hba].
    + rewrite lookup_insert_eq. simpl. split.
      * intros E. split; [now right|]. apply lookup_insert_Some in E as [[-> _]|[_ E]]; [reflexivity|]. apply (ok_table _ _ _ H) in E. tauto.
      * intros [_ E]. injection E as <-. apply lookup_insert_eq.
    + rewrite (lookup_insert_ne (c_refs c)) by auto. destruct (decide (k = ref_key r)) as [->|Hk].
      * rewrite lookup_insert_eq. split; [congruence|]. intros [[E1|E1] E2]; [|contradiction].
        assert (c_table c !! ref_key r = Some b) by (apply (ok_table _ _ _ H); tauto). congruence.
      * rewrite lookup_insert_ne, (ok_table _ _ _ H) by congruence. tauto.
  - intros b. rewrite Hin. intros [Hx| ->]; [|rewrite lookup_insert_eq; eauto]. rewrite lookup_insert_ne by (symmetry; now apply Hne). now apply (ok_lru _ _ _ H).
  - intros b. split; [apply (ok_held _ _ _ H)|]. intros Hp. rewrite lookup_insert_ne; [now apply (ok_held _ _ _ H)|]. intros <-. lia.
  - intros b q Hq. unfold in_cache. simpl. destruct (decide (b = a)) as [->|Hba].
    + rewrite lookup_insert_eq in Hq. injection Hq as <-. rewrite bool_decide_eq_true_2; [lia|]. rewrite Hin. tauto.
    + rewrite lookup_insert_ne in Hq by auto. rewrite (bool_decide_ext _ (b ∈ c_lru c)); [now apply (ok_refs _ _ _ H)|]. rewrite Hin. tauto.
  - rewrite total_app. simpl. rewrite lookup_insert_eq. simpl. rewrite (ok_size _ _ _ H), (total_ext (c_refs c) (<[a := r]> (c_refs c))); [lia|].
    intros b Hx. rewrite lookup_insert_ne by (symmetry; now apply Hne). reflexivity.
  - assumption.
  - intros Hcb. rewrite values_insert by assumption. rewrite <- (ok_values _ _ _ H Hcb). symmetry. apply Permutation_middle.
Qed.

Lemma added_view c held stored r a :
  cache_ok c held stored -> c_refs c !! a = None -> view (added c r a) = view c ++ [data r].
Proof.
  intros H Ha. destruct (fresh_not_cached c held stored a H Ha) as [Hn _].
  change (view_of (<[a := r]> (c_refs c)) (c_lru c ++ [a]) = view c ++ [data r]). rewrite view_of_app, view_of_cons, lookup_insert_eq. f_equal.
  apply view_of_ext. intros b Hb. rewrite lookup_insert_ne; [reflexivity|]. intros <-. contradiction.
Qed.

Lemma added_aged c held stored r a clock now :
  cache_ok c held stored -> c_refs c !! a = None -> aged c clock -> 0 <= clock <= now -> r_at r = now -> aged (added c r a) now.
Proof.
  intros H Ha [A1 A2] Hnow Hat. destruct (fresh_not_cached c held stored a H Ha) as [Hn _].
  assert (Hne : forall b, b ∈ c_age c -> b ∈ c_lru c /\ b <> a).
  { intros b Hb. rewrite (ok_age _ _ _ H) in Hb. split; [assumption|]. intros ->. contradiction. }
  split; simpl.
  - apply StronglySorted_app_2; [| |repeat constructor].
    + intros x y Hx Hy. apply list_elem_of_singleton in Hy as ->. destruct (Hne x Hx) as [Hx1 Hx2]. unfold at_of. simpl.
      rewrite lookup_insert_ne, lookup_insert_eq by auto. simpl. destruct (ok_lru _ _ _ H x Hx1) as [q Hq]. rewrite Hq. simpl.
      pose proof (A2 x q Hx1 Hq). lia.
    + eapply (sorted_sublist _ _ (c_age c)); [reflexivity|exact A1|]. intros x y Hx Hy. unfold at_of. simpl.
      destruct (Hne x Hx), (Hne y Hy). now rewrite !lookup_insert_ne by auto.
  - intros b q Hb Hq. apply elem_of_app in Hb as [Hb|Hb].
    + rewrite lookup_insert_ne in Hq by congruence. pose proof (A2 b q Hb Hq). lia.
    + apply list_elem_of_singleton in Hb as ->. rewrite lookup_insert_eq in Hq. injection Hq as <-. lia.
Qed.

(** The entry of the key that is set anew is erased, its place in the table kept. *)
Lemma erase_reuse c held stored n q a r :
  cache_ok c held stored -> countable_refs held -> c_refs c !! n = None -> a ∈ c_lru c -> c_refs c !! a = Some r ->
  erase_ref (set_refs (<[n := q]> (c_refs c)) c) (ref_key r) true =
  Some (set_table (c_table c) (set_refs (<[n := q]> (c_refs (erased c held a r))) (erased c held a r))).
Proof.
  intros H Hcr Hn Ha Hr. assert (Hna : n <> a) by congruence. pose proof (total_member c held stored a r H Ha Hr) as Hlen. pose proof (ok_bound _ _ _ H) as Hb.
  unfold erase_ref. simpl. rewrite (cached_key c held stored a r H Ha Hr). simpl. rewrite lookup_insert_ne, Hr by assumption. simpl.
  rewrite (bool_decide_eq_true_2 (a ∈ c_lru c)) by assumption.
  rewrite (bool_decide_eq_true_2 (a ∈ c_age c)) by now rewrite (ok_age _ _ _ H). simpl.
  unfold h2o_cache_release. simpl. rewrite lookup_insert_ne, Hr by assumption. simpl. rewrite wrap64_small by lia.
  destruct (ok_refs _ _ _ H a r Hr) as (H1 & H2 & _). unfold in_cache in H2. rewrite bool_decide_eq_true_2 in H2 by assumption.
  unfold erased, refs_without. destruct (Z.eqb_spec (held a) 0) as [E|E].
  - destruct (Z.eqb_spec (r_refcnt r) 1); [|lia]. rewrite !bool_decide_eq_false_2 by apply not_elem_filter_ne.
    destruct (c_destroy_cb c) eqn:Ed; unfold set_refs, add_destroyed, set_table; simpl; now rewrite ?Ed, delete_insert_ne by auto.
  - destruct (Z.eqb_spec (r_refcnt r) 1); [lia|]. specialize (Hcr a). rewrite wrap64_small by lia.
    replace (r_refcnt r - 1) with (held a) by lia. unfold set_refs, set_table. simpl. now rewrite insert_insert_ne by auto.
Qed.

(** A value is set: the list of entries before the purge. *)
Definition spec_set (k : Z * bytes) (v : value) (now : Z) (l : list entry) : list entry := spec_remove k l ++ [(k, v, now)].

Lemma spec_remove_none k v : Forall (fun e => e.1.1 <> k) v -> spec_remove k v = v.
Proof. rewrite Forall_forall. intros H. apply filter_all. exact H. Qed.

(** The cache to which the new entry is added: the entry of the same key is gone. *)
Lemma set_replaces c held stored now key keyhash v a (k := key_of key keyhash) (q := Ref key k.1 now v false 1) :
  cache_ok c held stored -> countable_refs held -> c_refs c !! a = None -> 0 <= v_len v -> c_size c + v_len v < 2 ^ 64 ->
  exists existed c1, cache_ok c1 held stored /\ c_refs c1 !! a = None /\ c_table c1 !! k = None /\ shrunk c c1 /\ c_size c1 <= c_size c /\
    view c1 = spec_remove k (view c) /\ (existed = true <-> Exists (fun e => e.1.1 = k) (view c)) /\
    h2o_cache_set c now key keyhash v a = (c ← purge (added c1 q a) now; Some (existed, c)).
Proof.
  intros H Hcr Ha Hl Hb. assert (Hqk : ref_key q = k) by reflexivity. pose proof (view_find c held stored k H) as Hfind.
  unfold h2o_cache_set. rewrite Ha. fold k. fold q. cbn [c_table set_refs c_refs]. destruct (c_table c !! k) as [b|] eqn:Et.
  - destruct Hfind as (Hin & r & Hr & Hk & He). exists true, (erased c held b r). rewrite <- Hk.
    rewrite (erase_reuse c held stored a q b r) by assumption. assert (Hab : b <> a) by congruence.
    split; [now apply erased_ok|]. split; [simpl; now rewrite refs_without_ne|]. split; [apply lookup_delete_eq|]. split; [apply erased_shrunk|].
    pose proof (total_member c held stored b r H Hin Hr) as Hm. split; [simpl; lia|]. split; [now apply (erased_view c held stored)|].
    split; [split; [|reflexivity]; intros _; apply Exists_exists; eauto|].
    cbn [mbind option_bind]. unfold added, put_size, set_age, set_lru, set_table, set_refs. simpl.
    rewrite Hqk, <- Hk, insert_delete_eq, wrap64_small by lia. reflexivity.
  - exists false, c. split; [assumption|]. split; [assumption|]. split; [assumption|]. split; [apply shrunk_refl|]. split; [lia|].
    split; [symmetry; now apply spec_remove_none|]. split; [split; [discriminate|]; rewrite Exists_exists; intros (e & He & Hk); rewrite Forall_forall in Hfind; now apply Hfind in He|].
    cbn [mbind option_bind]. unfold added, put_size, set_age, set_lru, set_table, set_refs. simpl.
    rewrite wrap64_small; [reflexivity|]. pose proof (total_nonneg (c_refs c) (c_lru c)) as Hn. rewrite <- (ok_size _ _ _ H) in Hn.
    specialize (Hn ltac:(intros b r Hr; apply (ok_refs _ _ _ H b r Hr))). lia.
Qed.

Lemma set_ok c held stored now key keyhash v a :
  cache_ok c held stored -> countable_refs held -> 0 <= c_capacity c -> c_refs c !! a = None -> 0 <= v_len v -> c_size c + v_len v < 2 ^ 64 ->
  exists existed c', h2o_cache_set c now key keyhash v a = Some (existed, c') /\ c_size c' <= c_capacity c /\
    (existed = true <-> Exists (fun e => e.1.1 = key_of key keyhash) (view c)) /\ cache_ok c' held (v :: stored) /\
    forall clock, aged c clock -> 0 <= clock <= now -> clock_ok c now now ->
      aged c' now /\ view c' = spec_purge (c_capacity c) (c_duration c) now (spec_set (key_of key keyhash) v now (view c)).
Proof.
  intros H Hcr Hcap Ha Hl Hb. set (k := key_of key keyhash). set (q := Ref key k.1 now v false 1).
  destruct (set_replaces c held stored now key keyhash v a H Hcr Ha Hl Hb) as (existed & c1 & H1 & Ha1 & Ht1 & S1 & Z1 & V1 & Hex & E). rewrite E. fold k q in Ht1, V1, Hex |- *.
  pose proof (sk_same _ _ S1) as Hs. injection Hs as Hcp Hdu Hfl Hcb.
  destruct (purge_ok (added c1 q a) held (v :: stored) now) as (c2 & E2 & H2 & S2 & Z2 & V2); [apply (added_ok c1 held stored q a); simpl; try assumption; try reflexivity; lia|assumption|simpl; lia|].
  rewrite E2. simpl. exists existed, c2. split; [reflexivity|]. simpl in Z2. split; [lia|]. split; [assumption|]. split; [assumption|].
  intros clock Hag Hck Hck2. destruct (V2 now) as [Hv Hag2].
  { apply (added_aged c1 held stored q a clock); try assumption; [now apply (aged_shrunk c c1 held stored)|reflexivity]. }
  { unfold clock_ok in *. simpl. now rewrite Hdu. }
  split; [assumption|]. rewrite Hv. simpl. rewrite Hcp, Hdu. f_equal. rewrite (added_view c1 held stored), V1 by assumption. reflexivity.
Qed.

(** ** Deleting and clearing *)

Lemma delete_ok c held stored now key keyhash :
  cache_ok c held stored -> countable_refs held -> 0 <= c_capacity c ->
  exists c', h2o_cache_delete c now key keyhash = Some c' /\ c_size c' <= c_capacity c /\ cache_ok c' held stored /\
    forall clock, aged c clock -> clock_ok c clock now ->
      aged c' clock /\ view c' = spec_remove (key_of key keyhash) (spec_purge (c_capacity c) (c_duration c) now (view c)).
Proof.
  intros H Hcr Hcap. unfold h2o_cache_delete. destruct (purge_ok c held stored now H Hcr Hcap) as (c1 & E1 & H1 & S1 & Z1 & V1).
  rewrite E1. simpl. set (k := key_of key keyhash). pose proof (view_find c1 held stored k H1) as Hfind. destruct (c_table c1 !! k) as [a|] eqn:Et.
  - destruct Hfind as (Ha & r & Hr & Hk & He). rewrite <- Hk, (erase_ref_eq c1 held stored a r) by assumption.
    exists (erased c1 held a r). split; [reflexivity|]. pose proof (total_member c1 held stored a r H1 Ha Hr). split; [simpl; lia|].
    split; [now apply erased_ok|]. intros clock Hag Hck. destruct (V1 clock Hag Hck) as [Hv Hag1].
    split; [apply (aged_shrunk c1 _ held stored); [now apply erased_ok|apply erased_shrunk|assumption]|].
    rewrite <- Hv. now apply (erased_view c1 held stored).
  - exists c1. split; [reflexivity|]. split; [assumption|]. split; [assumption|]. intros clock Hag Hck.
    destruct (V1 clock Hag Hck) as [Hv Hag1]. split; [assumption|]. rewrite <- Hv. symmetry. now apply spec_remove_none.
Qed.

Lemma clear_loop_ok fuel c held stored :
  cache_ok c held stored -> countable_refs held -> (length (c_lru c) <= fuel)%nat ->
  exists c', clear_loop fuel c = Some c' /\ cache_ok c' held stored /\ c_lru c' = [] /\ c_destroy_cb c' = c_destroy_cb c.
Proof.
  intros H Hcr. revert c H. induction fuel as [|fuel IH]; intros c H Hf; cbn [clear_loop].
  all: destruct (c_lru c) as [|a l] eqn:El; simpl in Hf; [exists c; auto|]; [lia||idtac].
  assert (Ha : a ∈ c_lru c) by (rewrite El; left). destruct (ok_lru _ _ _ H a Ha) as [r Hr]. rewrite Hr. simpl.
  rewrite (erase_ref_eq c held stored a r) by assumption. simpl. apply (IH (erased c held a r)); [now apply erased_ok|].
  pose proof (ok_nodup _ _ _ H) as Hnd. rewrite El in Hnd. pose proof (filter_ne_middle a [] l Hnd) as Hfl. simpl in *. rewrite El, Hfl. lia.
Qed.

Lemma clear_ok c held stored :
  cache_ok c held stored -> countable_refs held ->
  exists c', h2o_cache_clear c = Some c' /\ cache_ok c' held stored /\ c_lru c' = [] /\
    (c_destroy_cb c = true -> (forall a, held a = 0) -> c_destroyed c' ≡ₚ stored).
Proof.
  intros H Hcr. unfold h2o_cache_clear. destruct (clear_loop_ok (length (c_lru c)) c held stored H Hcr) as (c' & E & H' & El & Hcb); [lia|].
  rewrite E. simpl. pose proof (ok_size _ _ _ H') as Hs. rewrite El in Hs. simpl in Hs.
  assert (Ht : c_table c' = ∅).
  { apply map_empty. intros k. destruct (c_table c' !! k) as [a|] eqn:Ek; [|reflexivity].
    apply (ok_table _ _ _ H') in Ek as [Ek _]. rewrite El in Ek. now apply elem_of_nil in Ek. }
  rewrite Ht, map_size_empty, bool_decide_eq_true_2, Hs by reflexivity. exists c'. split; [reflexivity|]. split; [assumption|].
  split; [assumption|]. intros Hd Hh. rewrite <- (ok_values _ _ _ H'); [|congruence].
  assert (Hr : c_refs c' = ∅); [|rewrite Hr; unfold values; rewrite map_to_list_empty; now rewrite app_nil_r].
  apply map_empty. intros a. destruct (c_refs c' !! a) as [r|] eqn:Ea; [|reflexivity]. destruct (ok_refs _ _ _ H' a r Ea) as (R1 & R2 & _).
  unfold in_cache in R2. rewrite El, Hh, bool_decide_eq_false_2 in R2 by apply not_elem_of_nil. lia.
Qed.

Lemma create_ok_cache flags capacity duration cb : cache_ok (h2o_cache_create flags capacity duration cb) (fun _ => 0) [].
Proof.
  split; simpl; [constructor|reflexivity| | | | |reflexivity|lia|intros _; unfold values; now rewrite map_to_list_empty].
  - intros k a. rewrite lookup_empty. split; [discriminate|]. intros [H _]. now apply elem_of_nil in H.
  - intros a H. now apply elem_of_nil in H.
  - intros a. lia.
  - intros a r H. now rewrite lookup_empty in H.
Qed.

(** The cache stays consistent.  Whatever references callers hold: every function succeeds (no assertion fails,
    no entry is used after it is freed), the table, the lists, the size and the reference counts stay consistent,
    the values in the cache fit its capacity, and a value is given to [destroy_cb] when neither the cache nor a
    caller refers to it, so that when the cache is cleared and no reference is left every value that was ever set
    has been destroyed, once. *)
Theorem cache_consistent c held stored :
  cache_ok c held stored -> countable_refs held -> 0 <= c_capacity c ->
  (forall now key keyhash, exists o c', h2o_cache_fetch c now key keyhash = Some (o, c') /\ c_size c' <= c_capacity c /\
     cache_ok c' (match o with Some a => hold held a 1 | None => held end) stored) /\
  (forall now key keyhash v a, c_refs c !! a = None -> 0 <= v_len v -> c_size c + v_len v < 2 ^ 64 ->
     exists existed c', h2o_cache_set c now key keyhash v a = Some (existed, c') /\ c_size c' <= c_capacity c /\
       cache_ok c' held (v :: stored)) /\
  (forall now key keyhash, exists c', h2o_cache_delete c now key keyhash = Some c' /\ c_size c' <= c_capacity c /\
     cache_ok c' held stored) /\
  (forall a, 0 < held a -> exists c', h2o_cache_release c a = Some c' /\ cache_ok c' (hold held a (-1)) stored) /\
  (exists c', h2o_cache_clear c = Some c' /\ cache_ok c' held stored /\ c_lru c' = [] /\
     (c_destroy_cb c = true -> (forall a, held a = 0) -> c_destroyed c' ≡ₚ stored)).
Proof.
  intros H Hcr Hcap. split; [|split; [|split; [|split]]].
  - intros now key keyhash. destruct (fetch_ok c held stored now key keyhash H Hcr Hcap) as (o & c' & ? & ? & ? & _). eauto.
  - intros now key keyhash v a Ha Hl Hb. destruct (set_ok c held stored now key keyhash v a H Hcr Hcap Ha Hl Hb) as (e & c' & ? & ? & _ & ? & _). eauto.
  - intros now key keyhash. destruct (delete_ok c held stored now key keyhash H Hcr Hcap) as (c' & ? & ? & ? & _). eauto.
  - intros a Ha. destruct (release_ok c held stored a H Hcr Ha) as (c' & ? & ? & _). eauto.
  - now apply clear_ok.
Qed.

(** C30: the cache is a list in order of use.  While the clock does not go back: setting a value puts its entry at the
    end of the list, in place of the one of the same key, and tells whether there was one; fetching a key gives its
    entry and moves it to the end, unless there is none or, with early updates, the entry is about to expire; deleting
    takes the entry away; each of them first (setting: last) drops entries from the front until the rest fits the
    capacity, and those whose time is over. *)
Theorem cache_refines_lru c held stored clock now key keyhash (k := key_of key keyhash)
    (purged := spec_purge (c_capacity c) (c_duration c) now) :
  cache_ok c held stored -> countable_refs held -> 0 <= c_capacity c -> aged c clock -> 0 <= clock <= now -> clock_ok c now now ->
  (exists o c', h2o_cache_fetch c now key keyhash = Some (o, c') /\ aged c' clock /\
     fetched (c_flags c) (c_duration c) now k (purged (view c)) (a ← o; data <$> c_refs c' !! a) (view c')) /\
  (forall v a, c_refs c !! a = None -> 0 <= v_len v -> c_size c + v_len v < 2 ^ 64 ->
     exists existed c', h2o_cache_set c now key keyhash v a = Some (existed, c') /\ aged c' now /\
       (existed = true <-> Exists (fun e => e.1.1 = k) (view c)) /\
       view c' = purged (spec_remove k (view c) ++ [(k, v, now)])) /\
  (exists c', h2o_cache_delete c now key keyhash = Some c' /\ aged c' clock /\ view c' = spec_remove k (purged (view c))).
Proof.
  intros H Hcr Hcap Hag Hcl Hck. assert (Hck' : clock_ok c clock now) by (unfold clock_ok in *; lia). split; [|split].
  - destruct (fetch_ok c held stored now key keyhash H Hcr Hcap) as (o & c' & E & _ & _ & V). destruct (V clock Hag Hck') as [V1 V2]. eauto.
  - intros v a Ha Hl Hb. destruct (set_ok c held stored now key keyhash v a H Hcr Hcap Ha Hl Hb) as (e & c' & E & _ & He & _ & V).
    destruct (V clock Hag Hcl Hck) as [V1 V2]. exists e, c'. auto.
  - destruct (delete_ok c held stored now key keyhash H Hcr Hcap) as (c' & E & _ & _ & V). destruct (V clock Hag Hck') as [V1 V2]. eauto.
Qed.

(** ** An example *)

(** One value set, and fetched. *)
Definition example_cache : cache :=
  default (h2o_cache_create 0 100 1000 true) (snd <$> h2o_cache_set (h2o_cache_create 0 100 1000 true) 5 [1] 0 (Value 7 60) 1).

Lemma example_cache_ok : cache_ok example_cache (fun _ => 0) [Value 7 60] /\ aged example_cache 5.
Proof.
  destruct (set_ok (h2o_cache_create 0 100 1000 true) (fun _ => 0) [] 5 [1] 0 (Value 7 60) 1) as (e & c' & E & _ & _ & H & V); try reflexivity.
  - apply create_ok_cache.
  - intros a. reflexivity.
  - simpl. lia.
  - simpl. lia.
  - unfold example_cache. rewrite E. simpl. split; [assumption|]. apply (V 0); [|lia|unfold clock_ok; simpl; lia].
    split; [constructor|]. intros a r Ha. now apply elem_of_nil in Ha.
Qed.

Lemma cache_consistent_witness :
  exists existed c' c'', h2o_cache_set example_cache 6 [2] 0 (Value 8 50) 2 = Some (existed, c') /\
    c_size c' <= 100 /\ cache_ok c' (fun _ => 0) [Value 8 50; Value 7 60] /\
    h2o_cache_clear example_cache = Some c'' /\ c_destroyed c'' ≡ₚ [Value 7 60].
Proof.
  destruct example_cache_ok as [H _].
  destruct (cache_consistent example_cache (fun _ => 0) [Value 7 60] H) as (_ & Hs & _ & _ & (c'' & Hc & _ & _ & Hd)).
  - intros a. reflexivity.
  - vm_compute. discriminate.
  - destruct (Hs 6 [2] 0 (Value 8 50) 2%nat) as (e & c' & E & Hz & Hok); [reflexivity|simpl; lia|reflexivity|].
    exists e, c', c''. split; [assumption|]. split; [exact Hz|]. split; [assumption|]. split; [assumption|]. apply Hd; reflexivity.
Defined.

Lemma cache_refines_lru_witness :
  exists existed c', h2o_cache_set example_cache 6 [2] 0 (Value 8 50) 2 = Some (existed, c') /\
    view c' = spec_purge 100 1000 6 (spec_remove (key_of [2] 0) (view example_cache) ++ [(key_of [2] 0, Value 8 50, 6)]) /\
    view c' = [(key_of [2] 0, Value 8 50, 6)].
Proof.
  destruct example_cache_ok as [H Hag].
  destruct (cache_refines_lru example_cache (fun _ => 0) [Value 7 60] 5 6 [2] 0 H) as (_ & Hs & _).
  - intros a. reflexivity.
  - vm_compute. discriminate.
  - assumption.
  - lia.
  - vm_compute. repeat split; discriminate.
  - destruct (Hs (Value 8 50) 2%nat) as (e & c' & E & _ & _ & Hv); [reflexivity|simpl; lia|reflexivity|].
    exists e, c'. split; [assumption|]. split; [exact Hv|]. rewrite Hv. vm_compute. reflexivity.
Defined.

(** ** The memo of pushed paths (lib/http2/connection.c)

    [update_push_memo] remembers the hashes of pushed URLs as keys, with empty values and always at
    time 0. *)

Definition le_bytes4 (x : Z) : bytes := map (fun i => Z.land (Z.shiftr x (8 * Z.of_nat i)) 255) (seq 0 4).

Definition update_push_memo (push_memo : option cache) (scheme authority abspath : bytes) (newref : addr) : option (bool * cache) :=
  let memo := default (h2o_cache_create 0 1024 1 false) push_memo in
  let url_hash := Z.lxor (Z.lxor (h2o_cache_calchash scheme) (h2o_cache_calchash authority)) (h2o_cache_calchash abspath) in
  h2o_cache_set memo 0 (le_bytes4 url_hash) url_hash (Value 0 0) newref.

Lemma empty_values_stay capacity v :
  0 <= capacity -> Forall (fun e : entry => v_len e.1.2 = 0 /\ e.2 = 0) v -> spec_purge capacity 1 0 v = v.
Proof.
  intros Hc Hv. assert (Ht : spec_total v = 0) by (induction Hv as [|e v [He _] _ IH]; simpl; lia). unfold spec_purge.
  assert (He : spec_evict capacity v = v) by (destruct v; [reflexivity|]; cbn [spec_evict]; rewrite Ht; destruct (Z.ltb_spec capacity 0); [lia|reflexivity]).
  rewrite He. apply filter_all. rewrite Forall_forall in Hv. intros e Hin. destruct (Hv e Hin) as [_ ->]. lia.
Qed.

(** Nothing is ever evicted from the memo: the capacity of 1024 bounds the sum of the sizes of the values, which are
    empty, and at time 0 nothing grows old. *)
Theorem push_memo_never_evicts memo held stored scheme authority abspath a :
  cache_ok memo held stored -> countable_refs held -> aged memo 0 -> c_capacity memo = 1024 -> c_duration memo = 1 ->
  Forall (fun e => v_len e.1.2 = 0 /\ e.2 = 0) (view memo) -> c_refs memo !! a = None ->
  exists existed memo' k, update_push_memo (Some memo) scheme authority abspath a = Some (existed, memo') /\
    view memo' = spec_remove k (view memo) ++ [(k, Value 0 0, 0)].
Proof.
  intros H Hcr Hag Hcap Hdur Hv Ha. unfold update_push_memo. simpl default.
  set (h := Z.lxor _ _). destruct (set_ok memo held stored 0 (le_bytes4 h) h (Value 0 0) a H Hcr) as (e & c' & E & _ & _ & _ & V);
    [lia|assumption|simpl; lia|pose proof (ok_bound _ _ _ H); simpl; lia|].
  destruct (V 0 Hag) as [_ V2]; [lia|unfold clock_ok; lia|]. exists e, c', (key_of (le_bytes4 h) h). split; [exact E|]. rewrite V2, Hdur.
  apply empty_values_stay; [lia|]. apply Forall_app. split; [|repeat constructor]. rewrite Forall_forall in *.
  intros x Hx. apply list_elem_of_filter in Hx as [_ Hx]. now apply Hv.
Qed.
