(* ===== verification/Absprio.v ===== *)
(** * Priorities of the extensible scheme (lib/common/absprio.c, include/h2o/absprio.h)

    The field value [u=..., i=...] of RFC 9218, and the weight that stands for an urgency in the dependency tree. *)
From S2P Require Import Prelude Strings.
From Stdlib Require Import ZArith Lia.
From stdpp Require Import base list numbers option strings.
Open Scope Z_scope.

Definition H2O_ABSPRIO_DEFAULT_URGENCY : Z := 3.
Definition H2O_ABSPRIO_NUM_URGENCY_LEVELS : Z := 8.

(** [h2o_absprio_t]; the members are bit fields of three bits and one bit. *)
Record h2o_absprio_t := Absprio { urgency : Z; incremental : bool }.

Definition h2o_absprio_default : h2o_absprio_t := Absprio H2O_ABSPRIO_DEFAULT_URGENCY false.

(** The octets of a value; [None]: NULL. *)
Definition value_octets (s : bytes) (v : token_value) : option bytes :=
  match v with NoValue => None | EmptyValue => Some [] | ValueAt start n => Some (sub s start n) end.

(** What one member of the field changes. *)
Definition absprio_member (token : bytes) (value : option bytes) (prio : h2o_absprio_t) : h2o_absprio_t :=
  match token with
  | [t] =>
      if t =? 117 then
        match value with
        | Some [d] => if (48 <=? d) && (d <=? 48 + H2O_ABSPRIO_NUM_URGENCY_LEVELS - 1) then Absprio (d - 48) (incremental prio) else prio
        | _ => prio
        end
      else if t =? 105 then
        match value with
        | Some [q; d] =>
            if q =? 63 then
              if d =? 48 then Absprio (urgency prio) false
              else if d =? 49 then Absprio (urgency prio) true
              else prio
            else prio
        | Some _ => prio
        | None => Absprio (urgency prio) true
        end
      else prio
  | _ => prio
  end.

(** Every token moves the iterator forward. *)
Fixpoint parse_priority_loop (fuel : nat) (s : bytes) (iter : nat) (prio : h2o_absprio_t) : option h2o_absprio_t :=
  match fuel with
  | O => None
  | S fuel =>
      match h2o_next_token s iter 44 44 true with
      | None => Some prio
      | Some r =>
          parse_priority_loop fuel s (tk_iter r)
            (absprio_member (sub s (tk_start r) (tk_len r)) (value_octets s (tk_value r)) prio)
      end
  end.

Definition h2o_absprio_parse_priority (s : bytes) (prio : h2o_absprio_t) : option h2o_absprio_t :=
  parse_priority_loop (S (length s)) s 0 prio.

(** [None]: the assertion fails.  The code computes with [float]: the products of 255.9f / 7 by whole numbers up to 7 are
    away from whole numbers by a tenth or more, except for zero, so that the cast truncates them as exact quotients. *)
Definition h2o_absprio_urgency_to_chromium_weight (u : Z) : option Z :=
  if u <? H2O_ABSPRIO_NUM_URGENCY_LEVELS
  then Some (2559 * (H2O_ABSPRIO_NUM_URGENCY_LEVELS - 1 - u) / (10 * (H2O_ABSPRIO_NUM_URGENCY_LEVELS - 1)) + 1)
  else None.

Example chromium_weights : h2o_absprio_urgency_to_chromium_weight <$> seqZ 0 9 =
  [Some 256; Some 220; Some 183; Some 147; Some 110; Some 74; Some 37; Some 1; None].
Proof. reflexivity. Qed.

Example absprio_fields :
  h2o_absprio_parse_priority (lit "u=5, i") h2o_absprio_default = Some (Absprio 5 true) /\
  h2o_absprio_parse_priority (lit "i=?0 , u=8, x=1, u=0") (Absprio 3 true) = Some (Absprio 0 false) /\
  h2o_absprio_parse_priority [] h2o_absprio_default = Some h2o_absprio_default.
Proof. vm_compute. done. Qed.

(** ** Properties *)

Definition in_levels (prio : h2o_absprio_t) : Prop := 0 <= urgency prio < H2O_ABSPRIO_NUM_URGENCY_LEVELS.

Lemma absprio_member_ok token value prio : in_levels prio -> in_levels (absprio_member token value prio).
Proof.
  intros H. unfold absprio_member, in_levels in *. change H2O_ABSPRIO_NUM_URGENCY_LEVELS with 8 in *.
  repeat case_match; simpl; auto. match goal with E : _ && _ = true |- _ => apply andb_true_iff in E end. lia.
Qed.

Lemma parse_priority_loop_ok fuel : forall s iter prio,
  (iter <= length s)%nat -> (length s - iter < fuel)%nat -> in_levels prio -> succeeds (parse_priority_loop fuel s iter prio) in_levels.
Proof.
  induction fuel as [|fuel IH]; intros s iter prio Hi Hf Hp; [lia|]. simpl. destruct (h2o_next_token s iter 44 44 true) as [r|] eqn:E.
  - destruct (next_token_progress _ _ _ _ _ _ Hi E) as [H1 _]. apply IH; [lia..|]. by apply absprio_member_ok.
  - by apply succeeds_some.
Qed.

(** The weights of the levels are within those of HTTP/2, and the more urgent level has the larger one. *)
Lemma chromium_weight_ok u : 0 <= u < H2O_ABSPRIO_NUM_URGENCY_LEVELS ->
  succeeds (h2o_absprio_urgency_to_chromium_weight u) (fun w => 1 <= w <= 256 /\
    forall u' w', 0 <= u' < u -> h2o_absprio_urgency_to_chromium_weight u' = Some w' -> w < w').
Proof.
  intros Hu. unfold h2o_absprio_urgency_to_chromium_weight. change H2O_ABSPRIO_NUM_URGENCY_LEVELS with 8 in *.
  rewrite (proj2 (Z.ltb_lt _ _)) by lia. apply succeeds_some. split; [Z.to_euclidean_division_equations; lia|].
  intros u' w' Hu' E. rewrite (proj2 (Z.ltb_lt _ _)) in E by lia. injection E as <-. Z.to_euclidean_division_equations; lia.
Qed.
