(* ===== verification/Http2Priority.v ===== *)
(** * Streams in the dependency tree (lib/http2/connection.c, lib/http2/stream.c)

    How a connection uses its scheduler: where a stream is put when it is opened or given a priority, the streams that are
    remembered after they are closed, and the changes that the server makes on its own.

    The objects of the tree are named by numbers: the node of the connection, the ten cells of [_recently_closed_streams],
    then the streams by their ids.  [None] is a failed assertion. *)
From S2P Require Import Prelude Http2Frame SchedQueue Scheduler Absprio.
From Stdlib Require Import ZArith Lia.
From stdpp Require Import base numbers option strings gmap list.
Open Scope Z_scope.

Definition HTTP2_CLOSED_STREAM_PRIORITIES : nat := 10.

(** [&conn->scheduler], [&conn->_recently_closed_streams.streams\[i\]->_scheduler] and [&stream->_scheduler] *)
Definition conn_node : ref_id := 0.
Definition cell_ref (i : nat) : ref_id := S i.
Definition stream_ref (id : Z) : ref_id := (HTTP2_CLOSED_STREAM_PRIORITIES + Z.to_nat id)%nat.

(** The scheduler, the ids in [conn->streams], [_recently_closed_streams] and [is_chromium_dependency_tree]. *)
Record prio := Prio {
  pr_sched : sched;
  pr_streams : gset Z;
  pr_closed : list (option Z);
  pr_next_slot : nat;
  pr_chromium : bool }.

Definition set_pr_sched (s : sched) (p : prio) : prio := Prio s (pr_streams p) (pr_closed p) (pr_next_slot p) (pr_chromium p).
Definition set_pr_streams (m : gset Z) (p : prio) : prio := Prio (pr_sched p) m (pr_closed p) (pr_next_slot p) (pr_chromium p).
Definition set_pr_chromium (b : bool) (p : prio) : prio := Prio (pr_sched p) (pr_streams p) (pr_closed p) (pr_next_slot p) b.

Definition init_prio : prio :=
  Prio (h2o_http2_scheduler_init conn_node) ∅ (replicate HTTP2_CLOSED_STREAM_PRIORITIES None) 0 true.

(** ** Streams that are closed *)

Definition h2o_http2_conn_preserve_stream_scheduler (p : prio) (id : Z) : option prio :=
  let s := pr_sched p in
  if negb (h2o_http2_scheduler_is_open s (stream_ref id)) then None
  else
    let slot := pr_next_slot p in
    let next_slot := if (S slot =? HTTP2_CLOSED_STREAM_PRIORITIES)%nat then 0%nat else S slot in
    dst ← pr_closed p !! slot;
    s ← match dst with
        | Some _ => if h2o_http2_scheduler_is_open s (cell_ref slot) then h2o_http2_scheduler_close s (cell_ref slot) else None
        | None => Some s
        end;
    s ← h2o_http2_scheduler_relocate s (cell_ref slot) (stream_ref id);
    s ← h2o_http2_scheduler_deactivate s (cell_ref slot);
    Some (Prio s (pr_streams p) (<[slot := Some id]> (pr_closed p)) next_slot (pr_chromium p)).

(** ** Priorities of the client *)

(** The search of [_recently_closed_streams]: the first cell with the id. *)
Definition find_closed (p : prio) (dep : Z) : option nat := fst <$> list_find (fun x => x = Some dep) (pr_closed p).

(** The parent, the priority that takes effect and the flag. *)
Definition determine_parent (p : prio) (id : Z) (priority : h2o_http2_priority_t) : option (ref_id * h2o_http2_priority_t * bool) :=
  let s := pr_sched p in
  let dep := dependency priority in
  let exclusive := negb (exclusive priority =? 0) in
  if negb (dep =? 0) then
    match find_closed p dep with
    | None =>
        if decide (dep ∈ pr_streams p) then Some (stream_ref dep, priority, pr_chromium p)
        else Some (conn_node, h2o_http2_default_priority, pr_chromium p)
    | Some i =>
        if pr_chromium p then
          orig_parent_ref ← s_ref s !! cell_ref i;
          if (r_weight orig_parent_ref <? weight priority) || negb exclusive then Some (cell_ref i, priority, false)
          else if decide (dep ∈ pr_streams p) then
            current_parent ← s_ref s !! stream_ref dep;
            if (r_weight current_parent <? r_weight orig_parent_ref) && exclusive then
              parent ← h2o_http2_scheduler_find_parent_by_weight s conn_node (weight priority);
              Some (if decide (parent = stream_ref id) then stream_ref dep else parent, priority, true)
            else Some (cell_ref i, priority, true)
          else Some (cell_ref i, priority, true)
        else Some (cell_ref i, priority, false)
    end
  else Some (conn_node, priority, pr_chromium p).

(** The check whether the tree looks like Chromium's. *)
Definition looks_chromium (s : sched) (parent : ref_id) (priority : h2o_http2_priority_t) (chromium : bool) : option bool :=
  if negb (exclusive priority =? 0) && chromium then
    n ← s_node s !! parent;
    parent_weight ←
      match n_parent n with
      | Some above =>
          m ← s_node s !! above;
          match n_parent m with
          | Some _ => r ← s_ref s !! above; Some (r_weight r)
          | None => Some 256
          end
      | None => Some 256
      end;
    Some (negb (parent_weight <? weight priority))
  else Some false.

Definition set_priority (p : prio) (id : Z) (priority : h2o_http2_priority_t) (scheduler_is_open : bool) : option prio :=
  '(parent, priority, chromium) ← determine_parent p id priority;
  chromium ← looks_chromium (pr_sched p) parent priority chromium;
  let exclusive := negb (exclusive priority =? 0) in
  s ← (if scheduler_is_open
       then h2o_http2_scheduler_rebind (pr_sched p) (stream_ref id) parent (weight priority) exclusive
       else h2o_http2_scheduler_open (pr_sched p) (stream_ref id) parent (weight priority) exclusive);
  Some (set_pr_chromium chromium (set_pr_sched s p)).

(** A stream that is opened ([handle_headers_frame], [handle_priority_frame]). *)
Definition open_stream (p : prio) (id : Z) (priority : h2o_http2_priority_t) : option prio :=
  set_priority (set_pr_streams ({[id]} ∪ pr_streams p) p) id priority false.

(** A PRIORITY frame for a stream that is there: streams with a weight of 257 stay where the server has put them. *)
Definition reprioritize_stream (p : prio) (id : Z) (priority : h2o_http2_priority_t) : option prio :=
  w ← h2o_http2_scheduler_get_weight (pr_sched p) (stream_ref id);
  if negb (w =? 257) then set_priority p id priority true else Some p.

(** [h2o_http2_conn_unregister_stream] *)
Definition close_stream (p : prio) (id : Z) : option prio :=
  p ← h2o_http2_conn_preserve_stream_scheduler p id;
  Some (set_pr_streams (pr_streams p ∖ {[id]}) p).

(** ** Changes by the server *)

(** The priority header of a response, when the tree is Chromium's ([send_headers]). *)
Definition absprio_reprioritize (p : prio) (id : Z) (header_value : bytes) : option prio :=
  let s := pr_sched p in
  if pr_chromium p then
    prio ← h2o_absprio_parse_priority header_value h2o_absprio_default;
    new_weight ← h2o_absprio_urgency_to_chromium_weight (urgency prio);
    new_parent ← h2o_http2_scheduler_find_parent_by_weight s conn_node new_weight;
    parent ← h2o_http2_scheduler_get_parent s (stream_ref id);
    new_parent ← (if decide (new_parent = stream_ref id) then parent else Some new_parent);
    w ← h2o_http2_scheduler_get_weight s (stream_ref id);
    if negb (bool_decide (parent = Some new_parent)) || negb (new_weight =? w) then
      p ← h2o_http2_conn_preserve_stream_scheduler p id;
      s ← h2o_http2_scheduler_open (pr_sched p) (stream_ref id) new_parent new_weight true;
      Some (set_pr_sched s p)
    else Some p
  else Some p.

(** A blocking asset is sent before everything else ([send_headers]). *)
Definition raise_stream (p : prio) (id : Z) : option prio :=
  s ← h2o_http2_scheduler_rebind (pr_sched p) (stream_ref id) conn_node 257 false;
  Some (set_pr_sched s p).

(** A stream that is pushed ([push_path]). *)
Definition push_stream (p : prio) (id src : Z) (is_critical : bool) : option prio :=
  let p := set_pr_streams ({[id]} ∪ pr_streams p) p in
  s ← (if is_critical then h2o_http2_scheduler_open (pr_sched p) (stream_ref id) conn_node 257 false
       else h2o_http2_scheduler_open (pr_sched p) (stream_ref id) (stream_ref src) 16 false);
  Some (set_pr_sched s p).

(** ** The end *)

(** The loop over the cells in [close_connection_now]; it ends at the first that is NULL. *)
Fixpoint close_cells (s : sched) (i : nat) (cells : list (option Z)) : option sched :=
  match cells with
  | [] => Some s
  | None :: _ => Some s
  | Some _ :: cells =>
      if h2o_http2_scheduler_is_open s (cell_ref i) then s ← h2o_http2_scheduler_close s (cell_ref i); close_cells s (S i) cells
      else None
  end.

(** The id that the log shows for the parent of a stream; 0 for the connection. *)
Definition get_parent_stream_id (p : prio) (id : Z) : option Z :=
  parent ← h2o_http2_scheduler_get_parent (pr_sched p) (stream_ref id);
  parent ← parent;
  if decide (parent = conn_node) then Some 0
  else if (parent <=? HTTP2_CLOSED_STREAM_PRIORITIES)%nat then id ← pr_closed p !! pred parent; id
  else Some (Z.of_nat (parent - HTTP2_CLOSED_STREAM_PRIORITIES)).
