(* ===== verification/Http2PriorityOk.v ===== *)
(** * The tree of a connection stays consistent

    Whatever priorities the client sends and whatever the server changes, the operations of [Http2Priority] end without a
    failed assertion, streams are where they are asked to be, and the streams closed last are remembered. *)
From S2P Require Import Prelude Strings Http2Frame SchedQueue Scheduler SchedulerInv SchedulerMove SchedulerOpen SchedulerRelocate Absprio Http2Priority.
From Stdlib Require Import ZArith Lia.
From stdpp Require Import base numbers option strings gmap list.
Open Scope Z_scope.

Abbreviation sched_ok := (SchedulerInv.sched_ok conn_node).

(** ** Names *)

Lemma stream_ref_large id : 0 < id -> (HTTP2_CLOSED_STREAM_PRIORITIES < stream_ref id)%nat.
Proof. unfold stream_ref. lia. Qed.

Lemma stream_ref_inj id id' : 0 < id -> 0 < id' -> stream_ref id = stream_ref id' -> id = id'.
Proof. unfold stream_ref. lia. Qed.

Lemma stream_not_cell id i : 0 < id -> (i < HTTP2_CLOSED_STREAM_PRIORITIES)%nat -> stream_ref id <> cell_ref i.
Proof. unfold stream_ref, cell_ref. lia. Qed.

Lemma stream_not_root id : stream_ref id <> conn_node.
Proof. unfold stream_ref, conn_node. simpl. lia. Qed.

(** ** The scheduler *)

Lemma ref_iff s c : sched_ok s -> is_Some (s_ref s !! c) <-> is_Some (parent_of s c).
Proof. intros [[Ht _ _] _]. apply (t_par _ _ _ Ht). Qed.

Lemma ref_node s c : sched_ok s -> is_Some (s_ref s !! c) -> is_Some (s_node s !! c).
Proof. intros Hs Hc. destruct (ref_parent _ s c Hs Hc) as (_ & _ & _ & _ & _ & _ & _ & H). done. Qed.

Lemma node_ref s c : sched_ok s -> is_Some (s_node s !! c) -> c <> conn_node -> is_Some (s_ref s !! c).
Proof. intros [[Ht _ _] _] Hc Hne. by apply (t_dom _ _ _ Ht). Qed.

(** A dependent is one level below. *)
Lemma kid_chain s p c k : sched_ok s -> chain conn_node s (parent_of s) nowhere p k -> c ∈ kids s p -> chain conn_node s (parent_of s) nowhere c (S k).
Proof.
  intros Hs Hk Hc. destruct (kid_ref _ s p c Hs Hc) as [_ Hp]. eapply chain_up; [exact Hp|exact Hp|by intros []|exact Hk].
Qed.

Lemma find_parent_loop_ok fuel : forall s i k w,
  sched_ok s -> chain conn_node s (parent_of s) nowhere i k -> (size (s_node s) <= k + fuel)%nat ->
  succeeds (find_parent_loop fuel s i w) (fun j => is_Some (s_node s !! j)).
Proof.
  induction fuel as [|fuel IH]; intros s i k w Hs Hk Hf;
    pose proof (chain_fuel _ _ _ _ _ _ (sched_ok_root _ _ Hs) (root_node _ _ Hs) Hk); [lia|].
  destruct (chain_node _ _ _ _ _ _ (root_node _ _ Hs) Hk) as [n Hn]. simpl. rewrite Hn. cbn [mbind option_bind].
  destruct (n_all_refs n) as [|c l] eqn:El; [apply succeeds_some; by rewrite Hn|].
  assert (Hc : c ∈ kids s i) by (rewrite <- (kids_lookup _ _ _ Hn), El; by left). destruct (kid_ref _ s i c Hs Hc) as [[r Hr] _]. rewrite Hr. cbn [mbind option_bind].
  destruct (_ && _); [apply succeeds_some; by rewrite Hn|]. apply (IH s c (S k)); [done|by eapply kid_chain|lia].
Qed.

Lemma find_parent_ok s w : sched_ok s -> succeeds (h2o_http2_scheduler_find_parent_by_weight s conn_node w) (fun j => is_Some (s_node s !! j)).
Proof. intros Hs. apply (find_parent_loop_ok _ s conn_node 0); [done|constructor|lia]. Qed.

(** ** The invariant *)

(** The objects in the tree: the streams of the connection and the cells in use. *)
Definition in_tree (p : prio) (ref : ref_id) : Prop :=
  (exists id, id ∈ pr_streams p /\ ref = stream_ref id) \/ (exists i id, pr_closed p !! i = Some (Some id) /\ ref = cell_ref i).

(** [h]: the streams that were preserved, in order; the cells hold the last ten of them. *)
Record ring_ok (h : list Z) (p : prio) : Prop := {
  rg_cells : length (pr_closed p) = HTTP2_CLOSED_STREAM_PRIORITIES;
  rg_slot : pr_next_slot p = (length h mod HTTP2_CLOSED_STREAM_PRIORITIES)%nat;
  rg_last j id : h !! j = Some id -> (length h <= j + HTTP2_CLOSED_STREAM_PRIORITIES)%nat ->
    pr_closed p !! (j mod HTTP2_CLOSED_STREAM_PRIORITIES)%nat = Some (Some id);
  rg_empty i : pr_closed p !! i = Some None <-> (length h <= i < HTTP2_CLOSED_STREAM_PRIORITIES)%nat }.

Record prio_ok (h : list Z) (p : prio) : Prop := {
  po_sched : sched_ok (pr_sched p);
  po_refs ref : is_Some (s_ref (pr_sched p) !! ref) <-> in_tree p ref;
  po_streams id : id ∈ pr_streams p -> 0 < id;
  po_ring : ring_ok h p }.

Lemma init_prio_ok : prio_ok [] init_prio.
Proof.
  constructor; [apply init_ok| |set_solver|].
  - intros ref. simpl. rewrite lookup_empty. split; [by intros []|]. intros [(id & H & _)|(i & id & H & _)]; [set_solver|].
    apply lookup_replicate in H as [? _]. done.
  - constructor; [done..|]. intros i. change (pr_closed init_prio) with (replicate HTTP2_CLOSED_STREAM_PRIORITIES (None : option Z)).
    rewrite lookup_replicate. simpl. split; [lia|split; [done|lia]].
Qed.

(** ** A stream is preserved *)

Lemma in_tree_cell p i id : pr_closed p !! i = Some (Some id) -> in_tree p (cell_ref i).
Proof. intros H. right. eauto. Qed.
Lemma in_tree_stream p id : id ∈ pr_streams p -> in_tree p (stream_ref id).
Proof. intros H. left. eauto. Qed.

Lemma cell_bound h p i x : ring_ok h p -> pr_closed p !! i = Some x -> (i < HTTP2_CLOSED_STREAM_PRIORITIES)%nat.
Proof. intros Hr Hi. rewrite <- (rg_cells _ _ Hr). by eapply lookup_lt_Some. Qed.

(** Few enough objects for the weights to be added up. *)
Definition few (p : prio) : Prop := Z.of_nat (size (pr_streams p)) <= 2 ^ 23.

Lemma few_kids h p x : prio_ok h p -> few p -> 257 * len (kids (pr_sched p) x) < 2 ^ 32.
Proof.
  intros [Hs Hr Hpos Hring] Hf. set (l := (stream_ref <$> elements (pr_streams p)) ++ (cell_ref <$> seq 0 HTTP2_CLOSED_STREAM_PRIORITIES)).
  assert (Hsub : kids (pr_sched p) x ⊆+ l).
  { apply NoDup_submseteq; [by apply (kids_nodup conn_node)|]. intros c Hc. apply (kid_ref _ _ _ _ Hs) in Hc as [Hc _].
    apply Hr in Hc as [(id & Hid & ->)|(i & id & Hid & ->)]; apply elem_of_app; [left|right]; apply list_elem_of_fmap; eexists; (split; [done|]).
    - by apply elem_of_elements.
    - apply elem_of_seq. pose proof (cell_bound _ _ _ _ Hring Hid). lia. }
  apply submseteq_length in Hsub. unfold l in Hsub. rewrite length_app, !length_fmap, length_seq in Hsub.
  unfold few, size, set_size in Hf. simpl in Hf. unfold len, HTTP2_CLOSED_STREAM_PRIORITIES in *. lia.
Qed.

(** The cell that is written next is made free. *)
Lemma free_cell h p dst :
  prio_ok h p -> few p -> pr_closed p !! pr_next_slot p = Some dst ->
  succeeds (match dst with
            | Some _ => if h2o_http2_scheduler_is_open (pr_sched p) (cell_ref (pr_next_slot p)) then h2o_http2_scheduler_close (pr_sched p) (cell_ref (pr_next_slot p)) else None
            | None => Some (pr_sched p)
            end)
    (fun s => sched_ok s /\ s_node s !! cell_ref (pr_next_slot p) = None /\
      forall i, i <> cell_ref (pr_next_slot p) -> is_Some (s_ref s !! i) <-> is_Some (s_ref (pr_sched p) !! i)).
Proof.
  intros Hp Hf Hd. pose proof Hp as [Hs Hr _ Hring]. pose proof (cell_bound _ _ _ _ Hring Hd) as Hb. set (c := cell_ref (pr_next_slot p)). destruct dst as [id|].
  - assert (Hc : is_Some (s_ref (pr_sched p) !! c)) by (apply Hr; by eapply in_tree_cell). rewrite (is_open_ok _ _ _ Hs Hc).
    destruct (close_ok conn_node (pr_sched p) c Hs Hc (few_kids h p c Hp Hf)) as (s' & -> & Hs' & Hgone & Hpar). apply succeeds_some. split_and!; auto.
    intros i Hi. rewrite !ref_iff, Hpar by done. case_decide as E; [|done]. rewrite E. split; [by eexists|]. intros _. by apply ref_iff.
  - apply succeeds_some. split_and!; auto. destruct (s_node (pr_sched p) !! c) eqn:E; [|done]. exfalso.
    destruct (node_ref (pr_sched p) c Hs ltac:(by rewrite E) ltac:(done)) as [r Hrr]. destruct (proj1 (Hr c) ltac:(by rewrite Hrr)) as [(id & Hid & Hc)|(i & id & Hid & Hc)].
    + apply (stream_not_cell id (pr_next_slot p)); [|done|done]. by apply (po_streams _ _ Hp).
    + injection Hc as <-. congruence.
Qed.

#[local] Ltac mods := unfold HTTP2_CLOSED_STREAM_PRIORITIES in *; repeat match goal with
  | |- context [(?a mod 10)%nat] => let H := fresh in pose proof (Nat.div_mod_eq a 10) as H; pose proof (Nat.mod_upper_bound a 10 ltac:(lia)); generalize dependent (a mod 10)%nat; generalize (a / 10)%nat; intros
  | H : context [(?a mod 10)%nat] |- _ => let H := fresh in pose proof (Nat.div_mod_eq a 10) as H; pose proof (Nat.mod_upper_bound a 10 ltac:(lia)); generalize dependent (a mod 10)%nat; generalize (a / 10)%nat; intros
  end.

Lemma mod_next n : ((if S (n mod 10) =? 10 then 0 else S (n mod 10)) = (n + 1) mod 10)%nat.
Proof. destruct (Nat.eqb_spec (S (n mod 10)) 10); mods; lia. Qed.

Lemma mod_differ j n : (j < n -> n < j + 10 -> j mod 10 <> n mod 10)%nat.
Proof. mods. lia. Qed.

Lemma ring_add h p s m id ch :
  ring_ok h p ->
  ring_ok (h ++ [id]) (Prio s m (<[pr_next_slot p := Some id]> (pr_closed p))
    (if (S (pr_next_slot p) =? HTTP2_CLOSED_STREAM_PRIORITIES)%nat then 0%nat else S (pr_next_slot p)) ch).
Proof.
  intros [Hc Hn Hl He]. unfold HTTP2_CLOSED_STREAM_PRIORITIES in *. rewrite Hn. pose proof (Nat.mod_upper_bound (length h) 10 ltac:(lia)) as Hb.
  constructor; simpl; unfold HTTP2_CLOSED_STREAM_PRIORITIES; rewrite ?length_app; cbn [length].
  - by rewrite length_insert.
  - apply mod_next.
  - intros j x Hj Hle. destruct (decide (j < length h)%nat) as [Hlt|Hge].
    + rewrite lookup_app_l in Hj by done. rewrite list_lookup_insert_ne by (apply not_eq_sym, mod_differ; lia). apply Hl; [done|lia].
    + rewrite lookup_app_r in Hj by lia. apply list_lookup_singleton_Some in Hj as [Hj <-]. assert (j = length h) as -> by lia.
      apply list_lookup_insert_eq. lia.
  - intros i. destruct (decide (i = length h mod 10)%nat) as [->|Hne].
    + rewrite list_lookup_insert_eq by lia. split; [done|]. intros [H _]. rewrite Nat.mod_small in H; [lia|]. destruct (decide (length h < 10)%nat); [done|]. mods; lia.
    + rewrite list_lookup_insert_ne by done. rewrite He. split; [|lia]. intros [H1 H2]. split; [|done].
      destruct (decide (i = length h)) as [->|]; [|lia]. by rewrite Nat.mod_small in Hne.
Qed.

(** What is in the tree when the stream [id] has become the cell of its own. *)
Lemma in_tree_preserved h p s id ch n ref :
  prio_ok h p -> id ∈ pr_streams p ->
  in_tree (Prio s (pr_streams p ∖ {[id]}) (<[pr_next_slot p := Some id]> (pr_closed p)) n ch) ref <->
  ref = cell_ref (pr_next_slot p) \/ ref <> stream_ref id /\ ref <> cell_ref (pr_next_slot p) /\ in_tree p ref.
Proof.
  intros [_ _ Hpos Hring] Hid. assert (Hb : (pr_next_slot p < length (pr_closed p))%nat).
  { rewrite (rg_slot _ _ Hring), (rg_cells _ _ Hring). by apply Nat.mod_upper_bound. }
  rewrite (rg_cells _ _ Hring) in Hb. unfold in_tree. simpl. split.
  - intros [(x & Hx & ->)|(i & x & Hx & ->)].
    + right. apply elem_of_difference in Hx as [Hx Hne]. apply not_elem_of_singleton in Hne. pose proof (Hpos _ Hx). pose proof (Hpos _ Hid). split_and!.
      * intros E%stream_ref_inj; done.
      * by apply stream_not_cell.
      * left. eauto.
    + destruct (decide (i = pr_next_slot p)) as [->|Hne]; [by left|]. rewrite list_lookup_insert_ne in Hx by done. right. split_and!.
      * apply not_eq_sym, stream_not_cell; [by apply Hpos|by eapply cell_bound].
      * unfold cell_ref. congruence.
      * right. eauto.
  - intros [->|(H1 & H2 & [(x & Hx & ->)|(i & x & Hx & ->)])].
    + right. exists (pr_next_slot p), id. split; [|done]. apply list_lookup_insert_eq. by rewrite (rg_cells _ _ Hring).
    + left. exists x. split; [|done]. apply elem_of_difference. split; [done|]. apply not_elem_of_singleton. congruence.
    + right. exists i, x. split; [|done]. rewrite list_lookup_insert_ne; [done|]. intros E. by rewrite E in H2.
Qed.

Lemma new_name_refs src dst s s' ref :
  sched_ok s -> sched_ok s' -> renamed conn_node (new_name src dst) s s' -> src <> conn_node -> dst <> conn_node -> s_node s !! dst = None ->
  is_Some (s_ref s !! src) -> is_Some (s_ref s' !! ref) <-> ref = dst \/ ref <> src /\ is_Some (s_ref s !! ref).
Proof.
  intros Hs Hs' R Hsr Hdr Hdst Hsrc. assert (Hne : src <> dst) by (intros ->; apply (ref_node _ _ Hs) in Hsrc; rewrite Hdst in Hsrc; by destruct Hsrc).
  split.
  - intros Hr. pose proof (rn_ref_node _ _ _ _ R ref Hr) as Hn. apply (rn_node _ _ _ _ R) in Hn as (i & Hi & ->). unfold new_name in *. case_decide as E; [by left|].
    right. split; [done|]. apply (node_ref s i Hs Hi). intros ->. destruct (so_inv _ _ Hs') as [Ht _ _]. destruct (t_root _ _ _ Ht) as (_ & _ & H). rewrite H in Hr. by destruct Hr.
  - intros Hr. assert (Hn : exists i, is_Some (s_node s !! i) /\ ref = new_name src dst i /\ i <> conn_node).
    { destruct Hr as [->|[H1 H2]]; [exists src|exists ref]; unfold new_name; (split; [by apply ref_node|]).
      - by rewrite decide_True.
      - rewrite decide_False by done. split; [done|]. intros ->. destruct (so_inv _ _ Hs) as [Ht _ _]. destruct (t_root _ _ _ Ht) as (_ & _ & H). rewrite H in H2. by destruct H2. }
    destruct Hn as (i & Hi & -> & Hir). apply node_ref; [done| |unfold new_name; case_decide; congruence]. apply (rn_node _ _ _ _ R). eauto.
Qed.

(** The state after the stream has become a cell: without the stream, everything is in order. *)
Definition without (id : Z) (p : prio) : prio := set_pr_streams (pr_streams p ∖ {[id]}) p.

Lemma preserve_ok h p id :
  prio_ok h p -> few p -> id ∈ pr_streams p ->
  succeeds (h2o_http2_conn_preserve_stream_scheduler p id) (fun p' =>
    prio_ok (h ++ [id]) (without id p') /\ pr_streams p' = pr_streams p /\ pr_chromium p' = pr_chromium p /\ s_node (pr_sched p') !! stream_ref id = None /\
    (forall ref, is_Some (s_node (pr_sched p) !! ref) -> ref <> stream_ref id -> is_Some (s_node (pr_sched p') !! ref))).
Proof.
  intros Hp Hf Hid. pose proof Hp as [Hs Hr Hpos Hring]. unfold h2o_http2_conn_preserve_stream_scheduler.
  assert (Hopen : is_Some (s_ref (pr_sched p) !! stream_ref id)) by (by apply Hr, in_tree_stream). rewrite (is_open_ok _ _ _ Hs Hopen). cbn [negb].
  assert (Hb : (pr_next_slot p < HTTP2_CLOSED_STREAM_PRIORITIES)%nat) by (rewrite (rg_slot _ _ Hring); by apply Nat.mod_upper_bound).
  destruct (lookup_lt_is_Some_2 (pr_closed p) (pr_next_slot p)) as [dst Hd]; [by rewrite (rg_cells _ _ Hring)|]. rewrite Hd. cbn [mbind option_bind].
  destruct (free_cell h p dst Hp Hf Hd) as (s1 & -> & Hs1 & Hfree & Hr1). cbn [mbind option_bind]. set (c := cell_ref (pr_next_slot p)) in *.
  pose proof (stream_not_cell id (pr_next_slot p) (Hpos _ Hid) Hb) as Hsc. fold c in Hsc. apply (Hr1 _ Hsc) in Hopen.
  destruct (relocate_ok conn_node s1 c (stream_ref id) Hs1 Hopen Hfree) as (s2 & -> & Hs2 & R). cbn [mbind option_bind].
  pose proof (fun ref => new_name_refs _ _ _ _ ref Hs1 Hs2 R (stream_not_root id) ltac:(done) Hfree Hopen) as Hr2.
  destruct (deactivate_preserves conn_node s2 c Hs2 ltac:(apply Hr2; by left)) as (s3 & -> & Hs3 & Hpar). cbn [mbind option_bind].
  assert (Hr3 : forall ref, is_Some (s_ref s3 !! ref) <-> ref = c \/ ref <> stream_ref id /\ is_Some (s_ref s1 !! ref)).
  { intros ref. rewrite <- Hr2, !ref_iff, Hpar by done. done. }
  assert (Hgone : s_node s3 !! stream_ref id = None).
  { destruct (s_node s3 !! stream_ref id) eqn:E; [|done]. exfalso. destruct (proj1 (Hr3 (stream_ref id)) (node_ref s3 _ Hs3 ltac:(by rewrite E) (stream_not_root id))); naive_solver. }
  apply succeeds_some. simpl. split_and!; auto.
  - constructor; simpl; [done| |set_solver|by apply ring_add]. intros ref. rewrite Hr3. etransitivity; [|symmetry; apply (in_tree_preserved h p s3 id _ _ ref Hp Hid)]. fold c.
    rewrite <- Hr. destruct (decide (ref = c)) as [->|Hne]; [naive_solver|]. rewrite (Hr1 _ Hne). naive_solver.
  - intros ref Hn Hne. destruct (decide (ref = conn_node)) as [->|Hnr]; [by apply (root_node conn_node)|]. apply (ref_node _ _ Hs3), Hr3.
    destruct (decide (ref = c)) as [|Hc]; [by left|]. right. split; [done|]. apply Hr1; [done|]. by apply node_ref.
Qed.

(** ** Priorities *)

(** What the frames carry. *)
Definition priority_ok (id : Z) (priority : h2o_http2_priority_t) : Prop :=
  1 <= weight priority <= 257 /\ dependency priority <> id.

Lemma find_closed_some p dep i : find_closed p dep = Some i -> pr_closed p !! i = Some (Some dep).
Proof. unfold find_closed. intros ([j x] & H & ->)%fmap_Some. apply list_find_Some in H as (? & -> & _). done. Qed.

Lemma find_closed_none p dep i : find_closed p dep = None -> pr_closed p !! i <> Some (Some dep).
Proof.
  unfold find_closed. intros H%fmap_None Hi. apply list_find_None in H. rewrite Forall_lookup in H. by apply (H i _ Hi).
Qed.

#[local] Ltac parts := simpl; split_and!; (done || lia).

(** The parent is there, and is not the stream. *)
Lemma determine_parent_ok h p id priority :
  prio_ok h p -> 0 < id -> priority_ok id priority ->
  succeeds (determine_parent p id priority) (fun r =>
    is_Some (s_node (pr_sched p) !! r.1.1) /\ r.1.1 <> stream_ref id /\ 1 <= weight r.1.2 <= 257).
Proof.
  intros [Hs Hr Hpos Hring] Hid [Hw Hdep]. unfold determine_parent. pose proof (root_node _ _ Hs) as Hroot. pose proof (stream_not_root id) as Hnr.
  assert (Hstream : forall d, d ∈ pr_streams p -> d <> id -> is_Some (s_ref (pr_sched p) !! stream_ref d) /\ stream_ref d <> stream_ref id).
  { intros d Hd Hne. split; [by apply Hr, in_tree_stream|]. intros E. apply Hne. apply stream_ref_inj; auto. }
  destruct (Z.eqb_spec (dependency priority) 0) as [|Hd0]; cbn [negb]; [apply succeeds_some; parts|].
  destruct (find_closed p (dependency priority)) as [i|] eqn:Ef.
  2:{ case_decide as Hd; apply succeeds_some; simpl; [|parts]. destruct (Hstream _ Hd Hdep) as [H1 H2]. split_and!; [by apply ref_node|done|lia..]. }
  apply find_closed_some in Ef. pose proof (cell_bound _ _ _ _ Hring Ef) as Hb.
  assert (Hcell : is_Some (s_ref (pr_sched p) !! cell_ref i)) by (by eapply Hr, in_tree_cell).
  assert (Hc : is_Some (s_node (pr_sched p) !! cell_ref i) /\ cell_ref i <> stream_ref id) by (split; [by apply ref_node|by apply not_eq_sym, stream_not_cell]).
  destruct Hc as [Hc1 Hc2]. destruct (pr_chromium p); [|apply succeeds_some; parts]. destruct Hcell as [orig ->]. cbn [mbind option_bind].
  destruct (_ || _); [apply succeeds_some; parts|]. case_decide as Hd; [|apply succeeds_some; parts].
  destruct (Hstream _ Hd Hdep) as [Hcur Hne]. pose proof (ref_node _ _ Hs Hcur) as Hcn. destruct Hcur as [cur ->]. cbn [mbind option_bind].
  destruct (_ && _); [|apply succeeds_some; parts]. eapply succeeds_bind; [by apply find_parent_ok|]. intros j Hj.
  apply succeeds_some. simpl. case_decide; parts.
Qed.

Lemma looks_chromium_ok s parent priority ch :
  sched_ok s -> is_Some (s_node s !! parent) -> is_Some (looks_chromium s parent priority ch).
Proof.
  intros Hs [n Hn]. unfold looks_chromium. destruct (_ && _); [|by eexists]. rewrite Hn. cbn [mbind option_bind].
  destruct (n_parent n) as [above|] eqn:En; [|by eexists]. pose proof (so_inv _ _ Hs) as [Ht _ _].
  assert (Hp : parent_of s parent = Some above) by (unfold parent_of; by rewrite Hn). destruct (t_par_node _ _ _ Ht _ _ Hp) as [m Hm]. rewrite Hm. cbn [mbind option_bind].
  destruct (n_parent m) as [up|] eqn:Em; [|by eexists]. assert (Hu : is_Some (s_ref s !! above)) by (apply ref_iff; [done|]; unfold parent_of; rewrite Hm; simpl; by rewrite Em).
  destruct Hu as [r ->]. by eexists.
Qed.

(** Only the scheduler of [p] has changed, and has the same objects. *)
Lemma same_objects h p s : prio_ok h p -> sched_ok s -> (forall ref, is_Some (s_ref s !! ref) <-> is_Some (s_ref (pr_sched p) !! ref)) -> prio_ok h (set_pr_sched s p).
Proof. intros [Hs Hr Hpos [R1 R2 R3 R4]] Hs' H. constructor; [done| |done|by constructor]. intros ref. simpl. rewrite H. apply Hr. Qed.

Lemma chromium_ok h p b : prio_ok h p -> prio_ok h (set_pr_chromium b p).
Proof. intros [Hs Hr Hpos [R1 R2 R3 R4]]. by constructor; [done|apply Hr|done|constructor]. Qed.

(** Where the stream is afterwards. *)
Definition placed (s : sched) (id : Z) (parent : ref_id) (priority : h2o_http2_priority_t) : Prop :=
  parent_of s (stream_ref id) = Some parent /\ h2o_http2_scheduler_get_weight s (stream_ref id) = Some (weight priority) /\
  (exclusive priority <> 0 -> kids s parent = [stream_ref id]).

Lemma shape_weight s (m : gmap ref_id openref) c w : ref_shape <$> s_ref s = ref_shape <$> m -> r_weight <$> m !! c = Some w -> h2o_http2_scheduler_get_weight s c = Some w.
Proof.
  intros H Hw. apply (f_equal (fun m => m !! c)) in H. rewrite !lookup_fmap in H. unfold h2o_http2_scheduler_get_weight.
  destruct (m !! c) as [r|]; [|done]. injection Hw as <-. destruct (s_ref s !! c) as [r'|]; [|done]. simpl in *. injection H as H1 _ _. by rewrite H1.
Qed.

Lemma exclusive_bool priority : negb (exclusive priority =? 0) = true <-> exclusive priority <> 0.
Proof. destruct (Z.eqb_spec (exclusive priority) 0); simpl; naive_solver. Qed.

Lemma rebind_placed h p id parent priority :
  prio_ok h p -> id ∈ pr_streams p -> is_Some (s_node (pr_sched p) !! parent) -> parent <> stream_ref id -> 1 <= weight priority <= 257 ->
  succeeds (h2o_http2_scheduler_rebind (pr_sched p) (stream_ref id) parent (weight priority) (negb (exclusive priority =? 0)))
    (fun s => prio_ok h (set_pr_sched s p) /\ placed s id parent priority).
Proof.
  intros Hp Hid Hn Hne Hw. pose proof Hp as [Hs Hr _ _]. assert (Hi : is_Some (s_ref (pr_sched p) !! stream_ref id)) by (by apply Hr, in_tree_stream).
  destruct (rebind_ok conn_node (pr_sched p) (stream_ref id) parent (weight priority) (negb (exclusive priority =? 0)) Hs Hi Hn (not_eq_sym Hne) Hw)
    as (s' & -> & Hs' & Hrb & Hpar & Hk). apply succeeds_some. split; [apply same_objects; [done..|]; intros ref; by apply (rebound_ref _ _ _ _ _ Hrb)|].
  split_and!; [done| |intros He%exclusive_bool; by apply Hk]. eapply shape_weight; [apply (rb_ref _ _ _ _ Hrb)|]. simpl. rewrite lookup_alter_eq. destruct Hi as [r ->]. done.
Qed.

Lemma open_placed h p id parent priority :
  prio_ok h p -> 0 < id -> id ∉ pr_streams p -> is_Some (s_node (pr_sched p) !! parent) -> 1 <= weight priority <= 257 ->
  succeeds (h2o_http2_scheduler_open (pr_sched p) (stream_ref id) parent (weight priority) (negb (exclusive priority =? 0)))
    (fun s => prio_ok h (set_pr_sched s (set_pr_streams ({[id]} ∪ pr_streams p) p)) /\ placed s id parent priority).
Proof.
  intros Hp Hpos' Hid Hn Hw. pose proof Hp as [Hs Hr Hpos [R1 R2 R3 R4]].
  assert (Hnot : ~ in_tree p (stream_ref id)).
  { intros [(x & Hx & E)|(i & x & Hx & E)]; [apply stream_ref_inj in E; [congruence|done|by apply Hpos]|].
    apply stream_not_cell in E; [done|done|]. rewrite <- R1. by eapply lookup_lt_Some. }
  assert (Hfree : s_node (pr_sched p) !! stream_ref id = None).
  { destruct (s_node (pr_sched p) !! stream_ref id) eqn:E; [|done]. exfalso. apply Hnot, Hr. apply node_ref; [done|by rewrite E|apply stream_not_root]. }
  destruct (open_ok conn_node (pr_sched p) (stream_ref id) parent (weight priority) (negb (exclusive priority =? 0)) Hs Hfree Hn Hw) as (s' & -> & Hs' & Hpar & Hk & Hsh).
  apply succeeds_some. split.
  - constructor; simpl; [done| |set_solver|by constructor]. intros ref. rewrite (shape_is_ref (Sched ∅ (<[stream_ref id := OpenRef (weight priority) 0 false 0 false]> (s_ref (pr_sched p)))) s' ref Hsh). simpl. rewrite lookup_insert_is_Some, Hr. unfold in_tree. simpl. split.
    + intros [<-|[_ [(x & Hx & ->)|H]]]; [left; exists id; set_solver|left; exists x; set_solver|by right].
    + intros [(x & Hx & ->)|H]; [destruct (decide (x = id)) as [->|]; [by left|]|]; right.
      * assert (x ∈ pr_streams p) by set_solver. split; [|left; eauto]. intros E%stream_ref_inj; auto.
      * split; [intros <-; apply Hnot; by right|by right].
  - split_and!; [done| |intros He%exclusive_bool; by apply Hk]. eapply shape_weight; [exact Hsh|]. by rewrite lookup_insert_eq.
Qed.

(** What a change of priority does. *)
Definition prioritized_as (h : list Z) (p : prio) (id : Z) (priority : h2o_http2_priority_t) (p' : prio) : Prop :=
  prio_ok h p' /\ pr_closed p' = pr_closed p /\ pr_streams p' = {[id]} ∪ pr_streams p /\
  exists parent effective ch, determine_parent p id priority = Some (parent, effective, ch) /\ placed (pr_sched p') id parent effective.

Lemma set_priority_ok h p id priority :
  prio_ok h p -> id ∈ pr_streams p -> priority_ok id priority -> succeeds (set_priority p id priority true) (prioritized_as h p id priority).
Proof.
  intros Hp Hid Hpr. pose proof (po_streams _ _ Hp _ Hid) as Hpos. unfold set_priority.
  destruct (determine_parent_ok h p id priority Hp Hpos Hpr) as ([[parent effective] ch] & E & Hn & Hne & Hw). rewrite E. cbn [mbind option_bind]. simpl in Hn, Hne, Hw.
  destruct (looks_chromium_ok (pr_sched p) parent effective ch (po_sched _ _ Hp) Hn) as [ch' ->]. cbn [mbind option_bind].
  eapply succeeds_bind; [by apply (rebind_placed h)|]. intros s [Hs Hpl]. apply succeeds_some. split_and!; simpl; [by apply chromium_ok|done|set_solver|eauto 6].
Qed.

Lemma determine_parent_own p id priority :
  dependency priority <> id -> determine_parent (set_pr_streams ({[id]} ∪ pr_streams p) p) id priority = determine_parent p id priority.
Proof.
  intros Hd. unfold determine_parent. simpl. unfold find_closed. simpl.
  destruct (decide (dependency priority ∈ {[id]} ∪ pr_streams p)), (decide (dependency priority ∈ pr_streams p)); [done|set_solver|set_solver|done].
Qed.

Lemma open_stream_ok h p id priority :
  prio_ok h p -> id ∉ pr_streams p -> 0 < id -> priority_ok id priority -> succeeds (open_stream p id priority) (prioritized_as h p id priority).
Proof.
  intros Hp Hid Hpos Hpr. unfold open_stream, set_priority. rewrite determine_parent_own by apply Hpr.
  destruct (determine_parent_ok h p id priority Hp Hpos Hpr) as ([[parent effective] ch] & E & Hn & Hne & Hw). rewrite E. cbn [mbind option_bind]. simpl in Hn, Hne, Hw.
  change (pr_sched (set_pr_streams _ p)) with (pr_sched p).
  destruct (looks_chromium_ok (pr_sched p) parent effective ch (po_sched _ _ Hp) Hn) as [ch' ->]. cbn [mbind option_bind].
  eapply succeeds_bind; [by apply (open_placed h)|]. intros s [Hs Hpl]. apply succeeds_some. split_and!; simpl; [by apply chromium_ok|done|done|eauto 6].
Qed.

(** ** All the operations *)

Inductive prio_op :=
| PrioOpen (id : Z) (priority : h2o_http2_priority_t)
| PrioChange (id : Z) (priority : h2o_http2_priority_t)
| PrioClose (id : Z)
| PrioHeader (id : Z) (header_value : bytes)
| PrioRaise (id : Z)
| PrioPush (id src : Z) (is_critical : bool)
| PrioActivate (id : Z)
| PrioDeactivate (id : Z).

Definition exec_prio (p : prio) (op : prio_op) : option prio :=
  match op with
  | PrioOpen id priority => open_stream p id priority
  | PrioChange id priority => reprioritize_stream p id priority
  | PrioClose id => close_stream p id
  | PrioHeader id value => absprio_reprioritize p id value
  | PrioRaise id => raise_stream p id
  | PrioPush id src is_critical => push_stream p id src is_critical
  | PrioActivate id => s ← h2o_http2_scheduler_activate (pr_sched p) (stream_ref id); Some (set_pr_sched s p)
  | PrioDeactivate id => s ← h2o_http2_scheduler_deactivate (pr_sched p) (stream_ref id); Some (set_pr_sched s p)
  end.

(** What the handlers of the frames see to: a stream that is opened is new, all others are there; no stream depends on
    itself; and there are not millions of streams. *)
Definition prio_allowed (p : prio) (op : prio_op) : Prop :=
  match op with
  | PrioOpen id priority => id ∉ pr_streams p /\ 0 < id /\ priority_ok id priority
  | PrioChange id priority => id ∈ pr_streams p /\ priority_ok id priority
  | PrioClose id | PrioHeader id _ => id ∈ pr_streams p /\ few p
  | PrioRaise id | PrioActivate id | PrioDeactivate id => id ∈ pr_streams p
  | PrioPush id src _ => id ∉ pr_streams p /\ 0 < id /\ src ∈ pr_streams p
  end.

(** The streams that [op] makes the connection remember. *)
Definition preserved (op : prio_op) (p p' : prio) : list Z :=
  match op with
  | PrioClose id => [id]
  | PrioHeader id _ => if (pr_next_slot p' =? pr_next_slot p)%nat then [] else [id]
  | _ => []
  end.

Lemma parents_same h p s : prio_ok h p -> sched_ok s -> (forall i, parent_of s i = parent_of (pr_sched p) i) -> prio_ok h (set_pr_sched s p).
Proof. intros Hp Hs H. apply same_objects; [done..|]. intros ref. rewrite !ref_iff, H; [done|apply Hp|done]. Qed.

Lemma next_slot_moves n : (n < HTTP2_CLOSED_STREAM_PRIORITIES)%nat -> ((if S n =? HTTP2_CLOSED_STREAM_PRIORITIES then 0 else S n) =? n)%nat = false.
Proof. unfold HTTP2_CLOSED_STREAM_PRIORITIES. intros. apply Nat.eqb_neq. destruct (Nat.eqb_spec (S n) 10); lia. Qed.

Lemma preserve_slot p id p' : h2o_http2_conn_preserve_stream_scheduler p id = Some p' ->
  pr_next_slot p' = if (S (pr_next_slot p) =? HTTP2_CLOSED_STREAM_PRIORITIES)%nat then 0%nat else S (pr_next_slot p).
Proof.
  unfold h2o_http2_conn_preserve_stream_scheduler. destruct (negb _); [done|]. intros H. repeat (apply bind_Some in H as (? & ? & H)). by injection H as <-.
Qed.

Lemma absprio_ok h p id value :
  prio_ok h p -> id ∈ pr_streams p -> few p -> succeeds (absprio_reprioritize p id value) (fun p' => prio_ok (h ++ preserved (PrioHeader id value) p p') p').
Proof.
  intros Hp Hid Hf. pose proof Hp as [Hs Hr Hpos Hring]. unfold absprio_reprioritize.
  assert (Hstay : prio_ok (h ++ preserved (PrioHeader id value) p p) p) by (simpl; by rewrite Nat.eqb_refl, app_nil_r).
  destruct (pr_chromium p) eqn:Ech; [|by apply succeeds_some].
  destruct (parse_priority_loop_ok (S (length value)) value 0 h2o_absprio_default) as (prio & Ep & Hlev); [lia..|done|]. unfold h2o_absprio_parse_priority. rewrite Ep. cbn [mbind option_bind].
  destruct (chromium_weight_ok _ Hlev) as (w & -> & Hw & _). cbn [mbind option_bind].
  destruct (find_parent_ok (pr_sched p) w Hs) as (np & -> & Hnp). cbn [mbind option_bind].
  assert (Hi : is_Some (s_ref (pr_sched p) !! stream_ref id)) by (by apply Hr, in_tree_stream).
  destruct (ref_parent _ _ _ Hs Hi) as (par & _ & Hpar & _ & _ & Hpne & Hpn & [n Hn]). unfold h2o_http2_scheduler_get_parent, h2o_http2_scheduler_get_weight. rewrite Hn. cbn [mbind option_bind fmap option_fmap option_map].
  assert (Enp : n_parent n = Some par) by (unfold parent_of in Hpar; rewrite Hn in Hpar; done). rewrite Enp.
  set (np' := if decide (np = stream_ref id) then par else np).
  replace (if decide (np = stream_ref id) then Some par else Some np) with (Some np') by (unfold np'; by case_decide). cbn [mbind option_bind].
  assert (Hnp' : is_Some (s_node (pr_sched p) !! np') /\ np' <> stream_ref id) by (unfold np'; case_decide; done). destruct Hnp' as [Hn1 Hn2].
  destruct Hi as [r Hi]. rewrite Hi. cbn [mbind option_bind fmap option_fmap option_map]. destruct (_ || _); [|by apply succeeds_some].
  destruct (preserve_ok h p id Hp Hf Hid) as (p1 & E1 & Hp1 & Est & _ & Hgone & Hkeep). rewrite E1. cbn [mbind option_bind].
  destruct (open_placed (h ++ [id]) (without id p1) id np' (Priority 1 0 w)) as (s & E & Hs' & _); [done|by apply Hpos|simpl; set_solver|by apply Hkeep|simpl; lia|].
  simpl in E. rewrite E. cbn [mbind option_bind]. apply succeeds_some. assert (Hslot : (pr_next_slot p < HTTP2_CLOSED_STREAM_PRIORITIES)%nat) by (rewrite (rg_slot _ _ Hring); by apply Nat.mod_upper_bound).
  simpl. rewrite (preserve_slot _ _ _ E1), next_slot_moves by done. replace (set_pr_sched s p1) with (set_pr_sched s (set_pr_streams ({[id]} ∪ pr_streams (without id p1)) (without id p1))); [done|].
  assert (Eset : {[id]} ∪ pr_streams p1 ∖ {[id]} = pr_streams p1) by (symmetry; apply union_difference_L; rewrite Est; set_solver).
  unfold without. simpl. rewrite Eset. by destruct p1.
Qed.
