(* ===== verification/Http2PriorityRun.v ===== *)
(** * Properties of the priorities of streams

    Sequences of operations on the tree of a connection: consistency, what the client asked for, and the streams that are
    remembered. *)
From S2P Require Import Prelude Strings Http2Frame SchedQueue Scheduler SchedulerInv SchedulerMove SchedulerOpen Absprio Http2Priority Http2PriorityOk.
From Stdlib Require Import ZArith Lia.
From stdpp Require Import base numbers option strings gmap list.
Open Scope Z_scope.

Lemma exec_prio_ok h p op :
  prio_ok h p -> prio_allowed p op -> succeeds (exec_prio p op) (fun p' => prio_ok (h ++ preserved op p p') p').
Proof.
  intros Hp. pose proof Hp as [Hs Hr Hpos _]. assert (Href : forall id, id ∈ pr_streams p -> is_Some (s_ref (pr_sched p) !! stream_ref id)) by (intros; by apply Hr, in_tree_stream).
  destruct op as [id priority|id priority|id|id value|id|id src crit|id|id]; simpl; rewrite ?app_nil_r.
  - intros (H1 & H2 & H3). eapply succeeds_weaken; [by apply (open_stream_ok h)|]. by intros p' (? & _).
  - intros [H1 H2]. unfold reprioritize_stream, h2o_http2_scheduler_get_weight. destruct (Href _ H1) as [r ->]. cbn [mbind option_bind fmap option_fmap option_map].
    destruct (negb _); [|by apply succeeds_some]. eapply succeeds_weaken; [by apply (set_priority_ok h)|]. by intros p' (? & _).
  - intros [H1 H2]. unfold close_stream. destruct (preserve_ok h p id Hp H2 H1) as (p' & -> & Hp' & Est & _). cbn [mbind option_bind]. by apply succeeds_some.
  - intros [H1 H2]. by apply absprio_ok.
  - intros H1. unfold raise_stream. eapply succeeds_bind; [apply (rebind_placed h p id conn_node (Priority 0 0 257) Hp H1)|].
    + apply (root_node _ _ Hs).
    + apply not_eq_sym, stream_not_root.
    + simpl. lia.
    + intros s [H _]. by apply succeeds_some.
  - intros (H1 & H2 & H3). unfold push_stream. destruct crit.
    + eapply succeeds_bind; [apply (open_placed h p id conn_node (Priority 0 0 257) Hp H2 H1)|]; [apply (root_node _ _ Hs)|simpl; lia|]. intros s [H _]. by apply succeeds_some.
    + eapply succeeds_bind; [apply (open_placed h p id (stream_ref src) (Priority 0 0 16) Hp H2 H1)|]; [by apply ref_node, Href|simpl; lia|]. intros s [H _]. by apply succeeds_some.
  - intros H1. destruct (activate_preserves conn_node (pr_sched p) (stream_ref id) Hs (Href _ H1)) as (s & -> & Hs' & Hpar). cbn [mbind option_bind]. apply succeeds_some. by apply parents_same.
  - intros H1. destruct (deactivate_preserves conn_node (pr_sched p) (stream_ref id) Hs (Href _ H1)) as (s & -> & Hs' & Hpar). cbn [mbind option_bind]. apply succeeds_some. by apply parents_same.
Qed.

(** The states that a connection brings its tree to; [h] is the list of the streams that were preserved. *)
Inductive prio_run : list Z -> prio -> Prop :=
| prio_start : prio_run [] init_prio
| prio_next h p op p' : prio_run h p -> prio_allowed p op -> exec_prio p op = Some p' -> prio_run (h ++ preserved op p p') p'.

Lemma prio_run_ok h p : prio_run h p -> prio_ok h p.
Proof.
  induction 1 as [|h p op p' _ IH Ha E]; [apply init_prio_ok|]. destruct (exec_prio_ok h p op IH Ha) as (p1 & E1 & H). rewrite E in E1. by injection E1 as <-.
Qed.

(** ** The end of the connection *)

Lemma close_cells_ok cells : forall s i,
  sched_ok s -> (forall ref, is_Some (s_ref s !! ref) <-> exists j id, cells !! j = Some (Some id) /\ ref = cell_ref (i + j)) ->
  (forall j k, cells !! j = Some None -> (j <= k)%nat -> forall id, cells !! k <> Some (Some id)) -> (length cells <= 10)%nat ->
  succeeds (close_cells s i cells) (fun s' => forall ref, s_ref s' !! ref = None).
Proof.
  induction cells as [|[id|] cells IH]; intros s i Hs Hr Hnone Hlen; simpl.
  - apply succeeds_some. intros ref. apply eq_None_not_Some. rewrite Hr. intros (j & x & H & _). done.
  - assert (Hi : is_Some (s_ref s !! cell_ref i)) by (apply Hr; exists 0%nat, id; by rewrite Nat.add_0_r). rewrite (is_open_ok conn_node _ _ Hs Hi).
    assert (Hkids : 257 * len (kids s (cell_ref i)) < 2 ^ 32).
    { assert (Hsub : kids s (cell_ref i) ⊆+ (cell_ref <$> seq i 10)).
      { apply NoDup_submseteq; [by apply (kids_nodup conn_node)|]. intros c Hc. apply (kid_ref conn_node _ _ _ Hs) in Hc as [Hc _]. apply Hr in Hc as (j & x & Hj & ->).
        apply list_elem_of_fmap. eexists. split; [done|]. apply elem_of_seq. apply lookup_lt_Some in Hj. simpl in Hj, Hlen. lia. }
      apply submseteq_length in Hsub. rewrite length_fmap, length_seq in Hsub. unfold len. lia. }
    destruct (close_ok conn_node s (cell_ref i) Hs Hi Hkids) as (s' & -> & Hs' & Hgone & Hpar). cbn [mbind option_bind].
    apply IH; [done| | |simpl in Hlen; lia].
    + intros ref. rewrite ref_iff by done. destruct (decide (ref = cell_ref i)) as [->|Hne].
      * unfold parent_of. rewrite Hgone. simpl. split; [by intros []|]. intros (j & x & _ & E). unfold cell_ref in E. lia.
      * rewrite Hpar by done. transitivity (is_Some (s_ref s !! ref)).
        { rewrite ref_iff by done. case_decide as E; [|done]. rewrite E. split; [by eexists|]. intros _. by apply ref_iff. }
        rewrite Hr. split; intros (j & x & Hj & ->).
        -- destruct j as [|j]; [by rewrite Nat.add_0_r in Hne|]. exists j, x. split; [done|]. by rewrite Nat.add_succ_r.
        -- exists (S j), x. split; [done|]. by rewrite Nat.add_succ_r.
    + intros j k Hj Hjk x. apply (Hnone (S j) (S k)); [done|lia].
  - apply succeeds_some. intros ref. apply eq_None_not_Some. rewrite Hr. intros (j & x & H & _). apply (Hnone 0%nat j ltac:(done) ltac:(lia) x H).
Qed.

(** ** Properties *)

(** C19: no sequence of priorities of the client and of changes by the server makes an operation on the tree fail an
    assertion, and the tree stays consistent: its objects are the streams of the connection and the closed streams that
    are remembered, which are the last ten.  When all streams are closed, closing the cells empties the tree. *)
Theorem priorities_consistent h p :
  prio_run h p ->
  sched_ok (pr_sched p) /\ (forall ref, is_Some (s_ref (pr_sched p) !! ref) <-> in_tree p ref) /\
  (forall op, prio_allowed p op -> exists p', exec_prio p op = Some p' /\ prio_run (h ++ preserved op p p') p') /\
  (forall k id, reverse h !! k = Some id -> (k < HTTP2_CLOSED_STREAM_PRIORITIES)%nat -> exists i, pr_closed p !! i = Some (Some id)) /\
  (pr_streams p = ∅ -> exists s, close_cells (pr_sched p) 0 (pr_closed p) = Some s /\ forall ref, s_ref s !! ref = None).
Proof.
  intros Hrun. pose proof (prio_run_ok h p Hrun) as Hp. pose proof Hp as [Hs Hr Hpos [R1 R2 R3 R4]]. split_and!; auto.
  - intros op Ha. destruct (exec_prio_ok h p op Hp Ha) as (p' & E & _). exists p'. split; [done|]. by econstructor.
  - intros k id Hk Hb. assert (Hlt : (k < length h)%nat) by (apply lookup_lt_Some in Hk; by rewrite length_reverse in Hk).
    rewrite reverse_lookup in Hk by done. eexists. apply (R3 _ _ Hk). lia.
  - intros Hempty. apply close_cells_ok; [done| | |by rewrite R1].
    + intros ref. rewrite Hr. unfold in_tree. rewrite Hempty. simpl. split; [intros [(id & H & _)|H]; [set_solver|done]|by right].
    + intros j k Hj Hjk id Hk. apply R4 in Hj. assert (Hk' : (k < length (pr_closed p))%nat) by (by eapply lookup_lt_Some). rewrite R1 in Hk'.
      assert (pr_closed p !! k = Some None) by (apply R4; lia). congruence.
Qed.

Definition example_prio_ops : list prio_op :=
  [PrioOpen 1 (Priority 1 0 256); PrioOpen 3 (Priority 1 1 220); PrioActivate 3; PrioClose 1; PrioOpen 5 (Priority 1 1 110);
   PrioHeader 5 (lit "u=0"); PrioPush 2 3 false; PrioRaise 2; PrioChange 3 (Priority 0 5 17); PrioActivate 5].

Definition prio_allowedb (p : prio) (op : prio_op) : bool :=
  let weight_ok pr id := (1 <=? weight pr) && (weight pr <=? 257) && negb (dependency pr =? id) in
  match op with
  | PrioOpen id pr => bool_decide (id ∉ pr_streams p) && (0 <? id) && weight_ok pr id
  | PrioChange id pr => bool_decide (id ∈ pr_streams p) && weight_ok pr id
  | PrioClose id | PrioHeader id _ => bool_decide (id ∈ pr_streams p) && (Z.of_nat (size (pr_streams p)) <=? 2 ^ 23)
  | PrioRaise id | PrioActivate id | PrioDeactivate id => bool_decide (id ∈ pr_streams p)
  | PrioPush id src _ => bool_decide (id ∉ pr_streams p) && (0 <? id) && bool_decide (src ∈ pr_streams p)
  end.

Lemma prio_allowedb_ok p op : prio_allowedb p op = true -> prio_allowed p op.
Proof.
  destruct op; simpl; unfold priority_ok, few; rewrite ?andb_true_iff, ?negb_true_iff, ?bool_decide_eq_true, ?Z.eqb_neq, ?Z.leb_le, ?Z.ltb_lt; intuition lia.
Qed.

(** Runs the operations, with what is preserved. *)
Fixpoint exec_prios (h : list Z) (p : prio) (ops : list prio_op) : option (list Z * prio) :=
  match ops with
  | [] => Some (h, p)
  | op :: ops => if prio_allowedb p op then p' ← exec_prio p op; exec_prios (h ++ preserved op p p') p' ops else None
  end.

Lemma exec_prios_run ops : forall h p h' p', prio_run h p -> exec_prios h p ops = Some (h', p') -> prio_run h' p'.
Proof.
  induction ops as [|op ops IH]; intros h p h' p' Hr; simpl; [by intros [= <- <-]|]. destruct (prio_allowedb p op) eqn:Ea; [|done].
  intros (p1 & E & H)%bind_Some. apply (IH _ _ _ _ ltac:(econstructor; [exact Hr|by apply prio_allowedb_ok|exact E]) H).
Qed.

Definition example_prio : list Z * prio := default ([], init_prio) (exec_prios [] init_prio example_prio_ops).

Lemma example_prio_run : prio_run example_prio.1 example_prio.2.
Proof. apply (exec_prios_run example_prio_ops [] init_prio); [constructor|]. vm_compute. reflexivity. Qed.

Lemma priorities_consistent_witness :
  example_prio.1 = [1; 5] /\ (exists i, pr_closed example_prio.2 !! i = Some (Some 1)) /\
  exists p', exec_prio example_prio.2 (PrioClose 3) = Some p' /\ prio_run [1; 5; 3] p'.
Proof.
  destruct (priorities_consistent _ _ example_prio_run) as (_ & _ & H1 & H2 & _). split; [vm_compute; reflexivity|]. split.
  - apply (H2 1%nat); [vm_compute; reflexivity|unfold HTTP2_CLOSED_STREAM_PRIORITIES; lia].
  - destruct (H1 (PrioClose 3)) as (p' & E & R); [apply prio_allowedb_ok; vm_compute; reflexivity|]. exists p'. split; [exact E|].
    assert (Eh : example_prio.1 = [1; 5]) by (vm_compute; reflexivity). cbn [preserved] in R. rewrite Eh in R. exact R.
Defined.

(** The connection knows the stream [dep], or it is the root. *)
Definition known (p : prio) (dep : Z) : Prop := dep = 0 \/ dep ∈ pr_streams p \/ exists i, pr_closed p !! i = Some (Some dep).

Lemma stream_ref_id dep : 0 < dep -> Z.of_nat (stream_ref dep - HTTP2_CLOSED_STREAM_PRIORITIES) = dep.
Proof. unfold stream_ref. lia. Qed.

(** The id of a parent. *)
Definition names (p : prio) (parent : ref_id) (dep : Z) : Prop :=
  parent = conn_node /\ dep = 0 \/ (exists i, pr_closed p !! i = Some (Some dep) /\ parent = cell_ref i) \/ dep ∈ pr_streams p /\ parent = stream_ref dep.

Lemma names_id h p id parent dep :
  prio_ok h p -> parent_of (pr_sched p) (stream_ref id) = Some parent -> names p parent dep -> get_parent_stream_id p id = Some dep.
Proof.
  intros [_ _ Hpos Hring] Hpar Hn. unfold get_parent_stream_id, h2o_http2_scheduler_get_parent. unfold parent_of in Hpar.
  destruct (s_node (pr_sched p) !! stream_ref id) as [n|]; [|done]. simpl in *. rewrite Hpar. cbn [mbind option_bind].
  destruct Hn as [[-> ->]|[(i & Hi & ->)|[Hd ->]]]; [by rewrite decide_True| |].
  - pose proof (cell_bound _ _ _ _ Hring Hi). rewrite decide_False by done. rewrite (proj2 (Nat.leb_le _ _)) by (unfold cell_ref; lia). simpl. by rewrite Hi.
  - pose proof (stream_ref_large dep (Hpos _ Hd)). rewrite decide_False by apply stream_not_root. rewrite (proj2 (Nat.leb_gt _ _)) by lia. by rewrite stream_ref_id by (by apply Hpos).
Qed.

(** Where a stream goes when the server does not rearrange the tree. *)
Lemma determine_plain h p id priority :
  prio_ok h p -> pr_chromium p = false \/ exclusive priority = 0 ->
  exists parent effective ch, determine_parent p id priority = Some (parent, effective, ch) /\
    (known p (dependency priority) -> effective = priority /\ names p parent (dependency priority)) /\
    (~ known p (dependency priority) -> effective = h2o_http2_default_priority /\ parent = conn_node).
Proof.
  intros Hp Hch. unfold determine_parent, known, names. destruct (Z.eqb_spec (dependency priority) 0) as [E0|Hd0]; cbn [negb].
  { rewrite E0. eexists _, _, _. split; [done|]. split; [intros _; auto|]. intros H. exfalso. auto. }
  destruct (find_closed p (dependency priority)) as [i|] eqn:Ef.
  - apply find_closed_some in Ef. assert (Hc : is_Some (s_ref (pr_sched p) !! cell_ref i)) by (apply (po_refs _ _ Hp); by eapply in_tree_cell).
    assert (Hn : known p (dependency priority)) by (right; right; eauto).
    destruct (pr_chromium p); [destruct Hch as [|Hx]; [done|]; destruct Hc as [r ->]; rewrite Hx; simpl; rewrite orb_true_r|];
      (eexists _, _, _; split; [done|]; split; [intros _; split; [done|]; right; left; eauto|by intros []]).
  - case_decide as Hd; eexists _, _, _; (split; [done|]); split; try (intros; naive_solver).
    intros [?|[?|[i Hi]]]; [done..|]. by apply (find_closed_none _ _ i) in Hi.
Qed.

(** A stream is where the client asked for it: a stream that is opened, or whose priority is changed, depends on the
    stream that the client named, with the weight given, and alone if that was asked for, when the stream is open or
    among those remembered; otherwise it depends on the connection with the default weight.  (A server that rearranges
    the tree of Chromium may place streams elsewhere.) *)
Theorem dependency_honoured h p id priority :
  prio_run h p -> 0 < id -> priority_ok id priority -> pr_chromium p = false \/ exclusive priority = 0 ->
  exists p', (if decide (id ∈ pr_streams p) then set_priority p id priority true else open_stream p id priority) = Some p' /\
    (known p (dependency priority) -> get_parent_stream_id p' id = Some (dependency priority) /\
      h2o_http2_scheduler_get_weight (pr_sched p') (stream_ref id) = Some (weight priority) /\
      (exclusive priority <> 0 -> forall parent, parent_of (pr_sched p') (stream_ref id) = Some parent -> kids (pr_sched p') parent = [stream_ref id])) /\
    (~ known p (dependency priority) -> get_parent_stream_id p' id = Some 0 /\
      h2o_http2_scheduler_get_weight (pr_sched p') (stream_ref id) = Some 16).
Proof.
  intros Hrun Hid Hpr Hch. pose proof (prio_run_ok h p Hrun) as Hp. destruct (determine_plain h p id priority Hp Hch) as (parent & effective & ch & E & H1 & H2).
  assert (Hop : succeeds (if decide (id ∈ pr_streams p) then set_priority p id priority true else open_stream p id priority) (prioritized_as h p id priority))
    by (case_decide; [by apply set_priority_ok|by apply open_stream_ok]).
  destruct Hop as (p' & -> & Hp' & Hcl & Hst & parent' & effective' & ch' & E' & Hpar & Hwt & Hex). rewrite E in E'. injection E' as <- <- <-. exists p'. split; [done|]. split.
  - intros Hk. destruct (H1 Hk) as [-> Hn]. split_and!; [|done|].
    + apply (names_id h p' id parent); [done..|]. unfold names in *. rewrite Hcl, Hst. set_solver.
    + intros Hx q Hq. rewrite Hpar in Hq. injection Hq as <-. by apply Hex.
  - intros Hk. destruct (H2 Hk) as [-> ->]. split; [|done]. apply (names_id h p' id conn_node); [done..|]. by left.
Qed.

Lemma example_streams : bool_decide (3 ∈ pr_streams example_prio.2) = true /\ bool_decide (9 ∈ pr_streams example_prio.2) = false /\
  bool_decide (999 ∈ pr_streams example_prio.2) = false /\ pr_closed example_prio.2 = [Some 1; Some 5; None; None; None; None; None; None; None; None] /\
  pr_chromium example_prio.2 = false.
Proof. vm_compute. auto. Qed.

Lemma dependency_honoured_witness :
  (exists p', set_priority example_prio.2 3 (Priority 0 1 77) true = Some p' /\ get_parent_stream_id p' 3 = Some 1) /\
  (exists p', open_stream example_prio.2 9 (Priority 1 999 77) = Some p' /\ get_parent_stream_id p' 9 = Some 0).
Proof.
  destruct example_streams as (H3 & H9 & H999 & Hc & Hch). apply bool_decide_eq_true in H3. apply bool_decide_eq_false in H9, H999. split.
  - destruct (dependency_honoured _ _ 3 (Priority 0 1 77) example_prio_run) as (p' & E & H & _); [lia|split; simpl; lia|right; reflexivity|].
    rewrite decide_True in E by exact H3. exists p'. split; [exact E|]. apply H. right. right. exists 0%nat. rewrite Hc. reflexivity.
  - destruct (dependency_honoured _ _ 9 (Priority 1 999 77) example_prio_run) as (p' & E & _ & H); [lia|split; simpl; lia|left; exact Hch|].
    rewrite decide_False in E by exact H9. exists p'. split; [exact E|]. apply H. intros [Hk|[Hk|[i Hk]]]; [discriminate|exact (H999 Hk)|].
    rewrite Hc in Hk. do 10 (destruct i as [|i]; [discriminate|]). discriminate.
Defined.

(** ** Cases *)

(** The weight of a stream is compared with that of the parent of its parent: the second stream is heavier than the one
    that it depends on, and the tree is still taken for Chromium's. *)
Example heavier_child_chromium :
  (r ← exec_prios [] init_prio [PrioOpen 1 (Priority 1 0 100); PrioOpen 3 (Priority 1 1 101)]; Some (pr_chromium r.2, get_parent_stream_id r.2 3)) =
    Some (true, Some 1).
Proof. vm_compute. reflexivity. Qed.

(** A stream of which the server has changed the priority is remembered twice, with the priority of the client first; when
    the cells have been used up, the changed one is in front, and a stream that names it goes below that one. *)
Definition reprioritized_ops : list prio_op :=
  [PrioOpen 1 (Priority 1 0 147)] ++
  flat_map (fun id => [PrioOpen id (Priority 1 0 147); PrioClose id]) [3; 5; 7; 9; 11; 13; 15; 17; 21] ++
  [PrioOpen 19 (Priority 1 0 147); PrioHeader 19 (lit "u=7"); PrioClose 19].
Example changed_priority_found_first :
  (r ← exec_prios [] init_prio reprioritized_ops; Some (pr_chromium r.2, pr_closed r.2 !! 9%nat, pr_closed r.2 !! 0%nat, find_closed r.2 19,
     h2o_http2_scheduler_get_weight (pr_sched r.2) (cell_ref 9), h2o_http2_scheduler_get_weight (pr_sched r.2) (cell_ref 0))) =
    Some (true, Some (Some 19), Some (Some 19), Some 0%nat, Some 147, Some 1).
Proof. vm_compute. reflexivity. Qed.
