(* ===== verification/Http2Send.v ===== *)
(** * Sending response bodies over HTTP/2 (lib/http2/stream.c, include/h2o/http2_internal.h)

    The contents of a stream wait in send vectors until the scheduler calls the stream; then as
    much as the two flow-control windows, the peer's frame size and the write buffer allow goes
    out in one DATA frame.

    A send vector is read through the callback of its class; the size that the socket layer
    suggests for a write is an argument.  Of the state of a stream only what sending uses is kept;
    the counters of streams that [h2o_http2_stream_set_state] keeps are not.  [None] is a failed
    assertion. *)
From S2P Require Import Prelude HpackInt HeaderTable Headers Http2Frame HpackFlatten.
From Stdlib Require Import ZArith Lia.
From stdpp Require Import base numbers option strings list.
Open Scope Z_scope.

(** ** Send vectors (include/h2o/socket.h) *)

(** [len] and the callback [read_]: the octets and the vector behind them, or a failure. *)
Class SendVec (V : Type) := {
  sv_len : V -> Z;
  sv_read : V -> Z -> option (bytes * V) }.

(** What the comment of [h2o_sendvec_callbacks_t] promises: one pass over the contents. *)
Class SendVecOk (V : Type) `{SendVec V} := {
  sv_content : V -> bytes;
  sv_len_ok v : sv_len v = len (sv_content v);
  sv_read_ok v n bs v' : 0 <= n <= sv_len v -> sv_read v n = Some (bs, v') ->
    bs = take (Z.to_nat n) (sv_content v) /\ sv_content v' = drop (Z.to_nat n) (sv_content v) }.

(** Octets in memory ([h2o_sendvec_read_raw]). *)
Definition h2o_sendvec_read_raw (src : bytes) (n : Z) : option (bytes * bytes) :=
  if len src <? n then None else Some (take (Z.to_nat n) src, drop (Z.to_nat n) src).

#[export] Instance raw_sendvec : SendVec bytes := {| sv_len := len; sv_read := h2o_sendvec_read_raw |}.

#[export] Program Instance raw_sendvec_ok : SendVecOk bytes := {| sv_content := fun v => v |}.
Next Obligation. reflexivity. Qed.
Next Obligation. intros v n bs v' _. simpl. unfold h2o_sendvec_read_raw. destruct (_ <? _); [discriminate|]. now intros [= <- <-]. Qed.

(** ** Streams *)

Inductive h2o_http2_stream_state_t :=
| STATE_IDLE | STATE_RECV_HEADERS | STATE_RECV_BODY | STATE_REQ_PENDING
| STATE_SEND_HEADERS | STATE_SEND_BODY | STATE_SEND_BODY_IS_FINAL | STATE_END_STREAM.

Inductive h2o_send_state := SEND_IN_PROGRESS | SEND_FINAL | SEND_ERROR.

#[export] Instance stream_state_eq_dec : EqDecision h2o_http2_stream_state_t.
Proof. solve_decision. Defined.
#[export] Instance send_state_eq_dec : EqDecision h2o_send_state.
Proof. solve_decision. Defined.

Definition h2o_send_state_is_in_progress (s : h2o_send_state) : bool := bool_decide (s = SEND_IN_PROGRESS).

Definition H2O_HTTP2_ERROR_REFUSED_STREAM : Z := -7.

(** The members of [h2o_http2_stream_t] (and of its request) that sending uses. *)
Record stream (V : Type) := Stream {
  st_id : Z;
  st_state : h2o_http2_stream_state_t;
  st_output_window : Z;
  st_data : list V;
  st_send_state : h2o_send_state;
  st_send_server_timing : bool;
  st_trailers : h2o_headers_t;
  st_upstream_refused : bool;
  st_reset_by_peer_action : bool;
  st_bytes_sent : Z }.
Arguments Stream {V}.
Arguments st_id {V}. Arguments st_state {V}. Arguments st_output_window {V}. Arguments st_data {V}.
Arguments st_send_state {V}. Arguments st_send_server_timing {V}. Arguments st_trailers {V}.
Arguments st_upstream_refused {V}. Arguments st_reset_by_peer_action {V}. Arguments st_bytes_sent {V}.

(** The members of [h2o_http2_conn_t]: the write buffer and its capacity, the window, the peer's settings and
    the table of the encoder. *)
Record conn := Conn {
  cn_buf : bytes;
  cn_capacity : Z;
  cn_window : Z;
  cn_max_frame_size : Z;
  cn_header_table_size : Z;
  cn_table : header_table }.

Definition put_buf (c : conn) (buf : bytes) : conn :=
  Conn buf (cn_capacity c) (cn_window c) (cn_max_frame_size c) (cn_header_table_size c) (cn_table c).

Section Send.
Context {V : Type} `{SendVec V}.

Definition set_data (s : stream V) (data : list V) : stream V :=
  Stream (st_id s) (st_state s) (st_output_window s) data (st_send_state s) (st_send_server_timing s) (st_trailers s)
    (st_upstream_refused s) (st_reset_by_peer_action s) (st_bytes_sent s).
Definition set_send_state (s : stream V) (x : h2o_send_state) : stream V :=
  Stream (st_id s) (st_state s) (st_output_window s) (st_data s) x (st_send_server_timing s) (st_trailers s)
    (st_upstream_refused s) (st_reset_by_peer_action s) (st_bytes_sent s).
Definition set_send_server_timing (s : stream V) (b : bool) : stream V :=
  Stream (st_id s) (st_state s) (st_output_window s) (st_data s) (st_send_state s) b (st_trailers s)
    (st_upstream_refused s) (st_reset_by_peer_action s) (st_bytes_sent s).
Definition set_trailers (s : stream V) (t : h2o_headers_t) : stream V :=
  Stream (st_id s) (st_state s) (st_output_window s) (st_data s) (st_send_state s) (st_send_server_timing s) t
    (st_upstream_refused s) (st_reset_by_peer_action s) (st_bytes_sent s).
Definition set_reset_by_peer_action (s : stream V) : stream V :=
  Stream (st_id s) (st_state s) (st_output_window s) (st_data s) (st_send_state s) (st_send_server_timing s) (st_trailers s)
    (st_upstream_refused s) true (st_bytes_sent s).

(** [h2o_http2_stream_set_state(..., H2O_HTTP2_STREAM_STATE_END_STREAM)] *)
Definition set_state_end (s : stream V) : option (stream V) :=
  if bool_decide (st_state s = STATE_END_STREAM) then None
  else
    Some (Stream (st_id s) STATE_END_STREAM (st_output_window s) (st_data s) (st_send_state s) (st_send_server_timing s)
            (st_trailers s) (st_upstream_refused s) (st_reset_by_peer_action s) (st_bytes_sent s)).

(** [h2o_http2_stream_set_state(..., H2O_HTTP2_STREAM_STATE_SEND_BODY_IS_FINAL)], from [STATE_SEND_BODY]. *)
Definition set_state_final (s : stream V) : stream V :=
  Stream (st_id s) STATE_SEND_BODY_IS_FINAL (st_output_window s) (st_data s) (st_send_state s) (st_send_server_timing s)
    (st_trailers s) (st_upstream_refused s) (st_reset_by_peer_action s) (st_bytes_sent s).

Definition h2o_http2_stream_has_pending_data (s : stream V) : bool := negb (is_nil (st_data s)).

(** [finalostream_send] for a stream whose header fields are sent already, or that was reset meanwhile. *)
Definition finalostream_send_body (s : stream V) (bufs : list V) (state : h2o_send_state) : option (stream V) :=
  if negb (h2o_send_state_is_in_progress (st_send_state s)) || h2o_http2_stream_has_pending_data s then None
  else
    let s := set_send_state s state in
    match st_state s with
    | STATE_SEND_BODY =>
        let empty_payload_allowed := negb (h2o_send_state_is_in_progress state) in
        let s := if negb (h2o_send_state_is_in_progress state) then set_state_final s else s in
        let s := set_data s (filter (fun v => sv_len v <> 0) bufs) in
        if empty_payload_allowed || h2o_http2_stream_has_pending_data s then Some s else None
    | STATE_END_STREAM => Some s
    | _ => None
    end.

(** [cwnd_left] is what [h2o_socket_prepare_for_latency_optimized_write] suggests. *)
Definition h2o_http2_conn_get_buffer_window (c : conn) (cwnd_left : Z) : Z :=
  let size := len (cn_buf c) in
  let shrink := cwnd_left <? cn_capacity c in
  let capacity := if shrink then cwnd_left else cn_capacity c in
  if shrink && (capacity <? size) then 0
  else
    let ret := capacity - size in
    if ret <? H2O_HTTP2_FRAME_HEADER_SIZE then 0
    else
      let ret := ret - H2O_HTTP2_FRAME_HEADER_SIZE in
      let winsz := h2o_http2_window_get_avail (cn_window c) in
      if winsz <? ret then winsz else ret.

Definition sz_min (x y : Z) : Z := if x <? y then x else y.

Definition calc_max_payload_size (c : conn) (s : stream V) (cwnd_left : Z) : Z :=
  let conn_max := h2o_http2_conn_get_buffer_window c cwnd_left in
  if conn_max <=? 0 then 0
  else
    let stream_max := h2o_http2_window_get_avail (st_output_window s) in
    if stream_max <=? 0 then 0
    else sz_min (sz_min conn_max stream_max) (cn_max_frame_size c).

(** The payload is in the buffer already, behind the room for the header. *)
Definition commit_data_header (c : conn) (s : stream V) (payload : bytes) (send_state : h2o_send_state) : option (conn * stream V) :=
  let length := len payload in
  let is_end_stream := bool_decide (send_state = SEND_FINAL) && negb (st_send_server_timing s) && is_nil (st_trailers s) in
  '(c, s) ←
    (if negb (length =? 0) || is_end_stream then
       header ← h2o_http2_encode_frame_header length H2O_HTTP2_FRAME_TYPE_DATA
                  (if is_end_stream then H2O_HTTP2_FRAME_FLAG_END_STREAM else 0) (st_id s);
       Some (Conn (cn_buf c ++ header ++ payload) (cn_capacity c) (h2o_http2_window_consume_window (cn_window c) length)
               (cn_max_frame_size c) (cn_header_table_size c) (cn_table c),
             Stream (st_id s) (st_state s) (h2o_http2_window_consume_window (st_output_window s) length) (st_data s) (st_send_state s)
               (st_send_server_timing s) (st_trailers s) (st_upstream_refused s) (st_reset_by_peer_action s) (st_bytes_sent s + length))
     else Some (c, s));
  if bool_decide (send_state = SEND_ERROR) then
    buf ← h2o_http2__encode_rst_stream_frame (cn_buf c) (st_id s)
            (- (if st_upstream_refused s then H2O_HTTP2_ERROR_REFUSED_STREAM else H2O_HTTP2_ERROR_PROTOCOL));
    Some (put_buf c buf, set_reset_by_peer_action s)
  else Some (c, s).

(** The loop of [send_data]: the octets read and the vectors that are left, or a failure of [read_].  A vector is
    read as far as the room goes, so that a turn either finishes it or fills the room. *)
Fixpoint fill_payload (fuel : nat) (bufs : list V) (room : Z) : option (option (bytes * list V)) :=
  match bufs with
  | [] => Some (Some ([], []))
  | v :: rest =>
      match fuel with
      | O => None
      | S fuel =>
          let fill_size := sz_min room (sv_len v) in
          match sv_read v fill_size with
          | None => Some None
          | Some (bs, v) =>
              let room := room - fill_size in
              let bufs := if sv_len v =? 0 then rest else v :: rest in
              if is_nil bufs || (room =? 0) then Some (Some (bs, bufs))
              else
                more ← fill_payload fuel bufs room;
                Some ('(bs', bufs) ← more; Some (bs ++ bs', bufs))
          end
      end
  end.

(** The vectors that are left; [inl]: [read_] failed, and NULL is returned. *)
Definition send_data (c : conn) (s : stream V) (cwnd_left : Z) (bufs : list V) (send_state : h2o_send_state)
    : option (conn * stream V * (unit + list V)) :=
  let max_payload_size := calc_max_payload_size c s cwnd_left in
  if max_payload_size =? 0 then Some (c, s, inr bufs)
  else
    filled ← fill_payload (length bufs) bufs max_payload_size;
    match filled with
    | None =>
        buf ← h2o_http2__encode_rst_stream_frame (cn_buf c) (st_id s) (- H2O_HTTP2_ERROR_INTERNAL);
        Some (put_buf c buf, s, inl ())
    | Some (payload, bufs) =>
        if negb (len payload =? 0) || negb (h2o_send_state_is_in_progress send_state) then
          let send_state := if negb (is_nil bufs) then SEND_IN_PROGRESS else send_state in
          '(c, s) ← commit_data_header c s payload send_state;
          Some (c, s, inr bufs)
        else Some (c, s, inr bufs)
    end.

Definition h2o_http2_stream_send_pending_data (c : conn) (s : stream V) (cwnd_left : Z) : option (conn * stream V) :=
  if h2o_http2_window_get_avail (st_output_window s) <=? 0 then Some (c, s)
  else
    '(c, s, nextbuf) ← send_data c s cwnd_left (st_data s) (st_send_state s);
    s ← match nextbuf with
        | inl _ => set_state_end (set_send_state (set_data s []) SEND_ERROR)
        | inr [] =>
            let s := set_data s [] in
            if bool_decide (st_state s = STATE_SEND_BODY_IS_FINAL) then set_state_end s else Some s
        | inr bufs => Some (set_data s bufs)
        end;
    Some (c, if bool_decide (st_send_state s = SEND_ERROR) then set_send_server_timing s false else s).

(** The callback of the scheduler.  [server_timing] is what [h2o_build_server_timing_trailer] gives; the last
    component tells whether the stream is put into [streams_to_proceed]; [cwnd_left'] is the size suggested at the end. *)
Definition emit_writereq_of_openref (server_timing : bytes) (c : conn) (s : stream V) (cwnd_left cwnd_left' : Z)
    : option (Z * bool * bool * conn * stream V) :=
  let final (s : stream V) := bool_decide (st_state s = STATE_SEND_BODY_IS_FINAL) in
  let ended (s : stream V) := bool_decide (st_state s = STATE_END_STREAM) in
  if negb (h2o_http2_stream_has_pending_data s || final s || ended s) then None
  else
    '(c, s) ← h2o_http2_stream_send_pending_data c s cwnd_left;
    '(still_is_active, proceed, c, s) ←
      (if h2o_http2_stream_has_pending_data s || final s then
         Some (negb (h2o_http2_window_get_avail (st_output_window s) <=? 0), false, c, s)
       else if ended s then
         let s :=
           if st_send_server_timing s && negb (len server_timing =? 0)
           then set_trailers s (st_trailers s ++ [Header (NStr (lit "server-timing")) None server_timing false]) else s in
         if negb (is_nil (st_trailers s)) then
           f ← h2o_hpack_flatten_trailers (cn_buf c) (cn_table c) (cn_header_table_size c) (st_id s) (cn_max_frame_size c) (st_trailers s);
           Some (false, true,
                 Conn (fl_buf f) (cn_capacity c) (cn_window c) (cn_max_frame_size c) (cn_header_table_size c) (fl_table f), s)
         else Some (false, true, c, s)
       else Some (false, true, c, s));
    Some (if 0 <? h2o_http2_conn_get_buffer_window c cwnd_left' then 0 else -1, still_is_active, proceed, c, s).
End Send.
