(* ===== verification/Http2SendOk.v ===== *)
(** * Response bodies arrive whole and within the windows

    The octets that a stream writes are read by the peer as DATA frames.  Each payload fits both
    windows, the peer's frame size and the room of the buffer; over any sequence of calls, with any
    changes of the windows in between, the payloads are the contents in order, and the stream ends
    when and only when all of them are sent. *)
From S2P Require Import Prelude HpackInt HeaderTable Headers Http2Frame HpackFlatten Http2Send.
From Stdlib Require Import ZArith Lia.
From stdpp Require Import base numbers option strings list.
Open Scope Z_scope.

(** ** What the peer reads *)

Inductive event := EData (payload : bytes) (end_stream : bool) | EReset (code : Z).

Definition event_of (id : Z) (frame : h2o_http2_frame_t) : option event :=
  if negb (f_stream_id frame =? id) then None
  else if f_type frame =? H2O_HTTP2_FRAME_TYPE_DATA then
    match h2o_http2_decode_data_payload frame with
    | Ok payload => Some (EData payload (has_flag frame H2O_HTTP2_FRAME_FLAG_END_STREAM))
    | Err _ _ => None
    end
  else if f_type frame =? H2O_HTTP2_FRAME_TYPE_RST_STREAM then
    match h2o_http2_decode_rst_stream_payload frame with Ok code => Some (EReset code) | Err _ _ => None end
  else None.

Definition is_end (e : event) : bool := match e with EData _ b => b | EReset _ => false end.
Definition is_reset (e : event) : bool := match e with EReset _ => true | _ => false end.
Definition closes (e : event) : bool := is_end e || is_reset e.

(** The frames of the stream [id] in [src]; a frame after the one that closes the stream is an error. *)
Fixpoint receive (fuel : nat) (id max_size : Z) (src : bytes) : option (list event) :=
  match src, fuel with
  | [], _ => Some []
  | _, O => None
  | _, S fuel =>
      match h2o_http2_decode_frame src max_size with
      | Err _ _ => None
      | Ok (frame, n) =>
          e ← event_of id frame;
          es ← receive fuel id max_size (drop (Z.to_nat n) src);
          if closes e && negb (is_nil es) then None else Some (e :: es)
      end
  end.

Definition payload_of (e : event) : bytes := match e with EData p _ => p | EReset _ => [] end.
Definition body (es : list event) : bytes := concat (map payload_of es).

Lemma body_app es fs : body (es ++ fs) = body es ++ body fs.
Proof. unfold body. by rewrite map_app, concat_app. Qed.

(** How an event is written. *)
Definition written (id : Z) (e : event) : option bytes :=
  match e with
  | EData payload end_stream =>
      allocate_frame [] H2O_HTTP2_FRAME_TYPE_DATA (if end_stream then H2O_HTTP2_FRAME_FLAG_END_STREAM else 0) id payload
  | EReset code => allocate_frame [] H2O_HTTP2_FRAME_TYPE_RST_STREAM 0 id (h2o_http2_encode32u code)
  end.

Inductive wire (id max_size : Z) : list event -> bytes -> Prop :=
| wire_nil : wire id max_size [] []
| wire_cons e es bs rest :
    written id e = Some bs -> len (payload_of e) <= max_size ->
    match e with EReset code => 0 <= code < 2 ^ 32 | _ => True end ->
    (closes e = true -> es = []) ->
    wire id max_size es rest -> wire id max_size (e :: es) (bs ++ rest).

Lemma wire_app id m es fs bs cs :
  existsb closes es = false -> wire id m es bs -> wire id m fs cs -> wire id m (es ++ fs) (bs ++ cs).
Proof.
  intros Hq Hw. induction Hw; intros Hf; [done|]. simpl in Hq. apply orb_false_iff in Hq as [Hq1 Hq2].
  rewrite <- app_assoc. simpl. constructor; auto. congruence.
Qed.

Lemma wire_mono id m m' es bs : m <= m' -> wire id m es bs -> wire id m' es bs.
Proof. intros Hm Hw. induction Hw; constructor; auto; lia. Qed.

Lemma open_events es : existsb closes es = false <-> existsb is_end es = false /\ existsb is_reset es = false.
Proof.
  induction es as [|e es IH]; [done|]. simpl. unfold closes at 1. rewrite !orb_false_iff, IH. tauto.
Qed.

Lemma wire_one id m e bs :
  written id e = Some bs -> len (payload_of e) <= m -> match e with EReset code => 0 <= code < 2 ^ 32 | _ => True end ->
  wire id m [e] bs.
Proof. intros. rewrite <- (app_nil_r bs). constructor; auto. constructor. Qed.

(** A frame of the stream is read back as the event it was written for. *)
Lemma frame_read id max_size e bs rest :
  0 < id < 2 ^ 31 -> 4 <= max_size -> written id e = Some bs -> len (payload_of e) <= max_size ->
  match e with EReset code => 0 <= code < 2 ^ 32 | _ => True end ->
  exists frame, h2o_http2_decode_frame (bs ++ rest) max_size = Ok (frame, len bs) /\ event_of id frame = Some e /\ 9 <= len bs.
Proof.
  intros Hid Hm Hw Hp Hc. destruct e as [p b|code]; simpl in Hw; unfold allocate_frame in Hw;
    apply bind_Some in Hw as (h & Hh & [= <-]); pose proof (encode_frame_header_length _ _ _ _ _ Hh) as Hl.
  - eexists. simpl app. rewrite <- app_assoc. split_and!.
    + rewrite (decode_encode_frame _ _ _ _ rest max_size _ Hh); [|unfold is_byte; destruct b; vm_compute; intuition congruence ..|lia|exact Hp].
      by rewrite len_app, Hl.
    + unfold event_of, h2o_http2_decode_data_payload, has_flag. simpl. rewrite Z.eqb_refl. simpl.
      destruct (Z.eqb_spec id 0); [lia|]. unfold len. rewrite Nat2Z.id, firstn_all. by destruct b.
    + rewrite len_app. pose proof (len_nonneg p). lia.
  - eexists. simpl app. rewrite <- app_assoc. split_and!.
    + rewrite (decode_encode_frame _ _ _ _ rest max_size _ Hh); [|unfold is_byte; vm_compute; intuition congruence ..|lia|exact Hm].
      by rewrite len_app, Hl.
    + unfold event_of, h2o_http2_decode_rst_stream_payload. cbn [f_stream_id f_type f_length f_payload].
      rewrite Z.eqb_refl. destruct (Z.eqb_spec id 0); [lia|].
      rewrite <- (app_nil_r (h2o_http2_encode32u code)), decode32u_encode. unfold wrap32. by rewrite Z.mod_small.
    + rewrite len_app. pose proof (len_nonneg (h2o_http2_encode32u code)). lia.
Qed.

(** The peer reads what was written. *)
Lemma receive_wire id max_size es bs fuel :
  0 < id < 2 ^ 31 -> 4 <= max_size -> wire id max_size es bs -> (length bs <= fuel)%nat ->
  receive fuel id max_size bs = Some es.
Proof.
  intros Hid Hm Hw. revert fuel. induction Hw as [|e es bs rest Hb Hp Hc Hlast Hw IH]; intros fuel Hf; [by destruct fuel|].
  destruct (frame_read id max_size e bs rest Hid Hm Hb Hp Hc) as (frame & Hd & He & H9).
  rewrite length_app in Hf. unfold len in H9.
  destruct fuel as [|fuel]; [lia|]. destruct (bs ++ rest) eqn:E; [destruct bs; simpl in *; [lia|done]|].
  cbn [receive]. rewrite Hd. rewrite He. simpl.
  rewrite <- E. unfold len. rewrite Nat2Z.id, drop_app_length. rewrite IH by lia. simpl.
  destruct (closes e); [|done]. by rewrite Hlast.
Qed.

(** ** One call *)

Section Step.
Context {V : Type} `{SendVecOk V}.

Definition contents (vs : list V) : bytes := concat (map sv_content vs).
Definition nonempty_vecs (vs : list V) : Prop := Forall (fun v => 0 < sv_len v) vs.

(** Some vector of the application fails to deliver octets it announced. *)
Definition read_fails : Prop := exists (v : V) n, 0 <= n <= sv_len v /\ sv_read v n = None.

Lemma nonempty_contents vs : nonempty_vecs vs -> contents vs = [] -> vs = [].
Proof.
  intros Hf. destruct Hf as [|v vs Hv Hf]; [done|]. unfold contents. simpl. rewrite sv_len_ok in Hv.
  destruct (sv_content v); simpl in *; [unfold len in Hv; simpl in Hv; lia|done].
Qed.

(** The octets taken are the first of the contents, and as many as the room allows. *)
Lemma fill_ok bufs : forall room,
  0 < room -> nonempty_vecs bufs ->
  (fill_payload (length bufs) bufs room = Some None /\ read_fails) \/
  exists p bufs',
    fill_payload (length bufs) bufs room = Some (Some (p, bufs')) /\ p ++ contents bufs' = contents bufs /\
    nonempty_vecs bufs' /\ len p <= room /\ (bufs' <> [] -> len p = room).
Proof.
  induction bufs as [|v rest IH]; intros room Hr Hf.
  { right. exists [], []. split_and!; [done..|constructor|unfold len; simpl; lia|done]. }
  apply Forall_cons in Hf as [Hv Hf]. cbn [length fill_payload]. unfold sz_min.
  set (n := if room <? sv_len v then room else sv_len v).
  assert (Hn : 0 <= n <= sv_len v /\ n <= room /\ (n = room \/ n = sv_len v)) by (unfold n; destruct (Z.ltb_spec room (sv_len v)); lia).
  destruct Hn as (Hn & Hnr & Hor).
  destruct (sv_read v n) as [[bs v']|] eqn:Er; [|left; split; [done|by exists v, n]].
  destruct (sv_read_ok v n bs v' Hn Er) as [Hbs Hv']. pose proof (sv_len_ok v) as Hlv. pose proof (sv_len_ok v') as Hlv'.
  assert (Hlbs : len bs = n) by (subst bs; unfold len in *; rewrite length_take; lia).
  assert (Hlen' : sv_len v' = sv_len v - n) by (rewrite Hlv', Hv'; unfold len in *; rewrite length_drop; lia).
  assert (Hcat : bs ++ sv_content v' = sv_content v) by (subst bs; rewrite Hv'; apply take_drop).
  destruct (Z.eqb_spec (sv_len v') 0) as [E0|E0].
  - assert (Hnil : sv_content v' = []) by (apply length_zero_iff_nil; unfold len in Hlv'; lia). rewrite Hnil, app_nil_r in Hcat.
    destruct rest as [|w rest]; [|destruct (Z.eqb_spec (room - n) 0) as [E1|E1]]; simpl is_nil; cbn [orb].
    + right. exists bs, []. split_and!; [done| |constructor|lia|done]. unfold contents. simpl. by rewrite Hcat.
    + right. exists bs, (w :: rest). split_and!; [done| |done|lia|lia]. unfold contents. simpl. by rewrite Hcat.
    + destruct (IH (room - n) ltac:(lia) Hf) as [[Hfl Hx]|(p & bufs' & Hfl & Hc & Hne & Hle & Hfull)].
      * left. rewrite Hfl. done.
      * right. exists (bs ++ p), bufs'. rewrite Hfl. simpl. rewrite <- app_assoc, Hc, Hcat, len_app.
        split_and!; [done..|lia|intros; rewrite Hfull by done; lia].
  - right. exists bs, (v' :: rest). assert (n = room) as -> by lia. simpl is_nil. rewrite Z.sub_diag. simpl.
    split_and!; [done| | |lia|lia].
    + unfold contents. simpl. by rewrite app_assoc, Hcat.
    + constructor; [|done]. pose proof (len_nonneg (sv_content v')). lia.
Qed.

(** The stream after [n] octets were charged to its window, and possibly a reset. *)
Definition charge (s : stream V) (n : Z) (reset : bool) : stream V :=
  Stream (st_id s) (st_state s) (st_output_window s - n) (st_data s) (st_send_state s) (st_send_server_timing s) (st_trailers s)
    (st_upstream_refused s) (if reset then true else st_reset_by_peer_action s) (st_bytes_sent s + n).

Lemma charge_zero (s : stream V) : charge s 0 false = s.
Proof. destruct s. unfold charge. simpl. f_equal; lia. Qed.

Definition ends_stream (s : stream V) (send_state : h2o_send_state) : bool :=
  bool_decide (send_state = SEND_FINAL) && negb (st_send_server_timing s) && is_nil (st_trailers s).

(** The connection after the events [es], whose octets are [bs]. *)
Definition conn_after (c : conn) (es : list event) (bs : bytes) : conn :=
  Conn (cn_buf c ++ bs) (cn_capacity c) (cn_window c - len (body es)) (cn_max_frame_size c) (cn_header_table_size c) (cn_table c).

Lemma conn_after_nil c : conn_after c [] [] = c.
Proof. destruct c. unfold conn_after, body, len. simpl. f_equal; [apply app_nil_r|lia]. Qed.

Lemma commit_data (c : conn) (s : stream V) (p : bytes) (b : bool) :
  len p <= 0xffffff ->
  exists h, h2o_http2_encode_frame_header (len p) H2O_HTTP2_FRAME_TYPE_DATA (if b then H2O_HTTP2_FRAME_FLAG_END_STREAM else 0) (st_id s) = Some h /\
    written (st_id s) (EData p b) = Some (h ++ p) /\ len (h ++ p) = 9 + len p /\
    Conn (cn_buf c ++ h ++ p) (cn_capacity c) (cn_window c - len p) (cn_max_frame_size c) (cn_header_table_size c) (cn_table c) =
    conn_after c [EData p b] (h ++ p).
Proof.
  intros Hp. destruct (h2o_http2_encode_frame_header (len p) _ _ _) as [h|] eqn:E.
  - exists h. split_and!; [done|simpl; unfold allocate_frame; by rewrite E|rewrite len_app, (encode_frame_header_length _ _ _ _ _ E); lia|].
    unfold conn_after, body. simpl. by rewrite app_nil_r.
  - exfalso. unfold h2o_http2_encode_frame_header in E. by destruct (Z.ltb_spec 0xffffff (len p)); [lia|].
Qed.

(** The events of a commit: a DATA frame unless there is nothing to say, and a reset after an error. *)
Definition commit_events (s : stream V) (p : bytes) (send_state : h2o_send_state) : list event :=
  (if negb (len p =? 0) || ends_stream s send_state then [EData p (ends_stream s send_state)] else []) ++
  (if bool_decide (send_state = SEND_ERROR) then [EReset (if st_upstream_refused s then 7 else 1)] else []).

Lemma commit_events_body (s : stream V) p x : body (commit_events s p x) = p.
Proof.
  unfold commit_events. rewrite body_app.
  assert (body (if bool_decide (x = SEND_ERROR) then [EReset (if st_upstream_refused s then 7 else 1)] else []) = []) as ->
    by (by case_bool_decide).
  rewrite app_nil_r. destruct (Z.eqb_spec (len p) 0) as [E|E]; simpl; [|by unfold body; simpl; rewrite app_nil_r].
  apply len_zero in E as ->. by destruct (ends_stream s x).
Qed.

(** A reset is thirteen octets. *)
Lemma reset_written id (refused : bool) :
  exists r, written id (EReset (if refused then 7 else 1)) = Some r /\ len r = 13 /\
    forall buf, h2o_http2__encode_rst_stream_frame buf id
                  (- (if refused then H2O_HTTP2_ERROR_REFUSED_STREAM else H2O_HTTP2_ERROR_PROTOCOL)) = Some (buf ++ r).
Proof. eexists. split_and!; [done..|]. intros buf. by destruct refused. Qed.

Lemma commit_ok (c : conn) (s : stream V) p x :
  len p <= cn_max_frame_size c -> cn_max_frame_size c <= 0xffffff ->
  exists bs,
    commit_data_header c s p x =
      Some (conn_after c (commit_events s p x) bs, charge s (len p) (bool_decide (x = SEND_ERROR))) /\
    wire (st_id s) (cn_max_frame_size c) (commit_events s p x) bs /\
    len bs <= (if negb (len p =? 0) || ends_stream s x then 9 + len p else 0) + (if bool_decide (x = SEND_ERROR) then 13 else 0).
Proof.
  intros Hp Hm. unfold commit_data_header. fold (ends_stream s x). set (e := ends_stream s x).
  destruct (commit_data c s p e ltac:(lia)) as (h & Hh & Hw & Hl & Hc).
  destruct (reset_written (st_id s) (st_upstream_refused s)) as (r & Hr & Hlr & Hrb).
  pose proof (commit_events_body s p x) as Hb. unfold commit_events in *. fold e in Hb |- *.
  assert (Hwr : wire (st_id s) (cn_max_frame_size c) [EReset (if st_upstream_refused s then 7 else 1)] r).
  { apply wire_one; [done|unfold len in *; simpl; pose proof (len_nonneg p); unfold len in *; lia|destruct (st_upstream_refused s); lia]. }
  destruct (negb (len p =? 0) || e) eqn:E.
  - rewrite Hh. cbn [mbind option_bind]. unfold h2o_http2_window_consume_window. rewrite Hc.
    assert (Hwd : wire (st_id s) (cn_max_frame_size c) [EData p e] (h ++ p)) by (by apply wire_one).
    case_bool_decide.
    + exists ((h ++ p) ++ r). simpl st_id. simpl st_upstream_refused. rewrite Hrb. simpl. split_and!.
      * unfold conn_after, put_buf, body, set_reset_by_peer_action, charge. simpl. by rewrite !app_nil_r, <- !app_assoc.
      * apply (wire_app _ _ [_] [_]); [|done..]. simpl. subst e x. by rewrite orb_false_r.
      * rewrite len_app. lia.
    + exists (h ++ p). rewrite app_nil_r. split_and!; [done|done|lia].
  - apply orb_false_iff in E as [E%negb_false_iff%Z.eqb_eq He]. apply len_zero in E as ->.
    case_bool_decide.
    + exists r. cbn [mbind option_bind]. rewrite Hrb. cbn [app mbind option_bind]. split_and!; [|done|lia].
      unfold conn_after, put_buf, charge, set_reset_by_peer_action, body, len. simpl. by rewrite !Z.sub_0_r, Z.add_0_r.
    + exists []. simpl. rewrite conn_after_nil, charge_zero. split_and!; [done|constructor|rewrite len_nil; lia].
Qed.

(** A stream whose body is being sent. *)
Record ready (s : stream V) : Prop := {
  rd_id : 0 < st_id s < 2 ^ 31;
  rd_data : nonempty_vecs (st_data s);
  rd_state : (st_state s = STATE_SEND_BODY /\ st_send_state s = SEND_IN_PROGRESS) \/
             (st_state s = STATE_SEND_BODY_IS_FINAL /\ st_send_state s <> SEND_IN_PROGRESS) }.

(** How a call of [h2o_http2_stream_send_pending_data] turns out, by the events that the peer sees. *)
Inductive outcome (s : stream V) (es : list event) (s' : stream V) : Prop :=
| oc_more :
    ready s' -> st_state s' = st_state s -> st_send_state s' = st_send_state s ->
    body es ++ contents (st_data s') = contents (st_data s) ->
    existsb is_end es = false -> existsb is_reset es = false ->
    (0 < st_output_window s -> st_state s = STATE_SEND_BODY_IS_FINAL -> body es <> []) ->
    (st_send_state s <> SEND_ERROR -> st_send_server_timing s' = st_send_server_timing s) ->
    outcome s es s'
| oc_done :
    st_send_state s = SEND_FINAL -> st_send_state s' = SEND_FINAL -> st_state s' = STATE_END_STREAM -> st_data s' = [] ->
    body es = contents (st_data s) ->
    existsb is_end es = negb (st_send_server_timing s) && is_nil (st_trailers s) -> existsb is_reset es = false ->
    outcome s es s'
| oc_abort p :
    st_state s' = STATE_END_STREAM -> st_send_state s' = SEND_ERROR -> st_data s' = [] -> st_send_server_timing s' = false ->
    existsb is_end es = false -> existsb is_reset es = true ->
    body es ++ p = contents (st_data s) ->
    (st_send_state s = SEND_ERROR /\ p = []) \/ read_fails ->
    outcome s es s'.

(** What a call charges to the windows, and the room it takes. *)
Record charged (c : conn) (s : stream V) (cwnd_left : Z) (es : list event) (s' : stream V) : Prop := {
  ch_window : st_output_window s' = st_output_window s - len (body es);
  ch_bytes_sent : st_bytes_sent s' = st_bytes_sent s + len (body es);
  ch_id : st_id s' = st_id s;
  ch_trailers : st_trailers s' = st_trailers s;
  ch_bound : body es <> [] ->
    len (body es) <= cn_window c /\ len (body es) <= st_output_window s /\ len (body es) <= cn_max_frame_size c /\
    len (cn_buf c) + 9 + len (body es) <= Z.min (cn_capacity c) cwnd_left }.

Lemma sz_min_spec x y : sz_min x y = Z.min x y.
Proof. unfold sz_min. destruct (Z.ltb_spec x y); lia. Qed.

Lemma max_payload_size_spec c (s : stream V) cwnd_left :
  0 < h2o_http2_conn_get_buffer_window c cwnd_left -> 0 < st_output_window s -> 0 < cn_max_frame_size c ->
  let room := calc_max_payload_size c s cwnd_left in
  0 < room /\ room <= cn_window c /\ room <= st_output_window s /\ room <= cn_max_frame_size c /\
  len (cn_buf c) + 9 + room <= Z.min (cn_capacity c) cwnd_left.
Proof.
  unfold calc_max_payload_size, h2o_http2_window_get_avail. intros Hb Hs Hm. rewrite !sz_min_spec. cbv zeta.
  assert (Hw : h2o_http2_conn_get_buffer_window c cwnd_left <= cn_window c /\
    len (cn_buf c) + 9 + h2o_http2_conn_get_buffer_window c cwnd_left <= Z.min (cn_capacity c) cwnd_left).
  { revert Hb. unfold h2o_http2_conn_get_buffer_window, h2o_http2_window_get_avail, H2O_HTTP2_FRAME_HEADER_SIZE. cbv zeta.
    repeat match goal with |- context [?a <? ?b] => destruct (Z.ltb_spec a b); cbn [andb] end; lia. }
  repeat match goal with |- context [?a <=? ?b] => destruct (Z.leb_spec a b) end; lia.
Qed.

Lemma commit_events_quiet (s : stream V) p : existsb is_end (commit_events s p SEND_IN_PROGRESS) = false /\
  existsb is_reset (commit_events s p SEND_IN_PROGRESS) = false.
Proof. unfold commit_events, ends_stream. simpl. by destruct (len p =? 0). Qed.

Lemma commit_events_final (s : stream V) p :
  existsb is_end (commit_events s p SEND_FINAL) = negb (st_send_server_timing s) && is_nil (st_trailers s) /\
  existsb is_reset (commit_events s p SEND_FINAL) = false.
Proof.
  unfold commit_events, ends_stream. simpl. destruct (negb _ && _) eqn:E; rewrite ?orb_true_r; [done|].
  rewrite orb_false_r. by destruct (len p =? 0).
Qed.

Lemma commit_events_error (s : stream V) p :
  existsb is_end (commit_events s p SEND_ERROR) = false /\ existsb is_reset (commit_events s p SEND_ERROR) = true.
Proof. unfold commit_events, ends_stream. simpl. by destruct (len p =? 0). Qed.

Lemma charged_intro c (s s' : stream V) cwnd_left es :
  0 < h2o_http2_conn_get_buffer_window c cwnd_left -> 0 < st_output_window s -> 0 < cn_max_frame_size c ->
  len (body es) <= calc_max_payload_size c s cwnd_left ->
  st_output_window s' = st_output_window s - len (body es) -> st_bytes_sent s' = st_bytes_sent s + len (body es) ->
  st_id s' = st_id s -> st_trailers s' = st_trailers s -> charged c s cwnd_left es s'.
Proof.
  intros Hb Hs Hm Hl Hw Hn Hi Ht. constructor; [done..|]. intros _.
  pose proof (max_payload_size_spec c s cwnd_left Hb Hs Hm). simpl in *. lia.
Qed.

(** The error path of [send_data]. *)
Lemma send_failed c (s : stream V) cwnd_left :
  ready s -> 0 < h2o_http2_conn_get_buffer_window c cwnd_left -> 0 < st_output_window s -> 0 < cn_max_frame_size c ->
  fill_payload (length (st_data s)) (st_data s) (calc_max_payload_size c s cwnd_left) = Some None -> read_fails ->
  exists es bs s', h2o_http2_stream_send_pending_data c s cwnd_left = Some (conn_after c es bs, s') /\
    wire (st_id s) (cn_max_frame_size c) es bs /\ charged c s cwnd_left es s' /\ outcome s es s'.
Proof.
  intros [Hid Hd Hst] Hb Hs Hm Hf Hx.
  pose proof (max_payload_size_spec c s cwnd_left Hb Hs Hm) as (Hr & _).
  unfold h2o_http2_stream_send_pending_data, send_data, h2o_http2_window_get_avail.
  destruct (Z.leb_spec (st_output_window s) 0); [lia|]. destruct (Z.eqb_spec (calc_max_payload_size c s cwnd_left) 0); [lia|].
  rewrite Hf. simpl. unfold set_state_end. simpl.
  rewrite bool_decide_false by (destruct Hst as [[-> _]|[-> _]]; done). simpl.
  eexists [EReset 2], _, _. split_and!.
  - unfold conn_after, put_buf, body. simpl. by rewrite Z.sub_0_r.
  - apply wire_one; [done|simpl; unfold len; simpl; lia|lia].
  - apply charged_intro; try done; unfold body, len; simpl; lia.
  - apply (oc_abort _ _ _ (contents (st_data s))); try done. by right.
Qed.

(** The end of [h2o_http2_stream_send_pending_data] when the data ran out ... *)
Lemma emptied (s : stream V) p x :
  ready s -> p = contents (st_data s) -> x = st_send_state s -> (0 < len p \/ x <> SEND_IN_PROGRESS) ->
  exists s1,
    (let t := set_data (charge s (len p) (bool_decide (x = SEND_ERROR))) [] in
     if bool_decide (st_state t = STATE_SEND_BODY_IS_FINAL) then set_state_end t else Some t) = Some s1 /\
    let s' := if bool_decide (st_send_state s1 = SEND_ERROR) then set_send_server_timing s1 false else s1 in
    st_output_window s' = st_output_window s - len p /\ st_bytes_sent s' = st_bytes_sent s + len p /\
    st_id s' = st_id s /\ st_trailers s' = st_trailers s /\ outcome s (commit_events s p x) s'.
Proof.
  intros [Hid Hd Hst] Hp -> Hor. cbn zeta. unfold set_state_end. simpl st_state.
  destruct Hst as [[E Ex]|[E Ex]]; rewrite E; cbn [bool_decide decide]; eexists; (split; [done|]); simpl st_send_state.
  - rewrite Ex. simpl. split_and!; try done. pose proof (commit_events_quiet s p) as [Q1 Q2].
    apply oc_more; try done; [constructor; simpl; auto; constructor|by rewrite commit_events_body, Hp; unfold contents; simpl; rewrite app_nil_r|].
    intros _ HF. congruence.
  - destruct (st_send_state s) eqn:Ess; [done|..]; simpl; split_and!; try done.
    + pose proof (commit_events_final s p) as [Q1 Q2]. apply oc_done; try done. by rewrite commit_events_body.
    + pose proof (commit_events_error s p) as [Q1 Q2]. apply (oc_abort _ _ _ []); try done; [|by left].
      by rewrite app_nil_r, commit_events_body.
Qed.

(** ... and when some of them are left. *)
Lemma remaining (s : stream V) p v bufs :
  ready s -> p ++ contents (v :: bufs) = contents (st_data s) -> nonempty_vecs (v :: bufs) -> 0 < len p ->
  let s1 := set_data (charge s (len p) false) (v :: bufs) in
  outcome s (commit_events s p SEND_IN_PROGRESS) (if bool_decide (st_send_state s1 = SEND_ERROR) then set_send_server_timing s1 false else s1).
Proof.
  intros [Hid Hd Hst] Hp Hne Hl s1. pose proof (commit_events_quiet s p) as [Q1 Q2].
  apply oc_more; rewrite ?commit_events_body; try done; try (by case_bool_decide).
  intros _ _ ->. done.
Qed.

(** A call never stops at an assertion; the frames it writes are charged and turn out as [outcome] says. *)
Lemma send_step c (s : stream V) cwnd_left :
  ready s -> 0 < h2o_http2_conn_get_buffer_window c cwnd_left -> 0 < cn_max_frame_size c <= 0xffffff ->
  exists es bs s', h2o_http2_stream_send_pending_data c s cwnd_left = Some (conn_after c es bs, s') /\
    wire (st_id s) (cn_max_frame_size c) es bs /\ charged c s cwnd_left es s' /\ outcome s es s'.
Proof.
  intros Hrd Hb Hm.
  destruct (Z.leb_spec (st_output_window s) 0) as [Hs|Hs].
  { exists [], [], s. rewrite conn_after_nil. unfold h2o_http2_stream_send_pending_data, h2o_http2_window_get_avail.
    rewrite (proj2 (Z.leb_le _ _)) by done. split_and!; [done|constructor|..].
    - constructor; unfold body, len; simpl; done || lia.
    - apply oc_more; try done. lia. }
  pose proof (max_payload_size_spec c s cwnd_left Hb Hs ltac:(lia)) as (Hr & _ & _ & Hrm & _).
  destruct (fill_ok (st_data s) _ Hr (rd_data _ Hrd)) as [[Hf Hx]|(p & bufs & Hf & Hc & Hne & Hle & Hfull)].
  { apply send_failed; auto; lia. }
  pose proof Hrd as [Hid Hd Hst].
  unfold h2o_http2_stream_send_pending_data, send_data, h2o_http2_window_get_avail.
  rewrite (proj2 (Z.leb_gt _ _)) by done. destruct (Z.eqb_spec (calc_max_payload_size c s cwnd_left) 0); [lia|].
  rewrite Hf. cbn [mbind option_bind].
  destruct (negb (len p =? 0) || _) eqn:E.
  - destruct (commit_ok c s p (if negb (is_nil bufs) then SEND_IN_PROGRESS else st_send_state s) ltac:(lia) ltac:(lia)) as (bs & -> & Hw & _).
    set (x := if negb (is_nil bufs) then _ else _) in *. cbn [mbind option_bind].
    assert (Hch : forall s', st_output_window s' = st_output_window s - len p -> st_bytes_sent s' = st_bytes_sent s + len p ->
      st_id s' = st_id s -> st_trailers s' = st_trailers s -> charged c s cwnd_left (commit_events s p x) s').
    { intros s' ????. apply charged_intro; rewrite ?commit_events_body; auto; lia. }
    exists (commit_events s p x), bs. destruct bufs as [|v bufs]; simpl in x.
    + destruct (emptied s p x) as (s1 & Hs1 & Hs'); [done| |done| |].
      { by rewrite <- Hc, app_nil_r. }
      { apply orb_true_iff in E as [E%negb_true_iff%Z.eqb_neq|E%negb_true_iff%bool_decide_eq_false]; [left; pose proof (len_nonneg p); lia|by right]. }
      cbn zeta in Hs1, Hs'. rewrite Hs1. cbn [mbind option_bind]. eexists. split; [done|]. destruct Hs' as (? & ? & ? & ? & ?). auto.
    + cbn [mbind option_bind]. eexists. split; [done|]. split_and!; [done|apply Hch; by case_bool_decide|].
      apply remaining; try done. by rewrite Hfull.
  - apply orb_false_iff in E as [E%negb_false_iff%Z.eqb_eq E2%negb_false_iff%bool_decide_eq_true].
    destruct bufs as [|v bufs]; [|rewrite Hfull in E by done; lia]. apply len_zero in E as ->.
    destruct Hst as [[Est _]|[_ Ex]]; [|done]. exists [], [], (set_data s []). rewrite conn_after_nil. split_and!; [|constructor|..].
    + simpl. rewrite Est. simpl. by rewrite E2.
    + constructor; unfold body, len; simpl; done || lia.
    + apply oc_more; try done; [constructor; simpl; auto; constructor|congruence].
Qed.
End Step.
