(* ===== verification/Http2SendRun.v ===== *)
(** * A response body from its first octet to the end of the stream

    A stream is supplied with contents by the generator and called by the scheduler, in any order the
    code allows, while the windows, the settings and the write buffer change in between. *)
From S2P Require Import Prelude HpackInt HeaderTable Headers Http2Frame HpackFlatten Http2Send Http2SendOk.
From Stdlib Require Import ZArith Lia.
From stdpp Require Import base numbers option strings list.
Open Scope Z_scope.

Section Run.
Context {V : Type} `{SendVecOk V}.

(** The generator supplies vectors; the scheduler calls the stream, with the window, the connection and the write
    size of that moment. *)
Inductive action := Supply (bufs : list V) (state : h2o_send_state) | Emit (c : conn) (window cwnd_left : Z).

Definition with_window (s : stream V) (window : Z) : stream V :=
  Stream (st_id s) (st_state s) window (st_data s) (st_send_state s) (st_send_server_timing s) (st_trailers s)
    (st_upstream_refused s) (st_reset_by_peer_action s) (st_bytes_sent s).

(** The octets that the stream adds to the write buffers.  The scheduler does not call a stream that ended. *)
Fixpoint run (acts : list action) (s : stream V) : option (bytes * stream V) :=
  match acts with
  | [] => Some ([], s)
  | Supply bufs state :: acts => s ← finalostream_send_body s bufs state; run acts s
  | Emit c window cwnd_left :: acts =>
      if bool_decide (st_state s = STATE_END_STREAM) then None
      else
        '(c', s) ← h2o_http2_stream_send_pending_data c (with_window s window) cwnd_left;
        '(bs, s) ← run acts s;
        Some (drop (length (cn_buf c)) (cn_buf c') ++ bs, s)
  end.

Definition supplied (acts : list action) : bytes :=
  concat (map (fun a => match a with Supply bufs _ => contents bufs | Emit _ _ _ => [] end) acts).

(** [do_emit_writereq] starts the scheduler only when the connection has room; the peer accepts frames of [m] octets. *)
Definition admissible (m : Z) (a : action) : Prop :=
  match a with
  | Supply _ _ => True
  | Emit c _ cwnd_left =>
      0 < h2o_http2_conn_get_buffer_window c cwnd_left /\ 0 < cn_max_frame_size c <= 0xffffff /\ cn_max_frame_size c <= m
  end.

Lemma contents_filter (vs : list V) : contents (filter (fun v => sv_len v <> 0) vs) = contents vs.
Proof.
  unfold contents. induction vs as [|v vs IH]; [done|]. rewrite filter_cons. case_decide as Hz; simpl; rewrite IH; [done|].
  rewrite sv_len_ok in Hz. by rewrite (len_zero (sv_content v)) by lia.
Qed.

Lemma supply_ok s bufs x s' :
  ready s -> finalostream_send_body s bufs x = Some s' ->
  ready s' /\ st_data s = [] /\ contents (st_data s') = contents bufs /\ st_id s' = st_id s /\ st_trailers s' = st_trailers s /\
  st_send_server_timing s' = st_send_server_timing s.
Proof.
  intros [Hid Hd Hst]. unfold finalostream_send_body, h2o_send_state_is_in_progress, h2o_http2_stream_has_pending_data.
  destruct (st_data s) eqn:Ed; [|by rewrite orb_true_r]. simpl. rewrite orb_false_r.
  destruct Hst as [[Es Ess]|[Es Ess]]; [|by rewrite bool_decide_false].
  rewrite Ess, Es. simpl. destruct (_ || _) eqn:E; [|done]. intros [= <-].
  assert (Hne : nonempty_vecs (filter (fun v => sv_len v <> 0) bufs)).
  { apply Forall_forall. intros v [Hv _]%list_elem_of_filter. rewrite sv_len_ok in *. pose proof (len_nonneg (sv_content v)). lia. }
  case_bool_decide; simpl; (split_and!; [|done|apply contents_filter|done..]); constructor; simpl; auto.
Qed.

(** Between two actions the stream is being sent or has ended; in the latter case nothing may follow. *)
Lemma ended_stays acts (s : stream V) bs s' :
  st_state s = STATE_END_STREAM -> st_send_state s <> SEND_IN_PROGRESS -> run acts s = Some (bs, s') -> acts = [] /\ bs = [] /\ s' = s.
Proof.
  intros Hs Hx. destruct acts as [|[bufs x|c w n] acts]; simpl; [by intros [= <- <-]|..].
  - unfold finalostream_send_body, h2o_send_state_is_in_progress. rewrite bool_decide_false by done. done.
  - rewrite bool_decide_true by done. done.
Qed.

(** What the peer has after the actions. *)
Record delivered (s s' : stream V) (total : bytes) (es : list event) : Prop := {
  dl_prefix : exists left, body es ++ left = total;
  dl_open : st_state s' <> STATE_END_STREAM ->
    existsb closes es = false /\ body es ++ contents (st_data s') = total;
  dl_ended : st_state s' = STATE_END_STREAM ->
    (body es = total /\ existsb is_reset es = false /\ st_send_state s' = SEND_FINAL /\
     existsb is_end es = negb (st_send_server_timing s) && is_nil (st_trailers s)) \/
    (existsb is_reset es = true /\ existsb is_end es = false /\ st_send_state s' = SEND_ERROR);
  dl_error : st_send_state s = SEND_ERROR -> st_send_state s' = SEND_ERROR }.

Lemma delivered_nil s : ready s -> delivered s s (contents (st_data s)) [].
Proof. intros [Hid Hd Hst]. constructor; [by eexists|done| |done]. intros E. destruct Hst as [[? _]|[? _]]; congruence. Qed.

(** One call more in front. *)
Lemma delivered_more s s1 s' es fs total :
  existsb closes es = false -> body es ++ contents (st_data s1) = contents (st_data s) ->
  st_send_state s1 = st_send_state s -> st_trailers s1 = st_trailers s ->
  (st_send_state s <> SEND_ERROR -> st_send_server_timing s1 = st_send_server_timing s) ->
  delivered s1 s' (contents (st_data s1) ++ total) fs -> delivered s s' (contents (st_data s) ++ total) (es ++ fs).
Proof.
  intros Hq Hb Hx Ht Htm [[l Hl] Hop Hen Her]. constructor; rewrite ?body_app, <- ?Hb, <- ?app_assoc.
  - exists l. by rewrite <- app_assoc, Hl.
  - intros Hne. destruct (Hop Hne) as [Hq' Hb']. by rewrite existsb_app, Hq, Hq', Hb'.
  - intros Hend. apply open_events in Hq as [Q1 Q2].
    rewrite !existsb_app, Q1, Q2. simpl. destruct (Hen Hend) as [(Hbody & Hr & Hs & He)|Hab]; [left|by right].
    rewrite Hbody, He, Ht, Htm; [done|]. rewrite <- Hx. intros E. apply Her in E. congruence.
  - rewrite <- Hx. done.
Qed.

Lemma delivered_run acts s bs s' m :
  ready s -> Forall (admissible m) acts -> run acts s = Some (bs, s') ->
  exists es, wire (st_id s) m es bs /\ delivered s s' (contents (st_data s) ++ supplied acts) es.
Proof.
  revert s bs. induction acts as [|[bufs x|c w n] acts IH]; intros s bs Hrd Hadm; simpl.
  - intros [= <- <-]. exists []. split; [constructor|]. rewrite app_nil_r. by apply delivered_nil.
  - intros (s1 & Hs1 & Hrun)%bind_Some. inversion Hadm; subst.
    destruct (supply_ok _ _ _ _ Hrd Hs1) as (Hrd1 & Hd & Hc & Hid & Ht & Htm).
    destruct (IH s1 bs Hrd1 ltac:(done) Hrun) as (es & Hw & Hdl). exists es. rewrite <- Hid. split; [done|].
    rewrite Hd. unfold supplied. simpl. fold (supplied acts). change (contents (@nil V)) with (@nil Z). simpl. rewrite <- Hc.
    destruct Hdl as [Hp Hop Hen _]. constructor; rewrite <- ?Ht, <- ?Htm; auto.
    intros E. destruct Hrd as [_ _ [[_ Es]|[Ef Es]]]; [congruence|].
    exfalso. revert Hs1. unfold finalostream_send_body, h2o_send_state_is_in_progress. by rewrite bool_decide_false.
  - rewrite bool_decide_false by (destruct Hrd as [_ _ [[-> _]|[-> _]]]; done).
    apply Forall_cons in Hadm as [(Hb & Hm & Hmm) Hadm'].
    assert (Hrdw : ready (with_window s w)) by (destruct Hrd; by constructor).
    destruct (send_step c (with_window s w) n Hrdw Hb Hm) as (es & bs1 & s1 & -> & Hw & Hch & Hoc).
    cbn [mbind option_bind]. intros ([bs2 s2] & Hrun & [= <- <-])%bind_Some. simpl. rewrite drop_app_length.
    apply (wire_mono _ _ m) in Hw; [|done]. destruct Hch as [_ _ Hid Ht _]. simpl in Hid, Ht.
    destruct Hoc as [Hrd1 Hst Hx Hbody Q1 Q2 _ Htm|Hx Hx1 Hst Hd Hbody Q1 Q2|p Hst Hx Hd Htm Q1 Q2 Hbody _].
    + destruct (IH s1 bs2 Hrd1 Hadm' Hrun) as (fs & Hwf & Hdl). exists (es ++ fs).
      pose proof (proj2 (open_events _) (conj Q1 Q2)) as Hq. split; [rewrite Hid in Hwf; by apply wire_app|].
      by apply (delivered_more s s1).
    + apply ended_stays in Hrun as (-> & -> & ->); [|done|congruence]. exists es. rewrite !app_nil_r. split; [done|].
      constructor; [by exists []; rewrite app_nil_r|done| |simpl in Hx; congruence]. intros _. left. by rewrite Hx1.
    + apply ended_stays in Hrun as (-> & -> & ->); [|done|congruence]. exists es. rewrite !app_nil_r. split; [done|].
      constructor; [by exists p|done| |done]. intros _. by right.
Qed.

(** With open windows and vectors that deliver, every call brings the end of a final body nearer. *)
Lemma finishing acts s m :
  ready s -> st_send_state s = SEND_FINAL -> st_state s = STATE_SEND_BODY_IS_FINAL -> ~ read_fails (V := V) ->
  Forall (admissible m) acts -> Forall (fun a => match a with Emit _ w _ => 0 < w | Supply _ _ => False end) acts ->
  len (contents (st_data s)) < len acts ->
  exists n bs s', run (take n acts) s = Some (bs, s') /\ st_state s' = STATE_END_STREAM /\ st_send_state s' = SEND_FINAL.
Proof.
  intros Hrd Hx Hst Hnf. revert s Hrd Hx Hst. induction acts as [|[|c w n] acts IH]; intros s Hrd Hx Hst Hadm Hop Hlen.
  - rewrite len_nil in Hlen. pose proof (len_nonneg (contents (st_data s))). lia.
  - apply Forall_cons in Hop as [[] _].
  - apply Forall_cons in Hadm as [(Hb & Hm & Hmm) Hadm], Hop as [Hw Hop].
    assert (Hrdw : ready (with_window s w)) by (destruct Hrd; by constructor).
    destruct (send_step c (with_window s w) n Hrdw Hb Hm) as (es & bs1 & s1 & Hs1 & _ & _ & Hoc).
    destruct Hoc as [Hrd1 Hst1 Hx1 Hbody _ _ Hpos _|_ Hx1 Hst1 _ _ _ _|p _ _ _ _ _ _ _ [[E _]|E]]; [..|simpl in E; congruence|done].
    + simpl in Hst1, Hx1, Hbody, Hpos. rewrite len_cons in Hlen.
      assert (Hl : len (contents (st_data s1)) < len acts).
      { rewrite <- Hbody, len_app in Hlen. specialize (Hpos Hw Hst). destruct (body es); [done|]. rewrite len_cons in Hlen.
        pose proof (len_nonneg l). lia. }
      destruct (IH s1 Hrd1 ltac:(congruence) ltac:(congruence) Hadm Hop Hl) as (k & bs2 & s' & Hrun & Hend & Hfin).
      eexists (S k), _, s'. simpl. rewrite bool_decide_false by congruence. rewrite Hs1. simpl. by rewrite Hrun.
    + eexists 1%nat, _, s1. simpl. rewrite bool_decide_false by congruence. rewrite Hs1. simpl. done.
Qed.

(** C27: a call of [h2o_http2_stream_send_pending_data] never stops at an assertion, and the DATA payload it adds to the
    write buffer exceeds neither the window of the connection nor the one of the stream nor the peer's frame size, fits
    the buffer and the write size behind its header, and is charged to both windows to the octet. *)
Theorem flow_control (c : conn) (s : stream V) (cwnd_left : Z) :
  ready s -> 0 < h2o_http2_conn_get_buffer_window c cwnd_left -> 4 <= cn_max_frame_size c <= 0xffffff ->
  exists c' s' sent es,
    h2o_http2_stream_send_pending_data c s cwnd_left = Some (c', s') /\ cn_buf c' = cn_buf c ++ sent /\
    receive (length sent) (st_id s) (cn_max_frame_size c) sent = Some es /\
    cn_window c' = cn_window c - len (body es) /\ st_output_window s' = st_output_window s - len (body es) /\
    (body es <> [] ->
     len (body es) <= cn_window c /\ len (body es) <= st_output_window s /\ len (body es) <= cn_max_frame_size c /\
     len (cn_buf c) + 9 + len (body es) <= Z.min (cn_capacity c) cwnd_left).
Proof.
  intros Hrd Hb Hm. destruct (send_step c s cwnd_left Hrd Hb ltac:(lia)) as (es & bs & s' & Hs & Hw & [Hwin _ _ _ Hbd] & _).
  exists (conn_after c es bs), s', bs, es. split_and!; try done. apply receive_wire; [apply Hrd|lia|done|done].
Qed.

(** C28: however the calls of the scheduler, the supplies of the generator and the changes of the windows interleave, what
    the peer reads on the stream is a prefix of the contents supplied.  As long as the stream is open, the rest is in
    the queue of the stream.  A stream that ends has delivered everything, with END_STREAM on its last DATA frame unless
    trailers are to follow, or was reset because of an error. *)
Theorem body_delivered (acts : list action) (s s' : stream V) (bs : bytes) (m : Z) :
  ready s -> Forall (admissible m) acts -> 4 <= m -> run acts s = Some (bs, s') ->
  let total := contents (st_data s) ++ supplied acts in
  exists es, receive (length bs) (st_id s) m bs = Some es /\ (exists left, body es ++ left = total) /\
    (st_state s' <> STATE_END_STREAM -> existsb closes es = false /\ body es ++ contents (st_data s') = total) /\
    (st_state s' = STATE_END_STREAM ->
     (body es = total /\ existsb is_reset es = false /\
      existsb is_end es = negb (st_send_server_timing s) && is_nil (st_trailers s)) \/
     (existsb is_reset es = true /\ st_send_state s' = SEND_ERROR)).
Proof.
  intros Hrd Hadm Hm Hrun total. destruct (delivered_run acts s bs s' m Hrd Hadm Hrun) as (es & Hw & [Hp Hop Hen _]).
  exists es. split_and!; auto; [apply receive_wire; [apply Hrd|lia|done|done]|].
  intros E. destruct (Hen E) as [(? & ? & _ & ?)|(? & _ & ?)]; auto.
Qed.

(** C29: once the last contents of a response are queued, and if the vectors deliver the octets they announce, as many calls
    with open windows as there are octets, and one, suffice to end the stream, with every octet read by the peer. *)
Theorem body_finished (acts : list action) (s : stream V) (m : Z) :
  ready s -> st_send_state s = SEND_FINAL -> st_state s = STATE_SEND_BODY_IS_FINAL ->
  (forall (v : V) n, 0 <= n <= sv_len v -> sv_read v n <> None) ->
  Forall (admissible m) acts -> 4 <= m -> Forall (fun a => match a with Emit _ w _ => 0 < w | Supply _ _ => False end) acts ->
  len acts = len (contents (st_data s)) + 1 ->
  exists n bs s' es, run (take n acts) s = Some (bs, s') /\ st_state s' = STATE_END_STREAM /\
    receive (length bs) (st_id s) m bs = Some es /\ body es = contents (st_data s) /\
    existsb is_end es = negb (st_send_server_timing s) && is_nil (st_trailers s).
Proof.
  intros Hrd Hx Hst Hread Hadm Hm Hop Hlen.
  destruct (finishing acts s m) as (n & bs & s' & Hrun & Hend & Hfin); auto; [intros (v & k & ? & ?); by apply (Hread v k)|lia|].
  destruct (delivered_run (take n acts) s bs s' m Hrd (Forall_take _ n _ Hadm) Hrun) as (es & Hw & Hdl).
  exists n, bs, s', es. split; [done|]. split; [done|]. split; [apply receive_wire; [apply Hrd|lia|done|done]|].
  destruct (dl_ended _ _ _ _ Hdl Hend) as [(Hbody & _ & _ & He)|(_ & _ & E)]; [|congruence]. split; [|done].
  rewrite Hbody. assert (supplied (take n acts) = []) as ->; [|apply app_nil_r].
  apply (Forall_take _ n) in Hop. clear -Hop. unfold supplied. induction Hop as [|[|] l Ha _ IH]; [done|done|exact IH].
Qed.
End Run.
Arguments action : clear implicits.

(** ** Examples *)

Definition demo_conn : conn := Conn [] 4096 10 16384 4096 (empty_table 4096).
Definition demo_stream : stream bytes :=
  Stream 1 STATE_SEND_BODY_IS_FINAL 4 [[104; 101; 108]; [108; 111]] SEND_FINAL false [] false false 0.

Lemma demo_ready : ready demo_stream.
Proof. constructor; simpl; [lia|repeat constructor|right; done]. Qed.

Lemma flow_control_witness :
  0 < h2o_http2_conn_get_buffer_window demo_conn 65536 /\
  exists c' s' sent es,
    h2o_http2_stream_send_pending_data demo_conn demo_stream 65536 = Some (c', s') /\ cn_buf c' = cn_buf demo_conn ++ sent /\
    receive (length sent) 1 16384 sent = Some es /\
    cn_window c' = 10 - len (body es) /\ st_output_window s' = 4 - len (body es) /\
    (body es <> [] -> len (body es) <= 10 /\ len (body es) <= 4 /\ len (body es) <= 16384 /\
     len (cn_buf demo_conn) + 9 + len (body es) <= Z.min 4096 65536).
Proof. split; [reflexivity|]. apply (flow_control demo_conn demo_stream 65536 demo_ready eq_refl). simpl. lia. Defined.

Definition demo_acts : list (action bytes) := repeat (Emit demo_conn 3 65536) 2.

Lemma body_delivered_witness :
  exists bs s', run demo_acts demo_stream = Some (bs, s') /\
  exists es, receive (length bs) 1 16384 bs = Some es /\ (exists left, body es ++ left = lit "hello" ++ []) /\
    (st_state s' <> STATE_END_STREAM -> existsb closes es = false /\ body es ++ contents (st_data s') = lit "hello" ++ []) /\
    (st_state s' = STATE_END_STREAM ->
     (body es = lit "hello" ++ [] /\ existsb is_reset es = false /\ existsb is_end es = true) \/
     (existsb is_reset es = true /\ st_send_state s' = SEND_ERROR)).
Proof.
  eexists _, _. split; [vm_compute; reflexivity|].
  assert (Hadm : Forall (admissible 16384) demo_acts) by (repeat (constructor; [repeat split; vm_compute; congruence|]); constructor).
  refine (body_delivered demo_acts demo_stream _ _ 16384 demo_ready Hadm _ _); [lia|vm_compute; reflexivity].
Defined.

Lemma body_finished_witness :
  exists n bs s' es, run (take n (repeat (Emit demo_conn 3 65536) 6)) demo_stream = Some (bs, s') /\ st_state s' = STATE_END_STREAM /\
    receive (length bs) 1 16384 bs = Some es /\ body es = lit "hello" /\ existsb is_end es = true.
Proof.
  assert (Hread : forall v n, 0 <= n <= sv_len v -> sv_read v n <> None).
  { intros v n Hn. simpl in *. unfold h2o_sendvec_read_raw. destruct (Z.ltb_spec (len v) n); [lia|done]. }
  refine (body_finished (repeat (Emit demo_conn 3 65536) 6) demo_stream 16384 demo_ready eq_refl eq_refl Hread _ _ _ _); [|lia| |done].
  - repeat (constructor; [repeat split; vm_compute; congruence|]); constructor.
  - repeat (constructor; [lia|]); constructor.
Defined.

(** When a vector fails to deliver while trailers are known, the stream is reset and its trailers are written behind
    the RST_STREAM frame all the same: only the server-timing trailer is suppressed.  Below, the one vector of the
    response announces five octets and fails; the frames written are RST_STREAM and HEADERS, of the same stream. *)
#[local] Instance failing_sendvec : SendVec unit := {| sv_len _ := 5; sv_read _ _ := None |}.

Definition failed_stream : stream unit :=
  Stream 1 STATE_SEND_BODY_IS_FINAL 4 [()] SEND_FINAL false [Header (NStr (lit "x")) None (lit "y") false] false false 0.

Definition written_frames (c : conn) : option (h2o_http2_frame_t * h2o_http2_frame_t) :=
  match h2o_http2_decode_frame (cn_buf c) 16384 with
  | Ok (f, n) => match h2o_http2_decode_frame (drop (Z.to_nat n) (cn_buf c)) 16384 with Ok (g, _) => Some (f, g) | _ => None end
  | _ => None
  end.

Example trailers_after_reset :
  ('(_, _, _, c, _) ← emit_writereq_of_openref [] demo_conn failed_stream 65536 65536;
   '(f, g) ← written_frames c;
   Some [(f_type f, f_stream_id f); (f_type g, f_stream_id g)]) =
  Some [(H2O_HTTP2_FRAME_TYPE_RST_STREAM, 1); (H2O_HTTP2_FRAME_TYPE_HEADERS, 1)].
Proof. vm_compute. reflexivity. Qed.
