(* ===== verification/Mimemap.v ===== *)
(** * Media types by extension (lib/handler/mimemap.c)

    The two hash tables are finite maps: from extensions to types, and from media types to types
    (the key of [typeset] is the media type of its members).  The order of the slots of a hash
    table is that of the list of the map.  A dynamic type is known by its number, that of its
    configuration of a path; reference counts only matter to release memory.  The list of default
    types (mimemap/defaults.c.h) is an argument of [h2o_mimemap_create]. *)
From S2P Require Import Prelude Strings.
From Stdlib Require Import ZArith Lia.
From stdpp Require Import base numbers option list gmap strings.
Open Scope Z_scope.

Record h2o_mime_attributes_t := MimeAttr {
  is_compressible : bool;
  priority_highest : bool }.

#[export] Instance mime_attr_eq_dec : EqDecision h2o_mime_attributes_t.
Proof. solve_decision. Defined.

Inductive h2o_mimemap_type_t :=
| TypeMimetype (mimetype : bytes) (attr : h2o_mime_attributes_t)
| TypeDynamic (pathconf : nat).

Record h2o_mimemap_t := Mimemap {
  mm_extmap : gmap bytes h2o_mimemap_type_t;
  mm_typeset : gmap bytes h2o_mimemap_type_t;
  mm_default_type : h2o_mimemap_type_t;
  mm_num_dynamic : Z }.

Definition dynamic_count (type : h2o_mimemap_type_t) : Z := match type with TypeMimetype _ _ => 0 | TypeDynamic _ => 1 end.

Definition on_unlink (m : h2o_mimemap_t) (type : h2o_mimemap_type_t) : h2o_mimemap_t :=
  Mimemap (mm_extmap m) (mm_typeset m) (mm_default_type m) (wrap64 (mm_num_dynamic m - dynamic_count type)).
Definition on_link (m : h2o_mimemap_t) (type : h2o_mimemap_type_t) : h2o_mimemap_t :=
  Mimemap (mm_extmap m) (mm_typeset m) (mm_default_type m) (wrap64 (mm_num_dynamic m + dynamic_count type)).

Definition add_to_typeset (ts : gmap bytes h2o_mimemap_type_t) (type : h2o_mimemap_type_t) : gmap bytes h2o_mimemap_type_t :=
  match type with
  | TypeMimetype mimetype _ => match ts !! mimetype with None => <[mimetype := type]> ts | Some _ => ts end
  | TypeDynamic _ => ts
  end.

Definition rebuild_typeset (m : h2o_mimemap_t) : h2o_mimemap_t :=
  Mimemap (mm_extmap m) (fold_left add_to_typeset (map_to_list (mm_extmap m)).*2 ∅) (mm_default_type m) (mm_num_dynamic m).

(** ** Attributes *)

(** The octets before the first semicolon. *)
Fixpoint before_params (mime : bytes) : bytes :=
  match mime with [] => [] | c :: s => if c =? 59 then [] else c :: before_params s end.

Definition starts_with (s prefix : bytes) : bool := bool_decide (take (length prefix) s = prefix).
Definition ends_with (s suffix : bytes) : bool :=
  (length suffix <=? length s)%nat && bool_decide (drop (length s - length suffix) s = suffix).

Definition h2o_mimemap_get_default_attributes (mime : bytes) : h2o_mime_attributes_t :=
  let mime := before_params mime in
  let mime_is x := bool_decide (mime = lit x) in
  if mime_is "text/css"%string || mime_is "application/ecmascript"%string || mime_is "application/javascript"%string
     || mime_is "text/ecmascript"%string || mime_is "text/javascript"%string then MimeAttr true true
  else if mime_is "application/json"%string || mime_is "application/xml"%string || starts_with mime (lit "text/")
          || ends_with mime (lit "+json") || ends_with mime (lit "+xml") then MimeAttr true false
  else MimeAttr false false.

(** ** Types *)

Definition create_extension_type (mime : bytes) (attr : option h2o_mime_attributes_t) : h2o_mimemap_type_t :=
  let n := length (before_params mime) in
  TypeMimetype (map h2o_tolower (take n mime) ++ drop n mime)
    (match attr with Some attr => attr | None => h2o_mimemap_get_default_attributes mime end).

(** The octets before a semicolon or a space, if there is one. *)
Fixpoint type_end (mime : bytes) : option bytes :=
  match mime with
  | [] => None
  | c :: s => if (c =? 59) || (c =? 32) then Some [] else (fun t => c :: t) <$> type_end s
  end.

Definition h2o_mimemap_get_type_by_mimetype (m : h2o_mimemap_t) (mime : bytes) (exact_match_only : bool)
    : option h2o_mimemap_type_t :=
  match mm_typeset m !! mime with
  | Some type => Some type
  | None => if exact_match_only then None else t ← type_end mime; mm_typeset m !! t
  end.

Definition h2o_mimemap_get_type_by_extension (m : h2o_mimemap_t) (ext : bytes) : h2o_mimemap_type_t :=
  if (0 <? len ext) && (len ext <? 256) then
    default (mm_default_type m) (mm_extmap m !! h2o_strtolower ext)
  else mm_default_type m.

Definition set_default_type (m : h2o_mimemap_t) (type : h2o_mimemap_type_t) : h2o_mimemap_t :=
  let m := on_unlink m (mm_default_type m) in
  let m := Mimemap (mm_extmap m) (mm_typeset m) type (mm_num_dynamic m) in
  rebuild_typeset (on_link m type).

Definition set_type (m : h2o_mimemap_t) (ext : bytes) (type : h2o_mimemap_type_t) : h2o_mimemap_t :=
  let m := match mm_extmap m !! ext with Some oldtype => on_unlink m oldtype | None => m end in
  let m := Mimemap (<[ext := type]> (mm_extmap m)) (mm_typeset m) (mm_default_type m) (mm_num_dynamic m) in
  rebuild_typeset (on_link m type).

(** A type that is there, or a new one. *)
Definition obtain_type (m : h2o_mimemap_t) (mime : bytes) (attr : option h2o_mime_attributes_t) : h2o_mimemap_type_t :=
  match h2o_mimemap_get_type_by_mimetype m mime true with
  | Some (TypeMimetype _ attr' as type) =>
      match attr with
      | None => type
      | Some a => if bool_decide (attr' = a) then type else create_extension_type mime attr
      end
  | _ => create_extension_type mime attr
  end.

Definition h2o_mimemap_set_default_type (m : h2o_mimemap_t) (mime : bytes) (attr : option h2o_mime_attributes_t) : h2o_mimemap_t :=
  set_default_type m (obtain_type m mime attr).

Definition h2o_mimemap_define_mimetype (m : h2o_mimemap_t) (ext mime : bytes) (attr : option h2o_mime_attributes_t) : h2o_mimemap_t :=
  set_type m ext (obtain_type m mime attr).

Definition h2o_mimemap_define_dynamic (m : h2o_mimemap_t) (exts : list bytes) (pathconf : nat) : h2o_mimemap_t :=
  fold_left (fun m ext => if is_nil ext then set_default_type m (TypeDynamic pathconf) else set_type m ext (TypeDynamic pathconf)) exts m.

Definition h2o_mimemap_remove_type (m : h2o_mimemap_t) (ext : bytes) : h2o_mimemap_t :=
  match mm_extmap m !! ext with
  | None => m
  | Some type =>
      let m := on_unlink m type in
      rebuild_typeset (Mimemap (delete ext (mm_extmap m)) (mm_typeset m) (mm_default_type m) (mm_num_dynamic m))
  end.

Definition clear_one (m : h2o_mimemap_t) (entry : bytes * h2o_mimemap_type_t) : h2o_mimemap_t :=
  let m := on_unlink m entry.2 in
  Mimemap (delete entry.1 (mm_extmap m)) (mm_typeset m) (mm_default_type m) (mm_num_dynamic m).

Definition h2o_mimemap_clear_types (m : h2o_mimemap_t) : h2o_mimemap_t :=
  rebuild_typeset (fold_left clear_one (map_to_list (mm_extmap m)) m).

Definition h2o_mimemap_has_dynamic_type (m : h2o_mimemap_t) : bool := negb (mm_num_dynamic m =? 0).
Definition h2o_mimemap_get_default_type (m : h2o_mimemap_t) : h2o_mimemap_type_t := mm_default_type m.

Definition h2o_mimemap_create (defaults : list (bytes * bytes)) : h2o_mimemap_t :=
  let default_type := create_extension_type (lit "application/octet-stream") None in
  let m := on_link (Mimemap ∅ ∅ default_type 0) default_type in
  rebuild_typeset (fold_left (fun m '(ext, mime) => h2o_mimemap_define_mimetype m ext mime None) defaults m).

(** ** The invariant *)

Definition ext_dynamics (e : gmap bytes h2o_mimemap_type_t) : Z := map_fold (fun _ t n => dynamic_count t + n) 0 e.

Record mimemap_ok (m : h2o_mimemap_t) : Prop := {
  mo_count : mm_num_dynamic m = ext_dynamics (mm_extmap m) + dynamic_count (mm_default_type m);
  mo_bound : Z.of_nat (size (mm_extmap m)) < 2 ^ 63;
  mo_typeset k t : mm_typeset m !! k = Some t -> (exists a, t = TypeMimetype k a) /\ exists ext, mm_extmap m !! ext = Some t;
  mo_types ext k a : mm_extmap m !! ext = Some (TypeMimetype k a) -> is_Some (mm_typeset m !! k) }.

Lemma dynamic_count_range t : 0 <= dynamic_count t <= 1.
Proof. destruct t; simpl; lia. Qed.

Lemma ext_dynamics_insert e k t : e !! k = None -> ext_dynamics (<[k := t]> e) = dynamic_count t + ext_dynamics e.
Proof. intros H. unfold ext_dynamics. rewrite map_fold_insert_L; [done|intros; lia|done]. Qed.

Lemma ext_dynamics_delete e k t : e !! k = Some t -> ext_dynamics e = dynamic_count t + ext_dynamics (delete k e).
Proof. intros H. unfold ext_dynamics. by rewrite (map_fold_delete_L _ _ k t) by (intros; lia || done). Qed.

Lemma ext_dynamics_range e : 0 <= ext_dynamics e <= Z.of_nat (size e).
Proof.
  unfold ext_dynamics. induction e as [|k t e Hk Hfirst IH] using map_first_key_ind; [done|].
  rewrite map_fold_insert_first_key by done. rewrite map_size_insert_None by done. pose proof (dynamic_count_range t). lia.
Qed.

(** The table of types, from any list of types. *)
Lemma typeset_fold l : forall ts,
  (forall k t, fold_left add_to_typeset l ts !! k = Some t -> ts !! k = Some t \/ t ∈ l /\ exists a, t = TypeMimetype k a) /\
  (forall k, is_Some (ts !! k) -> is_Some (fold_left add_to_typeset l ts !! k)) /\
  (forall k a, TypeMimetype k a ∈ l -> is_Some (fold_left add_to_typeset l ts !! k)).
Proof.
  induction l as [|t l IH]; intros ts; cbn [fold_left].
  - split_and!; [by left|done|]. intros k a H. by apply not_elem_of_nil in H.
  - destruct (IH (add_to_typeset ts t)) as (H1 & H2 & H3).
    assert (Hadd : forall k u, add_to_typeset ts t !! k = Some u -> ts !! k = Some u \/ u = t /\ exists a, t = TypeMimetype k a).
    { intros k u. destruct t as [mt a|d]; simpl; [|by left]. destruct (ts !! mt) eqn:E; [by left|].
      intros [[-> <-]|[_ ?]]%lookup_insert_Some; [right; eauto|by left]. }
    assert (Hkeep : forall k, is_Some (ts !! k) -> is_Some (add_to_typeset ts t !! k)).
    { intros k Hk. destruct t as [mt a|d]; simpl; [|done]. destruct (ts !! mt) eqn:E; [done|]. rewrite lookup_insert_is_Some. destruct (decide (mt = k)); auto. }
    split_and!.
    + intros k u Hu. apply H1 in Hu as [[?|[-> [a Ha]]]%Hadd|[? ?]]; [by left|right|right].
      * split; [left|eauto].
      * split; [by right|done].
    + intros k Hk. by apply H2, Hkeep.
    + intros k a [<-|Hin]%elem_of_cons; [|by eapply H3]. apply H2. simpl. destruct (ts !! k) eqn:E; [by rewrite E|]. rewrite lookup_insert_eq. eauto.
Qed.

Lemma rebuild_ok m :
  mm_num_dynamic m = ext_dynamics (mm_extmap m) + dynamic_count (mm_default_type m) -> Z.of_nat (size (mm_extmap m)) < 2 ^ 63 ->
  mimemap_ok (rebuild_typeset m).
Proof.
  intros Hn Hb. destruct (typeset_fold (map_to_list (mm_extmap m)).*2 ∅) as (H1 & _ & H3).
  split; simpl; [done|done| |].
  - intros k t Ht. apply H1 in Ht as [Ht|[Hin Ha]]; [by rewrite lookup_empty in Ht|]. split; [done|].
    apply list_elem_of_fmap in Hin as ([ext t'] & -> & Hin). exists ext. by apply elem_of_map_to_list in Hin.
  - intros ext k a He. eapply H3. apply list_elem_of_fmap. exists (ext, TypeMimetype k a). split; [done|]. by apply elem_of_map_to_list.
Qed.

Lemma unlink_default_ok m : mimemap_ok m -> wrap64 (mm_num_dynamic m - dynamic_count (mm_default_type m)) = ext_dynamics (mm_extmap m).
Proof.
  intros H. rewrite (mo_count _ H). pose proof (ext_dynamics_range (mm_extmap m)). pose proof (mo_bound _ H).
  rewrite wrap64_small; lia.
Qed.

Lemma set_default_type_ok m type : mimemap_ok m -> mimemap_ok (set_default_type m type).
Proof.
  intros H. apply rebuild_ok; simpl; [|apply H]. rewrite unlink_default_ok by done.
  pose proof (ext_dynamics_range (mm_extmap m)). pose proof (mo_bound _ H). pose proof (dynamic_count_range type).
  rewrite wrap64_small; lia.
Qed.

Lemma unlink_ext_ok m ext t : mimemap_ok m -> mm_extmap m !! ext = Some t ->
  wrap64 (mm_num_dynamic m - dynamic_count t) = ext_dynamics (delete ext (mm_extmap m)) + dynamic_count (mm_default_type m).
Proof.
  intros H E. rewrite (mo_count _ H), (ext_dynamics_delete _ _ _ E). pose proof (ext_dynamics_range (delete ext (mm_extmap m))).
  pose proof (mo_bound _ H). pose proof (dynamic_count_range (mm_default_type m)).
  assert (size (delete ext (mm_extmap m)) <= size (mm_extmap m))%nat by (rewrite map_size_delete, E; lia).
  rewrite wrap64_small; lia.
Qed.

Lemma size_insert_le (e : gmap bytes h2o_mimemap_type_t) k t : (size (<[k := t]> e) <= S (size e))%nat.
Proof. rewrite map_size_insert. destruct (e !! k); simpl; lia. Qed.

Lemma set_type_ok m ext type : mimemap_ok m -> Z.of_nat (size (mm_extmap m)) + 1 < 2 ^ 63 -> mimemap_ok (set_type m ext type).
Proof.
  intros H Hs. pose proof (dynamic_count_range type). pose proof (dynamic_count_range (mm_default_type m)).
  pose proof (size_insert_le (mm_extmap m) ext type).
  unfold set_type. destruct (mm_extmap m !! ext) as [old|] eqn:E; (apply rebuild_ok; simpl; [|lia]).
  - rewrite (unlink_ext_ok m ext old) by done. rewrite <- insert_delete_eq, ext_dynamics_insert by apply lookup_delete_eq.
    pose proof (ext_dynamics_range (delete ext (mm_extmap m))). pose proof (ext_dynamics_delete _ _ _ E). pose proof (ext_dynamics_range (mm_extmap m)).
    pose proof (dynamic_count_range old). rewrite wrap64_small; lia.
  - rewrite ext_dynamics_insert by done. rewrite (mo_count _ H). pose proof (ext_dynamics_range (mm_extmap m)). rewrite wrap64_small; lia.
Qed.

Lemma remove_type_ok m ext : mimemap_ok m -> mimemap_ok (h2o_mimemap_remove_type m ext).
Proof.
  intros H. unfold h2o_mimemap_remove_type. destruct (mm_extmap m !! ext) as [t|] eqn:E; [|done].
  apply rebuild_ok; simpl; [by apply unlink_ext_ok|]. rewrite map_size_delete, E. pose proof (mo_bound _ H). lia.
Qed.

Lemma mime_clear_loop_ok l : forall m, NoDup l.*1 ->
  (forall k t, (k, t) ∈ l <-> mm_extmap m !! k = Some t) ->
  mm_num_dynamic m = ext_dynamics (mm_extmap m) + dynamic_count (mm_default_type m) -> Z.of_nat (size (mm_extmap m)) < 2 ^ 63 ->
  let m' := fold_left clear_one l m in
  mm_extmap m' = ∅ /\ mm_default_type m' = mm_default_type m /\ mm_num_dynamic m' = dynamic_count (mm_default_type m).
Proof.
  induction l as [|[k t] l IH]; intros m Hnd Hl Hn Hb; cbn [fold_left].
  - assert (He : mm_extmap m = ∅).
    { apply map_eq. intros k. rewrite lookup_empty. destruct (mm_extmap m !! k) as [t|] eqn:E; [|done]. apply Hl in E. by apply not_elem_of_nil in E. }
    split_and!; [done|done|]. rewrite Hn, He. done.
  - apply NoDup_cons in Hnd as [Hk Hnd]. assert (E : mm_extmap m !! k = Some t) by (apply Hl; left).
    assert (Hnum : wrap64 (mm_num_dynamic m - dynamic_count t) = ext_dynamics (delete k (mm_extmap m)) + dynamic_count (mm_default_type m)).
    { rewrite Hn, (ext_dynamics_delete _ _ _ E). pose proof (ext_dynamics_range (delete k (mm_extmap m))).
      pose proof (dynamic_count_range (mm_default_type m)). assert (size (delete k (mm_extmap m)) <= size (mm_extmap m))%nat by (rewrite map_size_delete, E; lia).
      rewrite wrap64_small; lia. }
    destruct (IH (clear_one m (k, t))) as (H1 & H2 & H3); simpl; try done.
    + intros k' t'. rewrite lookup_delete_Some, <- Hl, elem_of_cons. split.
      * intros Hin. split; [|by right]. intros ->. apply Hk. apply list_elem_of_fmap. by exists (k', t').
      * intros [Hne [[= -> ->]|]]; done.
    + rewrite map_size_delete, E. lia.
Qed.

Lemma clear_types_ok m : mimemap_ok m -> mimemap_ok (h2o_mimemap_clear_types m) /\ mm_extmap (h2o_mimemap_clear_types m) = ∅.
Proof.
  intros H. destruct (mime_clear_loop_ok (map_to_list (mm_extmap m)) m) as (H1 & H2 & H3).
  - apply NoDup_fst_map_to_list.
  - intros k t. apply elem_of_map_to_list.
  - apply H.
  - apply H.
  - split; [|exact H1]. apply rebuild_ok; [rewrite H1, H2, H3; done|rewrite H1; done].
Qed.

(** An extension has a dynamic type, or none has. *)
Lemma has_dynamic e : (exists ext d, e !! ext = Some (TypeDynamic d)) \/
  (forall ext d, e !! ext <> Some (TypeDynamic d)) /\ ext_dynamics e = 0.
Proof.
  induction e as [|k t e Hk IH] using map_ind; [by right|].
  destruct t as [mt a|d]; [|left; exists k, d; by rewrite lookup_insert_eq].
  rewrite ext_dynamics_insert by done. destruct IH as [(ext & d & E)|[Hno Hz]].
  - left. exists ext, d. rewrite lookup_insert_ne; [done|]. intros ->. congruence.
  - right. split; [|simpl; lia]. intros ext d [[? ?]|[? ?]]%lookup_insert_Some; [done|by eapply Hno].
Qed.

(** ** Sequences of operations *)

Inductive mimemap_op :=
| SetDefault (mime : bytes) (attr : option h2o_mime_attributes_t)
| DefineMimetype (ext mime : bytes) (attr : option h2o_mime_attributes_t)
| DefineDynamic (exts : list bytes) (pathconf : nat)
| RemoveType (ext : bytes)
| ClearTypes.

Definition mimemap_apply (m : h2o_mimemap_t) (op : mimemap_op) : h2o_mimemap_t :=
  match op with
  | SetDefault mime attr => h2o_mimemap_set_default_type m mime attr
  | DefineMimetype ext mime attr => h2o_mimemap_define_mimetype m ext mime attr
  | DefineDynamic exts pathconf => h2o_mimemap_define_dynamic m exts pathconf
  | RemoveType ext => h2o_mimemap_remove_type m ext
  | ClearTypes => h2o_mimemap_clear_types m
  end.

(** How many extensions an operation may add. *)
Definition op_size (op : mimemap_op) : Z := match op with DefineMimetype _ _ _ => 1 | DefineDynamic exts _ => len exts | _ => 0 end.

Definition grows (m m' : h2o_mimemap_t) (n : Z) : Prop := Z.of_nat (size (mm_extmap m')) <= Z.of_nat (size (mm_extmap m)) + n.

Lemma set_type_grows m ext type : grows m (set_type m ext type) 1.
Proof.
  unfold grows, set_type. pose proof (size_insert_le (mm_extmap m) ext type). destruct (mm_extmap m !! ext); simpl; lia.
Qed.

Lemma define_dynamic_ok exts d : forall m, mimemap_ok m -> Z.of_nat (size (mm_extmap m)) + len exts < 2 ^ 63 ->
  mimemap_ok (h2o_mimemap_define_dynamic m exts d) /\ grows m (h2o_mimemap_define_dynamic m exts d) (len exts).
Proof.
  unfold h2o_mimemap_define_dynamic, grows.
  induction exts as [|ext exts IH]; intros m H Hb; cbn [fold_left]; [split; [done|rewrite len_nil; lia]|].
  rewrite len_cons in *. pose proof (len_nonneg exts).
  destruct (is_nil ext).
  - destruct (IH (set_default_type m (TypeDynamic d))) as [H1 H2]; [by apply set_default_type_ok|simpl; lia|]. split; [done|]. simpl in H2. lia.
  - pose proof (set_type_grows m ext (TypeDynamic d)) as Hg. unfold grows in Hg.
    destruct (IH (set_type m ext (TypeDynamic d))) as [H1 H2]; [apply set_type_ok; [done|lia]|lia|]. split; [done|lia].
Qed.

Lemma apply_ok m op : mimemap_ok m -> Z.of_nat (size (mm_extmap m)) + op_size op < 2 ^ 63 ->
  mimemap_ok (mimemap_apply m op) /\ grows m (mimemap_apply m op) (op_size op).
Proof.
  intros H Hb. destruct op as [mime attr|ext mime attr|exts d|ext|]; simpl in *.
  - split; [by apply set_default_type_ok|unfold grows; simpl; lia].
  - split; [apply set_type_ok; [done|lia]|apply set_type_grows].
  - by apply define_dynamic_ok.
  - split; [by apply remove_type_ok|]. unfold grows, h2o_mimemap_remove_type. destruct (mm_extmap m !! ext) as [t|] eqn:E; simpl; [|lia].
    rewrite map_size_delete, E. lia.
  - destruct (clear_types_ok m H) as [H1 H2]. split; [done|]. unfold grows. rewrite H2, map_size_empty. lia.
Qed.

Definition ops_size (ops : list mimemap_op) : Z := foldr (fun op n => op_size op + n) 0 ops.

Lemma ops_size_nonneg ops : 0 <= ops_size ops.
Proof. induction ops as [|[| |exts d| |] ops IH]; simpl; try lia. pose proof (len_nonneg exts). lia. Qed.

Lemma ops_ok ops : forall m, mimemap_ok m -> Z.of_nat (size (mm_extmap m)) + ops_size ops < 2 ^ 63 -> mimemap_ok (fold_left mimemap_apply ops m).
Proof.
  induction ops as [|op ops IH]; intros m H Hb; cbn [fold_left]; [done|]. simpl in Hb.
  pose proof (ops_size_nonneg ops) as Hn.
  destruct (apply_ok m op H) as [H1 H2]; [unfold ops_size in *; lia|]. apply IH; [done|]. unfold grows in H2. unfold ops_size in *. lia.
Qed.

Lemma mime_create_ok defaults : len defaults < 2 ^ 63 ->
  mimemap_ok (h2o_mimemap_create defaults) /\ Z.of_nat (size (mm_extmap (h2o_mimemap_create defaults))) <= len defaults.
Proof.
  intros Hd. unfold h2o_mimemap_create. set (m0 := on_link _ _).
  assert (H0 : mimemap_ok m0).
  { split; simpl; [done|done|intros k t E; by rewrite lookup_empty in E|intros ext k a E; by rewrite lookup_empty in E]. }
  assert (Hloop : forall l m, mimemap_ok m -> Z.of_nat (size (mm_extmap m)) + len l < 2 ^ 63 ->
    let m' := fold_left (fun m '(ext, mime) => h2o_mimemap_define_mimetype m ext mime None) l m in
    mimemap_ok m' /\ grows m m' (len l)).
  { induction l as [|[ext mime] l IH]; intros m H Hb; cbn [fold_left]; [split; [done|unfold grows; rewrite len_nil; lia]|].
    rewrite len_cons in *. pose proof (len_nonneg l) as Hl. set (m1 := h2o_mimemap_define_mimetype m ext mime None).
    pose proof (set_type_grows m ext (obtain_type m mime None)) as Hg. change (grows m m1 1) in Hg. unfold grows in *.
    destruct (IH m1) as [Ha Hb']; [apply set_type_ok; [done|lia]|lia|]. split; [done|lia]. }
  destruct (Hloop defaults m0 H0) as [H1 H2]; [simpl; rewrite map_size_empty; lia|].
  split; [apply rebuild_ok; apply H1|]. unfold grows in H2. simpl in *. rewrite map_size_empty in H2. lia.
Qed.

(** ** Properties *)

(** The map of media types stays consistent under any operations: the number of dynamic types is
    that of the extensions, and of the default, that have one (so that
    [h2o_mimemap_has_dynamic_type] tells the truth); and a media type is found by its name if and
    only if an extension has it.  Extensions are found whatever the case of the request's. *)
Theorem mimemap_consistent defaults ops :
  len defaults + ops_size ops < 2 ^ 63 ->
  let m := fold_left mimemap_apply ops (h2o_mimemap_create defaults) in
  (h2o_mimemap_has_dynamic_type m = true <->
     (exists d, mm_default_type m = TypeDynamic d) \/ exists ext d, mm_extmap m !! ext = Some (TypeDynamic d)) /\
  (forall mime, is_Some (h2o_mimemap_get_type_by_mimetype m mime true) <-> exists ext attr, mm_extmap m !! ext = Some (TypeMimetype mime attr)) /\
  (forall ext type, 0 < len ext < 256 -> mm_extmap m !! h2o_strtolower ext = Some type -> h2o_mimemap_get_type_by_extension m ext = type).
Proof.
  intros Hb m. pose proof (ops_size_nonneg ops) as Hn. destruct (mime_create_ok defaults) as [H0 Hs]; [lia|].
  assert (H : mimemap_ok m) by (apply ops_ok; [done|lia]). split_and!.
  - unfold h2o_mimemap_has_dynamic_type. rewrite (mo_count _ H). pose proof (ext_dynamics_range (mm_extmap m)).
    destruct (has_dynamic (mm_extmap m)) as [(ext & d & E)|Hno].
    + pose proof (ext_dynamics_delete _ _ _ E) as Hd. pose proof (ext_dynamics_range (delete ext (mm_extmap m))). simpl in Hd.
      pose proof (dynamic_count_range (mm_default_type m)). split; [eauto|]. intros _. lia.
    + rewrite (proj2 Hno). destruct (mm_default_type m) as [mt a|d] eqn:Ed; simpl.
      * split; [done|]. intros [[d Hd]|(ext & d & E)]; [done|]. by destruct (proj1 Hno ext d).
      * split; [eauto|done].
  - intros mime. unfold h2o_mimemap_get_type_by_mimetype. destruct (mm_typeset m !! mime) as [t|] eqn:E.
    + split; [|by eexists]. intros _. destruct (mo_typeset _ H _ _ E) as [[a ->] [ext He]]. eauto.
    + split; [by intros []|]. intros (ext & a & He). apply (mo_types _ H) in He as [t Ht]. congruence.
  - intros ext type Hl E. unfold h2o_mimemap_get_type_by_extension. replace ((0 <? len ext) && (len ext <? 256)) with true by lia. by rewrite E.
Qed.

Lemma mimemap_consistent_witness :
  let ops := [DefineDynamic [lit "php"] 1; DefineMimetype (lit "html") (lit "text/html") None; RemoveType (lit "txt")] in
  len [(lit "txt", lit "text/plain")] + ops_size ops < 2 ^ 63 /\
  h2o_mimemap_has_dynamic_type (fold_left mimemap_apply ops (h2o_mimemap_create [(lit "txt", lit "text/plain")])) = true.
Proof.
  cbv zeta. split; [reflexivity|].
  apply (proj1 (mimemap_consistent [(lit "txt", lit "text/plain")]
    [DefineDynamic [lit "php"] 1; DefineMimetype (lit "html") (lit "text/html") None; RemoveType (lit "txt")] ltac:(reflexivity))).
  right. exists (lit "php"), 1%nat. vm_compute. reflexivity.
Defined.
