(* ===== verification/FileServe.v ===== *)
(** * Serving files (lib/handler/file.c)

    The generator of the contents of a file, whole, one range or several ranges in a multipart
    body, and the decision of what to answer to a request for a file: conditional requests,
    methods and ranges.

    [pread] is the system call on the open file, at an offset and for a number of octets: the
    octets read, or [None] for an error (other than EINTR, after which it is called again).  A
    send is what [h2o_send] or [h2o_sendvec] is called with.  The reference to the file is
    that of Filecache.v.  The build is one without io_uring.  [None] is a failed assertion or a
    buffer that is too small. *)
From S2P Require Import Prelude Strings Tokens HeaderTable Headers Timestr Filecache FileRange Http2Send.
From Stdlib Require Import ZArith Lia.
From stdpp Require Import base list numbers option strings.
Open Scope Z_scope.

Definition MAX_BUF_SIZE : Z := 65000.
Definition BOUNDARY_SIZE : Z := 20.
Definition H2O_PULL_SENDVEC_MAX_SIZE : Z := 65536.

(** String literals with escapes. *)
Definition crlf : bytes := [13; 10].

(** [sizeof(literal) - 1] of the two literals of the definition. *)
Definition FIXED_PART_SIZE : Z :=
  len (crlf ++ lit "--") + BOUNDARY_SIZE
  + len (crlf ++ lit "Content-Range: bytes=-/" ++ crlf ++ lit "Content-Type: " ++ crlf ++ crlf).

(** [range_infos] are pairs of the first octet and the number of octets; [range_count] is their
    number. *)
Record sendfile_generator := Generator {
  g_ref : fileref;
  g_off : Z;
  g_bytesleft : Z;
  g_content_encoding : option bytes;
  g_send_vary : bool;
  g_send_etag : bool;
  g_gunzip : bool;
  g_filesize : Z;
  g_range_infos : list (Z * Z);
  g_boundary : bytes;
  g_mimetype : bytes;
  g_current_range : nat }.

Definition g_range_count (g : sendfile_generator) : Z := len (g_range_infos g).

Definition set_position (off bytesleft : Z) (current : nat) (g : sendfile_generator) : sendfile_generator :=
  Generator (g_ref g) off bytesleft (g_content_encoding g) (g_send_vary g) (g_send_etag g) (g_gunzip g) (g_filesize g)
    (g_range_infos g) (g_boundary g) (g_mimetype g) current.
Definition set_ref (r : fileref) (g : sendfile_generator) : sendfile_generator :=
  Generator r (g_off g) (g_bytesleft g) (g_content_encoding g) (g_send_vary g) (g_send_etag g) (g_gunzip g) (g_filesize g)
    (g_range_infos g) (g_boundary g) (g_mimetype g) (g_current_range g).

(** What is sent: a vector over the file (an offset and a length), or octets. *)
Inductive send_data :=
| FileVec (off len : Z)
| Octets (s : bytes).

Section Sending.
Context (pread : Z -> Z -> option bytes).

(** ** The whole file, or one range *)

(** The vector over the file: [cb_arg[1]] and [len].  The loop reads until [n] octets are there;
    [None] is the failure of the callback. *)
Fixpoint do_pread_loop (fuel : nat) (off vec_len bytes_read n : Z) (dst : bytes) : option (bytes * (Z * Z)) :=
  if bytes_read <? n then
    match fuel with
    | O => None
    | S fuel =>
        match pread off (n - bytes_read) with
        | None | Some [] => None
        | Some s => do_pread_loop fuel (off + len s) (vec_len - len s) (bytes_read + len s) n (dst ++ s)
        end
    end
  else Some (dst, (off, vec_len)).

(** Every turn reads an octet. *)
Definition do_pread (vec : Z * Z) (n : Z) : option (bytes * (Z * Z)) :=
  do_pread_loop (Z.to_nat n) (fst vec) (snd vec) 0 n [].

Definition do_proceed (g : sendfile_generator) : sendfile_generator * send_data * h2o_send_state :=
  let bytes_to_send := if g_bytesleft g <? H2O_PULL_SENDVEC_MAX_SIZE then g_bytesleft g else H2O_PULL_SENDVEC_MAX_SIZE in
  let vec := FileVec (g_off g) bytes_to_send in
  let g := set_position (g_off g + bytes_to_send) (g_bytesleft g - bytes_to_send) (g_current_range g) g in
  (g, vec, if negb (g_bytesleft g =? 0) then SEND_IN_PROGRESS else SEND_FINAL).

(** ** Several ranges *)

(** [%zd] *)
Definition fmt_zd (x : Z) : bytes :=
  let v := to_int64 x in if v <? 0 then 45 :: decimal 20 (- v) else decimal 20 v.

(** The lines before a range, from the format of [sprintf]. *)
Definition part_head (is_first : bool) (boundary mimetype : bytes) (start stop filesize : Z) : bytes :=
  (if is_first then [] else crlf) ++ lit "--" ++ boundary ++ crlf ++ lit "Content-Type: " ++ mimetype ++ crlf
  ++ lit "Content-Range: bytes " ++ fmt_zd start ++ lit "-" ++ fmt_zd stop ++ lit "/" ++ fmt_zd filesize ++ crlf ++ crlf.

Definition part_end (boundary : bytes) : bytes := crlf ++ lit "--" ++ boundary ++ lit "--" ++ crlf.

(** The lines before the next range, if the last one is sent, and the generator at its octets.
    [None]: the lines do not fit into the buffer. *)
Definition start_range (g : sendfile_generator) : option (bytes * sendfile_generator) :=
  if g_bytesleft g =? 0 then
    '(start, count) ← g_range_infos g !! g_current_range g;
    let range_end := wrap64 (start + count - 1) in
    let s := part_head (bool_decide (g_current_range g = 0%nat)) (g_boundary g) (g_mimetype g) start range_end (g_filesize g) in
    if len s <? MAX_BUF_SIZE then Some (s, set_position start count (S (g_current_range g)) g) else None
  else Some ([], g).

Definition do_multirange_proceed (g : sendfile_generator) : option (sendfile_generator * list bytes * h2o_send_state) :=
  '(buf, g) ← start_range g;
  let rlen := if MAX_BUF_SIZE <? g_bytesleft g + len buf then MAX_BUF_SIZE - len buf else g_bytesleft g in
  match pread (g_off g) rlen with
  | None => Some (g, [], SEND_ERROR)
  | Some s =>
      let g := set_position (g_off g + len s) (g_bytesleft g - len s) (g_current_range g) g in
      if (Z.of_nat (g_current_range g) =? g_range_count g) && (g_bytesleft g =? 0) then
        Some (g, [buf ++ s; part_end (g_boundary g)], SEND_FINAL)
      else Some (g, [buf ++ s], SEND_IN_PROGRESS)
  end.

End Sending.

(** ** The length of a multipart body *)

(** [while (i) { i /= 10; n++; }] *)
Fixpoint count_digits (fuel : nat) (i : Z) : Z :=
  match fuel with
  | O => 0
  | S fuel => if i =? 0 then 0 else 1 + count_digits fuel (i / 10)
  end.

(** With the octet of a zero. *)
Definition number_size (i : Z) : Z := (if i =? 0 then 1 else 0) + count_digits 20 i.

Definition add_range_size (final_content_len : Z) (range : Z * Z) : Z :=
  let '(start, count) := range in
  wrap64 (final_content_len + number_size start + count + number_size (wrap64 (start + count - 1))).

Definition multirange_size (filesize : Z) (mimetype : bytes) (range_infos : list (Z * Z)) : Z :=
  let size_fixed_each_part := FIXED_PART_SIZE + len mimetype + count_digits 20 filesize in
  let final_content_len := fold_left add_range_size range_infos 0 in
  wrap64 (final_content_len + (len (crlf ++ lit "--") + BOUNDARY_SIZE + len (lit "--" ++ crlf)
          + size_fixed_each_part * len range_infos - len crlf)).

(** ** The boundary *)

Definition alphanum : bytes := lit "0123456789ABCDEFGHIJKLMNOPQRSTUVWXYZabcdefghijklmnopqrstuvwxyz".

(** From the numbers that [h2o_rand] gives. *)
Definition gen_rand_string (rands : list Z) : bytes :=
  map (fun r => nth (Z.to_nat (wrap64 r mod len alphanum)) alphanum 0) rands.

(** ** The response *)

Record response := Response {
  res_status : Z;
  res_reason : bytes;
  res_content_length : Z;
  res_headers : h2o_headers_t }.

Definition add_res_header (token : Z) (value : bytes) (headers : h2o_headers_t) : h2o_headers_t :=
  fst (h2o_add_header headers token None value).

Definition add_headers_unconditional (g : sendfile_generator) (headers : h2o_headers_t)
    : option (sendfile_generator * h2o_headers_t) :=
  '(g, headers) ←
    (if g_send_etag g then
       '(etag, ref) ← h2o_filecache_get_etag (g_ref g);
       Some (set_ref ref g, add_res_header H2O_TOKEN_ETAG etag headers)
     else Some (g, headers));
  if g_send_vary g then
    '(headers, _) ← h2o_set_header_token headers H2O_TOKEN_VARY (lit "accept-encoding");
    Some (g, headers)
  else Some (g, headers).

(** The header fields of [do_send_file]; with the generator, which keeps what it computed. *)
Definition file_headers (g : sendfile_generator) (headers : h2o_headers_t) (mime_type : bytes)
    : option (sendfile_generator * h2o_headers_t) :=
  let mime_type := if 1 <? g_range_count g then lit "multipart/byteranges; boundary=" ++ g_boundary g else mime_type in
  let headers := add_res_header H2O_TOKEN_CONTENT_TYPE mime_type headers in
  '(_, last_modified, ref) ← h2o_filecache_get_last_modified (g_ref g);
  let headers := add_res_header H2O_TOKEN_LAST_MODIFIED last_modified headers in
  '(g, headers) ← add_headers_unconditional (set_ref ref g) headers;
  let headers :=
    match g_content_encoding g with
    | Some enc => add_res_header H2O_TOKEN_CONTENT_ENCODING enc headers
    | None => headers
    end in
  match g_range_infos g with
  | [] => Some (g, add_res_header H2O_TOKEN_ACCEPT_RANGES (lit "bytes") headers)
  | [(start, count)] =>
      let content_range := lit "bytes " ++ fmt_zd start ++ lit "-" ++ fmt_zd (wrap64 (start + count - 1)) ++ lit "/"
                           ++ fmt_zd (g_filesize g) in
      Some (g, add_res_header H2O_TOKEN_CONTENT_RANGE content_range headers)
  | _ => Some (g, headers)
  end.

Section Serving.
Context (pread : Z -> Z -> option bytes).

(** The response, and what is sent first. *)
Definition do_send_file (g : sendfile_generator) (headers : h2o_headers_t) (status : Z) (reason mime_type : bytes)
    (is_get : bool) : option (response * sendfile_generator * list send_data * h2o_send_state) :=
  let content_length := if g_gunzip g then SIZE_MAX else g_bytesleft g in
  '(g, headers) ← file_headers g headers mime_type;
  let res := Response status reason content_length headers in
  if negb is_get || (g_bytesleft g =? 0) then Some (res, g, [], SEND_FINAL)
  else
    let g := match g_range_infos g with
             | [(start, _)] => set_position start (g_bytesleft g) (g_current_range g) g
             | _ => g
             end in
    if g_range_count g <? 2 then
      let '(g, vec, state) := do_proceed g in Some (res, g, [vec], state)
    else
      '(g, bufs, state) ← do_multirange_proceed pread (set_position (g_off g) 0 (g_current_range g) g);
      Some (res, g, map Octets bufs, state).

(** ** Requests *)

Inductive mime_type :=
| Mimetype (mimetype : bytes)
| Dynamic.

Inductive outcome :=
(** the file is closed, a dynamic handler is called *)
| Delegated
(** the file is closed, an answer without contents is sent *)
| Inline (res : response)
(** the file is closed, an error page is sent, with the headers so far *)
| ErrorPage (status : Z) (headers : h2o_headers_t)
(** [do_send_file] *)
| Serving (res : response) (g : sendfile_generator) (sent : list send_data) (state : h2o_send_state).

Definition header_value (headers : h2o_headers_t) (token : Z) : option bytes :=
  let i := h2o_find_header headers token (-1) in
  if negb (i =? -1) then h_value <$> headers !! Z.to_nat i else None.

(** The fields of a [struct tm] before anything is stored there do not matter. *)
Definition tm0 : tm := Tm 0 0 0 0 0 0 0 0.

(** If-None-Match and If-Modified-Since: whether to go to [NotModified]. *)
Definition not_modified (g : sendfile_generator) (headers : h2o_headers_t) : option (bool * sendfile_generator) :=
  match header_value headers H2O_TOKEN_IF_NONE_MATCH with
  | Some if_none_match =>
      '(etag, ref) ← h2o_filecache_get_etag (g_ref g);
      Some (h2o_filecache_compare_etag_strong if_none_match etag, set_ref ref g)
  | None =>
      match header_value headers H2O_TOKEN_IF_MODIFIED_SINCE with
      | Some ims =>
          let '(r, ims_tm) := h2o_time_parse_rfc1123 ims tm0 in
          if r =? 0 then
            '(last_modified, _, ref) ← h2o_filecache_get_last_modified (g_ref g);
            Some (negb (tm_is_lessthan ims_tm last_modified), set_ref ref g)
          else Some (false, g)
      | None => Some (false, g)
      end
  end.

(** If-Range: whether to go to [EntireFile]. *)
Definition if_range_fails (g : sendfile_generator) (headers : h2o_headers_t) : option (bool * sendfile_generator) :=
  match header_value headers H2O_TOKEN_IF_RANGE with
  | Some if_range =>
      let '(r, ir_tm) := h2o_time_parse_rfc1123 if_range tm0 in
      if r =? 0 then
        '(last_modified, _, ref) ← h2o_filecache_get_last_modified (g_ref g);
        Some (tm_is_lessthan ir_tm last_modified, set_ref ref g)
      else
        '(etag, ref) ← h2o_filecache_get_etag (g_ref g);
        Some (negb (h2o_filecache_compare_etag_strong if_range etag), set_ref ref g)
  | None => Some (false, g)
  end.

(** The generator of the ranges. *)
Definition set_ranges (g : sendfile_generator) (range_infos : list (Z * Z)) (mimetype : bytes) (rands : list Z) : sendfile_generator :=
  let filesize := g_bytesleft g in
  match range_infos with
  | [(_, count)] =>
      Generator (g_ref g) (g_off g) count (g_content_encoding g) (g_send_vary g) (g_send_etag g) (g_gunzip g) filesize
        range_infos (g_boundary g) (g_mimetype g) 0
  | _ =>
      Generator (g_ref g) (g_off g) (multirange_size filesize mimetype range_infos) (g_content_encoding g) (g_send_vary g)
        (g_send_etag g) (g_gunzip g) filesize range_infos (gen_rand_string rands) mimetype 0
  end.

(** [after] are the octets in memory after the value of the Range header, [rands] the numbers of
    [h2o_rand] for the boundary. *)
Definition serve_with_generator (g : sendfile_generator) (method : bytes) (req_headers : h2o_headers_t)
    (headers : h2o_headers_t) (mime : mime_type) (after : bytes) (rands : list Z) : option outcome :=
  let is_get := bool_decide (method = lit "GET") in
  let is_head := bool_decide (method = lit "HEAD") in
  match mime with
  | Dynamic => Some Delegated
  | Mimetype mimetype =>
      '(not_mod, g) ← not_modified g req_headers;
      if not_mod : bool then
        '(_, headers) ← add_headers_unconditional g headers;
        Some (Inline (Response 304 (lit "Not Modified") SIZE_MAX headers))
      else if negb (is_get || is_head) then
        Some (ErrorPage 405 (add_res_header H2O_TOKEN_ALLOW (lit "GET, HEAD") headers))
      else
        let entire_file g :=
          '(res, g, sent, state) ← do_send_file g headers 200 (lit "OK") mimetype is_get;
          Some (Serving res g sent state) in
        match header_value req_headers H2O_TOKEN_RANGE with
        | None => entire_file g
        | Some range =>
            '(fails, g) ← if_range_fails g req_headers;
            if fails : bool then entire_file g
            else
              r ← process_range (range ++ after) (len range) (g_bytesleft g);
              match r with
              | None =>
                  let content_range := lit "bytes */" ++ decimal 20 (g_bytesleft g) in
                  Some (ErrorPage 416 (add_res_header H2O_TOKEN_CONTENT_RANGE content_range headers))
              | Some range_infos =>
                  let g := set_ranges g range_infos mimetype rands in
                  '(res, g, sent, state) ← do_send_file g headers 206 (lit "Partial Content") mimetype is_get;
                  Some (Serving res g sent state)
              end
        end
  end.

End Serving.
