(* ===== verification/FileServeOk.v ===== *)
(** * Serving files: the bodies (lib/handler/file.c)

    What the generators send is the contents of the file, or the multipart body of its ranges, and
    its length is the one announced. *)
From S2P Require Import Prelude Strings Tokens Headers Timestr Filecache FilecacheOk FileRange FileRangeOk Http2Send FileServe.
From Stdlib Require Import ZArith Lia.
From stdpp Require Import base list numbers option strings.
Open Scope Z_scope.

(** ** The system call *)

(** The octets of a file from an offset on. *)
Definition slice (file : bytes) (off n : Z) : bytes := take (Z.to_nat n) (drop (Z.to_nat off) file).

(** On a file that stays as it is, [pread] returns at least one octet before the end, in the order
    of the file. *)
Definition reads (file : bytes) (pread : Z -> Z -> option bytes) : Prop :=
  forall off n, 0 <= off -> 0 <= n -> off + n <= len file ->
    exists k, pread off n = Some (slice file off k) /\ 0 <= k <= n /\ (0 < n -> 0 < k).

Lemma len_slice file off n : 0 <= off -> 0 <= n -> off + n <= len file -> len (slice file off n) = n.
Proof. intros. unfold slice, len in *. rewrite length_take, length_drop. lia. Qed.

Lemma slice_app file off k n : 0 <= off -> 0 <= k <= n -> slice file off n = slice file off k ++ slice file (off + k) (n - k).
Proof.
  intros Ho Hk. unfold slice. replace (Z.to_nat n) with (Z.to_nat k + Z.to_nat (n - k))%nat by lia.
  rewrite <- take_take_drop, drop_drop. do 3 f_equal. lia.
Qed.

Lemma slice_0 file off : slice file off 0 = [].
Proof. done. Qed.

(** Reading whole pieces, and reading one octet at a time. *)
Definition pread_whole (file : bytes) (off n : Z) : option bytes := Some (slice file off n).
Definition pread_single (file : bytes) (off n : Z) : option bytes := Some (slice file off (Z.min n 1)).

Lemma pread_whole_reads file : reads file (pread_whole file).
Proof. intros off n Ho Hn Hl. exists n. split; [done|lia]. Qed.
Lemma pread_single_reads file : reads file (pread_single file).
Proof. intros off n Ho Hn Hl. exists (Z.min n 1). split; [done|lia]. Qed.

(** ** Vectors over the file *)

Section Reading.
Context (file : bytes) (pread : Z -> Z -> option bytes) (Hread : reads file pread).

Lemma do_pread_loop_ok fuel : forall off vl done n dst,
  0 <= off -> 0 <= done <= n -> off + (n - done) <= len file -> n - done <= Z.of_nat fuel ->
  do_pread_loop pread fuel off vl done n dst = Some (dst ++ slice file off (n - done), (off + (n - done), vl - (n - done))).
Proof.
  induction fuel as [|fuel IH]; intros off vl dn n dst Ho Hd Hl Hf; cbn [do_pread_loop].
  all: destruct (Z.ltb_spec dn n) as [Hlt|Hge].
  2,4: replace (n - dn) with 0 by lia; rewrite slice_0, app_nil_r; do 3 f_equal; lia.
  1: lia.
  destruct (Hread off (n - dn) Ho ltac:(lia) Hl) as (k & -> & Hk & Hpos). specialize (Hpos ltac:(lia)).
  assert (Hlk : len (slice file off k) = k) by (apply len_slice; lia).
  destruct (slice file off k) as [|c s] eqn:E; [rewrite len_nil in Hlk; lia|]. rewrite Hlk, <- E.
  rewrite IH by lia. rewrite (slice_app file off k (n - dn)), <- app_assoc by lia.
  replace (n - (dn + k)) with (n - dn - k) by lia. f_equal. f_equal. f_equal; lia.
Qed.

Lemma do_pread_ok off vl n : 0 <= off -> 0 <= n -> off + n <= len file ->
  do_pread pread (off, vl) n = Some (slice file off n, (off + n, vl - n)).
Proof.
  intros. unfold do_pread. cbn [fst snd]. rewrite do_pread_loop_ok by lia. rewrite Z.sub_0_r. done.
Qed.

(** A vector that is a part of the file keeps the promise of the callbacks, so that what is known of
    the sending of bodies holds for files. *)
Definition vec_in (v : Z * Z) : bool := (0 <=? fst v) && (0 <=? snd v) && (fst v + snd v <=? len file).
Definition file_vec := {v : Z * Z | vec_in v = true}.

Definition file_vec_read (v : file_vec) (n : Z) : option (bytes * file_vec) :=
  match do_pread pread (proj1_sig v) n with
  | None => None
  | Some (bs, v') =>
      match decide (vec_in v' = true) with
      | left H => Some (bs, exist _ v' H)
      | right _ => None
      end
  end.

#[local] Instance file_sendvec : SendVec file_vec := {| sv_len v := snd (proj1_sig v); sv_read := file_vec_read |}.

#[local] Program Instance file_sendvec_ok : SendVecOk file_vec :=
  {| sv_content v := slice file (fst (proj1_sig v)) (snd (proj1_sig v)) |}.
Next Obligation. intros [[off n] Hv]. unfold vec_in in Hv. simpl in *. rewrite len_slice; lia. Qed.
Next Obligation.
  intros [[off vl] Hv] n bs v' Hn. simpl in *. unfold file_vec_read. cbn [proj1_sig]. unfold vec_in in Hv. cbn [fst snd] in Hv.
  rewrite do_pread_ok by lia. destruct (decide _); [|done]. intros [= <- <-]. cbn [proj1_sig fst snd].
  rewrite (slice_app file off n vl) by lia. rewrite take_app_length', drop_app_length'; [done|..].
  all: pose proof (len_slice file off n); unfold len in *; lia.
Qed.

(** No read of a vector fails. *)
Lemma file_vec_reads (v : file_vec) n : 0 <= n <= sv_len v -> is_Some (sv_read v n).
Proof.
  destruct v as [[off vl] Hv]. simpl. unfold file_vec_read. cbn [proj1_sig]. unfold vec_in in Hv. cbn [fst snd] in Hv.
  intros Hn. rewrite do_pread_ok by lia. destruct (decide _) as [|Hx]; [eauto|]. destruct Hx. unfold vec_in. cbn [fst snd]. lia.
Qed.

(** ** The whole file, or one range *)

(** The calls of [do_proceed], from the first one to the last. *)
Fixpoint proceed_run (fuel : nat) (g : sendfile_generator) : option (list send_data) :=
  match fuel with
  | O => None
  | S fuel =>
      let '(g, vec, state) := do_proceed g in
      match state with
      | SEND_FINAL => Some [vec]
      | _ => vecs ← proceed_run fuel g; Some (vec :: vecs)
      end
  end.

(** The octets behind what is sent. *)
Definition sent_octets (v : send_data) : bytes := match v with FileVec off n => slice file off n | Octets s => s end.

Definition vec_fits (v : send_data) : Prop :=
  match v with FileVec off n => 0 <= off /\ 0 <= n <= H2O_PULL_SENDVEC_MAX_SIZE /\ off + n <= len file | Octets _ => True end.

Lemma proceed_run_ok fuel : forall g,
  0 <= g_off g -> 0 <= g_bytesleft g -> g_off g + g_bytesleft g <= len file -> g_bytesleft g <= Z.of_nat fuel * 65536 -> (0 < fuel)%nat ->
  exists vecs, proceed_run fuel g = Some vecs /\ concat (map sent_octets vecs) = slice file (g_off g) (g_bytesleft g) /\ Forall vec_fits vecs.
Proof.
  induction fuel as [|fuel IH]; intros g Ho Hb Hl Hf Hp; [lia|]. cbn [proceed_run]. unfold do_proceed.
  set (n := if g_bytesleft g <? H2O_PULL_SENDVEC_MAX_SIZE then _ else _).
  assert (Hn : n = Z.min (g_bytesleft g) 65536) by (unfold n, H2O_PULL_SENDVEC_MAX_SIZE; destruct (Z.ltb_spec (g_bytesleft g) 65536); lia).
  cbn [g_bytesleft set_position]. assert (Hfit : vec_fits (FileVec (g_off g) n)) by (unfold vec_fits, H2O_PULL_SENDVEC_MAX_SIZE; lia).
  destruct (Z.eqb_spec (g_bytesleft g - n) 0) as [E|E]; cbn [negb].
  - eexists. split; [done|]. split; [|constructor; [exact Hfit|constructor]]. cbn [map concat sent_octets]. rewrite app_nil_r. f_equal. lia.
  - destruct (IH (set_position (g_off g + n) (g_bytesleft g - n) (g_current_range g) g)) as (vecs & -> & Hv & Hall); cbn [g_off g_bytesleft set_position]; try lia.
    eexists. split; [done|]. split; [|by constructor]. cbn [map concat sent_octets]. rewrite Hv. cbn [g_off g_bytesleft set_position].
    symmetry. apply slice_app; lia.
Qed.

(** ** Several ranges *)

(** The calls of [do_multirange_proceed], from one on to the last: what they send, and how they end. *)
Fixpoint multirange_run (fuel : nat) (g : sendfile_generator) : option (bytes * h2o_send_state) :=
  match fuel with
  | O => None
  | S fuel =>
      '(g, bufs, state) ← do_multirange_proceed pread g;
      match state with
      | SEND_IN_PROGRESS => '(rest, state) ← multirange_run fuel g; Some (concat bufs ++ rest, state)
      | _ => Some (concat bufs, state)
      end
  end.

Definition part (g : sendfile_generator) (k : nat) (p : Z * Z) : bytes :=
  part_head (bool_decide (k = 0%nat)) (g_boundary g) (g_mimetype g) p.1 (wrap64 (p.1 + p.2 - 1)) (g_filesize g).

(** The parts from the [k]-th on. *)
Fixpoint parts (g : sendfile_generator) (k : nat) (ranges : list (Z * Z)) : bytes :=
  match ranges with
  | [] => []
  | p :: ranges => part g k p ++ slice file p.1 p.2 ++ parts g (S k) ranges
  end.

(** RFC 7233, appendix A. *)
Definition multipart_body (g : sendfile_generator) : bytes := parts g 0 (g_range_infos g) ++ part_end (g_boundary g).

Definition total_count (ranges : list (Z * Z)) : Z := foldr (fun p n => p.2 + n) 0 ranges.

(** The ranges are parts of the file with octets, and what is written before one fits. *)
Definition ranges_wf (g : sendfile_generator) : Prop :=
  Forall (fun p => 0 <= p.1 /\ 1 <= p.2 /\ p.1 + p.2 <= len file) (g_range_infos g) /\
  forall k p, len (part g k p) < MAX_BUF_SIZE.

Definition at_position (g : sendfile_generator) : Prop :=
  0 <= g_off g /\ 0 <= g_bytesleft g /\ g_off g + g_bytesleft g <= len file /\
  (g_current_range g <= length (g_range_infos g))%nat /\
  (g_bytesleft g = 0 -> (g_current_range g < length (g_range_infos g))%nat).

(** What is still to be sent, and how many octets of the file. *)
Definition to_send (g : sendfile_generator) : bytes :=
  slice file (g_off g) (g_bytesleft g) ++ parts g (g_current_range g) (drop (g_current_range g) (g_range_infos g))
  ++ part_end (g_boundary g).
Definition octets_left (g : sendfile_generator) : Z := g_bytesleft g + total_count (drop (g_current_range g) (g_range_infos g)).

Lemma parts_position g off n k j ranges : parts (set_position off n k g) j ranges = parts g j ranges.
Proof. revert j. induction ranges as [|p ranges IH]; intros j; simpl; [done|]. by rewrite IH. Qed.

Lemma start_range_ok g : ranges_wf g -> at_position g ->
  exists buf off n k, start_range g = Some (buf, set_position off n k g) /\ len buf < MAX_BUF_SIZE /\ 1 <= n /\
    at_position (set_position off n k g) /\ buf ++ to_send (set_position off n k g) = to_send g /\
    octets_left (set_position off n k g) = octets_left g.
Proof.
  intros [Hr Hfit] (Ho & Hb & Hl & Hc & Hz). unfold start_range. destruct (Z.eqb_spec (g_bytesleft g) 0) as [E|E].
  - specialize (Hz E). destruct (lookup_lt_is_Some_2 (g_range_infos g) (g_current_range g) Hz) as [[start count] Hp].
    rewrite Hp. cbn [mbind option_bind]. fold (part g (g_current_range g) (start, count)).
    pose proof (Hfit (g_current_range g) (start, count)) as Hf. unfold part in Hf. cbn [fst snd] in Hf.
    rewrite (proj2 (Z.ltb_lt _ _) Hf). eexists _, start, count, (S (g_current_range g)).
    rewrite Forall_forall in Hr. pose proof (Hr (start, count) ltac:(by eapply list_elem_of_lookup_2)) as Hp'. cbn [fst snd] in Hp'.
    split; [done|]. split; [done|]. split; [lia|]. split; [unfold at_position; cbn [g_off g_bytesleft g_current_range g_range_infos set_position]; lia|].
    unfold to_send, octets_left. cbn [g_off g_bytesleft g_current_range g_range_infos g_boundary set_position].
    rewrite E, slice_0, (drop_S _ _ _ Hp). cbn [app]. split; [|unfold total_count; cbn [foldr snd]; lia].
    rewrite parts_position. cbn [parts]. unfold part at 1. cbn [fst snd]. by rewrite <- !app_assoc.
  - eexists [], (g_off g), (g_bytesleft g), (g_current_range g).
    replace (set_position (g_off g) (g_bytesleft g) (g_current_range g) g) with g by (by destruct g).
    split_and!; try done. lia.
Qed.

Lemma total_count_nonneg l : Forall (fun p : Z * Z => 0 <= p.1 /\ 1 <= p.2 /\ p.1 + p.2 <= len file) l -> 0 <= total_count l.
Proof. induction 1 as [|p l Hp _ IH]; simpl; lia. Qed.

Lemma octets_left_pos g : ranges_wf g -> at_position g -> 1 <= octets_left g.
Proof.
  intros [Hr _] (_ & Hb & _ & _ & Hz). unfold octets_left.
  assert (Hd : Forall (fun p : Z * Z => 0 <= p.1 /\ 1 <= p.2 /\ p.1 + p.2 <= len file) (drop (g_current_range g) (g_range_infos g)))
    by (by apply Forall_drop).
  pose proof (total_count_nonneg _ Hd). destruct (Z.eq_dec (g_bytesleft g) 0) as [E|]; [|lia].
  destruct (lookup_lt_is_Some_2 (g_range_infos g) (g_current_range g) (Hz E)) as [p Hp].
  rewrite (drop_S _ _ _ Hp) in *. inversion Hd as [|p' l' Hp1 Hd']; subst. pose proof (total_count_nonneg _ Hd').
  unfold total_count in *. cbn [foldr]. lia.
Qed.

Lemma multirange_run_ok fuel : forall g, ranges_wf g -> at_position g -> octets_left g <= Z.of_nat fuel -> (0 < fuel)%nat ->
  multirange_run fuel g = Some (to_send g, SEND_FINAL).
Proof.
  induction fuel as [|fuel IH]; intros g Hwf Hat Hf Hpos; [lia|]. cbn [multirange_run]. unfold do_multirange_proceed.
  destruct (start_range_ok g Hwf Hat) as (buf & off & n & k & -> & Hbuf & Hn & Hat1 & Hsend & Hleft). cbn [mbind option_bind].
  rewrite <- Hsend, <- Hleft in *. set (g1 := set_position off n k g) in *.
  assert (Hwf1 : ranges_wf g1) by exact Hwf. destruct Hat1 as (Ho & Hb & Hl & Hc & Hz).
  set (rlen := if MAX_BUF_SIZE <? _ then _ else _).
  assert (Hrl : 1 <= rlen <= g_bytesleft g1).
  { unfold rlen. destruct (Z.ltb_spec MAX_BUF_SIZE (g_bytesleft g1 + len buf)); [|change (g_bytesleft g1) with n; lia].
    pose proof (len_nonneg buf). lia. }
  destruct (Hread (g_off g1) rlen Ho ltac:(lia) ltac:(lia)) as (j & -> & Hj & Hjp). specialize (Hjp ltac:(lia)).
  rewrite len_slice by lia. cbn [g_current_range g_bytesleft g_boundary set_position].
  set (g2 := set_position (g_off g1 + j) (g_bytesleft g1 - j) (g_current_range g1) g1).
  change (g_range_count g2) with (g_range_count g1).
  destruct (_ && _) eqn:E.
  - apply andb_true_iff in E as [E1 E2]. cbn [mbind option_bind concat]. rewrite app_nil_r. do 2 f_equal. unfold to_send.
    rewrite drop_ge by (unfold g_range_count, len in E1; lia). cbn [parts app]. replace (g_bytesleft g1) with j by lia.
    by rewrite <- app_assoc.
  - cbn [mbind option_bind concat]. rewrite app_nil_r.
    assert (Hat2 : at_position g2).
    { unfold at_position. cbn [g_off g_bytesleft g_current_range g_range_infos g2 set_position]. split_and!; [lia..|done|].
      intros E2. unfold g_range_count, len in E. destruct (Z.eqb_spec (Z.of_nat (g_current_range g1)) (Z.of_nat (length (g_range_infos g1)))).
      - cbn [andb] in E. lia.
      - cbn [g_current_range g_range_infos g1 set_position] in *. lia. }
    assert (Hleft2 : octets_left g2 = octets_left g1 - j).
    { unfold octets_left. cbn [g_bytesleft g_current_range g_range_infos g2 set_position]. lia. }
    pose proof (octets_left_pos g2 Hwf1 Hat2). rewrite (IH g2 Hwf1 Hat2) by lia. cbn [mbind option_bind]. do 2 f_equal. unfold to_send.
    unfold g2. cbn [g_off g_bytesleft g_current_range g_range_infos g_boundary set_position]. rewrite parts_position.
    rewrite (slice_app file (g_off g1) j (g_bytesleft g1)) by lia. by rewrite <- !app_assoc.
Qed.

End Reading.

(** ** The length of a multipart body *)

Lemma count_digits_decimal fuel : forall i, 0 < i < 10 ^ Z.of_nat fuel -> count_digits fuel i = len (decimal fuel i).
Proof.
  induction fuel as [|fuel IH]; intros i Hi; [simpl in Hi; lia|]. cbn [count_digits decimal].
  replace (i =? 0) with false by lia. rewrite Nat2Z.inj_succ, Z.pow_succ_r in Hi by lia.
  destruct (Z.eqb_spec (i / 10) 0) as [E|E].
  - rewrite E. destruct fuel; done.
  - rewrite IH by (Z.div_mod_to_equations; lia). rewrite len_app. change (len [48 + i mod 10]) with 1. lia.
Qed.

Lemma number_size_decimal i : 0 <= i < 2 ^ 64 -> number_size i = len (decimal 20 i).
Proof.
  intros Hi. unfold number_size. destruct (Z.eqb_spec i 0) as [->|]; [done|].
  rewrite count_digits_decimal; [lia|]. change (Z.of_nat 20) with 20. lia.
Qed.

Lemma fmt_zd_small x : 0 <= x < 2 ^ 63 -> fmt_zd x = decimal 20 x.
Proof. intros Hx. unfold fmt_zd. rewrite to_int64_small by (unfold INT64_MAX; lia). by replace (x <? 0) with false by lia. Qed.

Lemma wrap64_add a b : wrap64 (wrap64 a + b) = wrap64 (a + b).
Proof. unfold wrap64. apply Zplus_mod_idemp_l. Qed.

Definition range_size (p : Z * Z) : Z := number_size p.1 + p.2 + number_size (wrap64 (p.1 + p.2 - 1)).

Lemma fold_range_size ranges : forall a, fold_left add_range_size ranges (wrap64 a) = wrap64 (a + foldr (fun p n => range_size p + n) 0 ranges).
Proof.
  induction ranges as [|[s c] ranges IH]; intros a; cbn [fold_left foldr]; [by rewrite Z.add_0_r|].
  unfold add_range_size at 2. replace (wrap64 (wrap64 a + number_size s + c + number_size (wrap64 (s + c - 1)))) with
    (wrap64 (a + range_size (s, c))).
  - rewrite IH. f_equal. lia.
  - rewrite <- !Z.add_assoc, wrap64_add. unfold range_size. cbn [fst snd]. f_equal. lia.
Qed.

Section Length.
Context (file : bytes) (g : sendfile_generator).
Context (Hsize : g_filesize g = len file) (Hpos : 0 < len file < 2 ^ 63) (Hboundary : len (g_boundary g) = BOUNDARY_SIZE).

Lemma len_part k p : 0 <= p.1 -> 1 <= p.2 -> p.1 + p.2 <= len file ->
  len (part g k p) + p.2 =
    FIXED_PART_SIZE + len (g_mimetype g) + count_digits 20 (len file) + range_size p - (if bool_decide (k = 0%nat) then 2 else 0).
Proof.
  intros H1 H2 H3. unfold part, part_head, range_size. rewrite Hsize. rewrite (wrap64_small (p.1 + p.2 - 1)) by lia.
  rewrite !fmt_zd_small, !number_size_decimal by lia.
  rewrite (count_digits_decimal 20) by (change (Z.of_nat 20) with 20; lia).
  rewrite !len_app, Hboundary. destruct (bool_decide (k = 0%nat));
    change FIXED_PART_SIZE with 69; change BOUNDARY_SIZE with 20; change (len crlf) with 2; change (len (lit "--")) with 2;
    change (len (lit "Content-Type: ")) with 14; change (len (lit "Content-Range: bytes ")) with 21;
    change (len (lit "-")) with 1; change (len (lit "/")) with 1; change (len (@nil Z)) with 0; lia.
Qed.

Lemma len_parts ranges : forall k, Forall (fun p => 0 <= p.1 /\ 1 <= p.2 /\ p.1 + p.2 <= len file) ranges ->
  len (parts file g k ranges) =
    (FIXED_PART_SIZE + len (g_mimetype g) + count_digits 20 (len file)) * len ranges
    + foldr (fun p n => range_size p + n) 0 ranges - (if bool_decide (k = 0%nat) && negb (is_nil ranges) then 2 else 0).
Proof.
  induction ranges as [|p ranges IH]; intros k Hr; cbn [parts foldr is_nil negb].
  - rewrite andb_false_r. change (len (@nil (Z * Z))) with 0. change (len (@nil Z)) with 0. lia.
  - apply Forall_cons in Hr as [(H1 & H2 & H3) Hr]. rewrite !len_app, len_slice, (IH (S k) Hr), len_cons by lia.
    pose proof (len_part k p H1 H2 H3) as Hp. rewrite (bool_decide_eq_false_2 (S k = 0%nat)) by lia.
    rewrite andb_true_r. cbn [andb]. lia.
Qed.

Lemma len_multipart : ranges_wf file g -> g_range_infos g <> [] -> len (multipart_body file g) < 2 ^ 64 ->
  multirange_size (len file) (g_mimetype g) (g_range_infos g) = len (multipart_body file g).
Proof.
  intros [Hr _] Hne Hlt.
  assert (Hnil : is_nil (g_range_infos g) = false) by (by destruct (g_range_infos g)).
  assert (He : len (part_end (g_boundary g)) = 28) by (unfold part_end; rewrite !len_app, Hboundary; done).
  assert (Hlen : len (multipart_body file g) =
    (FIXED_PART_SIZE + len (g_mimetype g) + count_digits 20 (len file)) * len (g_range_infos g)
    + foldr (fun p n => range_size p + n) 0 (g_range_infos g) - 2 + 28).
  { unfold multipart_body. rewrite len_app, He, (len_parts _ 0 Hr), Hnil. rewrite bool_decide_eq_true_2 by done. done. }
  pose proof (len_nonneg (multipart_body file g)) as Hn. unfold multirange_size.
  pose proof (fold_range_size (g_range_infos g) 0) as Hf. change (wrap64 0) with 0 in Hf. rewrite Hf, wrap64_add.
  change (len (crlf ++ lit "--")) with 4. change BOUNDARY_SIZE with 20.
  change (len (lit "--" ++ crlf)) with 4. change (len crlf) with 2.
  rewrite wrap64_small; lia.
Qed.

End Length.

Lemma decimal_20_le v : len (decimal 20 v) <= 20.
Proof. pose proof (decimal_length 20 v). unfold len. lia. Qed.

Lemma fmt_zd_le x : len (fmt_zd x) <= 21.
Proof.
  unfold fmt_zd. destruct (_ <? 0); [rewrite len_cons; pose proof (decimal_20_le (- to_int64 x))|pose proof (decimal_20_le (to_int64 x))]; lia.
Qed.

(** With a media type of ordinary length the lines before a range fit into the buffer. *)
Lemma part_fits g k p : len (g_boundary g) = BOUNDARY_SIZE -> len (g_mimetype g) <= 60000 -> len (part g k p) < MAX_BUF_SIZE.
Proof.
  intros Hb Hm. unfold part, part_head. rewrite !len_app, Hb.
  pose proof (fmt_zd_le p.1). pose proof (fmt_zd_le (wrap64 (p.1 + p.2 - 1))). pose proof (fmt_zd_le (g_filesize g)).
  assert (len (if bool_decide (k = 0%nat) then [] else crlf) <= 2) by (destruct (bool_decide _); done).
  change BOUNDARY_SIZE with 20. change (len crlf) with 2. change (len (lit "--")) with 2.
  change (len (lit "Content-Type: ")) with 14. change (len (lit "Content-Range: bytes ")) with 21.
  change (len (lit "-")) with 1. change (len (lit "/")) with 1. unfold MAX_BUF_SIZE. lia.
Qed.
