(* ===== verification/FileServeRun.v ===== *)
(** * Serving files: the answers (lib/handler/file.c)

    What a request for a file is answered, and the octets that are then sent. *)
From S2P Require Import Prelude Strings Tokens HeaderTable Headers Timestr Filecache FilecacheOk FileRange FileRangeOk Http2Send FileServe FileServeOk.
From Stdlib Require Import ZArith Lia.
From stdpp Require Import base list numbers option strings.
Open Scope Z_scope.

(** A generator as [create_generator] makes it, of an open file. *)
Record generator_ok (file : bytes) (g : sendfile_generator) : Prop := {
  go_off : g_off g = 0;
  go_left : g_bytesleft g = len file;
  go_ranges : g_range_infos g = [];
  go_plain : g_gunzip g = false;
  go_fd : f_fd (g_ref g) <> -1;
  go_data : data_ok (g_ref g);
  go_time : in_four_digits (st_mtime (f_st (g_ref g))) }.

(** The same generator, but for what is kept in the reference. *)
Record same_generator (g g' : sendfile_generator) : Prop := {
  sg_file : same_file (g_ref g) (g_ref g');
  sg_data : data_ok (g_ref g');
  sg_rest : set_ref (g_ref g) g' = g }.

Lemma same_generator_fields g g' : same_generator g g' ->
  g_off g' = g_off g /\ g_bytesleft g' = g_bytesleft g /\ g_range_infos g' = g_range_infos g /\ g_gunzip g' = g_gunzip g /\
  g_filesize g' = g_filesize g /\ g_boundary g' = g_boundary g /\ g_mimetype g' = g_mimetype g /\
  g_current_range g' = g_current_range g.
Proof. intros [_ _ <-]. destruct g'. done. Qed.

Lemma same_generator_refl g : data_ok (g_ref g) -> same_generator g g.
Proof. intros. split; [done|done|by destruct g]. Qed.

Lemma same_generator_trans g1 g2 g3 : same_generator g1 g2 -> same_generator g2 g3 -> same_generator g1 g3.
Proof.
  intros [F1 D1 R1] [F2 D2 R2]. split; [unfold same_file in *; intuition congruence|done|].
  rewrite <- R1, <- R2. by destruct g3.
Qed.

Definition ref_ok (r : fileref) : Prop := f_fd r <> -1 /\ data_ok r /\ in_four_digits (st_mtime (f_st r)).

Lemma ref_ok_same g g' : ref_ok (g_ref g) -> same_generator g g' -> ref_ok (g_ref g').
Proof. intros (H1 & H2 & H3) [(F1 & F2 & _) D _]. unfold ref_ok. rewrite F1, F2. done. Qed.

(** ** The date and the tag *)

Lemma etag_answer g : ref_ok (g_ref g) ->
  exists r', h2o_filecache_get_etag (g_ref g) = Some (etag_of (f_st (g_ref g)), r') /\ same_generator g (set_ref r' g).
Proof.
  intros (Hfd & Hd & _). destruct (get_etag_ok (g_ref g) Hd Hfd) as (r' & -> & Hd' & Hs & _).
  exists r'. split; [done|]. split; [done|done|by destruct g].
Qed.

Lemma last_modified_answer g : ref_ok (g_ref g) ->
  exists str r', h2o_filecache_get_last_modified (g_ref g) = Some (gmtime (st_mtime (f_st (g_ref g))), str, r') /\
    h2o_time2str_rfc1123 (gmtime (st_mtime (f_st (g_ref g)))) = Some str /\ same_generator g (set_ref r' g).
Proof.
  intros (Hfd & Hd & Ht).
  assert (Hsome : exists x, h2o_filecache_get_last_modified (g_ref g) = Some x).
  { unfold h2o_filecache_get_last_modified. replace (f_fd (g_ref g) =? -1) with false by lia.
    destruct (f_last_modified (g_ref g)) as [[gm str]|]; [eauto|].
    destruct (rfc1123_read _ tm0 (gmtime_date_ok _ Ht)) as (s & -> & _). eauto. }
  destruct Hsome as [[[gm str] r'] E]. destruct (get_last_modified_ok _ Hd _ _ _ E) as (-> & Hs & Hd' & Hf & _).
  exists str, r'. split; [done|]. split; [done|]. split; [done|done|by destruct g].
Qed.

Lemma unconditional_ok g headers : ref_ok (g_ref g) ->
  exists g' headers', add_headers_unconditional g headers = Some (g', headers') /\ same_generator g g'.
Proof.
  intros Hr. unfold add_headers_unconditional. destruct (etag_answer g Hr) as (r' & -> & Hs).
  assert (Hset : forall hs, exists x, h2o_set_header_token hs H2O_TOKEN_VARY (lit "accept-encoding") = Some x)
    by (intros hs; destruct (set_header_token_total hs H2O_TOKEN_VARY (lit "accept-encoding")) as [x Hx]; eauto).
  pose proof (same_generator_refl g (proj1 (proj2 Hr))) as Hrefl.
  destruct (g_send_etag g); cbn [mbind option_bind].
  - destruct (g_send_vary _); [|eauto]. destruct (Hset (add_res_header H2O_TOKEN_ETAG (etag_of (f_st (g_ref g))) headers)) as [[hs i] ->]. simpl. eauto.
  - destruct (g_send_vary g); [|eauto]. destruct (Hset headers) as [[hs i] ->]. simpl. eauto.
Qed.

Lemma file_headers_ok g headers mime : ref_ok (g_ref g) ->
  exists g' headers', file_headers g headers mime = Some (g', headers') /\ same_generator g g'.
Proof.
  intros Hr. unfold file_headers. destruct (last_modified_answer g Hr) as (str & r' & -> & _ & Hs). cbn [mbind option_bind].
  match goal with |- context [add_headers_unconditional ?a ?b] => destruct (unconditional_ok a b) as (g2 & hs & -> & Hs2) end.
  { by apply (ref_ok_same g). }
  cbn [mbind option_bind]. assert (Hs' : same_generator g g2) by (by eapply same_generator_trans).
  destruct (g_range_infos g2) as [|[s c] [|]]; eauto.
Qed.

(** ** The octets that are sent *)

Section Body.
Context (file : bytes) (pread : Z -> Z -> option bytes) (Hread : reads file pread).

(** What is sent first, and by the calls of [proceed] until the end. *)
Definition sent_body (fuel : nat) (g : sendfile_generator) (sent : list send_data) (state : h2o_send_state) : option bytes :=
  let first := concat (map (sent_octets file) sent) in
  match state with
  | SEND_FINAL => Some first
  | SEND_ERROR => None
  | SEND_IN_PROGRESS =>
      if g_range_count g <? 2 then
        vecs ← proceed_run fuel g; Some (first ++ concat (map (sent_octets file) vecs))
      else
        '(rest, state) ← multirange_run pread fuel g;
        match state with SEND_FINAL => Some (first ++ rest) | _ => None end
  end.

Lemma proceed_body g : 0 <= g_off g -> 0 <= g_bytesleft g -> g_off g + g_bytesleft g <= len file -> g_range_count g < 2 ->
  let '(g', vec, state) := do_proceed g in
  exists fuel, sent_body fuel g' [vec] state = Some (slice file (g_off g) (g_bytesleft g)).
Proof.
  intros Ho Hb Hl Hc. set (fuel := Z.to_nat (g_bytesleft g)).
  destruct (proceed_run_ok file (S fuel) g Ho Hb Hl ltac:(lia) ltac:(lia)) as (vecs & Hrun & Hoct & _).
  cbn [proceed_run] in Hrun. assert (Hcount : g_range_count (do_proceed g).1.1 = g_range_count g) by done.
  assert (Hstate : (do_proceed g).2 <> SEND_ERROR) by (simpl; by destruct (negb _)).
  destruct (do_proceed g) as [[g' vec] state]. cbn [fst snd] in Hcount, Hstate. exists fuel. unfold sent_body. rewrite Hcount.
  replace (g_range_count g <? 2) with true by lia.
  destruct state; [|injection Hrun as <-; by rewrite Hoct|].
  - destruct (proceed_run fuel g') as [rest|]; [|done]. cbn [mbind option_bind] in *. injection Hrun as <-.
    cbn [map concat] in *. rewrite app_nil_r. by rewrite Hoct.
  - done.
Qed.

Lemma multirange_body g : ranges_wf file g -> at_position file g -> 2 <= g_range_count g ->
  exists g' bufs state, do_multirange_proceed pread g = Some (g', bufs, state) /\
    exists fuel, sent_body fuel g' (map Octets bufs) state = Some (to_send file g).
Proof.
  intros Hwf Hat Hc. pose proof (octets_left_pos file g Hwf Hat). set (fuel := Z.to_nat (octets_left g)).
  pose proof (multirange_run_ok file pread Hread (S fuel) g Hwf Hat ltac:(lia) ltac:(lia)) as Hrun. cbn [multirange_run] in Hrun.
  destruct (do_multirange_proceed pread g) as [[[g' bufs] state]|] eqn:E; [|done]. cbn [mbind option_bind] in Hrun.
  exists g', bufs, state. split; [done|]. exists fuel. unfold sent_body.
  assert (Hoct : concat (map (sent_octets file) (map Octets bufs)) = concat bufs) by (rewrite map_map; simpl; by rewrite map_id).
  assert (Hcount : g_range_count g' = g_range_count g).
  { unfold do_multirange_proceed in E. destruct (start_range_ok file g Hwf Hat) as (buf & off & n & k & Es & _). rewrite Es in E. cbn [mbind option_bind] in E.
    destruct (pread _ _); [|by injection E as <- _ _]. destruct (_ && _); by injection E as <- _ _. }
  rewrite Hoct, Hcount. replace (g_range_count g <? 2) with false by lia. destruct state.
  - destruct (multirange_run pread fuel g') as [[rest st]|]; [|done]. cbn [mbind option_bind] in *. injection Hrun as E1 ->. by rewrite E1.
  - injection Hrun as ->. done.
  - done.
Qed.

(** ** [do_send_file] *)

(** The generator of a file whole, or with ranges that are set. *)
Definition body_of (g : sendfile_generator) : bytes :=
  match g_range_infos g with
  | [] => file
  | [(s, c)] => slice file s c
  | _ => multipart_body file g
  end.

Record ready (g : sendfile_generator) : Prop := {
  rd_ref : ref_ok (g_ref g);
  rd_plain : g_gunzip g = false;
  rd_current : g_current_range g = 0%nat \/ g_range_infos g = [];
  rd_whole : g_range_infos g = [] -> g_off g = 0 /\ g_bytesleft g = len file;
  rd_ranges : Forall (fun p => 0 <= p.1 /\ 0 <= p.2 /\ p.1 + p.2 <= len file) (g_range_infos g);
  rd_single s c : g_range_infos g = [(s, c)] -> g_bytesleft g = c;
  rd_multi : 2 <= g_range_count g -> ranges_wf file g /\ 0 <= g_off g <= len file /\ g_bytesleft g <> 0 }.

Lemma parts_ref r g k ranges : parts file (set_ref r g) k ranges = parts file g k ranges.
Proof. revert k. induction ranges as [|p ranges IH]; intros k; simpl; [done|]. by rewrite IH. Qed.

Lemma set_ref_body g g' : same_generator g g' -> body_of g' = body_of g.
Proof.
  intros [_ _ E]. rewrite <- E. unfold body_of, multipart_body. cbn [g_range_infos g_boundary set_ref].
  by rewrite (parts_ref (g_ref g) g').
Qed.

Lemma ready_same g g' : ready g -> same_generator g g' -> ready g'.
Proof.
  intros H Hs. pose proof (ref_ok_same g g' (rd_ref _ H) Hs) as Hr. destruct Hs as [_ _ E].
  remember (g_ref g) as r eqn:Er. clear Er. subst g. destruct H as [_ H1 H2 H3 H4 H5 H6]. split; done.
Qed.

Lemma whole_slice : slice file 0 (len file) = file.
Proof. unfold slice, len. rewrite Nat2Z.id. simpl. apply firstn_all. Qed.

Lemma do_send_file_ok g headers status reason mime : ready g ->
  exists res g' sent state, do_send_file pread g headers status reason mime true = Some (res, g', sent, state) /\
    res_status res = status /\ res_content_length res = g_bytesleft g /\
    exists fuel, sent_body fuel g' sent state = Some (body_of g).
Proof.
  intros H. unfold do_send_file. destruct (file_headers_ok g headers mime (rd_ref _ H)) as (g1 & hs & -> & Hs).
  cbn [mbind option_bind negb orb]. rewrite (rd_plain _ H). pose proof (ready_same g g1 H Hs) as H1. rewrite <- (set_ref_body g g1 Hs).
  pose proof (same_generator_fields g g1 Hs) as (_ & Hleft & _). rewrite <- Hleft.
  destruct (Z.eqb_spec (g_bytesleft g1) 0) as [E|E].
  { eexists _, _, _, _. split; [done|]. split; [done|]. split; [done|]. exists 0%nat. unfold sent_body, body_of. simpl. f_equal.
    destruct (g_range_infos g1) as [|[s c] [|]] eqn:Er.
    - destruct (rd_whole _ H1 Er) as [_ Hl]. symmetry. apply len_zero. lia.
    - rewrite <- (rd_single _ H1 s c Er), E. done.
    - exfalso. apply (rd_multi _ H1); [|done]. unfold g_range_count. rewrite Er, !len_cons. pose proof (len_nonneg l). lia. }
  destruct (g_range_infos g1) as [|[s c] [|p2 l]] eqn:Er.
  - assert (Hc : g_range_count g1 = 0) by (unfold g_range_count; by rewrite Er). rewrite Hc. change (0 <? 2) with true. cbv iota.
    destruct (rd_whole _ H1 Er) as [Ho Hl]. pose proof (len_nonneg file).
    pose proof (proceed_body g1 ltac:(lia) ltac:(lia) ltac:(lia) ltac:(lia)) as Hp. destruct (do_proceed g1) as [[g' vec] state].
    eexists _, _, _, _. split; [done|]. split; [done|]. split; [done|]. unfold body_of. rewrite Er. rewrite Ho, Hl, whole_slice in Hp. done.
  - set (g2 := set_position s _ _ g1).
    assert (Hc : g_range_count g2 = 1) by (unfold g_range_count; simpl; by rewrite Er). rewrite Hc. change (1 <? 2) with true. cbv iota.
    pose proof (rd_ranges _ H1) as Hr. rewrite Er in Hr. apply Forall_cons in Hr as [Hr _]. cbn [fst snd] in Hr.
    pose proof (rd_single _ H1 s c Er) as Hbl.
    pose proof (proceed_body g2) as Hp. cbn [g_off g_bytesleft g2 set_position] in Hp. specialize (Hp ltac:(lia) ltac:(lia) ltac:(lia) ltac:(lia)).
    destruct (do_proceed g2) as [[g' vec] state]. eexists _, _, _, _. split; [done|]. split; [done|]. split; [done|].
    unfold body_of. rewrite Er. rewrite Hbl in Hp. done.
  - assert (Hc : 2 <= g_range_count g1) by (unfold g_range_count; rewrite Er, !len_cons; pose proof (len_nonneg l); lia).
    replace (g_range_count g1 <? 2) with false by lia. destruct (rd_multi _ H1 Hc) as (Hwf & Ho & _).
    set (g2 := set_position (g_off g1) 0 (g_current_range g1) g1).
    assert (Hcur : g_current_range g1 = 0%nat) by (destruct (rd_current _ H1) as [|Hn]; [done|by rewrite Er in Hn]).
    destruct (multirange_body g2) as (g' & bufs & state & -> & Hb); [done| |done|].
    { unfold at_position. cbn [g_off g_bytesleft g_current_range g_range_infos g2 set_position]. rewrite Hcur, Er. simpl. lia. }
    cbn [mbind option_bind]. eexists _, _, _, _. split; [done|]. split; [done|]. split; [done|].
    destruct Hb as [fuel Hb]. exists fuel. rewrite Hb. f_equal. unfold to_send, body_of, multipart_body.
    cbn [g_off g_bytesleft g_current_range g_range_infos g_boundary g2 set_position]. rewrite slice_0, Hcur, Er. cbn [app drop].
    unfold g2. by rewrite parts_position.
Qed.
End Body.

(** ** Conditional requests *)

Lemma not_modified_ok g rh : ref_ok (g_ref g) ->
  exists b g', not_modified g rh = Some (b, g') /\ same_generator g g' /\
    match header_value rh H2O_TOKEN_IF_NONE_MATCH with
    | Some tag => b = h2o_filecache_compare_etag_strong tag (etag_of (f_st (g_ref g)))
    | None =>
        match header_value rh H2O_TOKEN_IF_MODIFIED_SINCE with
        | Some ims => b = ((fst (h2o_time_parse_rfc1123 ims tm0) =? 0) &&
                           negb (tm_is_lessthan (snd (h2o_time_parse_rfc1123 ims tm0)) (gmtime (st_mtime (f_st (g_ref g))))))
        | None => b = false
        end
    end.
Proof.
  intros Hr. unfold not_modified. pose proof (same_generator_refl g (proj1 (proj2 Hr))).
  destruct (header_value rh H2O_TOKEN_IF_NONE_MATCH).
  - destruct (etag_answer g Hr) as (r' & -> & Hs). cbn [mbind option_bind]. eauto.
  - destruct (header_value rh H2O_TOKEN_IF_MODIFIED_SINCE) as [ims|]; [|eauto].
    destruct (h2o_time_parse_rfc1123 ims tm0) as [x t]. cbn [fst snd]. destruct (x =? 0); [|eauto].
    destruct (last_modified_answer g Hr) as (str & r' & -> & _ & Hs). cbn [mbind option_bind andb]. eauto.
Qed.

Lemma if_range_ok g rh : ref_ok (g_ref g) -> exists b g', if_range_fails g rh = Some (b, g') /\ same_generator g g'.
Proof.
  intros Hr. unfold if_range_fails. pose proof (same_generator_refl g (proj1 (proj2 Hr))).
  destruct (header_value rh H2O_TOKEN_IF_RANGE) as [v|]; [|eauto].
  destruct (h2o_time_parse_rfc1123 v tm0) as [x t]. destruct (x =? 0).
  - destruct (last_modified_answer g Hr) as (str & r' & -> & _ & Hs). cbn [mbind option_bind]. eauto.
  - destruct (etag_answer g Hr) as (r' & -> & Hs). cbn [mbind option_bind]. eauto.
Qed.

(** ** Ranges *)

Lemma generator_ready file g : generator_ok file g -> ready file g.
Proof.
  intros H. assert (Hr : ref_ok (g_ref g)) by (split; [apply (go_fd _ _ H)|]; split; [apply (go_data _ _ H)|apply (go_time _ _ H)]).
  split; [done|apply H|right; apply H| | | |].
  - intros _. split; apply H.
  - rewrite (go_ranges _ _ H). constructor.
  - intros s c E. rewrite (go_ranges _ _ H) in E. done.
  - unfold g_range_count. rewrite (go_ranges _ _ H), len_nil. lia.
Qed.

Lemma generator_same file g g' : generator_ok file g -> same_generator g g' -> generator_ok file g'.
Proof.
  intros H Hs. pose proof (same_generator_fields g g' Hs) as (E1 & E2 & E3 & E4 & _). destruct Hs as [(F1 & F2 & _) Hd _].
  split; rewrite ?E1, ?E2, ?E3, ?E4, ?F1, ?F2; try apply H. done.
Qed.

Lemma len_boundary rands : length rands = 20%nat -> len (gen_rand_string rands) = BOUNDARY_SIZE.
Proof. intros H. unfold len, gen_rand_string. rewrite length_map, H. done. Qed.

(** The ranges in place: the announced length is that of the body. *)
Lemma ranges_ready file g ranges m rands :
  generator_ok file g -> 0 < len file < 2 ^ 63 -> ranges <> [] -> all_ok (len file) ranges -> length rands = 20%nat -> len m <= 60000 ->
  len (multipart_body file (set_ranges g ranges m rands)) < 2 ^ 64 ->
  ready file (set_ranges g ranges m rands) /\ g_bytesleft (set_ranges g ranges m rands) = len (body_of file (set_ranges g ranges m rands)).
Proof.
  intros H Hf Hne Hr Hrands Hm Hlt.
  assert (Hwf : Forall (fun p : Z * Z => 0 <= p.1 /\ 1 <= p.2 /\ p.1 + p.2 <= len file) ranges).
  { eapply Forall_impl; [exact Hr|]. unfold range_ok. cbn beta. intros p Hp. lia. }
  assert (Hwf0 : Forall (fun p : Z * Z => 0 <= p.1 /\ 0 <= p.2 /\ p.1 + p.2 <= len file) ranges).
  { eapply Forall_impl; [exact Hwf|]. cbn beta. intros p Hp. lia. }
  pose proof (rd_ref _ _ (generator_ready file g H)) as Href.
  destruct ranges as [|[s c] [|p2 l]]; [done| |].
  - apply Forall_cons in Hwf as [Hp _]. cbn [fst snd] in Hp. unfold set_ranges, body_of in *. cbn [g_range_infos g_bytesleft]. split.
    + split; cbn [g_ref g_gunzip g_current_range g_range_infos g_off g_bytesleft]; try done; [apply H|by left|].
      intros s' c' [= <- <-]. done.
    + rewrite len_slice; lia.
  - set (ranges := (s, c) :: p2 :: l) in *. set (g' := set_ranges g ranges m rands) in *.
    assert (Eg : g' = Generator (g_ref g) (g_off g) (multirange_size (g_bytesleft g) m ranges) (g_content_encoding g) (g_send_vary g)
                  (g_send_etag g) (g_gunzip g) (g_bytesleft g) ranges (gen_rand_string rands) m 0) by done.
    assert (Hb : len (g_boundary g') = BOUNDARY_SIZE) by (rewrite Eg; by apply len_boundary).
    assert (Hw : ranges_wf file g') by (split; [rewrite Eg; exact Hwf|]; intros k p; apply part_fits; rewrite ?Eg; [by apply len_boundary|done]).
    assert (Hsz : g_filesize g' = len file) by (rewrite Eg; apply H).
    pose proof (len_multipart file g' Hsz Hf Hb Hw ltac:(by rewrite Eg) Hlt) as Hlen.
    assert (Hleft : g_bytesleft g' = len (multipart_body file g')).
    { rewrite <- Hlen, Eg. cbn [g_bytesleft g_mimetype g_range_infos]. by rewrite (go_left _ _ H). }
    split; [|exact Hleft]. split; try (rewrite Eg; done).
    + rewrite Eg. apply H.
    + rewrite Eg. by left.
    + intros _. split; [done|]. split; [rewrite Eg; cbn [g_off]; rewrite (go_off _ _ H); lia|].
      rewrite Hleft. unfold multipart_body. rewrite len_app. pose proof (len_nonneg (parts file g' 0 (g_range_infos g'))).
      unfold part_end. rewrite !len_app, Hb. change (len crlf) with 2. pose proof (len_nonneg (lit "--")). change BOUNDARY_SIZE with 20. lia.
Qed.

(** ** The answer to a GET *)

(** What [outcome] a GET of a file may have. *)
Definition right_answer (file : bytes) (pread : Z -> Z -> option bytes) (g : sendfile_generator) (rh : h2o_headers_t) (m : bytes)
    (rands : list Z) (o : outcome) : Prop :=
  match o with
  | Delegated => False
  | Inline res => res_status res = 304
  | ErrorPage status _ => status = 416
  | Serving res g' sent state =>
      exists fuel body, sent_body file pread fuel g' sent state = Some body /\ len body = res_content_length res /\
        (res_status res = 200 /\ body = file \/
         res_status res = 206 /\ exists range ranges, header_value rh H2O_TOKEN_RANGE = Some range /\
           range_of range (len file) = Some (Some ranges) /\ body = body_of file (set_ranges g ranges m rands))
  end.

Lemma entire_answer file pread g g2 rh hs m rands :
  reads file pread -> generator_ok file g2 ->
  succeeds ('(res, g, sent, state) ← do_send_file pread g2 hs 200 (lit "OK") m true; Some (Serving res g sent state))
    (fun o => right_answer file pread g rh m rands o /\ exists res g3 sent state, o = Serving res g3 sent state /\ res_status res = 200).
Proof.
  intros Hread Hg2. destruct (do_send_file_ok file pread Hread g2 hs 200 (lit "OK") m (generator_ready file g2 Hg2))
    as (res & g3 & sent & state & -> & Hst & Hcl & fuel & Hb). cbn [mbind option_bind]. apply succeeds_some.
  split; [|eauto 10]. exists fuel. eexists. split; [exact Hb|]. unfold body_of. rewrite (go_ranges _ _ Hg2), Hcl, (go_left _ _ Hg2). auto.
Qed.

Lemma set_ranges_same g g' ranges m rands : same_generator g g' ->
  set_ranges g ranges m rands = set_ref (g_ref g) (set_ranges g' ranges m rands).
Proof. intros [_ _ E]. rewrite <- E at 1. destruct ranges as [|[s c] [|]]; done. Qed.

Lemma body_of_ref file r g : body_of file (set_ref r g) = body_of file g.
Proof. unfold body_of, multipart_body. cbn [g_range_infos g_boundary set_ref]. by rewrite parts_ref. Qed.

Lemma partial_answer file pread g g2 rh hs m rands range ranges :
  reads file pread -> generator_ok file g2 -> same_generator g g2 -> 0 < len file < 2 ^ 63 -> length rands = 20%nat -> len m <= 60000 ->
  header_value rh H2O_TOKEN_RANGE = Some range -> range_of range (len file) = Some (Some ranges) -> ranges <> [] -> all_ok (len file) ranges ->
  len (multipart_body file (set_ranges g ranges m rands)) < 2 ^ 64 ->
  succeeds ('(res, g, sent, state) ← do_send_file pread (set_ranges g2 ranges m rands) hs 206 (lit "Partial Content") m true;
            Some (Serving res g sent state)) (right_answer file pread g rh m rands).
Proof.
  intros Hread Hg2 Hs Hf Hrands Hm Hrange Hof Hne Hok Hbig. rewrite (set_ranges_same g g2) in Hbig by done.
  unfold multipart_body in Hbig. rewrite parts_ref in Hbig.
  destruct (ranges_ready file g2 ranges m rands Hg2 Hf Hne Hok Hrands Hm Hbig) as [Hready Hlen].
  destruct (do_send_file_ok file pread Hread _ hs 206 (lit "Partial Content") m Hready)
    as (res & g3 & sent & state & -> & Hst & Hcl & fuel & Hb). cbn [mbind option_bind]. apply succeeds_some.
  exists fuel. eexists. split; [exact Hb|]. split; [by rewrite Hcl, Hlen|]. right. split; [done|].
  exists range, ranges. split; [done|]. split; [done|]. rewrite (set_ranges_same g g2) by done. by rewrite body_of_ref.
Qed.

(** ** Properties *)


(** ** Tags *)

Lemma hex_digit_ok v : etag_char_ok (hex_digit (v mod 16)) = true.
Proof.
  pose proof (Z.mod_pos_bound v 16 ltac:(lia)). unfold etag_char_ok, hex_digit. destruct (Z.ltb_spec (v mod 16) 10).
  - replace (48 + v mod 16 <? 128) with true by lia. lia.
  - replace (87 + v mod 16 <? 128) with true by lia. lia.
Qed.

Lemma hex_padded_ok n : forall v, forallb etag_char_ok (hex_padded n v) = true.
Proof. induction n as [|n IH]; intros v; cbn [hex_padded]; [done|]. rewrite forallb_app, IH. cbn [forallb]. by rewrite hex_digit_ok. Qed.

Lemma hexadecimal_ok n : forall v, forallb etag_char_ok (hexadecimal n v) = true.
Proof.
  induction n as [|n IH]; intros v; cbn [hexadecimal]; [done|]. destruct (v / 16 =? 0); [cbn [forallb]; by rewrite hex_digit_ok|].
  rewrite forallb_app, IH. cbn [forallb]. by rewrite hex_digit_ok.
Qed.

Lemma quoted_tag (s : bytes) : forallb etag_char_ok s = true -> s <> [] ->
  h2o_filecache_compare_etag_strong (34 :: s ++ [34]) (34 :: s ++ [34]) = true.
Proof.
  intros Hs Hne. unfold h2o_filecache_compare_etag_strong. cbn [length].
  rewrite len_cons, len_app. change (len [34]) with 1. assert (0 < len s) by (destruct s; [done|rewrite len_cons; pose proof (len_nonneg s); lia]).
  replace (len s + 1 + 1 <? 3) with false by lia. rewrite length_app. cbn [length].
  replace (S (length s + 1) - 1)%nat with (S (length s)) by lia. cbn [nth]. rewrite app_nth2, Nat.sub_diag by lia. cbn [nth].
  change (negb (34 =? 34) || negb (34 =? 34)) with false. cbv iota.
  replace (S (length s + 1) - 2)%nat with (length s) by lia. change (drop 1 (34 :: s ++ [34])) with (s ++ [34]). rewrite take_app_length, Hs. cbn [negb].
  by rewrite bool_decide_eq_true_2.
Qed.

Lemma etag_strong st tag : h2o_filecache_compare_etag_strong tag (etag_of st) = bool_decide (tag = etag_of st).
Proof.
  case_bool_decide as E.
  - subst tag. unfold etag_of. cbn [app].
    replace (hex_padded 8 (wrap32 (st_mtime st)) ++ 45 :: hexadecimal 16 (wrap64 (st_size st)) ++ [34]) with
      ((hex_padded 8 (wrap32 (st_mtime st)) ++ 45 :: hexadecimal 16 (wrap64 (st_size st))) ++ [34]) by (by rewrite <- app_assoc).
    apply quoted_tag; [|by destruct (hex_padded 8 _)]. rewrite forallb_app, hex_padded_ok. cbn [forallb]. by rewrite hexadecimal_ok.
  - unfold h2o_filecache_compare_etag_strong. bcase; try done. by apply bool_decide_eq_false_2.
Qed.

(** A GET without ranges, once it is known whether the file is modified. *)
Lemma conditional_get file pread g rh hs m rands (b : bool) :
  reads file pread -> generator_ok file g -> header_value rh H2O_TOKEN_RANGE = None ->
  (exists g', not_modified g rh = Some (b, g') /\ same_generator g g') ->
  exists o, serve_with_generator pread g (lit "GET") rh hs (Mimetype m) [0] rands = Some o /\
    if b then exists res, o = Inline res /\ res_status res = 304
    else exists res g' sent state, o = Serving res g' sent state /\ res_status res = 200.
Proof.
  intros Hread Hg Hnr (g1 & E & Hs). unfold serve_with_generator. rewrite E. cbn [mbind option_bind].
  pose proof (rd_ref _ _ (generator_ready file g Hg)) as Href. destruct b.
  - destruct (unconditional_ok g1 hs (ref_ok_same g g1 Href Hs)) as (g2 & hs2 & -> & _). cbn [mbind option_bind]. eauto.
  - change (negb (bool_decide (lit "GET" = lit "GET") || bool_decide (lit "GET" = lit "HEAD"))) with false.
    change (bool_decide (lit "GET" = lit "GET")) with true. cbv iota. rewrite Hnr.
    destruct (entire_answer file pread g g1 rh hs m rands Hread (generator_same file g g1 Hg Hs)) as (o & -> & _ & Ho). eauto.
Qed.

(** C34: revalidation.  A client that asks for a file modified since a date (of the years 0 to 9999, as
    the server writes dates) is told that it is not modified if and only if the file was
    last modified at that time or before, and else gets the file; a client that names a tag is
    told so if and only if the tag is the file's. *)
Theorem revalidation file pread g hs m rands :
  reads file pread -> generator_ok file g ->
  (forall rh t date, in_four_digits t -> h2o_time2str_rfc1123 (gmtime t) = Some date ->
     header_value rh H2O_TOKEN_IF_NONE_MATCH = None -> header_value rh H2O_TOKEN_IF_MODIFIED_SINCE = Some date ->
     header_value rh H2O_TOKEN_RANGE = None ->
     exists o, serve_with_generator pread g (lit "GET") rh hs (Mimetype m) [0] rands = Some o /\
       if st_mtime (f_st (g_ref g)) <=? t then exists res, o = Inline res /\ res_status res = 304
       else exists res g' sent state, o = Serving res g' sent state /\ res_status res = 200) /\
  (forall rh tag, header_value rh H2O_TOKEN_IF_NONE_MATCH = Some tag -> header_value rh H2O_TOKEN_RANGE = None ->
     exists o, serve_with_generator pread g (lit "GET") rh hs (Mimetype m) [0] rands = Some o /\
       if bool_decide (tag = etag_of (f_st (g_ref g))) then exists res, o = Inline res /\ res_status res = 304
       else exists res g' sent state, o = Serving res g' sent state /\ res_status res = 200).
Proof.
  intros Hread Hg. pose proof (rd_ref _ _ (generator_ready file g Hg)) as Href. split.
  - intros rh t date Ht Hdate Hnm Hims Hnr. destruct (not_modified_ok g rh Href) as (b & g' & E & Hs & Hb). rewrite Hnm, Hims in Hb.
    apply (conditional_get file pread g rh hs m rands); [done|done|done|]. exists g'. split; [|done]. rewrite E. do 2 f_equal. rewrite Hb.
    destruct (rfc1123_read (gmtime t) tm0 (gmtime_date_ok t Ht)) as (s & Es & _ & Hp). rewrite Hdate in Es. injection Es as <-.
    rewrite Hp. cbn [fst snd]. change (0 =? 0) with true. cbn [andb].
    match goal with |- negb ?x = _ => replace x with (t <? st_mtime (f_st (g_ref g))) end; [lia|].
    rewrite <- tm_is_lessthan_exact. done.
  - intros rh tag Hnm Hnr. destruct (not_modified_ok g rh Href) as (b & g' & E & Hs & Hb). rewrite Hnm in Hb.
    apply (conditional_get file pread g rh hs m rands); [done|done|done|]. exists g'. split; [|done]. rewrite E, Hb. by rewrite etag_strong.
Qed.

(** ** Witnesses *)

Definition sample_file : bytes := lit "hello, world".
Definition sample_generator : sendfile_generator :=
  Generator (FileRef 3 2 (Stat 1411104244 12 false) None [] 0 (lit "/hello.txt")) 0 12 None false true false 0 [] [] [] 0.
Definition sample_rands : list Z := replicate 20 7.

Lemma sample_generator_ok : generator_ok sample_file sample_generator.
Proof.
  split; try reflexivity; try discriminate.
  - split; [discriminate|by left].
  - split; vm_compute; [discriminate|reflexivity].
Qed.

Definition range_request : h2o_headers_t := [Header (NTok H2O_TOKEN_RANGE) None (lit "bytes=0-4,7-") false].


Definition date_request : h2o_headers_t :=
  [Header (NTok H2O_TOKEN_IF_MODIFIED_SINCE) None (lit "Fri, 19 Sep 2014 05:24:04 GMT") false].

Lemma revalidation_witness : generator_ok sample_file sample_generator /\
  exists o res, serve_with_generator (pread_whole sample_file) sample_generator (lit "GET") date_request [] (Mimetype (lit "text/plain")) [0] []
    = Some o /\ o = Inline res /\ res_status res = 304.
Proof.
  split; [exact sample_generator_ok|].
  destruct (revalidation sample_file (pread_whole sample_file) sample_generator [] (lit "text/plain") []
              (pread_whole_reads sample_file) sample_generator_ok) as [H _].
  destruct (H date_request 1411104244 (lit "Fri, 19 Sep 2014 05:24:04 GMT")) as (o & E & res & Ho & Hres);
    [split; vm_compute; [discriminate|reflexivity]|reflexivity|reflexivity|reflexivity|reflexivity|].
  exists o, res. split; [exact E|]. split; [exact Ho|exact Hres].
Defined.

(** ** An empty file *)

(** Two suffixes of an empty file: the announced length is not that of the body. *)
Example empty_file_length :
  let g := Generator (FileRef 3 2 (Stat 1411104244 0 false) None [] 0 (lit "/empty")) 0 0 None false true false 0 [] [] [] 0 in
  let rh := [Header (NTok H2O_TOKEN_RANGE) None (lit "bytes=-1,-2") false] in
  match serve_with_generator (pread_whole []) g (lit "GET") rh [] (Mimetype (lit "text/plain")) [0] sample_rands with
  | Some (Serving res g' sent state) =>
      (res_status res, res_content_length res, len <$> sent_body [] (pread_whole []) 5 g' sent state) = (206, 226, Some 192)
  | _ => False
  end.
Proof. vm_compute. reflexivity. Qed.
