(* ===== verification/Balancer.v ===== *)
(** * Load balancers (lib/common/balancer/roundrobin.c, lib/common/balancer/least_conn.c)

    The two ways to choose one of the targets of a pool, behind the interface that the pool knows
    them through.  A target is known here by its weight less one (an octet) and by the number of
    connections leased to it; those that were tried before are not to be chosen. *)
From S2P Require Import Prelude.
From Stdlib Require Import ZArith Lia.
From stdpp Require Import base list numbers option.
Open Scope Z_scope.

Record load := Load { weight_m1 : Z; leased_count : Z }.

(** [h2o_balancer_callbacks_t].  [None]: an assertion fails, or [h2o_fatal]. *)
Class Balancer (B : Type) := select_ : B -> list load -> list bool -> option (nat * B).

Definition was_tried (tried : list bool) (i : nat) : bool := nth i tried true.

(** Weights less one are octets. *)
Definition weight_ok (l : load) : Prop := 0 <= weight_m1 l < 256.

(** What a balancer promises: while a target is left it finds one that was not tried, and is left in
    a state fit for as many targets, whatever their loads become. *)
Class BalancerOk (B : Type) `{Balancer B} := {
  fit : B -> nat -> Prop;
  select_ok b loads tried i :
    Forall weight_ok loads -> fit b (length loads) -> length tried = length loads -> was_tried tried i = false ->
    exists r b', select_ b loads tried = Some (r, b') /\ (r < length loads)%nat /\ was_tried tried r = false /\ fit b' (length loads) }.

(** ** Round robin *)

Record round_robin := RoundRobin { pos : nat; consumed_weight : Z }.

Definition h2o_balancer_create_rr : round_robin := RoundRobin 0 0.

Definition select_next (self : round_robin) (size : nat) : round_robin :=
  RoundRobin (if (pos self + 1 =? size)%nat then 0 else pos self + 1) 0.

Fixpoint rr_loop (n : nat) (self : round_robin) (loads : list load) (tried : list bool) : option (nat * round_robin) :=
  match n with
  | O => None
  | S n =>
      if negb (was_tried tried (pos self)) then
        let consumed := wrap64 (consumed_weight self + 1) in
        Some (pos self,
              if weight_m1 (nth (pos self) loads (Load 0 0)) <? consumed then select_next self (length loads)
              else RoundRobin (pos self) consumed)
      else rr_loop n (select_next self (length loads)) loads tried
  end.

Definition rr_selector (self : round_robin) (loads : list load) (tried : list bool) : option (nat * round_robin) :=
  if (length loads =? 0)%nat then None else rr_loop (length loads) self loads tried.

#[export] Instance rr_balancer : Balancer round_robin := rr_selector.

(** ** Least connections *)

Record least_conn := LeastConn {}.

Definition h2o_balancer_create_lc : least_conn := LeastConn.

Record best := Best { result_index : option nat; result_weight : Z; result_leased : Z }.

Definition lc_step (i : nat) (l : load) (was : bool) (r : best) : best :=
  let leftprod := wrap64 (leased_count l * result_weight r) in
  let rightprod := wrap64 (result_leased r * (weight_m1 l + 1)) in
  if negb was && (leftprod <? rightprod) then Best (Some i) (weight_m1 l + 1) (leased_count l) else r.

Fixpoint lc_loop (i : nat) (loads : list load) (tried : list bool) (r : best) : best :=
  match loads with
  | [] => r
  | l :: loads => lc_loop (S i) loads tried (lc_step i l (was_tried tried i) r)
  end.

Definition lc_selector (self : least_conn) (loads : list load) (tried : list bool) : option (nat * least_conn) :=
  if (length loads =? 0)%nat then None
  else i ← result_index (lc_loop 0 loads tried (Best None 0 1)); Some (i, self).

#[export] Instance lc_balancer : Balancer least_conn := lc_selector.

(** ** Round robin keeps its promise *)

Definition rr_fit (self : round_robin) (n : nat) : Prop := (pos self < n)%nat.

Lemma select_next_fit self n : rr_fit self n -> rr_fit (select_next self n) n.
Proof. unfold rr_fit, select_next. simpl. destruct (Nat.eqb_spec (pos self + 1) n); lia. Qed.

(** How far it is from the current position on to target [i]. *)
Definition distance (self : round_robin) (n i : nat) : nat := if (pos self <=? i)%nat then i - pos self else i + n - pos self.

Lemma rr_loop_ok loads tried i : was_tried tried i = false -> (i < length loads)%nat -> forall k self,
  rr_fit self (length loads) -> (distance self (length loads) i < k)%nat ->
  exists r self', rr_loop k self loads tried = Some (r, self') /\ (r < length loads)%nat /\ was_tried tried r = false /\ rr_fit self' (length loads).
Proof.
  intros Hi Hlen. induction k as [|k IH]; intros self Hf Hk; [lia|]. cbn [rr_loop].
  destruct (was_tried tried (pos self)) eqn:Et; simpl.
  - apply IH; [by apply select_next_fit|]. unfold distance, select_next, rr_fit in *. cbn [pos].
    destruct (Nat.leb_spec (pos self) i), (Nat.eqb_spec (pos self + 1) (length loads)).
    all: assert (i <> pos self) by (intros ->; congruence).
    all: repeat match goal with |- context [(?a <=? ?b)%nat] => destruct (Nat.leb_spec a b) end; try lia.
  - eexists _, _. split; [done|]. split_and!; [done|done|]. destruct (_ <? _); [by apply select_next_fit|done].
Qed.

Lemma was_tried_lt tried i : was_tried tried i = false -> (i < length tried)%nat.
Proof. intros H. destruct (Nat.lt_ge_cases i (length tried)); [done|]. unfold was_tried in H. by rewrite nth_overflow in H. Qed.

#[export] Instance rr_ok : BalancerOk round_robin.
Proof.
  refine {| fit := rr_fit |}. intros b loads tried i _ Hf Hlen Hi. pose proof (was_tried_lt _ _ Hi) as Hlt. rewrite Hlen in Hlt.
  unfold select_, rr_balancer, rr_selector. destruct (Nat.eqb_spec (length loads) 0); [lia|]. apply (rr_loop_ok loads tried i); [done|done|done|].
  unfold distance, rr_fit in *. destruct (Nat.leb_spec (pos b) i); lia.
Defined.

(** ** Least connections keep theirs *)

(** The result of the loop is an index before [i] that was not tried, once one is left. *)
Lemma lc_loop_index loads tried : forall i r,
  (forall k, result_index r = Some k -> was_tried tried k = false /\ (k < i)%nat) ->
  forall k, result_index (lc_loop i loads tried r) = Some k -> was_tried tried k = false /\ (k < i + length loads)%nat.
Proof.
  induction loads as [|l loads IH]; intros i r Hr k; cbn [lc_loop length]; [rewrite Nat.add_0_r; apply Hr|].
  intros Hk. rewrite Nat.add_succ_r, <- Nat.add_succ_l. apply (IH (S i)) in Hk; [done|]. intros j Hj. unfold lc_step in Hj.
  destruct (was_tried tried i) eqn:Et; simpl in Hj; [apply Hr in Hj; intuition lia|].
  destruct (_ <? _); simpl in Hj; [injection Hj as <-; split; [done|lia]|apply Hr in Hj; intuition lia].
Qed.

Lemma lc_loop_keeps loads tried : forall i r, is_Some (result_index r) -> is_Some (result_index (lc_loop i loads tried r)).
Proof.
  induction loads as [|l loads IH]; intros i r Hr; cbn [lc_loop]; [done|]. apply IH. unfold lc_step. by destruct (_ && _).
Qed.

(** With no result yet, every target that was not tried is one. *)
Lemma lc_loop_found tried : forall loads i k, Forall weight_ok loads ->
  was_tried tried (i + k) = false -> (k < length loads)%nat -> is_Some (result_index (lc_loop i loads tried (Best None 0 1))).
Proof.
  induction loads as [|l loads IH]; intros i k Hw Hk Hlt; simpl in Hlt; [lia|]. inversion_clear Hw as [|? ? Hl Hw']. cbn [lc_loop].
  destruct (lc_step i l (was_tried tried i) (Best None 0 1)) as [ri rw rl] eqn:E. unfold lc_step in E. cbn [result_weight result_leased] in E.
  rewrite Z.mul_0_r, Z.mul_1_l in E. unfold weight_ok in Hl. rewrite !wrap64_small in E by lia. destruct (Z.ltb_spec 0 (weight_m1 l + 1)); [|lia].
  destruct (was_tried tried i) eqn:Et; simpl in E; injection E as <- <- <-; [|by apply lc_loop_keeps].
  destruct k as [|k]; [rewrite Nat.add_0_r in Hk; congruence|]. apply (IH (S i) k); [exact Hw'|by rewrite Nat.add_succ_l, <- Nat.add_succ_r|lia].
Qed.

#[export] Instance lc_ok : BalancerOk least_conn.
Proof.
  refine {| fit := fun _ _ => True |}. intros b loads tried i Hw _ Hlen Hi. pose proof (was_tried_lt _ _ Hi) as Hlt. rewrite Hlen in Hlt.
  unfold select_, lc_balancer, lc_selector. destruct (Nat.eqb_spec (length loads) 0); [lia|].
  destruct (lc_loop_found tried loads 0 i Hw Hi Hlt) as [r Hr]. rewrite Hr. exists r, b. split; [done|].
  apply lc_loop_index in Hr; [|done]. destruct Hr. by split_and!.
Defined.

(** ** The least load *)

Definition ratio_le (a b : load) : Prop := leased_count a * (weight_m1 b + 1) <= leased_count b * (weight_m1 a + 1).
Definition ratio_lt (a b : load) : Prop := leased_count a * (weight_m1 b + 1) < leased_count b * (weight_m1 a + 1).

(** No product of the loop overflows. *)
Definition load_ok (l : load) : Prop := weight_ok l /\ 0 <= leased_count l < 2 ^ 56.

(** The result is the first of the least loads among those seen. *)
Definition least_of (seen : list load) (tried : list bool) (r : best) : Prop :=
  match result_index r with
  | None => r = Best None 0 1 /\ forall j l, seen !! j = Some l -> was_tried tried j = true
  | Some k => exists lk, seen !! k = Some lk /\ was_tried tried k = false /\
      result_weight r = weight_m1 lk + 1 /\ result_leased r = leased_count lk /\
      forall j l, seen !! j = Some l -> was_tried tried j = false -> ratio_le lk l /\ ((j < k)%nat -> ratio_lt lk l)
  end.

Lemma ratio_le_trans a b c : load_ok a -> load_ok b -> load_ok c -> ratio_lt a b -> ratio_le b c -> ratio_lt a c.
Proof. unfold load_ok, weight_ok, ratio_le, ratio_lt. intros. nia. Qed.

Lemma lc_step_least seen l tried r : Forall load_ok seen -> load_ok l -> least_of seen tried r ->
  least_of (seen ++ [l]) tried (lc_step (length seen) l (was_tried tried (length seen)) r).
Proof.
  intros Hs Hl Hr. unfold lc_step.
  assert (Hlast : forall j l', (seen ++ [l]) !! j = Some l' -> seen !! j = Some l' \/ (j = length seen /\ l' = l)).
  { intros j l' [Hj|[Hj Hx]]%lookup_app_Some; [by left|right]. apply list_lookup_singleton_Some in Hx as [? <-]. split; [lia|done]. }
  destruct (was_tried tried (length seen)) eqn:Et; cbn [negb andb].
  { unfold least_of in *. destruct (result_index r) as [k|].
    - destruct Hr as (lk & Hk & Htk & H1 & H2 & H3). exists lk. split_and!; try done; [by apply lookup_app_l_Some|].
      intros j l' [Hj|[-> ->]]%Hlast Hjt; [by apply H3|congruence].
    - destruct Hr as [-> H]. split; [done|]. intros j l' [Hj|[-> ->]]%Hlast; [by eapply H|done]. }
  unfold load_ok, weight_ok in Hl. unfold least_of in Hr. destruct (result_index r) as [k|] eqn:Ek.
  - destruct Hr as (lk & Hk & Htk & H1 & H2 & H3). rewrite H1, H2.
    assert (Hlk : load_ok lk) by (eapply Forall_lookup; [exact Hs|exact Hk]). pose proof Hlk as Hlk'. unfold load_ok, weight_ok in Hlk.
    rewrite !wrap64_small by nia. pose proof (lookup_lt_Some _ _ _ Hk) as Hlt.
    destruct (Z.ltb_spec (leased_count l * (weight_m1 lk + 1)) (leased_count lk * (weight_m1 l + 1))) as [Hless|Hge]; unfold least_of; cbn [result_index result_weight result_leased].
    + exists l. split_and!; [by rewrite lookup_app_r, Nat.sub_diag by lia|done|done|done|].
      intros j l' [Hj|[-> ->]]%Hlast Hjt; [|split; [unfold ratio_le; lia|lia]].
      assert (Hl' : load_ok l') by (eapply Forall_lookup; [exact Hs|exact Hj]). destruct (H3 j l' Hj Hjt) as [Hle _].
      assert (Hlt' : ratio_lt l l') by (eapply ratio_le_trans; [done|exact Hlk'|done|exact Hless|done]). split; [unfold ratio_le, ratio_lt in *; lia|done].
    + rewrite Ek. exists lk. split_and!; try done; [by apply lookup_app_l_Some|].
      intros j l' [Hj|[-> ->]]%Hlast Hjt; [by apply H3|]. split; [unfold ratio_le; lia|lia].
  - destruct Hr as [-> H]. cbn [result_weight result_leased]. rewrite Z.mul_0_r, Z.mul_1_l, !wrap64_small by lia.
    destruct (Z.ltb_spec 0 (weight_m1 l + 1)); [|lia]. unfold least_of. cbn [result_index result_weight result_leased].
    exists l. split_and!; [by rewrite lookup_app_r, Nat.sub_diag by lia|done|done|done|].
    intros j l' [Hj|[-> ->]]%Hlast Hjt; [by rewrite (H j l' Hj) in Hjt|]. split; [unfold ratio_le; lia|lia].
Qed.

Lemma lc_loop_least tried : forall loads seen r, Forall load_ok seen -> Forall load_ok loads -> least_of seen tried r ->
  least_of (seen ++ loads) tried (lc_loop (length seen) loads tried r).
Proof.
  induction loads as [|l loads IH]; intros seen r Hs Hl Hr; cbn [lc_loop]; [by rewrite app_nil_r|]. inversion_clear Hl as [|? ? Hl1 Hl2].
  specialize (IH (seen ++ [l]) (lc_step (length seen) l (was_tried tried (length seen)) r)).
  rewrite length_app, <- app_assoc, Nat.add_1_r in IH. apply IH; [|done|by apply lc_step_least]. apply Forall_app. split; [done|]. constructor; [done|constructor].
Qed.

(** ** A cycle of the round robin *)

(** The choices of [n] selections, with nothing tried, and the state after them. *)
Fixpoint rr_picks (n : nat) (self : round_robin) (loads : list load) : option (list nat * round_robin) :=
  match n with
  | O => Some ([], self)
  | S n =>
      '(i, self) ← select_ self loads (repeat false (length loads));
      '(is_, self) ← rr_picks n self loads;
      Some (i :: is_, self)
  end.

Lemma rr_picks_app loads : forall n m self is1 self1 is2 self2,
  rr_picks n self loads = Some (is1, self1) -> rr_picks m self1 loads = Some (is2, self2) ->
  rr_picks (n + m) self loads = Some (is1 ++ is2, self2).
Proof.
  induction n as [|n IH]; intros m self is1 self1 is2 self2; cbn [rr_picks Nat.add]; [by intros [= <- <-]|].
  destruct (select_ _ _ _) as [[i self']|]; [|done]. cbn [mbind option_bind].
  destruct (rr_picks n self' loads) as [[is' self'']|] eqn:E; [|done]. cbn [mbind option_bind]. intros [= <- <-] H2.
  by rewrite (IH _ _ _ _ _ _ E H2).
Qed.

Lemma not_tried n i : (i < n)%nat -> was_tried (repeat false n) i = false.
Proof. intros H. unfold was_tried. by apply nth_repeat_lt. Qed.

Lemma rr_select loads self l : loads !! pos self = Some l -> 0 <= consumed_weight self -> weight_ok l -> consumed_weight self <= weight_m1 l ->
  select_ self loads (repeat false (length loads)) =
    Some (pos self, if consumed_weight self <? weight_m1 l then RoundRobin (pos self) (consumed_weight self + 1) else select_next self (length loads)).
Proof.
  intros Hl H0 Hw Hc. pose proof (lookup_lt_Some _ _ _ Hl) as Hlt. unfold weight_ok in Hw. unfold select_, rr_balancer, rr_selector.
  destruct (length loads) as [|n] eqn:En; [lia|]. cbn [Nat.eqb rr_loop]. rewrite not_tried by done. cbn [negb]. rewrite En.
  rewrite nth_lookup, Hl. cbn [default from_option id]. rewrite wrap64_small by lia. f_equal. f_equal.
  destruct (Z.ltb_spec (weight_m1 l) (consumed_weight self + 1)), (Z.ltb_spec (consumed_weight self) (weight_m1 l)); done || lia.
Qed.

(** A target is chosen as many times as it weighs, then the next is current. *)
Lemma rr_stay loads i l : loads !! i = Some l -> weight_ok l -> forall k c, 0 <= c -> c + Z.of_nat k = weight_m1 l ->
  rr_picks (S k) (RoundRobin i c) loads = Some (repeat i (S k), select_next (RoundRobin i c) (length loads)).
Proof.
  intros Hl Hw. induction k as [|k IH]; intros c H0 Hc.
  - cbn [rr_picks]. rewrite (rr_select loads (RoundRobin i c) l Hl) by (simpl; done || lia). simpl.
    destruct (Z.ltb_spec c (weight_m1 l)); [lia|]. done.
  - change (rr_picks (S (S k)) (RoundRobin i c) loads) with
      ('(j, self) ← select_ (RoundRobin i c) loads (repeat false (length loads)); '(is_, self) ← rr_picks (S k) self loads; Some (j :: is_, self)).
    rewrite (rr_select loads (RoundRobin i c) l Hl) by (simpl; done || lia). simpl pos. simpl consumed_weight.
    destruct (Z.ltb_spec c (weight_m1 l)); [|lia]. cbn [mbind option_bind]. rewrite IH by lia. done.
Qed.

Definition weight (l : load) : nat := Z.to_nat (weight_m1 l + 1).

(** Target 0 as often as it weighs, then target 1, and so on. *)
Fixpoint turns (i : nat) (loads : list load) : list nat :=
  match loads with
  | [] => []
  | l :: loads => repeat i (weight l) ++ turns (S i) loads
  end.

Lemma rr_from loads : Forall weight_ok loads -> forall rest i, drop i loads = rest -> (i < length loads)%nat ->
  rr_picks (length (turns i rest)) (RoundRobin i 0) loads = Some (turns i rest, h2o_balancer_create_rr).
Proof.
  intros Hw. induction rest as [|l rest IH]; intros i Hd Hi.
  { apply (f_equal length) in Hd. rewrite length_drop in Hd. simpl in Hd. lia. }
  assert (Hl : loads !! i = Some l). { rewrite <- (Nat.add_0_r i), <- lookup_drop, Hd. done. }
  assert (Hwl : weight_ok l) by (eapply Forall_lookup; [exact Hw|exact Hl]). pose proof Hwl as Hwl'. unfold weight_ok in Hwl'.
  pose proof (rr_stay loads i l Hl Hwl (Z.to_nat (weight_m1 l)) 0 ltac:(lia) ltac:(lia)) as Hstay.
  replace (S (Z.to_nat (weight_m1 l))) with (weight l) in Hstay by (unfold weight; lia). cbn [turns]. rewrite length_app, repeat_length.
  assert (Hrest : drop (S i) loads = rest).
  { rewrite <- Nat.add_1_r, <- drop_drop, Hd. done. }
  unfold select_next in Hstay. cbn [pos] in Hstay. rewrite Nat.add_1_r in Hstay.
  destruct (Nat.eqb_spec (S i) (length loads)) as [He|Hne].
  - rewrite drop_ge in Hrest by lia. subst rest. cbn [turns length]. rewrite Nat.add_0_r, app_nil_r. exact Hstay.
  - eapply rr_picks_app; [exact Hstay|]. apply IH; [done|lia].
Qed.

Lemma rr_rounds loads rounds : Forall weight_ok loads -> loads <> [] ->
  rr_picks (rounds * length (turns 0 loads)) h2o_balancer_create_rr loads = Some (concat (repeat (turns 0 loads) rounds), h2o_balancer_create_rr).
Proof.
  intros Hw Hne. induction rounds as [|n IH]; [done|]. cbn [Nat.mul repeat concat]. eapply rr_picks_app; [|exact IH].
  apply (rr_from loads Hw loads 0); [done|]. destruct loads; [done|simpl; lia].
Qed.

Lemma count_turns loads : forall i k : nat, count_occ Nat.eq_dec (turns i loads) (i + k)%nat = default 0%nat (weight <$> loads !! k).
Proof.
  induction loads as [|l loads IH]; intros i k; cbn [turns]; [done|]. rewrite count_occ_app. destruct k as [|k].
  - rewrite Nat.add_0_r, count_occ_repeat_eq by done. assert (H : count_occ Nat.eq_dec (turns (S i) loads) i = 0%nat); [|rewrite H; simpl; lia].
    apply count_occ_not_In. clear IH. intros H. assert (Hge : forall j m, In m (turns j loads) -> (j <= m)%nat); [|apply Hge in H; lia].
    clear. induction loads as [|l loads IH]; intros j m; cbn [turns]; [done|]. rewrite in_app_iff. intros [H%repeat_spec|H%IH]; lia.
  - rewrite count_occ_repeat_neq by lia. rewrite Nat.add_succ_r, <- Nat.add_succ_l. apply IH.
Qed.

Lemma count_rounds (t : list nat) i n : count_occ Nat.eq_dec (concat (repeat t n)) i = (n * count_occ Nat.eq_dec t i)%nat.
Proof. induction n as [|n IH]; cbn [repeat concat]; [done|]. rewrite count_occ_app, IH. simpl. lia. Qed.

(** ** Properties *)

(** C36: the round robin is fair.  Over any number of rounds of as many selections as all targets weigh
    together, with nothing tried before, each target is chosen once per round for each unit of its
    weight, in one run, and the balancer is back where it began. *)
Theorem round_robin_fair loads rounds :
  Forall weight_ok loads -> loads <> [] ->
  exists picks, rr_picks (rounds * length (turns 0 loads)) h2o_balancer_create_rr loads = Some (picks, h2o_balancer_create_rr) /\
    picks = concat (repeat (turns 0 loads) rounds) /\
    forall i l, loads !! i = Some l -> count_occ Nat.eq_dec picks i = (rounds * weight l)%nat.
Proof.
  intros Hw Hne. eexists. split; [by apply rr_rounds|]. split; [done|]. intros i l Hl.
  rewrite count_rounds. pose proof (count_turns loads 0 i) as H. simpl in H. by rewrite H, Hl.
Qed.


(** ** Witnesses *)

Definition three : list load := [Load 0 4; Load 2 9; Load 1 5].

Lemma round_robin_fair_witness :
  exists picks, rr_picks 12 h2o_balancer_create_rr three = Some (picks, h2o_balancer_create_rr) /\
    picks = [0; 1; 1; 1; 2; 2; 0; 1; 1; 1; 2; 2]%nat /\ count_occ Nat.eq_dec picks 1%nat = 6%nat.
Proof.
  destruct (round_robin_fair three 2) as (picks & E & Hp & Hc); [repeat constructor; simpl; lia|discriminate|].
  exists picks. split; [exact E|]. split; [rewrite Hp; vm_compute; reflexivity|]. apply (Hc 1%nat (Load 2 9)). reflexivity.
Defined.

