(* ===== verification/Socketpool.v ===== *)
(** * Pools of connections (lib/common/socketpool.c)

    A pool keeps connections to its targets that are not in use, and makes new ones.  A global pool
    gets its targets from the URLs that are asked for; any other has a fixed list, from which a
    balancer chooses.  What is modelled is the bookkeeping: the connections that are kept, the
    requests for connections with the targets that they tried, and the three counters that threads
    share.  Each function is one step; what the system answers (addresses, connections, whether a
    kept connection is still alive) is an argument. *)
From S2P Require Import Prelude Strings Url UrlParse Balancer.
From Stdlib Require Import ZArith Lia.
From stdpp Require Import base list numbers option strings.
Open Scope Z_scope.

Definition UINT64_MAX : Z := 2 ^ 64 - 1.
Definition CHECK_EXPIRATION_MIN_INTERVAL : Z := 1000.

(** ** Targets *)

Inductive target_type := H2O_SOCKETPOOL_TYPE_NAMED | H2O_SOCKETPOOL_TYPE_SOCKADDR.

Record target := Target { tg_url : h2o_url_t; tg_type : target_type; tg_load : load }.

(** The digits at the front: their number, their value and what follows. *)
Fixpoint aton_digits (ndigits v : Z) (p : bytes) : Z * Z * bytes :=
  match p with
  | c :: p' => if (48 <=? c) && (c <=? 57) then aton_digits (ndigits + 1) (v * 10 + c - 48) p' else (ndigits, v, p)
  | [] => (ndigits, v, [])
  end.

Definition fetch_aton_digit (p : bytes) : option (Z * bytes) :=
  let '(ndigits, v, p) := aton_digits 0 0 p in
  if negb ((1 <=? ndigits) && (ndigits <=? 3)) then None
  else if 255 <? v then None
  else Some (v, p).

(** The octets of the address, with [ndots] dots still to come. *)
Fixpoint aton_loop (ndots : nat) (p : bytes) : option (bytes * bytes) :=
  '(v, p) ← fetch_aton_digit p;
  match ndots with
  | O => Some ([v], p)
  | S ndots =>
      match p with
      | c :: p => if c =? 46 then '(vs, p) ← aton_loop ndots p; Some (v :: vs, p) else None
      | [] => None
      end
  end.

Definition h2o_hostinfo_aton (host : bytes) : option bytes :=
  '(vs, p) ← aton_loop 3 host;
  match p with [] => Some vs | _ => None end.

(** The type, and whether the address is that of a unix socket.  [None]: the assertion fails. *)
Definition detect_target_type (host : bytes) : option (target_type * bool) :=
  match h2o_url_host_to_sun host with
  | SunNotUnix => Some (match h2o_hostinfo_aton host with Some _ => H2O_SOCKETPOOL_TYPE_SOCKADDR | None => H2O_SOCKETPOOL_TYPE_NAMED end, false)
  | SunTooLong => None
  | SunPath _ => Some (H2O_SOCKETPOOL_TYPE_SOCKADDR, true)
  end.

Definition h2o_socketpool_create_target (origin : h2o_url_t) (lb_target_conf : option Z) : option target :=
  let url := h2o_url_copy origin in
  match detect_target_type (default [] (u_host origin)) with
  | None => None
  | Some (ty, is_unix) =>
      let lower (s : option bytes) := if is_unix then s else h2o_strtolower <$> s in
      Some (Target (Url (u_scheme url) (lower (u_authority url)) (lower (u_host url)) (u_path url) (u_port url)) ty
              (Load (default 0 lb_target_conf) 0))
  end.

Fixpoint lookup_loop (targets : list target) (url : h2o_url_t) (port : Z) (i : nat) : option (option nat) :=
  match targets with
  | [] => Some None
  | t :: targets =>
      if negb (bool_decide (u_scheme (tg_url t) = u_scheme url)) then lookup_loop targets url port (S i)
      else
        tport ← h2o_url_get_port (tg_url t);
        if negb (tport =? port) then lookup_loop targets url port (S i)
        else if negb (h2o_url_hosts_are_equal (default [] (u_host (tg_url t))) (default [] (u_host url))) then lookup_loop targets url port (S i)
        else Some (Some i)
  end.

(** The inner [None] is SIZE_MAX; the outer one, a URL without scheme. *)
Definition lookup_target (targets : list target) (url : h2o_url_t) : option (option nat) :=
  port ← h2o_url_get_port url;
  lookup_loop targets url port 0.

(** ** The pool *)

Record entry := Entry { en_target : nat; added_at : Z }.

(** A request for a connection: it waits for an address, for the connection or for the handshake. *)
Inductive phase := Resolving | Connecting | Handshaking.

Record connect_request := ConnectRequest {
  selected_target : nat;
  remaining_try_count : Z;
  tried : option (list bool);
  rq_phase : phase }.

(** What the callback is given, or that the request waits.  A request that failed is shown as it
    was when it was freed. *)
Inductive result := Waiting (req : connect_request) | Failed (req : connect_request) | Connected (target : nat).

Section Pool.
Context {B : Type} `{!Balancer B}.

(** [interval_loop]: a loop is registered; [interval_at]: when its timer goes off. *)
Record pool := Pool {
  targets : list target;
  count : Z;
  pooled_count : Z;
  sockets : list entry;
  balancer : option B;
  timeout : Z;
  has_ssl_ctx : bool;
  interval_loop : bool;
  interval_at : option Z }.

Definition common_init (ts : list target) (b : option B) : pool := Pool ts 0 0 [] b 2000 false false None.

Definition h2o_socketpool_init_specific (ts : list target) (b : B) : pool := common_init ts (Some b).
Definition h2o_socketpool_init_global : pool := common_init [] None.

Definition h2o_socketpool_is_global (p : pool) : bool := match balancer p with None => true | Some _ => false end.

Definition h2o_socketpool_register_loop (now : Z) (p : pool) : pool :=
  if interval_loop p then p
  else Pool (targets p) (count p) (pooled_count p) (sockets p) (balancer p) (timeout p) (has_ssl_ctx p) true
         (Some (now + CHECK_EXPIRATION_MIN_INTERVAL)).

Definition h2o_socketpool_unregister_loop (p : pool) : pool :=
  Pool (targets p) (count p) (pooled_count p) (sockets p) (balancer p) (timeout p) (has_ssl_ctx p) false None.

Definition h2o_socketpool_set_ssl_ctx (ssl_ctx : bool) (p : pool) : pool :=
  Pool (targets p) (count p) (pooled_count p) (sockets p) (balancer p) (timeout p) ssl_ctx (interval_loop p) (interval_at p).

Definition h2o_socketpool_set_timeout (msec : Z) (p : pool) : pool :=
  Pool (targets p) (count p) (pooled_count p) (sockets p) (balancer p) msec (has_ssl_ctx p) (interval_loop p) (interval_at p).

Definition set_targets (p : pool) (ts : list target) : pool :=
  Pool ts (count p) (pooled_count p) (sockets p) (balancer p) (timeout p) (has_ssl_ctx p) (interval_loop p) (interval_at p).
Definition set_balancer (p : pool) (b : B) : pool :=
  Pool (targets p) (count p) (pooled_count p) (sockets p) (Some b) (timeout p) (has_ssl_ctx p) (interval_loop p) (interval_at p).
Definition set_interval (p : pool) (at_ : option Z) : pool :=
  Pool (targets p) (count p) (pooled_count p) (sockets p) (balancer p) (timeout p) (has_ssl_ctx p) (interval_loop p) at_.

(** [__sync_add_and_fetch] and [__sync_sub_and_fetch] on [count] and on [pooled_count], with the list. *)
Definition add_count (d : Z) (p : pool) : pool :=
  Pool (targets p) (wrap64 (count p + d)) (pooled_count p) (sockets p) (balancer p) (timeout p) (has_ssl_ctx p) (interval_loop p) (interval_at p).
Definition set_sockets (d : Z) (es : list entry) (p : pool) : pool :=
  Pool (targets p) (count p) (wrap64 (pooled_count p + d)) es (balancer p) (timeout p) (has_ssl_ctx p) (interval_loop p) (interval_at p).

(** The same on the [leased_count] of a target. *)
Definition add_load (d : Z) (t : target) : target :=
  Target (tg_url t) (tg_type t) (Load (weight_m1 (tg_load t)) (wrap64 (leased_count (tg_load t) + d))).
Definition add_leased (i : nat) (d : Z) (p : pool) : pool := set_targets p (alter (add_load d) i (targets p)).

(** ** Connections that are kept *)

Fixpoint expire_loop (now expire_before : Z) (es : list entry) (p : pool) : pool * Z :=
  match es with
  | [] => (p, UINT64_MAX)
  | e :: es' =>
      if expire_before <? added_at e then (p, wrap64 (added_at e + timeout p - now))
      else expire_loop now expire_before es' (set_sockets (-1) es' (add_count (-1) p))
  end.

Definition destroy_expired_locked (now : Z) (p : pool) : pool * Z :=
  if interval_loop p then expire_loop now (wrap64 (now - timeout p)) (sockets p) p else (p, UINT64_MAX).

(** [this_loop]: the loop of the caller is the one that is registered. *)
Definition check_pool_expired_locked (now : Z) (this_loop : bool) (p : pool) : pool :=
  let '(p, next_expired) := destroy_expired_locked now p in
  if negb (next_expired =? UINT64_MAX) then
    if this_loop && interval_loop p && match interval_at p with None => true | Some _ => false end then
      set_interval p (Some (now + Z.max next_expired CHECK_EXPIRATION_MIN_INTERVAL))
    else p
  else p.

(** [locked]: another thread has the mutex. *)
Definition on_timeout (now : Z) (locked : bool) (p : pool) : pool :=
  let p := set_interval p None in
  if locked then p else check_pool_expired_locked now true p.

(** ** Closing *)

Definition on_close (i : nat) (p : pool) : pool := add_count (-1) (add_leased i (-1) p).

(** ** Connecting *)

(** The choice of a target.  [None]: an assertion fails. *)
Definition choose (p : pool) (req : connect_request) : option (pool * connect_request) :=
  match tried req with
  | None => Some (p, req)
  | Some t =>
      if (1 <? length (targets p))%nat then
        b ← balancer p;
        '(i, b) ← select_ b (tg_load <$> targets p) t;
        if was_tried t i then None
        else Some (set_balancer p b, ConnectRequest i (remaining_try_count req) (Some (<[i := true]> t)) (rq_phase req))
      else Some (p, ConnectRequest 0 (remaining_try_count req) (Some t) (rq_phase req))
  end.

(** What follows when a target gave no connection. *)
Definition next_try (retry : pool -> connect_request -> option (pool * result)) (p : pool) (req : connect_request) : option (pool * result) :=
  if 0 <? remaining_try_count req then retry p req else Some (add_count (-1) p, Failed req).

Definition set_phase (req : connect_request) (ph : phase) : connect_request :=
  ConnectRequest (selected_target req) (remaining_try_count req) (tried req) ph.

(** [starts]: whether [h2o_socket_connect] gives a socket. *)
Definition start_connect (starts : nat -> bool) (retry : pool -> connect_request -> option (pool * result)) (p : pool) (req : connect_request)
    : option (pool * result) :=
  if starts (selected_target req) then Some (p, Waiting (set_phase req Connecting))
  else next_try retry (add_leased (selected_target req) (-1) p) req.

(** The fuel bounds the calls through [start_connect]. *)
Fixpoint try_connect (fuel : nat) (starts : nat -> bool) (p : pool) (req : connect_request) : option (pool * result) :=
  match fuel with
  | O => None
  | S fuel =>
      let req := ConnectRequest (selected_target req) (wrap64 (remaining_try_count req - 1)) (tried req) (rq_phase req) in
      '(p, req) ← choose p req;
      t ← targets p !! selected_target req;
      let p := add_leased (selected_target req) 1 p in
      match tg_type t with
      | H2O_SOCKETPOOL_TYPE_NAMED => Some (p, Waiting (set_phase req Resolving))
      | H2O_SOCKETPOOL_TYPE_SOCKADDR => start_connect starts (try_connect fuel starts) p req
      end
  end.

Definition retry (starts : nat -> bool) (p : pool) (req : connect_request) : option (pool * result) :=
  try_connect (length (targets p)) starts p req.

Definition on_getaddr (ok : bool) (starts : nat -> bool) (p : pool) (req : connect_request) : option (pool * result) :=
  if ok then start_connect starts (retry starts) p req
  else next_try (retry starts) (add_leased (selected_target req) (-1) p) req.

(** [h2o_socket_close] calls [on_close]. *)
Definition on_connect (ok : bool) (starts : nat -> bool) (p : pool) (req : connect_request) : option (pool * result) :=
  if negb ok then
    let p := add_leased (selected_target req) (-1) p in
    let p := on_close (selected_target req) p in
    next_try (retry starts) p req
  else
    t ← targets p !! selected_target req;
    scheme ← u_scheme (tg_url t);
    if is_ssl scheme then
      if has_ssl_ctx p then Some (p, Waiting (set_phase req Handshaking)) else None
    else Some (p, Connected (selected_target req)).

Inductive handshake_error := NameMismatch | OtherError.

Definition on_handshake_complete (err : option handshake_error) (verify_peer : bool) (p : pool) (req : connect_request) : pool * result :=
  match err with
  | None => (p, Connected (selected_target req))
  | Some NameMismatch => if negb verify_peer then (p, Connected (selected_target req)) else (on_close (selected_target req) p, Failed req)
  | Some OtherError => (on_close (selected_target req) p, Failed req)
  end.

(** The connections kept for a target of a global pool, or all; the first that is alive is used. *)
Definition of_target (target : option nat) (e : entry) : bool :=
  match target with Some t => (en_target e =? t)%nat | None => true end.

Fixpoint reuse_loop (target : option nat) (alive : entry -> bool) (before es : list entry) (p : pool) : pool * option nat :=
  match es with
  | [] => (p, None)
  | e :: es =>
      if of_target target e then
        let p := set_sockets (-1) (before ++ es) p in
        if alive e then (add_leased (en_target e) 1 p, Some (en_target e)) else reuse_loop target alive before es p
      else reuse_loop target alive (before ++ [e]) es p
  end.

(** The part after [SkipLookup]. *)
Definition start_request (target : option nat) (starts : nat -> bool) (p : pool) : option (pool * result) :=
  let p := add_count 1 p in
  retry starts p
    match target with
    | None => ConnectRequest 0 (len (targets p)) (Some (repeat false (length (targets p)))) Resolving
    | Some t => ConnectRequest t 1 None Resolving
    end.

Definition find_or_add_target (url : h2o_url_t) (p : pool) : option (pool * nat) :=
  found ← lookup_target (targets p) url;
  match found with
  | Some i => Some (p, i)
  | None => t ← h2o_socketpool_create_target url None; Some (set_targets p (targets p ++ [t]), length (targets p))
  end.

Definition h2o_socketpool_connect (url : h2o_url_t) (now : Z) (this_loop : bool) (alive : entry -> bool) (starts : nat -> bool) (p : pool)
    : option (pool * result) :=
  if (timeout p =? 0) && negb (h2o_socketpool_is_global p) then start_request None starts p
  else
    let p := check_pool_expired_locked now this_loop p in
    '(p, target) ← (if h2o_socketpool_is_global p then '(p, t) ← find_or_add_target url p; Some (p, Some t) else Some (p, None));
    if (length (targets p) =? 0)%nat then None
    else
      match reuse_loop target alive [] (sockets p) p with
      | (p, Some t) => Some (p, Connected t)
      | (p, None) => start_request target starts p
      end.

Definition h2o_socketpool_cancel_connect (p : pool) (req : connect_request) : pool :=
  let p := match rq_phase req with Resolving => p | _ => on_close (selected_target req) p end in
  match tried req with Some _ => add_leased (selected_target req) (-1) p | None => p end.

(** ** Giving connections back *)

(** [exported]: [h2o_socket_export] succeeds. *)
Definition h2o_socketpool_return (i : nat) (exported : bool) (now : Z) (this_loop : bool) (p : pool) : pool :=
  let p := add_leased i (-1) p in
  if negb exported then add_count (-1) p
  else check_pool_expired_locked now this_loop (set_sockets 1 (sockets p ++ [Entry i now]) p).

Definition h2o_socketpool_detach (i : nat) (p : pool) : pool := add_count (-1) (add_leased i (-1) p).

Definition h2o_socketpool_can_keepalive (p : pool) : bool := 0 <? timeout p.
End Pool.
Arguments pool B : clear implicits.
