(* ===== verification/SocketpoolOk.v ===== *)
(** * Pools of connections: operations (lib/common/socketpool.c)

    What each operation of a pool does to its counters, and that requests for connections, made
    through any balancer that keeps its promise, find a target while one is left. *)
From S2P Require Import Prelude Strings Url UrlParse Balancer Socketpool.
From Stdlib Require Import ZArith Lia.
From stdpp Require Import base list numbers option strings.
Open Scope Z_scope.

(** 1 for the target, 0 for the others. *)
Definition at_target (t u : nat) : Z := if (t =? u)%nat then 1 else 0.

Section Pool.
Context {B : Type} `{!Balancer B, !BalancerOk B}.
Implicit Types p : pool B.

(** ** Counters *)

Definition leased_at p (t : nat) : Z := default 0 ((fun t => leased_count (tg_load t)) <$> targets p !! t).

(** From [p] to [p'], the leases of each target change by [dl], [count] by [dc] and
    [pooled_count] by [dp], modulo 2^64. *)
Record effect p p' (dl : nat -> Z) (dc dp : Z) : Prop := Effect {
  eff_leased u : congr (leased_at p' u) (leased_at p u + dl u);
  eff_count : congr (count p') (count p + dc);
  eff_pooled : congr (pooled_count p') (pooled_count p + dp) }.

Lemma effect_refl p : effect p p (fun _ => 0) 0 0.
Proof. split; [intros u|..]; by rewrite Z.add_0_r. Qed.

Lemma effect_trans p p1 p2 dl1 dc1 dp1 dl2 dc2 dp2 :
  effect p p1 dl1 dc1 dp1 -> effect p1 p2 dl2 dc2 dp2 -> effect p p2 (fun u => dl1 u + dl2 u) (dc1 + dc2) (dp1 + dp2).
Proof. intros [L1 C1 P1] [L2 C2 P2]. split; [intros u; rewrite L2, L1|rewrite C2, C1|rewrite P2, P1]; by rewrite Z.add_assoc. Qed.

Lemma effect_eq p p' dl dc dp dl' dc' dp' :
  effect p p' dl dc dp -> (forall u, dl u = dl' u) -> dc = dc' -> dp = dp' -> effect p p' dl' dc' dp'.
Proof. intros [L C P] Hl <- <-. split; [intros u; by rewrite <- Hl|done|done]. Qed.

(** A step, and the steps that follow. *)
Lemma effect_then p p1 p2 dl1 dc1 dp1 dl2 dc2 dp2 dl dc dp :
  effect p p1 dl1 dc1 dp1 -> effect p1 p2 dl2 dc2 dp2 ->
  (forall u, dl1 u + dl2 u = dl u) -> dc1 + dc2 = dc -> dp1 + dp2 = dp -> effect p p2 dl dc dp.
Proof. intros H1 H2 Hl Hc Hp. eapply effect_eq; [exact (effect_trans _ _ _ _ _ _ _ _ _ H1 H2)|done..]. Qed.

Lemma add_count_effect p d : effect p (add_count d p) (fun _ => 0) d 0.
Proof. split; [intros u; by rewrite Z.add_0_r|apply wrap64_congr|by rewrite Z.add_0_r]. Qed.

Lemma set_sockets_effect p d es : effect p (set_sockets d es p) (fun _ => 0) 0 d.
Proof. split; [intros u; by rewrite Z.add_0_r|by rewrite Z.add_0_r|apply wrap64_congr]. Qed.

Lemma set_balancer_effect p b : effect p (set_balancer p b) (fun _ => 0) 0 0.
Proof. split; [intros u|..]; by rewrite Z.add_0_r. Qed.

Lemma add_leased_effect p i d : (i < length (targets p))%nat -> effect p (add_leased i d p) (fun u => d * at_target i u) 0 0.
Proof.
  intros Hi. split; [intros u|by rewrite Z.add_0_r..]. unfold leased_at, add_leased, at_target. cbn [targets set_targets].
  destruct (Nat.eqb_spec i u) as [->|Hne].
  - rewrite list_lookup_alter_eq. destruct (lookup_lt_is_Some_2 _ _ Hi) as [t ->]. simpl. rewrite Z.mul_1_r. apply wrap64_congr.
  - rewrite list_lookup_alter_ne by done. by rewrite Z.mul_0_r, Z.add_0_r.
Qed.

Lemma on_close_effect p i : (i < length (targets p))%nat -> effect p (on_close i p) (fun u => - at_target i u) (-1) 0.
Proof.
  intros Hi. eapply effect_then; [by apply (add_leased_effect p i (-1))|apply add_count_effect|intros u; cbv beta; lia|done|done].
Qed.

(** ** What stays *)

Definition fixed (t : target) : h2o_url_t * target_type * Z := (tg_url t, tg_type t, weight_m1 (tg_load t)).

(** The targets but for their leases, the connections that are kept, and what is configured. *)
Definition shape p : list (h2o_url_t * target_type * Z) * list entry * bool * bool :=
  (fixed <$> targets p, sockets p, has_ssl_ctx p, h2o_socketpool_is_global p).

Lemma fixed_alter d (i : nat) (ts : list target) : fixed <$> alter (add_load d) i ts = fixed <$> ts.
Proof.
  apply list_eq. intros j. rewrite !list_lookup_fmap. destruct (Nat.eq_dec i j) as [->|Hne].
  - rewrite list_lookup_alter_eq. by destruct (ts !! j).
  - by rewrite list_lookup_alter_ne.
Qed.

Lemma shape_add_leased i d p : shape (add_leased i d p) = shape p.
Proof. unfold shape, add_leased. cbn [targets set_targets sockets has_ssl_ctx]. by rewrite fixed_alter. Qed.

Lemma shape_add_count d p : shape (add_count d p) = shape p.
Proof. done. Qed.

Lemma shape_on_close i p : shape (on_close i p) = shape p.
Proof. unfold on_close. by rewrite shape_add_count, shape_add_leased. Qed.

Lemma shape_length p p' : shape p' = shape p -> length (targets p') = length (targets p).
Proof. intros H. injection H as H _ _ _. apply (f_equal length) in H. by rewrite !length_fmap in H. Qed.

Definition ssl_ok p : Prop :=
  Forall (fun t => exists s, u_scheme (tg_url t) = Some s /\ (is_ssl s = true -> has_ssl_ctx p = true)) (targets p).

(** A pool that is in order: the balancer is fit for its targets, of which there is one. *)
Record pool_ok p : Prop := PoolOk {
  ok_fit b : balancer p = Some b -> fit b (length (targets p)) /\ targets p <> [] /\ len (targets p) < 2 ^ 64;
  ok_weights : Forall weight_ok (tg_load <$> targets p);
  ok_sockets : Forall (fun e => (en_target e < length (targets p))%nat) (sockets p);
  ok_ssl : ssl_ok p }.

Lemma pool_ok_shape p p' : shape p' = shape p ->
  (forall b, balancer p' = Some b -> exists b', balancer p = Some b' /\ (fit b' (length (targets p)) -> fit b (length (targets p)))) -> pool_ok p -> pool_ok p'.
Proof.
  intros Hs Hb [Hf Hw He Hssl]. pose proof (shape_length _ _ Hs) as Hlen. unfold shape in Hs. injection Hs as Hfix Hsock Hctx Hglob.
  assert (Hlook : forall j t, targets p' !! j = Some t -> exists t0, targets p !! j = Some t0 /\ fixed t0 = fixed t).
  { intros j t Hj. apply (f_equal (fun l => l !! j)) in Hfix. rewrite !list_lookup_fmap, Hj in Hfix. simpl in Hfix.
    destruct (targets p !! j) as [t0|]; [|done]. injection Hfix as E1 E2 E3. exists t0. split; [done|]. unfold fixed. congruence. }
  split.
  - intros b E. destruct (Hb b E) as (b' & E' & Hfit). destruct (Hf b' E') as (H1 & H2 & H3). rewrite Hlen. split_and!; [auto| |].
    + intros H0. rewrite H0 in Hlen. by destruct (targets p).
    + unfold len. by rewrite Hlen.
  - rewrite Forall_fmap, Forall_lookup in Hw |- *. intros j t Hj. destruct (Hlook j t Hj) as (t0 & Ht0 & [= _ _ E]).
    specialize (Hw j t0 Ht0). unfold weight_ok in *. simpl in *. lia.
  - by rewrite Hsock, Hlen.
  - unfold ssl_ok in *. rewrite Forall_lookup in Hssl |- *. intros j t Hj. destruct (Hlook j t Hj) as (t0 & Ht0 & [= E _ _]).
    rewrite <- E, Hctx. by apply (Hssl j).
Qed.

Lemma pool_ok_same p p' : shape p' = shape p -> balancer p' = balancer p -> pool_ok p -> pool_ok p'.
Proof. intros Hs Hb. apply pool_ok_shape; [done|]. intros b E. exists b. by rewrite <- Hb. Qed.

Lemma add_leased_ok i d p : pool_ok p -> pool_ok (add_leased i d p).
Proof. apply pool_ok_same; [apply shape_add_leased|done]. Qed.

Lemma add_count_ok d p : pool_ok p -> pool_ok (add_count d p).
Proof. by apply pool_ok_same. Qed.

Lemma on_close_ok i p : pool_ok p -> pool_ok (on_close i p).
Proof. intros. by apply add_count_ok, add_leased_ok. Qed.

(** ** Requests *)

Definition untried (t : list bool) : Z := how_many negb t.

(** A request that waits on its target: what it may still try are the targets that it has not. *)
Definition req_ok p (req : connect_request) : Prop :=
  (selected_target req < length (targets p))%nat /\
  match tried req with
  | None => remaining_try_count req = 0
  | Some t => h2o_socketpool_is_global p = false /\ length t = length (targets p) /\
      remaining_try_count req = if (1 <? length (targets p))%nat then untried t else 0
  end.

(** A request that may try another target. *)
Definition may_try p (req : connect_request) : Prop :=
  match tried req with
  | None => (selected_target req < length (targets p))%nat /\ remaining_try_count req = 1
  | Some t => h2o_socketpool_is_global p = false /\ length t = length (targets p) /\
      if (1 <? length (targets p))%nat then remaining_try_count req = untried t /\ 0 < untried t
      else length (targets p) = 1%nat /\ remaining_try_count req = 1
  end.

Lemma req_ok_shape p p' req : shape p' = shape p -> req_ok p req -> req_ok p' req.
Proof. intros H. pose proof (shape_length _ _ H) as Hl. injection H as _ _ _ Hg. unfold req_ok. by rewrite Hl, Hg. Qed.

Lemma may_try_shape p p' req : shape p' = shape p -> may_try p req -> may_try p' req.
Proof. intros H. pose proof (shape_length _ _ H) as Hl. injection H as _ _ _ Hg. unfold may_try. by rewrite Hl, Hg. Qed.

Lemma req_ok_phase p req ph : req_ok p req -> req_ok p (set_phase req ph).
Proof. done. Qed.

Lemma may_try_next p req : req_ok p req -> 0 < remaining_try_count req -> may_try p req.
Proof.
  intros [Hs Hr] H0. unfold may_try. destruct (tried req) as [t|]; [|lia]. destruct Hr as (Hg & Hlen & Hrem).
  split_and!; [done|done|]. destruct (_ <? _)%nat; [split; [done|lia]|lia].
Qed.

Lemma untried_exists t : 0 < untried t -> exists i, was_tried t i = false.
Proof.
  unfold untried. induction t as [|b t IH]; [done|]. rewrite how_many_cons. destruct b; simpl; [|by exists 0%nat].
  intros H. destruct IH as [i Hi]; [lia|]. by exists (S i).
Qed.

Lemma untried_set t i : was_tried t i = false -> untried (<[i:=true]> t) = untried t - 1.
Proof.
  intros H. pose proof (was_tried_lt _ _ H) as Hlt. destruct (lookup_lt_is_Some_2 _ _ Hlt) as [b Hb].
  assert (b = false) as -> by (unfold was_tried in H; rewrite nth_lookup, Hb in H; done).
  unfold untried. rewrite (how_many_insert _ _ _ false true Hb), (how_many_split negb t i false Hb). simpl. lia.
Qed.

Lemma choose_ok p req : pool_ok p -> may_try p req ->
  succeeds (choose p (ConnectRequest (selected_target req) (wrap64 (remaining_try_count req - 1)) (tried req) (rq_phase req)))
    (fun x => effect p x.1 (fun _ => 0) 0 0 /\ shape x.1 = shape p /\ pool_ok x.1 /\ req_ok x.1 x.2 /\
       remaining_try_count x.2 = remaining_try_count req - 1).
Proof.
  intros Hp Hm. unfold choose, may_try in *. cbn [tried]. destruct (tried req) as [t|].
  - destruct Hm as (Hg & Hlen & Hm). destruct (1 <? length (targets p))%nat eqn:E1.
    + destruct Hm as [Hrem Hpos]. unfold h2o_socketpool_is_global in Hg. destruct (balancer p) as [b|] eqn:Eb; [|done].
      destruct (ok_fit p Hp b Eb) as (Hfit & Hne & Hsize). destruct (untried_exists t Hpos) as [i Hi].
      destruct (select_ok b (tg_load <$> targets p) t i) as (r & b' & E & Hr & Ht & Hfit'); rewrite ?length_fmap in *; [apply Hp|done|done|done|].
      cbn [mbind option_bind]. rewrite E. cbn [mbind option_bind]. rewrite Ht. apply succeeds_some. cbn [fst snd remaining_try_count].
      assert (Hsh : shape (set_balancer p b') = shape p) by (unfold shape, h2o_socketpool_is_global; simpl; by rewrite Eb).
      pose proof (how_many_bounds negb t) as Hb. unfold len in Hb. fold (untried t) in Hb. rewrite Hlen in Hb. unfold len in Hsize.
      rewrite wrap64_small by lia. split_and!; [apply set_balancer_effect|done| | |done].
      * eapply pool_ok_shape; [exact Hsh| |done]. intros b0 [= <-]. exists b. by split.
      * unfold req_ok. cbn [targets set_balancer selected_target tried remaining_try_count]. rewrite E1, length_insert, untried_set by done.
        split_and!; [done|done|done|lia].
    + destruct Hm as [Hone Hrem]. apply succeeds_some. cbn [fst snd remaining_try_count]. rewrite wrap64_small by lia.
      split_and!; [apply effect_refl|done|done| |done]. unfold req_ok. cbn [selected_target tried remaining_try_count]. rewrite E1.
      split_and!; [lia|done|done|lia].
  - destruct Hm as [Hs Hrem]. apply succeeds_some. cbn [fst snd remaining_try_count]. rewrite wrap64_small by lia.
    split_and!; [apply effect_refl|done|done| |done]. split; [done|]. cbn [tried remaining_try_count]. lia.
Qed.

(** The lease that a result holds, and the connection that is no longer counted. *)
Definition hold (res : result) (u : nat) : Z :=
  match res with Waiting req => at_target (selected_target req) u | Failed _ => 0 | Connected t => at_target t u end.
Definition lost (res : result) : Z := match res with Failed _ => -1 | _ => 0 end.

(** A request fails when it has nothing left to try. *)
Definition result_ok p (res : result) : Prop :=
  match res with
  | Waiting req => req_ok p req
  | Failed req => req_ok p req /\ remaining_try_count req = 0
  | Connected t => (t < length (targets p))%nat
  end.

(** From [p] on, an operation gives a result; besides the lease of the result, the counters change
    by [dl] and [dc]. *)
Definition outcome p (dl : nat -> Z) (dc : Z) (x : pool B * result) : Prop :=
  effect p x.1 (fun u => dl u + hold x.2 u) (dc + lost x.2) 0 /\ shape x.1 = shape p /\ pool_ok x.1 /\ result_ok x.1 x.2.

Lemma outcome_then p p1 dl1 dc1 dl2 dc2 dl dc x : effect p p1 dl1 dc1 0 -> shape p1 = shape p -> outcome p1 dl2 dc2 x ->
  (forall u, dl1 u + dl2 u = dl u) -> dc1 + dc2 = dc -> outcome p dl dc x.
Proof.
  intros He Hs (He2 & Hs2 & Hp & Hr) Hl Hc. split_and!; [|congruence|done|done].
  eapply effect_then; [exact He|exact He2|intros u; cbv beta; rewrite <- Hl; lia|lia|done].
Qed.

Section Retry.
Context (starts : nat -> bool) (rt : pool B -> connect_request -> option (pool B * result)).
Context (bound : Z) (rt_ok : forall p req, pool_ok p -> may_try p req -> remaining_try_count req <= bound -> succeeds (rt p req) (outcome p (fun _ => 0) 0)).

Lemma next_try_ok p req : pool_ok p -> req_ok p req -> remaining_try_count req <= bound -> succeeds (next_try rt p req) (outcome p (fun _ => 0) 0).
Proof.
  intros Hp Hr Hb. unfold next_try. destruct (Z.ltb_spec 0 (remaining_try_count req)); [apply rt_ok; [done|by apply may_try_next|done]|].
  apply succeeds_some. split_and!; [|done|by apply add_count_ok|split; [done|]].
  - eapply effect_eq; [apply add_count_effect|done..].
  - destruct Hr as [_ Hr]. destruct (tried req) as [t|]; [|done]. destruct Hr as (_ & _ & Hr). pose proof (how_many_bounds negb t).
    unfold untried in Hr. destruct (_ <? _)%nat; lia.
Qed.

(** A request that holds a lease goes on without it. *)
Lemma start_connect_ok p req : pool_ok p -> req_ok p req -> remaining_try_count req <= bound ->
  succeeds (start_connect starts rt p req) (outcome p (fun u => - at_target (selected_target req) u) 0).
Proof.
  intros Hp Hr Hb. unfold start_connect. destruct (starts _).
  - apply succeeds_some. split_and!; [|done|done|done]. eapply effect_eq; [apply effect_refl|intros u; simpl; lia|done|done].
  - eapply succeeds_weaken.
    + apply next_try_ok; [by apply add_leased_ok|eapply req_ok_shape; [apply shape_add_leased|done]|done].
    + intros x Hx. eapply outcome_then; [apply add_leased_effect, Hr|apply shape_add_leased|exact Hx|intros u; cbv beta; lia|done].
Qed.
End Retry.

Lemma try_connect_ok starts fuel : forall p req, pool_ok p -> may_try p req -> remaining_try_count req <= Z.of_nat fuel ->
  succeeds (try_connect fuel starts p req) (outcome p (fun _ => 0) 0).
Proof.
  induction fuel as [|fuel IH]; intros p req Hp Hm Hf.
  { exfalso. unfold may_try in Hm. destruct (tried req); [|lia]. destruct Hm as (_ & _ & Hm). destruct (_ <? _)%nat; lia. }
  cbn [try_connect]. eapply succeeds_bind; [by apply choose_ok|]. intros [p1 r1] (He & Hs & Hp1 & Hr1 & Hrem). cbn [fst snd] in *.
  destruct (lookup_lt_is_Some_2 (targets p1) (selected_target r1)) as [t Ht]; [apply Hr1|]. rewrite Ht. cbn [mbind option_bind].
  assert (Hp2 : pool_ok (add_leased (selected_target r1) 1 p1)) by (by apply add_leased_ok).
  assert (Hr2 : req_ok (add_leased (selected_target r1) 1 p1) r1) by (eapply req_ok_shape; [apply shape_add_leased|done]).
  assert (He2 : effect p (add_leased (selected_target r1) 1 p1) (at_target (selected_target r1)) 0 0).
  { eapply effect_then; [exact He|apply add_leased_effect, Hr1|intros u; cbv beta; lia|done|done]. }
  assert (Hs2 : shape (add_leased (selected_target r1) 1 p1) = shape p) by (by rewrite shape_add_leased).
  destruct (tg_type t).
  - apply succeeds_some. split_and!; [|done|done|done]. eapply effect_eq; [exact He2|done..].
  - eapply succeeds_weaken; [apply (start_connect_ok starts (try_connect fuel starts) (Z.of_nat fuel)); [exact IH|done|done|lia]|].
    intros x Hx. eapply outcome_then; [exact He2|done|exact Hx|intros u; cbv beta; lia|done].
Qed.

Lemma may_try_size p req : may_try p req -> remaining_try_count req <= Z.of_nat (length (targets p)).
Proof.
  unfold may_try. destruct (tried req) as [t|]; [|lia]. intros (_ & Hlen & Hm). pose proof (how_many_bounds negb t) as Hb.
  unfold len in Hb. fold (untried t) in Hb. destruct (_ <? _)%nat; lia.
Qed.

Lemma retry_ok starts p req : pool_ok p -> may_try p req -> succeeds (retry starts p req) (outcome p (fun _ => 0) 0).
Proof. intros Hp Hm. apply try_connect_ok; [done|done|by apply may_try_size]. Qed.

Lemma next_retry_ok starts p req : pool_ok p -> req_ok p req -> succeeds (next_try (retry starts) p req) (outcome p (fun _ => 0) 0).
Proof. intros Hp Hr. eapply next_try_ok; [|done|done|reflexivity]. intros p' req' Hp' Hm' _. by apply retry_ok. Qed.

Lemma on_getaddr_ok ok starts p req : pool_ok p -> req_ok p req ->
  succeeds (on_getaddr ok starts p req) (outcome p (fun u => - at_target (selected_target req) u) 0).
Proof.
  intros Hp Hr. unfold on_getaddr. destruct ok.
  - eapply start_connect_ok; [|done|done|reflexivity]. intros p' req' Hp' Hm' _. by apply retry_ok.
  - eapply succeeds_weaken; [apply next_retry_ok; [by apply add_leased_ok|eapply req_ok_shape; [apply shape_add_leased|done]]|].
    intros x Hx. eapply outcome_then; [apply add_leased_effect, Hr|apply shape_add_leased|exact Hx|intros u; cbv beta; lia|done].
Qed.

(** A connection that is refused is taken off the counters twice. *)
Lemma on_connect_ok (ok : bool) starts p req : pool_ok p -> req_ok p req ->
  succeeds (on_connect ok starts p req)
    (outcome p (fun u => - at_target (selected_target req) u - (if ok then 0 else at_target (selected_target req) u)) (if ok then 0 else -1)).
Proof.
  intros Hp Hr. unfold on_connect. destruct ok; cbn [negb].
  - destruct (lookup_lt_is_Some_2 (targets p) (selected_target req)) as [t Ht]; [apply Hr|]. rewrite Ht. cbn [mbind option_bind].
    pose proof (ok_ssl p Hp) as Hssl. unfold ssl_ok in Hssl. rewrite Forall_lookup in Hssl. destruct (Hssl _ _ Ht) as (s & -> & Hctx).
    cbn [mbind option_bind]. destruct (is_ssl s); [rewrite Hctx by done|]; apply succeeds_some; split_and!; try done; try apply Hr;
      (eapply effect_eq; [apply effect_refl|intros u; simpl; lia|done|done]).
  - set (i := selected_target req) in *. assert (Hi : (i < length (targets (add_leased i (-1) p)))%nat).
    { rewrite (shape_length p); [apply Hr|apply shape_add_leased]. }
    eapply succeeds_weaken.
    + apply next_retry_ok; [by apply on_close_ok, add_leased_ok|].
      eapply req_ok_shape; [rewrite shape_on_close; apply shape_add_leased|done].
    + intros x Hx. eapply outcome_then; [|by rewrite shape_on_close, shape_add_leased|exact Hx| |].
      * eapply effect_then; [apply add_leased_effect, Hr|by apply on_close_effect|intros u; reflexivity|reflexivity|reflexivity].
      * intros u. cbv beta iota. fold i. lia.
      * done.
Qed.
End Pool.
