(* ===== verification/SocketpoolRun.v ===== *)
(** * Pools of connections: whole runs (lib/common/socketpool.c)

    A pool with the requests that wait and the connections that are in use, and the events that
    move them, in any order. *)
From S2P Require Import Prelude Strings Url UrlParse Balancer Socketpool SocketpoolOk.
From Stdlib Require Import ZArith Lia.
From stdpp Require Import base list numbers option strings.
Open Scope Z_scope.

Section Run.
Context {B : Type} `{!Balancer B, !BalancerOk B}.
Implicit Types p : pool B.

(** ** Kept connections *)

(** [p'] is [p] without some of the kept connections. *)
Definition kept_less p p' : Prop :=
  targets p' = targets p /\ has_ssl_ctx p' = has_ssl_ctx p /\ balancer p' = balancer p /\ Forall (fun e => e ∈ sockets p) (sockets p').

Lemma kept_less_ok p p' : kept_less p p' -> pool_ok p -> pool_ok p'.
Proof.
  intros (Ht & Hc & Hb & Hs) [H1 H2 H3 H4]. split.
  - intros b. rewrite Hb, Ht. apply H1.
  - by rewrite Ht.
  - rewrite Forall_forall in Hs, H3 |- *. rewrite Ht. intros e He. by apply H3, Hs.
  - unfold ssl_ok in *. by rewrite Ht, Hc.
Qed.

Definition entries p : Z := len (sockets p).

Lemma kept_less_refl p : kept_less p p.
Proof. split_and!; try done. by apply Forall_forall. Qed.

Lemma effect_stay p : effect p p (fun _ => 0) (entries p - entries p) (entries p - entries p).
Proof. rewrite Z.sub_diag. apply effect_refl. Qed.

Lemma expire_loop_spec now before es : forall p, sockets p = es ->
  let p' := (expire_loop now before es p).1 in
  effect p p' (fun _ => 0) (entries p' - entries p) (entries p' - entries p) /\ kept_less p p' /\ h2o_socketpool_is_global p' = h2o_socketpool_is_global p.
Proof.
  induction es as [|e es IH]; intros p Hes p'; subst p'; cbn [expire_loop].
  { split_and!; [apply effect_stay|apply kept_less_refl|done]. }
  destruct (before <? added_at e); cbn [fst].
  { split_and!; [apply effect_stay|apply kept_less_refl|done]. }
  specialize (IH (set_sockets (-1) es (add_count (-1) p)) eq_refl). cbv zeta in IH. destruct IH as (He & (H1 & H2 & H3 & H4) & H5).
  assert (Hlen : entries p = 1 + len es) by (unfold entries, len; rewrite Hes; simpl; lia).
  split_and!; [|split_and!; [done|done|done|]|done].
  - eapply effect_then; [eapply effect_then; [apply add_count_effect|apply set_sockets_effect|intros u; reflexivity|reflexivity|reflexivity]|exact He|done| |];
      unfold entries at 2; cbn [sockets set_sockets]; lia.
  - rewrite Hes. cbn [sockets set_sockets] in H4. rewrite Forall_forall in H4 |- *. intros x Hx. right. by apply H4.
Qed.

Lemma check_expired_spec now this_loop p : let p' := check_pool_expired_locked now this_loop p in
  effect p p' (fun _ => 0) (entries p' - entries p) (entries p' - entries p) /\ kept_less p p' /\ h2o_socketpool_is_global p' = h2o_socketpool_is_global p.
Proof.
  unfold check_pool_expired_locked, destroy_expired_locked. destruct (interval_loop p).
  - pose proof (expire_loop_spec now (wrap64 (now - timeout p)) (sockets p) p eq_refl) as H. cbv zeta in H.
    destruct (expire_loop _ _ _ _) as [p1 next]. cbn [fst] in H. destruct H as ([L C P] & H2 & H3).
    destruct (negb _); [destruct (_ && _ && _)|]; cbv zeta; (split_and!; [split; [apply L|apply C|apply P]|exact H2|exact H3]).
  - cbn [negb Z.eqb]. split_and!; [apply effect_stay|apply kept_less_refl|done].
Qed.

Definition reused (r : option nat) (u : nat) : Z := match r with Some t => at_target t u | None => 0 end.

Lemma reuse_loop_spec target alive es : forall before p p' r, pool_ok p -> sockets p = before ++ es ->
  reuse_loop target alive before es p = (p', r) ->
  effect p p' (reused r) 0 (entries p' - entries p) /\ pool_ok p' /\ length (targets p') = length (targets p) /\
  h2o_socketpool_is_global p' = h2o_socketpool_is_global p /\ has_ssl_ctx p' = has_ssl_ctx p /\ (forall t, r = Some t -> (t < length (targets p'))%nat) /\
  entries p' <= entries p - match r with Some _ => 1 | None => 0 end /\
  ((forall e, alive e = true) -> entries p' = entries p - match r with Some _ => 1 | None => 0 end).
Proof.
  induction es as [|e es IH]; intros before p p' r Hp Hes; cbn [reuse_loop].
  { intros [= <- <-]. split_and!; try done; [eapply effect_eq; [apply effect_refl|done|done|lia]|lia|lia]. }
  destruct (of_target target e).
  - set (p1 := set_sockets (-1) (before ++ es) p).
    assert (He1 : effect p p1 (fun _ => 0) 0 (-1)) by apply set_sockets_effect.
    assert (Hn : entries p1 = entries p - 1) by (unfold entries, len, p1; rewrite Hes; cbn [sockets set_sockets]; rewrite !length_app; simpl; lia).
    assert (Hp1 : pool_ok p1).
    { apply (kept_less_ok p); [|done]. split_and!; [done|done|done|]. rewrite Hes, Forall_forall. cbn [p1 sockets set_sockets].
      intros x. rewrite !elem_of_app, elem_of_cons. tauto. }
    assert (Hen : (en_target e < length (targets p1))%nat).
    { pose proof (ok_sockets p Hp) as H. rewrite Forall_forall in H. apply (H e). rewrite Hes, elem_of_app, elem_of_cons. tauto. }
    destruct (alive e) eqn:Ea.
    + intros [= <- <-]. split_and!; try done.
      * eapply effect_then; [exact He1|by apply add_leased_effect|intros u; simpl; lia|done|]. unfold entries in *. cbn [sockets add_leased set_targets]. lia.
      * by apply add_leased_ok.
      * apply (shape_length p1), shape_add_leased.
      * intros t [= <-]. by rewrite (shape_length p1); [|apply shape_add_leased].
      * unfold entries in *. cbn [sockets add_leased set_targets]. lia.
    + intros H. apply IH in H as (H1 & H2 & H3 & H4 & H5 & H6 & H7 & _); [|done|done].
      split_and!; try done; [eapply effect_then; [exact He1|exact H1|done|done|lia]|lia|]. intros Hall. by rewrite Hall in Ea.
  - intros H. apply IH in H; [done|done|]. by rewrite Hes, <- app_assoc.
Qed.

(** ** Asking for a connection *)

Lemma new_request_ok target starts p : pool_ok p ->
  match target with Some t => (t < length (targets p))%nat | None => h2o_socketpool_is_global p = false end ->
  succeeds (start_request target starts p) (outcome p (fun _ => 0) 1).
Proof.
  intros Hp Ht. unfold start_request. eapply succeeds_weaken.
  - apply retry_ok; [by apply add_count_ok|]. destruct target as [t|]; unfold may_try; cbn [tried selected_target remaining_try_count]; [done|].
    split_and!; [done|apply repeat_length|]. unfold h2o_socketpool_is_global in Ht. destruct (balancer p) as [b|] eqn:Eb; [|done].
    destruct (ok_fit p Hp b Eb) as (_ & Hne & _). cbn [targets add_count].
    assert (Hu : untried (repeat false (length (targets p))) = len (targets p)).
    { unfold untried, len. induction (length (targets p)) as [|n IH]; [done|]. simpl repeat. rewrite how_many_cons, IH. simpl. lia. }
    unfold len in *. destruct (Nat.ltb_spec 1 (length (targets p))); [split; lia|]. destruct (targets p); [done|]. simpl in *. split; lia.
  - intros x Hx. eapply outcome_then; [apply add_count_effect|done|exact Hx|done|done].
Qed.

Lemma get_port_total url s : u_scheme url = Some s -> is_Some (h2o_url_get_port url).
Proof. intros H. unfold h2o_url_get_port. rewrite H. destruct (negb _); by eexists. Qed.

Lemma lookup_loop_ok url port ts : Forall (fun t => exists s, u_scheme (tg_url t) = Some s) ts -> forall i,
  succeeds (lookup_loop ts url port i) (fun r => forall k, r = Some k -> (i <= k < i + length ts)%nat).
Proof.
  induction 1 as [|t ts [s Hs] Hts IH]; intros i; cbn [lookup_loop length]; [by apply succeeds_some|].
  assert (Hn : succeeds (lookup_loop ts url port (S i)) (fun r => forall k, r = Some k -> (i <= k < i + S (length ts))%nat)).
  { eapply succeeds_weaken; [apply IH|]. intros r Hr k Hk. apply Hr in Hk. lia. }
  destruct (negb _); [done|]. destruct (get_port_total (tg_url t) s Hs) as [tp ->]. cbn [mbind option_bind].
  destruct (negb _); [done|]. destruct (negb _); [done|]. apply succeeds_some. intros k [= <-]. lia.
Qed.

(** A URL that a global pool can have as a target. *)
Definition url_ok p (url : h2o_url_t) : Prop :=
  exists s, u_scheme url = Some s /\ (is_ssl s = true -> has_ssl_ctx p = true) /\ is_Some (detect_target_type (default [] (u_host url))).

(** What holds of a pool that has got new targets. *)
Definition grown p p' : Prop :=
  (length (targets p) <= length (targets p'))%nat /\ h2o_socketpool_is_global p' = h2o_socketpool_is_global p /\
  (h2o_socketpool_is_global p = false -> length (targets p') = length (targets p)).

Lemma find_or_add_ok p url : pool_ok p -> url_ok p url -> h2o_socketpool_is_global p = true ->
  succeeds (find_or_add_target url p) (fun x => effect p x.1 (fun _ => 0) 0 0 /\ pool_ok x.1 /\ grown p x.1 /\ sockets x.1 = sockets p /\ (x.2 < length (targets x.1))%nat).
Proof.
  intros Hp (s & Hs & Hssl & [[ty un] Hd]) Hg. unfold find_or_add_target, lookup_target.
  destruct (get_port_total url s Hs) as [port ->]. cbn [mbind option_bind]. pose proof (ok_ssl p Hp) as Hall.
  eapply succeeds_bind; [apply lookup_loop_ok; eapply List.Forall_impl; [|exact Hall]; intros t (s' & ? & _); by exists s'|].
  intros [i|] Hi.
  { apply succeeds_some. split_and!; [apply effect_refl|done|done|done|apply (Hi i eq_refl)]. }
  unfold h2o_socketpool_create_target. rewrite Hd. cbn [mbind option_bind]. apply succeeds_some. set (t := Target _ _ _).
  assert (Hb : balancer p = None) by (unfold h2o_socketpool_is_global in Hg; by destruct (balancer p)). destruct Hp as [H1 H2 H3 H4].
  split_and!; cbn [fst snd].
  - split; [|by rewrite Z.add_0_r..]. intros u. rewrite Z.add_0_r. unfold leased_at. cbn [targets set_targets].
    destruct (Nat.lt_ge_cases u (length (targets p))) as [Hu|Hu]; [by rewrite lookup_app_l|].
    rewrite lookup_app_r, (lookup_ge_None_2 (targets p)) by done. by destruct (u - length (targets p))%nat as [|[|n]].
  - split; cbn [balancer targets set_targets sockets]; [by rewrite Hb| | |].
    + rewrite fmap_app. apply Forall_app. split; [done|]. constructor; [|constructor]. unfold weight_ok. simpl. lia.
    + eapply List.Forall_impl; [|exact H3]. intros e He. cbv beta in *. rewrite length_app. lia.
    + apply Forall_app. split; [done|]. constructor; [|constructor]. by exists s.
  - unfold grown. cbn [targets set_targets]. rewrite length_app. split_and!; [lia|done|]. intros Hn. congruence.
  - done.
  - cbn [targets set_targets]. rewrite length_app. simpl. lia.
Qed.

(** [try_connect] does not wait for a connection. *)
Lemma try_connect_waits starts fuel : forall p req p' t, try_connect fuel starts p req <> Some (p', Connected t).
Proof.
  induction fuel as [|fuel IH]; intros p req p' t; cbn [try_connect]; [done|]. destruct (choose _ _) as [[p1 r1]|]; [|done].
  cbn [mbind option_bind]. destruct (targets p1 !! _) as [tg|]; [|done]. cbn [mbind option_bind]. destruct (tg_type tg); [done|].
  unfold start_connect, next_try. destruct (starts _); [done|]. destruct (_ <? _); [apply IH|done].
Qed.

Definition is_connected (res : result) : Z := match res with Connected _ => 1 | _ => 0 end.

Definition skips_lookup p : bool := (timeout p =? 0) && negb (h2o_socketpool_is_global p).

(** How many kept connections were found dead. *)
Definition dead_found (now : Z) (this_loop : bool) p p' (res : result) : Z :=
  entries (if skips_lookup p then p else check_pool_expired_locked now this_loop p) - entries p' - is_connected res.

Definition connected_as p (now : Z) (this_loop : bool) (x : pool B * result) : Prop :=
  pool_ok x.1 /\ grown p x.1 /\ result_ok x.1 x.2 /\ 0 <= dead_found now this_loop p x.1 x.2 /\
  effect p x.1 (hold x.2) (1 + lost x.2 + dead_found now this_loop p x.1 x.2 + (entries x.1 - entries p)) (entries x.1 - entries p).

Lemma grown_trans p1 p2 p3 : grown p1 p2 -> grown p2 p3 -> grown p1 p3.
Proof. intros (A1 & A2 & A3) (B1 & B2 & B3). split_and!; [lia|congruence|]. intros H. rewrite B3, A3 by congruence. done. Qed.

Lemma shape_grown p p' : shape p' = shape p -> grown p p' /\ entries p' = entries p /\ has_ssl_ctx p' = has_ssl_ctx p.
Proof.
  intros H. pose proof (shape_length _ _ H) as Hl. unfold shape in H. injection H as _ Hs Hc Hg.
  split_and!; [split_and!; [lia|done|done]|by unfold entries; rewrite Hs|done].
Qed.

(** From the pool [p1] on, whose expired connections are gone. *)
Lemma start_new_ok now this_loop starts target p p1 p2 dead :
  effect p p2 (fun _ => 0) (entries p1 - entries p) (entries p2 - entries p) -> grown p p2 -> pool_ok p2 ->
  p1 = (if skips_lookup p then p else check_pool_expired_locked now this_loop p) -> dead = entries p1 - entries p2 -> 0 <= dead ->
  match target with Some t => (t < length (targets p2))%nat | None => h2o_socketpool_is_global p2 = false end ->
  succeeds (start_request target starts p2) (fun x => connected_as p now this_loop x /\ dead_found now this_loop p x.1 x.2 = dead).
Proof.
  intros He Hg Hp -> -> Hd Ht. destruct (new_request_ok target starts p2 Hp Ht) as ([p' res] & E & He' & Hs & Hp' & Hr). cbn [fst snd] in *.
  exists (p', res). split; [done|]. destruct (shape_grown _ _ Hs) as (Hg' & Hn & _).
  assert (Hc : is_connected res = 0). { destruct res as [| |t]; [done|done|]. by apply try_connect_waits in E. }
  unfold connected_as, dead_found. cbn [fst snd]. rewrite Hc, Hn. split; [split_and!; [done|by eapply grown_trans|done|lia|]|lia].
  eapply effect_then; [exact He|exact He'|intros u; cbv beta; lia|lia|lia].
Qed.

Lemma connect_ok url now this_loop alive starts p : pool_ok p -> (h2o_socketpool_is_global p = true -> url_ok p url) ->
  succeeds (h2o_socketpool_connect url now this_loop alive starts p)
    (fun x => connected_as p now this_loop x /\ ((forall e, alive e = true) -> dead_found now this_loop p x.1 x.2 = 0)).
Proof.
  intros Hp Hu. unfold h2o_socketpool_connect. fold (skips_lookup p). destruct (skips_lookup p) eqn:Eskip.
  { assert (Hg : h2o_socketpool_is_global p = false) by (unfold skips_lookup in Eskip; apply andb_true_iff in Eskip as [_ H]; by apply negb_true_iff).
    eapply succeeds_weaken; [eapply (start_new_ok now this_loop starts None p p p 0)|intros x [Hx Hdx]; split; [exact Hx|intros _; exact Hdx]];
      [apply effect_stay|by split_and!|done|by rewrite Eskip|lia|lia|exact Hg]. }
  destruct (check_expired_spec now this_loop p) as (He1 & Hk & Hg1). cbv zeta. set (p1 := check_pool_expired_locked now this_loop p) in *.
  pose proof (kept_less_ok _ _ Hk Hp) as Hp1. destruct Hk as (Hts & Hctx & _ & _).
  eapply (succeeds_bind _ _ (fun x => effect p1 x.1 (fun _ => 0) 0 0 /\ pool_ok x.1 /\ grown p1 x.1 /\ sockets x.1 = sockets p1 /\
    targets x.1 <> [] /\ match x.2 with Some t => (t < length (targets x.1))%nat | None => h2o_socketpool_is_global x.1 = false end)).
  { destruct (h2o_socketpool_is_global p1) eqn:Eg.
    - eapply succeeds_bind; [apply find_or_add_ok; [done| |done]|].
      + destruct Hu as (s & Hs1 & Hs2 & Hs3); [congruence|]. exists s. by rewrite Hctx.
      + intros [p2 t] (H1 & H2 & H3 & H4 & H5). apply succeeds_some. cbn [fst snd] in *. split_and!; try done.
        intros H0. rewrite H0 in H5. simpl in H5. lia.
    - apply succeeds_some. cbn [fst snd]. split_and!; [apply effect_refl|done|done|done| |done].
      unfold h2o_socketpool_is_global in Eg. destruct (balancer p1) as [b|] eqn:Eb; [|done]. by destruct (ok_fit p1 Hp1 b Eb) as (_ & ? & _). }
  intros [p2 target] (He2 & Hp2 & Hg2 & Hs2 & Hne & Ht). cbn [fst snd] in *.
  destruct (Nat.eqb_spec (length (targets p2)) 0) as [H0|_]; [by destruct (targets p2)|].
  assert (Hn2 : entries p2 = entries p1) by (unfold entries; by rewrite Hs2).
  assert (Hgp : grown p p2) by (apply (grown_trans p p1); [split_and!; [by rewrite Hts|done|by rewrite Hts]|done]).
  destruct (reuse_loop target alive [] (sockets p2) p2) as [p3 r] eqn:Er.
  apply reuse_loop_spec in Er as (He3 & Hp3 & Hl3 & Hg3 & _ & Hr3 & Hn3 & Hall3); [|done|done].
  assert (Hgp3 : grown p p3) by (apply (grown_trans p p2); [done|]; split_and!; [lia|done|done]).
  assert (He : effect p p3 (reused r) (entries p1 - entries p) (entries p3 - entries p)).
  { eapply effect_then; [exact He1|eapply effect_then; [exact He2|exact He3|intros u; reflexivity|reflexivity|reflexivity]|intros u; simpl; lia|lia|lia]. }
  destruct r as [t|].
  - apply succeeds_some. unfold connected_as, dead_found. rewrite Eskip. fold p1. cbn [fst snd hold lost is_connected result_ok].
    split; [|intros Hall; rewrite (Hall3 Hall); lia]. split_and!; [done|done|by apply Hr3|lia|]. eapply effect_eq; [exact He|done|lia|lia].
  - eapply succeeds_weaken; [eapply (start_new_ok now this_loop starts target p p1 p3 (entries p1 - entries p3))|
      intros x [Hx Hdx]; split; [exact Hx|intros Hall; specialize (Hall3 Hall); lia]];
      [exact He|done|done|by rewrite Eskip|reflexivity|lia|]. destruct target as [t|]; [by rewrite Hl3|by rewrite Hg3].
Qed.

(** ** Worlds *)

(** A pool, the requests that wait, and the connections in use by their targets; with what
    [leased_count] and [count] are off by. *)
Record world := World {
  w_pool : pool B;
  w_reqs : list connect_request;
  w_socks : list nat;
  lease_error : nat -> Z;
  count_error : Z }.

Inductive event :=
  | Connect (url : h2o_url_t) (now : Z) (this_loop : bool) (alive : entry -> bool) (starts : nat -> bool)
  | Getaddr (i : nat) (ok : bool) (starts : nat -> bool)
  | ConnectDone (i : nat) (ok : bool) (starts : nat -> bool)
  | Handshake (i : nat) (err : option handshake_error) (verify_peer : bool)
  | CancelRequest (i : nat)
  | Return (k : nat) (exported : bool) (now : Z) (this_loop : bool)
  | Detach (k : nat)
  | Close (k : nat)
  | Timer (now : Z) (locked : bool).

(** The result of request [i] takes its place. *)
Definition settle (w : world) (i : nat) (x : pool B * result) (le : nat -> Z) (ce : Z) : world * option result :=
  (match x.2 with
   | Waiting r => World x.1 (<[i := r]> (w_reqs w)) (w_socks w) le ce
   | Failed _ => World x.1 (delete i (w_reqs w)) (w_socks w) le ce
   | Connected t => World x.1 (delete i (w_reqs w)) (t :: w_socks w) le ce
   end, Some x.2).

Definition give_back (w : world) (k : nat) (p : pool B) : world * option result :=
  (World p (w_reqs w) (delete k (w_socks w)) (lease_error w) (count_error w), None).

(** What a request that is cancelled leaves wrong: with a socket, its lease is given up once by
    [on_close] and once more when a balancer had chosen; without, [count] is never adjusted, nor
    the lease when no balancer had chosen. *)
Definition cancel_lease (req : connect_request) (u : nat) : Z :=
  match rq_phase req, tried req with
  | Resolving, None => at_target (selected_target req) u
  | Resolving, Some _ | _, None => 0
  | _, Some _ => - at_target (selected_target req) u
  end.
Definition cancel_count (req : connect_request) : Z := match rq_phase req with Resolving => 1 | _ => 0 end.

Definition step (w : world) (e : event) : option (world * option result) :=
  let p := w_pool w in
  match e with
  | Connect url now this_loop alive starts =>
      '(p', res) ← h2o_socketpool_connect url now this_loop alive starts p;
      let ce := count_error w + dead_found now this_loop p p' res in
      Some (match res with
            | Waiting r => World p' (w_reqs w ++ [r]) (w_socks w) (lease_error w) ce
            | Failed _ => World p' (w_reqs w) (w_socks w) (lease_error w) ce
            | Connected t => World p' (w_reqs w) (t :: w_socks w) (lease_error w) ce
            end, Some res)
  | Getaddr i ok starts => req ← w_reqs w !! i; x ← on_getaddr ok starts p req; Some (settle w i x (lease_error w) (count_error w))
  | ConnectDone i ok starts =>
      req ← w_reqs w !! i;
      x ← on_connect ok starts p req;
      Some (if ok then settle w i x (lease_error w) (count_error w)
            else settle w i x (fun u => lease_error w u - at_target (selected_target req) u) (count_error w - 1))
  | Handshake i err verify => req ← w_reqs w !! i; Some (settle w i (on_handshake_complete err verify p req) (lease_error w) (count_error w))
  | CancelRequest i =>
      req ← w_reqs w !! i;
      Some (World (h2o_socketpool_cancel_connect p req) (delete i (w_reqs w)) (w_socks w)
              (fun u => lease_error w u + cancel_lease req u) (count_error w + cancel_count req), None)
  | Return k exported now this_loop => t ← w_socks w !! k; Some (give_back w k (h2o_socketpool_return t exported now this_loop p))
  | Detach k => t ← w_socks w !! k; Some (give_back w k (h2o_socketpool_detach t p))
  | Close k => t ← w_socks w !! k; Some (give_back w k (on_close t p))
  | Timer now locked => Some (World (on_timeout now locked p) (w_reqs w) (w_socks w) (lease_error w) (count_error w), None)
  end.

(** An event that can come: for a request in its phase, for a connection in use, or for a URL that
    the pool can take. *)
Definition enabled (w : world) (e : event) : Prop :=
  match e with
  | Connect url _ _ _ _ => h2o_socketpool_is_global (w_pool w) = true -> url_ok (w_pool w) url
  | Getaddr i _ _ => exists req, w_reqs w !! i = Some req /\ rq_phase req = Resolving
  | ConnectDone i _ _ => exists req, w_reqs w !! i = Some req /\ rq_phase req = Connecting
  | Handshake i _ _ => exists req, w_reqs w !! i = Some req /\ rq_phase req = Handshaking
  | CancelRequest i => is_Some (w_reqs w !! i)
  | Return k _ _ _ | Detach k | Close k => is_Some (w_socks w !! k)
  | Timer _ _ => True
  end.

Inductive reaches (w : world) : world -> Prop :=
  | reaches_refl : reaches w w
  | reaches_step w1 e w2 res : reaches w w1 -> enabled w1 e -> step w1 e = Some (w2, res) -> reaches w w2.

(** ** The invariant *)

Definition held (w : world) (u : nat) : Z :=
  how_many (fun r => (selected_target r =? u)%nat) (w_reqs w) + how_many (fun t => (t =? u)%nat) (w_socks w).

Definition connections (w : world) : Z := len (w_reqs w) + len (w_socks w) + entries (w_pool w).

Record ledger (w : world) : Prop := Ledger {
  led_leased u : congr (leased_at (w_pool w) u) (held w u + lease_error w u);
  led_count : congr (count (w_pool w)) (connections w + count_error w);
  led_pooled : congr (pooled_count (w_pool w)) (entries (w_pool w)) }.

Record world_ok (w : world) : Prop := WorldOk {
  wok_pool : pool_ok (w_pool w);
  wok_reqs : Forall (req_ok (w_pool w)) (w_reqs w);
  wok_socks : Forall (fun t => (t < length (targets (w_pool w)))%nat) (w_socks w);
  wok_ledger : ledger w }.

(** A change of the pool that the lists account for. *)
Lemma ledger_effect w w' dl dc dp : ledger w -> effect (w_pool w) (w_pool w') dl dc dp ->
  (forall u, held w u + lease_error w u + dl u = held w' u + lease_error w' u) ->
  connections w + count_error w + dc = connections w' + count_error w' ->
  entries (w_pool w) + dp = entries (w_pool w') -> ledger w'.
Proof.
  intros [L C P] [EL EC EP] Hl Hc Hp. split; [intros u|..].
  - rewrite EL, L, Hl. done.
  - rewrite EC, C, Hc. done.
  - rewrite EP, P, Hp. done.
Qed.

Lemma req_ok_grown p p' req : grown p p' -> req_ok p req -> req_ok p' req.
Proof.
  intros (H1 & H2 & H3) [Hs Hr]. split; [lia|]. destruct (tried req) as [t|]; [|done]. destruct Hr as (Hg & Hl & Hrem).
  rewrite (H3 Hg), H2. done.
Qed.

Lemma lists_grown w p' : world_ok w -> grown (w_pool w) p' ->
  Forall (req_ok p') (w_reqs w) /\ Forall (fun t => (t < length (targets p'))%nat) (w_socks w).
Proof.
  intros H Hg. split.
  - eapply List.Forall_impl; [|apply (wok_reqs w H)]. intros r. by apply req_ok_grown.
  - eapply List.Forall_impl; [|apply (wok_socks w H)]. intros t Ht. cbv beta in *. destruct Hg as (? & _). lia.
Qed.

Lemma entries_shape p p' : shape p' = shape p -> entries p' = entries p.
Proof. intros H. by destruct (shape_grown _ _ H) as (_ & ? & _). Qed.

(** An outcome but for what made a request fail. *)
Definition settles p (dl : nat -> Z) (dc : Z) (x : pool B * result) : Prop :=
  effect p x.1 (fun u => dl u + hold x.2 u) (dc + lost x.2) 0 /\ shape x.1 = shape p /\ pool_ok x.1 /\
  match x.2 with Failed _ => True | res => result_ok x.1 res end.

Lemma outcome_settles p dl dc x : outcome p dl dc x -> settles p dl dc x.
Proof. intros (H1 & H2 & H3 & H4). split_and!; [done|done|done|]. by destruct x.2. Qed.

Lemma handshake_settles err verify p req : pool_ok p -> req_ok p req ->
  settles p (fun u => - at_target (selected_target req) u) 0 (on_handshake_complete err verify p req).
Proof.
  intros Hp Hr. assert (Hok : settles p (fun u => - at_target (selected_target req) u) 0 (p, Connected (selected_target req))).
  { split_and!; [|done|done|apply Hr]. eapply effect_eq; [apply effect_refl|intros u; simpl; lia|done|done]. }
  assert (Hno : settles p (fun u => - at_target (selected_target req) u) 0 (on_close (selected_target req) p, Failed req)).
  { split_and!; [|apply shape_on_close|by apply on_close_ok|done]. eapply effect_eq; [apply on_close_effect, Hr|intros u; simpl; lia|done|done]. }
  unfold on_handshake_complete. destruct err as [[|]|]; [destruct (negb verify)|..]; done.
Qed.

(** The result of a request that held a lease. *)
Lemma settle_ok w i req x dl dc le ce : world_ok w -> w_reqs w !! i = Some req ->
  settles (w_pool w) dl dc x -> (forall u, lease_error w u + at_target (selected_target req) u + dl u = le u) -> count_error w + dc = ce ->
  world_ok (settle w i x le ce).1.
Proof.
  intros H Hi (He & Hs & Hp & Hr) Hle Hce. destruct x as [p' res]. cbn [fst snd] in *.
  destruct (lists_grown w p' H (proj1 (shape_grown _ _ Hs))) as [Hreqs Hsocks]. pose proof (entries_shape _ _ Hs) as Hn.
  pose proof (fun u => how_many_split (fun r => (selected_target r =? u)%nat) (w_reqs w) i req Hi) as Hsplit.
  pose proof (lookup_lt_Some _ _ _ Hi) as Hlt.
  assert (Hdel : len (delete i (w_reqs w)) = len (w_reqs w) - 1) by (unfold len; rewrite length_delete by done; lia).
  assert (Hld : forall w', (settle w i (p', res) le ce).1 = w' -> ledger w').
  { intros w' <-. eapply ledger_effect; [apply H|destruct res; exact He|..]; destruct res as [r|r|t];
      cbn [settle fst snd w_pool w_reqs w_socks lease_error count_error hold lost held]; unfold held, connections;
      cbn [w_pool w_reqs w_socks]; try (intros u; rewrite (Hsplit u), ?how_many_cons, ?(how_many_insert _ _ _ req r Hi), <- Hle; unfold at_target; cbv beta;
        repeat match goal with |- context [(?a =? ?b)%nat] => destruct (a =? b)%nat end; lia);
      rewrite ?Hdel, ?Hn; unfold len in *; rewrite ?length_insert; cbn [length]; lia. }
  destruct res as [r|r|t]; cbn [settle fst snd] in *; split; cbn [w_pool w_reqs w_socks]; try done; try (by apply Hld); try (by apply Forall_delete).
  - by apply Forall_insert.
  - by constructor.
Qed.

(** A connection that is given back. *)
Lemma give_back_ok w k t p' dc dp : world_ok w -> w_socks w !! k = Some t ->
  effect (w_pool w) p' (fun u => - at_target t u) dc dp -> pool_ok p' -> grown (w_pool w) p' ->
  dc + 1 = entries p' - entries (w_pool w) -> dp = entries p' - entries (w_pool w) -> world_ok (give_back w k p').1.
Proof.
  intros H Hk He Hp Hg Hc Hd. destruct (lists_grown w p' H Hg) as [Hreqs Hsocks].
  pose proof (fun u => how_many_split (fun t => (t =? u)%nat) (w_socks w) k t Hk) as Hsplit. pose proof (lookup_lt_Some _ _ _ Hk) as Hlt.
  assert (Hdel : len (delete k (w_socks w)) = len (w_socks w) - 1) by (unfold len; rewrite length_delete by done; lia).
  split; cbn [give_back fst w_pool w_reqs w_socks]; [done|done|by apply Forall_delete|].
  eapply ledger_effect; [apply H|exact He|..]; cbn [w_pool w_reqs w_socks lease_error count_error]; unfold held, connections; cbn [w_pool w_reqs w_socks];
    [|lia|lia].
  intros u. rewrite (Hsplit u). unfold at_target. lia.
Qed.

Lemma return_ok w k t exported now this_loop : world_ok w -> w_socks w !! k = Some t ->
  world_ok (give_back w k (h2o_socketpool_return t exported now this_loop (w_pool w))).1.
Proof.
  intros H Hk. assert (Ht : (t < length (targets (w_pool w)))%nat) by (eapply (Forall_lookup_1 _ _ _ _ (wok_socks w H)), Hk).
  set (p := w_pool w) in *. pose proof (wok_pool w H) as Hp. fold p in Hp.
  assert (He : effect p (add_leased t (-1) p) (fun u => - at_target t u) 0 0).
  { eapply effect_eq; [by apply add_leased_effect|intros u; cbv beta; lia|done|done]. }
  assert (Hl : length (targets (add_leased t (-1) p)) = length (targets p)) by (apply shape_length, shape_add_leased).
  unfold h2o_socketpool_return. destruct exported; cbn [negb].
  - set (p1 := set_sockets 1 (sockets (add_leased t (-1) p) ++ [Entry t now]) (add_leased t (-1) p)).
    assert (Hn : entries p1 = entries p + 1) by (unfold entries, len, p1; cbn; rewrite length_app; simpl; lia).
    assert (Hp1 : pool_ok p1).
    { pose proof (add_leased_ok t (-1) p Hp) as [A1 A2 A3 A4]. split; [exact A1|exact A2| |exact A4]. cbn [p1 sockets set_sockets].
      apply Forall_app. split; [exact A3|]. constructor; [|constructor]. cbn [en_target]. unfold p1. cbn [targets set_sockets]. by rewrite Hl. }
    destruct (check_expired_spec now this_loop p1) as (He2 & Hk2 & Hg2). pose proof (kept_less_ok _ _ Hk2 Hp1) as Hp2.
    cbv zeta in *. set (p2 := check_pool_expired_locked now this_loop p1) in *.
    eapply (give_back_ok w k t p2 (entries p2 - entries p1) (1 + (entries p2 - entries p1))); [done|done| |done| |fold p; lia|fold p; lia].
    + eapply effect_then; [exact He|eapply effect_then; [apply set_sockets_effect|exact He2|intros u; reflexivity|reflexivity|reflexivity]|intros u; cbv beta; lia|lia|lia].
    + destruct Hk2 as (Ht2 & _). unfold grown. fold p. rewrite Ht2, Hg2. cbn [p1 targets set_sockets]. rewrite Hl. split_and!; [lia| |done].
      cbn. done.
  - assert (Hs : shape (add_count (-1) (add_leased t (-1) p)) = shape p) by (rewrite shape_add_count; apply shape_add_leased).
    eapply (give_back_ok w k t _ (-1) 0); [done|done| |by apply add_count_ok, add_leased_ok|by apply shape_grown| |];
      try (fold p; rewrite (entries_shape _ _ Hs); lia).
    eapply effect_then; [exact He|apply add_count_effect|intros u; cbv beta; lia|done|done].
Qed.

Lemma sock_close_ok w k t : world_ok w -> w_socks w !! k = Some t -> world_ok (give_back w k (on_close t (w_pool w))).1.
Proof.
  intros H Hk. assert (Ht : (t < length (targets (w_pool w)))%nat) by (eapply (Forall_lookup_1 _ _ _ _ (wok_socks w H)), Hk).
  eapply (give_back_ok w k t _ (-1) 0); [done|done|by apply on_close_effect|by apply on_close_ok, H|by apply shape_grown, shape_on_close| |];
    rewrite (entries_shape _ _ (shape_on_close t (w_pool w))); lia.
Qed.

(** A request that is cancelled. *)
Lemma cancel_ok w i req : world_ok w -> w_reqs w !! i = Some req ->
  world_ok (World (h2o_socketpool_cancel_connect (w_pool w) req) (delete i (w_reqs w)) (w_socks w)
              (fun u => lease_error w u + cancel_lease req u) (count_error w + cancel_count req)).
Proof.
  intros H Hi. assert (Hr : req_ok (w_pool w) req) by (eapply (Forall_lookup_1 _ _ _ _ (wok_reqs w H)), Hi). set (t := selected_target req).
  set (p := w_pool w) in *. pose proof (wok_pool w H) as Hp. fold p in Hp.
  assert (Ht : forall p', shape p' = shape p -> (t < length (targets p'))%nat) by (intros p' Hs; rewrite (shape_length _ _ Hs); apply Hr).
  assert (Hx : exists dl dc, effect p (h2o_socketpool_cancel_connect p req) dl dc 0 /\ shape (h2o_socketpool_cancel_connect p req) = shape p /\
    pool_ok (h2o_socketpool_cancel_connect p req) /\ (forall u, dl u = cancel_lease req u - at_target t u) /\ dc = cancel_count req - 1).
  { unfold h2o_socketpool_cancel_connect, cancel_lease, cancel_count. fold t.
    destruct (rq_phase req), (tried req); do 2 eexists; (split_and!; [|rewrite ?shape_add_leased, ?shape_on_close; done|
      repeat first [apply add_leased_ok|apply on_close_ok|done]| |]).
    all: try (eapply effect_then; [by apply on_close_effect, Ht|apply add_leased_effect, Ht, shape_on_close|intros u; reflexivity|reflexivity|reflexivity]).
    all: try (by apply on_close_effect, Ht). all: try (by apply add_leased_effect, Ht). all: try apply effect_refl.
    all: try (intros u; cbv beta; lia). all: lia. }
  destruct Hx as (dl & dc & He & Hs & Hp' & Hdl & Hdc). destruct (lists_grown w _ H (proj1 (shape_grown _ _ Hs))) as [Hreqs Hsocks].
  pose proof (fun u => how_many_split (fun r => (selected_target r =? u)%nat) (w_reqs w) i req Hi) as Hsplit. pose proof (lookup_lt_Some _ _ _ Hi) as Hlt.
  assert (Hdel : len (delete i (w_reqs w)) = len (w_reqs w) - 1) by (unfold len; rewrite length_delete by done; lia).
  split; cbn [w_pool w_reqs w_socks]; [done|by apply Forall_delete|done|].
  eapply ledger_effect; [apply H|exact He|..]; cbn [w_pool w_reqs w_socks lease_error count_error]; unfold held, connections; cbn [w_pool w_reqs w_socks].
  - intros u. rewrite (Hsplit u), Hdl. unfold at_target. fold t. lia.
  - fold p. rewrite (entries_shape _ _ Hs). lia.
  - fold p. rewrite (entries_shape _ _ Hs). lia.
Qed.

(** A request that failed has tried every target. *)
Definition exhausted p (req : connect_request) : Prop :=
  forall t i, tried req = Some t -> (1 < length (targets p))%nat -> (i < length (targets p))%nat -> was_tried t i = true.

Lemma result_exhausted p req : result_ok p (Failed req) -> exhausted p req.
Proof.
  intros [[_ Hr] Hz] t i Et H1 Hi. rewrite Et in Hr. destruct Hr as (_ & _ & Hr). destruct (Nat.ltb_spec 1 (length (targets p))); [|lia].
  destruct (was_tried t i) eqn:E; [done|]. pose proof (untried_set t i E) as Hs. pose proof (how_many_bounds negb (<[i:=true]> t)). unfold untried in *. lia.
Qed.

Definition reported (e : event) (w : world) (res : option result) : Prop :=
  match e with
  | Handshake _ _ _ => True
  | _ => forall req, res = Some (Failed req) -> exhausted (w_pool w) req
  end.

Lemma settle_reported w i x le ce dl dc : outcome (w_pool w) dl dc x ->
  forall req, (settle w i x le ce).2 = Some (Failed req) -> exhausted (w_pool (settle w i x le ce).1) req.
Proof.
  intros (_ & _ & _ & Hr) req. destruct x as [p' res]. cbn [settle fst snd] in *. intros [= ->]. by apply result_exhausted.
Qed.

Lemma pool_step_ok w e : world_ok w -> enabled w e -> succeeds (step w e) (fun x => world_ok x.1 /\ reported e x.1 x.2).
Proof.
  intros H He. pose proof (wok_pool w H) as Hp.
  assert (Hreq : forall i req, w_reqs w !! i = Some req -> req_ok (w_pool w) req) by (intros i req; apply Forall_lookup_1, H).
  destruct e as [url now tl alive starts|i ok starts|i ok starts|i err vf|i|k ex now tl|k|k|now locked]; cbn [step enabled reported] in *.
  - eapply succeeds_bind; [by apply connect_ok|]. intros [p' res] ((Hp' & Hg & Hr & Hd & Heff) & _). cbn [fst snd] in *. apply succeeds_some.
    destruct (lists_grown w p' H Hg) as [Hreqs Hsocks].
    split; [|destruct res; cbn [fst snd w_pool]; intros r' [=]; subst; by apply result_exhausted].
    destruct res as [r|r|t]; (split; cbn [fst w_pool w_reqs w_socks]; [done|try done|try done|
      eapply ledger_effect; [apply H|exact Heff|..]; cbn [w_pool w_reqs w_socks lease_error count_error hold lost] in *; unfold held, connections; cbn [w_pool w_reqs w_socks];
      [intros u; rewrite ?how_many_app, ?how_many_cons; unfold at_target; cbv beta; try lia; cbn [how_many List.filter len length]; unfold how_many, len; simpl; lia
      |unfold len; rewrite ?length_app; cbn [length]; lia|lia]]).
    + apply Forall_app. split; [done|]. by constructor.
    + by constructor.
  - destruct He as (req & Hi & _). rewrite Hi. cbn [mbind option_bind]. eapply succeeds_bind; [apply on_getaddr_ok; [done|by eapply Hreq]|].
    intros x Hx. apply succeeds_some. split; [|by eapply settle_reported].
    eapply settle_ok; [done|exact Hi|by apply outcome_settles|intros u; cbv beta; lia|lia].
  - destruct He as (req & Hi & _). rewrite Hi. cbn [mbind option_bind]. eapply succeeds_bind; [apply on_connect_ok; [done|by eapply Hreq]|].
    intros x Hx. apply succeeds_some. destruct ok; (split; [|by eapply settle_reported]);
      (eapply settle_ok; [done|exact Hi|by apply outcome_settles|intros u; cbv beta iota; lia|lia]).
  - destruct He as (req & Hi & _). rewrite Hi. cbn [mbind option_bind]. apply succeeds_some. split; [|done].
    eapply settle_ok; [done|exact Hi|apply handshake_settles; [done|by eapply Hreq]|intros u; cbv beta; lia|lia].
  - destruct He as (req & Hi). rewrite Hi. cbn [mbind option_bind]. apply succeeds_some. split; [by apply cancel_ok|done].
  - destruct He as (t & Hk). rewrite Hk. cbn [mbind option_bind]. apply succeeds_some. split; [by apply return_ok|done].
  - destruct He as (t & Hk). rewrite Hk. cbn [mbind option_bind]. apply succeeds_some. split; [by apply sock_close_ok|done].
  - destruct He as (t & Hk). rewrite Hk. cbn [mbind option_bind]. apply succeeds_some. split; [by apply sock_close_ok|done].
  - apply succeeds_some. split; [|done]. set (p0 := set_interval (w_pool w) None).
    assert (Hx : effect (w_pool w) (on_timeout now locked (w_pool w)) (fun _ => 0) (entries (on_timeout now locked (w_pool w)) - entries (w_pool w))
      (entries (on_timeout now locked (w_pool w)) - entries (w_pool w)) /\ kept_less (w_pool w) (on_timeout now locked (w_pool w)) /\
      h2o_socketpool_is_global (on_timeout now locked (w_pool w)) = h2o_socketpool_is_global (w_pool w)).
    { unfold on_timeout. destruct locked; [|destruct (check_expired_spec now true p0) as ([L C P] & Hk & Hg); split_and!; [by split|exact Hk|exact Hg]].
      split_and!; [|split_and!; [done|done|done|by apply Forall_forall]|done]. pose proof (effect_stay (w_pool w)) as [L C P]. by split. }
    destruct Hx as (Heff & Hk & Hg). pose proof (kept_less_ok _ _ Hk Hp) as Hp'. destruct Hk as (Ht & _).
    destruct (lists_grown w (on_timeout now locked (w_pool w)) H) as [Hreqs Hsocks]; [split_and!; [by rewrite Ht|done|by rewrite Ht]|].
    split; cbn [fst w_pool w_reqs w_socks]; [done|done|done|].
    eapply ledger_effect; [apply H|exact Heff|..]; cbn [w_pool w_reqs w_socks lease_error count_error]; unfold held, connections; cbn [w_pool w_reqs w_socks];
      [intros u; lia|lia|lia].
Qed.

Lemma reaches_ok w w' : world_ok w -> reaches w w' -> world_ok w'.
Proof.
  intros H. induction 1 as [|w1 e w2 res _ IH He Hs]; [done|]. destruct (pool_step_ok w1 e IH He) as (x & E & Hx & _). rewrite Hs in E. by injection E as <-.
Qed.

(** ** Runs in which nothing goes wrong *)

(** No connection is refused, no request is cancelled, and the kept connections are alive. *)
Definition faultless (e : event) : Prop :=
  match e with
  | Connect _ _ _ alive _ => forall en, alive en = true
  | ConnectDone _ ok _ => ok = true
  | CancelRequest _ => False
  | _ => True
  end.

Inductive reaches_clean (w : world) : world -> Prop :=
  | clean_refl : reaches_clean w w
  | clean_step w1 e w2 res : reaches_clean w w1 -> enabled w1 e -> faultless e -> step w1 e = Some (w2, res) -> reaches_clean w w2.

Lemma clean_reaches w w' : reaches_clean w w' -> reaches w w'.
Proof. induction 1; [apply reaches_refl|by eapply reaches_step]. Qed.

Lemma settle_errors w i x le ce w' res : Some (settle w i x le ce) = Some (w', res) -> lease_error w' = le /\ count_error w' = ce.
Proof. destruct x as [p' [| |]]; by intros [= <- <-]. Qed.

Lemma step_errors w e w' res : world_ok w -> enabled w e -> faultless e -> step w e = Some (w', res) ->
  lease_error w' = lease_error w /\ count_error w' = count_error w.
Proof.
  intros H He Hf. destruct e as [url now tl alive starts|i ok starts|i ok starts|i err vf|i|k ex now tl|k|k|now locked]; cbn [step enabled faultless] in *.
  - destruct (connect_ok url now tl alive starts (w_pool w) (wok_pool w H) He) as ([p' r] & E & _ & Hd). rewrite E. cbn [mbind option_bind fst snd] in *.
    rewrite (Hd Hf), Z.add_0_r. intros [= <- <-]. by destruct r.
  - destruct (w_reqs w !! i); [|done]. cbn [mbind option_bind]. destruct (on_getaddr _ _ _ _) as [x|]; [|done]. cbn [mbind option_bind]. apply settle_errors.
  - subst ok. destruct (w_reqs w !! i); [|done]. cbn [mbind option_bind]. destruct (on_connect _ _ _ _) as [x|]; [|done]. cbn [mbind option_bind]. apply settle_errors.
  - destruct (w_reqs w !! i) as [req|]; [|done]. cbn [mbind option_bind]. apply settle_errors.
  - done.
  - destruct (w_socks w !! k); [|done]. by intros [= <- <-].
  - destruct (w_socks w !! k); [|done]. by intros [= <- <-].
  - destruct (w_socks w !! k); [|done]. by intros [= <- <-].
  - by intros [= <- <-].
Qed.

Lemma clean_errors w w' : world_ok w -> reaches_clean w w' -> lease_error w' = lease_error w /\ count_error w' = count_error w.
Proof.
  intros H. induction 1 as [|w1 e w2 res Hr [IH1 IH2] He Hf Hs]; [done|].
  destruct (step_errors w1 e w2 res (reaches_ok _ _ H (clean_reaches _ _ Hr)) He Hf Hs) as [-> ->]. done.
Qed.

(** ** Pools as they are made *)

Definition new_world (p : pool B) : world := World p [] [] (fun _ => 0) 0.

Lemma new_world_ok p : pool_ok p -> count p = 0 -> pooled_count p = 0 -> sockets p = [] -> Forall (fun t => leased_count (tg_load t) = 0) (targets p) ->
  world_ok (new_world p).
Proof.
  intros Hp Hc Hpc Hs Hl. split; [done|constructor|constructor|]. split; cbn [new_world w_pool lease_error count_error].
  - intros u. unfold held, how_many, len, leased_at. simpl. rewrite Forall_lookup in Hl.
    destruct (targets p !! u) as [t|] eqn:E; simpl; [|done]. by rewrite (Hl u t E).
  - unfold connections, entries. cbn [new_world w_pool w_reqs w_socks]. by rewrite Hc, Hs.
  - unfold entries. by rewrite Hpc, Hs.
Qed.
End Run.
