(* ===== verification/SocketpoolSafe.v ===== *)
(** * Pools of connections: properties (lib/common/socketpool.c)

    What holds of every run of a pool, and examples of where its counters go wrong. *)
From S2P Require Import Prelude Strings Url UrlParse Balancer Socketpool SocketpoolOk SocketpoolRun.
From Stdlib Require Import ZArith Lia.
From stdpp Require Import base list numbers option strings.
Open Scope Z_scope.

(** ** Examples *)

Definition url_of (s : bytes) : h2o_url_t := default (Url None None None None 0) (h2o_url_parse s).
Definition target_of (s : bytes) (weight_m1 : Z) : target :=
  default (Target (url_of s) H2O_SOCKETPOOL_TYPE_NAMED (Load 0 0)) (h2o_socketpool_create_target (url_of s) (Some weight_m1)).

Definition one_target : pool round_robin := h2o_socketpool_init_specific [target_of (lit "http://127.0.0.1:8080/") 0] h2o_balancer_create_rr.

(** The world after some events. *)
Fixpoint after {B} `{!Balancer B} (w : world) (es : list event) : option (world (B := B)) :=
  match es with
  | [] => Some w
  | e :: es => '(w, _) ← step w e; after w es
  end.

Definition counters {B} (w : world (B := B)) : list Z * Z * Z :=
  ((fun t => leased_count (tg_load t)) <$> targets (w_pool w), count (w_pool w), pooled_count (w_pool w)).

Definition connect_to (s : bytes) : event := Connect (url_of s) 0 true (fun _ => true) (fun _ => true).

(** A connection that is refused takes [leased_count] and [count] below zero: they are decremented
    by [on_connect] and, through [h2o_socket_close], by [on_close] as well. *)
Example refused_connection_underflows :
  counters <$> after (new_world one_target) [connect_to (lit "http://127.0.0.1:8080/"); ConnectDone 0 false (fun _ => true)]
    = Some ([2 ^ 64 - 1], 2 ^ 64 - 1, 0).
Proof. vm_compute. reflexivity. Qed.

(** So does a request that is cancelled while it connects. *)
Example cancelled_request_underflows :
  counters <$> after (new_world one_target) [connect_to (lit "http://127.0.0.1:8080/"); CancelRequest 0] = Some ([2 ^ 64 - 1], 0, 0).
Proof. vm_compute. reflexivity. Qed.

(** The least-connection balancer then avoids a target that was refused once, although the other
    has nine connections. *)
Example refused_target_avoided :
  fst <$> select_ h2o_balancer_create_lc [Load 0 (2 ^ 64 - 1); Load 0 9] [false; false] = Some 1%nat.
Proof. vm_compute. reflexivity. Qed.

(** A kept connection that is found dead stays in [count]. *)
Example dead_connection_counted :
  counters <$> after (new_world one_target)
    [connect_to (lit "http://127.0.0.1:8080/"); ConnectDone 0 true (fun _ => true); Return 0 true 0 true;
     Connect (url_of (lit "http://127.0.0.1:8080/")) 1 true (fun _ => false) (fun _ => true); ConnectDone 0 true (fun _ => true); Close 0]
    = Some ([0], 1, 0).
Proof. vm_compute. reflexivity. Qed.

Definition global_pool : pool round_robin := h2o_socketpool_init_global.

(** A global pool does not find the target that it made from a URL with upper-case letters, and
    makes another each time. *)
Example upper_case_host_not_found :
  (fun w => length (targets (w_pool w))) <$> after (new_world global_pool) (repeat (connect_to (lit "http://Example.com/")) 5) = Some 5%nat /\
  (fun w => length (targets (w_pool w))) <$> after (new_world global_pool) (repeat (connect_to (lit "http://example.com/")) 5) = Some 1%nat.
Proof. vm_compute. done. Qed.

(** ** Properties *)

(** What holds of a pool as it is set up. *)
Definition set_up {B} `{!Balancer B, !BalancerOk B} (p : pool B) : Prop :=
  pool_ok p /\ count p = 0 /\ pooled_count p = 0 /\ sockets p = [] /\ Forall (fun t => leased_count (tg_load t) = 0) (targets p).

Lemma set_up_ok {B} `{!Balancer B, !BalancerOk B} (p : pool B) : set_up p -> world_ok (new_world p).
Proof. intros (H1 & H2 & H3 & H4 & H5). by apply new_world_ok. Qed.

(** C11: a request for a connection tries every target before it fails, and none twice.  With any
    balancer that keeps its promise, whatever events came before, in whatever order (other
    requests, connections given back, timers), the next event goes through: no assertion fails,
    that on a target that was tried before included, and no request runs out of targets to choose
    from.  A request for which no connection could be made is reported as failed only when all
    targets were tried. *)
Theorem connect_tries_all {B} `{!Balancer B, !BalancerOk B} (p : pool B) w e :
  set_up p -> reaches (new_world p) w -> enabled w e ->
  exists w' res, step w e = Some (w', res) /\ reported e w' res.
Proof.
  intros Hp Hr He. apply set_up_ok in Hp. pose proof (reaches_ok _ _ Hp Hr) as Hw.
  destruct (pool_step_ok w e Hw He) as ([w' res] & E & _ & H). by exists w', res.
Qed.

(** C12: the books of a pool.  In every run, [pooled_count] is the number of connections that are kept;
    the [leased_count] of a target is the number of requests and connections that it holds, and
    [count] that of all requests and connections, kept ones included, each up to the errors that
    [step] writes down: a refused connection and a request cancelled after [h2o_socket_connect]
    are subtracted twice, a request cancelled before is not subtracted from [count], and a kept
    connection that is found dead is not either (all modulo 2^64).  In a run without such events,
    whatever else happens, both counters are right. *)
Theorem pool_ledger {B} `{!Balancer B, !BalancerOk B} (p : pool B) w :
  set_up p -> reaches (new_world p) w ->
  (forall t, congr (leased_at (w_pool w) t) (held w t + lease_error w t)) /\
  congr (count (w_pool w)) (connections w + count_error w) /\ congr (pooled_count (w_pool w)) (entries (w_pool w)) /\
  (reaches_clean (new_world p) w -> (forall t, congr (leased_at (w_pool w) t) (held w t)) /\ congr (count (w_pool w)) (connections w)).
Proof.
  intros Hp Hr. apply set_up_ok in Hp. destruct (wok_ledger w (reaches_ok _ _ Hp Hr)) as [L C P]. split_and!; [done|done|done|].
  intros Hc. destruct (clean_errors _ _ Hp Hc) as [El Ec]. rewrite Ec, Z.add_0_r in C. split; [|done].
  intros t. specialize (L t). by rewrite El, Z.add_0_r in L.
Qed.

(** ** Witnesses *)

Definition two_targets : pool least_conn :=
  h2o_socketpool_init_specific [target_of (lit "http://127.0.0.1:8080/") 0; target_of (lit "http://10.0.0.1:8080/") 3] h2o_balancer_create_lc.

Lemma two_targets_set_up : set_up two_targets.
Proof.
  split_and!; [|reflexivity|reflexivity|reflexivity|repeat constructor].
  split; [intros b _; split_and!; [exact I|discriminate|reflexivity]|repeat constructor; simpl; lia|constructor|].
  repeat constructor; exists H2O_URL_SCHEME_HTTP; (split; [reflexivity|discriminate]).
Defined.

(** One connection is refused, the other target is tried. *)
Definition tried_both : list event := [connect_to (lit "http://127.0.0.1:8080/"); ConnectDone 0 false (fun _ => true)].

Definition both_world : world (B := least_conn) := default (new_world two_targets) (after (new_world two_targets) tried_both).

Lemma both_reached : reaches (new_world two_targets) both_world.
Proof.
  eapply (reaches_step _ _ (ConnectDone 0 false (fun _ => true))).
  - eapply (reaches_step _ _ (connect_to (lit "http://127.0.0.1:8080/"))); [apply reaches_refl|intros Hg; discriminate Hg|vm_compute; reflexivity].
  - eexists. split; reflexivity.
  - vm_compute. reflexivity.
Defined.

Lemma connect_tries_all_witness :
  exists w' res, step both_world (ConnectDone 0 false (fun _ => true)) = Some (w', res) /\
    reported (ConnectDone 0 false (fun _ => true)) w' res /\ selected_target <$> w_reqs both_world !! 0%nat = Some 1%nat.
Proof.
  destruct (connect_tries_all two_targets both_world (ConnectDone 0 false (fun _ => true))) as (w' & res & E & H).
  - exact two_targets_set_up.
  - exact both_reached.
  - eexists. split; vm_compute; reflexivity.
  - exists w', res. split; [exact E|]. split; [exact H|vm_compute; reflexivity].
Defined.

Lemma pool_ledger_witness :
  held both_world 0 = 0 /\ held both_world 1 = 1 /\ leased_at (w_pool both_world) 0 = 2 ^ 64 - 1 /\
  congr (leased_at (w_pool both_world) 0) (held both_world 0 + lease_error both_world 0).
Proof.
  split; [vm_compute; reflexivity|]. split; [vm_compute; reflexivity|]. split; [vm_compute; reflexivity|].
  destruct (pool_ledger two_targets both_world) as (H & _); [exact two_targets_set_up|exact both_reached|apply H].
Defined.
