(* ===== verification/Dispatch.v ===== *)
(** * From a request to its handlers (lib/core/request.c, lib/core/config.c)

    Hosts and paths as they are registered, and how a request is bound to one of them and given
    to the handlers.  A host has a name, with a star in front for all names that end alike, a port
    (65535 for that of the scheme) and paths; a path has a list of handlers, known by numbers.
    A handler is known by whether it takes the request ([on_req] returns 0). *)
From S2P Require Import Prelude Strings Url UrlPath UrlParse.
From Stdlib Require Import ZArith Lia.
From stdpp Require Import base list numbers option strings sorting.
Open Scope Z_scope.

Record h2o_pathconf_t := Pathconf {
  pc_path : bytes;
  pc_handlers : list nat }.

Record h2o_hostconf_t := Hostconf {
  hc_host : bytes;
  hc_port : Z;
  hc_hostport : bytes;
  hc_strict_match : bool;
  hc_paths : list h2o_pathconf_t;
  hc_fallback_path : h2o_pathconf_t }.

(** ** Configuration *)

(** [memcmp(x, y, n) < 0], of strings of [n] octets. *)
Fixpoint memcmp_less (x y : bytes) : bool :=
  match x, y with
  | a :: x, b :: y => if a <? b then true else if b <? a then false else memcmp_less x y
  | _, _ => false
  end.

(** The loop that finds the slot, and the insertion there. *)
Fixpoint insert_path (p : h2o_pathconf_t) (paths : list h2o_pathconf_t) : list h2o_pathconf_t :=
  match paths with
  | [] => [p]
  | q :: rest =>
      if len (pc_path q) <? len (pc_path p) then p :: paths
      else if (len (pc_path p) =? len (pc_path q)) && memcmp_less (pc_path p) (pc_path q) then p :: paths
      else q :: insert_path p rest
  end.

Definition h2o_config_register_path (hc : h2o_hostconf_t) (p : h2o_pathconf_t) : h2o_hostconf_t :=
  Hostconf (hc_host hc) (hc_port hc) (hc_hostport hc) (hc_strict_match hc) (insert_path p (hc_paths hc)) (hc_fallback_path hc).

(** [None]: the assertion fails; the inner [None]: the host is there already. *)
Definition h2o_config_register_host (hosts : list h2o_hostconf_t) (host : bytes) (port : Z) (fallback_path : h2o_pathconf_t)
    : option (option (list h2o_hostconf_t)) :=
  if len host =? 0 then None
  else
    let host_lc := h2o_strtolower host in
    if existsb (fun p => bool_decide (hc_host p = host_lc) && (hc_port p =? port)) hosts then Some None
    else
      let hostport :=
        if port =? 65535 then host_lc
        else match memchr host_lc 58 with
             | Some _ => lit "[" ++ host_lc ++ lit "]:" ++ decimal 5 port
             | None => host_lc ++ lit ":" ++ decimal 5 port
             end in
      Some (Some (hosts ++ [Hostconf host_lc port hostport false [] fallback_path])).

(** ** Hosts *)

(** Whether a host is that of a name and a port; with what the star stands for. *)
Definition match_host (hc : h2o_hostconf_t) (hostname : bytes) (port default_port : Z) : option (option bytes) :=
  let hostname_lc := h2o_strcopytolower hostname in
  if (hc_port hc =? port) || ((hc_port hc =? 65535) && (port =? default_port)) then
    if hd 0 (hc_host hc) =? 42 then
      let cmplen := (length (hc_host hc) - 1)%nat in
      if (cmplen <? length hostname)%nat
         && bool_decide (drop 1 (hc_host hc) = drop (length hostname - cmplen) hostname_lc) then
        Some (Some (take (length hostname - cmplen) hostname))
      else None
    else if bool_decide (hc_host hc = hostname_lc) then Some None else None
  else None.

Fixpoint find_host_loop (hosts : list h2o_hostconf_t) (hostname : bytes) (port default_port : Z) : option (h2o_hostconf_t * option bytes) :=
  match hosts with
  | [] => None
  | hc :: hosts =>
      match match_host hc hostname port default_port with
      | Some wildcard => Some (hc, wildcard)
      | None => find_host_loop hosts hostname port default_port
      end
  end.

Definition find_hostconf (hosts : list h2o_hostconf_t) (authority : bytes) (default_port : Z) : option (h2o_hostconf_t * option bytes) :=
  if 65536 <=? len authority then None
  else
    '(hostname, port, _) ← h2o_url_parse_hostport authority;
    let port := if port =? 65535 then default_port else port in
    find_host_loop hosts hostname port default_port.

(** [hosts] has one host at least. *)
Definition find_default_hostconf (hosts : list h2o_hostconf_t) (fallback_host : h2o_hostconf_t) : h2o_hostconf_t :=
  default fallback_host (head (filter (fun hc => hc_strict_match hc = false) hosts)).

(** The host, the authority and what a star stood for. *)
Definition setup_host (hosts : list h2o_hostconf_t) (fallback_host : h2o_hostconf_t) (authority : bytes) (default_port : Z)
    : h2o_hostconf_t * bytes * option bytes :=
  if negb (len authority =? 0) then
    match if (length hosts <? 2)%nat then None else find_hostconf hosts authority default_port with
    | Some (hc, wildcard) => (hc, authority, wildcard)
    | None => (find_default_hostconf hosts fallback_host, authority, None)
    end
  else
    let hc := find_default_hostconf hosts fallback_host in (hc, hc_hostport hc, None).

(** ** Paths *)

(** The condition of [setup_pathconf]. *)
Definition covers (candidate path : bytes) : bool :=
  (len candidate <=? len path) && bool_decide (take (length candidate) path = candidate)
  && ((nth (length candidate - 1) candidate 0 =? 47) || (len path =? len candidate) || (nth (length candidate) path 0 =? 47)).

Definition setup_pathconf (hc : h2o_hostconf_t) (path : bytes) : h2o_pathconf_t :=
  default (hc_fallback_path hc) (head (filter (fun p => covers (pc_path p) path = true) (hc_paths hc))).

(** ** Requests *)

(** The members of [h2o_req_t] that say where a request goes. *)
Record h2o_req_t := Req {
  process_called : bool;
  req_pathconf : option (h2o_hostconf_t * h2o_pathconf_t);
  req_handler : option nat;
  req_authority : bytes;
  req_path_normalized : bytes;
  req_default_port : Z;
  req_has_overrides : bool;
  res_is_delegated : bool;
  remaining_delegations : Z;
  remaining_reprocesses : Z }.

(** What becomes of it: a handler takes it, the answer is 404 or 502, or the proxy takes it. *)
Inductive destination := Taken (handler : nat) | NotFound | TooMany | Proxied.

(** [h2o_init_request], and what the connection reads into the input. *)
Definition h2o_init_request (max_delegations max_reprocesses : Z) : h2o_req_t :=
  Req false None None [] [] 0 false false max_delegations max_reprocesses.

Definition set_pathconf (req : h2o_req_t) (hc : h2o_hostconf_t) (pc : h2o_pathconf_t) : h2o_req_t :=
  Req (process_called req) (Some (hc, pc)) (req_handler req) (req_authority req) (req_path_normalized req) (req_default_port req)
    (req_has_overrides req) (res_is_delegated req) (remaining_delegations req) (remaining_reprocesses req).

Definition set_handler (req : h2o_req_t) (h : option nat) : h2o_req_t :=
  Req (process_called req) (req_pathconf req) h (req_authority req) (req_path_normalized req) (req_default_port req)
    (req_has_overrides req) (res_is_delegated req) (remaining_delegations req) (remaining_reprocesses req).

(** ** Handlers *)

Fixpoint call_handlers (on_req : nat -> bool) (handlers : list nat) (req : h2o_req_t) : destination * h2o_req_t :=
  match handlers with
  | [] => (NotFound, req)
  | h :: handlers =>
      let req := set_handler req (Some h) in
      if on_req h then (Taken h, req) else call_handlers on_req handlers req
  end.

(** [setup_pathconf(req, hostconf)] with the call of the handlers that follows. *)
Definition call_path (on_req : nat -> bool) (hc : h2o_hostconf_t) (req : h2o_req_t) : destination * h2o_req_t :=
  let pc := setup_pathconf hc (req_path_normalized req) in
  call_handlers on_req (pc_handlers pc) (set_pathconf req hc pc).

Section Connection.
(** The hosts of the listener, those of the configuration, and its fallback host. *)
Context (hosts global_hosts : list h2o_hostconf_t) (fallback_host : h2o_hostconf_t).

(** [h2o_req_setup] of the input; [None]: the assertions of [h2o_url_normalize_path]. *)
Definition h2o_req_setup (input_authority input_path : bytes) (default_port : Z) (req : h2o_req_t) : option (h2o_hostconf_t * h2o_req_t) :=
  let '(hc, authority, _) := setup_host hosts fallback_host input_authority default_port in
  n ← h2o_url_normalize_path input_path;
  Some (hc, Req (process_called req) (req_pathconf req) (req_handler req) authority (np_path n) default_port
              (req_has_overrides req) (res_is_delegated req) (remaining_delegations req) (remaining_reprocesses req)).

(** The request gets a path, once. *)
Definition bind_request (input_authority input_path : bytes) (default_port : Z) (req : h2o_req_t) : option (h2o_pathconf_t * h2o_req_t) :=
  match req_pathconf req with
  | Some (_, pc) => Some (pc, req)
  | None =>
      '(hc, req) ← h2o_req_setup input_authority input_path default_port req;
      let pc := setup_pathconf hc (req_path_normalized req) in
      Some (pc, set_pathconf req hc pc)
  end.

Definition h2o_get_first_handler (input_authority input_path : bytes) (default_port : Z) (req : h2o_req_t) : option (option nat * h2o_req_t) :=
  '(pc, req) ← bind_request input_authority input_path default_port req;
  Some (head (pc_handlers pc), req).

Definition h2o_process_request (on_req : nat -> bool) (input_authority input_path : bytes) (default_port : Z) (req : h2o_req_t)
    : option (destination * h2o_req_t) :=
  if process_called req then None
  else
    let req := Req true (req_pathconf req) (req_handler req) (req_authority req) (req_path_normalized req) (req_default_port req)
                 (req_has_overrides req) (res_is_delegated req) (remaining_delegations req) (remaining_reprocesses req) in
    '(pc, req) ← bind_request input_authority input_path default_port req;
    Some (call_handlers on_req (pc_handlers pc) req).

(** The handlers from the current one on.  [None]: the assertion fails. *)
Fixpoint handlers_from (handler : nat) (handlers : list nat) : option (list nat) :=
  match handlers with
  | [] => None
  | h :: rest => if (h =? handler)%nat then Some handlers else handlers_from handler rest
  end.

Definition h2o_delegate_request (on_req : nat -> bool) (req : h2o_req_t) : option (destination * h2o_req_t) :=
  '(_, pc) ← req_pathconf req;
  h ← req_handler req;
  rest ← handlers_from h (pc_handlers pc);
  Some (call_handlers on_req (tail rest) req).

(** ** Processing again *)

Definition process_resolved_request (on_req : nat -> bool) (hosts : list h2o_hostconf_t) (req : h2o_req_t) : destination * h2o_req_t :=
  match if req_has_overrides req then None else find_hostconf hosts (req_authority req) (req_default_port req) with
  | Some (hc, _) => call_path on_req hc req
  | None => (Proxied, req)
  end.

Definition h2o_reprocess_request (on_req : nat -> bool) (authority path : bytes) (default_port : Z) (has_overrides is_delegated : bool)
    (req : h2o_req_t) : option (destination * h2o_req_t) :=
  n ← h2o_url_normalize_path path;
  let delegated := res_is_delegated req || is_delegated in
  let req' d r := Req (process_called req) (req_pathconf req) None authority (np_path n) default_port has_overrides delegated d r in
  let d := remaining_delegations req in
  let r := remaining_reprocesses req in
  if delegated then
    if d =? 0 then Some (TooMany, req' d r)
    else Some (process_resolved_request on_req global_hosts (req' (wrap32 (d - 1)) r))
  else
    if r =? 0 then Some (TooMany, req' d r)
    else Some (process_resolved_request on_req global_hosts (req' d (wrap32 (r - 1)))).

Definition h2o_replay_request (on_req : nat -> bool) (req : h2o_req_t) : option (destination * h2o_req_t) :=
  match req_handler req with
  | Some h =>
      '(_, pc) ← req_pathconf req;
      rest ← handlers_from h (pc_handlers pc);
      Some (call_handlers on_req rest req)
  | None => Some (process_resolved_request on_req hosts req)
  end.

(** ** Runs *)

(** What is done to a request after [h2o_process_request]; the handlers decide anew each time. *)
Inductive op :=
  | Delegate (on_req : nat -> bool)
  | Reprocess (on_req : nat -> bool) (authority path : bytes) (default_port : Z) (has_overrides is_delegated : bool)
  | Replay (on_req : nat -> bool).

Definition run_op (o : op) (req : h2o_req_t) : option (destination * h2o_req_t) :=
  match o with
  | Delegate on_req => h2o_delegate_request on_req req
  | Reprocess on_req a p port ov d => h2o_reprocess_request on_req a p port ov d req
  | Replay on_req => h2o_replay_request on_req req
  end.

Fixpoint run_ops (os : list op) (req : h2o_req_t) : option (list destination * h2o_req_t) :=
  match os with
  | [] => Some ([], req)
  | o :: os =>
      '(d, req) ← run_op o req;
      '(ds, req) ← run_ops os req;
      Some (d :: ds, req)
  end.
End Connection.
