(* ===== verification/DispatchOk.v ===== *)
(** * From a request to its handlers: what is proved (lib/core/request.c, lib/core/config.c)

    The longest path that a request is under wins, in whatever order paths were registered; the
    assertions on handlers hold; a request is processed again only so many times. *)
From S2P Require Import Prelude Strings Url UrlPath UrlParse Dispatch.
From Stdlib Require Import ZArith Lia Sorted.
From stdpp Require Import base list numbers option strings sorting sets.
Open Scope Z_scope.

(** ** The order of the paths *)

Lemma memcmp_less_irrefl x : memcmp_less x x = false.
Proof. induction x as [|a x IH]; simpl; [done|]. rewrite Z.ltb_irrefl. exact IH. Qed.

Lemma memcmp_less_trans x : forall y z, memcmp_less x y = true -> memcmp_less y z = true -> memcmp_less x z = true.
Proof.
  induction x as [|a x IH]; intros [|b y] [|c z]; simpl; try done.
  destruct (Z.ltb_spec a b), (Z.ltb_spec b a), (Z.ltb_spec b c), (Z.ltb_spec c b), (Z.ltb_spec a c), (Z.ltb_spec c a);
    try done; try lia. apply IH.
Qed.

(** [q] may stand before [p]. *)
Definition before (q p : h2o_pathconf_t) : Prop :=
  len (pc_path p) < len (pc_path q) \/ (len (pc_path p) = len (pc_path q) /\ memcmp_less (pc_path p) (pc_path q) = false).

Lemma insert_path_elem p l q : q ∈ insert_path p l <-> q = p \/ q ∈ l.
Proof.
  induction l as [|r l IH]; simpl; [rewrite list_elem_of_singleton; set_solver|].
  repeat case_match; rewrite ?elem_of_cons, ?IH; set_solver.
Qed.

Lemma insert_path_sorted p l : StronglySorted before l -> StronglySorted before (insert_path p l).
Proof.
  induction 1 as [|q l Hl IH Hq]; simpl; [repeat constructor|]. rewrite Forall_forall in Hq.
  destruct (Z.ltb_spec (len (pc_path q)) (len (pc_path p))) as [Hlt|Hge]; simpl.
  { constructor; [constructor; [done|by rewrite Forall_forall]|]. rewrite Forall_forall.
    intros r [->|Hr]%elem_of_cons; left; [done|]. destruct (Hq r Hr) as [|[]]; lia. }
  destruct (Z.eqb_spec (len (pc_path p)) (len (pc_path q))) as [He|Hne]; simpl;
    [destruct (memcmp_less (pc_path p) (pc_path q)) eqn:Hm|].
  - constructor; [constructor; [done|by rewrite Forall_forall]|]. rewrite Forall_forall.
    assert (Hx : forall x, memcmp_less x (pc_path q) = false -> memcmp_less x (pc_path p) = false).
    { intros x Hx. destruct (memcmp_less x (pc_path p)) eqn:E; [|done]. by rewrite (memcmp_less_trans _ _ _ E Hm) in Hx. }
    intros r [->|Hr]%elem_of_cons; [right; split; [done|apply Hx, memcmp_less_irrefl]|].
    destruct (Hq r Hr) as [|[? ?]]; [left; lia|right; split; [lia|by apply Hx]].
  - constructor; [done|]. rewrite Forall_forall. intros r [->|Hr]%insert_path_elem; [by right|by apply Hq].
  - constructor; [done|]. rewrite Forall_forall. intros r [->|Hr]%insert_path_elem; [left; lia|by apply Hq].
Qed.

(** Paths with the same text stay in the order they were registered in. *)
Definition same (s : bytes) (p : h2o_pathconf_t) : Prop := pc_path p = s.

#[local] Instance same_dec s p : Decision (same s p) := decide (pc_path p = s).

Lemma filter_same_nil s q l : StronglySorted before (q :: l) ->
  (len (pc_path q) < len s \/ (len s = len (pc_path q) /\ memcmp_less s (pc_path q) = true)) -> filter (same s) (q :: l) = [].
Proof.
  intros Hs Hlt. apply StronglySorted_inv in Hs as [_ Hq]. rewrite Forall_forall in Hq.
  destruct (filter (same s) (q :: l)) as [|r rs] eqn:E; [done|exfalso].
  assert (Hr : r ∈ filter (same s) (q :: l)) by (rewrite E; left). apply list_elem_of_filter in Hr as [<- Hr].
  apply elem_of_cons in Hr as [->|Hr]; [rewrite memcmp_less_irrefl in Hlt; intuition (lia || done)|].
  destruct (Hq r Hr) as [|[? Hf]]; [lia|]. destruct Hlt as [|[_ Ht]]; [lia|congruence].
Qed.

Lemma insert_path_stable p s l : StronglySorted before l -> filter (same s) (insert_path p l) = filter (same s) l ++ filter (same s) [p].
Proof.
  induction 1 as [|q l Hl IH Hq]; [done|]. cbn [insert_path].
  assert (Hnil : (len (pc_path q) < len (pc_path p) \/ (len (pc_path p) = len (pc_path q) /\ memcmp_less (pc_path p) (pc_path q) = true)) ->
    filter (same s) (p :: q :: l) = filter (same s) (q :: l) ++ filter (same s) [p]).
  { intros Hlt. rewrite filter_cons. destruct (decide (same s p)) as [<-|Hn].
    - rewrite (filter_same_nil (pc_path p) q l) by (done || by constructor). rewrite filter_cons_True by done. done.
    - rewrite (filter_cons_False _ p) by done. by rewrite app_nil_r. }
  destruct (Z.ltb_spec (len (pc_path q)) (len (pc_path p))); [apply Hnil; by left|].
  destruct (Z.eqb_spec (len (pc_path p)) (len (pc_path q))); simpl; [destruct (memcmp_less _ _) eqn:Hm; [apply Hnil; by right|]|];
    rewrite !(filter_cons _ q), IH; by destruct (decide _).
Qed.

(** Paths registered one after another. *)
Definition register_all (hc : h2o_hostconf_t) (ps : list h2o_pathconf_t) : h2o_hostconf_t := foldl h2o_config_register_path hc ps.

Lemma register_all_paths ps : forall hc, StronglySorted before (hc_paths hc) ->
  StronglySorted before (hc_paths (register_all hc ps)) /\
  (forall s, filter (same s) (hc_paths (register_all hc ps)) = filter (same s) (hc_paths hc) ++ filter (same s) ps) /\
  hc_fallback_path (register_all hc ps) = hc_fallback_path hc.
Proof.
  induction ps as [|p ps IH]; intros hc Hs; cbn [register_all foldl].
  - split_and!; [done| |done]. intros s. by rewrite app_nil_r.
  - destruct (IH (h2o_config_register_path hc p)) as (H1 & H2 & H3); [by apply insert_path_sorted|]. split_and!; [done| |done].
    intros s. unfold register_all in H2. rewrite H2. cbn [h2o_config_register_path hc_paths]. rewrite insert_path_stable by done.
    rewrite <- app_assoc. f_equal. by rewrite <- filter_app.
Qed.

Lemma elem_same p (l : list h2o_pathconf_t) s : pc_path p = s -> p ∈ l <-> p ∈ filter (same s) l.
Proof. intros <-. rewrite list_elem_of_filter. unfold same. tauto. Qed.

Lemma registered_elem hc ps p : hc_paths hc = [] -> p ∈ hc_paths (register_all hc ps) <-> p ∈ ps.
Proof.
  intros He. assert (Hs : StronglySorted before (hc_paths hc)) by (rewrite He; constructor).
  destruct (register_all_paths ps hc Hs) as (_ & Hf & _). specialize (Hf (pc_path p)). rewrite He in Hf. rewrite filter_nil, app_nil_l in Hf.
  rewrite (elem_same p ps _ eq_refl), <- Hf. by apply elem_same.
Qed.

(** ** Being under a path *)

(** A path is under another: the same, or below it. *)
Definition under (conf path : bytes) : Prop :=
  exists rest, path = conf ++ rest /\ (last conf = Some 47 \/ rest = [] \/ head rest = Some 47).

Lemma covers_spec conf path : conf <> [] -> covers conf path = true <-> under conf path.
Proof.
  intros Hne. destruct conf as [|c conf _] using rev_ind; [done|]. clear Hne. unfold covers, under, len.
  rewrite last_snoc, length_app. simpl. rewrite Nat.add_sub, app_nth2, Nat.sub_diag by lia. simpl.
  rewrite !andb_true_iff, !orb_true_iff, bool_decide_eq_true, Z.leb_le, !Z.eqb_eq. split.
  - intros [[Hlen Ht] Hor]. exists (drop (length conf + 1) path). rewrite <- Ht. split; [by rewrite take_drop|].
    destruct Hor as [[->|Hl]|Hs]; [by left|right; left; apply drop_ge; lia|right; right].
    destruct (drop (length conf + 1) path) as [|d r] eqn:E.
    + apply (f_equal length) in E. rewrite length_drop in E. simpl in E. rewrite nth_overflow in Hs by lia. done.
    + rewrite <- (take_drop (length conf + 1) path), E, app_nth2 in Hs by (rewrite length_take; lia).
      rewrite length_take, Nat.min_l in Hs by lia. rewrite Nat.sub_diag in Hs. simpl in Hs. by subst d.
  - intros (rest & -> & Hor). rewrite !length_app. simpl. split_and!; [lia| |].
    + rewrite take_app_length' by (rewrite length_app; simpl; lia). done.
    + destruct Hor as [[= ->]|[->|Hh]]; [by left; left|left; right; simpl; lia|right].
      destruct rest as [|d rest]; [done|]. injection Hh as ->. rewrite app_nth2 by (rewrite length_app; simpl; lia).
      rewrite length_app. simpl. by rewrite Nat.sub_diag.
Qed.

Lemma filter_head_split {A} (P : A -> Prop) `{!forall x, Decision (P x)} (l : list A) :
  match head (filter P l) with
  | None => forall x, x ∈ l -> ~ P x
  | Some x => exists l1 l2, l = l1 ++ x :: l2 /\ P x /\ forall y, y ∈ l1 -> ~ P y
  end.
Proof.
  induction l as [|x l IH]; simpl; [intros x Hx; by apply elem_of_nil in Hx|]. rewrite filter_cons. destruct (decide (P x)) as [Hx|Hx].
  - exists [], l. split_and!; [done|done|]. intros y Hy. by apply elem_of_nil in Hy.
  - destruct (head (filter P l)) as [y|].
    + destruct IH as (l1 & l2 & -> & Hy & Hl1). exists (x :: l1), l2. split_and!; [done|done|].
      intros z [->|Hz]%elem_of_cons; [done|by apply Hl1].
    + intros y [->|Hy]%elem_of_cons; [done|by apply IH].
Qed.

(** The path that a request gets is one that it is under, when there is one. *)
Lemma setup_pathconf_under hc path : Forall (fun p => pc_path p <> []) (hc_paths hc) ->
  (setup_pathconf hc path = hc_fallback_path hc /\ forall p, p ∈ hc_paths hc -> ~ under (pc_path p) path) \/
  (exists l1 l2, hc_paths hc = l1 ++ setup_pathconf hc path :: l2 /\ under (pc_path (setup_pathconf hc path)) path /\
     forall p, p ∈ l1 -> ~ under (pc_path p) path).
Proof.
  intros Hne. rewrite Forall_forall in Hne. unfold setup_pathconf.
  pose proof (filter_head_split (fun p => covers (pc_path p) path = true) (hc_paths hc)) as H.
  destruct (head _) as [pc|]; simpl; [right|left].
  - destruct H as (l1 & l2 & E & Hpc & Hl1). exists l1, l2. split_and!; [done| |].
    + apply covers_spec; [|done]. apply Hne. rewrite E. set_solver.
    + intros p Hp Hu. apply (Hl1 p Hp), covers_spec; [|done]. apply Hne. rewrite E. set_solver.
  - split; [done|]. intros p Hp Hu. apply (H p Hp), covers_spec; [|done]. by apply Hne.
Qed.

(** ** Handlers *)

Lemma call_handlers_keeps on_req hs : forall req d req', call_handlers on_req hs req = (d, req') ->
  req_pathconf req' = req_pathconf req /\ remaining_delegations req' = remaining_delegations req /\
  remaining_reprocesses req' = remaining_reprocesses req /\ d <> TooMany /\
  (req_handler req' = req_handler req \/ exists h, req_handler req' = Some h /\ h ∈ hs).
Proof.
  induction hs as [|h hs IH]; intros req d req'; cbn [call_handlers]; [intros [= <- <-]; split_and!; auto; done|].
  destruct (on_req h); [intros [= <- <-]; split_and!; try done; right; exists h; split; [done|left]|].
  intros (H1 & H2 & H3 & Hd & H4)%IH. split_and!; try done. simpl in H4. right.
  destruct H4 as [->|(h' & -> & Hh')]; [exists h; split; [done|left]|exists h'; split; [done|by right]].
Qed.

Lemma handlers_from_spec h hs : h ∈ hs -> exists l, handlers_from h hs = Some (h :: l) /\ forall x, x ∈ h :: l -> x ∈ hs.
Proof.
  induction hs as [|h' hs IH]; intros Hh; [by apply elem_of_nil in Hh|]. simpl. destruct (Nat.eqb_spec h' h) as [->|Hne]; [by exists hs|].
  apply elem_of_cons in Hh as [?|Hh]; [congruence|]. destruct (IH Hh) as (l & -> & Hl). exists l. split; [done|].
  intros x Hx. right. by apply Hl.
Qed.

(** The current handler is one of those of the request's path. *)
Definition placed (req : h2o_req_t) : Prop :=
  forall h, req_handler req = Some h -> exists hc pc, req_pathconf req = Some (hc, pc) /\ h ∈ pc_handlers pc.

Lemma call_handlers_placed on_req hs req hc pc : req_pathconf req = Some (hc, pc) -> (forall h, h ∈ hs -> h ∈ pc_handlers pc) ->
  placed req -> placed (call_handlers on_req hs req).2.
Proof.
  intros Hpc Hhs Hp h Hh. destruct (call_handlers on_req hs req) as [d req'] eqn:E. simpl in *.
  apply call_handlers_keeps in E as (E & _ & _ & _ & Hor). rewrite E. destruct Hor as [Hs|(h' & Hs & Hin)].
  - apply Hp. congruence.
  - exists hc, pc. split; [done|]. apply Hhs. congruence.
Qed.

Lemma call_path_placed on_req hc req : req_handler req = None -> placed (call_path on_req hc req).2.
Proof.
  intros Hn. unfold call_path. eapply call_handlers_placed; [done|done|]. intros h Hh. simpl in Hh. congruence.
Qed.

Lemma resolved_placed on_req hosts req : req_handler req = None -> placed (process_resolved_request on_req hosts req).2.
Proof.
  intros Hn. unfold process_resolved_request. destruct (if req_has_overrides req then None else find_hostconf hosts _ _) as [[hc w]|]; [by apply call_path_placed|].
  intros h Hh. simpl in Hh. congruence.
Qed.

Lemma resolved_keeps on_req hosts req d req' : process_resolved_request on_req hosts req = (d, req') ->
  remaining_delegations req' = remaining_delegations req /\ remaining_reprocesses req' = remaining_reprocesses req /\ d <> TooMany.
Proof.
  unfold process_resolved_request, call_path. destruct (if req_has_overrides req then None else find_hostconf hosts _ _) as [[hc w]|]; [|intros [= <- <-]; by split_and!].
  intros (_ & H1 & H2 & H3 & _)%call_handlers_keeps. by split_and!.
Qed.

Section Run.
Context (hosts global_hosts : list h2o_hostconf_t) (fallback_host : h2o_hostconf_t).

Lemma process_placed on_req authority path port req :
  process_called req = false -> req_handler req = None -> succeeds (h2o_process_request hosts fallback_host on_req authority path port req)
    (fun r => placed r.2).
Proof.
  intros Hc Hn. unfold h2o_process_request, bind_request, h2o_req_setup. rewrite Hc. cbn [req_pathconf].
  destruct (req_pathconf req) as [[hc pc]|].
  - cbn [mbind option_bind]. apply succeeds_some. eapply call_handlers_placed; [done|done|]. intros h Hh. simpl in Hh. congruence.
  - destruct (setup_host _ _ _ _) as [[hc a] w]. destruct (normalize_ok path) as (n & -> & _). cbn [mbind option_bind].
    apply succeeds_some. eapply call_handlers_placed; [done|done|]. intros h Hh. simpl in Hh. congruence.
Qed.

(** Only a request that a handler has seen is handed on to the next. *)
Definition allowed (o : op) (req : h2o_req_t) : Prop :=
  match o with Delegate _ => req_handler req <> None | _ => True end.

Lemma run_op_placed o req : placed req -> allowed o req -> succeeds (run_op hosts global_hosts o req) (fun r => placed r.2).
Proof.
  intros Hp Ha. destruct o as [on_req|on_req a p port ov d|on_req]; cbn [run_op allowed] in *.
  - unfold h2o_delegate_request. destruct (req_handler req) as [h|] eqn:Eh; [|done].
    destruct (Hp h Eh) as (hc & pc & Epc & Hh). rewrite Epc. cbn [mbind option_bind]. destruct (handlers_from_spec _ _ Hh) as (l & -> & Hl).
    cbn [mbind option_bind tail]. apply succeeds_some. eapply call_handlers_placed; [done| |done]. intros x Hx. apply Hl. by right.
  - unfold h2o_reprocess_request. destruct (normalize_ok p) as (n & -> & _). cbn [mbind option_bind].
    repeat case_match; apply succeeds_some; try (by apply resolved_placed); intros h Hh; done.
  - unfold h2o_replay_request. destruct (req_handler req) as [h|] eqn:Eh; [|by apply succeeds_some, resolved_placed].
    destruct (Hp h Eh) as (hc & pc & Epc & Hh). rewrite Epc. cbn [mbind option_bind]. destruct (handlers_from_spec _ _ Hh) as (l & -> & Hl).
    cbn [mbind option_bind]. apply succeeds_some. by eapply call_handlers_placed.
Qed.

Lemma run_ops_placed os : forall req ds req', placed req -> run_ops hosts global_hosts os req = Some (ds, req') -> placed req'.
Proof.
  induction os as [|o os IH]; intros req ds req' Hp; cbn [run_ops]; [by intros [= <- <-]|].
  destruct (run_op _ _ o req) as [[d req1]|] eqn:E; [|done]. cbn [mbind option_bind].
  destruct (run_ops _ _ os req1) as [[ds' req2]|] eqn:E'; [|done]. intros [= <- <-]. eapply IH; [|exact E'].
  assert (Ha : allowed o req).
  { destruct o as [f| |]; simpl; [|done..]. intros Hn. simpl in E. unfold h2o_delegate_request in E. rewrite Hn in E.
    by destruct (req_pathconf req) as [[hc pc]|]. }
  destruct (run_op_placed o req Hp Ha) as (r & Er & Hr). rewrite E in Er. by injection Er as <-.
Qed.

(** ** Processing again *)

Definition is_reprocess (o : op) : bool := match o with Reprocess _ _ _ _ _ _ => true | _ => false end.
Definition is_too_many (d : destination) : bool := match d with TooMany => true | _ => false end.

(** What is left to be done again. *)
Definition budget (req : h2o_req_t) : Z := remaining_delegations req + remaining_reprocesses req.

Definition counters_ok (req : h2o_req_t) : Prop :=
  0 <= remaining_delegations req < 2 ^ 32 /\ 0 <= remaining_reprocesses req < 2 ^ 32.

Lemma run_op_budget o req d req' : counters_ok req -> run_op hosts global_hosts o req = Some (d, req') ->
  counters_ok req' /\ budget req' = budget req - (if is_reprocess o && negb (is_too_many d) then 1 else 0).
Proof.
  intros Hc. assert (Hw : forall x, 0 <= x < 2 ^ 32 -> x <> 0 -> wrap32 (x - 1) = x - 1) by (intros x ? ?; unfold wrap32; apply Z.mod_small; lia).
  destruct o as [on_req|on_req a p port ov dl|on_req]; cbn [run_op is_reprocess andb].
  - unfold h2o_delegate_request. destruct (req_pathconf req) as [[hc pc]|], (req_handler req); try done. cbn [mbind option_bind].
    destruct (handlers_from _ _); [|done]. cbn [mbind option_bind]. intros [= (_ & H1 & H2 & _)%call_handlers_keeps].
    unfold counters_ok, budget. rewrite H1, H2. split; [done|lia].
  - unfold h2o_reprocess_request. destruct (h2o_url_normalize_path p); [|done]. cbn [mbind option_bind]. destruct Hc as [Hd Hr].
    destruct (_ || _); [destruct (Z.eqb_spec (remaining_delegations req) 0)|destruct (Z.eqb_spec (remaining_reprocesses req) 0)].
    1, 3: intros [= <- <-]; unfold counters_ok, budget; simpl; split; [done|lia].
    all: intros [= (H1 & H2 & H3)%resolved_keeps]; unfold counters_ok, budget; rewrite H1, H2; simpl; rewrite Hw by done;
      destruct d; try done; simpl; split; lia.
  - unfold h2o_replay_request. destruct (req_handler req).
    + destruct (req_pathconf req) as [[hc pc]|]; [|done]. cbn [mbind option_bind].
      destruct (handlers_from _ _); [|done]. cbn [mbind option_bind]. intros [= (_ & H1 & H2 & _)%call_handlers_keeps].
      unfold counters_ok, budget. rewrite H1, H2. split; [done|lia].
    + intros [= (H1 & H2 & _)%resolved_keeps]. unfold counters_ok, budget. rewrite H1, H2. split; [done|lia].
Qed.

Lemma run_ops_budget os : forall req ds req', counters_ok req -> run_ops hosts global_hosts os req = Some (ds, req') ->
  how_many is_reprocess os <= how_many is_too_many ds + budget req.
Proof.
  induction os as [|o os IH]; intros req ds req' Hc; cbn [run_ops].
  { intros [= <- <-]. unfold how_many, budget, counters_ok, len in *. simpl. lia. }
  destruct (run_op _ _ o req) as [[d req1]|] eqn:E; [|done]. cbn [mbind option_bind].
  destruct (run_ops _ _ os req1) as [[ds' req2]|] eqn:E'; [|done]. intros [= <- <-].
  apply run_op_budget in E as [Hc' Hb]; [|done]. specialize (IH _ _ _ Hc' E'). rewrite !how_many_cons.
  destruct (is_reprocess o), (is_too_many d); simpl in *; lia.
Qed.
End Run.

Lemma process_counters hosts fallback_host on_req authority path port req d req' :
  h2o_process_request hosts fallback_host on_req authority path port req = Some (d, req') ->
  remaining_delegations req' = remaining_delegations req /\ remaining_reprocesses req' = remaining_reprocesses req.
Proof.
  unfold h2o_process_request, bind_request, h2o_req_setup. destruct (process_called req); [done|]. cbn [req_pathconf].
  destruct (req_pathconf req) as [[hc pc]|]; [|destruct (setup_host _ _ _ _) as [[hc a] w], (h2o_url_normalize_path path); [|done]];
    cbn [mbind option_bind]; intros [= (_ & H1 & H2 & _)%call_handlers_keeps]; by split.
Qed.

(** ** Requests under the path of their handlers *)

Lemma find_host_loop_elem hosts name port dport hc w : find_host_loop hosts name port dport = Some (hc, w) -> hc ∈ hosts.
Proof.
  induction hosts as [|h hosts IH]; simpl; [done|]. destruct (match_host _ _ _ _); [intros [= <- _]; left|right; by apply IH].
Qed.

Lemma find_default_elem hosts fallback_host : find_default_hostconf hosts fallback_host ∈ fallback_host :: hosts.
Proof.
  unfold find_default_hostconf. pose proof (filter_head_split (fun hc => hc_strict_match hc = false) hosts) as H.
  destruct (head _); simpl; [|left]. destruct H as (l1 & l2 & -> & _). set_solver.
Qed.

Lemma setup_host_elem hosts fallback_host authority port hc a w :
  setup_host hosts fallback_host authority port = (hc, a, w) -> hc ∈ fallback_host :: hosts.
Proof.
  pose proof (find_default_elem hosts fallback_host) as Hd. unfold setup_host. destruct (negb _); [|intros [= <- _ _]; done].
  destruct (_ <? 2)%nat; [intros [= <- _ _]; done|]. destruct (find_hostconf _ _ _) as [[hc' w']|] eqn:E; intros [= <- _ _]; [|done].
  unfold find_hostconf in E. destruct (_ <=? _); [done|]. destruct (h2o_url_parse_hostport authority) as [[[name p] r]|]; [|done].
  cbn [mbind option_bind] in E. apply find_host_loop_elem in E. by right.
Qed.

(** A request that is bound to a path other than a fallback is under it. *)
Lemma bound_under hosts fallback_host authority path port md mr pc req :
  Forall (fun hc => pc_path (hc_fallback_path hc) = []) (fallback_host :: hosts) -> pc_path pc <> [] ->
  bind_request hosts fallback_host authority path port (h2o_init_request md mr) = Some (pc, req) ->
  under (pc_path pc) (req_path_normalized req) /\ exists n, h2o_url_normalize_path path = Some n /\ req_path_normalized req = np_path n.
Proof.
  intros Hf Hne. unfold bind_request, h2o_req_setup. cbn [h2o_init_request req_pathconf].
  destruct (setup_host _ _ _ _) as [[hc a] w] eqn:Eh. apply setup_host_elem in Eh.
  destruct (h2o_url_normalize_path path) as [n|]; [|done]. cbn [mbind option_bind]. intros [= Hpc <-]. simpl in *. split; [|by exists n].
  rewrite Forall_forall in Hf. specialize (Hf hc Eh). unfold setup_pathconf in Hpc.
  pose proof (filter_head_split (fun p => covers (pc_path p) (np_path n) = true) (hc_paths hc)) as H.
  destruct (head _) as [p|]; simpl in Hpc; [|congruence]. subst p. destruct H as (_ & _ & _ & H & _). by apply covers_spec.
Qed.

(** With the slash that [h2o_strdup_slashed] adds, it is a prefix. *)
Lemma under_slashed conf path : under conf path -> len (h2o_strdup_slashed conf) <= len path -> exists rest, path = h2o_strdup_slashed conf ++ rest.
Proof.
  intros (rest & -> & Hor) Hl. unfold h2o_strdup_slashed in *. destruct (last conf) as [c|]; [|by exists rest].
  destruct (Z.eqb_spec c 47) as [->|Hc]; simpl in *; [by exists rest|]. destruct Hor as [[=]|[->|Hh]]; [done| |].
  - unfold len in Hl. rewrite !length_app in Hl. simpl in Hl. lia.
  - destruct rest as [|d rest]; [done|]. injection Hh as ->. exists rest. by rewrite <- app_assoc.
Qed.

(** ** Properties *)

(** C16: the longest path wins.  However the paths of a host were registered, a request gets the
    longest of those that it is under, and of those with the same text the one that was registered
    first; it gets the fallback of the host exactly when it is under none of them. *)
Theorem longest_path_wins hc ps path :
  hc_paths hc = [] -> Forall (fun p => pc_path p <> []) ps ->
  let pc := setup_pathconf (register_all hc ps) path in
  (pc = hc_fallback_path hc /\ forall p, p ∈ ps -> ~ under (pc_path p) path) \/
  (under (pc_path pc) path /\ (forall p, p ∈ ps -> under (pc_path p) path -> len (pc_path p) <= len (pc_path pc)) /\
   head (filter (same (pc_path pc)) ps) = Some pc).
Proof.
  intros He Hne pc. assert (Hs : StronglySorted before (hc_paths hc)) by (rewrite He; constructor).
  destruct (register_all_paths ps hc Hs) as (Hsort & Hstable & Hfb).
  assert (Hin : forall p, p ∈ hc_paths (register_all hc ps) <-> p ∈ ps) by (intros p; by apply registered_elem).
  destruct (setup_pathconf_under (register_all hc ps) path) as [[E H]|(l1 & l2 & E & Hu & Hl1)].
  - rewrite Forall_forall in Hne |- *. intros p Hp. by apply Hne, Hin.
  - left. split; [by rewrite <- Hfb|]. intros p Hp. by apply H, Hin.
  - right. fold pc in E, Hu. rewrite E in Hin, Hsort. split_and!; [done| |].
    + intros p Hp Hpu. apply Hin, elem_of_app in Hp as [Hp|Hp]; [by destruct (Hl1 p Hp)|]. apply elem_of_cons in Hp as [->|Hp]; [done|].
      apply StronglySorted_app_1_r, StronglySorted_inv in Hsort as [_ Hf]. rewrite Forall_forall in Hf. destruct (Hf p Hp) as [|[]]; lia.
    + specialize (Hstable (pc_path pc)). rewrite He, filter_nil, app_nil_l in Hstable. rewrite <- Hstable, E, filter_app.
      assert (Hnil : filter (same (pc_path pc)) l1 = []).
      { destruct (filter _ l1) as [|q qs] eqn:Eq; [done|]. assert (Hq : q ∈ filter (same (pc_path pc)) l1) by (rewrite Eq; left).
        apply list_elem_of_filter in Hq as [Hq Hql]. destruct (Hl1 q Hql). unfold same in Hq. by rewrite Hq. }
      rewrite Hnil, filter_cons_True by done. done.
Qed.

(** C17: no assertion on handlers fails.  A fresh request is processed, whatever its authority and its
    target are; and after any further delegations, replays and reprocessings, with handlers that
    decide as they like, the current handler is one of those of the request's path, so that the
    next step goes through (the step to the next handler, once a handler has seen the request). *)
Theorem dispatch_safe hosts global_hosts fallback_host on_req authority path port md mr :
  exists d req, h2o_process_request hosts fallback_host on_req authority path port (h2o_init_request md mr) = Some (d, req) /\
    forall os ds req', run_ops hosts global_hosts os req = Some (ds, req') ->
      placed req' /\ forall o, allowed o req' -> exists d' req'', run_op hosts global_hosts o req' = Some (d', req'') /\ placed req''.
Proof.
  destruct (process_placed hosts fallback_host on_req authority path port (h2o_init_request md mr)) as ([d req] & E & Hp); [done|done|].
  exists d, req. split; [done|]. intros os ds req' Hr. assert (Hp' : placed req') by (by eapply run_ops_placed). split; [done|].
  intros o Ha. destruct (run_op_placed hosts global_hosts o req' Hp' Ha) as ([d' req''] & E' & Hp''). by exists d', req''.
Qed.

(** C18: a request does not go round for ever.  In any run that follows the processing of a fresh
    request, all but [max_delegations] + [max_reprocesses] of the calls of [h2o_reprocess_request]
    end in the answer 502. *)
Theorem reprocess_bounded hosts global_hosts fallback_host on_req authority path port md mr d req os ds req' :
  0 <= md < 2 ^ 32 -> 0 <= mr < 2 ^ 32 ->
  h2o_process_request hosts fallback_host on_req authority path port (h2o_init_request md mr) = Some (d, req) ->
  run_ops hosts global_hosts os req = Some (ds, req') ->
  how_many is_reprocess os - how_many is_too_many ds <= md + mr.
Proof.
  intros Hd Hr [E1 E2]%process_counters H. apply run_ops_budget in H; [unfold budget in H; rewrite E1, E2 in H; simpl in H; lia|].
  unfold counters_ok. by rewrite E1, E2.
Qed.

(** ** Witnesses *)

Definition sample_host : h2o_hostconf_t := Hostconf (lit "example.com") 65535 (lit "example.com") false [] (Pathconf [] []).

Definition sample_paths : list h2o_pathconf_t :=
  [Pathconf (lit "/") [0%nat]; Pathconf (lit "/files") [1%nat; 2%nat]; Pathconf (lit "/files/img/") [3%nat]; Pathconf (lit "/files") [4%nat]].

Definition path_for (path : bytes) : list nat := pc_handlers (setup_pathconf (register_all sample_host sample_paths) path).

Lemma longest_path_wins_witness :
  path_for (lit "/files/a") = [1%nat; 2%nat] /\ path_for (lit "/filesystem") = [0%nat] /\
  path_for (lit "/files/img/b") = [3%nat] /\ path_for (lit "/files/img") = [1%nat; 2%nat] /\
  let pc := setup_pathconf (register_all sample_host sample_paths) (lit "/files/a") in
  (pc = Pathconf [] [] /\ forall p, p ∈ sample_paths -> ~ under (pc_path p) (lit "/files/a")) \/
  (under (pc_path pc) (lit "/files/a") /\ (forall p, p ∈ sample_paths -> under (pc_path p) (lit "/files/a") -> len (pc_path p) <= len (pc_path pc)) /\
   head (filter (same (pc_path pc)) sample_paths) = Some pc).
Proof.
  split_and!; [vm_compute; reflexivity..|]. apply (longest_path_wins sample_host sample_paths (lit "/files/a")); [reflexivity|].
  repeat constructor; discriminate.
Defined.

Definition served : h2o_hostconf_t := register_all sample_host sample_paths.

(** Two handlers of a path, the first of which hands the request on. *)
Lemma dispatch_safe_witness :
  exists req', run_ops [served] [served] [Delegate (fun _ => true); Replay (fun _ => true)]
      (default (h2o_init_request 0 0) (snd <$> h2o_process_request [served] served (fun _ => true) (lit "example.com") (lit "/files/a") 80 (h2o_init_request 5 5)))
    = Some ([Taken 2%nat; Taken 2%nat], req') /\ placed req'.
Proof.
  destruct (dispatch_safe [served] [served] served (fun _ => true) (lit "example.com") (lit "/files/a") 80 5 5) as (d & req & E & H).
  eexists. split; [vm_compute; reflexivity|]. apply (H [Delegate (fun _ => true); Replay (fun _ => true)] [Taken 2%nat; Taken 2%nat]).
  vm_compute in E. injection E as _ <-. vm_compute. reflexivity.
Defined.

(** A handler that always sends the request back to the path it came from. *)
Definition loop_ops : list op := repeat (Reprocess (fun _ => true) (lit "example.com") (lit "/files/a") 80 false true) 7.

Lemma reprocess_bounded_witness :
  exists d req ds req', h2o_process_request [served] served (fun _ => true) (lit "example.com") (lit "/files/a") 80 (h2o_init_request 5 5) = Some (d, req) /\
    run_ops [served] [served] loop_ops req = Some (ds, req') /\
    ds = repeat (Taken 1%nat) 5 ++ [TooMany; TooMany] /\
    how_many is_reprocess loop_ops - how_many is_too_many ds <= 5 + 5.
Proof.
  do 4 eexists. split; [vm_compute; reflexivity|]. split; [vm_compute; reflexivity|]. split; [reflexivity|].
  eapply (reprocess_bounded [served] [served] served (fun _ => true) (lit "example.com") (lit "/files/a") 80 5 5); [lia|lia|vm_compute; reflexivity|].
  vm_compute. reflexivity.
Defined.
