(* ===== verification/FileReq.v ===== *)
(** * Requests for files (lib/handler/file.c, [create_generator] and [on_req])

    From the path of a request to the file that is opened.  The system is known through what it
    answers for a path: [open_file] is [h2o_filecache_open_file] (a reference, or [errno]),
    [stat_dir] is [stat(2)] (whether it is a directory, or [errno]) and [listing] builds the page
    of a directory ([errno] of [opendir]; [None] if there is no memory).  The state of a run is
    [errno] and the paths that the system has been asked for, which a property below is about. *)
From S2P Require Import Prelude Strings Tokens HeaderTable Headers Timestr Filecache Mimemap Http2Send FileServe.
From Stdlib Require Import ZArith Lia.
From stdpp Require Import base list numbers option strings.
Open Scope Z_scope.

Definition H2O_FILE_FLAG_NO_ETAG : Z := 0x1.
Definition H2O_FILE_FLAG_DIR_LISTING : Z := 0x2.
Definition H2O_FILE_FLAG_SEND_COMPRESSED : Z := 0x4.
Definition H2O_FILE_FLAG_GUNZIP : Z := 0x8.
Definition H2O_FILE_FLAG_IO_URING : Z := 0x16.

Definition has_flag (flags flag : Z) : bool := negb (Z.land flags flag =? 0).

(** The flag of io_uring has the bits of others: turning it on also turns on the listing of
    directories and the sending of compressed variants, turning it off turns them off. *)
Example io_uring_flag_overlaps :
  has_flag (Z.lor 0 H2O_FILE_FLAG_IO_URING) H2O_FILE_FLAG_DIR_LISTING = true /\
  has_flag (Z.lor 0 H2O_FILE_FLAG_IO_URING) H2O_FILE_FLAG_SEND_COMPRESSED = true /\
  has_flag (Z.ldiff H2O_FILE_FLAG_SEND_COMPRESSED H2O_FILE_FLAG_IO_URING) H2O_FILE_FLAG_SEND_COMPRESSED = false.
Proof. split_and!; reflexivity. Qed.

(** ** Accept-Encoding (lib/core/util.c) *)

Definition H2O_COMPRESSIBLE_GZIP : Z := 1.
Definition H2O_COMPRESSIBLE_BROTLI : Z := 2.
Definition H2O_COMPRESSIBLE_ZSTD : Z := 4.

Definition add_compressible (token : bytes) (types : Z) : Z :=
  if h2o_lcstris token (lit "gzip") then Z.lor types H2O_COMPRESSIBLE_GZIP
  else if h2o_lcstris token (lit "br") then Z.lor types H2O_COMPRESSIBLE_BROTLI
  else if h2o_lcstris token (lit "zstd") then Z.lor types H2O_COMPRESSIBLE_ZSTD
  else types.

(** Every call moves [iter] forward. *)
Fixpoint compressible_loop (fuel : nat) (s : bytes) (iter : nat) (types : Z) : option Z :=
  match fuel with
  | O => None
  | S fuel =>
      match h2o_next_token s iter 44 44 false with
      | None => Some types
      | Some r => compressible_loop fuel s (tk_iter r) (add_compressible (sub s (tk_start r) (tk_len r)) types)
      end
  end.

Fixpoint compressible_headers (headers : h2o_headers_t) (types : Z) : option Z :=
  match headers with
  | [] => Some types
  | h :: headers =>
      if has_token H2O_TOKEN_ACCEPT_ENCODING h then
        types ← compressible_loop (S (length (h_value h))) (h_value h) 0 types;
        compressible_headers headers types
      else compressible_headers headers types
  end.

Definition h2o_get_compressible_types (headers : h2o_headers_t) : option Z := compressible_headers headers 0.

(** ** The handler *)

Record file_handler := Handler {
  fh_conf_path : bytes;
  fh_real_path : bytes;
  fh_mimemap : h2o_mimemap_t;
  fh_flags : Z;
  fh_index_files : list bytes }.

(** The members of [h2o_req_t] that the handler reads; [query_at] is [None] for [SIZE_MAX]. *)
Record request := Request {
  rq_method : bytes;
  rq_version : Z;
  rq_path : bytes;
  rq_path_normalized : bytes;
  rq_has_null_char : bool;
  rq_query_at : option nat;
  rq_headers : h2o_headers_t;
  rq_range_after : bytes;
  rq_rands : list Z }.

Definition ENOENT : Z := 2.
Definition EMFILE : Z := 24.
Definition ENFILE : Z := 23.
Definition ENOTDIR : Z := 20.

(** The system that is asked. *)
Inductive query := Opened (path : bytes) | Stated (path : bytes) | Listed (path : bytes).
Definition query_path (q : query) : bytes := match q with Opened p | Stated p | Listed p => p end.

Record world := World {
  w_errno : Z;
  w_asked : list query }.

Inductive answer_t :=
(** [return -1]: the next handler is called *)
| NotHandled
| Redirected (dest : bytes)
| SentError (status : Z)
| NotAllowed
| ListedDir (body : bytes) (is_get : bool)
(** a dynamic handler is called with [script_name], [path_info] and [local_path] *)
| DynamicCall (script_name path_info local_path : bytes)
| Answered (o : outcome).

Section Handler.
Context (open_file : bytes -> fileref + Z) (stat_dir : bytes -> bool + Z) (listing : bytes -> option bytes + Z).
Context (pread : fileref -> Z -> Z -> option bytes).

(** A call of [h2o_filecache_open_file]. *)
Definition ask_open (path : bytes) (w : world) : option fileref * world :=
  match open_file path with
  | inl ref => (Some ref, World (w_errno w) (w_asked w ++ [Opened path]))
  | inr errno => (None, World errno (w_asked w ++ [Opened path]))
  end.

(** The variants of a file, in the order of the code. *)
Definition variants : list (Z * bytes * bytes) :=
  [(H2O_COMPRESSIBLE_BROTLI, lit "br", lit ".br"); (H2O_COMPRESSIBLE_ZSTD, lit "zstd", lit ".zst");
   (H2O_COMPRESSIBLE_GZIP, lit "gzip", lit ".gz"); (H2O_COMPRESSIBLE_ZSTD, lit "zstd", lit ".zstd")].

(** The buffer for the name of a variant has four octets more than the path, for the extension and
    the NUL; those of zstd need five and six. *)
Example variant_overflows : map (fun v => len v.2 + 1) variants = [4; 5; 4; 6].
Proof. reflexivity. Qed.

Fixpoint try_variants (vs : list (Z * bytes * bytes)) (types : Z) (path : bytes) (w : world)
    : option (fileref * bytes) * world :=
  match vs with
  | [] => (None, w)
  | (mask, enc, ext) :: vs =>
      if negb (Z.land types mask =? 0) then
        match ask_open (path ++ ext) w with
        | (Some ref, w) => (Some (ref, enc), w)
        | (None, w) => try_variants vs types path w
        end
      else try_variants vs types path w
  end.

Inductive created := Created (g : sendfile_generator) | IsDir | NoFile.

(** From the label [Opened] on. *)
Definition make_generator (flags : Z) (ref : fileref) (enc : option bytes) (gunzip : bool) : created :=
  if st_isdir (f_st ref) then IsDir
  else Created (Generator ref 0 (st_size (f_st ref)) enc (has_flag flags H2O_FILE_FLAG_SEND_COMPRESSED)
         (negb (has_flag flags H2O_FILE_FLAG_NO_ETAG)) gunzip 0 [] [] [] 0).

Definition create_generator (req : request) (path : bytes) (flags : Z) (w : world) : option (created * world) :=
  '(variant, w) ←
    (if has_flag flags H2O_FILE_FLAG_SEND_COMPRESSED && (0x101 <=? rq_version req) then
       types ← h2o_get_compressible_types (rq_headers req);
       Some (if negb (types =? 0) then try_variants variants types path w else (None, w))
     else Some (None, w));
  match variant with
  | Some (ref, enc) => Some (make_generator flags ref (Some enc) false, w)
  | None =>
      match ask_open path w with
      | (Some ref, w) => Some (make_generator flags ref None false, w)
      | (None, w) =>
          if has_flag flags H2O_FILE_FLAG_GUNZIP && (0x101 <=? rq_version req) then
            match ask_open (path ++ lit ".gz") w with
            | (Some ref, w) => Some (make_generator flags ref None true, w)
            | (None, w) => Some (NoFile, w)
            end
          else Some (NoFile, w)
      end
  end.

(** ** Dynamic files: the part of the path that is a file *)

(** The next slash at or after an offset. *)
Fixpoint next_slash (fuel : nat) (rpath : bytes) (at_ : nat) : option nat :=
  match fuel with
  | O => None
  | S fuel => if (length rpath <=? at_)%nat then None
              else if nth at_ rpath 0 =? 47 then Some at_ else next_slash fuel rpath (S at_)
  end.

(** The offset of the slash after the file; [None] is [return -1]. *)
Fixpoint find_script (fuel : nat) (rpath : bytes) (slash_at : nat) (w : world) : option nat * world :=
  match fuel with
  | O => (None, w)
  | S fuel =>
      match next_slash (S (length rpath)) rpath (S slash_at) with
      | None => (None, w)
      | Some at_ =>
          let path := take at_ rpath in
          match stat_dir path with
          | inr errno => (None, World errno (w_asked w ++ [Stated path]))
          | inl true => find_script fuel rpath at_ (World (w_errno w) (w_asked w ++ [Stated path]))
          | inl false => (Some at_, World (w_errno w) (w_asked w ++ [Stated path]))
          end
      end
  end.

(** [None]: the path has no extension because it leaves the buffer. *)
Definition type_of (m : h2o_mimemap_t) (path : bytes) : option h2o_mimemap_type_t :=
  ext ← h2o_get_filext path;
  Some (h2o_mimemap_get_type_by_extension m (default [] ext)).

Definition try_dynamic_request (self : file_handler) (req : request) (rpath : bytes) (w : world)
    : option (option answer_t * world) :=
  match find_script (length rpath) rpath (length (fh_real_path self)) w with
  | (None, w) => Some (None, w)
  | (Some slash_at, w) =>
      type ← type_of (fh_mimemap self) (take slash_at rpath);
      match type with
      | TypeMimetype _ _ => Some (None, w)
      | TypeDynamic _ =>
          let n := (length (fh_conf_path self) + slash_at - length (fh_real_path self))%nat in
          Some (Some (DynamicCall (take n (rq_path_normalized req)) (drop n (rq_path_normalized req)) (take slash_at rpath)), w)
      end
  end.

(** ** The handler *)

(** A redirection to a path, with the query of the request. *)
Definition with_query (req : request) (dest : bytes) : bytes :=
  dest ++ match rq_query_at req with Some q => drop q (rq_path req) | None => [] end.

Inductive index_result :=
| IndexOpened (g : sendfile_generator) (index_file : bytes)
| IndexDir (index_file : bytes)
(** [exhausted] tells whether all names were tried *)
| IndexNone (exhausted : bool).

Fixpoint try_index_files (files : list bytes) (req : request) (rpath : bytes) (flags : Z) (w : world)
    : option (index_result * world) :=
  match files with
  | [] => Some (IndexNone true, w)
  | f :: files =>
      '(c, w) ← create_generator req (rpath ++ f) flags w;
      match c with
      | Created g => Some (IndexOpened g f, w)
      | IsDir => Some (IndexDir f, w)
      | NoFile => if negb (w_errno w =? ENOENT) then Some (IndexNone false, w) else try_index_files files req rpath flags w
      end
  end.

(** The end of [on_req], for a file that is not opened. *)
Definition failed_to_open (self : file_handler) (req : request) (rpath : bytes) (w : world) : option (answer_t * world) :=
  if (w_errno w =? ENFILE) || (w_errno w =? EMFILE) then Some (SentError 503, w)
  else
    '(dyn, w) ← (if h2o_mimemap_has_dynamic_type (fh_mimemap self) then try_dynamic_request self req rpath w else Some (None, w));
    match dyn with
    | Some a => Some (a, w)
    | None => if (w_errno w =? ENOENT) || (w_errno w =? ENOTDIR) then Some (NotHandled, w) else Some (SentError 403, w)
    end.

(** What [on_req] comes to: a generator to be served (at the label [Opened]), or an answer. *)
Inductive resolved :=
| ToServe (g : sendfile_generator) (resolved_path rpath : bytes)
| Done (a : answer_t).

Definition done (x : option (answer_t * world)) : option (resolved * world) :=
  '(a, w) ← x; Some (Done a, w).

Definition resolve_request (self : file_handler) (req : request) (w : world) : option (resolved * world) :=
  if rq_has_null_char req then Some (Done NotHandled, w)
  else if len (rq_path_normalized req) <? len (fh_conf_path self) then
    Some (Done (Redirected (with_query req (h2o_uri_escape (fh_conf_path self) (lit "/")))), w)
  else
    let rpath := fh_real_path self ++ drop (length (fh_conf_path self)) (rq_path_normalized req) in
    if nth (length rpath - 1) rpath 0 =? 47 then
      '(r, w) ← try_index_files (fh_index_files self) req rpath (fh_flags self) w;
      match r with
      | IndexOpened g f => Some (ToServe g (rq_path_normalized req ++ f) (rpath ++ f), w)
      | IndexDir f =>
          Some (Done (Redirected (with_query req (h2o_uri_escape (rq_path_normalized req ++ f ++ lit "/") (lit "/")))), w)
      | IndexNone exhausted =>
          if exhausted && has_flag (fh_flags self) H2O_FILE_FLAG_DIR_LISTING then
            let is_get := bool_decide (rq_method req = lit "GET") in
            if negb (is_get || bool_decide (rq_method req = lit "HEAD")) then Some (Done NotAllowed, w)
            else
              match listing rpath with
              | inl None => Some (Done (SentError 503), World (w_errno w) (w_asked w ++ [Listed rpath]))
              | inl (Some body) => Some (Done (ListedDir body is_get), World (w_errno w) (w_asked w ++ [Listed rpath]))
              | inr errno => done (failed_to_open self req rpath (World errno (w_asked w ++ [Listed rpath])))
              end
          else done (failed_to_open self req rpath w)
      end
    else
      '(c, w) ← create_generator req rpath (fh_flags self) w;
      match c with
      | Created g => Some (ToServe g (rq_path_normalized req) rpath, w)
      | IsDir => Some (Done (Redirected (with_query req (h2o_uri_escape (rq_path_normalized req ++ lit "/") (lit "/")))), w)
      | NoFile => done (failed_to_open self req rpath w)
      end.

Definition serve_file (self : file_handler) (req : request) (headers : h2o_headers_t) (g : sendfile_generator)
    (resolved_path rpath : bytes) (w : world) : option (answer_t * world) :=
  type ← type_of (fh_mimemap self) rpath;
  match type with
  | TypeDynamic _ => Some (DynamicCall resolved_path [] rpath, w)
  | TypeMimetype m _ =>
      o ← serve_with_generator (pread (g_ref g)) g (rq_method req) (rq_headers req) headers (Mimetype m) (rq_range_after req) (rq_rands req);
      Some (Answered o, w)
  end.

(** [headers] are those of the response when the handler is called, with the date. *)
Definition on_req (self : file_handler) (req : request) (headers : h2o_headers_t) (w : world) : option (answer_t * world) :=
  '(r, w) ← resolve_request self req w;
  match r with
  | Done a => Some (a, w)
  | ToServe g resolved_path rpath => serve_file self req headers g resolved_path rpath w
  end.

End Handler.
