(* ===== verification/FileReqOk.v ===== *)
(** * Requests for files: the handler stays in its directory (lib/handler/file.c)

    For every request, the system is only asked for files below the directory of the handler. *)
From S2P Require Import Prelude Strings Url UrlPath Tokens HeaderTable Headers Timestr Filecache Mimemap Http2Send FileServe Dispatch DispatchOk FileReq.
From Stdlib Require Import ZArith Lia.
From stdpp Require Import base list numbers option strings.
Open Scope Z_scope.

(** ** Paths below a directory *)

(** [rest] does not go up. *)
Definition no_parent (rest : bytes) : Prop := Forall (fun seg => seg <> lit "..") (all_segments rest).

Definition within (dir p : bytes) : Prop := exists rest, p = dir ++ rest /\ no_parent rest.

Lemma all_segments_slash s t : all_segments (s ++ 47 :: t) = all_segments s ++ all_segments t.
Proof. unfold all_segments. rewrite segments_app_slash. cbn [fst snd]. by rewrite <- !app_assoc. Qed.

Lemma segments_app_free s t : 47 ∉ t -> segments (s ++ t) = ((segments s).1, (segments s).2 ++ t).
Proof.
  intros Ht. induction s as [|c s IH]; cbn [app segments]; [by rewrite segments_free|]. rewrite IH.
  destruct (segments s) as [[|seg closed] rest], (c =? 47); done.
Qed.

Lemma no_parent_slash s t : no_parent (s ++ 47 :: t) <-> no_parent s /\ no_parent t.
Proof. unfold no_parent. rewrite all_segments_slash. apply Forall_app. Qed.

(** A name that is not "..", at the end of a path. *)
Lemma no_parent_app s t : no_parent s -> 47 ∉ t -> (segments s).2 ++ t <> lit ".." -> no_parent (s ++ t).
Proof.
  unfold no_parent, all_segments. intros Hs Ht Hne. rewrite segments_app_free by done. cbn [fst snd].
  apply Forall_app in Hs as [Hs _]. apply Forall_app. split; [done|]. by constructor.
Qed.

Definition extension (t : bytes) : Prop := 47 ∉ t /\ (3 <= length t)%nat.

Lemma no_parent_ext s t : no_parent s -> extension t -> no_parent (s ++ t).
Proof.
  intros Hs [Ht Hl]. apply no_parent_app; [done|done|]. intros E. apply (f_equal length) in E. rewrite length_app in E. simpl in E. lia.
Qed.

Lemma within_ext dir p t : within dir p -> extension t -> within dir (p ++ t).
Proof. intros (rest & -> & H) Ht. exists (rest ++ t). split; [by rewrite app_assoc|by apply no_parent_ext]. Qed.

(** The name of an index file. *)
Definition index_name (f : bytes) : Prop := 47 ∉ f /\ f <> lit "..".

Lemma within_index dir p f : within dir p -> (exists d, dir = d ++ [47]) -> nth (length p - 1) p 0 = 47 -> index_name f -> within dir (p ++ f).
Proof.
  intros (rest & -> & H) [d ->] Hlast [Hf Hne]. exists (rest ++ f). split; [by rewrite app_assoc|]. apply no_parent_app; [done|done|].
  destruct rest as [|c rest _] using rev_ind; [done|]. rewrite app_assoc, length_app in Hlast. simpl in Hlast.
  rewrite Nat.add_sub in Hlast.
  rewrite app_nth2, Nat.sub_diag in Hlast by lia. simpl in Hlast. subst c. by rewrite segments_app_slash.
Qed.

(** The part of a path before a slash. *)
Lemma within_take dir p n : within dir p -> (length dir <= n)%nat -> nth n p 0 = 47 -> (n < length p)%nat -> within dir (take n p).
Proof.
  intros (rest & -> & H) Hn Hs Hl. exists (take (n - length dir) rest). split; [rewrite take_app_ge by done; done|].
  rewrite app_nth2 in Hs by done. rewrite length_app in Hl. set (k := (n - length dir)%nat) in *.
  assert (Hk : rest = take k rest ++ 47 :: drop (S k) rest).
  { rewrite <- (take_drop k rest) at 1. f_equal. assert (Hlt : (k < length rest)%nat) by lia.
    destruct (lookup_lt_is_Some_2 rest k Hlt) as [c Hc]. rewrite (drop_S _ _ _ Hc). f_equal.
    rewrite nth_lookup, Hc in Hs. done. }
  rewrite Hk in H. by apply no_parent_slash in H as [H _].
Qed.

(** The rest of a path without dot segments. *)
Lemma clean_rest path conf rest : clean path -> (exists c, conf = c ++ [47]) -> path = conf ++ rest -> no_parent rest.
Proof.
  intros Hc [c ->] ->. apply clean_segments in Hc. fold (all_segments ((c ++ [47]) ++ rest)) in Hc.
  rewrite <- app_assoc in Hc. cbn [app] in Hc. rewrite all_segments_slash in Hc. apply Forall_app in Hc as [_ Hc].
  eapply Forall_impl; [exact Hc|]. intros seg Hd ->. discriminate.
Qed.

(** What follows the path of the handler, in the path of a request that is bound to it. *)
Lemma bound_rest conf path : conf <> [] -> under conf path -> clean path -> no_parent (drop (length (h2o_strdup_slashed conf)) path).
Proof.
  intros Hne Hu Hc. assert (Hs : exists c, h2o_strdup_slashed conf = c ++ [47]).
  { destruct conf as [|d conf _] using rev_ind; [done|]. unfold h2o_strdup_slashed. rewrite last_snoc.
    destruct (Z.eqb_spec d 47) as [->|]; simpl; [by exists conf|by exists (conf ++ [d])]. }
  destruct (Z.le_gt_cases (len (h2o_strdup_slashed conf)) (len path)) as [Hle|Hgt].
  - destruct (under_slashed conf path Hu Hle) as [rest E]. rewrite E, drop_app_length. by eapply clean_rest.
  - rewrite drop_ge by (unfold len in Hgt; lia). by repeat constructor.
Qed.

(** ** What the system is asked for *)

Section Confined.
Context (open_file : bytes -> fileref + Z) (stat_dir : bytes -> bool + Z) (listing : bytes -> option bytes + Z).
Context (dir : bytes).

(** All that is asked for in [w'] and not in [w] is below the directory. *)
Definition asks (w w' : world) : Prop := exists qs, w_asked w' = w_asked w ++ qs /\ Forall (fun q => within dir (query_path q)) qs.

Lemma asks_refl w : asks w w.
Proof. exists []. split; [by rewrite app_nil_r|constructor]. Qed.

Lemma asks_trans w1 w2 w3 : asks w1 w2 -> asks w2 w3 -> asks w1 w3.
Proof.
  intros (q1 & E1 & H1) (q2 & E2 & H2). exists (q1 ++ q2). split; [rewrite E2, E1, app_assoc; done|]. by apply Forall_app.
Qed.

Lemma asks_one w e q : within dir (query_path q) -> asks w (World e (w_asked w ++ [q])).
Proof. intros H. exists [q]. split; [done|]. by constructor. Qed.

Lemma ask_open_asks path w : within dir path -> asks w (ask_open open_file path w).2.
Proof. intros H. unfold ask_open. destruct (open_file path); by apply asks_one. Qed.

Lemma try_variants_asks vs types path : Forall (fun v => extension v.2) vs -> within dir path ->
  forall w, asks w (try_variants open_file vs types path w).2.
Proof.
  intros Hvs Hp. induction Hvs as [|[[mask enc] ext] vs Hext Hvs IH]; intros w; cbn [try_variants]; [apply asks_refl|].
  destruct (negb _); [|apply IH]. pose proof (ask_open_asks (path ++ ext) w ltac:(by apply within_ext)) as Ha.
  destruct (ask_open open_file (path ++ ext) w) as [[ref|] w1]; [done|]. eapply asks_trans; [exact Ha|apply IH].
Qed.

Lemma variants_ext : Forall (fun v => extension v.2) variants.
Proof. repeat constructor; simpl; try lia; rewrite ?elem_of_cons, ?elem_of_nil; intuition discriminate. Qed.

Lemma gz_ext : extension (lit ".gz").
Proof. split; [|simpl; lia]. simpl. rewrite !elem_of_cons, elem_of_nil. intuition discriminate. Qed.

Lemma compressible_total headers : forall types, is_Some (compressible_headers headers types).
Proof.
  assert (Hloop : forall fuel s iter types, (iter <= length s)%nat -> (length s - iter < fuel)%nat -> is_Some (compressible_loop fuel s iter types)).
  { induction fuel as [|fuel IH]; intros s iter types Hi Hf; [lia|]. cbn [compressible_loop].
    destruct (h2o_next_token _ _ _ _ _) as [r|] eqn:E; [|by eexists].
    apply next_token_progress in E as (H & _); [|done]. apply IH; lia. }
  induction headers as [|h headers IH]; intros types; cbn [compressible_headers]; [by eexists|].
  destruct (has_token _ h); [|apply IH]. destruct (Hloop (S (length (h_value h))) (h_value h) 0%nat types) as [t ->]; [lia|lia|]. apply IH.
Qed.

Lemma create_generator_asks req path flags w : within dir path ->
  succeeds (create_generator open_file req path flags w) (fun x => asks w x.2).
Proof.
  intros Hp. unfold create_generator.
  eapply (succeeds_bind _ _ (fun x => asks w x.2)).
  { destruct (_ && _); [|apply succeeds_some, asks_refl]. unfold h2o_get_compressible_types.
    destruct (compressible_total (rq_headers req) 0) as [types ->]. apply succeeds_some.
    destruct (negb _); [|apply asks_refl]. apply try_variants_asks; [apply variants_ext|done]. }
  intros [[[ref enc]|] w1] Hw; simpl in Hw; [by apply succeeds_some|].
  pose proof (ask_open_asks path w1 Hp) as Ha. destruct (ask_open open_file path w1) as [[ref|] w2]; simpl in Ha.
  { apply succeeds_some. by eapply asks_trans. }
  destruct (_ && _); [|apply succeeds_some; by eapply asks_trans].
  pose proof (ask_open_asks (path ++ lit ".gz") w2 ltac:(apply within_ext; [done|apply gz_ext])) as Hb.
  destruct (ask_open open_file (path ++ lit ".gz") w2) as [[ref|] w3]; simpl in Hb; apply succeeds_some;
    (eapply asks_trans; [exact Hw|]); by eapply asks_trans.
Qed.

Lemma try_index_asks files req rpath flags : Forall (fun f => within dir (rpath ++ f)) files ->
  forall w, succeeds (try_index_files open_file files req rpath flags w) (fun x => asks w x.2).
Proof.
  induction 1 as [|f files Hf Hfs IH]; intros w; cbn [try_index_files]; [apply succeeds_some, asks_refl|].
  eapply succeeds_bind; [by apply create_generator_asks|]. intros [[g| |] w1] Hw; simpl in Hw; [by apply succeeds_some..|].
  destruct (negb _); [by apply succeeds_some|]. eapply succeeds_weaken; [apply IH|]. intros x Hx. by eapply asks_trans.
Qed.

(** ** Dynamic files *)

Lemma next_slash_spec fuel rpath : forall at_ n, next_slash fuel rpath at_ = Some n -> (at_ <= n < length rpath)%nat /\ nth n rpath 0 = 47.
Proof.
  induction fuel as [|fuel IH]; intros at_ n; cbn [next_slash]; [done|]. destruct (Nat.leb_spec (length rpath) at_); [done|].
  destruct (Z.eqb_spec (nth at_ rpath 0) 47); [intros [= <-]; lia|]. intros E. apply IH in E. lia.
Qed.

Lemma find_script_asks fuel rpath : within dir rpath -> forall at_ w, (length dir <= at_)%nat ->
  asks w (find_script stat_dir fuel rpath at_ w).2 /\
  forall n, (find_script stat_dir fuel rpath at_ w).1 = Some n -> (at_ < n < length rpath)%nat.
Proof.
  intros Hr. induction fuel as [|fuel IH]; intros at_ w Ha; cbn [find_script]; [split; [apply asks_refl|done]|].
  destruct (next_slash _ rpath (S at_)) as [n|] eqn:E; [|split; [apply asks_refl|done]]. apply next_slash_spec in E as [Hn Hs].
  assert (Hw : within dir (take n rpath)) by (apply within_take; [done|lia|done|lia]).
  destruct (stat_dir (take n rpath)) as [[|]|errno].
  - destruct (IH n (World (w_errno w) (w_asked w ++ [Stated (take n rpath)])) ltac:(lia)) as [H1 H2]. split.
    + eapply asks_trans; [by apply (asks_one w (w_errno w) (Stated (take n rpath)))|exact H1].
    + intros k Hk. apply H2 in Hk. lia.
  - split; [by apply (asks_one w _ (Stated (take n rpath)))|]. simpl. intros k [= <-]. lia.
  - split; [by apply (asks_one w _ (Stated (take n rpath)))|done].
Qed.

Lemma filext_total p : p <> [] -> is_Some (h2o_get_filext p).
Proof.
  intros Hne. unfold h2o_get_filext. assert (Hr : rev p <> []) by (intros E; apply Hne; by rewrite <- (rev_involutive p), E).
  generalize (@nil Z) as e. revert Hr. generalize (rev p) as l. induction l as [|c l IH]; intros Hl e; [done|]. cbn [filext_loop].
  destruct l as [|c' l]; [by eexists|]. destruct (c =? 46); [by eexists|]. destruct (c =? 47); [by eexists|]. by apply IH.
Qed.

Lemma try_dynamic_asks self req rpath w : within dir rpath -> fh_real_path self = dir ->
  succeeds (try_dynamic_request stat_dir self req rpath w) (fun x => asks w x.2).
Proof.
  intros Hr Hd. unfold try_dynamic_request. rewrite Hd.
  destruct (find_script_asks (length rpath) rpath Hr (length dir) w ltac:(lia)) as [Ha Hn].
  destruct (find_script stat_dir (length rpath) rpath (length dir) w) as [[n|] w1]; simpl in *; [|by apply succeeds_some].
  specialize (Hn n eq_refl). unfold type_of.
  destruct (filext_total (take n rpath)) as [ext ->]; [destruct n; [lia|]; destruct rpath; simpl in *; [lia|done]|]. cbn [mbind option_bind].
  destruct (h2o_mimemap_get_type_by_extension _ _); by apply succeeds_some.
Qed.

Lemma failed_asks self req rpath w : within dir rpath -> fh_real_path self = dir ->
  succeeds (done (failed_to_open stat_dir self req rpath w)) (fun x => asks w x.2).
Proof.
  intros Hr Hd. unfold done, failed_to_open. destruct (_ || _); [apply succeeds_some, asks_refl|].
  eapply (succeeds_bind _ _ (fun x => asks w x.2)).
  - eapply (succeeds_bind _ _ (fun x => asks w x.2)).
    + destruct (h2o_mimemap_has_dynamic_type _); [by apply try_dynamic_asks|apply succeeds_some, asks_refl].
    + intros [[a|] w1] Hw; [by apply succeeds_some|]. destruct (_ || _); by apply succeeds_some.
  - intros [a w1] Hw. by apply succeeds_some.
Qed.

Lemma resolve_asks self req w :
  fh_real_path self = dir -> (exists d, dir = d ++ [47]) -> Forall index_name (fh_index_files self) ->
  no_parent (drop (length (fh_conf_path self)) (rq_path_normalized req)) ->
  succeeds (resolve_request open_file stat_dir listing self req w) (fun x => asks w x.2).
Proof.
  intros Hd Hslash Hidx Hp. unfold resolve_request. destruct (rq_has_null_char req); [apply succeeds_some, asks_refl|].
  destruct (_ <? _); [apply succeeds_some, asks_refl|]. rewrite Hd. set (rpath := dir ++ _).
  assert (Hr : within dir rpath) by (eexists; by split). destruct (Z.eqb_spec (nth (length rpath - 1) rpath 0) 47) as [Hl|Hl].
  - eapply succeeds_bind; [apply try_index_asks; eapply Forall_impl; [exact Hidx|]; intros f Hf; by apply within_index|].
    intros [[g f|f|exhausted] w1] Hw; simpl in Hw; [by apply succeeds_some..|].
    assert (Hfail : forall w2, asks w w2 -> succeeds (done (failed_to_open stat_dir self req rpath w2)) (fun x => asks w x.2)).
    { intros w2 H2. eapply succeeds_weaken; [by apply failed_asks|]. intros x Hx. by eapply asks_trans. }
    destruct (_ && _); [|by apply Hfail]. destruct (negb _); [by apply succeeds_some|].
    assert (Hl1 : forall e, asks w (World e (w_asked w1 ++ [Listed rpath]))) by (intros e; eapply asks_trans; [exact Hw|by apply (asks_one w1 e (Listed rpath))]).
    destruct (listing rpath) as [[body|]|errno]; [apply succeeds_some, Hl1..|apply Hfail, Hl1].
  - eapply succeeds_bind; [by apply create_generator_asks|]. intros [[g| |] w1] Hw; simpl in Hw; [by apply succeeds_some..|].
    eapply succeeds_weaken; [by apply failed_asks|]. intros x Hx. by eapply asks_trans.
Qed.
End Confined.

(** ** Properties *)

(** C10: no request leads the handler out of its directory.  Let a request for any authority and target
    be bound to the path that the handler was registered for: then the handler comes to a decision,
    and whatever it asks the system for on the way (files, their compressed variants, index files,
    directories to be listed, scripts) is a path below its directory in which no segment goes up. *)
Theorem handler_confined hosts fallback_host authority target port md mr pc bound open_file stat_dir listing self req w :
  Forall (fun hc => pc_path (hc_fallback_path hc) = []) (fallback_host :: hosts) -> pc_path pc <> [] ->
  bind_request hosts fallback_host authority target port (h2o_init_request md mr) = Some (pc, bound) ->
  rq_path_normalized req = req_path_normalized bound -> fh_conf_path self = h2o_strdup_slashed (pc_path pc) ->
  (exists d, fh_real_path self = d ++ [47]) -> Forall index_name (fh_index_files self) -> w_asked w = [] ->
  exists x w', resolve_request open_file stat_dir listing self req w = Some (x, w') /\
    Forall (fun q => within (fh_real_path self) (query_path q)) (w_asked w') /\
    forall pread headers a w'', on_req open_file stat_dir listing pread self req headers w = Some (a, w'') -> w_asked w'' = w_asked w'.
Proof.
  intros Hf Hne Hbound Hp Hconf Hd Hidx Hw.
  destruct (bound_under hosts fallback_host authority target port md mr pc bound Hf Hne Hbound) as (Hunder & r & Hr & Hb).
  rewrite Hb in Hunder, Hp. assert (Hrest : no_parent (drop (length (fh_conf_path self)) (rq_path_normalized req))).
  { rewrite Hp, Hconf. apply bound_rest; [done|done|]. destruct (normalize_ok target) as (r' & E & H). rewrite Hr in E. injection E as <-. apply H. }
  destruct (resolve_asks open_file stat_dir listing (fh_real_path self) self req w eq_refl Hd Hidx Hrest) as ([x w'] & E & qs & Hq & Hall).
  exists x, w'. split; [done|]. simpl in Hq. rewrite Hq, Hw. split; [done|].
  intros pread headers a w'' Ho. unfold on_req in Ho. rewrite E in Ho. cbn [mbind option_bind] in Ho.
  destruct x as [g rp p|a']; [|injection Ho as _ <-; by rewrite Hq, Hw].
  unfold serve_file in Ho. destruct (type_of _ _) as [[m attr|d]|]; cbn [mbind option_bind] in Ho; [|injection Ho as _ <-; by rewrite Hq, Hw|done].
  destruct (serve_with_generator _ _ _ _ _ _ _ _); [|done]. injection Ho as _ <-. by rewrite Hq, Hw.
Qed.

(** ** A witness *)

Definition sample_handler : file_handler :=
  Handler (lit "/files/") (lit "/srv/www/") (h2o_mimemap_create [(lit "txt", lit "text/plain")])
    (Z.lor H2O_FILE_FLAG_SEND_COMPRESSED H2O_FILE_FLAG_GUNZIP) [lit "index.html"; lit "index.txt"].

Definition sample_request : request :=
  Request (lit "GET") 0x200 (lit "/files/a/../%2e%2e/files/b/") (lit "/files/b/") false None
    [Header (NTok H2O_TOKEN_ACCEPT_ENCODING) None (lit "gzip, br") false] [0] [].

Definition nothing_there (_ : bytes) : fileref + Z := inr ENOENT.

Definition files_host : h2o_hostconf_t :=
  register_all (Hostconf (lit "example.com") 65535 (lit "example.com") false [] (Pathconf [] [])) [Pathconf (lit "/files") [0%nat]].

Lemma handler_confined_witness :
  let target := lit "/files/a/../%2e%2e/files/b/" in
  exists bound x w', bind_request [files_host] files_host (lit "example.com") target 80 (h2o_init_request 5 5) = Some (Pathconf (lit "/files") [0%nat], bound) /\
    resolve_request nothing_there (fun _ => inr ENOENT) (fun _ => inr ENOENT) sample_handler sample_request (World 0 []) = Some (x, w') /\
    Forall (fun q => within (lit "/srv/www/") (query_path q)) (w_asked w').
Proof.
  cbv zeta.
  destruct (handler_confined [files_host] files_host (lit "example.com") (lit "/files/a/../%2e%2e/files/b/") 80 5 5 (Pathconf (lit "/files") [0%nat])
    (default (h2o_init_request 0 0) (snd <$> bind_request [files_host] files_host (lit "example.com") (lit "/files/a/../%2e%2e/files/b/") 80 (h2o_init_request 5 5)))
    nothing_there (fun _ => inr ENOENT) (fun _ => inr ENOENT) sample_handler sample_request (World 0 [])) as (x & w' & E & H & _).
  - repeat constructor.
  - discriminate.
  - vm_compute. reflexivity.
  - vm_compute. reflexivity.
  - vm_compute. reflexivity.
  - exists (lit "/srv/www"). reflexivity.
  - repeat constructor; simpl; try discriminate; rewrite ?elem_of_cons, ?elem_of_nil; intuition discriminate.
  - reflexivity.
  - eexists _, x, w'. split; [vm_compute; reflexivity|]. split; [exact E|exact H].
Defined.
