(* ===== verification/Http2Streams.v ===== *)
(** * The streams of an HTTP/2 connection (lib/http2/connection.c, lib/http2/stream.c, include/h2o/http2_internal.h)

    The states of the streams, the counters that the connection keeps of them, the queue of requests that
    wait for their turn, and the ends of streams and connections.

    A stream is known by its id; a list that streams are linked in is the sequence of their ids, so that a stream
    is linked when its id is in one of the lists.  The tree of the scheduler, which [Scheduler] models, is left out; the core and
    the application are the class [App].  Of the timers only whether they are linked is kept.  The counters are [uint32_t]; they do not wrap, since they count streams.
    [None] is a failed assertion. *)
From S2P Require Import Prelude HpackInt HeaderTable HpackParse Http2Frame Http2Send.
From Stdlib Require Import ZArith Lia.
From stdpp Require Import base numbers option strings gmap functions list.
Open Scope Z_scope.

(** ** Data *)

Inductive en_h2o_req_body_state_t :=
| BODY_NONE | BODY_OPEN_BEFORE_FIRST_FRAME | BODY_OPEN | BODY_CLOSE_QUEUED | BODY_CLOSE_DELIVERED.

Inductive h2o_http2_conn_state_t := CONN_OPEN | CONN_HALF_CLOSED | CONN_IS_CLOSING.

(** [h2o_conn_state_t], of the core *)
Inductive h2o_conn_state_t := H2O_CONN_STATE_IDLE | H2O_CONN_STATE_ACTIVE | H2O_CONN_STATE_SHUTDOWN.

Record h2o_http2_conn_num_streams_t := NumStreams { ns_open : Z; ns_half_closed : Z; ns_send_body : Z }.

(** The targets of [_num_streams_slot]. *)
Inductive slot := SlotPriority | SlotPull | SlotPush.

#[export] Instance req_body_state_eq_dec : EqDecision en_h2o_req_body_state_t.
Proof. solve_decision. Defined.
#[export] Instance conn_state_eq_dec : EqDecision h2o_http2_conn_state_t.
Proof. solve_decision. Defined.
#[export] Instance slot_eq_dec : EqDecision slot.
Proof. solve_decision. Defined.

Definition body_rank (b : en_h2o_req_body_state_t) : Z :=
  match b with BODY_NONE => 0 | BODY_OPEN_BEFORE_FIRST_FRAME => 1 | BODY_OPEN => 2 | BODY_CLOSE_QUEUED => 3 | BODY_CLOSE_DELIVERED => 4 end.

(** [cache_digests] is kept as the header values that were loaded, in order. *)
Abbreviation h2request := (request (digests_t := list bytes)).
Definition load_digests (d : list bytes) (value : bytes) : list bytes := d ++ [value].

(** The request: [req_body.buf] ([None]: NULL), [req_body_bytes_received], what the header block gave (with
    [content_length]), [entity] ([None]: a NULL base), whether [write_req.cb] is set and [process_called]; and the flag
    [delayed_rst_stream_no_error]. *)
Record rx := Rx {
  rx_buf : option bytes;
  rx_received : Z;
  rx_input : h2request;
  rx_entity : option bytes;
  rx_write_req : bool;
  rx_process_called : bool;
  rx_delayed_rst_stream_no_error : bool }.

(** [st_h2o_http2_stream_t]; [hs_proceed_req]: [req.proceed_req] is not NULL. *)
Record h2stream := H2Stream {
  hs_state : h2o_http2_stream_state_t;
  hs_slot : option slot;
  hs_blocked_by_server : bool;
  hs_reset_by_peer : bool;
  hs_reset_by_peer_action : bool;
  hs_body_state : en_h2o_req_body_state_t;
  hs_streamed : bool;
  hs_is_tunnel_req : bool;
  hs_proceed_req : bool;
  hs_output_window : Z;
  hs_input_window : Z;
  hs_bytes_unnotified : Z;
  hs_rx : rx }.

(** The members of the connection that reading and writing use: [_read_expect], [_headers_unparsed], [_input_window],
    [_write.window], [peer_settings] and [_input_header_table]; whether [_write.timeout_entry] is linked,
    whether [_write.buf_in_flight] is set and whether the socket is writing. *)
Inductive read_expect := EXPECT_PREFACE | EXPECT_DEFAULT | EXPECT_CONTINUATION.

Record conn_io := ConnIo {
  io_read_expect : read_expect;
  io_headers_unparsed : option bytes;
  io_input_window : Z;
  io_write_window : Z;
  io_peer_settings : h2o_http2_settings_t;
  io_input_header_table : header_table;
  io_timeout_linked : bool;
  io_in_flight : bool;
  io_is_writing : bool }.

(** [st_h2o_http2_conn_t] *)
Record h2conn := H2Conn {
  hc_streams : gmap Z h2stream;
  hc_pull_max_open : Z;
  hc_pull_max_processed : Z;
  hc_push_max_open : Z;
  hc_num : slot -> h2o_http2_conn_num_streams_t;
  hc_blocked_by_server : Z;
  hc_req_streaming_in_progress : Z;
  hc_tunnel : Z;
  hc_state : h2o_http2_conn_state_t;
  hc_super_state : h2o_conn_state_t;
  hc_received_any_request : bool;
  hc_graceful_shutdown_linked : bool;
  hc_pending_reqs : list Z;
  hc_streams_to_proceed : list Z;
  hc_blocked_streams : list Z;
  hc_reset_budget : Z;
  hc_process_delay_linked : bool;
  hc_buf : bytes;
  hc_io : conn_io }.

(** The members of the configuration. *)
Record config := Config {
  max_concurrent_requests_per_connection : Z;
  max_concurrent_streaming_requests_per_connection : Z;
  active_stream_window_size : Z;
  dos_delay : Z;
  max_request_entity_size : Z;
  max_streams : Z;
  max_streams_for_priority : Z;
  http2_origin_frame : option bytes }.

Definition H2O_HTTP2_SETTINGS_HOST_STREAM_INITIAL_WINDOW_SIZE : Z := 65535.
Definition H2O_HTTP2_SETTINGS_HOST_CONNECTION_WINDOW_SIZE : Z := 16777216.

(** ** Assignments to members *)

Definition set_hs_state (x : h2o_http2_stream_state_t) (s : h2stream) : h2stream :=
  let '(H2Stream _ sl b r ra bs st t p ow iw bu q) := s in H2Stream x sl b r ra bs st t p ow iw bu q.
Definition set_hs_slot (x : option slot) (s : h2stream) : h2stream :=
  let '(H2Stream st _ b r ra bs sd t p ow iw bu q) := s in H2Stream st x b r ra bs sd t p ow iw bu q.
Definition set_hs_blocked (x : bool) (s : h2stream) : h2stream :=
  let '(H2Stream st sl _ r ra bs sd t p ow iw bu q) := s in H2Stream st sl x r ra bs sd t p ow iw bu q.
Definition set_hs_reset_by_peer (s : h2stream) : h2stream :=
  let '(H2Stream st sl b _ ra bs sd t p ow iw bu q) := s in H2Stream st sl b true ra bs sd t p ow iw bu q.
Definition set_hs_body_state (x : en_h2o_req_body_state_t) (s : h2stream) : h2stream :=
  let '(H2Stream st sl b r ra _ sd t p ow iw bu q) := s in H2Stream st sl b r ra x sd t p ow iw bu q.
Definition set_hs_streamed (s : h2stream) : h2stream :=
  let '(H2Stream st sl b r ra bs _ t p ow iw bu q) := s in H2Stream st sl b r ra bs true t p ow iw bu q.
Definition set_hs_proceed_req (x : bool) (s : h2stream) : h2stream :=
  let '(H2Stream st sl b r ra bs sd t _ ow iw bu q) := s in H2Stream st sl b r ra bs sd t x ow iw bu q.
Definition set_hs_output_window (x : Z) (s : h2stream) : h2stream :=
  let '(H2Stream st sl b r ra bs sd t p _ iw bu q) := s in H2Stream st sl b r ra bs sd t p x iw bu q.
Definition set_hs_input_window (x bu : Z) (s : h2stream) : h2stream :=
  let '(H2Stream st sl b r ra bs sd t p ow _ _ q) := s in H2Stream st sl b r ra bs sd t p ow x bu q.

Definition set_hs_reset_by_peer_action (s : h2stream) : h2stream :=
  let '(H2Stream st sl b r _ bs sd t p ow iw bu q) := s in H2Stream st sl b r true bs sd t p ow iw bu q.
Definition set_hs_is_tunnel_req (s : h2stream) : h2stream :=
  let '(H2Stream st sl b r ra bs sd _ p ow iw bu q) := s in H2Stream st sl b r ra bs sd true p ow iw bu q.
Definition set_hs_rx (f : rx -> rx) (s : h2stream) : h2stream :=
  let '(H2Stream st sl b r ra bs sd t p ow iw bu q) := s in H2Stream st sl b r ra bs sd t p ow iw bu (f q).

Definition set_rx_buf (x : option bytes) (q : rx) : rx :=
  let '(Rx _ rc cl e w p d) := q in Rx x rc cl e w p d.
Definition set_rx_received (x : Z) (q : rx) : rx :=
  let '(Rx b _ cl e w p d) := q in Rx b x cl e w p d.
Definition set_rx_input (x : h2request) (q : rx) : rx :=
  let '(Rx b rc _ e w p d) := q in Rx b rc x e w p d.
Definition set_rx_entity (x : option bytes) (q : rx) : rx :=
  let '(Rx b rc cl _ w p d) := q in Rx b rc cl x w p d.
Definition set_rx_process_called (q : rx) : rx :=
  let '(Rx b rc cl e w _ d) := q in Rx b rc cl e w true d.
Definition set_rx_delayed (x : bool) (q : rx) : rx :=
  let '(Rx b rc cl e w p _) := q in Rx b rc cl e w p x.

Definition set_streams (x : gmap Z h2stream) (c : h2conn) : h2conn :=
  let '(H2Conn _ po pp ps nm bl sg tu st ss ra gl pe pr bs rb pd bf io) := c in
  H2Conn x po pp ps nm bl sg tu st ss ra gl pe pr bs rb pd bf io.
Definition set_max_open (pull push : Z) (c : h2conn) : h2conn :=
  let '(H2Conn m _ pp _ nm bl sg tu st ss ra gl pe pr bs rb pd bf io) := c in
  H2Conn m pull pp push nm bl sg tu st ss ra gl pe pr bs rb pd bf io.
Definition set_max_processed (x : Z) (c : h2conn) : h2conn :=
  let '(H2Conn m po _ ps nm bl sg tu st ss ra gl pe pr bs rb pd bf io) := c in
  H2Conn m po x ps nm bl sg tu st ss ra gl pe pr bs rb pd bf io.
Definition set_num (x : slot -> h2o_http2_conn_num_streams_t) (c : h2conn) : h2conn :=
  let '(H2Conn m po pp ps _ bl sg tu st ss ra gl pe pr bs rb pd bf io) := c in
  H2Conn m po pp ps x bl sg tu st ss ra gl pe pr bs rb pd bf io.
Definition set_num_blocked (x : Z) (c : h2conn) : h2conn :=
  let '(H2Conn m po pp ps nm _ sg tu st ss ra gl pe pr bs rb pd bf io) := c in
  H2Conn m po pp ps nm x sg tu st ss ra gl pe pr bs rb pd bf io.
Definition set_num_streaming (x tu : Z) (c : h2conn) : h2conn :=
  let '(H2Conn m po pp ps nm bl _ _ st ss ra gl pe pr bs rb pd bf io) := c in
  H2Conn m po pp ps nm bl x tu st ss ra gl pe pr bs rb pd bf io.
Definition set_conn_state (x : h2o_http2_conn_state_t) (c : h2conn) : h2conn :=
  let '(H2Conn m po pp ps nm bl sg tu _ ss ra gl pe pr bs rb pd bf io) := c in
  H2Conn m po pp ps nm bl sg tu x ss ra gl pe pr bs rb pd bf io.
Definition h2o_conn_set_state (x : h2o_conn_state_t) (c : h2conn) : h2conn :=
  let '(H2Conn m po pp ps nm bl sg tu st _ ra gl pe pr bs rb pd bf io) := c in
  H2Conn m po pp ps nm bl sg tu st x ra gl pe pr bs rb pd bf io.
Definition set_links (pe pr bs : list Z) (c : h2conn) : h2conn :=
  let '(H2Conn m po pp ps nm bl sg tu st ss ra gl _ _ _ rb pd bf io) := c in
  H2Conn m po pp ps nm bl sg tu st ss ra gl pe pr bs rb pd bf io.
Definition set_dos (rb : Z) (pd : bool) (c : h2conn) : h2conn :=
  let '(H2Conn m po pp ps nm bl sg tu st ss ra gl pe pr bs _ _ bf io) := c in
  H2Conn m po pp ps nm bl sg tu st ss ra gl pe pr bs rb pd bf io.
Definition set_hc_buf (x : bytes) (c : h2conn) : h2conn :=
  let '(H2Conn m po pp ps nm bl sg tu st ss ra gl pe pr bs rb pd _ io) := c in
  H2Conn m po pp ps nm bl sg tu st ss ra gl pe pr bs rb pd x io.

Definition set_received_any_request (c : h2conn) : h2conn :=
  let '(H2Conn m po pp ps nm bl sg tu st ss _ gl pe pr bs rb pd bf io) := c in
  H2Conn m po pp ps nm bl sg tu st ss true gl pe pr bs rb pd bf io.
Definition upd_io (f : conn_io -> conn_io) (c : h2conn) : h2conn :=
  let '(H2Conn m po pp ps nm bl sg tu st ss ra gl pe pr bs rb pd bf io) := c in
  H2Conn m po pp ps nm bl sg tu st ss ra gl pe pr bs rb pd bf (f io).

Definition set_io_expect (x : read_expect) (u : option bytes) (i : conn_io) : conn_io :=
  let '(ConnIo _ _ iw ww ps t l f w) := i in ConnIo x u iw ww ps t l f w.
Definition set_io_input_window (x : Z) (i : conn_io) : conn_io :=
  let '(ConnIo e u _ ww ps t l f w) := i in ConnIo e u x ww ps t l f w.
Definition set_io_write_window (x : Z) (i : conn_io) : conn_io :=
  let '(ConnIo e u iw _ ps t l f w) := i in ConnIo e u iw x ps t l f w.
Definition set_io_settings (x : h2o_http2_settings_t) (i : conn_io) : conn_io :=
  let '(ConnIo e u iw ww _ t l f w) := i in ConnIo e u iw ww x t l f w.
Definition set_io_table (x : header_table) (i : conn_io) : conn_io :=
  let '(ConnIo e u iw ww ps _ l f w) := i in ConnIo e u iw ww ps x l f w.
Definition set_io_timeout_linked (x : bool) (i : conn_io) : conn_io :=
  let '(ConnIo e u iw ww ps t _ f w) := i in ConnIo e u iw ww ps t x f w.

Definition hc_initial_window_size (c : h2conn) : Z := initial_window_size (io_peer_settings (hc_io c)).

Definition upd_stream (id : Z) (f : h2stream -> h2stream) (c : h2conn) : h2conn := set_streams (alter f id (hc_streams c)) c.

(** Assignments to the counters of one slot. *)
Definition add_open (k : slot) (d : Z) (c : h2conn) : h2conn :=
  let '(NumStreams o h b) := hc_num c k in set_num (<[k := NumStreams (o + d) h b]> (hc_num c)) c.
Definition add_half_closed (k : slot) (d : Z) (c : h2conn) : h2conn :=
  let '(NumStreams o h b) := hc_num c k in set_num (<[k := NumStreams o (h + d) b]> (hc_num c)) c.
Definition add_send_body (k : slot) (d : Z) (c : h2conn) : h2conn :=
  let '(NumStreams o h b) := hc_num c k in set_num (<[k := NumStreams o h (b + d)]> (hc_num c)) c.

(** ** States of streams *)

Definition state_rank (x : h2o_http2_stream_state_t) : Z :=
  match x with
  | STATE_IDLE => 0 | STATE_RECV_HEADERS => 1 | STATE_RECV_BODY => 2 | STATE_REQ_PENDING => 3
  | STATE_SEND_HEADERS => 4 | STATE_SEND_BODY => 5 | STATE_SEND_BODY_IS_FINAL => 6 | STATE_END_STREAM => 7
  end.

Definition conn_rank (x : h2o_http2_conn_state_t) : Z := match x with CONN_OPEN => 0 | CONN_HALF_CLOSED => 1 | CONN_IS_CLOSING => 2 end.

Definition h2o_http2_stream_is_push (stream_id : Z) : bool := stream_id mod 2 =? 0.

Definition is_idle_stream_id (c : h2conn) (stream_id : Z) : bool :=
  (if h2o_http2_stream_is_push stream_id then hc_push_max_open c else hc_pull_max_open c) <? stream_id.

Definition h2o_http2_conn_get_stream (c : h2conn) (stream_id : Z) : option h2stream := hc_streams c !! stream_id.

Definition h2o_http2_stream_update_open_slot (c : h2conn) (id : Z) (k : slot) : option h2conn :=
  s ← hc_streams c !! id;
  old ← hs_slot s;
  Some (upd_stream id (set_hs_slot (Some k)) (add_open k 1 (add_open old (-1) c))).

Definition h2o_http2_stream_set_blocked_by_server (c : h2conn) (id : Z) (on : bool) : option h2conn :=
  s ← hc_streams c !! id;
  if on then
    if hs_blocked_by_server s then None
    else Some (set_num_blocked (hc_blocked_by_server c + 1) (upd_stream id (set_hs_blocked true) c))
  else
    if negb (hs_blocked_by_server s) then None
    else Some (set_num_blocked (hc_blocked_by_server c - 1) (upd_stream id (set_hs_blocked false) c)).

(** The end of [h2o_http2_stream_set_state]. *)
Definition update_super_state (c : h2conn) : h2conn :=
  if negb (hc_graceful_shutdown_linked c) then
    let pull := hc_num c SlotPull in
    let push := hc_num c SlotPush in
    let num_reqs_inflight := ns_open pull + ns_half_closed pull + ns_open push + ns_half_closed push in
    if hc_received_any_request c && (num_reqs_inflight =? 0)
    then h2o_conn_set_state H2O_CONN_STATE_IDLE c
    else h2o_conn_set_state H2O_CONN_STATE_ACTIVE c
  else c.

Definition h2o_http2_stream_set_state (c : h2conn) (id : Z) (new_state : h2o_http2_stream_state_t) : option h2conn :=
  s ← hc_streams c !! id;
  let set := upd_stream id (set_hs_state new_state) in
  c ← match new_state with
      | STATE_IDLE => None
      | STATE_RECV_HEADERS =>
          if bool_decide (hs_state s = STATE_IDLE) then
            c ← h2o_http2_stream_update_open_slot c id (if h2o_http2_stream_is_push id then SlotPush else SlotPull);
            Some (set c)
          else None
      | STATE_RECV_BODY => Some (set c)
      | STATE_REQ_PENDING => Some (set c)
      | STATE_SEND_HEADERS =>
          if bool_decide (hs_state s = STATE_REQ_PENDING) then k ← hs_slot s; Some (set (add_half_closed k 1 c)) else None
      | STATE_SEND_BODY =>
          if bool_decide (hs_state s = STATE_SEND_HEADERS) then k ← hs_slot s; Some (add_send_body k 1 (set c)) else None
      | STATE_SEND_BODY_IS_FINAL => if bool_decide (hs_state s = STATE_SEND_BODY) then Some (set c) else None
      | STATE_END_STREAM =>
          k ← hs_slot s;
          c ← match hs_state s with
              | STATE_IDLE | STATE_RECV_BODY | STATE_RECV_HEADERS | STATE_REQ_PENDING => Some c
              | STATE_SEND_HEADERS => Some (add_half_closed k (-1) c)
              | STATE_SEND_BODY | STATE_SEND_BODY_IS_FINAL => Some (add_send_body k (-1) (add_half_closed k (-1) c))
              | STATE_END_STREAM => None
              end;
          let c := upd_stream id (set_hs_slot None) (add_open k (-1) (set c)) in
          if hs_blocked_by_server s then h2o_http2_stream_set_blocked_by_server c id false else Some c
      end;
  Some (update_super_state c).

(** [h2o_init_request], of the members that are modelled *)
Definition init_request : h2request := Request None None None None None [] 0 SIZE_MAX None [] None None.

Definition h2o_http2_stream_open (c : h2conn) (stream_id : Z) : h2conn :=
  let s := H2Stream STATE_IDLE (Some SlotPriority) false false false BODY_NONE false false false
             (h2o_http2_window_init (hc_initial_window_size c))
             (h2o_http2_window_init H2O_HTTP2_SETTINGS_HOST_STREAM_INITIAL_WINDOW_SIZE) 0
             (Rx None 0 init_request None false false false) in
  add_open SlotPriority 1 (set_streams (<[stream_id := s]> (hc_streams c)) c).

Definition h2o_http2_stream_prepare_for_request (c : h2conn) (id : Z) : option h2conn :=
  if bool_decide (hc_state c = CONN_IS_CLOSING) then None
  else
    let c :=
      if h2o_http2_stream_is_push id then
        if hc_push_max_open c <? id then set_max_open (hc_pull_max_open c) id c else c
      else if bool_decide (hc_state c = CONN_OPEN) then
        if hc_pull_max_open c <? id then set_max_open id (hc_push_max_open c) c else c
      else c in
    c ← h2o_http2_stream_set_state c id STATE_RECV_HEADERS;
    Some (upd_stream id (set_hs_output_window (h2o_http2_window_init (hc_initial_window_size c))) c).

Definition set_req_body_state (c : h2conn) (id : Z) (new_state : en_h2o_req_body_state_t) : option h2conn :=
  s ← hc_streams c !! id;
  if negb (body_rank (hs_body_state s) <? body_rank new_state) then None
  else
    c ← match new_state with
        | BODY_NONE => None
        | BODY_CLOSE_DELIVERED =>
            if hs_proceed_req s then None
            else if hs_streamed s then
              Some (set_num_streaming (hc_req_streaming_in_progress c - 1)
                      (if hs_is_tunnel_req s then hc_tunnel c - 1 else hc_tunnel c) c)
            else Some c
        | _ => Some c
        end;
    Some (upd_stream id (set_hs_body_state new_state) c).

(** ** Lists of streams *)

Definition all_links (c : h2conn) : list Z := hc_pending_reqs c ++ hc_streams_to_proceed c ++ hc_blocked_streams c.
Definition is_linked (c : h2conn) (id : Z) : bool := bool_decide (id ∈ all_links c).

(** [h2o_linklist_insert] asserts that the link is free. *)
Definition link_pending (c : h2conn) (id : Z) : option h2conn :=
  if is_linked c id then None
  else Some (set_links (hc_pending_reqs c ++ [id]) (hc_streams_to_proceed c) (hc_blocked_streams c) c).
Definition link_to_proceed (c : h2conn) (id : Z) : option h2conn :=
  if is_linked c id then None
  else Some (set_links (hc_pending_reqs c) (hc_streams_to_proceed c ++ [id]) (hc_blocked_streams c) c).
Definition unlink (id : Z) (c : h2conn) : h2conn :=
  set_links (filter (.≠ id) (hc_pending_reqs c)) (filter (.≠ id) (hc_streams_to_proceed c)) (filter (.≠ id) (hc_blocked_streams c)) c.

(** The link behind that of [id]; [Some None] is the anchor. *)
Fixpoint next_in (l : list Z) (id : Z) : option (option Z) :=
  match l with [] => None | x :: l => if x =? id then Some (head l) else next_in l id end.

(** ** Writes *)

(** A write is gathered by a timer of zero length, unless the socket is writing. *)
Definition request_gathered_write (c : h2conn) : option h2conn :=
  if negb (conn_rank (hc_state c) <? conn_rank CONN_IS_CLOSING) then None
  else if negb (io_is_writing (hc_io c)) && negb (io_timeout_linked (hc_io c))
  then Some (upd_io (set_io_timeout_linked true) c) else Some c.

(** The pause of reading when the buffers are full is left out. *)
Definition h2o_http2_conn_request_write (c : h2conn) : option h2conn :=
  if bool_decide (hc_state c = CONN_IS_CLOSING) then Some c else request_gathered_write c.

Definition stream_send_error (c : h2conn) (stream_id errnum : Z) : option h2conn :=
  if (stream_id =? 0) || negb (conn_rank (hc_state c) <? conn_rank CONN_IS_CLOSING) then None
  else
    buf ← h2o_http2__encode_rst_stream_frame (hc_buf c) stream_id (- errnum);
    h2o_http2_conn_request_write (set_hc_buf buf c).

(** ** Windows for request bodies *)

(** Also the window after the update. *)
Definition send_window_update (c : h2conn) (stream_id window delta : Z) : option (h2conn * Z) :=
  if INT32_MAX <? delta then None
  else
    buf ← h2o_http2_encode_window_update_frame (hc_buf c) stream_id delta;
    c ← h2o_http2_conn_request_write (set_hc_buf buf c);
    Some (c, (h2o_http2_window_update window delta).1).

(** The comparison is between a [size_t] and an [ssize_t]: a window below zero becomes a number above all counts of octets. *)
Definition update_stream_input_window (c : h2conn) (id delta : Z) : option h2conn :=
  s ← hc_streams c !! id;
  let bytes_unnotified := hs_bytes_unnotified s + delta in
  let avail := h2o_http2_window_get_avail (hs_input_window s) in
  if (0 <=? avail) && (avail <=? bytes_unnotified) then
    '(c, window) ← send_window_update c id avail bytes_unnotified;
    Some (upd_stream id (set_hs_input_window window 0) c)
  else Some (upd_stream id (set_hs_input_window avail bytes_unnotified) c).

(** ** Requests *)

(** What the connection calls of the core and of the application. *)
Class App := {
  (** [h2o_process_request], from the choice of the handler on *)
  app_process : h2conn -> Z -> option h2conn;
  (** [h2o_send_error_400] and [h2o_send_error_417]; the last argument is the status *)
  app_send_error : h2conn -> Z -> Z -> option h2conn;
  (** the octets that [h2o_send_informational] writes for a status of 100 *)
  app_informational : h2conn -> Z -> bytes;
  (** [write_req.cb]: nonzero is a failure *)
  app_write_req : h2conn -> Z -> bool -> option (h2conn * Z);
  (** [h2o_req_can_stream_request] and [h2o_req_should_forward_expect] *)
  app_can_stream_request : h2conn -> Z -> bool;
  app_should_forward_expect : h2conn -> Z -> bool;
  (** the capacity of the write buffer, and what [h2o_socket_prepare_for_latency_optimized_write] returns *)
  sock_capacity : h2conn -> Z;
  sock_cwnd_left : h2conn -> Z;
  (** whether [sock->ssl] is set *)
  sock_ssl : bool }.

Section Requests.
Variable conf : config.
Context {app : App}.

Definition can_run_requests (c : h2conn) : bool :=
  ns_half_closed (hc_num c SlotPull) + ns_half_closed (hc_num c SlotPush) <? max_concurrent_requests_per_connection conf.

Definition h2o_process_request (c : h2conn) (id : Z) : option h2conn :=
  s ← hc_streams c !! id;
  if rx_process_called (hs_rx s) then None else app_process (upd_stream id (set_hs_rx set_rx_process_called) c) id.

Definition process_request (c : h2conn) (id : Z) : option h2conn :=
  s ← hc_streams c !! id;
  c ← (if hs_proceed_req s then
         if bool_decide (hs_body_state s = BODY_NONE \/ hs_body_state s = BODY_CLOSE_DELIVERED) then None
         else
           let c := set_num_streaming (hc_req_streaming_in_progress c + 1)
                      (if hs_is_tunnel_req s then hc_tunnel c + 1 else hc_tunnel c) (upd_stream id set_hs_streamed c) in
           update_stream_input_window c id (active_stream_window_size conf - H2O_HTTP2_SETTINGS_HOST_STREAM_INITIAL_WINDOW_SIZE)
       else if state_rank (hs_state s) <? state_rank STATE_SEND_HEADERS then
         c ← h2o_http2_stream_set_state c id STATE_REQ_PENDING;
         h2o_http2_stream_set_state c id STATE_SEND_HEADERS
       else Some c);
  let c := if negb (h2o_http2_stream_is_push id) && (hc_pull_max_processed c <? id) then set_max_processed id c else c in
  h2o_process_request c id.

(** The loop over the links, from [link]; the flag is [ran_one_request]. *)
Fixpoint pending_pass (fuel : nat) (c : h2conn) (link : option Z) (ran : bool) : option (h2conn * bool) :=
  match link with
  | None => Some (c, ran)
  | Some id =>
      if negb (can_run_requests c) then Some (c, ran)
      else
        match fuel with
        | O => None
        | S fuel =>
            lnext ← next_in (hc_pending_reqs c) id;
            s ← hc_streams c !! id;
            if hs_proceed_req s &&
               (max_concurrent_streaming_requests_per_connection conf <=? hc_req_streaming_in_progress c - hc_tunnel c)
            then pending_pass fuel c lnext ran
            else
              c ← process_request (unlink id c) id;
              pending_pass fuel c lnext true
        end
  end.

Fixpoint run_pending_loop (fuel : nat) (c : h2conn) : option h2conn :=
  match fuel with
  | O => None
  | S fuel =>
      '(c, ran) ← pending_pass (length (hc_pending_reqs c)) c (head (hc_pending_reqs c)) false;
      if ran && negb (is_nil (hc_pending_reqs c)) then run_pending_loop fuel c else Some c
  end.

Definition run_pending_requests (c : h2conn) : option h2conn :=
  if hc_process_delay_linked c then Some c else run_pending_loop (S (length (hc_pending_reqs c))) c.

Definition execute_or_enqueue_request_core (c : h2conn) (id : Z) : option h2conn :=
  c ← link_pending c id;
  run_pending_requests c.

(** ** Ends of streams *)

(** [dos_mitigation] at the end of a stream. *)
Definition charge_reset (s : h2stream) (c : h2conn) : h2conn :=
  if hs_reset_by_peer s || hs_reset_by_peer_action s then
    let budget := if 0 <? hc_reset_budget c then hc_reset_budget c - 1 else hc_reset_budget c in
    set_dos budget (if (budget =? 0) && negb (dos_delay conf =? 0) then true else hc_process_delay_linked c) c
  else if hc_reset_budget c <? max_concurrent_requests_per_connection conf
  then set_dos (hc_reset_budget c + 1) (hc_process_delay_linked c) c
  else c.

(** [h2o_http2_conn_unregister_stream].  The stream leaves the table after the assignments to its members here; none of
    them looks at the table. *)
Definition h2o_http2_conn_unregister_stream (c : h2conn) (id : Z) : option h2conn :=
  s ← hc_streams c !! id;
  c ← (if negb (body_rank (hs_body_state s) =? 0) && (body_rank (hs_body_state s) <? body_rank BODY_CLOSE_DELIVERED) then
         set_req_body_state (upd_stream id (set_hs_proceed_req false) c) id BODY_CLOSE_DELIVERED
       else Some c);
  c ← (if hs_blocked_by_server s then h2o_http2_stream_set_blocked_by_server c id false else Some c);
  let c := charge_reset s c in
  c ← match hs_state s with
      | STATE_RECV_BODY => Some (unlink id c)
      | STATE_IDLE | STATE_RECV_HEADERS => if is_linked c id then None else Some c
      | STATE_REQ_PENDING => if is_linked c id then Some (unlink id c) else None
      | STATE_SEND_HEADERS | STATE_SEND_BODY | STATE_SEND_BODY_IS_FINAL | STATE_END_STREAM => Some (unlink id c)
      end;
  c ← (if bool_decide (hs_state s = STATE_END_STREAM) then Some c else h2o_http2_stream_set_state c id STATE_END_STREAM);
  let c := set_streams (delete id (hc_streams c)) c in
  if conn_rank (hc_state c) <? conn_rank CONN_IS_CLOSING then run_pending_requests c else Some c.

(** The rest of [h2o_http2_stream_close] releases memory. *)
Definition h2o_http2_stream_close (c : h2conn) (id : Z) : option h2conn := h2o_http2_conn_unregister_stream c id.

Definition h2o_http2_stream_reset (c : h2conn) (id : Z) : option h2conn :=
  s ← hc_streams c !! id;
  match hs_state s with
  | STATE_IDLE | STATE_RECV_HEADERS | STATE_RECV_BODY | STATE_REQ_PENDING => h2o_http2_stream_close c id
  | STATE_SEND_HEADERS | STATE_SEND_BODY | STATE_SEND_BODY_IS_FINAL =>
      c ← h2o_http2_stream_set_state c id STATE_END_STREAM;
      if is_linked c id then Some c else h2o_http2_stream_close c id
  | STATE_END_STREAM => if is_linked c id then Some c else h2o_http2_stream_close c id
  end.

Definition reset_stream_if_disregarded (c : h2conn) (id : Z) : option (h2conn * bool) :=
  if negb (h2o_http2_stream_is_push id) && (hc_pull_max_open c <? id) then
    c ← h2o_http2_stream_reset c id;
    Some (c, true)
  else Some (c, false).

Definition execute_or_enqueue_request (c : h2conn) (id : Z) : option h2conn :=
  s ← hc_streams c !! id;
  if negb (bool_decide (hs_state s = STATE_RECV_HEADERS \/ hs_state s = STATE_REQ_PENDING)) then None
  else
    '(c, disregarded) ← reset_stream_if_disregarded c id;
    if (disregarded : bool) then Some c
    else
      c ← h2o_http2_stream_set_state c id STATE_REQ_PENDING;
      c ← (if hs_blocked_by_server s then Some c else h2o_http2_stream_set_blocked_by_server c id true);
      execute_or_enqueue_request_core c id.

(** [close_connection_now]: the streams are closed and the counters checked; the rest releases memory. *)
Fixpoint close_streams (c : h2conn) (ids : list Z) : option h2conn :=
  match ids with
  | [] => Some c
  | id :: ids => c ← h2o_http2_stream_close c id; close_streams c ids
  end.

Definition num_is_zero (n : h2o_http2_conn_num_streams_t) : bool :=
  (ns_open n =? 0) && (ns_half_closed n =? 0) && (ns_send_body n =? 0).

Definition close_connection_now (c : h2conn) : option h2conn :=
  let c := set_conn_state CONN_IS_CLOSING c in
  if io_timeout_linked (hc_io c) then None
  else
    c ← close_streams c (map_to_list (hc_streams c)).*1;
    if num_is_zero (hc_num c SlotPull) && (ns_half_closed (hc_num c SlotPush) =? 0) && (ns_send_body (hc_num c SlotPush) =? 0) &&
       (ns_open (hc_num c SlotPriority) =? 0) && (hc_blocked_by_server c =? 0) && (hc_req_streaming_in_progress c =? 0) &&
       (hc_tunnel c =? 0) && is_nil (hc_pending_reqs c) && is_nil (hc_streams_to_proceed c)
    then Some c else None.

(** The flag: the connection is gone. *)
Definition close_connection (c : h2conn) : option (h2conn * bool) :=
  let c := set_conn_state CONN_IS_CLOSING c in
  if io_in_flight (hc_io c) || io_timeout_linked (hc_io c) then Some (c, false)
  else c ← close_connection_now c; Some (c, true).

(** [create_conn] *)
Definition create_conn : h2conn :=
  H2Conn ∅ 0 0 0 (fun _ => NumStreams 0 0 0) 0 0 0 CONN_OPEN H2O_CONN_STATE_ACTIVE false false [] [] []
    (max_concurrent_requests_per_connection conf) false []
    (ConnIo EXPECT_PREFACE None (h2o_http2_window_init H2O_HTTP2_SETTINGS_HOST_CONNECTION_WINDOW_SIZE)
       (h2o_http2_window_init (initial_window_size H2O_HTTP2_SETTINGS_DEFAULT)) H2O_HTTP2_SETTINGS_DEFAULT
       (empty_table (header_table_size H2O_HTTP2_SETTINGS_DEFAULT)) false false false).
End Requests.
