(* ===== verification/Http2StreamsOk.v ===== *)
(** * The counters of a connection count its streams

    The invariant of the streams, the lists and the counters of a connection, and its preservation by the
    operations of [Http2Streams]. *)
From S2P Require Import Prelude HpackInt HeaderTable HpackParse Http2Frame Http2Send Http2Streams.
From Stdlib Require Import ZArith Lia.
From stdpp Require Import base numbers option strings gmap functions list.
Open Scope Z_scope.

(** ** Counting *)

Definition count (P : h2stream -> bool) (m : gmap Z h2stream) : Z := map_fold (fun _ s n => Z.b2z (P s) + n) 0 m.

Lemma count_empty P : count P ∅ = 0.
Proof. apply map_fold_empty. Qed.

Lemma count_insert_new P m id s : m !! id = None -> count P (<[id := s]> m) = Z.b2z (P s) + count P m.
Proof. intros Hn. unfold count. rewrite map_fold_insert_L; [done| |done]. intros. lia. Qed.

Lemma count_delete P m id s : m !! id = Some s -> count P (delete id m) = count P m - Z.b2z (P s).
Proof.
  intros Hs. rewrite <- (insert_delete_id m id s Hs) at 2. rewrite count_insert_new by apply lookup_delete_eq. lia.
Qed.

Lemma count_insert P m id s s' :
  m !! id = Some s -> count P (<[id := s']> m) = count P m - Z.b2z (P s) + Z.b2z (P s').
Proof.
  intros Hs. rewrite <- insert_delete_eq, count_insert_new by apply lookup_delete_eq. rewrite (count_delete _ _ _ _ Hs). lia.
Qed.

Lemma count_nonneg P m : 0 <= count P m.
Proof.
  induction m as [|id s m Hn IH] using map_ind; [by rewrite count_empty|].
  rewrite count_insert_new by done. destruct (P s); simpl; lia.
Qed.

(** ** The invariant *)

Definition home_slot (id : Z) (x : h2o_http2_stream_state_t) : option slot :=
  match x with
  | STATE_IDLE => Some SlotPriority
  | STATE_END_STREAM => None
  | _ => Some (if h2o_http2_stream_is_push id then SlotPush else SlotPull)
  end.

Definition in_slot (k : slot) (s : h2stream) : bool := bool_decide (hs_slot s = Some k).
Definition is_half_closed (s : h2stream) : bool :=
  match hs_state s with STATE_SEND_HEADERS | STATE_SEND_BODY | STATE_SEND_BODY_IS_FINAL => true | _ => false end.
Definition sends_body (s : h2stream) : bool :=
  match hs_state s with STATE_SEND_BODY | STATE_SEND_BODY_IS_FINAL => true | _ => false end.
Definition is_streaming (s : h2stream) : bool := hs_streamed s && negb (bool_decide (hs_body_state s = BODY_CLOSE_DELIVERED)).

Definition counted (m : gmap Z h2stream) (k : slot) : h2o_http2_conn_num_streams_t :=
  NumStreams (count (in_slot k) m) (count (fun s => in_slot k s && is_half_closed s) m) (count (fun s => in_slot k s && sends_body s) m).

(** A stream by itself. *)
Record stream_ok (id : Z) (s : h2stream) : Prop := {
  so_slot : hs_slot s = home_slot id (hs_state s);
  so_streamed : hs_streamed s = true -> hs_body_state s <> BODY_NONE }.

(** A request that waits for its turn. *)
Definition waits (s : h2stream) : Prop :=
  hs_streamed s = false /\
  (hs_state s = STATE_REQ_PENDING /\ hs_proceed_req s = false \/
   hs_state s = STATE_RECV_BODY /\ hs_proceed_req s = true /\ hs_body_state s = BODY_OPEN).

(** A stream that has to be in the queue: a complete request that was not started, or one that waits to be streamed. *)
Definition queued (s : h2stream) : Prop :=
  hs_state s = STATE_REQ_PENDING \/ hs_proceed_req s = true /\ hs_streamed s = false.

(** A stream that may be linked; one whose body is being received is in the queue, or its body is streamed. *)
Definition linkable (s : h2stream) (queued : Prop) : Prop :=
  hs_state s <> STATE_IDLE /\ hs_state s <> STATE_RECV_HEADERS /\ (hs_state s = STATE_RECV_BODY -> hs_streamed s = true \/ queued).

(** The counters are exact. *)
Record counters_ok (c : h2conn) : Prop := {
  ct_num k : hc_num c k = counted (hc_streams c) k;
  ct_blocked : hc_blocked_by_server c = count hs_blocked_by_server (hc_streams c);
  ct_streaming : hc_req_streaming_in_progress c = count is_streaming (hc_streams c);
  ct_tunnel : hc_tunnel c = count (fun s => is_streaming s && hs_is_tunnel_req s) (hc_streams c);
  ct_stream id s : hc_streams c !! id = Some s -> stream_ok id s }.

(** The lists hold each stream at most once, and streams of the right states. *)
Record links_ok (c : h2conn) : Prop := {
  lk_nodup : NoDup (all_links c);
  lk_dom id : id ∈ all_links c -> exists s, hc_streams c !! id = Some s /\ linkable s (id ∈ hc_pending_reqs c);
  lk_pending id s : id ∈ hc_pending_reqs c -> hc_streams c !! id = Some s -> waits s;
  lk_req_pending id s : hc_streams c !! id = Some s -> queued s -> id ∈ hc_pending_reqs c }.

(** How far the request of a stream is: its body, who waits for it and where the response stands. *)
Definition phase (s : h2stream) : Prop :=
  match hs_body_state s with
  | BODY_NONE =>
      hs_proceed_req s = false /\ hs_streamed s = false /\ hs_state s <> STATE_RECV_BODY /\ rx_write_req (hs_rx s) = false /\
      default [] (rx_buf (hs_rx s)) = []
  | BODY_OPEN_BEFORE_FIRST_FRAME =>
      hs_state s = STATE_RECV_BODY /\ hs_proceed_req s = false /\ hs_streamed s = false /\ rx_write_req (hs_rx s) = false /\
      rx_buf (hs_rx s) <> None
  | BODY_OPEN =>
      rx_buf (hs_rx s) <> None /\
      if hs_streamed s
      then hs_proceed_req s = true /\ rx_process_called (hs_rx s) = true /\ hs_state s <> STATE_REQ_PENDING /\
           state_rank STATE_RECV_BODY <= state_rank (hs_state s)
      else hs_state s = STATE_RECV_BODY /\ rx_write_req (hs_rx s) = false
  | BODY_CLOSE_QUEUED =>
      hs_streamed s = true /\ hs_proceed_req s = true /\ rx_entity (hs_rx s) <> None /\ rx_buf (hs_rx s) <> None /\
      state_rank STATE_SEND_HEADERS <= state_rank (hs_state s)
  | BODY_CLOSE_DELIVERED => hs_proceed_req s = false /\ state_rank STATE_REQ_PENDING <= state_rank (hs_state s)
  end.

(** The window of a request body, with the octets that are not acknowledged and those in the buffer, adds up to the
    size that was announced; that size grows once, when the body is first read. *)
Definition buffered (s : h2stream) : Z := len (default [] (rx_buf (hs_rx s))).
Definition window_sum (s : h2stream) : Z := hs_input_window s + hs_bytes_unnotified s + buffered s.
Definition not_grown (s : h2stream) : Prop :=
  hs_streamed s = false /\
  (hs_body_state s = BODY_NONE \/ hs_body_state s = BODY_OPEN_BEFORE_FIRST_FRAME \/ hs_body_state s = BODY_OPEN /\ hs_proceed_req s = true).

(** The bit of [:protocol] is set when there is one. *)
Definition protocol_ok (r : h2request) : Prop := is_Some (rq_protocol r) -> Z.testbit (rq_map r) 4 = true.

Section Invariant.
Variable conf : config.

Record stream_good (id : Z) (s : h2stream) : Prop := {
  sg_id : 0 < id;
  sg_phase : phase s;
  sg_called : rx_process_called (hs_rx s) = true -> hs_streamed s = true \/ state_rank STATE_SEND_HEADERS <= state_rank (hs_state s);
  sg_entity e : rx_entity (hs_rx s) = Some e -> e `prefix_of` default [] (rx_buf (hs_rx s));
  sg_unnotified : 0 <= hs_bytes_unnotified s;
  sg_window : window_sum s <= active_stream_window_size conf;
  sg_not_grown : not_grown s -> window_sum s = H2O_HTTP2_SETTINGS_HOST_STREAM_INITIAL_WINDOW_SIZE;
  sg_request : protocol_ok (rx_input (hs_rx s)) }.

Record conn_ok (c : h2conn) : Prop := {
  co_counters : counters_ok c;
  co_links : links_ok c;
  co_budget : 0 <= hc_reset_budget c <= max_concurrent_requests_per_connection conf;
  co_streams id s : hc_streams c !! id = Some s -> stream_good id s;
  co_ids id s : hc_state c = CONN_OPEN -> h2o_http2_stream_is_push id = false -> hc_streams c !! id = Some s ->
    hs_state s <> STATE_IDLE -> id <= hc_pull_max_open c }.
End Invariant.

(** A request that was started is not in the queue any more. *)
Lemma not_queued s :
  phase s -> hs_state s <> STATE_REQ_PENDING -> (hs_state s = STATE_RECV_BODY -> hs_streamed s = true) -> ~ queued s.
Proof.
  intros Hp Hst Hb [?|[Hpr Hsd]]; [done|]. unfold phase in Hp. rewrite Hsd in Hp, Hb. destruct (hs_body_state s).
  - destruct Hp; congruence.
  - destruct Hp as (_ & ? & _). congruence.
  - destruct Hp as (_ & E & _). by specialize (Hb E).
  - by destruct Hp.
  - destruct Hp; congruence.
Qed.

(** ** One stream changes *)

(** What one stream adds to the counters of a slot. *)
Definition share (k : slot) (s : h2stream) : h2o_http2_conn_num_streams_t :=
  NumStreams (Z.b2z (in_slot k s)) (Z.b2z (in_slot k s && is_half_closed s)) (Z.b2z (in_slot k s && sends_body s)).
Definition exchange (n old new : h2o_http2_conn_num_streams_t) : h2o_http2_conn_num_streams_t :=
  NumStreams (ns_open n - ns_open old + ns_open new) (ns_half_closed n - ns_half_closed old + ns_half_closed new)
    (ns_send_body n - ns_send_body old + ns_send_body new).
Definition num_add (n : h2o_http2_conn_num_streams_t) (o h b : Z) : h2o_http2_conn_num_streams_t :=
  NumStreams (ns_open n + o) (ns_half_closed n + h) (ns_send_body n + b).

(** The other counters, and the members that changes of one stream leave alone. *)
Definition others (c : h2conn) : Z * Z * Z := (hc_blocked_by_server c, hc_req_streaming_in_progress c, hc_tunnel c).
Definition core_io (c : h2conn) :=
  (io_read_expect (hc_io c), io_headers_unparsed (hc_io c), io_input_window (hc_io c), io_write_window (hc_io c),
   io_peer_settings (hc_io c), io_input_header_table (hc_io c), io_in_flight (hc_io c), io_is_writing (hc_io c)).
Definition rest (c : h2conn) :=
  (hc_pending_reqs c, hc_streams_to_proceed c, hc_blocked_streams c, hc_state c, hc_reset_budget c, hc_pull_max_open c,
   hc_process_delay_linked c, core_io c).
Definition share3 (s : h2stream) : Z * Z * Z :=
  (Z.b2z (hs_blocked_by_server s), Z.b2z (is_streaming s), Z.b2z (is_streaming s && hs_is_tunnel_req s)).
Definition exchange3 (n old new : Z * Z * Z) : Z * Z * Z :=
  (n.1.1 - old.1.1 + new.1.1, n.1.2 - old.1.2 + new.1.2, n.2 - old.2 + new.2).

Lemma counted_insert m id s s' k :
  m !! id = Some s -> counted (<[id := s']> m) k = exchange (counted m k) (share k s) (share k s').
Proof. intros Hs. unfold counted, exchange, share. simpl. by rewrite !(count_insert _ _ _ _ _ Hs). Qed.

(** The counters stay exact when they are changed by the difference that the stream makes. *)
Lemma counters_insert c c' id s s' :
  counters_ok c -> hc_streams c !! id = Some s -> hc_streams c' = <[id := s']> (hc_streams c) -> stream_ok id s' ->
  (forall k, hc_num c' k = exchange (hc_num c k) (share k s) (share k s')) ->
  others c' = exchange3 (others c) (share3 s) (share3 s') -> counters_ok c'.
Proof.
  intros [Hn Hb Hs Ht Hok] Hid Hm Hf Hn' [= Hb' Hs' Ht']. constructor; rewrite ?Hm.
  - intros k. by rewrite (counted_insert _ _ _ _ _ Hid), Hn', Hn.
  - by rewrite (count_insert _ _ _ _ _ Hid), Hb', Hb.
  - by rewrite (count_insert _ _ _ _ _ Hid), Hs', Hs.
  - by rewrite (count_insert _ _ _ _ _ Hid), Ht', Ht.
  - intros j x [[<- <-]|[Hne Hj]]%lookup_insert_Some; eauto.
Qed.

(** How the assignments show in the members that matter. *)
Ltac assignment := repeat match goal with |- context [let (_, _, _) := ?n in _] => destruct n eqn:? end;
  repeat match goal with c : h2conn |- _ => destruct c end; try done.

Lemma num_add_open k d c j : hc_num (add_open k d c) j = if decide (k = j) then num_add (hc_num c j) d 0 0 else hc_num c j.
Proof.
  unfold add_open. destruct (hc_num c k) eqn:E. destruct c. simpl in *. unfold insert, fn_insert.
  destruct (decide (k = j)) as [<-|]; [rewrite E|done]. unfold num_add. simpl. f_equal; lia.
Qed.
Lemma num_add_half k d c j : hc_num (add_half_closed k d c) j = if decide (k = j) then num_add (hc_num c j) 0 d 0 else hc_num c j.
Proof.
  unfold add_half_closed. destruct (hc_num c k) eqn:E. destruct c. simpl in *. unfold insert, fn_insert.
  destruct (decide (k = j)) as [<-|]; [rewrite E|done]. unfold num_add. simpl. f_equal; lia.
Qed.
Lemma num_add_body k d c j : hc_num (add_send_body k d c) j = if decide (k = j) then num_add (hc_num c j) 0 0 d else hc_num c j.
Proof.
  unfold add_send_body. destruct (hc_num c k) eqn:E. destruct c. simpl in *. unfold insert, fn_insert.
  destruct (decide (k = j)) as [<-|]; [rewrite E|done]. unfold num_add. simpl. f_equal; lia.
Qed.
Lemma add_open_streams k d c : hc_streams (add_open k d c) = hc_streams c.
Proof. unfold add_open. assignment. Qed.
Lemma add_open_others k d c : others (add_open k d c) = others c.
Proof. unfold add_open. assignment. Qed.
Lemma add_open_rest k d c : rest (add_open k d c) = rest c.
Proof. unfold add_open. assignment. Qed.
Lemma add_half_streams k d c : hc_streams (add_half_closed k d c) = hc_streams c.
Proof. unfold add_half_closed. assignment. Qed.
Lemma add_half_others k d c : others (add_half_closed k d c) = others c.
Proof. unfold add_half_closed. assignment. Qed.
Lemma add_half_rest k d c : rest (add_half_closed k d c) = rest c.
Proof. unfold add_half_closed. assignment. Qed.
Lemma add_body_streams k d c : hc_streams (add_send_body k d c) = hc_streams c.
Proof. unfold add_send_body. assignment. Qed.
Lemma add_body_others k d c : others (add_send_body k d c) = others c.
Proof. unfold add_send_body. assignment. Qed.
Lemma add_body_rest k d c : rest (add_send_body k d c) = rest c.
Proof. unfold add_send_body. assignment. Qed.
Lemma upd_num id f c : hc_num (upd_stream id f c) = hc_num c.
Proof. assignment. Qed.
Lemma upd_others id f c : others (upd_stream id f c) = others c.
Proof. assignment. Qed.
Lemma upd_rest id f c : rest (upd_stream id f c) = rest c.
Proof. assignment. Qed.
Lemma upd_streams id f c : hc_streams (upd_stream id f c) = alter f id (hc_streams c).
Proof. assignment. Qed.
Lemma super_streams c : hc_streams (update_super_state c) = hc_streams c.
Proof. unfold update_super_state. destruct (negb _); [destruct (_ && _)|]; assignment. Qed.
Lemma super_num c : hc_num (update_super_state c) = hc_num c.
Proof. unfold update_super_state. destruct (negb _); [destruct (_ && _)|]; assignment. Qed.
Lemma super_others c : others (update_super_state c) = others c.
Proof. unfold update_super_state. destruct (negb _); [destruct (_ && _)|]; assignment. Qed.
Lemma super_rest c : rest (update_super_state c) = rest c.
Proof. unfold update_super_state. destruct (negb _); [destruct (_ && _)|]; assignment. Qed.
Lemma blocked_streams x c : hc_streams (set_num_blocked x c) = hc_streams c.
Proof. assignment. Qed.
Lemma streaming_streams x t c : hc_streams (set_num_streaming x t c) = hc_streams c.
Proof. assignment. Qed.
Lemma blocked_num x c : hc_num (set_num_blocked x c) = hc_num c.
Proof. assignment. Qed.
Lemma streaming_num x t c : hc_num (set_num_streaming x t c) = hc_num c.
Proof. assignment. Qed.
Lemma blocked_rest x c : rest (set_num_blocked x c) = rest c.
Proof. assignment. Qed.
Lemma streaming_rest x t c : rest (set_num_streaming x t c) = rest c.
Proof. assignment. Qed.
Lemma blocked_others x c : others (set_num_blocked x c) = (x, (others c).1.2, (others c).2).
Proof. assignment. Qed.
Lemma streaming_others x t c : others (set_num_streaming x t c) = ((others c).1.1, x, t).
Proof. assignment. Qed.
Lemma others_eq c c' : others c = others c' ->
  hc_blocked_by_server c = hc_blocked_by_server c' /\ hc_req_streaming_in_progress c = hc_req_streaming_in_progress c' /\ hc_tunnel c = hc_tunnel c'.
Proof. by intros [= -> -> ->]. Qed.
Lemma add_open_blocked k d c : hc_blocked_by_server (add_open k d c) = hc_blocked_by_server c.
Proof. apply (others_eq (add_open k d c)), add_open_others. Qed.
Lemma add_half_blocked k d c : hc_blocked_by_server (add_half_closed k d c) = hc_blocked_by_server c.
Proof. apply (others_eq (add_half_closed k d c)), add_half_others. Qed.
Lemma add_body_blocked k d c : hc_blocked_by_server (add_send_body k d c) = hc_blocked_by_server c.
Proof. apply (others_eq (add_send_body k d c)), add_body_others. Qed.
Lemma upd_blocked id f c : hc_blocked_by_server (upd_stream id f c) = hc_blocked_by_server c.
Proof. assignment. Qed.

Create Rewrite HintDb conn.
#[export] Hint Rewrite num_add_open num_add_half num_add_body add_open_streams add_open_others add_open_rest add_half_streams add_half_others add_half_rest add_body_streams add_body_others add_body_rest upd_num upd_others upd_rest upd_streams super_streams super_num super_others super_rest blocked_streams streaming_streams blocked_num streaming_num blocked_rest streaming_rest blocked_others streaming_others
  add_open_blocked add_half_blocked add_body_blocked upd_blocked : conn.

Create HintDb conn.

Lemma alter_insert_some {A} (m : gmap Z A) id x f : m !! id = Some x -> alter f id m = <[id := f x]> m.
Proof.
  intros Hx. apply map_eq. intros j. destruct (decide (j = id)) as [->|Hj].
  - by rewrite lookup_alter_eq, Hx, lookup_insert_eq.
  - by rewrite lookup_alter_ne, lookup_insert_ne.
Qed.

Lemma alter_over {A} (m : gmap Z A) id x f : alter f id (<[id := x]> m) = <[id := f x]> m.
Proof. rewrite (alter_insert_some _ _ x) by apply lookup_insert_eq. apply insert_insert_eq. Qed.

(** ** Changes of state *)

(** The changes that the code makes. *)
Definition allowed (old new : h2o_http2_stream_state_t) : bool :=
  match new with
  | STATE_IDLE => false
  | STATE_RECV_HEADERS => bool_decide (old = STATE_IDLE)
  | STATE_RECV_BODY => bool_decide (old = STATE_RECV_HEADERS)
  | STATE_REQ_PENDING => bool_decide (old = STATE_RECV_HEADERS \/ old = STATE_RECV_BODY \/ old = STATE_REQ_PENDING)
  | STATE_SEND_HEADERS => bool_decide (old = STATE_REQ_PENDING)
  | STATE_SEND_BODY => bool_decide (old = STATE_SEND_HEADERS)
  | STATE_SEND_BODY_IS_FINAL => bool_decide (old = STATE_SEND_BODY)
  | STATE_END_STREAM => negb (bool_decide (old = STATE_END_STREAM))
  end.

Definition moved (id : Z) (new : h2o_http2_stream_state_t) (s : h2stream) : h2stream :=
  set_hs_blocked (if bool_decide (new = STATE_END_STREAM) then false else hs_blocked_by_server s)
    (set_hs_slot (home_slot id new) (set_hs_state new s)).

(** Discharges the three claims about an explicit connection. *)
Ltac settle Hc Hs Hmov :=
  let Hm := fresh "Hm" in eexists; split; [reflexivity|];
  match goal with |- counters_ok ?x /\ hc_streams ?x = ?m /\ _ =>
    assert (Hm : hc_streams x = m) by (autorewrite with conn; rewrite (alter_insert_some _ _ _ _ Hs), ?alter_over; reflexivity)
  end;
  split; [|split; [exact Hm|autorewrite with conn; reflexivity]];
  apply (counters_insert _ _ _ _ _ Hc Hs Hm Hmov);
  [intros k; autorewrite with conn; unfold exchange, share, num_add, in_slot, is_half_closed, sends_body; simpl;
   destruct k; try (destruct (h2o_http2_stream_is_push _)); simpl;
   match goal with |- context [hc_num ?c ?k] => destruct (hc_num c k) end; simpl; f_equal; lia
  |autorewrite with conn; unfold exchange3, share3, is_streaming, others; simpl; repeat f_equal; lia].

Lemma set_state_ok c id s new :
  counters_ok c -> hc_streams c !! id = Some s -> allowed (hs_state s) new = true ->
  exists c', h2o_http2_stream_set_state c id new = Some c' /\ counters_ok c' /\
    hc_streams c' = <[id := moved id new s]> (hc_streams c) /\ rest c' = rest c.
Proof.
  intros Hc Hs Ha. destruct (ct_stream _ Hc _ _ Hs) as [Hsl Hst].
  assert (Hmov : stream_ok id (moved id new s)) by (destruct s; by constructor).
  destruct s as [st sl b r ra bs sd t p ow iw bu q]. simpl in Ha, Hsl, Hst. subst sl.
  unfold h2o_http2_stream_set_state, h2o_http2_stream_update_open_slot. rewrite Hs.
  destruct new; try discriminate Ha.
  - apply bool_decide_eq_true in Ha as ->. simpl. settle Hc Hs Hmov.
  - apply bool_decide_eq_true in Ha as ->. simpl. settle Hc Hs Hmov.
  - apply bool_decide_eq_true in Ha as [->|[-> | ->]]; simpl; settle Hc Hs Hmov.
  - apply bool_decide_eq_true in Ha as ->. simpl. settle Hc Hs Hmov.
  - apply bool_decide_eq_true in Ha as ->. simpl. settle Hc Hs Hmov.
  - apply bool_decide_eq_true in Ha as ->. simpl. settle Hc Hs Hmov.
  - simpl. unfold h2o_http2_stream_set_blocked_by_server.
    destruct b, st; try discriminate Ha; simpl; autorewrite with conn;
      rewrite ?(alter_insert_some _ _ _ _ Hs), ?alter_over, ?lookup_insert_eq; simpl; settle Hc Hs Hmov.
Qed.

(** ** The other members of a stream *)

Lemma set_blocked_ok c id s on :
  counters_ok c -> hc_streams c !! id = Some s -> hs_blocked_by_server s = negb on ->
  exists c', h2o_http2_stream_set_blocked_by_server c id on = Some c' /\ counters_ok c' /\
    hc_streams c' = <[id := set_hs_blocked on s]> (hc_streams c) /\ rest c' = rest c.
Proof.
  intros Hc Hs Hb. destruct (ct_stream _ Hc _ _ Hs) as [Hsl Hst].
  assert (Hok : stream_ok id (set_hs_blocked on s)) by (destruct s; by constructor).
  destruct s as [st sl b r ra bs sd t p ow iw bu q]. simpl in Hb. subst b.
  unfold h2o_http2_stream_set_blocked_by_server. rewrite Hs. destruct on; simpl; settle Hc Hs Hok.
Qed.

(** A stream changes, but not in what is counted. *)
Lemma upd_ok c id s f :
  counters_ok c -> hc_streams c !! id = Some s -> stream_ok id (f s) ->
  (forall k, share k (f s) = share k s) -> share3 (f s) = share3 s -> counters_ok (upd_stream id f c).
Proof.
  intros Hc Hs Hok Hk H3. apply (counters_insert c _ id s (f s)); auto.
  - by rewrite upd_streams, (alter_insert_some _ _ s).
  - intros k. rewrite upd_num, Hk. unfold exchange. destruct (hc_num c k). simpl. f_equal; lia.
  - rewrite upd_others, H3. unfold exchange3. destruct (others c) as [[??]?]. simpl. repeat f_equal; lia.
Qed.

Lemma set_req_body_state_ok c id s new :
  counters_ok c -> hc_streams c !! id = Some s -> body_rank (hs_body_state s) < body_rank new ->
  (new = BODY_CLOSE_DELIVERED -> hs_proceed_req s = false) ->
  exists c', set_req_body_state c id new = Some c' /\ counters_ok c' /\
    hc_streams c' = <[id := set_hs_body_state new s]> (hc_streams c) /\ rest c' = rest c.
Proof.
  intros Hc Hs Hr Hp. destruct (ct_stream _ Hc _ _ Hs) as [Hsl Hst].
  assert (Hok : stream_ok id (set_hs_body_state new s)).
  { constructor; [by destruct s|]. intros _. destruct s as [st sl b r ra bs sd t p ow iw bu q]. simpl in *.
    destruct new; [destruct bs; simpl in Hr; lia|done..]. }
  unfold set_req_body_state. rewrite Hs. simpl. rewrite (proj2 (Z.ltb_lt _ _)) by done. simpl.
  destruct s as [st sl b r ra bs sd t p ow iw bu q]. simpl in *.
  destruct new; [destruct bs; simpl in Hr; lia|..|specialize (Hp eq_refl); subst p];
    destruct sd, bs; simpl in Hr |- *; try lia; try (by destruct (Hst eq_refl)); try settle Hc Hs Hok; destruct t; settle Hc Hs Hok.
Qed.

(** ** Lists *)

Lemma filter_absent (l : list Z) id : id ∉ l -> filter (.≠ id) l = l.
Proof.
  induction l as [|x l IH]; [done|]. intros [Hx Hl]%not_elem_of_cons. rewrite filter_cons_True by congruence. by rewrite IH.
Qed.

Lemma rest_links c c' : rest c' = rest c ->
  all_links c' = all_links c /\ hc_pending_reqs c' = hc_pending_reqs c /\ hc_streams_to_proceed c' = hc_streams_to_proceed c /\
  hc_state c' = hc_state c /\ hc_reset_budget c' = hc_reset_budget c /\ hc_pull_max_open c' = hc_pull_max_open c /\
  hc_process_delay_linked c' = hc_process_delay_linked c /\ core_io c' = core_io c.
Proof. intros H. unfold rest in H. injection H. intros. unfold all_links. split_and!; congruence. Qed.

Lemma linkable_mono s (P Q : Prop) : linkable s P -> (P -> Q) -> linkable s Q.
Proof. unfold linkable. naive_solver. Qed.

(** The rest of the lists is as it was. *)
Lemma linked_mono c c' j s :
  hc_streams c' !! j = Some s -> linkable s (j ∈ hc_pending_reqs c) -> (j ∈ hc_pending_reqs c -> j ∈ hc_pending_reqs c') ->
  exists s, hc_streams c' !! j = Some s /\ linkable s (j ∈ hc_pending_reqs c').
Proof. intros. eexists. split; [done|by eapply linkable_mono]. Qed.

Lemma links_insert c c' id s' :
  links_ok c -> hc_streams c' = <[id := s']> (hc_streams c) -> all_links c' = all_links c -> hc_pending_reqs c' = hc_pending_reqs c ->
  (id ∈ all_links c -> linkable s' (id ∈ hc_pending_reqs c)) ->
  (id ∈ hc_pending_reqs c -> waits s') -> (queued s' -> id ∈ hc_pending_reqs c) -> links_ok c'.
Proof.
  intros [Hnd Hdom Hp Hr] Hm Hl Hpe H1 H2 H3. constructor; rewrite ?Hl, ?Hpe, ?Hm.
  - done.
  - intros j Hj. destruct (decide (j = id)) as [->|Hne]; [rewrite lookup_insert_eq; eauto|rewrite lookup_insert_ne by done; auto].
  - intros j x Hj [[<- <-]|[Hne Hx]]%lookup_insert_Some; eauto.
  - intros j x [[<- <-]|[Hne Hx]]%lookup_insert_Some; eauto.
Qed.

Lemma pending_linked c id : id ∈ hc_pending_reqs c -> id ∈ all_links c.
Proof. intros. unfold all_links. set_solver. Qed.

(** Only the streams and the counters matter to [counters_ok]. *)
Lemma counters_view c c' :
  counters_ok c -> hc_streams c' = hc_streams c -> hc_num c' = hc_num c -> others c' = others c -> counters_ok c'.
Proof.
  intros [Hn Hb Hs Ht Hok] Hm Hk [= Ho1 Ho2 Ho3]. constructor; rewrite ?Hm; [|congruence..|done].
  intros k. by rewrite Hk, Hn.
Qed.

(** A stream that counts nowhere leaves. *)
Lemma counters_delete c c' id s :
  counters_ok c -> hc_streams c !! id = Some s -> hc_streams c' = delete id (hc_streams c) -> hc_num c' = hc_num c -> others c' = others c ->
  hs_slot s = None -> hs_blocked_by_server s = false -> is_streaming s = false -> counters_ok c'.
Proof.
  intros [Hn Hb Hs Ht Hok] Hid Hm Hk [= Ho1 Ho2 Ho3] Hsl Hbl Hst. constructor; rewrite ?Hm.
  - intros k. rewrite Hk, Hn. unfold counted. rewrite !(count_delete _ _ _ _ Hid). unfold in_slot. rewrite Hsl. simpl. f_equal; lia.
  - rewrite (count_delete _ _ _ _ Hid), Ho1, Hb, Hbl. simpl. lia.
  - rewrite (count_delete _ _ _ _ Hid), Ho2, Hs, Hst. simpl. lia.
  - rewrite (count_delete _ _ _ _ Hid), Ho3, Ht, Hst. simpl. lia.
  - intros j x [_ Hx]%lookup_delete_Some. eauto.
Qed.

(** A stream leaves the table and the lists. *)
Lemma links_delete c c' id :
  links_ok c -> hc_streams c' !! id = None -> (forall j, j <> id -> hc_streams c' !! j = hc_streams c !! j) ->
  all_links c' = filter (.≠ id) (all_links c) -> hc_pending_reqs c' = filter (.≠ id) (hc_pending_reqs c) -> links_ok c'.
Proof.
  intros [Hnd Hdom Hp Hr] Hid Hm Hl Hpe. constructor; rewrite ?Hl, ?Hpe.
  - by apply NoDup_filter.
  - intros j [Hj Hin]%list_elem_of_filter. destruct (Hdom _ Hin) as (x & Hx & Hk). rewrite <- Hm in Hx by done.
    rewrite <- Hpe. apply (linked_mono c c' j x Hx Hk). rewrite Hpe. intros ?. by apply list_elem_of_filter.
  - intros j x [Hj Hin]%list_elem_of_filter. rewrite Hm by done. eauto.
  - intros j x Hx Hst. destruct (decide (j = id)) as [->|Hj]; [congruence|]. rewrite Hm in Hx by done.
    apply list_elem_of_filter. eauto.
Qed.

(** A stream that is not linked may enter a list. *)
Lemma links_append c c' id s :
  links_ok c -> hc_streams c !! id = Some s -> hc_streams c' = hc_streams c -> is_linked c id = false ->
  linkable s (id ∈ hc_pending_reqs c') ->
  (exists l1 l2, all_links c = l1 ++ l2 /\ all_links c' = l1 ++ id :: l2) ->
  (hc_pending_reqs c' = hc_pending_reqs c \/ hc_pending_reqs c' = hc_pending_reqs c ++ [id] /\ waits s) -> links_ok c'.
Proof.
  intros [Hnd Hdom Hp Hr] Hs Hm Hnl H1 (l1 & l2 & Hl & Hl') Hpe. apply bool_decide_eq_false in Hnl.
  assert (Hin : forall j, j ∈ all_links c' <-> j = id \/ j ∈ all_links c) by (intros j; rewrite Hl, Hl', !elem_of_app, elem_of_cons; naive_solver).
  constructor; rewrite ?Hm.
  - rewrite Hl'. rewrite Hl in Hnd, Hnl. rewrite <- Permutation_middle. constructor; [set_solver|done].
  - rewrite <- Hm. intros j [->|Hj]%Hin; [exists s; by rewrite Hm|]. destruct (Hdom _ Hj) as (x & Hx & Hk). rewrite <- Hm in Hx.
    apply (linked_mono c c' j x Hx Hk). destruct Hpe as [-> | [-> _]]; [done|]. intros ?. apply elem_of_app. by left.
  - intros j x Hj Hx. destruct Hpe as [E|[E Hw]]; rewrite E in Hj; [eauto|].
    apply elem_of_app in Hj as [Hj|Hj]; [eauto|]. apply list_elem_of_singleton in Hj as ->. congruence.
  - intros j x Hx Hst. destruct Hpe as [E|[E _]]; rewrite E; [eauto|]. apply elem_of_app. eauto.
Qed.

(** A stream that has changed enters the queue. *)
Lemma links_enqueue c c' id s :
  links_ok c -> id ∉ all_links c -> hc_streams c' = <[id := s]> (hc_streams c) -> waits s ->
  hc_pending_reqs c' = hc_pending_reqs c ++ [id] -> hc_streams_to_proceed c' = hc_streams_to_proceed c ->
  hc_blocked_streams c' = hc_blocked_streams c -> links_ok c'.
Proof.
  intros [Hnd Hdom Hp Hr] Hnl Hm Hw E1 E2 E3.
  assert (Hperm : all_links c' ≡ₚ id :: all_links c) by (unfold all_links; rewrite E1, E2, E3, <- app_assoc; simpl; by rewrite <- Permutation_middle).
  constructor; rewrite ?Hm.
  - rewrite Hperm. by constructor.
  - rewrite <- Hm. intros j Hj. rewrite Hperm in Hj. apply elem_of_cons in Hj as [->|Hj].
    + exists s. rewrite Hm, lookup_insert_eq. split; [done|]. unfold linkable. rewrite E1, elem_of_app.
      destruct Hw as [_ [[-> _]|[-> _]]]; split_and!; try done. intros _. right. right. by apply list_elem_of_singleton.
    + destruct (Hdom _ Hj) as (x & Hx & Hk). apply (linked_mono c c' j x); [|done|rewrite E1, elem_of_app; by left].
      rewrite Hm, lookup_insert_ne; [done|]. by intros ->.
  - rewrite E1. intros j x Hj [[<- <-]|[Hne Hx]]%lookup_insert_Some; [done|].
    apply elem_of_app in Hj as [Hj|Hj]; [eauto|]. by apply list_elem_of_singleton in Hj as ->.
  - rewrite E1. intros j x [[<- <-]|[Hne Hx]]%lookup_insert_Some Hst; apply elem_of_app; [right; by apply list_elem_of_singleton|eauto].
Qed.

(** ** Sequences of changes of one stream *)

Record turns (c : h2conn) (id : Z) (s' : h2stream) (c' : h2conn) : Prop := {
  tn_counters : counters_ok c';
  tn_streams : hc_streams c' = <[id := s']> (hc_streams c);
  tn_rest : rest c' = rest c }.

Lemma turns_lookup c id s' c' : turns c id s' c' -> hc_streams c' !! id = Some s'.
Proof. intros [_ -> _]. apply lookup_insert_eq. Qed.

Lemma turns_trans c1 c2 c3 id s2 s3 : turns c1 id s2 c2 -> turns c2 id s3 c3 -> turns c1 id s3 c3.
Proof. intros [_ Hm1 Hr1] [Hc Hm2 Hr2]. constructor; [done|by rewrite Hm2, Hm1, insert_insert_eq|congruence]. Qed.

Lemma turns_refl c id s : counters_ok c -> hc_streams c !! id = Some s -> turns c id s c.
Proof. intros Hc Hs. constructor; [done|by rewrite insert_id|done]. Qed.

Lemma turns_state c id s new :
  counters_ok c -> hc_streams c !! id = Some s -> allowed (hs_state s) new = true ->
  succeeds (h2o_http2_stream_set_state c id new) (turns c id (moved id new s)).
Proof. intros Hc Hs Ha. destruct (set_state_ok c id s new Hc Hs Ha) as (c' & -> & H1 & H2 & H3). by eexists. Qed.

Lemma turns_blocked c id s on :
  counters_ok c -> hc_streams c !! id = Some s -> hs_blocked_by_server s = negb on ->
  succeeds (h2o_http2_stream_set_blocked_by_server c id on) (turns c id (set_hs_blocked on s)).
Proof. intros Hc Hs Ha. destruct (set_blocked_ok c id s on Hc Hs Ha) as (c' & -> & H1 & H2 & H3). by eexists. Qed.

Lemma turns_body c id s new :
  counters_ok c -> hc_streams c !! id = Some s -> body_rank (hs_body_state s) < body_rank new ->
  (new = BODY_CLOSE_DELIVERED -> hs_proceed_req s = false) ->
  succeeds (set_req_body_state c id new) (turns c id (set_hs_body_state new s)).
Proof. intros Hc Hs Ha Hp. destruct (set_req_body_state_ok c id s new Hc Hs Ha Hp) as (c' & -> & H1 & H2 & H3). by eexists. Qed.

(** Members that are not counted. *)
Definition uncounted (f : h2stream -> h2stream) : Prop :=
  forall s, hs_state (f s) = hs_state s /\ hs_slot (f s) = hs_slot s /\ hs_blocked_by_server (f s) = hs_blocked_by_server s /\
    hs_body_state (f s) = hs_body_state s /\ hs_streamed (f s) = hs_streamed s /\ hs_is_tunnel_req (f s) = hs_is_tunnel_req s.

Lemma turns_upd c id s f :
  counters_ok c -> hc_streams c !! id = Some s -> uncounted f -> turns c id (f s) (upd_stream id f c).
Proof.
  intros Hc Hs Hf. destruct (Hf s) as (H1 & H2 & H3 & H4 & H5 & H6). destruct (ct_stream _ Hc _ _ Hs) as [Hsl Hst].
  constructor; [|by rewrite upd_streams, (alter_insert_some _ _ s)|apply upd_rest].
  apply (upd_ok c id s); auto; [constructor; [by rewrite H1, H2|by rewrite H4, H5]|..].
  - intros k. unfold share, in_slot, is_half_closed, sends_body. by rewrite H1, H2.
  - unfold share3, is_streaming. by rewrite H3, H4, H5, H6.
Qed.

Lemma uncounted_rx f : uncounted (set_hs_rx f).
Proof. by intros []. Qed.
Lemma uncounted_proceed x : uncounted (set_hs_proceed_req x).
Proof. by intros []. Qed.
Lemma uncounted_input w b : uncounted (set_hs_input_window w b).
Proof. by intros []. Qed.
Lemma uncounted_output w : uncounted (set_hs_output_window w).
Proof. by intros []. Qed.
Lemma uncounted_reset : uncounted set_hs_reset_by_peer.
Proof. by intros []. Qed.
Lemma uncounted_reset_action : uncounted set_hs_reset_by_peer_action.
Proof. by intros []. Qed.
#[export] Hint Resolve uncounted_rx uncounted_proceed uncounted_input uncounted_output uncounted_reset uncounted_reset_action : conn.
