(* ===== verification/Http2StreamsRun.v ===== *)
(** * Requests, ends of streams and of connections keep the books

    Every operation of [Http2Streams] keeps the invariant [conn_ok] and passes its assertions: requests are taken
    from the queue while the limits allow it, streams end, and a connection can be closed at any time. *)
From S2P Require Import Prelude HpackInt HeaderTable Http2Frame Http2Send Http2Streams Http2StreamsOk.
From Stdlib Require Import ZArith Lia.
From stdpp Require Import base numbers option strings gmap functions list.
Open Scope Z_scope.

(** What is assumed of the configuration. *)
Record config_ok (conf : config) : Prop := {
  cf_requests : 0 <= max_concurrent_requests_per_connection conf;
  cf_window : H2O_HTTP2_SETTINGS_HOST_STREAM_INITIAL_WINDOW_SIZE <= active_stream_window_size conf <= INT32_MAX;
  cf_origin origin : http2_origin_frame conf = Some origin -> len origin <= 0xffffff }.

(** What a call of the core or of the application leaves alone. *)
Definition steady (c c' : h2conn) : Prop :=
  hc_state c' = hc_state c /\ hc_pull_max_open c' = hc_pull_max_open c /\ core_io c' = core_io c.
Definition answers (conf : config) (c c' : h2conn) : Prop :=
  conn_ok conf c' /\ steady c c' /\ (hc_process_delay_linked c = false -> hc_pending_reqs c' = hc_pending_reqs c) /\
  hc_process_delay_linked c' = hc_process_delay_linked c.

(** The core and the application respect the books and leave the queue of requests to the connection; a push may enter it
    only while the requests are delayed. *)
Class AppOk (conf : config) (app : App) : Prop := {
  app_process_ok c id s :
    conn_ok conf c -> hc_streams c !! id = Some s ->
    hs_state s = STATE_SEND_HEADERS \/ hs_state s = STATE_RECV_BODY /\ hs_streamed s = true ->
    rx_process_called (hs_rx s) = true -> succeeds (app_process c id) (answers conf c);
  app_send_error_ok c id s status :
    conn_ok conf c -> hc_streams c !! id = Some s -> hs_state s = STATE_SEND_HEADERS ->
    succeeds (app_send_error c id status) (answers conf c);
  app_write_req_ok c id s is_end :
    conn_ok conf c -> hc_streams c !! id = Some s -> hs_streamed s = true ->
    succeeds (app_write_req c id is_end) (fun r => answers conf c r.1 /\ is_Some (hc_streams r.1 !! id));
  (** [expect] is forwarded only for requests that have a body *)
  app_forward_ok c id s :
    app_should_forward_expect c id = true -> hc_streams c !! id = Some s -> rx_buf (hs_rx s) <> None }.

Lemma steady_refl c : steady c c.
Proof. done. Qed.
Lemma steady_trans c1 c2 c3 : steady c1 c2 -> steady c2 c3 -> steady c1 c3.
Proof. intros (?&?&?) (?&?&?). split_and!; congruence. Qed.
Lemma steady_rest c c' : rest c' = rest c -> steady c c'.
Proof. intros H. apply rest_links in H as (_ & _ & _ & ? & _ & ? & _ & ?). by split_and!. Qed.

Section Run.
Variable conf : config.
Context {app : App} `{!AppOk conf app}.
Hypothesis Hconf : config_ok conf.

(** ** One stream changes *)

(** The conditions on the new stream. *)
Lemma conn_ok_change c c' id s' :
  conn_ok conf c -> counters_ok c' -> links_ok c' -> hc_streams c' = <[id := s']> (hc_streams c) ->
  hc_reset_budget c' = hc_reset_budget c -> hc_state c' = hc_state c -> hc_pull_max_open c' = hc_pull_max_open c ->
  stream_good conf id s' ->
  (hc_state c = CONN_OPEN -> h2o_http2_stream_is_push id = false -> hs_state s' <> STATE_IDLE -> id <= hc_pull_max_open c) ->
  conn_ok conf c'.
Proof.
  intros [_ _ Hbu Hst Hid] Hct Hlk Hm Hb Hcs Hmo Hg Hids. constructor; [done|done|by rewrite Hb|..]; rewrite Hm, ?Hcs, ?Hmo.
  - intros j x [[<- <-]|[Hne Hx]]%lookup_insert_Some; eauto.
  - intros j x Hop Hj [[<- <-]|[Hne Hx]]%lookup_insert_Some; eauto.
Qed.

(** The stream stays in its lists. *)
Lemma conn_ok_turns c c' id s s' :
  conn_ok conf c -> turns c id s' c' -> hc_streams c !! id = Some s ->
  stream_good conf id s' ->
  (id ∈ all_links c -> linkable s' (id ∈ hc_pending_reqs c)) ->
  (id ∈ hc_pending_reqs c -> waits s') -> (queued s' -> id ∈ hc_pending_reqs c) ->
  (hs_state s = STATE_IDLE -> hs_state s' = STATE_IDLE) -> conn_ok conf c'.
Proof.
  intros Hc [Hct Hm Hr] Hs Hg H1 H2 H3 H4. destruct (rest_links _ _ Hr) as (Hl & Hp & _ & Hcs & Hb & Hmo & _).
  apply (conn_ok_change c _ id s'); auto.
  - apply (links_insert c _ id s'); auto. apply Hc.
  - intros Hop Hpush Hni. apply (co_ids _ _ Hc id s); auto.
Qed.

(** Nothing that matters changes. *)
Lemma conn_ok_same c c' :
  conn_ok conf c -> hc_streams c' = hc_streams c -> hc_num c' = hc_num c -> others c' = others c -> rest c' = rest c -> conn_ok conf c'.
Proof.
  intros [Hct [Hnd Hd Hp Hq] Hb Hst Hid] Hm Hn Ho Hr. destruct (rest_links _ _ Hr) as (Hl & Hpe & _ & Hcs & Hbu & Hmo & _).
  constructor; [by apply (counters_view c)| |by rewrite Hbu|by rewrite Hm|by rewrite Hm, Hcs, Hmo].
  constructor; rewrite ?Hl, ?Hpe, ?Hm; auto.
Qed.

(** ** Streams of a state are in the right lists *)

Lemma not_linked c id : conn_ok conf c -> hc_streams c !! id = None -> id ∉ all_links c.
Proof. intros Hc Hn Hin. destruct (lk_dom _ (co_links _ _ Hc) _ Hin) as (s & Hs & _). congruence. Qed.

Lemma idle_not_linked c id s :
  conn_ok conf c -> hc_streams c !! id = Some s -> hs_state s = STATE_IDLE \/ hs_state s = STATE_RECV_HEADERS -> id ∉ all_links c.
Proof. intros Hc Hs Hst Hin. destruct (lk_dom _ (co_links _ _ Hc) _ Hin) as (s' & Hs' & H1 & H2 & _). destruct Hst; congruence. Qed.

(** ** Writes *)

(** Only the write buffer and its timer change. *)
Definition quiet (c c' : h2conn) : Prop :=
  hc_streams c' = hc_streams c /\ hc_num c' = hc_num c /\ others c' = others c /\ rest c' = rest c.

Lemma conn_ok_quiet c c' : conn_ok conf c -> quiet c c' -> conn_ok conf c'.
Proof. intros Hc (?&?&?&?). by apply (conn_ok_same c). Qed.

Lemma counters_quiet c c' : counters_ok c -> quiet c c' -> counters_ok c'.
Proof. intros Hc (?&?&?&?). by apply (counters_view c). Qed.

Lemma turns_quiet c id s' c1 c2 : turns c id s' c1 -> quiet c1 c2 -> turns c id s' c2.
Proof. intros [Hc Hm Hr] (Hm2&Hn2&Ho2&Hr2). constructor; [by apply (counters_view c1)|congruence|congruence]. Qed.

Lemma quiet_turns c1 c2 id s' c3 : quiet c1 c2 -> turns c2 id s' c3 -> turns c1 id s' c3.
Proof. intros (Hm2&Hn2&Ho2&Hr2) [Hc Hm Hr]. constructor; [done|congruence|congruence]. Qed.

Lemma quiet_refl c : quiet c c.
Proof. done. Qed.
Lemma quiet_trans c1 c2 c3 : quiet c1 c2 -> quiet c2 c3 -> quiet c1 c3.
Proof. intros (?&?&?&?) (?&?&?&?). split_and!; congruence. Qed.
Lemma quiet_buf b c : quiet c (set_hc_buf b c).
Proof. by destruct c. Qed.
Lemma quiet_steady c c' : quiet c c' -> steady c c'.
Proof. intros (_ & _ & _ & Hr). by apply steady_rest. Qed.

Lemma request_write_ok c : succeeds (h2o_http2_conn_request_write c) (quiet c).
Proof.
  unfold h2o_http2_conn_request_write, request_gathered_write. case_bool_decide as E; [by apply succeeds_some|].
  assert (conn_rank (hc_state c) < conn_rank CONN_IS_CLOSING) by (destruct (hc_state c); simpl; done || lia).
  rewrite (proj2 (Z.ltb_lt _ _)) by done. simpl. destruct (_ && _); apply succeeds_some; [|done].
  by destruct c as [????????????????? ? []].
Qed.

Lemma stream_send_error_ok c id errnum : 0 < id -> hc_state c <> CONN_IS_CLOSING -> succeeds (stream_send_error c id errnum) (quiet c).
Proof.
  intros Hid Hcs. unfold stream_send_error. destruct (Z.eqb_spec id 0); [lia|].
  assert (conn_rank (hc_state c) < conn_rank CONN_IS_CLOSING) by (destruct (hc_state c); simpl; done || lia).
  rewrite (proj2 (Z.ltb_lt _ _)) by done. simpl. eapply succeeds_weaken; [apply request_write_ok|].
  intros c' Hq. eapply quiet_trans; [apply quiet_buf|exact Hq].
Qed.

Lemma send_window_update_ok c id window delta :
  window + delta <= INT32_MAX -> 0 <= window ->
  succeeds (send_window_update c id window delta) (fun r => quiet c r.1 /\ r.2 = window + delta).
Proof.
  intros Hd Hw. unfold send_window_update. rewrite (proj2 (Z.ltb_ge _ _)) by lia. simpl.
  eapply succeeds_bind; [apply request_write_ok|]. intros c' Hq. apply succeeds_some. simpl. split.
  - eapply quiet_trans; [apply quiet_buf|exact Hq].
  - unfold h2o_http2_window_update. by rewrite (proj2 (Z.ltb_ge _ _)) by lia.
Qed.

(** Octets are given back to the peer, now or later. *)
Lemma update_window_ok c id s delta :
  counters_ok c -> hc_streams c !! id = Some s -> hs_input_window s + hs_bytes_unnotified s + delta <= INT32_MAX ->
  0 <= hs_bytes_unnotified s + delta ->
  succeeds (update_stream_input_window c id delta) (fun c' => exists w b, turns c id (set_hs_input_window w b s) c' /\
    w + b = hs_input_window s + hs_bytes_unnotified s + delta /\ 0 <= b).
Proof.
  intros Hc Hs Hd Hb. unfold update_stream_input_window, h2o_http2_window_get_avail. rewrite Hs. simpl.
  destruct (Z.leb_spec 0 (hs_input_window s)); simpl; [destruct (Z.leb_spec (hs_input_window s) (hs_bytes_unnotified s + delta)); simpl|].
  - eapply succeeds_bind; [apply send_window_update_ok; lia|]. intros [c1 w] [Hq Hw]. simpl in *. apply succeeds_some.
    exists w, 0. split_and!; [|lia|lia]. apply (quiet_turns c c1); [done|]. apply turns_upd; auto with conn; [by apply (counters_quiet c)|].
    by destruct Hq as (-> & _).
  - apply succeeds_some. eexists _, _. split_and!; [apply turns_upd; auto with conn|lia|lia].
  - apply succeeds_some. eexists _, _. split_and!; [apply turns_upd; auto with conn|lia|lia].
Qed.

(** ** Opening *)

Lemma stream_open_ok c id :
  conn_ok conf c -> hc_streams c !! id = None -> 0 < id ->
  conn_ok conf (h2o_http2_stream_open c id) /\ rest (h2o_http2_stream_open c id) = rest c /\
  exists s, hc_streams (h2o_http2_stream_open c id) = <[id := s]> (hc_streams c) /\ hs_state s = STATE_IDLE /\
    hs_body_state s = BODY_NONE /\ rx_process_called (hs_rx s) = false /\ hs_blocked_by_server s = false.
Proof.
  intros Hc Hn Hid. pose proof (not_linked _ _ Hc Hn) as Hl. unfold h2o_http2_stream_open.
  set (s := H2Stream _ _ _ _ _ _ _ _ _ _ _ _ _). set (c1 := set_streams (<[id := s]> (hc_streams c)) c).
  assert (Hr : rest (add_open SlotPriority 1 c1) = rest c) by (rewrite add_open_rest; by destruct c).
  assert (Hm : hc_streams (add_open SlotPriority 1 c1) = <[id := s]> (hc_streams c)) by (rewrite add_open_streams; by destruct c).
  destruct (rest_links _ _ Hr) as (Hr1 & Hr2 & _ & Hr4 & Hr5 & Hr6 & _).
  split; [|split; [done|exists s; done]]. destruct Hconf as [_ Hwin _].
  apply (conn_ok_change c _ id s); auto; [|apply (links_insert c _ id s); auto; try done; [apply Hc|by intros ?%pending_linked|by intros [?|[? _]]]| |done].
  - destruct (co_counters _ _ Hc) as [H1 H2 H3 H4 H5].
    assert (hc_num c1 = hc_num c /\ others c1 = others c) as [Hnum Hoth] by (by destruct c).
    pose proof (add_open_others SlotPriority 1 c1) as Ho. rewrite Hoth in Ho. injection Ho as Hb Hst Ht.
    constructor; rewrite ?Hm.
    + intros k. rewrite num_add_open, Hnum, H1. unfold counted, num_add. rewrite !count_insert_new by done. destruct k; simpl; f_equal; lia.
    + rewrite count_insert_new by done. simpl. lia.
    + rewrite count_insert_new by done. simpl. lia.
    + rewrite count_insert_new by done. simpl. lia.
    + intros j x [[<- <-]|[Hj Hx]]%lookup_insert_Some; [by constructor|eauto].
  - constructor; simpl; [done|by unfold phase|done|done|lia|..|by intros []]; intros; unfold window_sum, buffered, len; simpl;
      unfold h2o_http2_window_init, H2O_HTTP2_SETTINGS_HOST_STREAM_INITIAL_WINDOW_SIZE in *; lia.
Qed.

Lemma max_open_ok c pull push :
  conn_ok conf c -> hc_pull_max_open c <= pull -> conn_ok conf (set_max_open pull push c).
Proof.
  intros [Hct [Hnd Hd Hp Hq] Hb Hst Hid] Hle. destruct c. simpl in *.
  constructor; simpl; auto; [by apply (counters_view _ _ Hct)|by constructor|].
  intros id s Hop Hpush Hs Hni. specialize (Hid id s Hop Hpush Hs Hni). lia.
Qed.

(** A stream without a request has no body. *)
Lemma phase_early s :
  phase s -> state_rank (hs_state s) <= 1 ->
  hs_body_state s = BODY_NONE /\ hs_proceed_req s = false /\ hs_streamed s = false /\ rx_write_req (hs_rx s) = false /\
  default [] (rx_buf (hs_rx s)) = [].
Proof.
  unfold phase. intros Hp Hr. destruct (hs_body_state s).
  - destruct Hp as (? & ? & _ & ? & ?). by split_and!.
  - destruct Hp as (E & _). rewrite E in Hr. simpl in Hr. lia.
  - destruct Hp as (_ & Hp). destruct (hs_streamed s); [destruct Hp as (_ & _ & _ & ?); simpl in *; lia|].
    destruct Hp as (E & _). rewrite E in Hr. simpl in Hr. lia.
  - destruct Hp as (_ & _ & _ & _ & ?). simpl in *. lia.
  - simpl in *. lia.
Qed.

Lemma good_state id s new :
  stream_good conf id s -> phase (moved id new s) ->
  (rx_process_called (hs_rx s) = true -> hs_streamed s = true \/ state_rank STATE_SEND_HEADERS <= state_rank new) ->
  stream_good conf id (moved id new s).
Proof. intros [] Hp Hc. destruct s. constructor; auto. Qed.

Lemma prepare_for_request_ok c id s :
  conn_ok conf c -> hc_streams c !! id = Some s -> hs_state s = STATE_IDLE -> hc_state c <> CONN_IS_CLOSING ->
  succeeds (h2o_http2_stream_prepare_for_request c id) (fun c' => conn_ok conf c' /\
    all_links c' = all_links c /\ hc_state c' = hc_state c /\ core_io c' = core_io c /\
    (hc_state c = CONN_OPEN -> h2o_http2_stream_is_push id = false -> id <= hc_pull_max_open c') /\
    exists w, hc_streams c' = <[id := set_hs_output_window w (moved id STATE_RECV_HEADERS s)]> (hc_streams c)).
Proof.
  intros Hc Hs Hst Hcl. unfold h2o_http2_stream_prepare_for_request. rewrite bool_decide_false by done.
  match goal with |- context [h2o_http2_stream_set_state ?x id _] => set (c1 := x) end.
  assert (Hv : conn_ok conf c1 /\ hc_streams c1 = hc_streams c /\ all_links c1 = all_links c /\ hc_state c1 = hc_state c /\
    core_io c1 = core_io c /\ (hc_state c = CONN_OPEN -> h2o_http2_stream_is_push id = false -> id <= hc_pull_max_open c1)).
  { unfold c1. destruct (h2o_http2_stream_is_push id).
    - destruct (_ <? id); (split; [try apply max_open_ok; auto; reflexivity|]); by destruct c.
    - case_bool_decide; [|done]. destruct (Z.ltb_spec (hc_pull_max_open c) id).
      + split; [apply max_open_ok; auto; lia|]. by destruct c.
      + split_and!; auto; lia. }
  destruct Hv as (Hc1 & Hm & Hl & Hcs & Hio & Hmo). rewrite <- Hm in Hs.
  pose proof (idle_not_linked _ _ _ Hc1 Hs (or_introl Hst)) as Hnl.
  eapply succeeds_bind; [apply (turns_state c1 id s); [apply Hc1|done|by rewrite Hst]|].
  intros c2 Ht. apply succeeds_some. pose proof (turns_lookup _ _ _ _ Ht) as Hs2.
  pose proof (turns_trans _ _ _ _ _ _ Ht (turns_upd _ _ _ (set_hs_output_window (h2o_http2_window_init (hc_initial_window_size c2))) (tn_counters _ _ _ _ Ht) Hs2 (uncounted_output _))) as Ht2.
  destruct (rest_links _ _ (tn_rest _ _ _ _ Ht2)) as (Hl2 & Hp2 & _ & Hcs2 & Hb2 & Hmo2 & _ & Hio2).
  split; [|split_and!; [congruence..| |]].
  - pose proof (co_streams _ _ Hc1 _ _ Hs) as Hg. assert (Hearly := phase_early s (sg_phase _ _ _ Hg)). rewrite Hst in Hearly. specialize (Hearly ltac:(done)).
    apply (conn_ok_change c1 _ id (set_hs_output_window (h2o_http2_window_init (hc_initial_window_size c2)) (moved id STATE_RECV_HEADERS s))); auto.
    + apply Ht2.
    + apply (links_insert c1 _ id (set_hs_output_window (h2o_http2_window_init (hc_initial_window_size c2)) (moved id STATE_RECV_HEADERS s))); auto; [apply Hc1|apply Ht2|by intros|by intros ?%pending_linked|].
      destruct Hearly as (_ & Hp & _). destruct s; simpl in Hp; subst. by intros [?|[? _]].
    + apply Ht2.
    + destruct Hg as [G1 G2 G3 G7 G4 G5 G6 G8]. destruct s as [st sl b r ra bs sd t p ow iw bu q]. simpl in *. subst st.
      destruct Hearly as (-> & -> & -> & E & ?). constructor; auto. by split_and!.
    + intros. rewrite Hcs in *. auto.
  - intros Hop Hpush. rewrite Hmo2. auto.
  - eexists. rewrite (tn_streams _ _ _ _ Ht2), Hm. done.
Qed.

(** ** Requests are started *)

Lemma all_links_unlink id c : all_links (unlink id c) = filter (.≠ id) (all_links c).
Proof. destruct c. unfold all_links, unlink. simpl. by rewrite !filter_app. Qed.

Lemma unlink_view id c :
  hc_streams (unlink id c) = hc_streams c /\ hc_num (unlink id c) = hc_num c /\ others (unlink id c) = others c /\
  hc_pending_reqs (unlink id c) = filter (.≠ id) (hc_pending_reqs c) /\ hc_reset_budget (unlink id c) = hc_reset_budget c /\
  hc_process_delay_linked (unlink id c) = hc_process_delay_linked c /\ steady c (unlink id c).
Proof. by destruct c. Qed.

(** A stream leaves the lists in another state. *)
Lemma links_unlink c c' id s' :
  links_ok c -> hc_streams c' = <[id := s']> (hc_streams c) -> ~ queued s' ->
  all_links c' = filter (.≠ id) (all_links c) -> hc_pending_reqs c' = filter (.≠ id) (hc_pending_reqs c) -> links_ok c'.
Proof.
  intros [Hnd Hdom Hp Hr] Hm Hs' Hl Hpe. constructor; rewrite ?Hl, ?Hpe, ?Hm.
  - by apply NoDup_filter.
  - intros j [Hj Hin]%list_elem_of_filter. destruct (Hdom _ Hin) as (x & Hx & Hk). rewrite <- Hm, <- Hpe.
    apply (linked_mono c c' j x); [by rewrite Hm, lookup_insert_ne|done|]. rewrite Hpe. intros ?. by apply list_elem_of_filter.
  - intros j x [Hj Hin]%list_elem_of_filter. rewrite lookup_insert_ne by done. eauto.
  - intros j x [[<- <-]|[Hj Hx]]%lookup_insert_Some; [done|]. intros Hst. apply list_elem_of_filter. eauto.
Qed.

Lemma counters_unlink c id : counters_ok c -> counters_ok (unlink id c).
Proof. intros Hc. destruct (unlink_view id c) as (?&?&?&_). by apply (counters_view c). Qed.

Lemma conn_ok_unlinked c id s s' c' :
  conn_ok conf c -> hc_streams c !! id = Some s -> hs_state s <> STATE_IDLE -> turns (unlink id c) id s' c' ->
  ~ queued s' -> stream_good conf id s' -> conn_ok conf c'.
Proof.
  intros Hc Hs Hi [Hct Hm Hr] Hst Hg. destruct (unlink_view id c) as (Vm & Vn & Vo & Vp & Vb & Vd & Vs & Vmo & _).
  destruct (rest_links _ _ Hr) as (Hl & Hp & _ & Hcs & Hb & Hmo & _).
  apply (conn_ok_change c _ id s'); auto; try congruence.
  - apply (links_unlink c _ id s'); [apply Hc|congruence|done| |congruence]. by rewrite Hl, all_links_unlink.
  - intros Hop Hpush _. by apply (co_ids _ _ Hc id s).
Qed.

(** A request without a body to stream: two changes of state. *)
Lemma process_plain c id s :
  counters_ok c -> hc_streams c !! id = Some s -> hs_state s = STATE_REQ_PENDING ->
  succeeds (c1 ← h2o_http2_stream_set_state c id STATE_REQ_PENDING; h2o_http2_stream_set_state c1 id STATE_SEND_HEADERS)
    (turns c id (moved id STATE_SEND_HEADERS s)).
Proof.
  intros Hc Hs Hst. eapply succeeds_bind; [apply (turns_state c id s); [done|done|by rewrite Hst]|]. intros c1 H1.
  eapply succeeds_weaken; [apply (turns_state c1 id _ _ (tn_counters _ _ _ _ H1) (turns_lookup _ _ _ _ H1)); by destruct s|].
  intros c2 H2. pose proof (turns_trans _ _ _ _ _ _ H1 H2) as H. by destruct s.
Qed.

(** A request whose body is streamed is counted as such. *)
Lemma turns_streamed c id s :
  counters_ok c -> hc_streams c !! id = Some s -> hs_streamed s = false -> hs_body_state s = BODY_OPEN ->
  turns c id (set_hs_streamed s)
    (set_num_streaming (hc_req_streaming_in_progress c + 1) (if hs_is_tunnel_req s then hc_tunnel c + 1 else hc_tunnel c)
       (upd_stream id set_hs_streamed c)).
Proof.
  intros Hc Hs Hsd Hbs. set (c1 := set_num_streaming _ _ _). destruct (ct_stream _ Hc _ _ Hs) as [Hsl _].
  assert (Hm1 : hc_streams c1 = <[id := set_hs_streamed s]> (hc_streams c)).
  { unfold c1. rewrite streaming_streams, upd_streams. by apply alter_insert_some. }
  constructor; [|done|unfold c1; by rewrite streaming_rest, upd_rest].
  destruct s as [st sl b r ra bs sd t p ow iw bu q]. simpl in *. subst sd bs.
  eapply (counters_insert c _ id _ _ Hc Hs Hm1); [by constructor|..].
  - intros k. unfold c1. rewrite streaming_num, upd_num. unfold exchange, share, in_slot, is_half_closed, sends_body.
    simpl. destruct (hc_num c k). simpl. f_equal; lia.
  - unfold c1. rewrite streaming_others, upd_others. unfold exchange3, share3, is_streaming, others. simpl.
    destruct t; simpl; repeat f_equal; lia.
Qed.

(** The call of the core, once the stream is out of the lists and in its new state. *)
Lemma start_request_ok c id s s1 c1 :
  conn_ok conf c -> hc_streams c !! id = Some s -> hs_state s <> STATE_IDLE -> turns (unlink id c) id s1 c1 ->
  hs_state s1 = STATE_SEND_HEADERS \/ hs_state s1 = STATE_RECV_BODY /\ hs_streamed s1 = true ->
  rx_process_called (hs_rx s1) = false -> stream_good conf id (set_hs_rx set_rx_process_called s1) ->
  succeeds (h2o_process_request (if negb (h2o_http2_stream_is_push id) && (hc_pull_max_processed c1 <? id) then set_max_processed id c1 else c1) id)
    (answers conf (unlink id c)).
Proof.
  intros Hc Hs Hi Ht Hst Hpc Hg. match goal with |- context [h2o_process_request ?x id] => set (c2 := x) end.
  assert (Hq : quiet c1 c2) by (unfold c2; destruct (negb _ && _); by destruct c1).
  pose proof (turns_quiet _ _ _ _ _ Ht Hq) as Ht2. pose proof (turns_lookup _ _ _ _ Ht2) as Hs2.
  unfold h2o_process_request. rewrite Hs2. simpl. rewrite Hpc.
  pose proof (turns_upd c2 id s1 _ (tn_counters _ _ _ _ Ht2) Hs2 (uncounted_rx set_rx_process_called)) as Ht3.
  pose proof (turns_trans _ _ _ _ _ _ Ht2 Ht3) as Ht4. set (c3 := upd_stream _ _ _) in *.
  destruct (rest_links _ _ (tn_rest _ _ _ _ Ht4)) as (_ & Hp4 & _ & _ & _ & _ & Hd4 & _).
  eapply succeeds_weaken; [apply (app_process_ok c3 id (set_hs_rx set_rx_process_called s1))|].
  - apply (conn_ok_unlinked c id s _ c3 Hc Hs Hi Ht4); [|done]. apply not_queued; [apply Hg|..]; destruct s1; simpl in *; intros; destruct Hst as [->|[-> ->]]; done.
  - apply (turns_lookup _ _ _ _ Ht4).
  - by destruct s1.
  - by destruct s1 as [????????????[]].
  - intros c' (H1 & H2 & H3 & H4). split_and!; [done| |rewrite <- Hp4, <- Hd4; done|congruence].
    eapply steady_trans; [apply steady_rest, Ht4|done].
Qed.

(** A request whose body is streamed, out of the lists. *)
Lemma process_streaming_ok c0 c id s0 s :
  conn_ok conf c0 -> hc_streams c0 !! id = Some s0 -> hs_state s0 <> STATE_IDLE -> turns (unlink id c0) id s c ->
  stream_good conf id s -> hs_state s = STATE_RECV_BODY -> hs_streamed s = false -> hs_proceed_req s = true -> hs_body_state s = BODY_OPEN ->
  rx_process_called (hs_rx s) = false -> succeeds (process_request conf c id) (answers conf (unlink id c0)).
Proof.
  intros Hc Hs0 Hi T [G1 G2 G3 G7 G4 G5 G6 G8] Hst Hsd Hpr Hbs Hpc. unfold process_request.
  rewrite (turns_lookup _ _ _ _ T). cbn [mbind option_bind]. rewrite Hpr, Hbs, bool_decide_false by naive_solver.
  pose proof (turns_streamed _ _ _ (tn_counters _ _ _ _ T) (turns_lookup _ _ _ _ T) Hsd Hbs) as Ht.
  specialize (G6 (conj Hsd (or_intror (or_intror (conj Hbs Hpr))))).
  destruct Hconf as [_ [Hw1 Hw2] _]. unfold window_sum in *. pose proof (Zle_0_nat (length (default [] (rx_buf (hs_rx s))))) as Hb.
  unfold buffered, len in *.
  eapply succeeds_bind; [apply (update_window_ok _ _ _ _ (tn_counters _ _ _ _ Ht) (turns_lookup _ _ _ _ Ht)); destruct s; simpl in *; lia|].
  intros c1 (w & b & Ht1 & Hwb & Hb0). pose proof (turns_trans _ _ _ _ _ _ T (turns_trans _ _ _ _ _ _ Ht Ht1)) as Ht2.
  apply (start_request_ok c0 id s0 _ c1 Hc Hs0 Hi Ht2); destruct s as [st sl bl r ra bs sd t p ow iw bu []]; simpl in *; [by right|done|].
  subst. unfold phase in G2. simpl in G2.
  constructor; unfold phase, window_sum, buffered, not_grown, len; simpl; auto; [naive_solver lia|lia|intros [? _]; done].
Qed.

Lemma process_request_ok c id s :
  conn_ok conf c -> id ∈ hc_pending_reqs c -> hc_streams c !! id = Some s ->
  succeeds (process_request conf (unlink id c) id) (answers conf (unlink id c)).
Proof.
  intros Hc Hin Hs. pose proof (lk_pending _ (co_links _ _ Hc) _ _ Hin Hs) as Hw.
  pose proof (counters_unlink c id (co_counters _ _ Hc)) as Hct. destruct (unlink_view id c) as (Hm & _).
  pose proof (co_streams _ _ Hc _ _ Hs) as Hg. assert (Hi : hs_state s <> STATE_IDLE) by (destruct Hw as [_ [[-> _]|[-> _]]]; done).
  assert (Hpc : rx_process_called (hs_rx s) = false).
  { destruct (rx_process_called _) eqn:E; [|done]. destruct (sg_called _ _ _ Hg E); destruct Hw as [Hw1 [[Hw2 _]|[Hw2 _]]];
      rewrite ?Hw2 in *; simpl in *; congruence || lia. }
  pose proof Hs as Hs0. rewrite <- Hm in Hs0. destruct Hw as [Hsd [[Hst Hpr]|(Hst & Hpr & Hbs)]].
  - unfold process_request. rewrite Hs0. cbn [mbind option_bind]. rewrite Hpr, Hst. simpl (_ <? _).
    eapply succeeds_bind; [apply (process_plain _ _ _ Hct Hs0 Hst)|]. intros c1 Ht. destruct Hg as [G1 G2 G3 G7 G4 G5 G6 G8].
    apply (start_request_ok c id s _ c1 Hc Hs Hi Ht); destruct s as [st sl b r ra bs sd t p ow iw bu []]; simpl in *; [by left|done|].
    subst. constructor; simpl; auto; [unfold phase in *; simpl in *; destruct bs; naive_solver lia|intros _; right; done].
  - apply (process_streaming_ok c _ id s s); auto. by apply turns_refl.
Qed.

(** ** The queue *)

(** No request of the queue may start: the limits are reached. *)
Definition at_limit (c : h2conn) (id : Z) : Prop :=
  exists s, hc_streams c !! id = Some s /\ hs_proceed_req s = true /\
    max_concurrent_streaming_requests_per_connection conf <= hc_req_streaming_in_progress c - hc_tunnel c.
Definition queue_settled (c : h2conn) : Prop :=
  can_run_requests conf c = false \/ forall id, id ∈ hc_pending_reqs c -> at_limit c id.

(** What running requests keeps. *)
Definition runs (c c' : h2conn) : Prop :=
  conn_ok conf c' /\ steady c c' /\ hc_process_delay_linked c' = hc_process_delay_linked c /\
  sublist (hc_pending_reqs c') (hc_pending_reqs c).

Lemma runs_refl c : conn_ok conf c -> runs c c.
Proof. intros Hc. split_and!; [done|apply steady_refl|done|done]. Qed.
Lemma runs_trans c1 c2 c3 : runs c1 c2 -> runs c2 c3 -> runs c1 c3.
Proof.
  intros (_ & S1 & D1 & P1) (H & S2 & D2 & P2). split_and!; [done|by eapply steady_trans|congruence|by etrans].
Qed.

Lemma next_in_middle (l1 : list Z) (id : Z) l2 : id ∉ l1 -> next_in (l1 ++ id :: l2) id = Some (head l2).
Proof.
  induction l1 as [|x l1 IH]; simpl; intros Hn; [by rewrite Z.eqb_refl|].
  destruct (Z.eqb_spec x id) as [->|]; [set_solver|apply IH; set_solver].
Qed.

Lemma filter_middle (l1 : list Z) (id : Z) l2 : NoDup (l1 ++ id :: l2) -> filter (.≠ id) (l1 ++ id :: l2) = l1 ++ l2.
Proof.
  intros (H1 & H2 & [H3 H4]%NoDup_cons)%NoDup_app. rewrite filter_app, filter_cons_False by naive_solver.
  rewrite !filter_absent; [done..|]. intros ?. by apply (H2 id); [|left].
Qed.

Lemma pending_nodup c : conn_ok conf c -> NoDup (hc_pending_reqs c).
Proof. intros Hc. pose proof (lk_nodup _ (co_links _ _ Hc)) as H. unfold all_links in H. by apply NoDup_app in H as (? & _). Qed.

Lemma pending_in c l1 id l2 :
  conn_ok conf c -> hc_pending_reqs c = l1 ++ id :: l2 -> id ∈ hc_pending_reqs c /\ exists s, hc_streams c !! id = Some s.
Proof.
  intros Hc Hp. assert (id ∈ hc_pending_reqs c) as Hin by (rewrite Hp; set_solver). split; [done|].
  destruct (lk_dom _ (co_links _ _ Hc) id (pending_linked _ _ Hin)) as (s & Hs & _). eauto.
Qed.

(** A request of the queue is started. *)
Lemma run_one c l1 id l2 :
  conn_ok conf c -> hc_process_delay_linked c = false -> hc_pending_reqs c = l1 ++ id :: l2 ->
  succeeds (process_request conf (unlink id c) id) (fun c' => runs c c' /\ hc_pending_reqs c' = l1 ++ l2).
Proof.
  intros Hc Hde Hp. destruct (pending_in c l1 id l2 Hc Hp) as (Hin & s & Hs). pose proof (pending_nodup _ Hc) as Hnd. rewrite Hp in Hnd.
  eapply succeeds_weaken; [by apply (process_request_ok c id s)|]. intros c' (H1 & H2 & H3 & H4).
  destruct (unlink_view id c) as (_ & _ & _ & Vp & _ & Vd & Vs). specialize (H3 ltac:(congruence)). rewrite Vp, Hp, filter_middle in H3 by done. split_and!; [|done].
  split_and!; [done|by eapply steady_trans|congruence|]. rewrite H3, Hp. apply sublist_app; [done|by apply sublist_cons].
Qed.

Lemma pending_pass_ok fuel : forall c l1 l2 ran,
  conn_ok conf c -> hc_process_delay_linked c = false -> hc_pending_reqs c = l1 ++ l2 -> (length l2 <= fuel)%nat ->
  succeeds (pending_pass conf fuel c (head l2) ran) (fun r => runs c r.1 /\ (ran = true -> r.2 = true) /\
    (r.2 = true -> ran = true \/ (length (hc_pending_reqs r.1) < length (hc_pending_reqs c))%nat) /\
    (r.2 = false -> r.1 = c /\ (can_run_requests conf c = false \/ forall id, id ∈ l2 -> at_limit c id))).
Proof.
  induction fuel as [|fuel IH]; intros c l1 l2 ran Hc Hde Hp Hf; destruct l2 as [|id l2]; simpl in *; try lia.
  - apply succeeds_some. simpl. split_and!; [by apply runs_refl|done|by left|]. intros _. split; [done|]. right. set_solver.
  - apply succeeds_some. simpl. split_and!; [by apply runs_refl|done|by left|]. intros _. split; [done|]. right. set_solver.
  - destruct (can_run_requests conf c) eqn:Ecan; simpl; [|apply succeeds_some; simpl; split_and!; auto; by apply runs_refl].
    destruct (pending_in c l1 id l2 Hc Hp) as (Hin & s & Hs). pose proof (pending_nodup _ Hc) as Hnd. rewrite Hp in Hnd |- *.
    rewrite next_in_middle by (apply NoDup_app in Hnd as (_ & H & _); intros ?; by apply (H id); [|left]). simpl. rewrite Hs. simpl.
    destruct (_ && _) eqn:Elim.
    + eapply succeeds_weaken; [apply (IH c (l1 ++ [id]) l2 ran); [done|done|by rewrite <- app_assoc|lia]|].
      intros [c' ran'] (H1 & H2 & H3 & H4). simpl in *. split_and!; auto; [by rewrite Hp in H3|]. intros E. destruct (H4 E) as [-> [?|H]].
      { congruence. }
      split; [done|]. right. apply andb_true_iff in Elim as [E1 E2%Z.leb_le]. intros j [->|Hj]%elem_of_cons; [by exists s|auto].
    + eapply succeeds_bind; [by apply (run_one c l1 id l2)|]. intros c1 [Hr Hp1].
      eapply succeeds_weaken; [apply (IH c1 l1 l2 true); [apply Hr|destruct Hr as (_ & _ & ? & _); congruence|done|lia]|].
      intros [c' ran'] (H1 & H2 & H3 & H4). simpl in *. rewrite (H2 eq_refl) in *.
      split_and!; [by eapply runs_trans|done| |done]. intros _. right. destruct H1 as (_ & _ & _ & Hsub%sublist_length).
      rewrite Hp1, length_app in Hsub. rewrite length_app. simpl. lia.
Qed.

Lemma run_pending_loop_ok fuel : forall c,
  conn_ok conf c -> hc_process_delay_linked c = false -> (length (hc_pending_reqs c) < fuel)%nat ->
  succeeds (run_pending_loop conf fuel c) (fun c' => runs c c' /\ queue_settled c').
Proof.
  induction fuel as [|fuel IH]; intros c Hc Hde Hf; [lia|]. simpl.
  eapply succeeds_bind; [by apply (pending_pass_ok _ c [] (hc_pending_reqs c) false)|].
  intros [c1 ran] (H1 & _ & H3 & H4). simpl in *. destruct ran; simpl.
  - destruct (H3 eq_refl) as [|Hlt]; [done|]. destruct (hc_pending_reqs c1) eqn:E; simpl.
    + apply succeeds_some. split; [done|]. right. rewrite E. set_solver.
    + eapply succeeds_weaken; [apply IH; [apply H1|destruct H1 as (_ & _ & ? & _); congruence|rewrite E; simpl in *; lia]|]. intros c2 [H5 H6]. split; [by eapply runs_trans|done].
  - apply succeeds_some. destruct (H4 eq_refl) as [-> H]. by split.
Qed.

Lemma run_pending_requests_ok c :
  conn_ok conf c ->
  succeeds (run_pending_requests conf c) (fun c' => runs c c' /\ (hc_process_delay_linked c = false -> queue_settled c')).
Proof.
  intros Hc. unfold run_pending_requests. destruct (hc_process_delay_linked c) eqn:Hde.
  - apply succeeds_some. split; [by apply runs_refl|done].
  - eapply succeeds_weaken; [apply (run_pending_loop_ok); [done|done|lia]|]. intros c' [H1 H2]. by split.
Qed.

(** A stream enters the queue. *)
Definition enqueued (c c' : h2conn) : Prop :=
  conn_ok conf c' /\ steady c c' /\ (hc_process_delay_linked c = false -> queue_settled c').

Lemma enqueue_core_ok c0 c id s0 s :
  conn_ok conf c0 -> hc_streams c0 !! id = Some s0 -> hs_state s0 <> STATE_IDLE -> turns c0 id s c -> id ∉ all_links c0 ->
  waits s -> stream_good conf id s -> succeeds (execute_or_enqueue_request_core conf c id) (enqueued c0).
Proof.
  intros Hc Hs Hi T Hnl Hw Hg. destruct (rest_links _ _ (tn_rest _ _ _ _ T)) as (Hl & Hp & Hpr & Hcs & Hb & Hmo & Hd & Hio).
  assert (Hbl : hc_blocked_streams c = hc_blocked_streams c0) by (pose proof (tn_rest _ _ _ _ T) as H; unfold rest in H; congruence).
  unfold execute_or_enqueue_request_core, link_pending, is_linked. rewrite bool_decide_false by (by rewrite Hl). cbn [mbind option_bind].
  set (c1 := set_links _ _ _ c).
  assert (V : hc_streams c1 = hc_streams c /\ hc_num c1 = hc_num c /\ others c1 = others c /\ hc_pending_reqs c1 = hc_pending_reqs c ++ [id] /\
    hc_streams_to_proceed c1 = hc_streams_to_proceed c /\ hc_blocked_streams c1 = hc_blocked_streams c /\ hc_reset_budget c1 = hc_reset_budget c /\
    hc_process_delay_linked c1 = hc_process_delay_linked c /\ steady c c1) by (by destruct c).
  destruct V as (V1 & V2 & V3 & V4 & V5 & V6 & V7 & V8 & V9 & V10 & V11).
  assert (Hc1 : conn_ok conf c1).
  { apply (conn_ok_change c0 c1 id s); auto; try congruence.
    - apply (counters_view c); [apply T|done..].
    - apply (links_enqueue c0 c1 id s); auto; try congruence; [apply Hc|by rewrite V1, (tn_streams _ _ _ _ T)].
    - by rewrite V1, (tn_streams _ _ _ _ T).
    - intros Hop Hpush _. by apply (co_ids _ _ Hc id s0). }
  eapply succeeds_weaken; [by apply run_pending_requests_ok|]. intros c2 [(H1 & H2 & _) H3]. split_and!; [done| |rewrite <- Hd, <- V8; done].
  eapply steady_trans; [apply steady_rest, T|]. eapply steady_trans; [|exact H2]. by split_and!.
Qed.
End Run.
