(* ===== verification/Http2StreamsEnd.v ===== *)
(** * Ends of streams and of connections

    A stream may end in any state and a connection may be closed at any time: the assertions hold, the lists
    and the counters stay exact, and the counters of a closed connection are zero. *)
From S2P Require Import Prelude HpackInt HeaderTable Http2Frame Http2Send Http2Streams Http2StreamsOk Http2StreamsRun.
From Stdlib Require Import ZArith Lia.
From stdpp Require Import base numbers option strings gmap functions list.
Open Scope Z_scope.

Section End_.
Variable conf : config.
Context {app : App} `{!AppOk conf app}.
Hypothesis Hconf : config_ok conf.

(** ** The parts of [h2o_http2_conn_unregister_stream] *)

Lemma unlink_id id c : id ∉ all_links c -> unlink id c = c.
Proof.
  intros Hn. unfold all_links in Hn. destruct c. unfold unlink, set_links. simpl in *.
  apply not_elem_of_app in Hn as [H1 [H2 H3]%not_elem_of_app]. by rewrite !filter_absent.
Qed.

(** The body of the request is dropped. *)
Lemma drop_body c id s :
  counters_ok c -> hc_streams c !! id = Some s ->
  succeeds (if negb (body_rank (hs_body_state s) =? 0) && (body_rank (hs_body_state s) <? body_rank BODY_CLOSE_DELIVERED)
            then set_req_body_state (upd_stream id (set_hs_proceed_req false) c) id BODY_CLOSE_DELIVERED else Some c)
    (fun c' => exists s', turns c id s' c' /\ is_streaming s' = false /\ hs_state s' = hs_state s /\
       hs_blocked_by_server s' = hs_blocked_by_server s).
Proof.
  intros Hc Hs. destruct (ct_stream _ Hc _ _ Hs) as [_ Hst]. destruct (_ && _) eqn:E.
  - apply andb_true_iff in E as [_ E%Z.ltb_lt].
    pose proof (turns_upd c id s _ Hc Hs (uncounted_proceed false)) as H1.
    eapply succeeds_weaken; [apply (turns_body _ id _ BODY_CLOSE_DELIVERED (tn_counters _ _ _ _ H1) (turns_lookup _ _ _ _ H1)); by destruct s|].
    intros c' H2. eexists. split; [by eapply turns_trans|]. destruct s as [st sl b r ra bs [] t p ow iw bu q]; done.
  - apply succeeds_some. exists s. split_and!; [by apply turns_refl| |done..]. unfold is_streaming.
    destruct (hs_streamed s); [|done]. specialize (Hst eq_refl). destruct (hs_body_state s); done.
Qed.

Lemma unblock c id s :
  counters_ok c -> hc_streams c !! id = Some s -> is_streaming s = false ->
  succeeds (if hs_blocked_by_server s then h2o_http2_stream_set_blocked_by_server c id false else Some c)
    (fun c' => exists s', turns c id s' c' /\ is_streaming s' = false /\ hs_state s' = hs_state s /\ hs_blocked_by_server s' = false).
Proof.
  intros Hc Hs Hst. destruct (hs_blocked_by_server s) eqn:E.
  - eapply succeeds_weaken; [by apply (turns_blocked c id s false)|]. intros c' H. eexists. split; [done|]. by destruct s.
  - apply succeeds_some. exists s. split_and!; [by apply turns_refl|done..].
Qed.

Lemma charge_reset_view s c :
  0 <= hc_reset_budget c <= max_concurrent_requests_per_connection conf ->
  let c' := charge_reset conf s c in
  hc_streams c' = hc_streams c /\ hc_num c' = hc_num c /\ others c' = others c /\ all_links c' = all_links c /\
  hc_pending_reqs c' = hc_pending_reqs c /\ steady c c' /\
  0 <= hc_reset_budget c' <= max_concurrent_requests_per_connection conf.
Proof.
  intros Hb. unfold charge_reset. destruct (_ || _).
  - destruct (Z.ltb_spec 0 (hc_reset_budget c)); destruct c; simpl in *; split_and!; done || lia.
  - destruct (Z.ltb_spec (hc_reset_budget c) (max_concurrent_requests_per_connection conf)); destruct c; simpl in *; split_and!; done || lia.
Qed.

(** The end of the stream's state. *)
Lemma end_state c id s :
  counters_ok c -> hc_streams c !! id = Some s -> is_streaming s = false -> hs_blocked_by_server s = false ->
  succeeds (if bool_decide (hs_state s = STATE_END_STREAM) then Some c else h2o_http2_stream_set_state c id STATE_END_STREAM)
    (fun c' => exists s', turns c id s' c' /\ is_streaming s' = false /\ hs_blocked_by_server s' = false /\ hs_slot s' = None).
Proof.
  intros Hc Hs Hst Hb. destruct (ct_stream _ Hc _ _ Hs) as [Hsl _]. case_bool_decide as E.
  - apply succeeds_some. exists s. split_and!; [by apply turns_refl|done..|]. by rewrite Hsl, E.
  - eapply succeeds_weaken; [apply (turns_state c id s STATE_END_STREAM); [done..|simpl; by rewrite bool_decide_false]|].
    intros c' H. eexists. split; [done|]. by destruct s.
Qed.

(** What is left of the connection when a stream has gone. *)
Definition gone (c : h2conn) (id : Z) (c' : h2conn) : Prop :=
  conn_ok conf c' /\ steady c c' /\ hc_streams c' = delete id (hc_streams c) /\
  all_links c' = filter (.≠ id) (all_links c) /\ hc_pending_reqs c' = filter (.≠ id) (hc_pending_reqs c).

(** The stream may have changed since the books were last in order, and entered a list. *)
Record detachable (c0 : h2conn) (id : Z) (s : h2stream) (c : h2conn) : Prop := {
  dt_counters : counters_ok c;
  dt_streams : hc_streams c = <[id := s]> (hc_streams c0);
  dt_steady : steady c0 c;
  dt_budget : hc_reset_budget c = hc_reset_budget c0;
  dt_links : filter (.≠ id) (all_links c) = filter (.≠ id) (all_links c0);
  dt_pending : filter (.≠ id) (hc_pending_reqs c) = filter (.≠ id) (hc_pending_reqs c0);
  dt_early : hs_state s = STATE_IDLE \/ hs_state s = STATE_RECV_HEADERS -> id ∉ all_links c;
  dt_queued : hs_state s = STATE_REQ_PENDING -> id ∈ all_links c }.

Lemma detachable_turns c0 c id s0 s :
  conn_ok conf c0 -> hc_streams c0 !! id = Some s0 -> turns c0 id s c -> hs_state s = hs_state s0 -> detachable c0 id s c.
Proof.
  intros Hc Hs0 T Hst. destruct (rest_links _ _ (tn_rest _ _ _ _ T)) as (Hl & Hp & _ & Hcs & Hb & _).
  constructor; rewrite ?Hl, ?Hp, ?Hst; try done; try apply T.
  - apply steady_rest, T.
  - by apply (idle_not_linked conf c0 id s0).
  - intros E. apply pending_linked, (lk_req_pending _ (co_links _ _ Hc) _ s0); [done|by left].
Qed.

(** Detaching goes on with further changes of the stream. *)
Lemma detachable_trans c0 c1 c2 id s1 s2 :
  detachable c0 id s1 c1 -> turns c1 id s2 c2 -> hs_state s2 = hs_state s1 -> detachable c0 id s2 c2.
Proof.
  intros [D1 D2 D3 D4 D5 D6 D7 D8] T Hst. destruct (rest_links _ _ (tn_rest _ _ _ _ T)) as (Hl & Hp & _ & Hcs & Hb & _).
  constructor; rewrite ?Hl, ?Hp, ?Hst; auto; [apply T|by rewrite (tn_streams _ _ _ _ T), D2, insert_insert_eq| |congruence].
  eapply steady_trans; [exact D3|apply steady_rest, T].
Qed.

(** The link is dealt with according to the state. *)
Lemma drop_link c id st :
  (st = STATE_IDLE \/ st = STATE_RECV_HEADERS -> id ∉ all_links c) -> (st = STATE_REQ_PENDING -> id ∈ all_links c) ->
  match st with
  | STATE_RECV_BODY => Some (unlink id c)
  | STATE_IDLE | STATE_RECV_HEADERS => if is_linked c id then None else Some c
  | STATE_REQ_PENDING => if is_linked c id then Some (unlink id c) else None
  | STATE_SEND_HEADERS | STATE_SEND_BODY | STATE_SEND_BODY_IS_FINAL | STATE_END_STREAM => Some (unlink id c)
  end = Some (unlink id c).
Proof.
  intros Hn Hq. unfold is_linked. destruct st; try done.
  - rewrite bool_decide_false by auto. rewrite unlink_id; auto.
  - rewrite bool_decide_false by auto. rewrite unlink_id; auto.
  - by rewrite bool_decide_true by auto.
Qed.

Lemma conn_ok_gone c c' id :
  conn_ok conf c -> counters_ok c' -> hc_streams c' = delete id (hc_streams c) ->
  all_links c' = filter (.≠ id) (all_links c) -> hc_pending_reqs c' = filter (.≠ id) (hc_pending_reqs c) -> steady c c' ->
  0 <= hc_reset_budget c' <= max_concurrent_requests_per_connection conf ->
  conn_ok conf c'.
Proof.
  intros [_ Hlk _ Hst Hid] Hct Hm Hl Hp (Hcs & Hmo & _) Hb. constructor; [done| |done|..]; rewrite ?Hm, ?Hcs, ?Hmo.
  - apply (links_delete c _ id Hlk); rewrite ?Hm; auto; [apply lookup_delete_eq|]. intros j Hj. by apply lookup_delete_ne.
  - intros j x [Hj Hx]%lookup_delete_Some. eauto.
  - intros j x Hop Hpush [Hj Hx]%lookup_delete_Some. eauto.
Qed.

Lemma unregister_gone c0 c id s :
  conn_ok conf c0 -> detachable c0 id s c ->
  exists c', gone c0 id c' /\ h2o_http2_conn_unregister_stream conf c id =
    (if conn_rank (hc_state c') <? conn_rank CONN_IS_CLOSING then run_pending_requests conf c' else Some c').
Proof.
  intros Hc D. assert (Hs : hc_streams c !! id = Some s) by (rewrite (dt_streams _ _ _ _ D); apply lookup_insert_eq).
  unfold h2o_http2_conn_unregister_stream. rewrite Hs. cbn [mbind option_bind].
  destruct (drop_body c id s (dt_counters _ _ _ _ D) Hs) as (c1 & -> & s1 & T1 & A1 & A2 & A3). cbn [mbind option_bind]. rewrite <- A3.
  destruct (unblock c1 id s1 (tn_counters _ _ _ _ T1) (turns_lookup _ _ _ _ T1) A1) as (c2 & -> & s2 & T2 & B1 & B2 & B3). cbn [mbind option_bind].
  pose proof (detachable_trans _ _ _ _ _ _ D (turns_trans _ _ _ _ _ _ T1 T2) ltac:(congruence)) as [E1 E2 E3 E4 E5 E6 E7 E8].
  destruct (charge_reset_view s c2) as (Vm & Vn & Vo & Vl & Vp & Vs & Vb); [rewrite E4; apply Hc|]. set (c3 := charge_reset conf s c2) in *.
  rewrite <- A2, <- B2, drop_link by (rewrite Vl; auto). cbn [mbind option_bind].
  destruct (unlink_view id c3) as (Um & Un & Uo & Up & Ub & _ & Us).
  assert (C4 : counters_ok (unlink id c3)) by (by apply counters_unlink, (counters_view c2)).
  assert (S4 : hc_streams (unlink id c3) !! id = Some s2) by (rewrite Um, Vm, E2; apply lookup_insert_eq).
  destruct (end_state (unlink id c3) id s2 C4 S4 B1 B3) as (c5 & -> & s5 & T5 & D1 & D2 & D3). cbn [mbind option_bind].
  set (c6 := set_streams (delete id (hc_streams c5)) c5). exists c6. split; [|done].
  destruct (rest_links _ _ (tn_rest _ _ _ _ T5)) as (Hl5 & Hp5 & _ & _ & Hb5 & _).
  assert (W : hc_streams c6 = delete id (hc_streams c5) /\ hc_num c6 = hc_num c5 /\ others c6 = others c5 /\ rest c6 = rest c5) by (by destruct c5).
  destruct W as (Wm & Wn & Wo & Wr). destruct (rest_links _ _ Wr) as (Hl6 & Hp6 & _ & _ & Hb6 & _).
  assert (S6 : steady c0 c6).
  { eapply steady_trans; [exact E3|]. eapply steady_trans; [exact Vs|]. eapply steady_trans; [exact Us|].
    eapply steady_trans; [apply steady_rest, T5|]. by apply steady_rest. }
  assert (M6 : hc_streams c6 = delete id (hc_streams c0)).
  { rewrite Wm, (tn_streams _ _ _ _ T5), Um, Vm, E2. by rewrite insert_insert_eq, delete_insert_eq. }
  assert (L6 : all_links c6 = filter (.≠ id) (all_links c0)) by (rewrite Hl6, Hl5, all_links_unlink; congruence).
  assert (P6 : hc_pending_reqs c6 = filter (.≠ id) (hc_pending_reqs c0)) by congruence.
  split_and!; auto. apply (conn_ok_gone c0 c6 id); auto; [|by rewrite Hb6, Hb5, Ub].
  apply (counters_delete c5 c6 id s5); auto; [apply T5|by eapply turns_lookup].
Qed.

(** A stream ends, and requests that waited for it may run. *)
Definition ended (c c' : h2conn) : Prop := conn_ok conf c' /\ steady c c'.

Lemma stream_detach_ok c0 c id s :
  conn_ok conf c0 -> detachable c0 id s c -> succeeds (h2o_http2_conn_unregister_stream conf c id) (ended c0).
Proof.
  intros Hc D. destruct (unregister_gone c0 c id s Hc D) as (c' & (H1 & H2 & _) & ->).
  destruct (_ <? _); [|by apply succeeds_some]. eapply succeeds_weaken; [apply (run_pending_requests_ok conf Hconf); done|].
  intros c'' [(H3 & H4 & _) _]. split; [done|by eapply steady_trans].
Qed.

Lemma unregister_ok c0 c id s0 s :
  conn_ok conf c0 -> hc_streams c0 !! id = Some s0 -> turns c0 id s c -> hs_state s = hs_state s0 ->
  succeeds (h2o_http2_conn_unregister_stream conf c id) (ended c0).
Proof. intros Hc Hs T Hst. apply (stream_detach_ok c0 c id s); [done|]. by apply (detachable_turns c0 c id s0). Qed.

Definition sends (s : h2stream) : Prop :=
  hs_state s = STATE_SEND_HEADERS \/ hs_state s = STATE_SEND_BODY \/ hs_state s = STATE_SEND_BODY_IS_FINAL.

Lemma phase_end id s : sends s -> phase s -> phase (moved id STATE_END_STREAM s).
Proof.
  destruct s as [st sl b r ra bs sd t p ow iw bu q]. unfold phase, sends. simpl. intros Hst.
  destruct bs; try naive_solver lia. destruct sd; naive_solver lia.
Qed.

Lemma good_end id s : sends s -> stream_good conf id s -> stream_good conf id (moved id STATE_END_STREAM s).
Proof. intros Hs Hg. apply good_state; [done|by apply phase_end, Hg|]. intros _. by right. Qed.

(** A stream that is not in the queue moves on. *)
Lemma conn_ok_moved c0 c id s0 s :
  conn_ok conf c0 -> hc_streams c0 !! id = Some s0 -> turns c0 id s c -> stream_good conf id s -> ~ waits s0 ->
  state_rank STATE_SEND_HEADERS <= state_rank (hs_state s) -> hs_state s0 <> STATE_IDLE -> conn_ok conf c.
Proof.
  intros Hc Hs T Hg Hw Hr Hi. apply (conn_ok_turns conf c0 c id s0 s); auto.
  - intros _. unfold linkable. destruct (hs_state s); simpl in *; naive_solver lia.
  - intros Hin. by destruct (Hw (lk_pending _ (co_links _ _ Hc) _ _ Hin Hs)).
  - intros Hq. exfalso. revert Hq. apply not_queued; [apply Hg|..]; intros E; rewrite E in Hr; simpl in Hr; lia.
  - done.
Qed.

Lemma reset_turned c0 c id s0 s :
  conn_ok conf c0 -> hc_streams c0 !! id = Some s0 -> turns c0 id s c -> hs_state s = hs_state s0 ->
  (state_rank STATE_SEND_HEADERS <= state_rank (hs_state s) -> stream_good conf id s) ->
  succeeds (h2o_http2_stream_reset conf c id) (ended c0).
Proof.
  intros Hc Hs0 T Hst Hg. pose proof (turns_lookup _ _ _ _ T) as Hs. unfold h2o_http2_stream_reset, h2o_http2_stream_close. rewrite Hs. simpl.
  assert (Hclose : succeeds (h2o_http2_conn_unregister_stream conf c id) (ended c0)) by (by apply (unregister_ok c0 c id s0 s)).
  assert (Hw : state_rank STATE_SEND_HEADERS <= state_rank (hs_state s) -> ~ waits s0 /\ hs_state s0 <> STATE_IDLE).
  { unfold waits. rewrite Hst. intros Hr. split; [intros [_ [[E _]|[E _]]]|intros E]; rewrite E in Hr; simpl in Hr; lia. }
  assert (Hstay : state_rank STATE_SEND_HEADERS <= state_rank (hs_state s) -> ended c0 c).
  { intros Hr. destruct (Hw Hr). split; [by apply (conn_ok_moved c0 c id s0 s); auto|apply steady_rest, T]. }
  assert (Hend : sends s ->
    succeeds (c' ← h2o_http2_stream_set_state c id STATE_END_STREAM; if is_linked c' id then Some c' else h2o_http2_conn_unregister_stream conf c' id)
      (ended c0)).
  { intros Hsend. assert (Hr : state_rank STATE_SEND_HEADERS <= state_rank (hs_state s)) by (destruct Hsend as [-> |[-> | ->]]; simpl; lia).
    eapply succeeds_bind; [apply (turns_state c id s STATE_END_STREAM); [apply T|done|]|].
    - simpl. rewrite bool_decide_false; [done|]. intros ?. unfold sends in Hsend. naive_solver congruence.
    - intros c1 Ht. pose proof (turns_trans _ _ _ _ _ _ T Ht) as T1. destruct (Hw Hr).
      assert (Hc1 : conn_ok conf c1).
      { apply (conn_ok_moved c0 c1 id s0 (moved id STATE_END_STREAM s)); auto; [by apply good_end; auto|by destruct s]. }
      pose proof (steady_rest _ _ (tn_rest _ _ _ _ T1)) as Hst1. destruct (is_linked c1 id); [by apply succeeds_some|].
      eapply succeeds_weaken; [apply (unregister_ok c1 c1 id _ _ Hc1 (turns_lookup _ _ _ _ T1) (turns_refl _ _ _ (co_counters _ _ Hc1) (turns_lookup _ _ _ _ T1)) eq_refl)|].
      intros c2 [H1 H2]. split; [done|by eapply steady_trans]. }
  unfold sends in Hend. destruct (hs_state s) eqn:Est; auto. destruct (is_linked c id); [by apply succeeds_some, Hstay|done].
Qed.

Lemma reset_ok c id s :
  conn_ok conf c -> hc_streams c !! id = Some s -> succeeds (h2o_http2_stream_reset conf c id) (ended c).
Proof.
  intros Hc Hs. apply (reset_turned c c id s s); auto; [by apply turns_refl; [apply Hc|]|]. intros _. by apply (co_streams _ _ Hc).
Qed.

(** ** Closing the connection *)

Lemma closing_ok c : conn_ok conf c -> conn_ok conf (set_conn_state CONN_IS_CLOSING c).
Proof.
  intros [Hct [Hnd Hd Hp Hq] Hb Hst Hid]. destruct c. simpl in *.
  constructor; simpl; auto; [by apply (counters_view _ _ Hct)|by constructor|done].
Qed.

Lemma close_streams_ok ids : forall c,
  conn_ok conf c -> hc_state c = CONN_IS_CLOSING -> NoDup ids -> (forall id, id ∈ ids <-> is_Some (hc_streams c !! id)) ->
  succeeds (close_streams conf c ids) (fun c' => conn_ok conf c' /\ hc_streams c' = ∅).
Proof.
  induction ids as [|id ids IH]; intros c Hc Hst Hnd Hin; simpl.
  - apply succeeds_some. split; [done|]. apply map_eq. intros id. rewrite lookup_empty. apply eq_None_not_Some. rewrite <- Hin. set_solver.
  - apply NoDup_cons in Hnd as [Hni Hnd]. destruct (proj1 (Hin id)) as [s Hs]; [left|].
    destruct (unregister_gone c c id s Hc (detachable_turns c c id s s Hc Hs (turns_refl _ _ _ (co_counters _ _ Hc) Hs) eq_refl))
      as (c' & (H1 & (H2 & _) & H3 & _) & E).
    unfold h2o_http2_stream_close. rewrite E, H2, Hst. simpl. apply IH; [done|congruence|done|].
    intros j. rewrite H3. destruct (decide (j = id)) as [->|Hj].
    + rewrite lookup_delete_eq. split; [done|by intros []].
    + rewrite lookup_delete_ne, <- Hin by done. set_solver.
Qed.

Lemma no_links c : conn_ok conf c -> hc_streams c = ∅ -> all_links c = [].
Proof.
  intros Hc Hm. destruct (all_links c) as [|id l] eqn:E; [done|].
  destruct (lk_dom _ (co_links _ _ Hc) id) as (s & Hs & _); [rewrite E; left|]. by rewrite Hm, lookup_empty in Hs.
Qed.

Lemma close_connection_now_ok c :
  conn_ok conf c -> io_timeout_linked (hc_io c) = false ->
  succeeds (close_connection_now conf c) (fun c' => hc_streams c' = ∅ /\ all_links c' = []).
Proof.
  intros Hc Ht. unfold close_connection_now. pose proof (closing_ok c Hc) as Hc1. set (c1 := set_conn_state CONN_IS_CLOSING c) in *.
  assert (V : hc_state c1 = CONN_IS_CLOSING /\ hc_io c1 = hc_io c /\ hc_streams c1 = hc_streams c) by (by destruct c). destruct V as (V1 & V2 & V3).
  rewrite V2, Ht. eapply succeeds_bind; [apply (close_streams_ok _ c1 Hc1 V1)|].
  - apply NoDup_fst_map_to_list.
  - intros id. rewrite list_elem_of_fmap. split.
    + intros ([j x] & -> & Hx%elem_of_map_to_list). by exists x.
    + intros [x Hx]. exists (id, x). split; [done|]. by apply elem_of_map_to_list.
  - intros c2 [Hc2 Hm]. pose proof (no_links _ Hc2 Hm) as Hl. destruct (co_counters _ _ Hc2) as [Hn Hb Hs Htu _].
    rewrite Hm in *. rewrite Hb, Hs, Htu, !count_empty. setoid_rewrite Hn. unfold counted. rewrite !count_empty.
    unfold all_links in *. apply app_eq_nil in Hl as [E1 [E2 E3]%app_eq_nil]. rewrite E1, E2. simpl. apply succeeds_some.
    split; [done|]. by rewrite E1, E2, E3.
Qed.

Lemma close_connection_ok c :
  conn_ok conf c ->
  succeeds (close_connection conf c) (fun r => if r.2 then hc_streams r.1 = ∅ else r.1 = set_conn_state CONN_IS_CLOSING c).
Proof.
  intros Hc. unfold close_connection. pose proof (closing_ok c Hc) as Hc1.
  destruct (_ || _) eqn:E; [by apply succeeds_some|]. apply orb_false_iff in E as [_ E].
  eapply succeeds_bind; [by apply close_connection_now_ok|]. intros c' [H _]. by apply succeeds_some.
Qed.

(** ** Requests that are complete *)

Definition disregarded (c : h2conn) (id : Z) : bool := negb (h2o_http2_stream_is_push id) && (hc_pull_max_open c <? id).

Lemma idle_phase s :
  phase s -> hs_streamed s = false -> hs_state s = STATE_RECV_HEADERS \/ hs_state s = STATE_REQ_PENDING ->
  hs_proceed_req s = false /\ (hs_body_state s = BODY_NONE \/ hs_body_state s = BODY_CLOSE_DELIVERED).
Proof.
  unfold phase. intros Hp Hsd Hst. rewrite Hsd in Hp. destruct (hs_body_state s).
  - destruct Hp as (? & _). auto.
  - destruct Hp as (E & _). destruct Hst; congruence.
  - destruct Hp as (_ & E & _). destruct Hst; congruence.
  - by destruct Hp as (E & _).
  - destruct Hp as (? & _). auto.
Qed.

Lemma good_pending id s b :
  stream_good conf id s -> hs_streamed s = false -> hs_state s = STATE_RECV_HEADERS \/ hs_state s = STATE_REQ_PENDING ->
  stream_good conf id (set_hs_blocked b (moved id STATE_REQ_PENDING s)) /\ waits (set_hs_blocked b (moved id STATE_REQ_PENDING s)).
Proof.
  intros [G1 G2 G3 G7 G4 G5 G6 G8] Hsd Hst. destruct (idle_phase s G2 Hsd Hst) as [Hpr Hbs].
  destruct s as [st sl bl r ra bs sd t p ow iw bu q]. simpl in *. subst. split; [|split; [done|by left]].
  constructor; simpl in *; auto.
  - unfold phase in *. destruct Hbs; subst; simpl in *; naive_solver.
  - intros E. destruct (G3 E) as [|Hr]; [done|]. exfalso. destruct Hst; subst; simpl in *; lia.
Qed.

Lemma execute_or_enqueue_ok c0 c id s0 s :
  conn_ok conf c0 -> hc_streams c0 !! id = Some s0 -> hs_state s0 <> STATE_IDLE -> turns c0 id s c -> id ∉ all_links c0 ->
  stream_good conf id s -> hs_streamed s = false ->
  hs_state s = STATE_RECV_HEADERS /\ hs_state s0 = STATE_RECV_HEADERS \/ hs_state s = STATE_REQ_PENDING /\ disregarded c0 id = false ->
  succeeds (execute_or_enqueue_request conf c id) (ended c0).
Proof.
  intros Hc Hs0 Hi T Hnl Hg Hsd Hst. unfold execute_or_enqueue_request. rewrite (turns_lookup _ _ _ _ T). cbn [mbind option_bind].
  assert (Hst' : hs_state s = STATE_RECV_HEADERS \/ hs_state s = STATE_REQ_PENDING) by naive_solver.
  rewrite bool_decide_true by done. cbn [negb]. destruct (rest_links _ _ (tn_rest _ _ _ _ T)) as (_ & _ & _ & _ & _ & Hmo & _).
  assert (E : reset_stream_if_disregarded conf c id =
    if disregarded c0 id then (c ← h2o_http2_stream_reset conf c id; Some (c, true)) else Some (c, false)).
  { unfold reset_stream_if_disregarded, disregarded. by rewrite Hmo. }
  rewrite E. destruct (disregarded c0 id).
  - destruct Hst as [[H1 H2]|[_ ?]]; [|done].
    destruct (reset_turned c0 c id s0 s Hc Hs0 T) as (c1 & -> & H); [congruence|done|]. cbn [mbind option_bind]. by apply succeeds_some.
  - cbn [mbind option_bind].
    eapply succeeds_bind; [apply (turns_state c id s STATE_REQ_PENDING); [apply T|by eapply turns_lookup|destruct Hst' as [-> | ->]; done]|].
    intros c1 T1. pose proof (turns_trans _ _ _ _ _ _ T T1) as T2.
    assert (Hb : hs_blocked_by_server (moved id STATE_REQ_PENDING s) = hs_blocked_by_server s) by (by destruct s).
    eapply (succeeds_bind _ _ (turns c1 id (set_hs_blocked true (moved id STATE_REQ_PENDING s)))).
    + destruct (hs_blocked_by_server s) eqn:Eb.
      * apply succeeds_some. replace (set_hs_blocked true _) with (moved id STATE_REQ_PENDING s); [|destruct s; simpl in *; by subst].
        apply turns_refl; [apply T1|by eapply turns_lookup].
      * apply turns_blocked; [apply T1|by eapply turns_lookup|by rewrite Hb].
    + intros c2 T3. destruct (good_pending id s true Hg Hsd Hst') as [H1 H2].
      eapply succeeds_weaken; [apply (enqueue_core_ok conf Hconf c0 c2 id s0 _ Hc Hs0 Hi (turns_trans _ _ _ _ _ _ T2 T3) Hnl H2 H1)|].
      intros c3 (H3 & H4 & _). by split.
Qed.
End End_.
