(* ===== verification/Http2Conn.v ===== *)
(** * The input of an HTTP/2 connection (lib/http2/connection.c)

    From the octets of the socket to the frame handlers, the requests and their bodies.  A handler gives the connection
    after it, the code that it returns and [*err_desc]; [None] is a failed assertion, a call of [h2o_fatal] or an access
    through a null pointer.

    Left out: the calls of the scheduler ([set_priority], and the activation of a stream whose window opens again), the
    timestamps and the counters of events, and the pause of reading.  [req_body_bytes_received] does not wrap, since a body
    beyond [max_request_entity_size] is refused. *)
From S2P Require Import Prelude Strings Url Tokens HpackInt Huffman HeaderTable Headers Hpack HpackParse Http2Frame Http2Send Http2Streams.
From Stdlib Require Import ZArith Lia.
From stdpp Require Import base numbers option strings gmap functions list.
Open Scope Z_scope.

Definition H2O_HTTP2_ERROR_REFUSED_STREAM : Z := -7.
Definition H2O_HTTP2_ERROR_ENHANCE_YOUR_CALM : Z := -11.
Definition H2O_HTTP2_ERROR_PROTOCOL_CLOSE_IMMEDIATELY : Z := -256.
Definition H2O_HTTP2_SETTINGS_HOST_MAX_FRAME_SIZE : Z := 16384.
Definition H2O_HTTP2_SETTINGS_MAX_CONCURRENT_STREAMS : Z := 3.
Definition H2O_HTTP2_SETTINGS_ENABLE_CONNECT_PROTOCOL : Z := 8.
Definition H2O_MAX_HEADERS : Z := 100.
Definition H2O_MAX_REQLEN : Z := 8192 + 4096 * H2O_MAX_HEADERS.

(** The text of an error of HPACK. *)
Definition err_text (e : hpack_err_desc) : string :=
  match e with
  | h2o_hpack_err_missing_mandatory_pseudo_header => "missing mandatory pseudo header"
  | h2o_hpack_err_invalid_pseudo_header => "invalid pseudo header"
  | h2o_hpack_err_found_upper_case_in_header_name => "found an upper-case letter in header name"
  | h2o_hpack_err_unexpected_connection_specific_header => "found an unexpected connection-specific header"
  | h2o_hpack_err_invalid_content_length_header => "invalid content-length header"
  | h2o_hpack_soft_err_found_invalid_char_in_header_name => "found an invalid character in header name"
  | h2o_hpack_soft_err_found_invalid_char_in_header_value => "found an invalid character in header value"
  | _ => "" (* those of QPACK *)
  end.

(** What a handler returns: the connection, the code and [*err_desc]. *)
Abbreviation handled := (h2conn * Z * option string)%type.
Definition done_ (c : h2conn) : option handled := Some (c, 0, None).
Definition fails (c : h2conn) (code : Z) (desc : string) : option handled := Some (c, code, Some desc).

Section Conn.
Variable conf : config.
Context {app : App}.

(** ** The body of a request *)

Definition write_streaming_body (c : h2conn) (id : Z) : option h2conn :=
  s ← hc_streams c !! id;
  if bool_decide (rx_entity (hs_rx s) <> None) then None
  else
    '(c, is_end_stream) ←
      match hs_body_state s with
      | BODY_OPEN_BEFORE_FIRST_FRAME | BODY_OPEN => buf ← rx_buf (hs_rx s); if is_nil buf then None else Some (c, false)
      | BODY_CLOSE_QUEUED =>
          c ← set_req_body_state (upd_stream id (set_hs_proceed_req false) c) id BODY_CLOSE_DELIVERED;
          Some (c, true)
      | _ => None
      end;
    buf ← rx_buf (hs_rx s);
    if negb (rx_write_req (hs_rx s)) then None
    else
      '(c, ret) ← app_write_req (upd_stream id (set_hs_rx (set_rx_entity (Some buf))) c) id is_end_stream;
      if negb (ret =? 0) then
        c ← stream_send_error c id H2O_HTTP2_ERROR_STREAM_CLOSED;
        h2o_http2_stream_reset conf c id
      else
        s ← hc_streams c !! id;
        if bool_decide (hs_body_state s = BODY_CLOSE_DELIVERED /\ hs_state s = STATE_END_STREAM)
        then h2o_http2_stream_close conf c id else Some c.

(** The states of a stream whose body has ended. *)
Definition end_of_body (c : h2conn) (id : Z) : option h2conn :=
  s ← hc_streams c !! id;
  c ← (if state_rank (hs_state s) <? state_rank STATE_REQ_PENDING then
         c ← h2o_http2_stream_set_state c id STATE_REQ_PENDING;
         if rx_process_called (hs_rx s) then h2o_http2_stream_set_state c id STATE_SEND_HEADERS else Some c
       else Some c);
  if rx_write_req (hs_rx s) then set_req_body_state c id BODY_CLOSE_QUEUED
  else set_req_body_state (upd_stream id (set_hs_proceed_req false) c) id BODY_CLOSE_DELIVERED.

(** [h2o_buffer_append] to [req_body.buf] *)
Definition append_body (c : h2conn) (id : Z) (payload : bytes) : option h2conn :=
  s ← hc_streams c !! id;
  buf ← rx_buf (hs_rx s);
  Some (upd_stream id (set_hs_rx (set_rx_buf (Some (buf ++ payload)))) c).

(** The chunk in the buffer is handed over. *)
Definition submit_body (c : h2conn) (id : Z) (is_first is_end_stream req_queued : bool) : option h2conn :=
  s ← hc_streams c !! id;
  let set_entity := upd_stream id (set_hs_rx (set_rx_entity (rx_buf (hs_rx s)))) in
  if hs_streamed s then
    if rx_write_req (hs_rx s) then
      if bool_decide (rx_entity (hs_rx s) = None) then write_streaming_body c id else Some c
    else Some (set_entity c)
  else
    let c := set_entity c in
    if is_first && negb is_end_stream then
      if app_can_stream_request c id then execute_or_enqueue_request_core conf (upd_stream id (set_hs_proceed_req true) c) id
      else update_stream_input_window c id (active_stream_window_size conf - H2O_HTTP2_SETTINGS_HOST_STREAM_INITIAL_WINDOW_SIZE)
    else if is_end_stream && negb req_queued then execute_or_enqueue_request conf c id
    else Some c.

(** The check of the size; an error to send. *)
Definition body_size_error (s : h2stream) (received : Z) (is_end_stream : bool) : option Z :=
  if max_request_entity_size conf <? received then Some H2O_HTTP2_ERROR_REFUSED_STREAM
  else
    let cl := rq_content_length (rx_input (hs_rx s)) in
    if negb (cl =? SIZE_MAX) && (if is_end_stream then negb (received =? cl) else cl <? received)
    then Some H2O_HTTP2_ERROR_PROTOCOL else None.

Definition handle_request_body_chunk (c : h2conn) (id : Z) (payload : bytes) (is_end_stream : bool) : option h2conn :=
  s ← hc_streams c !! id;
  '(c, is_first) ←
    match hs_body_state s with
    | BODY_OPEN_BEFORE_FIRST_FRAME => c ← set_req_body_state c id BODY_OPEN; Some (c, true)
    | BODY_OPEN => Some (c, false)
    | _ => None
    end;
  let received := rx_received (hs_rx s) + len payload in
  let c := upd_stream id (set_hs_rx (set_rx_received received)) c in
  match body_size_error s received is_end_stream with
  | Some err =>
      c ← stream_send_error c id err;
      h2o_http2_stream_reset conf c id
  | None =>
      c ← (if hs_blocked_by_server s then Some c else h2o_http2_stream_set_blocked_by_server c id true);
      '(c, disregarded) ← reset_stream_if_disregarded conf c id;
      if (disregarded : bool) then Some c
      else
        let req_queued := hs_proceed_req s in
        c ← (if is_end_stream then end_of_body c id else Some c);
        c ← append_body c id payload;
        submit_body c id is_first is_end_stream req_queued
  end.

(** [h2o_buffer_consume], which does not look at the buffer when there is nothing to consume *)
Definition consume_body (buf : option bytes) (delta : Z) : option (option bytes) :=
  if delta =? 0 then Some buf else b ← buf; Some (Some (drop (Z.to_nat delta) b)).

(** [proceed_request]; [errstr]: [None] for NULL, or whether it is [h2o_httpclient_error_is_eos]. *)
Definition proceed_error (c : h2conn) (id : Z) (is_eos : bool) : option h2conn :=
  c ← set_req_body_state (upd_stream id (set_hs_proceed_req false) c) id BODY_CLOSE_DELIVERED;
  if conn_rank (hc_state c) <? conn_rank CONN_IS_CLOSING then
    s ← hc_streams c !! id;
    if is_eos && (state_rank (hs_state s) <? state_rank STATE_END_STREAM)
    then Some (upd_stream id (set_hs_rx (set_rx_delayed true)) c)
    else
      c ← stream_send_error c id (if is_eos then H2O_HTTP2_ERROR_NONE else H2O_HTTP2_ERROR_STREAM_CLOSED);
      c ← (if is_linked c id then Some c else link_to_proceed c id);
      h2o_http2_stream_reset conf c id
  else Some c.

Definition proceed_request (c : h2conn) (id : Z) (errstr : option bool) : option h2conn :=
  s ← hc_streams c !! id;
  if negb (hs_streamed s) then None
  else
    let written := len (default [] (rx_entity (hs_rx s))) in
    buf ← consume_body (rx_buf (hs_rx s)) written;
    let c := upd_stream id (set_hs_rx (fun q => set_rx_entity None (set_rx_buf buf q))) c in
    match errstr with
    | Some is_eos => proceed_error c id is_eos
    | None =>
        match hs_body_state s with
        | BODY_OPEN =>
            c ← update_stream_input_window c id written;
            s ← hc_streams c !! id;
            c ← (if hs_blocked_by_server s && (0 <? h2o_http2_window_get_avail (hs_input_window s))
                 then h2o_http2_stream_set_blocked_by_server c id false else Some c);
            buf ← buf;
            if is_nil buf then Some c else write_streaming_body c id
        | BODY_CLOSE_QUEUED => if written =? 0 then None else write_streaming_body c id
        | _ => None
        end
    end.

(** ** Requests *)

(** Both states are passed, so that the response can be sent. *)
Definition fast_forward (c : h2conn) (id : Z) : option h2conn :=
  c ← h2o_http2_stream_set_state c id STATE_REQ_PENDING;
  h2o_http2_stream_set_state c id STATE_SEND_HEADERS.

Definition send_invalid_request_error (c : h2conn) (id : Z) : option handled :=
  c ← fast_forward c id;
  c ← app_send_error c id 400;
  done_ c.

(** Label [SendRSTStream] *)
Definition send_rst_stream (c : h2conn) (id ret : Z) : option handled :=
  c ← stream_send_error (upd_stream id set_hs_reset_by_peer_action c) id ret;
  c ← h2o_http2_stream_reset conf c id;
  done_ c.

(** Label [ProcessImmediately] *)
Definition process_immediately (c : h2conn) (id : Z) : option handled :=
  let c := upd_stream id (fun s => set_hs_proceed_req true (set_hs_rx (set_rx_entity (Some [])) s)) c in
  c ← h2o_http2_stream_set_state c id STATE_RECV_BODY;
  c ← set_req_body_state c id BODY_OPEN;
  c ← process_request conf c id;
  done_ c.

(** The scheme is never NULL. *)
Definition fix_scheme (r : h2request) : h2request :=
  let '(Request m s a p pr h mp cl e d f err) := r in
  Request m (match s with Some _ => s | None => Some (if sock_ssl then H2O_URL_SCHEME_HTTPS else H2O_URL_SCHEME_HTTP) end) a p pr h mp cl e d f err.

Definition add_expect (expect : bytes) (r : h2request) : h2request :=
  let '(Request m s a p pr h mp cl e d f err) := r in
  Request m s a p pr (h2o_add_header h H2O_TOKEN_EXPECT None expect).1 mp cl e d f err.

(** The kind of the request: [is_connect], [must_exist_map] and [may_exist_map]; [None] for a request that is refused. *)
Definition request_kind (r : h2request) : option (bool * Z * Z) :=
  let map := rq_map r in
  let method := default [] (rq_method r) in
  if bool_decide (method = lit "CONNECT") then
    let must := Z.lor H2O_HPACK_PARSE_HEADERS_METHOD_EXISTS H2O_HPACK_PARSE_HEADERS_AUTHORITY_EXISTS in
    Some (true,
          if negb (Z.land map H2O_HPACK_PARSE_HEADERS_PROTOCOL_EXISTS =? 0)
          then Z.lor must (Z.lor H2O_HPACK_PARSE_HEADERS_SCHEME_EXISTS
                 (Z.lor H2O_HPACK_PARSE_HEADERS_PATH_EXISTS H2O_HPACK_PARSE_HEADERS_PROTOCOL_EXISTS))
          else must, 0)
  else if bool_decide (method = lit "CONNECT-UDP") then
    if negb ((Z.land map H2O_HPACK_PARSE_HEADERS_PROTOCOL_EXISTS =? 0) && bool_decide (default [] (rq_path r) = lit "/")) then None
    else
      Some (true, Z.lor H2O_HPACK_PARSE_HEADERS_METHOD_EXISTS (Z.lor H2O_HPACK_PARSE_HEADERS_SCHEME_EXISTS
                    (Z.lor H2O_HPACK_PARSE_HEADERS_AUTHORITY_EXISTS H2O_HPACK_PARSE_HEADERS_PATH_EXISTS)), 0)
  else
    Some (false, Z.lor H2O_HPACK_PARSE_HEADERS_METHOD_EXISTS
                   (Z.lor H2O_HPACK_PARSE_HEADERS_SCHEME_EXISTS H2O_HPACK_PARSE_HEADERS_PATH_EXISTS),
          H2O_HPACK_PARSE_HEADERS_AUTHORITY_EXISTS).

(** The assertion in the case of CONNECT-UDP. *)
Definition upgrade_asserted (r : h2request) : bool :=
  bool_decide (default [] (rq_method r) <> lit "CONNECT-UDP") || bool_decide (rq_protocol r = None).

Definition pseudo_headers_ok (map must may : Z) : bool :=
  (Z.land map must =? must) && (Z.land map (Z.lnot (Z.lor must may)) =? 0).

(** The request is handed on according to its kind. *)
Definition dispatch_request (c : h2conn) (id ret : Z) (r : h2request) (is_connect : bool) : option handled :=
  s ← hc_streams c !! id;
  if negb (ret =? 0) then
    if ret =? H2O_HTTP2_ERROR_INVALID_HEADER_CHAR then send_invalid_request_error c id else None
  else if is_connect then
    if negb (rq_content_length r =? SIZE_MAX) || bool_decide (rx_buf (hs_rx s) = None) then send_invalid_request_error c id
    else process_immediately (upd_stream id set_hs_is_tunnel_req c) id
  else
    let handle c :=
      if bool_decide (rx_buf (hs_rx s) = None) then c ← execute_or_enqueue_request conf c id; done_ c
      else
        c ← h2o_http2_stream_set_state c id STATE_RECV_BODY;
        c ← set_req_body_state c id BODY_OPEN_BEFORE_FIRST_FRAME;
        done_ c in
    match rq_expect r with
    | Some expect =>
        if negb (h2o_lcstris expect (lit "100-continue")) then
          c ← fast_forward c id;
          c ← app_send_error c id 417;
          done_ c
        else if app_should_forward_expect c id 
        then process_immediately (upd_stream id (set_hs_rx (set_rx_input (add_expect expect r))) c) id
        else
          c ← h2o_http2_conn_request_write (set_hc_buf (hc_buf c ++ app_informational c id) c);
          handle c
    | None => handle c
    end.

Definition handle_incoming_request (c : h2conn) (id : Z) (src : bytes) : option handled :=
  s ← hc_streams c !! id;
  if negb (bool_decide (hs_state s = STATE_RECV_HEADERS)) then None
  else
    '(r, table, ret) ← h2o_hpack_parse_request load_digests (io_input_header_table (hc_io c)) (RequestArgs true true false) true
                         (rx_input (hs_rx s)) src;
    let c := upd_stream id (set_hs_rx (set_rx_input r)) (upd_io (set_io_table table) c) in
    if negb (ret =? 0) && negb (ret =? H2O_HTTP2_ERROR_INVALID_HEADER_CHAR) then Some (c, ret, err_text <$> rq_err r)
    else
      let r := fix_scheme r in
      let c := upd_stream id (set_hs_rx (set_rx_input r)) c in
      match request_kind r with
      | None => send_rst_stream c id H2O_HTTP2_ERROR_PROTOCOL
      | Some (is_connect, must, may) =>
          if negb (upgrade_asserted r) then None
          else if negb (pseudo_headers_ok (rq_map r) must may) then send_rst_stream c id H2O_HTTP2_ERROR_PROTOCOL
          else if max_streams conf <? ns_open (hc_num c SlotPull) then send_rst_stream c id H2O_HTTP2_ERROR_REFUSED_STREAM
          else dispatch_request c id ret r is_connect
      end.

(** Of the arguments only the headers are not NULL; the others are local. *)
Definition handle_trailing_headers (c : h2conn) (id : Z) (src : bytes) : option handled :=
  s ← hc_streams c !! id;
  let '(Request m sc a p pr h mp cl e d f _) := rx_input (hs_rx s) in
  '(r, table, ret) ← h2o_hpack_parse_request load_digests (io_input_header_table (hc_io c)) (RequestArgs false false false) false
                       (Request None None None None None h 0 SIZE_MAX None [] None None) src;
  let c := upd_stream id (set_hs_rx (set_rx_input (Request m sc a p pr (rq_headers r) mp cl e d f None)))
             (upd_io (set_io_table table) c) in
  if negb (ret =? 0) then Some (c, ret, err_text <$> rq_err r)
  else c ← handle_request_body_chunk c id [] true; done_ c.

(** ** Frames *)

Definition handle_data_frame (c : h2conn) (frame : h2o_http2_frame_t) : option handled :=
  match h2o_http2_decode_data_payload frame with
  | Err code desc => Some (c, code, desc)
  | Ok payload =>
      let id := f_stream_id frame in
      let avail := h2o_http2_window_consume_window (io_input_window (hc_io c)) (f_length frame) in
      c ← (if avail <=? H2O_HTTP2_SETTINGS_HOST_CONNECTION_WINDOW_SIZE / 2 then
             '(c, avail) ← send_window_update c 0 avail (H2O_HTTP2_SETTINGS_HOST_CONNECTION_WINDOW_SIZE - avail);
             Some (upd_io (set_io_input_window avail) c)
           else Some (upd_io (set_io_input_window avail) c));
      match h2o_http2_conn_get_stream c id with
      | None =>
          if id <=? hc_pull_max_open c then c ← stream_send_error c id H2O_HTTP2_ERROR_STREAM_CLOSED; done_ c
          else fails c H2O_HTTP2_ERROR_PROTOCOL "invalid DATA frame"
      | Some s =>
          if negb (bool_decide (hs_body_state s = BODY_OPEN_BEFORE_FIRST_FRAME \/ hs_body_state s = BODY_OPEN)) then
            c ← stream_send_error (upd_stream id set_hs_reset_by_peer_action c) id H2O_HTTP2_ERROR_STREAM_CLOSED;
            c ← h2o_http2_stream_reset conf c id;
            done_ c
          else
            let c := upd_stream id (set_hs_input_window (h2o_http2_window_consume_window (hs_input_window s) (f_length frame))
                                      (hs_bytes_unnotified s)) c in
            c ← (if negb (f_length frame =? len payload) then update_stream_input_window c id (f_length frame - len payload)
                 else Some c);
            c ← (if negb (is_nil payload) || has_flag frame H2O_HTTP2_FRAME_FLAG_END_STREAM
                 then handle_request_body_chunk c id payload (has_flag frame H2O_HTTP2_FRAME_FLAG_END_STREAM)
                 else Some c);
            done_ c
      end
  end.

(** Label [PREPARE_FOR_CONTINUATION] *)
Definition prepare_for_continuation (c : h2conn) (headers : bytes) : option handled :=
  done_ (upd_io (set_io_expect EXPECT_CONTINUATION (Some headers)) c).

Definition handle_headers_frame (c : h2conn) (frame : h2o_http2_frame_t) : option handled :=
  match h2o_http2_decode_headers_payload frame with
  | Err code desc => Some (c, code, desc)
  | Ok (priority, headers) =>
      let id := f_stream_id frame in
      if Z.land id 1 =? 0 then fails c H2O_HTTP2_ERROR_PROTOCOL "invalid stream id in HEADERS frame"
      else if id <=? hc_pull_max_open c then
        match h2o_http2_conn_get_stream c id with
        | None => fails c H2O_HTTP2_ERROR_STREAM_CLOSED "closed stream id in HEADERS frame"
        | Some s =>
            if negb (bool_decide (hs_body_state s = BODY_OPEN_BEFORE_FIRST_FRAME \/ hs_body_state s = BODY_OPEN))
            then fails c H2O_HTTP2_ERROR_PROTOCOL "invalid stream id in HEADERS frame"
            else if hs_is_tunnel_req s then fails c H2O_HTTP2_ERROR_PROTOCOL "trailer cannot be used in a CONNECT request"
            else if negb (has_flag frame H2O_HTTP2_FRAME_FLAG_END_STREAM)
            then fails c H2O_HTTP2_ERROR_PROTOCOL "trailing HEADERS frame MUST have END_STREAM flag set"
            else if negb (has_flag frame H2O_HTTP2_FRAME_FLAG_END_HEADERS) then prepare_for_continuation c headers
            else handle_trailing_headers c id headers
        end
      else if id =? dependency priority then fails c H2O_HTTP2_ERROR_PROTOCOL "stream cannot depend on itself"
      else
        let c := match h2o_http2_conn_get_stream c id with
                 | Some _ => c
                 | None => h2o_http2_stream_open (set_received_any_request c) id
                 end in
        c ← h2o_http2_stream_prepare_for_request c id;
        let c := if negb (has_flag frame H2O_HTTP2_FRAME_FLAG_END_STREAM)
                 then upd_stream id (set_hs_rx (set_rx_buf (Some []))) c else c in
        if has_flag frame H2O_HTTP2_FRAME_FLAG_END_HEADERS then handle_incoming_request c id headers
        else prepare_for_continuation c headers
  end.

Definition handle_priority_frame (c : h2conn) (frame : h2o_http2_frame_t) : option handled :=
  match h2o_http2_decode_priority_payload frame with
  | Err code desc => Some (c, code, desc)
  | Ok payload =>
      let id := f_stream_id frame in
      if id =? dependency payload then fails c H2O_HTTP2_ERROR_PROTOCOL "stream cannot depend on itself"
      else
        match h2o_http2_conn_get_stream c id with
        | Some _ => done_ c
        | None =>
            if h2o_http2_stream_is_push id then done_ c
            else if id <=? hc_pull_max_open c then done_ c
            else if max_streams_for_priority conf <=? ns_open (hc_num c SlotPriority)
            then fails c H2O_HTTP2_ERROR_ENHANCE_YOUR_CALM "too many streams in idle/closed state"
            else done_ (h2o_http2_stream_open c id)
        end
  end.

(** The members of the connection of [Http2Send] that the window does not depend on are left empty. *)
Definition resume_send (c : h2conn) : option h2conn :=
  let view := Conn (hc_buf c) (sock_capacity c) (io_write_window (hc_io c)) 0 0 (empty_table 0) in
  if h2o_http2_conn_get_buffer_window view (sock_cwnd_left c) <=? 0 then Some c else request_gathered_write c.

(** The activation of the stream is left out. *)
Definition update_stream_output_window (delta : Z) (s : h2stream) : h2stream * Z :=
  let '(avail, ret) := h2o_http2_window_update (hs_output_window s) delta in
  (set_hs_output_window avail s, ret).

Definition handle_settings_frame (c : h2conn) (frame : h2o_http2_frame_t) : option handled :=
  if negb (f_stream_id frame =? 0) then fails c H2O_HTTP2_ERROR_PROTOCOL "invalid stream id in SETTINGS frame"
  else if has_flag frame H2O_HTTP2_FRAME_FLAG_ACK then
    if negb (f_length frame =? 0) then fails c H2O_HTTP2_ERROR_FRAME_SIZE "invalid SETTINGS frame (+ACK)" else done_ c
  else
    let prev_initial_window_size := hc_initial_window_size c in
    let '(settings, ret, desc) := h2o_http2_update_peer_settings (io_peer_settings (hc_io c)) (f_payload frame) in
    let c := upd_io (set_io_settings settings) c in
    if negb (ret =? 0) then Some (c, ret, desc)
    else
      header ← h2o_http2_encode_frame_header 0 H2O_HTTP2_FRAME_TYPE_SETTINGS H2O_HTTP2_FRAME_FLAG_ACK 0;
      c ← h2o_http2_conn_request_write (set_hc_buf (hc_buf c ++ header) c);
      if negb (prev_initial_window_size =? hc_initial_window_size c) then
        let delta := hc_initial_window_size c - prev_initial_window_size in
        c ← resume_send (set_streams ((fun s => (update_stream_output_window delta s).1) <$> hc_streams c) c);
        done_ c
      else done_ c.

(** A stream is reset because of what the peer sent, and the peer is told. *)
Definition reset_and_tell (c : h2conn) (id err : Z) : option handled :=
  c ← match h2o_http2_conn_get_stream c id with
      | Some _ => h2o_http2_stream_reset conf (upd_stream id set_hs_reset_by_peer_action c) id
      | None => Some c
      end;
  c ← stream_send_error c id err;
  done_ c.

Definition handle_window_update_frame (c : h2conn) (frame : h2o_http2_frame_t) : option handled :=
  let id := f_stream_id frame in
  let resume c := c ← resume_send c; done_ c in
  match h2o_http2_decode_window_update_payload frame with
  | (Err code desc, err_is_stream_level) =>
      if err_is_stream_level then reset_and_tell c id code else Some (c, code, desc)
  | (Ok increment, _) =>
      if id =? 0 then
        let '(avail, ret) := h2o_http2_window_update (io_write_window (hc_io c)) increment in
        if negb (ret =? 0) then fails c H2O_HTTP2_ERROR_FLOW_CONTROL "flow control window overflow"
        else resume (upd_io (set_io_write_window avail) c)
      else if negb (is_idle_stream_id c id) then
        match h2o_http2_conn_get_stream c id with
        | Some s =>
            let '(s, ret) := update_stream_output_window increment s in
            if negb (ret =? 0) then reset_and_tell c id H2O_HTTP2_ERROR_FLOW_CONTROL
            else resume (upd_stream id (fun _ => s) c)
        | None => resume c
        end
      else fails c H2O_HTTP2_ERROR_PROTOCOL "invalid stream id in WINDOW_UPDATE frame"
  end.

Definition handle_goaway_frame (c : h2conn) (frame : h2o_http2_frame_t) : option handled :=
  match h2o_http2_decode_goaway_payload frame with
  | Err code desc => Some (c, code, desc)
  | Ok _ => done_ (set_max_open (hc_pull_max_open c) 0x7ffffffe c)
  end.

Definition handle_ping_frame (c : h2conn) (frame : h2o_http2_frame_t) : option handled :=
  match h2o_http2_decode_ping_payload frame with
  | Err code desc => Some (c, code, desc)
  | Ok data =>
      if negb (has_flag frame H2O_HTTP2_FRAME_FLAG_ACK) then
        buf ← h2o_http2_encode_ping_frame (hc_buf c) true data;
        c ← h2o_http2_conn_request_write (set_hc_buf buf c);
        done_ c
      else done_ c
  end.

Definition handle_rst_stream_frame (c : h2conn) (frame : h2o_http2_frame_t) : option handled :=
  match h2o_http2_decode_rst_stream_payload frame with
  | Err code desc => Some (c, code, desc)
  | Ok _ =>
      let id := f_stream_id frame in
      if is_idle_stream_id c id then fails c H2O_HTTP2_ERROR_PROTOCOL "unexpected stream id in RST_STREAM frame"
      else
        match h2o_http2_conn_get_stream c id with
        | None => done_ c
        | Some _ => c ← h2o_http2_stream_reset conf (upd_stream id set_hs_reset_by_peer c) id; done_ c
        end
  end.

Definition handle_push_promise_frame (c : h2conn) (frame : h2o_http2_frame_t) : option handled :=
  fails c H2O_HTTP2_ERROR_PROTOCOL "received PUSH_PROMISE frame".

Definition handle_invalid_continuation_frame (c : h2conn) (frame : h2o_http2_frame_t) : option handled :=
  fails c H2O_HTTP2_ERROR_PROTOCOL "received invalid CONTINUATION frame".

(** [FRAME_HANDLERS] *)
Definition FRAME_HANDLERS : list (h2conn -> h2o_http2_frame_t -> option handled) :=
  [handle_data_frame; handle_headers_frame; handle_priority_frame; handle_rst_stream_frame; handle_settings_frame;
   handle_push_promise_frame; handle_ping_frame; handle_goaway_frame; handle_window_update_frame;
   handle_invalid_continuation_frame].

(** ** The input *)

(** The code of a handler takes the place of the octets consumed when it is not zero. *)
Definition frame_result (consumed : Z) (r : option handled) : option handled :=
  '(c, hret, desc) ← r;
  Some (c, if hret =? 0 then consumed else hret, desc).

Definition expect_default (c : h2conn) (src : bytes) : option handled :=
  match h2o_http2_decode_frame src H2O_HTTP2_SETTINGS_HOST_MAX_FRAME_SIZE with
  | Err code desc => Some (c, code, desc)
  | Ok (frame, ret) =>
      match FRAME_HANDLERS !! Z.to_nat (f_type frame) with
      | Some handler => frame_result ret (handler c frame)
      | None => Some (c, ret, None)
      end
  end.

Definition expect_continuation_of_headers (c : h2conn) (src : bytes) : option handled :=
  match h2o_http2_decode_frame src H2O_HTTP2_SETTINGS_HOST_MAX_FRAME_SIZE with
  | Err code desc => Some (c, code, desc)
  | Ok (frame, ret) =>
      let id := f_stream_id frame in
      if negb (f_type frame =? H2O_HTTP2_FRAME_TYPE_CONTINUATION)
      then fails c H2O_HTTP2_ERROR_PROTOCOL "expected CONTINUATION frame"
      else
        match h2o_http2_conn_get_stream c id with
        | None => fails c H2O_HTTP2_ERROR_PROTOCOL "unexpected stream id in CONTINUATION frame"
        | Some s =>
            if negb (bool_decide (hs_state s = STATE_RECV_HEADERS \/ hs_state s = STATE_RECV_BODY))
            then fails c H2O_HTTP2_ERROR_PROTOCOL "unexpected stream id in CONTINUATION frame"
            else
              unparsed ← io_headers_unparsed (hc_io c);
              if len unparsed + f_length frame <=? H2O_MAX_REQLEN then
                let unparsed := unparsed ++ f_payload frame in
                if has_flag frame H2O_HTTP2_FRAME_FLAG_END_HEADERS then
                  let c := upd_io (set_io_expect EXPECT_DEFAULT (Some unparsed)) c in
                  '(c, ret, desc) ← frame_result ret
                    (if bool_decide (hs_state s = STATE_RECV_HEADERS) then handle_incoming_request c id unparsed
                     else handle_trailing_headers c id unparsed);
                  Some (upd_io (fun i => set_io_expect (io_read_expect i) None i) c, ret, desc)
                else Some (upd_io (set_io_expect EXPECT_CONTINUATION (Some unparsed)) c, ret, None)
              else
                c ← stream_send_error c id H2O_HTTP2_ERROR_REFUSED_STREAM;
                c ← h2o_http2_stream_reset conf c id;
                Some (c, ret, None)
        end
  end.

Definition CONNECTION_PREFACE : bytes := lit "PRI * HTTP/2.0" ++ [13; 10; 13; 10] ++ lit "SM" ++ [13; 10; 13; 10].

Definition enqueue_server_preface (c : h2conn) : option h2conn :=
  buf ← h2o_http2_encode_settings_frame (hc_buf c)
          [(H2O_HTTP2_SETTINGS_MAX_CONCURRENT_STREAMS, max_streams conf); (H2O_HTTP2_SETTINGS_ENABLE_CONNECT_PROTOCOL, 1)];
  buf ← h2o_http2_encode_window_update_frame buf 0
          (H2O_HTTP2_SETTINGS_HOST_CONNECTION_WINDOW_SIZE - H2O_HTTP2_SETTINGS_HOST_STREAM_INITIAL_WINDOW_SIZE);
  Some (set_hc_buf buf c).

Definition expect_preface (c : h2conn) (src : bytes) : option handled :=
  if len src <? len CONNECTION_PREFACE then Some (c, H2O_HTTP2_ERROR_INCOMPLETE, None)
  else if negb (bool_decide (take (length CONNECTION_PREFACE) src = CONNECTION_PREFACE))
  then Some (c, H2O_HTTP2_ERROR_PROTOCOL_CLOSE_IMMEDIATELY, None)
  else
    c ← enqueue_server_preface c;
    c ← match http2_origin_frame conf with
        | Some origin => buf ← h2o_http2_encode_origin_frame (hc_buf c) origin; Some (set_hc_buf buf c)
        | None => Some c
        end;
    c ← h2o_http2_conn_request_write c;
    Some (upd_io (fun i => set_io_expect EXPECT_DEFAULT (io_headers_unparsed i) i) c, len CONNECTION_PREFACE, None).

Definition run_read_expect (c : h2conn) (src : bytes) : option handled :=
  match io_read_expect (hc_io c) with
  | EXPECT_PREFACE => expect_preface c src
  | EXPECT_DEFAULT => expect_default c src
  | EXPECT_CONTINUATION => expect_continuation_of_headers c src
  end.

Definition enqueue_goaway (c : h2conn) (errnum : Z) (additional_data : bytes) : option h2conn :=
  if conn_rank (hc_state c) <? conn_rank CONN_IS_CLOSING then
    buf ← h2o_http2_encode_goaway_frame (hc_buf c) (hc_pull_max_open c) errnum additional_data;
    c ← h2o_http2_conn_request_write (set_hc_buf buf c);
    Some (set_conn_state CONN_HALF_CLOSED c)
  else Some c.

(** The connection, what is left of the input and the code; -1: the connection is gone. *)
Fixpoint parse_input_loop (fuel : nat) (c : h2conn) (input : bytes) : option (h2conn * bytes * Z) :=
  if (conn_rank (hc_state c) <? conn_rank CONN_IS_CLOSING) && negb (is_nil input) then
    match fuel with
    | O => None
    | S fuel =>
        '(c, ret, err_desc) ← run_read_expect c input;
        if ret =? H2O_HTTP2_ERROR_INCOMPLETE then Some (c, input, 0)
        else if ret <? 0 then
          c ← (if negb (ret =? H2O_HTTP2_ERROR_PROTOCOL_CLOSE_IMMEDIATELY)
               then enqueue_goaway c ret (from_option lit [] err_desc) else Some c);
          '(c, gone) ← close_connection conf c;
          Some (c, input, if (gone : bool) then -1 else 0)
        else parse_input_loop fuel c (drop (Z.to_nat ret) input)
    end
  else Some (c, input, 0).

Definition parse_input (c : h2conn) (input : bytes) : option (h2conn * bytes * Z) := parse_input_loop (length input) c input.

(** ** Timers *)

Definition on_idle_timeout (c : h2conn) : option (h2conn * bool) :=
  if io_in_flight (hc_io c) then c ← close_connection_now conf c; Some (c, true)
  else
    c ← enqueue_goaway c H2O_HTTP2_ERROR_NONE (lit "idle timeout");
    close_connection conf c.
End Conn.
