(* ===== verification/Http2ConnOk.v ===== *)
(** * Request bodies keep the books

    The operations on the body of a request: chunks that arrive, chunks that are handed over, and the window that is
    given back for them. *)
From S2P Require Import Prelude HpackInt HeaderTable HpackParse Http2Frame Http2Send Http2Streams Http2StreamsOk Http2StreamsRun Http2StreamsEnd Http2Conn.
From Stdlib Require Import ZArith Lia.
From stdpp Require Import base numbers option strings gmap functions list.
Open Scope Z_scope.

Section Body.
Variable conf : config.
Context {app : App} `{!AppOk conf app}.
Hypothesis Hconf : config_ok conf.

(** ** Handing over a chunk *)

Lemma ended_trans c0 c1 c2 : steady c0 c1 -> ended conf c1 c2 -> ended conf c0 c2.
Proof. intros H1 [H2 H3]. split; [done|by eapply steady_trans]. Qed.

(** An error is sent and the stream is reset. *)
Lemma send_error_reset_ok c0 c id s0 s err :
  conn_ok conf c0 -> hc_streams c0 !! id = Some s0 -> turns c0 id s c -> hs_state s = hs_state s0 ->
  (state_rank STATE_SEND_HEADERS <= state_rank (hs_state s) -> stream_good conf id s) -> hc_state c0 <> CONN_IS_CLOSING ->
  succeeds (c1 ← stream_send_error c id err; h2o_http2_stream_reset conf c1 id) (ended conf c0).
Proof.
  intros Hc Hs0 T Hst Hg Hcl. destruct (rest_links _ _ (tn_rest _ _ _ _ T)) as (_ & _ & _ & Hcs & _).
  eapply succeeds_bind; [apply stream_send_error_ok; [apply (sg_id _ _ _ (co_streams _ _ Hc _ _ Hs0))|congruence]|].
  intros c1 Hq. apply (reset_turned conf Hconf c0 c1 id s0 s); auto. by eapply turns_quiet.
Qed.

Definition submitted (s : h2stream) : h2stream :=
  set_hs_rx (set_rx_entity (rx_buf (hs_rx s)))
    (if bool_decide (hs_body_state s = BODY_CLOSE_QUEUED) then set_hs_body_state BODY_CLOSE_DELIVERED (set_hs_proceed_req false s) else s).

(** The states before the call of the application. *)
Lemma submit_turns c0 c id s :
  turns c0 id s c -> hs_body_state s = BODY_OPEN \/ hs_body_state s = BODY_CLOSE_QUEUED ->
  succeeds (match hs_body_state s with
            | BODY_CLOSE_QUEUED => set_req_body_state (upd_stream id (set_hs_proceed_req false) c) id BODY_CLOSE_DELIVERED
            | _ => Some c
            end) (fun c1 => turns c0 id (submitted s) (upd_stream id (set_hs_rx (set_rx_entity (rx_buf (hs_rx s)))) c1)).
Proof.
  intros T Hbs. unfold submitted. destruct Hbs as [E|E]; rewrite E.
  - apply succeeds_some. rewrite bool_decide_false by done. eapply turns_trans; [exact T|].
    apply turns_upd; [apply T|by eapply turns_lookup|apply uncounted_rx].
  - rewrite bool_decide_true by done.
    pose proof (turns_upd c id s _ (tn_counters _ _ _ _ T) (turns_lookup _ _ _ _ T) (uncounted_proceed false)) as T1.
    eapply succeeds_weaken; [apply (turns_body _ id _ BODY_CLOSE_DELIVERED (tn_counters _ _ _ _ T1) (turns_lookup _ _ _ _ T1)); destruct s; simpl in *; subst; done|].
    intros c1 T2. pose proof (turns_trans _ _ _ _ _ _ T (turns_trans _ _ _ _ _ _ T1 T2)) as T3. eapply turns_trans; [exact T3|].
    apply turns_upd; [apply T3|by eapply turns_lookup|apply uncounted_rx].
Qed.

Lemma write_streaming_body_ok c0 c id s buf :
  turns c0 id s c -> hc_state c0 <> CONN_IS_CLOSING -> rx_entity (hs_rx s) = None -> rx_buf (hs_rx s) = Some buf ->
  rx_write_req (hs_rx s) = true -> hs_streamed s = true -> hs_body_state s = BODY_OPEN /\ buf <> [] \/ hs_body_state s = BODY_CLOSE_QUEUED ->
  (forall c', turns c0 id (submitted s) c' -> conn_ok conf c') ->
  succeeds (write_streaming_body conf c id) (ended conf c0).
Proof.
  intros T Hcl He Hb Hw Hsd Hbs Hok. unfold write_streaming_body. rewrite (turns_lookup _ _ _ _ T). cbn [mbind option_bind].
  rewrite bool_decide_false by (rewrite He; tauto). rewrite Hb, Hw.
  destruct (submit_turns c0 c id s T ltac:(naive_solver)) as (c1 & E1 & T1). rewrite Hb in T1.
  assert (Hstep : exists is_end, match hs_body_state s with
      | BODY_OPEN_BEFORE_FIRST_FRAME | BODY_OPEN => buf ← Some buf; if is_nil buf then None else Some (c, false)
      | BODY_CLOSE_QUEUED =>
          c ← set_req_body_state (upd_stream id (set_hs_proceed_req false) c) id BODY_CLOSE_DELIVERED;
          Some (c, true)
      | _ => None
      end = Some (c1, is_end)).
  { destruct Hbs as [[E Hne]|E]; rewrite E in *.
    - injection E1 as <-. exists false. by destruct buf.
    - rewrite E1. by exists true. }
  destruct Hstep as [is_end ->]. cbn [mbind option_bind negb].
  pose proof (Hok _ T1) as Hc1. pose proof (turns_lookup _ _ _ _ T1) as Hs1. set (c2 := upd_stream _ _ c1) in *.
  pose proof (steady_rest _ _ (tn_rest _ _ _ _ T1)) as St1.
  eapply succeeds_bind; [apply (app_write_req_ok c2 id (submitted s) is_end Hc1 Hs1); unfold submitted; case_bool_decide; by destruct s|].
  intros [c3 ret] [(Hc3 & St3 & _ & _) [s3 Hs3]]. simpl in *. pose proof (steady_trans _ _ _ St1 St3) as St.
  destruct (negb _).
  - eapply succeeds_weaken; [apply (send_error_reset_ok c3 c3 id s3 s3); auto|intros c4 H4; by eapply ended_trans].
    + apply turns_refl; [apply Hc3|done].
    + intros _. by apply (co_streams _ _ Hc3).
    + destruct St as (-> & _). done.
  - rewrite Hs3. cbn [mbind option_bind]. case_bool_decide; [|by apply succeeds_some].
    eapply succeeds_weaken; [apply (unregister_ok conf Hconf c3 c3 id s3 s3); auto|intros c4 H4; by eapply ended_trans].
    apply turns_refl; [apply Hc3|done].
Qed.

(** ** A chunk arrives *)

(** The octets of a frame are taken from the window before they are in the buffer. *)
Definition give_back (n : Z) (s : h2stream) : h2stream := set_hs_input_window (hs_input_window s + n) (hs_bytes_unnotified s) s.
Definition owing (n id : Z) (s : h2stream) : Prop := stream_good conf id (give_back n s).

Lemma owing_good n id s : owing n id s -> 0 <= n -> state_rank STATE_SEND_HEADERS <= state_rank (hs_state s) ->
  hs_body_state s = BODY_OPEN \/ hs_body_state s = BODY_OPEN_BEFORE_FIRST_FRAME -> stream_good conf id s.
Proof.
  intros [G1 G2 G3 G7 G4 G5 G6 G8] Hn Hr Hb. destruct s as [st sl b r ra bs sd t p ow iw bu q].
  unfold give_back, window_sum, buffered, not_grown in *. simpl in *. constructor; auto; unfold window_sum, buffered, not_grown; simpl; [lia|].
  intros [-> H]. exfalso. unfold phase in G2. simpl in G2. destruct Hb as [-> | ->]; [destruct G2 as (_ & -> & _)|destruct G2 as (-> & _)]; simpl in Hr; lia.
Qed.

Definition buffer (payload : bytes) (s : h2stream) : h2stream :=
  set_hs_rx (set_rx_buf (Some (default [] (rx_buf (hs_rx s)) ++ payload))) s.

(** With the octets in the buffer, nothing is owed. *)
Lemma buffer_good payload id s : owing (len payload) id s -> rx_buf (hs_rx s) <> None -> hs_body_state s <> BODY_NONE -> stream_good conf id (buffer payload s).
Proof.
  intros [G1 G2 G3 G7 G4 G5 G6 G8] Hb Hn. destruct s as [st sl b r ra bs sd t p ow iw bu [bf rc cl e w pc d]].
  unfold give_back, buffer, window_sum, buffered, not_grown, len in *. simpl in *. destruct bf as [bf|]; [|done]. simpl in *.
  constructor; unfold window_sum, buffered, not_grown, len; simpl; auto; rewrite ?length_app; try lia.
  - unfold phase in *. simpl in *. destruct bs; [done|naive_solver..].
  - intros x Hx. destruct (G7 _ Hx) as [y ->]. exists (y ++ payload). by rewrite app_assoc.
  - intros H. specialize (G6 H). lia.
Qed.

Lemma append_body_ok c0 c id s payload :
  turns c0 id s c -> rx_buf (hs_rx s) <> None -> succeeds (append_body c id payload) (turns c0 id (buffer payload s)).
Proof.
  intros T Hb. unfold append_body, buffer. rewrite (turns_lookup _ _ _ _ T). cbn [mbind option_bind].
  destruct (rx_buf (hs_rx s)) as [bf|]; [|done]. apply succeeds_some. eapply turns_trans; [exact T|].
  apply turns_upd; [apply T|by eapply turns_lookup|apply uncounted_rx].
Qed.

(** What the lists say of a stream whose body is open. *)
Lemma open_links c0 id s0 :
  conn_ok conf c0 -> hc_streams c0 !! id = Some s0 -> hs_streamed s0 = false -> hs_state s0 = STATE_RECV_BODY ->
  if hs_proceed_req s0 then id ∈ hc_pending_reqs c0 else id ∉ all_links c0.
Proof.
  intros Hc Hs Hsd Hst. destruct (hs_proceed_req s0) eqn:Hpr.
  - apply (lk_req_pending _ (co_links _ _ Hc) _ s0); [done|by right].
  - intros Hin. destruct (lk_dom _ (co_links _ _ Hc) _ Hin) as (x & Hx & _ & _ & H). assert (x = s0) as -> by congruence.
    destruct (H Hst) as [?|Hp]; [congruence|]. destruct (lk_pending _ (co_links _ _ Hc) _ _ Hp Hs) as [_ [[? _]|(_ & ? & _)]]; congruence.
Qed.

(** The stream keeps its place. *)
Lemma conn_ok_kept c0 c id s0 s :
  conn_ok conf c0 -> hc_streams c0 !! id = Some s0 -> turns c0 id s c -> stream_good conf id s -> hs_state s = hs_state s0 ->
  hs_streamed s = hs_streamed s0 -> hs_proceed_req s = hs_proceed_req s0 -> hs_body_state s = hs_body_state s0 \/ hs_body_state s = BODY_OPEN ->
  conn_ok conf c.
Proof.
  intros Hc Hs T Hg E1 E2 E3 E4. apply (conn_ok_turns conf c0 c id s0 s); auto.
  - intros Hin. destruct (lk_dom _ (co_links _ _ Hc) _ Hin) as (x & Hx & H). assert (x = s0) as -> by congruence.
    unfold linkable in *. by rewrite E1, E2.
  - intros Hin. pose proof (lk_pending _ (co_links _ _ Hc) _ _ Hin Hs) as Hw. unfold waits in *. rewrite E1, E2, E3.
    destruct E4 as [-> | ->]; [done|]. destruct Hw as [? [?|(? & ? & _)]]; auto.
  - unfold queued. rewrite E1, E2, E3. by apply (lk_req_pending _ (co_links _ _ Hc)).
  - congruence.
Qed.

Definition progressed (id : Z) (s : h2stream) : h2stream :=
  if state_rank (hs_state s) <? state_rank STATE_REQ_PENDING then
    if rx_process_called (hs_rx s) then moved id STATE_SEND_HEADERS s else moved id STATE_REQ_PENDING s
  else s.
Definition finished (id : Z) (s : h2stream) : h2stream :=
  if rx_write_req (hs_rx s) then set_hs_body_state BODY_CLOSE_QUEUED (progressed id s)
  else set_hs_body_state BODY_CLOSE_DELIVERED (set_hs_proceed_req false (progressed id s)).

Lemma finished_rx id s : hs_rx (finished id s) = hs_rx s.
Proof. unfold finished, progressed. repeat case_match; by destruct s. Qed.

Lemma end_of_body_ok c0 c id s :
  turns c0 id s c -> hs_body_state s = BODY_OPEN -> hs_state s <> STATE_IDLE ->
  succeeds (end_of_body c id) (turns c0 id (finished id s)).
Proof.
  intros T Hbs Hi. unfold end_of_body, finished. rewrite (turns_lookup _ _ _ _ T). cbn [mbind option_bind].
  set (s1 := progressed id s).
  assert (Hs1 : hs_body_state s1 = BODY_OPEN) by (unfold s1, progressed; destruct (_ <? _), (rx_process_called (hs_rx s)); by destruct s).
  eapply (succeeds_bind _ _ (turns c0 id s1)).
  - unfold s1, progressed. destruct (Z.ltb_spec (state_rank (hs_state s)) (state_rank STATE_REQ_PENDING)); [|by apply succeeds_some].
    eapply succeeds_bind; [apply (turns_state c id s STATE_REQ_PENDING); [apply T|by eapply turns_lookup|]|].
    { destruct (hs_state s); simpl in *; done || lia. }
    intros c1 T1. pose proof (turns_trans _ _ _ _ _ _ T T1) as T2. destruct (rx_process_called _); [|by apply succeeds_some].
    eapply succeeds_weaken; [apply (turns_state c1 id (moved id STATE_REQ_PENDING s) STATE_SEND_HEADERS); [apply T1|by eapply turns_lookup|by destruct s]|].
    intros c2 T3. pose proof (turns_trans _ _ _ _ _ _ T2 T3) as T4. by destruct s.
  - intros c1 T1. destruct (rx_write_req _).
    + eapply succeeds_weaken; [apply (turns_body c1 id s1 BODY_CLOSE_QUEUED); [apply T1|by eapply turns_lookup|by rewrite Hs1|done]|].
      intros c2 T2. by eapply turns_trans.
    + pose proof (turns_upd c1 id s1 _ (tn_counters _ _ _ _ T1) (turns_lookup _ _ _ _ T1) (uncounted_proceed false)) as T2.
      eapply succeeds_weaken; [apply (turns_body _ id _ BODY_CLOSE_DELIVERED (tn_counters _ _ _ _ T2) (turns_lookup _ _ _ _ T2)); destruct s1; simpl in *; by subst|].
      intros c2 T3. eapply turns_trans; [exact T1|]. by eapply turns_trans.
Qed.

(** A chunk of [payload] has been accounted for but is not in the buffer yet. *)
Record arriving (c0 : h2conn) (id : Z) (s0 s : h2stream) (payload : bytes) (is_first : bool) (c : h2conn) : Prop := {
  ar_conn : conn_ok conf c0;
  ar_stream : hc_streams c0 !! id = Some s0;
  ar_turns : turns c0 id s c;
  ar_open : hc_state c0 <> CONN_IS_CLOSING;
  ar_state : hs_state s = hs_state s0;
  ar_streamed : hs_streamed s = hs_streamed s0;
  ar_proceed : hs_proceed_req s = hs_proceed_req s0;
  ar_body : hs_body_state s = BODY_OPEN;
  ar_owing : owing (len payload) id s;
  ar_first : is_first = true -> hs_streamed s = false /\ hs_proceed_req s = false /\
    window_sum s + len payload = H2O_HTTP2_SETTINGS_HOST_STREAM_INITIAL_WINDOW_SIZE }.

(** What the phase says of it. *)
Lemma arriving_phase c0 id s0 s payload is_first c :
  arriving c0 id s0 s payload is_first c ->
  rx_buf (hs_rx s) <> None /\
  if hs_streamed s
  then hs_proceed_req s = true /\ rx_process_called (hs_rx s) = true /\ hs_state s <> STATE_REQ_PENDING /\
       state_rank STATE_RECV_BODY <= state_rank (hs_state s)
  else hs_state s = STATE_RECV_BODY /\ rx_write_req (hs_rx s) = false /\ rx_process_called (hs_rx s) = false.
Proof.
  intros [_ _ _ _ _ _ _ Hbs Hg _]. pose proof (sg_phase _ _ _ Hg) as Hp. pose proof (sg_called _ _ _ Hg) as Hca.
  destruct s as [st sl b r ra bs sd t p ow iw bu q]. unfold give_back, phase in *. simpl in *. subst bs.
  destruct Hp as [H1 H2]. split; [done|]. destruct sd; [done|]. destruct H2 as [-> H3]. split_and!; [done..|].
  destruct (rx_process_called q); [|done]. destruct (Hca eq_refl); simpl in *; done || lia.
Qed.

(** The same stream with another entity. *)
Lemma good_entity id s e :
  stream_good conf id s -> (forall x, e = Some x -> x `prefix_of` default [] (rx_buf (hs_rx s))) ->
  (hs_body_state s = BODY_CLOSE_QUEUED -> e <> None) -> stream_good conf id (set_hs_rx (set_rx_entity e) s).
Proof.
  intros [G1 G2 G3 G7 G4 G5 G6 G8] He Hq. destruct s as [st sl b r ra bs sd t p ow iw bu []].
  unfold window_sum, buffered, not_grown in *. simpl in *. constructor; simpl; auto.
  unfold phase in *. simpl in *. destruct bs; naive_solver.
Qed.

Lemma prefix_self (b : option bytes) x : b = Some x -> x `prefix_of` default [] b.
Proof. by intros ->. Qed.

Lemma chunk_streamed_open c0 id s0 s payload is_first queued c :
  arriving c0 id s0 s payload is_first c -> hs_streamed s = true -> payload <> [] ->
  succeeds (c ← append_body c id payload; submit_body conf c id is_first false queued) (ended conf c0).
Proof.
  intros Ha Hsd Hne. destruct (arriving_phase _ _ _ _ _ _ _ Ha) as [Hb Hph]. rewrite Hsd in Hph. destruct Ha as [Hc Hs0 T Hcl E1 E2 E3 Hbs Hg _].
  eapply succeeds_bind; [by apply (append_body_ok c0 c id s)|]. intros c1 T1. pose proof (buffer_good _ _ _ Hg Hb ltac:(congruence)) as Hg1.
  set (s1 := buffer payload s) in *.
  assert (F : hs_state s1 = hs_state s0 /\ hs_streamed s1 = hs_streamed s0 /\ hs_proceed_req s1 = hs_proceed_req s0 /\ hs_body_state s1 = BODY_OPEN)
    by (destruct s; by split_and!). destruct F as (F1 & F2 & F3 & F4).
  assert (Hent : forall c', turns c0 id (set_hs_rx (set_rx_entity (rx_buf (hs_rx s1))) s1) c' -> conn_ok conf c').
  { intros c' T'. apply (conn_ok_kept c0 c' id s0 _ Hc Hs0 T'); try (by destruct s1); [|destruct s1; auto].
    apply good_entity; [done|apply prefix_self|congruence]. }
  unfold submit_body. rewrite (turns_lookup _ _ _ _ T1). cbn [mbind option_bind]. rewrite F2, <- E2, Hsd.
  pose proof (turns_upd c1 id s1 _ (tn_counters _ _ _ _ T1) (turns_lookup _ _ _ _ T1) (uncounted_rx (set_rx_entity (rx_buf (hs_rx s1))))) as T2.
  pose proof (turns_trans _ _ _ _ _ _ T1 T2) as T3. destruct (rx_write_req (hs_rx s1)) eqn:Hw.
  - case_bool_decide as He.
    + apply (write_streaming_body_ok c0 c1 id s1 (default [] (rx_buf (hs_rx s)) ++ payload)); auto; try congruence.
      * by destruct s as [????????????[]].
      * left. split; [done|]. by destruct payload, (default [] (rx_buf (hs_rx s))).
      * unfold submitted. by rewrite bool_decide_false by congruence.
    + apply succeeds_some. split; [|apply steady_rest, T1]. apply (conn_ok_kept c0 c1 id s0 s1); auto.
  - apply succeeds_some. split; [by apply Hent|apply steady_rest, T3].
Qed.

Lemma chunk_plain_open c0 id s0 s payload is_first queued c :
  arriving c0 id s0 s payload is_first c -> hs_streamed s = false ->
  succeeds (c ← append_body c id payload; submit_body conf c id is_first false queued) (ended conf c0).
Proof.
  intros Ha Hsd. destruct (arriving_phase _ _ _ _ _ _ _ Ha) as [Hb Hph]. rewrite Hsd in Hph. destruct Hph as (Hst & Hw & Hpc).
  destruct Ha as [Hc Hs0 T Hcl E1 E2 E3 Hbs Hg Hfirst].
  eapply succeeds_bind; [by apply (append_body_ok c0 c id s)|]. intros c1 T1. pose proof (buffer_good _ _ _ Hg Hb ltac:(congruence)) as Hg1.
  assert (Hwin : window_sum (buffer payload s) = window_sum s + len payload).
  { destruct s as [????????????[[bf|]]]; [|done]. unfold window_sum, buffered, buffer, len. simpl. rewrite length_app. lia. }
  set (s1 := buffer payload s) in *.
  unfold submit_body. rewrite (turns_lookup _ _ _ _ T1). cbn [mbind option_bind].
  replace (hs_streamed s1) with false by (by destruct s).
  pose proof (turns_upd c1 id s1 _ (tn_counters _ _ _ _ T1) (turns_lookup _ _ _ _ T1) (uncounted_rx (set_rx_entity (rx_buf (hs_rx s1))))) as T2.
  pose proof (turns_trans _ _ _ _ _ _ T1 T2) as T3. set (s2 := set_hs_rx (set_rx_entity (rx_buf (hs_rx s1))) s1) in *.
  assert (Hg2 : stream_good conf id s2).
  { apply good_entity; [done|apply prefix_self|]. destruct s; simpl in *; congruence. }
  assert (F : hs_state s2 = hs_state s0 /\ hs_streamed s2 = hs_streamed s0 /\ hs_proceed_req s2 = hs_proceed_req s0 /\ hs_body_state s2 = BODY_OPEN /\
    window_sum s2 = window_sum s1) by (unfold s2, s1; clear -E1 E2 E3 Hbs; destruct s as [????????????[]]; by split_and!).
  destruct F as (F1 & F2 & F3 & F4 & F5). clearbody s2.
  destruct is_first; simpl; [|apply succeeds_some; split; [|apply steady_rest, T3]; apply (conn_ok_kept c0 _ id s0 s2); auto].
  destruct (Hfirst eq_refl) as (_ & Hpr & Hsum). pose proof (open_links c0 id s0 Hc Hs0) as Hl. rewrite <- E1, <- E2, <- E3, Hpr in Hl. specialize (Hl Hsd Hst).
  destruct (app_can_stream_request _ _).
  - pose proof (turns_upd _ id s2 _ (tn_counters _ _ _ _ T3) (turns_lookup _ _ _ _ T3) (uncounted_proceed true)) as T4.
    eapply succeeds_weaken; [apply (enqueue_core_ok conf Hconf c0 _ id s0 _ Hc Hs0 ltac:(congruence) (turns_trans _ _ _ _ _ _ T3 T4) Hl)|].
    + clear -F1 F2 F4 E1 E2 Hst Hsd. destruct s2; simpl in *; subst. split; simpl; [congruence|]. right. split_and!; congruence.
    + rewrite <- F5 in Hwin. rewrite <- Hwin in Hsum. assert (Hsd2 : hs_streamed s2 = false) by congruence.
      clear -Hg2 F4 Hsd2 Hsum. destruct Hg2 as [G1 G2 G3 G7 G4 G5 G6 G8].
      destruct s2 as [st sl b r ra bs sd t p ow iw bu q]. simpl in *. constructor; auto. unfold phase in *. simpl in *. by subst.
    + intros c' (H1 & H2 & _). by split.
  - destruct Hconf as [_ [Hw1 Hw2] _]. unfold window_sum, buffered, len in *.
    pose proof (sg_unnotified _ _ _ Hg2).
    eapply succeeds_weaken; [apply (update_window_ok _ id s2 _ (tn_counters _ _ _ _ T3) (turns_lookup _ _ _ _ T3)); lia|].
    intros c' (w & b & T4 & Hwb & Hb0). pose proof (turns_trans _ _ _ _ _ _ T3 T4) as T5. split; [|apply steady_rest, T5].
    apply (conn_ok_kept c0 c' id s0 _ Hc Hs0 T5); try (destruct s2; simpl in *; auto; congruence).
    clear -Hg2 F4 F2 F3 E2 E3 Hsd Hpr Hwb Hb0 Hw1 Hw2 Hsum Hwin F5. destruct Hg2 as [G1 G2 G3 G7 G4 G5 G6 G8].
    destruct s2 as [st sl bl r ra bs sd t p ow iw bu q]. simpl in *. constructor; auto; unfold window_sum, buffered, not_grown, len in *; simpl in *; [lia|].
    intros [_ [?|[?|[_ ?]]]]; congruence.
Qed.

Lemma good_streamed id s :
  0 < id -> phase s -> hs_streamed s = true -> (forall e, rx_entity (hs_rx s) = Some e -> e `prefix_of` default [] (rx_buf (hs_rx s))) ->
  0 <= hs_bytes_unnotified s -> window_sum s <= active_stream_window_size conf -> protocol_ok (rx_input (hs_rx s)) -> stream_good conf id s.
Proof. intros. constructor; auto. intros [? _]. congruence. Qed.

(** The body of a streamed request ends: the response can be sent. *)
Lemma finished_streamed c0 id s0 s payload is_first c :
  arriving c0 id s0 s payload is_first c -> hs_streamed s = true ->
  let s1 := buffer payload (finished id s) in
  hs_streamed s1 = true /\ state_rank STATE_SEND_HEADERS <= state_rank (hs_state s1) /\
  rx_entity (hs_rx s1) = rx_entity (hs_rx s) /\ rx_write_req (hs_rx s1) = rx_write_req (hs_rx s) /\
  rx_buf (hs_rx s1) = Some (default [] (rx_buf (hs_rx s)) ++ payload) /\
  hs_body_state s1 = (if rx_write_req (hs_rx s) then BODY_CLOSE_QUEUED else BODY_CLOSE_DELIVERED) /\
  hs_proceed_req s1 = rx_write_req (hs_rx s) /\
  0 < id /\ 0 <= hs_bytes_unnotified s1 /\ window_sum s1 <= active_stream_window_size conf /\
  (forall e, rx_entity (hs_rx s1) = Some e -> e `prefix_of` default [] (rx_buf (hs_rx s1))) /\ protocol_ok (rx_input (hs_rx s1)).
Proof.
  intros Ha Hsd. destruct (arriving_phase _ _ _ _ _ _ _ Ha) as [Hb Hph]. rewrite Hsd in Hph. destruct Hph as (Hpr & Hpc & Hst & Hr).
  pose proof (ar_owing _ _ _ _ _ _ _ Ha) as [G1 G2 G3 G7 G4 G5 G6 G8]. clear Ha. unfold finished, progressed, buffer, give_back in *. rewrite Hpc.
  destruct s as [st sl b r ra bs sd t p ow iw bu [bf rc cl e w pc d]]. unfold window_sum, buffered, len in *. simpl in *. subst.
  destruct bf as [bf|]; [|done]. simpl in *.
  assert (Hpre : forall x, e = Some x -> x `prefix_of` bf ++ payload) by (intros x Hx; by apply prefix_app_r, G7).
  destruct st; simpl in *; try lia; try done; destruct w; simpl; rewrite ?length_app; split_and!; auto; try lia.
Qed.

Lemma chunk_streamed_end c0 id s0 s payload is_first queued c :
  arriving c0 id s0 s payload is_first c -> hs_streamed s = true ->
  succeeds (c ← end_of_body c id; c ← append_body c id payload; submit_body conf c id is_first true queued) (ended conf c0).
Proof.
  intros Ha Hsd. destruct (finished_streamed _ _ _ _ _ _ _ Ha Hsd) as (F1 & F2 & F3 & F4 & F5 & F6 & F7 & F8 & F9 & F10 & F11 & F12).
  destruct (arriving_phase _ _ _ _ _ _ _ Ha) as [Hb Hph]. rewrite Hsd in Hph. destruct Hph as (Hpr & Hpc & Hst & Hr).
  destruct Ha as [Hc Hs0 T Hcl E1 E2 E3 Hbs Hg _].
  eapply succeeds_bind; [apply (end_of_body_ok c0 c id s T Hbs); intros E; rewrite E in Hr; simpl in Hr; lia|]. intros c1 T1.
  eapply succeeds_bind; [apply (append_body_ok c0 c1 id _ payload T1)|].
  { by rewrite finished_rx. }
  intros c2 T2. set (s2 := buffer payload (finished id s)) in *. clearbody s2.
  assert (Hok : forall c' s', turns c0 id s' c' -> stream_good conf id s' -> hs_state s' = hs_state s2 -> conn_ok conf c').
  { intros c' s' T' Hg' Hs'. apply (conn_ok_moved conf c0 c' id s0 s'); auto; [|congruence|].
    - intros [? _]. congruence.
    - rewrite <- E1. intros E. rewrite E in Hr. simpl in Hr. lia. }
  assert (Hdel : forall b, hs_body_state (set_hs_body_state b s2) = b) by (by destruct s2).
  unfold submit_body. rewrite (turns_lookup _ _ _ _ T2). cbn [mbind option_bind]. rewrite F1, F4.
  pose proof (turns_upd c2 id s2 _ (tn_counters _ _ _ _ T2) (turns_lookup _ _ _ _ T2) (uncounted_rx (set_rx_entity (rx_buf (hs_rx s2))))) as T3.
  destruct (rx_write_req (hs_rx s)) eqn:Hw.
  - case_bool_decide as He.
    + apply (write_streaming_body_ok c0 c2 id s2 (default [] (rx_buf (hs_rx s)) ++ payload)); auto.
      intros c' T'. apply (Hok c' _ T'); unfold submitted in *; rewrite bool_decide_true by done; [|by destruct s2].
      clear -F1 F2 F5 F8 F9 F10 F12. destruct s2 as [st sl b r ra bs sd t p ow iw bu []]. unfold window_sum, buffered in *. simpl in *.
      apply good_streamed; auto; simpl; [|by intros ? ->]. unfold phase. simpl. split; [done|lia].
    + apply succeeds_some. split; [|apply steady_rest, T2]. apply (Hok c2 s2 T2); [|done].
      apply good_streamed; auto. unfold phase. rewrite F6, F1. split_and!; auto. congruence.
  - apply succeeds_some. split; [|apply steady_rest; apply (turns_trans _ _ _ _ _ _ T2 T3)].
    apply (Hok _ _ (turns_trans _ _ _ _ _ _ T2 T3)); [|by destruct s2].
    clear -F1 F2 F5 F6 F7 F8 F9 F10 F12. destruct s2 as [st sl b r ra bs sd t p ow iw bu []]. unfold window_sum, buffered in *. simpl in *. subst.
    apply good_streamed; auto; simpl; [|by intros ? [= ->]]. unfold phase. simpl. split; [done|lia].
Qed.

(** The body of another request ends: it is complete. *)
Lemma chunk_plain_end c0 id s0 s payload is_first c :
  arriving c0 id s0 s payload is_first c -> hs_streamed s = false -> disregarded c0 id = false ->
  succeeds (c ← end_of_body c id; c ← append_body c id payload; submit_body conf c id is_first true (hs_proceed_req s)) (ended conf c0).
Proof.
  intros Ha Hsd Hdis. destruct (arriving_phase _ _ _ _ _ _ _ Ha) as [Hb Hph]. rewrite Hsd in Hph. destruct Hph as (Hst & Hw & Hpc).
  destruct Ha as [Hc Hs0 T Hcl E1 E2 E3 Hbs Hg _].
  eapply succeeds_bind; [apply (end_of_body_ok c0 c id s T Hbs); congruence|]. intros c1 T1.
  assert (Ef : finished id s = set_hs_body_state BODY_CLOSE_DELIVERED (set_hs_proceed_req false (moved id STATE_REQ_PENDING s)))
    by (unfold finished, progressed; by rewrite Hst, Hpc, Hw). rewrite Ef in T1.
  eapply succeeds_bind; [apply (append_body_ok c0 c1 id _ payload T1); rewrite <- Ef; by rewrite finished_rx|]. intros c2 T2.
  set (s2 := buffer payload _) in *.
  unfold submit_body. rewrite (turns_lookup _ _ _ _ T2). cbn [mbind option_bind]. replace (hs_streamed s2) with false by (by destruct s).
  pose proof (turns_upd c2 id s2 _ (tn_counters _ _ _ _ T2) (turns_lookup _ _ _ _ T2) (uncounted_rx (set_rx_entity (rx_buf (hs_rx s2))))) as T3.
  pose proof (turns_trans _ _ _ _ _ _ T2 T3) as T4. set (s3 := set_hs_rx _ s2) in *.
  assert (F : hs_state s3 = STATE_REQ_PENDING /\ hs_streamed s3 = false /\ hs_proceed_req s3 = false /\ stream_good conf id s3).
  { unfold s3, s2. clear -Hg Hsd Hpc Hb Hw. destruct Hg as [G1 G2 G3 G7 G4 G5 G6 G8].
    destruct s as [st sl b r ra bs sd t p ow iw bu [bf rc cl e w pc d]]. unfold give_back, buffer, window_sum, buffered, len in *. simpl in *. subst.
    split_and!; auto. destruct bf as [bf|]; [|done]. simpl in *.
    constructor; unfold phase, window_sum, buffered, len, not_grown; simpl; auto; rewrite ?length_app; try lia; [by intros ? [= ->]|].
    intros [_ [?|[?|[? _]]]]; done. }
  destruct F as (F1 & F2 & F3 & F4). rewrite andb_false_r. pose proof (open_links c0 id s0 Hc Hs0) as Hl. rewrite <- E1, <- E2, <- E3 in Hl. specialize (Hl Hsd Hst).
  destruct (hs_proceed_req s) eqn:Hpr; simpl.
  - apply succeeds_some. split; [|apply steady_rest, T4]. apply (conn_ok_turns conf c0 _ id s0 s3); auto.
    + intros _. unfold linkable. rewrite F1. by split_and!.
    + intros _. split; [done|]. by left.
    + congruence.
  - apply (execute_or_enqueue_ok conf Hconf c0 _ id s0 s3); auto. congruence.
Qed.

Definition counted_in (received : Z) (s : h2stream) : h2stream := set_hs_rx (set_rx_received received) (set_hs_body_state BODY_OPEN s).

Lemma owing_counted n id s received b :
  owing n id s -> hs_body_state s = BODY_OPEN_BEFORE_FIRST_FRAME \/ hs_body_state s = BODY_OPEN ->
  owing n id (set_hs_blocked b (counted_in received s)).
Proof.
  intros [G1 G2 G3 G7 G4 G5 G6 G8] Hbs. destruct s as [st sl bl r ra bs sd t p ow iw bu []].
  unfold owing, give_back, counted_in, window_sum, buffered, not_grown in *. simpl in *.
  constructor; simpl; auto; unfold phase in *; simpl in *; destruct Hbs; subst; auto.
  - destruct G2 as (-> & -> & -> & -> & ?). by split_and!.
  - intros [_ [?|[?|[_ E]]]]; [done..|]. simpl in E. destruct G2 as (_ & ? & _). congruence.
Qed.

Lemma body_open_ok c0 c id s received :
  turns c0 id s c -> hs_body_state s = BODY_OPEN_BEFORE_FIRST_FRAME \/ hs_body_state s = BODY_OPEN ->
  succeeds (match hs_body_state s with
            | BODY_OPEN_BEFORE_FIRST_FRAME => c ← set_req_body_state c id BODY_OPEN; Some (c, true)
            | BODY_OPEN => Some (c, false)
            | _ => None
            end)
    (fun r => turns c0 id (counted_in received s) (upd_stream id (set_hs_rx (set_rx_received received)) r.1) /\
       (r.2 = true -> hs_body_state s = BODY_OPEN_BEFORE_FIRST_FRAME)).
Proof.
  intros T Hbs. unfold counted_in. destruct Hbs as [E|E]; rewrite E.
  - eapply succeeds_bind; [apply (turns_body c id s BODY_OPEN); [apply T|by eapply turns_lookup|by rewrite E|done]|].
    intros c1 T1. apply succeeds_some. simpl. split; [|done]. pose proof (turns_trans _ _ _ _ _ _ T T1) as T2.
    eapply turns_trans; [exact T2|]. apply turns_upd; [apply T2|by eapply turns_lookup|apply uncounted_rx].
  - apply succeeds_some. simpl. split; [|done]. replace (set_hs_body_state BODY_OPEN s) with s by (destruct s; simpl in *; by subst).
    eapply turns_trans; [exact T|]. apply turns_upd; [apply T|by eapply turns_lookup|apply uncounted_rx].
Qed.

Lemma block_ok c0 c id s :
  turns c0 id s c ->
  succeeds (if hs_blocked_by_server s then Some c else h2o_http2_stream_set_blocked_by_server c id true) (turns c0 id (set_hs_blocked true s)).
Proof.
  intros T. destruct (hs_blocked_by_server s) eqn:E.
  - apply succeeds_some. replace (set_hs_blocked true s) with s; [done|]. destruct s; simpl in *; by subst.
  - eapply succeeds_weaken; [apply (turns_blocked c id s true); [apply T|by eapply turns_lookup|done]|]. intros c1 T1. by eapply turns_trans.
Qed.

Lemma handle_request_body_chunk_ok c0 c id s0 s payload is_end :
  conn_ok conf c0 -> hc_streams c0 !! id = Some s0 -> turns c0 id s c -> hc_state c0 <> CONN_IS_CLOSING ->
  hs_state s = hs_state s0 -> hs_streamed s = hs_streamed s0 -> hs_proceed_req s = hs_proceed_req s0 ->
  hs_body_state s = BODY_OPEN_BEFORE_FIRST_FRAME \/ hs_body_state s = BODY_OPEN -> owing (len payload) id s ->
  payload <> [] \/ is_end = true ->
  succeeds (handle_request_body_chunk conf c id payload is_end) (ended conf c0).
Proof.
  intros Hc Hs0 T Hcl E1 E2 E3 Hbs Hg Hpay. unfold handle_request_body_chunk. rewrite (turns_lookup _ _ _ _ T). cbn [mbind option_bind].
  set (received := rx_received (hs_rx s) + len payload). eapply succeeds_bind; [by apply (body_open_ok c0 c id s received)|].
  intros [c1 is_first] [T1 Hfirst]. simpl in T1, Hfirst. cbv beta iota zeta.
  assert (Hb1 : hs_blocked_by_server (counted_in received s) = hs_blocked_by_server s) by (by destruct s).
  pose proof (owing_counted _ _ _ received true Hg Hbs) as Hg3.
  pose proof (owing_counted _ _ _ received (hs_blocked_by_server s) Hg Hbs) as Hg2.
  replace (set_hs_blocked (hs_blocked_by_server s) (counted_in received s)) with (counted_in received s) in Hg2 by (by destruct s).
  assert (Hn : 0 <= len payload) by (unfold len; lia).
  assert (F : hs_state (counted_in received s) = hs_state s0 /\ hs_body_state (counted_in received s) = BODY_OPEN) by (destruct s; by split).
  destruct F as [F1 F2]. destruct (body_size_error conf s received is_end) as [err|].
  { apply (send_error_reset_ok c0 _ id s0 _ err Hc Hs0 T1 F1); [|done]. intros Hr. apply (owing_good (len payload)); auto. }
  rewrite <- Hb1. eapply succeeds_bind; [by apply block_ok|]. intros c2 T2. set (s2 := set_hs_blocked true (counted_in received s)) in *.
  assert (Hmo : hc_pull_max_open c2 = hc_pull_max_open c0) by (by apply (rest_links _ _ (tn_rest _ _ _ _ T2))).
  assert (F3 : hs_state s2 = hs_state s0 /\ hs_streamed s2 = hs_streamed s0 /\ hs_proceed_req s2 = hs_proceed_req s0 /\ hs_body_state s2 = BODY_OPEN /\
    window_sum s2 = window_sum s) by (unfold s2; destruct s as [????????????[]]; by split_and!).
  destruct F3 as (F3 & F4 & F5 & F6 & F7).
  assert (E : reset_stream_if_disregarded conf c2 id =
    if disregarded c0 id then (c ← h2o_http2_stream_reset conf c2 id; Some (c, true)) else Some (c2, false)).
  { unfold reset_stream_if_disregarded, disregarded. by rewrite Hmo. }
  rewrite E. clear E. destruct (disregarded c0 id) eqn:Hdis.
  { destruct (reset_turned conf Hconf c0 c2 id s0 s2 Hc Hs0 T2 F3) as (c3 & -> & H); [|by apply succeeds_some].
    intros Hr. apply (owing_good (len payload)); auto. }
  cbn [mbind option_bind]. assert (Ha : arriving c0 id s0 s2 payload is_first c2).
  { constructor; auto. intros ->. specialize (Hfirst eq_refl). rewrite F4, F5, <- E2, <- E3, F7. destruct Hg as [_ G2 _ _ _ _ G6 _].
    destruct s as [st sl bl r ra bs sd t p ow iw bu q]. unfold give_back, phase, not_grown, window_sum, buffered in *. simpl in *. subst.
    destruct G2 as (_ & ? & ? & _). split_and!; auto. rewrite <- G6; [lia|]. auto. }
  rewrite <- E3 in F5. rewrite <- F5. destruct (hs_streamed s2) eqn:Hsd, is_end.
  - by apply (chunk_streamed_end c0 id s0 s2).
  - destruct Hpay; [|done]. by apply (chunk_streamed_open c0 id s0 s2).
  - by apply (chunk_plain_end c0 id s0 s2).
  - by apply (chunk_plain_open c0 id s0 s2).
Qed.

(** ** The application has taken a chunk *)

(** The octets that were handed over leave the buffer. *)
Definition taken (rest : bytes) (s : h2stream) : h2stream := set_hs_rx (fun q => set_rx_entity None (set_rx_buf (Some rest) q)) s.

Lemma consume_prefix s buf :
  rx_buf (hs_rx s) = Some buf -> (forall e, rx_entity (hs_rx s) = Some e -> e `prefix_of` buf) ->
  exists rest, buf = default [] (rx_entity (hs_rx s)) ++ rest /\
    consume_body (rx_buf (hs_rx s)) (len (default [] (rx_entity (hs_rx s)))) = Some (Some rest).
Proof.
  intros Hb He. rewrite Hb. assert (Hp : default [] (rx_entity (hs_rx s)) `prefix_of` buf).
  { destruct (rx_entity (hs_rx s)); [by apply He|apply prefix_nil]. }
  destruct Hp as [y ->]. exists y. split; [done|]. unfold consume_body, len. destruct (Z.eqb_spec (Z.of_nat (length (default [] (rx_entity (hs_rx s))))) 0) as [E|_].
  - by destruct (default [] (rx_entity (hs_rx s))).
  - cbn [mbind option_bind]. by rewrite Nat2Z.id, drop_app_length.
Qed.

Section Taken.
Context (c : h2conn) (id : Z) (s : h2stream) (rest : bytes).
Hypothesis (Hc : conn_ok conf c) (Hs : hc_streams c !! id = Some s) (Hcl : hc_state c <> CONN_IS_CLOSING) (Hsd : hs_streamed s = true)
  (Hb : rx_buf (hs_rx s) = Some (default [] (rx_entity (hs_rx s)) ++ rest)).

Let written : Z := len (default [] (rx_entity (hs_rx s))).
Let c1 : h2conn := upd_stream id (set_hs_rx (fun q => set_rx_entity None (set_rx_buf (Some rest) q))) c.

Lemma taken_turns : turns c id (taken rest s) c1.
Proof. apply turns_upd; [apply Hc|done|apply uncounted_rx]. Qed.

Lemma taken_sum : window_sum (taken rest s) + written = window_sum s.
Proof.
  unfold window_sum, buffered, taken, written, len. clear -Hb. rewrite Hb. destruct s as [????????????[]]. simpl. rewrite length_app. lia.
Qed.

(** The body is still open: the window is given back. *)
Lemma proceed_open_ok :
  hs_body_state s = BODY_OPEN -> rx_write_req (hs_rx s) = true ->
  succeeds (c ← update_stream_input_window c1 id written;
            s ← hc_streams c !! id;
            c ← (if hs_blocked_by_server s && (0 <? h2o_http2_window_get_avail (hs_input_window s))
                 then h2o_http2_stream_set_blocked_by_server c id false else Some c);
            buf ← Some rest;
            if is_nil buf then Some c else write_streaming_body conf c id) (ended conf c).
Proof.
  intros Hbs Hw. pose proof taken_turns as T1. pose proof taken_sum as Hsum. pose proof (co_streams _ _ Hc _ _ Hs) as [G1 G2 G3 G7 G4 G5 G6 G8].
  destruct Hconf as [_ [Hw1 Hw2] _]. assert (Hn : 0 <= written) by (unfold written, len; lia).
  assert (Hbu : hs_bytes_unnotified (taken rest s) = hs_bytes_unnotified s) by (by destruct s).
  assert (Hbf : 0 <= buffered (taken rest s)) by (unfold buffered, len; lia).
  eapply succeeds_bind; [apply (update_window_ok c1 id _ written (tn_counters _ _ _ _ T1) (turns_lookup _ _ _ _ T1)); unfold window_sum in *; lia|].
  intros c2 (w & b & T2 & Hwb & Hb0). pose proof (turns_trans _ _ _ _ _ _ T1 T2) as T3. rewrite (turns_lookup _ _ _ _ T3). cbn [mbind option_bind].
  set (s2 := set_hs_input_window w b (taken rest s)) in *.
  eapply (succeeds_bind _ _ (fun c3 => exists x, turns c id (set_hs_blocked x s2) c3)).
  { destruct (hs_blocked_by_server s2) eqn:Eb; simpl; [destruct (_ <? _)|]; try (apply succeeds_some; exists (hs_blocked_by_server s2); by destruct s).
    eapply succeeds_weaken; [apply (turns_blocked c2 id s2 false); [apply T2|by eapply turns_lookup|done]|]. intros c3 T4. exists false. by eapply turns_trans. }
  intros c3 [x T4]. set (s3 := set_hs_blocked x s2) in *.
  assert (F : hs_state s3 = hs_state s /\ hs_streamed s3 = hs_streamed s /\ hs_proceed_req s3 = hs_proceed_req s /\ hs_body_state s3 = BODY_OPEN /\
    rx_entity (hs_rx s3) = None /\ rx_buf (hs_rx s3) = Some rest /\ rx_write_req (hs_rx s3) = true /\ phase s3 /\ window_sum s3 = window_sum s /\ hs_bytes_unnotified s3 = b /\ protocol_ok (rx_input (hs_rx s3))).
  { rewrite <- Hsum. unfold s3, s2, taken, phase, window_sum, buffered in *. clear -Hsd Hbs Hw G2 G8 Hwb.
    destruct s as [st sl bl r ra bs sd t p ow iw bu []]. simpl in *. subst. destruct G2 as (_ & ? & ? & ? & ?). split_and!; done || lia. }
  destruct F as (F1 & F2 & F3 & F4 & F5 & F6 & F7 & F8 & F9 & F10 & F11). clearbody s3.
  assert (Hok : forall e, (forall y, e = Some y -> y `prefix_of` rest) -> forall c', turns c id (set_hs_rx (set_rx_entity e) s3) c' -> conn_ok conf c').
  { intros e He c' T'. apply (conn_ok_kept c c' id s _ Hc Hs T'); try (destruct s3; simpl in *; auto; congruence).
    apply good_entity; [|by rewrite F6|congruence]. apply good_streamed; auto; [congruence|by rewrite F5|lia|lia]. }
  assert (Hback : set_hs_rx (set_rx_entity None) s3 = s3) by (destruct s3 as [????????????[]]; simpl in *; by subst).
  destruct (is_nil rest) eqn:Enil.
  - apply succeeds_some. split; [|apply steady_rest, T4]. apply (Hok None); [done|]. by rewrite Hback.
  - apply (write_streaming_body_ok c c3 id s3 rest); auto; [congruence|left; split; [done|by destruct rest]|].
    unfold submitted. rewrite bool_decide_false by congruence. rewrite F6. apply Hok. by intros y [= ->].
Qed.

(** The rest of a body that has ended. *)
Lemma proceed_queued_ok :
  hs_body_state s = BODY_CLOSE_QUEUED -> rx_write_req (hs_rx s) = true -> succeeds (write_streaming_body conf c1 id) (ended conf c).
Proof.
  intros Hbs Hw. pose proof taken_turns as T1. pose proof taken_sum as Hsum. pose proof (co_streams _ _ Hc _ _ Hs) as [G1 G2 G3 G7 G4 G5 G6 G8].
  assert (Hn : 0 <= written) by (unfold written, len; lia). unfold phase in G2. rewrite Hbs in G2. destruct G2 as (_ & Hpr & _ & _ & Hr).
  apply (write_streaming_body_ok c c1 id (taken rest s) rest); auto; try (by destruct s as [????????????[]]); [right; by destruct s|].
  intros c' T'. apply (conn_ok_moved conf c c' id s (submitted (taken rest s))); auto.
  - unfold submitted, taken, window_sum, buffered in *. clear -Hsd Hbs Hsum Hn G1 G4 G5 G8 Hr. clearbody written.
    destruct s as [st sl bl r ra bs sd t p ow iw bu []]. simpl in *. subst. simpl in *.
    apply good_streamed; auto; simpl; [|by intros ? [= ->]|unfold window_sum, buffered; simpl; lia]. unfold phase. simpl. split; [done|lia].
  - intros [? _]. congruence.
  - unfold submitted, taken. case_bool_decide; by destruct s.
  - intros E. rewrite E in Hr. simpl in Hr. lia.
Qed.
End Taken.

(** ** The application reports an error *)

Lemma link_to_proceed_ok c id :
  succeeds (if is_linked c id then Some c else link_to_proceed c id) (fun c' => hc_streams c' = hc_streams c /\ hc_num c' = hc_num c /\
    others c' = others c /\ steady c c' /\ hc_reset_budget c' = hc_reset_budget c /\ hc_pending_reqs c' = hc_pending_reqs c /\ id ∈ all_links c' /\
    (all_links c' = all_links c \/ is_linked c id = false /\ exists l1 l2, all_links c = l1 ++ l2 /\ all_links c' = l1 ++ id :: l2)).
Proof.
  unfold link_to_proceed. destruct (is_linked c id) eqn:E.
  - apply succeeds_some. apply bool_decide_eq_true in E. split_and!; auto; done.
  - apply succeeds_some. destruct c. unfold all_links, set_links. simpl in *. split_and!; try done.
    + set_solver.
    + right. split; [done|]. exists (hc_pending_reqs ++ hc_streams_to_proceed), hc_blocked_streams. by rewrite <- !app_assoc.
Qed.

Lemma filter_middle_ne (l1 l2 : list Z) id : filter (.≠ id) (l1 ++ id :: l2) = filter (.≠ id) (l1 ++ l2).
Proof. rewrite !filter_app, filter_cons_False by naive_solver. done. Qed.

(** The stream is told to end, whatever its state is. *)
Lemma abort_stream_ok c0 c id s0 s err :
  conn_ok conf c0 -> hc_streams c0 !! id = Some s0 -> turns c0 id s c -> hc_state c0 <> CONN_IS_CLOSING -> hs_state s = hs_state s0 ->
  state_rank STATE_RECV_BODY <= state_rank (hs_state s) -> ~ waits s0 -> hs_state s <> STATE_REQ_PENDING ->
  (state_rank STATE_SEND_HEADERS <= state_rank (hs_state s) -> stream_good conf id s) ->
  succeeds (c ← stream_send_error c id err;
            c ← (if is_linked c id then Some c else link_to_proceed c id);
            h2o_http2_stream_reset conf c id) (ended conf c0).
Proof.
  intros Hc Hs0 T Hcl Hst Hr Hnw Hnp Hg. destruct (rest_links _ _ (tn_rest _ _ _ _ T)) as (_ & _ & _ & Hcs & _).
  eapply succeeds_bind; [apply stream_send_error_ok; [apply (sg_id _ _ _ (co_streams _ _ Hc _ _ Hs0))|congruence]|].
  intros c1 Hq. pose proof (turns_quiet _ _ _ _ _ T Hq) as T1. eapply succeeds_bind; [apply link_to_proceed_ok|].
  intros c2 (V1 & V2 & V3 & V4 & V5 & V6 & V7 & V8). pose proof (steady_trans _ _ _ (steady_rest _ _ (tn_rest _ _ _ _ T1)) V4) as St.
  assert (Hs2 : hc_streams c2 !! id = Some s) by (rewrite V1; by eapply turns_lookup).
  assert (Hct : counters_ok c2) by (apply (counters_view c1); [apply T1|done..]).
  destruct (rest_links _ _ (tn_rest _ _ _ _ T1)) as (Hl1 & Hp1 & _ & Hcs1 & Hb1 & Hmo1 & _).
  destruct (decide (hs_state s = STATE_RECV_BODY)) as [E|E].
  - unfold h2o_http2_stream_reset, h2o_http2_stream_close. rewrite Hs2. cbn [mbind option_bind]. rewrite E.
    apply (stream_detach_ok conf Hconf c0 c2 id s Hc). constructor; auto; try congruence.
    + by rewrite V1, (tn_streams _ _ _ _ T1).
    + destruct V8 as [-> | (_ & l1 & l2 & El & ->)]; [by rewrite Hl1|]. by rewrite filter_middle_ne, <- El, Hl1.
    + rewrite E. naive_solver.
  - assert (Hr4 : state_rank STATE_SEND_HEADERS <= state_rank (hs_state s)) by (destruct (hs_state s); simpl in *; done || lia).
    assert (Hi : hs_state s0 <> STATE_IDLE) by (rewrite <- Hst; intros Ei; rewrite Ei in Hr; simpl in Hr; lia).
    pose proof (conn_ok_moved conf c0 c1 id s0 s Hc Hs0 T1 (Hg Hr4) Hnw Hr4 Hi) as Hc1.
    assert (Hc2 : conn_ok conf c2).
    { destruct Hc1 as [K1 K2 K3 K4 K5]. destruct V4 as (W1 & W2 & _). constructor; rewrite ?V1, ?V5, ?W1, ?W2; auto.
      destruct V8 as [Hl|(Hn & Hl)].
      - destruct K2 as [L1 L2 L3 L4]. constructor; rewrite ?Hl, ?V1, ?V6; auto.
      - apply (links_append c1 c2 id s); auto; [by eapply turns_lookup|].
        unfold linkable. split_and!; [intros Ei; rewrite Ei in Hr4; simpl in Hr4; lia..|done]. }
    eapply succeeds_weaken; [by apply (reset_ok conf Hconf c2 id s)|]. intros c3 H3. by eapply ended_trans.
Qed.

Lemma proceed_error_ok c0 c id s0 s is_eos :
  conn_ok conf c0 -> hc_streams c0 !! id = Some s0 -> turns c0 id s c -> hc_state c0 <> CONN_IS_CLOSING -> hs_state s = hs_state s0 ->
  hs_streamed s = true -> hs_streamed s0 = true -> hs_body_state s = BODY_OPEN \/ hs_body_state s = BODY_CLOSE_QUEUED ->
  state_rank STATE_RECV_BODY <= state_rank (hs_state s) -> hs_state s <> STATE_REQ_PENDING ->
  rx_entity (hs_rx s) = None -> 0 <= hs_bytes_unnotified s -> window_sum s <= active_stream_window_size conf -> protocol_ok (rx_input (hs_rx s)) ->
  (is_eos = true -> state_rank STATE_SEND_HEADERS <= state_rank (hs_state s)) ->
  succeeds (proceed_error conf c id is_eos) (ended conf c0).
Proof.
  intros Hc Hs0 T Hcl Hst Hsd Hsd0 Hbs Hr Hnp He Hun Hsum Hpro Heos. unfold proceed_error.
  pose proof (turns_upd c id s _ (tn_counters _ _ _ _ T) (turns_lookup _ _ _ _ T) (uncounted_proceed false)) as T1.
  eapply succeeds_bind; [apply (turns_body _ id _ BODY_CLOSE_DELIVERED (tn_counters _ _ _ _ T1) (turns_lookup _ _ _ _ T1)); destruct s; simpl in *; [destruct Hbs; subst; simpl; lia|done]|].
  intros c1 T2. pose proof (turns_trans _ _ _ _ _ _ T (turns_trans _ _ _ _ _ _ T1 T2)) as T3. set (s1 := set_hs_body_state _ _) in T3.
  destruct (rest_links _ _ (tn_rest _ _ _ _ T3)) as (_ & _ & _ & Hcs & _). rewrite Hcs.
  assert (Hlt : conn_rank (hc_state c0) < conn_rank CONN_IS_CLOSING) by (destruct (hc_state c0); simpl; done || lia).
  rewrite (proj2 (Z.ltb_lt _ _) Hlt), (turns_lookup _ _ _ _ T3). cbn [mbind option_bind].
  assert (Hg1 : forall d, state_rank STATE_SEND_HEADERS <= state_rank (hs_state s) -> stream_good conf id (set_hs_rx (set_rx_delayed d) s1)).
  { intros d Hr4. unfold s1. pose proof (sg_id _ _ _ (co_streams _ _ Hc _ _ Hs0)). clear -Hsd He Hun Hsum Hpro Hr4 H.
    destruct s as [st sl bl r ra bs sd t p ow iw bu []]. unfold window_sum, buffered in *. simpl in *. subst.
    apply good_streamed; auto; simpl; [|done]. unfold phase. simpl. split; [done|lia]. }
  assert (Hw : ~ waits s0) by (intros [? _]; congruence). assert (Fs : hs_state s1 = hs_state s) by (by destruct s).
  destruct (is_eos && _) eqn:Ee.
  - apply andb_true_iff in Ee as [-> _]. apply succeeds_some.
    pose proof (turns_upd c1 id s1 _ (tn_counters _ _ _ _ T3) (turns_lookup _ _ _ _ T3) (uncounted_rx (set_rx_delayed true))) as T4.
    pose proof (turns_trans _ _ _ _ _ _ T3 T4) as T5. split; [|apply steady_rest, T5].
    apply (conn_ok_moved conf c0 _ id s0 _ Hc Hs0 T5); auto; [by destruct s; apply Heos|].
    rewrite <- Hst. intros Ei. rewrite Ei in Hr. simpl in Hr. lia.
  - apply (abort_stream_ok c0 c1 id s0 s1); auto; try congruence. intros Hr4. rewrite Fs in Hr4. specialize (Hg1 (rx_delayed_rst_stream_no_error (hs_rx s1)) Hr4).
    by destruct s as [????????????[]].
Qed.

(** What the application may report: it has taken the chunk that it was given, or it failed; an orderly end of the
    other side comes only when the response has begun. *)
Definition may_proceed (s : h2stream) (errstr : option bool) : Prop :=
  hs_streamed s = true /\ (hs_body_state s = BODY_OPEN \/ hs_body_state s = BODY_CLOSE_QUEUED) /\
  match errstr with
  | None => rx_write_req (hs_rx s) = true /\ (hs_body_state s = BODY_CLOSE_QUEUED -> rx_entity (hs_rx s) <> Some [])
  | Some is_eos => is_eos = true -> state_rank STATE_SEND_HEADERS <= state_rank (hs_state s)
  end.

Lemma proceed_request_ok c id s errstr :
  conn_ok conf c -> hc_streams c !! id = Some s -> hc_state c <> CONN_IS_CLOSING -> may_proceed s errstr ->
  succeeds (proceed_request conf c id errstr) (ended conf c).
Proof.
  intros Hc Hs Hcl (Hsd & Hbs & Herr). pose proof (co_streams _ _ Hc _ _ Hs) as Hg. unfold proceed_request. rewrite Hs. cbn [mbind option_bind]. rewrite Hsd. cbn [negb].
  assert (Hph : rx_buf (hs_rx s) <> None /\ state_rank STATE_RECV_BODY <= state_rank (hs_state s) /\ hs_state s <> STATE_REQ_PENDING /\
    (hs_body_state s = BODY_CLOSE_QUEUED -> rx_entity (hs_rx s) <> None)).
  { pose proof (sg_phase _ _ _ Hg) as Hp. unfold phase in Hp. destruct Hbs as [E|E]; rewrite E in Hp.
    - rewrite Hsd in Hp. destruct Hp as (? & _ & _ & ? & ?). split_and!; auto. congruence.
    - destruct Hp as (_ & _ & ? & ? & Hr). split_and!; auto; [simpl in *; lia|]. intros E'. rewrite E' in Hr. simpl in Hr. lia. }
  destruct Hph as (Hb & Hr & Hnp & Hq). destruct (rx_buf (hs_rx s)) as [buf|] eqn:Eb; [|done].
  destruct (consume_prefix s buf Eb) as (rest & -> & Econ). { intros e He. pose proof (sg_entity _ _ _ Hg e He) as H. by rewrite Eb in H. }
  rewrite <- Eb at 1. rewrite Econ. cbn [mbind option_bind]. pose proof (taken_sum s rest Eb) as Hsum. cbv zeta in Hsum.
  assert (Hn : 0 <= len (default [] (rx_entity (hs_rx s)))) by (unfold len; lia). destruct errstr as [is_eos|].
  - apply (proceed_error_ok c _ id s _ is_eos Hc Hs (taken_turns c id s rest Hc Hs)); auto; try (by destruct s as [????????????[]]).
    + destruct s; apply Hg.
    + pose proof (sg_window _ _ _ Hg). lia.
    + destruct s as [????????????[]]; apply Hg.
  - destruct Herr as [Hw Hne]. destruct Hbs as [E|E]; rewrite E.
    + by apply (proceed_open_ok c id s rest).
    + destruct (Z.eqb_spec (len (default [] (rx_entity (hs_rx s)))) 0) as [E0|_]; [|by apply (proceed_queued_ok c id s rest)].
      exfalso. specialize (Hne E). specialize (Hq E). destruct (rx_entity (hs_rx s)) as [[|]|]; done.
Qed.
End Body.
