(* ===== verification/Http2ConnRun.v ===== *)
(** * No input makes an HTTP/2 connection fail

    Every frame handler keeps the books of an open connection and returns; so does the parser of the input, whatever
    the octets are. *)
From S2P Require Import Prelude Strings Url Tokens HpackInt Huffman HeaderTable Headers Hpack HpackSafe HpackParse Http2Frame Http2Send.
From S2P Require Import Http2Streams Http2StreamsOk Http2StreamsRun Http2StreamsEnd Http2Conn Http2ConnOk.
From Stdlib Require Import ZArith Lia.
From stdpp Require Import base numbers option strings gmap functions list.
Open Scope Z_scope.

(** ** Header blocks *)

Section Parse.
Context {digests_t : Type} (load : digests_t -> bytes -> digests_t).
Notation request := (request (digests_t := digests_t)).

Definition has_protocol_bit (r : request) : Prop := is_Some (rq_protocol r) -> Z.testbit (rq_map r) 4 = true.
Definition step_bit (r : request + request * Z) : Prop :=
  match r with inl st => has_protocol_bit st | inr (st, code) => has_protocol_bit st /\ code = H2O_HTTP2_ERROR_PROTOCOL end.

Lemma set_pseudo_bit st t value : has_protocol_bit st -> has_protocol_bit (set_pseudo st t value).
Proof.
  destruct st. unfold has_protocol_bit, set_pseudo. cbn -[Z.testbit Z.lor]. intros H.
  repeat case_match; cbn -[Z.testbit Z.lor]; rewrite Z.lor_spec; intros Hs; try (by rewrite (H Hs)). by rewrite orb_true_r.
Qed.

Lemma refuse_bit st err : has_protocol_bit st -> step_bit (refuse st err).
Proof. intros H. split; [|done]. by destruct st. Qed.

Lemma request_field_bit args map st name value : has_protocol_bit st -> step_bit (request_field load args map st name value).1.
Proof.
  intros H. unfold request_field, request_pseudo. destruct (_ =? 58).
  - destruct map; [|by apply refuse_bit]. repeat case_bool_decide; cbn [fst]; try (by apply refuse_bit); try (by apply set_pseudo_bit); try done.
    destruct (_ =? 0); [by apply refuse_bit|by apply set_pseudo_bit].
  - cbn [fst]. unfold request_regular. destruct st. destruct name; [|done]. repeat case_match; try done; by apply refuse_bit.
Qed.

(** The parser of a header block always returns, with the table in order and a code of HTTP/2. *)
Lemma parse_request_loop_safe fuel : forall table args map st src,
  (length src <= fuel)%nat -> table_ok table -> bytes_ok src -> has_protocol_bit st ->
  exists st' table' code, parse_request_loop (H := hpack_decoder) load fuel table args map st src = Some (st', table', code) /\
    table_ok table' /\ has_protocol_bit st' /\ code <= 0.
Proof.
  induction fuel as [|fuel IH]; intros table args map st src Hf Ht Hs Hst.
  { destruct src; [|simpl in Hf; lia]. simpl. eexists _, _, _. split; [done|]. split_and!; [done..|]. by destruct (rq_err st). }
  destruct src as [|b src]; simpl.
  { eexists _, _, _. split; [done|]. split_and!; [done..|]. by destruct (rq_err st). }
  destruct (decode_header_safe table (b :: src) None Ht Hs) as (r & Hr & Ho). unfold hpack_cb. rewrite Hr. cbn [mbind option_bind cb_ret cb_header cb_src cb_ctx cb_err_desc].
  pose proof (ho_code _ _ _ Ho) as Hcode. destruct (negb (dh_ret r =? 0) && _) eqn:Hret.
  { destruct st. eexists _, _, _. split; [done|]. split_and!; [apply Ho|done|]. destruct Hcode as [-> |[-> |[-> | ->]]]; done. }
  destruct (ho_header _ _ _ Ho) as [[[name value] Hh] Hcons].
  { destruct (Z.eqb_spec (dh_ret r) 0); [by left|]. destruct (Z.eqb_spec (dh_ret r) H2O_HTTP2_ERROR_INVALID_HEADER_CHAR); [by right|done]. }
  rewrite Hh. cbn [mbind option_bind]. set (st1 := if negb (dh_ret r =? 0) then _ else st).
  assert (Hst1 : has_protocol_bit st1) by (unfold st1; destruct (negb _); [|done]; destruct (rq_err st), (dh_err_desc r); by destruct st).
  pose proof (request_field_bit args map st1 name value Hst1) as Hfield.
  destruct (request_field load args map st1 name value) as [[st2|[st2 code]] map2]; simpl in Hfield.
  - apply IH; [|apply Ho|by eapply consumed_ok|done]. apply consumed_length in Hcons. simpl in Hcons, Hf. lia.
  - destruct Hfield as [Hst2 ->]. eexists _, _, _. split; [done|]. split_and!; [apply Ho|done|done].
Qed.

Lemma parse_request_safe table args map st src :
  table_ok table -> bytes_ok src -> has_protocol_bit st ->
  exists st' table' code, h2o_hpack_parse_request (H := hpack_decoder) load table args map st src = Some (st', table', code) /\
    table_ok table' /\ has_protocol_bit st' /\ code <= 0.
Proof. intros. destruct st. by apply parse_request_loop_safe. Qed.
End Parse.

Section Run.
Variable conf : config.
Context {app : App} `{!AppOk conf app}.
Hypothesis Hconf : config_ok conf.

(** ** An open connection *)

Record io_ok (c : h2conn) : Prop := {
  io_window : H2O_HTTP2_SETTINGS_HOST_CONNECTION_WINDOW_SIZE / 2 < io_input_window (hc_io c) <= H2O_HTTP2_SETTINGS_HOST_CONNECTION_WINDOW_SIZE;
  io_table : table_ok (io_input_header_table (hc_io c));
  io_unparsed u : io_headers_unparsed (hc_io c) = Some u -> bytes_ok u;
  io_continues : io_read_expect (hc_io c) = EXPECT_CONTINUATION -> is_Some (io_headers_unparsed (hc_io c)) }.

Record open_ok (c : h2conn) : Prop := {
  op_conn : conn_ok conf c;
  op_io : io_ok c;
  op_open : hc_state c = CONN_OPEN }.

Lemma io_ok_core c c' : core_io c' = core_io c -> io_ok c -> io_ok c'.
Proof. unfold core_io. intros [= E1 E2 E3 E4 E5 E6 E7] [H1 H2 H3 H4]. constructor; by rewrite ?E1, ?E2, ?E3, ?E6. Qed.

Lemma open_steady c c' : open_ok c -> conn_ok conf c' -> steady c c' -> open_ok c'.
Proof. intros [H1 H2 H3] Hc (E1 & E2 & E3). constructor; [done|by eapply io_ok_core|congruence]. Qed.

Lemma open_ended c c' : open_ok c -> ended conf c c' -> open_ok c'.
Proof. intros H [H1 H2]. by eapply open_steady. Qed.

Lemma open_quiet c c' : open_ok c -> quiet c c' -> open_ok c'.
Proof. intros H Hq. eapply open_steady; [done|by eapply conn_ok_quiet; [apply H|]|by apply quiet_steady]. Qed.

(** The members of the input and the output do not matter to the books. *)
Lemma conn_ok_io f c : conn_ok conf c -> conn_ok conf (upd_io f c).
Proof. intros [H1 [L1 L2 L3 L4] H3 H4 H5]. destruct c. constructor; simpl in *; auto; [by apply (counters_view _ _ H1)|by constructor]. Qed.

Lemma open_io f c : open_ok c -> io_ok (upd_io f c) -> open_ok (upd_io f c).
Proof. intros [H1 H2 H3] H. constructor; [by apply conn_ok_io|done|by destruct c]. Qed.

(** The description of an error fits into a GOAWAY frame. *)
Definition short (desc : option string) : bool := match desc with Some d => String.length d <? 100 | None => true end%nat.

(** What every handler does. *)
Definition handles (m : option handled) : Prop := succeeds m (fun r => open_ok r.1.1 /\ r.1.2 <= 0 /\ short r.2 = true).

Lemma handles_done c : open_ok c -> handles (done_ c).
Proof. intros. apply succeeds_some. done. Qed.
Lemma handles_fails c code desc : open_ok c -> code <= 0 -> short (Some desc) = true -> handles (fails c code desc).
Proof. intros. apply succeeds_some. done. Qed.
Lemma handles_error (c : h2conn) (code : Z) (desc : option string) : open_ok c -> code <= 0 -> short desc = true -> handles (Some (c, code, desc)).
Proof. intros. apply succeeds_some. done. Qed.

(** An operation, then the return of zero. *)
Lemma handles_then c m : open_ok c -> succeeds m (ended conf c) -> handles (c ← m; done_ c).
Proof. intros Ho Hm. eapply succeeds_bind; [exact Hm|]. intros c' H. apply handles_done. by eapply open_ended. Qed.
Lemma handles_quiet c m : open_ok c -> succeeds m (quiet c) -> handles (c ← m; done_ c).
Proof. intros Ho Hm. eapply succeeds_bind; [exact Hm|]. intros c' H. apply handles_done. by eapply open_quiet. Qed.

(** The operations on requests leave the reader alone. *)
Definition expect (c : h2conn) : read_expect := io_read_expect (hc_io c).
Definition handles_at (e : read_expect) (m : option handled) : Prop := succeeds m (fun r => open_ok r.1.1 /\ r.1.2 <= 0 /\ short r.2 = true /\ expect r.1.1 = e).

Lemma handles_any e m : handles_at e m -> handles m.
Proof. intros H. eapply succeeds_weaken; [exact H|]. intros r (H1 & H2 & H3 & _). done. Qed.
Lemma at_error c c' code desc : open_ok c -> conn_ok conf c' -> steady c c' -> code <= 0 -> short desc = true -> handles_at (expect c) (Some (c', code, desc)).
Proof.
  intros Ho Hc Hst Hcode Hd. apply succeeds_some. simpl. split_and!; [by eapply open_steady|done|done|]. destruct Hst as (_ & _ & E). unfold core_io in E. unfold expect. congruence.
Qed.
Lemma at_steady c c' : open_ok c -> conn_ok conf c' -> steady c c' -> handles_at (expect c) (done_ c').
Proof. intros. by apply at_error. Qed.
Lemma at_ended c c' : open_ok c -> ended conf c c' -> handles_at (expect c) (done_ c').
Proof. intros Ho [H1 H2]. by apply at_steady. Qed.
Lemma at_then c m : open_ok c -> succeeds m (ended conf c) -> handles_at (expect c) (c ← m; done_ c).
Proof. intros Ho Hm. eapply succeeds_bind; [exact Hm|]. intros c' H. by apply at_ended. Qed.

Lemma open_not_closing c : open_ok c -> hc_state c <> CONN_IS_CLOSING.
Proof. intros [_ _ ->]. done. Qed.

Lemma stream_id_pos c id s : conn_ok conf c -> hc_streams c !! id = Some s -> 0 < id.
Proof. intros Hc Hs. apply (sg_id _ _ _ (co_streams _ _ Hc _ _ Hs)). Qed.

Lemma err_text_short e : short (err_text <$> e) = true.
Proof. by destruct e as [[]|]. Qed.

(** ** Answers to requests *)

(** A stream with a request that is not complete. *)
Record receiving (c0 : h2conn) (id : Z) (s0 s : h2stream) (c : h2conn) : Prop := {
  rc_conn : open_ok c0;
  rc_stream : hc_streams c0 !! id = Some s0;
  rc_state0 : hs_state s0 = STATE_RECV_HEADERS;
  rc_turns : turns c0 id s c;
  rc_state : hs_state s = STATE_RECV_HEADERS;
  rc_good : stream_good conf id s }.

Lemma receiving_upd c0 id s0 s c f :
  receiving c0 id s0 s c -> uncounted f -> stream_good conf id (f s) -> receiving c0 id s0 (f s) (upd_stream id f c).
Proof.
  intros [H1 H2 H3 H4 H5 H6] Hf Hg. constructor; auto; [|destruct (Hf s) as [-> _]; done].
  eapply turns_trans; [exact H4|]. apply turns_upd; [apply H4|by eapply turns_lookup|done].
Qed.

Lemma send_rst_stream_ok c0 id s0 s c ret : receiving c0 id s0 s c -> handles_at (expect c0) (send_rst_stream conf c id ret).
Proof.
  intros [H1 H2 H3 H4 H5 H6]. unfold send_rst_stream.
  pose proof (turns_upd c id s _ (tn_counters _ _ _ _ H4) (turns_lookup _ _ _ _ H4) uncounted_reset_action) as T1.
  pose proof (turns_trans _ _ _ _ _ _ H4 T1) as T2.
  destruct (send_error_reset_ok conf Hconf c0 _ id s0 _ ret (op_conn _ H1) H2 T2) as (c1 & E & H); [by destruct s; simpl in *; congruence| |by apply open_not_closing|].
  - destruct s; simpl in *; subst; simpl. lia.
  - destruct (stream_send_error _ _ _) as [c2|]; [|done]. cbn [mbind option_bind] in *. rewrite E. by apply at_ended.
Qed.

(** The response to a request that was not processed. *)
Lemma fast_forward_ok c0 id s0 s c :
  receiving c0 id s0 s c ->
  succeeds (fast_forward c id) (fun c' => ended conf c0 c' /\ exists s', hc_streams c' !! id = Some s' /\ hs_state s' = STATE_SEND_HEADERS).
Proof.
  intros [H1 H2 H3 H4 H5 H6]. unfold fast_forward. pose proof (phase_early s (sg_phase _ _ _ H6) ltac:(by rewrite H5)) as (P1 & P2 & P3 & P4 & P5).
  eapply succeeds_bind; [apply (turns_state c id s STATE_REQ_PENDING); [apply H4|by eapply turns_lookup|by rewrite H5]|]. intros c1 T1.
  eapply succeeds_weaken; [apply (turns_state c1 id (moved id STATE_REQ_PENDING s) STATE_SEND_HEADERS); [apply T1|by eapply turns_lookup|by destruct s]|].
  intros c2 T2. pose proof (turns_trans _ _ _ _ _ _ H4 (turns_trans _ _ _ _ _ _ T1 T2)) as T3. split.
  - split; [|apply steady_rest, T3]. apply (conn_ok_moved conf c0 c2 id s0 _ (op_conn _ H1) H2 T3); [|unfold waits; rewrite H3; naive_solver|by destruct s|congruence].
    destruct H6 as [G1 G2 G3 G7 G4 G5 G6 G8]. destruct s as [st sl b r ra bs sd t p ow iw bu q]. simpl in *. subst.
    constructor; simpl; auto; [by split_and!|]. intros _. by right.
  - eexists. split; [by eapply turns_lookup|]. by destruct s.
Qed.

Lemma send_error_ok c0 id s0 s c status : receiving c0 id s0 s c -> handles_at (expect c0) (c ← fast_forward c id; c ← app_send_error c id status; done_ c).
Proof.
  intros Hr. eapply succeeds_bind; [by eapply fast_forward_ok|]. intros c1 (He & s1 & Hs1 & Hst1).
  pose proof (open_ended _ _ (rc_conn _ _ _ _ _ Hr) He) as Ho1.
  eapply succeeds_bind; [by apply (app_send_error_ok c1 id s1 status); [apply Ho1|..]|]. intros c2 (H1 & H2 & _).
  apply at_steady; [apply Hr|done|]. destruct He as [_ He]. by eapply steady_trans.
Qed.

Lemma receiving_quiet c0 id s0 s c c' : receiving c0 id s0 s c -> quiet c c' -> receiving c0 id s0 s c'.
Proof. intros [H1 H2 H3 H4 H5 H6] Hq. constructor; auto. by eapply turns_quiet. Qed.

(** What is known of the stream. *)
Lemma receiving_early c0 id s0 s c :
  receiving c0 id s0 s c -> hs_body_state s = BODY_NONE /\ hs_proceed_req s = false /\ hs_streamed s = false /\ rx_write_req (hs_rx s) = false /\
    rx_process_called (hs_rx s) = false /\ window_sum s = H2O_HTTP2_SETTINGS_HOST_STREAM_INITIAL_WINDOW_SIZE /\ id ∉ all_links c0.
Proof.
  intros [H1 H2 H3 H4 H5 H6]. pose proof (phase_early s (sg_phase _ _ _ H6) ltac:(by rewrite H5)) as (P1 & P2 & P3 & P4 & _). split_and!; auto.
  - destruct (rx_process_called _) eqn:E; [|done]. destruct (sg_called _ _ _ H6 E) as [?|Hr]; [congruence|]. rewrite H5 in Hr. simpl in Hr. lia.
  - apply (sg_not_grown _ _ _ H6). split; [done|]. by left.
  - apply (idle_not_linked conf c0 id s0 (op_conn _ H1) H2). by right.
Qed.

(** The states that a stream takes before its body is received. *)
Lemma receive_body_ok c0 id s0 s c b :
  receiving c0 id s0 s c -> b = BODY_OPEN \/ b = BODY_OPEN_BEFORE_FIRST_FRAME ->
  succeeds (c ← h2o_http2_stream_set_state c id STATE_RECV_BODY; set_req_body_state c id b)
    (turns c0 id (set_hs_body_state b (moved id STATE_RECV_BODY s))).
Proof.
  intros Hr Hb. destruct (receiving_early _ _ _ _ _ Hr) as (P1 & P2 & P3 & P4 & _). destruct Hr as [H1 H2 H3 H4 H5 H6].
  eapply succeeds_bind; [apply (turns_state c id s STATE_RECV_BODY); [apply H4|by eapply turns_lookup|by rewrite H5]|]. intros c1 T1.
  eapply succeeds_weaken; [apply (turns_body c1 id (moved id STATE_RECV_BODY s) b); [apply T1|by eapply turns_lookup|destruct s; simpl in *; subst; destruct Hb; by subst|destruct Hb; by subst]|].
  intros c2 T2. eapply turns_trans; [exact H4|]. by eapply turns_trans.
Qed.

(** The first DATA frame is awaited. *)
Lemma await_body_ok c0 id s0 s c :
  receiving c0 id s0 s c -> rx_buf (hs_rx s) <> None ->
  handles_at (expect c0) (c ← h2o_http2_stream_set_state c id STATE_RECV_BODY; c ← set_req_body_state c id BODY_OPEN_BEFORE_FIRST_FRAME; done_ c).
Proof.
  intros Hr Hb. destruct (receiving_early _ _ _ _ _ Hr) as (P1 & P2 & P3 & P4 & P5 & P6 & P7).
  destruct (receive_body_ok c0 id s0 s c BODY_OPEN_BEFORE_FIRST_FRAME Hr ltac:(by right)) as (c2 & E & T).
  destruct (h2o_http2_stream_set_state c id STATE_RECV_BODY) as [c1|]; [|done]. cbn [mbind option_bind] in *. rewrite E. cbn [mbind option_bind].
  destruct Hr as [H1 H2 H3 H4 H5 H6]. apply at_steady; [exact H1| |apply steady_rest, T].
  apply (conn_ok_turns conf c0 c2 id s0 _ (op_conn _ H1) T H2); try (intros; congruence); try (by intros ?%pending_linked); try done.
  - destruct H6 as [G1 G2 G3 G7 G4 G5 G6 G8]. destruct s as [st sl bl r ra bs sd t p ow iw bu q]. unfold window_sum, buffered in *. simpl in *. subst.
    constructor; simpl; auto; unfold phase; simpl; by split_and!.
  - unfold queued. destruct s; simpl in *; subst. by intros [?|[? _]].
Qed.

Lemma uncounted_immediate : uncounted (fun s => set_hs_proceed_req true (set_hs_rx (set_rx_entity (Some [])) s)).
Proof. by intros []. Qed.

(** A request that is processed before its body arrives. *)
Lemma process_immediately_ok c0 id s0 s c :
  receiving c0 id s0 s c -> rx_buf (hs_rx s) <> None -> handles_at (expect c0) (process_immediately conf c id).
Proof.
  intros Hr Hb. destruct (receiving_early _ _ _ _ _ Hr) as (P1 & P2 & P3 & P4 & P5 & P6 & P7). unfold process_immediately.
  destruct Hr as [H1 H2 H3 H4 H5 H6].
  pose proof (turns_upd c id s _ (tn_counters _ _ _ _ H4) (turns_lookup _ _ _ _ H4) uncounted_immediate) as T1.
  cbv beta in T1. set (s1 := set_hs_proceed_req true (set_hs_rx _ s)) in T1.
  eapply succeeds_bind; [apply (turns_state _ id s1 STATE_RECV_BODY); [apply T1|by eapply turns_lookup|destruct s; simpl in *; by subst]|]. intros c1 T2.
  eapply succeeds_bind; [apply (turns_body c1 id (moved id STATE_RECV_BODY s1) BODY_OPEN); [apply T2|by eapply turns_lookup|destruct s; simpl in *; by subst|done]|]. intros c2 T3.
  pose proof (turns_trans _ _ _ _ _ _ H4 (turns_trans _ _ _ _ _ _ T1 (turns_trans _ _ _ _ _ _ T2 T3))) as T4.
  eapply succeeds_bind; [apply (process_streaming_ok conf Hconf c0 c2 id s0 (set_hs_body_state BODY_OPEN (moved id STATE_RECV_BODY s1)))|]; auto; try (destruct s as [????????????[]]; simpl in *; by subst).
  - apply H1.
  - congruence.
  - by rewrite unlink_id.
  - destruct H6 as [G1 G2 G3 G7 G4 G5 G6 G8]. unfold s1. clear -G1 G2 G3 G4 G5 G8 P1 P3 P4 P5 P6 Hb.
    destruct s as [st sl bl r ra bs sd t p ow iw bu []]. unfold window_sum, buffered in *. simpl in *. subst.
    constructor; simpl; auto; [unfold phase; simpl; by split_and!|intros e [= <-]; apply prefix_nil].
  - intros c3 (K1 & K2 & _). rewrite unlink_id in K2 by done. by apply at_steady.
Qed.

Lemma turns_tunnel c id s :
  counters_ok c -> hc_streams c !! id = Some s -> is_streaming s = false -> turns c id (set_hs_is_tunnel_req s) (upd_stream id set_hs_is_tunnel_req c).
Proof.
  intros Hc Hs Hst. destruct (ct_stream _ Hc _ _ Hs) as [Hsl Hsd].
  constructor; [|by rewrite upd_streams, (alter_insert_some _ _ s)|apply upd_rest]. apply (upd_ok c id s); auto.
  - destruct s. by constructor.
  - by destruct s.
  - destruct s as [st sl b r ra bs sd t p ow iw bu q]. unfold share3, is_streaming in *. simpl in *. by rewrite Hst.
Qed.

Lemma good_tunnel id s : stream_good conf id s -> stream_good conf id (set_hs_is_tunnel_req s).
Proof. intros []. destruct s. by constructor. Qed.

Lemma receiving_tunnel c0 id s0 s c :
  receiving c0 id s0 s c -> receiving c0 id s0 (set_hs_is_tunnel_req s) (upd_stream id set_hs_is_tunnel_req c).
Proof.
  intros Hr. destruct (receiving_early _ _ _ _ _ Hr) as (P1 & P2 & P3 & _). destruct Hr as [H1 H2 H3 H4 H5 H6].
  constructor; auto; [|by destruct s|by apply good_tunnel]. eapply turns_trans; [exact H4|].
  apply turns_tunnel; [apply H4|by eapply turns_lookup|]. unfold is_streaming. by rewrite P3.
Qed.

Lemma good_input id s r : stream_good conf id s -> protocol_ok r -> stream_good conf id (set_hs_rx (set_rx_input r) s).
Proof. intros [] Hr. destruct s as [????????????[]]. by constructor. Qed.

Lemma receiving_input c0 id s0 s c r :
  receiving c0 id s0 s c -> protocol_ok r -> receiving c0 id s0 (set_hs_rx (set_rx_input r) s) (upd_stream id (set_hs_rx (set_rx_input r)) c).
Proof. intros Hr Hp. apply receiving_upd; [done|apply uncounted_rx|]. apply good_input; [exact (rc_good _ _ _ _ _ Hr)|done]. Qed.

(** A request that is complete, or whose body is awaited. *)
Lemma handle_request_ok c0 id s0 s c :
  receiving c0 id s0 s c ->
  handles_at (expect c0) (if bool_decide (rx_buf (hs_rx s) = None) then c ← execute_or_enqueue_request conf c id; done_ c
           else c ← h2o_http2_stream_set_state c id STATE_RECV_BODY; c ← set_req_body_state c id BODY_OPEN_BEFORE_FIRST_FRAME; done_ c).
Proof.
  intros Hr. destruct (receiving_early _ _ _ _ _ Hr) as (P1 & P2 & P3 & P4 & P5 & P6 & P7). case_bool_decide as Hb; [|by eapply await_body_ok].
  destruct Hr as [H1 H2 H3 H4 H5 H6]. apply at_then; [exact H1|].
  apply (execute_or_enqueue_ok conf Hconf c0 c id s0 s); auto; [apply H1|congruence].
Qed.

Lemma dispatch_request_ok c0 id s0 s c ret r is_connect :
  receiving c0 id s0 s c -> protocol_ok r -> ret = 0 \/ ret = H2O_HTTP2_ERROR_INVALID_HEADER_CHAR ->
  handles_at (expect c0) (dispatch_request conf c id ret r is_connect).
Proof.
  intros Hr Hpro Hret. unfold dispatch_request. rewrite (turns_lookup _ _ _ _ (rc_turns _ _ _ _ _ Hr)). cbn [mbind option_bind].
  destruct Hret as [-> | ->]; simpl (negb _); cbv iota; [|by eapply send_error_ok]. destruct is_connect.
  - destruct (_ || _) eqn:E; [by eapply send_error_ok|]. apply orb_false_iff in E as [_ E%bool_decide_eq_false].
    eapply process_immediately_ok; [by apply receiving_tunnel|by destruct s].
  - destruct (rq_expect r) as [expect|]; [|by eapply handle_request_ok].
    destruct (negb (h2o_lcstris _ _)); [by eapply send_error_ok|]. destruct (app_should_forward_expect c id) eqn:Ef.
    + eapply process_immediately_ok; [apply receiving_input; [done|]|].
      * by destruct r.
      * pose proof (app_forward_ok c id s Ef (turns_lookup _ _ _ _ (rc_turns _ _ _ _ _ Hr))) as Hb. by destruct s as [????????????[]].
    + eapply succeeds_bind; [apply request_write_ok|]. intros c1 Hq. eapply handle_request_ok.
      eapply receiving_quiet; [exact Hr|]. eapply quiet_trans; [apply quiet_buf|exact Hq].
Qed.

Lemma upgrade_ok r kind : protocol_ok r -> request_kind r = Some kind -> upgrade_asserted r = true.
Proof.
  intros Hp. unfold request_kind, upgrade_asserted. destruct (bool_decide (_ = lit "CONNECT")) eqn:E1.
  - apply bool_decide_eq_true in E1. rewrite E1. done.
  - destruct (decide (default [] (rq_method r) = lit "CONNECT-UDP")) as [E2|E2]; [|intros _; by rewrite (bool_decide_true (_ <> _))].
    rewrite (bool_decide_true (_ = lit "CONNECT-UDP")) by done. destruct (negb _) eqn:E3; [done|]. intros _.
    apply negb_false_iff, andb_true_iff in E3 as [E3%Z.eqb_eq _]. apply orb_true_iff. right. apply bool_decide_eq_true.
    destruct (rq_protocol r) eqn:Er; [|done]. exfalso. assert (Hb : Z.testbit (rq_map r) 4 = true) by (apply Hp; by rewrite Er).
    assert (Ht : Z.testbit (Z.land (rq_map r) H2O_HPACK_PARSE_HEADERS_PROTOCOL_EXISTS) 4 = true) by (rewrite Z.land_spec, Hb; done).
    rewrite E3 in Ht. done.
Qed.

Lemma handle_incoming_request_ok c id s src :
  open_ok c -> hc_streams c !! id = Some s -> hs_state s = STATE_RECV_HEADERS -> bytes_ok src -> handles_at (expect c) (handle_incoming_request conf c id src).
Proof.
  intros Ho Hs Hst Hsrc. pose proof (co_streams _ _ (op_conn _ Ho) _ _ Hs) as Hg. unfold handle_incoming_request. rewrite Hs. cbn [mbind option_bind].
  rewrite bool_decide_true by done. cbn [negb].
  destruct (parse_request_safe load_digests (io_input_header_table (hc_io c)) (RequestArgs true true false) true (rx_input (hs_rx s)) src
    (io_table _ (op_io _ Ho)) Hsrc (sg_request _ _ _ Hg)) as (r & table & ret & -> & Ht & Hp & Hret). cbn [mbind option_bind].
  assert (Ho1 : open_ok (upd_io (set_io_table table) c)).
  { apply open_io; [done|]. destruct Ho as [_ [I1 I2 I3 I4] _]. destruct c as [? ? ? ? ? ? ? ? ? ? ? ? ? ? ? ? ? ? []]. by constructor. }
  set (c1 := upd_io (set_io_table table) c) in *. assert (Hs1 : hc_streams c1 !! id = Some s) by (by destruct c).
  assert (Hr0 : receiving c1 id s s c1) by (constructor; auto; apply turns_refl; [apply Ho1|done]).
  pose proof (receiving_input _ _ _ _ _ r Hr0 Hp) as Hr1. set (c2 := upd_stream id _ c1) in *.
  replace (expect c) with (expect c1) by (by destruct c as [? ? ? ? ? ? ? ? ? ? ? ? ? ? ? ? ? ? []]).
  destruct (negb (ret =? 0) && _) eqn:E.
  - apply at_error; [exact Ho1| |apply steady_rest, Hr1|done|apply err_text_short].
    destruct Hr1 as [_ _ _ K4 K5 K6]. apply (conn_ok_kept conf c1 c2 id s _ (op_conn _ Ho1) Hs1 K4 K6); destruct s as [????????????[]]; auto.
  - assert (Hret' : ret = 0 \/ ret = H2O_HTTP2_ERROR_INVALID_HEADER_CHAR).
    { apply andb_false_iff in E as [E|E]; apply negb_false_iff, Z.eqb_eq in E; auto. }
    assert (Hp' : protocol_ok (fix_scheme r)) by (by destruct r).
    pose proof (receiving_input _ _ _ _ _ (fix_scheme r) Hr1 Hp') as Hr2. cbv zeta. destruct (request_kind (fix_scheme r)) as [[[is_connect must] may]|] eqn:Ek.
    + rewrite (upgrade_ok _ _ Hp' Ek). cbn [negb]. destruct (pseudo_headers_ok _ _ _); cbn [negb]; [|by eapply send_rst_stream_ok].
      destruct (_ <? _); [by eapply send_rst_stream_ok|]. by eapply dispatch_request_ok.
    + by eapply send_rst_stream_ok.
Qed.

(** ** Bodies *)

Definition body_open (s : h2stream) : Prop := hs_body_state s = BODY_OPEN_BEFORE_FIRST_FRAME \/ hs_body_state s = BODY_OPEN.

Lemma owing_zero id s : stream_good conf id s <-> owing conf 0 id s.
Proof. unfold owing, give_back. rewrite Z.add_0_r. by destruct s. Qed.

Lemma open_table table c : open_ok c -> table_ok table -> open_ok (upd_io (set_io_table table) c).
Proof.
  intros Ho Ht. apply open_io; [done|]. destruct Ho as [_ [I1 I2 I3 I4] _]. destruct c as [? ? ? ? ? ? ? ? ? ? ? ? ? ? ? ? ? ? []]. by constructor.
Qed.

Lemma handle_trailing_headers_ok c id s src :
  open_ok c -> hc_streams c !! id = Some s -> body_open s -> bytes_ok src -> handles_at (expect c) (handle_trailing_headers conf c id src).
Proof.
  intros Ho Hs Hbs Hsrc. pose proof (co_streams _ _ (op_conn _ Ho) _ _ Hs) as Hg. unfold handle_trailing_headers. rewrite Hs. cbn [mbind option_bind].
  destruct (rx_input (hs_rx s)) as [m sc a p pr h mp cl e d f err] eqn:Ein.
  destruct (parse_request_safe load_digests (io_input_header_table (hc_io c)) (RequestArgs false false false) false
    (Request None None None None None h 0 SIZE_MAX None [] None None) src (io_table _ (op_io _ Ho)) Hsrc ltac:(by intros [])) as (r & table & ret & -> & Ht & _ & Hret).
  cbn [mbind option_bind]. pose proof (open_table table c Ho Ht) as Ho1. set (c1 := upd_io (set_io_table table) c) in *.
  assert (Hs1 : hc_streams c1 !! id = Some s) by (by destruct c). set (r' := Request m sc a p pr (rq_headers r) mp cl e d f None).
  pose proof (turns_upd c1 id s _ (co_counters _ _ (op_conn _ Ho1)) Hs1 (uncounted_rx (set_rx_input r'))) as T. set (c2 := upd_stream _ _ c1) in *.
  assert (Hg1 : stream_good conf id (set_hs_rx (set_rx_input r') s)).
  { apply good_input; [done|]. pose proof (sg_request _ _ _ Hg) as Hp. by rewrite Ein in Hp. }
  replace (expect c) with (expect c1) by (by destruct c as [? ? ? ? ? ? ? ? ? ? ? ? ? ? ? ? ? ? []]).
  destruct (negb (ret =? 0)).
  - apply at_error; [exact Ho1| |apply steady_rest, T|done|apply err_text_short].
    apply (conn_ok_kept conf c1 c2 id s _ (op_conn _ Ho1) Hs1 T Hg1); destruct s; auto.
  - apply at_then; [exact Ho1|]. apply (handle_request_body_chunk_ok conf Hconf c1 c2 id s (set_hs_rx (set_rx_input r') s)); auto; try (by destruct s).
    + apply Ho1.
    + by apply open_not_closing.
    + by apply (proj1 (owing_zero _ _)).
Qed.

(** ** DATA *)

Record frame_ok (frame : h2o_http2_frame_t) : Prop := {
  fo_length : 0 <= f_length frame <= H2O_HTTP2_SETTINGS_HOST_MAX_FRAME_SIZE;
  fo_payload : len (f_payload frame) = f_length frame;
  fo_bytes : bytes_ok (f_payload frame);
  fo_id : 0 <= f_stream_id frame }.

Lemma data_payload_within frame payload :
  frame_ok frame -> h2o_http2_decode_data_payload frame = Ok payload -> 0 < f_stream_id frame /\ len payload <= f_length frame.
Proof.
  intros [F1 F2 F3 F4]. unfold h2o_http2_decode_data_payload. destruct (Z.eqb_spec (f_stream_id frame) 0); [done|].
  destruct (has_flag _ _).
  - destruct (f_length frame <? 1); [done|]. destruct (Z.ltb_spec (f_length frame) (1 + at_ (f_payload frame) 0)); [done|].
    intros [= <-]. split; [lia|]. pose proof (at_byte (f_payload frame) 0 F3) as Hb. unfold is_byte in Hb. unfold len in *. rewrite length_take. lia.
  - intros [= <-]. split; [lia|]. unfold len in *. rewrite length_take. lia.
Qed.

(** Only the window of the connection differs. *)
Definition same_streams (c c' : h2conn) : Prop :=
  hc_streams c' = hc_streams c /\ hc_pull_max_open c' = hc_pull_max_open c /\ expect c' = expect c.

(** The window of the connection is opened again when half of it is used. *)
Lemma conn_window_ok c n :
  open_ok c -> 0 <= n <= H2O_HTTP2_SETTINGS_HOST_MAX_FRAME_SIZE ->
  let avail := h2o_http2_window_consume_window (io_input_window (hc_io c)) n in
  succeeds (if avail <=? H2O_HTTP2_SETTINGS_HOST_CONNECTION_WINDOW_SIZE / 2 then
              '(c, avail) ← send_window_update c 0 avail (H2O_HTTP2_SETTINGS_HOST_CONNECTION_WINDOW_SIZE - avail);
              Some (upd_io (set_io_input_window avail) c)
            else Some (upd_io (set_io_input_window avail) c)) (fun c' => open_ok c' /\ same_streams c c').
Proof.
  intros Ho Hn avail. pose proof (io_window _ (op_io _ Ho)) as Hw. unfold avail, h2o_http2_window_consume_window. clear avail.
  assert (Hgo : forall c' w, open_ok c' -> H2O_HTTP2_SETTINGS_HOST_CONNECTION_WINDOW_SIZE / 2 < w <= H2O_HTTP2_SETTINGS_HOST_CONNECTION_WINDOW_SIZE ->
    open_ok (upd_io (set_io_input_window w) c')).
  { intros c' w Ho' Hw'. apply open_io; [done|]. destruct Ho' as [_ [I1 I2 I3 I4] _]. destruct c' as [? ? ? ? ? ? ? ? ? ? ? ? ? ? ? ? ? ? []]. by constructor. }
  change (H2O_HTTP2_SETTINGS_HOST_CONNECTION_WINDOW_SIZE / 2) with 8388608 in *. unfold H2O_HTTP2_SETTINGS_HOST_MAX_FRAME_SIZE, H2O_HTTP2_SETTINGS_HOST_CONNECTION_WINDOW_SIZE in *.
  destruct (Z.leb_spec (io_input_window (hc_io c) - n) 8388608).
  - eapply succeeds_bind; [apply send_window_update_ok; unfold INT32_MAX; lia|]. intros [c1 w] [Hq Hw1]. simpl in *. apply succeeds_some.
    split; [apply Hgo; [by eapply open_quiet|lia]|]. destruct Hq as (E1 & _ & _ & Hr). destruct (rest_links _ _ Hr) as (_ & _ & _ & _ & _ & E2 & _ & E3).
    unfold core_io in E3. injection E3 as E3. unfold same_streams, expect. by destruct c1 as [? ? ? ? ? ? ? ? ? ? ? ? ? ? ? ? ? ? []].
  - apply succeeds_some. split; [apply Hgo; [done|lia]|]. by destruct c as [? ? ? ? ? ? ? ? ? ? ? ? ? ? ? ? ? ? []].
Qed.

(** Octets of padding are given back at once. *)
Lemma padding_ok c id s length (payload : bytes) :
  open_ok c -> hc_streams c !! id = Some s -> 0 <= len payload <= length ->
  succeeds (let c := upd_stream id (set_hs_input_window (h2o_http2_window_consume_window (hs_input_window s) length) (hs_bytes_unnotified s)) c in
            if negb (length =? len payload) then update_stream_input_window c id (length - len payload) else Some c)
    (fun c' => exists w b, turns c id (set_hs_input_window w b s) c' /\ owing conf (len payload) id (set_hs_input_window w b s)).
Proof.
  intros Ho Hs Hl. pose proof (co_streams _ _ (op_conn _ Ho) _ _ Hs) as [G1 G2 G3 G7 G4 G5 G6 G8]. cbv zeta. destruct Hconf as [_ [Hw1 Hw2] _].
  unfold h2o_http2_window_consume_window.
  pose proof (turns_upd c id s _ (co_counters _ _ (op_conn _ Ho)) Hs (uncounted_input (hs_input_window s - length) (hs_bytes_unnotified s))) as T.
  assert (Howe : forall w b, w + b + len payload = hs_input_window s + hs_bytes_unnotified s -> 0 <= b -> owing conf (len payload) id (set_hs_input_window w b s)).
  { intros w b E Hb. unfold owing, give_back. destruct s as [st sl bl r ra bs sd t p ow iw bu q]. unfold window_sum, buffered, not_grown in *. simpl in *.
    constructor; simpl; auto; unfold window_sum, buffered, not_grown; simpl; [lia|]. intros H. rewrite <- (G6 H). lia. }
  destruct (Z.eqb_spec length (len payload)) as [E|_]; simpl.
  - apply succeeds_some. eexists _, _. split; [exact T|]. apply Howe; lia.
  - assert (0 <= buffered s) by (unfold buffered, len; lia). unfold window_sum in *.
    eapply succeeds_weaken; [apply (update_window_ok _ id _ (length - len payload) (tn_counters _ _ _ _ T) (turns_lookup _ _ _ _ T)); destruct s; simpl in *; lia|].
    intros c' (w & b & T2 & Hwb & Hb). exists w, b. pose proof (turns_trans _ _ _ _ _ _ T T2) as T3. split; [by destruct s|]. apply Howe; [|done]. destruct s; simpl in *; lia.
Qed.

Lemma handle_data_frame_ok c frame : open_ok c -> frame_ok frame -> handles (handle_data_frame conf c frame).
Proof.
  intros Ho Hf. unfold handle_data_frame. destruct (h2o_http2_decode_data_payload frame) as [payload|code desc] eqn:Ed.
  2:{ revert Ed. unfold h2o_http2_decode_data_payload. repeat case_match; intros [= <- <-]; by apply handles_error. }
  destruct (data_payload_within _ _ Hf Ed) as [Hid Hlen]. set (id := f_stream_id frame) in *. cbv zeta.
  eapply succeeds_bind; [apply conn_window_ok; [done|apply Hf]|]. intros c1 [Ho1 _]. clear c Ho. rename c1 into c, Ho1 into Ho.
  assert (Hn : 0 <= len payload) by (unfold len; lia). unfold h2o_http2_conn_get_stream. destruct (hc_streams c !! id) as [s|] eqn:Hs.
  2:{ destruct (_ <=? _); [|by apply handles_fails]. eapply handles_quiet; [exact Ho|]. apply stream_send_error_ok; [done|by apply open_not_closing]. }
  pose proof (co_counters _ _ (op_conn _ Ho)) as Hct. case_bool_decide as Hbs; cbn [negb].
  - eapply succeeds_bind; [by apply (padding_ok c id s (f_length frame) payload Ho Hs)|]. intros c1 (w & b & T & How).
    destruct (negb (is_nil payload) || has_flag frame H2O_HTTP2_FRAME_FLAG_END_STREAM) eqn:Eh.
    + eapply handles_then; [exact Ho|]. apply (handle_request_body_chunk_ok conf Hconf c c1 id s (set_hs_input_window w b s)); auto; try (by destruct s).
      * apply Ho.
      * by apply open_not_closing.
      * apply orb_true_iff in Eh as [Eh|Eh]; [left; by destruct payload|by right].
    + apply orb_false_iff in Eh as [Eh _]. destruct payload; [|done]. apply (proj2 (owing_zero _ _)) in How. apply handles_done.
      eapply open_steady; [exact Ho| |apply steady_rest, T]. apply (conn_ok_kept conf c c1 id s _ (op_conn _ Ho) Hs T How); destruct s; auto.
  - pose proof (turns_upd c id s _ Hct Hs uncounted_reset_action) as T.
    destruct (send_error_reset_ok conf Hconf c _ id s _ H2O_HTTP2_ERROR_STREAM_CLOSED (op_conn _ Ho) Hs T) as (c1 & E & H); [by destruct s| |by apply open_not_closing|].
    + intros _. pose proof (co_streams _ _ (op_conn _ Ho) _ _ Hs) as []. destruct s. by constructor.
    + destruct (stream_send_error _ _ _) as [c2|]; [|done]. cbn [mbind option_bind] in *. rewrite E. apply handles_done. by eapply open_ended.
Qed.
End Run.
