(* ===== verification/Http2ConnInput.v ===== *)
(** * From the octets of the socket to the handlers

    The remaining frame handlers, and the theorem that no input makes an open connection fail an assertion. *)
From S2P Require Import Prelude Strings Url Tokens HpackInt Huffman HeaderTable Headers Hpack HpackSafe HpackParse Http2Frame Http2Send.
From S2P Require Import Http2Streams Http2StreamsOk Http2StreamsRun Http2StreamsEnd Http2Conn Http2ConnOk Http2ConnRun.
From Stdlib Require Import ZArith Lia.
From stdpp Require Import base numbers option strings gmap functions list.
Open Scope Z_scope.

Section Input.
Variable conf : config.
Context {app : App} `{!AppOk conf app}.
Hypothesis Hconf : config_ok conf.

Notation open_ok := (open_ok conf).
Notation handles := (handles conf).

(** ** HEADERS *)

Lemma bytes_take n s : bytes_ok s -> bytes_ok (take n s).
Proof. apply Forall_take. Qed.
Lemma bytes_drop n s : bytes_ok s -> bytes_ok (drop n s).
Proof. apply Forall_drop. Qed.

Lemma headers_payload_ok frame p headers :
  frame_ok frame -> h2o_http2_decode_headers_payload frame = Ok (p, headers) -> 0 < f_stream_id frame /\ bytes_ok headers.
Proof.
  intros [F1 F2 F3 F4]. unfold h2o_http2_decode_headers_payload. destruct (Z.eqb_spec (f_stream_id frame) 0); [done|].
  intros H. split; [lia|]. revert H.
  assert (Hgo : forall src, bytes_ok src ->
    (if has_flag frame H2O_HTTP2_FRAME_FLAG_PRIORITY then if len src <? 5 then Err (-1) None else Ok (decode_priority src)
     else Ok (h2o_http2_default_priority, src)) = Ok (p, headers) -> bytes_ok headers).
  { intros src Hsrc. destruct (has_flag _ _); [|by intros [= _ <-]]. destruct (_ <? 5); [done|].
    unfold decode_priority. intros [= _ <-]. by repeat apply bytes_drop. }
  destruct (has_flag frame H2O_HTTP2_FRAME_FLAG_PADDED); [|by apply Hgo].
  destruct (f_payload frame) as [|padlen src]; [done|]. apply Forall_cons in F3 as [_ F3]. destruct (_ <? padlen); [done|]. apply Hgo. by apply bytes_take.
Qed.

Lemma headers_error frame code desc : h2o_http2_decode_headers_payload frame = Err code desc -> code <= 0 /\ short desc = true.
Proof. unfold h2o_http2_decode_headers_payload. intros H. repeat case_match; simplify_eq; done. Qed.

Lemma prepare_for_continuation_ok c headers : open_ok c -> bytes_ok headers -> handles (prepare_for_continuation c headers).
Proof.
  intros Ho Hh. apply handles_done, open_io; [done|]. destruct Ho as [_ [I1 I2 I3 I4] _]. destruct c as [? ? ? ? ? ? ? ? ? ? ? ? ? ? ? ? ? ? []].
  constructor; simpl in *; [done|done|by intros ? [= <-]|by eexists].
Qed.

(** The stream of a new request is there and has no request yet. *)
Lemma new_stream_ok c id :
  open_ok c -> 0 < id -> h2o_http2_stream_is_push id = false -> hc_pull_max_open c < id ->
  let c' := match h2o_http2_conn_get_stream c id with Some _ => c | None => h2o_http2_stream_open (set_received_any_request c) id end in
  open_ok c' /\ exists s, hc_streams c' !! id = Some s /\ hs_state s = STATE_IDLE.
Proof.
  intros Ho Hid Hpush Hmax c'. unfold c', h2o_http2_conn_get_stream. destruct (hc_streams c !! id) as [s|] eqn:Hs.
  - split; [done|]. exists s. split; [done|]. destruct (decide (hs_state s = STATE_IDLE)) as [|Hne]; [done|].
    pose proof (co_ids _ _ (op_conn _ _ Ho) id s (op_open _ _ Ho) Hpush Hs Hne). lia.
  - set (c1 := set_received_any_request c). assert (Hq : quiet c c1) by (by destruct c). pose proof (open_quiet _ _ _ Ho Hq) as Ho1.
    assert (Hs1 : hc_streams c1 !! id = None) by (by destruct c).
    destruct (stream_open_ok conf Hconf c1 id (op_conn _ _ Ho1) Hs1 Hid) as (H1 & H2 & s & H3 & H4 & _). split.
    + eapply open_steady; [exact Ho1|done|by apply steady_rest].
    + exists s. split; [by rewrite H3, lookup_insert_eq|done].
Qed.

Lemma odd_not_push id : Z.land id 1 <> 0 -> h2o_http2_stream_is_push id = false.
Proof. unfold h2o_http2_stream_is_push. change 1 with (Z.ones 1). rewrite Z.land_ones by lia. change (2 ^ 1) with 2. intros H. by apply Z.eqb_neq. Qed.

(** A container for the body. *)
Lemma init_body_ok c id s :
  open_ok c -> hc_streams c !! id = Some s -> hs_state s = STATE_RECV_HEADERS ->
  open_ok (upd_stream id (set_hs_rx (set_rx_buf (Some []))) c) /\
  exists s', hc_streams (upd_stream id (set_hs_rx (set_rx_buf (Some []))) c) !! id = Some s' /\ hs_state s' = STATE_RECV_HEADERS.
Proof.
  intros Ho Hs Hst. pose proof (co_streams _ _ (op_conn _ _ Ho) _ _ Hs) as Hg.
  pose proof (phase_early s (sg_phase _ _ _ Hg) ltac:(by rewrite Hst)) as (P1 & P2 & P3 & P4 & P5).
  pose proof (turns_upd c id s _ (co_counters _ _ (op_conn _ _ Ho)) Hs (uncounted_rx (set_rx_buf (Some [])))) as T. split.
  - eapply open_steady; [exact Ho| |apply steady_rest, T]. apply (conn_ok_kept conf c _ id s _ (op_conn _ _ Ho) Hs T); try (destruct s; auto; fail).
    destruct Hg as [G1 G2 G3 G7 G4 G5 G6 G8]. destruct s as [st sl bl r ra bs sd t p ow iw bu []]. unfold window_sum, buffered, not_grown in *. simpl in *. subst.
    rewrite P5 in *. constructor; simpl; auto. unfold phase. simpl. by split_and!.
  - eexists. split; [by eapply turns_lookup|]. by destruct s.
Qed.

Lemma handle_headers_frame_ok c frame : open_ok c -> frame_ok frame -> handles (handle_headers_frame conf c frame).
Proof.
  intros Ho Hf. unfold handle_headers_frame. destruct (h2o_http2_decode_headers_payload frame) as [[priority headers]|code desc] eqn:Ed.
  2:{ by apply handles_error; [|eapply headers_error..]. }
  destruct (headers_payload_ok _ _ _ Hf Ed) as [Hid Hh]. set (id := f_stream_id frame) in *.
  destruct (Z.eqb_spec (Z.land id 1) 0) as [|Hodd]; [by apply handles_fails|]. apply odd_not_push in Hodd. destruct (Z.leb_spec id (hc_pull_max_open c)) as [|Hmax].
  - unfold h2o_http2_conn_get_stream. destruct (hc_streams c !! id) as [s|] eqn:Hs; [|by apply handles_fails]. case_bool_decide as Hbs; cbn [negb]; [|by apply handles_fails].
    destruct (hs_is_tunnel_req s); [by apply handles_fails|]. destruct (negb _); [by apply handles_fails|].
    destruct (negb _); [by apply prepare_for_continuation_ok|by eapply handles_any, (handle_trailing_headers_ok conf Hconf c id s)].
  - destruct (id =? dependency priority); [by apply handles_fails|].
    destruct (new_stream_ok c id Ho Hid Hodd Hmax) as (Ho1 & s1 & Hs1 & Hst1). set (c1 := match h2o_http2_conn_get_stream c id with Some _ => _ | None => _ end) in *.
    eapply succeeds_bind; [by apply (prepare_for_request_ok conf c1 id s1 (op_conn _ _ Ho1) Hs1 Hst1), (open_not_closing conf)|].
    intros c2 (H1 & _ & H3 & H4 & _ & w & H6). assert (Ho2 : open_ok c2).
    { constructor; [done|eapply io_ok_core; [exact H4|apply Ho1]|rewrite H3; apply Ho1]. }
    assert (Hs2 : hc_streams c2 !! id = Some (set_hs_output_window w (moved id STATE_RECV_HEADERS s1))) by (by rewrite H6, lookup_insert_eq).
    set (c3 := if negb (has_flag frame H2O_HTTP2_FRAME_FLAG_END_STREAM) then _ else c2).
    assert (H : open_ok c3 /\ exists s', hc_streams c3 !! id = Some s' /\ hs_state s' = STATE_RECV_HEADERS).
    { unfold c3. destruct (negb _); [apply (init_body_ok c2 id _ Ho2 Hs2); by destruct s1|]. split; [done|]. eexists. split; [done|]. by destruct s1. }
    destruct H as (Ho3 & s3 & Hs3 & Hst3). destruct (has_flag frame H2O_HTTP2_FRAME_FLAG_END_HEADERS); [|by apply prepare_for_continuation_ok].
    by eapply handles_any, (handle_incoming_request_ok conf Hconf c3 id s3).
Qed.

(** ** The other frames *)

Lemma handle_priority_frame_ok c frame : open_ok c -> frame_ok frame -> handles (handle_priority_frame conf c frame).
Proof.
  intros Ho Hf. unfold handle_priority_frame. destruct (h2o_http2_decode_priority_payload frame) as [payload|code desc] eqn:Ed; revert Ed;
    unfold h2o_http2_decode_priority_payload; destruct (Z.eqb_spec (f_stream_id frame) 0) as [|Hid]; try discriminate;
    [|intros [= <- <-]; by apply handles_error|destruct (negb _); [intros [= <- <-]; by apply handles_error|discriminate]].
  intros _. destruct (_ =? dependency _); [by apply handles_fails|]. unfold h2o_http2_conn_get_stream.
  destruct (hc_streams c !! f_stream_id frame) eqn:Hs; [by apply handles_done|]. destruct (h2o_http2_stream_is_push _); [by apply handles_done|].
  destruct (_ <=? hc_pull_max_open c); [by apply handles_done|]. destruct (_ <=? _); [by apply handles_fails|]. apply handles_done.
  destruct (stream_open_ok conf Hconf c _ (op_conn _ _ Ho) Hs) as (H1 & H2 & _); [pose proof (fo_id _ Hf); lia|].
  eapply open_steady; [exact Ho|done|by apply steady_rest].
Qed.

Lemma resume_send_ok c : open_ok c -> succeeds (resume_send c) open_ok.
Proof.
  intros Ho. unfold resume_send. destruct (_ <=? 0); [by apply succeeds_some|]. pose proof (request_write_ok c) as H. unfold h2o_http2_conn_request_write in H.
  rewrite bool_decide_false in H by (by apply (open_not_closing conf)). eapply succeeds_weaken; [exact H|]. intros c' Hq. by eapply open_quiet.
Qed.

(** The windows for responses do not matter to the books. *)
Lemma good_output id w s : stream_good conf id s -> stream_good conf id (set_hs_output_window w s).
Proof. intros []. destruct s. by constructor. Qed.

Lemma output_window_conn_ok c id s w :
  conn_ok conf c -> hc_streams c !! id = Some s -> conn_ok conf (upd_stream id (fun _ => set_hs_output_window w s) c).
Proof.
  intros Hc Hs. assert (E : upd_stream id (fun _ => set_hs_output_window w s) c = upd_stream id (set_hs_output_window w) c).
  { unfold upd_stream. by rewrite !(alter_insert_some _ _ s). }
  rewrite E. pose proof (turns_upd c id s _ (co_counters _ _ Hc) Hs (uncounted_output w)) as T.
  apply (conn_ok_kept conf c _ id s _ Hc Hs T); try (destruct s; auto; fail). by apply good_output, (co_streams _ _ Hc).
Qed.

Lemma reset_and_tell_ok c id err : open_ok c -> 0 < id -> handles (reset_and_tell conf c id err).
Proof.
  intros Ho Hid. unfold reset_and_tell, h2o_http2_conn_get_stream. eapply (succeeds_bind _ _ open_ok).
  - destruct (hc_streams c !! id) as [s|] eqn:Hs; [|by apply succeeds_some].
    pose proof (turns_upd c id s _ (co_counters _ _ (op_conn _ _ Ho)) Hs uncounted_reset_action) as T.
    eapply succeeds_weaken; [apply (reset_turned conf Hconf c _ id s _ (op_conn _ _ Ho) Hs T); [by destruct s|]|intros c' H; by eapply open_ended].
    intros _. pose proof (co_streams _ _ (op_conn _ _ Ho) _ _ Hs) as []. destruct s. by constructor.
  - intros c1 Ho1. eapply handles_quiet; [exact Ho1|]. apply stream_send_error_ok; [done|by apply (open_not_closing conf)].
Qed.

Lemma handle_window_update_frame_ok c frame : open_ok c -> frame_ok frame -> handles (handle_window_update_frame conf c frame).
Proof.
  intros Ho Hf. unfold handle_window_update_frame.
  assert (Hres : forall c', open_ok c' -> handles (c ← resume_send c'; done_ c)).
  { intros c' Ho'. eapply succeeds_bind; [by apply resume_send_ok|]. intros c1 Ho1. by apply handles_done. }
  destruct (h2o_http2_decode_window_update_payload frame) as [[increment|code desc] level] eqn:Ed.
  - destruct (f_stream_id frame =? 0).
    + destruct (h2o_http2_window_update _ _) as [avail ret]. destruct (negb _); [by apply handles_fails|]. apply Hres, open_io; [done|].
      destruct Ho as [_ [I1 I2 I3 I4] _]. destruct c as [? ? ? ? ? ? ? ? ? ? ? ? ? ? ? ? ? ? []]. by constructor.
    + destruct (negb _) eqn:Ei; [|by apply handles_fails]. unfold h2o_http2_conn_get_stream.
      destruct (hc_streams c !! f_stream_id frame) as [s|] eqn:Hs; [|by apply Hres]. unfold update_stream_output_window.
      destruct (h2o_http2_window_update _ _) as [avail ret]. destruct (negb (ret =? 0)).
      * apply reset_and_tell_ok; [done|by eapply (stream_id_pos conf); [apply Ho|]].
      * apply Hres. eapply open_steady; [exact Ho|by apply output_window_conn_ok; [apply Ho|]|]. apply steady_rest, upd_rest.
  - revert Ed. unfold h2o_http2_decode_window_update_payload. destruct (negb _); [intros [= <- <- <-]; by apply handles_error|].
    destruct (_ =? 0); [|done]. intros [= <- <- <-]. destruct (Z.eqb_spec (f_stream_id frame) 0); cbn [negb]; [by apply handles_error|].
    apply reset_and_tell_ok; [done|]. pose proof (fo_id _ Hf). lia.
Qed.

Lemma handle_goaway_frame_ok c frame : open_ok c -> handles (handle_goaway_frame c frame).
Proof.
  intros Ho. unfold handle_goaway_frame, h2o_http2_decode_goaway_payload. destruct (negb _); [by apply handles_error|]. destruct (_ <? 8); [by apply handles_error|].
  apply handles_done. constructor; [|eapply io_ok_core; [|apply Ho]; by destruct c|destruct Ho as [_ _ E]; by destruct c].
  apply max_open_ok; [apply Ho|done].
Qed.

Lemma handle_ping_frame_ok c frame : open_ok c -> handles (handle_ping_frame c frame).
Proof.
  intros Ho. unfold handle_ping_frame, h2o_http2_decode_ping_payload. destruct (negb _); [by apply handles_error|]. destruct (negb _); [by apply handles_error|].
  destruct (negb _); [|by apply handles_done]. unfold h2o_http2_encode_ping_frame, allocate_frame, h2o_http2_encode_frame_header.
  rewrite (proj2 (Z.ltb_ge _ _)) by (unfold len; rewrite length_take; lia). cbn [mbind option_bind].
  eapply handles_quiet; [exact Ho|]. eapply succeeds_weaken; [apply request_write_ok|]. intros c' Hq. eapply quiet_trans; [apply quiet_buf|exact Hq].
Qed.

Lemma handle_rst_stream_frame_ok c frame : open_ok c -> frame_ok frame -> handles (handle_rst_stream_frame conf c frame).
Proof.
  intros Ho Hf. unfold handle_rst_stream_frame, h2o_http2_decode_rst_stream_payload. destruct (_ =? 0); [by apply handles_error|].
  destruct (negb _); [by apply handles_error|]. destruct (is_idle_stream_id _ _); [by apply handles_fails|]. unfold h2o_http2_conn_get_stream.
  destruct (hc_streams c !! f_stream_id frame) as [s|] eqn:Hs; [|by apply handles_done]. eapply handles_then; [exact Ho|].
  pose proof (turns_upd c _ s _ (co_counters _ _ (op_conn _ _ Ho)) Hs uncounted_reset) as T.
  apply (reset_turned conf Hconf c _ _ s _ (op_conn _ _ Ho) Hs T); [by destruct s|].
  intros _. pose proof (co_streams _ _ (op_conn _ _ Ho) _ _ Hs) as []. destruct s. by constructor.
Qed.

(** ** SETTINGS *)

Lemma count_fmap P f m : (forall s, P (f s) = P s) -> count P (f <$> m) = count P m.
Proof.
  intros Hf. induction m as [|id s m Hn IH] using map_ind; [by rewrite fmap_empty|].
  rewrite fmap_insert, !count_insert_new by (rewrite ?lookup_fmap, ?Hn; done). by rewrite Hf, IH.
Qed.

(** A change of all streams that does not matter to the books. *)
Lemma conn_ok_fmap c f :
  conn_ok conf c -> (forall s, exists w, f s = set_hs_output_window w s) -> conn_ok conf (set_streams (f <$> hc_streams c) c).
Proof.
  intros [[C1 C2 C3 C4 C5] [L1 L2 L3 L4] H3 H4 H5] Hf. set (c' := set_streams _ c).
  assert (V : hc_streams c' = f <$> hc_streams c /\ hc_num c' = hc_num c /\ others c' = others c /\ rest c' = rest c) by (by destruct c).
  destruct V as (Vm & Vn & Vo & Vr). destruct (rest_links _ _ Vr) as (Rl & Rp & _ & Rs & Rb & Rm & _). apply others_eq in Vo as (O1 & O2 & O3).
  assert (Hl : forall id s, hc_streams c' !! id = Some s -> exists s0 w, hc_streams c !! id = Some s0 /\ s = set_hs_output_window w s0).
  { intros id s. rewrite Vm, lookup_fmap. destruct (hc_streams c !! id) as [s0|]; [|done]. intros [= <-]. destruct (Hf s0) as [w ->]. eauto. }
  assert (Hc : forall P, (forall w s, P (set_hs_output_window w s) = P s) -> count P (hc_streams c') = count P (hc_streams c)).
  { intros P HP. rewrite Vm. apply count_fmap. intros s. destruct (Hf s) as [w ->]. apply HP. }
  constructor; [| |by rewrite Rb|..].
  - constructor.
    + intros k. rewrite Vn, C1. unfold counted. f_equal; symmetry; apply Hc; intros w []; done.
    + rewrite O1, C2. symmetry. apply Hc. by intros w [].
    + rewrite O2, C3. symmetry. apply Hc. by intros w [].
    + rewrite O3, C4. symmetry. apply Hc. by intros w [].
    + intros id s Hs. destruct (Hl _ _ Hs) as (s0 & w & Hs0 & ->). destruct (C5 _ _ Hs0). destruct s0. by constructor.
  - constructor; rewrite ?Rl, ?Rp; auto.
    + intros id Hin. destruct (L2 _ Hin) as (s0 & Hs0 & Hk). exists (f s0). rewrite Vm, lookup_fmap, Hs0. split; [done|]. destruct (Hf s0) as [w ->]. by destruct s0.
    + intros id s Hin Hs. destruct (Hl _ _ Hs) as (s0 & w & Hs0 & ->). pose proof (L3 _ _ Hin Hs0). by destruct s0.
    + intros id s Hs Hq. destruct (Hl _ _ Hs) as (s0 & w & Hs0 & ->). apply (L4 _ _ Hs0). by destruct s0.
  - intros id s Hs. destruct (Hl _ _ Hs) as (s0 & w & Hs0 & ->). by apply good_output, H4.
  - intros id s Hop Hpush Hs Hni. destruct (Hl _ _ Hs) as (s0 & w & Hs0 & ->). rewrite Rm. apply (H5 id s0); auto; [congruence|by destruct s0].
Qed.

Lemma settings_code settings src settings' ret desc : h2o_http2_update_peer_settings settings src = (settings', ret, desc) -> ret <= 0 /\ short desc = true.
Proof.
  unfold h2o_http2_update_peer_settings. generalize (S (length src)) as fuel. intros fuel. revert settings src.
  induction fuel as [|fuel IH]; intros settings src; simpl; [by intros [= _ <- <-]|]. destruct (_ <=? _).
  - destruct (apply_setting _ _ _) as [s|code d] eqn:E; [apply IH|]. intros [= _ <- <-]. revert E. unfold apply_setting, set_setting. destruct settings.
    repeat case_match; intros; simplify_eq; done.
  - destruct (negb _); by intros [= _ <- <-].
Qed.

Lemma handle_settings_frame_ok c frame : open_ok c -> handles (handle_settings_frame c frame).
Proof.
  intros Ho. unfold handle_settings_frame. destruct (negb _); [by apply handles_fails|]. destruct (has_flag _ _).
  { destruct (negb _); [by apply handles_fails|by apply handles_done]. }
  destruct (h2o_http2_update_peer_settings _ _) as [[settings ret] desc] eqn:Eu. apply settings_code in Eu as [Eu Ed].
  assert (Ho1 : open_ok (upd_io (set_io_settings settings) c)).
  { apply open_io; [done|]. destruct Ho as [_ [I1 I2 I3 I4] _]. destruct c as [? ? ? ? ? ? ? ? ? ? ? ? ? ? ? ? ? ? []]. by constructor. }
  destruct (negb (ret =? 0)); [by apply handles_error|]. 
  destruct (h2o_http2_encode_frame_header _ _ _ _) as [header|] eqn:Eh; [|discriminate Eh]. cbn [mbind option_bind].
  eapply succeeds_bind; [apply request_write_ok|]. intros c1 Hq.
  assert (Ho2 : open_ok c1) by (eapply open_quiet; [exact Ho1|]; eapply quiet_trans; [apply quiet_buf|exact Hq]).
  destruct (negb _); [|by apply handles_done]. eapply succeeds_bind; [apply resume_send_ok|intros c2 Ho3; by apply handles_done].
  eapply open_steady; [exact Ho2|apply conn_ok_fmap; [apply Ho2|]|by destruct c1].
  intros s. unfold update_stream_output_window. destruct (h2o_http2_window_update _ _) as [w r]. by exists w.
Qed.

(** ** Reading *)

Lemma frame_result_ok n r : handles r -> 9 <= n -> succeeds (frame_result n r) (fun x => open_ok x.1.1 /\ (x.1.2 < 0 \/ x.1.2 = n) /\ short x.2 = true).
Proof.
  intros ([[c ret] desc] & -> & Ho & Hr & Hd) Hn. simpl in *. apply succeeds_some. simpl. split_and!; [done| |done]. destruct (Z.eqb_spec ret 0); [by right|left; lia].
Qed.

(** What each reader does: an error, or a part of the input consumed. *)
Definition reads (src : bytes) (m : option handled) : Prop := succeeds m (fun x => open_ok x.1.1 /\ (x.1.2 < 0 \/ 0 < x.1.2 <= len src) /\ short x.2 = true).

Lemma decode_frame_error src max code desc : h2o_http2_decode_frame src max = Err code desc -> code < 0 /\ desc = None.
Proof. unfold h2o_http2_decode_frame. repeat case_match; intros; simplify_eq; done. Qed.

Lemma decoded_frame_ok src frame n :
  bytes_ok src -> h2o_http2_decode_frame src H2O_HTTP2_SETTINGS_HOST_MAX_FRAME_SIZE = Ok (frame, n) -> frame_ok frame /\ 9 <= n <= len src.
Proof.
  intros Hs Hd. destruct (decode_frame_ok _ _ _ _ Hs Hd) as (H1 & H2 & H3 & H4 & H5 & _). split; [|lia]. constructor; auto; [|lia].
  revert Hd. unfold h2o_http2_decode_frame. repeat case_match; intros; simplify_eq. by apply bytes_take, bytes_drop.
Qed.

Lemma expect_default_ok c src : open_ok c -> bytes_ok src -> reads src (expect_default conf c src).
Proof.
  intros Ho Hs. unfold expect_default. destruct (h2o_http2_decode_frame _ _) as [[frame n]|code desc] eqn:Ed.
  2:{ apply decode_frame_error in Ed as [? ->]. apply succeeds_some. split_and!; [done|by left|done]. }
  destruct (decoded_frame_ok _ _ _ Hs Ed) as [Hf Hn].
  assert (Hh : forall h, FRAME_HANDLERS conf !! Z.to_nat (f_type frame) = Some h -> handles (h c frame)).
  { intros h Hh. apply list_elem_of_lookup_2 in Hh. unfold FRAME_HANDLERS in Hh. rewrite !elem_of_cons in Hh.
    destruct Hh as [->|[->|[->|[->|[->|[->|[->|[->|[->|[->|[]%elem_of_nil]]]]]]]]]];
      auto using handle_data_frame_ok, handle_headers_frame_ok, handle_priority_frame_ok, handle_rst_stream_frame_ok, handle_settings_frame_ok,
        handle_ping_frame_ok, handle_goaway_frame_ok, handle_window_update_frame_ok; by apply handles_fails. }
  destruct (FRAME_HANDLERS conf !! _) as [h|] eqn:Eh; [|apply succeeds_some; split_and!; [done|right; simpl; lia|done]].
  eapply succeeds_weaken; [by apply frame_result_ok; [apply Hh|lia]|]. intros x (H1 & H2 & H3). split_and!; [done|lia|done].
Qed.

Lemma open_expect x u c : open_ok c -> bytes_ok u -> open_ok (upd_io (set_io_expect x (Some u)) c).
Proof.
  intros Ho Hu. apply open_io; [done|]. destruct Ho as [_ [I1 I2 I3 I4] _]. destruct c as [? ? ? ? ? ? ? ? ? ? ? ? ? ? ? ? ? ? []].
  constructor; simpl in *; [done|done|by intros ? [= <-]|by eexists].
Qed.

(** A stream in this state awaits its body. *)
Lemma recv_body_open s : phase s -> hs_state s = STATE_RECV_BODY -> body_open s.
Proof.
  unfold phase, body_open. intros Hp E. rewrite E in Hp. destruct (hs_body_state s); auto.
  - by destruct Hp as (_ & _ & ? & _).
  - destruct Hp as (_ & _ & _ & _ & ?). simpl in *. lia.
  - destruct Hp as (_ & ?). simpl in *. lia.
Qed.

Lemma expect_continuation_ok c src :
  open_ok c -> expect c = EXPECT_CONTINUATION -> bytes_ok src -> reads src (expect_continuation_of_headers conf c src).
Proof.
  intros Ho He Hs. unfold expect_continuation_of_headers. destruct (h2o_http2_decode_frame _ _) as [[frame n]|code desc] eqn:Ed.
  2:{ apply decode_frame_error in Ed as [? ->]. apply succeeds_some. split_and!; [done|by left|done]. }
  destruct (decoded_frame_ok _ _ _ Hs Ed) as [Hf Hn]. assert (Hfail : forall desc, short (Some desc) = true -> reads src (fails c H2O_HTTP2_ERROR_PROTOCOL desc)).
  { intros desc Hd. apply succeeds_some. split_and!; [done|by left|done]. }
  destruct (negb _); [by apply Hfail|]. unfold h2o_http2_conn_get_stream. destruct (hc_streams c !! f_stream_id frame) as [s|] eqn:Hst; [|by apply Hfail].
  case_bool_decide as Hstate; cbn [negb]; [|by apply Hfail]. destruct (io_continues _ (op_io _ _ Ho) He) as [u Hu]. rewrite Hu. cbn [mbind option_bind].
  assert (Hub : bytes_ok (u ++ f_payload frame)) by (apply Forall_app; split; [by apply (io_unparsed _ (op_io _ _ Ho))|apply Hf]).
  destruct (_ <=? H2O_MAX_REQLEN); [destruct (has_flag _ _)|].
  - pose proof (open_expect EXPECT_DEFAULT _ c Ho Hub) as Ho1. set (c1 := upd_io _ c) in *.
    assert (Hst1 : hc_streams c1 !! f_stream_id frame = Some s) by (by destruct c).
    assert (Hm : handles_at conf EXPECT_DEFAULT
      (if bool_decide (hs_state s = STATE_RECV_HEADERS) then handle_incoming_request conf c1 (f_stream_id frame) (u ++ f_payload frame)
       else handle_trailing_headers conf c1 (f_stream_id frame) (u ++ f_payload frame))).
    { replace EXPECT_DEFAULT with (expect c1) by (by destruct c as [? ? ? ? ? ? ? ? ? ? ? ? ? ? ? ? ? ? []]). case_bool_decide as Eh.
      - by apply (handle_incoming_request_ok conf Hconf c1 _ s).
      - apply (handle_trailing_headers_ok conf Hconf c1 _ s); auto. apply recv_body_open; [by apply (sg_phase _ _ _ (co_streams _ _ (op_conn _ _ Ho) _ _ Hst))|by destruct Hstate]. }
    destruct Hm as ([[c2 ret] desc] & -> & Ho2 & Hret & Hd & He2). simpl in *. apply succeeds_some. simpl. split_and!; [|destruct (Z.eqb_spec ret 0); lia|done].
    apply open_io; [done|]. destruct Ho2 as [_ [I1 I2 I3 I4] _]. unfold expect in He2. destruct c2 as [? ? ? ? ? ? ? ? ? ? ? ? ? ? ? ? ? ? []].
    constructor; simpl in *; [done|done|done|congruence].
  - apply succeeds_some. simpl. split_and!; [by apply open_expect|lia|done].
  - destruct (send_error_reset_ok conf Hconf c c _ s s H2O_HTTP2_ERROR_REFUSED_STREAM (op_conn _ _ Ho) Hst) as (c1 & E & H); auto.
    + apply turns_refl; [apply Ho|done].
    + intros _. by apply (co_streams _ _ (op_conn _ _ Ho)).
    + by apply (open_not_closing conf).
    + destruct (stream_send_error _ _ _) as [c2|]; [|done]. cbn [mbind option_bind] in *. rewrite E. apply succeeds_some. simpl.
      split_and!; [by eapply open_ended|lia|done].
Qed.

Lemma expect_preface_ok c src : open_ok c -> reads src (expect_preface conf c src).
Proof.
  intros Ho. unfold expect_preface. destruct (Z.ltb_spec (len src) (len CONNECTION_PREFACE)); [apply succeeds_some; split_and!; [done|by left|done]|].
  destruct (negb _); [apply succeeds_some; split_and!; [done|by left|done]|]. unfold enqueue_server_preface.
  eapply (succeeds_bind _ _ (quiet c)).
  { unfold h2o_http2_encode_settings_frame, allocate_frame at 1, h2o_http2_encode_frame_header. simpl (_ <? _). cbv iota. cbn [mbind option_bind].
    apply succeeds_some. by destruct c. }
  intros c1 Hq1. eapply (succeeds_bind _ _ (quiet c)).
  { destruct (http2_origin_frame conf) as [origin|] eqn:E; [|by apply succeeds_some]. pose proof (cf_origin _ Hconf _ E) as Hl.
    unfold h2o_http2_encode_origin_frame, allocate_frame, h2o_http2_encode_frame_header. rewrite (proj2 (Z.ltb_ge _ _)) by lia. cbn [mbind option_bind].
    apply succeeds_some. eapply quiet_trans; [exact Hq1|apply quiet_buf]. }
  intros c2 Hq2. eapply succeeds_bind; [apply request_write_ok|]. intros c3 Hq3. apply succeeds_some. simpl.
  pose proof (open_quiet _ _ _ Ho (quiet_trans _ _ _ Hq2 Hq3)) as Ho3. split_and!; [|right; change (len CONNECTION_PREFACE) with 24 in *; lia|done].
  apply open_io; [done|]. destruct Ho3 as [_ [I1 I2 I3 I4] _]. destruct c3 as [? ? ? ? ? ? ? ? ? ? ? ? ? ? ? ? ? ? []]. by constructor.
Qed.

Lemma run_read_expect_ok c src : open_ok c -> bytes_ok src -> reads src (run_read_expect conf c src).
Proof.
  intros Ho Hs. unfold run_read_expect. destruct (io_read_expect (hc_io c)) eqn:E;
    [by apply expect_preface_ok|by apply expect_default_ok|by apply expect_continuation_ok].
Qed.

(** ** The end of a connection because of an error *)

Lemma state_ok x c : conn_ok conf c -> x <> CONN_OPEN -> conn_ok conf (set_conn_state x c).
Proof.
  intros [Hct [L1 L2 L3 L4] Hb Hst Hid] Hx. destruct c. simpl in *.
  constructor; simpl; auto; [by apply (counters_view _ _ Hct)|by constructor|done].
Qed.

Lemma enqueue_goaway_ok c errnum data :
  conn_ok conf c -> len data <= 0xffff -> succeeds (enqueue_goaway c errnum data) (fun c' => conn_ok conf c' /\ (hc_state c = CONN_OPEN -> hc_state c' = CONN_HALF_CLOSED)).
Proof.
  intros Hc Hd. unfold enqueue_goaway. destruct (Z.ltb_spec (conn_rank (hc_state c)) (conn_rank CONN_IS_CLOSING)) as [Hlt|Hge].
  - unfold h2o_http2_encode_goaway_frame, allocate_frame, h2o_http2_encode_frame_header.
    rewrite (proj2 (Z.ltb_ge _ _)) by (unfold len in *; rewrite !length_app; simpl; lia). cbn [mbind option_bind].
    eapply succeeds_bind; [apply request_write_ok|]. intros c1 Hq. apply succeeds_some. split; [|by destruct c1].
    apply state_ok; [|done]. eapply conn_ok_quiet; [exact Hc|]. eapply quiet_trans; [apply quiet_buf|exact Hq].
  - apply succeeds_some. split; [done|]. intros E. rewrite E in Hge. simpl in Hge. lia.
Qed.

(** How parsing may leave the connection: open, with its input used up to an incomplete frame; closing, until what is to
    be written has been written; or gone. *)
Definition parsed (input : bytes) (r : h2conn * bytes * Z) : Prop :=
  r.1.2 `suffix_of` input /\
  (open_ok r.1.1 /\ r.2 = 0 \/
   conn_ok conf r.1.1 /\ hc_state r.1.1 = CONN_IS_CLOSING /\ r.2 = 0 \/
   hc_streams r.1.1 = ∅ /\ r.2 = -1).

Lemma length_lit s : length (lit s) = String.length s.
Proof. induction s; simpl; auto. Qed.

Lemma short_text desc : short desc = true -> len (from_option lit [] desc) <= 0xffff.
Proof.
  destruct desc as [d|]; [|done]. unfold short. intros H%Nat.ltb_lt. simpl. unfold len. rewrite length_lit. lia.
Qed.

Lemma parse_input_loop_ok fuel : forall c input,
  open_ok c -> bytes_ok input -> (length input <= fuel)%nat -> succeeds (parse_input_loop conf fuel c input) (parsed input).
Proof.
  induction fuel as [|fuel IH]; intros c input Ho Hin Hf.
  { destruct input; [|simpl in Hf; lia]. simpl. rewrite andb_false_r. apply succeeds_some. split; [done|]. by left. }
  simpl. destruct (_ && _) eqn:E; [|apply succeeds_some; split; [done|by left]].
  eapply succeeds_bind; [by apply run_read_expect_ok|]. intros [[c1 ret] desc] (Ho1 & Hret & Hd). simpl in Ho1, Hret, Hd.
  destruct (ret =? H2O_HTTP2_ERROR_INCOMPLETE); [apply succeeds_some; split; [done|by left]|].
  destruct (Z.ltb_spec ret 0).
  - eapply (succeeds_bind _ _ (conn_ok conf)).
    { destruct (ret =? H2O_HTTP2_ERROR_PROTOCOL_CLOSE_IMMEDIATELY); cbn [negb]; [apply succeeds_some, Ho1|]. eapply succeeds_weaken; [apply (enqueue_goaway_ok c1); [apply Ho1|by apply short_text]|]. by intros c2 [? _]. }
    intros c2 Hc2. eapply succeeds_bind; [by apply (close_connection_ok conf Hconf c2)|]. intros [c3 gone] Hg. simpl in Hg. apply succeeds_some.
    split; [done|]. right. destruct gone; [by right|left]. subst c3. split_and!; [by apply closing_ok|by destruct c2|done].
  - destruct Hret as [|[H1 H2]]; [lia|]. eapply succeeds_weaken; [apply IH; [done|by apply bytes_drop|rewrite length_drop; unfold len in *; lia]|].
    intros r [Hs Hr]. split; [|done]. etrans; [exact Hs|]. apply suffix_drop.
Qed.

Lemma parse_input_ok c input : open_ok c -> bytes_ok input -> succeeds (parse_input conf c input) (parsed input).
Proof. intros. by apply parse_input_loop_ok. Qed.

Lemma create_conn_ok : open_ok (create_conn conf).
Proof.
  constructor; [|constructor|done].
  - constructor; simpl; [|by constructor; [constructor|set_solver..]| |by intros ?? ?%lookup_empty_Some|by intros ???? ?%lookup_empty_Some].
    + constructor; simpl; try done.
    + pose proof (cf_requests _ Hconf). lia.
  - done.
  - by apply table_ok_empty.
  - done.
  - done.
Qed.
End Input.
