(* ===== verification/Http2ConnBody.v ===== *)
(** * The body of a request arrives whole

    A request whose body is not streamed is handed on when it is complete, with the octets of all its DATA frames. *)
From S2P Require Import Prelude HpackInt HeaderTable HpackParse Http2Frame Http2Send.
From S2P Require Import Http2Streams Http2StreamsOk Http2StreamsRun Http2StreamsEnd Http2Conn Http2ConnOk Http2ConnRun Http2ConnInput.
From Stdlib Require Import ZArith Lia.
From stdpp Require Import base numbers option strings gmap functions list.
Open Scope Z_scope.

Section Whole.
Variable conf : config.
Context {app : App} `{!AppOk conf app}.
Hypothesis Hconf : config_ok conf.

(** A stream that has received [got] of its body. *)
Record receiving_body (got : bytes) (s : h2stream) : Prop := {
  rb_state : hs_state s = STATE_RECV_BODY;
  rb_body : hs_body_state s = BODY_OPEN_BEFORE_FIRST_FRAME \/ hs_body_state s = BODY_OPEN;
  rb_streamed : hs_streamed s = false;
  rb_proceed : hs_proceed_req s = false;
  rb_buf : rx_buf (hs_rx s) = Some got;
  rb_received : rx_received (hs_rx s) = len got }.

(** The size of the body is in order. *)
Definition size_ok (r : h2request) (total : Z) : Prop :=
  total <= max_request_entity_size conf /\ (rq_content_length r = SIZE_MAX \/ rq_content_length r = total).

Lemma size_no_error s total received is_end :
  size_ok (rx_input (hs_rx s)) total -> received <= total -> (is_end = true -> received = total) -> body_size_error conf s received is_end = None.
Proof.
  intros [Hm Hcl] Hr He. unfold body_size_error. rewrite (proj2 (Z.ltb_ge _ _)) by lia. destruct Hcl as [E|E]; rewrite E; [done|].
  destruct is_end; [rewrite (He eq_refl), Z.eqb_refl; simpl; by rewrite andb_false_r|]. rewrite (proj2 (Z.ltb_ge _ _)) by lia. by rewrite andb_false_r.
Qed.

(** The first half of [handle_request_body_chunk], up to the end of the checks. *)
Definition checked (received : Z) (s : h2stream) : h2stream := set_hs_blocked true (counted_in received s).

Lemma chunk_checked c0 c id got s payload is_end total :
  turns c0 id s c -> receiving_body got s -> size_ok (rx_input (hs_rx s)) total -> len got + len payload <= total ->
  (is_end = true -> len got + len payload = total) -> disregarded c0 id = false ->
  exists c2 is_first, turns c0 id (checked (len got + len payload) s) c2 /\ (is_first = true -> hs_body_state s = BODY_OPEN_BEFORE_FIRST_FRAME) /\
    handle_request_body_chunk conf c id payload is_end =
      (c ← (if is_end then end_of_body c2 id else Some c2); c ← append_body c id payload; submit_body conf c id is_first is_end false).
Proof.
  intros T [Hst Hbs Hsd Hpr Hb Hr] Hsz Hle Hend Hdis. unfold handle_request_body_chunk. rewrite (turns_lookup _ _ _ _ T). cbn [mbind option_bind]. rewrite Hr.
  destruct (body_open_ok c0 c id s (len got + len payload) T Hbs) as ([c1 is_first] & -> & T1 & Hfirst). cbn [mbind option_bind]. simpl in T1, Hfirst.
  rewrite (size_no_error s total) by done. set (c1' := upd_stream _ _ c1) in *.
  assert (Hb1 : hs_blocked_by_server (counted_in (len got + len payload) s) = hs_blocked_by_server s) by (by destruct s).
  destruct (block_ok c0 c1' id _ T1) as (c2 & E & T2). rewrite Hb1 in E. rewrite E. cbn [mbind option_bind].
  assert (Hmo : hc_pull_max_open c2 = hc_pull_max_open c0) by (by apply (rest_links _ _ (tn_rest _ _ _ _ T2))).
  unfold reset_stream_if_disregarded. rewrite Hmo. unfold disregarded in Hdis. rewrite Hdis. cbn [mbind option_bind]. rewrite Hpr. eauto.
Qed.

(** The stream with the chunk in its buffer. *)
Definition added (got payload : bytes) (s : h2stream) : h2stream :=
  let s := buffer payload (checked (len got + len payload) s) in set_hs_rx (set_rx_entity (rx_buf (hs_rx s))) s.

Lemma added_receiving got payload s w b :
  receiving_body got s -> receiving_body (got ++ payload) (set_hs_input_window w b (added got payload s)).
Proof.
  intros [Hst Hbs Hsd Hpr Hb Hr]. destruct s as [st sl bl r ra bs sd t p ow iw bu []]. simpl in *. subst.
  constructor; simpl; auto. unfold len. rewrite length_app. lia.
Qed.

Context (Hplain : forall c id, app_can_stream_request c id = false).

(** A chunk is added. *)
Lemma chunk_added c0 c id got s payload total :
  turns c0 id s c -> receiving_body got s -> size_ok (rx_input (hs_rx s)) total -> len got + len payload <= total -> disregarded c0 id = false ->
  owing conf (len payload) id s ->
  exists c' w b, handle_request_body_chunk conf c id payload false = Some c' /\ turns c0 id (set_hs_input_window w b (added got payload s)) c'.
Proof.
  intros T Hrb Hsz Hle Hdis Hg. destruct (chunk_checked c0 c id got s payload false total T Hrb Hsz Hle ltac:(done) Hdis) as (c2 & is_first & T2 & Hfirst & E).
  rewrite E. clear E. cbn [mbind option_bind]. pose proof Hrb as [Hst Hbs Hsd Hpr Hb Hr].
  destruct (append_body_ok c0 c2 id _ payload T2) as (c3 & -> & T3). { destruct s as [????????????[]]. simpl in *. by subst. }
  cbn [mbind option_bind]. unfold submit_body. rewrite (turns_lookup _ _ _ _ T3). cbn [mbind option_bind]. set (s3 := buffer payload _) in *.
  replace (hs_streamed s3) with false by (by destruct s). rewrite Hplain.
  pose proof (turns_upd c3 id s3 _ (tn_counters _ _ _ _ T3) (turns_lookup _ _ _ _ T3) (uncounted_rx (set_rx_entity (rx_buf (hs_rx s3))))) as T4.
  pose proof (turns_trans _ _ _ _ _ _ T3 T4) as T5. fold (added got payload s) in T5.
  destruct is_first; cbn [andb negb].
  - assert (Hsum : window_sum s + len payload = H2O_HTTP2_SETTINGS_HOST_STREAM_INITIAL_WINDOW_SIZE).
    { rewrite <- (sg_not_grown _ _ _ Hg); [destruct s; unfold give_back, window_sum, buffered; simpl; lia|].
      split; [by destruct s|]. right. left. destruct s; by apply Hfirst. }
    assert (Ha : hs_input_window (added got payload s) = hs_input_window s /\ hs_bytes_unnotified (added got payload s) = hs_bytes_unnotified s) by (destruct s; done).
    destruct Ha as [Ha1 Ha2]. pose proof (sg_unnotified _ _ _ Hg) as Hu. replace (hs_bytes_unnotified (give_back _ s)) with (hs_bytes_unnotified s) in Hu by (by destruct s).
    destruct Hconf as [_ [Hw1 Hw2] _]. assert (0 <= buffered s /\ 0 <= len payload) by (unfold buffered, len; lia).
    destruct (update_window_ok (upd_stream id (set_hs_rx (set_rx_entity (rx_buf (hs_rx s3)))) c3) id (added got payload s)
      (active_stream_window_size conf - H2O_HTTP2_SETTINGS_HOST_STREAM_INITIAL_WINDOW_SIZE) (tn_counters _ _ _ _ T5) (turns_lookup _ _ _ _ T5))
      as (c4 & -> & w & b & T6 & _); [unfold window_sum in *; lia..|]. exists c4, w, b. split; [done|]. by eapply turns_trans.
  - eexists _, (hs_input_window (added got payload s)), (hs_bytes_unnotified (added got payload s)). split; [done|].
    replace (set_hs_input_window _ _ (added got payload s)) with (added got payload s); [done|]. by destruct (added got payload s).
Qed.

(** The last chunk: the request is complete. *)
Lemma chunk_completes c0 c id got s payload total :
  turns c0 id s c -> receiving_body got s -> size_ok (rx_input (hs_rx s)) total -> len got + len payload = total -> disregarded c0 id = false ->
  stream_good conf id (give_back (len payload) s) ->
  exists c' s', turns c0 id s' c' /\ handle_request_body_chunk conf c id payload true = execute_or_enqueue_request conf c' id /\
    hs_state s' = STATE_REQ_PENDING /\ hs_body_state s' = BODY_CLOSE_DELIVERED /\ rx_entity (hs_rx s') = Some (got ++ payload) /\
    rx_received (hs_rx s') = total /\ rx_input (hs_rx s') = rx_input (hs_rx s).
Proof.
  intros T Hrb Hsz Hle Hdis Hg. destruct (chunk_checked c0 c id got s payload true total T Hrb Hsz ltac:(lia) ltac:(done) Hdis) as (c2 & is_first & T2 & _ & E).
  rewrite E. clear E. pose proof Hrb as [Hst Hbs Hsd Hpr Hb Hr].
  assert (Hpc : rx_process_called (hs_rx s) = false /\ rx_write_req (hs_rx s) = false).
  { pose proof (sg_called _ _ _ Hg) as Hca. pose proof (sg_phase _ _ _ Hg) as Hp. destruct s as [st sl bl r ra bs sd t p ow iw bu []]. unfold give_back, phase in *. simpl in *. subst.
    split; [destruct rx_process_called; [|done]; destruct (Hca eq_refl); simpl in *; done || lia|]. destruct Hbs; subst; naive_solver. }
  destruct Hpc as [Hpc Hw].
  destruct (end_of_body_ok c0 c2 id _ T2) as (c3 & -> & T3); [by destruct s|destruct s; simpl in *; congruence|]. cbn [mbind option_bind].
  destruct (append_body_ok c0 c3 id _ payload T3) as (c4 & -> & T4). { rewrite finished_rx. destruct s as [????????????[]]. simpl in *. by subst. }
  cbn [mbind option_bind]. unfold submit_body. rewrite (turns_lookup _ _ _ _ T4). cbn [mbind option_bind]. set (s4 := buffer payload _) in *.
  assert (F : s4 = set_hs_rx (set_rx_buf (Some (got ++ payload))) (set_hs_body_state BODY_CLOSE_DELIVERED (set_hs_proceed_req false (moved id STATE_REQ_PENDING (checked (len got + len payload) s))))).
  { unfold s4, finished, progressed, checked, counted_in, buffer. destruct s as [st sl bl r ra bs sd t p ow iw bu []]. simpl in *. by subst. }
  replace (hs_streamed s4) with false by (rewrite F; destruct s; by subst). rewrite andb_false_r. cbn [andb negb].
  pose proof (turns_upd c4 id s4 _ (tn_counters _ _ _ _ T4) (turns_lookup _ _ _ _ T4) (uncounted_rx (set_rx_entity (rx_buf (hs_rx s4))))) as T5.
  eexists _, _. split; [exact (turns_trans _ _ _ _ _ _ T4 T5)|]. split; [done|]. rewrite F. destruct s as [????????????[]]. simpl. by split_and!.
Qed.

(** ** DATA frames *)

(** A connection that reads frames, with a stream that has received [got]. *)
Record midway (c : h2conn) (id : Z) (r : h2request) (got : bytes) : Prop := {
  mw_open : open_ok conf c;
  mw_expect : expect c = EXPECT_DEFAULT;
  mw_taken : disregarded c id = false;
  mw_stream : exists s, hc_streams c !! id = Some s /\ receiving_body got s /\ rx_input (hs_rx s) = r }.

Lemma receiving_window got s w b : receiving_body got s -> receiving_body got (set_hs_input_window w b s).
Proof. intros [Hst Hbs Hsd Hpr Hb Hr]. destruct s. by constructor. Qed.

(** What a DATA frame of a stream does before its payload is looked at. *)
Lemma data_frame_prepared c id r got frame payload :
  midway c id r got -> frame_ok frame -> f_stream_id frame = id -> h2o_http2_decode_data_payload frame = Ok payload ->
  exists c0 c1 s, open_ok conf c0 /\ expect c0 = EXPECT_DEFAULT /\ disregarded c0 id = false /\ turns c0 id s c1 /\ receiving_body got s /\
    rx_input (hs_rx s) = r /\ owing conf (len payload) id s /\
    handle_data_frame conf c frame =
      (c ← (if negb (is_nil payload) || has_flag frame H2O_HTTP2_FRAME_FLAG_END_STREAM
            then handle_request_body_chunk conf c1 id payload (has_flag frame H2O_HTTP2_FRAME_FLAG_END_STREAM) else Some c1); done_ c).
Proof.
  intros [Ho He Hd (s & Hs & Hrb & Hi)] Hf Hid Hp. unfold handle_data_frame. rewrite Hp. destruct (data_payload_within _ _ Hf Hp) as [_ Hlen]. cbv zeta.
  destruct (conn_window_ok conf c (f_length frame) Ho (fo_length _ Hf)) as (c0 & -> & Ho0 & E1 & E2 & E3). cbn [mbind option_bind]. rewrite Hid.
  unfold h2o_http2_conn_get_stream. rewrite E1, Hs, bool_decide_eq_true_2 by apply Hrb. cbn [negb]. rewrite <- E1 in Hs.
  destruct (padding_ok conf Hconf c0 id s (f_length frame) payload Ho0 Hs) as (c1 & E & w & b & T & How); [unfold len in *; lia|]. cbv zeta in E. rewrite E.
  cbn [mbind option_bind]. exists c0, c1, (set_hs_input_window w b s). split_and!; auto; try congruence.
  - unfold disregarded in *. by rewrite E2.
  - by apply receiving_window.
  - by destruct s.
Qed.

Lemma midway_turns c0 c id r got s :
  open_ok conf c -> turns c0 id s c -> expect c0 = EXPECT_DEFAULT -> disregarded c0 id = false -> receiving_body got s -> rx_input (hs_rx s) = r -> midway c id r got.
Proof.
  intros Ho T He Hd Hrb Hi. destruct (rest_links _ _ (tn_rest _ _ _ _ T)) as (_ & _ & _ & _ & _ & E & _ & Hio). unfold core_io in Hio. injection Hio as Hio.
  constructor; [done|by unfold expect in *; rewrite Hio|by unfold disregarded in *; rewrite E|]. exists s. split; [by eapply turns_lookup|done].
Qed.

Lemma data_frame_added c id r got frame payload total :
  midway c id r got -> frame_ok frame -> f_stream_id frame = id -> h2o_http2_decode_data_payload frame = Ok payload ->
  has_flag frame H2O_HTTP2_FRAME_FLAG_END_STREAM = false -> size_ok r total -> len got + len payload <= total ->
  exists c', handle_data_frame conf c frame = done_ c' /\ midway c' id r (got ++ payload).
Proof.
  intros Hm Hf Hid Hp Hend Hsz Hle. destruct (handle_data_frame_ok conf Hconf c frame (mw_open _ _ _ _ Hm) Hf) as ([[c2 ret] desc] & E2 & Ho2 & _).
  destruct (data_frame_prepared c id r got frame payload Hm Hf Hid Hp) as (c0 & c1 & s & Ho & He & Hd & T & Hrb & Hi & How & E).
  rewrite E2 in E. rewrite Hend, orb_false_r in E. rewrite E2. destruct payload as [|b payload]; cbn [is_nil negb] in E.
  - injection E as -> -> ->. exists c1. split; [done|]. rewrite app_nil_r. by eapply midway_turns.
  - destruct (chunk_added c0 c1 id got s (b :: payload) total T Hrb ltac:(by rewrite Hi) Hle Hd How) as (c3 & w & u & E3 & T3).
    rewrite E3 in E. injection E as -> -> ->. exists c3. split; [done|]. apply (midway_turns c0 c3 id r _ _ Ho2 T3 He Hd); [by apply added_receiving|by destruct s as [? ? ? ? ? ? ? ? ? ? ? ? []]].
Qed.

Lemma data_frame_completes c id r got frame payload :
  midway c id r got -> frame_ok frame -> f_stream_id frame = id -> h2o_http2_decode_data_payload frame = Ok payload ->
  has_flag frame H2O_HTTP2_FRAME_FLAG_END_STREAM = true -> size_ok r (len got + len payload) ->
  exists c1 s c', execute_or_enqueue_request conf c1 id = Some c' /\ handle_data_frame conf c frame = done_ c' /\ open_ok conf c' /\
    hc_streams c1 !! id = Some s /\ hs_state s = STATE_REQ_PENDING /\ hs_body_state s = BODY_CLOSE_DELIVERED /\
    rx_entity (hs_rx s) = Some (got ++ payload) /\ rx_input (hs_rx s) = r.
Proof.
  intros Hm Hf Hid Hp Hend Hsz. destruct (handle_data_frame_ok conf Hconf c frame (mw_open _ _ _ _ Hm) Hf) as ([[c2 ret] desc] & E2 & Ho2 & _).
  destruct (data_frame_prepared c id r got frame payload Hm Hf Hid Hp) as (c0 & c1 & s & Ho & He & Hd & T & Hrb & Hi & How & E).
  rewrite E2 in E. rewrite Hend, orb_true_r in E. rewrite E2.
  destruct (chunk_completes c0 c1 id got s payload _ T Hrb ltac:(by rewrite Hi) eq_refl Hd How) as (c3 & s3 & T3 & E3 & H1 & H2 & H3 & H4 & H5).
  rewrite E3 in E. destruct (execute_or_enqueue_request conf c3 id) as [c4|] eqn:E4; [|done]. injection E as -> -> ->.
  exists c3, s3, c4. split_and!; auto; [by eapply turns_lookup|congruence].
Qed.

(** ** The octets *)

Definition data_frame (id flags : Z) (payload frame : bytes) : Prop :=
  allocate_frame [] H2O_HTTP2_FRAME_TYPE_DATA flags id payload = Some frame.
Definition plain_payload (p : bytes) : Prop := bytes_ok p /\ len p <= H2O_HTTP2_SETTINGS_HOST_MAX_FRAME_SIZE.

(** A DATA frame without padding at the head of the input is given to its handler. *)
Lemma data_frame_read c id flags payload frame more :
  expect c = EXPECT_DEFAULT -> 0 < id < 2 ^ 31 -> flags = 0 \/ flags = H2O_HTTP2_FRAME_FLAG_END_STREAM -> plain_payload payload -> data_frame id flags payload frame ->
  let f := Frame (len payload) H2O_HTTP2_FRAME_TYPE_DATA flags id payload in
  frame_ok f /\ h2o_http2_decode_data_payload f = Ok payload /\ len frame = 9 + len payload /\
  run_read_expect conf c (frame ++ more) = frame_result (9 + len payload) (handle_data_frame conf c f).
Proof.
  intros He Hid Hfl [Hb Hl] Hfr. assert (Hflb : is_byte flags) by (destruct Hfl; subst; by unfold is_byte).
  destruct (allocate_frame_decodes [] H2O_HTTP2_FRAME_TYPE_DATA flags id payload more H2O_HTTP2_SETTINGS_HOST_MAX_FRAME_SIZE frame Hfr) as (frame' & E & Hd);
    [by unfold is_byte|done|lia|done|]. simpl in E. subst frame'. split_and!.
  - constructor; simpl; auto; [pose proof (len_nonneg payload); lia|lia].
  - unfold h2o_http2_decode_data_payload, has_flag. simpl. rewrite (proj2 (Z.eqb_neq _ _)) by lia.
    destruct Hfl; subst; simpl; f_equal; by rewrite take_ge by (unfold len; lia).
  - unfold data_frame, allocate_frame in Hfr. destruct (h2o_http2_encode_frame_header _ _ _ _) as [h|] eqn:Eh; [|done]. simpl in Hfr. injection Hfr as <-.
    pose proof (encode_frame_header_length _ _ _ _ _ Eh). unfold len in *. rewrite length_app. lia.
  - unfold run_read_expect. unfold expect in He. rewrite He. unfold expect_default. by rewrite Hd.
Qed.

Lemma drop_first_frame (frame more : bytes) n : len frame = n -> drop (Z.to_nat n) (frame ++ more) = more.
Proof. intros <-. unfold len. by rewrite Nat2Z.id, drop_app_length. Qed.

Lemma open_goes_on fuel c (input : bytes) : open_ok conf c -> input <> [] ->
  parse_input_loop conf (S fuel) c input =
    ('(c, ret, err_desc) ← run_read_expect conf c input;
     if ret =? H2O_HTTP2_ERROR_INCOMPLETE then Some (c, input, 0)
     else if ret <? 0 then
       c ← (if negb (ret =? H2O_HTTP2_ERROR_PROTOCOL_CLOSE_IMMEDIATELY) then enqueue_goaway c ret (from_option lit [] err_desc) else Some c);
       '(c, gone) ← close_connection conf c; Some (c, input, if (gone : bool) then -1 else 0)
     else parse_input_loop conf fuel c (drop (Z.to_nat ret) input)).
Proof. intros Ho Hi. simpl. rewrite (op_open _ _ Ho). by destruct input. Qed.

(** A frame that its handler takes is followed by the rest of the input. *)
Lemma frame_taken fuel c f frame more n c' :
  open_ok conf c -> len frame = 9 + n -> 0 <= n -> run_read_expect conf c (frame ++ more) = frame_result (9 + n) (handle_data_frame conf c f) ->
  handle_data_frame conf c f = done_ c' -> parse_input_loop conf (S fuel) c (frame ++ more) = parse_input_loop conf fuel c' more.
Proof.
  intros Ho Hl Hn E Eh. rewrite open_goes_on; [|done|intros [-> ->]%app_eq_nil; unfold len in *; simpl in *; lia].
  rewrite E, Eh. cbn [mbind option_bind frame_result done_]. simpl (0 =? 0). cbv iota. rewrite (proj2 (Z.eqb_neq _ _)) by (unfold H2O_HTTP2_ERROR_INCOMPLETE; lia).
  rewrite (proj2 (Z.ltb_ge _ _)) by lia. by rewrite drop_first_frame.
Qed.

Lemma body_read fuel : forall c id r got payloads frames last flast,
  midway c id r got -> 0 < id < 2 ^ 31 -> Forall plain_payload payloads -> plain_payload last -> Forall2 (data_frame id 0) payloads frames ->
  data_frame id H2O_HTTP2_FRAME_FLAG_END_STREAM last flast -> size_ok r (len (got ++ concat payloads ++ last)) -> (length (concat frames ++ flast) <= fuel)%nat ->
  exists c1 s c', parse_input_loop conf fuel c (concat frames ++ flast) = Some (c', [], 0) /\ execute_or_enqueue_request conf c1 id = Some c' /\
    hc_streams c1 !! id = Some s /\ hs_state s = STATE_REQ_PENDING /\ hs_body_state s = BODY_CLOSE_DELIVERED /\
    rx_entity (hs_rx s) = Some (got ++ concat payloads ++ last) /\ rx_input (hs_rx s) = r.
Proof.
  induction fuel as [|fuel IH]; intros c id r got payloads frames last flast Hm Hid Hps Hl Hfs Hfl Hsz Hfuel.
  { rewrite length_app in Hfuel. destruct (data_frame_read c id _ last flast [] (mw_expect _ _ _ _ Hm) Hid ltac:(by right) Hl Hfl) as (_ & _ & E & _). unfold len in E. lia. }
  destruct Hfs as [|p f ps fs Hf Hfs]; simpl concat in *.
  - destruct (data_frame_read c id _ last flast [] (mw_expect _ _ _ _ Hm) Hid ltac:(by right) Hl Hfl) as (F1 & F2 & F3 & F4). rewrite len_app in Hsz. simpl in Hsz.
    destruct (data_frame_completes c id r got _ last Hm F1 eq_refl F2 eq_refl Hsz) as (c1 & s & c' & E1 & E2 & Ho & H).
    exists c1, s, c'. split; [|done]. rewrite (app_nil_l flast).
    pose proof (frame_taken fuel c _ flast [] _ c' (mw_open _ _ _ _ Hm) F3 (len_nonneg _) F4 E2) as E. rewrite app_nil_r in E. rewrite E. destruct fuel; simpl; by rewrite andb_false_r.
  - apply Forall_cons in Hps as [Hp Hps].
    destruct (data_frame_read c id _ p f (concat fs ++ flast) (mw_expect _ _ _ _ Hm) Hid ltac:(by left) Hp Hf) as (F1 & F2 & F3 & F4).
    destruct (data_frame_added c id r got _ p _ Hm F1 eq_refl F2 eq_refl Hsz) as (c' & E & Hm').
    { rewrite !len_app. pose proof (len_nonneg (concat ps)). pose proof (len_nonneg last). lia. }
    rewrite <- app_assoc. rewrite (frame_taken fuel c _ f _ _ c' (mw_open _ _ _ _ Hm) F3 (len_nonneg _) F4 E).
    assert (Eg : got ++ (p ++ concat ps) ++ last = (got ++ p) ++ concat ps ++ last) by (by rewrite !app_assoc). rewrite Eg in *.
    apply (IH c' id r (got ++ p) ps fs last flast); auto. unfold len in F3. rewrite !length_app in *. lia.
Qed.
End Whole.
