(* ===== verification/Http2ConnSafe.v ===== *)
(** * Properties of HTTP/2 connections

    What holds of every connection that the peer and the application can bring about, with the application that the
    examples use. *)
From S2P Require Import Prelude Strings Url Tokens HpackInt Huffman HeaderTable Headers Hpack HpackSafe HpackParse Http2Frame Http2Send.
From S2P Require Import Http2Streams Http2StreamsOk Http2StreamsRun Http2StreamsEnd Http2Conn Http2ConnOk Http2ConnRun Http2ConnInput Http2ConnBody.
From Stdlib Require Import ZArith Lia.
From stdpp Require Import base numbers option strings gmap functions list.
Open Scope Z_scope.

(** ** An application *)

Definition set_rx_write_req (q : rx) : rx :=
  let '(Rx b rc cl e _ p d) := q in Rx b rc cl e true p d.

(** It takes the bodies that are streamed, and answers later. *)
Definition example_app (can_stream forward : bool) : App := {|
  app_process c id := s ← hc_streams c !! id; Some (if hs_streamed s then upd_stream id (set_hs_rx set_rx_write_req) c else c);
  app_send_error c id status := Some c;
  app_informational c id := [];
  app_write_req c id is_end := Some (c, 0);
  app_can_stream_request c id := can_stream;
  app_should_forward_expect c id := forward;
  sock_capacity c := 4096;
  sock_cwnd_left c := 65536;
  sock_ssl := true |}.
#[export] Instance taking_app : App := example_app true false.
Definition plain_app : App := example_app false false.

Definition example_config : config := Config 100 1 1048576 100 16777216 100 16 None.

Lemma example_config_ok : config_ok example_config.
Proof. constructor; unfold H2O_HTTP2_SETTINGS_HOST_STREAM_INITIAL_WINDOW_SIZE, INT32_MAX; simpl; lia || done. Qed.

Lemma answers_refl conf c : conn_ok conf c -> answers conf c c.
Proof. by intros. Qed.

Lemma example_app_ok can_stream : AppOk example_config (example_app can_stream false).
Proof.
  constructor; simpl.
  - intros c id s Hc Hs _ _. rewrite Hs. simpl. apply succeeds_some. destruct (hs_streamed s) eqn:Hsd; [|by apply answers_refl].
    pose proof (turns_upd c id s _ (co_counters _ _ Hc) Hs (uncounted_rx set_rx_write_req)) as T.
    destruct (rest_links _ _ (tn_rest _ _ _ _ T)) as (_ & ? & _ & _ & _ & _ & ? & _). split_and!; [|apply steady_rest, T|done|done].
    apply (conn_ok_kept _ c _ id s _ Hc Hs T); try (destruct s; auto; fail). destruct (co_streams _ _ Hc _ _ Hs) as [G1 G2 G3 G7 G4 G5 G6 G8].
    destruct s as [st sl b r ra bs sd t p ow iw bu []]. simpl in *. subst. apply good_streamed; auto. unfold phase in *. simpl in *. destruct bs; naive_solver.
  - intros c id s status Hc _ _. by apply succeeds_some, answers_refl.
  - intros c id s e Hc Hs _. apply succeeds_some. simpl. split; [by apply answers_refl|by rewrite Hs].
  - done.
Qed.
#[export] Instance taking_app_ok : AppOk example_config taking_app := example_app_ok true.
#[export] Instance plain_app_ok : AppOk example_config plain_app := example_app_ok false.

(** ** Connections in use *)

Section Use.
Variable conf : config.
Context {app : App} `{!AppOk conf app}.
Hypothesis Hconf : config_ok conf.

(** A connection that octets of the peer and acts of the application have brought about: input is parsed, the application
    reports what became of the body of a request, and it answers requests at times of its own. *)
Inductive in_use : h2conn -> Prop :=
| use_create : in_use (create_conn conf)
| use_input c input c' rest :
    in_use c -> hc_state c = CONN_OPEN -> bytes_ok input -> parse_input conf c input = Some (c', rest, 0) -> in_use c'
| use_proceed c id s errstr c' :
    in_use c -> hc_state c = CONN_OPEN -> hc_streams c !! id = Some s -> may_proceed s errstr ->
    proceed_request conf c id errstr = Some c' -> in_use c'
| use_answer c c' : in_use c -> answers conf c c' -> in_use c'.

Lemma in_use_ok c : in_use c -> conn_ok conf c /\ (hc_state c = CONN_OPEN -> open_ok conf c).
Proof.
  induction 1 as [|c input c' rest _ [_ IH] Hop Hin Hp|c id s errstr c' _ [Hc IH] Hop Hs Hm Hp|c c' _ [Hc IH] (H1 & H2 & _)].
  - pose proof (create_conn_ok conf Hconf) as Ho. split; [apply Ho|done].
  - destruct (parse_input_ok conf Hconf c input (IH Hop) Hin) as (r & E & _ & Hr). rewrite E in Hp. injection Hp as ->.
    destruct Hr as [[Ho _]|[(Hc & Hcl & _)|[_ ?]]]; simpl in *; [split; [apply Ho|done]|split; [done|congruence]|lia].
  - destruct (proceed_request_ok conf Hconf c id s errstr Hc Hs ltac:(congruence) Hm) as (c1 & E & He). rewrite E in Hp. injection Hp as ->.
    pose proof (open_ended _ _ _ (IH Hop) He) as Ho. split; [apply Ho|done].
  - split; [done|]. intros Hop. destruct H2 as (E & H2). apply (open_steady _ c); auto; [|by split]. apply IH. congruence.
Qed.
End Use.

(** ** Properties *)


(** HEADERS of a POST on stream 1, a DATA frame with two octets, and octets that are no frame. *)
Definition example_input : bytes :=
  CONNECTION_PREFACE ++ [0; 0; 6; 1; 4; 0; 0; 0; 1] ++ [0x83; 0x87; 0x84; 0x41; 1; 97] ++ [0; 0; 2; 0; 0; 0; 0; 0; 1; 104; 105].

Definition example_conn (app : App) : h2conn :=
  from_option (fun r => r.1.1) (create_conn example_config) (parse_input example_config (create_conn example_config) example_input).

Definition example_stream : h2stream :=
  default (H2Stream STATE_IDLE None false false false BODY_NONE false false false 0 0 0 (Rx None 0 init_request None false false false))
    (hc_streams (example_conn taking_app) !! 1).

Lemma example_in_use : in_use example_config (app := taking_app) (example_conn taking_app).
Proof.
  apply (use_input _ (create_conn example_config) example_input _ []); [apply use_create|done|apply bytes_okb; vm_compute; reflexivity|vm_compute; reflexivity].
Qed.





(** Two POST requests that are streamed, of which one runs; and a GET. *)
Definition queue_input : bytes :=
  example_input ++ [0; 0; 6; 1; 4; 0; 0; 0; 3] ++ [0x83; 0x87; 0x84; 0x41; 1; 97] ++ [0; 0; 2; 0; 0; 0; 0; 0; 3; 104; 105].

Definition queue_conn : h2conn :=
  from_option (fun r => r.1.1) (create_conn example_config) (parse_input example_config (create_conn example_config) queue_input).


(** ** Errors *)

Section Errors.
Variable conf : config.
Context {app : App} `{!AppOk conf app}.

(** The write of the GOAWAY frame is pending, so that the connection stays until it is done. *)
Lemma goaway_enqueued c errnum data c' :
  hc_state c <> CONN_IS_CLOSING -> io_is_writing (hc_io c) = io_in_flight (hc_io c) -> enqueue_goaway c errnum data = Some c' ->
  h2o_http2_encode_goaway_frame (hc_buf c) (hc_pull_max_open c) errnum data = Some (hc_buf c') /\
  io_in_flight (hc_io c') || io_timeout_linked (hc_io c') = true /\ hc_streams c' = hc_streams c.
Proof.
  intros Hcl Hw. unfold enqueue_goaway. assert (Hr : conn_rank (hc_state c) <? conn_rank CONN_IS_CLOSING = true) by (by destruct (hc_state c)).
  rewrite Hr. destruct (h2o_http2_encode_goaway_frame _ _ _ _) as [buf|]; [|done]. cbn [mbind option_bind].
  unfold h2o_http2_conn_request_write, request_gathered_write. destruct c as [? ? ? ? ? ? ? ? cst ? ? ? ? ? ? ? ? ? [re hu iw ww ps ta tl fl wr]]. simpl in *.
  rewrite bool_decide_eq_false_2 by done. rewrite Hr. simpl. subst wr. destruct (negb fl && negb tl) eqn:E; intros [= <-]; simpl; (split_and!; [done| |done]).
  - by rewrite orb_true_r.
  - by destruct fl, tl.
Qed.
End Errors.



(** C20: closing the connection at once ends every stream: the table of streams, the queue and the lists are empty and
    the checks of the counters at the end hold. *)
Theorem closing_ends_streams conf (app : App) (Happ : AppOk conf app) c :
  config_ok conf -> in_use conf c -> io_timeout_linked (hc_io c) = false ->
  exists c', close_connection_now conf c = Some c' /\ hc_streams c' = ∅ /\ all_links c' = [].
Proof. intros Hconf Hu Ht. destruct (in_use_ok conf Hconf c Hu) as [Hc _]. exact (close_connection_now_ok conf Hconf c Hc Ht). Qed.

(** The connection of the example when its writes are done. *)
Definition written_conn : h2conn := upd_io (set_io_timeout_linked false) (example_conn taking_app).

Lemma closing_ends_streams_witness :
  is_Some (hc_streams written_conn !! 1) /\
  exists c', close_connection_now example_config written_conn = Some c' /\ hc_streams c' = ∅ /\ all_links c' = [].
Proof.
  split; [vm_compute; eexists; reflexivity|]. apply (closing_ends_streams example_config taking_app taking_app_ok); [apply example_config_ok| |vm_compute; reflexivity].
  apply (use_answer _ (example_conn taking_app)); [apply example_in_use|]. split; [apply conn_ok_io, (proj1 (in_use_ok example_config example_config_ok _ example_in_use))|].
  unfold steady. split; [split; [|split]|split; [intros _|]]; vm_compute; reflexivity.
Defined.

(** C9: a request whose body is not streamed gets all of its body: when DATA frames on its stream follow each other, with
    END_STREAM on the last one, and their octets are as many as announced and allowed, the input is used up and the
    request is handed on complete, its entity the payloads of the frames in order. *)
Theorem body_arrives conf (app : App) (Happ : AppOk conf app) c id r payloads frames last flast :
  config_ok conf -> (forall c id, app_can_stream_request c id = false) ->
  midway conf c id r [] -> 0 < id < 2 ^ 31 -> Forall plain_payload payloads -> plain_payload last ->
  Forall2 (data_frame id 0) payloads frames -> data_frame id H2O_HTTP2_FRAME_FLAG_END_STREAM last flast ->
  size_ok conf r (len (concat payloads ++ last)) ->
  exists c1 s c', parse_input conf c (concat frames ++ flast) = Some (c', [], 0) /\ execute_or_enqueue_request conf c1 id = Some c' /\
    hc_streams c1 !! id = Some s /\ hs_state s = STATE_REQ_PENDING /\ hs_body_state s = BODY_CLOSE_DELIVERED /\
    rx_entity (hs_rx s) = Some (concat payloads ++ last) /\ rx_input (hs_rx s) = r.
Proof. intros Hconf Hplain Hm Hid Hps Hl Hfs Hfl Hsz. exact (body_read conf Hconf Hplain _ c id r [] payloads frames last flast Hm Hid Hps Hl Hfs Hfl Hsz (le_n _)). Qed.

(** A POST request of which no DATA frame has arrived. *)
Definition headers_input : bytes := CONNECTION_PREFACE ++ [0; 0; 6; 1; 4; 0; 0; 0; 1] ++ [0x83; 0x87; 0x84; 0x41; 1; 97].
Definition headers_conn (app : App) : h2conn :=
  from_option (fun r => r.1.1) (create_conn example_config) (parse_input example_config (create_conn example_config) headers_input).
Definition headers_stream : h2stream := default example_stream (hc_streams (headers_conn plain_app) !! 1).

Lemma headers_midway : midway example_config (headers_conn plain_app) 1 (rx_input (hs_rx headers_stream)) [].
Proof.
  assert (Hu : in_use example_config (app := plain_app) (headers_conn plain_app)).
  { apply (use_input _ (app := plain_app) (create_conn example_config) headers_input _ []); [apply use_create|done|apply bytes_okb; vm_compute; reflexivity|vm_compute; reflexivity]. }
  destruct (in_use_ok example_config (app := plain_app) example_config_ok _ Hu) as [_ Ho]. constructor; [apply Ho; vm_compute; reflexivity|vm_compute; reflexivity..|].
  exists headers_stream. split; [vm_compute; reflexivity|]. split; [|done]. constructor; try (vm_compute; reflexivity). left. vm_compute. reflexivity.
Qed.

Lemma body_arrives_witness :
  exists c1 s c', parse_input example_config (app := plain_app) (headers_conn plain_app) [0; 0; 2; 0; 0; 0; 0; 0; 1; 104; 105; 0; 0; 1; 0; 1; 0; 0; 0; 1; 33] = Some (c', [], 0) /\
    execute_or_enqueue_request example_config (app := plain_app) c1 1 = Some c' /\ hc_streams c1 !! 1 = Some s /\ rx_entity (hs_rx s) = Some (lit "hi!").
Proof.
  destruct (body_arrives example_config plain_app plain_app_ok (headers_conn plain_app) 1 (rx_input (hs_rx headers_stream)) [[104; 105]]
    [[0; 0; 2; 0; 0; 0; 0; 0; 1; 104; 105]] [33] [0; 0; 1; 0; 1; 0; 0; 0; 1; 33]) as (c1 & s & c' & E1 & E2 & E3 & _ & _ & E4 & _).
  - apply example_config_ok.
  - reflexivity.
  - apply headers_midway.
  - lia.
  - apply Forall_singleton. split; [apply bytes_okb; reflexivity|vm_compute; discriminate].
  - split; [apply bytes_okb; reflexivity|vm_compute; discriminate].
  - apply Forall2_cons. split; [reflexivity|apply Forall2_nil; exact I].
  - reflexivity.
  - split; [vm_compute; discriminate|]. left. vm_compute. reflexivity.
  - exists c1, s, c'. split; [exact E1|]. split; [exact E2|]. split; [exact E3|exact E4].
Defined.

(** ** Inputs that are taken badly

    Each is evaluated on the model.  [None] is a failed assertion or an access through a null pointer. *)

(** What the connection is after [input]. *)
Definition conn_after (app : App) (c : h2conn) (input : bytes) : option h2conn := r ← parse_input example_config c input; Some r.1.1.
Definition opened (app : App) : h2conn := default (create_conn example_config) (conn_after app (create_conn example_config) CONNECTION_PREFACE).

(** A frame of type [type]. *)
Definition frame_octets (type flags id : Z) (payload : bytes) : bytes := default [] (allocate_frame [] type flags id payload).

(** :method POST, :scheme https, :path /, :authority a *)
Definition post_headers : bytes := [0x83; 0x87; 0x84; 0x41; 1; 97].

(** After the final GOAWAY of a graceful shutdown, a HEADERS frame and its trailer on a stream that is opened later: the
    assertion on the state of the stream in [h2o_http2_stream_prepare_for_request] fails. *)
Definition shut_down : h2conn := default (opened taking_app) (enqueue_goaway (opened taking_app) H2O_HTTP2_ERROR_NONE []).
Example trailers_after_goaway :
  hc_state shut_down = CONN_HALF_CLOSED /\
  is_Some (conn_after taking_app shut_down (frame_octets H2O_HTTP2_FRAME_TYPE_HEADERS 4 1 post_headers)) /\
  conn_after taking_app shut_down (frame_octets H2O_HTTP2_FRAME_TYPE_HEADERS 4 1 post_headers ++ frame_octets H2O_HTTP2_FRAME_TYPE_HEADERS 5 1 []) = None.
Proof. split; [reflexivity|]. split; [vm_compute; eexists; reflexivity|vm_compute; reflexivity]. Qed.

(** A request with [expect: 100-continue] that ends with its HEADERS frame, when the expectation is forwarded: the report
    that the empty body has been sent reads the buffer of the body, which has not been allocated. *)
Definition expect_headers : bytes := post_headers ++ [0x0f; 20; 12] ++ lit "100-continue".
Definition forwarding_app : App := example_app true true.
Definition forwarded : option h2conn := conn_after forwarding_app (opened forwarding_app) (frame_octets H2O_HTTP2_FRAME_TYPE_HEADERS 5 1 expect_headers).
Example forwarded_expect_without_body :
  (c ← forwarded; s ← hc_streams c !! 1; Some (hs_body_state s, hs_streamed s, rx_buf (hs_rx s))) = Some (BODY_OPEN, true, None) /\
  (c ← forwarded; proceed_request example_config (app := forwarding_app) c 1 None) = None.
Proof. split; vm_compute; reflexivity. Qed.

(** A tunnel of which the client closes its half before the first report: the assertion that something has been written
    fails.  :method CONNECT, :authority a; then DATA with END_STREAM. *)
Definition connect_headers : bytes := [0x02; 7] ++ lit "CONNECT" ++ [0x41; 1; 97].
Definition tunnel_closed : option h2conn :=
  conn_after taking_app (opened taking_app)
    (frame_octets H2O_HTTP2_FRAME_TYPE_HEADERS 4 1 connect_headers ++ frame_octets H2O_HTTP2_FRAME_TYPE_DATA 1 1 []).
Example tunnel_closed_early :
  (c ← tunnel_closed; s ← hc_streams c !! 1; Some (hs_body_state s, rx_entity (hs_rx s))) = Some (BODY_CLOSE_QUEUED, Some []) /\
  (c ← tunnel_closed; proceed_request example_config c 1 None) = None.
Proof. split; vm_compute; reflexivity. Qed.

(** An error while the socket is asked whether it can be written, with nothing in flight: the GOAWAY frame is in the
    buffer, and the connection is gone. *)
Definition set_io_waiting (i : conn_io) : conn_io :=
  let '(ConnIo e u iw ww ps t _ f _) := i in ConnIo e u iw ww ps t false f true.
Definition awaiting_writability : h2conn := upd_io set_io_waiting (opened taking_app).
Example goaway_lost :
  (r ← parse_input example_config awaiting_writability (frame_octets H2O_HTTP2_FRAME_TYPE_DATA 0 0 []); Some r.2) = Some (-1).
Proof. vm_compute. reflexivity. Qed.

(** A CONTINUATION frame is taken for a stream other than that of the HEADERS frame before it: the header block of
    stream 3 becomes the trailer of stream 1. *)
Definition mixed_up : option h2conn :=
  conn_after plain_app (opened plain_app)
    (frame_octets H2O_HTTP2_FRAME_TYPE_HEADERS 4 1 post_headers ++ frame_octets H2O_HTTP2_FRAME_TYPE_HEADERS 0 3 [] ++
     frame_octets H2O_HTTP2_FRAME_TYPE_CONTINUATION 4 1 []).
Example continuation_of_another_stream :
  (c ← mixed_up; Some (hc_state c)) = Some CONN_OPEN /\
  (c ← mixed_up; s ← hc_streams c !! 1; Some (hs_state s)) = Some STATE_SEND_HEADERS /\
  (c ← mixed_up; s ← hc_streams c !! 3; Some (hs_state s)) = Some STATE_RECV_HEADERS.
Proof. split_and!; vm_compute; reflexivity. Qed.

(** A trailer with a character that a header value must not have: the GOAWAY frame has the code 254, which is internal. *)
Definition bad_trailer : bytes := [0x00; 1; 97; 1; 0].
Definition told : option bytes :=
  c ← conn_after plain_app (opened plain_app)
    (frame_octets H2O_HTTP2_FRAME_TYPE_HEADERS 4 1 post_headers ++ frame_octets H2O_HTTP2_FRAME_TYPE_HEADERS 5 1 bad_trailer);
  Some (drop (length (hc_buf (opened plain_app))) (hc_buf c)).
Example trailer_error_code : (b ← told; Some (take 17 b)) = Some ([0; 0; 50; 7; 0; 0; 0; 0; 0] ++ [0; 0; 0; 1; 0; 0; 0; 254]).
Proof. vm_compute. reflexivity. Qed.

(** The application refuses more of a body after an error of the connection, while the GOAWAY frame is being written: the
    stream is reset as on an open connection, and the assertion of [stream_send_error] fails. *)
Definition refusing_app : App := {|
  app_process := app_process; app_send_error := app_send_error; app_informational := app_informational;
  app_write_req c id is_end := Some (c, 1);
  app_can_stream_request := app_can_stream_request; app_should_forward_expect := app_should_forward_expect;
  sock_capacity := sock_capacity; sock_cwnd_left := sock_cwnd_left; sock_ssl := sock_ssl |}.
Definition closing_upload : option h2conn :=
  conn_after refusing_app (opened refusing_app)
    (frame_octets H2O_HTTP2_FRAME_TYPE_HEADERS 4 1 post_headers ++ frame_octets H2O_HTTP2_FRAME_TYPE_DATA 0 1 (lit "ab") ++
     frame_octets H2O_HTTP2_FRAME_TYPE_DATA 0 1 (lit "cd") ++ frame_octets H2O_HTTP2_FRAME_TYPE_DATA 0 0 []).
Example refused_while_closing :
  (c ← closing_upload; s ← hc_streams c !! 1; Some (hc_state c, hs_body_state s, rx_buf (hs_rx s), rx_entity (hs_rx s)))
    = Some (CONN_IS_CLOSING, BODY_OPEN, Some (lit "abcd"), Some (lit "ab")) /\
  (c ← closing_upload; proceed_request example_config (app := refusing_app) c 1 None) = None.
Proof. split; vm_compute; reflexivity. Qed.
